(* ===== verification/_CoqProject ===== *)
-Q . S2P
Prelude.v
Refinement.v
Bitarithm.v
LinkedList.v
Cib.v
PriorityQueue.v
Lifo.v
Ringbuffer.v
Kernel.v
KernelInv.v
Thread.v
Fairness.v
Mutex.v
Rmutex.v
ThreadFlags.v
Msg.v
Mbox.v
System.v
Ipc.v
IpcSystem.v
Delivery.v
Xtimer.v
Base64.v
Fmt.v
Cbor.v
Checksum.v
Div.v
Timex.v
XtimerIsr.v
XtimerApi.v
Words.v
Cipher.v
Aes.v
AesCorrect.v
Modes.v
Crypto.v
Sha256.v
Sha256Correct.v
HashChain.v
Pktbuf.v
PktbufAlloc.v
PktbufStore.v
PktbufOps.v
PacketBuffer.v
UniversalAddress.v
AddressPool.v
Fib.v
FibInv.v
FibFind.v
FibOps.v
FibTable.v
FibSr.v
FibRoute.v
Ipv6Addr.v
Ipv6Text.v
Ipv6Print.v
Ipv6Prefix.v
Ieee802154.v
Hamming.v
Cmac.v
Tsrb.v
TsrbShared.v
Netreg.v
Netapi.v
Bloom.v
Pipe.v
