(* ===== verification/Prelude.v ===== *)
(** * A verification of the kernel and of core libraries of RIOT

    The repository is a fork of the operating system RIOT for constrained
    devices. Its microkernel is in src/core; the libraries under src/sys
    build on it or stand alone. This development translates the kernel and
    several of those libraries to executable definitions, function by function
    and with the names of the source, and proves them correct.

    ** The program and its parts

    The scheduler keeps one circular list of ready threads per priority and a
    bitmap of the non-empty ones; the active thread is the head of the first
    non-empty list. Mutexes, messages, mailboxes and thread flags block the
    active thread by changing its status (which takes it off its run queue),
    linking its control block into a wait list, and yielding; the peer that
    ends the wait undoes this. Interrupt handlers call the same functions, which
    then only request a switch that happens when the interrupt ends. The timer
    multiplexer keeps sorted lists of timers over one hardware counter; its
    callbacks end sleeps, send messages and time out waits for mutexes. The
    packet buffer of the network stack allocates packets, as lists of shared and
    counted snips, from one static array. The registry of the network stack
    lists the threads that want packets of a type; dispatching a packet sends a
    message to each of them and gives each of them a reference. The forwarding
    information base keeps tables of next hops and of source routes, whose
    addresses are shared and counted containers of one static array. The
    libraries (CBOR, base64, number formatting, checksums, division, ciphers,
    hashes, Hamming codes, bit fields, IPv6 addresses and link-layer headers)
    work on the caller's buffers. Ring buffers connect an interrupt handler and
    a thread without a lock; pipes add that a thread sleeps until there is
    something to read or room to write.

    ** Files

    - Prelude: machine integers at their width, the type [result] of executions
      that may fault, access to arrays, lemmas on lists.
    - Refinement: the class [Implements] (a concrete data structure implements an
      abstract one) and the refinement of whole programs of operations.
    - Bitarithm: core/bitarithm.c.
    - LinkedList: core/include/list.h and clist.h, on a heap of [next] pointers.
    - Cib: core/include/cib.h.
    - PriorityQueue: core/priority_queue.c.
    - Lifo: core/lifo.c.
    - Ringbuffer: core/ringbuffer.c and core/include/ringbuffer.h.
    - Kernel: the kernel state, core/sched.c, and the context switch and
      interrupt state of cpu/native/native_cpu.c and irq_cpu.c.
    - KernelInv: the kernel invariant [kinv], the predicates [running] (a thread
      runs and may call the kernel) and [settled] (the most urgent ready thread
      runs), and the lemmas on the functions of Kernel.
    - Thread: core/thread.c and core/kernel_init.c.
    - Mutex: core/mutex.c. Rmutex: core/rmutex.c. ThreadFlags:
      core/thread_flags.c. Msg: core/msg.c. Mbox: core/mbox.c.
    - Fairness: threads of one priority take turns by core/thread.c's yield.
    - System: what every call on threads and mutexes does to the invariant of a
      running kernel. Ipc: the same for messages and mailboxes, with the
      invariant of pending messages. IpcSystem: threads and interrupt handlers
      making all these calls in any order, from boot on, as a transition system.
      Delivery: what a message that is sent without blocking does to the kernel,
      for clients that send from threads and from interrupt handlers.
    - Xtimer: sys/xtimer/xtimer_core.c and sys/include/xtimer/implementation.h.
      XtimerIsr: the timer interrupt as a whole. XtimerApi: sys/xtimer/xtimer.c,
      over the timers, the kernel and the messages. Timex: sys/timex.
    - Base64: sys/base64/base64.c. Fmt: sys/fmt/fmt.c. Cbor: sys/cbor/cbor.c.
    - Checksum: sys/checksum (crc16_ccitt, ucrc16, fletcher16, fletcher32) and
      sys/net/crosslayer/inet_csum.
    - Div: sys/div/div.c and sys/include/div.h.
    - Words: 32-bit words and their bytes, shared by the files below.
    - Cipher: sys/crypto/ciphers.c, and the class [BlockCipher] of what the modes
      of operation need of a cipher. Aes: sys/crypto/aes.c. AesCorrect: FIPS 197
      on bytes, and the table implementation against it. Modes:
      sys/crypto/modes (ECB, CBC, CTR, CCM) and sys/crypto/helper.c. Crypto: the
      theorems, with AES as instance of the class.
    - Sha256: sys/hashes/sha256.c. Sha256Correct: FIPS 180-4, and the code
      against it. HashChain: the theorems on HMAC and hash chains.
    - Pktbuf: sys/net/gnrc/pktbuf_static, sys/net/gnrc/pktbuf and
      sys/net/gnrc/pkt on a memory of bytes. PktbufAlloc: the allocator, under
      the class [Layout] of addresses and sizes of the array. PktbufStore,
      PktbufOps: the packets as a finite map, and what every operation does to
      it. PacketBuffer: the theorems.
    - UniversalAddress: sys/universal_address/universal_address.c, and the
      invariant of the containers. AddressPool: its users as a whole.
    - Fib: the single-hop tables of sys/net/network_layer/fib/fib.c. FibInv,
      FibFind, FibOps: their invariant, the search for the longest prefix, and
      what the internal functions do. FibTable: the specification as calls on a
      finite map, and the simulation.
    - FibSr: the source routes of fib.c. FibRoute: paths in the pool of hops, and
      the theorems.
    - Ipv6Addr: sys/net/network_layer/ipv6/addr and ipv4/addr. Ipv6Text: lemmas
      on numerals and on the reader. Ipv6Print: the printer and the round trip.
      Ipv6Prefix: prefixes and interface identifiers as bits.
    - Ieee802154: sys/net/link_layer/ieee802154/ieee802154.c.
    - Hamming: sys/ecc/hamming256/hamming256.c.
    - Cmac: sys/hashes/cmac.c.
    - Tsrb: sys/tsrb/tsrb.c and sys/include/tsrb.h, calls that are not
      interrupted. TsrbShared: the same functions access by access, with a
      producer and a consumer that interrupt each other.
    - Netreg: sys/net/gnrc/netreg/gnrc_netreg.c. Netapi:
      sys/net/gnrc/netapi/gnrc_netapi.c, on the kernel, the packet buffer and the
      registry.
    - Bloom: sys/bitfield, sys/bloom and sys/hashes/hashes.c.
    - Pipe: sys/pipe, on the ring buffer and the kernel.

    ** How the source is translated

    An integer object is a [Z], and every operation that can leave the range of
    its C type is followed by that type's conversion ([u32] and so on). A struct
    is a record. A function that writes memory takes the memory and returns the
    new one; kernel functions are in the monad [M] of Kernel, state passing over
    [kstate]. Everything C leaves undefined that the code could run into (a null
    dereference, an access outside an array, an address without object, an
    overflow of a signed type, a failing [assert]) is a [Fault], so an equation
    [f x = Ok y] also says that the execution is free of them. Intrusive lists
    are kept as pointers: nodes are addresses, a map gives the [next] member of
    each, and no representation of the abstract sequence is stored.

    A kernel function that blocks gives up the processor in
    [thread_yield_higher]. The model switches the active thread there. What the
    function does after it is scheduled again is either nothing but to return a
    fixed value, which is then the model's value, or a definition of its own
    ([_lock_owned] of Rmutex, the [..._resume] of ThreadFlags, Mbox, Netapi and
    XtimerApi). The timer code runs before the callbacks it makes, which work on
    the kernel only.

    Loops are structural recursions over a bound. List traversals get the number
    of entries of the heap plus one, array loops the length of the array plus
    one, the CBOR decoder the length of its buffer plus two, and the digit
    counter of Fmt, which counts at most ten digits, gets 40; the theorems that
    state [Ok] show that the bounds suffice. The digit counter really does hang
    on one input ([fmt_u32_dec_hangs]). The loops of Xtimer that end when the
    hardware counter has advanced (busy-waiting and the loops of the interrupt
    handler) are bounded by a parameter [spin], and the theorems about them say
    how large it has to be. A loop over the hops of a source route gets the size
    of the pool plus one.

    ** Configuration

    An ILP32 target; the modules core_msg, core_thread_flags and core_mbox;
    assertions on; no [DEVELHELP] (Lifo has both), [MODULE_SCHEDSTATISTICS] or
    [MODULE_MPU_STACK_GUARD]; the interrupt and switching code of the native CPU.
    [XTIMER_HZ] is at least 1 MHz, and exactly that in XtimerApi. CBOR has
    semantic tagging and neither floats nor ctime. A kernel call is atomic: its
    critical sections run with interrupts disabled, and an interrupt is a step of
    its own. Parameters of the model are the CPU's [thread_stack_init], the
    contents of uninitialised stack memory (also of the local contexts of the
    ciphers and hashes), the hardware counter and the callbacks of timers, the
    address and the size of [_pktbuf], and the [write] system call of Fmt. The
    machine is little-endian. Ciphers are built with CRYPTO_AES; the packet buffer
    without MODULE_GNRC_NETERR and without the statistics of [DEVELHELP].
    Addresses have at most 16 bytes, as with MODULE_IPV6_ADDR; the error numbers
    are those of Linux. The clock of the forwarding information base is a
    parameter [time], its mutex a flag that a second lock waits on for ever
    ([Deadlock]), and a message to a routing protocol an event. MODULE_IPV4_ADDR
    and GNRC_NETTYPE_NUMOF are parameters. The registry and netapi are built
    without MODULE_GNRC_NETAPI_MBOX and MODULE_GNRC_NETAPI_CALLBACKS, so that
    every receiver is a thread; what other threads do while a dispatch is under
    way is a parameter of Netapi. Whether a compiler accesses the array or the
    counter of a thread-safe ring buffer first, which C leaves open, is a
    parameter of TsrbShared.

    ** Theorems

    - The kernel as a whole (C1, IpcSystem): from boot on, every sequence of
      calls on threads, mutexes, messages and mailboxes, by threads and interrupt
      handlers, that keeps the rules of [ipc_allowed] is free of faults and keeps
      the invariant, and outside of interrupts the most urgent ready thread is the
      one that runs. The rules ask among others that a request goes to a living
      thread; C30 says what happens if it does not. Thread flags
      are left out of the transition system: a message to a thread that waits for
      flags makes it ready without a switch, so that the last part would not
      hold.
    - Pipes (C8; Pipe): what is written arrives, in order, and no reader or writer
      sleeps while there is something for it to do, provided that only the pipe
      wakes the threads that sleep in it.
    - The scheduler and threads (C2 - C4, C9; Thread, Fairness): [sched_run] picks
      the highest ready priority; creation and exit on every branch; every thread
      of the running priority runs after a bounded number of yields.
    - The packet buffer (C5, C13; PacketBuffer): every sequence of calls is
      simulated by the same calls on a finite map of snips, free of faults; an
      allocation takes the first unused chunk that is large enough, lies in the
      buffer and apart from all others; releasing any block in use adds the whole
      of it to the unused chunks.
    - Registry and netapi (C7, C21; Netapi, Netreg): the registry implements a
      sequence of entries per type, and faults on removals from an empty type; a
      dispatch posts one message to every registered thread, or is refused by it
      and releases its reference, while other threads and handlers keep the
      registry and the references of the dispatch ([others_ok]).
    - The forwarding information base (C6, C14, C15; FibTable, FibRoute,
      AddressPool): every sequence of calls on a table of next hops, with
      prefixes of whole bytes, is simulated by the same calls on a finite map with
      expiring routes and longest prefix match, and an addition fails only if the
      table is full or the containers are exhausted; a source route that is built
      hop by hop is delivered in both directions; address containers are shared
      and counted correctly while the count of each stays below 256.
    - Cryptography (C10 - C12, C23 - C25; Crypto, Sha256Correct, HashChain, Cmac):
      the table-driven AES is FIPS 197's, for every key and block; SHA-256 in any
      number of pieces is FIPS 180-4's; HMAC is RFC 2104's and CMAC RFC 4493's;
      CBC decrypts what it encrypts (of at least one block), and CCM accepts a message only with the tag
      it computes itself. A lemma adds that the waypoints of a hash chain verify.
    - Addresses and headers (C16, C17, C19; Ipv6Print, Ipv6Prefix, Ieee802154):
      IPv6 addresses are read back from their text, prefixes are written and
      compared bit by bit, MAC headers are read back as they were written.
    - Codes and filters (C18, C22; Hamming, Bloom): a Hamming code repairs one
      inverted bit per block and recognises two; a Bloom filter never denies an
      element that was added.
    - Concurrent ring buffer (C20; TsrbShared, Tsrb): if the compiler accesses the
      array before the counter, a producer and a consumer interrupted at any access
      lose no byte and read none twice; in the other order, which C allows as well,
      the consumer can get a byte that was never added. Uninterrupted calls
      implement a bounded sequence.
    - Synchronisation and communication (C26 - C32): what each call of Mutex,
      Rmutex, Msg, Mbox and ThreadFlags returns and leaves behind, blocked and
      unblocked, with the priority order of the wait queues, and in one case the
      broken state it leaves ([msg_send_receive_nobody]); the lemmas beside them
      cover the remaining calls.
    - Timers (C33 - C36; XtimerApi, Xtimer): a sleeping thread is blocked, with a
      timer for the exact time in its place on one sorted list; the timer
      interrupt wakes the threads whose time has come, in order and none early,
      and sets the counter for the next; the timeout of a mutex takes its thread
      out of the queue; when the counter wraps, the timers of the new period
      become the current list, and the theorem says how many of them the merge of
      two lists loses.
    - Libraries (C37 - C39): round trips of CBOR integers and base64; the
      table-driven CRC is the bitwise one. A lemma adds that decimal numbers are
      printed digit by digit.
    - Data structures (C40; Bitarithm): the bit count ends after as many rounds as
      there are bits. Lemmas add that programs of operations on lists, ring
      buffers, queues and lifos refine the same programs on sequences, and that
      the priority queue is a stable sort.

    Where the code does not do what it means to, the theorem that holds is
    stated with the exact condition, and a lemma beside it exhibits the failure:
    [ringbuffer_remove_overruns], [cib_get_stuck_after_wrap],
    [mbox_put_overwrites], [merge_lists_drops_timers],
    [set_absolute_backoff_underflow], [base64_decode_overflow],
    [fmt_u32_dec_count_wrong], [print_u64_dec_overflow],
    [decode_bytes_length_wraps], [cbor_ensure_size_off_by_one],
    [div_u64_by_15625_gap], and for the packet buffer [alloc_leaks],
    [is_sane_refuses], [duplicate_truncates] and [realloc_wraps], for address
    containers [use_count_wraps], for routes the examples at the end of FibTable
    and FibRoute, for address texts and MAC headers those at the end of Ipv6Print
    and Ieee802154, [verify_writes_behind] of Hamming, [get_one_ambiguous] of
    Tsrb, [count_first_reads_old_byte] and [count_first_loses_byte] of
    TsrbShared, [unregister_empty] of Netreg, [registry_changes_leak] of Netapi,
    [fnv_ignores_leading_zeros] of Bloom, [timex_add_denormal] of Timex,
    [stale_reader_loses_mutex] of Pipe, and
    [short_timeout_bad_pointer], [stale_timeout_message] and [now_timex_wraps] of
    XtimerApi.

    ** What is not modelled

    Register saving, assembler and signal plumbing of context switches; debug
    output; floating point (Fmt, CBOR) and the time conversion of the C library;
    the second timer of xtimer for slow counters; the input validation of the
    packet buffer's debug functions; the printing functions of fib.c and
    universal_address.c and of the IPv6 addresses; gnrc_netreg_calc_csum. Of the
    network stack the packet buffer, the registry, netapi, the forwarding
    information base, addresses, MAC headers and the internet checksum are
    modelled, the protocol threads are not. Device drivers and boards, the shell,
    file systems and the POSIX layer are not part of the development, nor is the
    code fetched at build time.

    What an extension would take up: thread flags and timers in the transition
    system; mailboxes and callbacks as receivers of netapi; the other hash
    functions and ciphers. *)

From stdpp Require Export base tactics list numbers sorting sets functions gmap fin_maps.
From Stdlib Require Export ZArith Lia ZifyBool.
Open Scope Z_scope.

(** ** Machine integers

    An object of C type [uintN_t] is a [Z] in [0 .. 2^N - 1]; every operation
    of the source that can leave the range is followed by the conversion that
    the C type performs. *)

Definition u8 (z : Z) : Z := z mod 256.
Definition u16 (z : Z) : Z := z mod 65536.
Definition u32 (z : Z) : Z := z mod 4294967296.
Definition u64 (z : Z) : Z := z mod 18446744073709551616.

Definition s8 (z : Z) : Z := (z + 128) mod 256 - 128.
Definition s16 (z : Z) : Z := (z + 32768) mod 65536 - 32768.
Definition s32 (z : Z) : Z := (z + 2147483648) mod 4294967296 - 2147483648.

Lemma u32_small z : 0 <= z < 4294967296 → u32 z = z.
Proof. intros. by apply Z.mod_small. Qed.
Lemma u64_small z : 0 <= z < 18446744073709551616 → u64 z = z.
Proof. intros. by apply Z.mod_small. Qed.
Lemma s32_small z : 0 <= z < 2147483648 → s32 z = z.
Proof. intros. unfold s32. rewrite Z.mod_small by lia. lia. Qed.

(** The value of a C comparison. *)
Definition b2z (b : bool) : Z := if b then 1 else 0.

(** ** Faults and results

    [Fault] is the value of an execution the C standard gives no meaning to
    (or that runs into an [assert]); theorems of the form [f x = Ok y] are
    therefore also memory-safety statements. [Deadlock] is the value of a call
    that waits for ever. [OutOfFuel] marks a loop that was cut off: it is never
    reached under the invariants proved here. *)

Inductive fault : Type :=
  | NullDeref
  | BadPointer
  | OutOfBounds
  | AssertFailed
  | SignedOverflow
  | DivByZero
  | BadShift
  | Deadlock
  | OutOfFuel.

Inductive result (A : Type) : Type :=
  | Ok (a : A)
  | Fault (f : fault).
Arguments Ok {A} a.
Arguments Fault {A} f.

Global Instance result_ret : MRet result := fun A a => Ok a.
Global Instance result_bind : MBind result := fun A B f r =>
  match r with Ok a => f a | Fault e => Fault e end.

(** The value of an optional lookup, or the given fault. *)
Definition from_option_or {A} (f : fault) (o : option A) : result A :=
  match o with Some a => Ok a | None => Fault f end.

Definition assert_ (b : bool) : result unit :=
  if b then Ok tt else Fault AssertFailed.

Lemma result_bind_Ok {A B} (a : A) (f : A → result B) :
  (Ok a ≫= f) = f a.
Proof. reflexivity. Qed.

Lemma result_bind_inv {A B} (r : result A) (f : A → result B) b :
  (r ≫= f) = Ok b → ∃ a, r = Ok a ∧ f a = Ok b.
Proof. destruct r; simpl; [eauto | discriminate]. Qed.

(** Arrays read and written by index; an index outside the array is a fault. *)
Definition aget {A} (l : list A) (i : Z) : result A :=
  if (0 <=? i) then from_option_or OutOfBounds (l !! Z.to_nat i)
  else Fault OutOfBounds.

Definition aset {A} (l : list A) (i : Z) (v : A) : result (list A) :=
  if ((0 <=? i) && (i <? Z.of_nat (length l)))%bool
  then Ok (<[Z.to_nat i := v]> l)
  else Fault OutOfBounds.

(** The index arithmetic of array accesses that are in range. *)
Lemma aget_Some {A} (l : list A) (i : Z) x : 0 <= i → l !! Z.to_nat i = Some x → aget l i = Ok x.
Proof. intros Hi Hx. unfold aget. assert ((0 <=? i) = true) as -> by lia. by rewrite Hx. Qed.

Lemma aset_Ok {A} (l : list A) (i : Z) x :
  0 <= i < Z.of_nat (length l) → aset l i x = Ok (<[Z.to_nat i := x]> l).
Proof.
  intros Hi. unfold aset.
  by assert (((0 <=? i) && (i <? Z.of_nat (length l)))%bool = true) as -> by lia.
Qed.

(** Accesses right behind a known prefix. *)
Lemma aset_app {A} (w r : list A) x v i :
  i = Z.of_nat (length w) → aset (w ++ x :: r) i v = Ok (w ++ v :: r).
Proof.
  intros ->. rewrite aset_Ok by (rewrite length_app; simpl; lia).
  by rewrite Nat2Z.id, insert_app_r_alt, Nat.sub_diag by lia.
Qed.

Lemma aget_app {A} (w r : list A) x i : i = Z.of_nat (length w) → aget (w ++ x :: r) i = Ok x.
Proof. intros ->. apply aget_Some; [lia|]. by rewrite Nat2Z.id, list_lookup_middle. Qed.

(** [memcpy(dst + doff, src + soff, n)] on whole objects. *)
Definition memcpy {A} (dst : list A) (doff : Z) (src : list A) (soff n : Z) : result (list A) :=
  if ((0 <=? doff) && (0 <=? soff) && (0 <=? n) &&
      (doff + n <=? Z.of_nat (length dst)) && (soff + n <=? Z.of_nat (length src)))%bool
  then Ok (take (Z.to_nat doff) dst ++ take (Z.to_nat n) (drop (Z.to_nat soff) src) ++
           drop (Z.to_nat (doff + n)) dst)
  else Fault OutOfBounds.

Lemma memcpy_Ok {A} (dst src : list A) doff soff n :
  0 <= doff → 0 <= soff → 0 <= n → doff + n <= Z.of_nat (length dst) →
  soff + n <= Z.of_nat (length src) →
  memcpy dst doff src soff n =
    Ok (take (Z.to_nat doff) dst ++ take (Z.to_nat n) (drop (Z.to_nat soff) src) ++
        drop (Z.to_nat (doff + n)) dst).
Proof. intros. unfold memcpy. case_match; [done|lia]. Qed.

Lemma memcpy_out {A} (dst src : list A) doff soff n :
  Z.of_nat (length dst) < doff + n ∨ Z.of_nat (length src) < soff + n →
  memcpy dst doff src soff n = Fault OutOfBounds.
Proof. intros. unfold memcpy. case_match; [lia|done]. Qed.

(** ** Tactics *)

(** [lia] on goals with division and remainder by constants. *)
Ltac dlia := Z.to_euclidean_division_equations; lia.

(** ** Bounds of bit operations *)

Lemma bits_bound n a :
  0 <= n → 0 <= a → (∀ i, n <= i → Z.testbit a i = false) → a < 2 ^ n.
Proof.
  intros Hn Ha Hb. destruct (decide (a < 2 ^ n)) as [|Hge]; [done|].
  assert (0 < a) by (pose proof (Z.pow_pos_nonneg 2 n); lia).
  assert (n <= Z.log2 a) by (apply Z.log2_le_pow2; lia).
  specialize (Hb (Z.log2 a)). rewrite Z.bit_log2 in Hb by lia. by discriminate Hb.
Qed.

Lemma testbit_above n a i : 0 <= a < 2 ^ n → n <= i → Z.testbit a i = false.
Proof.
  intros Ha Hi. destruct (decide (0 <= n)).
  - destruct (decide (a = 0)) as [->|]; [apply Z.bits_0|].
    apply Z.bits_above_log2; [lia|]. apply Z.log2_lt_pow2; [lia|].
    apply Z.lt_le_trans with (2 ^ n); [lia|]. apply Z.pow_le_mono_r; lia.
  - rewrite Z.pow_neg_r in Ha by lia. lia.
Qed.

Lemma land_bound n a b : 0 <= n → 0 <= a < 2 ^ n → 0 <= Z.land a b < 2 ^ n.
Proof.
  intros Hn Ha. assert (0 <= Z.land a b) by (apply Z.land_nonneg; lia).
  split; [done|]. apply bits_bound; [done..|]. intros i Hi.
  by rewrite Z.land_spec, (testbit_above n a).
Qed.

Lemma lor_bound n a b :
  0 <= n → 0 <= a < 2 ^ n → 0 <= b < 2 ^ n → 0 <= Z.lor a b < 2 ^ n.
Proof.
  intros Hn Ha Hb. assert (0 <= Z.lor a b) by (apply Z.lor_nonneg; lia).
  split; [done|]. apply bits_bound; [done..|]. intros i Hi.
  by rewrite Z.lor_spec, (testbit_above n a), (testbit_above n b).
Qed.

Lemma lxor_bound n a b :
  0 <= n → 0 <= a < 2 ^ n → 0 <= b < 2 ^ n → 0 <= Z.lxor a b < 2 ^ n.
Proof.
  intros Hn Ha Hb. assert (0 <= Z.lxor a b) by (apply Z.lxor_nonneg; lia).
  split; [done|]. apply bits_bound; [done..|]. intros i Hi.
  by rewrite Z.lxor_spec, (testbit_above n a), (testbit_above n b).
Qed.

(** ** Lists *)

Lemma filter_all {A} (P : A → Prop) `{!∀ x, Decision (P x)} (l : list A) :
  (∀ x, x ∈ l → P x) → filter P l = l.
Proof.
  induction l as [|y l IH]; [done|]. intros Hall.
  rewrite filter_cons_True by (apply Hall; set_solver).
  f_equal. apply IH. set_solver.
Qed.

Lemma filter_none {A} (P : A → Prop) `{!∀ x, Decision (P x)} (l : list A) :
  Forall (λ x, ¬ P x) l → filter P l = [].
Proof. induction 1 as [|x l Hx Hl IH]; [done|]. by rewrite filter_cons_False. Qed.

(** ** Stable insertion by a key

    The shape of every priority-ordered list of the program: a new element
    goes behind all elements whose key is not larger. *)

Section InsertBy.
Context {A : Type} (key : A → Z).

Fixpoint insert_by (x : A) (l : list A) : list A :=
  match l with
  | [] => [x]
  | y :: l => if key x <? key y then x :: y :: l else y :: insert_by x l
  end.

(** Ascending keys. *)
Definition sorted_by (l : list A) : Prop := StronglySorted (λ x y, key x <= key y) l.

Lemma insert_by_perm x l : insert_by x l ≡ₚ x :: l.
Proof.
  induction l as [|y l IH]; simpl; [done|]. destruct (key x <? key y); [done|].
  rewrite IH. apply Permutation_swap.
Qed.

Lemma elem_of_insert_by x y l : y ∈ insert_by x l ↔ y = x ∨ y ∈ l.
Proof. rewrite insert_by_perm. set_solver. Qed.

Lemma insert_by_sorted x l : sorted_by l → sorted_by (insert_by x l).
Proof.
  unfold sorted_by. induction 1 as [|y l Hl IH Hy]; simpl; [repeat constructor|].
  destruct (Z.ltb_spec (key x) (key y)).
  - constructor; [by constructor|]. constructor; [lia|].
    eapply Forall_impl; [exact Hy|]. simpl. lia.
  - constructor; [done|]. apply Forall_forall. intros z Hz.
    apply elem_of_insert_by in Hz as [->|Hz]; [lia|].
    rewrite Forall_forall in Hy. by apply Hy.
Qed.

(** Among elements of equal key the new one comes last. *)
Lemma insert_by_stable x l p :
  sorted_by l →
  filter (λ y, key y = p) (insert_by x l) =
  filter (λ y, key y = p) l ++ filter (λ y, key y = p) [x].
Proof.
  unfold sorted_by. induction 1 as [|y l Hl IH Hy]; simpl; [done|].
  destruct (Z.ltb_spec (key x) (key y)).
  - rewrite (filter_cons _ x), (filter_cons _ x []).
    case_decide as Hx; [|by rewrite app_nil_r].
    assert (filter (λ z, key z = p) (y :: l) = []) as ->; [|done].
    apply filter_none. constructor; [lia|].
    eapply Forall_impl; [exact Hy|]. simpl. lia.
  - rewrite !(filter_cons _ y). case_decide; rewrite IH; done.
Qed.

(** Inserting the elements of a sequence one after the other. *)
Definition insert_all (xs l : list A) : list A := foldl (λ l x, insert_by x l) l xs.

Lemma insert_all_sorted xs l : sorted_by l → sorted_by (insert_all xs l).
Proof.
  revert l. induction xs as [|x xs IH]; intros l Hl; [done|].
  apply IH. by apply insert_by_sorted.
Qed.

Lemma insert_all_perm xs l : insert_all xs l ≡ₚ xs ++ l.
Proof.
  revert l. induction xs as [|x xs IH]; intros l; [done|]. simpl.
  etransitivity; [apply IH|]. rewrite insert_by_perm. symmetry. apply Permutation_middle.
Qed.

Lemma insert_all_stable xs l p :
  sorted_by l →
  filter (λ y, key y = p) (insert_all xs l) =
  filter (λ y, key y = p) l ++ filter (λ y, key y = p) xs.
Proof.
  revert l. induction xs as [|x xs IH]; intros l Hl; simpl.
  { by rewrite app_nil_r. }
  unfold insert_all in *. simpl. rewrite IH by (by apply insert_by_sorted).
  rewrite insert_by_stable by done. rewrite <- app_assoc. f_equal.
  rewrite !filter_cons. case_decide; done.
Qed.

End InsertBy.

Lemma insert_by_ext {A} (f g : A → Z) x l :
  (∀ y, f y = g y) → insert_by f x l = insert_by g x l.
Proof. intros Hfg. induction l as [|y l IH]; [done|]. simpl. by rewrite !Hfg, IH. Qed.

Lemma sorted_by_mono {A} (f g : A → Z) l :
  (∀ x y, x ∈ l → y ∈ l → f x <= f y → g x <= g y) → sorted_by f l → sorted_by g l.
Proof.
  unfold sorted_by. intros Hfg. induction 1 as [|x l Hl IH Hx]; constructor.
  - apply IH. set_solver.
  - rewrite Forall_forall in *. intros y Hy. apply Hfg; [set_solver..|by apply Hx].
Qed.

Lemma sorted_by_filter {A} (f : A → Z) (P : A → Prop) `{!∀ x, Decision (P x)} l :
  sorted_by f l → sorted_by f (filter P l).
Proof.
  unfold sorted_by. induction 1 as [|x l Hl IH Hx]; [constructor|]. rewrite filter_cons.
  case_decide; [|done]. constructor; [done|]. rewrite Forall_forall in *. intros y Hy.
  apply list_elem_of_filter in Hy as [_ Hy]. by apply Hx.
Qed.
