(* ===== verification/Refinement.v ===== *)
(** * Data structures as implementations of abstract ones

    The interface between the containers of the kernel and the theorems about
    them: a container implements an abstract type when every operation, on a
    representation, does not fault, returns what the abstract operation returns
    and leaves a representation of the abstract result. Programs of operations
    are then refined as a whole, once and for all containers. *)

From S2P Require Import Prelude.
Open Scope Z_scope.

Section Run.
Context {St Abs Op Res : Type}.
Context (exec : St → Op → result (Res * St)) (spec : Abs → Op → Res * Abs).

(** Running a program, collecting the returned values. *)
Fixpoint run_exec (st : St) (ops : list Op) : result (list Res * St) :=
  match ops with
  | [] => Ok ([], st)
  | op :: ops => r ← exec st op; rs ← run_exec r.2 ops; Ok (r.1 :: rs.1, rs.2)
  end.

Fixpoint run_spec (a : Abs) (ops : list Op) : list Res * Abs :=
  match ops with
  | [] => ([], a)
  | op :: ops => let '(r, a) := spec a op in let '(rs, a) := run_spec a ops in (r :: rs, a)
  end.

(** Every operation is allowed in the state it is run in. *)
Fixpoint run_allowed (allowed : St → Abs → Op → Prop) (st : St) (a : Abs) (ops : list Op) : Prop :=
  match ops with
  | [] => True
  | op :: ops =>
      allowed st a op ∧
      ∀ r st', exec st op = Ok (r, st') → run_allowed allowed st' (snd (spec a op)) ops
  end.
End Run.

Class Implements {St Abs Op Res : Type} (exec : St → Op → result (Res * St)) (spec : Abs → Op → Res * Abs)
    (allowed : St → Abs → Op → Prop) (rep : St → Abs → Prop) : Prop :=
  implements_step st a op :
    rep st a → allowed st a op →
    ∃ st', exec st op = Ok (fst (spec a op), st') ∧ rep st' (snd (spec a op)).

Lemma implements_run `{Implements St Abs Op Res exec spec allowed rep} st a ops :
  rep st a → run_allowed exec spec allowed st a ops →
  ∃ st', run_exec exec st ops = Ok (fst (run_spec spec a ops), st') ∧ rep st' (snd (run_spec spec a ops)).
Proof.
  revert st a. induction ops as [|op ops IH]; intros st a Hrep Hal; [by exists st|].
  destruct Hal as [Hop Hal]. destruct (implements_step st a op Hrep Hop) as (st1 & E & Hrep1).
  destruct (IH st1 _ Hrep1 (Hal _ _ E)) as (st2 & E2 & Hrep2). exists st2.
  cbn [run_exec run_spec]. rewrite E. cbn [mbind result_bind fst snd]. rewrite E2.
  destruct (spec a op) as [r a1]. simpl in *. by destruct (run_spec spec a1 ops).
Qed.

(** A condition on the abstract state alone can be checked on the abstract run. *)
Fixpoint spec_allowed {Abs Op Res : Type} (spec : Abs → Op → Res * Abs) (allowed : Abs → Op → Prop)
    (a : Abs) (ops : list Op) : Prop :=
  match ops with
  | [] => True
  | op :: ops => allowed a op ∧ spec_allowed spec allowed (snd (spec a op)) ops
  end.

Lemma run_allowed_spec {St Abs Op Res : Type} (exec : St → Op → result (Res * St)) (spec : Abs → Op → Res * Abs)
    (allowed : Abs → Op → Prop) st a ops :
  spec_allowed spec allowed a ops → run_allowed exec spec (λ _ a op, allowed a op) st a ops.
Proof. revert st a. induction ops as [|op ops IH]; intros st a; [done|]. intros [Hop Hal]. split; auto. Qed.
