(* ===== verification/Bitarithm.v ===== *)
(** * core/bitarithm.c: bit arithmetic on [unsigned]

    The three functions of the file, with both compile-time variants of
    [bitarithm_msb], and the theorems that relate them to [Z.log2],
    [Z.testbit] and the number of set bits. [bitarithm_lsb] is what the
    scheduler uses to find the first non-empty run queue. *)

From S2P Require Import Prelude.
Open Scope Z_scope.

(** The branch compiled when [ARCH_32_BIT] holds. *)
Definition bitarithm_msb (v : Z) : Z :=
  let r := Z.shiftl (b2z (65535 <? v)) 4 in
  let v := Z.shiftr v r in
  let shift := Z.shiftl (b2z (255 <? v)) 3 in
  let v := Z.shiftr v shift in
  let r := Z.lor r shift in
  let shift := Z.shiftl (b2z (15 <? v)) 2 in
  let v := Z.shiftr v shift in
  let r := Z.lor r shift in
  let shift := Z.shiftl (b2z (3 <? v)) 1 in
  let v := Z.shiftr v shift in
  let r := Z.lor r shift in
  Z.lor r (Z.shiftr v 1).

(** The [while (v >>= 1) r++] loop of the other architectures. *)
Fixpoint bitarithm_msb_loop (fuel : nat) (v r : Z) : result Z :=
  match fuel with
  | O => Fault OutOfFuel
  | S fuel =>
      let v := Z.shiftr v 1 in
      if v =? 0 then Ok r else bitarithm_msb_loop fuel v (r + 1)
  end.

Definition bitarithm_msb_generic (v : Z) : result Z := bitarithm_msb_loop 32 v 0.

(** The loop has no exit for [v = 0]; 33 rounds see every bit of an
    [unsigned]. *)
Fixpoint bitarithm_lsb_loop (fuel : nat) (v r : Z) : result Z :=
  match fuel with
  | O => Fault OutOfFuel
  | S fuel =>
      if Z.land v 1 =? 0 then bitarithm_lsb_loop fuel (Z.shiftr v 1) (r + 1)
      else Ok r
  end.

Definition bitarithm_lsb (v : Z) : result Z := bitarithm_lsb_loop 33 v 0.

Fixpoint bitarithm_bits_set_loop (fuel : nat) (v c : Z) : result Z :=
  match fuel with
  | O => Fault OutOfFuel
  | S fuel =>
      if v =? 0 then Ok c
      else bitarithm_bits_set_loop fuel (Z.land v (u32 (v - 1))) (c + 1)
  end.

Definition bitarithm_bits_set (v : Z) : result Z := bitarithm_bits_set_loop 33 v 0.

(** The reference: how many of the 32 positions hold a one. *)
Definition ones (n : nat) (v : Z) : Z :=
  Z.of_nat (length (filter (λ i, Z.testbit v i = true) (seqZ 0 (Z.of_nat n)))).

(** ** Most significant bit *)

Lemma log2_between v c : 0 <= c → 2 ^ c <= v < 2 ^ (c + 1) → Z.log2 v = c.
Proof. intros. apply Z.log2_unique; lia. Qed.

Lemma log2_shiftr v s :
  0 <= s → 2 ^ s <= v → Z.log2 v = s + Z.log2 (Z.shiftr v s).
Proof.
  intros Hs Hv. rewrite Z.log2_shiftr by lia.
  assert (s <= Z.log2 v) by (apply Z.log2_le_pow2; lia). lia.
Qed.

(** One round of the binary search: comparing with [2^s - 1] decides whether
    [s] more positions are skipped. *)
Lemma msb_round v s :
  0 < s → 0 < v < 2 ^ (2 * s) →
  let sh := if 2 ^ s - 1 <? v then s else 0 in
  0 < Z.shiftr v sh < 2 ^ s ∧ Z.log2 v = sh + Z.log2 (Z.shiftr v sh).
Proof.
  intros Hs [Hp Hv]. simpl. destruct (Z.ltb_spec (2 ^ s - 1) v).
  - split; [|by apply log2_shiftr; lia].
    rewrite Z.shiftr_div_pow2 by lia.
    replace (2 * s) with (s + s) in Hv by lia. rewrite Z.pow_add_r in Hv by lia.
    split; [apply Z.div_str_pos | apply Z.div_lt_upper_bound]; lia.
  - rewrite Z.shiftr_0_r. lia.
Qed.

Lemma shift_b2z (b : bool) k : 0 <= k → Z.shiftl (b2z b) k = if b then 2 ^ k else 0.
Proof. intros. destruct b; simpl b2z; rewrite Z.shiftl_mul_pow2; lia. Qed.

Lemma bitarithm_msb_log2 v : 0 < v < 2 ^ 32 → bitarithm_msb v = Z.log2 v.
Proof.
  intros Hv. unfold bitarithm_msb. rewrite !shift_b2z by lia.
  pose proof (msb_round v 16 ltac:(lia) Hv) as [H1 E1].
  change (2 ^ 16 - 1) with 65535 in *. change (2 ^ 4) with 16.
  set (r1 := if 65535 <? v then 16 else 0) in *. set (v1 := Z.shiftr v r1) in *.
  pose proof (msb_round v1 8 ltac:(lia) H1) as [H2 E2].
  change (2 ^ 8 - 1) with 255 in *. change (2 ^ 3) with 8.
  set (r2 := if 255 <? v1 then 8 else 0) in *. set (v2 := Z.shiftr v1 r2) in *.
  pose proof (msb_round v2 4 ltac:(lia) H2) as [H3 E3].
  change (2 ^ 4 - 1) with 15 in *. change (2 ^ 2) with 4.
  set (r3 := if 15 <? v2 then 4 else 0) in *. set (v3 := Z.shiftr v2 r3) in *.
  pose proof (msb_round v3 2 ltac:(lia) H3) as [H4 E4].
  change (2 ^ 2 - 1) with 3 in *. change (2 ^ 1) with 2.
  set (r4 := if 3 <? v3 then 2 else 0) in *. set (v4 := Z.shiftr v3 r4) in *.
  rewrite E1, E2, E3, E4.
  assert (Z.shiftr v4 1 = Z.log2 v4 ∧ (v4 = 1 ∨ v4 = 2 ∨ v4 = 3)) as [-> Hv4].
  { assert (v4 = 1 ∨ v4 = 2 ∨ v4 = 3) as [-> | [-> | ->]] by lia; auto. }
  unfold r1, r2, r3, r4 in *.
  destruct Hv4 as [-> | [-> | ->]];
    destruct (65535 <? v), (255 <? v1), (15 <? v2), (3 <? v3); reflexivity.
Qed.

Lemma bitarithm_msb_loop_log2 fuel v r :
  0 < v → Z.log2 v < Z.of_nat fuel →
  bitarithm_msb_loop fuel v r = Ok (r + Z.log2 v).
Proof.
  revert v r. induction fuel as [|fuel IH]; intros v r Hv Hf.
  { pose proof (Z.log2_nonneg v). lia. }
  cbn [bitarithm_msb_loop]. destruct (Z.eqb_spec (Z.shiftr v 1) 0) as [E|E].
  - rewrite Z.shiftr_div_pow2 in E by lia. change (2 ^ 1) with 2 in E.
    assert (v = 1) as -> by dlia. simpl. f_equal; lia.
  - rewrite Z.shiftr_div_pow2 in * by lia. change (2 ^ 1) with 2 in *.
    assert (0 < v / 2) by dlia.
    assert (Z.log2 v = 1 + Z.log2 (v / 2)).
    { pose proof (log2_shiftr v 1 ltac:(lia)) as HH.
      rewrite Z.shiftr_div_pow2 in HH by lia. apply HH. simpl. dlia. }
    rewrite IH by lia. f_equal; lia.
Qed.

(** ** Least significant bit *)

Lemma land_1 v : Z.land v 1 = v mod 2.
Proof. change 1 with (Z.ones 1). rewrite Z.land_ones by lia. reflexivity. Qed.

Lemma testbit_half v i : 0 <= i → Z.testbit (v / 2) i = Z.testbit v (i + 1).
Proof. intros. rewrite Z.add_1_r. by apply Z.div2_bits. Qed.

Lemma testbit_0_mod v : Z.testbit v 0 = negb (v mod 2 =? 0).
Proof.
  pose proof (Z.bit0_mod v) as H. rewrite <- H. by destruct (Z.testbit v 0).
Qed.

Lemma bitarithm_lsb_loop_spec fuel v r :
  0 < v < 2 ^ Z.of_nat fuel →
  ∃ k, bitarithm_lsb_loop fuel v r = Ok (r + k) ∧ 0 <= k < Z.of_nat fuel ∧
       Z.testbit v k = true ∧ ∀ i, 0 <= i < k → Z.testbit v i = false.
Proof.
  revert v r. induction fuel as [|fuel IH]; intros v r Hv.
  { simpl in Hv. lia. }
  cbn [bitarithm_lsb_loop]. rewrite land_1.
  destruct (Z.eqb_spec (v mod 2) 0) as [E|E].
  - rewrite Z.shiftr_div_pow2 by lia. change (2 ^ 1) with 2.
    rewrite Nat2Z.inj_succ, Z.pow_succ_r in Hv by lia.
    destruct (IH (v / 2) (r + 1)) as (k & Hk & Hr & Ht & Hl); [dlia|].
    exists (k + 1). split; [rewrite Hk; f_equal; lia|]. split; [lia|].
    split.
    + by rewrite <- testbit_half by lia.
    + intros i Hi. destruct (decide (i = 0)) as [->|].
      * by rewrite testbit_0_mod, E.
      * replace i with (i - 1 + 1) by lia. rewrite <- testbit_half by lia.
        apply Hl. lia.
  - exists 0. rewrite Z.add_0_r. split; [done|]. split; [lia|]. split; [|lia].
    rewrite testbit_0_mod. by apply Z.eqb_neq in E as ->.
Qed.

Lemma bitarithm_lsb_spec v :
  0 < v < 2 ^ 32 →
  ∃ k, bitarithm_lsb v = Ok k ∧ 0 <= k < 32 ∧
       Z.testbit v k = true ∧ ∀ i, 0 <= i < k → Z.testbit v i = false.
Proof.
  intros Hv.
  destruct (bitarithm_lsb_loop_spec 33 v 0) as (k & Hk & Hr & Ht & Hl).
  { change (Z.of_nat 33) with 33. lia. }
  exists k. split; [exact Hk|]. split; [|done].
  destruct (decide (k < 32)); [lia|].
  rewrite Z.bits_above_log2 in Ht; [done|lia|]. apply Z.log2_lt_pow2; [lia|].
  apply Z.lt_le_trans with (2 ^ 32); [lia|]. apply Z.pow_le_mono_r; lia.
Qed.

Lemma bitarithm_lsb_zero : bitarithm_lsb 0 = Fault OutOfFuel.
Proof. reflexivity. Qed.

(** ** Population count *)

Lemma testbit_clear_lowest_odd w i :
  0 <= i → Z.testbit (Z.land (2 * w + 1) (2 * w)) i = Z.testbit (2 * w) i.
Proof.
  intros Hi. rewrite Z.land_spec.
  destruct (decide (i = 0)) as [->|].
  - rewrite Z.testbit_even_0, andb_false_r. done.
  - replace i with (Z.succ (i - 1)) by lia.
    rewrite Z.testbit_odd_succ, Z.testbit_even_succ by lia. apply andb_diag.
Qed.

Lemma land_pred_odd w : Z.land (2 * w + 1) (2 * w + 1 - 1) = 2 * w.
Proof.
  replace (2 * w + 1 - 1) with (2 * w) by lia.
  apply Z.bits_inj'. intros. by apply testbit_clear_lowest_odd.
Qed.

Lemma land_pred_even w : Z.land (2 * w) (2 * w - 1) = 2 * Z.land w (w - 1).
Proof.
  replace (2 * w - 1) with (2 * (w - 1) + 1) by lia.
  apply Z.bits_inj'. intros i Hi. rewrite Z.land_spec.
  destruct (decide (i = 0)) as [->|].
  - rewrite !Z.testbit_even_0. done.
  - replace i with (Z.succ (i - 1)) by lia.
    rewrite Z.testbit_odd_succ, !Z.testbit_even_succ, Z.land_spec by lia. done.
Qed.

(** [ones] reads the bits one position at a time. *)
Lemma ones_shift n v : ones (S n) v = b2z (Z.testbit v 0) + ones n (v / 2).
Proof.
  unfold ones. rewrite Nat2Z.inj_succ.
  rewrite seqZ_cons by lia. rewrite Z.pred_succ.
  rewrite filter_cons.
  assert (∀ l : list Z, Forall (λ i, 0 <= i) l →
    length (filter (λ i, Z.testbit v i = true) (Z.succ <$> l)) =
    length (filter (λ i, Z.testbit (v / 2) i = true) l)) as Hsucc.
  { induction l as [|x l IH]; [done|]. intros [Hx Hl]%Forall_cons_1.
    rewrite fmap_cons, !filter_cons.
    rewrite (testbit_half v x Hx), <- Z.add_1_r.
    case_decide; simpl; rewrite IH by done; done. }
  assert (seqZ (Z.succ 0) (Z.of_nat n) = Z.succ <$> seqZ 0 (Z.of_nat n)) as ->.
  { change (Z.succ 0) with (1 + 0). rewrite <- fmap_add_seqZ.
    apply list_fmap_ext. intros; lia. }
  assert (Forall (λ i, 0 <= i) (seqZ 0 (Z.of_nat n))).
  { apply Forall_lookup_2. intros i x Hx%lookup_seqZ. lia. }
  case_decide as Hb.
  - cbn [length]. rewrite Hsucc by done. rewrite Hb. simpl b2z. lia.
  - apply not_true_is_false in Hb. rewrite Hb, Hsucc by done. simpl. lia.
Qed.

Lemma ones_0 n : ones n 0 = 0.
Proof.
  induction n as [|n IH]; [done|]. rewrite ones_shift. simpl. exact IH.
Qed.

Lemma ones_lt n v : ones n v < Z.of_nat (S n).
Proof.
  unfold ones. pose proof (length_filter (λ i, Z.testbit v i = true) (seqZ 0 (Z.of_nat n))).
  rewrite length_seqZ in *. lia.
Qed.

Lemma ones_nonneg n v : 0 <= ones n v.
Proof. unfold ones. lia. Qed.

(** Clearing the lowest set bit takes exactly one off the count. *)
Lemma ones_clear_lowest n v :
  0 < v < 2 ^ Z.of_nat n → ones n v = 1 + ones n (Z.land v (v - 1)).
Proof.
  revert v. induction n as [|n IH]; intros v Hv; [simpl in Hv; lia|].
  rewrite Nat2Z.inj_succ, Z.pow_succ_r in Hv by lia.
  rewrite !ones_shift.
  destruct (Z.Even_or_Odd v) as [[w ->] | [w ->]].
  - rewrite land_pred_even, !Z.testbit_even_0. simpl.
    rewrite !(Z.mul_comm 2), !Z.div_mul by lia. rewrite IH by lia. lia.
  - rewrite land_pred_odd, Z.testbit_even_0, Z.testbit_odd_0.
    rewrite (Z.mul_comm 2), Z.div_add_l, Z.div_mul by lia.
    simpl b2z. change (1 / 2) with 0. rewrite Z.add_0_r. lia.
Qed.

Lemma bitarithm_bits_set_loop_spec fuel n v c :
  0 <= v < 2 ^ Z.of_nat n → (n <= 32)%nat → ones n v < Z.of_nat fuel →
  bitarithm_bits_set_loop fuel v c = Ok (c + ones n v).
Proof.
  revert v c. induction fuel as [|fuel IH]; intros v c Hv Hn Hf.
  { pose proof (ones_nonneg n v). lia. }
  simpl. destruct (Z.eqb_spec v 0) as [->|E].
  - rewrite ones_0. f_equal; lia.
  - assert (v < 2 ^ 32) by (apply Z.lt_le_trans with (2 ^ Z.of_nat n);
      [lia | apply Z.pow_le_mono_r; lia]).
    assert (u32 (v - 1) = v - 1) as -> by (unfold u32; rewrite Z.mod_small; lia).
    pose proof (ones_clear_lowest n v ltac:(lia)) as Hc.
    rewrite IH; [f_equal; lia| |done|lia].
    apply land_bound; lia.
Qed.

(** ** Properties *)

(** On every non-zero [unsigned], [bitarithm_msb] as compiled for 32-bit
    targets returns the index of the highest set bit, terminating and agreeing
    with the portable shift loop of the other targets. *)
Theorem bitarithm_msb_correct v :
  0 < v < 2 ^ 32 →
  bitarithm_msb v = Z.log2 v ∧ bitarithm_msb_generic v = Ok (bitarithm_msb v).
Proof.
  intros Hv. rewrite bitarithm_msb_log2 by done. split; [done|].
  apply bitarithm_msb_loop_log2; [lia|]. apply Z.log2_lt_pow2; lia.
Qed.

Lemma bitarithm_msb_correct_witness :
  bitarithm_msb 40 = Z.log2 40 ∧ bitarithm_msb_generic 40 = Ok (bitarithm_msb 40).
Proof. apply (bitarithm_msb_correct 40). lia. Defined.

(** C40: [bitarithm_bits_set] terminates on every [unsigned] and returns its
    number of set bits. *)
Theorem bitarithm_bits_set_correct v :
  0 <= v < 2 ^ 32 → bitarithm_bits_set v = Ok (ones 32 v).
Proof.
  intros Hv. unfold bitarithm_bits_set.
  rewrite (bitarithm_bits_set_loop_spec 33 32) by (done || apply ones_lt).
  done.
Qed.

Lemma bitarithm_bits_set_correct_witness :
  bitarithm_bits_set 4294967295 = Ok (ones 32 4294967295).
Proof. apply (bitarithm_bits_set_correct 4294967295). lia. Defined.
