(* ===== verification/LinkedList.v ===== *)
(** * core/include/list.h and core/include/clist.h: intrusive linked lists

    A list node of the source is an address; the [next] members of all nodes
    together are a finite map from addresses to addresses, where an absent
    entry is a [NULL] pointer. The functions of the two headers are written on
    that map, pointer by pointer. [is_list] and [is_clist] say which sequence a
    list head represents, and the lemmas show that each function performs the
    corresponding operation on sequences. *)

From S2P Require Import Prelude Refinement.
Open Scope Z_scope.

Section LinkedList.
Context {node : Type} `{Countable node}.
Implicit Types (h : gmap node node) (l : list node) (p : option node).

(** ** Memory accesses *)

(** [x->next = v] *)
Definition set_next h (x : node) (v : option node) : gmap node node :=
  match v with Some y => <[x := y]> h | None => delete x h end.
Arguments set_next : simpl never.

(** [p->next], a fault when [p] is [NULL]. *)
Definition next_of h p : result (option node) :=
  match p with Some x => Ok (h !! x) | None => Fault NullDeref end.

(** ** list.h *)

Definition list_add h (node_ new_node : node) : gmap node node :=
  let h := set_next h new_node (h !! node_) in
  set_next h node_ (Some new_node).

Definition list_remove_head h (list : node) : option node * gmap node node :=
  let head := h !! list in
  match head with
  | Some hd => (head, set_next h list (h !! hd))
  | None => (head, h)
  end.

Fixpoint list_remove_loop (fuel : nat) h (list node_ : node)
  : result (option node * gmap node node) :=
  match fuel with
  | O => Fault OutOfFuel
  | S fuel =>
      match h !! list with
      | Some nxt =>
          if decide (nxt = node_)
          then Ok (Some node_, set_next h list (h !! node_))
          else list_remove_loop fuel h nxt node_
      | None => Ok (None, h)
      end
  end.

Definition list_remove h (list node_ : node) :=
  list_remove_loop (S (size h)) h list node_.

(** ** clist.h *)

Definition clist_rpush h (list new_node : node) : gmap node node :=
  match h !! list with
  | Some lst =>
      let h := set_next h new_node (h !! lst) in
      let h := set_next h lst (Some new_node) in
      set_next h list (Some new_node)
  | None =>
      let h := set_next h new_node (Some new_node) in
      set_next h list (Some new_node)
  end.

Definition clist_lpush h (list new_node : node) : gmap node node :=
  match h !! list with
  | Some lst =>
      let h := set_next h new_node (h !! lst) in
      set_next h lst (Some new_node)
  | None =>
      let h := set_next h new_node (Some new_node) in
      set_next h list (Some new_node)
  end.

Definition clist_lpop h (list : node) : result (option node * gmap node node) :=
  match h !! list with
  | Some lst =>
      let first := h !! lst in
      if decide (Some lst = first) then Ok (first, set_next h list None)
      else n ← next_of h first; Ok (first, set_next h lst n)
  | None => Ok (None, h)
  end.

Definition clist_lpoprpush h (list : node) : gmap node node :=
  match h !! list with
  | Some lst => set_next h list (h !! lst)
  | None => h
  end.

Definition clist_lpeek h (list : node) : option node :=
  match h !! list with Some lst => h !! lst | None => None end.

Definition clist_rpeek h (list : node) : option node := h !! list.

Fixpoint clist_rpop_loop (fuel : nat) h (list last : node) : result (gmap node node) :=
  match fuel with
  | O => Fault OutOfFuel
  | S fuel =>
      n ← next_of h (h !! list);
      if decide (n = Some last) then Ok h
      else clist_rpop_loop fuel (clist_lpoprpush h list) list last
  end.

Definition clist_rpop h (list : node) : result (option node * gmap node node) :=
  match h !! list with
  | Some last => h ← clist_rpop_loop (S (size h)) h list last; clist_lpop h list
  | None => Ok (None, h)
  end.

Fixpoint clist_find_before_loop (fuel : nat) h (list : node) p (node_ : node)
  : result (option node) :=
  match fuel with
  | O => Fault OutOfFuel
  | S fuel =>
      pos ← next_of h p;
      n ← next_of h pos;
      if decide (n = Some node_) then Ok pos
      else if decide (pos = h !! list) then Ok None
      else clist_find_before_loop fuel h list pos node_
  end.

Definition clist_find_before h (list node_ : node) : result (option node) :=
  match h !! list with
  | None => Ok None
  | Some pos => clist_find_before_loop (S (size h)) h list (Some pos) node_
  end.

Definition clist_find h (list node_ : node) : result (option node) :=
  tmp ← clist_find_before h list node_;
  match tmp with Some t => Ok (h !! t) | None => Ok None end.

Definition clist_remove h (list node_ : node) : result (option node * gmap node node) :=
  match h !! list with
  | Some lst =>
      if decide (h !! lst = Some node_) then clist_lpop h list
      else
        tmp ← clist_find_before h list node_;
        match tmp with
        | Some t =>
            n ← next_of h (h !! t);
            let h := set_next h t n in
            if decide (h !! list = Some node_)
            then Ok (Some node_, set_next h list (Some t))
            else Ok (Some node_, h)
        | None => Ok (None, h)
        end
  | None => Ok (None, h)
  end.

(** The callback of [clist_foreach] reads a node and threads a state of its
    own; a non-zero result stops the traversal. *)
Fixpoint clist_foreach_loop {S_ : Type} (fuel : nat) h (list : node) p
    (func : node → S_ → Z * S_) (s : S_) : result S_ :=
  match fuel with
  | O => Fault OutOfFuel
  | S fuel =>
      n ← next_of h p;
      match n with
      | Some x =>
          let '(r, s) := func x s in
          if negb (r =? 0) then Ok s
          else if decide (n = h !! list) then Ok s
          else clist_foreach_loop fuel h list n func s
      | None => Fault NullDeref
      end
  end.

Definition clist_foreach {S_ : Type} h (list : node)
    (func : node → S_ → Z * S_) (s : S_) : result S_ :=
  match h !! list with
  | None => Ok s
  | Some nd => clist_foreach_loop (S (size h)) h list (Some nd) func s
  end.

(** ** Representation predicates *)

(** Following [next] from [x] visits [l] in order. *)
Fixpoint path h (x : node) l : Prop :=
  match l with
  | [] => True
  | y :: l => h !! x = Some y ∧ path h y l
  end.

(** The node such a walk ends in. *)
Fixpoint endof (x : node) l : node :=
  match l with [] => x | y :: l => endof y l end.

(** [list_node_t] lists: a head whose [next] chain is [l], ended by [NULL]. *)
Definition is_list h (head : node) l : Prop :=
  NoDup (head :: l) ∧ path h head l ∧ h !! endof head l = None.

(** [clist_node_t] lists: the head points to the last element, the elements
    form a ring. *)
Definition is_clist h (head : node) l : Prop :=
  NoDup (head :: l) ∧ h !! head = last l ∧
  match last l with Some lst => path h lst l | None => True end.

(** ** Paths *)

Lemma endof_app x l1 l2 : endof x (l1 ++ l2) = endof (endof x l1) l2.
Proof. revert x. induction l1; simpl; auto. Qed.

Lemma endof_in x l : endof x l ∈ x :: l.
Proof.
  revert x. induction l as [|y l IH]; intros x; simpl; [set_solver|].
  specialize (IH y). set_solver.
Qed.

Lemma endof_last x l : Some (endof x l) = last (x :: l).
Proof. revert x. induction l as [|y l IH]; intros x; [done|]. apply IH. Qed.

Lemma path_app h x l1 l2 :
  path h x (l1 ++ l2) ↔ path h x l1 ∧ path h (endof x l1) l2.
Proof. revert x. induction l1; simpl; [tauto|]. naive_solver. Qed.

Lemma path_ext h h' x l :
  NoDup (x :: l) →
  (∀ y, y ∈ x :: l → y ≠ endof x l → h' !! y = h !! y) →
  path h x l → path h' x l.
Proof.
  revert x. induction l as [|y l IH]; intros x Hnd Hext; simpl; [done|].
  intros [Hx Hp]. apply NoDup_cons in Hnd as [Hnin Hnd].
  split.
  - rewrite Hext; [done|set_solver|]. simpl. intros E. apply Hnin. rewrite E. apply endof_in.
  - apply IH; [done| |done]. intros z Hz Hne. apply Hext; [set_solver|done].
Qed.

Lemma path_in_dom h x l y : path h x l → y ∈ x :: l → y ≠ endof x l → is_Some (h !! y).
Proof.
  revert x. induction l as [|z l IH]; intros x; simpl.
  { set_solver. }
  intros [Hx Hp] Hy Hne. apply elem_of_cons in Hy as [->|Hy]; [eauto|]. eapply IH; eauto.
Qed.

Lemma set_next_same h x v : set_next h x v !! x = v.
Proof. unfold set_next. destruct v; [apply lookup_insert_eq | apply lookup_delete_eq]. Qed.

Lemma set_next_other h x y v : x ≠ y → set_next h x v !! y = h !! y.
Proof.
  intros. unfold set_next.
  destruct v; [by apply lookup_insert_ne | by apply lookup_delete_ne].
Qed.

End LinkedList.

Arguments set_next : simpl never.

(** Reads of a heap after a sequence of writes. *)
Ltac heap_simpl :=
  repeat first
    [ rewrite set_next_same
    | rewrite set_next_other by (set_solver || congruence) ].

Section Correctness.
Context {node : Type} `{Countable node}.
Implicit Types (h : gmap node node) (l : list node) (p : option node).

(** ** list.h on sequences *)

Lemma is_list_nil h head : h !! head = None → is_list h head [].
Proof.
  intros. repeat split; [|done]. apply NoDup_singleton.
Qed.

(** A list is not affected by writes to nodes it does not contain. *)
Lemma is_list_frame h h' head l :
  (∀ y, y ∈ head :: l → h' !! y = h !! y) → is_list h head l → is_list h' head l.
Proof.
  intros Hf (Hnd & Hp & He). split; [done|]. split.
  - apply (path_ext h); [done| |done]. intros. by apply Hf.
  - rewrite Hf; [done|]. apply endof_in.
Qed.

Lemma is_clist_frame h h' head l :
  (∀ y, y ∈ head :: l → h' !! y = h !! y) → is_clist h head l → is_clist h' head l.
Proof.
  intros Hf (Hnd & Hh & Hp). split; [done|]. split; [rewrite Hf; set_solver|].
  destruct l as [|first l]; [done|]. rewrite <- endof_last in *.
  simpl in Hp |- *. destruct Hp as [H1 H2]. split.
  - rewrite Hf; [done|]. pose proof (endof_in first l). set_solver.
  - apply (path_ext h); [by apply NoDup_cons in Hnd as [_ ?]| |done].
    intros y Hy _. apply Hf. set_solver.
Qed.

Lemma is_list_sub h hd_ x l : is_list h hd_ (x :: l) → is_list h x l.
Proof. intros (Hnd & [Hx Hp] & He). apply NoDup_cons in Hnd as [? ?]. done. Qed.

(** Putting a changed tail back behind an unchanged head. *)
Lemma is_list_cons h h' hd_ x l l' :
  is_list h hd_ (x :: l) → is_list h' x l' → h' !! hd_ = h !! hd_ → hd_ ∉ l' →
  is_list h' hd_ (x :: l').
Proof.
  intros (Hnd & [Hx Hp] & He) (Hnd' & Hp' & He') Heq Hn.
  apply NoDup_cons in Hnd as [Hn1 Hnd]. split; [apply NoDup_cons; set_solver|].
  split; [split; [congruence|done]|done].
Qed.

(** [list_add(node, new)] inserts right behind [node]. *)
Lemma list_add_spec h head l1 l2 x :
  is_list h head (l1 ++ l2) → x ∉ head :: l1 ++ l2 →
  is_list (list_add h (endof head l1) x) head (l1 ++ x :: l2).
Proof.
  intros (Hnd & Hp & He) Hx. unfold list_add.
  set (n := endof head l1) in *.
  assert (Hn : n ∈ head :: l1) by apply endof_in.
  assert (n ≠ x) by set_solver.
  apply path_app in Hp as [Hp1 Hp2]. rewrite endof_app in He. fold n in Hp2, He.
  assert (Hnd' : NoDup (head :: l1 ++ x :: l2)).
  { rewrite app_comm_cons, <- (Permutation_middle (head :: l1) l2 x).
    apply NoDup_cons. split; [set_solver|]. exact Hnd. }
  split; [exact Hnd'|].
  rewrite app_comm_cons in Hnd. apply NoDup_app in Hnd as (Hnd1 & Hdis & Hnd2).
  split.
  - apply path_app. fold n. split; [|split].
    + apply (path_ext h); [done| |done]. intros y Hy Hne.
      assert (y ≠ x) by set_solver. heap_simpl. done.
    + heap_simpl. done.
    + destruct l2 as [|z l2]; [done|]. simpl in Hp2. destruct Hp2 as [Hz Hp2].
      simpl. heap_simpl. split; [done|].
      apply (path_ext h); [done| |done]. intros y Hy _.
      assert (y ≠ n) by (intros ->; by eapply Hdis). assert (y ≠ x) by set_solver.
      heap_simpl. done.
  - rewrite endof_app. simpl.
    destruct l2 as [|z l2]; simpl in *.
    { heap_simpl. done. }
    pose proof (endof_in z l2) as Hz.
    assert (endof z l2 ≠ n) by (intros E; rewrite E in Hz; by eapply Hdis).
    assert (endof z l2 ≠ x) by set_solver. heap_simpl. done.
Qed.

Lemma list_remove_head_nil h head :
  is_list h head [] → list_remove_head h head = (None, h).
Proof. intros (_ & _ & He). unfold list_remove_head. simpl in He. by rewrite He. Qed.

Lemma list_remove_head_cons h head x l :
  is_list h head (x :: l) →
  list_remove_head h head = (Some x, set_next h head (h !! x)) ∧
  is_list (set_next h head (h !! x)) head l.
Proof.
  intros (Hnd & [Hx Hp] & He). unfold list_remove_head. rewrite Hx.
  split; [done|]. apply NoDup_cons in Hnd as [Hn1 Hnd].
  apply NoDup_cons in Hnd as [Hn2 Hnd]. simpl in He.
  split; [apply NoDup_cons; set_solver|].
  destruct l as [|y l]; simpl in *.
  - split; [done|]. by heap_simpl.
  - destruct Hp as [Hy Hp]. heap_simpl. split; [split; [done|]|].
    + apply (path_ext h); [done| |done]. intros z Hz _.
      assert (head ≠ z) by set_solver. by heap_simpl.
    + pose proof (endof_in y l). assert (head ≠ endof y l) by set_solver.
      by heap_simpl.
Qed.

Lemma path_length h x l : NoDup (x :: l) → path h x l → (length l <= size h)%nat.
Proof.
  revert h x. induction l as [|y l IH]; intros h x Hnd Hp; [simpl; lia|].
  destruct Hp as [Hx Hp]. apply NoDup_cons in Hnd as [Hn Hnd].
  assert (path (delete x h) y l) as Hp'.
  { apply (path_ext h); [done| |done]. intros z Hz _.
    rewrite lookup_delete_ne; set_solver. }
  apply IH in Hp'; [|done]. simpl.
  rewrite map_size_delete_Some in Hp' by eauto.
  assert (0 < size h)%nat; [|lia].
  apply Nat.neq_0_lt_0. rewrite map_size_non_empty_iff. intros ->.
  by rewrite lookup_empty in Hx.
Qed.

(** [list_remove] unlinks the node if it is in the list and says whether it
    was; the loop ends within one round per element. *)
Lemma list_remove_loop_spec fuel h head l x :
  is_list h head l → (length l < fuel)%nat → x ≠ head →
  ∃ h', list_remove_loop fuel h head x =
          Ok (if decide (x ∈ l) then Some x else None, h') ∧
        is_list h' head (filter (.≠ x) l) ∧
        (∀ y, y ∉ head :: l → h' !! y = h !! y).
Proof.
  revert h head l. induction fuel as [|fuel IH]; intros h head l Hl Hf Hx; [lia|].
  destruct l as [|y l].
  - destruct Hl as (Hnd & _ & He). simpl in *. rewrite He.
    exists h. split; [done|]. split; [by apply is_list_nil|done].
  - pose proof Hl as (Hnd & [Hy Hp] & He). cbn [list_remove_loop]. rewrite Hy.
    destruct (decide (y = x)) as [->|Hne].
    + destruct (list_remove_head_cons _ _ _ _ Hl) as [_ Hr].
      exists (set_next h head (h !! x)). rewrite decide_True by set_solver.
      split; [done|]. rewrite filter_cons_False by naive_solver.
      apply NoDup_cons in Hnd as [? [? ?]%NoDup_cons].
      split.
      * rewrite filter_all by set_solver. exact Hr.
      * intros z Hz. heap_simpl. done.
    + assert (is_list h y l) as Hl'.
      { apply NoDup_cons in Hnd as [? ?]. by repeat split. }
      destruct (IH h y l Hl') as (h' & E & Hr & Hfr); [simpl in Hf; lia|done|].
      exists h'. rewrite E. split; [|split].
      * destruct (decide (x ∈ l)), (decide (x ∈ y :: l)); set_solver.
      * rewrite filter_cons_True by done.
        apply NoDup_cons in Hnd as [Hn1 Hnd].
        assert (h' !! head = Some y) as Hy' by (by rewrite Hfr).
        destruct Hr as (Hnd' & Hp' & He').
        split; [|split; [by split|exact He']].
        apply NoDup_cons. split; [|done].
        intros Hin. apply Hn1. apply elem_of_cons in Hin as [->|Hin]; [set_solver|].
        apply list_elem_of_filter in Hin. set_solver.
      * intros z Hz. apply Hfr. set_solver.
Qed.

(** ** clist.h on sequences *)

Lemma is_clist_nil h head : h !! head = None → is_clist h head [].
Proof. intros. split; [apply NoDup_singleton|done]. Qed.

(** The ring written out for a non-empty sequence. *)
Lemma is_clist_cons h head x l :
  is_clist h head (x :: l) ↔
  NoDup (head :: x :: l) ∧ h !! head = Some (endof x l) ∧
  h !! endof x l = Some x ∧ path h x l.
Proof. unfold is_clist. rewrite <- endof_last. simpl. tauto. Qed.

Lemma is_clist_snoc h head l x :
  is_clist h head (l ++ [x]) ↔
  NoDup (head :: l ++ [x]) ∧ h !! head = Some x ∧ path h x (l ++ [x]).
Proof. unfold is_clist. rewrite last_snoc. tauto. Qed.

Lemma clist_rpush_spec h head l x :
  is_clist h head l → x ∉ head :: l → is_clist (clist_rpush h head x) head (l ++ [x]).
Proof.
  intros Hl Hx. apply is_clist_snoc. unfold clist_rpush.
  assert (NoDup (head :: l ++ [x])) as Hnd'.
  { rewrite app_comm_cons. apply NoDup_app. destruct Hl as (Hnd & _ & _).
    split; [done|]. split; [set_solver|apply NoDup_singleton]. }
  split; [done|]. destruct l as [|f l].
  - destruct Hl as (Hnd & Hh & _). simpl in Hh. rewrite Hh. simpl.
    heap_simpl. done.
  - apply is_clist_cons in Hl as (Hnd & Hh & He & Hp). rewrite Hh, He.
    apply NoDup_cons in Hnd as [Hn1 Hnd]. pose proof (endof_in f l).
    assert (endof f l ≠ head) by set_solver. assert (endof f l ≠ x) by set_solver.
    heap_simpl. split; [done|]. simpl. heap_simpl. split; [done|].
    apply path_app. split; [|simpl; by heap_simpl].
    apply (path_ext h); [done| |done]. intros y Hy Hne.
    heap_simpl. done.
Qed.

Lemma clist_lpush_spec h head l x :
  is_clist h head l → x ∉ head :: l → is_clist (clist_lpush h head x) head (x :: l).
Proof.
  intros Hl Hx. apply is_clist_cons. unfold clist_lpush.
  assert (NoDup (head :: x :: l)) as Hnd'.
  { destruct Hl as (Hnd & _ & _). apply NoDup_cons in Hnd as [? ?].
    apply NoDup_cons; split; [set_solver|]. apply NoDup_cons; set_solver. }
  split; [done|]. destruct l as [|f l].
  - destruct Hl as (Hnd & Hh & _). simpl in Hh. rewrite Hh. simpl. heap_simpl. done.
  - apply is_clist_cons in Hl as (Hnd & Hh & He & Hp). rewrite Hh, He. simpl.
    apply NoDup_cons in Hnd as [Hn1 Hnd]. pose proof (endof_in f l).
    assert (endof f l ≠ head) by set_solver. assert (endof f l ≠ x) by set_solver.
    heap_simpl. split; [done|]. split; [done|]. split; [done|].
    apply (path_ext h); [done| |done]. intros y Hy Hne. heap_simpl. done.
Qed.

Lemma clist_lpop_nil h head : is_clist h head [] → clist_lpop h head = Ok (None, h).
Proof. intros (_ & Hh & _). unfold clist_lpop. by rewrite Hh. Qed.

(** [clist_lpop] unlinks and returns the first element; the only nodes
    written are the head and the last element. *)
Lemma clist_lpop_cons h head x l :
  is_clist h head (x :: l) →
  ∃ h', clist_lpop h head = Ok (Some x, h') ∧ is_clist h' head l ∧
        ∀ y, y ∉ head :: x :: l → h' !! y = h !! y.
Proof.
  intros (Hnd & Hh & He & Hp)%is_clist_cons. unfold clist_lpop. rewrite Hh, He.
  apply NoDup_cons in Hnd as [Hn1 Hnd]. pose proof (endof_in x l).
  apply NoDup_cons in Hnd as Hnd'. destruct Hnd' as [Hn2 Hnd2].
  destruct l as [|f l].
  - simpl. rewrite decide_True by done. eexists. split; [done|].
    split; [apply is_clist_nil; by heap_simpl|]. intros. by heap_simpl.
  - simpl in *. destruct Hp as [Hf Hp]. pose proof (endof_in f l).
    rewrite decide_False by set_solver. simpl.
    rewrite Hf. eexists. split; [done|].
    assert (endof f l ≠ head) by set_solver.
    split; [|intros; by heap_simpl].
    apply is_clist_cons. split; [set_solver by (apply NoDup_cons; set_solver)|].
    heap_simpl. split; [done|]. split; [done|].
    apply (path_ext h); [done| |done]. intros y Hy Hne. by heap_simpl.
Qed.

Lemma clist_lpoprpush_spec h head x l :
  is_clist h head (x :: l) → is_clist (clist_lpoprpush h head) head (l ++ [x]).
Proof.
  intros (Hnd & Hh & He & Hp)%is_clist_cons. unfold clist_lpoprpush. rewrite Hh, He.
  apply is_clist_snoc.
  split; [by rewrite <- Permutation_cons_append|].
  apply NoDup_cons in Hnd as [Hn1 Hnd]. pose proof (endof_in x l).
  assert (endof x l ≠ head) by set_solver. heap_simpl. split; [done|].
  apply path_app. simpl. heap_simpl. split; [|done].
  apply (path_ext h); [done| |done]. intros y Hy _.
  assert (head ≠ y) by set_solver. by heap_simpl.
Qed.

Lemma clist_lpeek_spec h hd_ l : is_clist h hd_ l → clist_lpeek h hd_ = head l.
Proof.
  unfold clist_lpeek. destruct l as [|x l].
  - intros (_ & Hh & _). by rewrite Hh.
  - intros (_ & Hh & He & _)%is_clist_cons. by rewrite Hh.
Qed.

Lemma clist_rpeek_spec h hd_ l : is_clist h hd_ l → clist_rpeek h hd_ = last l.
Proof. by intros (_ & Hh & _). Qed.

Lemma clist_lpoprpush_other h hd_ y : y ≠ hd_ → clist_lpoprpush h hd_ !! y = h !! y.
Proof. intros. unfold clist_lpoprpush. case_match; [|done]. by heap_simpl. Qed.

Lemma clist_length h hd_ l : is_clist h hd_ l → (length l <= size h)%nat.
Proof.
  destruct l as [|x l]; [simpl; lia|]. intros (Hnd & Hh & He & Hp)%is_clist_cons.
  apply NoDup_cons in Hnd as [Hn Hnd].
  assert (path (delete hd_ h) x l) as Hp'.
  { apply (path_ext h); [done| |done]. intros z Hz _. rewrite lookup_delete_ne; set_solver. }
  apply path_length in Hp'; [|done]. rewrite map_size_delete_Some in Hp' by eauto.
  assert (size h ≠ 0%nat); [|simpl; lia].
  rewrite map_size_non_empty_iff. intros ->. by rewrite lookup_empty in Hh.
Qed.

(** Rotating until the last element is in front. *)
Lemma clist_rpop_loop_spec fuel h hd_ l1 l2 x :
  is_clist h hd_ (l2 ++ x :: l1) → (length l2 < fuel)%nat →
  ∃ h', clist_rpop_loop fuel h hd_ x = Ok h' ∧ is_clist h' hd_ (x :: l1 ++ l2) ∧
        ∀ y, y ≠ hd_ → h' !! y = h !! y.
Proof.
  revert h l1 l2. induction fuel as [|fuel IH]; intros h l1 l2 Hl Hf; [lia|].
  pose proof (clist_lpeek_spec _ _ _ Hl) as Hpk. unfold clist_lpeek in Hpk.
  assert (is_Some (h !! hd_)) as [lst Hlst].
  { destruct Hl as (_ & -> & _). rewrite last_is_Some. by destruct l2. }
  cbn [clist_rpop_loop]. rewrite Hlst in Hpk |- *. simpl. rewrite Hpk.
  destruct l2 as [|c l2]; simpl.
  - rewrite decide_True by done. exists h. rewrite app_nil_r. done.
  - rewrite decide_False.
    2:{ intros [= ->]. destruct Hl as (Hnd & _). apply NoDup_cons in Hnd as [_ Hnd].
        simpl in Hnd. apply NoDup_cons in Hnd. set_solver. }
    simpl in Hl. apply clist_lpoprpush_spec in Hl.
    rewrite <- app_assoc in Hl. simpl in Hl.
    destruct (IH _ _ _ Hl) as (h' & E & Hr & Hfr); [simpl in Hf; lia|].
    exists h'. split; [done|]. rewrite <- app_assoc in Hr. simpl in Hr. split; [done|].
    intros y Hy. rewrite Hfr, clist_lpoprpush_other; done.
Qed.

Lemma clist_rpop_spec h hd_ l x :
  is_clist h hd_ (l ++ [x]) →
  ∃ h', clist_rpop h hd_ = Ok (Some x, h') ∧ is_clist h' hd_ l ∧
        ∀ y, y ∉ hd_ :: l ++ [x] → h' !! y = h !! y.
Proof.
  intros Hl. unfold clist_rpop. pose proof Hl as (_ & Hh & _)%is_clist_snoc. rewrite Hh.
  pose proof (clist_length _ _ _ Hl) as Hlen. rewrite length_app in Hlen. simpl in Hlen.
  destruct (clist_rpop_loop_spec (S (size h)) h hd_ [] l x Hl) as (h' & -> & Hr & Hf).
  { lia. }
  simpl in *. destruct (clist_lpop_cons _ _ _ _ Hr) as (h'' & -> & Hr' & Hf').
  exists h''. split; [done|]. split; [done|].
  intros y Hy. rewrite Hf', Hf; set_solver.
Qed.

Lemma clist_find_before_loop_spec fuel h hd_ q r lst x :
  path h q r → r ≠ [] → NoDup r → endof q r = lst → h !! hd_ = Some lst →
  (length r <= fuel)%nat →
  ∃ res, clist_find_before_loop fuel h hd_ (Some q) x = Ok res ∧
         match res with
         | Some y => y ∈ r ∧ h !! y = Some x
         | None => ∀ y, y ∈ r → h !! y ≠ Some x
         end.
Proof.
  intros Hp Hne Hnd He Hh. revert q r Hp Hne Hnd He.
  induction fuel as [|fuel IH]; intros q r Hp Hne Hnd He Hf; (destruct r as [|z r]; [done|]).
  { simpl in Hf; lia. }
  destruct Hp as [Hz Hp]. simpl. rewrite Hz. simpl. apply NoDup_cons in Hnd as [Hn Hnd].
  case_decide as Hx; [eexists; split; [done|]; set_solver|]. rewrite Hh.
  case_decide as Hl.
  - eexists; split; [done|]. injection Hl as ->. simpl in He.
    destruct r as [|w r]; [set_solver|].
    pose proof (endof_in w r). simpl in He. set_solver.
  - destruct (IH z r) as (res & -> & Hres); try done.
    { intros ->. by simpl in He; subst. }
    { simpl in Hf; lia. }
    eexists; split; [done|]. destruct res; set_solver.
Qed.

(** [clist_find_before] returns the ring predecessor of a member, [NULL] for
    any other node. *)
Lemma clist_find_before_spec h hd_ l x :
  is_clist h hd_ l →
  ∃ res, clist_find_before h hd_ x = Ok res ∧
         match res with Some y => y ∈ l ∧ h !! y = Some x | None => x ∉ l end.
Proof.
  intros Hl. unfold clist_find_before. pose proof (clist_length _ _ _ Hl).
  destruct l as [|f l].
  - destruct Hl as (_ & Hh & _). rewrite Hh. eexists; split; [done|]. set_solver.
  - apply is_clist_cons in Hl as (Hnd & Hh & He & Hp). rewrite Hh.
    apply NoDup_cons in Hnd as [Hn Hnd].
    destruct (clist_find_before_loop_spec (S (size h)) h hd_ (endof f l) (f :: l)
                (endof f l) x) as (res & -> & Hres); try done; [lia|].
    eexists; split; [done|]. destruct res; [done|].
    intros Hx. apply elem_of_cons in Hx as [->|Hx].
    + eapply (Hres (endof f l)); [apply endof_in|done].
    + clear -Hres Hp Hx. revert f Hres Hp. induction l as [|z l IH]; [set_solver|].
      intros f Hres [Hz Hp]. apply elem_of_cons in Hx as [->|Hx].
      * eapply (Hres f); [set_solver|done].
      * eapply IH; [done| |done]. set_solver.
Qed.

Lemma path_split h f l x y :
  path h f l → y ∈ f :: l → y ≠ endof f l → h !! y = Some x →
  ∃ l1 l2, f :: l = l1 ++ y :: x :: l2.
Proof.
  revert f. induction l as [|z l IH]; intros f Hp Hy Hne Hx.
  { simpl in Hne. set_solver. }
  destruct Hp as [Hz Hp]. destruct (decide (y = f)) as [->|Hyf].
  - assert (z = x) as -> by congruence. by exists [], l.
  - destruct (IH z) as (l1 & l2 & E); [done|set_solver|done|done|].
    exists (f :: l1), l2. simpl. by f_equal.
Qed.

(** Bypassing [x], the successor of [y], in the ring. *)
Lemma clist_unlink h hd_ l1 l2 y x :
  is_clist h hd_ (l1 ++ y :: x :: l2) →
  let h1 := set_next h y (h !! x) in
  is_clist (if decide (h !! hd_ = Some x) then set_next h1 hd_ (Some y) else h1)
           hd_ (l1 ++ y :: l2).
Proof.
  intros (Hnd & Hh & Hp). simpl.
  assert (Hnd' : NoDup (hd_ :: l1 ++ y :: l2)).
  { change (y :: x :: l2) with ([y] ++ x :: l2) in Hnd.
    rewrite app_assoc, <- Permutation_middle, Permutation_swap in Hnd.
    apply NoDup_cons in Hnd as [_ Hnd]. by rewrite <- app_assoc in Hnd. }
  split; [done|].
  rewrite last_app in Hh, Hp. rewrite last_app.
  change (y :: x :: l2) with ([y] ++ x :: l2) in Hp, Hnd. rewrite app_assoc in Hp, Hnd.
  apply NoDup_cons in Hnd as [Hn Hnd]. apply NoDup_app in Hnd as (Hnd1 & Hdis & Hnd2).
  destruct l2 as [|z l2]; simpl in Hh, Hp |- *.
  - rewrite decide_True by done. apply path_app in Hp as [Hp _].
    split; [by heap_simpl|].
    assert (hd_ ≠ y) by set_solver.
    destruct (l1 ++ [y]) as [|f r] eqn:Er; [by destruct l1|].
    assert (endof f r = y) as He.
    { pose proof (endof_app x l1 [y]) as E. rewrite Er in E. done. }
    destruct Hp as [Hf Hp]. rewrite Hf.
    split; [by heap_simpl|]. apply (path_ext h); [done| |done].
    intros w Hw Hne. assert (hd_ ≠ w) by set_solver. heap_simpl. done.
  - rewrite <- endof_last in Hp, Hh. change (match l2 with [] => Some z | _ => last l2 end)
      with (last (z :: l2)). rewrite <- endof_last.
    pose proof (endof_in z l2). apply NoDup_cons in Hnd2 as [? ?].
    rewrite decide_False by (rewrite Hh; intros [= E]; set_solver).
    assert (hd_ ≠ y) by set_solver. split; [by heap_simpl|].
    apply path_app in Hp as [Hp1 Hp2]. rewrite endof_app in Hp2.
    destruct Hp2 as (Hyx & Hxz & Hp2).
    change (y :: z :: l2) with ([y] ++ z :: l2). rewrite app_assoc. apply path_app.
    rewrite endof_app. simpl. heap_simpl. split; [|split; [done|]].
    + apply (path_ext h); [|intros w Hw Hne; rewrite endof_app in Hne; simpl in Hne; by heap_simpl|done].
      apply NoDup_cons. split; [|done]. intros Hin. eapply Hdis; [exact Hin|]. set_solver.
    + apply (path_ext h); [done| |done]. intros w Hw _.
      assert (y ≠ w). { intros ->. eapply (Hdis w); set_solver. } by heap_simpl.
Qed.

Lemma NoDup_filter_middle l1 l2 x :
  NoDup (l1 ++ x :: l2) → filter (.≠ x) (l1 ++ x :: l2) = l1 ++ l2.
Proof.
  intros (H1 & H2 & [H3 H4]%NoDup_cons)%NoDup_app.
  rewrite filter_app, filter_cons_False by naive_solver.
  rewrite !filter_all; set_solver.
Qed.

Lemma clist_remove_spec h hd_ l x :
  is_clist h hd_ l →
  ∃ h', clist_remove h hd_ x = Ok (if decide (x ∈ l) then Some x else None, h') ∧
        is_clist h' hd_ (filter (.≠ x) l) ∧ ∀ y, y ∉ hd_ :: l → h' !! y = h !! y.
Proof.
  intros Hl. unfold clist_remove. pose proof Hl as (Hnd & Hh & _). destruct l as [|f l].
  { rewrite Hh. exists h. done. }
  pose proof (proj1 (is_clist_cons _ _ _ _) Hl) as (_ & Hh' & He & Hp).
  apply NoDup_cons in Hnd as [Hn Hnd].
  rewrite Hh', He. destruct (decide (Some f = Some x)) as [[= ->]|Hfx].
  - destruct (clist_lpop_cons _ _ _ _ Hl) as (h' & -> & Hr & Hf).
    exists h'. rewrite decide_True by set_solver. split; [done|]. split; [|done].
    apply (NoDup_filter_middle []) in Hnd. simpl in Hnd. by rewrite Hnd.
  - destruct (clist_find_before_spec h hd_ (f :: l) x Hl) as (res & -> & Hres).
    simpl. destruct res as [y|].
    + destruct Hres as [Hy Hyx].
      destruct (path_split h f l x y) as (l1 & l2 & E); [done..| |done|].
      { intros ->. congruence. }
      rewrite E in *. rewrite decide_True by set_solver.
      replace (l1 ++ y :: x :: l2) with ((l1 ++ [y]) ++ x :: l2) in * by (by rewrite <- app_assoc).
      rewrite (NoDup_filter_middle (l1 ++ [y]) l2 x Hnd).
      rewrite <- app_assoc in Hl |- *.
      pose proof (clist_unlink _ _ _ _ _ _ Hl) as Hu. simpl in Hu |- *.
      rewrite Hyx. simpl. rewrite (set_next_other h y hd_) by set_solver.
      destruct (decide (h !! hd_ = Some x)); eexists; (split; [done|]); (split; [exact Hu|]);
        intros z Hz; heap_simpl; done.
    + rewrite decide_False by done. exists h. rewrite filter_all by set_solver. done.
Qed.

Lemma clist_find_spec h hd_ l x :
  is_clist h hd_ l → clist_find h hd_ x = Ok (if decide (x ∈ l) then Some x else None).
Proof.
  intros Hl. unfold clist_find.
  destruct (clist_find_before_spec h hd_ l x Hl) as (res & -> & Hres). simpl.
  destruct res as [y|]; [|by rewrite decide_False].
  destruct Hres as [Hy Hyx]. rewrite Hyx, decide_True; [done|].
  destruct l as [|f l]; [set_solver|].
  apply is_clist_cons in Hl as (Hnd & Hh & He & Hp).
  destruct (decide (y = endof f l)) as [->|].
  - assert (x = f) as -> by congruence. set_solver.
  - destruct (path_split h f l x y) as (l1 & l2 & ->); [done..|]. set_solver.
Qed.

(** The traversal of [clist_foreach] on the represented sequence. *)
Fixpoint foreach_seq {S_ : Type} (func : node → S_ → Z * S_) (s : S_) (l : list node) : S_ :=
  match l with
  | [] => s
  | x :: l => let '(r, s) := func x s in if negb (r =? 0) then s else foreach_seq func s l
  end.

Lemma clist_foreach_loop_spec {S_ : Type} fuel h hd_ q r lst (func : node → S_ → Z * S_) s :
  path h q r → r ≠ [] → NoDup r → endof q r = lst → h !! hd_ = Some lst →
  (length r <= fuel)%nat →
  clist_foreach_loop fuel h hd_ (Some q) func s = Ok (foreach_seq func s r).
Proof.
  intros Hp Hne Hnd He Hh. revert q r s Hp Hne Hnd He.
  induction fuel as [|fuel IH]; intros q r s Hp Hne Hnd He Hf; (destruct r as [|z r]; [done|]).
  { simpl in Hf; lia. }
  destruct Hp as [Hz Hp]. simpl. rewrite Hz. apply NoDup_cons in Hnd as [Hn Hnd]. simpl.
  destruct (func z s) as [rc s']. destruct (negb (rc =? 0)); [done|].
  case_decide as Hl.
  - rewrite Hh in Hl. injection Hl as ->. simpl in He.
    destruct r as [|w r]; [done|]. pose proof (endof_in w r). simpl in He. set_solver.
  - apply IH; try done; [|simpl in Hf; lia]. intros ->. apply Hl. rewrite Hh, <- He. done.
Qed.

Lemma clist_foreach_spec {S_ : Type} h hd_ l (func : node → S_ → Z * S_) s :
  is_clist h hd_ l → clist_foreach h hd_ func s = Ok (foreach_seq func s l).
Proof.
  intros Hl. unfold clist_foreach. pose proof (clist_length _ _ _ Hl).
  destruct l as [|f l].
  - destruct Hl as (_ & Hh & _). by rewrite Hh.
  - apply is_clist_cons in Hl as (Hnd & Hh & He & Hp). rewrite Hh.
    apply NoDup_cons in Hnd as [_ Hnd].
    by apply clist_foreach_loop_spec with (endof f l); try done; lia.
Qed.

(** ** The circular list as a sequence: abstract operations and refinement *)

Inductive clist_op : Type :=
  | RPush (x : node) | LPush (x : node) | LPop | RPop | LPopRPush | Remove (x : node).

(** What clist.h promises, on sequences. *)
Definition seq_op (l : list node) (op : clist_op) : option node * list node :=
  match op with
  | RPush x => (None, l ++ [x])
  | LPush x => (None, x :: l)
  | LPop => (head l, tail l)
  | RPop => (last l, removelast l)
  | LPopRPush => (None, match l with [] => [] | x :: l => l ++ [x] end)
  | Remove x => (if decide (x ∈ l) then Some x else None, filter (.≠ x) l)
  end.

(** What clist.h does, on memory. *)
Definition heap_op h (hd_ : node) (op : clist_op) : result (option node * gmap node node) :=
  match op with
  | RPush x => Ok (None, clist_rpush h hd_ x)
  | LPush x => Ok (None, clist_lpush h hd_ x)
  | LPop => clist_lpop h hd_
  | RPop => clist_rpop h hd_
  | LPopRPush => Ok (None, clist_lpoprpush h hd_)
  | Remove x => clist_remove h hd_ x
  end.

(** A node may be pushed only while it is in no list. *)
Definition op_allowed (hd_ : node) (l : list node) (op : clist_op) : Prop :=
  match op with RPush x | LPush x => x ∉ hd_ :: l | _ => True end.

Definition op_nodes (op : clist_op) : list node :=
  match op with RPush x | LPush x => [x] | _ => [] end.

Lemma heap_op_refines h hd_ l op :
  is_clist h hd_ l → op_allowed hd_ l op →
  ∃ h', heap_op h hd_ op = Ok (fst (seq_op l op), h') ∧
        is_clist h' hd_ (snd (seq_op l op)) ∧
        ∀ y, y ∉ hd_ :: l ++ op_nodes op → h' !! y = h !! y.
Proof.
  intros Hl Hop. destruct op as [x|x| | | |x]; simpl in *.
  - eexists. split; [done|]. split; [by apply clist_rpush_spec|].
    intros y Hy. unfold clist_rpush. destruct (h !! hd_) as [lst|] eqn:E; [|by heap_simpl].
    destruct Hl as (_ & Hh & _). rewrite E in Hh. symmetry in Hh.
    apply last_Some_elem_of in Hh. heap_simpl. done.
  - eexists. split; [done|]. split; [by apply clist_lpush_spec|].
    intros y Hy. unfold clist_lpush. destruct (h !! hd_) as [lst|] eqn:E; [|by heap_simpl].
    destruct Hl as (_ & Hh & _). rewrite E in Hh. symmetry in Hh.
    apply last_Some_elem_of in Hh. heap_simpl. done.
  - rewrite app_nil_r. destruct l as [|x l].
    + exists h. by rewrite clist_lpop_nil.
    + by apply clist_lpop_cons.
  - rewrite app_nil_r. destruct l as [|x l] using rev_ind.
    + exists h. destruct Hl as (? & Hh & ?). unfold clist_rpop. by rewrite Hh.
    + rewrite last_snoc, removelast_last. by apply clist_rpop_spec.
  - rewrite app_nil_r. eexists. split; [done|]. split.
    + destruct l as [|x l]; [|by apply clist_lpoprpush_spec].
      destruct Hl as (? & Hh & ?). unfold clist_lpoprpush. rewrite Hh. done.
    + intros y Hy. apply clist_lpoprpush_other. set_solver.
  - rewrite app_nil_r. by apply clist_remove_spec.
Qed.

(** Circular lists implement sequences. *)
Global Instance clist_implements (hd_ : node) :
  Implements (λ h op, heap_op h hd_ op) seq_op (λ _ l op, op_allowed hd_ l op) (λ h l, is_clist h hd_ l).
Proof.
  intros h l op Hl Hop. destruct (heap_op_refines h hd_ l op Hl Hop) as (h' & E & Hl' & _). by exists h'.
Qed.

End Correctness.

Arguments clist_op : clear implicits.

(** any program of pushes, pops, rotations and removals on a circular
    list, run on memory pointer by pointer, never dereferences [NULL],
    terminates, returns the same nodes as the program run on the represented
    sequence, and leaves memory representing the resulting sequence. *)
Theorem clist_refines_seq {node : Type} `{Countable node} (h : gmap node node) hd_ l ops :
  is_clist h hd_ l → spec_allowed seq_op (op_allowed hd_) l ops →
  ∃ h', run_exec (λ h op, heap_op h hd_ op) h ops = Ok (fst (run_spec seq_op l ops), h') ∧
        is_clist h' hd_ (snd (run_spec seq_op l ops)).
Proof.
  intros Hl Hops. apply (implements_run (H := clist_implements hd_) h l ops Hl).
  by apply run_allowed_spec.
Qed.

Lemma clist_refines_seq_witness :
  ∃ h', run_exec (λ h op, heap_op h 0%Z op) ∅ [RPush 1; RPush 2; LPush 3; LPopRPush; Remove 2; RPop] =
          Ok ([None; None; None; None; Some 2; Some 3], h') ∧ is_clist h' 0%Z [1].
Proof.
  pose proof (clist_refines_seq ∅ 0%Z [] [RPush 1; RPush 2; LPush 3; LPopRPush; Remove 2; RPop]) as H.
  simpl in H |- *. apply H.
  - by apply is_clist_nil.
  - simpl. set_solver.
Defined.
