(* ===== verification/Cib.v ===== *)
(** * core/include/cib.h: circular integer buffer

    The index generator behind the message queues of threads and mailboxes.
    [cib_rep] relates the three counters and the array they index to the
    sequence of queued elements; it survives the wrap-around of the 32-bit
    counters, and [cib_get] is the one operation that does not. *)

From S2P Require Import Prelude Refinement.
Open Scope Z_scope.

Record cib_t : Type := Cib {
  read_count : Z;
  write_count : Z;
  mask : Z
}.

Definition CIB_INIT (size : Z) : cib_t := Cib 0 0 (u32 (size - 1)).

Definition cib_init (size : Z) : result cib_t :=
  _ ← assert_ (Z.land size (u32 (size - 1)) =? 0);
  Ok (CIB_INIT size).

Definition cib_avail (c : cib_t) : Z := u32 (write_count c - read_count c).

Definition cib_full (c : cib_t) : bool := s32 (mask c) <? s32 (cib_avail c).

Definition cib_get_unsafe (c : cib_t) : Z * cib_t :=
  (s32 (Z.land (read_count c) (mask c)),
   Cib (u32 (read_count c + 1)) (write_count c) (mask c)).

Definition cib_get (c : cib_t) : Z * cib_t :=
  if read_count c <? write_count c
  then (s32 (Z.land (read_count c) (mask c)),
        Cib (u32 (read_count c + 1)) (write_count c) (mask c))
  else (-1, c).

Definition cib_peek (c : cib_t) : Z :=
  if read_count c <? write_count c then s32 (Z.land (read_count c) (mask c)) else -1.

Definition cib_put_unsafe (c : cib_t) : Z * cib_t :=
  (s32 (Z.land (write_count c) (mask c)),
   Cib (read_count c) (u32 (write_count c + 1)) (mask c)).

Definition cib_put (c : cib_t) : Z * cib_t :=
  let avail := cib_avail c in
  if s32 avail <=? s32 (mask c)
  then (s32 (Z.land (write_count c) (mask c)),
        Cib (read_count c) (u32 (write_count c + 1)) (mask c))
  else (-1, c).

(** ** Representation *)

(** The counters hold [n] elements of a buffer of [2^k] slots. *)
Definition cib_wf (k : Z) (n : nat) (c : cib_t) : Prop :=
  0 <= k <= 30 ∧ mask c = 2 ^ k - 1 ∧ 0 <= read_count c < 2 ^ 32 ∧
  write_count c = u32 (read_count c + Z.of_nat n) ∧ Z.of_nat n <= 2 ^ k.

(** The slot of the [i]-th queued element. *)
Definition cib_slot (k : Z) (c : cib_t) (i : nat) : nat :=
  Z.to_nat ((read_count c + Z.of_nat i) mod 2 ^ k).

(** [arr] is the array the indices refer to, [l] what is queued in it. *)
Definition cib_rep {A} (k : Z) (c : cib_t) (arr : list A) (l : list A) : Prop :=
  cib_wf k (length l) c ∧ Z.of_nat (length arr) = 2 ^ k ∧
  ∀ i x, l !! i = Some x → arr !! cib_slot k c i = Some x.

(** The counters have not wrapped around between the writer and the reader. *)
Definition cib_nowrap (c : cib_t) : Prop := read_count c <= write_count c.

(** ** Arithmetic of the indices *)

Lemma pow_le_2_30 k : 0 <= k <= 30 → 0 < 2 ^ k <= 2 ^ 30.
Proof. intros. split; [apply Z.pow_pos_nonneg; lia | apply Z.pow_le_mono_r; lia]. Qed.

Lemma mod_pow_u32 k z : 0 <= k <= 30 → (u32 z) mod 2 ^ k = z mod 2 ^ k.
Proof.
  intros. unfold u32. change 4294967296 with (2 ^ 32).
  replace (2 ^ 32) with (2 ^ k * 2 ^ (32 - k)) by (rewrite <- Z.pow_add_r; f_equal; lia).
  pose proof (pow_le_2_30 k). assert (0 < 2 ^ (32 - k)) by (apply Z.pow_pos_nonneg; lia).
  rewrite Z.rem_mul_r by lia. rewrite (Z.mul_comm (2 ^ k)), Z.mod_add by lia.
  apply Z.mod_mod. lia.
Qed.

Lemma land_mask k z : 0 <= k → Z.land z (2 ^ k - 1) = z mod 2 ^ k.
Proof. intros. rewrite <- Z.land_ones by done. f_equal. rewrite Z.ones_equiv. lia. Qed.

Lemma cib_wf_avail k n c : cib_wf k n c → cib_avail c = Z.of_nat n.
Proof.
  intros (Hk & Hm & Hr & Hw & Hn). unfold cib_avail. rewrite Hw.
  pose proof (pow_le_2_30 k Hk). unfold u32 in *.
  rewrite Zminus_mod_idemp_l, Z.add_simpl_l. apply Z.mod_small. lia.
Qed.

Lemma cib_wf_mask k n c : cib_wf k n c → s32 (mask c) = 2 ^ k - 1.
Proof.
  intros (Hk & Hm & _). pose proof (pow_le_2_30 k Hk). rewrite Hm. apply s32_small. lia.
Qed.

Lemma cib_wf_full k n c : cib_wf k n c → cib_full c = (2 ^ k <=? Z.of_nat n).
Proof.
  intros Hwf. unfold cib_full. rewrite (cib_wf_mask k n), (cib_wf_avail k n) by done.
  destruct Hwf as (Hk & _ & _ & _ & Hn). pose proof (pow_le_2_30 k Hk).
  rewrite s32_small by lia. apply eq_true_iff_eq. rewrite Z.ltb_lt, Z.leb_le. lia.
Qed.

Lemma cib_slot_read k n c :
  cib_wf k n c → s32 (Z.land (read_count c) (mask c)) = Z.of_nat (cib_slot k c 0).
Proof.
  intros (Hk & Hm & Hr & _). pose proof (pow_le_2_30 k Hk).
  unfold cib_slot. rewrite Hm, land_mask by lia.
  pose proof (Z.mod_pos_bound (read_count c) (2 ^ k)).
  rewrite s32_small by lia. rewrite Z2Nat.id; rewrite Z.add_0_r; lia.
Qed.

Lemma cib_slot_write k n c :
  cib_wf k n c → s32 (Z.land (write_count c) (mask c)) = Z.of_nat (cib_slot k c n).
Proof.
  intros (Hk & Hm & Hr & Hw & _). pose proof (pow_le_2_30 k Hk).
  unfold cib_slot. rewrite Hm, land_mask, Hw, mod_pow_u32 by lia.
  pose proof (Z.mod_pos_bound (read_count c + Z.of_nat n) (2 ^ k)).
  rewrite s32_small by lia. rewrite Z2Nat.id; lia.
Qed.

Lemma cib_slot_inj k n c i j :
  cib_wf k n c → (i < n)%nat → (j <= n)%nat → Z.of_nat n < 2 ^ k →
  cib_slot k c i = cib_slot k c j → i = j.
Proof.
  intros (Hk & _ & Hr & _) Hi Hj Hn E. unfold cib_slot in E.
  pose proof (pow_le_2_30 k Hk).
  pose proof (Z.mod_pos_bound (read_count c + Z.of_nat i) (2 ^ k)).
  pose proof (Z.mod_pos_bound (read_count c + Z.of_nat j) (2 ^ k)).
  apply Z2Nat.inj in E; [|lia..].
  assert ((Z.of_nat i - Z.of_nat j) mod 2 ^ k = 0) as Hd.
  { replace (Z.of_nat i - Z.of_nat j)
      with ((read_count c + Z.of_nat i) - (read_count c + Z.of_nat j)) by lia.
    rewrite Zminus_mod, E, Z.sub_diag. apply Z.mod_0_l. lia. }
  apply Z.mod_divide in Hd as [q Hq]; [|lia].
  assert (q = 0) by nia. lia.
Qed.

Lemma cib_slot_bound k c i : 0 <= k → Z.of_nat (cib_slot k c i) < 2 ^ k.
Proof.
  intros. unfold cib_slot. assert (0 < 2 ^ k) by (apply Z.pow_pos_nonneg; lia).
  pose proof (Z.mod_pos_bound (read_count c + Z.of_nat i) (2 ^ k)). lia.
Qed.

(** ** Operations on the represented queue *)

Lemma cib_put_unsafe_rep {A} k c (arr l : list A) x i c' :
  cib_rep k c arr l → Z.of_nat (length l) < 2 ^ k →
  cib_put_unsafe c = (i, c') →
  0 <= i < Z.of_nat (length arr) ∧ cib_rep k c' (<[Z.to_nat i := x]> arr) (l ++ [x]).
Proof.
  intros (Hwf & Ha & Hl) Hn [= <- <-]. rewrite (cib_slot_write k (length l)) by done.
  pose proof Hwf as (Hk & Hm & Hr & Hw & _). pose proof (cib_slot_bound k c (length l)).
  split; [lia|]. rewrite Nat2Z.id. split; [|split].
  - repeat split; simpl; try lia; rewrite ?length_app; simpl; [|lia].
    rewrite Hw. unfold u32. rewrite Zplus_mod_idemp_l. f_equal. lia.
  - rewrite length_insert. lia.
  - intros j y Hy. change (cib_slot k _ j) with (cib_slot k c j).
    apply lookup_snoc_Some in Hy as [[Hj Hy] | [-> <-]].
    + rewrite list_lookup_insert_ne; [by apply Hl|].
      intros E. symmetry in E. apply (cib_slot_inj k (length l)) in E; [lia|done..|lia|done].
    + apply list_lookup_insert_eq. lia.
Qed.

Lemma cib_put_rep {A} k c (arr l : list A) :
  cib_rep k c arr l →
  cib_put c = if Z.of_nat (length l) <? 2 ^ k then cib_put_unsafe c else (-1, c).
Proof.
  intros (Hwf & _). unfold cib_put. rewrite (cib_wf_avail k (length l)), (cib_wf_mask k (length l)) by done.
  destruct Hwf as (Hk & _ & _ & _ & Hn). pose proof (pow_le_2_30 k Hk).
  rewrite s32_small by lia. unfold cib_put_unsafe.
  destruct (Z.leb_spec (Z.of_nat (length l)) (2 ^ k - 1)),
           (Z.ltb_spec (Z.of_nat (length l)) (2 ^ k)); done || lia.
Qed.

Lemma cib_get_unsafe_rep {A} k c (arr l : list A) x i c' :
  cib_rep k c arr (x :: l) → cib_get_unsafe c = (i, c') →
  0 <= i ∧ arr !! Z.to_nat i = Some x ∧ cib_rep k c' arr l.
Proof.
  intros (Hwf & Ha & Hl) [= <- <-]. rewrite (cib_slot_read k (length (x :: l))) by done.
  rewrite Nat2Z.id. split; [lia|]. split; [by apply Hl|].
  pose proof Hwf as (Hk & Hm & Hr & Hw & Hn). simpl in Hn, Hw. split; [|split; [done|]].
  - repeat split; simpl; try lia; try apply Z.mod_pos_bound; try lia.
    rewrite Hw. unfold u32. rewrite Zplus_mod_idemp_l. f_equal. lia.
  - intros j y Hy. specialize (Hl (S j) y Hy).
    unfold cib_slot in *. simpl. rewrite <- Hl. do 2 f_equal.
    rewrite <- (mod_pow_u32 k), <- (mod_pow_u32 k (_ + Z.of_nat (S j))) by done.
    unfold u32. rewrite Zplus_mod_idemp_l. do 2 f_equal. lia.
Qed.

(** [cib_get] agrees with [cib_get_unsafe] as long as the writer has not
    wrapped around past the reader. *)
Lemma cib_get_rep {A} k c (arr l : list A) :
  cib_rep k c arr l → cib_nowrap c →
  cib_get c = match l with [] => (-1, c) | _ => cib_get_unsafe c end.
Proof.
  intros (Hwf & _) Hnw. unfold cib_get, cib_nowrap in *.
  pose proof (cib_wf_avail _ _ _ Hwf) as Hav. unfold cib_avail, u32 in Hav.
  destruct Hwf as (Hk & _ & Hr & Hw & Hn).
  assert (0 <= write_count c < 2 ^ 32) by (rewrite Hw; apply Z.mod_pos_bound; lia).
  rewrite Z.mod_small in Hav by lia. destruct l as [|x l]; simpl in Hav.
  - destruct (Z.ltb_spec (read_count c) (write_count c)); [lia|done].
  - destruct (Z.ltb_spec (read_count c) (write_count c)); [done|lia].
Qed.

Lemma cib_init_rep {A} k (arr : list A) :
  0 <= k <= 30 → Z.of_nat (length arr) = 2 ^ k →
  ∃ c, cib_init (2 ^ k) = Ok c ∧ cib_rep k c arr [] ∧ cib_nowrap c.
Proof.
  intros Hk Ha. pose proof (pow_le_2_30 k Hk). exists (CIB_INIT (2 ^ k)).
  unfold cib_init, CIB_INIT. rewrite u32_small by lia.
  rewrite land_mask by lia. rewrite Z_mod_same_full. simpl. split; [done|].
  split; [|unfold cib_nowrap; simpl; lia].
  split; [|split; [done|by intros ? ? ?]].
  repeat split; simpl; lia.
Qed.

(** ** A bounded queue built on the indices, and its specification *)

Inductive cib_cmd (A : Type) : Type := Put (x : A) | Get.
Arguments Put {A} x.
Arguments Get {A}.

(** The pattern of every client: write the slot [cib_put] names, read the slot
    [cib_get] names. The value is [Some] element for a successful get. *)
Definition cib_exec {A} (st : cib_t * list A) (cmd : cib_cmd A)
  : result (option A * (cib_t * list A)) :=
  let '(c, arr) := st in
  match cmd with
  | Put x =>
      let '(i, c) := cib_put c in
      if i <? 0 then Ok (None, (c, arr))
      else arr ← aset arr i x; Ok (Some x, (c, arr))
  | Get =>
      let '(i, c) := cib_get c in
      if i <? 0 then Ok (None, (c, arr))
      else x ← aget arr i; Ok (Some x, (c, arr))
  end.

Definition fifo_exec {A} (k : Z) (l : list A) (cmd : cib_cmd A) : option A * list A :=
  match cmd with
  | Put x => if Z.of_nat (length l) <? 2 ^ k then (Some x, l ++ [x]) else (None, l)
  | Get => (head l, tail l)
  end.

Lemma cib_nowrap_put k n c :
  cib_wf k n c → cib_nowrap c → write_count c < 2 ^ 32 - 1 →
  cib_nowrap (cib_put_unsafe c).2 ∧ write_count (cib_put_unsafe c).2 = write_count c + 1.
Proof.
  unfold cib_nowrap, cib_put_unsafe. simpl. intros (_ & _ & Hr & _) Hnw Hw.
  rewrite u32_small by lia. lia.
Qed.

Lemma cib_nowrap_get k n c :
  cib_wf k (S n) c → cib_nowrap c → write_count c < 2 ^ 32 →
  cib_nowrap (cib_get_unsafe c).2 ∧ write_count (cib_get_unsafe c).2 = write_count c.
Proof.
  intros Hwf Hnw Hlt. pose proof (cib_wf_avail _ _ _ Hwf) as Hav.
  destruct Hwf as (_ & _ & Hr & _). unfold cib_nowrap, cib_get_unsafe, cib_avail, u32 in *.
  simpl. rewrite Z.mod_small in Hav by lia. rewrite Z.mod_small; lia.
Qed.

Lemma cib_exec_refines {A} k c (arr l : list A) cmd :
  cib_rep k c arr l → cib_nowrap c → write_count c < 2 ^ 32 - 1 →
  ∃ c' arr', cib_exec (c, arr) cmd = Ok (fst (fifo_exec k l cmd), (c', arr')) ∧
    cib_rep k c' arr' (snd (fifo_exec k l cmd)) ∧ cib_nowrap c' ∧
    write_count c' <= write_count c + 1.
Proof.
  intros Hrep Hnw Hw. pose proof Hrep as (Hwf & Ha & _). destruct cmd as [x|]; simpl.
  - rewrite (cib_put_rep k c arr l) by done.
    destruct (Z.ltb_spec (Z.of_nat (length l)) (2 ^ k)); [|by exists c, arr; split_and!; done || lia].
    destruct (cib_put_unsafe c) as [i c'] eqn:E.
    destruct (cib_put_unsafe_rep k c arr l x i c') as [Hi Hrep']; [done..|].
    destruct (cib_nowrap_put k (length l) c) as [Hn' Hw']; [done..|]. rewrite E in Hn', Hw'.
    destruct (Z.ltb_spec i 0); [lia|]. unfold aset.
    assert (((0 <=? i) && (i <? Z.of_nat (length arr)))%bool = true) as -> by lia.
    simpl in *. eexists _, _. split_and!; done || lia.
  - rewrite (cib_get_rep k c arr l) by done. destruct l as [|x l].
    { simpl. by exists c, arr; split_and!; done || lia. }
    destruct (cib_get_unsafe c) as [i c'] eqn:E.
    destruct (cib_get_unsafe_rep k c arr l x i c') as (Hi & Hx & Hrep'); [done..|].
    destruct (cib_nowrap_get k (length l) c) as [Hn' Hw']; [done..|lia|]. rewrite E in Hn', Hw'.
    destruct (Z.ltb_spec i 0); [lia|]. unfold aget.
    assert ((0 <=? i) = true) as -> by lia. rewrite Hx. simpl in *.
    eexists _, _. split_and!; done || lia.
Qed.

(** The buffer and its index implement the bounded queue, until the write
    counter reaches its maximum. *)
Definition cib_fifo {A} (k : Z) (st : cib_t * list A) (l : list A) : Prop :=
  cib_rep k st.1 st.2 l ∧ cib_nowrap st.1.

Global Instance cib_implements {A} (k : Z) :
  Implements (cib_exec (A := A)) (fifo_exec k) (λ st _ _, write_count st.1 < 2 ^ 32 - 1) (cib_fifo k).
Proof.
  intros [c arr] l cmd [Hrep Hnw] Hw.
  destruct (cib_exec_refines k c arr l cmd Hrep Hnw Hw) as (c' & arr' & E & ? & ? & _).
  by exists (c', arr').
Qed.

(** One operation advances the write counter by at most one. *)
Lemma cib_run_allowed {A} k (st : cib_t * list A) l cmds :
  cib_fifo k st l → write_count st.1 + Z.of_nat (length cmds) < 2 ^ 32 →
  run_allowed cib_exec (fifo_exec k) (λ st _ _, write_count st.1 < 2 ^ 32 - 1) st l cmds.
Proof.
  revert st l. induction cmds as [|cmd cmds IH]; intros [c arr] l [Hrep Hnw] Hw; [done|].
  simpl in Hw. split; [simpl; lia|]. intros r st' E.
  destruct (cib_exec_refines k c arr l cmd Hrep Hnw) as (c' & arr' & E' & ? & ? & ?); [lia|].
  rewrite E' in E. injection E as _ <-. apply IH; [done|simpl in *; lia].
Qed.

(** A buffer of [2^k] slots indexed by a freshly initialised cib is a
    bounded FIFO queue: any program of puts and gets (fewer than [2^32] of
    them) stays inside the array, stores until [2^k] elements are queued,
    refuses further ones, and returns the elements in the order they were put. *)
Theorem cib_is_bounded_fifo {A} k (arr : list A) cmds :
  0 <= k <= 30 → Z.of_nat (length arr) = 2 ^ k → Z.of_nat (length cmds) < 2 ^ 32 →
  ∃ c st', cib_init (2 ^ k) = Ok c ∧
    run_exec cib_exec (c, arr) cmds = Ok (fst (run_spec (fifo_exec k) [] cmds), st') ∧
    cib_fifo k st' (snd (run_spec (fifo_exec k) [] cmds)).
Proof.
  intros Hk Ha Hc. destruct (cib_init_rep k arr Hk Ha) as (c & E & Hrep & Hnw). exists c.
  destruct (implements_run (H := cib_implements k) (c, arr) [] cmds) as (st' & H1 & H2); [done| |by exists st'].
  apply cib_run_allowed; [done|]. unfold cib_init in E. destruct (assert_ _); [|done].
  injection E as <-. simpl. lia.
Qed.

Lemma cib_is_bounded_fifo_witness :
  ∃ c st', cib_init (2 ^ 1) = Ok c ∧
    run_exec cib_exec (c, [0%nat; 0%nat]) [Put 5%nat; Put 6%nat; Put 7%nat; Get; Put 8%nat; Get] =
      Ok ([Some 5%nat; Some 6%nat; None; Some 5%nat; Some 8%nat; Some 6%nat], st') ∧
    cib_fifo 1 st' [8%nat].
Proof.
  apply (cib_is_bounded_fifo 1 [0%nat; 0%nat]
    [Put 5%nat; Put 6%nat; Put 7%nat; Get; Put 8%nat; Get]); simpl; lia.
Defined.

(** Once the write counter has wrapped around past the read counter,
    [cib_get] reports an empty buffer although [cib_avail] elements are queued,
    and keeps doing so, while [cib_put] still fills the buffer: the elements
    are unreachable. *)
Theorem cib_get_stuck_after_wrap c :
  0 <= write_count c < read_count c → read_count c < 2 ^ 32 →
  cib_get c = (-1, c) ∧ cib_peek c = -1 ∧ 0 < cib_avail c.
Proof.
  intros Hw Hr. unfold cib_get, cib_peek, cib_avail.
  destruct (Z.ltb_spec (read_count c) (write_count c)); [lia|].
  split; [done|]. split; [done|]. unfold u32.
  replace (write_count c - read_count c)
    with (write_count c - read_count c + 4294967296 + -1 * 4294967296) by lia.
  rewrite Z.mod_add by lia. rewrite Z.mod_small; lia.
Qed.

Lemma cib_get_stuck_after_wrap_witness :
  cib_get (Cib 4294967295 0 7) = (-1, Cib 4294967295 0 7) ∧
  cib_peek (Cib 4294967295 0 7) = -1 ∧ 0 < cib_avail (Cib 4294967295 0 7).
Proof. apply (cib_get_stuck_after_wrap (Cib 4294967295 0 7)); simpl; lia. Defined.
