(* ===== verification/PriorityQueue.v ===== *)
(** * core/priority_queue.c: the singly linked priority queue

    The root of a queue is used as a node (the source casts it to one), so the
    queue is a [list.h]-style list of which the nodes carry a priority that no
    operation changes. *)

From S2P Require Import Prelude LinkedList.
Open Scope Z_scope.

Section PriorityQueue.
Context {node : Type} `{Countable node}.
(** The [priority] member of a node. *)
Context (priority : node → Z).
Implicit Types (h : gmap node node) (l : list node).

Fixpoint priority_queue_remove_loop (fuel : nat) h (root node_ : node) : result (gmap node node) :=
  match fuel with
  | O => Fault OutOfFuel
  | S fuel =>
      match h !! root with
      | None => Ok h
      | Some nxt =>
          if decide (nxt = node_)
          then let h := set_next h root (h !! node_) in Ok (set_next h node_ None)
          else priority_queue_remove_loop fuel h nxt node_
      end
  end.

Definition priority_queue_remove h (root node_ : node) : result (gmap node node) :=
  priority_queue_remove_loop (S (size h)) h root node_.

Definition priority_queue_remove_head h (root : node) : option node * gmap node node :=
  let head := h !! root in
  match head with
  | Some hd => (head, set_next h root (h !! hd))
  | None => (head, h)
  end.

Fixpoint priority_queue_add_loop (fuel : nat) h (node_ new_obj : node) : result (gmap node node) :=
  match fuel with
  | O => Fault OutOfFuel
  | S fuel =>
      match h !! node_ with
      | Some nxt =>
          _ ← assert_ (negb (bool_decide (nxt = new_obj)));
          if priority new_obj <? priority nxt
          then let h := set_next h new_obj (h !! node_) in
               Ok (set_next h node_ (Some new_obj))
          else priority_queue_add_loop fuel h nxt new_obj
      | None =>
          let h := set_next h node_ (Some new_obj) in
          Ok (set_next h new_obj None)
      end
  end.

Definition priority_queue_add h (root new_obj : node) : result (gmap node node) :=
  priority_queue_add_loop (S (size h)) h root new_obj.

(** ** Correctness *)

Lemma priority_queue_add_loop_spec fuel h hd_ l x :
  is_list h hd_ l → x ∉ hd_ :: l → (length l < fuel)%nat →
  ∃ h', priority_queue_add_loop fuel h hd_ x = Ok h' ∧
        is_list h' hd_ (insert_by priority x l) ∧
        ∀ y, y ∉ x :: hd_ :: l → h' !! y = h !! y.
Proof.
  revert h hd_ l. induction fuel as [|fuel IH]; intros h hd_ l Hl Hx Hf; [lia|].
  destruct l as [|y l].
  - pose proof (proj2 (proj2 Hl)) as He. simpl in He. simpl. rewrite He.
    eexists. split; [done|]. split; [|intros; by heap_simpl].
    split; [apply NoDup_cons; split; [set_solver|apply NoDup_singleton]|].
    assert (x ≠ hd_) by set_solver. simpl. by heap_simpl.
  - pose proof Hl as (_ & [Hy _] & _). simpl. rewrite Hy.
    rewrite bool_decide_eq_false_2 by set_solver. simpl.
    destruct (priority x <? priority y).
    + eexists. split; [done|].
      pose proof (list_add_spec h hd_ [] (y :: l) x Hl Hx) as Ha.
      unfold list_add in Ha. simpl in Ha. rewrite Hy in Ha. split; [exact Ha|].
      intros z Hz. by heap_simpl.
    + destruct (IH h y l) as (h' & E & Hr & Hfr);
        [by eapply is_list_sub|set_solver|simpl in Hf; lia|].
      exists h'. split; [done|].
      assert (hd_ ∉ y :: l) by (by destruct Hl as ([? ?]%NoDup_cons & _)).
      split; [|intros z Hz; apply Hfr; set_solver].
      apply (is_list_cons h _ _ _ l); [done..| |].
      * apply Hfr. set_solver.
      * rewrite elem_of_insert_by. set_solver.
Qed.

Lemma priority_queue_add_spec h root l x :
  is_list h root l → x ∉ root :: l →
  ∃ h', priority_queue_add h root x = Ok h' ∧ is_list h' root (insert_by priority x l) ∧
        ∀ y, y ∉ x :: root :: l → h' !! y = h !! y.
Proof.
  intros Hl Hx. apply priority_queue_add_loop_spec; [done..|].
  destruct Hl as (Hnd & Hp & _). pose proof (path_length _ _ _ Hnd Hp). lia.
Qed.

Lemma priority_queue_remove_loop_spec fuel h hd_ l x :
  is_list h hd_ l → (length l < fuel)%nat → x ≠ hd_ →
  ∃ h', priority_queue_remove_loop fuel h hd_ x = Ok h' ∧
        is_list h' hd_ (filter (.≠ x) l) ∧ (x ∈ l → h' !! x = None) ∧
        ∀ y, y ∉ hd_ :: l → h' !! y = h !! y.
Proof using H.
  clear priority.
  revert h hd_ l. induction fuel as [|fuel IH]; intros h hd_ l Hl Hf Hx; [lia|].
  destruct l as [|y l].
  - pose proof (proj2 (proj2 Hl)) as He. simpl in He. simpl. rewrite He.
    exists h. split_and!; [done|by apply is_list_nil|set_solver|done].
  - pose proof Hl as (Hnd & [Hy _] & _). simpl. rewrite Hy.
    apply NoDup_cons in Hnd as [Hn Hnd]. destruct (decide (y = x)) as [->|Hne].
    + destruct (list_remove_head_cons _ _ _ _ Hl) as [_ Hr].
      apply NoDup_cons in Hnd as [Hn' Hnd].
      eexists. rewrite filter_cons_False, filter_all by set_solver. split; [done|].
      split; [|split; [intros; by heap_simpl|intros; by heap_simpl]].
      apply (is_list_frame (set_next h hd_ (h !! x))); [|done].
      intros z Hz. assert (x ≠ z) by set_solver. by rewrite set_next_other.
    + destruct (IH h y l) as (h' & E & Hr & Hnone & Hfr);
        [by eapply is_list_sub|simpl in Hf; lia|done|].
      exists h'. split; [done|]. rewrite filter_cons_True by done.
      split; [|split; [set_solver|intros z Hz; apply Hfr; set_solver]].
      apply (is_list_cons h _ _ _ l); [done..| |].
      * apply Hfr. set_solver.
      * rewrite list_elem_of_filter. set_solver.
Qed.

(** ** Filling and draining a queue *)

Fixpoint pq_add_all h (root : node) (xs : list node) : result (gmap node node) :=
  match xs with
  | [] => Ok h
  | x :: xs => h ← priority_queue_add h root x; pq_add_all h root xs
  end.

Fixpoint pq_drain (n : nat) h (root : node) : list node :=
  match n with
  | O => []
  | S n =>
      match priority_queue_remove_head h root with
      | (Some x, h) => x :: pq_drain n h root
      | (None, h) => []
      end
  end.

Lemma pq_add_all_spec h root l xs :
  is_list h root l → NoDup (xs ++ l) → root ∉ xs →
  ∃ h', pq_add_all h root xs = Ok h' ∧ is_list h' root (insert_all priority xs l).
Proof.
  revert h l. induction xs as [|x xs IH]; intros h l Hl Hnd Hr; [by exists h|].
  simpl in Hnd. apply NoDup_cons in Hnd as [Hx Hnd].
  destruct (priority_queue_add_spec h root l x) as (h1 & E1 & L1 & _); [done|set_solver|].
  simpl. rewrite E1. simpl. apply IH; [done| |set_solver].
  rewrite insert_by_perm, <- Permutation_middle. apply NoDup_cons. done.
Qed.

Lemma pq_drain_spec h root l :
  is_list h root l → pq_drain (length l) h root = l.
Proof.
  revert h. induction l as [|x l IH]; intros h Hl; [done|]. simpl.
  change (priority_queue_remove_head h root) with (list_remove_head h root).
  destruct (list_remove_head_cons _ _ _ _ Hl) as [-> Hr]. f_equal. by apply IH.
Qed.

End PriorityQueue.

(** Adding distinct nodes to an empty priority queue and then removing
    heads until the queue is empty returns all of them, in ascending priority
    value, and nodes of equal priority in the order they were added; no
    operation faults or loops. *)
Theorem priority_queue_stable_sort {node : Type} `{Countable node}
    (priority : node → Z) (h : gmap node node) root xs :
  h !! root = None → NoDup xs → root ∉ xs →
  ∃ h' out, pq_add_all priority h root xs = Ok h' ∧
    pq_drain (length xs) h' root = out ∧
    out ≡ₚ xs ∧ sorted_by priority out ∧
    ∀ p, filter (λ y, priority y = p) out = filter (λ y, priority y = p) xs.
Proof.
  intros Hh Hnd Hr.
  destruct (pq_add_all_spec priority h root [] xs) as (h' & E & Hl);
    [by apply is_list_nil|by rewrite app_nil_r|done|].
  exists h', (insert_all priority xs []). split; [done|].
  pose proof (insert_all_perm priority xs []) as Hp. rewrite app_nil_r in Hp.
  split; [rewrite <- (Permutation_length Hp); by apply pq_drain_spec|].
  split; [done|]. split; [apply insert_all_sorted; constructor|].
  intros p. rewrite insert_all_stable by constructor. done.
Qed.

Lemma priority_queue_stable_sort_witness :
  ∃ h' out, pq_add_all (λ x, x / 10) ∅ 0 [31; 12; 33; 11] = Ok h' ∧
    pq_drain 4 h' 0 = out ∧ out ≡ₚ [31; 12; 33; 11] ∧ sorted_by (λ x, x / 10) out ∧
    ∀ p, filter (λ y, y / 10 = p) out = filter (λ y, y / 10 = p) [31; 12; 33; 11].
Proof.
  apply (priority_queue_stable_sort (λ x, x / 10) ∅ 0 [31; 12; 33; 11]);
    [done| |set_solver].
  repeat (apply NoDup_cons; split; [set_solver|]). apply NoDup_nil_2.
Defined.

(** [priority_queue_remove] unlinks exactly the given node, clears its
    [next] pointer when it was queued, keeps the order of the others and
    touches no node outside the queue. *)
Theorem priority_queue_remove_correct {node : Type} `{Countable node}
    (h : gmap node node) root l x :
  is_list h root l → x ≠ root →
  ∃ h', priority_queue_remove h root x = Ok h' ∧
        is_list h' root (filter (.≠ x) l) ∧ (x ∈ l → h' !! x = None) ∧
        ∀ y, y ∉ root :: l → h' !! y = h !! y.
Proof.
  intros Hl Hx. apply priority_queue_remove_loop_spec; [done| |done].
  destruct Hl as (Hnd & Hp & _). pose proof (path_length _ _ _ Hnd Hp). lia.
Qed.

Definition pq_example : gmap Z Z := {[0 := 1; 1 := 2]}.

Lemma priority_queue_remove_correct_witness :
  ∃ h', priority_queue_remove pq_example 0 1 = Ok h' ∧
        is_list h' 0 (filter (.≠ 1) [1; 2]) ∧ (1 ∈ [1; 2] → h' !! 1 = None) ∧
        ∀ y, y ∉ [0; 1; 2] → h' !! y = pq_example !! y.
Proof.
  apply (priority_queue_remove_correct pq_example 0 [1; 2] 1); [|done].
  split; [|done]. repeat (apply NoDup_cons; split; [set_solver|]). apply NoDup_nil_2.
Defined.
