(* ===== verification/Lifo.v ===== *)
(** * core/lifo.c: a stack of small integers threaded through an array

    [array[0]] holds the top of the stack and [array[i + 1]] the element below
    [i]; [-1] ends the chain. The [DEVELHELP] branches are modelled by the
    boolean [develhelp]. *)

From S2P Require Import Prelude Refinement.
Open Scope Z_scope.

Definition lifo_empty (array : list Z) : result bool :=
  h ← aget array 0; Ok (h =? -1).

Fixpoint lifo_init_loop (fuel : nat) (array : list Z) (i n : Z) : result (list Z) :=
  match fuel with
  | O => Fault OutOfFuel
  | S fuel =>
      if i <=? n then array ← aset array i (-1); lifo_init_loop fuel array (i + 1) n
      else Ok array
  end.

Definition lifo_init (array : list Z) (n : Z) : result (list Z) :=
  lifo_init_loop (S (S (Z.to_nat n))) array 0 n.

(** With [DEVELHELP] the source reads the slot and prints a warning when it
    would overwrite one; the stores are the same. *)
Definition lifo_insert (array : list Z) (i : Z) : result (list Z) :=
  let index := i + 1 in
  h ← aget array 0;
  array ← aset array index h;
  aset array 0 i.

Definition lifo_get (develhelp : bool) (array : list Z) : result (Z * list Z) :=
  head ← aget array 0;
  array ← (if negb (head =? -1) then n ← aget array (head + 1); aset array 0 n else Ok array);
  array ← (if develhelp then aset array (head + 1) (-1) else Ok array);
  Ok (head, array).

(** ** Representation *)

(** Following the chain from [top] visits [l], ended by [-1]. *)
Fixpoint lifo_chain (array : list Z) (top : Z) (l : list Z) : Prop :=
  match l with
  | [] => top = -1
  | x :: l => top = x ∧ 0 <= x ∧ ∃ n, array !! Z.to_nat (x + 1) = Some n ∧ lifo_chain array n l
  end.

Definition is_lifo (array : list Z) (l : list Z) : Prop :=
  NoDup l ∧ ∃ top, array !! 0%nat = Some top ∧ lifo_chain array top l.

Lemma lifo_chain_bound array top l x :
  lifo_chain array top l → x ∈ l → 0 <= x ∧ x + 1 < Z.of_nat (length array).
Proof.
  revert top. induction l as [|y l IH]; intros top; simpl; [set_solver|].
  intros (-> & Hy & n & Hn & Hc) Hx. apply elem_of_cons in Hx as [->|Hx]; [|by eapply IH].
  apply lookup_lt_Some in Hn. lia.
Qed.

Lemma lifo_chain_frame array i v top l :
  lifo_chain array top l → (∀ x, x ∈ l → Z.to_nat (x + 1) ≠ i) →
  lifo_chain (<[i := v]> array) top l.
Proof.
  revert top. induction l as [|x l IH]; intros top; simpl; [done|].
  intros (-> & Hx & n & Hn & Hc) Hf. split; [done|]. split; [done|]. exists n. split.
  - rewrite list_lookup_insert_ne; [done|]. intros E. by apply (Hf x); [set_solver|].
  - apply IH; [done|]. set_solver.
Qed.

Lemma lifo_init_loop_spec fuel array i n :
  0 <= i <= n + 1 → n < Z.of_nat (length array) → n + 1 - i < Z.of_nat fuel →
  ∃ array', lifo_init_loop fuel array i n = Ok array' ∧ length array' = length array ∧
    (∀ j, (Z.of_nat j < i) → array' !! j = array !! j) ∧
    (∀ j, i <= Z.of_nat j <= n → array' !! j = Some (-1)).
Proof.
  revert array i. induction fuel as [|fuel IH]; intros array i Hi Hn Hf; [lia|]. simpl.
  destruct (Z.leb_spec i n).
  - rewrite aset_Ok by lia. simpl.
    destruct (IH (<[Z.to_nat i := -1]> array) (i + 1)) as (a' & E & Hl & Hlo & Hhi);
      [lia|rewrite length_insert; lia|lia|].
    exists a'. rewrite length_insert in Hl. split_and!; [done|done| |].
    + intros j Hj. rewrite Hlo by lia. apply list_lookup_insert_ne. lia.
    + intros j Hj. destruct (decide (Z.of_nat j = i)) as [<-|]; [|apply Hhi; lia].
      rewrite Hlo by lia. rewrite Nat2Z.id. apply list_lookup_insert_eq. lia.
  - exists array. split_and!; [done..|]. intros j Hj. lia.
Qed.

Lemma lifo_insert_spec array l x :
  is_lifo array l → 0 <= x → x + 1 < Z.of_nat (length array) → x ∉ l →
  ∃ array', lifo_insert array x = Ok array' ∧ length array' = length array ∧
            is_lifo array' (x :: l).
Proof.
  intros (Hnd & top & Htop & Hc) Hx Hlen Hin. unfold lifo_insert.
  rewrite (aget_Some array 0 top) by done. simpl.
  rewrite aset_Ok by lia. simpl. rewrite aset_Ok by (rewrite length_insert; lia).
  eexists. split; [done|]. rewrite !length_insert. split; [done|].
  split; [by apply NoDup_cons|]. exists x. split.
  - change (Z.to_nat 0) with 0%nat. apply list_lookup_insert_eq. rewrite length_insert. lia.
  - simpl. split; [done|]. split; [done|]. exists top. split.
    + rewrite list_lookup_insert_ne by lia. apply list_lookup_insert_eq. lia.
    + assert (∀ y, y ∈ l → 0 <= y ∧ y ≠ x).
      { intros y Hy. pose proof (lifo_chain_bound _ _ _ _ Hc Hy). set_solver by lia. }
      apply lifo_chain_frame; [apply lifo_chain_frame; [done|]|];
        intros y Hy; specialize (H y Hy); lia.
Qed.

Lemma lifo_get_nil develhelp array :
  is_lifo array [] →
  ∃ array', lifo_get develhelp array = Ok (-1, array') ∧ length array' = length array ∧
            is_lifo array' [].
Proof.
  intros (_ & top & Htop & Hc). simpl in Hc. subst top. unfold lifo_get.
  rewrite (aget_Some array 0 (-1)) by done. simpl.
  pose proof (lookup_lt_Some _ _ _ Htop).
  destruct develhelp; [rewrite aset_Ok by lia|]; simpl; (eexists; split; [done|]).
  - rewrite length_insert. split; [done|]. split; [apply NoDup_nil_2|].
    exists (-1). by rewrite list_lookup_insert_eq.
  - split; [done|]. split; [apply NoDup_nil_2|]. by exists (-1).
Qed.

Lemma lifo_get_cons develhelp array x l :
  is_lifo array (x :: l) →
  ∃ array', lifo_get develhelp array = Ok (x, array') ∧ length array' = length array ∧
            is_lifo array' l.
Proof.
  intros (Hnd & top & Htop & Hc). pose proof (lifo_chain_bound _ _ _ x Hc ltac:(set_solver)).
  assert (∀ y, y ∈ l → 0 <= y ∧ y + 1 < Z.of_nat (length array)) as Hb.
  { intros y Hy. apply (lifo_chain_bound _ _ _ y Hc). set_solver. }
  simpl in Hc. destruct Hc as (-> & Hx & n & Hn & Hc). unfold lifo_get.
  apply NoDup_cons in Hnd as [Hnin Hnd].
  rewrite (aget_Some array 0 x) by done. simpl.
  assert ((x =? -1) = false) as -> by lia. simpl.
  rewrite (aget_Some array (x + 1) n) by (done || lia). simpl.
  rewrite aset_Ok by lia. simpl. change (Z.to_nat 0) with 0%nat.
  assert (is_lifo (<[0%nat := n]> array) l) as Hl.
  { split; [done|]. exists n. rewrite list_lookup_insert_eq by lia. split; [done|].
    apply lifo_chain_frame; [done|]. intros y Hy. specialize (Hb y Hy). lia. }
  destruct develhelp.
  - rewrite aset_Ok by (rewrite length_insert; lia). simpl. eexists. split; [done|].
    rewrite !length_insert. split; [done|]. destruct Hl as (_ & t & Ht & Hc').
    split; [done|]. exists t. rewrite list_lookup_insert_ne by lia. split; [done|].
    apply lifo_chain_frame; [done|]. intros y Hy. specialize (Hb y Hy).
    assert (y ≠ x) by set_solver. lia.
  - eexists. split; [done|]. by rewrite length_insert.
Qed.

(** ** The stack as a sequence *)

Inductive lifo_op : Type := Insert (x : Z) | GetTop.

Definition lifo_exec (develhelp : bool) (array : list Z) (op : lifo_op) : result (Z * list Z) :=
  match op with
  | Insert x => a ← lifo_insert array x; Ok (x, a)
  | GetTop => lifo_get develhelp array
  end.

Definition stack_exec (l : list Z) (op : lifo_op) : Z * list Z :=
  match op with Insert x => (x, x :: l) | GetTop => (default (-1) (head l), tail l) end.

(** An index may be inserted only while it is not on the stack. *)
Definition stack_allowed (size : Z) (l : list Z) (op : lifo_op) : Prop :=
  match op with Insert x => 0 <= x < size ∧ x ∉ l | GetTop => True end.

(** The array implements the stack. *)
Definition lifo_stack (size : Z) (array l : list Z) : Prop :=
  is_lifo array l ∧ Z.of_nat (length array) = size + 1.

Global Instance lifo_implements develhelp size :
  Implements (lifo_exec develhelp) stack_exec (λ _ l op, stack_allowed size l op) (lifo_stack size).
Proof.
  intros array l [x|] [Hl Hlen] Hop; simpl in *.
  - destruct (lifo_insert_spec array l x) as (a' & -> & ? & ?); [done|lia|lia|apply Hop|].
    exists a'. split; [done|]. split; [done|lia].
  - destruct l as [|x l].
    + destruct (lifo_get_nil develhelp array) as (a' & -> & ? & ?); [done|].
      exists a'. split; [done|]. split; [done|lia].
    + destruct (lifo_get_cons develhelp array x l) as (a' & -> & ? & ?); [done|].
      exists a'. split; [done|]. split; [done|lia].
Qed.

(** An array of [n + 1] integers initialised by [lifo_init] is a stack of
    the indices [0 .. n - 1]: any program of inserts (of indices not on the
    stack) and gets stays inside the array, every get returns the most
    recently inserted index still on the stack and [-1] on an empty stack,
    with and without [DEVELHELP]. *)
Theorem lifo_is_stack develhelp array n ops :
  0 <= n → Z.of_nat (length array) = n + 1 → spec_allowed stack_exec (stack_allowed n) [] ops →
  ∃ a0 a', lifo_init array n = Ok a0 ∧
    run_exec (lifo_exec develhelp) a0 ops = Ok (fst (run_spec stack_exec [] ops), a') ∧
    lifo_stack n a' (snd (run_spec stack_exec [] ops)).
Proof.
  intros Hn Hlen Hal.
  destruct (lifo_init_loop_spec (S (S (Z.to_nat n))) array 0 n) as (a0 & E & Hl & _ & Hm);
    [lia..|].
  exists a0. destruct (implements_run (H := lifo_implements develhelp n) a0 [] ops) as (a' & E' & Hr).
  - split; [|lia]. split; [apply NoDup_nil_2|]. exists (-1). split; [apply Hm; lia|done].
  - by apply run_allowed_spec.
  - by exists a'.
Qed.

Lemma lifo_is_stack_witness :
  ∃ a0 a', lifo_init [7; 7; 7; 7] 3 = Ok a0 ∧
    run_exec (lifo_exec true) a0 [Insert 1; Insert 2; GetTop; GetTop; GetTop] = Ok ([1; 2; 2; 1; -1], a') ∧
    lifo_stack 3 a' [].
Proof.
  apply (lifo_is_stack true [7; 7; 7; 7] 3 [Insert 1; Insert 2; GetTop; GetTop; GetTop]);
    [lia|done|]. simpl. set_solver by lia.
Defined.
