(* ===== verification/Ringbuffer.v ===== *)
(** * core/ringbuffer.c: the byte ring buffer

    A [ringbuffer_t] owns the array it operates on; the elements are the
    unsigned values of its [char]s. [ring_rep] relates the structure to the
    sequence of buffered bytes. *)

From S2P Require Import Prelude Refinement.
Open Scope Z_scope.

Record ringbuffer_t : Type := Ringbuffer {
  buf : list Z;
  size : Z;
  start : Z;
  avail : Z
}.

Definition ringbuffer_init (buffer : list Z) (bufsize : Z) : ringbuffer_t :=
  Ringbuffer buffer bufsize 0 0.

Definition ringbuffer_empty (rb : ringbuffer_t) : bool := avail rb =? 0.
Definition ringbuffer_full (rb : ringbuffer_t) : bool := avail rb =? size rb.
Definition ringbuffer_get_free (rb : ringbuffer_t) : Z := u32 (size rb - avail rb).

Definition add_tail (rb : ringbuffer_t) (c : Z) : result ringbuffer_t :=
  let pos := u32 (start rb + avail rb) in
  let avail' := u32 (avail rb + 1) in
  let pos := if size rb <=? pos then u32 (pos - size rb) else pos in
  b ← aset (buf rb) pos c;
  Ok (Ringbuffer b (size rb) (start rb) avail').

(** [(--avail == 0) || (++start == size)]: the increment is skipped when the
    buffer has become empty. *)
Definition get_head (rb : ringbuffer_t) : result (Z * ringbuffer_t) :=
  result ← aget (buf rb) (start rb);
  let avail' := u32 (avail rb - 1) in
  if avail' =? 0 then Ok (result, Ringbuffer (buf rb) (size rb) 0 avail')
  else
    let start' := u32 (start rb + 1) in
    Ok (result, Ringbuffer (buf rb) (size rb) (if start' =? size rb then 0 else start') avail').

Fixpoint ringbuffer_add_loop (fuel : nat) (rb : ringbuffer_t) (data : list Z) (i n : Z)
  : result (Z * ringbuffer_t) :=
  match fuel with
  | O => Fault OutOfFuel
  | S fuel =>
      if i <? n then
        if ringbuffer_full rb then Ok (i, rb)
        else
          c ← aget data i;
          rb ← add_tail rb c;
          ringbuffer_add_loop fuel rb data (i + 1) n
      else Ok (i, rb)
  end.

Definition ringbuffer_add (rb : ringbuffer_t) (data : list Z) (n : Z) : result (Z * ringbuffer_t) :=
  ringbuffer_add_loop (S (Z.to_nat n)) rb data 0 n.

Definition ringbuffer_add_one (rb : ringbuffer_t) (c : Z) : result (Z * ringbuffer_t) :=
  '(res, rb) ← (if ringbuffer_full rb then '(r, rb) ← get_head rb; Ok (u8 r, rb)
                else Ok (-1, rb));
  rb ← add_tail rb c;
  Ok (res, rb).

Definition ringbuffer_get_one (rb : ringbuffer_t) : result (Z * ringbuffer_t) :=
  if negb (ringbuffer_empty rb) then '(r, rb) ← get_head rb; Ok (u8 r, rb)
  else Ok (-1, rb).

(** Returns the count, the output array and the buffer. *)
Definition ringbuffer_get (rb : ringbuffer_t) (out : list Z) (n : Z)
  : result (Z * list Z * ringbuffer_t) :=
  let n := if avail rb <? n then avail rb else n in
  if 0 <? n then
    let bytes_till_end := u32 (size rb - start rb) in
    '(out, start') ←
      (if n <=? bytes_till_end then
         out ← memcpy out 0 (buf rb) (start rb) n;
         Ok (out, if bytes_till_end =? n then 0 else u32 (start rb + n))
       else
         out ← memcpy out 0 (buf rb) (start rb) bytes_till_end;
         let start' := u32 (n - bytes_till_end) in
         out ← memcpy out bytes_till_end (buf rb) 0 start';
         Ok (out, start'));
    Ok (n, out, Ringbuffer (buf rb) (size rb) start' (u32 (avail rb - n)))
  else Ok (n, out, rb).

Definition ringbuffer_remove (rb : ringbuffer_t) (n : Z) : Z * ringbuffer_t :=
  if avail rb <? n then (avail rb, Ringbuffer (buf rb) (size rb) 0 0)
  else
    let start' := u32 (start rb + n) in
    let avail' := u32 (avail rb - n) in
    (n, Ringbuffer (buf rb) (size rb)
          (if size rb <? start' then u32 (start' - size rb) else start') avail').

Definition ringbuffer_peek_one (rb : ringbuffer_t) : result Z :=
  '(r, _) ← ringbuffer_get_one rb; Ok r.

Definition ringbuffer_peek (rb : ringbuffer_t) (out : list Z) (n : Z) : result (Z * list Z) :=
  '(n, out, _) ← ringbuffer_get rb out n; Ok (n, out).

(** ** Representation *)

(** The position of the [i]-th buffered byte. *)
Definition slot (rb : ringbuffer_t) (i : Z) : Z :=
  if start rb + i <? size rb then start rb + i else start rb + i - size rb.

Definition ring_wf (rb : ringbuffer_t) : Prop :=
  0 < size rb < 2 ^ 31 ∧ Z.of_nat (length (buf rb)) = size rb ∧
  0 <= start rb < size rb ∧ 0 <= avail rb <= size rb.

Definition ring_rep (rb : ringbuffer_t) (l : list Z) : Prop :=
  ring_wf rb ∧ avail rb = Z.of_nat (length l) ∧
  ∀ i x, l !! i = Some x → buf rb !! Z.to_nat (slot rb (Z.of_nat i)) = Some x.

Ltac u32_lia := unfold u32; rewrite ?Z.mod_small by lia; try lia.

Lemma slot_bound rb i : ring_wf rb → 0 <= i < size rb → 0 <= slot rb i < size rb.
Proof. intros (Hs & _ & Hst & _) Hi. unfold slot. case_match; lia. Qed.

Lemma slot_inj rb i j :
  ring_wf rb → 0 <= i < size rb → 0 <= j < size rb → slot rb i = slot rb j → i = j.
Proof. intros (Hs & _ & Hst & _) Hi Hj. unfold slot. repeat case_match; lia. Qed.

Lemma add_tail_rep rb l c :
  ring_rep rb l → Z.of_nat (length l) < size rb →
  ∃ rb', add_tail rb c = Ok rb' ∧ ring_rep rb' (l ++ [c]) ∧ size rb' = size rb.
Proof.
  intros (Hwf & Hav & Hl) Hn. pose proof Hwf as (Hs & Hb & Hst & Ha).
  unfold add_tail.
  assert ((if size rb <=? u32 (start rb + avail rb)
           then u32 (u32 (start rb + avail rb) - size rb)
           else u32 (start rb + avail rb)) = slot rb (avail rb)) as ->.
  { unfold slot. unfold u32. rewrite (Z.mod_small (start rb + avail rb)) by lia.
    destruct (Z.leb_spec (size rb) (start rb + avail rb)),
             (Z.ltb_spec (start rb + avail rb) (size rb)); rewrite ?Z.mod_small; lia. }
  pose proof (slot_bound rb (avail rb) Hwf ltac:(lia)).
  rewrite aset_Ok by lia. simpl. eexists. split; [done|]. split; [|done].
  assert (u32 (avail rb + 1) = avail rb + 1) as E by u32_lia.
  split; [|split].
  - unfold ring_wf; simpl. rewrite length_insert, E. lia.
  - simpl. rewrite length_app, E. simpl. lia.
  - intros i x Hx. change (slot _ (Z.of_nat i)) with (slot rb (Z.of_nat i)). simpl.
    apply lookup_snoc_Some in Hx as [[Hi Hx] | [-> <-]].
    + rewrite list_lookup_insert_ne; [by apply Hl|].
      pose proof (slot_bound rb (Z.of_nat i) Hwf ltac:(lia)). intros E'.
      assert (slot rb (avail rb) = slot rb (Z.of_nat i)) as E'' by lia.
      apply slot_inj in E''; lia || done.
    + rewrite <- Hav. apply list_lookup_insert_eq. lia.
Qed.

Lemma get_head_rep rb x l :
  ring_rep rb (x :: l) →
  ∃ rb', get_head rb = Ok (x, rb') ∧ ring_rep rb' l ∧ size rb' = size rb.
Proof.
  intros (Hwf & Hav & Hl). pose proof Hwf as (Hs & Hb & Hst & Ha). simpl in Hav.
  unfold get_head. pose proof (Hl 0%nat x eq_refl) as Hx. unfold slot in Hx at 1.
  rewrite Z.add_0_r in Hx. assert ((start rb <? size rb) = true) as E by lia. rewrite E in Hx.
  rewrite (aget_Some _ _ x) by (done || lia). simpl.
  assert (u32 (avail rb - 1) = Z.of_nat (length l)) as -> by u32_lia.
  destruct (Z.eqb_spec (Z.of_nat (length l)) 0) as [E0|E0].
  - eexists. split; [done|]. split; [|done]. destruct l; [|simpl in E0; lia].
    split; [unfold ring_wf; simpl; lia|]. split; [done|]. by intros i y Hy.
  - eexists. split; [done|]. split; [|done].
    assert (u32 (start rb + 1) = start rb + 1) as -> by u32_lia.
    split; [unfold ring_wf; simpl; case_match; lia|]. split; [done|].
    intros i y Hy. rewrite <- (Hl (S i) y Hy). simpl. do 2 f_equal.
    apply lookup_lt_Some in Hy. unfold slot. simpl.
    destruct (Z.eqb_spec (start rb + 1) (size rb)); simpl in *;
      repeat case_match; lia.
Qed.

Lemma ringbuffer_full_rep rb l : ring_rep rb l → ringbuffer_full rb = (Z.of_nat (length l) =? size rb).
Proof. intros (_ & Hav & _). unfold ringbuffer_full. by rewrite Hav. Qed.

Lemma ringbuffer_add_loop_rep fuel rb l data i :
  ring_rep rb l → 0 <= i <= Z.of_nat (length data) →
  Z.of_nat (length data) - i < Z.of_nat fuel →
  let k := Z.min (Z.of_nat (length data) - i) (size rb - Z.of_nat (length l)) in
  ∃ rb', ringbuffer_add_loop fuel rb data i (Z.of_nat (length data)) = Ok (i + k, rb') ∧
         ring_rep rb' (l ++ take (Z.to_nat k) (drop (Z.to_nat i) data)) ∧ size rb' = size rb.
Proof.
  revert rb l i. induction fuel as [|fuel IH]; intros rb l i Hrep Hi Hf; [lia|].
  pose proof Hrep as ((Hs & _ & _ & Ha) & Hav & _).
  cbn [ringbuffer_add_loop]. destruct (Z.ltb_spec i (Z.of_nat (length data))).
  - rewrite (ringbuffer_full_rep rb l) by done.
    destruct (Z.eqb_spec (Z.of_nat (length l)) (size rb)) as [E|E].
    + exists rb. replace (Z.min _ _) with 0 by lia. rewrite Z.add_0_r, app_nil_r. done.
    + destruct (lookup_lt_is_Some_2 data (Z.to_nat i)) as [c Hc]; [lia|].
      rewrite (aget_Some data i c) by (done || lia). simpl.
      destruct (add_tail_rep rb l c Hrep) as (rb1 & -> & Hrep1 & Hs1); [lia|]. simpl.
      destruct (IH rb1 (l ++ [c]) (i + 1)) as (rb2 & E2 & Hrep2 & Hs2); [done|lia|lia|].
      rewrite Hs1, length_app in E2, Hrep2. simpl in E2, Hrep2.
      set (k := Z.min _ _) in E2, Hrep2.
      replace (Z.min (Z.of_nat (length data) - i) (size rb - Z.of_nat (length l)))
        with (k + 1) by (unfold k; lia).
      exists rb2. rewrite E2. split; [do 2 f_equal; lia|]. split; [|congruence].
      rewrite <- app_assoc in Hrep2. rewrite (drop_S data c (Z.to_nat i)) by done.
      replace (Z.to_nat (k + 1)) with (S (Z.to_nat k)) by (unfold k in *; lia).
      replace (Z.to_nat (i + 1)) with (S (Z.to_nat i)) in Hrep2 by lia. done.
  - exists rb. replace (Z.min _ _) with 0 by lia. rewrite Z.add_0_r, app_nil_r. done.
Qed.

(** The array read from [start] on, wrapping around at its end. *)
Lemma ring_contents rb l :
  ring_rep rb l →
  l = take (length l) (drop (Z.to_nat (start rb)) (buf rb) ++ take (Z.to_nat (start rb)) (buf rb)).
Proof.
  intros (Hwf & Hav & Hl). pose proof Hwf as (Hs & Hb & Hst & Ha).
  apply list_eq. intros i. destruct (l !! i) as [x|] eqn:Hx.
  - pose proof (lookup_lt_Some _ _ _ Hx). rewrite lookup_take_lt by done.
    pose proof (Hl i x Hx) as Hbx. unfold slot in Hbx.
    destruct (Z.ltb_spec (start rb + Z.of_nat i) (size rb)).
    + rewrite lookup_app_l by (rewrite length_drop; lia). rewrite lookup_drop, <- Hbx. f_equal. lia.
    + rewrite lookup_app_r by (rewrite length_drop; lia).
      rewrite length_drop, lookup_take_lt by lia. rewrite <- Hbx. f_equal. lia.
  - symmetry. apply lookup_take_ge. by apply lookup_ge_None.
Qed.

(** Dropping the first [n] bytes by moving the start. *)
Lemma ring_rep_drop rb l n st :
  ring_rep rb l → 0 <= n <= Z.of_nat (length l) →
  st = (if start rb + n <? size rb then start rb + n else start rb + n - size rb) →
  ring_rep (Ringbuffer (buf rb) (size rb) st (u32 (avail rb - n))) (drop (Z.to_nat n) l).
Proof.
  intros (Hwf & Hav & Hl) Hn ->. pose proof Hwf as (Hs & Hb & Hst & Ha).
  assert (u32 (avail rb - n) = avail rb - n) as E by u32_lia. split; [|split].
  - unfold ring_wf; simpl. rewrite E. case_match; lia.
  - simpl. rewrite E, length_drop. lia.
  - intros i x Hx. rewrite lookup_drop in Hx. rewrite <- (Hl _ x Hx). simpl. do 2 f_equal.
    apply lookup_lt_Some in Hx. unfold slot. simpl. repeat case_match; lia.
Qed.

Lemma ringbuffer_get_rep rb l out n :
  ring_rep rb l → 0 <= n →
  let k := Z.min n (Z.of_nat (length l)) in
  k <= Z.of_nat (length out) →
  ∃ rb', ringbuffer_get rb out n =
           Ok (k, take (Z.to_nat k) l ++ drop (Z.to_nat k) out, rb') ∧
         ring_rep rb' (drop (Z.to_nat k) l) ∧ size rb' = size rb.
Proof.
  intros Hrep Hn k Hout. pose proof Hrep as (Hwf & Hav & _).
  pose proof Hwf as (Hs & Hb & Hst & Ha). unfold ringbuffer_get.
  assert ((if avail rb <? n then avail rb else n) = k) as -> by (unfold k; case_match; lia).
  assert (0 <= k <= Z.of_nat (length l)) as Hk by lia. clearbody k.
  destruct (Z.ltb_spec 0 k); [|by exists rb; replace k with 0 by lia].
  assert (u32 (size rb - start rb) = size rb - start rb) as -> by u32_lia.
  pose proof (ring_contents rb l Hrep) as Hc.
  assert (Z.to_nat k <= length l)%nat as Hkl by lia.
  assert (take (Z.to_nat k) l = take (Z.to_nat k)
    (drop (Z.to_nat (start rb)) (buf rb) ++ take (Z.to_nat (start rb)) (buf rb))) as Htk.
  { rewrite Hc at 1. rewrite take_take. f_equal. lia. }
  destruct (Z.leb_spec k (size rb - start rb)).
  - rewrite memcpy_Ok by lia. simpl.
    rewrite take_app_le in Htk by (rewrite length_drop; lia). rewrite Htk.
    eexists. split; [done|]. split; [|done]. apply ring_rep_drop; [done|lia|].
    destruct (Z.eqb_spec (size rb - start rb) k).
    + case_match; lia.
    + rewrite (proj2 (Z.ltb_lt _ _)) by lia. u32_lia.
  - rewrite memcpy_Ok by lia. simpl.
    assert (u32 (k - (size rb - start rb)) = k - (size rb - start rb)) as -> by u32_lia.
    set (t := size rb - start rb) in *.
    rewrite (take_ge (drop (Z.to_nat (start rb)) (buf rb))) by (rewrite length_drop; lia).
    set (D := drop (Z.to_nat (start rb)) (buf rb)) in *.
    assert (length D = Z.to_nat t) as HD by (unfold D, t; rewrite length_drop; lia).
    rewrite memcpy_Ok by (rewrite ?length_app, ?length_drop; lia). simpl.
    exists (Ringbuffer (buf rb) (size rb) (k - t) (u32 (avail rb - k))).
    split; [|split; [apply ring_rep_drop; [done|lia|]|done]].
    2:{ unfold t in *. case_match; lia. }
    do 3 f_equal. rewrite Htk.
    rewrite (take_app_ge D (take (Z.to_nat (start rb)) (buf rb))) by lia.
    rewrite take_take, (take_app_le D), (take_ge D) by lia.
    rewrite (drop_app_ge D) by lia. rewrite drop_drop, <- app_assoc.
    f_equal. f_equal; [change (drop (Z.to_nat 0) (buf rb)) with (buf rb)|]; f_equal; lia.
Qed.

(** ** The buffer as a bounded sequence *)

Inductive ring_op : Type :=
  | AddOne (c : Z) | GetOne | PeekOne | Add (data : list Z) | GetN (n : Z) | RemoveN (n : Z).

(** Bytes are appended; a full buffer drops its oldest byte for [AddOne] and
    stops accepting for [Add]. The value is the C return value and the bytes
    copied out. *)
Definition bounded_exec (cap : Z) (l : list Z) (op : ring_op) : (Z * list Z) * list Z :=
  match op with
  | AddOne c =>
      if Z.of_nat (length l) =? cap then ((u8 (default 0 (head l)), []), tail l ++ [c])
      else ((-1, []), l ++ [c])
  | GetOne => match l with [] => ((-1, []), []) | x :: l => ((u8 x, []), l) end
  | PeekOne => ((match l with [] => -1 | x :: _ => u8 x end, []), l)
  | Add data =>
      let k := Z.min (Z.of_nat (length data)) (cap - Z.of_nat (length l)) in
      ((k, []), l ++ take (Z.to_nat k) data)
  | GetN n =>
      let k := Z.min n (Z.of_nat (length l)) in
      ((k, take (Z.to_nat k) l), drop (Z.to_nat k) l)
  | RemoveN n =>
      let k := Z.min n (Z.of_nat (length l)) in ((k, []), drop (Z.to_nat k) l)
  end.

Definition ring_exec (rb : ringbuffer_t) (op : ring_op) : result ((Z * list Z) * ringbuffer_t) :=
  match op with
  | AddOne c => '(r, rb) ← ringbuffer_add_one rb c; Ok ((r, []), rb)
  | GetOne => '(r, rb) ← ringbuffer_get_one rb; Ok ((r, []), rb)
  | PeekOne => r ← ringbuffer_peek_one rb; Ok ((r, []), rb)
  | Add data => '(r, rb) ← ringbuffer_add rb data (Z.of_nat (length data)); Ok ((r, []), rb)
  | GetN n =>
      '(r, out, rb) ← ringbuffer_get rb (replicate (Z.to_nat n) 0) n;
      Ok ((r, take (Z.to_nat r) out), rb)
  | RemoveN n => let '(r, rb) := ringbuffer_remove rb n in Ok ((r, []), rb)
  end.

(** [ringbuffer_remove] is excluded where it would end exactly at the end of
    the array. *)
Definition ring_allowed (rb : ringbuffer_t) (op : ring_op) : Prop :=
  match op with
  | GetN n => 0 <= n
  | RemoveN n => 0 <= n ∧ (n <= avail rb → start rb + n ≠ size rb)
  | _ => True
  end.

Lemma ringbuffer_remove_rep rb l n :
  ring_rep rb l → 0 <= n → (n <= avail rb → start rb + n ≠ size rb) →
  let k := Z.min n (Z.of_nat (length l)) in
  ∃ rb', ringbuffer_remove rb n = (k, rb') ∧ ring_rep rb' (drop (Z.to_nat k) l) ∧ size rb' = size rb.
Proof.
  intros Hrep Hn Hne. pose proof Hrep as (Hwf & Hav & _). pose proof Hwf as (Hs & Hb & Hst & Ha).
  unfold ringbuffer_remove. destruct (Z.ltb_spec (avail rb) n).
  - eexists. split; [f_equal; lia|]. split; [|done].
    rewrite drop_ge by lia. split; [unfold ring_wf; simpl; lia|]. split; [done|]. by intros i x Hx.
  - replace (Z.min _ _) with n by lia. eexists. split; [done|]. split; [|done].
    assert (u32 (start rb + n) = start rb + n) as -> by u32_lia.
    apply ring_rep_drop; [done|lia|].
    destruct (Z.ltb_spec (size rb) (start rb + n)), (Z.ltb_spec (start rb + n) (size rb));
      try lia. u32_lia.
Qed.

Lemma ring_exec_refines rb l op :
  ring_rep rb l → ring_allowed rb op →
  ∃ rb', ring_exec rb op = Ok (fst (bounded_exec (size rb) l op), rb') ∧
         ring_rep rb' (snd (bounded_exec (size rb) l op)) ∧ size rb' = size rb.
Proof.
  intros Hrep Hal. pose proof Hrep as (Hwf & Hav & _). pose proof Hwf as (Hs & Hb & Hst & Ha).
  destruct op as [c| | |data|n|n]; simpl.
  - unfold ringbuffer_add_one. rewrite (ringbuffer_full_rep rb l) by done.
    destruct (Z.eqb_spec (Z.of_nat (length l)) (size rb)).
    + destruct l as [|x l]; [simpl in *; lia|].
      destruct (get_head_rep rb x l Hrep) as (rb1 & -> & Hrep1 & Hs1). simpl.
      destruct (add_tail_rep rb1 l c Hrep1) as (rb2 & -> & Hrep2 & Hs2); [simpl in *; lia|].
      exists rb2. split; [done|]. split; [done|congruence].
    + simpl. destruct (add_tail_rep rb l c Hrep) as (rb2 & -> & Hrep2 & Hs2); [lia|].
      by exists rb2.
  - unfold ringbuffer_get_one, ringbuffer_empty. rewrite Hav. destruct l as [|x l].
    + by exists rb.
    + destruct (get_head_rep rb x l Hrep) as (rb1 & E & Hrep1 & Hs1). simpl. rewrite E. by exists rb1.
  - unfold ringbuffer_peek_one, ringbuffer_get_one, ringbuffer_empty. rewrite Hav.
    destruct l as [|x l]; [by exists rb|].
    destruct (get_head_rep rb x l Hrep) as (rb1 & E & Hrep1 & Hs1). simpl. rewrite E. by exists rb.
  - unfold ringbuffer_add.
    destruct (ringbuffer_add_loop_rep (S (Z.to_nat (Z.of_nat (length data)))) rb l data 0)
      as (rb' & E & Hrep' & Hs'); [done|lia|lia|].
    rewrite E. simpl. rewrite !Z.sub_0_r in *. rewrite drop_0 in Hrep'. by exists rb'.
  - simpl in Hal.
    destruct (ringbuffer_get_rep rb l (replicate (Z.to_nat n) 0) n) as (rb' & E & Hrep' & Hs');
      [done..|rewrite length_replicate; lia|].
    rewrite E. simpl. exists rb'. split; [|done]. do 3 f_equal.
    rewrite take_app_le by (rewrite length_take; lia). rewrite take_take. f_equal. lia.
  - destruct Hal as [Hn Hne].
    destruct (ringbuffer_remove_rep rb l n) as (rb' & E & Hrep' & Hs'); [done..|].
    rewrite E. by exists rb'.
Qed.

(** A buffer of [cap] bytes implements the bounded sequence. *)
Definition ring_seq (cap : Z) (rb : ringbuffer_t) (l : list Z) : Prop := ring_rep rb l ∧ size rb = cap.

Global Instance ring_implements cap :
  Implements ring_exec (bounded_exec cap) (λ rb _ op, ring_allowed rb op) (ring_seq cap).
Proof.
  intros rb l op [Hrep <-] Hop. destruct (ring_exec_refines rb l op Hrep Hop) as (rb' & E & ? & ?).
  by exists rb'.
Qed.

Lemma ringbuffer_init_rep buffer bufsize :
  0 < bufsize → bufsize < 2 ^ 31 → Z.of_nat (length buffer) = bufsize →
  ring_seq bufsize (ringbuffer_init buffer bufsize) [].
Proof. intros Hs Hm Hb. split; [|done]. split; [unfold ring_wf; simpl; lia|]. split; [done|]. by intros i x Hx. Qed.

(** ** Properties *)

(** a freshly initialised ring buffer implements the bounded byte
    sequence: any program of its operations (in which no [ringbuffer_remove]
    ends exactly at the end of the array) accesses only its array, returns what
    the specification returns (dropping the oldest byte on
    [ringbuffer_add_one] to a full buffer, stopping early in
    [ringbuffer_add]), and leaves the buffer representing the specified
    sequence. *)
Theorem ringbuffer_refines_sequence buffer bufsize ops :
  0 < bufsize → bufsize < 2 ^ 31 → Z.of_nat (length buffer) = bufsize →
  let rb := ringbuffer_init buffer bufsize in
  run_allowed ring_exec (bounded_exec bufsize) (λ rb _ op, ring_allowed rb op) rb [] ops →
  ∃ rb', run_exec ring_exec rb ops = Ok (fst (run_spec (bounded_exec bufsize) [] ops), rb') ∧
         ring_seq bufsize rb' (snd (run_spec (bounded_exec bufsize) [] ops)).
Proof.
  intros Hs Hm Hb rb Hops. apply (implements_run (H := ring_implements bufsize)); [|done].
  by apply ringbuffer_init_rep.
Qed.

Lemma ringbuffer_refines_sequence_witness :
  ∃ rb', run_exec ring_exec (ringbuffer_init [7; 8; 9] 3)
           [AddOne 1; Add [2; 3; 4]; AddOne 5; RemoveN 1; Add [6]; GetN 5] =
           Ok ([(-1, []); (2, []); (1, []); (1, []); (1, []); (3, [3; 5; 6])], rb') ∧
         ring_seq 3 rb' [].
Proof.
  apply (ringbuffer_refines_sequence [7; 8; 9] 3
    [AddOne 1; Add [2; 3; 4]; AddOne 5; RemoveN 1; Add [6]; GetN 5]); [done..|].
  repeat (split; [simpl; lia|intros ? ? [= <- <-]]). done.
Defined.

(** A [ringbuffer_remove] that ends exactly at the end of the array
    leaves [start = size]; the next read of a buffered byte is then outside the
    array. *)
Theorem ringbuffer_remove_overruns rb l n :
  ring_rep rb l → 0 <= n < Z.of_nat (length l) → start rb + n = size rb →
  ringbuffer_get_one (snd (ringbuffer_remove rb n)) = Fault OutOfBounds.
Proof.
  intros (Hwf & Hav & _) Hn Hend. pose proof Hwf as (Hs & Hb & Hst & Ha).
  unfold ringbuffer_remove. destruct (Z.ltb_spec (avail rb) n); [lia|]. simpl.
  assert (u32 (start rb + n) = size rb) as -> by u32_lia. rewrite Z.ltb_irrefl.
  unfold ringbuffer_get_one, ringbuffer_empty, get_head. simpl.
  assert (u32 (avail rb - n) = avail rb - n) as -> by u32_lia.
  destruct (Z.eqb_spec (avail rb - n) 0); [lia|]. simpl. unfold aget.
  assert ((0 <=? size rb) = true) as -> by lia. by rewrite lookup_ge_None_2 by lia.
Qed.

Lemma ringbuffer_remove_overruns_witness :
  ringbuffer_get_one (snd (ringbuffer_remove (Ringbuffer [7; 8; 9] 3 2 2) 1)) = Fault OutOfBounds.
Proof.
  apply (ringbuffer_remove_overruns (Ringbuffer [7; 8; 9] 3 2 2) [9; 7] 1); [|simpl; lia..].
  split; [unfold ring_wf; simpl; lia|]. split; [done|].
  intros [|[|i]] x Hx; [injection Hx as <-; reflexivity..|done].
Defined.
