(* ===== verification/Kernel.v ===== *)
(** * The kernel state, and core/sched.c

    Memory is split by what the kernel keeps in it: the [next] members of all
    list nodes ([heap]), the thread control blocks ([tcbs]), message buffers
    ([msgs]), mailboxes and recursive mutexes. A thread control block is named
    by its address. The code is compiled with the modules core_msg,
    core_thread_flags and core_mbox, with assertions, and without [DEVELHELP],
    [MODULE_SCHEDSTATISTICS] and [MODULE_MPU_STACK_GUARD].

    A kernel function that gives up the processor calls [thread_yield_higher];
    the model performs the switch there, and what the function returns after
    that point is the value its caller sees when it runs again. *)

From S2P Require Import Prelude LinkedList Cib Bitarithm.
Open Scope Z_scope.

(** ** Constants *)

Definition STATUS_NOT_FOUND : Z := -1.
Definition STATUS_STOPPED : Z := 0.
Definition STATUS_SLEEPING : Z := 1.
Definition STATUS_MUTEX_BLOCKED : Z := 2.
Definition STATUS_RECEIVE_BLOCKED : Z := 3.
Definition STATUS_SEND_BLOCKED : Z := 4.
Definition STATUS_REPLY_BLOCKED : Z := 5.
Definition STATUS_FLAG_BLOCKED_ANY : Z := 6.
Definition STATUS_FLAG_BLOCKED_ALL : Z := 7.
Definition STATUS_MBOX_BLOCKED : Z := 8.
Definition STATUS_RUNNING : Z := 9.
Definition STATUS_PENDING : Z := 10.
Definition STATUS_ON_RUNQUEUE : Z := STATUS_RUNNING.

Definition SCHED_PRIO_LEVELS : Z := 16.
Definition THREAD_PRIORITY_MIN : Z := SCHED_PRIO_LEVELS - 1.
Definition THREAD_PRIORITY_IDLE : Z := THREAD_PRIORITY_MIN.
Definition THREAD_PRIORITY_MAIN : Z := THREAD_PRIORITY_MIN - SCHED_PRIO_LEVELS / 2.

Definition MAXTHREADS : Z := 32.
Definition KERNEL_PID_UNDEF : Z := 0.
Definition KERNEL_PID_FIRST : Z := KERNEL_PID_UNDEF + 1.
Definition KERNEL_PID_LAST : Z := KERNEL_PID_FIRST + MAXTHREADS - 1.
Definition KERNEL_PID_ISR : Z := KERNEL_PID_LAST + 1.

Definition pid_is_valid (pid : Z) : bool :=
  ((KERNEL_PID_FIRST <=? pid) && (pid <=? KERNEL_PID_LAST))%bool.

(** ** Pointers *)

(** Every list node of the kernel: the [rq_entry] of a thread, and the list
    heads. [MUTEX_LOCKED] is the pointer [(void * )-1]. *)
Inductive node : Type :=
  | RQ_ENTRY (t : Z)
  | RUNQUEUE (p : Z)
  | MSG_WAITERS (t : Z)
  | MUTEX_QUEUE (m : Z)
  | MBOX_READERS (m : Z)
  | MBOX_WRITERS (m : Z)
  | MUTEX_LOCKED.

Global Instance node_eq_dec : EqDecision node.
Proof. solve_decision. Defined.

Definition node_code (n : node) : Z * Z :=
  match n with
  | RQ_ENTRY t => (0, t) | RUNQUEUE p => (1, p) | MSG_WAITERS t => (2, t)
  | MUTEX_QUEUE m => (3, m) | MBOX_READERS m => (4, m) | MBOX_WRITERS m => (5, m)
  | MUTEX_LOCKED => (6, 0)
  end.

Definition node_decode (c : Z * Z) : node :=
  let '(k, v) := c in
  if k =? 0 then RQ_ENTRY v else if k =? 1 then RUNQUEUE v
  else if k =? 2 then MSG_WAITERS v else if k =? 3 then MUTEX_QUEUE v
  else if k =? 4 then MBOX_READERS v else if k =? 5 then MBOX_WRITERS v
  else MUTEX_LOCKED.

Global Instance node_countable : Countable node.
Proof. apply (inj_countable' node_code node_decode). by intros []. Defined.

(** A message buffer: an object and an index into it. *)
Definition mptr : Type := Z * Z.

(** [thread_t::wait_data]: [NULL], a message buffer, or a flag mask. *)
Inductive wdata : Type :=
  | WNull
  | WMsg (m : mptr)
  | WMask (mask : Z).

(** ** Data *)

Record msg_t : Type := Msg { sender_pid : Z; type_ : Z; content : Z }.

Record thread_t : Type := Thread {
  sp : Z;
  status : Z;
  priority : Z;
  pid : Z;
  flags : Z;
  wait_data : wdata;
  msg_queue : cib_t;
  msg_array : option Z
}.

Definition set_sp (v : Z) (r : thread_t) : thread_t :=
  Thread v (status r) (priority r) (pid r) (flags r) (wait_data r) (msg_queue r) (msg_array r).
Definition set_status (v : Z) (r : thread_t) : thread_t :=
  Thread (sp r) v (priority r) (pid r) (flags r) (wait_data r) (msg_queue r) (msg_array r).
Definition set_priority (v : Z) (r : thread_t) : thread_t :=
  Thread (sp r) (status r) v (pid r) (flags r) (wait_data r) (msg_queue r) (msg_array r).
Definition set_pid (v : Z) (r : thread_t) : thread_t :=
  Thread (sp r) (status r) (priority r) v (flags r) (wait_data r) (msg_queue r) (msg_array r).
Definition set_flags (v : Z) (r : thread_t) : thread_t :=
  Thread (sp r) (status r) (priority r) (pid r) v (wait_data r) (msg_queue r) (msg_array r).
Definition set_wait_data (v : wdata) (r : thread_t) : thread_t :=
  Thread (sp r) (status r) (priority r) (pid r) (flags r) v (msg_queue r) (msg_array r).
Definition set_msg_queue (v : cib_t) (r : thread_t) : thread_t :=
  Thread (sp r) (status r) (priority r) (pid r) (flags r) (wait_data r) v (msg_array r).
Definition set_msg_array (v : option Z) (r : thread_t) : thread_t :=
  Thread (sp r) (status r) (priority r) (pid r) (flags r) (wait_data r) (msg_queue r) v.

(** The lists of a mailbox and the mutex of a recursive mutex are named by
    their address and live in [heap]. *)
Record mbox_t : Type := Mbox {
  mb_cib : cib_t;
  mb_array : Z
}.

Definition set_mb_cib (v : cib_t) (r : mbox_t) : mbox_t :=
  Mbox v (mb_array r).
Definition set_mb_array (v : Z) (r : mbox_t) : mbox_t :=
  Mbox (mb_cib r) v.

Record rmutex_t : Type := Rmutex {
  refcount : Z;
  owner : Z
}.

Definition set_refcount (v : Z) (r : rmutex_t) : rmutex_t :=
  Rmutex v (owner r).
Definition set_owner (v : Z) (r : rmutex_t) : rmutex_t :=
  Rmutex (refcount r) v.

(** [sched_threads] is absent where the array holds [NULL]. *)
Record kstate : Type := Kstate {
  sched_num_threads : Z;
  sched_context_switch_request : Z;
  sched_threads : gmap Z Z;
  sched_active_thread : option Z;
  sched_active_pid : Z;
  runqueue_bitcache : Z;
  heap : gmap node node;
  tcbs : gmap Z thread_t;
  msgs : gmap mptr msg_t;
  mboxes : gmap Z mbox_t;
  rmutexes : gmap Z rmutex_t;
  irq_enabled : bool;
  in_isr : bool
}.

Definition set_sched_num_threads (v : Z) (r : kstate) : kstate :=
  Kstate v (sched_context_switch_request r) (sched_threads r) (sched_active_thread r) (sched_active_pid r) (runqueue_bitcache r) (heap r) (tcbs r) (msgs r) (mboxes r) (rmutexes r) (irq_enabled r) (in_isr r).
Definition set_sched_context_switch_request (v : Z) (r : kstate) : kstate :=
  Kstate (sched_num_threads r) v (sched_threads r) (sched_active_thread r) (sched_active_pid r) (runqueue_bitcache r) (heap r) (tcbs r) (msgs r) (mboxes r) (rmutexes r) (irq_enabled r) (in_isr r).
Definition set_sched_threads (v : gmap Z Z) (r : kstate) : kstate :=
  Kstate (sched_num_threads r) (sched_context_switch_request r) v (sched_active_thread r) (sched_active_pid r) (runqueue_bitcache r) (heap r) (tcbs r) (msgs r) (mboxes r) (rmutexes r) (irq_enabled r) (in_isr r).
Definition set_sched_active_thread (v : option Z) (r : kstate) : kstate :=
  Kstate (sched_num_threads r) (sched_context_switch_request r) (sched_threads r) v (sched_active_pid r) (runqueue_bitcache r) (heap r) (tcbs r) (msgs r) (mboxes r) (rmutexes r) (irq_enabled r) (in_isr r).
Definition set_sched_active_pid (v : Z) (r : kstate) : kstate :=
  Kstate (sched_num_threads r) (sched_context_switch_request r) (sched_threads r) (sched_active_thread r) v (runqueue_bitcache r) (heap r) (tcbs r) (msgs r) (mboxes r) (rmutexes r) (irq_enabled r) (in_isr r).
Definition set_runqueue_bitcache (v : Z) (r : kstate) : kstate :=
  Kstate (sched_num_threads r) (sched_context_switch_request r) (sched_threads r) (sched_active_thread r) (sched_active_pid r) v (heap r) (tcbs r) (msgs r) (mboxes r) (rmutexes r) (irq_enabled r) (in_isr r).
Definition set_heap (v : gmap node node) (r : kstate) : kstate :=
  Kstate (sched_num_threads r) (sched_context_switch_request r) (sched_threads r) (sched_active_thread r) (sched_active_pid r) (runqueue_bitcache r) v (tcbs r) (msgs r) (mboxes r) (rmutexes r) (irq_enabled r) (in_isr r).
Definition set_tcbs (v : gmap Z thread_t) (r : kstate) : kstate :=
  Kstate (sched_num_threads r) (sched_context_switch_request r) (sched_threads r) (sched_active_thread r) (sched_active_pid r) (runqueue_bitcache r) (heap r) v (msgs r) (mboxes r) (rmutexes r) (irq_enabled r) (in_isr r).
Definition set_msgs (v : gmap mptr msg_t) (r : kstate) : kstate :=
  Kstate (sched_num_threads r) (sched_context_switch_request r) (sched_threads r) (sched_active_thread r) (sched_active_pid r) (runqueue_bitcache r) (heap r) (tcbs r) v (mboxes r) (rmutexes r) (irq_enabled r) (in_isr r).
Definition set_mboxes (v : gmap Z mbox_t) (r : kstate) : kstate :=
  Kstate (sched_num_threads r) (sched_context_switch_request r) (sched_threads r) (sched_active_thread r) (sched_active_pid r) (runqueue_bitcache r) (heap r) (tcbs r) (msgs r) v (rmutexes r) (irq_enabled r) (in_isr r).
Definition set_rmutexes (v : gmap Z rmutex_t) (r : kstate) : kstate :=
  Kstate (sched_num_threads r) (sched_context_switch_request r) (sched_threads r) (sched_active_thread r) (sched_active_pid r) (runqueue_bitcache r) (heap r) (tcbs r) (msgs r) (mboxes r) v (irq_enabled r) (in_isr r).
Definition set_irq_enabled (v : bool) (r : kstate) : kstate :=
  Kstate (sched_num_threads r) (sched_context_switch_request r) (sched_threads r) (sched_active_thread r) (sched_active_pid r) (runqueue_bitcache r) (heap r) (tcbs r) (msgs r) (mboxes r) (rmutexes r) v (in_isr r).
Definition set_in_isr (v : bool) (r : kstate) : kstate :=
  Kstate (sched_num_threads r) (sched_context_switch_request r) (sched_threads r) (sched_active_thread r) (sched_active_pid r) (runqueue_bitcache r) (heap r) (tcbs r) (msgs r) (mboxes r) (rmutexes r) (irq_enabled r) v.

(** ** State and faults *)

Definition M (A : Type) : Type := kstate → result (A * kstate).

Global Instance M_ret : MRet M := fun A a st => Ok (a, st).
Global Instance M_bind : MBind M := fun A B f m st =>
  match m st with Ok (a, st) => f a st | Fault e => Fault e end.

Definition fault_ {A} (e : fault) : M A := λ st, Fault e.
Definition gets {A} (f : kstate → A) : M A := λ st, Ok (f st, st).
Definition modify (f : kstate → kstate) : M unit := λ st, Ok (tt, f st).
Definition lift {A} (r : result A) : M A :=
  λ st, match r with Ok a => Ok (a, st) | Fault e => Fault e end.
Definition when (b : bool) (m : M unit) : M unit := if b then m else mret tt.
Definition massert (b : bool) : M unit := lift (assert_ b).

Definition get_thread (t : Z) : M thread_t :=
  λ st, match tcbs st !! t with Some T => Ok (T, st) | None => Fault BadPointer end.

Definition modify_thread (t : Z) (f : thread_t → thread_t) : M unit :=
  λ st, match tcbs st !! t with
        | Some T => Ok (tt, set_tcbs (<[t := f T]> (tcbs st)) st)
        | None => Fault BadPointer
        end.

(** Dereferencing a thread pointer that may be [NULL]. *)
Definition nonnull {A} (p : option A) : M A :=
  match p with Some t => mret t | None => fault_ NullDeref end.

(** [container_of(n, thread_t, rq_entry)] *)
Definition container_of (n : node) : M Z :=
  match n with RQ_ENTRY t => mret t | _ => fault_ BadPointer end.

(** [sched_threads[pid]] *)
Definition sched_threads_at (pid : Z) : M (option Z) :=
  λ st, if ((0 <=? pid) && (pid <=? KERNEL_PID_LAST))%bool
        then Ok (sched_threads st !! pid, st) else Fault OutOfBounds.

(** [&sched_runqueues[p]] *)
Definition runqueue_at (p : Z) : M node :=
  if ((0 <=? p) && (p <? SCHED_PRIO_LEVELS))%bool then mret (RUNQUEUE p)
  else fault_ OutOfBounds.

Definition read_msg (p : mptr) : M msg_t :=
  λ st, match msgs st !! p with Some m => Ok (m, st) | None => Fault BadPointer end.

Definition write_msg (p : mptr) (m : msg_t) : M unit :=
  λ st, match msgs st !! p with
        | Some _ => Ok (tt, set_msgs (<[p := m]> (msgs st)) st)
        | None => Fault BadPointer
        end.

(** ** Interrupts *)

Definition irq_disable : M bool :=
  e ← gets irq_enabled; _ ← modify (set_irq_enabled false); mret e.
Definition irq_restore (state : bool) : M unit := modify (set_irq_enabled state).
Definition irq_is_in : M bool := gets in_isr.

(** The result of a call that may give up the processor in its middle: it has
    returned, or the rest of its body runs when the thread is scheduled again. *)
Inductive outcome (A : Type) : Type :=
  | Return (a : A)
  | Wait.
Arguments Return {A} a.
Arguments Wait {A}.

(** ** sched.c *)

Definition sched_run : M Z :=
  _ ← modify (set_sched_context_switch_request 0);
  active_thread ← gets sched_active_thread;
  bitcache ← gets runqueue_bitcache;
  nextrq ← lift (bitarithm_lsb bitcache);
  rq ← runqueue_at nextrq;
  h ← gets heap;
  n ← lift (next_of h (h !! rq));
  n ← nonnull n;
  next_thread ← container_of n;
  if decide (active_thread = Some next_thread) then mret 0
  else
    _ ← match active_thread with
        | Some a =>
            T ← get_thread a;
            when (status T =? STATUS_RUNNING) (modify_thread a (set_status STATUS_PENDING))
        | None => mret tt
        end;
    _ ← modify_thread next_thread (set_status STATUS_RUNNING);
    T ← get_thread next_thread;
    _ ← modify (set_sched_active_pid (pid T));
    _ ← modify (set_sched_active_thread (Some next_thread));
    mret 1.

Definition sched_set_status (process : Z) (new_status : Z) : M unit :=
  T ← get_thread process;
  _ ← (if STATUS_ON_RUNQUEUE <=? new_status then
         if negb (STATUS_ON_RUNQUEUE <=? status T) then
           rq ← runqueue_at (priority T);
           _ ← modify (λ st, set_heap (clist_rpush (heap st) rq (RQ_ENTRY process)) st);
           modify (λ st, set_runqueue_bitcache
                           (Z.lor (runqueue_bitcache st) (Z.shiftl 1 (priority T))) st)
         else mret tt
       else
         if STATUS_ON_RUNQUEUE <=? status T then
           rq ← runqueue_at (priority T);
           h ← gets heap;
           r ← lift (clist_lpop h rq);
           _ ← modify (set_heap r.2);
           match r.2 !! rq with
           | None =>
               modify (λ st, set_runqueue_bitcache
                               (Z.land (runqueue_bitcache st)
                                       (u32 (Z.lnot (Z.shiftl 1 (priority T))))) st)
           | Some _ => mret tt
           end
         else mret tt);
  modify_thread process (set_status (u8 new_status)).

(** cpu/native/native_cpu.c: outside interrupt context the switch happens at
    once (the scheduler runs on the interrupt stack, [isr_thread_yield]), and the
    thread that is switched to runs with interrupts enabled. *)
Definition thread_yield_higher : M unit :=
  isr ← irq_is_in;
  if (isr : bool) then modify (set_sched_context_switch_request 1)
  else
    _ ← sched_run;
    modify (set_irq_enabled true).

Definition sched_switch (other_prio : Z) : M unit :=
  a ← gets sched_active_thread;
  active_thread ← nonnull a;
  T ← get_thread active_thread;
  let current_prio := priority T in
  let on_runqueue := STATUS_ON_RUNQUEUE <=? status T in
  when (negb on_runqueue || (other_prio <? current_prio))%bool
    (isr ← irq_is_in;
     if (isr : bool) then modify (set_sched_context_switch_request 1) else thread_yield_higher).

(** cpu/native/native_cpu.c: [isr_cpu_switch_context_exit]. *)
Definition cpu_switch_context_exit : M unit :=
  req ← gets sched_context_switch_request;
  a ← gets sched_active_thread;
  _ ← (if ((req =? 1) || bool_decide (a = None))%bool then _ ← sched_run; mret tt else mret tt);
  modify (set_irq_enabled true).

Definition sched_task_exit : M unit :=
  _ ← irq_disable;
  pid ← gets sched_active_pid;
  _ ← sched_threads_at pid;
  _ ← modify (λ st, set_sched_threads (delete pid (sched_threads st)) st);
  _ ← modify (λ st, set_sched_num_threads (sched_num_threads st - 1) st);
  a ← gets sched_active_thread;
  active ← nonnull a;
  _ ← sched_set_status active STATUS_STOPPED;
  _ ← modify (set_sched_active_thread None);
  cpu_switch_context_exit.
