(* ===== verification/KernelInv.v ===== *)
(** * The kernel invariant, and the correctness of core/sched.c

    [Q] assigns to every list head of the kernel the sequence of threads that
    is queued there. [kinv Q st] says that memory represents these sequences,
    that a thread is in at most one of them, and that the status words, the
    ready bitmap and the active thread agree with them. Every kernel operation
    is specified by the sequences it leaves behind. *)

From S2P Require Import Prelude LinkedList Cib Bitarithm Kernel.
Open Scope Z_scope.

(** ** The invariant *)


Implicit Types (Q : node → list Z) (st : kstate) (T : thread_t).

Definition mutex_rep (h : gmap node node) (q : node) (l : list Z) : Prop :=
  match l with
  | [] => h !! q = None ∨ h !! q = Some MUTEX_LOCKED
  | _ => is_list h q (RQ_ENTRY <$> l)
  end.

Definition queue_rep (h : gmap node node) (q : node) (l : list Z) : Prop :=
  match q with
  | RUNQUEUE p => if decide (0 <= p < 16) then is_clist h q (RQ_ENTRY <$> l) else l = []
  | MUTEX_QUEUE _ => mutex_rep h q l
  | MSG_WAITERS _ | MBOX_READERS _ | MBOX_WRITERS _ => is_list h q (RQ_ENTRY <$> l)
  | RQ_ENTRY _ | MUTEX_LOCKED => l = []
  end.

(** What being queued at [q] says about a thread. *)
Definition queue_status (q : node) T : Prop :=
  match q with
  | RUNQUEUE p => priority T = p ∧ STATUS_ON_RUNQUEUE <= status T
  | MUTEX_QUEUE _ => status T = STATUS_MUTEX_BLOCKED
  | MSG_WAITERS _ => status T = STATUS_SEND_BLOCKED ∨ status T = STATUS_REPLY_BLOCKED
  | MBOX_READERS _ | MBOX_WRITERS _ => status T = STATUS_MBOX_BLOCKED
  | RQ_ENTRY _ | MUTEX_LOCKED => False
  end.

(** The lists ordered by priority. *)
Definition wait_queue (q : node) : bool :=
  match q with
  | MSG_WAITERS _ | MUTEX_QUEUE _ | MBOX_READERS _ | MBOX_WRITERS _ => true
  | _ => false
  end.

(** [T] is the control block of the live thread [t]. *)
Definition thr st (t : Z) T : Prop :=
  tcbs st !! t = Some T ∧ sched_threads st !! pid T = Some t.

Definition thread_ok T : Prop := 0 <= priority T < SCHED_PRIO_LEVELS ∧ 0 <= status T <= STATUS_PENDING.

Definition prio_of st (t : Z) : Z :=
  match tcbs st !! t with Some T => priority T | None => 0 end.

Record kinv Q st : Prop := Kinv {
  k_rep : ∀ q, queue_rep (heap st) q (Q q);
  k_disj : ∀ q1 q2 t, t ∈ Q q1 → t ∈ Q q2 → q1 = q2;
  k_threads : ∀ p t, sched_threads st !! p = Some t →
    KERNEL_PID_FIRST <= p <= KERNEL_PID_LAST ∧
    ∃ T, tcbs st !! t = Some T ∧ pid T = p ∧ thread_ok T;
  k_member : ∀ q t, t ∈ Q q → ∃ T, thr st t T ∧ queue_status q T;
  k_ready : ∀ t T, thr st t T → STATUS_ON_RUNQUEUE <= status T → t ∈ Q (RUNQUEUE (priority T));
  k_bits : 0 <= runqueue_bitcache st < 2 ^ 16 ∧
    ∀ p, 0 <= p < 16 → Z.testbit (runqueue_bitcache st) p = bool_decide (Q (RUNQUEUE p) ≠ []);
  k_sorted : ∀ q, wait_queue q = true → sorted_by (prio_of st) (Q q);
  k_num : sched_num_threads st = Z.of_nat (size (sched_threads st));
  k_active : ∀ t, sched_active_thread st = Some t →
    ∃ T, thr st t T ∧ sched_active_pid st = pid T
}.

(** ** Symbolic execution *)

Lemma bind_gets {A B} (f : kstate → A) (k : A → M B) st : (gets f ≫= k) st = k (f st) st.
Proof. done. Qed.
Lemma bind_modify {B} f (k : unit → M B) st : (modify f ≫= k) st = k tt (f st).
Proof. done. Qed.
Lemma bind_ret {A B} (a : A) (k : A → M B) st : (mret a ≫= k) st = k a st.
Proof. done. Qed.
Lemma bind_lift {A B} (a : A) (k : A → M B) st : (lift (Ok a) ≫= k) st = k a st.
Proof. done. Qed.
Lemma bind_nonnull {A B} (a : A) (k : A → M B) st : (nonnull (Some a) ≫= k) st = k a st.
Proof. done. Qed.
Lemma bind_container {B} t (k : Z → M B) st : (container_of (RQ_ENTRY t) ≫= k) st = k t st.
Proof. done. Qed.
Lemma bind_irq_disable {B} (k : bool → M B) st :
  (irq_disable ≫= k) st = k (irq_enabled st) (set_irq_enabled false st).
Proof. done. Qed.
Lemma bind_irq_restore {B} b (k : unit → M B) st :
  (irq_restore b ≫= k) st = k tt (set_irq_enabled b st).
Proof. done. Qed.
Lemma bind_irq_is_in {B} (k : bool → M B) st : (irq_is_in ≫= k) st = k (in_isr st) st.
Proof. done. Qed.
Lemma bind_massert {B} (k : unit → M B) st : (massert true ≫= k) st = k tt st.
Proof. done. Qed.
Lemma bind_when_true {B} m (k : unit → M B) st : (when true m ≫= k) st = (m ≫= k) st.
Proof. done. Qed.
Lemma bind_when_false {B} m (k : unit → M B) st : (when false m ≫= k) st = k tt st.
Proof. done. Qed.
Lemma bind_assoc_st {A B C} (m : M A) (f : A → M B) (g : B → M C) st :
  ((m ≫= f) ≫= g) st = (m ≫= λ x, f x ≫= g) st.
Proof. unfold mbind, M_bind. by destruct (m st) as [[a st']|]. Qed.

Create HintDb krun.
Global Hint Rewrite @bind_gets @bind_modify @bind_ret @bind_lift @bind_nonnull @bind_container
  @bind_irq_disable @bind_irq_restore @bind_irq_is_in @bind_massert @bind_when_true
  @bind_when_false @bind_assoc_st : krun.

(** Projections of updated states and records. *)
Ltac kproj :=
  cbn [negb fst snd orb andb
       set_sched_num_threads set_sched_context_switch_request set_sched_threads
       set_sched_active_thread set_sched_active_pid set_runqueue_bitcache set_heap
       set_tcbs set_msgs set_mboxes set_rmutexes set_irq_enabled set_in_isr
       sched_num_threads sched_context_switch_request sched_threads
       sched_active_thread sched_active_pid runqueue_bitcache heap
       tcbs msgs mboxes rmutexes irq_enabled in_isr
       set_sp set_status set_priority set_pid set_flags set_wait_data set_msg_queue
       set_msg_array sp status priority pid flags wait_data msg_queue msg_array].

(** Arithmetic on the kernel's constants. *)
Ltac kconst :=
  change THREAD_PRIORITY_MAIN with 7 in *; change THREAD_PRIORITY_IDLE with 15 in *;
  unfold KERNEL_PID_ISR, KERNEL_PID_LAST, KERNEL_PID_FIRST, KERNEL_PID_UNDEF, MAXTHREADS,
    THREAD_PRIORITY_MIN, SCHED_PRIO_LEVELS,
    STATUS_ON_RUNQUEUE, STATUS_NOT_FOUND, STATUS_STOPPED, STATUS_SLEEPING, STATUS_MUTEX_BLOCKED,
    STATUS_RECEIVE_BLOCKED, STATUS_SEND_BLOCKED, STATUS_REPLY_BLOCKED, STATUS_FLAG_BLOCKED_ANY,
    STATUS_FLAG_BLOCKED_ALL, STATUS_MBOX_BLOCKED, STATUS_RUNNING, STATUS_PENDING in *.
Ltac klia := kconst; simpl in *; lia.

(** Runs the state monad on the current state. *)
Ltac ksimpl := repeat (progress (autorewrite with krun; kproj)).

Lemma bind_Ok {A B} (m : M A) (f : A → M B) st a st' :
  m st = Ok (a, st') → (m ≫= f) st = f a st'.
Proof. intros E. unfold mbind, M_bind. by rewrite E. Qed.

(** Steps over a bound call whose result is known. *)
Tactic Notation "kstep" uconstr(E) := erewrite bind_Ok by (by eapply E); cbv beta iota zeta.

Lemma bind_inv {A B} (m : M A) (f : A → M B) st b st' :
  (m ≫= f) st = Ok (b, st') → ∃ a st1, m st = Ok (a, st1) ∧ f a st1 = Ok (b, st').
Proof. unfold mbind, M_bind. destruct (m st) as [[a st1]|]; [eauto|done]. Qed.

Lemma get_thread_Ok st t T : tcbs st !! t = Some T → get_thread t st = Ok (T, st).
Proof. intros E. unfold get_thread. by rewrite E. Qed.
Tactic Notation "kget" uconstr(H) := erewrite bind_Ok by (apply get_thread_Ok, H); cbv beta iota zeta.

Lemma modify_thread_Ok st t T f :
  tcbs st !! t = Some T → modify_thread t f st = Ok (tt, set_tcbs (<[t := f T]> (tcbs st)) st).
Proof. intros E. unfold modify_thread. by rewrite E. Qed.

Lemma runqueue_at_Ok st p : 0 <= p < 16 → runqueue_at p st = Ok (RUNQUEUE p, st).
Proof.
  intros Hp. unfold runqueue_at, SCHED_PRIO_LEVELS.
  by assert (((0 <=? p) && (p <? 16))%bool = true) as -> by lia.
Qed.

Lemma sched_threads_at_Ok st p :
  0 <= p <= KERNEL_PID_LAST → sched_threads_at p st = Ok (sched_threads st !! p, st).
Proof.
  intros Hp. unfold sched_threads_at.
  by assert (((0 <=? p) && (p <=? KERNEL_PID_LAST))%bool = true) as -> by lia.
Qed.

(** ** Queues in memory *)

Global Instance RQ_ENTRY_inj : Inj (=) (=) RQ_ENTRY.
Proof. by intros ?? [= ->]. Qed.

Lemma elem_of_RQ t (l : list Z) : RQ_ENTRY t ∈ RQ_ENTRY <$> l ↔ t ∈ l.
Proof. rewrite list_elem_of_fmap. naive_solver. Qed.

Lemma queue_rep_frame h h' q l :
  queue_rep h q l →
  match q with RQ_ENTRY _ | MUTEX_LOCKED => True | _ => h' !! q = h !! q end →
  (∀ t, t ∈ l → h' !! RQ_ENTRY t = h !! RQ_ENTRY t) →
  queue_rep h' q l.
Proof.
  intros Hq Hh Hf.
  assert (∀ l', (∀ t, t ∈ l' → t ∈ l) → h' !! q = h !! q →
    ∀ y, y ∈ q :: (RQ_ENTRY <$> l') → h' !! y = h !! y) as Hy.
  { intros l' Hl Hqq y [->|(t & -> & Ht)%list_elem_of_fmap]%elem_of_cons; auto. }
  unfold queue_rep in *.
  destruct q; try done; try (by eapply is_list_frame; [apply Hy|]).
  - case_decide; [|done]. by eapply is_clist_frame; [apply Hy|].
  - unfold mutex_rep in *. destruct l; [by rewrite Hh|].
    by eapply is_list_frame; [apply Hy|].
Qed.

Lemma queue_rep_NoDup h q l : queue_rep h q l → NoDup l.
Proof.
  assert (∀ l', NoDup (q :: (RQ_ENTRY <$> l')) → NoDup l') as Hnd.
  { intros l' [_ Hnd]%NoDup_cons. by apply NoDup_fmap_1 in Hnd. }
  unfold queue_rep, mutex_rep. destruct q; intros Hq; subst; try apply NoDup_nil_2.
  - case_decide; subst; [|apply NoDup_nil_2]. by destruct Hq as [? _]; apply Hnd.
  - by destruct Hq as [? _]; apply Hnd.
  - destruct l; [apply NoDup_nil_2|]. by destruct Hq as [? _]; apply Hnd.
  - by destruct Hq as [? _]; apply Hnd.
  - by destruct Hq as [? _]; apply Hnd.
Qed.

(** Changing the list at [q] from [Q q] to [l'], where memory changed only at
    [q] and at the entries of threads of [Q q] and [l'], none of them queued
    elsewhere. *)
Lemma queues_update Q h h' q l' :
  (∀ q, queue_rep h q (Q q)) →
  (∀ q1 q2 t, t ∈ Q q1 → t ∈ Q q2 → q1 = q2) →
  queue_rep h' q l' →
  (∀ y, y ≠ q → y ∉ RQ_ENTRY <$> (Q q ++ l') → h' !! y = h !! y) →
  (∀ t q', t ∈ l' → t ∈ Q q' → q' = q) →
  match q with RQ_ENTRY _ => False | _ => True end →
  (∀ q', queue_rep h' q' (<[q := l']> Q q')) ∧
  (∀ q1 q2 t, t ∈ <[q := l']> Q q1 → t ∈ <[q := l']> Q q2 → q1 = q2).
Proof.
  intros Hrep Hdis Hq Hf Hl' Hhd. split.
  - intros q'. destruct (decide (q = q')) as [<-|Hne].
    { by rewrite fn_lookup_insert. }
    rewrite fn_lookup_insert_ne by done. apply (queue_rep_frame h); [done| |].
    + destruct q'; try done; apply Hf; try done; by intros (? & ? & _)%list_elem_of_fmap.
    + intros t Ht. apply Hf.
      * by intros <-.
      * rewrite elem_of_RQ. intros [Hin|Hin]%elem_of_app.
        -- apply Hne. by eapply Hdis.
        -- apply Hne. symmetry. by eapply Hl'.
  - intros q1 q2 t. destruct (decide (q = q1)) as [<-|H1], (decide (q = q2)) as [<-|H2];
      rewrite ?fn_lookup_insert, ?fn_lookup_insert_ne by done.
    + done.
    + intros Hin Hin2. symmetry. by eapply Hl'.
    + intros Hin Hin2. by eapply Hl'.
    + apply Hdis.
Qed.

(** ** Threads *)

Lemma thr_ok Q st t T : kinv Q st → thr st t T → thread_ok T.
Proof.
  intros Hk [HT Hp]. destruct (k_threads _ _ Hk _ _ Hp) as (_ & T' & HT' & _ & Hok).
  by simplify_eq.
Qed.

Lemma thr_pid Q st t T : kinv Q st → thr st t T → KERNEL_PID_FIRST <= pid T <= KERNEL_PID_LAST.
Proof. intros Hk [HT Hp]. by destruct (k_threads _ _ Hk _ _ Hp) as (? & _). Qed.

Lemma thr_fun st t T1 T2 : thr st t T1 → thr st t T2 → T1 = T2.
Proof. intros [? _] [? _]. by simplify_eq. Qed.

Lemma thr_update st st' t T T' t1 T1 :
  thr st t T → tcbs st' = <[t := T']> (tcbs st) → sched_threads st' = sched_threads st →
  pid T' = pid T →
  thr st' t1 T1 ↔ (t1 = t ∧ T1 = T') ∨ (t1 ≠ t ∧ thr st t1 T1).
Proof.
  intros [HT Hp] Htc Hst Hpid. unfold thr. rewrite Htc, Hst.
  destruct (decide (t1 = t)) as [->|].
  - rewrite lookup_insert_eq. naive_solver congruence.
  - rewrite lookup_insert_ne by done. naive_solver.
Qed.

(** A thread that is on a run queue is on no other list. *)
Lemma in_runqueue_status Q st q t T :
  kinv Q st → t ∈ Q q → thr st t T → queue_status q T.
Proof.
  intros Hk Hin HT. destruct (k_member _ _ Hk _ _ Hin) as (T' & HT' & Hs).
  by rewrite (thr_fun _ _ _ _ HT HT').
Qed.

Lemma kinv_NoDup Q st q : kinv Q st → NoDup (Q q).
Proof. intros Hk. eapply queue_rep_NoDup. by apply k_rep. Qed.

Lemma runqueue_rep Q st p :
  kinv Q st → 0 <= p < 16 → is_clist (heap st) (RUNQUEUE p) (RQ_ENTRY <$> Q (RUNQUEUE p)).
Proof.
  intros Hk Hp. pose proof (k_rep _ _ Hk (RUNQUEUE p)) as Hr. simpl in Hr.
  by rewrite decide_True in Hr.
Qed.

(** ** Updating one thread

    The way every operation re-establishes the invariant: the control block of
    [t] becomes [T'], the queues become [Q']. *)
Definition bits_ok Q (b : Z) : Prop :=
  0 <= b < 2 ^ 16 ∧
  ∀ p, 0 <= p < 16 → Z.testbit b p = bool_decide (Q (RUNQUEUE p) ≠ []).

Lemma prio_of_update st st' t T T' t1 :
  tcbs st !! t = Some T → tcbs st' = <[t := T']> (tcbs st) → priority T' = priority T →
  prio_of st' t1 = prio_of st t1.
Proof.
  intros HT Htc Hp. unfold prio_of. rewrite Htc. destruct (decide (t = t1)) as [<-|].
  - rewrite lookup_insert_eq, HT. done.
  - by rewrite lookup_insert_ne.
Qed.

Lemma sorted_by_ext {A} (f g : A → Z) l :
  (∀ x, x ∈ l → f x = g x) → sorted_by f l → sorted_by g l.
Proof.
  intros Hfg. apply sorted_by_mono. intros x y Hx Hy. by rewrite !Hfg.
Qed.

Lemma kinv_update Q Q' st st' t T T' :
  kinv Q st → thr st t T →
  tcbs st' = <[t := T']> (tcbs st) → sched_threads st' = sched_threads st →
  sched_num_threads st' = sched_num_threads st →
  sched_active_thread st' = sched_active_thread st →
  sched_active_pid st' = sched_active_pid st →
  pid T' = pid T → priority T' = priority T → 0 <= status T' <= STATUS_PENDING →
  (∀ q, queue_rep (heap st') q (Q' q)) →
  (∀ q1 q2 t, t ∈ Q' q1 → t ∈ Q' q2 → q1 = q2) →
  (∀ q t', t' ≠ t → t' ∈ Q' q → t' ∈ Q q) →
  (∀ p t', t' ≠ t → t' ∈ Q (RUNQUEUE p) → t' ∈ Q' (RUNQUEUE p)) →
  (∀ q, t ∈ Q' q → queue_status q T') →
  (STATUS_ON_RUNQUEUE <= status T' → t ∈ Q' (RUNQUEUE (priority T))) →
  bits_ok Q' (runqueue_bitcache st') →
  (∀ q, wait_queue q = true → sorted_by (prio_of st) (Q' q)) →
  kinv Q' st'.
Proof.
  intros Hk HT Htc Hth Hnum Hact Hapid Hpid Hprio Hst Hrep Hdis Hsub Hrq Hqs Hrdy Hbits Hsort.
  pose proof (λ t1 T1, thr_update st st' t T T' t1 T1 HT Htc Hth Hpid) as Hthr.
  pose proof HT as [HTl HTp].
  split; try done.
  - intros p u Hu. rewrite Hth in Hu. destruct (k_threads _ _ Hk _ _ Hu) as (Hp & U & HU & HUp & HUok).
    split; [done|]. rewrite Htc. destruct (decide (t = u)) as [<-|].
    + exists T'. rewrite lookup_insert_eq. simplify_eq. split; [done|]. split; [done|].
      destruct HUok. split; [by rewrite Hprio|done].
    + exists U. by rewrite lookup_insert_ne.
  - intros q u Hu. destruct (decide (u = t)) as [->|Hne].
    + exists T'. split; [apply Hthr; by left|by apply Hqs].
    + destruct (k_member _ _ Hk _ _ (Hsub _ _ Hne Hu)) as (U & HU & HUs).
      exists U. split; [apply Hthr; by right|done].
  - intros u U [[-> ->]|[Hne HU]]%Hthr Hs.
    + rewrite Hprio. by apply Hrdy.
    + apply Hrq; [done|]. by apply (k_ready _ _ Hk).
  - intros q Hq. apply (sorted_by_ext (prio_of st)); [|by apply Hsort].
    intros u _. symmetry. by eapply prio_of_update.
  - rewrite Hnum, Hth. apply (k_num _ _ Hk).
  - intros a Ha. rewrite Hact in Ha. rewrite Hapid.
    destruct (k_active _ _ Hk _ Ha) as (Ta & HTa & Hp).
    destruct (decide (a = t)) as [->|Hne].
    + exists T'. rewrite (thr_fun _ _ _ _ HTa HT) in *.
      split; [apply Hthr; by left|congruence].
    + exists Ta. split; [apply Hthr; by right|done].
Qed.

(** ** The ready bitmap *)

Lemma bits_set Q b p l :
  bits_ok Q b → 0 <= p < 16 → l ≠ [] →
  bits_ok (<[RUNQUEUE p := l]> Q) (Z.lor b (Z.shiftl 1 p)).
Proof.
  intros [Hb Hbits] Hp Hl. rewrite Z.shiftl_1_l. split.
  - apply lor_bound; [lia|lia|]. split; [apply Z.pow_nonneg; lia|apply Z.pow_lt_mono_r; lia].
  - intros i Hi. rewrite Z.lor_spec, Z.pow2_bits_eqb, Hbits by lia.
    destruct (decide (p = i)) as [<-|Hne].
    + rewrite Z.eqb_refl, orb_true_r, fn_lookup_insert. by rewrite bool_decide_eq_true_2.
    + rewrite fn_lookup_insert_ne by congruence.
      by rewrite (proj2 (Z.eqb_neq _ _)), orb_false_r by lia.
Qed.

Lemma bits_clear Q b p :
  bits_ok Q b → 0 <= p < 16 →
  bits_ok (<[RUNQUEUE p := []]> Q) (Z.land b (u32 (Z.lnot (Z.shiftl 1 p)))).
Proof.
  intros [Hb Hbits] Hp. split; [by apply land_bound|].
  intros i Hi. rewrite Z.land_spec. unfold u32. change 4294967296 with (2 ^ 32).
  rewrite Z.mod_pow2_bits_low, Z.lnot_spec, Z.shiftl_1_l, Z.pow2_bits_eqb, Hbits by lia.
  destruct (decide (p = i)) as [<-|Hne].
  - rewrite Z.eqb_refl, andb_false_r, fn_lookup_insert. done.
  - rewrite fn_lookup_insert_ne by congruence.
    by rewrite (proj2 (Z.eqb_neq _ _)), andb_true_r by lia.
Qed.

Lemma bits_same Q b p l :
  bits_ok Q b → 0 <= p < 16 → (l = [] ↔ Q (RUNQUEUE p) = []) →
  bits_ok (<[RUNQUEUE p := l]> Q) b.
Proof.
  intros [Hb Hbits] Hp Hl. split; [done|]. intros i Hi. rewrite Hbits by done.
  apply bool_decide_ext. destruct (decide (p = i)) as [<-|].
  - rewrite fn_lookup_insert. tauto.
  - by rewrite fn_lookup_insert_ne by congruence.
Qed.

Lemma bits_wait Q b q l : bits_ok Q b → wait_queue q = true → bits_ok (<[q := l]> Q) b.
Proof.
  intros [Hb Hbits] Hq. split; [done|]. intros i Hi. rewrite Hbits by done.
  rewrite fn_lookup_insert_ne; [done|]. by intros ->.
Qed.

Lemma u8_small s : 0 <= s < 256 → u8 s = s.
Proof. intros. unfold u8. by apply Z.mod_small. Qed.

(** ** [sched_set_status] *)

(** The state after a status change: only the lists, the bitmap and the one
    control block differ. *)
Definition upd3 st (h : gmap node node) (b : Z) (tc : gmap Z thread_t) : kstate :=
  set_tcbs tc (set_runqueue_bitcache b (set_heap h st)).

Lemma sorted_insert_other st Q p l :
  (∀ q, wait_queue q = true → sorted_by (prio_of st) (Q q)) →
  ∀ q, wait_queue q = true → sorted_by (prio_of st) (<[RUNQUEUE p := l]> Q q).
Proof. intros Hs q Hq. rewrite fn_lookup_insert_ne by (by intros <-). by apply Hs. Qed.

Lemma unqueued_RQ Q t q : (∀ q, t ∉ Q q) → RQ_ENTRY t ∉ RUNQUEUE q :: (RQ_ENTRY <$> Q (RUNQUEUE q)).
Proof. intros Hn [?|Hin%elem_of_RQ]%elem_of_cons; [done|by eapply Hn]. Qed.

(** A blocked thread that is on no list becomes ready: it is appended to the
    run queue of its priority. *)
Lemma sched_set_status_wake Q st t T s :
  kinv Q st → thr st t T → status T < STATUS_ON_RUNQUEUE → (∀ q, t ∉ Q q) →
  STATUS_ON_RUNQUEUE <= s <= STATUS_PENDING →
  let p := priority T in
  ∃ h b, let st' := upd3 st h b (<[t := set_status s T]> (tcbs st)) in
    sched_set_status t s st = Ok (tt, st') ∧
    kinv (<[RUNQUEUE p := Q (RUNQUEUE p) ++ [t]]> Q) st' ∧
    ∀ q, wait_queue q = true → h !! q = heap st !! q.
Proof.
  intros Hk HT Hold Hnq Hs p. pose proof (thr_ok _ _ _ _ Hk HT) as [Hp _].
  pose proof HT as [HTl _]. unfold STATUS_ON_RUNQUEUE, STATUS_RUNNING, STATUS_PENDING, SCHED_PRIO_LEVELS in *.
  exists (clist_rpush (heap st) (RUNQUEUE p) (RQ_ENTRY t)),
         (Z.lor (runqueue_bitcache st) (Z.shiftl 1 p)).
  assert (Hcl := runqueue_rep _ _ p Hk Hp).
  assert (HRQ := unqueued_RQ Q t p Hnq).
  destruct (heap_op_refines (heap st) (RUNQUEUE p) _ (RPush (RQ_ENTRY t)) Hcl HRQ)
    as (h' & Eh & Hrep' & Hfr). simpl in Eh. injection Eh as <-.
  split; [|split].
  - unfold sched_set_status. rewrite (bind_Ok _ _ _ _ _ (get_thread_Ok _ _ _ HTl)).
    unfold STATUS_ON_RUNQUEUE, STATUS_RUNNING.
    assert ((9 <=? s) = true) as -> by lia. assert ((9 <=? status T) = false) as -> by lia.
    ksimpl. rewrite (bind_Ok _ _ _ _ _ (runqueue_at_Ok _ _ Hp)). ksimpl.
    by rewrite (modify_thread_Ok _ _ T), (u8_small s) by (done || lia).
  - simpl in Hrep'. change [RQ_ENTRY t] with (RQ_ENTRY <$> [t]) in Hrep'. rewrite <- fmap_app in Hrep'.
    destruct (queues_update Q (heap st) (clist_rpush (heap st) (RUNQUEUE p) (RQ_ENTRY t))
      (RUNQUEUE p) (Q (RUNQUEUE p) ++ [t])) as [Hrep2 Hdis2]; [apply k_rep, Hk|apply (k_disj _ _ Hk)| | | |done|].
    + simpl. by rewrite decide_True.
    + intros y Hy Hin. apply Hfr. simpl. rewrite fmap_app, fmap_app in Hin. set_solver.
    + intros u q' [Hu|E%list_elem_of_singleton]%elem_of_app Hu'; [|subst u; by apply Hnq in Hu'].
      symmetry. by eapply (k_disj _ _ Hk).
    + eapply (kinv_update Q _ st _ t T (set_status s T)); try done.
      * simpl. unfold STATUS_PENDING. lia.
      * intros q u Hne. destruct (decide (RUNQUEUE p = q)) as [<-|];
          [rewrite fn_lookup_insert|by rewrite fn_lookup_insert_ne]. set_solver.
      * intros p' u Hne. destruct (decide (RUNQUEUE p = RUNQUEUE p')) as [<-|];
          [rewrite fn_lookup_insert|by rewrite fn_lookup_insert_ne]. set_solver.
      * intros q. destruct (decide (RUNQUEUE p = q)) as [<-|];
          [|rewrite fn_lookup_insert_ne by done; by intros ?%Hnq].
        intros _. simpl. unfold STATUS_ON_RUNQUEUE, STATUS_RUNNING. split; [done|lia].
      * intros _. rewrite fn_lookup_insert. set_solver.
      * apply bits_set; [apply (k_bits _ _ Hk)|done|]. by destruct (Q (RUNQUEUE p)).
      * apply sorted_insert_other. apply (k_sorted _ _ Hk).
  - intros q Hq. apply Hfr. intros Hin. apply elem_of_cons in Hin as [->|Hin]; [done|].
    simpl in Hin. set_solver.
Qed.

(** The front thread of a run queue blocks: it leaves the queue. *)
Lemma sched_set_status_block Q st t T s :
  kinv Q st → thr st t T → STATUS_ON_RUNQUEUE <= status T →
  head (Q (RUNQUEUE (priority T))) = Some t →
  0 <= s < STATUS_ON_RUNQUEUE →
  let p := priority T in
  ∃ h b, let st' := upd3 st h b (<[t := set_status s T]> (tcbs st)) in
    sched_set_status t s st = Ok (tt, st') ∧
    kinv (<[RUNQUEUE p := tail (Q (RUNQUEUE p))]> Q) st' ∧
    ∀ q, wait_queue q = true → h !! q = heap st !! q.
Proof.
  intros Hk HT Hold Hhd Hs p. pose proof (thr_ok _ _ _ _ Hk HT) as [Hp _].
  pose proof HT as [HTl _]. unfold STATUS_ON_RUNQUEUE, STATUS_RUNNING, STATUS_PENDING, SCHED_PRIO_LEVELS in *.
  pose proof (kinv_NoDup Q st (RUNQUEUE p) Hk) as Hnd.
  fold p in Hhd. destruct (Q (RUNQUEUE p)) as [|t' l] eqn:EQ; [done|].
  simpl in Hhd. injection Hhd as ->. apply NoDup_cons in Hnd as [Hnin Hnd].
  assert (Hcl := runqueue_rep _ _ p Hk Hp). rewrite EQ, fmap_cons in Hcl.
  destruct (clist_lpop_cons _ _ _ _ Hcl) as (h' & Eh & Hrep' & Hfr).
  set (b := if decide (l = []) then Z.land (runqueue_bitcache st) (u32 (Z.lnot (Z.shiftl 1 p)))
            else runqueue_bitcache st).
  exists h', b. split; [|split].
  - unfold sched_set_status. rewrite (bind_Ok _ _ _ _ _ (get_thread_Ok _ _ _ HTl)).
    unfold STATUS_ON_RUNQUEUE, STATUS_RUNNING.
    assert ((9 <=? s) = false) as -> by lia. assert ((9 <=? status T) = true) as -> by lia.
    ksimpl. rewrite (bind_Ok _ _ _ _ _ (runqueue_at_Ok _ _ Hp)). ksimpl. fold p. rewrite Eh.
    ksimpl. destruct Hrep' as (_ & -> & _). unfold b.
    destruct (decide (l = [])) as [->|Hl]; simpl.
    + ksimpl. by rewrite (modify_thread_Ok _ _ T), (u8_small s) by (done || lia).
    + destruct (last (RQ_ENTRY <$> l)) eqn:E; [|by rewrite last_None in E; apply fmap_nil_inv in E].
      ksimpl. by rewrite (modify_thread_Ok _ _ T), (u8_small s) by (done || lia).
  - simpl.
    destruct (queues_update Q (heap st) h' (RUNQUEUE p) l) as [Hrep2 Hdis2];
      [apply k_rep, Hk|apply (k_disj _ _ Hk)| | | |done|].
    + simpl. by rewrite decide_True.
    + intros y Hy Hin. apply Hfr. rewrite EQ, fmap_app in Hin. set_solver.
    + intros u q' Hu Hu'. symmetry. eapply (k_disj _ _ Hk); [|done]. rewrite EQ. set_solver.
    + assert (Hother : ∀ q, q ≠ RUNQUEUE p → t ∉ Q q).
      { intros q Hq Hin. apply Hq. eapply (k_disj _ _ Hk); [done|]. rewrite EQ. set_solver. }
      eapply (kinv_update Q _ st _ t T (set_status s T)); try done.
      * simpl. unfold STATUS_PENDING. lia.
      * intros q u Hne. destruct (decide (RUNQUEUE p = q)) as [<-|];
          [rewrite fn_lookup_insert, EQ|by rewrite fn_lookup_insert_ne]. set_solver.
      * intros p' u Hne. destruct (decide (RUNQUEUE p = RUNQUEUE p')) as [<-|];
          [rewrite fn_lookup_insert, EQ|by rewrite fn_lookup_insert_ne]. set_solver.
      * intros q. destruct (decide (RUNQUEUE p = q)) as [<-|];
          [by rewrite fn_lookup_insert|]. rewrite fn_lookup_insert_ne by done.
        by intros []%Hother.
      * simpl. unfold STATUS_ON_RUNQUEUE, STATUS_RUNNING. lia.
      * simpl. unfold b. destruct (decide (l = [])) as [->|Hl].
        -- apply bits_clear; [apply (k_bits _ _ Hk)|done].
        -- apply bits_same; [apply (k_bits _ _ Hk)|done|]. by rewrite EQ.
      * apply sorted_insert_other. apply (k_sorted _ _ Hk).
  - intros q Hq. apply Hfr. intros Hin. apply elem_of_cons in Hin as [->|Hin]; [done|].
    simpl in Hin. set_solver.
Qed.

(** A blocked thread changes from one blocked status to another. *)
Lemma sched_set_status_reblock Q st t T s :
  kinv Q st → thr st t T → status T < STATUS_ON_RUNQUEUE → 0 <= s < STATUS_ON_RUNQUEUE →
  (∀ q, t ∈ Q q → queue_status q (set_status s T)) →
  let st' := upd3 st (heap st) (runqueue_bitcache st) (<[t := set_status s T]> (tcbs st)) in
  sched_set_status t s st = Ok (tt, st') ∧ kinv Q st'.
Proof.
  intros Hk HT Hold Hs Hqs. pose proof HT as [HTl _].
  unfold STATUS_ON_RUNQUEUE, STATUS_RUNNING in *. split.
  - unfold sched_set_status. rewrite (bind_Ok _ _ _ _ _ (get_thread_Ok _ _ _ HTl)).
    unfold STATUS_ON_RUNQUEUE, STATUS_RUNNING.
    assert ((9 <=? s) = false) as -> by lia. assert ((9 <=? status T) = false) as -> by lia.
    ksimpl. rewrite (modify_thread_Ok _ _ T), (u8_small s) by (done || lia). by destruct st.
  - eapply (kinv_update Q _ st _ t T (set_status s T)); try done.
    + simpl. unfold STATUS_PENDING. lia.
    + apply (k_rep _ _ Hk).
    + apply (k_disj _ _ Hk).
    + simpl. unfold STATUS_ON_RUNQUEUE, STATUS_RUNNING. lia.
    + apply (k_bits _ _ Hk).
    + apply (k_sorted _ _ Hk).
Qed.

(** ** What the invariant does not depend on *)

Lemma kinv_env Q st st' :
  kinv Q st →
  heap st' = heap st → tcbs st' = tcbs st → sched_threads st' = sched_threads st →
  sched_num_threads st' = sched_num_threads st →
  sched_active_thread st' = sched_active_thread st →
  sched_active_pid st' = sched_active_pid st →
  runqueue_bitcache st' = runqueue_bitcache st →
  kinv Q st'.
Proof.
  intros [] H1 H2 H3 H4 H5 H6 H7.
  split; unfold thr, prio_of in *; rewrite ?H1, ?H2, ?H3, ?H4, ?H5, ?H6, ?H7 in *; done.
Qed.

Ltac kenv H := (eapply (kinv_env _ _ _ H); reflexivity).

(** A ready thread stays ready. *)
Lemma kinv_restatus Q st t T s :
  kinv Q st → thr st t T → STATUS_ON_RUNQUEUE <= status T →
  STATUS_ON_RUNQUEUE <= s <= STATUS_PENDING →
  kinv Q (set_tcbs (<[t := set_status s T]> (tcbs st)) st).
Proof.
  intros Hk HT Hold Hs.
  assert (Hin : t ∈ Q (RUNQUEUE (priority T))) by (by apply (k_ready _ _ Hk)).
  eapply (kinv_update Q _ st _ t T (set_status s T)); try done.
  - simpl. unfold STATUS_PENDING, STATUS_ON_RUNQUEUE, STATUS_RUNNING in *. lia.
  - apply (k_rep _ _ Hk).
  - apply (k_disj _ _ Hk).
  - intros q Hq. rewrite (k_disj _ _ Hk _ _ _ Hq Hin). simpl.
    unfold STATUS_ON_RUNQUEUE in *. split; [done|lia].
  - apply (k_bits _ _ Hk).
  - apply (k_sorted _ _ Hk).
Qed.

Lemma kinv_set_active Q st t T :
  kinv Q st → thr st t T →
  kinv Q (set_sched_active_thread (Some t) (set_sched_active_pid (pid T) st)).
Proof.
  intros Hk HT. destruct Hk. split; try done.
  simpl. intros u [= <-]. exists T. done.
Qed.

(** ** [sched_run] *)

(** Ready threads, and the one the scheduler picks: the front of the first
    non-empty run queue. *)
Definition ready st (t : Z) T : Prop := thr st t T ∧ STATUS_ON_RUNQUEUE <= status T.

Definition next_up Q st (t : Z) T : Prop :=
  ready st t T ∧ head (Q (RUNQUEUE (priority T))) = Some t ∧
  ∀ u U, ready st u U → priority T <= priority U.

(** The state after switching from the active thread to [t]. *)
Definition demoted st : gmap Z thread_t :=
  match sched_active_thread st with
  | Some a =>
      match tcbs st !! a with
      | Some Ta =>
          if status Ta =? STATUS_RUNNING then <[a := set_status STATUS_PENDING Ta]> (tcbs st)
          else tcbs st
      | None => tcbs st
      end
  | None => tcbs st
  end.

Definition switched st (t : Z) T : kstate :=
  if decide (sched_active_thread st = Some t) then set_sched_context_switch_request 0 st
  else set_sched_active_thread (Some t) (set_sched_active_pid (pid T)
         (set_tcbs (<[t := set_status STATUS_RUNNING T]> (demoted st))
            (set_sched_context_switch_request 0 st))).

Lemma next_up_exists Q st :
  kinv Q st → (∃ t T, ready st t T) →
  ∃ t T, next_up Q st t T ∧ bitarithm_lsb (runqueue_bitcache st) = Ok (priority T).
Proof.
  intros Hk (u & U & HU & HUs). destruct (k_bits _ _ Hk) as [Hb Hbits].
  pose proof (thr_ok _ _ _ _ Hk HU) as [HUp _]. unfold SCHED_PRIO_LEVELS in HUp.
  pose proof (k_ready _ _ Hk _ _ HU HUs) as Hin.
  assert (Z.testbit (runqueue_bitcache st) (priority U) = true) as Hbit.
  { rewrite Hbits by done. apply bool_decide_eq_true_2. intros E. rewrite E in Hin. set_solver. }
  assert (runqueue_bitcache st ≠ 0) by (intros E; by rewrite E, Z.bits_0 in Hbit).
  destruct (bitarithm_lsb_spec (runqueue_bitcache st)) as (k & Ek & Hk32 & Htk & Hlow); [lia|].
  assert (k < 16).
  { destruct (decide (k < 16)); [done|]. rewrite (testbit_above 16) in Htk; [done|done|lia]. }
  rewrite Hbits in Htk by lia. apply bool_decide_eq_true in Htk.
  destruct (Q (RUNQUEUE k)) as [|t l] eqn:EQ; [done|].
  destruct (k_member _ _ Hk (RUNQUEUE k) t) as (T & HT & <- & HTs); [rewrite EQ; set_solver|].
  exists t, T. split; [|done]. split; [done|]. split; [by rewrite EQ|].
  intros v V [HV HVs]. destruct (decide (priority T <= priority V)) as [|Hlt]; [done|].
  pose proof (thr_ok _ _ _ _ Hk HV) as [HVp _]. unfold SCHED_PRIO_LEVELS in HVp.
  specialize (Hlow (priority V)). rewrite Hbits in Hlow by lia.
  pose proof (k_ready _ _ Hk _ _ HV HVs) as Hin'.
  apply bool_decide_eq_false in Hlow; [|lia]. apply dec_stable in Hlow. rewrite Hlow in Hin'. set_solver.
Qed.

Lemma demoted_lookup Q st t T :
  kinv Q st → thr st t T → sched_active_thread st ≠ Some t → demoted st !! t = Some T.
Proof.
  intros Hk [HT _] Hne. unfold demoted. destruct (sched_active_thread st) as [a|]; [|done].
  destruct (tcbs st !! a) as [Ta|]; [|done]. destruct (status Ta =? STATUS_RUNNING); [|done].
  rewrite lookup_insert_ne; congruence.
Qed.

Lemma demoted_kinv Q st : kinv Q st → kinv Q (set_tcbs (demoted st) st).
Proof.
  intros Hk. unfold demoted. destruct (sched_active_thread st) as [a|] eqn:Ha; [|kenv Hk].
  destruct (k_active _ _ Hk _ Ha) as (Ta & HTa & _). pose proof HTa as [-> _].
  destruct (Z.eqb_spec (status Ta) STATUS_RUNNING) as [E|]; [|kenv Hk].
  apply kinv_restatus; [done|done|unfold STATUS_ON_RUNQUEUE; lia|].
  unfold STATUS_ON_RUNQUEUE, STATUS_RUNNING, STATUS_PENDING. lia.
Qed.

(** [sched_run] switches to the thread of highest priority (the longest waiting
    one among equals) and keeps the invariant. *)
Lemma sched_run_spec Q st :
  kinv Q st → (∃ t T, ready st t T) →
  ∃ t T, next_up Q st t T ∧
    sched_run st = Ok (if decide (sched_active_thread st = Some t) then 0 else 1, switched st t T) ∧
    kinv Q (switched st t T).
Proof.
  intros Hk Hr. destruct (next_up_exists Q st Hk Hr) as (t & T & Hup & Hlsb).
  exists t, T. split; [done|]. destruct Hup as ((HT & HTs) & Hhd & Hmin).
  pose proof (thr_ok _ _ _ _ Hk HT) as [Hp _]. unfold SCHED_PRIO_LEVELS in Hp.
  pose proof (runqueue_rep _ _ (priority T) Hk Hp) as Hcl.
  pose proof (clist_lpeek_spec _ _ _ Hcl) as Hpk. unfold clist_lpeek in Hpk.
  destruct (Q (RUNQUEUE (priority T))) as [|t' l] eqn:EQ; [done|].
  simpl in Hhd. injection Hhd as ->. rewrite fmap_cons in Hpk, Hcl.
  destruct (proj1 (is_clist_cons _ _ _ _) Hcl) as (_ & Hh & _).
  assert (Hrun : sched_run st =
    (if decide (sched_active_thread st = Some t) then mret 0
     else _ ← match sched_active_thread st with
              | Some a => T ← get_thread a;
                  when (status T =? STATUS_RUNNING) (modify_thread a (set_status STATUS_PENDING))
              | None => mret tt end;
          _ ← modify_thread t (set_status STATUS_RUNNING);
          T ← get_thread t;
          _ ← modify (set_sched_active_pid (pid T));
          _ ← modify (set_sched_active_thread (Some t)); mret 1)
      (set_sched_context_switch_request 0 st)).
  { unfold sched_run. ksimpl. rewrite Hlsb. ksimpl.
    rewrite (bind_Ok _ _ _ _ _ (runqueue_at_Ok _ _ Hp)). ksimpl.
    rewrite Hh in Hpk |- *. simpl next_of. rewrite Hpk. ksimpl. done. }
  rewrite Hrun. unfold switched. case_decide as Ha.
  { split; [done|]. kenv Hk. }
  pose proof (demoted_lookup _ _ _ _ Hk HT Ha) as HTd.
  split.
  - assert (∀ k : unit → M Z, (match sched_active_thread st with
              | Some a => T ← get_thread a;
                  when (status T =? STATUS_RUNNING) (modify_thread a (set_status STATUS_PENDING))
              | None => mret tt end ≫= k) (set_sched_context_switch_request 0 st) =
            k tt (set_tcbs (demoted st) (set_sched_context_switch_request 0 st))) as Hd.
    { intros k. unfold demoted. destruct (sched_active_thread st) as [a|] eqn:Hact; [|by destruct st].
      destruct (k_active _ _ Hk _ Hact) as (Ta & [HTa _] & _).
      rewrite bind_assoc_st, (bind_Ok _ _ _ _ _ (get_thread_Ok (set_sched_context_switch_request 0 st) a Ta HTa)).
      rewrite HTa. destruct (status Ta =? STATUS_RUNNING).
      - rewrite bind_when_true. by rewrite (bind_Ok _ _ _ _ _ (modify_thread_Ok (set_sched_context_switch_request 0 st) a Ta _ HTa)).
      - ksimpl. by destruct st. }
    rewrite Hd, (bind_Ok _ _ _ _ _ (modify_thread_Ok (set_tcbs (demoted st) _) t T _ HTd)).
    erewrite bind_Ok by (apply get_thread_Ok, lookup_insert_eq). ksimpl. done.
  - pose proof (demoted_kinv _ _ Hk) as Hk1.
    assert (thr (set_tcbs (demoted st) st) t T) as HT1 by (split; [done|apply HT]).
    assert (9 <= 9 <= 10) as H9 by lia.
    pose proof (kinv_restatus _ _ t T STATUS_RUNNING Hk1 HT1 HTs H9) as Hk2.
    assert (kinv Q (set_sched_active_thread (Some t) (set_sched_active_pid (pid (set_status STATUS_RUNNING T))
      (set_tcbs (<[t:=set_status STATUS_RUNNING T]> (demoted st)) st)))) as Hk3.
    { apply (kinv_set_active Q (set_tcbs (<[t:=set_status STATUS_RUNNING T]> (demoted st)) st)).
      - kenv Hk2.
      - split; [apply lookup_insert_eq|apply HT]. }
    kenv Hk3.
Qed.

(** ** Priority scheduling *)

(** The active thread is ready and no ready thread is more urgent. *)
Definition runs_highest st : Prop :=
  ∃ t T, sched_active_thread st = Some t ∧ ready st t T ∧
         ∀ u U, ready st u U → priority T <= priority U.

(** Or, in an interrupt handler, a context switch has been requested. *)
Definition switch_done st : Prop :=
  runs_highest st ∨ (in_isr st = true ∧ sched_context_switch_request st = 1).

(** No ready thread is more urgent than [p]. *)
Definition urgent st (p : Z) : Prop := ∀ u U, ready st u U → p <= priority U.

(** The kernel serves thread [t]: it is active and ready, at the front of its
    run queue, and no context switch is overdue. *)
Record running Q st (t : Z) T : Prop := Running {
  run_kinv : kinv Q st;
  run_active : sched_active_thread st = Some t;
  run_ready : ready st t T;
  run_head : head (Q (RUNQUEUE (priority T))) = Some t;
  run_done : switch_done st
}.

Definition settled Q st : Prop := ∃ t T, running Q st t T.

(** [st'] differs from [st] at most by a context switch or the request of one. *)
Definition yielded st st' : Prop :=
  st' = st ∨ st' = set_sched_context_switch_request 1 st ∨
  ∃ t T, ready st t T ∧ st' = set_irq_enabled true (switched st t T).

(** Two states with the same queues have the same ready threads. *)
Lemma ready_same Q st st' u U :
  kinv Q st → kinv Q st' → ready st' u U →
  ∃ V, ready st u V ∧ priority V = priority U.
Proof.
  intros Hk Hk' [HU HUs]. pose proof (k_ready _ _ Hk' _ _ HU HUs) as Hin.
  destruct (k_member _ _ Hk _ _ Hin) as (V & HV & Hp & Hs). by exists V.
Qed.

Lemma switched_settled Q st t T :
  kinv Q st → next_up Q st t T → kinv Q (switched st t T) → settled Q (switched st t T).
Proof.
  intros Hk ([HT HTs] & Hhd & Hmin) Hk'.
  assert (sched_active_thread (switched st t T) = Some t) as Ha.
  { unfold switched. by case_decide. }
  assert (∃ T', ready (switched st t T) t T' ∧ priority T' = priority T) as (T' & HT' & Hp).
  { apply (ready_same Q (switched st t T) st); [done..|]. by split. }
  exists t, T'. split; [done..|by rewrite Hp|]. left.
  exists t, T'. split; [done|]. split; [done|]. intros u U HU.
  destruct (ready_same _ _ _ _ _ Hk Hk' HU) as (V & HV & <-). rewrite Hp. by eapply Hmin.
Qed.

Lemma yield_thread Q st :
  kinv Q st → in_isr st = false → (∃ t T, ready st t T) →
  ∃ st', thread_yield_higher st = Ok (tt, st') ∧ settled Q st' ∧ yielded st st'.
Proof.
  intros Hk Hisr Hr. destruct (sched_run_spec Q st Hk Hr) as (t & T & Hup & E & Hk').
  exists (set_irq_enabled true (switched st t T)). unfold thread_yield_higher. ksimpl. rewrite Hisr.
  erewrite bind_Ok by exact E. split; [done|]. split.
  - destruct (switched_settled _ _ _ _ Hk Hup Hk') as (u & U & [Hk2 ? ? ? ?]).
    exists u, U. split; try done. kenv Hk2.
  - right; right. exists t, T. by destruct Hup as [? _].
Qed.

Lemma yield_isr st :
  in_isr st = true →
  thread_yield_higher st = Ok (tt, set_sched_context_switch_request 1 st).
Proof. intros Hisr. unfold thread_yield_higher. ksimpl. by rewrite Hisr. Qed.

(** [sched_switch(p)] when a thread of priority [p] has become ready. *)
Lemma sched_switch_spec Q st a Ta p :
  kinv Q st → sched_active_thread st = Some a → ready st a Ta →
  head (Q (RUNQUEUE (priority Ta))) = Some a →
  urgent st (Z.min (priority Ta) p) ∨ (in_isr st = true ∧ sched_context_switch_request st = 1) →
  ∃ st', sched_switch p st = Ok (tt, st') ∧ settled Q st' ∧ yielded st st'.
Proof.
  intros Hk Ha HTa Hhd Hmin. unfold sched_switch. ksimpl. rewrite Ha. ksimpl.
  pose proof HTa as [[HTl ?] Hs]. erewrite bind_Ok by (by apply get_thread_Ok).
  assert ((STATUS_ON_RUNQUEUE <=? status Ta) = true) as -> by lia. ksimpl.
  destruct (in_isr st) eqn:Hisr.
  - destruct (Z.ltb_spec p (priority Ta)).
    + simpl when. ksimpl. rewrite Hisr. eexists. split; [done|]. split; [|right; by left].
      exists a, Ta. split; [kenv Hk|done..|by right].
    + exists st. split; [done|]. split; [|by left]. exists a, Ta. split; [done..|].
      destruct Hmin as [Hmin|[_ ?]]; [left|by right]. exists a, Ta. split; [done|]. split; [done|].
      intros u U HU. specialize (Hmin u U HU). lia.
  - destruct Hmin as [Hmin|[? _]]; [|done]. destruct (Z.ltb_spec p (priority Ta)).
    + simpl when. ksimpl. rewrite Hisr. apply yield_thread; [done..|]. by exists a, Ta.
    + exists st. split; [done|]. split; [|by left]. exists a, Ta. split; [done..|]. left.
      exists a, Ta. split; [done|]. split; [done|]. intros u U HU. specialize (Hmin u U HU). lia.
Qed.

(** What a context switch leaves alone. *)
Lemma yielded_env st st' :
  yielded st st' →
  heap st' = heap st ∧ msgs st' = msgs st ∧ mboxes st' = mboxes st ∧ rmutexes st' = rmutexes st ∧
  (irq_enabled st' = true ∨ irq_enabled st' = irq_enabled st) ∧
  in_isr st' = in_isr st ∧ sched_threads st' = sched_threads st.
Proof.
  intros [->|[->|(t & T & _ & ->)]]; [by auto 8..|]. unfold switched. case_decide; by auto 8.
Qed.

(** Control blocks change at most in their status word, and those of blocked
    threads not at all. *)
Lemma yielded_tcb st st' u U :
  yielded st st' → tcbs st !! u = Some U →
  ∃ s, tcbs st' !! u = Some (set_status s U) ∧
       (status U < STATUS_ON_RUNQUEUE → s = status U) ∧
       (STATUS_ON_RUNQUEUE <= status U → STATUS_ON_RUNQUEUE <= s).
Proof.
  intros Hy HU. unfold STATUS_ON_RUNQUEUE, STATUS_RUNNING in *.
  assert (∃ s, demoted st !! u = Some (set_status s U) ∧ (status U < 9 → s = status U) ∧
               (9 <= status U → 9 <= s)) as (s & Hs & Hs1 & Hs2).
  { assert (tcbs st !! u = Some (set_status (status U) U)) as HU' by (by destruct U).
    unfold demoted. destruct (sched_active_thread st) as [a|]; [|by exists (status U)].
    destruct (tcbs st !! a) as [Ta|] eqn:Ha; [|by exists (status U)].
    destruct (Z.eqb_spec (status Ta) STATUS_RUNNING); [|by exists (status U)].
    destruct (decide (a = u)) as [->|]; [|exists (status U); by rewrite lookup_insert_ne].
    simplify_eq. exists STATUS_PENDING. rewrite lookup_insert_eq. simpl in *.
    unfold STATUS_RUNNING, STATUS_PENDING in *. split; [done|lia]. }
  destruct Hy as [->|[->|(t & T & [[HT _] HTs] & ->)]].
  { exists (status U). by destruct U. }
  { exists (status U). by destruct U. }
  unfold switched. case_decide; [exists (status U); by destruct U|]. simpl.
  destruct (decide (t = u)) as [->|]; [|exists s; by rewrite lookup_insert_ne].
  simplify_eq. exists STATUS_RUNNING. rewrite lookup_insert_eq.
  unfold STATUS_ON_RUNQUEUE, STATUS_RUNNING in *. split; [done|lia].
Qed.

(** ** The running thread *)

(** Statuses that put a thread on no list. *)
Definition unlisted_status (s : Z) : Prop :=
  s = STATUS_STOPPED ∨ s = STATUS_SLEEPING ∨ s = STATUS_RECEIVE_BLOCKED ∨
  s = STATUS_FLAG_BLOCKED_ANY ∨ s = STATUS_FLAG_BLOCKED_ALL.

Lemma unlisted Q st t T : kinv Q st → thr st t T → unlisted_status (status T) → ∀ q, t ∉ Q q.
Proof.
  intros Hk HT Hs q Hin. pose proof (in_runqueue_status _ _ _ _ _ Hk Hin HT) as Hq.
  unfold unlisted_status, queue_status, STATUS_STOPPED, STATUS_SLEEPING, STATUS_RECEIVE_BLOCKED,
    STATUS_FLAG_BLOCKED_ANY, STATUS_FLAG_BLOCKED_ALL, STATUS_ON_RUNQUEUE, STATUS_RUNNING,
    STATUS_MUTEX_BLOCKED, STATUS_SEND_BLOCKED, STATUS_REPLY_BLOCKED, STATUS_MBOX_BLOCKED in *.
  destruct q; lia.
Qed.

(** Ready threads before and after a status change of [t]. *)
Lemma ready_upd3 st h b t T s u U :
  thr st t T →
  ready (upd3 st h b (<[t := set_status s T]> (tcbs st))) u U ↔
  (u = t ∧ U = set_status s T ∧ STATUS_ON_RUNQUEUE <= s) ∨ (u ≠ t ∧ ready st u U).
Proof.
  intros HT. unfold ready.
  rewrite (thr_update st _ t T (set_status s T)) by done. naive_solver.
Qed.

(** ** Readiness and environments *)

Lemma ready_env st st' u U :
  tcbs st' = tcbs st → sched_threads st' = sched_threads st → ready st' u U ↔ ready st u U.
Proof. intros H1 H2. unfold ready, thr. by rewrite H1, H2. Qed.

Lemma urgent_env st st' p :
  tcbs st' = tcbs st → sched_threads st' = sched_threads st → urgent st p → urgent st' p.
Proof. intros H1 H2 Hu u U HU. apply (Hu u U). by rewrite <- (ready_env st st'). Qed.

(** What the active thread knows about the others. *)
Lemma run_urgent Q st t T :
  running Q st t T →
  urgent st (priority T) ∨ (in_isr st = true ∧ sched_context_switch_request st = 1).
Proof.
  intros [Hk Ha HT _ [(t' & T' & Ha' & HT' & Hu)|?]]; [left|by right]. simplify_eq.
  rewrite (thr_fun _ _ _ _ (proj1 HT) (proj1 HT')). exact Hu.
Qed.

Lemma urgent_upd3 st h b u U s p :
  thr st u U → urgent st p → urgent (upd3 st h b (<[u := set_status s U]> (tcbs st))) (Z.min p (priority U)).
Proof.
  intros HU Hu v V [(-> & -> & _)|[_ HV]]%(ready_upd3 _ _ _ _ _ _ _ _ HU); simpl; [lia|].
  specialize (Hu v V HV). lia.
Qed.

(** ** Run queues as functions *)

Definition rq_push Q (p t : Z) : node → list Z := <[RUNQUEUE p := Q (RUNQUEUE p) ++ [t]]> Q.
Definition rq_pop Q (p : Z) : node → list Z := <[RUNQUEUE p := tail (Q (RUNQUEUE p))]> Q.
Lemma rq_push_head Q p p' u t :
  head (Q (RUNQUEUE p)) = Some t → head (rq_push Q p' u (RUNQUEUE p)) = Some t.
Proof.
  intros Hhd. unfold rq_push. destruct (decide (RUNQUEUE p' = RUNQUEUE p)) as [->|];
    [|by rewrite fn_lookup_insert_ne]. rewrite fn_lookup_insert. by destruct (Q (RUNQUEUE p)).
Qed.

Lemma wait_insert_rq Q q l p : wait_queue q = true → <[q := l]> Q (RUNQUEUE p) = Q (RUNQUEUE p).
Proof. intros Hq. apply fn_lookup_insert_ne. by intros ->. Qed.

Lemma rq_push_wait Q p t q : wait_queue q = true → rq_push Q p t q = Q q.
Proof. intros Hq. apply fn_lookup_insert_ne. by intros <-. Qed.

Lemma rq_pop_wait Q p q : wait_queue q = true → rq_pop Q p q = Q q.
Proof. intros Hq. apply fn_lookup_insert_ne. by intros <-. Qed.

Lemma rq_pop_notin Q st t T :
  kinv Q st → thr st t T → head (Q (RUNQUEUE (priority T))) = Some t →
  ∀ q, t ∉ rq_pop Q (priority T) q.
Proof.
  intros Hk HT Hhd q. pose proof (kinv_NoDup _ _ (RUNQUEUE (priority T)) Hk) as Hnd.
  assert (t ∈ Q (RUNQUEUE (priority T))) as Hin by (by apply head_Some_elem_of in Hhd).
  unfold rq_pop. destruct (decide (RUNQUEUE (priority T) = q)) as [<-|Hne].
  - rewrite fn_lookup_insert. destruct (Q (RUNQUEUE (priority T))); [done|].
    simplify_eq/=. by apply NoDup_cons in Hnd as [? _].
  - rewrite fn_lookup_insert_ne by done. intros Hin2. apply Hne. by eapply (k_disj _ _ Hk).
Qed.

(** Some thread other than [t] can run. *)
Definition other_ready st (t : Z) : Prop := ∃ u U, u ≠ t ∧ ready st u U.

Lemma other_ready_upd st st' t T T' :
  thr st t T → other_ready st t → tcbs st' = <[t := T']> (tcbs st) →
  sched_threads st' = sched_threads st → ∃ u U, ready st' u U.
Proof.
  intros HT (u & U & Hne & [[HU Hp] Hs]) Htc Hth. exists u, U.
  split; [|done]. split; [by rewrite Htc, lookup_insert_ne by done|by rewrite Hth].
Qed.

(** ** Waking a thread *)

(** [sched_switch] after the blocked thread [u] was made ready on behalf of the
    running thread [t]. *)
Lemma wake_switch Q Q1 st t T u U s st1 :
  running Q st t T → thr st u U → t ≠ u →
  tcbs st1 = <[u := set_status s U]> (tcbs st) → sched_threads st1 = sched_threads st →
  sched_active_thread st1 = sched_active_thread st → in_isr st1 = in_isr st →
  sched_context_switch_request st1 = sched_context_switch_request st →
  kinv Q1 st1 → head (Q1 (RUNQUEUE (priority T))) = Some t →
  ∃ st2, sched_switch (priority U) st1 = Ok (tt, st2) ∧ settled Q1 st2 ∧ yielded st1 st2.
Proof.
  intros Hr HU Hne Htc Hth Ha Hisr Hreq Hk1 Hhd. pose proof (run_urgent _ _ _ _ Hr) as Hurg.
  destruct Hr as [Hk Hact HT _ _].
  assert (∀ v V, ready st1 v V ↔ ready (upd3 st (heap st) (runqueue_bitcache st)
    (<[u := set_status s U]> (tcbs st))) v V) as Hrdy by (intros; by apply ready_env).
  apply (sched_switch_spec _ _ t T); [done|congruence| |done|].
  - apply Hrdy, ready_upd3; [done|]. by right.
  - rewrite Hisr, Hreq. destruct Hurg as [Hurg|]; [left|by right].
    intros v V HV. apply (urgent_upd3 st (heap st) (runqueue_bitcache st) u U s _ HU Hurg v V).
    by apply Hrdy.
Qed.

(** The active thread is not the one that wakes up. *)
Lemma running_ne Q st t T u U :
  running Q st t T → thr st u U → status U < STATUS_ON_RUNQUEUE → t ≠ u.
Proof.
  intros [_ _ [HT Hs] _ _] HU Hb ->. rewrite (thr_fun _ _ _ _ HT HU) in Hs. lia.
Qed.

(** ** Wait queues *)

(** The invariant depends on the queues only up to pointwise equality. *)
Global Instance kinv_proper : Proper (pointwise_relation node (=) ==> (=) ==> iff) kinv.
Proof.
  assert (∀ Q Q' st, pointwise_relation node (=) Q Q' → kinv Q st → kinv Q' st) as Himp.
  { intros Q Q' st HQ [H1 H2 H3 H4 H5 [H6 H6'] H7 H8 H9]. split; try done.
    - intros q. rewrite <- HQ. apply H1.
    - intros q1 q2 t. rewrite <- !HQ. apply H2.
    - intros q t. rewrite <- HQ. apply H4.
    - intros t T HT Hs. rewrite <- HQ. by apply H5.
    - split; [done|]. intros p. rewrite <- HQ. apply H6'.
    - intros q. rewrite <- HQ. apply H7. }
  intros Q Q' HQ st ? <-. split; apply Himp; [done|]. intros q. symmetry. apply HQ.
Qed.

(** Replacing the sequence of one wait queue. *)
Lemma kinv_queue Q st q l' h' :
  kinv Q st → wait_queue q = true → queue_rep h' q l' →
  (∀ y, y ≠ q → y ∉ RQ_ENTRY <$> (Q q ++ l') → h' !! y = heap st !! y) →
  (∀ t, t ∈ l' → t ∈ Q q ∨ (∀ q', t ∉ Q q') ∧ ∃ T, thr st t T ∧ queue_status q T) →
  sorted_by (prio_of st) l' →
  kinv (<[q := l']> Q) (set_heap h' st).
Proof.
  intros Hk Hq Hrep Hfr Hl' Hsort.
  destruct (queues_update Q (heap st) h' q l') as [Hrep2 Hdis2];
    [apply k_rep, Hk|apply (k_disj _ _ Hk)|done|done| |by destruct q|].
  { intros t q' Ht Hin. destruct (Hl' t Ht) as [Hin'|[Hn _]]; [by eapply (k_disj _ _ Hk)|].
    by apply Hn in Hin. }
  assert (∀ p, <[q := l']> Q (RUNQUEUE p) = Q (RUNQUEUE p)) as HRQ.
  { intros p. apply fn_lookup_insert_ne. by intros ->. }
  pose proof Hk as [H1 H2 H3 H4 H5 [H6 H6'] H7 H8 H9]. split; try done.
  - intros q' t. destruct (decide (q = q')) as [<-|]; rewrite ?fn_lookup_insert, ?fn_lookup_insert_ne by done.
    + intros Ht. destruct (Hl' t Ht) as [Hin|[_ HT]]; [by apply H4|done].
    + apply H4.
  - intros t T HT Hs. rewrite HRQ. by apply H5.
  - apply bits_wait; [by split|done].
  - intros q' Hq'. destruct (decide (q = q')) as [<-|];
      rewrite ?fn_lookup_insert, ?fn_lookup_insert_ne by done; [done|by apply H7].
Qed.

Lemma wait_rep h q (l : list Z) :
  wait_queue q = true → l ≠ [] → queue_rep h q l → is_list h q (RQ_ENTRY <$> l).
Proof. destruct q; try done. by destruct l. Qed.

Lemma is_list_wait_rep h q (l : list Z) :
  wait_queue q = true → is_list h q (RQ_ENTRY <$> l) → queue_rep h q l.
Proof.
  destruct q; try done. intros _ Hl. destruct l; [|done]. destruct Hl as (_ & _ & E). by left.
Qed.

(** [list_remove_head] on a wait queue takes the first thread off it. *)
Lemma dequeue Q st q u l :
  kinv Q st → wait_queue q = true → Q q = u :: l →
  let h' := set_next (heap st) q (heap st !! RQ_ENTRY u) in
  list_remove_head (heap st) q = (Some (RQ_ENTRY u), h') ∧
  is_list h' q (RQ_ENTRY <$> l) ∧
  kinv (<[q := l]> Q) (set_heap h' st) ∧
  (∀ q', u ∉ <[q := l]> Q q') ∧
  ∃ U, thr st u U ∧ queue_status q U.
Proof.
  intros Hk Hq EQ h'. pose proof (k_rep _ _ Hk q) as Hrep. rewrite EQ in Hrep.
  apply wait_rep in Hrep; [|done|done]. rewrite fmap_cons in Hrep.
  destruct (list_remove_head_cons _ _ _ _ Hrep) as [E Hl].
  pose proof (kinv_NoDup _ _ q Hk) as Hnd. rewrite EQ in Hnd. apply NoDup_cons in Hnd as [Hni Hnd].
  split; [done|]. split; [done|]. split; [|split].
  - apply kinv_queue; [done|done|by apply is_list_wait_rep| | |].
    + intros y Hy _. apply set_next_other. congruence.
    + intros t Ht. left. rewrite EQ. set_solver.
    + pose proof (k_sorted _ _ Hk q Hq) as Hs. rewrite EQ in Hs. unfold sorted_by in Hs.
      by apply StronglySorted_inv in Hs as [? _].
  - intros q'. destruct (decide (q = q')) as [<-|Hne];
      rewrite ?fn_lookup_insert, ?fn_lookup_insert_ne by done; [done|].
    intros Hin. apply Hne. apply (k_disj _ _ Hk q q' u); [rewrite EQ; set_solver|done].
  - apply (k_member _ _ Hk). rewrite EQ. set_solver.
Qed.

(** ** Members of a control block that scheduling does not read *)

Lemma kinv_tcb Q st t T T' :
  kinv Q st → thr st t T → pid T' = pid T → priority T' = priority T → status T' = status T →
  kinv Q (set_tcbs (<[t := T']> (tcbs st)) st).
Proof.
  intros Hk HT Hp Hpr Hs. pose proof (thr_ok _ _ _ _ Hk HT) as [_ Hok].
  eapply (kinv_update Q Q st _ t T T'); try done.
  - by rewrite Hs.
  - apply (k_rep _ _ Hk).
  - apply (k_disj _ _ Hk).
  - intros q Hin. pose proof (in_runqueue_status _ _ _ _ _ Hk Hin HT) as Hq.
    destruct q; simpl in *; rewrite ?Hs, ?Hpr; done.
  - rewrite Hs. apply (k_ready _ _ Hk _ _ HT).
  - apply (k_bits _ _ Hk).
  - apply (k_sorted _ _ Hk).
Qed.

Lemma ready_tcb st t T T' u U :
  thr st t T → pid T' = pid T → status T' = status T →
  ready (set_tcbs (<[t := T']> (tcbs st)) st) u U ↔
  (u = t ∧ U = T' ∧ ready st t T) ∨ (u ≠ t ∧ ready st u U).
Proof.
  intros HT Hp Hs. unfold ready. rewrite (thr_update st _ t T T') by done. naive_solver congruence.
Qed.

Lemma urgent_tcb st t T T' p :
  thr st t T → pid T' = pid T → priority T' = priority T → status T' = status T →
  urgent st p → urgent (set_tcbs (<[t := T']> (tcbs st)) st) p.
Proof.
  intros HT Hp Hpr Hs Hu u U [(-> & -> & HR)|[_ HU]]%(ready_tcb _ _ T); [|by eapply Hu|done..].
  rewrite Hpr. by eapply Hu.
Qed.

Lemma running_tcb Q st a A t T T' :
  running Q st a A → thr st t T → pid T' = pid T → priority T' = priority T → status T' = status T →
  running Q (set_tcbs (<[t := T']> (tcbs st)) st) a (if decide (a = t) then T' else A).
Proof.
  intros Hr HT Hp Hpr Hs. pose proof (run_urgent _ _ _ _ Hr) as Hu.
  destruct Hr as [Hk Ha HA Hhd Hd].
  set (A' := if decide (a = t) then T' else A).
  assert (priority A' = priority A) as HpA.
  { unfold A'. case_decide; [subst|done]. by rewrite (thr_fun _ _ _ _ (proj1 HA) HT). }
  assert (ready (set_tcbs (<[t := T']> (tcbs st)) st) a A') as HA'.
  { apply (ready_tcb _ _ T); [done..|]. unfold A'. case_decide; [|by right]. subst. left.
    split; [done|]. split; [done|]. by rewrite <- (thr_fun _ _ _ _ (proj1 HA) HT). }
  split; [by eapply kinv_tcb|done|done|by rewrite HpA|].
  destruct Hu as [Hu|?]; [left|by right]. exists a, A'. split; [done|]. split; [done|].
  intros u U. apply (urgent_tcb st t T T' (priority A')); [done..|by rewrite HpA].
Qed.

(** Someone can run after the running thread has left its run queue. *)
Lemma pop_ready Q st t T :
  running Q st t T → other_ready st t → ∃ w p, w ∈ rq_pop Q (priority T) (RUNQUEUE p).
Proof.
  intros [Hk Ha HT Hhd _] (w & W & Hne & [HW HWs]). pose proof (k_ready _ _ Hk _ _ HW HWs) as Hin.
  exists w, (priority W). unfold rq_pop.
  destruct (decide (RUNQUEUE (priority T) = RUNQUEUE (priority W))) as [E|E];
    [|by rewrite fn_lookup_insert_ne]. rewrite E, fn_lookup_insert. rewrite E in Hhd.
  destruct (Q (RUNQUEUE (priority W))); [done|]. simplify_eq/=. set_solver.
Qed.

Lemma queued_ready Q st w p : kinv Q st → w ∈ Q (RUNQUEUE p) → ∃ u U, ready st u U.
Proof. intros Hk Hin. destruct (k_member _ _ Hk _ _ Hin) as (W & HW & _ & Hs). by exists w, W. Qed.

(** Environments that keep the running thread. *)
Lemma running_env Q st st' t T :
  running Q st t T →
  heap st' = heap st → tcbs st' = tcbs st → sched_threads st' = sched_threads st →
  sched_num_threads st' = sched_num_threads st →
  sched_active_thread st' = sched_active_thread st →
  sched_active_pid st' = sched_active_pid st →
  runqueue_bitcache st' = runqueue_bitcache st →
  in_isr st' = in_isr st → sched_context_switch_request st' = sched_context_switch_request st →
  running Q st' t T.
Proof.
  intros [Hk Ha HT Hhd Hd] H1 H2 H3 H4 H5 H6 H7 H8 H9.
  assert (∀ u U, ready st' u U ↔ ready st u U) as Hr by (intros; by apply ready_env).
  split; [by eapply kinv_env|by rewrite H5|by apply Hr|done|].
  destruct Hd as [(a & A & Ha' & HA & Hu)|[? ?]]; [left|right; by rewrite H8, H9].
  exists a, A. split; [by rewrite H5|]. split; [by apply Hr|]. intros u U HU. apply (Hu u). by apply Hr.
Qed.

Ltac renv H := (eapply (running_env _ _ _ _ _ H); reflexivity).

(** The thread that runs is in the thread table under the active PID. *)
Lemma running_pid Q st t T :
  running Q st t T → sched_active_pid st = pid T ∧ KERNEL_PID_FIRST <= pid T <= KERNEL_PID_LAST.
Proof.
  intros [Hk Ha [HT _] _ _]. destruct (k_active _ _ Hk _ Ha) as (T' & HT' & Hp).
  rewrite (thr_fun _ _ _ _ HT' HT) in Hp. split; [done|]. by apply (thr_pid _ _ _ _ Hk) in HT.
Qed.

Lemma sched_threads_at_thr Q st st' u U :
  kinv Q st → thr st u U → sched_threads st' = sched_threads st →
  sched_threads_at (pid U) st' = Ok (Some u, st').
Proof.
  intros Hk HU Hth. pose proof (thr_pid _ _ _ _ Hk HU) as Hp.
  rewrite sched_threads_at_Ok by klia. rewrite Hth. by rewrite (proj2 HU).
Qed.

(** A woken thread that is not more urgent leaves the running thread running. *)
Lemma wake_running Q Q1 st t T u U s st1 :
  running Q st t T → thr st u U → t ≠ u →
  tcbs st1 = <[u := set_status s U]> (tcbs st) → sched_threads st1 = sched_threads st →
  sched_active_thread st1 = sched_active_thread st → in_isr st1 = in_isr st →
  sched_context_switch_request st1 = sched_context_switch_request st →
  kinv Q1 st1 → head (Q1 (RUNQUEUE (priority T))) = Some t → priority T <= priority U →
  running Q1 st1 t T.
Proof.
  intros Hr HU Hne Htc Hth Ha Hisr Hreq Hk1 Hhd Hle. pose proof (run_urgent _ _ _ _ Hr) as Hurg.
  destruct Hr as [Hk Hact HT _ _].
  assert (∀ v V, ready st1 v V ↔ ready (upd3 st (heap st) (runqueue_bitcache st)
    (<[u := set_status s U]> (tcbs st))) v V) as Hrdy by (intros; by apply ready_env).
  assert (ready st1 t T) as HT1 by (apply Hrdy, ready_upd3; [done|]; by right).
  split; [done|congruence|done|done|].
  destruct Hurg as [Hurg|[? ?]]; [left|right; by rewrite Hisr, Hreq].
  exists t, T. split; [congruence|]. split; [done|]. intros v V HV. apply Hrdy in HV.
  pose proof (urgent_upd3 st (heap st) (runqueue_bitcache st) u U s _ HU Hurg v V HV). lia.
Qed.
