(* ===== verification/Thread.v ===== *)
(** * core/thread.c and core/kernel_init.c: threads

    The operations on threads, and the theorems that they keep the kernel
    invariant and always leave the most urgent ready thread running. *)

From S2P Require Import Prelude LinkedList Cib Bitarithm Kernel KernelInv.
Open Scope Z_scope.
Implicit Types (Q : node → list Z) (st : kstate) (T : thread_t).

Definition EINVAL : Z := 22.
Definition EOVERFLOW : Z := 75.

Definition THREAD_CREATE_SLEEPING : Z := 1.
Definition THREAD_CREATE_WOUT_YIELD : Z := 4.
Definition THREAD_CREATE_STACKTEST : Z := 8.

(** [sizeof(thread_t)] and the alignments on a 32-bit target in the modelled
    configuration. *)
Definition sizeof_thread_t : Z := 40.
Definition align_of_ptr : Z := 4.
Definition align_of_thread_t : Z := 4.

Definition thread_get (pid : Z) : M (option Z) :=
  if pid_is_valid pid then sched_threads_at pid else mret None.

Definition thread_getstatus (pid : Z) : M Z :=
  t ← thread_get pid;
  match t with
  | Some t => T ← get_thread t; mret (status T)
  | None => mret STATUS_NOT_FOUND
  end.

Definition thread_sleep : M unit :=
  isr ← irq_is_in;
  if (isr : bool) then mret tt
  else
    state ← irq_disable;
    a ← gets sched_active_thread;
    a ← nonnull a;
    _ ← sched_set_status a STATUS_SLEEPING;
    _ ← irq_restore state;
    thread_yield_higher.

Definition thread_wakeup (pid : Z) : M Z :=
  old_state ← irq_disable;
  other_thread ← thread_get pid;
  match other_thread with
  | None => _ ← irq_restore old_state; mret STATUS_NOT_FOUND
  | Some other =>
      T ← get_thread other;
      if status T =? STATUS_SLEEPING then
        _ ← sched_set_status other STATUS_RUNNING;
        _ ← irq_restore old_state;
        T ← get_thread other;
        _ ← sched_switch (priority T);
        mret 1
      else _ ← irq_restore old_state; mret STATUS_NOT_FOUND
  end.

Definition thread_yield : M unit :=
  old_state ← irq_disable;
  a ← gets sched_active_thread;
  me ← nonnull a;
  T ← get_thread me;
  _ ← when (STATUS_ON_RUNQUEUE <=? status T)
        (rq ← runqueue_at (priority T);
         modify (λ st, set_heap (clist_lpoprpush (heap st) rq) st));
  _ ← irq_restore old_state;
  thread_yield_higher.

Fixpoint thread_add_to_list_loop (fuel : nat) (list : node) (my_prio : Z) (new_node : node) : M unit :=
  match fuel with
  | O => fault_ OutOfFuel
  | S fuel =>
      h ← gets heap;
      match h !! list with
      | Some nxt =>
          list_entry ← container_of nxt;
          T ← get_thread list_entry;
          if my_prio <? priority T
          then modify (λ st, set_heap (list_add (heap st) list new_node) st)
          else thread_add_to_list_loop fuel nxt my_prio new_node
      | None => modify (λ st, set_heap (list_add (heap st) list new_node) st)
      end
  end.

Definition thread_add_to_list (list : node) (thread : Z) : M unit :=
  T ← get_thread thread;
  _ ← massert (status T <? STATUS_ON_RUNQUEUE);
  h ← gets heap;
  thread_add_to_list_loop (S (size h)) list (priority T) (RQ_ENTRY thread).

(** [for (i = KERNEL_PID_FIRST; i <= KERNEL_PID_LAST; ++i)]: the first free
    slot, [KERNEL_PID_UNDEF] when there is none. *)
Fixpoint first_free_pid (n : nat) (i : Z) (threads : gmap Z Z) : Z :=
  match n with
  | O => KERNEL_PID_UNDEF
  | S n => if bool_decide (threads !! i = None) then i else first_free_pid n (i + 1) threads
  end.

(** The stack base and the size left below the control block. *)
Definition stack_layout (stack stacksize : Z) : Z * Z :=
  let misalignment := stack mod align_of_ptr in
  let '(stack, stacksize) :=
    if negb (misalignment =? 0)
    then (stack + (align_of_ptr - misalignment), s32 (stacksize - (align_of_ptr - misalignment)))
    else (stack, stacksize) in
  let stacksize := s32 (stacksize - sizeof_thread_t) in
  (stack, s32 (stacksize - stacksize mod align_of_thread_t)).

Definition new_thread (sp prio pid flags0 : Z) : thread_t :=
  Thread sp 0 prio pid flags0 WNull (CIB_INIT 0) None.

(** [thread_stack_init] is the CPU's; [priority] is a [char] (unsigned on the
    modelled targets). The function does not initialise the [flags] member:
    [flags0] is what the stack memory holds in its place. *)
Definition thread_create (thread_stack_init : Z → Z → Z → Z → Z) (flags0 : Z)
    (stack stacksize prio flags function arg : Z) : M Z :=
  if SCHED_PRIO_LEVELS <=? prio then mret (- EINVAL)
  else
    let '(stack, stacksize) := stack_layout stack stacksize in
    let cb := stack + stacksize in
    state ← irq_disable;
    threads ← gets sched_threads;
    let pid := first_free_pid (Z.to_nat MAXTHREADS) KERNEL_PID_FIRST threads in
    if pid =? KERNEL_PID_UNDEF then _ ← irq_restore state; mret (- EOVERFLOW)
    else
      _ ← modify (λ st, set_sched_threads (<[pid := cb]> (sched_threads st)) st);
      _ ← modify (λ st, set_tcbs (<[cb := new_thread (thread_stack_init function arg stack stacksize)
                                            prio pid flags0]> (tcbs st)) st);
      _ ← modify (λ st, set_heap (set_next (set_next (heap st) (RQ_ENTRY cb) None)
                                           (MSG_WAITERS cb) None) st);
      _ ← modify (λ st, set_sched_num_threads (sched_num_threads st + 1) st);
      if negb (Z.land flags THREAD_CREATE_SLEEPING =? 0) then
        _ ← sched_set_status cb STATUS_SLEEPING;
        _ ← irq_restore state;
        mret pid
      else
        _ ← sched_set_status cb STATUS_PENDING;
        if Z.land flags THREAD_CREATE_WOUT_YIELD =? 0 then
          _ ← irq_restore state;
          _ ← sched_switch prio;
          mret pid
        else _ ← irq_restore state; mret pid.

(** The stacks of the first two threads are statically allocated. *)
Definition kernel_init (thread_stack_init : Z → Z → Z → Z → Z) (flags0 : Z)
    (idle_stack idle_size main_stack main_size idle_thread main_trampoline : Z) : M unit :=
  _ ← irq_disable;
  _ ← thread_create thread_stack_init flags0 idle_stack idle_size THREAD_PRIORITY_IDLE
        (Z.lor THREAD_CREATE_WOUT_YIELD THREAD_CREATE_STACKTEST) idle_thread 0;
  _ ← thread_create thread_stack_init flags0 main_stack main_size THREAD_PRIORITY_MAIN
        (Z.lor THREAD_CREATE_WOUT_YIELD THREAD_CREATE_STACKTEST) main_trampoline 0;
  cpu_switch_context_exit.

(** ** Wait queues *)

Lemma thread_add_to_list_loop_spec st t l fuel list :
  is_list (heap st) list (RQ_ENTRY <$> l) → (length l < fuel)%nat →
  RQ_ENTRY t ∉ list :: (RQ_ENTRY <$> l) →
  (∀ u, u ∈ l → is_Some (tcbs st !! u)) →
  ∃ h', thread_add_to_list_loop fuel list (prio_of st t) (RQ_ENTRY t) st = Ok (tt, set_heap h' st) ∧
    is_list h' list (RQ_ENTRY <$> insert_by (prio_of st) t l) ∧
    ∀ y, y ≠ list → y ∉ RQ_ENTRY <$> (t :: l) → h' !! y = heap st !! y.
Proof.
  revert fuel list. induction l as [|u l IH]; intros [|fuel] list Hl Hfuel Ht Htcb; try (simpl in Hfuel; lia).
  - exists (list_add (heap st) list (RQ_ENTRY t)). simpl. ksimpl.
    pose proof Hl as (_ & _ & He). simpl in He. rewrite He. split; [done|]. split.
    + by apply (list_add_spec _ _ [] []).
    + intros y Hy Hin. unfold list_add. rewrite !set_next_other; [done|set_solver|done].
  - destruct (Htcb u) as [U HU]; [set_solver|].
    pose proof Hl as (Hnd & [Hu Hp] & He). simpl thread_add_to_list_loop. ksimpl. rewrite Hu. ksimpl.
    erewrite bind_Ok by (by apply get_thread_Ok). simpl insert_by.
    assert (priority U = prio_of st u) as -> by (unfold prio_of; by rewrite HU).
    destruct (prio_of st t <? prio_of st u) eqn:Hlt.
    + exists (list_add (heap st) list (RQ_ENTRY t)). split; [done|]. split.
      * rewrite fmap_cons. by apply (list_add_spec (heap st) list [] (RQ_ENTRY <$> u :: l)).
      * intros y Hy Hin. unfold list_add. rewrite !set_next_other; [done|set_solver|done].
    + destruct (IH fuel (RQ_ENTRY u)) as (h' & -> & Hl' & Hfr).
      { by eapply is_list_sub. } { simpl in Hfuel. lia. } { set_solver. } { set_solver. }
      apply NoDup_cons in Hnd as [Hn _].
      assert (list ∉ RQ_ENTRY <$> t :: l) by set_solver.
      exists h'. split; [done|]. rewrite fmap_cons. split.
      * eapply is_list_cons; [by rewrite fmap_cons in Hl| done | |].
        -- apply Hfr; [set_solver|done].
        -- intros (v & -> & Hv)%list_elem_of_fmap. apply elem_of_insert_by in Hv. set_solver.
      * intros y Hy Hin. apply Hfr; set_solver.
Qed.

(** A thread that is on no list is queued behind the waiters of the same or a
    higher priority. *)
Lemma thread_add_to_list_spec Q st q t T :
  kinv Q st → wait_queue q = true → is_list (heap st) q (RQ_ENTRY <$> Q q) →
  thr st t T → (∀ q', t ∉ Q q') → status T < STATUS_ON_RUNQUEUE → queue_status q T →
  ∃ h', thread_add_to_list q t st = Ok (tt, set_heap h' st) ∧
        kinv (<[q := insert_by (prio_of st) t (Q q)]> Q) (set_heap h' st).
Proof.
  intros Hk Hq Hl HT Hn Hs Hqs. pose proof HT as [HTl _].
  destruct (thread_add_to_list_loop_spec st t (Q q) (S (size (heap st))) q) as (h' & E & Hl' & Hfr).
  - done.
  - destruct Hl as (Hnd & Hp & _). apply path_length in Hp; [|done]. rewrite length_fmap in Hp. lia.
  - intros [E|Hin%elem_of_RQ]%elem_of_cons; [by subst q|by apply Hn in Hin].
  - intros u Hu. destruct (k_member _ _ Hk _ _ Hu) as (U & [HU _] & _). by exists U.
  - exists h'. split.
    + unfold thread_add_to_list. erewrite bind_Ok by (by apply get_thread_Ok).
      assert ((status T <? STATUS_ON_RUNQUEUE) = true) as -> by lia. ksimpl.
      unfold prio_of in E. by rewrite HTl in E.
    + apply kinv_queue; [done|done|by apply is_list_wait_rep| | |].
      * intros y Hy Hin. apply Hfr; [done|]. intros (v & -> & Hv)%list_elem_of_fmap.
        apply Hin. apply elem_of_RQ, elem_of_app.
        apply elem_of_cons in Hv as [->|Hv]; [right; apply elem_of_insert_by; by left|by left].
      * intros u [->|Hu]%elem_of_insert_by; [right|by left]. split; [done|]. by exists T.
      * apply insert_by_sorted. by apply (k_sorted _ _ Hk).
Qed.

(** ** Looking up, waking and sleeping *)

Lemma thread_get_thr Q st u U : kinv Q st → thr st u U → thread_get (pid U) st = Ok (Some u, st).
Proof.
  intros Hk HU. pose proof (thr_pid _ _ _ _ Hk HU) as Hp. unfold thread_get, pid_is_valid.
  assert (((KERNEL_PID_FIRST <=? pid U) && (pid U <=? KERNEL_PID_LAST))%bool = true) as -> by lia.
  rewrite sched_threads_at_Ok; [by rewrite (proj2 HU)|]. klia.
Qed.

Lemma thread_get_spec Q st p :
  kinv Q st → ∃ o, thread_get p st = Ok (o, st) ∧
    match o with
    | Some u => ∃ U, thr st u U ∧ pid U = p
    | None => ∀ u U, thr st u U → pid U ≠ p
    end.
Proof.
  intros Hk. unfold thread_get. destruct (pid_is_valid p) eqn:Hv; unfold pid_is_valid in Hv.
  - exists (sched_threads st !! p).
    rewrite sched_threads_at_Ok by klia. split; [done|].
    destruct (sched_threads st !! p) as [u|] eqn:E.
    + destruct (k_threads _ _ Hk _ _ E) as (_ & U & HU & <- & _). exists U. by repeat split.
    + intros u U [_ HU] <-. congruence.
  - exists None. split; [done|]. intros u U HU <-. apply (thr_pid _ _ _ _ Hk) in HU. lia.
Qed.

(** A sleeping thread is woken: it is appended to its run queue, and it runs at
    once if it is more urgent than the caller. *)
Lemma thread_wakeup_sleeping Q st t T u U :
  running Q st t T → thr st u U → status U = STATUS_SLEEPING →
  ∃ st', thread_wakeup (pid U) st = Ok (1, st') ∧ settled (rq_push Q (priority U) u) st'.
Proof.
  intros Hr HU Hs. pose proof (run_kinv _ _ _ _ Hr) as Hk.
  assert (status U < STATUS_ON_RUNQUEUE) as Hb by (rewrite Hs; done).
  assert (∀ q, u ∉ Q q) as Hn by (eapply unlisted; [done..|]; rewrite Hs; right; by left).
  set (st0 := set_irq_enabled false st). assert (kinv Q st0) as Hk0 by kenv Hk.
  destruct (sched_set_status_wake Q st0 u U STATUS_RUNNING) as (h & b & E & Hk1 & _); [done..|].
  set (st1 := set_irq_enabled (irq_enabled st) (upd3 st0 h b (<[u := set_status STATUS_RUNNING U]> (tcbs st)))).
  destruct (wake_switch Q (rq_push Q (priority U) u) st t T u U STATUS_RUNNING st1)
    as (st2 & E2 & Hset & _); try done.
  { by eapply running_ne. } { kenv Hk1. } { apply rq_push_head. apply Hr. }
  exists st2. split; [|done]. unfold thread_wakeup. ksimpl. fold st0.
  kstep (thread_get_thr Q st0).
  kget HU. rewrite Hs, Z.eqb_refl.
  kstep E. ksimpl.
  kget lookup_insert_eq. kproj.
  by kstep E2.
Qed.

(** Waking anything else changes nothing. *)
Lemma thread_wakeup_other Q st p :
  kinv Q st → (∀ u U, thr st u U → pid U = p → status U ≠ STATUS_SLEEPING) →
  thread_wakeup p st = Ok (STATUS_NOT_FOUND, st).
Proof.
  intros Hk Hp. unfold thread_wakeup. ksimpl.
  assert (kinv Q (set_irq_enabled false st)) as Hk0 by kenv Hk.
  destruct (thread_get_spec Q _ p Hk0) as (o & E & Ho). rewrite (bind_Ok _ _ _ _ _ E).
  destruct o as [u|]; [|by destruct st].
  destruct Ho as (U & HU & Hpid). kget HU.
  rewrite (proj2 (Z.eqb_neq _ _)) by (by apply (Hp u)). by destruct st.
Qed.

(** The caller blocks: it leaves its run queue and another thread runs. *)
Lemma thread_sleep_running Q st t T :
  running Q st t T → in_isr st = false → other_ready st t →
  ∃ st' T', thread_sleep st = Ok (tt, st') ∧ settled (rq_pop Q (priority T)) st' ∧
    tcbs st' !! t = Some T' ∧ T' = set_status STATUS_SLEEPING T.
Proof.
  intros Hr Hisr Ho. set (st0 := set_irq_enabled false st).
  pose proof Hr as [Hk Ha [HT HTs] Hhd _]. assert (kinv Q st0) as Hk0 by kenv Hk.
  destruct (sched_set_status_block Q st0 t T STATUS_SLEEPING) as (h & b & E & Hk1 & _); [done..|].
  set (st1 := set_irq_enabled (irq_enabled st) (upd3 st0 h b (<[t := set_status STATUS_SLEEPING T]> (tcbs st)))).
  destruct (yield_thread (rq_pop Q (priority T)) st1) as (st2 & E2 & Hset & Hy).
  { kenv Hk1. } { done. } { by eapply (other_ready_upd st). }
  destruct (yielded_tcb st1 st2 t (set_status STATUS_SLEEPING T) Hy) as (s & Hs & Hss & _).
  { apply lookup_insert_eq. }
  exists st2, (set_status STATUS_SLEEPING T). split; [|split; [done|split; [|done]]].
  - unfold thread_sleep. ksimpl. rewrite Hisr. ksimpl. rewrite Ha. ksimpl.
    erewrite bind_Ok by exact E. by ksimpl.
  - rewrite Hs. rewrite Hss by done. done.
Qed.

(** ** Yielding *)

Lemma kinv_rotate Q st p t l :
  kinv Q st → 0 <= p < 16 → Q (RUNQUEUE p) = t :: l →
  kinv (<[RUNQUEUE p := l ++ [t]]> Q)
       (set_heap (clist_lpoprpush (heap st) (RUNQUEUE p)) st).
Proof.
  intros Hk Hp EQ. pose proof (runqueue_rep _ _ _ Hk Hp) as Hcl. rewrite EQ, fmap_cons in Hcl.
  pose proof (clist_lpoprpush_spec _ _ _ _ Hcl) as Hcl'.
  assert (∀ q u, u ∈ <[RUNQUEUE p := l ++ [t]]> Q q ↔ u ∈ Q q) as Hin.
  { intros q u. destruct (decide (RUNQUEUE p = q)) as [<-|];
      rewrite ?fn_lookup_insert, ?fn_lookup_insert_ne, ?EQ by done; set_solver. }
  destruct (queues_update Q (heap st) (clist_lpoprpush (heap st) (RUNQUEUE p)) (RUNQUEUE p) (l ++ [t]))
    as [Hrep2 Hdis2]; [apply k_rep, Hk|apply (k_disj _ _ Hk)| | | |done|].
  - simpl. rewrite decide_True by done. by rewrite fmap_app.
  - intros y Hy _. unfold clist_lpoprpush. case_match; [|done]. by apply set_next_other.
  - intros u q' Hu Hu'. apply (k_disj _ _ Hk q' (RUNQUEUE p) u); [done|]. rewrite EQ. set_solver.
  - pose proof Hk as [H1 H2 H3 H4 H5 H6 H7 H8 H9]. split; try done.
    + intros q u Hu. apply H4. by apply Hin.
    + intros u U HU Hs. apply Hin. by apply H5.
    + apply bits_same; [done|done|]. rewrite EQ. by destruct l.
    + by apply sorted_insert_other.
Qed.

(** Who runs: the front of the first non-empty run queue. *)
Lemma settled_active Q st p t :
  settled Q st → in_isr st = false → head (Q (RUNQUEUE p)) = Some t →
  (∀ p', 0 <= p' < p → Q (RUNQUEUE p') = []) → sched_active_thread st = Some t.
Proof.
  intros (a & A & Hr) Hisr Hhd Hlow. destruct Hr as [Hk Ha HA HhA Hd].
  destruct Hd as [(a' & A' & Ha' & HA' & Hu)|[? _]]; [|congruence]. simplify_eq.
  rewrite (thr_fun _ _ _ _ (proj1 HA') (proj1 HA)) in *. clear HA'.
  destruct (k_member _ _ Hk (RUNQUEUE p) t) as (T & HT & <- & HTs); [by apply head_Some_elem_of|].
  assert (priority A <= priority T) as Hle by (apply (Hu t); by split).
  destruct (decide (priority A = priority T)) as [E|]; [rewrite E in HhA; congruence|].
  pose proof (thr_ok _ _ _ _ Hk (proj1 HA)) as [? _]. rewrite Hlow in HhA by lia. done.
Qed.

(** The run queues below the priority of the running thread are empty. *)
Lemma running_lower_empty Q st t T p :
  running Q st t T → in_isr st = false → 0 <= p < priority T → Q (RUNQUEUE p) = [].
Proof.
  intros Hr Hisr Hp. destruct (run_urgent _ _ _ _ Hr) as [Hu|[? _]]; [|congruence].
  destruct (Q (RUNQUEUE p)) as [|u l] eqn:EQ; [done|].
  destruct (k_member _ _ (run_kinv _ _ _ _ Hr) (RUNQUEUE p) u) as (U & HU & Hpu & HUs).
  { rewrite EQ. set_solver. }
  specialize (Hu u U (conj HU HUs)). lia.
Qed.

Lemma thread_yield_running Q st t T l :
  running Q st t T → in_isr st = false → Q (RUNQUEUE (priority T)) = t :: l →
  ∃ st', thread_yield st = Ok (tt, st') ∧
    settled (<[RUNQUEUE (priority T) := l ++ [t]]> Q) st' ∧
    sched_active_thread st' = head (l ++ [t]) ∧ in_isr st' = in_isr st.
Proof.
  intros Hr Hisr EQ. pose proof Hr as [Hk Ha [HT HTs] _ _].
  pose proof (thr_ok _ _ _ _ Hk HT) as [Hp _]. kconst.
  pose proof (kinv_rotate _ _ _ _ _ Hk Hp EQ) as Hk1.
  destruct (yield_thread (<[RUNQUEUE (priority T) := l ++ [t]]> Q)
    (set_heap (clist_lpoprpush (heap st) (RUNQUEUE (priority T))) st)) as (st2 & E2 & Hset & Hy).
  { kenv Hk1. } { done. } { by exists t, T. }
  pose proof (yielded_env _ _ Hy) as (_ & _ & _ & _ & _ & Hi & _).
  exists st2. split; [|split; [done|split; [|by rewrite Hi]]].
  - unfold thread_yield. ksimpl. rewrite Ha. ksimpl. kget HT.
    assert ((STATUS_ON_RUNQUEUE <=? status T) = true) as -> by klia. ksimpl.
    kstep (runqueue_at_Ok _ _ Hp). ksimpl. rewrite <- E2. by destruct st.
  - destruct (head (l ++ [t])) as [u|] eqn:Hhd; [|by destruct l].
    apply (settled_active (<[RUNQUEUE (priority T) := l ++ [t]]> Q) st2 (priority T)); [done|by rewrite Hi| |].
    + by rewrite fn_lookup_insert.
    + intros p' Hp'. rewrite fn_lookup_insert_ne by (intros [= ?]; lia).
      by eapply running_lower_empty.
Qed.

(** ** Creating threads *)

Lemma first_free_pid_spec n i (m : gmap Z Z) :
  let p := first_free_pid n i m in
  1 <= i →
  (p = KERNEL_PID_UNDEF ∧ ∀ k, i <= k < i + Z.of_nat n → is_Some (m !! k)) ∨
  (i <= p < i + Z.of_nat n ∧ m !! p = None ∧ ∀ k, i <= k < p → is_Some (m !! k)).
Proof.
  revert i. induction n as [|n IH]; intros i p Hi; [left; split; [done|lia]|].
  subst p. simpl. case_bool_decide as E; [right; split; [lia|split; [done|lia]]|].
  assert (is_Some (m !! i)) as Hs by (by destruct (m !! i)).
  destruct (IH (i + 1)) as [[-> Hall]|(Hp & Hnone & Hall)]; [lia|left|right].
  - split; [done|]. intros k Hk. destruct (decide (k = i)) as [->|]; [done|apply Hall; lia].
  - split; [lia|]. split; [done|]. intros k Hk.
    destruct (decide (k = i)) as [->|]; [done|apply Hall; lia].
Qed.

(** The state after the control block at [cb] was filled in. *)
Definition created st (cb : Z) T : kstate :=
  set_sched_num_threads (sched_num_threads st + 1)
    (set_heap (set_next (set_next (heap st) (RQ_ENTRY cb) None) (MSG_WAITERS cb) None)
       (set_tcbs (<[cb := T]> (tcbs st)) (set_sched_threads (<[pid T := cb]> (sched_threads st)) st))).

(** [cb] is no thread's control block, and nobody waits for it. *)
Definition fresh_tcb Q st (cb : Z) : Prop :=
  (∀ p, sched_threads st !! p ≠ Some cb) ∧ Q (MSG_WAITERS cb) = [].

Lemma created_thr st cb T u U :
  (∀ p, sched_threads st !! p ≠ Some cb) → sched_threads st !! pid T = None →
  thr (created st cb T) u U ↔ (u = cb ∧ U = T) ∨ (u ≠ cb ∧ thr st u U).
Proof.
  intros Hf Hp. unfold thr, created. simpl. destruct (decide (u = cb)) as [->|Hne].
  - rewrite lookup_insert_eq. split.
    + intros [[= <-] _]. by left.
    + intros [[_ ->]|[? _]]; [|done]. by rewrite lookup_insert_eq.
  - rewrite lookup_insert_ne by done. split.
    + intros [HU Hu]. right. split; [done|]. split; [done|].
      destruct (decide (pid T = pid U)) as [E|]; [|by rewrite lookup_insert_ne in Hu].
      rewrite E, lookup_insert_eq in Hu. congruence.
    + intros [[? _]|(_ & HU & Hu)]; [done|]. split; [done|].
      rewrite lookup_insert_ne; congruence.
Qed.

Lemma created_kinv Q st cb T :
  kinv Q st → fresh_tcb Q st cb → sched_threads st !! pid T = None →
  KERNEL_PID_FIRST <= pid T <= KERNEL_PID_LAST → 0 <= priority T < SCHED_PRIO_LEVELS →
  status T = 0 → kinv Q (created st cb T).
Proof.
  intros Hk [Hf Hmw] Hp Hpid Hprio Hst.
  pose proof (λ u U, created_thr st cb T u U Hf Hp) as Hthr.
  assert (∀ q, cb ∉ Q q) as Hcb.
  { intros q Hin. destruct (k_member _ _ Hk _ _ Hin) as (U & [_ HU] & _). by apply Hf in HU. }
  assert (∀ u q, u ∈ Q q → u ≠ cb) as Hne by (intros u q Hin ->; by apply Hcb in Hin).
  pose proof Hk as [H1 H2 H3 H4 H5 H6 H7 H8 H9]. split; try done.
  - intros q. destruct (decide (q = MSG_WAITERS cb)) as [->|Hq].
    + rewrite Hmw. simpl. apply is_list_nil. by rewrite set_next_same.
    + apply (queue_rep_frame (heap st)); [done| |].
      * destruct q; try done; simpl; rewrite !set_next_other; congruence.
      * intros u Hu. simpl. rewrite !set_next_other; [done| |done]. intros [= <-]. by apply Hcb in Hu.
  - simpl. intros p u Hu. destruct (decide (pid T = p)) as [<-|].
    + rewrite lookup_insert_eq in Hu. injection Hu as <-. split; [done|]. exists T.
      rewrite lookup_insert_eq. split; [done|]. split; [done|]. split; [done|klia].
    + rewrite lookup_insert_ne in Hu by done. destruct (H3 _ _ Hu) as (? & U & HU & ? & ?).
      split; [done|]. exists U. rewrite lookup_insert_ne; [done|]. intros <-. by apply Hf in Hu.
  - intros q u Hu. destruct (H4 _ _ Hu) as (U & HU & ?). exists U. split; [|done].
    apply Hthr. right. split; [by eapply Hne|done].
  - intros u U [[-> ->]|[_ HU]]%Hthr Hs; [klia|by apply H5].
  - intros q Hq. apply (sorted_by_ext (prio_of st)); [|by apply H7].
    intros u Hu. unfold prio_of. simpl. rewrite lookup_insert_ne; [done|]. intros <-. by apply Hcb in Hu.
  - simpl. rewrite H8, map_size_insert_None by done. lia.
  - simpl. intros a Ha. destruct (H9 _ Ha) as (A & HA & ?). exists A. split; [|done].
    apply Hthr. right. split; [|done]. intros ->. destruct HA as [_ HA]. by apply Hf in HA.
Qed.

(** Where the control block goes and what it holds. *)
Definition tcb_of (thread_stack_init : Z → Z → Z → Z → Z) (flags0 stack stacksize prio function arg p : Z)
  : Z * thread_t :=
  let '(stack, stacksize) := stack_layout stack stacksize in
  (stack + stacksize, new_thread (thread_stack_init function arg stack stacksize) prio p flags0).

(** The part of [thread_create] before the new thread is made ready. *)
Lemma thread_create_unfold tsi flags0 stack stacksize prio flags function arg st :
  let p := first_free_pid (Z.to_nat MAXTHREADS) KERNEL_PID_FIRST (sched_threads st) in
  let '(cb, T) := tcb_of tsi flags0 stack stacksize prio function arg p in
  0 <= prio < SCHED_PRIO_LEVELS → p ≠ KERNEL_PID_UNDEF →
  thread_create tsi flags0 stack stacksize prio flags function arg st =
    (if negb (Z.land flags THREAD_CREATE_SLEEPING =? 0) then
       _ ← sched_set_status cb STATUS_SLEEPING; _ ← irq_restore (irq_enabled st); mret p
     else
       _ ← sched_set_status cb STATUS_PENDING;
       if Z.land flags THREAD_CREATE_WOUT_YIELD =? 0 then
         _ ← irq_restore (irq_enabled st); _ ← sched_switch prio; mret p
       else _ ← irq_restore (irq_enabled st); mret p) (created (set_irq_enabled false st) cb T).
Proof.
  intros p. unfold tcb_of, thread_create. destruct (stack_layout stack stacksize) as [s z].
  intros Hprio Hp. assert ((SCHED_PRIO_LEVELS <=? prio) = false) as -> by lia. ksimpl.
  fold p. rewrite (proj2 (Z.eqb_neq _ _) Hp). by ksimpl.
Qed.

Lemma created_running Q st t T cb C :
  running Q st t T → fresh_tcb Q st cb → sched_threads st !! pid C = None →
  KERNEL_PID_FIRST <= pid C <= KERNEL_PID_LAST → 0 <= priority C < SCHED_PRIO_LEVELS →
  status C = 0 → running Q (created st cb C) t T.
Proof.
  intros Hr Hf Hp Hpid Hprio Hst. pose proof Hr as [Hk Ha HT Hhd Hd].
  pose proof (λ u U, created_thr st cb C u U (proj1 Hf) Hp) as Hthr.
  assert (∀ u U, ready (created st cb C) u U ↔ ready st u U) as Hrdy.
  { intros u U. unfold ready. rewrite Hthr. split.
    - intros [[[-> ->]|[_ HU]] Hs]; [klia|done].
    - intros [HU Hs]. split; [right|done]. split; [|done]. intros ->.
      destruct HU as [_ HU]. by apply (proj1 Hf) in HU. }
  split; [by apply created_kinv|done|by apply Hrdy|done|].
  destruct Hd as [(a & A & Ha' & HA & Hu)|?]; [left|by right].
  exists a, A. split; [done|]. split; [by apply Hrdy|]. intros u U HU. apply (Hu u). by apply Hrdy.
Qed.

Section Create.
Variables (tsi : Z → Z → Z → Z → Z) (flags0 stack stacksize prio flags function arg : Z).
Let p st := first_free_pid (Z.to_nat MAXTHREADS) KERNEL_PID_FIRST (sched_threads st).
Let cb st := (tcb_of tsi flags0 stack stacksize prio function arg (p st)).1.
Let C st := (tcb_of tsi flags0 stack stacksize prio function arg (p st)).2.

(** A free slot of [sched_threads]. *)
Definition free_pid st (k : Z) : Prop :=
  KERNEL_PID_FIRST <= k <= KERNEL_PID_LAST ∧ sched_threads st !! k = None.

Lemma p_free st : p st ≠ KERNEL_PID_UNDEF ↔ ∃ k, free_pid st k.
Proof.
  destruct (first_free_pid_spec (Z.to_nat MAXTHREADS) KERNEL_PID_FIRST (sched_threads st))
    as [[E Hall]|(Hp & Hn & _)]; [done| |]; fold (p st) in *.
  - split; [by rewrite E|]. intros (k & Hk & E'). destruct (Hall k) as [? ?]; [klia|congruence].
  - split; [|intros _; klia]. intros _. exists (p st). split; [klia|done].
Qed.

Lemma p_is_free st : p st ≠ KERNEL_PID_UNDEF → free_pid st (p st).
Proof.
  intros Hp. destruct (first_free_pid_spec (Z.to_nat MAXTHREADS) KERNEL_PID_FIRST (sched_threads st))
    as [[E _]|(Hb & Hn & _)]; [done|by fold (p st) in E|]. split; [fold (p st) in Hb; klia|done].
Qed.

Lemma C_fields st : pid (C st) = p st ∧ priority (C st) = prio ∧ status (C st) = 0 ∧
  msg_array (C st) = None ∧ wait_data (C st) = WNull.
Proof. unfold C, tcb_of. by destruct (stack_layout stack stacksize). Qed.

Lemma thread_create_rest st :
  0 <= prio < SCHED_PRIO_LEVELS → p st ≠ KERNEL_PID_UNDEF →
  thread_create tsi flags0 stack stacksize prio flags function arg st =
    (if negb (Z.land flags THREAD_CREATE_SLEEPING =? 0) then
       _ ← sched_set_status (cb st) STATUS_SLEEPING; _ ← irq_restore (irq_enabled st); mret (p st)
     else
       _ ← sched_set_status (cb st) STATUS_PENDING;
       if Z.land flags THREAD_CREATE_WOUT_YIELD =? 0 then
         _ ← irq_restore (irq_enabled st); _ ← sched_switch prio; mret (p st)
       else _ ← irq_restore (irq_enabled st); mret (p st))
      (created (set_irq_enabled false st) (cb st) (C st)).
Proof.
  pose proof (thread_create_unfold tsi flags0 stack stacksize prio flags function arg st) as E.
  cbv zeta in E. fold (p st) in E. unfold cb, C.
  destruct (tcb_of tsi flags0 stack stacksize prio function arg (p st)). exact E.
Qed.

Lemma create_kinv Q st :
  kinv Q st → 0 <= prio < SCHED_PRIO_LEVELS → p st ≠ KERNEL_PID_UNDEF → fresh_tcb Q st (cb st) →
  let st1 := created (set_irq_enabled false st) (cb st) (C st) in
  kinv Q st1 ∧ thr st1 (cb st) (C st) ∧ ∀ q, cb st ∉ Q q.
Proof.
  intros Hk Hprio Hp Hf st1. destruct (C_fields st) as (E1 & E2 & E3 & _).
  destruct (p_is_free _ Hp) as [Hpb Hpn]. rewrite <- E1 in Hpb, Hpn. split; [|split].
  - apply created_kinv; [kenv Hk|done|done|done|by rewrite E2|done].
  - apply created_thr; [apply Hf|done|by left].
  - intros q Hin. destruct (k_member _ _ Hk _ _ Hin) as (U & [_ HU] & _). by apply Hf in HU.
Qed.

(** Without a switch: the new thread sleeps, or waits in its run queue. *)
Lemma thread_create_quiet Q st :
  kinv Q st → 0 <= prio < SCHED_PRIO_LEVELS → p st ≠ KERNEL_PID_UNDEF → fresh_tcb Q st (cb st) →
  let sl := negb (Z.land flags THREAD_CREATE_SLEEPING =? 0) in
  sl = true ∨ Z.land flags THREAD_CREATE_WOUT_YIELD ≠ 0 →
  let s := if sl then STATUS_SLEEPING else STATUS_PENDING in
  ∃ h b, let st' := set_irq_enabled (irq_enabled st) (upd3 (created st (cb st) (C st)) h b
           (<[cb st := set_status s (C st)]> (tcbs (created st (cb st) (C st))))) in
    thread_create tsi flags0 stack stacksize prio flags function arg st = Ok (p st, st') ∧
    kinv (if sl then Q else rq_push Q prio (cb st)) st'.
Proof.
  intros Hk Hprio Hp Hf sl Hfl s. destruct (create_kinv _ _ Hk Hprio Hp Hf) as (Hk1 & HC & Hn).
  destruct (C_fields st) as (E1 & E2 & E3 & _). rewrite thread_create_rest by done.
  fold sl. subst s. destruct sl.
  - destruct (sched_set_status_reblock _ _ _ _ STATUS_SLEEPING Hk1 HC) as [E Hk2];
      [klia|klia|by intros q ?%Hn|].
    eexists _, _. split; [kstep E; by ksimpl|]. kenv Hk2.
  - destruct (sched_set_status_wake _ _ _ _ STATUS_PENDING Hk1 HC) as (h & b & E & Hk2 & _);
      [klia|done|klia|]. rewrite E2 in Hk2.
    exists h, b. split; [|kenv Hk2]. kstep E. destruct Hfl as [|Hfl]; [done|].
    rewrite (proj2 (Z.eqb_neq _ _) Hfl). by ksimpl.
Qed.

(** With the switch: the new thread runs at once if it is the most urgent. *)
Lemma thread_create_switch Q st t T :
  running Q st t T → 0 <= prio < SCHED_PRIO_LEVELS → p st ≠ KERNEL_PID_UNDEF →
  fresh_tcb Q st (cb st) → Z.land flags THREAD_CREATE_SLEEPING = 0 →
  Z.land flags THREAD_CREATE_WOUT_YIELD = 0 →
  ∃ st' s, thread_create tsi flags0 stack stacksize prio flags function arg st = Ok (p st, st') ∧
    settled (rq_push Q prio (cb st)) st' ∧ STATUS_ON_RUNQUEUE <= s ∧
    thr st' (cb st) (set_status s (C st)).
Proof.
  intros Hr Hprio Hp Hf Hfl1 Hfl2. pose proof (run_kinv _ _ _ _ Hr) as Hk.
  destruct (create_kinv _ _ Hk Hprio Hp Hf) as (Hk1 & HC & Hn).
  destruct (C_fields st) as (E1 & E2 & E3 & _). rewrite thread_create_rest by done.
  destruct (p_is_free _ Hp) as [Hpb Hpn]. rewrite <- E1 in Hpb, Hpn.
  rewrite Hfl1, Hfl2.
  destruct (sched_set_status_wake _ _ _ _ STATUS_PENDING Hk1 HC) as (h & b & E & Hk2 & _);
    [klia|done|klia|]. rewrite E2 in Hk2.
  assert (running Q (created (set_irq_enabled false st) (cb st) (C st)) t T) as Hr1.
  { apply created_running; [|done..|by rewrite E2|done]. destruct Hr as [? ? ? ? ?]. split; try done. kenv Hk. }
  set (st1 := set_irq_enabled (irq_enabled st) (upd3 (created (set_irq_enabled false st) (cb st) (C st)) h b
    (<[cb st := set_status STATUS_PENDING (C st)]> (tcbs (created (set_irq_enabled false st) (cb st) (C st)))))).
  destruct (wake_switch Q (rq_push Q prio (cb st)) _ t T (cb st) (C st) STATUS_PENDING st1 Hr1 HC)
    as (st2 & E4 & Hset & Hy); try done.
  { eapply running_ne; [done|done|klia]. } { kenv Hk2. } { apply rq_push_head, Hr. }
  rewrite E2 in E4.
  destruct (yielded_tcb st1 st2 (cb st) (set_status STATUS_PENDING (C st)) Hy) as (s & Hs & _ & Hss).
  { apply lookup_insert_eq. }
  exists st2, s. split; [|split; [done|split; [apply Hss; klia|split; [done|]]]].
  - change (0 =? 0) with true. cbn [negb]. cbv iota. kstep E. ksimpl. by kstep E4.
  - apply yielded_env in Hy as (_ & _ & _ & _ & _ & _ & ->). simpl. rewrite E1. apply lookup_insert_eq.
Qed.

Lemma thread_create_einval st :
  SCHED_PRIO_LEVELS <= prio →
  thread_create tsi flags0 stack stacksize prio flags function arg st = Ok (- EINVAL, st).
Proof.
  intros Hge. unfold thread_create. by assert ((SCHED_PRIO_LEVELS <=? prio) = true) as -> by lia.
Qed.

Lemma thread_create_eoverflow st :
  prio < SCHED_PRIO_LEVELS → p st = KERNEL_PID_UNDEF →
  thread_create tsi flags0 stack stacksize prio flags function arg st = Ok (- EOVERFLOW, st).
Proof.
  intros Hlt Hp. unfold thread_create. assert ((SCHED_PRIO_LEVELS <=? prio) = false) as -> by lia.
  destruct (stack_layout stack stacksize). ksimpl. fold (p st). rewrite Hp. by destruct st.
Qed.

End Create.

(** ** The end of a thread *)

(** Changing a status does not look at the thread table. *)
Lemma sched_set_status_table st t s h b tc m n :
  sched_set_status t s st = Ok (tt, upd3 st h b tc) →
  let f st := set_sched_num_threads n (set_sched_threads m st) in
  sched_set_status t s (f st) = Ok (tt, upd3 (f st) h b tc).
Proof.
  destruct st as [n0 c0 m0 a0 p0 b0 h0 tc0 ms0 mb0 rm0 i0 is0].
  unfold sched_set_status, mbind, M_bind, get_thread, runqueue_at, lift, gets, modify, upd3,
    modify_thread in *. simpl. destruct (tc0 !! t) as [T|] eqn:ET; [|done].
  destruct (STATUS_ON_RUNQUEUE <=? s), (STATUS_ON_RUNQUEUE <=? status T); simpl;
    try (rewrite ET; naive_solver);
    destruct ((0 <=? priority T) && (priority T <? SCHED_PRIO_LEVELS))%bool; simpl; try done;
    try (rewrite ET; naive_solver).
  destruct (clist_lpop h0 (RUNQUEUE (priority T))) as [[o h1]|]; simpl; [|done].
  destruct (h1 !! RUNQUEUE (priority T)); simpl; rewrite ET; naive_solver.
Qed.

Lemma kinv_remove Q st t T :
  kinv Q st → thr st t T → (∀ q, t ∉ Q q) →
  kinv Q (set_sched_active_thread None (set_sched_num_threads (sched_num_threads st - 1)
            (set_sched_threads (delete (pid T) (sched_threads st)) st))).
Proof.
  intros Hk HT Hn. pose proof Hk as [H1 H2 H3 H4 H5 H6 H7 H8 H9].
  assert (∀ u U, u ≠ t → thr st u U → delete (pid T) (sched_threads st) !! pid U = Some u) as Hdel.
  { intros u U Hne [HU Hu]. rewrite lookup_delete_ne; [done|]. intros E. rewrite <- E in Hu.
    destruct HT as [_ HT]. congruence. }
  split; try done.
  - simpl. intros p u [_ Hu]%lookup_delete_Some. by apply H3.
  - intros q u Hu. destruct (H4 _ _ Hu) as (U & HU & ?). exists U. split; [|done].
    split; [apply HU|]. apply Hdel; [|done]. intros ->. by apply Hn in Hu.
  - intros u U [HU Hu] Hs. simpl in Hu. apply lookup_delete_Some in Hu as [_ Hu]. by apply H5.
  - simpl. rewrite H8, map_size_delete, (proj2 HT).
    assert (0 < size (sched_threads st))%nat; [|simpl; lia].
    destruct (decide (size (sched_threads st) = 0%nat)) as [E|]; [|lia].
    apply map_size_empty_inv in E. destruct HT as [_ HT]. by rewrite E in HT.
Qed.

(** [cpu_switch_context_exit] starts the most urgent thread. *)
Lemma cpu_switch_context_exit_spec Q st :
  kinv Q st → sched_active_thread st = None → (∃ t T, ready st t T) →
  ∃ st', cpu_switch_context_exit st = Ok (tt, st') ∧ settled Q st' ∧ in_isr st' = in_isr st ∧
    sched_threads st' = sched_threads st ∧ irq_enabled st' = true.
Proof.
  intros Hk Ha Hr. destruct (sched_run_spec Q st Hk Hr) as (t & T & Hup & E & Hk').
  destruct (switched_settled _ _ _ _ Hk Hup Hk') as (u & U & Hset).
  exists (set_irq_enabled true (switched st t T)). split; [|split; [|split]].
  - unfold cpu_switch_context_exit. ksimpl. rewrite Ha, orb_true_r. ksimpl. kstep E. by ksimpl.
  - exists u, U. destruct Hset as [Hk2 ? ? ? ?]. split; try done. kenv Hk2.
  - unfold switched. by case_decide.
  - unfold switched. by case_decide.
Qed.

Lemma sched_task_exit_running Q st t T :
  running Q st t T → in_isr st = false → other_ready st t →
  ∃ st', sched_task_exit st = Ok (tt, st') ∧ settled (rq_pop Q (priority T)) st' ∧
    sched_threads st' = delete (pid T) (sched_threads st).
Proof.
  intros Hr Hisr Ho. pose proof Hr as [Hk Ha [HT HTs] Hhd _]. pose proof HT as [HTl HTp].
  destruct (k_active _ _ Hk _ Ha) as (T' & HT' & Hap). rewrite (thr_fun _ _ _ _ HT' HT) in Hap. clear T' HT'.
  pose proof (thr_pid _ _ _ _ Hk HT) as Hpid.
  set (st0 := set_irq_enabled false st). assert (kinv Q st0) as Hk0 by kenv Hk.
  destruct (sched_set_status_block Q st0 t T STATUS_STOPPED) as (h & b & E & Hk1 & _); [done..|].
  fold (rq_pop Q (priority T)) in Hk1.
  apply (sched_set_status_table _ _ _ _ _ _ (delete (pid T) (sched_threads st))
    (sched_num_threads st - 1)) in E.
  set (st1 := upd3 st0 h b (<[t := set_status STATUS_STOPPED T]> (tcbs st))) in *.
  assert (thr st1 t (set_status STATUS_STOPPED T)) as HT1 by (split; [apply lookup_insert_eq|done]).
  pose proof (kinv_remove _ _ _ _ Hk1 HT1 (rq_pop_notin _ _ _ _ Hk HT Hhd)) as Hk2.
  set (st2 := set_sched_active_thread None _) in Hk2.
  destruct (cpu_switch_context_exit_spec _ _ Hk2) as (st3 & E3 & Hset & _ & Hth & _); [done| |].
  { destruct Ho as (u & U & Hne & [HU HUs]). exists u, U. split; [|done].
    split; simpl; [rewrite lookup_insert_ne by done; apply HU|].
    rewrite lookup_delete_ne; [apply HU|]. intros Ep. destruct HU as [_ HU]. congruence. }
  exists st3. split; [|split; [done|done]].
  assert (0 <= pid T <= KERNEL_PID_LAST) as Hpid' by klia.
  unfold sched_task_exit. ksimpl. rewrite Hap. kstep (sched_threads_at_Ok _ (pid T)).
  ksimpl. rewrite Ha. ksimpl. kstep E. ksimpl. exact E3.
Qed.

(** ** Booting *)

(** The state of the kernel after the C runtime has zeroed its variables. *)
Definition reset_state (ms : gmap mptr msg_t) (mb : gmap Z mbox_t) (rm : gmap Z rmutex_t) : kstate :=
  Kstate 0 0 ∅ None KERNEL_PID_UNDEF 0 ∅ ∅ ms mb rm true false.

Definition no_queues : node → list Z := λ _, [].

Lemma reset_kinv ms mb rm : kinv no_queues (reset_state ms mb rm).
Proof.
  split; try done.
  - intros [ | | | | | | ]; simpl; try done; try (by apply is_list_nil).
    + case_decide; [by apply is_clist_nil|done].
    + by left.
  - intros q1 q2 t Hin. by apply elem_of_nil in Hin.
  - intros q t Hin. by apply elem_of_nil in Hin.
  - intros t T [HT _]. done.
  - split; [done|]. intros p Hp. simpl. rewrite Z.bits_0. done.
  - constructor.
Qed.

Section Boot.
Variables (tsi : Z → Z → Z → Z → Z) (flags0 idle_stack idle_size main_stack main_size idle main : Z).
Let wy := Z.lor THREAD_CREATE_WOUT_YIELD THREAD_CREATE_STACKTEST.
Let Idle := tcb_of tsi flags0 idle_stack idle_size THREAD_PRIORITY_IDLE idle 0 1.
Let Main := tcb_of tsi flags0 main_stack main_size THREAD_PRIORITY_MAIN main 0 2.

(** Creating one of the two first threads. *)
Lemma boot_create Q st stack size prio function k :
  kinv Q st → in_isr st = false → sched_active_thread st = None →
  first_free_pid (Z.to_nat MAXTHREADS) KERNEL_PID_FIRST (sched_threads st) = k → 0 < k →
  0 <= prio < SCHED_PRIO_LEVELS →
  let '(cb, C) := tcb_of tsi flags0 stack size prio function 0 k in
  fresh_tcb Q st cb →
  ∃ st', thread_create tsi flags0 stack size prio wy function 0 st = Ok (k, st') ∧
    kinv (rq_push Q prio cb) st' ∧ in_isr st' = false ∧ sched_active_thread st' = None ∧
    sched_threads st' = <[k := cb]> (sched_threads st) ∧
    ready st' cb (set_status STATUS_PENDING C) ∧ sched_num_threads st' = sched_num_threads st + 1.
Proof.
  intros Hk Hi Ha <- Hk0 Hprio. set (k := first_free_pid _ _ _) in *.
  destruct (tcb_of tsi flags0 stack size prio function 0 k) as [cb C] eqn:EC. intros Hf.
  destruct (thread_create_quiet tsi flags0 stack size prio wy function 0 Q st Hk Hprio)
    as (h & b & E & Hk'); [fold k; klia|by fold k; rewrite EC|by right|].
  fold k in E, Hk'. rewrite EC in E, Hk'. eexists. split; [exact E|]. split; [exact Hk'|].
  assert (pid C = k) as Hp.
  { unfold tcb_of in EC. destruct (stack_layout stack size). by simplify_eq. }
  simpl. rewrite Hp. repeat split; try done; simpl; [apply lookup_insert_eq|by rewrite Hp, lookup_insert_eq].
Qed.

Lemma kernel_init_boot ms mb rm :
  Idle.1 ≠ Main.1 →
  ∃ st', kernel_init tsi flags0 idle_stack idle_size main_stack main_size idle main
           (reset_state ms mb rm) = Ok (tt, st') ∧
    settled (rq_push (rq_push no_queues THREAD_PRIORITY_IDLE Idle.1) THREAD_PRIORITY_MAIN Main.1) st' ∧
    sched_active_thread st' = Some Main.1 ∧ sched_threads st' = {[1 := Idle.1; 2 := Main.1]} ∧
    in_isr st' = false ∧ irq_enabled st' = true.
Proof.
  intros Hne. set (st0 := set_irq_enabled false (reset_state ms mb rm)).
  assert (kinv no_queues st0) as Hk0 by (pose proof (reset_kinv ms mb rm) as H; kenv H).
  pose proof (boot_create no_queues st0 idle_stack idle_size THREAD_PRIORITY_IDLE idle 1) as H1.
  fold Idle in H1. destruct Idle as [icb iC] eqn:EI.
  destruct H1 as (st1 & E1 & Hk1 & Hi1 & Ha1 & Ht1 & _); [done..| |].
  { split; [|done]. intros p. simpl. by rewrite lookup_empty. }
  pose proof (boot_create _ st1 main_stack main_size THREAD_PRIORITY_MAIN main 2 Hk1 Hi1 Ha1) as H2.
  fold Main in H2. destruct Main as [mcb mC] eqn:EN. simpl in Hne.
  assert (∀ p, sched_threads st1 !! p ≠ Some mcb) as Hfr.
  { intros p. rewrite Ht1. intros [[_ ?]|[_ [=]]]%lookup_insert_Some. congruence. }
  destruct H2 as (st2 & E2 & Hk2 & Hi2 & Ha2 & Ht2 & Hr2 & _); [by rewrite Ht1|done|done|by split|].
  destruct (cpu_switch_context_exit_spec _ _ Hk2 Ha2) as (st3 & E3 & Hset & Hi3 & Ht3 & Hirq); [by eexists _, _|].
  exists st3. split; [|split; [done|split; [|split; [|split; [congruence|done]]]]].
  - unfold kernel_init. ksimpl. fold st0 wy. kstep E1. kstep E2. exact E3.
  - apply (settled_active _ _ THREAD_PRIORITY_MAIN) with (1 := Hset); [congruence| |].
    + unfold rq_push. by rewrite fn_lookup_insert, fn_lookup_insert_ne.
    + intros p Hp. unfold rq_push. rewrite !fn_lookup_insert_ne; [done|intros [= ?]; klia..].
  - rewrite Ht3, Ht2, Ht1. simpl. by rewrite insert_insert_ne.
Qed.

End Boot.

(** ** A running system

    Two threads after boot (idle at 1360, main at 2360), and a third one at
    3360 that main created with a higher priority and that went to sleep. *)

Definition after {A} (m : M A) st : kstate := match m st with Ok (_, st') => st' | Fault _ => st end.

Definition demo_tsi (function arg stack size : Z) : Z := stack + size.
Definition demo_msgs : gmap mptr msg_t :=
  list_to_map ((λ i, ((Z.of_nat i / 4, Z.of_nat i mod 4), Msg 0 0 0)) <$> seq 0 16).
Definition demo_init : M unit := kernel_init demo_tsi 0 1000 400 2000 400 1 2.
Definition demo_mboxes : gmap Z mbox_t := {[ 50 := Mbox (CIB_INIT 4) 1 ]}.
Definition demo_rmutexes : gmap Z rmutex_t := {[ 60 := Rmutex 0 0 ]}.
Definition demo_boot : kstate := after demo_init (reset_state demo_msgs demo_mboxes demo_rmutexes).
Definition demo_spawn : M Z := thread_create demo_tsi 0 3000 400 5 0 3 0.
Definition demo_two : kstate := after demo_spawn demo_boot.
Definition demo_slept : kstate := after thread_sleep demo_two.

Definition demo_Q1 : node → list Z := rq_push (rq_push no_queues THREAD_PRIORITY_IDLE 1360) THREAD_PRIORITY_MAIN 2360.
Definition demo_Q2 : node → list Z := rq_push demo_Q1 5 3360.
Definition demo_Q3 : node → list Z := rq_pop demo_Q2 5.

Definition demo_main : thread_t := Thread 2360 STATUS_RUNNING 7 2 0 WNull (CIB_INIT 0) None.
Definition demo_high (s : Z) : thread_t := Thread 3360 s 5 3 0 WNull (CIB_INIT 0) None.

Lemma settled_running Q st t T :
  settled Q st → sched_active_thread st = Some t → tcbs st !! t = Some T → running Q st t T.
Proof.
  intros (a & A & Hr) Ha HT. pose proof Hr as [? ? [[? ?] ?] ? ?]. simplify_eq. done.
Qed.

Lemma after_Ok {A} (m : M A) st a st' : m st = Ok (a, st') → after m st = st'.
Proof. unfold after. by intros ->. Qed.

Lemma demo_boot_running : running demo_Q1 demo_boot 2360 demo_main.
Proof.
  destruct (kernel_init_boot demo_tsi 0 1000 400 2000 400 1 2 demo_msgs demo_mboxes demo_rmutexes)
    as (st & E & Hs & _); [by vm_compute|].
  apply settled_running; [|by vm_compute..]. unfold demo_boot, demo_init. by rewrite (after_Ok _ _ _ _ E).
Qed.

Lemma demo_two_running : running demo_Q2 demo_two 3360 (demo_high STATUS_RUNNING).
Proof.
  pose proof demo_boot_running as Hr.
  destruct (thread_create_switch demo_tsi 0 3000 400 5 0 3 0 demo_Q1 demo_boot 2360 demo_main Hr)
    as (st & s & E & Hs & _); [klia|by vm_compute| |done..|].
  { split; [|by vm_compute]. intros p Hp. destruct (k_threads _ _ (run_kinv _ _ _ _ Hr) _ _ Hp)
      as (_ & T & HT & _). by vm_compute in HT. }
  apply settled_running; [|by vm_compute..]. unfold demo_two, demo_spawn. by rewrite (after_Ok _ _ _ _ E).
Qed.

Lemma demo_other st t u U :
  u ≠ t → tcbs st !! u = Some U → sched_threads st !! pid U = Some u →
  STATUS_ON_RUNQUEUE <= status U → other_ready st t.
Proof. intros. exists u, U. by repeat split. Qed.

Lemma demo_two_other : other_ready demo_two 3360.
Proof. by eapply (demo_other _ _ 2360); [|vm_compute; reflexivity..|vm_compute]. Qed.

Lemma demo_slept_running : running demo_Q3 demo_slept 2360 demo_main.
Proof.
  destruct (thread_sleep_running _ _ _ _ demo_two_running) as (st & T' & E & Hs & _);
    [by vm_compute|apply demo_two_other|].
  apply settled_running; [|by vm_compute..]. unfold demo_slept. by rewrite (after_Ok _ _ _ _ E).
Qed.

(** ** The theorems *)

(** [thread_wakeup] wakes exactly a sleeping thread. If the PID names one,
    the call returns 1, the thread is appended to the run queue of its priority
    and the invariant holds with the most urgent ready thread running (from an
    interrupt: a context switch requested if one is due). Otherwise the call
    returns [STATUS_NOT_FOUND] and the state is unchanged. *)
Theorem thread_wakeup_correct Q st t T p :
  running Q st t T →
  ∃ r st', thread_wakeup p st = Ok (r, st') ∧
    ((∃ u U, thr st u U ∧ pid U = p ∧ status U = STATUS_SLEEPING ∧ r = 1 ∧
             settled (rq_push Q (priority U) u) st') ∨
     ((∀ u U, thr st u U → pid U = p → status U ≠ STATUS_SLEEPING) ∧
      r = STATUS_NOT_FOUND ∧ st' = st)).
Proof.
  intros Hr. pose proof (run_kinv _ _ _ _ Hr) as Hk.
  destruct (thread_get_spec Q st p Hk) as ([u|] & _ & Ho).
  - destruct Ho as (U & HU & <-). destruct (decide (status U = STATUS_SLEEPING)) as [Hs|Hs].
    + destruct (thread_wakeup_sleeping _ _ _ _ _ _ Hr HU Hs) as (st' & E & Hset).
      exists 1, st'. split; [done|]. left. by exists u, U.
    + assert (∀ v V, thr st v V → pid V = pid U → status V ≠ STATUS_SLEEPING) as Hn.
      { intros v V [HV Hv] Hp. rewrite Hp in Hv. destruct HU as [HU Hu]. congruence. }
      exists STATUS_NOT_FOUND, st. split; [by eapply thread_wakeup_other|]. by right.
  - exists STATUS_NOT_FOUND, st. split; [|right; split; [|done]].
    + eapply thread_wakeup_other; [done|]. intros u U HU Hp. by apply Ho in HU.
    + intros u U HU Hp. by apply Ho in HU.
Qed.

Lemma thread_wakeup_correct_witness :
  thr demo_slept 3360 (demo_high STATUS_SLEEPING) ∧
  ∃ r st', thread_wakeup 3 demo_slept = Ok (r, st') ∧
    ((∃ u U, thr demo_slept u U ∧ pid U = 3 ∧ status U = STATUS_SLEEPING ∧ r = 1 ∧
             settled (rq_push demo_Q3 (priority U) u) st') ∨
     ((∀ u U, thr demo_slept u U → pid U = 3 → status U ≠ STATUS_SLEEPING) ∧
      r = STATUS_NOT_FOUND ∧ st' = demo_slept)).
Proof.
  split; [split; vm_compute; reflexivity|].
  exact (thread_wakeup_correct _ _ _ _ 3 demo_slept_running).
Defined.

(** [thread_sleep] called by a thread, while another thread is ready,
    takes the caller off its run queue, marks it sleeping (nothing else of its
    control block changes) and leaves the most urgent ready thread running. *)
Theorem thread_sleep_correct Q st t T :
  running Q st t T → in_isr st = false → other_ready st t →
  ∃ st', thread_sleep st = Ok (tt, st') ∧ settled (rq_pop Q (priority T)) st' ∧
    tcbs st' !! t = Some (set_status STATUS_SLEEPING T) ∧ sched_active_thread st' ≠ Some t.
Proof.
  intros Hr Hi Ho. destruct (thread_sleep_running _ _ _ _ Hr Hi Ho) as (st' & T' & E & Hs & HT & ->).
  exists st'. split; [done|]. split; [done|]. split; [done|]. intros Ha.
  destruct (settled_running _ _ _ _ Hs Ha HT) as [_ _ [_ Hst] _ _]. klia.
Qed.

Lemma thread_sleep_correct_witness :
  in_isr demo_two = false ∧
  ∃ st', thread_sleep demo_two = Ok (tt, st') ∧ sched_active_thread st' ≠ Some 3360.
Proof.
  split; [vm_compute; reflexivity|].
  destruct (thread_sleep_correct _ _ _ _ demo_two_running) as (st' & E & _ & _ & Ha);
    [vm_compute; reflexivity|apply demo_two_other|]. exists st'. split; [exact E|exact Ha].
Defined.

(** [thread_yield] is round-robin within a priority: the caller goes from
    the front of its run queue to the back, and the thread that runs next is
    the new front, the one that has waited longest. *)
Theorem thread_yield_round_robin Q st t T :
  running Q st t T → in_isr st = false →
  ∃ l st', Q (RUNQUEUE (priority T)) = t :: l ∧ thread_yield st = Ok (tt, st') ∧
    settled (<[RUNQUEUE (priority T) := l ++ [t]]> Q) st' ∧
    sched_active_thread st' = head (l ++ [t]).
Proof.
  intros Hr Hi. pose proof (run_head _ _ _ _ Hr) as Hhd.
  destruct (Q (RUNQUEUE (priority T))) as [|t' l] eqn:EQ; [done|]. injection Hhd as ->.
  destruct (thread_yield_running _ _ _ _ _ Hr Hi EQ) as (st' & E & Hs & Ha & _). by exists l, st'.
Qed.

Lemma thread_yield_round_robin_witness :
  ∃ l st', demo_Q2 (RUNQUEUE 5) = 3360 :: l ∧ thread_yield demo_two = Ok (tt, st') ∧
    sched_active_thread st' = head (l ++ [3360]).
Proof.
  destruct (thread_yield_round_robin _ _ _ _ demo_two_running) as (l & st' & EQ & E & _ & Ha);
    [vm_compute; reflexivity|]. exists l, st'. split; [exact EQ|]. split; [exact E|exact Ha].
Defined.

(** C3: [thread_create] rejects a priority of 16 or more with [-EINVAL] and a
    full thread table with [-EOVERFLOW], changing nothing. Otherwise, for a
    control block that falls on memory no thread uses, it returns an unused
    PID, registers there a thread of the requested priority with an empty
    message queue, sleeping if so requested and else appended to its run queue;
    the invariant holds and, unless the caller asked not to yield, the most
    urgent ready thread runs. *)
Theorem thread_create_correct tsi flags0 stack stacksize prio flags function arg Q st t T :
  running Q st t T → 0 <= prio →
  let sl := negb (Z.land flags THREAD_CREATE_SLEEPING =? 0) in
  let cb := (stack_layout stack stacksize).1 + (stack_layout stack stacksize).2 in
  fresh_tcb Q st cb →
  ∃ r st', thread_create tsi flags0 stack stacksize prio flags function arg st = Ok (r, st') ∧
    if SCHED_PRIO_LEVELS <=? prio then r = - EINVAL ∧ st' = st
    else (r = - EOVERFLOW ∧ st' = st ∧ ∀ k, ¬ free_pid st k) ∨
      (free_pid st r ∧ ∃ C Q', thr st' cb C ∧ pid C = r ∧ priority C = prio ∧
         msg_array C = None ∧ Q' = (if sl then Q else rq_push Q prio cb) ∧ kinv Q' st' ∧
         (if sl then status C = STATUS_SLEEPING else STATUS_ON_RUNQUEUE <= status C) ∧
         (Z.land flags THREAD_CREATE_WOUT_YIELD = 0 → sl = false → settled Q' st')).
Proof.
  intros Hr Hprio sl cb Hf. destruct (Z.leb_spec SCHED_PRIO_LEVELS prio) as [Hge|Hlt].
  { exists (- EINVAL), st. split; [|done]. by apply thread_create_einval. }
  set (p := first_free_pid (Z.to_nat MAXTHREADS) KERNEL_PID_FIRST (sched_threads st)).
  destruct (decide (p = KERNEL_PID_UNDEF)) as [Hp|Hp].
  { exists (- EOVERFLOW), st. split.
    - by apply thread_create_eoverflow.
    - left. split; [done|]. split; [done|]. intros k Hk.
      destruct (proj2 (p_free st) (ex_intro _ k Hk)). done. }
  set (C := tcb_of tsi flags0 stack stacksize prio function arg p).
  assert (C.1 = cb) as EC by (unfold C, cb, tcb_of; by destruct (stack_layout stack stacksize)).
  destruct (C_fields tsi flags0 stack stacksize prio function arg st) as (E1 & E2 & E3 & E4 & _).
  fold p C in E1, E2, E3, E4. pose proof (p_is_free _ Hp) as Hfree. fold p in Hfree.
  rewrite <- EC in Hf. assert (0 <= prio < SCHED_PRIO_LEVELS) as Hpr by lia.
  destruct (decide (sl = true ∨ Z.land flags THREAD_CREATE_WOUT_YIELD ≠ 0)) as [Hq|Hq].
  - destruct (thread_create_quiet tsi flags0 stack stacksize prio flags function arg Q st
      (run_kinv _ _ _ _ Hr) Hpr Hp Hf Hq) as (h & b & E & Hk). fold p C sl in E, Hk. rewrite EC in E, Hk.
    eexists _, _. split; [exact E|]. right. split; [done|]. eexists _, _.
    split; [split; [apply lookup_insert_eq|simpl; by rewrite E1, lookup_insert_eq]|].
    split; [done|]. split; [done|]. split; [done|]. split; [done|]. split; [done|].
    split; [destruct sl; [done|klia]|]. intros Hw Hsl. destruct Hq; congruence.
  - assert (sl = false) as Hsl by (destruct sl; naive_solver).
    assert (Z.land flags THREAD_CREATE_WOUT_YIELD = 0) as Hw
      by (destruct (decide (Z.land flags THREAD_CREATE_WOUT_YIELD = 0)); naive_solver).
    assert (Z.land flags THREAD_CREATE_SLEEPING = 0) as Hfl by (unfold sl in Hsl; lia).
    destruct (thread_create_switch tsi flags0 stack stacksize prio flags function arg Q st t T
      Hr Hpr Hp Hf Hfl Hw) as (st' & s & E & Hs & Hss & HC). fold p C in E, Hs, HC. rewrite EC in Hs, HC.
    exists p, st'. split; [done|]. right. split; [done|]. eexists _, _. split; [exact HC|].
    rewrite Hsl. split; [done|]. split; [done|]. split; [done|]. split; [done|].
    split; [by destruct Hs as (? & ? & [? _ _ _ _])|]. done.
Qed.

Lemma demo_fresh : fresh_tcb demo_Q1 demo_boot 3360.
Proof.
  split; [|by vm_compute]. intros p Hp.
  destruct (k_threads _ _ (run_kinv _ _ _ _ demo_boot_running) _ _ Hp) as (_ & T & HT & _).
  by vm_compute in HT.
Qed.

Lemma thread_create_correct_witness :
  fresh_tcb demo_Q1 demo_boot 3360 ∧
  ∃ r st', thread_create demo_tsi 0 3000 400 5 0 3 0 demo_boot = Ok (r, st') ∧
    ((r = - EOVERFLOW ∧ st' = demo_boot ∧ ∀ k, ¬ free_pid demo_boot k) ∨ free_pid demo_boot r).
Proof.
  split; [exact demo_fresh|].
  destruct (thread_create_correct demo_tsi 0 3000 400 5 0 3 0 _ _ _ _ demo_boot_running)
    as (r & st' & E & Hr); [lia|exact demo_fresh|]. exists r, st'. split; [exact E|].
  destruct Hr as [Hr|[Hr _]]; [left|right]; exact Hr.
Defined.

(** C4: [sched_task_exit] ends the running thread: its PID is free again, it is
    on no run queue, and the most urgent of the remaining ready threads runs. *)
Theorem sched_task_exit_correct Q st t T :
  running Q st t T → in_isr st = false → other_ready st t →
  ∃ st', sched_task_exit st = Ok (tt, st') ∧ settled (rq_pop Q (priority T)) st' ∧
    sched_threads st' = delete (pid T) (sched_threads st) ∧ ∀ q, t ∉ rq_pop Q (priority T) q.
Proof.
  intros Hr Hi Ho. destruct (sched_task_exit_running _ _ _ _ Hr Hi Ho) as (st' & E & Hs & Ht).
  exists st'. split; [done|]. split; [done|]. split; [done|].
  destruct Hr as [Hk _ [HT _] Hhd _]. by eapply rq_pop_notin.
Qed.

Lemma sched_task_exit_correct_witness :
  other_ready demo_two 3360 ∧ ∃ st', sched_task_exit demo_two = Ok (tt, st') ∧
    sched_threads st' = delete 3 (sched_threads demo_two).
Proof.
  split; [exact demo_two_other|].
  destruct (sched_task_exit_correct _ _ _ _ demo_two_running) as (st' & E & _ & Ht & _);
    [vm_compute; reflexivity|exact demo_two_other|]. exists st'. split; [exact E|exact Ht].
Defined.

(** Booting: from zeroed kernel variables and two stacks whose control
    blocks do not coincide, [kernel_init] creates the idle thread with PID 1 and
    the main thread with PID 2, establishes the kernel invariant, and starts
    main with interrupts enabled. *)
Theorem kernel_init_boots tsi flags0 idle_stack idle_size main_stack main_size idle main ms mb rm :
  let cb s z := (stack_layout s z).1 + (stack_layout s z).2 in
  cb idle_stack idle_size ≠ cb main_stack main_size →
  ∃ Q st', kernel_init tsi flags0 idle_stack idle_size main_stack main_size idle main
             (reset_state ms mb rm) = Ok (tt, st') ∧
    settled Q st' ∧ sched_active_thread st' = Some (cb main_stack main_size) ∧
    sched_threads st' = {[1 := cb idle_stack idle_size; 2 := cb main_stack main_size]} ∧
    irq_enabled st' = true.
Proof.
  intros cb Hne.
  assert (∀ s z prio f a p, (tcb_of tsi flags0 s z prio f a p).1 = cb s z) as Hcb.
  { intros. unfold tcb_of, cb. by destruct (stack_layout s z). }
  destruct (kernel_init_boot tsi flags0 idle_stack idle_size main_stack main_size idle main ms mb rm)
    as (st' & E & Hs & Ha & Ht & _ & Hi); [by rewrite !Hcb|]. rewrite !Hcb in *. eauto 10.
Qed.

Lemma kernel_init_boots_witness :
  ∃ Q st', demo_init (reset_state demo_msgs demo_mboxes demo_rmutexes) = Ok (tt, st') ∧
    settled Q st' ∧ sched_active_thread st' = Some 2360.
Proof.
  destruct (kernel_init_boots demo_tsi 0 1000 400 2000 400 1 2 demo_msgs demo_mboxes demo_rmutexes)
    as (Q & st' & E & Hs & Ha & _); [vm_compute; discriminate|].
  exists Q, st'. split; [exact E|]. split; [exact Hs|exact Ha].
Defined.

(** C2: [sched_run] hands the processor to a ready thread of the highest
    priority, the longest waiting one among equals, clears the switch request,
    marks the thread running (and a preempted one pending), returns 1 exactly
    if the active thread changed, and keeps the kernel invariant. *)
Theorem sched_run_picks_highest Q st :
  kinv Q st → (∃ t T, ready st t T) →
  ∃ t st', sched_run st = Ok (b2z (bool_decide (sched_active_thread st ≠ Some t)), st') ∧
    kinv Q st' ∧ sched_active_thread st' = Some t ∧ runs_highest st' ∧
    sched_context_switch_request st' = 0 ∧
    ∃ T, ready st t T ∧ head (Q (RUNQUEUE (priority T))) = Some t.
Proof.
  intros Hk Hr. destruct (sched_run_spec Q st Hk Hr) as (t & T & Hup & E & Hk').
  exists t, (switched st t T). split; [|split; [done|]].
  { rewrite E. by destruct (decide (sched_active_thread st = Some t)) as [Ha|Ha];
      [rewrite bool_decide_eq_false_2 by naive_solver|rewrite bool_decide_eq_true_2]. }
  destruct (switched_settled _ _ _ _ Hk Hup Hk') as (u & U & [_ Ha _ _ Hd]).
  assert (sched_context_switch_request (switched st t T) = 0) as Hreq by (unfold switched; by case_decide).
  split; [unfold switched; by case_decide|]. split; [destruct Hd as [?|[_ ?]]; [done|congruence]|].
  split; [done|]. destruct Hup as (? & ? & _). by exists T.
Qed.

Lemma sched_run_picks_highest_witness :
  ∃ t st', sched_run demo_two = Ok (b2z (bool_decide (sched_active_thread demo_two ≠ Some t)), st') ∧
    sched_active_thread st' = Some t ∧ runs_highest st'.
Proof.
  destruct (sched_run_picks_highest demo_Q2 demo_two) as (t & st' & E & _ & Ha & Hr & _).
  - exact (run_kinv _ _ _ _ demo_two_running).
  - exact (ex_intro _ _ (ex_intro _ _ (run_ready _ _ _ _ demo_two_running))).
  - exists t, st'. split; [exact E|]. split; [exact Ha|exact Hr].
Defined.
