(* ===== verification/Fairness.v ===== *)
(** * Fairness of the scheduler within a priority

    Threads of one priority that call [thread_yield] take turns, so each of
    them runs after a bounded number of calls. *)

From S2P Require Import Prelude Kernel KernelInv Thread.
Open Scope Z_scope.

(** [n] calls of [thread_yield], each by the thread that runs then. *)
Fixpoint yields (n : nat) : M unit :=
  match n with O => mret tt | S n => _ ← thread_yield; yields n end.

Lemma running_member Q st t T p : running Q st t T → t ∈ Q (RUNQUEUE p) → priority T = p.
Proof.
  intros Hr Hin. destruct (k_member _ _ (run_kinv _ _ _ _ Hr) _ _ Hin) as (V & HV & Hp & _).
  by rewrite (thr_fun _ _ _ _ HV (proj1 (run_ready _ _ _ _ Hr))) in Hp.
Qed.

(** The threads before [u] in the queue go to its end one after the other. *)
Lemma yields_front pre u post Q st t T : running Q st t T → in_isr st = false →
  Q (RUNQUEUE (priority T)) = pre ++ u :: post →
  ∃ st' Q' U, yields (length pre) st = Ok (tt, st') ∧ running Q' st' u U ∧
    Q' (RUNQUEUE (priority T)) = u :: post ++ pre ∧ ∀ q, q ≠ RUNQUEUE (priority T) → Q' q = Q q.
Proof.
  revert post Q st t T. induction pre as [|x pre IH]; intros post Q st t T Hr Hi EQ;
    pose proof (run_head _ _ _ _ Hr) as Hhd; rewrite EQ in Hhd; injection Hhd as ->.
  { exists st, Q, T. by rewrite app_nil_r. }
  destruct (thread_yield_running _ _ _ _ _ Hr Hi EQ) as (st1 & E & (t1 & T1 & Hr1) & Ha & Hi1).
  rewrite (run_active _ _ _ _ Hr1) in Ha.
  assert (priority T1 = priority T) as Ep.
  { apply (running_member _ _ _ _ _ Hr1). rewrite fn_lookup_insert. by apply head_Some_elem_of. }
  destruct (IH (post ++ [t]) _ st1 t1 T1 Hr1) as (st' & Q' & U & Ey & Hr' & EQ' & Hother); [by rewrite Hi1|..].
  { rewrite Ep, fn_lookup_insert, <-app_assoc. done. }
  rewrite Ep in EQ', Hother. exists st', Q', U. split; [|split; [done|split]].
  - cbn [length yields]. unfold mbind, M_bind. rewrite E. exact Ey.
  - by rewrite EQ', <-!app_assoc.
  - intros q Hq. rewrite Hother by done. by rewrite fn_lookup_insert_ne.
Qed.

(** C9: when the threads of the highest ready priority keep calling
    [thread_yield], every one of them gets to run: a thread with [k] threads
    before it in the run queue runs after exactly [k] calls, the order of the
    queue is only rotated, and the other run queues do not change. *)
Theorem yield_is_fair Q st t T u : running Q st t T → in_isr st = false → u ∈ Q (RUNQUEUE (priority T)) →
  ∃ pre post st' Q' U, Q (RUNQUEUE (priority T)) = pre ++ u :: post ∧
    yields (length pre) st = Ok (tt, st') ∧ sched_active_thread st' = Some u ∧ running Q' st' u U ∧
    Q' (RUNQUEUE (priority T)) = u :: post ++ pre ∧ ∀ q, q ≠ RUNQUEUE (priority T) → Q' q = Q q.
Proof.
  intros Hr Hi (pre & post & EQ)%list_elem_of_split.
  destruct (yields_front _ _ _ _ _ _ _ Hr Hi EQ) as (st' & Q' & U & E & Hr' & EQ' & Ho).
  exists pre, post, st', Q', U. split; [done|]. split; [done|]. split; [exact (run_active _ _ _ _ Hr')|]. done.
Qed.

(** A fourth thread, at 4360, of the same priority as the running one. *)
Definition demo_four : kstate := after (thread_create demo_tsi 0 4000 400 5 0 3 0) demo_two.

Lemma demo_four_running : running (rq_push demo_Q2 5 4360) demo_four 3360 (demo_high STATUS_RUNNING).
Proof.
  pose proof demo_two_running as Hr.
  destruct (thread_create_switch demo_tsi 0 4000 400 5 0 3 0 demo_Q2 demo_two 3360 (demo_high STATUS_RUNNING) Hr)
    as (st & s & E & Hs & _); [klia|by vm_compute| |done..|].
  { split; [|by vm_compute]. intros p Hp. destruct (k_threads _ _ (run_kinv _ _ _ _ Hr) _ _ Hp)
      as (_ & T & HT & _). by vm_compute in HT. }
  apply settled_running; [|by vm_compute..]. unfold demo_four. by rewrite (after_Ok _ _ _ _ E).
Qed.

Lemma yield_is_fair_witness : ∃ pre post st', rq_push demo_Q2 5 4360 (RUNQUEUE 5) = pre ++ 4360 :: post ∧
  yields (length pre) demo_four = Ok (tt, st') ∧ sched_active_thread st' = Some 4360.
Proof.
  destruct (yield_is_fair _ _ _ _ 4360 demo_four_running) as (pre & post & st' & Q' & U & EQ & E & Ha & _);
    [vm_compute; reflexivity|vm_compute; right; left|]. exists pre, post, st'. exact (conj EQ (conj E Ha)).
Defined.
