(* ===== verification/Mutex.v ===== *)
(** * core/mutex.c and mutex.h: mutexes

    A mutex is a list head: [NULL] when unlocked, the pointer [MUTEX_LOCKED]
    when locked with no waiters, and otherwise the waiting threads by priority.
    A thread that waits is given the mutex by the thread that unlocks it, so
    the value [_mutex_lock] returns after its context switch means what it
    says. *)

From S2P Require Import Prelude LinkedList Cib Bitarithm Kernel KernelInv Thread.
Open Scope Z_scope.
Implicit Types (Q : node → list Z) (st : kstate) (T : thread_t).

(** [mutex->queue.next = v] *)
Definition set_queue (mutex : Z) (v : option node) : M unit :=
  modify (λ st, set_heap (set_next (heap st) (MUTEX_QUEUE mutex) v) st).

Definition mutex_init (mutex : Z) : M unit := set_queue mutex None.

Definition _mutex_lock (mutex : Z) (blocking : Z) : M Z :=
  irqstate ← irq_disable;
  h ← gets heap;
  match h !! MUTEX_QUEUE mutex with
  | None =>
      _ ← set_queue mutex (Some MUTEX_LOCKED);
      _ ← irq_restore irqstate;
      mret 1
  | Some _ =>
      if negb (blocking =? 0) then
        a ← gets sched_active_thread;
        me ← nonnull a;
        _ ← sched_set_status me STATUS_MUTEX_BLOCKED;
        h ← gets heap;
        _ ← (if decide (h !! MUTEX_QUEUE mutex = Some MUTEX_LOCKED) then
               _ ← set_queue mutex (Some (RQ_ENTRY me));
               modify (λ st, set_heap (set_next (heap st) (RQ_ENTRY me) None) st)
             else thread_add_to_list (MUTEX_QUEUE mutex) me);
        _ ← irq_restore irqstate;
        _ ← thread_yield_higher;
        mret 1
      else
        _ ← irq_restore irqstate;
        mret 0
  end.

Definition mutex_trylock (mutex : Z) : M Z := _mutex_lock mutex 0.
Definition mutex_lock (mutex : Z) : M unit := _ ← _mutex_lock mutex 1; mret tt.

(** The code the two unlocking functions share: the first waiter is made ready
    and the mutex stays locked on its behalf. *)
Definition pass_mutex (mutex : Z) : M Z :=
  h ← gets heap;
  let r := list_remove_head h (MUTEX_QUEUE mutex) in
  _ ← modify (set_heap r.2);
  next ← nonnull r.1;
  process ← container_of next;
  _ ← sched_set_status process STATUS_PENDING;
  h ← gets heap;
  _ ← when (bool_decide (h !! MUTEX_QUEUE mutex = None)) (set_queue mutex (Some MUTEX_LOCKED));
  mret process.

Definition mutex_unlock (mutex : Z) : M unit :=
  irqstate ← irq_disable;
  h ← gets heap;
  match h !! MUTEX_QUEUE mutex with
  | None => irq_restore irqstate
  | Some n =>
      if decide (n = MUTEX_LOCKED) then
        _ ← set_queue mutex None;
        irq_restore irqstate
      else
        process ← pass_mutex mutex;
        T ← get_thread process;
        _ ← irq_restore irqstate;
        sched_switch (priority T)
  end.

Definition mutex_unlock_and_sleep (mutex : Z) : M unit :=
  irqstate ← irq_disable;
  h ← gets heap;
  _ ← match h !! MUTEX_QUEUE mutex with
      | None => mret tt
      | Some n =>
          if decide (n = MUTEX_LOCKED) then set_queue mutex None
          else _ ← pass_mutex mutex; mret tt
      end;
  a ← gets sched_active_thread;
  me ← nonnull a;
  _ ← sched_set_status me STATUS_SLEEPING;
  _ ← irq_restore irqstate;
  thread_yield_higher.

(** ** The abstract mutex *)

(** Unlocked, or locked with the waiting threads in the order in which they
    will get the mutex. *)
Inductive mutex_abs : Type :=
  | Unlocked
  | Locked (waiters : list Z).

Definition mutex_is st Q (mutex : Z) (m : mutex_abs) : Prop :=
  match m with
  | Unlocked => heap st !! MUTEX_QUEUE mutex = None ∧ Q (MUTEX_QUEUE mutex) = []
  | Locked [] => heap st !! MUTEX_QUEUE mutex = Some MUTEX_LOCKED ∧ Q (MUTEX_QUEUE mutex) = []
  | Locked l => Q (MUTEX_QUEUE mutex) = l
  end.

Lemma mutex_is_total Q st mutex : kinv Q st → ∃ m, mutex_is st Q mutex m.
Proof.
  intros Hk. pose proof (k_rep _ _ Hk (MUTEX_QUEUE mutex)) as Hr. simpl in Hr.
  destruct (Q (MUTEX_QUEUE mutex)) as [|t l] eqn:EQ.
  - destruct Hr as [Hr|Hr]; [by exists Unlocked|by exists (Locked [])].
  - by exists (Locked (t :: l)).
Qed.

(** What the queue word of a mutex in use looks like. *)
Lemma mutex_next Q st mutex t l :
  kinv Q st → mutex_is st Q mutex (Locked (t :: l)) → heap st !! MUTEX_QUEUE mutex = Some (RQ_ENTRY t).
Proof.
  intros Hk Hm. pose proof (k_rep _ _ Hk (MUTEX_QUEUE mutex)) as Hr. simpl in Hr, Hm.
  rewrite Hm in Hr. simpl in Hr. by destruct Hr as (_ & [? _] & _).
Qed.

(** Writing the queue word of a mutex without waiters. *)
Lemma kinv_set_queue Q st mutex v :
  kinv Q st → Q (MUTEX_QUEUE mutex) = [] → v = None ∨ v = Some MUTEX_LOCKED →
  kinv Q (set_heap (set_next (heap st) (MUTEX_QUEUE mutex) v) st).
Proof.
  intros Hk EQ Hv.
  assert (kinv (<[MUTEX_QUEUE mutex := []]> Q) (set_heap (set_next (heap st) (MUTEX_QUEUE mutex) v) st)) as H.
  { apply kinv_queue; [done|done| | |by intros ? ?%elem_of_nil|constructor].
    - simpl. by rewrite set_next_same.
    - intros y Hy _. apply set_next_other. congruence. }
  eapply kinv_proper; [|reflexivity|exact H]. intros q.
  destruct (decide (MUTEX_QUEUE mutex = q)) as [<-|]; [by rewrite fn_lookup_insert|by rewrite fn_lookup_insert_ne].
Qed.

(** ** Locking *)

Lemma mutex_next_Some Q st mutex l :
  kinv Q st → mutex_is st Q mutex (Locked l) → is_Some (heap st !! MUTEX_QUEUE mutex).
Proof.
  intros Hk Hm. destruct l as [|u l]; [by destruct Hm as [-> _]|].
  by rewrite (mutex_next _ _ _ _ _ Hk Hm).
Qed.

Lemma mutex_is_env Q Q' st st' mutex m :
  heap st' = heap st → Q' (MUTEX_QUEUE mutex) = Q (MUTEX_QUEUE mutex) →
  mutex_is st Q mutex m → mutex_is st' Q' mutex m.
Proof. intros Hh HQ. destruct m as [|[|]]; simpl; by rewrite ?Hh, ?HQ. Qed.

(** A thread that has just blocked joins the waiters. *)
Lemma mutex_enqueue Q st mutex t T l :
  kinv Q st → thr st t T → status T = STATUS_MUTEX_BLOCKED → (∀ q, t ∉ Q q) →
  mutex_is st Q mutex (Locked l) →
  let q := MUTEX_QUEUE mutex in
  ∃ h', (h ← gets heap;
         (if decide (h !! q = Some MUTEX_LOCKED) then
            _ ← set_queue mutex (Some (RQ_ENTRY t));
            modify (λ st, set_heap (set_next (heap st) (RQ_ENTRY t) None) st)
          else thread_add_to_list q t)) st = Ok (tt, set_heap h' st) ∧
    kinv (<[q := insert_by (prio_of st) t l]> Q) (set_heap h' st).
Proof.
  intros Hk HT Hs Hn Hm q. ksimpl. destruct l as [|u l].
  - destruct Hm as [E EQ]. rewrite decide_True by done.
    exists (set_next (set_next (heap st) q (Some (RQ_ENTRY t))) (RQ_ENTRY t) None). split; [done|].
    apply kinv_queue; [done|done| | | |repeat constructor].
    + simpl. split; [|split].
      * apply NoDup_cons. split; [set_solver|apply NoDup_singleton].
      * split; [|done]. rewrite set_next_other by done. apply set_next_same.
      * simpl. apply set_next_same.
    + intros y Hy Hin. fold q in EQ. rewrite EQ in Hin. rewrite !set_next_other; [done|congruence|].
      intros <-. apply Hin. apply elem_of_RQ. set_solver.
    + intros v ->%list_elem_of_singleton. right. split; [done|]. by exists T.
  - pose proof (mutex_next _ _ _ _ _ Hk Hm) as Enx. fold q in Enx. rewrite Enx, decide_False by done.
    simpl in Hm. fold q in Hm. rewrite <- Hm.
    apply (thread_add_to_list_spec _ _ _ _ T); [done|done| |done|done|klia|done].
    apply wait_rep; [done|by rewrite Hm|apply (k_rep _ _ Hk)].
Qed.

Lemma mutex_lock_free Q st t T mutex blocking :
  running Q st t T → mutex_is st Q mutex Unlocked →
  ∃ st', _mutex_lock mutex blocking st = Ok (1, st') ∧ running Q st' t T ∧
         mutex_is st' Q mutex (Locked []).
Proof.
  intros [Hk Ha HT Hhd Hd] [Hm EQ].
  exists (set_heap (set_next (heap st) (MUTEX_QUEUE mutex) (Some MUTEX_LOCKED)) st). split; [|split].
  - unfold _mutex_lock. ksimpl. rewrite Hm. unfold set_queue. ksimpl. by destruct st.
  - split; try done. apply kinv_set_queue; [done|done|by right].
  - split; [apply set_next_same|done].
Qed.

Lemma mutex_trylock_busy Q st mutex l :
  kinv Q st → mutex_is st Q mutex (Locked l) → _mutex_lock mutex 0 st = Ok (0, st).
Proof.
  intros Hk Hm. destruct (mutex_next_Some _ _ _ _ Hk Hm) as [n E].
  unfold _mutex_lock. ksimpl. rewrite E. ksimpl. by destruct st.
Qed.

(** The caller waits behind the threads of the same or a higher priority. *)
Lemma mutex_lock_wait Q st t T mutex blocking l :
  running Q st t T → in_isr st = false → other_ready st t → mutex_is st Q mutex (Locked l) →
  blocking ≠ 0 →
  let l' := insert_by (prio_of st) t l in
  let Q' := <[MUTEX_QUEUE mutex := l']> (rq_pop Q (priority T)) in
  ∃ st', _mutex_lock mutex blocking st = Ok (1, st') ∧ settled Q' st' ∧
    tcbs st' !! t = Some (set_status STATUS_MUTEX_BLOCKED T) ∧
    in_isr st' = false ∧ rmutexes st' = rmutexes st.
Proof.
  intros Hr Hi Ho Hm Hb l' Q'. pose proof Hr as [Hk Ha [HT HTs] Hhd _].
  set (st0 := set_irq_enabled false st). assert (kinv Q st0) as Hk0 by kenv Hk.
  destruct (sched_set_status_block Q st0 t T STATUS_MUTEX_BLOCKED) as (h & b & E & Hk1 & Hfr); [done..|].
  fold (rq_pop Q (priority T)) in Hk1.
  set (T1 := set_status STATUS_MUTEX_BLOCKED T) in *. set (st1 := upd3 st0 h b _) in *.
  assert (mutex_is st1 (rq_pop Q (priority T)) mutex (Locked l)) as Hm1.
  { destruct l as [|u l]; [|by simpl; rewrite rq_pop_wait]. destruct Hm as [Hm EQ].
    split; [|by rewrite rq_pop_wait]. simpl. by rewrite Hfr. }
  assert (thr st1 t T1) as HT1 by (split; [apply lookup_insert_eq|apply HT]).
  destruct (mutex_enqueue _ st1 mutex t T1 l Hk1 HT1) as (h' & E' & Hk2);
    [done|by eapply rq_pop_notin|done|].
  assert (insert_by (prio_of st1) t l = l') as El.
  { apply insert_by_ext. intros u. by eapply prio_of_update; [apply HT|..]. }
  rewrite El in Hk2.
  destruct (yield_thread Q' (set_irq_enabled (irq_enabled st) (set_heap h' st1))) as (st2 & E2 & Hset & Hy).
  { kenv Hk2. } { done. } { by eapply (other_ready_upd st). }
  destruct (yielded_tcb _ _ t T1 Hy) as (s & Hs & Hss & _); [apply lookup_insert_eq|].
  apply yielded_env in Hy as (_ & _ & _ & Hrm & _ & Hi2 & _).
  exists st2. split; [|split; [done|split; [|by rewrite Hi2, Hrm]]].
  - unfold _mutex_lock. ksimpl. destruct (mutex_next_Some _ _ _ _ Hk Hm) as [n En]. rewrite En.
    rewrite (proj2 (Z.eqb_neq _ _) Hb). cbn [negb]. ksimpl. rewrite Ha. ksimpl. kstep E.
    rewrite bind_gets in E'. fold st1. ksimpl. kstep E'. ksimpl. by kstep E2.
  - rewrite Hs, Hss by done. done.
Qed.

(** ** Unlocking *)

Lemma pass_mutex_spec Q st mutex u l :
  kinv Q st → mutex_is st Q mutex (Locked (u :: l)) →
  ∃ U h b, let st1 := upd3 st h b (<[u := set_status STATUS_PENDING U]> (tcbs st)) in
    let Q1 := rq_push (<[MUTEX_QUEUE mutex := l]> Q) (priority U) u in
    thr st u U ∧ status U = STATUS_MUTEX_BLOCKED ∧
    pass_mutex mutex st = Ok (u, st1) ∧ kinv Q1 st1 ∧ mutex_is st1 Q1 mutex (Locked l).
Proof.
  intros Hk Hm. simpl in Hm.
  destruct (dequeue Q st (MUTEX_QUEUE mutex) u l Hk) as (Erm & Hl & Hk1 & Hn & U & HU & HUs); [done..|].
  set (st0 := set_heap _ st) in Hk1. simpl in HUs.
  destruct (sched_set_status_wake _ st0 u U STATUS_PENDING Hk1) as (h & b & E & Hk2 & Hfr);
    [done|klia|done|klia|]. fold (rq_push (<[MUTEX_QUEUE mutex := l]> Q) (priority U) u) in Hk2.
  assert (rq_push (<[MUTEX_QUEUE mutex := l]> Q) (priority U) u (MUTEX_QUEUE mutex) = l) as EQ.
  { rewrite rq_push_wait by done. apply fn_lookup_insert. }
  set (h' := if decide (l = []) then set_next h (MUTEX_QUEUE mutex) (Some MUTEX_LOCKED) else h).
  exists U, h', b. split; [done|]. split; [done|]. split; [|split].
  - unfold pass_mutex. ksimpl. rewrite Erm. ksimpl. kstep E. ksimpl. unfold h', upd3. kproj.
    rewrite (Hfr (MUTEX_QUEUE mutex) eq_refl). unfold st0. kproj. destruct Hl as (_ & Hp & He).
    destruct l as [|v l]; simpl.
    + simpl in He. rewrite He. ksimpl. unfold set_queue. by ksimpl.
    + destruct Hp as [-> _]. by ksimpl.
  - unfold h'. case_decide as Hnil; [|kenv Hk2]. subst l.
    pose proof (kinv_set_queue _ _ mutex (Some MUTEX_LOCKED) Hk2 EQ) as Hk3.
    eapply (kinv_env _ _ _ (Hk3 (or_intror eq_refl))); reflexivity.
  - destruct l as [|v l]; [|exact EQ]. split; [|exact EQ]. unfold h'. rewrite decide_True by done.
    apply set_next_same.
Qed.

Lemma mutex_unlock_free Q st mutex : mutex_is st Q mutex Unlocked → mutex_unlock mutex st = Ok (tt, st).
Proof. intros [Hm _]. unfold mutex_unlock. ksimpl. rewrite Hm. by destruct st. Qed.

Lemma mutex_unlock_last Q st t T mutex :
  running Q st t T → mutex_is st Q mutex (Locked []) →
  ∃ st', mutex_unlock mutex st = Ok (tt, st') ∧ running Q st' t T ∧ mutex_is st' Q mutex Unlocked.
Proof.
  intros [Hk Ha HT Hhd Hd] [Hm EQ].
  exists (set_heap (set_next (heap st) (MUTEX_QUEUE mutex) None) st). split; [|split].
  - unfold mutex_unlock. ksimpl. rewrite Hm, decide_True by done. unfold set_queue. ksimpl. by destruct st.
  - split; try done. apply kinv_set_queue; [done|done|by left].
  - split; [apply set_next_same|done].
Qed.

(** The first waiter owns the mutex and becomes ready. *)
Lemma mutex_unlock_pass Q st t T mutex u l :
  running Q st t T → mutex_is st Q mutex (Locked (u :: l)) →
  ∃ U st', thr st u U ∧ status U = STATUS_MUTEX_BLOCKED ∧ mutex_unlock mutex st = Ok (tt, st') ∧
    let Q' := rq_push (<[MUTEX_QUEUE mutex := l]> Q) (priority U) u in
    settled Q' st' ∧ mutex_is st' Q' mutex (Locked l) ∧ rmutexes st' = rmutexes st ∧ in_isr st' = in_isr st.
Proof.
  intros Hr Hm. pose proof Hr as [Hk Ha HT Hhd Hd].
  set (st0 := set_irq_enabled false st). assert (kinv Q st0) as Hk0 by kenv Hk.
  destruct (pass_mutex_spec Q st0 mutex u l Hk0 Hm) as (U & h & b & HU & HUs & E & Hk1 & Hm1).
  set (st1 := upd3 _ _ _ _) in *.
  destruct (wake_switch Q (rq_push (<[MUTEX_QUEUE mutex:=l]> Q) (priority U) u) st t T u U STATUS_PENDING
    (set_irq_enabled (irq_enabled st) st1) Hr HU)
    as (st2 & E2 & Hset & Hy); try done.
  { eapply running_ne; [done|done|klia]. } { kenv Hk1. }
  { apply rq_push_head. by rewrite wait_insert_rq. }
  exists U, st2. split; [done|]. split; [done|]. apply yielded_env in Hy as (Hh & _ & _ & Hrm & _ & Hi & _).
  split; [|split; [done|split; [by eapply mutex_is_env; [apply Hh| |done]|done]]].
  unfold mutex_unlock. ksimpl. fold st0.
  pose proof (mutex_next _ _ _ _ _ Hk Hm) as ->. rewrite decide_False by done. kstep E.
  kget lookup_insert_eq. ksimpl. exact E2.
Qed.

(** [mutex_unlock_and_sleep]: the state in which the caller goes to sleep. *)
Lemma mutex_release Q st t T mutex m :
  running Q st t T → mutex_is st Q mutex m →
  ∃ st1 Q1, (h ← gets heap;
     match h !! MUTEX_QUEUE mutex with
     | None => mret tt
     | Some n => if decide (n = MUTEX_LOCKED) then set_queue mutex None
                 else _ ← pass_mutex mutex; mret tt
     end) st = Ok (tt, st1) ∧
    kinv Q1 st1 ∧ thr st1 t T ∧ head (Q1 (RUNQUEUE (priority T))) = Some t ∧
    sched_active_thread st1 = Some t ∧ in_isr st1 = in_isr st ∧ irq_enabled st1 = irq_enabled st ∧
    (other_ready st t → other_ready st1 t) ∧
    mutex_is st1 Q1 mutex match m with Locked (_ :: l) => Locked l | _ => Unlocked end ∧
    match m with
    | Locked (u :: l) => ∃ U, thr st u U ∧ Q1 = rq_push (<[MUTEX_QUEUE mutex := l]> Q) (priority U) u
    | _ => Q1 = Q
    end.
Proof.
  intros [Hk Ha [HT HTs] Hhd Hd] Hm. ksimpl. destruct m as [|[|u l]].
  - destruct Hm as [Hm EQ]. rewrite Hm. exists st, Q. done.
  - destruct Hm as [Hm EQ]. rewrite Hm, decide_True by done.
    exists (set_heap (set_next (heap st) (MUTEX_QUEUE mutex) None) st), Q. split; [done|].
    split; [apply kinv_set_queue; [done|done|by left]|]. repeat (split; [done|]).
    split; [|done]. split; [apply set_next_same|done].
  - pose proof (mutex_next _ _ _ _ _ Hk Hm) as ->. rewrite decide_False by done.
    destruct (pass_mutex_spec Q st mutex u l Hk Hm) as (U & h & b & HU & HUs & E & Hk1 & Hm1).
    eexists _, _. split; [by kstep E|]. split; [exact Hk1|].
    assert (t ≠ u) as Hne.
    { intros ->. rewrite (thr_fun _ _ _ _ HT HU) in HTs. klia. }
    split; [split; [simpl; rewrite lookup_insert_ne by done; apply HT|apply HT]|].
    split; [apply rq_push_head; by rewrite wait_insert_rq|].
    split; [done|]. split; [done|]. split; [done|].
    split; [|split; [done|by exists U]].
    intros _. exists u, (set_status STATUS_PENDING U). split; [done|]. apply ready_upd3; [done|].
    left. by split.
Qed.

Lemma mutex_unlock_and_sleep_running Q st t T mutex m :
  running Q st t T → in_isr st = false → other_ready st t → mutex_is st Q mutex m →
  ∃ st' Q1, mutex_unlock_and_sleep mutex st = Ok (tt, st') ∧
    settled (rq_pop Q1 (priority T)) st' ∧ tcbs st' !! t = Some (set_status STATUS_SLEEPING T) ∧
    mutex_is st' (rq_pop Q1 (priority T)) mutex match m with Locked (_ :: l) => Locked l | _ => Unlocked end ∧
    match m with
    | Locked (u :: l) => ∃ U, thr st u U ∧ Q1 = rq_push (<[MUTEX_QUEUE mutex := l]> Q) (priority U) u
    | _ => Q1 = Q
    end.
Proof.
  intros Hr Hi Ho Hm. pose proof Hr as [Hk Ha HT Hhd Hd].
  assert (running Q (set_irq_enabled false st) t T) as Hr0 by (split; try done; kenv Hk).
  destruct (mutex_release _ _ _ _ mutex m Hr0 Hm)
    as (st1 & Q1 & E & Hk1 & HT1 & Hhd1 & Ha1 & Hi1 & _ & Ho1 & Hm1 & HQ1).
  destruct (sched_set_status_block Q1 st1 t T STATUS_SLEEPING) as (h & b & E2 & Hk2 & Hfr); [done..|apply HT|done|done|].
  set (st2 := upd3 _ _ _ _) in *.
  destruct (yield_thread (rq_pop Q1 (priority T)) (set_irq_enabled (irq_enabled st) st2)) as (st3 & E3 & Hset & Hy).
  { kenv Hk2. } { simpl. by rewrite Hi1. } { by eapply (other_ready_upd st1); [..|apply Ho1|done|]. }
  destruct (yielded_tcb _ _ t (set_status STATUS_SLEEPING T) Hy) as (s & Hs & Hss & _); [apply lookup_insert_eq|].
  apply yielded_env in Hy as (Hh & _). exists st3, Q1. split; [|split; [done|split; [|split]]].
  - unfold mutex_unlock_and_sleep. ksimpl. rewrite bind_gets in E. kstep E. ksimpl. rewrite Ha1. ksimpl.
    kstep E2. ksimpl. exact E3.
  - rewrite Hs, Hss by done. done.
  - destruct m as [|[|u [|v l]]]; simpl in *; rewrite ?Hh, ?rq_pop_wait by done; simpl; rewrite ?Hfr by done; done.
  - done.
Qed.

(** ** A contended mutex

    The thread at 3360 locks the mutex 70 and goes to sleep; main waits for it;
    idle runs. *)

Definition demo_locked : kstate := after (_mutex_lock 70 1) demo_two.
Definition demo_held : kstate := after thread_sleep demo_locked.
Definition demo_waiting : kstate := after (_mutex_lock 70 1) demo_held.
Definition demo_Q4 : node → list Z := rq_pop demo_Q2 5.
Definition demo_Q5 : node → list Z := <[MUTEX_QUEUE 70 := [2360]]> (rq_pop demo_Q4 7).
Definition demo_idle : thread_t := Thread 1360 STATUS_RUNNING 15 1 0 WNull (CIB_INIT 0) None.

Lemma demo_locked_running : running demo_Q2 demo_locked 3360 (demo_high STATUS_RUNNING).
Proof.
  destruct (mutex_lock_free _ _ _ _ 70 1 demo_two_running) as (st & E & Hr & _); [by vm_compute|].
  unfold demo_locked. by rewrite (after_Ok _ _ _ _ E).
Qed.

Lemma demo_held_running : running demo_Q4 demo_held 2360 demo_main.
Proof.
  destruct (thread_sleep_running _ _ _ _ demo_locked_running) as (st & T' & E & Hs & _);
    [by vm_compute|by eapply (demo_other _ _ 2360); [|vm_compute; reflexivity..|vm_compute]|].
  apply settled_running; [|by vm_compute..]. unfold demo_held. by rewrite (after_Ok _ _ _ _ E).
Qed.

Lemma demo_held_other : other_ready demo_held 2360.
Proof. by eapply (demo_other _ _ 1360); [|vm_compute; reflexivity..|vm_compute]. Qed.

Lemma demo_held_locked : mutex_is demo_held demo_Q4 70 (Locked []).
Proof. by vm_compute. Qed.

Lemma demo_waiting_running : running demo_Q5 demo_waiting 1360 demo_idle.
Proof.
  destruct (mutex_lock_wait _ _ _ _ 70 1 [] demo_held_running) as (st & E & Hs & _);
    [by vm_compute|apply demo_held_other|apply demo_held_locked|done|].
  apply settled_running; [|by vm_compute..]. unfold demo_waiting. by rewrite (after_Ok _ _ _ _ E).
Qed.

(** ** The theorems *)

(** C26: locking. A free mutex is taken at once. When it is held, a
    non-blocking attempt returns 0 and changes nothing; a blocking one makes the
    caller wait behind all waiters of the same or a higher priority, blocks it,
    and lets the most urgent ready thread run. *)
Theorem mutex_lock_correct Q st t T mutex blocking m :
  running Q st t T → in_isr st = false → other_ready st t → mutex_is st Q mutex m →
  ∃ r st' Q', _mutex_lock mutex blocking st = Ok (r, st') ∧ settled Q' st' ∧
    match m with
    | Unlocked => r = 1 ∧ Q' = Q ∧ sched_active_thread st' = Some t ∧ mutex_is st' Q' mutex (Locked [])
    | Locked l =>
        if blocking =? 0 then r = 0 ∧ st' = st ∧ Q' = Q
        else r = 1 ∧ Q' (MUTEX_QUEUE mutex) = insert_by (prio_of st) t l ∧
             (∀ q, q ≠ MUTEX_QUEUE mutex → Q' q = rq_pop Q (priority T) q) ∧
             tcbs st' !! t = Some (set_status STATUS_MUTEX_BLOCKED T)
    end.
Proof.
  intros Hr Hi Ho Hm. destruct m as [|l].
  - destruct (mutex_lock_free _ _ _ _ _ blocking Hr Hm) as (st' & E & Hr' & Hm').
    exists 1, st', Q. split; [done|]. split; [by exists t, T|]. repeat (split; [done|]).
    split; [apply Hr'|done].
  - destruct (Z.eqb_spec blocking 0) as [->|Hb].
    + exists 0, st, Q. split; [by eapply mutex_trylock_busy; [apply Hr|]|]. split; [by exists t, T|done].
    + destruct (mutex_lock_wait _ _ _ _ _ _ _ Hr Hi Ho Hm Hb) as (st' & E & Hs & HT & _).
      eexists 1, st', _. split; [done|]. split; [exact Hs|]. split; [done|].
      rewrite fn_lookup_insert. split; [done|]. split; [|done].
      intros q Hq. by rewrite fn_lookup_insert_ne.
Qed.

Lemma mutex_lock_correct_witness :
  mutex_is demo_held demo_Q4 70 (Locked []) ∧
  ∃ st' Q', _mutex_lock 70 1 demo_held = Ok (1, st') ∧ settled Q' st' ∧
    Q' (MUTEX_QUEUE 70) = [2360] ∧ tcbs st' !! 2360 = Some (set_status STATUS_MUTEX_BLOCKED demo_main).
Proof.
  split; [exact demo_held_locked|].
  destruct (mutex_lock_correct _ _ _ _ 70 1 (Locked []) demo_held_running)
    as (r & st' & Q' & E & Hs & -> & HQ & _ & HT);
    [vm_compute; reflexivity|exact demo_held_other|exact demo_held_locked|].
  exists st', Q'. split; [exact E|]. split; [exact Hs|]. split; [exact HQ|exact HT].
Defined.

(** unlocking. Unlocking a free mutex does nothing, a mutex without
    waiters becomes free; otherwise the first waiter (the longest waiting one of
    the highest priority) becomes ready and the mutex stays locked on its
    behalf, so no third thread can take it in between; the most urgent ready
    thread runs. *)
Theorem mutex_unlock_correct Q st t T mutex m :
  running Q st t T → mutex_is st Q mutex m →
  ∃ st' Q', mutex_unlock mutex st = Ok (tt, st') ∧ settled Q' st' ∧
    match m with
    | Unlocked => st' = st ∧ Q' = Q
    | Locked [] => Q' = Q ∧ mutex_is st' Q' mutex Unlocked
    | Locked (u :: l) => mutex_is st' Q' mutex (Locked l) ∧
        ∃ U, thr st u U ∧ status U = STATUS_MUTEX_BLOCKED ∧
             Q' = rq_push (<[MUTEX_QUEUE mutex := l]> Q) (priority U) u
    end.
Proof.
  intros Hr Hm. destruct m as [|[|u l]].
  - exists st, Q. split; [by eapply mutex_unlock_free|]. split; [by exists t, T|done].
  - destruct (mutex_unlock_last _ _ _ _ _ Hr Hm) as (st' & E & Hr' & Hm').
    exists st', Q. split; [done|]. split; [by exists t, T|done].
  - destruct (mutex_unlock_pass _ _ _ _ _ _ _ Hr Hm) as (U & st' & HU & HUs & E & Hs & Hm' & _).
    eexists st', _. split; [done|]. split; [exact Hs|]. split; [done|]. by exists U.
Qed.

Lemma mutex_unlock_correct_witness :
  mutex_is demo_waiting demo_Q5 70 (Locked [2360]) ∧
  ∃ st' Q', mutex_unlock 70 demo_waiting = Ok (tt, st') ∧ settled Q' st' ∧
    mutex_is st' Q' 70 (Locked []).
Proof.
  split; [vm_compute; reflexivity|].
  destruct (mutex_unlock_correct _ _ _ _ 70 (Locked [2360]) demo_waiting_running)
    as (st' & Q' & E & Hs & Hm & _); [vm_compute; reflexivity|].
  exists st', Q'. split; [exact E|]. split; [exact Hs|exact Hm].
Defined.

(** [mutex_unlock_and_sleep] releases the mutex like [mutex_unlock] and
    puts the caller to sleep in one step: there is no intermediate state in
    which the caller is ready and the mutex released. *)
Theorem mutex_unlock_and_sleep_correct Q st t T mutex m :
  running Q st t T → in_isr st = false → other_ready st t → mutex_is st Q mutex m →
  ∃ st' Q', mutex_unlock_and_sleep mutex st = Ok (tt, st') ∧ settled Q' st' ∧
    tcbs st' !! t = Some (set_status STATUS_SLEEPING T) ∧
    mutex_is st' Q' mutex match m with Locked (_ :: l) => Locked l | _ => Unlocked end ∧
    match m with
    | Locked (u :: l) => ∃ U, thr st u U ∧ u ∈ Q' (RUNQUEUE (priority U))
    | _ => True
    end.
Proof.
  intros Hr Hi Ho Hm.
  destruct (mutex_unlock_and_sleep_running _ _ _ _ _ _ Hr Hi Ho Hm) as (st' & Q1 & E & Hs & HT & Hm' & HQ).
  eexists st', _. split; [done|]. split; [exact Hs|]. split; [done|]. split; [done|].
  destruct m as [|[|u l]]; [done..|]. destruct HQ as (U & HU & ->). exists U. split; [done|].
  pose proof (run_head _ _ _ _ Hr) as Hhd. unfold rq_pop, rq_push.
  destruct (decide (RUNQUEUE (priority T) = RUNQUEUE (priority U))) as [Ep|Hne].
  - rewrite Ep, !fn_lookup_insert, fn_lookup_insert_ne by done. rewrite <- Ep.
    destruct (Q (RUNQUEUE (priority T))); [done|]. simpl. set_solver.
  - rewrite fn_lookup_insert_ne by done. rewrite fn_lookup_insert. set_solver.
Qed.

Lemma mutex_unlock_and_sleep_correct_witness :
  ∃ st' Q', mutex_unlock_and_sleep 70 demo_held = Ok (tt, st') ∧ settled Q' st' ∧
    mutex_is st' Q' 70 Unlocked.
Proof.
  destruct (mutex_unlock_and_sleep_correct _ _ _ _ 70 (Locked []) demo_held_running)
    as (st' & Q' & E & Hs & _ & Hm & _);
    [vm_compute; reflexivity|exact demo_held_other|exact demo_held_locked|].
  exists st', Q'. split; [exact E|]. split; [exact Hs|exact Hm].
Defined.
