(* ===== verification/Rmutex.v ===== *)
(** * core/rmutex.c: recursive mutexes

    A call that waits inside [mutex_lock] gives up the processor; the rest of
    its body runs when the thread is scheduled again. [_lock] returns [Wait] at
    that point, and [_lock_owned] is the rest. *)

From S2P Require Import Prelude LinkedList Cib Bitarithm Kernel KernelInv Thread Mutex.
Open Scope Z_scope.
Implicit Types (Q : node → list Z) (st : kstate) (T : thread_t).

Definition read_rmutex (r : Z) : M rmutex_t :=
  λ st, match rmutexes st !! r with Some R => Ok (R, st) | None => Fault BadPointer end.

Definition modify_rmutex (r : Z) (f : rmutex_t → rmutex_t) : M unit :=
  λ st, match rmutexes st !! r with
        | Some R => Ok (tt, set_rmutexes (<[r := f R]> (rmutexes st)) st)
        | None => Fault BadPointer
        end.

Definition thread_getpid : M Z := gets sched_active_pid.

(** The end of [_lock], with the mutex held. [refcount] is a [uint16_t]. *)
Definition _lock_owned (rmutex : Z) : M Z :=
  me ← thread_getpid;
  _ ← modify_rmutex rmutex (set_owner me);
  _ ← modify_rmutex rmutex (λ R, set_refcount (u16 (refcount R + 1)) R);
  mret 1.

Definition _lock (rmutex : Z) (trylock : Z) : M (outcome Z) :=
  r ← mutex_trylock rmutex;
  if r =? 0 then
    R ← read_rmutex rmutex;
    me ← thread_getpid;
    if negb (owner R =? me) then
      if negb (trylock =? 0) then mret (Return 0)
      else
        self ← gets sched_active_thread;
        _ ← mutex_lock rmutex;
        now ← gets sched_active_thread;
        if decide (now = self) then v ← _lock_owned rmutex; mret (Return v) else mret Wait
    else v ← _lock_owned rmutex; mret (Return v)
  else v ← _lock_owned rmutex; mret (Return v).

Definition rmutex_lock (rmutex : Z) : M (outcome unit) :=
  o ← _lock rmutex 0;
  match o with Return _ => mret (Return tt) | Wait => mret Wait end.

Definition rmutex_trylock (rmutex : Z) : M (outcome Z) := _lock rmutex 1.

Definition rmutex_unlock (rmutex : Z) : M unit :=
  R ← read_rmutex rmutex;
  me ← thread_getpid;
  _ ← massert (owner R =? me);
  _ ← massert (0 <? refcount R);
  _ ← modify_rmutex rmutex (λ R, set_refcount (u16 (refcount R - 1)) R);
  R ← read_rmutex rmutex;
  if refcount R =? 0 then
    _ ← modify_rmutex rmutex (set_owner KERNEL_PID_UNDEF);
    mutex_unlock rmutex
  else mret tt.

(** ** The abstract recursive mutex *)

(** Free; held [n] times by the thread [p]; or given to a waiter that has not
    run yet. *)
Inductive rmutex_abs : Type :=
  | Free
  | Held (p n : Z) (waiters : list Z)
  | Given (waiters : list Z).

Definition rmutex_is st Q (r : Z) (m : rmutex_abs) : Prop :=
  match m with
  | Free => rmutexes st !! r = Some (Rmutex 0 KERNEL_PID_UNDEF) ∧ mutex_is st Q r Unlocked
  | Held p n l => rmutexes st !! r = Some (Rmutex n p) ∧ mutex_is st Q r (Locked l) ∧
                  0 < n < 65536 ∧ p ≠ KERNEL_PID_UNDEF
  | Given l => rmutexes st !! r = Some (Rmutex 0 KERNEL_PID_UNDEF) ∧ mutex_is st Q r (Locked l)
  end.

Lemma lock_owned_spec st r n p :
  rmutexes st !! r = Some (Rmutex n p) →
  _lock_owned r st = Ok (1, set_rmutexes (<[r := Rmutex (u16 (n + 1)) (sched_active_pid st)]> (rmutexes st)) st).
Proof.
  intros E. unfold _lock_owned, thread_getpid. ksimpl. unfold modify_rmutex. unfold mbind, M_bind.
  rewrite E. simpl. rewrite lookup_insert_eq. simpl. by rewrite insert_insert_eq.
Qed.

Lemma running_rmutexes Q st t T v : running Q st t T → running Q (set_rmutexes v st) t T.
Proof. intros [Hk ? ? ? ?]. split; try done. kenv Hk. Qed.

Lemma u16_succ n : 0 <= n < 65535 → u16 (n + 1) = n + 1.
Proof. intros. unfold u16. apply Z.mod_small. lia. Qed.

Lemma read_rmutex_Ok st r R : rmutexes st !! r = Some R → read_rmutex r st = Ok (R, st).
Proof. intros E. unfold read_rmutex. by rewrite E. Qed.

(** ** Operations *)

(** Taking a free mutex. *)
Lemma rmutex_lock_free Q st t T r try :
  running Q st t T → rmutex_is st Q r Free →
  ∃ st', _lock r try st = Ok (Return 1, st') ∧ running Q st' t T ∧ rmutex_is st' Q r (Held (pid T) 1 []).
Proof.
  intros Hr [HR Hm]. destruct (running_pid _ _ _ _ Hr) as [Hp Hpb].
  destruct (mutex_lock_free _ _ _ _ r 0 Hr Hm) as (st1 & E & Hr1 & Hm1).
  assert (rmutexes st1 = rmutexes st ∧ sched_active_pid st1 = sched_active_pid st) as [Hrm Hap].
  { unfold _mutex_lock in E. rewrite bind_irq_disable, bind_gets in E. kproj.
    destruct Hm as [Hh _]. cbn [heap set_irq_enabled] in E. rewrite Hh in E.
    unfold set_queue in E. rewrite bind_modify, bind_irq_restore in E. by injection E as <-. }
  rewrite <- Hrm in HR. eexists. split; [|split].
  - unfold _lock, mutex_trylock. kstep E. simpl. kstep (lock_owned_spec st1 r 0 _ HR). done.
  - by apply running_rmutexes.
  - simpl. rewrite lookup_insert_eq, Hap, Hp. split; [done|]. split; [apply Hm1|klia].
Qed.

(** Taking it again. *)
Lemma rmutex_relock Q st t T r try n l :
  running Q st t T → rmutex_is st Q r (Held (pid T) n l) → n < 65535 →
  ∃ st', _lock r try st = Ok (Return 1, st') ∧ running Q st' t T ∧
         rmutex_is st' Q r (Held (pid T) (n + 1) l).
Proof.
  intros Hr (HR & Hm & Hn & Hp0) Hlt. destruct (running_pid _ _ _ _ Hr) as [Hp Hpb].
  eexists. split; [|split].
  - unfold _lock, mutex_trylock. kstep (mutex_trylock_busy Q st r l (run_kinv _ _ _ _ Hr) Hm). simpl.
    kstep (read_rmutex_Ok _ _ _ HR). unfold thread_getpid. ksimpl. rewrite Hp, Z.eqb_refl. simpl.
    kstep (lock_owned_spec st r n _ HR). done.
  - by apply running_rmutexes.
  - simpl. rewrite lookup_insert_eq, Hp, u16_succ by lia. split; [done|]. split; [done|]. lia.
Qed.

(** What the other threads find. *)
Definition busy_for (p : Z) (m : rmutex_abs) (l : list Z) : Prop :=
  (∃ p' n, m = Held p' n l ∧ p' ≠ p) ∨ m = Given l.

Lemma busy_owner st Q t T r m l :
  running Q st t T → rmutex_is st Q r m → busy_for (pid T) m l →
  ∃ R, rmutexes st !! r = Some R ∧ mutex_is st Q r (Locked l) ∧ owner R ≠ pid T.
Proof.
  intros Hr Hm [(p' & n & -> & Hne)| ->].
  - destruct Hm as (HR & Hm & _). by eexists.
  - destruct Hm as (HR & Hm). eexists. split; [done|]. split; [done|].
    destruct (running_pid _ _ _ _ Hr). klia.
Qed.

Lemma rmutex_trylock_busy Q st t T r m l try :
  running Q st t T → rmutex_is st Q r m → busy_for (pid T) m l → try ≠ 0 →
  _lock r try st = Ok (Return 0, st).
Proof.
  intros Hr Hm Hb Ht. destruct (busy_owner _ _ _ _ _ _ _ Hr Hm Hb) as (R & HR & Hmx & Ho).
  destruct (running_pid _ _ _ _ Hr) as [Hp _].
  unfold _lock, mutex_trylock. kstep (mutex_trylock_busy Q st r l (run_kinv _ _ _ _ Hr) Hmx). simpl.
  kstep (read_rmutex_Ok _ _ _ HR). unfold thread_getpid. ksimpl. rewrite Hp.
  rewrite (proj2 (Z.eqb_neq _ _) Ho), (proj2 (Z.eqb_neq _ _) Ht). done.
Qed.

Lemma rmutex_lock_wait Q st t T r m l :
  running Q st t T → in_isr st = false → other_ready st t →
  rmutex_is st Q r m → busy_for (pid T) m l →
  let l' := insert_by (prio_of st) t l in
  let Q' := <[MUTEX_QUEUE r := l']> (rq_pop Q (priority T)) in
  ∃ st', _lock r 0 st = Ok (Wait, st') ∧ settled Q' st' ∧
    tcbs st' !! t = Some (set_status STATUS_MUTEX_BLOCKED T) ∧
    rmutex_is st' Q' r match m with Held p n _ => Held p n l' | _ => Given l' end.
Proof.
  intros Hr Hi Hoth Hm Hb l' Q'. destruct (busy_owner _ _ _ _ _ _ _ Hr Hm Hb) as (R & HR & Hmx & Ho).
  destruct (running_pid _ _ _ _ Hr) as [Hp _].
  destruct (mutex_lock_wait _ _ _ _ r 1 l Hr Hi Hoth Hmx) as (st' & E & Hs & HT & _ & Hrm); [done|].
  exists st'. split; [|split; [done|split; [done|]]].
  - unfold _lock, mutex_trylock. kstep (mutex_trylock_busy Q st r l (run_kinv _ _ _ _ Hr) Hmx). simpl.
    kstep (read_rmutex_Ok _ _ _ HR). unfold thread_getpid. ksimpl. rewrite Hp.
    rewrite (proj2 (Z.eqb_neq _ _) Ho). cbn [negb]. ksimpl. unfold mutex_lock. ksimpl.
    kstep E. ksimpl. rewrite decide_False; [done|]. rewrite (run_active _ _ _ _ Hr). intros Ha.
    destruct (settled_running _ _ _ _ Hs Ha HT) as [_ _ [_ ?] _ _]. klia.
  - assert (mutex_is st' Q' r (Locked l')) as Hm'.
    { destruct l' as [|x l''] eqn:El; [|apply fn_lookup_insert].
      pose proof (insert_by_perm (prio_of st) t l) as Hperm. fold l' in Hperm. rewrite El in Hperm.
      by apply Permutation_nil_cons in Hperm. }
    destruct Hb as [(p' & n & -> & _)| ->]; simpl in Hm |- *; rewrite Hrm; naive_solver.
Qed.

(** ** Unlocking *)

Lemma rmutex_unlock_spec st r n p :
  rmutexes st !! r = Some (Rmutex n p) → sched_active_pid st = p → 0 < n < 65536 →
  rmutex_unlock r st =
    if n =? 1
    then mutex_unlock r (set_rmutexes (<[r := Rmutex 0 KERNEL_PID_UNDEF]> (rmutexes st)) st)
    else Ok (tt, set_rmutexes (<[r := Rmutex (n - 1) p]> (rmutexes st)) st).
Proof.
  intros HR Hp Hn. unfold rmutex_unlock, thread_getpid. kstep (read_rmutex_Ok _ _ _ HR). ksimpl.
  rewrite Hp. cbn [owner refcount]. rewrite Z.eqb_refl. assert ((0 <? n) = true) as -> by lia. ksimpl.
  assert (u16 (n - 1) = n - 1) as Hu by (unfold u16; apply Z.mod_small; lia).
  assert (modify_rmutex r (λ R, set_refcount (u16 (refcount R - 1)) R) st =
    Ok (tt, set_rmutexes (<[r := Rmutex (n - 1) p]> (rmutexes st)) st)) as E.
  { unfold modify_rmutex. rewrite HR. unfold set_refcount. simpl. by rewrite Hu. }
  kstep E. kstep (read_rmutex_Ok (set_rmutexes _ st) r _ (lookup_insert_eq _ _ _)). cbn [refcount].
  destruct (Z.eqb_spec n 1) as [->|Hne]; [|assert ((n - 1 =? 0) = false) as -> by lia; done].
  simpl. unfold mbind, M_bind, modify_rmutex. simpl. rewrite lookup_insert_eq. simpl.
  by rewrite insert_insert_eq.
Qed.

(** The rest of a lock call that waited: the waker has given the caller the
    mutex. *)
Lemma lock_owned_given Q st t T r l :
  running Q st t T → rmutex_is st Q r (Given l) →
  ∃ st', _lock_owned r st = Ok (1, st') ∧ running Q st' t T ∧ rmutex_is st' Q r (Held (pid T) 1 l).
Proof.
  intros Hr [HR Hm]. destruct (running_pid _ _ _ _ Hr) as [Hp Hpb].
  eexists. split; [by eapply lock_owned_spec|]. split; [by apply running_rmutexes|].
  simpl. rewrite lookup_insert_eq, Hp. split; [done|]. split; [done|]. klia.
Qed.

Lemma rmutex_unlock_last Q st t T r l :
  running Q st t T → rmutex_is st Q r (Held (pid T) 1 l) →
  ∃ st' Q', rmutex_unlock r st = Ok (tt, st') ∧ settled Q' st' ∧
    rmutex_is st' Q' r match l with [] => Free | _ :: l => Given l end ∧
    match l with
    | [] => Q' = Q
    | u :: l => ∃ U, thr st u U ∧ Q' = rq_push (<[MUTEX_QUEUE r := l]> Q) (priority U) u
    end.
Proof.
  intros Hr (HR & Hm & _). destruct (running_pid _ _ _ _ Hr) as [Hp Hpb].
  rewrite (rmutex_unlock_spec _ _ _ _ HR Hp) by lia. rewrite Z.eqb_refl.
  set (st1 := set_rmutexes _ st). assert (running Q st1 t T) as Hr1 by (by apply running_rmutexes).
  assert (rmutexes st1 !! r = Some (Rmutex 0 KERNEL_PID_UNDEF)) as HR1 by apply lookup_insert_eq.
  destruct l as [|u l].
  - destruct (mutex_unlock_last Q st1 t T r Hr1 Hm) as (st' & E & Hr' & Hm').
    exists st', Q. split; [done|]. split; [by exists t, T|]. split; [|done]. split; [|done].
    unfold mutex_unlock in E. rewrite bind_irq_disable, bind_gets in E.
    destruct Hm as [Hh _]. cbn [heap set_irq_enabled] in E.
    change (heap st1) with (heap st) in E. rewrite Hh, decide_True in E by done.
    unfold set_queue in E. rewrite bind_modify in E. by injection E as <-.
  - destruct (mutex_unlock_pass Q st1 t T r u l Hr1 Hm) as (U & st' & HU & _ & E & Hs & Hm' & Hrm & _).
    eexists st', _. split; [done|]. split; [exact Hs|]. split; [split; [by rewrite Hrm|done]|].
    by exists U.
Qed.

(** ** The theorems *)

(** C27: locking a recursive mutex. Free: taken with count 1. Held by the
    caller: the count goes up (it is below 65535). Held by, or given to, another
    thread: [rmutex_trylock] returns 0 and changes nothing, [rmutex_lock] queues
    and blocks the caller without touching owner and count; and when a waiter to
    whom the mutex was given runs on, it becomes the owner with count 1. *)
Theorem rmutex_lock_correct Q st t T r try m :
  running Q st t T → in_isr st = false → other_ready st t → rmutex_is st Q r m →
  match m with
  | Free => ∃ st', _lock r try st = Ok (Return 1, st') ∧ running Q st' t T ∧
                   rmutex_is st' Q r (Held (pid T) 1 [])
  | Held p n l =>
      if p =? pid T then
        n < 65535 → ∃ st', _lock r try st = Ok (Return 1, st') ∧ running Q st' t T ∧
                           rmutex_is st' Q r (Held p (n + 1) l)
      else if try =? 0 then
        ∃ st' Q', _lock r try st = Ok (Wait, st') ∧ settled Q' st' ∧
          rmutex_is st' Q' r (Held p n (insert_by (prio_of st) t l))
      else _lock r try st = Ok (Return 0, st)
  | Given l =>
      (if try =? 0 then
         ∃ st' Q', _lock r try st = Ok (Wait, st') ∧ settled Q' st' ∧
           rmutex_is st' Q' r (Given (insert_by (prio_of st) t l))
       else _lock r try st = Ok (Return 0, st)) ∧
      ∃ st', _lock_owned r st = Ok (1, st') ∧ running Q st' t T ∧
             rmutex_is st' Q r (Held (pid T) 1 l)
  end.
Proof.
  intros Hr Hi Ho Hm. destruct m as [|p n l|l].
  - by apply rmutex_lock_free.
  - destruct (Z.eqb_spec p (pid T)) as [->|Hne]; [by intros; apply rmutex_relock|].
    assert (busy_for (pid T) (Held p n l) l) as Hb by (left; by exists p, n).
    destruct (Z.eqb_spec try 0) as [->|Ht]; [|by eapply rmutex_trylock_busy].
    destruct (rmutex_lock_wait _ _ _ _ _ _ _ Hr Hi Ho Hm Hb) as (st' & E & Hs & _ & Hm').
    by eexists st', _.
  - split; [|by apply lock_owned_given].
    assert (busy_for (pid T) (Given l) l) as Hb by (by right).
    destruct (Z.eqb_spec try 0) as [->|Ht]; [|by eapply rmutex_trylock_busy].
    destruct (rmutex_lock_wait _ _ _ _ _ _ _ Hr Hi Ho Hm Hb) as (st' & E & Hs & _ & Hm').
    by eexists st', _.
Qed.

Lemma rmutex_lock_correct_witness :
  rmutex_is demo_two demo_Q2 60 Free ∧
  ∃ st', _lock 60 0 demo_two = Ok (Return 1, st') ∧ rmutex_is st' demo_Q2 60 (Held 3 1 []).
Proof.
  assert (rmutex_is demo_two demo_Q2 60 Free) as Hm by (split; [vm_compute|split; vm_compute]; reflexivity).
  split; [exact Hm|].
  destruct (rmutex_lock_correct _ _ _ _ 60 0 Free demo_two_running) as (st' & E & _ & Hm');
    [vm_compute; reflexivity|exact demo_two_other|exact Hm|].
  exists st'. split; [exact E|exact Hm'].
Defined.

(** unlocking a recursive mutex. Called by anyone but its owner it runs
    into the assertion. Called by the owner it takes one off the count; the last
    unlock clears the owner and frees the mutex, or gives it to the first
    waiter, which becomes ready. So a mutex locked [n] times is released by
    exactly the [n]-th unlock. *)
Theorem rmutex_unlock_correct Q st t T r p n l :
  running Q st t T → rmutex_is st Q r (Held p n l) →
  if negb (p =? pid T) then rmutex_unlock r st = Fault AssertFailed
  else if 1 <? n then
    ∃ st', rmutex_unlock r st = Ok (tt, st') ∧ running Q st' t T ∧ rmutex_is st' Q r (Held p (n - 1) l)
  else ∃ st' Q', rmutex_unlock r st = Ok (tt, st') ∧ settled Q' st' ∧
    rmutex_is st' Q' r match l with [] => Free | _ :: l => Given l end ∧
    match l with
    | [] => Q' = Q
    | u :: l => ∃ U, thr st u U ∧ Q' = rq_push (<[MUTEX_QUEUE r := l]> Q) (priority U) u
    end.
Proof.
  intros Hr Hm. pose proof Hm as (HR & Hmx & Hn & Hp0). destruct (running_pid _ _ _ _ Hr) as [Hp Hpb].
  destruct (Z.eqb_spec p (pid T)) as [->|Hne]; simpl.
  - destruct (Z.ltb_spec 1 n).
    + rewrite (rmutex_unlock_spec _ _ _ _ HR Hp) by lia. rewrite (proj2 (Z.eqb_neq n 1)) by lia.
      eexists. split; [done|]. split; [by apply running_rmutexes|].
      simpl. rewrite lookup_insert_eq. split; [done|]. split; [done|]. split; [lia|done].
    + assert (n = 1) as -> by lia. by eapply rmutex_unlock_last.
  - unfold rmutex_unlock, thread_getpid. kstep (read_rmutex_Ok _ _ _ HR). ksimpl.
    rewrite Hp. cbn [owner]. by rewrite (proj2 (Z.eqb_neq _ _) Hne).
Qed.

Lemma demo_rlocked :
  running demo_Q2 (after (_lock 60 0) demo_two) 3360 (demo_high STATUS_RUNNING) ∧
  rmutex_is (after (_lock 60 0) demo_two) demo_Q2 60 (Held 3 1 []).
Proof.
  assert (rmutex_is demo_two demo_Q2 60 Free) as Hm by (split; [vm_compute|split; vm_compute]; reflexivity).
  destruct (rmutex_lock_free _ _ _ _ 60 0 demo_two_running Hm) as (st' & E & Hr & Hm').
  rewrite (after_Ok _ _ _ _ E). split; [exact Hr|exact Hm'].
Qed.

Lemma rmutex_unlock_correct_witness :
  ∃ st' Q', rmutex_unlock 60 (after (_lock 60 0) demo_two) = Ok (tt, st') ∧ settled Q' st' ∧
    rmutex_is st' Q' 60 Free.
Proof.
  destruct demo_rlocked as [Hr Hm].
  destruct (rmutex_unlock_correct _ _ _ _ 60 3 1 [] Hr Hm) as (st' & Q' & E & Hs & Hm' & _).
  exists st', Q'. split; [exact E|]. split; [exact Hs|exact Hm'].
Defined.
