(* ===== verification/ThreadFlags.v ===== *)
(** * core/thread_flags.c: thread flags

    A waiting call blocks with the mask it waits for in [wait_data]; what it
    does after its context switch is a definition of its own ([..._resume]). *)

From S2P Require Import Prelude LinkedList Cib Bitarithm Kernel KernelInv Thread.
Open Scope Z_scope.
Implicit Types (Q : node → list Z) (st : kstate) (T : thread_t).

Definition THREAD_FLAG_MSG_WAITING : Z := Z.shiftl 1 15.

Definition _thread_flags_clear_atomic (thread : Z) (mask : Z) : M Z :=
  state ← irq_disable;
  T ← get_thread thread;
  let mask := Z.land mask (flags T) in
  _ ← modify_thread thread (set_flags (Z.land (flags T) (u16 (Z.lnot mask))));
  _ ← irq_restore state;
  mret mask.

Definition _thread_flags_wait (mask : Z) (thread : Z) (threadstate : Z) (irqstate : bool) : M unit :=
  _ ← modify_thread thread (set_wait_data (WMask mask));
  _ ← sched_set_status thread threadstate;
  _ ← irq_restore irqstate;
  thread_yield_higher.

Definition thread_flags_clear (mask : Z) : M Z :=
  a ← gets sched_active_thread;
  me ← nonnull a;
  _thread_flags_clear_atomic me mask.

(** Returns whether the caller was blocked. *)
Definition _thread_flags_wait_any (mask : Z) : M bool :=
  a ← gets sched_active_thread;
  me ← nonnull a;
  state ← irq_disable;
  T ← get_thread me;
  if Z.land (flags T) mask =? 0 then
    _ ← _thread_flags_wait mask me STATUS_FLAG_BLOCKED_ANY state;
    mret true
  else
    _ ← irq_restore state;
    mret false.

Definition thread_flags_wait_any_resume (me : Z) (mask : Z) : M Z :=
  _thread_flags_clear_atomic me mask.

Definition thread_flags_wait_any (mask : Z) : M (outcome Z) :=
  a ← gets sched_active_thread;
  me ← nonnull a;
  blocked ← _thread_flags_wait_any mask;
  if (blocked : bool) then mret Wait
  else v ← thread_flags_wait_any_resume me mask; mret (Return v).

(** [tmp &= (~tmp + 1)] keeps the least significant bit. *)
Definition thread_flags_wait_one_resume (mask : Z) : M Z :=
  a ← gets sched_active_thread;
  me ← nonnull a;
  T ← get_thread me;
  let tmp := Z.land (flags T) mask in
  let tmp := Z.land tmp (u16 (Z.lnot tmp + 1)) in
  _thread_flags_clear_atomic me tmp.

Definition thread_flags_wait_one (mask : Z) : M (outcome Z) :=
  blocked ← _thread_flags_wait_any mask;
  if (blocked : bool) then mret Wait
  else v ← thread_flags_wait_one_resume mask; mret (Return v).

Definition thread_flags_wait_all (mask : Z) : M (outcome Z) :=
  state ← irq_disable;
  a ← gets sched_active_thread;
  me ← nonnull a;
  T ← get_thread me;
  if negb (Z.land (flags T) mask =? mask) then
    _ ← _thread_flags_wait mask me STATUS_FLAG_BLOCKED_ALL state;
    mret Wait
  else
    _ ← irq_restore state;
    v ← thread_flags_wait_any_resume me mask;
    mret (Return v).

(** The mask a flag-blocked thread waits for. *)
Definition wait_mask (w : wdata) : M Z :=
  match w with WMask m => mret (u16 m) | WNull => mret 0 | WMsg _ => fault_ BadPointer end.

Definition thread_flags_wake (thread : Z) : M Z :=
  T ← get_thread thread;
  wakeup ←
    (if status T =? STATUS_FLAG_BLOCKED_ANY then
       mask ← wait_mask (wait_data T); mret (Z.land (flags T) mask)
     else if status T =? STATUS_FLAG_BLOCKED_ALL then
       mask ← wait_mask (wait_data T); mret (b2z (Z.land (flags T) mask =? mask))
     else mret 0);
  _ ← when (negb (wakeup =? 0))
        (_ ← sched_set_status thread STATUS_PENDING;
         modify (set_sched_context_switch_request 1));
  mret wakeup.

Definition thread_flags_set (thread : Z) (mask : Z) : M unit :=
  state ← irq_disable;
  _ ← modify_thread thread (λ T, set_flags (Z.lor (flags T) mask) T);
  wakeup ← thread_flags_wake thread;
  if negb (wakeup =? 0) then
    _ ← irq_restore state;
    thread_yield_higher
  else irq_restore state.

(** ** Waiting conditions *)

Definition flag_blocked T : Prop :=
  status T = STATUS_FLAG_BLOCKED_ANY ∨ status T = STATUS_FLAG_BLOCKED_ALL.

(** What a flag-blocked thread waits for has not happened: it has recorded a
    16-bit mask, and no bit (not every bit) of it is set. *)
Definition flags_pending T : Prop :=
  (status T = STATUS_FLAG_BLOCKED_ANY →
     ∃ m, wait_data T = WMask m ∧ 0 <= m < 65536 ∧ Z.land (flags T) m = 0) ∧
  (status T = STATUS_FLAG_BLOCKED_ALL →
     ∃ m, wait_data T = WMask m ∧ 0 <= m < 65536 ∧ Z.land (flags T) m ≠ m).

(** The mask of a flag-blocked thread. *)
Definition masked T : Prop := flag_blocked T → ∃ m, wait_data T = WMask m ∧ 0 <= m < 65536.

(** The value [thread_flags_wake] computes. *)
Definition wakeup T : Z :=
  match wait_data T with
  | WMask m =>
      if status T =? STATUS_FLAG_BLOCKED_ANY then Z.land (flags T) m
      else if status T =? STATUS_FLAG_BLOCKED_ALL then b2z (Z.land (flags T) m =? m)
      else 0
  | _ => 0
  end.

Lemma u16_id m : 0 <= m < 65536 → u16 m = m.
Proof. intros. unfold u16. by apply Z.mod_small. Qed.

Lemma thread_flags_wake_eq st u U :
  tcbs st !! u = Some U → masked U →
  thread_flags_wake u st =
    (_ ← when (negb (wakeup U =? 0))
           (_ ← sched_set_status u STATUS_PENDING; modify (set_sched_context_switch_request 1));
     mret (wakeup U)) st.
Proof.
  intros HU Hm. unfold thread_flags_wake. kget HU. unfold wakeup, wait_mask.
  destruct (Z.eqb_spec (status U) STATUS_FLAG_BLOCKED_ANY) as [Es|Es].
  { destruct Hm as (m & -> & Hb); [by left|]. ksimpl. by rewrite u16_id. }
  destruct (Z.eqb_spec (status U) STATUS_FLAG_BLOCKED_ALL) as [Es2|Es2].
  { destruct Hm as (m & -> & Hb); [by right|]. ksimpl. by rewrite u16_id. }
  ksimpl. by destruct (wait_data U).
Qed.

Lemma wakeup_blocked U : wakeup U ≠ 0 → flag_blocked U.
Proof.
  unfold wakeup, flag_blocked. destruct (wait_data U); [done|done|].
  destruct (Z.eqb_spec (status U) STATUS_FLAG_BLOCKED_ANY); [auto|].
  destruct (Z.eqb_spec (status U) STATUS_FLAG_BLOCKED_ALL); [auto|done].
Qed.

Lemma wakeup_pending U : masked U → wakeup U = 0 ↔ flags_pending U.
Proof.
  intros Hm. unfold wakeup, flags_pending.
  destruct (Z.eqb_spec (status U) STATUS_FLAG_BLOCKED_ANY) as [Es|Es].
  { destruct Hm as (m & -> & Hb); [by left|]. split.
    - intros H. split; [by exists m|]. rewrite Es. done.
    - intros [H _]. destruct (H Es) as (m' & [= <-] & _ & ?). done. }
  destruct (Z.eqb_spec (status U) STATUS_FLAG_BLOCKED_ALL) as [Es2|Es2].
  { destruct Hm as (m & -> & Hb); [by right|]. destruct (Z.eqb_spec (Z.land (flags U) m) m); split.
    - done.
    - intros [_ H]. destruct (H Es2) as (m' & [= <-] & _ & ?). done.
    - intros _. split; [done|]. by exists m.
    - done. }
  destruct (wait_data U); naive_solver.
Qed.

(** Waking: the thread joins its run queue and a switch is requested. *)
Lemma thread_flags_wake_due Q st u U :
  kinv Q st → thr st u U → masked U → wakeup U ≠ 0 →
  ∃ h b, let st' := set_sched_context_switch_request 1
                      (upd3 st h b (<[u := set_status STATUS_PENDING U]> (tcbs st))) in
    thread_flags_wake u st = Ok (wakeup U, st') ∧ kinv (rq_push Q (priority U) u) st'.
Proof.
  intros Hk HU Hm Hw. pose proof (wakeup_blocked _ Hw) as Hfb.
  assert (status U < STATUS_ON_RUNQUEUE) as Hb by (destruct Hfb as [-> | ->]; klia).
  assert (∀ q, u ∉ Q q) as Hn.
  { eapply unlisted; [done..|]. unfold unlisted_status. destruct Hfb; tauto. }
  destruct (sched_set_status_wake Q st u U STATUS_PENDING) as (h & b & E & Hk1 & _); [done..|klia|].
  exists h, b. split; [|kenv Hk1].
  rewrite (thread_flags_wake_eq _ _ _ (proj1 HU) Hm), (proj2 (Z.eqb_neq _ _) Hw). ksimpl.
  kstep E. by ksimpl.
Qed.

Lemma thread_flags_wake_not_due st u U :
  tcbs st !! u = Some U → masked U → wakeup U = 0 → thread_flags_wake u st = Ok (0, st).
Proof. intros HU Hm Hw. rewrite (thread_flags_wake_eq _ _ _ HU Hm), Hw. done. Qed.

(** ** Setting flags *)

Lemma running_irq Q st t T b : running Q st t T → running Q (set_irq_enabled b st) t T.
Proof. intros [Hk ? ? ? ?]. split; try done. kenv Hk. Qed.

Lemma thread_flags_set_due Q st t T u U mask :
  running Q st t T → thr st u U →
  let U1 := set_flags (Z.lor (flags U) mask) U in
  masked U → wakeup U1 ≠ 0 →
  ∃ st' s, thread_flags_set u mask st = Ok (tt, st') ∧ settled (rq_push Q (priority U) u) st' ∧
    tcbs st' !! u = Some (set_status s U1) ∧ STATUS_ON_RUNQUEUE <= s.
Proof.
  intros Hr HU U1 Hm Hw. pose proof (run_kinv _ _ _ _ Hr) as Hk.
  set (st0 := set_tcbs (<[u := U1]> (tcbs st)) (set_irq_enabled false st)).
  assert (kinv Q st0) as Hk0.
  { pose proof (kinv_tcb Q st u U U1 Hk HU eq_refl eq_refl eq_refl) as H. kenv H. }
  assert (thr st0 u U1) as HU1 by (split; [apply lookup_insert_eq|apply HU]).
  destruct (thread_flags_wake_due Q st0 u U1 Hk0 HU1 Hm Hw) as (h & b & E & Hk1).
  set (st1 := set_sched_context_switch_request 1 _) in *.
  assert (status U < STATUS_ON_RUNQUEUE) as Hb.
  { destruct (wakeup_blocked _ Hw) as [Es|Es]; simpl in Es; klia. }
  pose proof (running_ne _ _ _ _ _ _ Hr HU Hb) as Hne.
  assert (ready (set_irq_enabled (irq_enabled st) st1) t T) as HT.
  { destruct Hr as [_ _ [[HT Hp] Hs] _ _]. split; [split; [|exact Hp]|done].
    simpl. by rewrite !lookup_insert_ne. }
  assert (∃ st', thread_yield_higher (set_irq_enabled (irq_enabled st) st1) = Ok (tt, st') ∧
    settled (rq_push Q (priority U) u) st' ∧ yielded (set_irq_enabled (irq_enabled st) st1) st')
    as (st' & E' & Hset & Hy).
  { destruct (in_isr st) eqn:Hi.
    - eexists. split; [by apply yield_isr|]. split; [|right; by left].
      exists t, T. split; [kenv Hk1|apply Hr|done|apply rq_push_head, Hr|by right].
    - apply yield_thread; [kenv Hk1|done|by exists t, T]. }
  destruct (yielded_tcb _ _ u (set_status STATUS_PENDING U1) Hy) as (s & Hs & _ & Hss); [apply lookup_insert_eq|].
  exists st', s. split; [|split; [done|split; [done|apply Hss; klia]]].
  unfold thread_flags_set. ksimpl. kstep (modify_thread_Ok (set_irq_enabled false st) u U _ (proj1 HU)).
  fold U1 st0. kstep E. rewrite (proj2 (Z.eqb_neq _ _) Hw). cbn [negb]. ksimpl. exact E'.
Qed.

Lemma thread_flags_set_not_due st u U mask :
  tcbs st !! u = Some U →
  let U1 := set_flags (Z.lor (flags U) mask) U in
  masked U → wakeup U1 = 0 →
  thread_flags_set u mask st = Ok (tt, set_tcbs (<[u := U1]> (tcbs st)) st).
Proof.
  intros HU U1 Hm Hw. unfold thread_flags_set. ksimpl.
  kstep (modify_thread_Ok (set_irq_enabled false st) u U _ HU). fold U1.
  kstep (thread_flags_wake_not_due (set_tcbs _ _) u U1 (lookup_insert_eq _ _ _) Hm Hw). by destruct st.
Qed.

(** ** Clearing flags *)

Lemma ldiff_u16 f m : 0 <= f < 65536 → Z.land f (u16 (Z.lnot (Z.land m f))) = Z.ldiff f m.
Proof.
  intros Hf. apply Z.bits_inj'. intros i Hi. rewrite Z.land_spec, Z.ldiff_spec.
  destruct (decide (i < 16)) as [Hlt|Hge].
  - unfold u16. change 65536 with (2 ^ 16). rewrite Z.mod_pow2_bits_low by lia.
    rewrite Z.lnot_spec, Z.land_spec by lia. by destruct (Z.testbit f i), (Z.testbit m i).
  - by rewrite (testbit_above 16 f i) by (done || lia).
Qed.

(** The isolated least significant bit. *)
Lemma lowest_bit v :
  0 < v < 65536 →
  ∃ k, 0 <= k < 16 ∧ Z.land v (u16 (Z.lnot v + 1)) = 2 ^ k ∧ Z.testbit v k = true ∧
       ∀ j, 0 <= j < k → Z.testbit v j = false.
Proof.
  intros Hv. assert (∀ p : positive, ∃ k q, 0 <= k ∧ 0 <= q ∧ Zpos p = (2 * q + 1) * 2 ^ k) as Hdec.
  { intros p. induction p as [p _|p (k & q & Hk & Hq & E)|].
    - exists 0, (Zpos p). lia.
    - exists (k + 1), q. split; [lia|]. split; [done|].
      rewrite Pos2Z.inj_xO, E, Z.pow_add_r by lia. lia.
    - by exists 0, 0. }
  destruct v as [|p|p]; try lia. destruct (Hdec p) as (k & q & Hk & Hq & E). rewrite E in *. clear E p Hdec.
  assert (k < 16) as Hk16.
  { destruct (decide (k < 16)) as [|Hge]; [done|].
    assert (2 ^ 16 <= 2 ^ k) by (apply Z.pow_le_mono_r; lia). nia. }
  exists k. split; [lia|]. split; [|split].
  - apply Z.bits_inj'. intros i Hi. rewrite Z.land_spec, Z.pow2_bits_eqb by lia.
    assert (Z.lnot ((2 * q + 1) * 2 ^ k) + 1 = (2 * Z.lnot q + 1) * 2 ^ k) as ->.
    { unfold Z.lnot. lia. }
    destruct (decide (i < 16)) as [Hlt|Hge]; [|rewrite (testbit_above 16) by lia; lia].
    unfold u16. change 65536 with (2 ^ 16). rewrite Z.mod_pow2_bits_low by lia.
    rewrite !Z.mul_pow2_bits by lia. destruct (Z.eqb_spec k i) as [->|Hne].
    + by rewrite Z.sub_diag, !Z.testbit_odd_0.
    + destruct (decide (i < k)); [by rewrite !(Z.testbit_neg_r _ (i - k)) by lia|].
      replace (i - k) with (Z.succ (i - k - 1)) by lia. rewrite !Z.testbit_odd_succ by lia.
      rewrite Z.lnot_spec by lia. by destruct (Z.testbit q _).
  - rewrite Z.mul_pow2_bits, Z.sub_diag by lia. apply Z.testbit_odd_0.
  - intros j Hj. rewrite Z.mul_pow2_bits by lia. apply Z.testbit_neg_r. lia.
Qed.

Lemma clear_atomic_Ok st t T mask :
  tcbs st !! t = Some T → 0 <= flags T < 65536 →
  _thread_flags_clear_atomic t mask st =
    Ok (Z.land mask (flags T), set_tcbs (<[t := set_flags (Z.ldiff (flags T) mask) T]> (tcbs st)) st).
Proof.
  intros HT Hf. unfold _thread_flags_clear_atomic. ksimpl. kget HT.
  kstep (modify_thread_Ok (set_irq_enabled false st) t T _ HT). ksimpl. rewrite ldiff_u16 by done.
  by destruct st.
Qed.

Lemma wait_one_resume_Ok st t T mask :
  sched_active_thread st = Some t → tcbs st !! t = Some T → 0 <= flags T < 65536 →
  let v := Z.land (flags T) mask in
  let w := Z.land v (u16 (Z.lnot v + 1)) in
  thread_flags_wait_one_resume mask st =
    Ok (Z.land w (flags T), set_tcbs (<[t := set_flags (Z.ldiff (flags T) w) T]> (tcbs st)) st).
Proof.
  intros Ha HT Hf v w. unfold thread_flags_wait_one_resume. ksimpl. rewrite Ha. ksimpl. kget HT.
  by rewrite (clear_atomic_Ok _ _ _ _ HT Hf).
Qed.

(** ** Waiting *)

Lemma thread_flags_wait_blocks Q st t T mask s e :
  running Q st t T → in_isr st = false → other_ready st t →
  s = STATUS_FLAG_BLOCKED_ANY ∨ s = STATUS_FLAG_BLOCKED_ALL →
  ∃ st', _thread_flags_wait mask t s e (set_irq_enabled false st) = Ok (tt, st') ∧
    settled (rq_pop Q (priority T)) st' ∧
    tcbs st' !! t = Some (set_status s (set_wait_data (WMask mask) T)).
Proof.
  intros Hr Hi Ho Hs. pose proof Hr as [Hk Ha [HT HTs] Hhd _].
  set (T1 := set_wait_data (WMask mask) T).
  set (st0 := set_tcbs (<[t := T1]> (tcbs st)) (set_irq_enabled false st)).
  assert (kinv Q st0) as Hk0.
  { pose proof (kinv_tcb Q st t T T1 Hk HT eq_refl eq_refl eq_refl) as H. kenv H. }
  assert (thr st0 t T1) as HT1 by (split; [apply lookup_insert_eq|apply HT]).
  destruct (sched_set_status_block Q st0 t T1 s) as (h & b & E & Hk1 & _);
    [done..|destruct Hs as [-> | ->]; klia|].
  set (st1 := upd3 _ _ _ _) in *.
  destruct (yield_thread (rq_pop Q (priority T)) (set_irq_enabled e st1)) as (st2 & E2 & Hset & Hy).
  { kenv Hk1. } { done. }
  { eapply (other_ready_upd st); [done..| |done]. simpl. by rewrite insert_insert_eq. }
  destruct (yielded_tcb _ _ t (set_status s T1) Hy) as (s' & Hs' & Hss & _); [apply lookup_insert_eq|].
  exists st2. split; [|split; [done|]].
  - unfold _thread_flags_wait. kstep (modify_thread_Ok (set_irq_enabled false st) t T _ (proj1 HT)).
    fold T1 st0. kstep E. ksimpl. exact E2.
  - rewrite Hs'. rewrite Hss by (destruct Hs as [-> | ->]; klia). done.
Qed.

Lemma wait_any_running Q st t T mask :
  running Q st t T → in_isr st = false → other_ready st t → 0 <= mask < 65536 → 0 <= flags T < 65536 →
  ∃ st', _thread_flags_wait_any mask st = Ok (Z.land (flags T) mask =? 0, st') ∧
    if Z.land (flags T) mask =? 0
    then settled (rq_pop Q (priority T)) st' ∧
         ∃ T', tcbs st' !! t = Some T' ∧ status T' = STATUS_FLAG_BLOCKED_ANY ∧ flags T' = flags T ∧
               flags_pending T'
    else st' = st.
Proof.
  intros Hr Hi Ho Hm Hf. pose proof Hr as [Hk Ha [[HT _] _] Hhd _].
  unfold _thread_flags_wait_any. ksimpl. rewrite Ha. ksimpl. kget HT.
  destruct (Z.eqb_spec (Z.land (flags T) mask) 0) as [E0|E0].
  - destruct (thread_flags_wait_blocks Q st t T mask STATUS_FLAG_BLOCKED_ANY (irq_enabled st) Hr Hi Ho)
      as (st' & E & Hs & HT'); [by left|].
    exists st'. split; [by kstep E|]. split; [done|]. eexists. split; [done|]. split; [done|].
    split; [done|]. split; [intros _; by exists mask|done].
  - exists st. split; [|done]. ksimpl. by destruct st.
Qed.

(** The thread at 3360 waits for the flags 6, main runs. *)
Definition demo_flag_wait : kstate := after (thread_flags_wait_any 6) demo_two.
Definition demo_waiter : thread_t :=
  Thread 3360 STATUS_FLAG_BLOCKED_ANY 5 3 0 (WMask 6) (CIB_INIT 0) None.

Lemma demo_flag_running : running (rq_pop demo_Q2 5) demo_flag_wait 2360 demo_main.
Proof.
  destruct (wait_any_running _ _ _ _ 6 demo_two_running) as (st & E & Hs & _);
    [by vm_compute|apply demo_two_other|lia|done|].
  assert (thread_flags_wait_any 6 demo_two = Ok (Wait, st)) as E2.
  { unfold thread_flags_wait_any. ksimpl. rewrite (run_active _ _ _ _ demo_two_running). ksimpl. by kstep E. }
  apply settled_running; [|by vm_compute..]. unfold demo_flag_wait. by rewrite (after_Ok _ _ _ _ E2).
Qed.

Lemma demo_flag_waiter : thr demo_flag_wait 3360 demo_waiter ∧ flags_pending demo_waiter.
Proof.
  split; [split; by vm_compute|]. split; [|done]. intros _. exists 6. by repeat split.
Qed.

(** ** The theorems *)

(** C32: [thread_flags_set] never loses a wake-up. The flags are added to the
    thread's flags; if the thread waits for flags, then afterwards it is either
    ready, at the end of its run queue, because the condition it waits for now
    holds, or still waiting with the condition still unmet. The most urgent
    ready thread runs, or the switch is requested from an interrupt. *)
Theorem thread_flags_set_correct Q st t T u U m :
  running Q st t T → thr st u U → flags_pending U →
  ∃ st' Q' U', thread_flags_set u m st = Ok (tt, st') ∧ settled Q' st' ∧
    tcbs st' !! u = Some U' ∧ flags U' = Z.lor (flags U) m ∧ wait_data U' = wait_data U ∧
    ((flag_blocked U ∧ STATUS_ON_RUNQUEUE <= status U' ∧ Q' = rq_push Q (priority U) u ∧
      ¬ flags_pending (set_status (status U) U')) ∨
     (status U' = status U ∧ Q' = Q ∧ flags_pending U')).
Proof.
  intros Hr HU [Hp1 Hp2]. set (U1 := set_flags (Z.lor (flags U) m) U).
  assert (masked U) as Hm.
  { intros [Es|Es]; [destruct (Hp1 Es) as (k & ? & ? & _)|destruct (Hp2 Es) as (k & ? & ? & _)]; by exists k. }
  assert (masked U1) as Hm1 by exact Hm. destruct (decide (wakeup U1 = 0)) as [Hw|Hw].
  - eexists _, Q, U1. split; [by apply (thread_flags_set_not_due _ _ _ _ (proj1 HU) Hm Hw)|].
    split; [|split; [apply lookup_insert_eq|split; [done|split; [done|right]]]].
    + eexists _, _. by eapply (running_tcb _ _ _ _ u U U1 Hr HU).
    + split; [done|]. split; [done|]. by apply wakeup_pending.
  - destruct (thread_flags_set_due _ _ _ _ _ _ _ Hr HU Hm Hw) as (st' & s & E & Hs & HU' & Hss).
    eexists st', _, _. split; [done|]. split; [exact Hs|]. split; [exact HU'|]. split; [done|].
    split; [done|]. left. split; [by apply wakeup_blocked in Hw|]. split; [done|]. split; [done|].
    change (¬ flags_pending U1). by rewrite <- wakeup_pending.
Qed.

Lemma thread_flags_set_correct_witness :
  flags_pending demo_waiter ∧
  ∃ st' Q' U', thread_flags_set 3360 2 demo_flag_wait = Ok (tt, st') ∧ settled Q' st' ∧
    tcbs st' !! 3360 = Some U' ∧ flags U' = 2.
Proof.
  destruct demo_flag_waiter as [HU Hp]. split; [exact Hp|].
  destruct (thread_flags_set_correct _ _ _ _ 3360 demo_waiter 2 demo_flag_running HU Hp)
    as (st' & Q' & U' & E & Hs & HU' & Hf & _).
  exists st', Q', U'. split; [exact E|]. split; [exact Hs|]. split; [exact HU'|exact Hf].
Defined.

(** waiting for any flag of a mask. If one is set, the call returns the
    flags of the mask that are set and clears exactly these. Otherwise the
    caller blocks with its mask recorded, nothing of the mask set, and the most
    urgent ready thread runs. [thread_flags_wait_one] instead returns and clears
    only the least significant of these flags. *)
Theorem thread_flags_wait_correct Q st t T m :
  running Q st t T → in_isr st = false → other_ready st t → 0 <= m < 65536 → 0 <= flags T < 65536 →
  (if Z.land (flags T) m =? 0 then
     ∃ st' T', thread_flags_wait_any m st = Ok (Wait, st') ∧ thread_flags_wait_one m st = Ok (Wait, st') ∧
       settled (rq_pop Q (priority T)) st' ∧ tcbs st' !! t = Some T' ∧
       status T' = STATUS_FLAG_BLOCKED_ANY ∧ flags T' = flags T ∧ flags_pending T'
   else
     thread_flags_wait_any m st = Ok (Return (Z.land m (flags T)),
       set_tcbs (<[t := set_flags (Z.ldiff (flags T) m) T]> (tcbs st)) st) ∧
     ∃ k, 0 <= k < 16 ∧ Z.testbit (Z.land (flags T) m) k = true ∧
       (∀ j, 0 <= j < k → Z.testbit (Z.land (flags T) m) j = false) ∧
       thread_flags_wait_one m st = Ok (Return (2 ^ k),
         set_tcbs (<[t := set_flags (Z.ldiff (flags T) (2 ^ k)) T]> (tcbs st)) st)).
Proof.
  intros Hr Hi Ho Hm Hf. pose proof (run_active _ _ _ _ Hr) as Ha.
  pose proof (proj1 (proj1 (run_ready _ _ _ _ Hr))) as HT.
  destruct (wait_any_running _ _ _ _ m Hr Hi Ho Hm Hf) as (st' & E & Hs).
  assert (thread_flags_wait_any m st = (if Z.land (flags T) m =? 0 then mret Wait
    else v ← thread_flags_wait_any_resume t m; mret (Return v)) st') as E1.
  { unfold thread_flags_wait_any. ksimpl. rewrite Ha. ksimpl. by kstep E. }
  assert (thread_flags_wait_one m st = (if Z.land (flags T) m =? 0 then mret Wait
    else v ← thread_flags_wait_one_resume m; mret (Return v)) st') as E2.
  { unfold thread_flags_wait_one. by kstep E. }
  destruct (Z.eqb_spec (Z.land (flags T) m) 0) as [E0|E0].
  - destruct Hs as (Hs & T' & HT' & Hs1 & Hs2 & Hs3). by exists st', T'.
  - subst st'. split.
    { rewrite E1. unfold thread_flags_wait_any_resume. by kstep (clear_atomic_Ok _ _ _ _ HT Hf). }
    set (v := Z.land (flags T) m) in *.
    assert (0 <= v < 2 ^ 16) by (by apply land_bound).
    destruct (lowest_bit v) as (k & Hk & Ev & Hkt & Hlow); [lia|].
    exists k. split; [done|]. split; [done|]. split; [done|].
    rewrite E2. kstep (wait_one_resume_Ok _ _ _ m Ha HT Hf). fold v. rewrite Ev.
    assert (Z.land (2 ^ k) (flags T) = 2 ^ k) as ->; [|done].
    apply Z.bits_inj'. intros i Hi'. rewrite Z.land_spec, Z.pow2_bits_eqb by lia.
    destruct (Z.eqb_spec k i) as [<-|]; [|done]. unfold v in Hkt. rewrite Z.land_spec in Hkt.
    by apply andb_prop in Hkt as [-> _].
Qed.

Lemma thread_flags_wait_correct_witness :
  Z.land (flags (demo_high STATUS_RUNNING)) 6 = 0 ∧
  ∃ st' T', thread_flags_wait_any 6 demo_two = Ok (Wait, st') ∧ tcbs st' !! 3360 = Some T' ∧
    flags_pending T'.
Proof.
  split; [reflexivity|].
  destruct (thread_flags_wait_correct _ _ _ _ 6 demo_two_running)
    as (st' & T' & E & _ & _ & HT & _ & _ & Hp);
    [vm_compute; reflexivity|exact demo_two_other|lia|vm_compute; split; congruence|].
  exists st', T'. split; [exact E|]. split; [exact HT|exact Hp].
Defined.
