(* ===== verification/Msg.v ===== *)
(** * core/msg.c: messages between threads

    [m] and [reply] are pointers to message buffers. A blocked sender and a
    blocked receiver keep such a pointer in [wait_data]; the peer copies the
    message through it. After its context switch a blocked call only returns 1,
    so the value here is the one its caller sees. *)

From S2P Require Import Prelude LinkedList Cib Bitarithm Kernel KernelInv Thread ThreadFlags.
Open Scope Z_scope.
Implicit Types (Q : node → list Z) (st : kstate) (T : thread_t).

Definition set_sender_pid (p : Z) (m : msg_t) : msg_t := Msg p (type_ m) (content m).

(** [*dst = *src] *)
Definition copy_msg (dst src : mptr) : M unit :=
  v ← read_msg src;
  write_msg dst v.

(** [wait_data] used as a message pointer. *)
Definition wait_msg (w : wdata) : M mptr :=
  match w with WMsg p => mret p | WNull => fault_ NullDeref | WMask _ => fault_ BadPointer end.

Definition queue_msg (target : Z) (m : mptr) : M Z :=
  T ← get_thread target;
  let '(n, q) := cib_put (msg_queue T) in
  _ ← modify_thread target (set_msg_queue q);
  if n <? 0 then mret 0
  else
    array ← nonnull (msg_array T);
    _ ← copy_msg (array, n) m;
    _ ← modify_thread target (λ T, set_flags (Z.lor (flags T) THREAD_FLAG_MSG_WAITING) T);
    _ ← thread_flags_wake target;
    mret 1.

Definition _msg_send (m : mptr) (target_pid : Z) (block : bool) (state : bool) : M Z :=
  target ← sched_threads_at target_pid;
  me_pid ← gets sched_active_pid;
  v ← read_msg m;
  _ ← write_msg m (set_sender_pid me_pid v);
  match target with
  | None => _ ← irq_restore state; mret (-1)
  | Some target =>
      a ← gets sched_active_thread;
      me ← nonnull a;
      T ← get_thread target;
      if negb (status T =? STATUS_RECEIVE_BLOCKED) then
        q ← queue_msg target m;
        if negb (q =? 0) then
          _ ← irq_restore state;
          Tme ← get_thread me;
          _ ← when (status Tme =? STATUS_REPLY_BLOCKED) thread_yield_higher;
          mret 1
        else if negb block then
          _ ← irq_restore state;
          mret 0
        else
          _ ← modify_thread me (set_wait_data (WMsg m));
          Tme ← get_thread me;
          let newstatus := if status Tme =? STATUS_REPLY_BLOCKED then STATUS_REPLY_BLOCKED
                           else STATUS_SEND_BLOCKED in
          _ ← sched_set_status me newstatus;
          _ ← thread_add_to_list (MSG_WAITERS target) me;
          _ ← modify_thread target (λ T, set_flags (Z.lor (flags T) THREAD_FLAG_MSG_WAITING) T);
          _ ← thread_flags_wake target;
          _ ← irq_restore state;
          _ ← thread_yield_higher;
          mret 1
      else
        target_message ← wait_msg (wait_data T);
        _ ← copy_msg target_message m;
        _ ← sched_set_status target STATUS_PENDING;
        _ ← irq_restore state;
        _ ← thread_yield_higher;
        mret 1
  end.

Definition msg_send_to_self (m : mptr) : M Z :=
  state ← irq_disable;
  me_pid ← gets sched_active_pid;
  v ← read_msg m;
  _ ← write_msg m (set_sender_pid me_pid v);
  a ← gets sched_active_thread;
  me ← nonnull a;
  res ← queue_msg me m;
  _ ← irq_restore state;
  mret res.

Definition msg_send_int (m : mptr) (target_pid : Z) : M Z :=
  target ← sched_threads_at target_pid;
  match target with
  | None => mret (-1)
  | Some target =>
      v ← read_msg m;
      _ ← write_msg m (set_sender_pid KERNEL_PID_ISR v);
      T ← get_thread target;
      if status T =? STATUS_RECEIVE_BLOCKED then
        target_message ← wait_msg (wait_data T);
        _ ← copy_msg target_message m;
        _ ← sched_set_status target STATUS_PENDING;
        _ ← modify (set_sched_context_switch_request 1);
        mret 1
      else queue_msg target m
  end.

Definition msg_send_with (m : mptr) (target_pid : Z) (block : bool) : M Z :=
  isr ← irq_is_in;
  if (isr : bool) then msg_send_int m target_pid
  else
    me_pid ← gets sched_active_pid;
    if me_pid =? target_pid then msg_send_to_self m
    else state ← irq_disable; _msg_send m target_pid block state.

Definition msg_send (m : mptr) (target_pid : Z) : M Z := msg_send_with m target_pid true.
Definition msg_try_send (m : mptr) (target_pid : Z) : M Z := msg_send_with m target_pid false.

Definition msg_send_receive (m reply : mptr) (target_pid : Z) : M Z :=
  me_pid ← gets sched_active_pid;
  _ ← massert (negb (me_pid =? target_pid));
  state ← irq_disable;
  o ← sched_threads_at me_pid;
  me ← nonnull o;
  _ ← sched_set_status me STATUS_REPLY_BLOCKED;
  _ ← modify_thread me (set_wait_data (WMsg reply));
  _ ← copy_msg reply m;
  _msg_send reply target_pid true state.

Definition msg_reply (m reply : mptr) : M Z :=
  state ← irq_disable;
  v ← read_msg m;
  o ← sched_threads_at (sender_pid v);
  _ ← massert (bool_decide (o ≠ None));
  target ← nonnull o;
  T ← get_thread target;
  if negb (status T =? STATUS_REPLY_BLOCKED) then
    _ ← irq_restore state;
    mret (-1)
  else
    target_message ← wait_msg (wait_data T);
    _ ← copy_msg target_message reply;
    _ ← sched_set_status target STATUS_PENDING;
    T ← get_thread target;
    _ ← irq_restore state;
    _ ← sched_switch (priority T);
    mret 1.

Definition msg_reply_int (m reply : mptr) : M Z :=
  v ← read_msg m;
  o ← sched_threads_at (sender_pid v);
  target ← nonnull o;
  T ← get_thread target;
  if negb (status T =? STATUS_REPLY_BLOCKED) then mret (-1)
  else
    target_message ← wait_msg (wait_data T);
    _ ← copy_msg target_message reply;
    _ ← sched_set_status target STATUS_PENDING;
    _ ← modify (set_sched_context_switch_request 1);
    mret 1.

Definition _msg_receive (m : mptr) (block : Z) : M Z :=
  state ← irq_disable;
  me_pid ← gets sched_active_pid;
  o ← sched_threads_at me_pid;
  me ← nonnull o;
  T ← get_thread me;
  queue_index ←
    match msg_array T with
    | Some _ =>
        let '(i, q) := cib_get (msg_queue T) in
        _ ← modify_thread me (set_msg_queue q);
        mret i
    | None => mret (-1)
    end;
  h ← gets heap;
  if ((block =? 0) && (bool_decide (h !! MSG_WAITERS me = None) && (queue_index =? -1)))%bool then
    _ ← irq_restore state;
    mret (-1)
  else
    _ ← (if 0 <=? queue_index then
           array ← nonnull (msg_array T);
           copy_msg m (array, queue_index)
         else modify_thread me (set_wait_data (WMsg m)));
    h ← gets heap;
    let r := list_remove_head h (MSG_WAITERS me) in
    _ ← modify (set_heap r.2);
    match r.1 with
    | None =>
        _ ← (if queue_index <? 0 then
               _ ← sched_set_status me STATUS_RECEIVE_BLOCKED;
               _ ← irq_restore state;
               thread_yield_higher
             else irq_restore state);
        mret 1
    | Some next =>
        sender ← container_of next;
        dst ← (if 0 <=? queue_index then
                 array ← nonnull (msg_array T);
                 Tme ← get_thread me;
                 let '(i, q) := cib_put (msg_queue Tme) in
                 _ ← modify_thread me (set_msg_queue q);
                 mret (array, i)
               else mret m);
        S ← get_thread sender;
        sender_msg ← wait_msg (wait_data S);
        _ ← copy_msg dst sender_msg;
        sender_prio ←
          (if negb (status S =? STATUS_REPLY_BLOCKED) then
             _ ← modify_thread sender (set_wait_data WNull);
             _ ← sched_set_status sender STATUS_PENDING;
             S ← get_thread sender;
             mret (priority S)
           else mret THREAD_PRIORITY_IDLE);
        _ ← irq_restore state;
        _ ← when (sender_prio <? THREAD_PRIORITY_IDLE) (sched_switch sender_prio);
        mret 1
    end.

Definition msg_try_receive (m : mptr) : M Z := _msg_receive m 0.
Definition msg_receive (m : mptr) : M Z := _msg_receive m 1.

Definition msg_avail : M Z :=
  a ← gets sched_active_thread;
  me ← nonnull a;
  T ← get_thread me;
  match msg_array T with
  | Some _ => mret (s32 (cib_avail (msg_queue T)))
  | None => mret (-1)
  end.

Definition msg_init_queue (array : Z) (num : Z) : M unit :=
  a ← gets sched_active_thread;
  me ← nonnull a;
  _ ← modify_thread me (set_msg_array (Some array));
  q ← lift (cib_init (u32 num));
  modify_thread me (set_msg_queue q).

(** ** Message queues in memory *)

(** The array object [a] holds [arr]. *)
Definition marray (ms : gmap mptr msg_t) (a : Z) (arr : list msg_t) : Prop :=
  ∀ i x, arr !! i = Some x → ms !! (a, Z.of_nat i) = Some x.

(** The thread has a queue of [2^k] slots that holds the messages [l]. *)
Definition queue_is st T (k : Z) (l : list msg_t) : Prop :=
  ∃ a arr, msg_array T = Some a ∧ marray (msgs st) a arr ∧ cib_rep k (msg_queue T) arr l.

(** The thread has no message queue. *)
Definition no_queue T : Prop := msg_array T = None ∧ msg_queue T = CIB_INIT 0.

(** Nothing can be queued for the thread. *)
Definition no_space st T : Prop := no_queue T ∨ ∃ k l, queue_is st T k l ∧ Z.of_nat (length l) = 2 ^ k.

Lemma marray_insert ms a arr i x :
  marray ms a arr → 0 <= i < Z.of_nat (length arr) →
  marray (<[(a, i) := x]> ms) a (<[Z.to_nat i := x]> arr).
Proof.
  intros Ha Hi j y Hj. destruct (decide (j = Z.to_nat i)) as [->|Hne].
  - rewrite list_lookup_insert_eq in Hj by lia. rewrite Z2Nat.id by lia. by rewrite lookup_insert_eq.
  - rewrite list_lookup_insert_ne in Hj by done. rewrite lookup_insert_ne; [by apply Ha|].
    intros [= Hij]. lia.
Qed.

Lemma marray_other ms a arr p x : marray ms a arr → p.1 ≠ a → marray (<[p := x]> ms) a arr.
Proof. intros Ha Hp j y Hj. rewrite lookup_insert_ne; [by apply Ha|]. intros ->. done. Qed.

Lemma marray_valid ms a arr i :
  marray ms a arr → 0 <= i < Z.of_nat (length arr) → is_Some (ms !! (a, i)).
Proof.
  intros Ha Hi. destruct (lookup_lt_is_Some_2 arr (Z.to_nat i)) as [x Hx]; [lia|].
  apply Ha in Hx. rewrite Z2Nat.id in Hx by lia. by exists x.
Qed.

Lemma read_msg_Ok st p v : msgs st !! p = Some v → read_msg p st = Ok (v, st).
Proof. intros E. unfold read_msg. by rewrite E. Qed.

Lemma write_msg_Ok st p v :
  is_Some (msgs st !! p) → write_msg p v st = Ok (tt, set_msgs (<[p := v]> (msgs st)) st).
Proof. intros [w E]. unfold write_msg. by rewrite E. Qed.

Lemma copy_msg_Ok st dst src v :
  msgs st !! src = Some v → is_Some (msgs st !! dst) →
  copy_msg dst src st = Ok (tt, set_msgs (<[dst := v]> (msgs st)) st).
Proof. intros E Hd. unfold copy_msg. kstep (read_msg_Ok _ _ _ E). by apply write_msg_Ok. Qed.

Lemma bind_wait_msg {B} p (k : mptr → M B) st : (wait_msg (WMsg p) ≫= k) st = k p st.
Proof. done. Qed.
Hint Rewrite @bind_wait_msg : krun.

(** ** Queueing *)

Lemma no_space_put st T : no_space st T → cib_put (msg_queue T) = (-1, msg_queue T).
Proof.
  intros [[_ ->]|(k & l & (a & arr & _ & _ & Hrep) & Hl)]; [done|].
  rewrite (cib_put_rep _ _ _ _ Hrep). by assert ((Z.of_nat (length l) <? 2 ^ k) = false) as -> by lia.
Qed.

Lemma set_msg_queue_id T : set_msg_queue (msg_queue T) T = T.
Proof. by destruct T. Qed.

Lemma set_tcbs_id st t T : tcbs st !! t = Some T → set_tcbs (<[t := T]> (tcbs st)) st = st.
Proof. intros E. rewrite insert_id by done. by destruct st. Qed.

Lemma queue_msg_full st u U m :
  tcbs st !! u = Some U → no_space st U → queue_msg u m st = Ok (0, st).
Proof.
  intros HU Hn. unfold queue_msg. kget HU. rewrite (no_space_put _ _ Hn).
  kstep (modify_thread_Ok _ _ _ _ HU). rewrite set_msg_queue_id, set_tcbs_id by done. done.
Qed.

Lemma not_flag_blocked U : ¬ flag_blocked U → masked U ∧ wakeup U = 0.
Proof.
  intros Hf. split; [by intros ?|]. destruct (decide (wakeup U = 0)) as [|Hw]; [done|].
  by apply wakeup_blocked in Hw.
Qed.

(** A message joins the end of the queue; the receiver's flags say so. *)
Lemma queue_msg_space st u U m v k l :
  tcbs st !! u = Some U → queue_is st U k l → Z.of_nat (length l) < 2 ^ k →
  msgs st !! m = Some v → ¬ flag_blocked U →
  ∃ q ms, let U' := set_flags (Z.lor (flags U) THREAD_FLAG_MSG_WAITING) (set_msg_queue q U) in
    let st' := set_msgs ms (set_tcbs (<[u := U']> (tcbs st)) st) in
    queue_msg u m st = Ok (1, st') ∧ queue_is st' U' k (l ++ [v]) ∧
    write_count q = u32 (write_count (msg_queue U) + 1) ∧ read_count q = read_count (msg_queue U).
Proof.
  intros HU (a & arr & Ha & Harr & Hrep) Hl Hm Hf.
  pose proof (cib_put_rep _ _ _ _ Hrep) as Hput. rewrite (proj2 (Z.ltb_lt _ _) Hl) in Hput.
  destruct (cib_put_unsafe (msg_queue U)) as [i q] eqn:Eq.
  destruct (cib_put_unsafe_rep k _ arr l v i q Hrep Hl Eq) as [Hi Hrep'].
  set (U' := set_flags (Z.lor (flags U) THREAD_FLAG_MSG_WAITING) (set_msg_queue q U)).
  destruct (not_flag_blocked U' Hf) as [Hmk Hw].
  exists q, (<[(a, i) := v]> (msgs st)). split; [|split; [|by unfold cib_put_unsafe in Eq; injection Eq as _ <-]].
  - unfold queue_msg. kget HU. rewrite Hput. kstep (modify_thread_Ok _ _ _ _ HU).
    assert ((i <? 0) = false) as -> by lia. rewrite Ha. ksimpl.
    kstep (copy_msg_Ok (set_tcbs _ st) (a, i) m v Hm (marray_valid _ _ _ _ Harr Hi)).
    erewrite bind_Ok by (apply modify_thread_Ok, lookup_insert_eq).
    cbv beta. erewrite bind_Ok by (eapply (thread_flags_wake_not_due _ _ U'); [apply lookup_insert_eq|done|done]).
    simpl. by rewrite insert_insert_eq.
  - exists a, (<[Z.to_nat i := v]> arr). split; [done|]. split; [by apply marray_insert|done].
Qed.

(** ** Sending *)

Section Send.
Context (Q : node → list Z) (st : kstate) (t : Z) (T : thread_t) (u : Z) (U : thread_t).
Context (m : mptr) (v : msg_t) (block : bool).
Hypothesis Hrun : running Q st t T.
Hypothesis Hisr : in_isr st = false.
Hypothesis HU : thr st u U.
Hypothesis Hpid : pid U ≠ pid T.
Hypothesis Hm : msgs st !! m = Some v.
Hypothesis Hflag : ¬ flag_blocked U.

(** The message with its sender filled in, and the state in which the target is
    looked at. *)
Let v' := set_sender_pid (pid T) v.
Definition sent : kstate := set_msgs (<[m := v']> (msgs st)) (set_irq_enabled false st).

Lemma sent_running : running Q sent t T.
Proof. renv Hrun. Qed.

Lemma send_ne : t ≠ u.
Proof. intros E. subst u. by rewrite (thr_fun _ _ _ _ (proj1 (run_ready _ _ _ _ Hrun)) HU) in Hpid. Qed.

Lemma send_start (k : M Z) :
  (∀ me target, me = t → target = u → k =
    (T ← get_thread target;
     if negb (status T =? STATUS_RECEIVE_BLOCKED) then
       q ← queue_msg target m;
       if negb (q =? 0) then
         _ ← irq_restore (irq_enabled st);
         Tme ← get_thread me;
         _ ← when (status Tme =? STATUS_REPLY_BLOCKED) thread_yield_higher;
         mret 1
       else if negb block then
         _ ← irq_restore (irq_enabled st);
         mret 0
       else
         _ ← modify_thread me (set_wait_data (WMsg m));
         Tme ← get_thread me;
         let newstatus := if status Tme =? STATUS_REPLY_BLOCKED then STATUS_REPLY_BLOCKED
                          else STATUS_SEND_BLOCKED in
         _ ← sched_set_status me newstatus;
         _ ← thread_add_to_list (MSG_WAITERS target) me;
         _ ← modify_thread target (λ T, set_flags (Z.lor (flags T) THREAD_FLAG_MSG_WAITING) T);
         _ ← thread_flags_wake target;
         _ ← irq_restore (irq_enabled st);
         _ ← thread_yield_higher;
         mret 1
     else
       target_message ← wait_msg (wait_data T);
       _ ← copy_msg target_message m;
       _ ← sched_set_status target STATUS_PENDING;
       _ ← irq_restore (irq_enabled st);
       _ ← thread_yield_higher;
       mret 1)) →
  msg_send_with m (pid U) block st = k sent.
Proof.
  intros ->%(λ H, H t u eq_refl eq_refl).
  destruct (running_pid _ _ _ _ Hrun) as [Hp _]. pose proof (run_active _ _ _ _ Hrun) as Ha.
  unfold msg_send_with. ksimpl. rewrite Hisr. ksimpl. rewrite Hp.
  rewrite (proj2 (Z.eqb_neq _ _)) by congruence. ksimpl. unfold _msg_send.
  kstep (sched_threads_at_thr Q st _ u U (run_kinv _ _ _ _ Hrun) HU). ksimpl. rewrite Hp.
  kstep (read_msg_Ok (set_irq_enabled false st) m v Hm).
  erewrite bind_Ok by (apply write_msg_Ok; by exists v). cbv beta iota.
  ksimpl. rewrite Ha. ksimpl. done.
Qed.

(** The target waits for a message: it is handed over. *)
Lemma send_direct p :
  status U = STATUS_RECEIVE_BLOCKED → wait_data U = WMsg p → is_Some (msgs st !! p) →
  ∃ st', msg_send_with m (pid U) block st = Ok (1, st') ∧ settled (rq_push Q (priority U) u) st' ∧
    msgs st' = <[p := v']> (<[m := v']> (msgs st)) ∧ in_isr st' = false ∧
    (∃ s, tcbs st' !! u = Some (set_status s U) ∧ STATUS_ON_RUNQUEUE <= s) ∧
    ∀ x X, x ≠ u → tcbs st !! x = Some X → ∃ s, tcbs st' !! x = Some (set_status s X).
Proof.
  intros Hs Hw Hpv. erewrite send_start by (intros ?? -> ->; reflexivity).
  pose proof sent_running as Hr0. pose proof (run_kinv _ _ _ _ Hr0) as Hk0.
  set (st1 := set_msgs (<[p := v']> (msgs sent)) sent). assert (kinv Q st1) as Hk1 by kenv Hk0.
  assert (∀ q, u ∉ Q q) as Hn.
  { eapply unlisted; [exact (run_kinv _ _ _ _ Hrun)|exact HU|]. unfold unlisted_status. tauto. }
  destruct (sched_set_status_wake Q st1 u U STATUS_PENDING) as (h & b & E & Hk2 & _);
    [done|done|klia|done|klia|]. set (st2 := upd3 _ _ _ _) in *.
  destruct (yield_thread (rq_push Q (priority U) u) (set_irq_enabled (irq_enabled st) st2))
    as (st' & E' & Hset & Hy).
  { kenv Hk2. } { done. }
  { exists u, (set_status STATUS_PENDING U). split; [split; [apply lookup_insert_eq|apply HU]|klia]. }
  destruct (yielded_tcb _ _ u (set_status STATUS_PENDING U) Hy) as (s & Hs' & _ & Hss); [apply lookup_insert_eq|].
  pose proof Hy as (_ & Hms & _ & _ & _ & Hi & _)%yielded_env.
  exists st'. split; [|split; [done|split; [by rewrite Hms|split; [by rewrite Hi|split; [exists s; split; [done|apply Hss; klia]|]]]]].
  - kget HU. rewrite Hs, Z.eqb_refl. cbn [negb]. rewrite Hw. ksimpl.
    assert (msgs sent !! m = Some v') as Hmv by apply lookup_insert_eq.
    assert (is_Some (msgs sent !! p)) as Hps.
    { simpl. destruct (decide (m = p)) as [->|]; [by rewrite lookup_insert_eq|by rewrite lookup_insert_ne]. }
    kstep (copy_msg_Ok sent p m v' Hmv Hps). kstep E. ksimpl. by kstep E'.
  - intros x X Hx HX. destruct (yielded_tcb _ _ x X Hy) as (s' & Hs2 & _); [simpl; by rewrite lookup_insert_ne|by exists s'].
Qed.

(** The target does something else and its queue has room. *)
Lemma send_queued k l :
  status U ≠ STATUS_RECEIVE_BLOCKED → queue_is st U k l → Z.of_nat (length l) < 2 ^ k →
  (∀ a, msg_array U = Some a → m.1 ≠ a) →
  ∃ st' U', msg_send_with m (pid U) block st = Ok (1, st') ∧ running Q st' t T ∧
    tcbs st' !! u = Some U' ∧ queue_is st' U' k (l ++ [v']) ∧ status U' = status U ∧
    flags U' = Z.lor (flags U) THREAD_FLAG_MSG_WAITING.
Proof.
  intros Hs (a & arr & Ha & Harr & Hrep) Hl Hma. erewrite send_start by (intros ?? -> ->; reflexivity).
  assert (queue_is sent U k l) as Hq.
  { exists a, arr. split; [done|]. split; [|done]. apply marray_other; [done|by apply Hma]. }
  assert (msgs sent !! m = Some v') as Hmv by apply lookup_insert_eq.
  destruct (queue_msg_space sent u U m v' k l (proj1 HU) Hq Hl Hmv Hflag) as (q & ms & E & Hq' & _).
  set (U' := set_flags _ _) in *. pose proof send_ne as Hne.
  exists (set_irq_enabled (irq_enabled st) (set_msgs ms (set_tcbs (<[u := U']> (tcbs sent)) sent))), U'.
  split; [|split; [|split; [apply lookup_insert_eq|done]]].
  - kget HU. rewrite (proj2 (Z.eqb_neq _ _) Hs). cbn [negb]. kstep E. change (negb (1 =? 0)) with true. cbv iota. ksimpl.
    destruct Hrun as [_ _ [[HT _] HTs] _ _].
    assert (tcbs (set_irq_enabled (irq_enabled st) (set_msgs ms (set_tcbs (<[u := U']> (tcbs sent)) sent))) !! t = Some T) as HTl.
    { simpl. by rewrite lookup_insert_ne. }
    kget HTl. assert ((status T =? STATUS_REPLY_BLOCKED) = false) as -> by klia. done.
  - pose proof (running_tcb Q sent t T u U U' sent_running HU eq_refl eq_refl eq_refl) as Hr.
    rewrite decide_False in Hr by done. renv Hr.
Qed.

(** No room: without blocking the message is dropped. *)
Lemma send_dropped :
  status U ≠ STATUS_RECEIVE_BLOCKED → no_space sent U → block = false →
  ∃ st', msg_send_with m (pid U) block st = Ok (0, st') ∧ running Q st' t T ∧
    tcbs st' = tcbs st ∧ msgs st' = <[m := v']> (msgs st).
Proof.
  intros Hs Hn Hb. erewrite send_start by (intros ?? -> ->; reflexivity).
  exists (set_irq_enabled (irq_enabled st) sent). split; [|split; [renv sent_running|done]].
  kget HU. rewrite (proj2 (Z.eqb_neq _ _) Hs). cbn [negb].
  kstep (queue_msg_full sent u U m (proj1 HU) Hn). rewrite Hb. done.
Qed.

(** No room: the sender waits on the target's list, by priority. *)
Lemma send_blocked :
  status U ≠ STATUS_RECEIVE_BLOCKED → no_space sent U → block = true → other_ready st t →
  ∃ st' U', msg_send_with m (pid U) block st = Ok (1, st') ∧
    settled (<[MSG_WAITERS u := insert_by (prio_of st) t (Q (MSG_WAITERS u))]> (rq_pop Q (priority T))) st' ∧
    tcbs st' !! t = Some (set_status STATUS_SEND_BLOCKED (set_wait_data (WMsg m) T)) ∧
    msgs st' = <[m := v']> (msgs st) ∧ in_isr st' = false ∧
    tcbs st' !! u = Some U' ∧ msg_queue U' = msg_queue U ∧ msg_array U' = msg_array U.
Proof.
  intros Hs Hn Hb Ho. erewrite send_start by (intros ?? -> ->; reflexivity).
  pose proof sent_running as Hr0. pose proof send_ne as Hne.
  destruct Hr0 as [Hk0 Ha0 [HT0 HTs] Hhd _].
  set (T1 := set_wait_data (WMsg m) T). set (st1 := set_tcbs (<[t := T1]> (tcbs sent)) sent).
  assert (kinv Q st1) as Hk1 by (by apply (kinv_tcb Q sent t T T1)).
  assert (thr st1 t T1) as HT1 by (split; [apply lookup_insert_eq|apply HT0]).
  destruct (sched_set_status_block Q st1 t T1 STATUS_SEND_BLOCKED) as (h & b & E & Hk2 & _); [done..|klia|].
  set (T2 := set_status STATUS_SEND_BLOCKED T1) in *. set (st2 := upd3 _ _ _ _) in *.
  change (kinv (rq_pop Q (priority T)) st2) in Hk2.
  assert (thr st2 t T2) as HT2 by (split; [apply lookup_insert_eq|apply HT0]).
  destruct (thread_add_to_list_spec _ st2 (MSG_WAITERS u) t T2 Hk2) as (h' & E3 & Hk3);
    [done|exact (k_rep _ _ Hk2 (MSG_WAITERS u))|done|by apply (rq_pop_notin Q st1 t T1)|klia|by left|].
  assert (insert_by (prio_of st2) t (rq_pop Q (priority T) (MSG_WAITERS u)) =
          insert_by (prio_of st) t (Q (MSG_WAITERS u))) as EQ.
  { rewrite rq_pop_wait by done. apply insert_by_ext. intros w.
    rewrite (prio_of_update st1 st2 t T1 T2 w (proj1 HT1) eq_refl eq_refl).
    exact (prio_of_update st st1 t T T1 w (proj1 HT0) eq_refl eq_refl). }
  rewrite EQ in Hk3. set (st3 := set_heap h' st2) in *.
  assert (tcbs st3 !! u = Some U) as HUl.
  { simpl. rewrite !lookup_insert_ne by done. apply HU. }
  set (U' := set_flags (Z.lor (flags U) THREAD_FLAG_MSG_WAITING) U).
  destruct (not_flag_blocked U' Hflag) as [Hmk Hw].
  set (st4 := set_tcbs (<[u := U']> (tcbs st3)) st3).
  assert (kinv (<[MSG_WAITERS u := insert_by (prio_of st) t (Q (MSG_WAITERS u))]> (rq_pop Q (priority T))) st4) as Hk4.
  { apply (kinv_tcb _ st3 u U U'); [done|by split; [|apply HU]|done..]. }
  assert (∀ e, kinv (<[MSG_WAITERS u := insert_by (prio_of st) t (Q (MSG_WAITERS u))]>
    (rq_pop Q (priority T))) (set_irq_enabled e st4)) as Hk5 by (intros; kenv Hk4).
  destruct (yield_thread _ _ (Hk5 (irq_enabled st))) as (st' & E' & Hset & Hy); [done| |].
  { destruct (pop_ready _ _ _ _ Hrun Ho) as (w & p & Hin).
    eapply (queued_ready _ _ w p); [kenv Hk4|]. by rewrite wait_insert_rq. }
  assert (tcbs st4 !! t = Some T2) as HT4.
  { simpl. rewrite lookup_insert_ne by done. apply lookup_insert_eq. }
  destruct (yielded_tcb _ _ t T2 Hy HT4) as (s & Hs' & Hss & _).
  destruct (yielded_tcb _ _ u U' Hy (lookup_insert_eq _ _ _)) as (s2 & Hs2 & _).
  apply yielded_env in Hy as (_ & Hms & _ & _ & _ & Hi & _).
  exists st', (set_status s2 U'). split; [|split; [done|split; [|split; [by rewrite Hms|by rewrite Hi]]]].
  - kget HU. rewrite (proj2 (Z.eqb_neq _ _) Hs). cbn [negb].
    kstep (queue_msg_full sent u U m (proj1 HU) Hn). change (negb (0 =? 0)) with false. cbv iota.
    rewrite Hb. cbn [negb]. kstep (modify_thread_Ok sent t T _ (proj1 HT0)). fold T1 st1. kget HT1.
    assert ((status T1 =? STATUS_REPLY_BLOCKED) = false) as -> by (change (status T1) with (status T); klia).
    kstep E. kstep E3. kstep (modify_thread_Ok st3 u U _ HUl). fold U' st4.
    kstep (thread_flags_wake_not_due st4 u U' (lookup_insert_eq _ _ _) Hmk Hw). ksimpl. by kstep E'.
  - rewrite Hs', Hss by done. done.
Qed.

End Send.

(** A PID that names no thread. *)
Lemma send_nobody Q st t T m v p block :
  running Q st t T → in_isr st = false → msgs st !! m = Some v →
  0 <= p <= KERNEL_PID_LAST → sched_threads st !! p = None →
  ∃ st', msg_send_with m p block st = Ok (-1, st') ∧ running Q st' t T.
Proof.
  intros Hr Hi Hm Hp Hn. destruct (running_pid _ _ _ _ Hr) as [Hap _].
  exists (set_msgs (<[m := set_sender_pid (pid T) v]> (msgs st)) st).
  split; [|renv Hr]. unfold msg_send_with. ksimpl. rewrite Hi. ksimpl. rewrite Hap.
  destruct (Z.eqb_spec (pid T) p) as [E|_].
  { destruct (run_ready _ _ _ _ Hr) as [[_ HT] _]. congruence. }
  ksimpl. unfold _msg_send. kstep sched_threads_at_Ok. kproj. rewrite Hn. ksimpl.
  kstep (read_msg_Ok (set_irq_enabled false st) m v Hm).
  erewrite bind_Ok by (apply write_msg_Ok; by exists v). cbv beta iota. ksimpl. rewrite Hap.
  by destruct st.
Qed.

(** ** Receiving *)

(** The thread's queue is empty, or it has none. *)
Definition nothing_queued st T : Prop :=
  no_queue T ∨ ∃ k, queue_is st T k [] ∧ cib_nowrap (msg_queue T).

(** [queue_index], and what fetching it does to the queue. *)
Definition fetch_index (me : Z) T : M Z :=
  match msg_array T with
  | Some _ =>
      let '(i, q) := cib_get (msg_queue T) in
      _ ← modify_thread me (set_msg_queue q);
      mret i
  | None => mret (-1)
  end.

Lemma fetch_nothing st t T :
  tcbs st !! t = Some T → nothing_queued st T → fetch_index t T st = Ok (-1, st).
Proof.
  intros HT [[Ha _]|(k & (a & arr & Ha & _ & Hrep) & Hnw)]; unfold fetch_index; rewrite Ha; [done|].
  rewrite (cib_get_rep _ _ _ _ Hrep Hnw). kstep (modify_thread_Ok _ _ _ _ HT).
  by rewrite set_msg_queue_id, set_tcbs_id.
Qed.

Lemma fetch_queued st t T k x l :
  tcbs st !! t = Some T → queue_is st T k (x :: l) → cib_nowrap (msg_queue T) →
  ∃ a i q arr, let T' := set_msg_queue q T in
    fetch_index t T st = Ok (i, set_tcbs (<[t := T']> (tcbs st)) st) ∧ 0 <= i ∧
    msg_array T = Some a ∧ msgs st !! (a, i) = Some x ∧ marray (msgs st) a arr ∧ cib_rep k q arr l.
Proof.
  intros HT (a & arr & Ha & Harr & Hrep) Hnw.
  pose proof (cib_get_rep _ _ _ _ Hrep Hnw) as Hget.
  destruct (cib_get_unsafe (msg_queue T)) as [i q] eqn:Eq.
  destruct (cib_get_unsafe_rep _ _ _ _ _ _ _ Hrep Eq) as (Hi & Hx & Hrep').
  exists a, i, q, arr. split; [|split; [done|split; [done|split; [|done]]]].
  - unfold fetch_index. rewrite Ha, Hget. by kstep (modify_thread_Ok _ _ _ _ HT).
  - apply Harr in Hx. by rewrite Z2Nat.id in Hx.
Qed.

(** The last part of [_msg_receive]: the message of the waiting sender is
    copied, and the sender is woken unless it waits for a reply. *)
Definition take_from (sender : Z) (dst : mptr) (state : bool) : M Z :=
  S ← get_thread sender;
  sender_msg ← wait_msg (wait_data S);
  _ ← copy_msg dst sender_msg;
  sender_prio ←
    (if negb (status S =? STATUS_REPLY_BLOCKED) then
       _ ← modify_thread sender (set_wait_data WNull);
       _ ← sched_set_status sender STATUS_PENDING;
       S ← get_thread sender;
       mret (priority S)
     else mret THREAD_PRIORITY_IDLE);
  _ ← irq_restore state;
  _ ← when (sender_prio <? THREAD_PRIORITY_IDLE) (sched_switch sender_prio);
  mret 1.

(** The queues after the sender was served. *)
Definition served Q (s : Z) (S : thread_t) : node → list Z :=
  if status S =? STATUS_REPLY_BLOCKED then Q else rq_push Q (priority S) s.

Lemma take_from_spec Q st t T s S dst p y e :
  running Q st t T → thr st s S → (∀ q, s ∉ Q q) →
  status S = STATUS_SEND_BLOCKED ∨ status S = STATUS_REPLY_BLOCKED →
  wait_data S = WMsg p → msgs st !! p = Some y → is_Some (msgs st !! dst) →
  ∃ st', take_from s dst e st = Ok (1, st') ∧ settled (served Q s S) st' ∧
    msgs st' = <[dst := y]> (msgs st) ∧ (∃ c, tcbs st' !! t = Some (set_status c T)).
Proof.
  intros Hr HS Hn Hst Hw Hp Hd. unfold take_from, served. kget HS. rewrite Hw. ksimpl.
  kstep (copy_msg_Ok _ _ _ _ Hp Hd). set (st1 := set_msgs _ st).
  assert (running Q st1 t T) as Hr1 by (renv Hr). pose proof (run_kinv _ _ _ _ Hr1) as Hk1.
  assert (status S < STATUS_ON_RUNQUEUE) as Hb by (destruct Hst as [-> | ->]; klia).
  pose proof (running_ne _ _ _ _ _ _ Hr HS Hb) as Hne.
  pose proof (proj1 (proj1 (run_ready _ _ _ _ Hr))) as HTl.
  destruct (Z.eqb_spec (status S) STATUS_REPLY_BLOCKED) as [Es|Es].
  - exists (set_irq_enabled e st1). split; [by ksimpl|].
    split; [exists t, T; renv Hr1|]. split; [done|]. exists (status T). by destruct T.
  - cbn [negb]. set (S1 := set_wait_data WNull S). set (st2 := set_tcbs (<[s := S1]> (tcbs st1)) st1).
    assert (running Q st2 t T) as Hr2.
    { pose proof (running_tcb Q st1 t T s S S1 Hr1 HS eq_refl eq_refl eq_refl) as H.
      by rewrite decide_False in H. }
    assert (thr st2 s S1) as HS1 by (split; [apply lookup_insert_eq|apply HS]).
    destruct (sched_set_status_wake Q st2 s S1 STATUS_PENDING (run_kinv _ _ _ _ Hr2) HS1)
      as (h & b & E & Hk3 & _); [done|done|klia|].
    change (kinv (rq_push Q (priority S) s) (upd3 st2 h b (<[s:=set_status STATUS_PENDING S1]> (tcbs st2)))) in Hk3.
    set (st3 := set_irq_enabled e (upd3 st2 h b (<[s := set_status STATUS_PENDING S1]> (tcbs st2)))).
    assert (kinv (rq_push Q (priority S) s) st3) as Hk3' by (kenv Hk3).
    pose proof (rq_push_head Q (priority T) (priority S) s t (run_head _ _ _ _ Hr)) as Hhd.
    assert (tcbs st3 !! t = Some T) as HT3 by (simpl; by rewrite !lookup_insert_ne).
    destruct (Z.ltb_spec (priority S) THREAD_PRIORITY_IDLE) as [Hlt|Hge].
    + destruct (wake_switch Q _ st2 t T s S1 STATUS_PENDING st3 Hr2 HS1 Hne eq_refl eq_refl eq_refl
        eq_refl eq_refl Hk3' Hhd) as (st' & E' & Hset & Hy).
      destruct (yielded_tcb _ _ t T Hy HT3) as (c & Hc & _).
      apply yielded_env in Hy as (_ & Hms & _). exists st'.
      split; [|split; [done|split; [by rewrite Hms|by exists c]]].
      ksimpl. kstep (modify_thread_Ok st1 s S _ (proj1 HS)). fold S1 st2. ksimpl. kstep E. ksimpl.
      kget lookup_insert_eq. ksimpl. change (priority S1) with (priority S) in *.
      rewrite (proj2 (Z.ltb_lt _ _) Hlt). rewrite bind_when_true. by kstep E'.
    + exists st3. split; [|split; [exists t, T|split; [done|exists (status T); by destruct T]]].
      * ksimpl. kstep (modify_thread_Ok st1 s S _ (proj1 HS)). fold S1 st2. ksimpl. kstep E. ksimpl.
        kget lookup_insert_eq. ksimpl. change (priority S1) with (priority S).
        by rewrite (proj2 (Z.ltb_ge _ _) Hge).
      * eapply (wake_running Q _ st2 t T s S1 STATUS_PENDING); try done.
        destruct (thr_ok _ _ _ _ (run_kinv _ _ _ _ Hr) (proj1 (run_ready _ _ _ _ Hr))) as [? _].
        simpl. klia.
Qed.

Section Receive.
Context (Q : node → list Z) (st : kstate) (t : Z) (T : thread_t) (m : mptr) (block : Z).
Hypothesis Hrun : running Q st t T.
Hypothesis Hisr : in_isr st = false.
Hypothesis Hm : is_Some (msgs st !! m).

Let st0 := set_irq_enabled false st.

Lemma receive_me : sched_active_pid st = pid T ∧ sched_threads_at (pid T) st0 = Ok (Some t, st0) ∧
  tcbs st0 !! t = Some T ∧ thr st t T ∧ running Q st0 t T.
Proof.
  destruct (running_pid _ _ _ _ Hrun) as [Hp _]. pose proof Hrun as [Hk _ [HT _] _ _].
  split; [done|]. split; [by eapply (sched_threads_at_thr Q st)|]. split; [apply HT|].
  split; [done|]. renv Hrun.
Qed.

(** The heap when nobody waits to send. *)
Lemma no_waiters_head :
  Q (MSG_WAITERS t) = [] →
  heap st !! MSG_WAITERS t = None ∧ list_remove_head (heap st) (MSG_WAITERS t) = (None, heap st).
Proof.
  intros EQ. pose proof (k_rep _ _ (run_kinv _ _ _ _ Hrun) (MSG_WAITERS t)) as Hl. simpl in Hl.
  rewrite EQ in Hl. split; [by destruct Hl as (_ & _ & ?)|by apply list_remove_head_nil].
Qed.

Lemma receive_empty_try :
  nothing_queued st T → Q (MSG_WAITERS t) = [] → block = 0 → _msg_receive m block st = Ok (-1, st).
Proof.
  intros Hq HQ Hb. destruct receive_me as (Hp & Hth & HTl & _). destruct (no_waiters_head HQ) as [Hh _].
  unfold _msg_receive. ksimpl. rewrite Hp. kstep Hth. ksimpl. kget HTl. kstep (fetch_nothing st0 t T HTl Hq).
  ksimpl. unfold st0. kproj. rewrite Hh, Hb. by destruct st.
Qed.

Lemma receive_empty_block :
  nothing_queued st T → Q (MSG_WAITERS t) = [] → block ≠ 0 → other_ready st t →
  ∃ st', _msg_receive m block st = Ok (1, st') ∧ settled (rq_pop Q (priority T)) st' ∧
    tcbs st' !! t = Some (set_status STATUS_RECEIVE_BLOCKED (set_wait_data (WMsg m) T)) ∧
    msgs st' = msgs st ∧ in_isr st' = false.
Proof.
  intros Hq HQ Hb Ho. destruct receive_me as (Hp & Hth & HTl & HT & [Hk0 _ [_ HTs] Hhd _]).
  destruct (no_waiters_head HQ) as [Hh Hrm].
  set (T1 := set_wait_data (WMsg m) T). set (st1 := set_tcbs (<[t := T1]> (tcbs st0)) st0).
  assert (kinv Q st1) as Hk1 by (by apply (kinv_tcb Q st0 t T T1)).
  assert (thr st1 t T1) as HT1 by (split; [apply lookup_insert_eq|apply HT]).
  destruct (sched_set_status_block Q st1 t T1 STATUS_RECEIVE_BLOCKED) as (h & b & E & Hk2 & _); [done..|klia|].
  set (T2 := set_status STATUS_RECEIVE_BLOCKED T1) in *. set (st2 := upd3 _ _ _ _) in *.
  change (kinv (rq_pop Q (priority T)) st2) in Hk2.
  assert (∀ e, kinv (rq_pop Q (priority T)) (set_irq_enabled e st2)) as Hk3 by (intros; kenv Hk2).
  destruct (yield_thread _ _ (Hk3 (irq_enabled st))) as (st' & E' & Hset & Hy); [done| |].
  { destruct (pop_ready _ _ _ _ Hrun Ho) as (w & p & Hin). by eapply (queued_ready _ _ w p). }
  destruct (yielded_tcb _ _ t T2 Hy (lookup_insert_eq _ _ _)) as (s & Hs' & Hss & _).
  apply yielded_env in Hy as (_ & Hms & _ & _ & _ & Hi & _).
  exists st'. split; [|split; [done|split; [|split; [by rewrite Hms|by rewrite Hi]]]].
  - unfold _msg_receive. ksimpl. rewrite Hp. kstep Hth. ksimpl. kget HTl.
    kstep (fetch_nothing st0 t T HTl Hq). ksimpl. rewrite (proj2 (Z.eqb_neq _ _) Hb). cbn [andb].
    change (0 <=? -1) with false. cbv iota. kstep (modify_thread_Ok st0 t T _ HTl). fold T1 st1. ksimpl.
    change (heap st1) with (heap st). rewrite Hrm. cbn [fst snd].
    change (set_heap (heap st) st1) with st1. change (-1 <? 0) with true. cbv iota. ksimpl.
    kstep E. ksimpl. by kstep E'.
  - rewrite Hs', Hss by done. done.
Qed.

(** A queued message, nobody waiting. *)
Lemma receive_queued k x l :
  queue_is st T k (x :: l) → cib_nowrap (msg_queue T) → Q (MSG_WAITERS t) = [] →
  (∀ a, msg_array T = Some a → m.1 ≠ a) →
  ∃ st' T', _msg_receive m block st = Ok (1, st') ∧ running Q st' t T' ∧
    msgs st' !! m = Some x ∧ queue_is st' T' k l.
Proof.
  intros Hq Hnw HQ Hma. destruct receive_me as (Hp & Hth & HTl & HT & Hr0).
  destruct (no_waiters_head HQ) as [Hh Hrm].
  destruct (fetch_queued st0 t T k x l HTl Hq Hnw) as (a & i & q & arr & E & Hi & Ha & Hx & Harr & Hrep).
  set (T1 := set_msg_queue q T) in *. set (st1 := set_tcbs _ st0) in E.
  pose proof (running_tcb Q st0 t T t T T1 Hr0 HT eq_refl eq_refl eq_refl) as Hr1.
  rewrite decide_True in Hr1 by done. fold st1 in Hr1.
  exists (set_irq_enabled (irq_enabled st) (set_msgs (<[m := x]> (msgs st)) st1)), T1.
  split; [|split; [renv Hr1|split; [apply lookup_insert_eq|]]].
  - unfold _msg_receive. ksimpl. rewrite Hp. kstep Hth. ksimpl. kget HTl. kstep E. ksimpl.
    assert ((i =? -1) = false) as -> by lia. rewrite !andb_false_r.
    assert ((0 <=? i) = true) as -> by lia. rewrite Ha. ksimpl.
    kstep (copy_msg_Ok st1 m (a, i) x Hx Hm). ksimpl.
    change (heap st1) with (heap st). rewrite Hrm. cbn [fst snd].
    assert ((i <? 0) = false) as -> by lia. by ksimpl.
  - exists a, arr. split; [done|]. split; [|done]. apply marray_other; [done|by apply Hma].
Qed.

(** Taking the first waiting sender off the list. *)
Lemma take_waiter st1 T1 s w :
  running Q st1 t T1 → Q (MSG_WAITERS t) = s :: w →
  ∃ h S, list_remove_head (heap st1) (MSG_WAITERS t) = (Some (RQ_ENTRY s), h) ∧
    running (<[MSG_WAITERS t := w]> Q) (set_heap h st1) t T1 ∧
    (∀ q, s ∉ <[MSG_WAITERS t := w]> Q q) ∧ thr st1 s S ∧ s ≠ t ∧
    (status S = STATUS_SEND_BLOCKED ∨ status S = STATUS_REPLY_BLOCKED).
Proof.
  intros Hr EQ. pose proof Hr as [Hk Ha HT Hhd Hd].
  destruct (dequeue Q st1 (MSG_WAITERS t) s w Hk eq_refl EQ) as (E & _ & Hk' & Hn & S & HS & Hqs).
  eexists _, S. split; [exact E|]. split; [|split; [done|split; [done|split; [|done]]]].
  - split; [done..|by rewrite wait_insert_rq|done].
  - intros ->. apply (running_ne _ _ _ _ _ _ Hr HS); [|done].
    simpl in Hqs. destruct Hqs as [-> | ->]; klia.
Qed.

(** Nothing queued, a sender waiting: its message is the result. *)
Lemma receive_waiter s w S p y :
  nothing_queued st T → Q (MSG_WAITERS t) = s :: w → thr st s S →
  wait_data S = WMsg p → msgs st !! p = Some y →
  ∃ st', _msg_receive m block st = Ok (1, st') ∧
    settled (served (<[MSG_WAITERS t := w]> Q) s S) st' ∧ msgs st' = <[m := y]> (msgs st).
Proof.
  intros Hq HQ HS Hw Hp'. destruct receive_me as (Hp & Hth & HTl & HT & Hr0).
  set (T1 := set_wait_data (WMsg m) T). set (st1 := set_tcbs (<[t := T1]> (tcbs st0)) st0).
  pose proof (running_tcb Q st0 t T t T T1 Hr0 HT eq_refl eq_refl eq_refl) as Hr1.
  rewrite decide_True in Hr1 by done. fold st1 in Hr1.
  destruct (take_waiter st1 T1 s w Hr1 HQ) as (h & S' & E & Hr2 & Hn & HS' & Hne & Hst).
  assert (S' = S) as ->.
  { destruct HS' as [HS' _]. simpl in HS'. rewrite lookup_insert_ne in HS' by done. destruct HS. congruence. }
  destruct (take_from_spec _ _ t T1 s S m p y (irq_enabled st) Hr2 HS' Hn Hst Hw Hp' Hm)
    as (st' & E' & Hset & Hms & _).
  exists st'. split; [|split; [done|by rewrite Hms]].
  unfold _msg_receive. ksimpl. rewrite Hp. kstep Hth. ksimpl. kget HTl.
  kstep (fetch_nothing st0 t T HTl Hq). ksimpl.
  assert (heap st0 !! MSG_WAITERS t = Some (RQ_ENTRY s)) as Hh.
  { pose proof (k_rep _ _ (run_kinv _ _ _ _ Hr0) (MSG_WAITERS t)) as Hl. simpl in Hl.
    rewrite HQ in Hl. by destruct Hl as (_ & [? _] & _). }
  rewrite Hh. cbn [bool_decide decide_rel option_eq_None_dec]. rewrite andb_false_r.
  change (0 <=? -1) with false. cbv iota. kstep (modify_thread_Ok st0 t T _ HTl). fold T1 st1. ksimpl.
  rewrite E. cbn [fst snd]. ksimpl. exact E'.
Qed.

(** Queued messages and a waiting sender: the oldest queued message is the
    result, and the sender's message takes the free slot at the end. *)
Lemma receive_queued_waiter k x l s w S p y :
  queue_is st T k (x :: l) → cib_nowrap (msg_queue T) → Q (MSG_WAITERS t) = s :: w → thr st s S →
  (∀ a, msg_array T = Some a → m.1 ≠ a) → wait_data S = WMsg p → msgs st !! p = Some y → p ≠ m →
  ∃ st' T', _msg_receive m block st = Ok (1, st') ∧
    settled (served (<[MSG_WAITERS t := w]> Q) s S) st' ∧ msgs st' !! m = Some x ∧
    tcbs st' !! t = Some T' ∧ queue_is st' T' k (l ++ [y]).
Proof.
  intros Hq Hnw HQ HS Hma Hw Hp' Hpm. destruct receive_me as (Hp & Hth & HTl & HT & Hr0).
  assert (Z.of_nat (length l) < 2 ^ k) as Hlen.
  { destruct Hq as (a & arr & _ & _ & (Hwf & _)). destruct Hwf as (_ & _ & _ & _ & Hn). simpl in Hn. lia. }
  destruct (fetch_queued st0 t T k x l HTl Hq Hnw) as (a & i & q & arr & E & Hi & Ha & Hx & Harr & Hrep).
  set (T1 := set_msg_queue q T) in *. set (st1 := set_tcbs _ st0) in E.
  pose proof (running_tcb Q st0 t T t T T1 Hr0 HT eq_refl eq_refl eq_refl) as Hr1.
  rewrite decide_True in Hr1 by done. fold st1 in Hr1.
  set (st2 := set_msgs (<[m := x]> (msgs st1)) st1). assert (running Q st2 t T1) as Hr2 by (renv Hr1).
  destruct (take_waiter st2 T1 s w Hr2 HQ) as (h & S' & E2 & Hr3 & Hn & HS' & Hne & Hst).
  assert (S' = S) as ->.
  { destruct HS' as [HS' _]. simpl in HS'. rewrite lookup_insert_ne in HS' by done. destruct HS. congruence. }
  pose proof (cib_put_rep _ _ _ _ Hrep) as Hput. rewrite (proj2 (Z.ltb_lt _ _) Hlen) in Hput.
  destruct (cib_put_unsafe q) as [j q2] eqn:Eq2.
  destruct (cib_put_unsafe_rep k q arr l y j q2 Hrep Hlen Eq2) as [Hj Hrep2].
  set (T2 := set_msg_queue q2 T1). set (st3 := set_tcbs (<[t := T2]> (tcbs (set_heap h st2))) (set_heap h st2)).
  assert (thr (set_heap h st2) t T1) as HT1 by (split; [apply lookup_insert_eq|apply HT]).
  pose proof (running_tcb _ _ t T1 t T1 T2 Hr3 HT1 eq_refl eq_refl eq_refl) as Hr4.
  rewrite decide_True in Hr4 by done. fold st3 in Hr4.
  assert (marray (<[m := x]> (msgs st)) a arr) as Harr2 by (apply marray_other; [done|by apply Hma]).
  assert (thr st3 s S) as HS3.
  { split; [|apply HS]. simpl. rewrite !lookup_insert_ne by done. apply HS. }
  destruct (take_from_spec _ st3 t T2 s S (a, j) p y (irq_enabled st) Hr4 HS3 Hn Hst Hw)
    as (st' & E' & Hset & Hms & c & HTc); [by simpl; rewrite lookup_insert_ne|by eapply marray_valid|].
  exists st', (set_status c T2). split; [|split; [done|split; [|split; [done|]]]].
  - unfold _msg_receive. ksimpl. rewrite Hp. kstep Hth. ksimpl. kget HTl. kstep E. ksimpl.
    assert ((i =? -1) = false) as -> by lia. rewrite !andb_false_r.
    assert ((0 <=? i) = true) as -> by lia. rewrite Ha. ksimpl.
    kstep (copy_msg_Ok st1 m (a, i) x Hx Hm). fold st2. ksimpl. rewrite E2. cbn [fst snd]. ksimpl.
    kget lookup_insert_eq. change (msg_queue T1) with q. rewrite Hput. ksimpl.
    erewrite bind_Ok by (apply modify_thread_Ok, lookup_insert_eq). cbv beta. ksimpl. exact E'.
  - rewrite Hms, lookup_insert_ne; [apply lookup_insert_eq|]. intros Em. apply (Hma a Ha). by rewrite <- Em.
  - exists a, (<[Z.to_nat j := y]> arr). split; [done|]. split; [|done]. rewrite Hms. by apply marray_insert.
Qed.

End Receive.

(** ** Requests and replies *)

Lemma reply_waiting Q st t T m reply v r u U p :
  running Q st t T → msgs st !! m = Some v → msgs st !! reply = Some r →
  thr st u U → sender_pid v = pid U → status U = STATUS_REPLY_BLOCKED → (∀ q, u ∉ Q q) →
  wait_data U = WMsg p → is_Some (msgs st !! p) →
  ∃ st', msg_reply m reply st = Ok (1, st') ∧ settled (rq_push Q (priority U) u) st' ∧
    msgs st' = <[p := r]> (msgs st).
Proof.
  intros Hr Hm Hrp HU Hsp Hs Hn Hw Hpv. pose proof (run_kinv _ _ _ _ Hr) as Hk.
  set (st1 := set_msgs (<[p := r]> (msgs st)) (set_irq_enabled false st)).
  assert (running Q st1 t T) as Hr1 by (renv Hr).
  destruct (sched_set_status_wake Q st1 u U STATUS_PENDING (run_kinv _ _ _ _ Hr1) HU)
    as (h & b & E & Hk2 & _); [klia|done|klia|].
  change (kinv (rq_push Q (priority U) u) (upd3 st1 h b (<[u:=set_status STATUS_PENDING U]> (tcbs st1)))) in Hk2.
  set (st2 := set_irq_enabled (irq_enabled st) (upd3 st1 h b (<[u := set_status STATUS_PENDING U]> (tcbs st1)))).
  destruct (wake_switch Q (rq_push Q (priority U) u) st1 t T u U STATUS_PENDING st2 Hr1 HU)
    as (st' & E' & Hset & Hy); try done.
  { eapply running_ne; [exact Hr1|exact HU|klia]. } { kenv Hk2. } { apply rq_push_head, Hr. }
  apply yielded_env in Hy as (_ & Hms & _). exists st'. split; [|split; [done|by rewrite Hms]].
  unfold msg_reply. ksimpl. kstep (read_msg_Ok (set_irq_enabled false st) m v Hm). rewrite Hsp.
  kstep (sched_threads_at_thr Q st _ u U Hk HU). ksimpl. kget HU. rewrite Hs, Z.eqb_refl. cbn [negb].
  rewrite Hw. ksimpl. kstep (copy_msg_Ok (set_irq_enabled false st) p reply r Hrp Hpv). fold st1.
  kstep E. kget lookup_insert_eq. ksimpl. by kstep E'.
Qed.

Lemma reply_not_waiting Q st m reply v u U :
  kinv Q st → msgs st !! m = Some v → thr st u U → sender_pid v = pid U →
  status U ≠ STATUS_REPLY_BLOCKED → msg_reply m reply st = Ok (-1, st).
Proof.
  intros Hk Hm HU Hsp Hs. unfold msg_reply. ksimpl.
  kstep (read_msg_Ok (set_irq_enabled false st) m v Hm). rewrite Hsp.
  kstep (sched_threads_at_thr Q st _ u U Hk HU). ksimpl. kget HU.
  rewrite (proj2 (Z.eqb_neq _ _) Hs). by destruct st.
Qed.

(** The caller of [msg_send_receive] before its message is sent. *)
Lemma send_receive_start Q st t T m reply v p :
  running Q st t T → pid T ≠ p → msgs st !! m = Some v → is_Some (msgs st !! reply) →
  ∃ h b, let T2 := set_wait_data (WMsg reply) (set_status STATUS_REPLY_BLOCKED T) in
    let st2 := set_msgs (<[reply := v]> (msgs st))
                 (upd3 (set_irq_enabled false st) h b (<[t := T2]> (tcbs st))) in
    msg_send_receive m reply p st = _msg_send reply p true (irq_enabled st) st2 ∧
    kinv (rq_pop Q (priority T)) st2.
Proof.
  intros Hr Hne Hm Hrp. destruct (running_pid _ _ _ _ Hr) as [Hp _]. pose proof Hr as [Hk Ha [HT HTs] Hhd _].
  set (st0 := set_irq_enabled false st). assert (kinv Q st0) as Hk0 by kenv Hk.
  destruct (sched_set_status_block Q st0 t T STATUS_REPLY_BLOCKED) as (h & b & E & Hk1 & _); [done..|].
  set (T1 := set_status STATUS_REPLY_BLOCKED T) in *.
  set (st1 := upd3 st0 h b _) in *. change (kinv (rq_pop Q (priority T)) st1) in Hk1.
  assert (thr st1 t T1) as HT1 by (split; [apply lookup_insert_eq|apply HT]).
  pose proof (kinv_tcb _ st1 t T1 (set_wait_data (WMsg reply) T1) Hk1 HT1 eq_refl eq_refl eq_refl) as Hk2.
  exists h, b. split.
  - unfold msg_send_receive. ksimpl. rewrite Hp. rewrite (proj2 (Z.eqb_neq _ _) Hne). cbn [negb]. ksimpl.
    kstep (sched_threads_at_thr Q st _ t T Hk HT). ksimpl. kstep E.
    kstep (modify_thread_Ok st1 t T1 _ (proj1 HT1)).
    kstep (copy_msg_Ok (set_tcbs _ st1) reply m v Hm Hrp). simpl. by rewrite insert_insert_eq.
  - eapply (kinv_env _ _ _ Hk2); try done. simpl. by rewrite insert_insert_eq.
Qed.

(** A request to a thread that waits for one. *)
Lemma send_receive_direct Q st t T m reply v u U p :
  running Q st t T → in_isr st = false → thr st u U → pid T ≠ pid U →
  msgs st !! m = Some v → is_Some (msgs st !! reply) →
  status U = STATUS_RECEIVE_BLOCKED → wait_data U = WMsg p → is_Some (msgs st !! p) →
  ∃ st', msg_send_receive m reply (pid U) st = Ok (1, st') ∧
    settled (rq_push (rq_pop Q (priority T)) (priority U) u) st' ∧
    msgs st' !! p = Some (set_sender_pid (pid T) v) ∧
    tcbs st' !! t = Some (set_wait_data (WMsg reply) (set_status STATUS_REPLY_BLOCKED T)).
Proof.
  intros Hr Hi HU Hne Hm Hrp Hs Hw Hpv. destruct (running_pid _ _ _ _ Hr) as [Hap _].
  pose proof Hr as [Hk Ha [HT HTs] Hhd _].
  destruct (send_receive_start Q st t T m reply v (pid U) Hr Hne Hm Hrp) as (h & b & E & Hk2).
  set (T2 := set_wait_data (WMsg reply) _) in *. set (st2 := set_msgs _ _) in *. rewrite E. clear E.
  assert (t ≠ u) as Htu by (intros <-; by rewrite (thr_fun _ _ _ _ HT HU) in Hne).
  assert (thr st2 u U) as HU2 by (split; [simpl; by rewrite lookup_insert_ne; [apply HU|]|apply HU]).
  set (v' := set_sender_pid (pid T) v).
  set (st3 := set_msgs (<[p := v']> (<[reply := v']> (msgs st2))) st2).
  assert (kinv (rq_pop Q (priority T)) st3) as Hk3 by kenv Hk2.
  assert (∀ q, u ∉ rq_pop Q (priority T) q) as Hn.
  { eapply unlisted; [exact Hk2|exact HU2|]. unfold unlisted_status. tauto. }
  destruct (sched_set_status_wake _ st3 u U STATUS_PENDING Hk3 HU2) as (h' & b' & E & Hk4 & _);
    [klia|done|klia|].
  set (st4 := upd3 st3 h' b' _) in *. change (kinv (rq_push (rq_pop Q (priority T)) (priority U) u) st4) in Hk4.
  assert (∀ e, kinv (rq_push (rq_pop Q (priority T)) (priority U) u) (set_irq_enabled e st4)) as Hk5 by (intros; kenv Hk4).
  destruct (yield_thread _ _ (Hk5 (irq_enabled st))) as (st' & E' & Hset & Hy); [done| |].
  { exists u, (set_status STATUS_PENDING U). split; [split; [apply lookup_insert_eq|apply HU]|klia]. }
  assert (tcbs st4 !! t = Some T2) as HT4.
  { simpl. rewrite lookup_insert_ne by done. apply lookup_insert_eq. }
  destruct (yielded_tcb _ _ t T2 Hy HT4) as (s & Hs' & Hss & _).
  apply yielded_env in Hy as (_ & Hms & _). exists st'. split; [|split; [done|split]].
  - unfold _msg_send. kstep (sched_threads_at_thr Q st st2 u U Hk HU). ksimpl.
    change (sched_active_pid st2) with (sched_active_pid st). rewrite Hap.
    kstep (read_msg_Ok st2 reply v (lookup_insert_eq _ _ _)).
    erewrite bind_Ok by (apply write_msg_Ok; exists v; apply lookup_insert_eq). cbv beta iota. ksimpl.
    change (sched_active_thread st2) with (sched_active_thread st). rewrite Ha. ksimpl.
    kget HU2. rewrite Hs, Z.eqb_refl. cbn [negb]. rewrite Hw. ksimpl.
    erewrite bind_Ok.
    2:{ apply (copy_msg_Ok _ p reply v'); [apply lookup_insert_eq|]. simpl.
        destruct (decide (reply = p)) as [->|]; [by rewrite lookup_insert_eq|].
        rewrite !lookup_insert_ne by done. exact Hpv. }
    cbv beta. kstep E. ksimpl. by kstep E'.
  - rewrite Hms. simpl. apply lookup_insert_eq.
  - rewrite Hs', Hss by klia. done.
Qed.

(** A request to a PID that names no thread leaves the caller blocked. *)
Lemma send_receive_nobody Q st t T m reply v p :
  running Q st t T → pid T ≠ p → msgs st !! m = Some v → is_Some (msgs st !! reply) →
  0 <= p <= KERNEL_PID_LAST → sched_threads st !! p = None →
  ∃ st', msg_send_receive m reply p st = Ok (-1, st') ∧ kinv (rq_pop Q (priority T)) st' ∧
    sched_active_thread st' = Some t ∧
    tcbs st' !! t = Some (set_wait_data (WMsg reply) (set_status STATUS_REPLY_BLOCKED T)).
Proof.
  intros Hr Hne Hm Hrp Hp Hn.
  destruct (send_receive_start Q st t T m reply v p Hr Hne Hm Hrp) as (h & b & E & Hk2).
  set (st2 := set_msgs _ _) in *. rewrite E. clear E. unfold _msg_send.
  kstep sched_threads_at_Ok. change (sched_threads st2) with (sched_threads st). rewrite Hn. ksimpl.
  kstep (read_msg_Ok st2 reply v (lookup_insert_eq _ _ _)).
  erewrite bind_Ok by (apply write_msg_Ok; exists v; apply lookup_insert_eq). cbv beta iota. ksimpl.
  eexists. split; [reflexivity|]. split; [kenv Hk2|]. split; [apply Hr|]. apply lookup_insert_eq.
Qed.

(** ** Examples

    The thread at 3360 (PID 3) waits for a message, main runs; and: it waits
    for the reply to a request that nobody has received. *)

Definition demo_recv : kstate := after (_msg_receive (0, 0) 1) demo_two.
Definition demo_receiver : thread_t :=
  Thread 3360 STATUS_RECEIVE_BLOCKED 5 3 0 (WMsg (0, 0)) (CIB_INIT 0) None.

Lemma demo_recv_running : running (rq_pop demo_Q2 5) demo_recv 2360 demo_main.
Proof.
  destruct (receive_empty_block _ _ _ _ (0, 0) 1 demo_two_running) as (st & E & Hs & _);
    [by vm_compute|left; by split|by vm_compute|done|apply demo_two_other|].
  apply settled_running; [|by vm_compute..]. unfold demo_recv. by rewrite (after_Ok _ _ _ _ E).
Qed.

Lemma demo_recv_thr : thr demo_recv 3360 demo_receiver.
Proof. split; by vm_compute. Qed.

Lemma no_space_sent st T m v U : no_space st U → (∀ a, msg_array U = Some a → m.1 ≠ a) →
  no_space (sent st T m v) U.
Proof.
  intros [Hn|(k & l & (a & arr & Ha & Harr & Hrep) & Hl)] Hma; [by left|right].
  exists k, l. split; [|done]. exists a, arr. split; [done|]. split; [|done].
  apply marray_other; [done|by apply Hma].
Qed.

(** ** The theorems *)

(** C28: sending to another thread, which does not wait for thread flags, a message
    that is not in the target's own queue. If the target waits for a message, the
    message (with the sender's PID filled in) is in the target's buffer, the
    target is ready and the most urgent thread runs. If the target does
    something else and has room in its queue, the message is appended there, the
    flag for waiting messages is set in the target and the sender runs on. If there
    is no room, [msg_try_send] returns 0 and drops the message, and [msg_send]
    blocks the sender, when another thread is ready, on the target's waiting list,
    behind the senders of the same or a higher priority. *)
Theorem msg_send_correct Q st t T m v u U block :
  running Q st t T → in_isr st = false → thr st u U → pid U ≠ pid T → msgs st !! m = Some v →
  ¬ flag_blocked U → (∀ a, msg_array U = Some a → m.1 ≠ a) →
  let v' := set_sender_pid (pid T) v in
  (∀ p, status U = STATUS_RECEIVE_BLOCKED → wait_data U = WMsg p → is_Some (msgs st !! p) →
     ∃ st', msg_send_with m (pid U) block st = Ok (1, st') ∧
       settled (rq_push Q (priority U) u) st' ∧ msgs st' !! p = Some v' ∧
       ∃ s, tcbs st' !! u = Some (set_status s U) ∧ STATUS_ON_RUNQUEUE <= s) ∧
  (∀ k l, status U ≠ STATUS_RECEIVE_BLOCKED → queue_is st U k l → Z.of_nat (length l) < 2 ^ k →
     ∃ st' U', msg_send_with m (pid U) block st = Ok (1, st') ∧ running Q st' t T ∧
       tcbs st' !! u = Some U' ∧ queue_is st' U' k (l ++ [v']) ∧ status U' = status U ∧
       flags U' = Z.lor (flags U) THREAD_FLAG_MSG_WAITING) ∧
  (status U ≠ STATUS_RECEIVE_BLOCKED → no_space st U → block = false →
     ∃ st', msg_send_with m (pid U) block st = Ok (0, st') ∧ running Q st' t T ∧ tcbs st' = tcbs st) ∧
  (status U ≠ STATUS_RECEIVE_BLOCKED → no_space st U → block = true → other_ready st t →
     ∃ st', msg_send_with m (pid U) block st = Ok (1, st') ∧
       settled (<[MSG_WAITERS u := insert_by (prio_of st) t (Q (MSG_WAITERS u))]>
                  (rq_pop Q (priority T))) st' ∧
       tcbs st' !! t = Some (set_status STATUS_SEND_BLOCKED (set_wait_data (WMsg m) T)) ∧
       msgs st' !! m = Some v').
Proof.
  intros Hr Hi HU Hp Hm Hf Hma v'. split; [|split; [|split]].
  - intros p Hs Hw Hpv. destruct (send_direct _ _ _ _ _ _ m v block Hr Hi HU Hp Hm p Hs Hw Hpv)
      as (st' & E & Hset & Hms & _ & Hst & _). exists st'. split; [done|]. split; [done|]. split; [|done].
    rewrite Hms. apply lookup_insert_eq.
  - intros k l Hs Hq Hl. destruct (send_queued _ _ _ _ _ _ m v block Hr Hi HU Hp Hm Hf k l Hs Hq Hl Hma)
      as (st' & U' & E & Hr' & HU' & Hq' & Hs' & Hf'). by exists st', U'.
  - intros Hs Hn Hb. destruct (send_dropped _ _ _ _ _ _ m v block Hr Hi HU Hp Hm Hs
      (no_space_sent _ _ _ _ _ Hn Hma) Hb) as (st' & E & Hr' & Ht & _). by exists st'.
  - intros Hs Hn Hb Ho. destruct (send_blocked _ _ _ _ _ _ m v block Hr Hi HU Hp Hm Hf Hs
      (no_space_sent _ _ _ _ _ Hn Hma) Hb Ho) as (st' & U' & E & Hset & HT & Hms & _).
    exists st'. split; [done|]. split; [done|]. split; [done|]. rewrite Hms. apply lookup_insert_eq.
Qed.

Lemma msg_send_correct_witness :
  ∃ st', msg_send_with (1, 1) 3 true demo_recv = Ok (1, st') ∧
    settled (rq_push (rq_pop demo_Q2 5) 5 3360) st' ∧ msgs st' !! (0, 0) = Some (Msg 2 0 0) ∧
    ∃ s, tcbs st' !! 3360 = Some (set_status s demo_receiver) ∧ STATUS_ON_RUNQUEUE <= s.
Proof.
  apply (msg_send_correct _ _ _ _ (1, 1) (Msg 0 0 0) 3360 demo_receiver true demo_recv_running).
  - vm_compute; reflexivity.
  - exact demo_recv_thr.
  - discriminate.
  - vm_compute; reflexivity.
  - intros [E|E]; vm_compute in E; discriminate E.
  - discriminate.
  - reflexivity.
  - reflexivity.
  - vm_compute. eexists. reflexivity.
Defined.



(** A request. [msg_send_receive] to a thread that waits for a message
    hands the message over with the sender's PID, makes the receiver ready, and
    leaves the caller blocked until the reply, with its reply buffer recorded. *)
Theorem msg_send_receive_correct Q st t T m reply v u U p :
  running Q st t T → in_isr st = false → thr st u U → pid T ≠ pid U →
  msgs st !! m = Some v → is_Some (msgs st !! reply) →
  status U = STATUS_RECEIVE_BLOCKED → wait_data U = WMsg p → is_Some (msgs st !! p) →
  ∃ st', msg_send_receive m reply (pid U) st = Ok (1, st') ∧
    settled (rq_push (rq_pop Q (priority T)) (priority U) u) st' ∧
    msgs st' !! p = Some (set_sender_pid (pid T) v) ∧
    tcbs st' !! t = Some (set_wait_data (WMsg reply) (set_status STATUS_REPLY_BLOCKED T)).
Proof. intros. by eapply send_receive_direct. Qed.

Lemma msg_send_receive_correct_witness :
  ∃ st', msg_send_receive (1, 1) (1, 2) 3 demo_recv = Ok (1, st') ∧
    msgs st' !! (0, 0) = Some (Msg 2 0 0).
Proof.
  destruct (msg_send_receive_correct _ _ _ _ (1, 1) (1, 2) (Msg 0 0 0) 3360 demo_receiver (0, 0)
    demo_recv_running) as (st' & E & _ & Hms & _).
  - vm_compute; reflexivity.
  - exact demo_recv_thr.
  - discriminate.
  - vm_compute; reflexivity.
  - vm_compute. eexists. reflexivity.
  - reflexivity.
  - reflexivity.
  - vm_compute. eexists. reflexivity.
  - exists st'. split; [exact E|exact Hms].
Defined.

(** the reply. [msg_reply] to a thread that waits for one copies the reply
    into the buffer that thread recorded and makes it ready; the most urgent
    thread runs. If the sender of the message does not wait for a reply, it
    returns -1 and changes nothing. *)
Theorem msg_reply_correct Q st t T m reply v r u U :
  running Q st t T → msgs st !! m = Some v → msgs st !! reply = Some r →
  thr st u U → sender_pid v = pid U →
  (∀ p, status U = STATUS_REPLY_BLOCKED → (∀ q, u ∉ Q q) → wait_data U = WMsg p →
     is_Some (msgs st !! p) →
     ∃ st', msg_reply m reply st = Ok (1, st') ∧ settled (rq_push Q (priority U) u) st' ∧
       msgs st' = <[p := r]> (msgs st)) ∧
  (status U ≠ STATUS_REPLY_BLOCKED → msg_reply m reply st = Ok (-1, st)).
Proof.
  intros Hr Hm Hrp HU Hsp. split.
  - intros. by eapply reply_waiting.
  - intros. eapply reply_not_waiting; [apply Hr|done..].
Qed.

Definition demo_request : kstate := after (msg_send_receive (1, 1) (1, 2) 3) demo_recv.

Lemma demo_request_running :
  running (rq_push (rq_pop (rq_pop demo_Q2 5) 7) 5 3360) demo_request 3360
    (Thread 3360 STATUS_RUNNING 5 3 0 (WMsg (0, 0)) (CIB_INIT 0) None).
Proof.
  destruct (send_receive_direct _ _ _ _ (1, 1) (1, 2) (Msg 0 0 0) 3360 demo_receiver (0, 0)
    demo_recv_running) as (st' & E & Hs & _); [by vm_compute|apply demo_recv_thr|done|by vm_compute| |done|done| |].
  - vm_compute. by eexists.
  - vm_compute. by eexists.
  - change (pid demo_receiver) with 3 in E.
    apply settled_running; [|by vm_compute..]. unfold demo_request. by rewrite (after_Ok _ _ _ _ E).
Qed.

Lemma demo_request_client q : 2360 ∉ rq_push (rq_pop (rq_pop demo_Q2 5) 7) 5 3360 q.
Proof.
  intros Hin. destruct (k_member _ _ (run_kinv _ _ _ _ demo_request_running) _ _ Hin) as (T & [HT _] & Hs).
  vm_compute in HT. injection HT as <-. destruct q; simpl in Hs; kconst; try lia.
  unfold rq_push, rq_pop, demo_Q2, demo_Q1, rq_push, no_queues in Hin.
  rewrite !fn_lookup_insert_ne in Hin by (kconst; discriminate). set_solver.
Qed.

Lemma msg_reply_correct_witness :
  ∃ st', msg_reply (0, 0) (2, 2) demo_request = Ok (1, st') ∧
    msgs st' = <[(1, 2) := Msg 0 0 0]> (msgs demo_request).
Proof.
  destruct (msg_reply_correct _ _ _ _ (0, 0) (2, 2) (Msg 2 0 0) (Msg 0 0 0) 2360
    (Thread 2360 STATUS_REPLY_BLOCKED 7 2 0 (WMsg (1, 2)) (CIB_INIT 0) None) demo_request_running)
    as [H _].
  - vm_compute; reflexivity.
  - vm_compute; reflexivity.
  - split; vm_compute; reflexivity.
  - reflexivity.
  - destruct (H (1, 2)) as (st' & E & _ & Hms).
    + reflexivity.
    + exact demo_request_client.
    + reflexivity.
    + vm_compute. eexists. reflexivity.
    + exists st'. split; [exact E|exact Hms].
Defined.

(** C30: [msg_send_receive] to a PID that names no thread returns -1 to a caller
    that is no longer schedulable: the running thread has left its run queue and
    has the status [STATUS_REPLY_BLOCKED], although nobody will ever reply. *)
Theorem msg_send_receive_nobody Q st t T m reply v p :
  running Q st t T → pid T ≠ p → msgs st !! m = Some v → is_Some (msgs st !! reply) →
  0 <= p <= KERNEL_PID_LAST → sched_threads st !! p = None →
  ∃ st' T', msg_send_receive m reply p st = Ok (-1, st') ∧ sched_active_thread st' = Some t ∧
    tcbs st' !! t = Some T' ∧ status T' = STATUS_REPLY_BLOCKED ∧
    kinv (rq_pop Q (priority T)) st' ∧ ∀ q, t ∉ rq_pop Q (priority T) q.
Proof.
  intros Hr Hne Hm Hrp Hp Hn.
  destruct (send_receive_nobody _ _ _ _ _ _ _ _ Hr Hne Hm Hrp Hp Hn) as (st' & E & Hk & Ha & HT).
  eexists st', _. split; [done|]. split; [done|]. split; [done|]. split; [done|]. split; [done|].
  destruct Hr as [Hk0 _ [HT0 _] Hhd _]. by eapply rq_pop_notin.
Qed.

Lemma msg_send_receive_nobody_witness :
  ∃ st' T', msg_send_receive (1, 1) (1, 2) 9 demo_two = Ok (-1, st') ∧
    sched_active_thread st' = Some 3360 ∧ tcbs st' !! 3360 = Some T' ∧
    status T' = STATUS_REPLY_BLOCKED.
Proof.
  destruct (msg_send_receive_nobody _ _ _ _ (1, 1) (1, 2) (Msg 0 0 0) 9 demo_two_running)
    as (st' & T' & E & Ha & HT & Hs & _).
  - discriminate.
  - vm_compute; reflexivity.
  - vm_compute. eexists. reflexivity.
  - klia.
  - vm_compute; reflexivity.
  - exists st', T'. split; [exact E|]. split; [exact Ha|]. split; [exact HT|exact Hs].
Defined.
