(* ===== verification/Mbox.v ===== *)
(** * core/mbox.c: mailboxes

    A blocking [_mbox_put] that has to wait goes on after its context switch
    with [_mbox_put_resume]; a blocked [_mbox_get] only returns 1. *)

From S2P Require Import Prelude LinkedList Cib Bitarithm Kernel KernelInv Thread ThreadFlags Msg.
Open Scope Z_scope.
Implicit Types (Q : node → list Z) (st : kstate) (T : thread_t).

Definition read_mbox (b : Z) : M mbox_t :=
  λ st, match mboxes st !! b with Some B => Ok (B, st) | None => Fault BadPointer end.

Definition write_mbox (b : Z) (B : mbox_t) : M unit :=
  modify (λ st, set_mboxes (<[b := B]> (mboxes st)) st).

Definition _wake_waiter (thread : Z) (irqstate : bool) : M unit :=
  _ ← sched_set_status thread STATUS_PENDING;
  T ← get_thread thread;
  _ ← irq_restore irqstate;
  sched_switch (priority T).

Definition _wait (wait_list : node) (irqstate : bool) : M unit :=
  a ← gets sched_active_thread;
  me ← nonnull a;
  _ ← sched_set_status me STATUS_MBOX_BLOCKED;
  _ ← thread_add_to_list wait_list me;
  _ ← irq_restore irqstate;
  thread_yield.

(** The end of [_mbox_put]: the message goes into the queue. *)
Definition _mbox_put_queue (mbox : Z) (msg : mptr) (irqstate : bool) : M Z :=
  me_pid ← gets sched_active_pid;
  v ← read_msg msg;
  _ ← write_msg msg (set_sender_pid me_pid v);
  B ← read_mbox mbox;
  let '(i, c) := cib_put_unsafe (mb_cib B) in
  _ ← write_mbox mbox (set_mb_cib c B);
  _ ← copy_msg (mb_array B, i) msg;
  _ ← irq_restore irqstate;
  mret 1.

Definition _mbox_put_resume (mbox : Z) (msg : mptr) : M Z :=
  irqstate ← irq_disable;
  _mbox_put_queue mbox msg irqstate.

Definition _mbox_put (mbox : Z) (msg : mptr) (blocking : Z) : M (outcome Z) :=
  irqstate ← irq_disable;
  h ← gets heap;
  let r := list_remove_head h (MBOX_READERS mbox) in
  _ ← modify (set_heap r.2);
  match r.1 with
  | Some next =>
      thread ← container_of next;
      T ← get_thread thread;
      p ← wait_msg (wait_data T);
      _ ← copy_msg p msg;
      _ ← _wake_waiter thread irqstate;
      mret (Return 1)
  | None =>
      B ← read_mbox mbox;
      if cib_full (mb_cib B) then
        if negb (blocking =? 0) then
          _ ← _wait (MBOX_WRITERS mbox) irqstate;
          mret Wait
        else
          _ ← irq_restore irqstate;
          mret (Return 0)
      else
        v ← _mbox_put_queue mbox msg irqstate;
        mret (Return v)
  end.

Definition _mbox_get (mbox : Z) (msg : mptr) (blocking : Z) : M Z :=
  irqstate ← irq_disable;
  B ← read_mbox mbox;
  if negb (cib_avail (mb_cib B) =? 0) then
    let '(i, c) := cib_get_unsafe (mb_cib B) in
    _ ← write_mbox mbox (set_mb_cib c B);
    _ ← copy_msg msg (mb_array B, i);
    h ← gets heap;
    let r := list_remove_head h (MBOX_WRITERS mbox) in
    _ ← modify (set_heap r.2);
    _ ← match r.1 with
        | Some next => thread ← container_of next; _wake_waiter thread irqstate
        | None => irq_restore irqstate
        end;
    mret 1
  else if negb (blocking =? 0) then
    a ← gets sched_active_thread;
    me ← nonnull a;
    _ ← modify_thread me (set_wait_data (WMsg msg));
    _ ← _wait (MBOX_READERS mbox) irqstate;
    mret 1
  else
    _ ← irq_restore irqstate;
    mret 0.

Definition mbox_init (mbox : Z) (array : Z) (size : Z) : M unit :=
  _ ← write_mbox mbox (Mbox (CIB_INIT (u32 size)) array);
  modify (λ st, set_heap (set_next (set_next (heap st) (MBOX_READERS mbox) None)
                                   (MBOX_WRITERS mbox) None) st).

(** ** The abstract mailbox *)

(** The mailbox has [2^k] slots and holds the messages [l]. *)
Definition mbox_is st (b : Z) (k : Z) (l : list msg_t) : Prop :=
  ∃ c a arr, mboxes st !! b = Some (Mbox c a) ∧ marray (msgs st) a arr ∧ cib_rep k c arr l.

Lemma read_mbox_Ok st b B : mboxes st !! b = Some B → read_mbox b st = Ok (B, st).
Proof. intros E. unfold read_mbox. by rewrite E. Qed.

(** ** Waking and waiting *)

Lemma wake_waiter_spec Q st t T u U e :
  running Q st t T → thr st u U → status U = STATUS_MBOX_BLOCKED → (∀ q, u ∉ Q q) →
  ∃ st', _wake_waiter u e st = Ok (tt, st') ∧ settled (rq_push Q (priority U) u) st' ∧
    msgs st' = msgs st ∧ mboxes st' = mboxes st.
Proof.
  intros Hr HU Hs Hn.
  destruct (sched_set_status_wake Q st u U STATUS_PENDING (run_kinv _ _ _ _ Hr) HU)
    as (h & b & E & Hk1 & _); [klia|done|klia|].
  set (st1 := upd3 st h b _) in *. change (kinv (rq_push Q (priority U) u) st1) in Hk1.
  destruct (wake_switch Q (rq_push Q (priority U) u) st t T u U STATUS_PENDING (set_irq_enabled e st1) Hr HU)
    as (st' & E' & Hset & Hy); try done.
  { eapply running_ne; [exact Hr|exact HU|klia]. } { kenv Hk1. } { apply rq_push_head, Hr. }
  apply yielded_env in Hy as (_ & Hms & Hmb & _). exists st'.
  split; [|split; [done|split; [by rewrite Hms|by rewrite Hmb]]].
  unfold _wake_waiter. kstep E. kget lookup_insert_eq. ksimpl. exact E'.
Qed.

Lemma wait_spec Q st t T q e :
  running Q st t T → in_isr st = false → other_ready st t →
  (∃ b, q = MBOX_READERS b) ∨ (∃ b, q = MBOX_WRITERS b) →
  ∃ st', _wait q e st = Ok (tt, st') ∧
    settled (<[q := insert_by (prio_of st) t (Q q)]> (rq_pop Q (priority T))) st' ∧
    tcbs st' !! t = Some (set_status STATUS_MBOX_BLOCKED T) ∧
    msgs st' = msgs st ∧ mboxes st' = mboxes st ∧ in_isr st' = false.
Proof.
  intros Hr Hi Ho Hq. pose proof Hr as [Hk Ha [HT HTs] Hhd _].
  assert (wait_queue q = true ∧ (∀ h l, queue_rep h q l = is_list h q (RQ_ENTRY <$> l)) ∧
          ∀ T, queue_status q T = (status T = STATUS_MBOX_BLOCKED)) as (Hwq & Hrep & Hqs).
  { destruct Hq as [[b ->]|[b ->]]; done. }
  destruct (sched_set_status_block Q st t T STATUS_MBOX_BLOCKED) as (h & b & E & Hk1 & _); [done..|].
  set (T1 := set_status STATUS_MBOX_BLOCKED T) in *. set (st1 := upd3 _ _ _ _) in *.
  change (kinv (rq_pop Q (priority T)) st1) in Hk1.
  assert (thr st1 t T1) as HT1 by (split; [apply lookup_insert_eq|apply HT]).
  destruct (thread_add_to_list_spec _ st1 q t T1 Hk1) as (h' & E2 & Hk2); [done| |done| |klia|by rewrite Hqs|].
  { rewrite <- Hrep. apply (k_rep _ _ Hk1). } { by apply (rq_pop_notin Q st t T). }
  assert (insert_by (prio_of st1) t (rq_pop Q (priority T) q) = insert_by (prio_of st) t (Q q)) as EQ.
  { rewrite rq_pop_wait by done. apply insert_by_ext. intros w.
    exact (prio_of_update st st1 t T T1 w (proj1 HT) eq_refl eq_refl). }
  rewrite EQ in Hk2. set (st2 := set_heap h' st1) in *.
  assert (∀ e, kinv (<[q := insert_by (prio_of st) t (Q q)]> (rq_pop Q (priority T))) (set_irq_enabled e st2))
    as Hk3 by (intros; kenv Hk2).
  destruct (yield_thread _ _ (Hk3 e)) as (st' & E' & Hset & Hy); [done| |].
  { destruct (pop_ready _ _ _ _ Hr Ho) as (w & p & Hin).
    eapply (queued_ready _ _ w p); [apply Hk3|]. by rewrite wait_insert_rq. }
  destruct (yielded_tcb _ _ t T1 Hy (lookup_insert_eq _ _ _)) as (s & Hs' & Hss & _).
  apply yielded_env in Hy as (_ & Hms & Hmb & _ & _ & Hi' & _).
  exists st'. split; [|split; [done|split; [|by rewrite Hms, Hmb, Hi']]].
  - unfold _wait. ksimpl. rewrite Ha. ksimpl. kstep E. kstep E2. ksimpl.
    unfold thread_yield. ksimpl. change (sched_active_thread st2) with (sched_active_thread st). rewrite Ha.
    ksimpl. kget lookup_insert_eq. change (STATUS_ON_RUNQUEUE <=? status T1) with false. ksimpl.
    rewrite <- E'. by destruct st.
  - rewrite Hs', Hss by done. done.
Qed.

(** A waiting list of a mailbox, empty or not. *)
Lemma empty_head Q st q :
  kinv Q st → (∃ b, q = MBOX_READERS b) ∨ (∃ b, q = MBOX_WRITERS b) → Q q = [] →
  list_remove_head (heap st) q = (None, heap st).
Proof.
  intros Hk Hq EQ. apply list_remove_head_nil. pose proof (k_rep _ _ Hk q) as Hl.
  rewrite EQ in Hl. destruct Hq as [[b ->]|[b ->]]; exact Hl.
Qed.

Lemma take_head Q st t T q u w :
  running Q st t T → (∃ b, q = MBOX_READERS b) ∨ (∃ b, q = MBOX_WRITERS b) → Q q = u :: w →
  ∃ h U, list_remove_head (heap st) q = (Some (RQ_ENTRY u), h) ∧
    running (<[q := w]> Q) (set_heap h st) t T ∧ (∀ q', u ∉ <[q := w]> Q q') ∧ thr st u U ∧
    status U = STATUS_MBOX_BLOCKED.
Proof.
  intros [Hk Ha HT Hhd Hd] Hq EQ.
  assert (wait_queue q = true) as Hwq by (destruct Hq as [[b ->]|[b ->]]; done).
  destruct (dequeue Q st q u w Hk Hwq EQ) as (E & _ & Hk' & Hn & U & HU & Hqs).
  eexists _, U. split; [exact E|]. split; [|split; [done|split; [done|]]].
  - split; [done..|by rewrite wait_insert_rq|done].
  - destruct Hq as [[b ->]|[b ->]]; done.
Qed.

(** ** Putting *)

Section Put.
Context (Q : node → list Z) (st : kstate) (t : Z) (T : thread_t) (b : Z) (m : mptr) (v : msg_t) (blocking : Z).
Hypothesis Hrun : running Q st t T.
Hypothesis Hm : msgs st !! m = Some v.

(** A reader waits: it gets the message. *)
Lemma put_reader u w p :
  Q (MBOX_READERS b) = u :: w →
  (∀ U, thr st u U → wait_data U = WMsg p) → is_Some (msgs st !! p) →
  ∃ st' U, _mbox_put b m blocking st = Ok (Return 1, st') ∧ thr st u U ∧
    settled (rq_push (<[MBOX_READERS b := w]> Q) (priority U) u) st' ∧ msgs st' = <[p := v]> (msgs st).
Proof.
  intros EQ Hw Hp. assert (running Q (set_irq_enabled false st) t T) as Hr0 by (renv Hrun).
  destruct (take_head _ _ _ _ (MBOX_READERS b) u w Hr0 (or_introl (ex_intro _ b eq_refl)) EQ)
    as (h & U & E & Hr1 & Hn & HU & Hs).
  set (st1 := set_heap h _) in Hr1. specialize (Hw U HU).
  set (st2 := set_msgs (<[p := v]> (msgs st)) st1). assert (running (<[MBOX_READERS b := w]> Q) st2 t T) as Hr2 by (renv Hr1).
  destruct (wake_waiter_spec _ st2 t T u U (irq_enabled st) Hr2 HU Hs Hn) as (st' & E' & Hset & Hms & _).
  exists st', U. split; [|split; [done|split; [done|by rewrite Hms]]].
  unfold _mbox_put. ksimpl. change (heap (set_irq_enabled false st)) with (heap st) in E. rewrite E.
  cbn [fst snd]. ksimpl. kget HU. rewrite Hw. ksimpl. kstep (copy_msg_Ok st1 p m v Hm Hp). by kstep E'.
Qed.

(** The start of [_mbox_put] when no reader waits. *)
Lemma put_start c a :
  Q (MBOX_READERS b) = [] → mboxes st !! b = Some (Mbox c a) →
  _mbox_put b m blocking st =
    (if cib_full c then
       if negb (blocking =? 0) then _ ← _wait (MBOX_WRITERS b) (irq_enabled st); mret Wait
       else _ ← irq_restore (irq_enabled st); mret (Return 0)
     else v ← _mbox_put_queue b m (irq_enabled st); mret (Return v)) (set_irq_enabled false st).
Proof.
  intros EQ HB. assert (running Q (set_irq_enabled false st) t T) as Hr0 by (renv Hrun).
  pose proof (empty_head _ _ (MBOX_READERS b) (run_kinv _ _ _ _ Hr0) (or_introl (ex_intro _ b eq_refl)) EQ) as E.
  unfold _mbox_put. ksimpl. change (heap (set_irq_enabled false st)) with (heap st) in E. rewrite E.
  cbn [fst snd]. ksimpl.
  by kstep (read_mbox_Ok (set_heap (heap st) (set_irq_enabled false st)) b _ HB).
Qed.

(** Writing into the queue, whether or not there is room. *)
Lemma put_queue_spec st1 c a e :
  running Q st1 t T → msgs st1 !! m = Some v → mboxes st1 !! b = Some (Mbox c a) →
  let v' := set_sender_pid (pid T) v in
  let '(i, c') := cib_put_unsafe c in
  is_Some (msgs st1 !! (a, i)) →
  _mbox_put_queue b m e st1 =
    Ok (1, set_irq_enabled e (set_msgs (<[(a, i) := v']> (<[m := v']> (msgs st1)))
             (set_mboxes (<[b := Mbox c' a]> (mboxes st1)) st1))).
Proof.
  intros Hr1 Hm1 HB v'. destruct (running_pid _ _ _ _ Hr1) as [Hp _].
  destruct (cib_put_unsafe c) as [i c'] eqn:Ec. intros Hai.
  unfold _mbox_put_queue. ksimpl. rewrite Hp. kstep (read_msg_Ok st1 m v Hm1).
  erewrite bind_Ok by (apply write_msg_Ok; by exists v). cbv beta.
  kstep (read_mbox_Ok (set_msgs _ st1) b _ HB). cbn [mb_cib]. rewrite Ec. unfold write_mbox. ksimpl.
  erewrite bind_Ok.
  2:{ apply (copy_msg_Ok _ (a, i) m v'); [apply lookup_insert_eq|]. simpl.
      destruct (decide (m = (a, i))) as [->|]; [by rewrite lookup_insert_eq|by rewrite lookup_insert_ne]. }
  by ksimpl.
Qed.

Lemma put_room k l :
  Q (MBOX_READERS b) = [] → mbox_is st b k l → Z.of_nat (length l) < 2 ^ k →
  (∀ B, mboxes st !! b = Some B → m.1 ≠ mb_array B) →
  ∃ st', _mbox_put b m blocking st = Ok (Return 1, st') ∧ running Q st' t T ∧
    mbox_is st' b k (l ++ [set_sender_pid (pid T) v]).
Proof.
  intros EQ (c & a & arr & HB & Harr & Hrep) Hl Hma. specialize (Hma _ HB). simpl in Hma.
  rewrite (put_start c a EQ HB). rewrite (cib_wf_full k (length l)) by apply Hrep.
  assert ((2 ^ k <=? Z.of_nat (length l)) = false) as -> by lia.
  assert (running Q (set_irq_enabled false st) t T) as Hr0 by (renv Hrun).
  pose proof (put_queue_spec (set_irq_enabled false st) c a (irq_enabled st) Hr0 Hm HB) as E.
  destruct (cib_put_unsafe c) as [i c'] eqn:Ec. cbv zeta in E.
  set (v' := set_sender_pid (pid T) v) in *.
  destruct (cib_put_unsafe_rep k c arr l v' i c' Hrep Hl Ec) as [Hi Hrep'].
  specialize (E (marray_valid _ _ _ _ Harr Hi)). eexists. split; [by kstep E|]. split; [renv Hrun|].
  exists c', a, (<[Z.to_nat i := v']> arr). split; [apply lookup_insert_eq|]. split; [|done].
  simpl. apply marray_insert; [|done]. by apply marray_other.
Qed.

Lemma put_full_try k l :
  Q (MBOX_READERS b) = [] → mbox_is st b k l → Z.of_nat (length l) = 2 ^ k → blocking = 0 →
  _mbox_put b m blocking st = Ok (Return 0, st).
Proof.
  intros EQ (c & a & arr & HB & Harr & Hrep) Hl Hb.
  rewrite (put_start c a EQ HB). rewrite (cib_wf_full k (length l)) by apply Hrep.
  assert ((2 ^ k <=? Z.of_nat (length l)) = true) as -> by lia. rewrite Hb. by destruct st.
Qed.

Lemma put_full_wait k l :
  Q (MBOX_READERS b) = [] → mbox_is st b k l → Z.of_nat (length l) = 2 ^ k → blocking ≠ 0 →
  in_isr st = false → other_ready st t →
  ∃ st', _mbox_put b m blocking st = Ok (Wait, st') ∧
    settled (<[MBOX_WRITERS b := insert_by (prio_of st) t (Q (MBOX_WRITERS b))]> (rq_pop Q (priority T))) st' ∧
    tcbs st' !! t = Some (set_status STATUS_MBOX_BLOCKED T) ∧ mbox_is st' b k l.
Proof.
  intros EQ (c & a & arr & HB & Harr & Hrep) Hl Hb Hi Ho.
  rewrite (put_start c a EQ HB). rewrite (cib_wf_full k (length l)) by apply Hrep.
  assert ((2 ^ k <=? Z.of_nat (length l)) = true) as -> by lia. rewrite (proj2 (Z.eqb_neq _ _) Hb).
  cbn [negb]. assert (running Q (set_irq_enabled false st) t T) as Hr0 by (renv Hrun).
  destruct (wait_spec Q _ t T (MBOX_WRITERS b) (irq_enabled st) Hr0 Hi Ho) as (st' & E & Hs & HT & Hms & Hmb & _).
  { right. by exists b. }
  exists st'. split; [by kstep E|]. split; [done|]. split; [done|].
  exists c, a, arr. rewrite Hmb, Hms. done.
Qed.

End Put.

(** ** Getting *)

Section Get.
Context (Q : node → list Z) (st : kstate) (t : Z) (T : thread_t) (b : Z) (m : mptr) (blocking : Z).
Hypothesis Hrun : running Q st t T.
Hypothesis Hm : is_Some (msgs st !! m).

Lemma get_message k x l :
  mbox_is st b k (x :: l) → (∀ B, mboxes st !! b = Some B → m.1 ≠ mb_array B) →
  ∃ st' Q', _mbox_get b m blocking st = Ok (1, st') ∧ settled Q' st' ∧
    msgs st' !! m = Some x ∧ mbox_is st' b k l ∧
    match Q (MBOX_WRITERS b) with
    | [] => Q' = Q
    | u :: w => ∃ U, thr st u U ∧ Q' = rq_push (<[MBOX_WRITERS b := w]> Q) (priority U) u
    end.
Proof.
  intros (c & a & arr & HB & Harr & Hrep) Hma. specialize (Hma _ HB). simpl in Hma.
  assert (cib_avail c ≠ 0) as Hav.
  { destruct Hrep as [Hwf _]. rewrite (cib_wf_avail _ _ _ Hwf). simpl. lia. }
  destruct (cib_get_unsafe c) as [i c'] eqn:Ec.
  destruct (cib_get_unsafe_rep _ _ _ _ _ _ _ Hrep Ec) as (Hi & Hx & Hrep').
  assert (msgs st !! (a, i) = Some x) as Hai.
  { apply Harr in Hx. by rewrite Z2Nat.id in Hx. }
  set (st1 := set_msgs (<[m := x]> (msgs st)) (set_mboxes (<[b := Mbox c' a]> (mboxes st)) (set_irq_enabled false st))).
  assert (running Q st1 t T) as Hr1 by (renv Hrun).
  assert (∀ st', msgs st' = msgs st1 → mboxes st' = mboxes st1 → msgs st' !! m = Some x ∧ mbox_is st' b k l) as Hpost.
  { intros st' Hm' Hb'. unfold mbox_is. rewrite Hm', Hb'. split; [apply lookup_insert_eq|].
    exists c', a, arr. split; [apply lookup_insert_eq|]. split; [|done]. by apply marray_other. }
  assert (_mbox_get b m blocking st =
      (h ← gets heap;
       let r := list_remove_head h (MBOX_WRITERS b) in
       _ ← modify (set_heap r.2);
       _ ← match r.1 with
           | Some next => thread ← container_of next; _wake_waiter thread (irq_enabled st)
           | None => irq_restore (irq_enabled st)
           end;
       mret 1) st1) as E0.
  { unfold _mbox_get. ksimpl. kstep (read_mbox_Ok (set_irq_enabled false st) b _ HB). cbn [mb_cib mb_array].
    rewrite (proj2 (Z.eqb_neq _ _) Hav). cbn [negb]. rewrite Ec. unfold write_mbox. ksimpl.
    by kstep (copy_msg_Ok (set_mboxes _ (set_irq_enabled false st)) m (a, i) x Hai Hm). }
  rewrite E0. ksimpl. change (heap st1) with (heap st).
  destruct (Q (MBOX_WRITERS b)) as [|u w] eqn:EQ.
  - pose proof (empty_head _ _ (MBOX_WRITERS b) (run_kinv _ _ _ _ Hr1) (or_intror (ex_intro _ b eq_refl)) EQ) as E.
    change (heap st1) with (heap st) in E. rewrite E. cbn [fst snd].
    exists (set_irq_enabled (irq_enabled st) (set_heap (heap st) st1)), Q. split; [by ksimpl|].
    split; [exists t, T; renv Hr1|]. destruct (Hpost (set_irq_enabled (irq_enabled st) (set_heap (heap st) st1))); done.
  - destruct (take_head _ _ _ _ (MBOX_WRITERS b) u w Hr1 (or_intror (ex_intro _ b eq_refl)) EQ)
      as (h & U & E & Hr2 & Hn & HU & Hs). change (heap st1) with (heap st) in E.
    destruct (wake_waiter_spec _ _ t T u U (irq_enabled st) Hr2 HU Hs Hn) as (st' & E' & Hset & Hms & Hmb).
    rewrite E. cbn [fst snd]. eexists st', _. split; [ksimpl; by kstep E'|]. split; [exact Hset|].
    destruct (Hpost st' Hms Hmb) as [? ?]. split; [done|]. split; [done|]. by exists U.
Qed.

Lemma get_empty_try k : mbox_is st b k [] → blocking = 0 → _mbox_get b m blocking st = Ok (0, st).
Proof.
  intros (c & a & arr & HB & Harr & [Hwf _]) Hb. unfold _mbox_get. ksimpl.
  kstep (read_mbox_Ok (set_irq_enabled false st) b _ HB). cbn [mb_cib].
  rewrite (cib_wf_avail _ _ _ Hwf), Hb. by destruct st.
Qed.

Lemma get_empty_wait k :
  mbox_is st b k [] → blocking ≠ 0 → in_isr st = false → other_ready st t →
  ∃ st', _mbox_get b m blocking st = Ok (1, st') ∧
    settled (<[MBOX_READERS b := insert_by (prio_of st) t (Q (MBOX_READERS b))]> (rq_pop Q (priority T))) st' ∧
    tcbs st' !! t = Some (set_status STATUS_MBOX_BLOCKED (set_wait_data (WMsg m) T)).
Proof.
  intros (c & a & arr & HB & Harr & [Hwf _]) Hb Hi Ho.
  assert (running Q (set_irq_enabled false st) t T) as Hr0 by (renv Hrun).
  pose proof Hrun as [_ Ha [HT _] _ _].
  set (T1 := set_wait_data (WMsg m) T).
  set (st1 := set_tcbs (<[t := T1]> (tcbs st)) (set_irq_enabled false st)).
  pose proof (running_tcb Q _ t T t T T1 Hr0 HT eq_refl eq_refl eq_refl) as Hr1.
  rewrite decide_True in Hr1 by done. change (running Q st1 t T1) in Hr1.
  assert (other_ready st1 t) as Ho1.
  { destruct Ho as (u & U & Hne & [[HU Hu] Hs]). exists u, U. split; [done|]. split; [|done].
    split; [simpl; by rewrite lookup_insert_ne|done]. }
  destruct (wait_spec Q st1 t T1 (MBOX_READERS b) (irq_enabled st) Hr1 Hi Ho1) as (st' & E & Hs & HT' & _).
  { left. by exists b. }
  assert (insert_by (prio_of st1) t (Q (MBOX_READERS b)) = insert_by (prio_of st) t (Q (MBOX_READERS b))) as EQ.
  { apply insert_by_ext. intros w. exact (prio_of_update st st1 t T T1 w (proj1 HT) eq_refl eq_refl). }
  rewrite EQ in Hs. exists st'. split; [|split; [exact Hs|done]].
  unfold _mbox_get. ksimpl. kstep (read_mbox_Ok (set_irq_enabled false st) b _ HB). cbn [mb_cib].
  rewrite (cib_wf_avail _ _ _ Hwf). change (Z.of_nat (length [])) with 0. cbn [negb Z.eqb].
  rewrite (proj2 (Z.eqb_neq _ _) Hb). cbn [negb]. ksimpl. rewrite Ha. ksimpl.
  kstep (modify_thread_Ok (set_irq_enabled false st) t T _ (proj1 HT)). fold T1 st1. by kstep E.
Qed.

End Get.

(** ** Examples

    The mailbox 50 with four slots, which the thread at 3360 fills. *)

Definition demo_put : M (outcome Z) := _mbox_put 50 (0, 0) 0.
Definition demo_mb (n : nat) : kstate := Nat.iter n (after demo_put) demo_two.

Lemma demo_mb_empty : mbox_is (demo_mb 0) 50 2 [].
Proof.
  exists (CIB_INIT 4), 1, [Msg 0 0 0; Msg 0 0 0; Msg 0 0 0; Msg 0 0 0].
  split; [by vm_compute|]. split; [|split; [by vm_compute|split; [done|intros i x Hi; by destruct i]]].
  intros i x Hi. do 4 (destruct i; [injection Hi as <-; by vm_compute|]). done.
Qed.

Lemma demo_mb_step n l v :
  running demo_Q2 (demo_mb n) 3360 (demo_high STATUS_RUNNING) → mbox_is (demo_mb n) 50 2 l →
  (length l < 4)%nat → msgs (demo_mb n) !! (0, 0) = Some v →
  (∀ B, mboxes (demo_mb n) !! 50 = Some B → mb_array B = 1) →
  running demo_Q2 (demo_mb (S n)) 3360 (demo_high STATUS_RUNNING) ∧
  mbox_is (demo_mb (S n)) 50 2 (l ++ [set_sender_pid 3 v]).
Proof.
  intros Hr Hmb Hl Hv HB.
  destruct (put_room demo_Q2 (demo_mb n) 3360 _ 50 (0, 0) v 0 Hr Hv 2 l) as (st' & E & Hr' & Hmb');
    [by vm_compute|done|change (2 ^ 2) with 4; lia|intros B HB'; by rewrite (HB _ HB')|].
  change (demo_mb (S n)) with (after demo_put (demo_mb n)). unfold demo_put.
  rewrite (after_Ok _ _ _ _ E). split; [exact Hr'|exact Hmb'].
Qed.

Lemma demo_mb_array n : (n <= 4)%nat → ∀ B, mboxes (demo_mb n) !! 50 = Some B → mb_array B = 1.
Proof.
  intros Hn B HB. do 5 (destruct n as [|n]; [vm_compute in HB; by injection HB as <-|]). lia.
Qed.

Lemma demo_mb_full :
  running demo_Q2 (demo_mb 4) 3360 (demo_high STATUS_RUNNING) ∧
  mbox_is (demo_mb 4) 50 2 [Msg 3 0 0; Msg 3 0 0; Msg 3 0 0; Msg 3 0 0].
Proof.
  destruct (demo_mb_step 0 [] (Msg 0 0 0) demo_two_running demo_mb_empty) as [H1 H1'];
    [simpl; lia|by vm_compute|apply demo_mb_array; lia|].
  destruct (demo_mb_step 1 _ (Msg 3 0 0) H1 H1') as [H2 H2'];
    [simpl; lia|by vm_compute|apply demo_mb_array; lia|].
  destruct (demo_mb_step 2 _ (Msg 3 0 0) H2 H2') as [H3 H3'];
    [simpl; lia|by vm_compute|apply demo_mb_array; lia|].
  destruct (demo_mb_step 3 _ (Msg 3 0 0) H3 H3') as [H4 H4'];
    [simpl; lia|by vm_compute|apply demo_mb_array; lia|]. split; [exact H4|exact H4'].
Qed.

(** ** The theorems *)

(** C31: putting a message into a mailbox. A waiting reader (the first of its
    list) gets it directly and becomes ready. Otherwise it is appended to the
    queue if there is room. If the mailbox is full, a non-blocking put returns 0
    and changes nothing, and a blocking put queues and blocks the caller. *)
Theorem mbox_put_correct Q st t T b m v blocking k l :
  running Q st t T → msgs st !! m = Some v → mbox_is st b k l →
  (∀ B, mboxes st !! b = Some B → m.1 ≠ mb_array B) →
  match Q (MBOX_READERS b) with
  | u :: w => ∀ p, (∀ U, thr st u U → wait_data U = WMsg p) → is_Some (msgs st !! p) →
      ∃ st' U, _mbox_put b m blocking st = Ok (Return 1, st') ∧ thr st u U ∧
        settled (rq_push (<[MBOX_READERS b := w]> Q) (priority U) u) st' ∧
        msgs st' = <[p := v]> (msgs st)
  | [] =>
      if Z.of_nat (length l) <? 2 ^ k then
        ∃ st', _mbox_put b m blocking st = Ok (Return 1, st') ∧ running Q st' t T ∧
          mbox_is st' b k (l ++ [set_sender_pid (pid T) v])
      else if blocking =? 0 then _mbox_put b m blocking st = Ok (Return 0, st)
      else in_isr st = false → other_ready st t →
        ∃ st', _mbox_put b m blocking st = Ok (Wait, st') ∧
          settled (<[MBOX_WRITERS b := insert_by (prio_of st) t (Q (MBOX_WRITERS b))]>
                     (rq_pop Q (priority T))) st' ∧
          tcbs st' !! t = Some (set_status STATUS_MBOX_BLOCKED T) ∧ mbox_is st' b k l
  end.
Proof.
  intros Hr Hm Hmb Hma. destruct (Q (MBOX_READERS b)) as [|u w] eqn:EQ.
  - destruct (Z.ltb_spec (Z.of_nat (length l)) (2 ^ k)) as [Hlt|Hge]; [by eapply put_room|].
    assert (Z.of_nat (length l) = 2 ^ k) as Hfull.
    { destruct Hmb as (c & a & arr & _ & _ & [Hwf _]). destruct Hwf as (_ & _ & _ & _ & ?). lia. }
    destruct (Z.eqb_spec blocking 0) as [->|Hb]; [by eapply put_full_try|].
    intros Hi Ho. by eapply put_full_wait.
  - intros p Hw Hp. by eapply put_reader.
Qed.

Lemma mbox_put_correct_witness :
  ∃ st', _mbox_put 50 (0, 0) 0 (demo_mb 0) = Ok (Return 1, st') ∧ mbox_is st' 50 2 [Msg 3 0 0].
Proof.
  destruct (mbox_put_correct demo_Q2 (demo_mb 0) 3360 _ 50 (0, 0) (Msg 0 0 0) 0 2 []
    demo_two_running) as (st' & E & _ & Hmb).
  - vm_compute; reflexivity.
  - exact demo_mb_empty.
  - intros B HB. rewrite (demo_mb_array 0 (Nat.le_0_l 4) B HB). discriminate.
  - exists st'. split; [exact E|exact Hmb].
Defined.

(** getting a message from a mailbox. The oldest message is taken; if a
    writer waits for room, the first of them becomes ready. From an empty mailbox
    a non-blocking get returns 0 and changes nothing, and a blocking one queues
    and blocks the caller with its buffer recorded. *)
Theorem mbox_get_correct Q st t T b m blocking k l :
  running Q st t T → is_Some (msgs st !! m) → mbox_is st b k l →
  (∀ B, mboxes st !! b = Some B → m.1 ≠ mb_array B) →
  match l with
  | x :: l' => ∃ st' Q', _mbox_get b m blocking st = Ok (1, st') ∧ settled Q' st' ∧
      msgs st' !! m = Some x ∧ mbox_is st' b k l' ∧
      match Q (MBOX_WRITERS b) with
      | [] => Q' = Q
      | u :: w => ∃ U, thr st u U ∧ Q' = rq_push (<[MBOX_WRITERS b := w]> Q) (priority U) u
      end
  | [] =>
      if blocking =? 0 then _mbox_get b m blocking st = Ok (0, st)
      else in_isr st = false → other_ready st t →
        ∃ st', _mbox_get b m blocking st = Ok (1, st') ∧
          settled (<[MBOX_READERS b := insert_by (prio_of st) t (Q (MBOX_READERS b))]>
                     (rq_pop Q (priority T))) st' ∧
          tcbs st' !! t = Some (set_status STATUS_MBOX_BLOCKED (set_wait_data (WMsg m) T))
  end.
Proof.
  intros Hr Hm Hmb Hma. destruct l as [|x l]; [|by eapply get_message].
  destruct (Z.eqb_spec blocking 0) as [->|Hb]; [by eapply get_empty_try|].
  intros Hi Ho. by eapply get_empty_wait.
Qed.

Lemma mbox_get_correct_witness :
  ∃ st' Q', _mbox_get 50 (0, 0) 0 (demo_mb 4) = Ok (1, st') ∧ settled Q' st' ∧
    msgs st' !! (0, 0) = Some (Msg 3 0 0).
Proof.
  destruct demo_mb_full as [Hr Hmb].
  destruct (mbox_get_correct demo_Q2 (demo_mb 4) 3360 _ 50 (0, 0) 0 2
    [Msg 3 0 0; Msg 3 0 0; Msg 3 0 0; Msg 3 0 0] Hr)
    as (st' & Q' & E & Hs & Hms & _).
  - vm_compute. eexists. reflexivity.
  - exact Hmb.
  - intros B HB. rewrite (demo_mb_array 4 (Nat.le_refl 4) B HB). discriminate.
  - exists st', Q'. split; [exact E|]. split; [exact Hs|exact Hms].
Defined.

(** A blocking put that was woken does not check again that there is room.
    If another thread has filled the mailbox in the meantime, the put stores its
    message over the oldest one and the queue counts one message more than it has
    slots. *)
Theorem mbox_put_overwrites Q st t T b m v k x l :
  running Q st t T → msgs st !! m = Some v → mbox_is st b k (x :: l) →
  Z.of_nat (length (x :: l)) = 2 ^ k →
  ∃ st' c a, _mbox_put_resume b m st = Ok (1, st') ∧ mboxes st' !! b = Some (Mbox c a) ∧
    cib_avail c = 2 ^ k + 1 ∧
    msgs st' !! (a, (cib_get_unsafe c).1) = Some (set_sender_pid (pid T) v).
Proof.
  intros Hr Hm (c & a & arr & HB & Harr & Hrep) Hl. pose proof Hrep as (Hwf & Ha & _).
  assert (running Q (set_irq_enabled false st) t T) as Hr0 by (renv Hr).
  pose proof (put_queue_spec Q st t T b m v Hm (set_irq_enabled false st) c a (irq_enabled st) Hr0 Hm HB) as E.
  pose proof Hwf as (Hk & Hmk & Hrd & Hwr & _). pose proof (pow_le_2_30 k Hk) as Hpow.
  unfold cib_put_unsafe in E. rewrite (cib_slot_write k _ c Hwf) in E. cbv zeta in E.
  assert (cib_slot k c (length (x :: l)) = cib_slot k c 0) as Hsl.
  { unfold cib_slot. rewrite Hl. f_equal. rewrite Z.add_0_r.
    rewrite <- (Z.mul_1_l (2 ^ k)) at 1. apply Z.mod_add. lia. }
  rewrite Hsl in E. pose proof (cib_slot_bound k c 0 (proj1 Hk)) as Hsb.
  assert (is_Some (msgs st !! (a, Z.of_nat (cib_slot k c 0)))) as Hsome by (by eapply marray_valid; [done|lia]).
  specialize (E Hsome). eexists _, _, _. split; [unfold _mbox_put_resume; ksimpl; exact E|].
  split; [apply lookup_insert_eq|]. split.
  - unfold cib_avail. cbn [write_count read_count]. rewrite Hwr. unfold u32.
    rewrite Zplus_mod_idemp_l, Zminus_mod_idemp_l, Hl.
    replace (read_count c + 2 ^ k + 1 - read_count c) with (2 ^ k + 1) by lia. apply Z.mod_small. lia.
  - unfold cib_get_unsafe. cbn [fst read_count mask]. rewrite (cib_slot_read k _ c Hwf).
    apply lookup_insert_eq.
Qed.

Lemma mbox_put_overwrites_witness :
  ∃ st' c a, _mbox_put_resume 50 (0, 0) (demo_mb 4) = Ok (1, st') ∧
    mboxes st' !! 50 = Some (Mbox c a) ∧ cib_avail c = 5.
Proof.
  destruct demo_mb_full as [Hr Hmb].
  destruct (mbox_put_overwrites demo_Q2 (demo_mb 4) 3360 _ 50 (0, 0) (Msg 3 0 0) 2 (Msg 3 0 0)
    [Msg 3 0 0; Msg 3 0 0; Msg 3 0 0] Hr)
    as (st' & c & a & E & HB & Hav & _).
  - vm_compute; reflexivity.
  - exact Hmb.
  - reflexivity.
  - exists st', c, a. split; [exact E|]. split; [exact HB|exact Hav].
Defined.
