(* ===== verification/System.v ===== *)
(** * The calls of the kernel on threads and mutexes

    Threads and interrupt handlers call the kernel in any order. A step is one
    call by the active thread, one call by an interrupt handler, or the entry
    to or the exit from an interrupt; calls are atomic, as the kernel masks
    interrupts. The idle thread never blocks, so some thread is always ready.
    Every such call succeeds and keeps the invariant; IpcSystem adds message
    passing and looks at sequences of calls. *)

From S2P Require Import Prelude LinkedList Cib Bitarithm Kernel KernelInv Thread Mutex.
Open Scope Z_scope.
Implicit Types (Q : node → list Z) (st : kstate) (T : thread_t).

(** ** Calls *)

Inductive call : Type :=
  | Yield
  | Sleep
  | Wakeup (pid : Z)
  | Lock (mutex : Z)
  | Trylock (mutex : Z)
  | Unlock (mutex : Z)
  | UnlockAndSleep (mutex : Z)
  | Spawn (stack stacksize prio function arg : Z)
  | Exit
  | IrqEnter
  | IrqExit.

Section System.
Variables (thread_stack_init : Z → Z → Z → Z → Z) (flags0 : Z) (idle : Z).

Definition void {A} (m : M A) : M unit := _ ← m; mret tt.

(** An interrupt enters the kernel's interrupt context; its end runs the
    scheduler if a handler requested a switch. *)
Definition irq_enter : M unit :=
  _ ← modify (set_irq_enabled false);
  modify (set_in_isr true).

Definition irq_exit : M unit :=
  _ ← modify (set_in_isr false);
  cpu_switch_context_exit.

Definition exec (c : call) : M unit :=
  match c with
  | Yield => thread_yield
  | Sleep => thread_sleep
  | Wakeup pid => void (thread_wakeup pid)
  | Lock mutex => mutex_lock mutex
  | Trylock mutex => void (mutex_trylock mutex)
  | Unlock mutex => mutex_unlock mutex
  | UnlockAndSleep mutex => mutex_unlock_and_sleep mutex
  | Spawn stack stacksize prio function arg =>
      void (thread_create thread_stack_init flags0 stack stacksize prio 0 function arg)
  | Exit => sched_task_exit
  | IrqEnter => irq_enter
  | IrqExit => irq_exit
  end.

(** Who may call what: handlers only what does not block; the idle thread never
    blocks and never ends; a new thread's control block is unused memory. *)
Definition allowed (c : call) st : Prop :=
  match c with
  | Wakeup _ | Trylock _ | Unlock _ => True
  | Yield => in_isr st = false
  | Sleep | Lock _ | UnlockAndSleep _ | Exit =>
      in_isr st = false ∧ sched_active_thread st ≠ Some idle
  | Spawn stack stacksize prio _ _ =>
      let cb := (stack_layout stack stacksize).1 + (stack_layout stack stacksize).2 in
      0 <= prio ∧ (∀ p, sched_threads st !! p ≠ Some cb) ∧ heap st !! MSG_WAITERS cb = None
  | IrqEnter => in_isr st = false
  | IrqExit => in_isr st = true
  end.

(** ** The invariant of the system *)

Definition sys_inv Q st : Prop := settled Q st ∧ idle ∈ Q (RUNQUEUE THREAD_PRIORITY_IDLE).

(** None of these calls concerns the readers of mailboxes. *)
Definition readers_kept Q Q' : Prop := ∀ b, Q' (MBOX_READERS b) = Q (MBOX_READERS b).

Definition safe_step (c : call) Q st : Prop :=
  ∃ Q' st', exec c st = Ok (tt, st') ∧ sys_inv Q' st' ∧ readers_kept Q Q'.

Ltac readers :=
  intros ?; unfold rq_push, rq_pop; repeat (rewrite fn_lookup_insert_ne by done); done.

Lemma idle_push Q p u :
  idle ∈ Q (RUNQUEUE THREAD_PRIORITY_IDLE) → idle ∈ rq_push Q p u (RUNQUEUE THREAD_PRIORITY_IDLE).
Proof using idle.
  intros Hin. unfold rq_push. destruct (decide (RUNQUEUE p = RUNQUEUE THREAD_PRIORITY_IDLE)) as [->|];
    [rewrite fn_lookup_insert; apply elem_of_app; by left|by rewrite fn_lookup_insert_ne].
Qed.

Lemma idle_pop Q p t :
  head (Q (RUNQUEUE p)) = Some t → t ≠ idle → idle ∈ Q (RUNQUEUE THREAD_PRIORITY_IDLE) →
  idle ∈ rq_pop Q p (RUNQUEUE THREAD_PRIORITY_IDLE).
Proof using idle.
  intros Hhd Hne Hin. unfold rq_pop.
  destruct (decide (RUNQUEUE p = RUNQUEUE THREAD_PRIORITY_IDLE)) as [E|];
    [|by rewrite fn_lookup_insert_ne]. rewrite E, fn_lookup_insert. rewrite E in Hhd.
  destruct (Q (RUNQUEUE THREAD_PRIORITY_IDLE)); [done|]. simplify_eq/=. by apply elem_of_cons in Hin as [->|].
Qed.

Lemma idle_wait Q q l :
  wait_queue q = true → idle ∈ Q (RUNQUEUE THREAD_PRIORITY_IDLE) →
  idle ∈ <[q := l]> Q (RUNQUEUE THREAD_PRIORITY_IDLE).
Proof using idle. intros Hq. by rewrite wait_insert_rq. Qed.

Lemma idle_other Q st t T :
  running Q st t T → idle ∈ Q (RUNQUEUE THREAD_PRIORITY_IDLE) → t ≠ idle → other_ready st t.
Proof using idle.
  intros Hr Hin Hne. destruct (k_member _ _ (run_kinv _ _ _ _ Hr) _ _ Hin) as (I & HI & _ & HIs).
  exists idle, I. split; [congruence|]. by split.
Qed.

(** ** Every call succeeds and keeps the invariant *)

Lemma step_intro Q Q' st st' c :
  exec c st = Ok (tt, st') → settled Q' st' → idle ∈ Q' (RUNQUEUE THREAD_PRIORITY_IDLE) → readers_kept Q Q' → safe_step c Q st.
Proof. intros. by exists Q', st'. Qed.

(** The caller goes on running. *)
Lemma step_running Q st st' t T c :
  exec c st = Ok (tt, st') → running Q st' t T → idle ∈ Q (RUNQUEUE THREAD_PRIORITY_IDLE) → safe_step c Q st.
Proof. intros E Hr Hid. eapply step_intro; [exact E|by exists t, T|done|readers]. Qed.

Lemma exec_yield Q st t T :
  running Q st t T → idle ∈ Q (RUNQUEUE THREAD_PRIORITY_IDLE) → in_isr st = false → safe_step Yield Q st.
Proof.
  intros Hr Hid Hi. pose proof (run_head _ _ _ _ Hr) as Hhd.
  destruct (Q (RUNQUEUE (priority T))) as [|t' l] eqn:EQ; [done|]. injection Hhd as ->.
  destruct (thread_yield_running _ _ _ _ _ Hr Hi EQ) as (st' & E & Hs & _).
  eapply step_intro; [exact E|exact Hs| |readers].
  destruct (decide (RUNQUEUE (priority T) = RUNQUEUE THREAD_PRIORITY_IDLE)) as [Ep|];
    [|by rewrite fn_lookup_insert_ne].
  rewrite Ep, fn_lookup_insert. rewrite Ep in EQ. rewrite EQ in Hid. set_solver.
Qed.

Lemma exec_wakeup Q st t T p :
  running Q st t T → idle ∈ Q (RUNQUEUE THREAD_PRIORITY_IDLE) → safe_step (Wakeup p) Q st.
Proof.
  intros Hr Hid. pose proof (run_kinv _ _ _ _ Hr) as Hk.
  destruct (thread_get_spec Q st p Hk) as ([u|] & _ & Ho).
  - destruct Ho as (U & HU & <-). destruct (decide (status U = STATUS_SLEEPING)) as [Hs|Hs].
    + destruct (thread_wakeup_sleeping _ _ _ _ _ _ Hr HU Hs) as (st' & E & Hset).
      eapply step_intro; [simpl; unfold void; by kstep E|exact Hset|by apply idle_push|readers].
    + eapply step_running; [|done|done]. simpl. unfold void.
      rewrite (bind_Ok _ _ _ _ _ (thread_wakeup_other Q st (pid U) Hk ltac:(intros v V [HV Hv] Hp;
        rewrite Hp in Hv; destruct HU; congruence))). done.
  - eapply step_running; [|done|done]. simpl. unfold void.
    rewrite (bind_Ok _ _ _ _ _ (thread_wakeup_other Q st p Hk ltac:(intros v V HV Hp; by apply Ho in HV))).
    done.
Qed.

Lemma exec_trylock Q st t T x :
  running Q st t T → idle ∈ Q (RUNQUEUE THREAD_PRIORITY_IDLE) → safe_step (Trylock x) Q st.
Proof.
  intros Hr Hid. pose proof (run_kinv _ _ _ _ Hr) as Hk.
  destruct (mutex_is_total Q st x Hk) as ([|l] & Hm).
  - destruct (mutex_lock_free _ _ _ _ _ 0 Hr Hm) as (st' & E & Hr' & _).
    eapply step_running; [|done|done]. simpl. unfold void, mutex_trylock. by kstep E.
  - eapply step_running; [|done|done]. simpl. unfold void, mutex_trylock. by kstep (mutex_trylock_busy Q st x l Hk Hm).
Qed.

Lemma exec_unlock Q st t T x :
  running Q st t T → idle ∈ Q (RUNQUEUE THREAD_PRIORITY_IDLE) → safe_step (Unlock x) Q st.
Proof.
  intros Hr Hid. destruct (mutex_is_total Q st x (run_kinv _ _ _ _ Hr)) as ([|[|u l]] & Hm).
  - eapply step_running; [by eapply mutex_unlock_free|done|done].
  - destruct (mutex_unlock_last _ _ _ _ _ Hr Hm) as (st' & E & Hr' & _). by eapply step_running.
  - destruct (mutex_unlock_pass _ _ _ _ _ _ _ Hr Hm) as (U & st' & _ & _ & E & Hs & _).
    eapply step_intro; [exact E|exact Hs| |readers]. apply idle_push. by apply idle_wait.
Qed.

Lemma exec_blocking Q st t T c :
  running Q st t T → idle ∈ Q (RUNQUEUE THREAD_PRIORITY_IDLE) → in_isr st = false → t ≠ idle →
  match c with Sleep | Lock _ | UnlockAndSleep _ | Exit => True | _ => False end → safe_step c Q st.
Proof.
  intros Hr Hid Hi Hne Hc. pose proof (idle_other _ _ _ _ Hr Hid Hne) as Ho.
  pose proof (run_head _ _ _ _ Hr) as Hhd. pose proof (run_kinv _ _ _ _ Hr) as Hk.
  pose proof (idle_pop _ _ _ Hhd Hne Hid) as Hpop.
  destruct c as [| | |x| | |x| | | |]; try done.
  - destruct (thread_sleep_running _ _ _ _ Hr Hi Ho) as (st' & T' & E & Hs & _).
    eapply step_intro; [exact E|exact Hs|done|readers].
  - destruct (mutex_is_total Q st x Hk) as ([|l] & Hm).
    + destruct (mutex_lock_free _ _ _ _ _ 1 Hr Hm) as (st' & E & Hr' & _).
      eapply step_running; [|done|done]. simpl. unfold mutex_lock. by kstep E.
    + destruct (mutex_lock_wait _ _ _ _ _ 1 _ Hr Hi Ho Hm) as (st' & E & Hs & _); [done|].
      eapply step_intro; [simpl; unfold mutex_lock; by kstep E|exact Hs|by apply idle_wait|readers].
  - destruct (mutex_is_total Q st x Hk) as (m & Hm).
    destruct (mutex_unlock_and_sleep_running _ _ _ _ _ _ Hr Hi Ho Hm) as (st' & Q1 & E & Hs & _ & _ & HQ).
    assert (idle ∈ Q1 (RUNQUEUE THREAD_PRIORITY_IDLE) ∧ head (Q1 (RUNQUEUE (priority T))) = Some t ∧ readers_kept Q Q1)
      as (Hid1 & Hhd1 & Hrd).
    { destruct m as [|[|u l]]; [by subst..|]. destruct HQ as (U & _ & ->).
      split; [by apply idle_push, idle_wait|]. split; [apply rq_push_head; by rewrite wait_insert_rq|readers]. }
    eapply step_intro; [exact E|exact Hs|by apply (idle_pop _ _ t)|].
    intros y. rewrite <- Hrd. unfold rq_pop. by rewrite fn_lookup_insert_ne.
  - destruct (sched_task_exit_running _ _ _ _ Hr Hi Ho) as (st' & E & Hs & _).
    eapply step_intro; [exact E|exact Hs|done|readers].
Qed.

Lemma exec_spawn Q st t T stack size prio f a :
  running Q st t T → idle ∈ Q (RUNQUEUE THREAD_PRIORITY_IDLE) → allowed (Spawn stack size prio f a) st →
  safe_step (Spawn stack size prio f a) Q st.
Proof.
  intros Hr Hid (Hprio & Hf & Hh).
  destruct (decide (SCHED_PRIO_LEVELS <= prio)) as [Hge|Hlt].
  { eapply step_running; [|done|done]. simpl. unfold void. by kstep thread_create_einval. }
  destruct (decide (first_free_pid (Z.to_nat MAXTHREADS) KERNEL_PID_FIRST (sched_threads st) = KERNEL_PID_UNDEF))
    as [Hp|Hp].
  { eapply step_running; [|done|done]. simpl. unfold void.
    erewrite bind_Ok by (apply thread_create_eoverflow; [lia|done]). done. }
  assert (0 <= prio < SCHED_PRIO_LEVELS) as Hpr by lia.
  destruct (thread_create_switch thread_stack_init flags0 stack size prio 0 f a Q st t T Hr Hpr Hp)
    as (st' & s & E & Hs & _); [|done|done|].
  - unfold tcb_of. destruct (stack_layout stack size) as [x y]. split; [exact Hf|].
    pose proof (k_rep _ _ (run_kinv _ _ _ _ Hr) (MSG_WAITERS (x + y))) as Hl. simpl in Hl, Hh |- *.
    destruct (Q (MSG_WAITERS (x + y))); [done|]. destruct Hl as (_ & [Hl _] & _). congruence.
  - eapply step_intro; [simpl; unfold void; by kstep E|exact Hs|by apply idle_push|readers].
Qed.

Lemma irq_enter_Ok Q st t T : running Q st t T → in_isr st = false →
  ∃ st', irq_enter st = Ok (tt, st') ∧ running Q st' t T ∧ in_isr st' = true ∧ heap st' = heap st ∧ tcbs st' = tcbs st.
Proof.
  intros [Hk Ha HT Hhd Hd] Hi. eexists. split; [reflexivity|]. split; [|done]. split; [kenv Hk|done|done|done|].
  destruct Hd as [?|[? _]]; [by left|congruence].
Qed.

Lemma irq_exit_Ok Q st t T : running Q st t T → in_isr st = true →
  ∃ st', irq_exit st = Ok (tt, st') ∧ settled Q st' ∧ in_isr st' = false ∧ heap st' = heap st ∧
    ∃ st1, yielded (set_in_isr false st) st1 ∧ st' = set_irq_enabled true st1.
Proof.
  intros Hr Hi. pose proof Hr as [Hk Ha HT Hhd Hd]. set (st0 := set_in_isr false st). assert (kinv Q st0) as Hk0 by kenv Hk.
  unfold irq_exit, cpu_switch_context_exit. ksimpl. rewrite Ha. destruct (Z.eqb_spec (sched_context_switch_request st) 1) as [Hreq|Hreq].
  - destruct (sched_run_spec Q st0 Hk0) as (u & U & Hup & E & Hk'); [by exists t, T|].
    destruct (switched_settled _ _ _ _ Hk0 Hup Hk') as (w & W & Hset). cbn [orb]. ksimpl. kstep E.
    exists (set_irq_enabled true (switched st0 u U)). split; [reflexivity|]. split; [exists w, W; renv Hset|].
    split; [unfold switched; by case_decide|]. split; [unfold switched; by case_decide|].
    exists (set_irq_enabled true (switched st0 u U)). split; [|done]. right; right. exists u, U. by destruct Hup.
  - rewrite bool_decide_eq_false_2 by done. cbn [orb]. ksimpl. eexists. split; [reflexivity|]. split.
    { exists t, T. split; [kenv Hk|done|done|done|]. destruct Hd as [?|[_ ?]]; [by left|done]. }
    split; [done|]. split; [done|]. exists st0. split; [by left|done].
Qed.

Lemma exec_irq Q st t T c :
  running Q st t T → idle ∈ Q (RUNQUEUE THREAD_PRIORITY_IDLE) →
  c = IrqEnter ∧ in_isr st = false ∨ c = IrqExit ∧ in_isr st = true → safe_step c Q st.
Proof.
  intros Hr Hid [[-> Hi]|[-> Hi]].
  - destruct (irq_enter_Ok Q st t T Hr Hi) as (st' & E & Hr' & _). by eapply step_running.
  - destruct (irq_exit_Ok Q st t T Hr Hi) as (st' & E & (u & U & Hr') & _). by eapply step_running.
Qed.

Lemma exec_safe Q st c : sys_inv Q st → allowed c st → safe_step c Q st.
Proof.
  intros [(t & T & Hr) Hid] Hal. pose proof (run_active _ _ _ _ Hr) as Ha.
  destruct c as [| |p|x|x|x|x|stack size prio f a| | |]; simpl in Hal.
  - by eapply exec_yield.
  - destruct Hal as [Hi Hne]. eapply exec_blocking; [done|done|done|congruence|done].
  - by eapply exec_wakeup.
  - destruct Hal as [Hi Hne]. eapply exec_blocking; [done|done|done|congruence|done].
  - by eapply exec_trylock.
  - by eapply exec_unlock.
  - destruct Hal as [Hi Hne]. eapply exec_blocking; [done|done|done|congruence|done].
  - by eapply exec_spawn.
  - destruct Hal as [Hi Hne]. eapply exec_blocking; [done|done|done|congruence|done].
  - eapply exec_irq; [done|done|by left].
  - eapply exec_irq; [done|done|by right].
Qed.
End System.
