(* ===== verification/Ipc.v ===== *)
(** * Message passing in the transition system of the kernel

    The calls of core/msg.c and core/mbox.c join those of System: what has to hold
    of control blocks and mailboxes for them to be free of faults, that every call
    of the kernel keeps it, and the theorem on all sequences of calls.

    Threads that wait for flags are left out: a message to such a thread makes it
    ready without a context switch, so that it may have to wait for a thread of
    lower priority. *)

From S2P Require Import Prelude LinkedList Cib Bitarithm Kernel KernelInv Thread Mutex ThreadFlags Msg Mbox System.
Open Scope Z_scope.
Implicit Types (Q : node → list Z) (st : kstate) (T U : thread_t) (ms : gmap mptr msg_t).

(** ** The invariant *)

Definition valid ms (p : mptr) : Prop := is_Some (ms !! p).

(** A status in which [wait_data] is read. *)
Definition ipc_status (s : Z) : Prop := STATUS_RECEIVE_BLOCKED <= s <= STATUS_FLAG_BLOCKED_ALL.

(** A message queue of [2^k] slots at [a]. *)
Definition slots ms (a k : Z) : Prop := ∀ i, 0 <= i < 2 ^ k → valid ms (a, i).

Definition queue_ok ms T : Prop :=
  match msg_array T with
  | None => msg_queue T = CIB_INIT 0
  | Some a => ∃ k n, cib_wf k n (msg_queue T) ∧ slots ms a k
  end.

Record tcb_ok ms T : Prop := {
  tcb_wait : ipc_status (status T) → ∃ p, wait_data T = WMsg p ∧ valid ms p;
  tcb_flags : ¬ flag_blocked T;
  tcb_queue : queue_ok ms T
}.

Definition mbox_ok ms (B : mbox_t) : Prop := ∃ k, 0 <= k <= 30 ∧ mask (mb_cib B) = 2 ^ k - 1 ∧ slots ms (mb_array B) k.

Record ipc_inv Q st : Prop := {
  ipc_tcb : ∀ u U, tcbs st !! u = Some U → tcb_ok (msgs st) U;
  ipc_mbox : ∀ b B, mboxes st !! b = Some B → mbox_ok (msgs st) B;
  ipc_readers : ∀ b u, u ∈ Q (MBOX_READERS b) → ∃ U p, tcbs st !! u = Some U ∧ wait_data U = WMsg p ∧ valid (msgs st) p
}.

(** ** What a step may change without touching the invariant *)

Definition same_ipc T T' : Prop :=
  wait_data T' = wait_data T ∧ msg_queue T' = msg_queue T ∧ msg_array T' = msg_array T ∧
  (status T' = status T ∨ ¬ ipc_status (status T')).

Definition fresh_ipc T : Prop := msg_queue T = CIB_INIT 0 ∧ msg_array T = None ∧ ¬ ipc_status (status T).

(** Control blocks outside of [D] may be replaced by new ones. *)
Record ipc_frame (D : Z → Prop) st st' : Prop := {
  fr_msgs : ∀ p, valid (msgs st) p → valid (msgs st') p;
  fr_mboxes : mboxes st' = mboxes st;
  fr_tcbs : ∀ u U', tcbs st' !! u = Some U' → (∃ U, tcbs st !! u = Some U ∧ same_ipc U U') ∨ (¬ D u ∧ fresh_ipc U');
  fr_dom : ∀ u, is_Some (tcbs st !! u) → is_Some (tcbs st' !! u)
}.

Lemma same_ipc_refl T : same_ipc T T.
Proof. by repeat split; left. Qed.

Lemma same_ipc_trans T1 T2 T3 : same_ipc T1 T2 → same_ipc T2 T3 → same_ipc T1 T3.
Proof. intros (? & ? & ? & Hs1) (? & ? & ? & Hs2). repeat split; try congruence. destruct Hs2 as [->|?]; [done|by right]. Qed.

Global Instance ipc_frame_preorder D : PreOrder (ipc_frame D).
Proof.
  split.
  - intros st. split; [done|done| |done]. intros u U' HU. left. exists U'. split; [done|apply same_ipc_refl].
  - intros st1 st2 st3 [Hm1 Hb1 Ht1 Hd1] [Hm2 Hb2 Ht2 Hd2]. split; [by auto|congruence| |by auto].
    intros u U3 HU3. destruct (Ht2 u U3 HU3) as [(U2 & HU2 & H23)|?]; [|by right].
    destruct (Ht1 u U2 HU2) as [(U1 & HU1 & H12)|[HD (Hq & Ha & Hs)]].
    + left. exists U1. split; [done|]. by eapply same_ipc_trans.
    + right. split; [done|]. destruct H23 as (_ & Eq & Ea & Es). split; [congruence|]. split; [congruence|].
      destruct Es as [->|?]; done.
Qed.

Lemma slots_mono ms ms' a k : (∀ p, valid ms p → valid ms' p) → slots ms a k → slots ms' a k.
Proof. intros Hm Hs i Hi. by apply Hm, Hs. Qed.

Lemma queue_ok_mono ms ms' T T' :
  (∀ p, valid ms p → valid ms' p) → msg_queue T' = msg_queue T → msg_array T' = msg_array T → queue_ok ms T → queue_ok ms' T'.
Proof.
  intros Hm Hq Ha. unfold queue_ok. rewrite Hq, Ha. destruct (msg_array T); [|done].
  intros (k & n & Hwf & Hs). exists k, n. split; [done|]. by eapply slots_mono.
Qed.

Lemma mbox_ok_mono ms ms' B : (∀ p, valid ms p → valid ms' p) → mbox_ok ms B → mbox_ok ms' B.
Proof. intros Hm (k & Hk & Hmask & Hs). exists k. split; [done|]. split; [done|]. by eapply slots_mono. Qed.

Lemma tcb_ok_mono ms ms' T : (∀ p, valid ms p → valid ms' p) → tcb_ok ms T → tcb_ok ms' T.
Proof.
  intros Hm [Hw Hf Hq]. split; [|done|by eapply queue_ok_mono]. intros Hs. destruct (Hw Hs) as (p & Hp & Hv). exists p. by auto.
Qed.

Lemma flag_blocked_ipc T : flag_blocked T → ipc_status (status T).
Proof. intros [-> | ->]; unfold ipc_status; klia. Qed.

Lemma tcb_ok_same ms T T' : same_ipc T T' → tcb_ok ms T → tcb_ok ms T'.
Proof.
  intros (Hw & Hq & Ha & Hs) [HT Hf Hqo]. split.
  - rewrite Hw. intros Hi. apply HT. destruct Hs as [<-|?]; done.
  - intros Hfb. pose proof (flag_blocked_ipc _ Hfb) as Hi. destruct Hs as [Hs|?]; [|done]. apply Hf. unfold flag_blocked in *. by rewrite <- Hs.
  - by apply (queue_ok_mono ms ms T T').
Qed.

Lemma tcb_ok_fresh ms T : fresh_ipc T → tcb_ok ms T.
Proof.
  intros (Hq & Ha & Hs). split; [done|by intros ?%flag_blocked_ipc|]. unfold queue_ok. by rewrite Ha.
Qed.

(** A step that keeps the frame, and adds no reader to a mailbox, keeps the invariant. *)
Lemma ipc_step D Q Q' st st' :
  ipc_inv Q st → ipc_frame D st st' →
  (∀ b u, u ∈ Q' (MBOX_READERS b) → u ∈ Q (MBOX_READERS b)) → (∀ b u, u ∈ Q (MBOX_READERS b) → D u) →
  ipc_inv Q' st'.
Proof.
  intros [Ht Hb Hr] [Fm Fb Ft Fd] HQ HD. split.
  - intros u U' HU'. destruct (Ft u U' HU') as [(U & HU & Hs)|[_ Hf]]; [|by apply tcb_ok_fresh].
    apply (tcb_ok_same _ U); [done|]. eapply tcb_ok_mono; [exact Fm|by eapply Ht].
  - intros b B. rewrite Fb. intros HB. eapply mbox_ok_mono; [exact Fm|by eapply Hb].
  - intros b u Hu%HQ. destruct (Hr b u Hu) as (U & p & HU & Hw & Hv). destruct (Fd u) as [U' HU']; [by exists U|].
    exists U', p. split; [done|]. destruct (Ft u U' HU') as [(U0 & HU0 & Hs)|[HnD _]]; [|by apply HD in Hu].
    assert (U0 = U) as -> by congruence. split; [|by apply Fm]. by rewrite (proj1 Hs).
Qed.

(** ** Computations that keep the frame *)

Definition keeps (D : Z → Prop) {A} (m : M A) : Prop := ∀ st a st', m st = Ok (a, st') → ipc_frame D st st'.

Section Keeps.
Context (D : Z → Prop).

Lemma keeps_ret {A} (a : A) : keeps D (mret a).
Proof. intros st ? st' [= _ <-]. reflexivity. Qed.

Lemma keeps_bind {A B} (m : M A) (f : A → M B) : keeps D m → (∀ a, keeps D (f a)) → keeps D (m ≫= f).
Proof. intros Hm Hf st b st' (a & st1 & E1 & E2)%bind_inv. transitivity st1; [by eapply Hm|by eapply Hf]. Qed.

Lemma keeps_gets {A} (f : kstate → A) : keeps D (gets f).
Proof. intros st ? st' [= _ <-]. reflexivity. Qed.

Lemma keeps_lift {A} (r : result A) : keeps D (lift r).
Proof. intros st a st' E. unfold lift in E. destruct r; simplify_eq. reflexivity. Qed.

Lemma keeps_fault {A} e : keeps D (fault_ (A := A) e).
Proof. by intros st a st'. Qed.

(** Modifications of other parts of the state. *)
Lemma keeps_modify f : (∀ st, tcbs (f st) = tcbs st ∧ msgs (f st) = msgs st ∧ mboxes (f st) = mboxes st) → keeps D (modify f).
Proof.
  intros Hf st a st' [= _ <-]. destruct (Hf st) as (Ht & Hm & Hb). split; rewrite ?Ht, ?Hm, ?Hb; try done.
  intros u U' HU'. left. exists U'. split; [done|apply same_ipc_refl].
Qed.

Lemma keeps_get_thread t : keeps D (get_thread t).
Proof. intros st a st' E. unfold get_thread in E. case_match; simplify_eq. reflexivity. Qed.

Lemma keeps_modify_thread t f : (∀ T, same_ipc T (f T)) → keeps D (modify_thread t f).
Proof.
  intros Hf st a st' E. unfold modify_thread in E. destruct (tcbs st !! t) as [T|] eqn:ET; simplify_eq. split; try done; simpl.
  - intros u U'. destruct (decide (u = t)) as [->|Hne].
    + rewrite lookup_insert_eq. intros [= <-]. left. by exists T.
    + rewrite lookup_insert_ne by done. intros HU'. left. exists U'. split; [done|apply same_ipc_refl].
  - intros u Hu. destruct (decide (u = t)) as [->|]; [by rewrite lookup_insert_eq|by rewrite lookup_insert_ne].
Qed.

Lemma keeps_sched_threads_at p : keeps D (sched_threads_at p).
Proof. intros st a st' E. unfold sched_threads_at in E. case_match; simplify_eq. reflexivity. Qed.

Lemma keeps_write_msg p v : keeps D (write_msg p v).
Proof.
  intros st a st' E. unfold write_msg in E. destruct (msgs st !! p) eqn:Ep; simplify_eq. split; try done.
  - intros q Hq. unfold valid in *. simpl. destruct (decide (q = p)) as [->|]; [by rewrite lookup_insert_eq|by rewrite lookup_insert_ne].
  - intros u U' HU'. left. exists U'. split; [done|apply same_ipc_refl].
Qed.

Lemma keeps_read_msg p : keeps D (read_msg p).
Proof. intros st a st' E. unfold read_msg in E. case_match; simplify_eq. reflexivity. Qed.
End Keeps.

Create HintDb keeps.
#[export] Hint Resolve keeps_ret keeps_gets keeps_lift keeps_fault keeps_get_thread keeps_sched_threads_at keeps_write_msg keeps_read_msg : keeps.

(** Goes through a computation. *)
Ltac keeps_step :=
  lazymatch goal with
  | |- keeps _ (_ ≫= _) => apply keeps_bind; [|intros ?]
  | |- keeps _ (modify _) => apply keeps_modify; by intros ?
  | |- keeps _ (when ?b _) => unfold when; destruct b
  | |- keeps _ (if ?b then _ else _) => destruct b
  | |- keeps _ (match ?x with _ => _ end) => destruct x
  | |- keeps _ _ => first [by auto with keeps|assumption]
  end.
Ltac keeps := intros; repeat keeps_step.

Lemma same_ipc_status s T : ¬ ipc_status s → same_ipc T (set_status s T).
Proof. intros Hs. by repeat split; right. Qed.

Lemma status_not_ipc s : s = STATUS_STOPPED ∨ s = STATUS_SLEEPING ∨ s = STATUS_MUTEX_BLOCKED ∨ s = STATUS_MBOX_BLOCKED ∨
  s = STATUS_RUNNING ∨ s = STATUS_PENDING → ¬ ipc_status (u8 s).
Proof. intros Hs. rewrite u8_small by klia. unfold ipc_status. klia. Qed.

Section Calls.
Context (D : Z → Prop).

Lemma keeps_irq_disable : keeps D irq_disable.
Proof. unfold irq_disable. keeps. Qed.
Lemma keeps_irq_restore b : keeps D (irq_restore b).
Proof. unfold irq_restore. keeps. Qed.
Lemma keeps_irq_is_in : keeps D irq_is_in.
Proof. unfold irq_is_in. keeps. Qed.
Lemma keeps_nonnull {A} (o : option A) : keeps D (nonnull o).
Proof. unfold nonnull. keeps. Qed.
Lemma keeps_container_of n : keeps D (container_of n).
Proof. unfold container_of. keeps. Qed.
Lemma keeps_runqueue_at p : keeps D (runqueue_at p).
Proof. unfold runqueue_at. keeps. Qed.
Lemma keeps_massert b : keeps D (massert b).
Proof. unfold massert. keeps. Qed.
Lemma keeps_copy_msg p q : keeps D (copy_msg p q).
Proof. unfold copy_msg. keeps. Qed.
Hint Resolve keeps_irq_disable keeps_irq_restore keeps_irq_is_in keeps_nonnull keeps_container_of keeps_runqueue_at keeps_massert : keeps.

Lemma keeps_sched_set_status t s : ¬ ipc_status (u8 s) → keeps D (sched_set_status t s).
Proof. intros Hs. unfold sched_set_status. keeps. apply keeps_modify_thread. intros T. by apply same_ipc_status. Qed.

Lemma keeps_sched_run : keeps D sched_run.
Proof.
  unfold sched_run. keeps; apply keeps_modify_thread; intros T; apply same_ipc_status; unfold ipc_status; klia.
Qed.
Hint Resolve keeps_sched_run : keeps.

Lemma keeps_thread_yield_higher : keeps D thread_yield_higher.
Proof. unfold thread_yield_higher. keeps. Qed.
Hint Resolve keeps_thread_yield_higher : keeps.

Lemma keeps_sched_switch p : keeps D (sched_switch p).
Proof. unfold sched_switch. keeps. Qed.

Lemma keeps_cpu_switch_context_exit : keeps D cpu_switch_context_exit.
Proof. unfold cpu_switch_context_exit. keeps. Qed.
Hint Resolve keeps_sched_switch keeps_cpu_switch_context_exit : keeps.
Hint Extern 1 (keeps _ (sched_set_status _ _)) => apply keeps_sched_set_status, status_not_ipc; tauto : keeps.

Lemma keeps_sched_task_exit : keeps D sched_task_exit.
Proof. unfold sched_task_exit. keeps. Qed.

Lemma keeps_thread_get p : keeps D (thread_get p).
Proof. unfold thread_get. keeps. Qed.
Hint Resolve keeps_thread_get : keeps.

Lemma keeps_add_loop fuel : ∀ l p n, keeps D (thread_add_to_list_loop fuel l p n).
Proof. induction fuel; simpl; keeps. Qed.
Hint Resolve keeps_add_loop : keeps.

Lemma keeps_thread_add_to_list q t : keeps D (thread_add_to_list q t).
Proof. unfold thread_add_to_list. keeps. Qed.
Hint Resolve keeps_thread_add_to_list : keeps.

Lemma keeps_set_queue x v : keeps D (set_queue x v).
Proof. unfold set_queue. keeps. Qed.
Hint Resolve keeps_set_queue : keeps.

Lemma keeps_mutex_lock x b : keeps D (_mutex_lock x b).
Proof. unfold _mutex_lock. keeps. Qed.

Lemma keeps_pass_mutex x : keeps D (pass_mutex x).
Proof. unfold pass_mutex. keeps. Qed.
Hint Resolve keeps_mutex_lock keeps_pass_mutex : keeps.

Lemma keeps_thread_create tsi flags0 stack size prio flags f a :
  ¬ D ((stack_layout stack size).1 + (stack_layout stack size).2) → keeps D (thread_create tsi flags0 stack size prio flags f a).
Proof.
  intros HD. unfold thread_create. destruct (_ <=? _); [keeps|]. destruct (stack_layout stack size) as [x y]. simpl in HD.
  keeps. intros st ? st' [= _ <-]. split; try done; simpl.
  - intros u U'. destruct (decide (u = x + y)) as [->|Hne].
    + rewrite lookup_insert_eq. intros [= <-]. right. split; [done|]. split; [done|]. split; [done|]. unfold ipc_status. klia.
    + rewrite lookup_insert_ne by done. intros HU'. left. exists U'. split; [done|apply same_ipc_refl].
  - intros u Hu. destruct (decide (u = x + y)) as [->|]; [by rewrite lookup_insert_eq|by rewrite lookup_insert_ne].
Qed.

(** The calls of System. *)
Lemma keeps_exec tsi flags0 c :
  match c with Spawn stack size _ _ _ => ¬ D ((stack_layout stack size).1 + (stack_layout stack size).2) | _ => True end →
  keeps D (exec tsi flags0 c).
Proof.
  intros Hc. destruct c; cbn [exec]; unfold void, thread_yield, thread_sleep, thread_wakeup, mutex_lock, mutex_trylock, mutex_unlock,
    mutex_unlock_and_sleep, irq_enter, irq_exit; try (keeps; fail).
  - apply keeps_bind; [by apply keeps_thread_create|keeps].
  - apply keeps_sched_task_exit.
Qed.
End Calls.

(** ** The steps calls are made of *)

Section Steps.
Context (idle : Z).

(** The invariant between two calls, and while the active thread is about to
    give up the processor. *)
Definition inv Q st : Prop := sys_inv idle Q st ∧ ipc_inv Q st.

Record stable Q st : Prop := {
  st_kinv : kinv Q st;
  st_idle : idle ∈ Q (RUNQUEUE THREAD_PRIORITY_IDLE);
  st_ipc : ipc_inv Q st
}.

Record live Q st t T : Prop := {
  li_running : running Q st t T;
  li_idle : idle ∈ Q (RUNQUEUE THREAD_PRIORITY_IDLE);
  li_ipc : ipc_inv Q st
}.

Lemma live_stable Q st t T : live Q st t T → stable Q st.
Proof. intros [Hr Hid Hi]. split; [apply Hr|done|done]. Qed.

Lemma live_inv Q st t T : live Q st t T → inv Q st.
Proof. intros [Hr Hid Hi]. split; [|done]. split; [by exists t, T|done]. Qed.

Lemma inv_live Q st : inv Q st → ∃ t T, live Q st t T.
Proof. intros [[(t & T & Hr) Hid] Hi]. by exists t, T. Qed.

Lemma ipc_mono Q Q' st st' :
  ipc_inv Q st → ipc_frame (λ _, True) st st' → (∀ b u, u ∈ Q' (MBOX_READERS b) → u ∈ Q (MBOX_READERS b)) → ipc_inv Q' st'.
Proof. intros Hi Hf HQ. by eapply ipc_step. Qed.

(** Other members of the state. *)
Lemma ipc_env Q st st' : ipc_inv Q st → tcbs st' = tcbs st → msgs st' = msgs st → mboxes st' = mboxes st → ipc_inv Q st'.
Proof. intros [Ht Hb Hr] E1 E2 E3. split; rewrite ?E1, ?E2, ?E3; done. Qed.

Lemma stable_env Q st st' :
  stable Q st → heap st' = heap st → tcbs st' = tcbs st → sched_threads st' = sched_threads st →
  sched_num_threads st' = sched_num_threads st → sched_active_thread st' = sched_active_thread st →
  sched_active_pid st' = sched_active_pid st → runqueue_bitcache st' = runqueue_bitcache st →
  msgs st' = msgs st → mboxes st' = mboxes st → stable Q st'.
Proof. intros [Hk Hid Hi] ? ? ? ? ? ? ? ? ?. split; [by eapply kinv_env|done|by eapply ipc_env]. Qed.

Lemma live_env Q st st' t T :
  live Q st t T → heap st' = heap st → tcbs st' = tcbs st → sched_threads st' = sched_threads st →
  sched_num_threads st' = sched_num_threads st → sched_active_thread st' = sched_active_thread st →
  sched_active_pid st' = sched_active_pid st → runqueue_bitcache st' = runqueue_bitcache st →
  in_isr st' = in_isr st → sched_context_switch_request st' = sched_context_switch_request st →
  msgs st' = msgs st → mboxes st' = mboxes st → live Q st' t T.
Proof. intros [Hr Hid Hi] ? ? ? ? ? ? ? ? ? ? ?. split; [by eapply running_env|done|by eapply ipc_env]. Qed.

Ltac senv H := (eapply (stable_env _ _ _ H); reflexivity).
Ltac lenv H := (eapply (live_env _ _ _ _ _ H); reflexivity).

(** Message buffers. *)
Lemma ipc_msgs Q st ms : ipc_inv Q st → (∀ p, valid (msgs st) p → valid ms p) → ipc_inv Q (set_msgs ms st).
Proof.
  intros Hi Hm. eapply (ipc_mono Q); [exact Hi| |done]. split; try done. intros u U' HU'. left. exists U'. split; [done|apply same_ipc_refl].
Qed.

Lemma valid_insert ms p q v : valid ms q → valid (<[p := v]> ms) q.
Proof. unfold valid. intros Hq. destruct (decide (p = q)) as [->|]; [by rewrite lookup_insert_eq|by rewrite lookup_insert_ne]. Qed.

Lemma stable_msgs Q st p v : stable Q st → stable Q (set_msgs (<[p := v]> (msgs st)) st).
Proof. intros [Hk Hid Hi]. split; [kenv Hk|done|]. apply ipc_msgs; [done|]. intros q. apply valid_insert. Qed.

Lemma live_msgs Q st t T p v : live Q st t T → live Q (set_msgs (<[p := v]> (msgs st)) st) t T.
Proof. intros [Hr Hid Hi]. split; [renv Hr|done|]. apply ipc_msgs; [done|]. intros q. apply valid_insert. Qed.

(** One control block. *)
Lemma ipc_update Q st st' t T' :
  ipc_inv Q st → tcbs st' = <[t := T']> (tcbs st) → msgs st' = msgs st → mboxes st' = mboxes st → tcb_ok (msgs st) T' →
  (∃ T, tcbs st !! t = Some T ∧ wait_data T' = wait_data T) ∨ (∀ b, t ∉ Q (MBOX_READERS b)) → ipc_inv Q st'.
Proof.
  intros [Ht Hb Hr] Et Em Eb HT' Hw. split; rewrite ?Et, ?Em, ?Eb; [|done|].
  - intros u U. destruct (decide (u = t)) as [->|]; [rewrite lookup_insert_eq; by intros [= <-]|rewrite lookup_insert_ne by done; apply Ht].
  - intros b u Hu. destruct (Hr b u Hu) as (U & p & HU & Hwd & Hv). destruct (decide (u = t)) as [->|].
    + exists T', p. rewrite lookup_insert_eq. split; [done|]. destruct Hw as [(T & HT & Ew)|Hn]; [|by apply Hn in Hu].
      simplify_eq. by rewrite Ew.
    + exists U, p. by rewrite lookup_insert_ne.
Qed.

Lemma not_reader Q st t T : kinv Q st → thr st t T → status T ≠ STATUS_MBOX_BLOCKED → ∀ b, t ∉ Q (MBOX_READERS b).
Proof. intros Hk HT Hs b Hin. destruct (k_member _ _ Hk _ _ Hin) as (T' & HT' & Hst). simpl in Hst. by rewrite (thr_fun _ _ _ _ HT HT') in Hs. Qed.

Lemma stable_tcb Q st t T T' :
  stable Q st → thr st t T → pid T' = pid T → priority T' = priority T → status T' = status T → tcb_ok (msgs st) T' →
  wait_data T' = wait_data T ∨ status T ≠ STATUS_MBOX_BLOCKED → stable Q (set_tcbs (<[t := T']> (tcbs st)) st).
Proof.
  intros [Hk Hid Hi] HT ? ? ? Hok Hw. split; [by eapply kinv_tcb|done|]. eapply ipc_update; [exact Hi|done|done|done|done|].
  destruct Hw as [Hw|Hw]; [left; exists T; split; [apply HT|done]|right; by eapply not_reader].
Qed.

Lemma live_tcb Q st t T u U U' :
  live Q st t T → thr st u U → pid U' = pid U → priority U' = priority U → status U' = status U → tcb_ok (msgs st) U' →
  wait_data U' = wait_data U ∨ status U ≠ STATUS_MBOX_BLOCKED →
  live Q (set_tcbs (<[u := U']> (tcbs st)) st) t (if decide (t = u) then U' else T).
Proof.
  intros [Hr Hid Hi] HU ? ? ? Hok Hw. split; [by eapply running_tcb|done|].
  eapply st_ipc, stable_tcb; [split; [apply Hr|done|done]|done..].
Qed.

(** Waking, blocking and yielding. *)
Lemma rq_push_readers Q p u : readers_kept Q (rq_push Q p u).
Proof. intros b. unfold rq_push. by rewrite fn_lookup_insert_ne. Qed.
Lemma rq_pop_readers Q p : readers_kept Q (rq_pop Q p).
Proof. intros b. unfold rq_pop. by rewrite fn_lookup_insert_ne. Qed.

Lemma stable_wake Q st u U :
  stable Q st → thr st u U → status U < STATUS_ON_RUNQUEUE → (∀ q, u ∉ Q q) →
  ∃ h b, let st' := upd3 st h b (<[u := set_status STATUS_PENDING U]> (tcbs st)) in
    sched_set_status u STATUS_PENDING st = Ok (tt, st') ∧ stable (rq_push Q (priority U) u) st'.
Proof.
  intros [Hk Hid Hi] HU Hs Hn. destruct (sched_set_status_wake Q st u U STATUS_PENDING Hk HU Hs Hn) as (h & b & E & Hk' & _); [klia|].
  exists h, b. split; [done|]. split; [done|by apply idle_push|].
  eapply ipc_mono; [exact Hi|eapply keeps_sched_set_status; [|exact E]; apply status_not_ipc; tauto|].
  intros c w. by rewrite rq_push_readers.
Qed.

Lemma stable_block Q st t T s :
  stable Q st → ready st t T → head (Q (RUNQUEUE (priority T))) = Some t → t ≠ idle → 0 <= s < STATUS_ON_RUNQUEUE →
  tcb_ok (msgs st) (set_status s T) →
  ∃ h b, let st' := upd3 st h b (<[t := set_status s T]> (tcbs st)) in
    sched_set_status t s st = Ok (tt, st') ∧ stable (rq_pop Q (priority T)) st' ∧ ∀ q, t ∉ rq_pop Q (priority T) q.
Proof.
  intros [Hk Hid Hi] [HT HTs] Hhd Hne Hs Hok. destruct (sched_set_status_block Q st t T s Hk HT HTs Hhd Hs) as (h & b & E & Hk' & _).
  exists h, b. split; [done|]. split; [|by eapply rq_pop_notin]. split; [done|by eapply idle_pop|].
  assert (ipc_inv Q (upd3 st h b (<[t := set_status s T]> (tcbs st)))) as Hi'.
  { eapply ipc_update; [exact Hi|done|done|done|done|]. left. exists T. split; [apply HT|done]. }
  eapply (ipc_mono Q); [exact Hi'|reflexivity|]. intros c w. by rewrite rq_pop_readers.
Qed.

Lemma stable_ready Q st : stable Q st → ∃ t T, ready st t T.
Proof. intros [Hk Hid _]. by eapply queued_ready. Qed.

Lemma stable_yield Q st e : stable Q st → in_isr st = false →
  ∃ st', thread_yield_higher (set_irq_enabled e st) = Ok (tt, st') ∧ inv Q st'.
Proof.
  intros Hs Hi. assert (stable Q (set_irq_enabled e st)) as Hs' by (senv Hs). destruct Hs' as [Hk Hid Hipc].
  destruct (yield_thread _ _ Hk Hi) as (st' & E & Hset & _); [by eapply stable_ready|].
  exists st'. split; [done|]. split; [done|]. eapply (ipc_mono Q); [exact Hipc|by eapply keeps_thread_yield_higher|done].
Qed.

Lemma wait_readers Q q l : (∀ b, q ≠ MBOX_READERS b) → readers_kept Q (<[q := l]> Q).
Proof. intros Hq b. rewrite fn_lookup_insert_ne; [done|]. intros E. by apply (Hq b). Qed.

(** A blocked thread joins a waiting list. *)
Lemma stable_enqueue Q st q t T :
  stable Q st → wait_queue q = true → (∀ h l, queue_rep h q l = is_list h q (RQ_ENTRY <$> l)) → thr st t T → (∀ q', t ∉ Q q') →
  status T < STATUS_ON_RUNQUEUE → queue_status q T →
  (∀ b, q = MBOX_READERS b → ∃ p, wait_data T = WMsg p ∧ valid (msgs st) p) →
  ∃ h l, thread_add_to_list q t st = Ok (tt, set_heap h st) ∧ stable (<[q := l]> Q) (set_heap h st).
Proof.
  intros [Hk Hid Hi] Hq Hrep HT Hn Hs Hqs Hw.
  destruct (thread_add_to_list_spec Q st q t T Hk Hq) as (h & E & Hk'); [rewrite <- Hrep; apply (k_rep _ _ Hk)|done..|].
  eexists h, _. split; [done|]. split; [exact Hk'|by rewrite wait_insert_rq|].
  destruct Hi as [Ht Hb Hr]. split; [done|done|]. intros b u.
  destruct (decide (q = MBOX_READERS b)) as [->|Hne]; [|rewrite fn_lookup_insert_ne by done; apply Hr].
  rewrite fn_lookup_insert. intros [->|Hu]%elem_of_insert_by; [|by eapply Hr].
  destruct (Hw b eq_refl) as (p & Hp & Hv). exists T, p. split; [apply HT|done].
Qed.

(** The first thread leaves a waiting list. *)
Lemma live_dequeue Q st t T q u l :
  live Q st t T → wait_queue q = true → Q q = u :: l →
  ∃ h U, list_remove_head (heap st) q = (Some (RQ_ENTRY u), h) ∧ live (<[q := l]> Q) (set_heap h st) t T ∧
    (∀ q', u ∉ <[q := l]> Q q') ∧ thr st u U ∧ queue_status q U.
Proof.
  intros [[Hk Ha HT Hhd Hd] Hid Hi] Hq EQ. destruct (dequeue Q st q u l Hk Hq EQ) as (E & _ & Hk' & Hn & U & HU & Hqs).
  eexists _, U. split; [exact E|]. split; [|done]. split; [|by rewrite wait_insert_rq|].
  - split; [done..|by rewrite wait_insert_rq|done].
  - eapply (ipc_mono Q); [exact Hi| |].
    + split; try done. intros w W HW. left. exists W. split; [done|apply same_ipc_refl].
    + intros b w. destruct (decide (q = MBOX_READERS b)) as [->|]; [rewrite fn_lookup_insert, EQ; set_solver|by rewrite fn_lookup_insert_ne].
Qed.

Lemma empty_list Q st q : kinv Q st → (∀ h l, queue_rep h q l = is_list h q (RQ_ENTRY <$> l)) → Q q = [] →
  list_remove_head (heap st) q = (None, heap st) ∧ heap st !! q = None.
Proof.
  intros Hk Hrep EQ. pose proof (k_rep _ _ Hk q) as Hl. rewrite EQ, Hrep in Hl. split; [by apply list_remove_head_nil|].
  by destruct Hl as (_ & _ & ?).
Qed.

End Steps.

(** ** Indices of message queues *)

Lemma mask_index k x : 0 <= k <= 30 → 0 <= s32 (Z.land x (2 ^ k - 1)) < 2 ^ k.
Proof.
  intros Hk. pose proof (pow_le_2_30 k Hk). rewrite land_mask by lia. pose proof (Z.mod_pos_bound x (2 ^ k) ltac:(lia)).
  rewrite s32_small by lia. lia.
Qed.

Lemma cib_put_wf k n c : cib_wf k n c → cib_put c = (-1, c) ∨ ∃ i c', cib_put c = (i, c') ∧ 0 <= i < 2 ^ k ∧ cib_wf k (S n) c'.
Proof.
  intros Hwf. pose proof Hwf as (Hk & Hm & Hr & Hw & Hn). pose proof (pow_le_2_30 k Hk).
  unfold cib_put. rewrite (cib_wf_avail k n), (cib_wf_mask k n) by done. rewrite s32_small by lia.
  destruct (Z.leb_spec (Z.of_nat n) (2 ^ k - 1)); [right|by left]. eexists _, _. split; [reflexivity|].
  split; [rewrite Hm; by apply mask_index|]. repeat split; simpl; try lia.
  rewrite Hw. unfold u32. rewrite Zplus_mod_idemp_l. f_equal. lia.
Qed.

Lemma cib_get_wf k n c : cib_wf k n c → cib_get c = (-1, c) ∨
  ∃ i c' n', cib_get c = (i, c') ∧ 0 <= i < 2 ^ k ∧ n = S n' ∧ cib_wf k n' c'.
Proof.
  intros (Hk & Hm & Hr & Hw & Hn). pose proof (pow_le_2_30 k Hk).
  unfold cib_get. destruct (Z.ltb_spec (read_count c) (write_count c)) as [Hlt|]; [right|by left].
  destruct n as [|n']. { rewrite Hw, Z.add_0_r, u32_small in Hlt; lia. }
  eexists _, _, n'. split; [reflexivity|]. split; [rewrite Hm; by apply mask_index|]. split; [done|].
  repeat split; simpl; try lia; [apply Z.mod_pos_bound; lia|apply Z.mod_pos_bound; lia|].
  rewrite Hw. unfold u32. rewrite Zplus_mod_idemp_l. f_equal. lia.
Qed.

(** ** Messages *)

Section Messages.
Context (idle : Z).
Notation inv := (inv idle).
Notation live := (live idle).
Notation stable := (stable idle).

Ltac senv H := (eapply (stable_env _ _ _ _ H); reflexivity).
Ltac lenv H := (eapply (live_env _ _ _ _ _ _ H); reflexivity).

(** What the caller and the scheduler see of a control block is unchanged. *)
Definition same_sched T T' : Prop := pid T' = pid T ∧ priority T' = priority T ∧ status T' = status T ∧ wait_data T' = wait_data T.

Lemma tcb_ok_queue ms T T' a k n :
  tcb_ok ms T → status T' = status T → wait_data T' = wait_data T → msg_array T' = Some a → cib_wf k n (msg_queue T') → slots ms a k → tcb_ok ms T'.
Proof.
  intros [Hw Hf Hq] Es Ew Ha Hwf Hs. split; [by rewrite Es, Ew|unfold flag_blocked in *; by rewrite Es|].
  unfold queue_ok. rewrite Ha. by exists k, n.
Qed.

Lemma queue_msg_safe Q st u U m :
  ipc_inv Q st → tcbs st !! u = Some U → valid (msgs st) m →
  ∃ r U' ms, let st' := set_msgs ms (set_tcbs (<[u := U']> (tcbs st)) st) in
    queue_msg u m st = Ok (r, st') ∧ ipc_inv Q st' ∧ same_sched U U' ∧
    (∀ p, valid (msgs st) p → valid ms p) ∧ (r = 0 ∧ st' = st ∨ r = 1).
Proof.
  intros Hi HU [v Hv]. pose proof (ipc_tcb _ _ Hi _ _ HU) as Hok. pose proof (tcb_queue _ _ Hok) as Hq.
  assert (cib_put (msg_queue U) = (-1, msg_queue U) → ∃ r U' ms, let st' := set_msgs ms (set_tcbs (<[u := U']> (tcbs st)) st) in
    queue_msg u m st = Ok (r, st') ∧ ipc_inv Q st' ∧ same_sched U U' ∧
    (∀ p, valid (msgs st) p → valid ms p) ∧ (r = 0 ∧ st' = st ∨ r = 1)) as Hfull.
  { intros Eq. exists 0, U, (msgs st). rewrite (set_tcbs_id _ _ _ HU). assert (set_msgs (msgs st) st = st) as -> by (by destruct st).
    split; [|split; [done|split; [done|split; [done|by left]]]]. unfold queue_msg. kget HU. rewrite Eq.
    kstep (modify_thread_Ok _ _ _ _ HU). rewrite set_msg_queue_id, set_tcbs_id by done. done. }
  unfold queue_ok in Hq. destruct (msg_array U) as [a|] eqn:Ea; [|by apply Hfull; rewrite Hq].
  destruct Hq as (k & n & Hwf & Hs). destruct (cib_put_wf k n _ Hwf) as [Eq|(i & q & Eq & Hi' & Hwf')]; [by apply Hfull|clear Hfull].
  set (U1 := set_msg_queue q U). set (U' := set_flags (Z.lor (flags U1) THREAD_FLAG_MSG_WAITING) U1).
  set (ms := <[(a, i) := v]> (msgs st)). assert (∀ p, valid (msgs st) p → valid ms p) as Hms by (intros p; apply valid_insert).
  assert (tcb_ok (msgs st) U') as Hok' by (by apply (tcb_ok_queue _ U U' a k (S n))).
  destruct (not_flag_blocked U' (tcb_flags _ _ Hok')) as [Hmk Hwk].
  exists 1, U', ms. split; [|split; [|split; [done|split; [done|by right]]]].
  - unfold queue_msg. kget HU. rewrite Eq. kstep (modify_thread_Ok _ _ _ _ HU). fold U1. rewrite Ea.
    assert (i <? 0 = false) as -> by lia. ksimpl.
    kstep (copy_msg_Ok (set_tcbs (<[u := U1]> (tcbs st)) st) (a, i) m v Hv (Hs i Hi')).
    erewrite bind_Ok by (apply modify_thread_Ok, lookup_insert_eq). cbv beta. fold U'.
    erewrite bind_Ok by (eapply (thread_flags_wake_not_due _ _ U'); [apply lookup_insert_eq|done|done]).
    simpl. by rewrite insert_insert_eq.
  - apply ipc_msgs; [|done]. eapply ipc_update; [exact Hi|done|done|done|done|]. left. by exists U.
Qed.

Lemma queue_msg_live Q st t T u U m :
  live Q st t T → thr st u U → valid (msgs st) m →
  ∃ r st', queue_msg u m st = Ok (r, st') ∧ (∃ T', live Q st' t T' ∧ same_sched T T') ∧
    (∀ p, valid (msgs st) p → valid (msgs st') p) ∧ (r = 0 ∧ st' = st ∨ r = 1) ∧ in_isr st' = in_isr st.
Proof.
  intros [Hr Hid Hi] HU Hm. destruct (queue_msg_safe Q st u U m Hi (proj1 HU) Hm) as (r & U' & ms & E & Hi' & (Ep & Epr & Es & Ew) & Hms & Hr01).
  eexists r, _. split; [exact E|]. split; [|done].
  pose proof (running_tcb Q st t T u U U' Hr HU Ep Epr Es) as Hr'. exists (if decide (t = u) then U' else T). split.
  - split; [renv Hr'|done|done].
  - destruct (decide (t = u)) as [->|]; [|done]. by rewrite (thr_fun _ _ _ _ (proj1 (run_ready _ _ _ _ Hr)) HU).
Qed.

Lemma queue_msg_stable Q st u U m :
  stable Q st → thr st u U → valid (msgs st) m →
  ∃ r U' ms, let st' := set_msgs ms (set_tcbs (<[u := U']> (tcbs st)) st) in
    queue_msg u m st = Ok (r, st') ∧ stable Q st' ∧ same_sched U U' ∧ (∀ p, valid (msgs st) p → valid ms p) ∧ (r = 0 ∧ st' = st ∨ r = 1).
Proof.
  intros [Hk Hid Hi] HU Hm. destruct (queue_msg_safe Q st u U m Hi (proj1 HU) Hm) as (r & U' & ms & E & Hi' & Hsame & Hms & Hr01).
  exists r, U', ms. split; [done|]. split; [|done]. destruct Hsame as (Ep & Epr & Es & Ew).
  pose proof (kinv_tcb Q st u U U' Hk HU Ep Epr Es) as Hk'. split; [kenv Hk'|done|done].
Qed.

(** The call returns, and the invariant holds. *)
Definition safe {A} (c : M A) Q st : Prop := ∃ a Q' st', c st = Ok (a, st') ∧ inv Q' st'.

Lemma safe_intro {A} (c : M A) Q Q' st a st' : c st = Ok (a, st') → inv Q' st' → safe c Q st.
Proof. intros E Hi. by exists a, Q', st'. Qed.

Lemma table_thr Q st p u : kinv Q st → sched_threads st !! p = Some u → ∃ U, thr st u U ∧ pid U = p.
Proof. intros Hk Hp. destruct (k_threads _ _ Hk p u Hp) as (_ & U & HU & <- & _). by exists U. Qed.

Lemma blocked_wait Q st u U : ipc_inv Q st → thr st u U → ipc_status (status U) → ∃ p, wait_data U = WMsg p ∧ valid (msgs st) p.
Proof. intros Hi [HU _]. by apply (tcb_wait _ _ (ipc_tcb _ _ Hi _ _ HU)). Qed.

(** A message for a thread that waits for one. *)
Lemma hand_over Q st u U m e :
  stable Q st → in_isr st = false → thr st u U → status U = STATUS_RECEIVE_BLOCKED → valid (msgs st) m →
  safe (target_message ← wait_msg (wait_data U);
        _ ← copy_msg target_message m;
        _ ← sched_set_status u STATUS_PENDING;
        _ ← irq_restore e;
        _ ← thread_yield_higher;
        mret 1) Q st.
Proof.
  intros Hs Hisr HU Es [v Hv]. destruct (blocked_wait _ _ _ _ (st_ipc _ _ _ Hs) HU) as (p & Hw & Hp); [rewrite Es; unfold ipc_status; klia|].
  pose proof (stable_msgs idle Q st p v Hs) as Hs1. set (st1 := set_msgs _ st) in Hs1.
  destruct (stable_wake idle Q st1 u U Hs1 HU) as (h & b & E & Hs2); [klia| |].
  { eapply unlisted; [apply Hs|exact HU|unfold unlisted_status; tauto]. }
  destruct (stable_yield idle _ _ e Hs2 Hisr) as (st' & E' & Hinv). eapply safe_intro; [|exact Hinv].
  rewrite Hw. ksimpl. kstep (copy_msg_Ok st p m v Hv Hp). fold st1. kstep E. ksimpl. by kstep E'.
Qed.

(** A blocked sender joins the list of the receiver. *)
Lemma join_waiters Q st t T u U e :
  stable Q st → in_isr st = false → thr st t T → status T = STATUS_SEND_BLOCKED ∨ status T = STATUS_REPLY_BLOCKED →
  (∀ q, t ∉ Q q) → thr st u U →
  safe (_ ← thread_add_to_list (MSG_WAITERS u) t;
        _ ← modify_thread u (λ T, set_flags (Z.lor (flags T) THREAD_FLAG_MSG_WAITING) T);
        _ ← thread_flags_wake u;
        _ ← irq_restore e;
        _ ← thread_yield_higher;
        mret 1) Q st.
Proof.
  intros Hs Hisr HT Est Hn HU. destruct (stable_enqueue idle Q st (MSG_WAITERS u) t T Hs) as (h & l & E & Hs1);
    [done|done|done|done|klia|done|done|]. set (st1 := set_heap h st) in *.
  set (U' := set_flags (Z.lor (flags U) THREAD_FLAG_MSG_WAITING) U).
  assert (tcb_ok (msgs st) U') as Hok by (apply (tcb_ok_same _ U); [by repeat split; left|apply (ipc_tcb _ _ (st_ipc _ _ _ Hs) u), HU]).
  pose proof (stable_tcb idle _ st1 u U U' Hs1 HU eq_refl eq_refl eq_refl Hok (or_introl eq_refl)) as Hs2.
  destruct (not_flag_blocked U' (tcb_flags _ _ Hok)) as [Hmk Hwk].
  destruct (stable_yield idle _ _ e Hs2 Hisr) as (st' & E' & Hinv). eapply safe_intro; [|exact Hinv].
  kstep E. kstep (modify_thread_Ok st1 u U _ (proj1 HU)). fold U'.
  kstep (thread_flags_wake_not_due (set_tcbs (<[u := U']> (tcbs st1)) st1) u U' (lookup_insert_eq _ _ _) Hmk Hwk). ksimpl. by kstep E'.
Qed.

Lemma tcb_ok_blocked ms T p s :
  tcb_ok ms T → valid ms p → s = STATUS_RECEIVE_BLOCKED ∨ s = STATUS_SEND_BLOCKED ∨ s = STATUS_REPLY_BLOCKED →
  tcb_ok ms (set_status s (set_wait_data (WMsg p) T)).
Proof.
  intros [_ _ Hq] Hp Hs. split; [intros _; by exists p| |done]. unfold flag_blocked. simpl. destruct Hs as [->|[->| ->]]; klia.
Qed.

Lemma tcb_ok_wait ms T w : tcb_ok ms T → ¬ ipc_status (status T) → tcb_ok ms (set_wait_data w T).
Proof. intros [_ Hf Hq] Hs. by split. Qed.

Lemma on_runqueue_not_ipc s : STATUS_ON_RUNQUEUE <= s → ¬ ipc_status s.
Proof. unfold ipc_status. klia. Qed.

(** The last part of [_msg_send]: the target is known. *)
Definition send_to (me target : Z) (m : mptr) (block state : bool) : M Z :=
  T ← get_thread target;
  if negb (status T =? STATUS_RECEIVE_BLOCKED) then
    q ← queue_msg target m;
    if negb (q =? 0) then
      _ ← irq_restore state;
      Tme ← get_thread me;
      _ ← when (status Tme =? STATUS_REPLY_BLOCKED) thread_yield_higher;
      mret 1
    else if negb block then
      _ ← irq_restore state;
      mret 0
    else
      _ ← modify_thread me (set_wait_data (WMsg m));
      Tme ← get_thread me;
      let newstatus := if status Tme =? STATUS_REPLY_BLOCKED then STATUS_REPLY_BLOCKED else STATUS_SEND_BLOCKED in
      _ ← sched_set_status me newstatus;
      _ ← thread_add_to_list (MSG_WAITERS target) me;
      _ ← modify_thread target (λ T, set_flags (Z.lor (flags T) THREAD_FLAG_MSG_WAITING) T);
      _ ← thread_flags_wake target;
      _ ← irq_restore state;
      _ ← thread_yield_higher;
      mret 1
  else
    target_message ← wait_msg (wait_data T);
    _ ← copy_msg target_message m;
    _ ← sched_set_status target STATUS_PENDING;
    _ ← irq_restore state;
    _ ← thread_yield_higher;
    mret 1.

Lemma msg_send_start st m v p block e : msgs st !! m = Some v → 0 <= p <= KERNEL_PID_LAST →
  let st1 := set_msgs (<[m := set_sender_pid (sched_active_pid st) v]> (msgs st)) st in
  match sched_threads st !! p, sched_active_thread st with
  | Some u, Some t => _msg_send m p block e st = send_to t u m block e st1
  | None, _ => _msg_send m p block e st = Ok (-1, set_irq_enabled e st1)
  | _, None => True
  end.
Proof.
  intros Hv Hp st1. assert (_msg_send m p block e st = (match sched_threads st !! p with
    | None => _ ← irq_restore e; mret (-1)
    | Some target => a ← gets sched_active_thread; me ← nonnull a; send_to me target m block e end) st1) as E.
  { unfold _msg_send. kstep sched_threads_at_Ok. ksimpl. kstep (read_msg_Ok st m v Hv).
    erewrite bind_Ok by (apply write_msg_Ok; by exists v). cbv beta iota. done. }
  rewrite E. destruct (sched_threads st !! p) as [u|]; [|done]. destruct (sched_active_thread st) as [t|] eqn:Ea; [|done].
  ksimpl. change (sched_active_thread st1) with (sched_active_thread st). rewrite Ea. by ksimpl.
Qed.

(** A queue with room, or a message that is dropped or handed over. *)
Lemma send_to_live Q st t T u U m block e :
  live Q st t T → in_isr st = false → (block = true → t ≠ idle) → valid (msgs st) m → thr st u U → t ≠ u →
  safe (send_to t u m block e) Q st.
Proof.
  intros Hl Hisr Hidle Hm HU Htu. pose proof Hl as [Hr Hid Hi]. pose proof (run_ready _ _ _ _ Hr) as [HT HTs].
  destruct (decide (status U = STATUS_RECEIVE_BLOCKED)) as [Es|Es].
  { destruct (hand_over Q st u U m e (live_stable _ _ _ _ _ Hl) Hisr HU Es Hm) as (a & Q' & st' & E & Hinv).
    eapply safe_intro; [|exact Hinv]. unfold send_to. kget HU. rewrite Es, Z.eqb_refl. exact E. }
  destruct (queue_msg_live Q st t T u U m Hl HU Hm) as (r & st1 & Eq & (T1 & Hl1 & Hsame) & Hms & Hr01 & _).
  pose proof (run_ready _ _ _ _ (li_running _ _ _ _ _ Hl1)) as [HT1 HTs1].
  destruct Hr01 as [[-> ->]| ->].
  2:{ eapply safe_intro; [|apply (live_inv idle Q (set_irq_enabled e st1) t T1); lenv Hl1].
      unfold send_to. kget HU. rewrite (proj2 (Z.eqb_neq _ _) Es). cbn [negb]. kstep Eq. change (negb (1 =? 0)) with true. cbv iota. ksimpl.
      assert (tcbs (set_irq_enabled e st1) !! t = Some T1) as HTl by apply HT1. kget HTl.
      assert (status T1 =? STATUS_REPLY_BLOCKED = false) as -> by klia. reflexivity. }
  destruct block; [specialize (Hidle eq_refl)|].
  2:{ eapply safe_intro; [|apply (live_inv idle Q (set_irq_enabled e st) t T); lenv Hl].
      unfold send_to. kget HU. rewrite (proj2 (Z.eqb_neq _ _) Es). cbn [negb]. by kstep Eq. }
  pose proof (ipc_tcb _ _ Hi _ _ (proj1 HT)) as Hok. set (T2 := set_wait_data (WMsg m) T).
  assert (tcb_ok (msgs st) T2) as Hok2 by (apply tcb_ok_wait; [done|by apply on_runqueue_not_ipc]).
  pose proof (live_tcb idle Q st t T t T T2 Hl HT eq_refl eq_refl eq_refl Hok2 ltac:(right; klia)) as Hl2.
  rewrite decide_True in Hl2 by done. set (st2 := set_tcbs _ st) in Hl2. pose proof Hl2 as [Hr2 _ _].
  destruct (stable_block idle Q st2 t T2 STATUS_SEND_BLOCKED (live_stable _ _ _ _ _ Hl2)) as (h & b & E3 & Hs3 & Hn3);
    [apply Hr2|apply Hr2|done|klia|apply tcb_ok_blocked; [done|done|tauto]|].
  set (st3 := upd3 st2 h b _) in *. set (T3 := set_status STATUS_SEND_BLOCKED T2) in *.
  destruct (join_waiters _ st3 t T3 u U e Hs3 Hisr) as (a & Q' & st' & E4 & Hinv).
  { split; [apply lookup_insert_eq|apply HT]. } { by left. } { done. }
  { split; [|apply HU]. simpl. rewrite !lookup_insert_ne by done. apply HU. }
  eapply safe_intro; [|exact Hinv]. unfold send_to. kget HU. rewrite (proj2 (Z.eqb_neq _ _) Es). cbn [negb]. kstep Eq.
  change (negb (0 =? 0)) with false. cbv iota. kstep (modify_thread_Ok st t T _ (proj1 HT)). fold T2 st2. kget lookup_insert_eq.
  assert (status T2 =? STATUS_REPLY_BLOCKED = false) as -> by (change (status T2) with (status T); klia). kstep E3. exact E4.
Qed.

(** The same when the caller has announced that it waits for a reply. *)
Lemma send_to_requester Q st t T u U m e :
  stable Q st → in_isr st = false → thr st t T → status T = STATUS_REPLY_BLOCKED → (∀ q, t ∉ Q q) →
  valid (msgs st) m → thr st u U → t ≠ u → safe (send_to t u m true e) Q st.
Proof.
  intros Hs Hisr HT Est Hn Hm HU Htu. destruct (decide (status U = STATUS_RECEIVE_BLOCKED)) as [Es|Es].
  { destruct (hand_over Q st u U m e Hs Hisr HU Es Hm) as (a & Q' & st' & E & Hinv).
    eapply safe_intro; [|exact Hinv]. unfold send_to. kget HU. rewrite Es, Z.eqb_refl. exact E. }
  destruct (queue_msg_stable Q st u U m Hs HU Hm) as (r & U' & ms & Eq & Hs1 & Hsame & Hms & [[-> E1]| ->]).
  2:{ set (st1 := set_msgs _ _) in *. destruct (stable_yield idle Q st1 e Hs1 Hisr) as (st' & E & Hinv).
      eapply safe_intro; [|exact Hinv]. unfold send_to. kget HU. rewrite (proj2 (Z.eqb_neq _ _) Es). cbn [negb]. kstep Eq.
      change (negb (1 =? 0)) with true. cbv iota. ksimpl.
      assert (tcbs (set_irq_enabled e st1) !! t = Some T) as HTl by (simpl; rewrite lookup_insert_ne by done; apply HT). kget HTl.
      rewrite Est, Z.eqb_refl, bind_when_true. by kstep E. }
  rewrite E1 in Eq. clear E1. pose proof (ipc_tcb _ _ (st_ipc _ _ _ Hs) _ _ (proj1 HT)) as Hok. set (T2 := set_wait_data (WMsg m) T).
  assert (tcb_ok (msgs st) T2) as Hok2.
  { pose proof (tcb_ok_blocked (msgs st) T m STATUS_REPLY_BLOCKED Hok Hm ltac:(tauto)) as Hok2. unfold T2. destruct T; simpl in *. by subst. }
  pose proof (stable_tcb idle Q st t T T2 Hs HT eq_refl eq_refl eq_refl Hok2 ltac:(right; klia)) as Hs2. set (st2 := set_tcbs _ st) in Hs2.
  assert (thr st2 t T2) as HT2 by (split; [apply lookup_insert_eq|apply HT]).
  destruct (sched_set_status_reblock Q st2 t T2 STATUS_REPLY_BLOCKED (st_kinv _ _ _ Hs2) HT2) as [E3 Hk3];
    [change (status T2) with (status T); klia|klia|intros q Hq; by apply Hn in Hq|].
  set (st3 := upd3 st2 _ _ _) in *. assert (set_status STATUS_REPLY_BLOCKED T2 = T2) as ET by (unfold T2; destruct T; simpl in *; by subst).
  assert (stable Q st3) as Hs3.
  { split; [done|apply Hs2|]. eapply ipc_env; [apply Hs2| |done|done]. simpl. rewrite ET. by rewrite insert_insert_eq. }
  destruct (join_waiters Q st3 t T2 u U e Hs3 Hisr) as (a & Q' & st' & E4 & Hinv).
  { split; [simpl; rewrite ET; apply lookup_insert_eq|apply HT]. } { by right. } { done. }
  { split; [|apply HU]. simpl. rewrite !lookup_insert_ne by done. apply HU. }
  eapply safe_intro; [|exact Hinv]. unfold send_to. kget HU. rewrite (proj2 (Z.eqb_neq _ _) Es). cbn [negb]. kstep Eq.
  change (negb (0 =? 0)) with false. cbv iota. kstep (modify_thread_Ok st t T _ (proj1 HT)). fold T2 st2. kget lookup_insert_eq.
  change (status T2) with (status T). rewrite Est, Z.eqb_refl. kstep E3. exact E4.
Qed.

(** *** Sending *)

(** Waking a thread in an interrupt handler. *)
Lemma wake_isr Q st t T u U :
  live Q st t T → in_isr st = true → thr st u U → status U < STATUS_ON_RUNQUEUE → (∀ q, u ∉ Q q) →
  ∃ st', sched_set_status u STATUS_PENDING st = Ok (tt, st') ∧
    live (rq_push Q (priority U) u) (set_sched_context_switch_request 1 st') t T.
Proof.
  intros Hl Hisr HU Hs Hn. destruct (stable_wake idle Q st u U (live_stable _ _ _ _ _ Hl) HU Hs Hn) as (h & b & E & [Hk Hid Hi]).
  eexists. split; [exact E|]. pose proof Hl as [[_ Ha [HT HTs] Hhd _] _ _].
  assert (t ≠ u) as Hne by (intros ->; rewrite (thr_fun _ _ _ _ HU HT) in Hs; lia).
  split; [|done|by eapply ipc_env]. split; [kenv Hk|done| |by apply rq_push_head|by right].
  split; [|done]. split; [simpl; rewrite lookup_insert_ne by done; apply HT|apply HT].
Qed.

Lemma send_int_safe Q st t T m p :
  live Q st t T → in_isr st = true → valid (msgs st) m → 0 <= p <= KERNEL_PID_LAST → safe (msg_send_int m p) Q st.
Proof.
  intros Hl Hisr [v Hv] Hp. pose proof Hl as [Hr _ Hi]. destruct (sched_threads st !! p) as [u|] eqn:Eu.
  2:{ eapply safe_intro; [|exact (live_inv _ _ _ _ _ Hl)]. unfold msg_send_int. kstep sched_threads_at_Ok. by rewrite Eu. }
  destruct (table_thr _ _ _ _ (run_kinv _ _ _ _ Hr) Eu) as (U & HU & Epid). set (v' := set_sender_pid KERNEL_PID_ISR v).
  pose proof (live_msgs idle Q st t T m v' Hl) as Hl1. set (st1 := set_msgs _ st) in Hl1. change (thr st1 u U) in HU.
  assert (msgs st1 !! m = Some v') as Hm1 by apply lookup_insert_eq.
  assert (∀ k, (T ← get_thread u; if status T =? STATUS_RECEIVE_BLOCKED then
      target_message ← wait_msg (wait_data T); _ ← copy_msg target_message m; _ ← sched_set_status u STATUS_PENDING;
      _ ← modify (set_sched_context_switch_request 1); mret 1 else queue_msg u m) st1 = k → msg_send_int m p st = k) as Estart.
  { intros k <-. unfold msg_send_int. kstep sched_threads_at_Ok. rewrite Eu. ksimpl. kstep (read_msg_Ok st m v Hv).
    erewrite bind_Ok by (apply write_msg_Ok; by exists v). done. }
  destruct (decide (status U = STATUS_RECEIVE_BLOCKED)) as [Es|Es].
  - destruct (blocked_wait _ _ _ _ (li_ipc _ _ _ _ _ Hl1) HU) as (q & Hw & Hq); [rewrite Es; unfold ipc_status; klia|].
    pose proof (live_msgs idle Q st1 t T q v' Hl1) as Hl2. set (st2 := set_msgs _ st1) in Hl2.
    destruct (wake_isr Q st2 t T u U Hl2 Hisr HU) as (st3 & E & Hl3); [klia|eapply unlisted; [apply Hr|exact HU|unfold unlisted_status; tauto]|].
    eapply safe_intro; [|exact (live_inv _ _ _ _ _ Hl3)]. apply Estart. kget HU. rewrite Es, Z.eqb_refl, Hw. ksimpl.
    kstep (copy_msg_Ok st1 q m v' Hm1 Hq). fold st2. kstep E. by ksimpl.
  - destruct (queue_msg_live Q st1 t T u U m Hl1 HU) as (r & st2 & E & (T2 & Hl2 & _) & _); [by exists v'|].
    eapply safe_intro; [|exact (live_inv _ _ _ _ _ Hl2)]. apply Estart. kget HU. by rewrite (proj2 (Z.eqb_neq _ _) Es).
Qed.

Lemma send_to_self_safe Q st t T m : live Q st t T → valid (msgs st) m → safe (msg_send_to_self m) Q st.
Proof.
  intros Hl [v Hv]. pose proof Hl as [Hr _ _]. pose proof (run_active _ _ _ _ Hr) as Ha. pose proof (proj1 (run_ready _ _ _ _ Hr)) as HT.
  set (v' := set_sender_pid (sched_active_pid st) v). assert (live Q (set_irq_enabled false st) t T) as Hl0 by (lenv Hl).
  pose proof (live_msgs idle Q _ t T m v' Hl0) as Hl1. set (st1 := set_msgs _ (set_irq_enabled false st)) in Hl1.
  destruct (queue_msg_live Q st1 t T t T m Hl1 HT) as (r & st2 & E & (T2 & Hl2 & _) & _); [eexists; apply lookup_insert_eq|].
  eapply safe_intro; [|apply (live_inv idle Q (set_irq_enabled (irq_enabled st) st2) t T2); lenv Hl2].
  unfold msg_send_to_self. ksimpl. kstep (read_msg_Ok (set_irq_enabled false st) m v Hv).
  erewrite bind_Ok by (apply write_msg_Ok; by exists v). cbv beta iota. ksimpl. rewrite Ha. ksimpl. by kstep E.
Qed.

Lemma msg_send_safe Q st t T m p block :
  live Q st t T → (in_isr st = false → block = true → t ≠ idle) → valid (msgs st) m → 0 <= p <= KERNEL_PID_LAST →
  safe (msg_send_with m p block) Q st.
Proof.
  intros Hl Hidle Hm Hp. unfold safe, msg_send_with. ksimpl. destruct (in_isr st) eqn:Hisr; [by eapply send_int_safe|]. specialize (Hidle eq_refl).
  ksimpl. destruct (Z.eqb_spec (sched_active_pid st) p) as [|Hne]; [by eapply send_to_self_safe|]. ksimpl.
  pose proof Hl as [Hr _ _]. destruct (running_pid _ _ _ _ Hr) as [Hap _]. destruct Hm as [v Hv].
  assert (live Q (set_irq_enabled false st) t T) as Hl0 by (lenv Hl).
  pose proof (msg_send_start (set_irq_enabled false st) m v p block (irq_enabled st) Hv Hp) as E. cbv zeta in E. simpl in E.
  pose proof (run_active _ _ _ _ Hr) as Ha. rewrite Ha in E. set (v' := set_sender_pid _ v) in E.
  pose proof (live_msgs idle Q _ t T m v' Hl0) as Hl1. simpl in Hl1. set (st1 := set_msgs _ (set_irq_enabled false st)) in *.
  destruct (sched_threads st !! p) as [u|] eqn:Eu.
  - destruct (table_thr _ _ _ _ (run_kinv _ _ _ _ Hr) Eu) as (U & HU & Epid).
    destruct (send_to_live Q st1 t T u U m block (irq_enabled st) Hl1 Hisr Hidle) as (a & Q' & st' & E' & Hinv);
      [eexists; apply lookup_insert_eq|exact HU| |].
    { intros ->. apply Hne. rewrite Hap, <- Epid. by rewrite (thr_fun _ _ _ _ (proj1 (run_ready _ _ _ _ Hr)) HU). }
    exists a, Q', st'. by rewrite E.
  - eexists _, Q, _. split; [exact E|]. apply (live_inv idle Q _ t T). lenv Hl1.
Qed.

(** *** Requests *)

Lemma msg_send_receive_safe Q st t T m reply p :
  live Q st t T → in_isr st = false → t ≠ idle → valid (msgs st) m → valid (msgs st) reply →
  is_Some (sched_threads st !! p) → p ≠ sched_active_pid st → safe (msg_send_receive m reply p) Q st.
Proof.
  intros Hl Hisr Hne [v Hv] Hrp [u Eu] Hpid. pose proof Hl as [Hr _ Hi]. destruct (running_pid _ _ _ _ Hr) as [Hap _].
  pose proof (run_active _ _ _ _ Hr) as Ha. pose proof (run_ready _ _ _ _ Hr) as [HT HTs].
  pose proof (ipc_tcb _ _ Hi _ _ (proj1 HT)) as Hok. rewrite Hap in Hpid.
  set (T1 := set_wait_data (WMsg reply) T). assert (tcb_ok (msgs st) T1) as Hok1 by (apply tcb_ok_wait; [done|by apply on_runqueue_not_ipc]).
  pose proof (live_tcb idle Q st t T t T T1 Hl HT eq_refl eq_refl eq_refl Hok1 ltac:(right; klia)) as Hl1. rewrite decide_True in Hl1 by done.
  destruct (send_receive_start Q st t T m reply v p Hr ltac:(congruence) Hv Hrp) as (h & b & E & Hk2). cbv zeta in E, Hk2.
  set (T2 := set_wait_data (WMsg reply) (set_status STATUS_REPLY_BLOCKED T)) in *. set (st2 := set_msgs _ _) in *.
  assert (stable (rq_pop Q (priority T)) st2) as Hs2.
  { split; [done|eapply idle_pop; [exact (run_head _ _ _ _ Hr)|done|exact (li_idle _ _ _ _ _ Hl)]|].
    apply (ipc_msgs _ (upd3 (set_irq_enabled false st) h b (<[t := T2]> (tcbs st)))); [|intros q; apply valid_insert].
    eapply (ipc_mono Q); [|reflexivity|intros c w; by rewrite rq_pop_readers].
    eapply (ipc_update Q st _ t T2); [exact Hi|done|done|done| |right; eapply not_reader; [apply Hr|exact HT|klia]].
    pose proof (tcb_ok_blocked (msgs st) T reply STATUS_REPLY_BLOCKED Hok Hrp ltac:(tauto)) as H2. exact H2. }
  destruct (table_thr _ _ _ _ (run_kinv _ _ _ _ Hr) Eu) as (U & HU & Epid).
  assert (t ≠ u) as Htu by (intros ->; apply Hpid; rewrite <- Epid; by rewrite (thr_fun _ _ _ _ HT HU)).
  assert (0 <= p <= KERNEL_PID_LAST) as Hp by (rewrite <- Epid; pose proof (thr_pid _ _ _ _ (run_kinv _ _ _ _ Hr) HU); klia).
  pose proof (msg_send_start st2 reply v p true (irq_enabled st) (lookup_insert_eq _ _ _) Hp) as E2. cbv zeta in E2.
  change (sched_threads st2) with (sched_threads st) in E2. change (sched_active_thread st2) with (sched_active_thread st) in E2. rewrite Eu, Ha in E2.
  pose proof (stable_msgs idle _ st2 reply (set_sender_pid (sched_active_pid st2) v) Hs2) as Hs3. set (st3 := set_msgs _ st2) in *.
  destruct (send_to_requester _ st3 t T2 u U reply (irq_enabled st) Hs3 Hisr) as (a & Q' & st' & E3 & Hinv).
  { split; [apply lookup_insert_eq|apply HT]. } { done. } { eapply rq_pop_notin; [apply Hr|exact HT|apply Hr]. }
  { eexists; apply lookup_insert_eq. } { split; [simpl; rewrite lookup_insert_ne by done; apply HU|apply HU]. } { done. }
  eapply safe_intro; [|exact Hinv]. by rewrite E, E2.
Qed.

(** *** Replies *)

Lemma keeps_wait_msg D w : keeps D (wait_msg w).
Proof. unfold wait_msg. keeps. Qed.
Hint Resolve keeps_irq_disable keeps_irq_restore keeps_irq_is_in keeps_nonnull keeps_massert keeps_copy_msg keeps_wait_msg keeps_sched_switch : keeps.
Hint Extern 1 (keeps _ (sched_set_status _ _)) => apply keeps_sched_set_status, status_not_ipc; tauto : keeps.

Lemma keeps_msg_reply D m reply : keeps D (msg_reply m reply).
Proof. unfold msg_reply. keeps. Qed.

(** The request of [u], if it waits for a reply, has been received. *)
Definition received Q st u : Prop := ∀ U, thr st u U → status U = STATUS_REPLY_BLOCKED → ∀ q, u ∉ Q q.

Lemma msg_reply_safe Q st t T m reply v u :
  live Q st t T → msgs st !! m = Some v → valid (msgs st) reply → sched_threads st !! sender_pid v = Some u → received Q st u →
  safe (msg_reply m reply) Q st.
Proof.
  intros [Hr Hid Hi] Hv [r Hrp] Eu Hrec. destruct (table_thr _ _ _ _ (run_kinv _ _ _ _ Hr) Eu) as (U & HU & Epid).
  destruct (decide (status U = STATUS_REPLY_BLOCKED)) as [Es|Es].
  - destruct (blocked_wait _ _ _ _ Hi HU) as (p & Hw & Hp); [rewrite Es; unfold ipc_status; klia|].
    destruct (reply_waiting Q st t T m reply v r u U p Hr Hv Hrp HU (eq_sym Epid) Es (Hrec U HU Es) Hw Hp) as (st' & E & Hset & _).
    eapply safe_intro; [exact E|]. split; [split; [exact Hset|by apply idle_push]|].
    eapply (ipc_mono Q); [exact Hi|by eapply keeps_msg_reply|intros c w; by rewrite rq_push_readers].
  - eapply safe_intro; [by eapply (reply_not_waiting Q st m reply v u U); [apply Hr|..]|]. split; [split; [by exists t, T|done]|done].
Qed.

Lemma msg_reply_int_safe Q st t T m reply v u :
  live Q st t T → in_isr st = true → msgs st !! m = Some v → valid (msgs st) reply → sched_threads st !! sender_pid v = Some u →
  received Q st u → safe (msg_reply_int m reply) Q st.
Proof.
  intros Hl Hisr Hv [r Hrp] Eu Hrec. pose proof Hl as [Hr Hid Hi].
  destruct (table_thr _ _ _ _ (run_kinv _ _ _ _ Hr) Eu) as (U & HU & Epid).
  assert (∀ k, (T ← get_thread u; if negb (status T =? STATUS_REPLY_BLOCKED) then mret (-1) else
      target_message ← wait_msg (wait_data T); _ ← copy_msg target_message reply; _ ← sched_set_status u STATUS_PENDING;
      _ ← modify (set_sched_context_switch_request 1); mret 1) st = k → msg_reply_int m reply st = k) as Estart.
  { intros k <-. unfold msg_reply_int. kstep (read_msg_Ok st m v Hv). rewrite <- Epid.
    kstep (sched_threads_at_thr Q st _ u U (run_kinv _ _ _ _ Hr) HU). by ksimpl. }
  destruct (decide (status U = STATUS_REPLY_BLOCKED)) as [Es|Es].
  - destruct (blocked_wait _ _ _ _ Hi HU) as (p & Hw & Hp); [rewrite Es; unfold ipc_status; klia|].
    pose proof (live_msgs idle Q st t T p r Hl) as Hl1. set (st1 := set_msgs _ st) in Hl1.
    destruct (wake_isr Q st1 t T u U Hl1 Hisr HU) as (st2 & E & Hl2); [klia|by apply (Hrec U)|].
    eapply safe_intro; [|exact (live_inv _ _ _ _ _ Hl2)]. apply Estart. kget HU. rewrite Es, Z.eqb_refl. cbn [negb]. rewrite Hw. ksimpl.
    kstep (copy_msg_Ok st p reply r Hrp Hp). fold st1. kstep E. by ksimpl.
  - eapply safe_intro; [|exact (live_inv _ _ _ _ _ Hl)]. apply Estart. kget HU. by rewrite (proj2 (Z.eqb_neq _ _) Es).
Qed.

(** *** Receiving *)

Lemma sched_set_status_inv t s st a st' : sched_set_status t s st = Ok (a, st') →
  ∃ T, tcbs st !! t = Some T ∧ tcbs st' = <[t := set_status (u8 s) T]> (tcbs st) ∧ msgs st' = msgs st ∧ mboxes st' = mboxes st.
Proof.
  unfold sched_set_status. intros (T & st1 & E1 & (? & st2 & E2 & E3)%bind_inv)%bind_inv.
  unfold get_thread in E1. destruct (tcbs st !! t) as [T'|] eqn:HT; simplify_eq. exists T. split; [done|].
  assert (tcbs st2 = tcbs st1 ∧ msgs st2 = msgs st1 ∧ mboxes st2 = mboxes st1) as (Et & Em & Eb).
  { assert (∀ p, runqueue_at p st1 = Ok (RUNQUEUE p, st1) ∨ ∃ e, runqueue_at p st1 = Fault e) as Hrq.
    { intros p. unfold runqueue_at. destruct (_ && _)%bool; [left; reflexivity|right; eexists; reflexivity]. }
    destruct (STATUS_ON_RUNQUEUE <=? s); [destruct (negb _)|destruct (STATUS_ON_RUNQUEUE <=? status T)];
      try (by injection E2 as _ <-); destruct (Hrq (priority T)) as [Er|[e Er]]; unfold mbind, M_bind in E2; rewrite Er in E2; try done.
    - by injection E2 as _ <-.
    - unfold gets, lift in E2. destruct (clist_lpop _ _) as [[o h]|]; [|done]. unfold modify in E2. cbn [snd] in E2. destruct (h !! _); by injection E2 as _ <-. }
  unfold modify_thread in E3. rewrite Et, HT in E3. injection E3 as _ <-. done.
Qed.

Lemma copy_msg_tcbs p q st a st' : copy_msg p q st = Ok (a, st') → tcbs st' = tcbs st.
Proof.
  unfold copy_msg. intros (v & st1 & E1 & E2)%bind_inv. unfold read_msg in E1. unfold write_msg in E2.
  destruct (msgs st !! q); [|done]. injection E1 as _ <-. destruct (msgs st !! p); [|done]. by injection E2 as _ <-.
Qed.

Lemma ipc_take_from Q st st' s S dst e a :
  ipc_inv Q st → tcbs st !! s = Some S → (∀ b, s ∉ Q (MBOX_READERS b)) → take_from s dst e st = Ok (a, st') → ipc_inv Q st'.
Proof.
  intros Hi HS Hn. unfold take_from. intros (S0 & st1 & E1 & E)%bind_inv. unfold get_thread in E1. rewrite HS in E1. simplify_eq.
  apply bind_inv in E as (p & st2 & E2 & (? & st3 & E3 & E)%bind_inv).
  assert (ipc_frame (λ _ : Z, True) st1 st3) as Hf by (transitivity st2; [by eapply keeps_wait_msg|by eapply keeps_copy_msg]).
  assert (tcbs st3 = tcbs st1) as Et.
  { unfold wait_msg in E2. destruct (wait_data S0); [done|injection E2 as _ <-|done]. by eapply copy_msg_tcbs. }
  assert (ipc_inv Q st3) as Hi3 by (by eapply ipc_mono). clear Hi Hf E2 E3.
  apply bind_inv in E as (pr & st4 & E4 & E5). assert (ipc_inv Q st4) as Hi4.
  { destruct (negb _); [|injection E4 as _ <-; done].
    apply bind_inv in E4 as (? & st5 & E6 & (? & st6 & E7 & E8)%bind_inv). unfold modify_thread in E6. rewrite Et, HS in E6. simplify_eq.
    destruct (sched_set_status_inv _ _ _ _ _ E7) as (S1 & HS1 & Et6 & Em6 & Eb6). simpl in HS1. rewrite lookup_insert_eq in HS1. simplify_eq.
    assert (ipc_inv Q st6) as Hi6.
    { eapply (ipc_update Q st3 st6 s (set_status STATUS_PENDING (set_wait_data WNull S0))); [done| |done|done| |by right].
      - rewrite Et6. simpl. rewrite insert_insert_eq, Et. done.
      - destruct (ipc_tcb _ _ Hi3 s S0) as [_ _ Hq]; [by rewrite Et|]. split; [|unfold flag_blocked; simpl; klia|done]. unfold ipc_status. simpl. klia. }
    apply bind_inv in E8 as (S2 & st7 & E9 & [= _ <-]). unfold get_thread in E9. case_match; by simplify_eq. }
  eapply ipc_mono; [exact Hi4| |done].
  match type of E5 with ?c _ = _ => assert (keeps (λ _, True) c) as Hk by keeps end. exact (Hk _ _ _ E5).
Qed.


(** The first part: a message from the queue, if there is one. *)
Lemma fetch_live Q st t T :
  live Q st t T → ∃ i st' T', fetch_index t T st = Ok (i, st') ∧ live Q st' t T' ∧ same_sched T T' ∧ msg_array T' = msg_array T ∧
    heap st' = heap st ∧ msgs st' = msgs st ∧ in_isr st' = in_isr st ∧
    (i = -1 ∨ ∃ a k n, msg_array T = Some a ∧ 0 <= i < 2 ^ k ∧ slots (msgs st) a k ∧ cib_wf k n (msg_queue T') ∧ Z.of_nat n < 2 ^ k).
Proof.
  intros Hl. pose proof Hl as [Hr _ Hi]. pose proof (proj1 (run_ready _ _ _ _ Hr)) as HT. pose proof (ipc_tcb _ _ Hi _ _ (proj1 HT)) as Hok.
  pose proof (tcb_queue _ _ Hok) as Hq. unfold queue_ok in Hq. unfold fetch_index.
  destruct (msg_array T) as [a|] eqn:Ea; [|exists (-1), st, T; do 7 (split; [done|]); by left].
  destruct Hq as (k & n & Hwf & Hs). destruct (cib_get_wf k n _ Hwf) as [E|(i & q & n' & E & Hi' & -> & Hwf')]; rewrite E.
  - exists (-1), st, T. split; [|do 6 (split; [done|]); by left]. kstep (modify_thread_Ok _ _ _ _ (proj1 HT)).
    by rewrite set_msg_queue_id, set_tcbs_id by apply HT.
  - set (T' := set_msg_queue q T). assert (tcb_ok (msgs st) T') as Hok' by (by apply (tcb_ok_queue _ T T' a k n')).
    pose proof (live_tcb idle Q st t T t T T' Hl HT eq_refl eq_refl eq_refl Hok' (or_introl eq_refl)) as Hl'. rewrite decide_True in Hl' by done.
    eexists i, _, T'. split; [by kstep (modify_thread_Ok _ _ _ _ (proj1 HT))|]. split; [exact Hl'|]. split; [done|]. split; [done|].
    split; [done|]. split; [done|]. split; [done|]. right. exists a, k, n'. split; [done|]. split; [done|]. split; [done|]. split; [done|].
    destruct Hwf as (_ & _ & _ & _ & Hn). lia.
Qed.

(** The rest of [_msg_receive] when a sender waits. *)
Lemma receive_from Q st t T s w dst e :
  live Q st t T → Q (MSG_WAITERS t) = s :: w →
  ∃ h, list_remove_head (heap st) (MSG_WAITERS t) = (Some (RQ_ENTRY s), h) ∧
    ∀ st1 T1, live (<[MSG_WAITERS t := w]> Q) st1 t T1 → tcbs st1 !! s = tcbs st !! s → sched_threads st1 = sched_threads st →
      valid (msgs st1) dst → safe (take_from s dst e) Q st1.
Proof.
  intros Hl EQ. destruct (live_dequeue idle Q st t T (MSG_WAITERS t) s w Hl eq_refl EQ) as (h & S & E & _ & Hn & HS & Hqs).
  exists h. split; [done|]. intros st1 T1 Hl1 Es Et Hd. assert (thr st1 s S) as HS1 by (unfold thr; rewrite Es, Et; exact HS). simpl in Hqs.
  pose proof Hl1 as [Hr1 Hid1 Hi1].
  destruct (blocked_wait _ _ _ _ Hi1 HS1) as (p & Hw & [y Hp]); [destruct Hqs as [-> | ->]; unfold ipc_status; klia|].
  destruct (take_from_spec _ st1 t T1 s S dst p y e Hr1 HS1 Hn Hqs Hw Hp Hd) as (st' & E' & Hset & _).
  eapply safe_intro; [exact E'|]. split; [split; [exact Hset|]|].
  - unfold served. case_match; [done|]. by apply idle_push.
  - assert (ipc_inv (<[MSG_WAITERS t := w]> Q) st') as Hi'.
    { eapply ipc_take_from; [exact Hi1|apply HS1|intros b; apply Hn|exact E']. }
    eapply (ipc_mono _ _ st' st' Hi'); [reflexivity|]. intros b u. unfold served. case_match; [done|by rewrite rq_push_readers].
Qed.


(** The rest of [_msg_receive], with the index that was fetched. *)
Definition receive_rest (me : Z) (array : option Z) (queue_index : Z) (m : mptr) (block : Z) (state : bool) : M Z :=
  h ← gets heap;
  if ((block =? 0) && (bool_decide (h !! MSG_WAITERS me = None) && (queue_index =? -1)))%bool then
    _ ← irq_restore state;
    mret (-1)
  else
    _ ← (if 0 <=? queue_index then a ← nonnull array; copy_msg m (a, queue_index)
         else modify_thread me (set_wait_data (WMsg m)));
    h ← gets heap;
    let r := list_remove_head h (MSG_WAITERS me) in
    _ ← modify (set_heap r.2);
    match r.1 with
    | None =>
        _ ← (if queue_index <? 0 then
               _ ← sched_set_status me STATUS_RECEIVE_BLOCKED;
               _ ← irq_restore state;
               thread_yield_higher
             else irq_restore state);
        mret 1
    | Some next =>
        sender ← container_of next;
        dst ← (if 0 <=? queue_index then
                 a ← nonnull array;
                 Tme ← get_thread me;
                 let '(i, q) := cib_put (msg_queue Tme) in
                 _ ← modify_thread me (set_msg_queue q);
                 mret (a, i)
               else mret m);
        take_from sender dst state
    end.

Lemma receive_start Q st t T m block : live Q st t T →
  _msg_receive m block st = (i ← fetch_index t T; receive_rest t (msg_array T) i m block (irq_enabled st)) (set_irq_enabled false st).
Proof.
  intros [Hr _ _]. destruct (running_pid _ _ _ _ Hr) as [Hp _]. pose proof (proj1 (run_ready _ _ _ _ Hr)) as HT.
  unfold _msg_receive. ksimpl. rewrite Hp. kstep (sched_threads_at_thr Q st _ t T (run_kinv _ _ _ _ Hr) HT). ksimpl.
  assert (tcbs (set_irq_enabled false st) !! t = Some T) as HTl by apply HT. kget HTl. done.
Qed.

Lemma wait_message Q st t T m : live Q st t T → valid (msgs st) m →
  let T' := set_wait_data (WMsg m) T in let st' := set_tcbs (<[t := T']> (tcbs st)) st in
  modify_thread t (set_wait_data (WMsg m)) st = Ok (tt, st') ∧ live Q st' t T'.
Proof.
  intros Hl Hm. pose proof Hl as [Hr _ Hi]. pose proof (run_ready _ _ _ _ Hr) as [HT HTs]. split; [by apply modify_thread_Ok, HT|].
  assert (tcb_ok (msgs st) (set_wait_data (WMsg m) T)) as Hok.
  { apply tcb_ok_wait; [apply (ipc_tcb _ _ Hi t), HT|by apply on_runqueue_not_ipc]. }
  pose proof (live_tcb idle Q st t T t T (set_wait_data (WMsg m) T) Hl HT eq_refl eq_refl eq_refl Hok ltac:(right; klia)) as Hl'. by rewrite decide_True in Hl'.
Qed.

(** Nobody waits to send. *)
Lemma receive_alone Q st t T m block e i :
  live Q st t T → in_isr st = false → (block ≠ 0 → t ≠ idle) → valid (msgs st) m → Q (MSG_WAITERS t) = [] →
  i = -1 ∨ (∃ a, msg_array T = Some a ∧ 0 <= i ∧ valid (msgs st) (a, i)) → safe (receive_rest t (msg_array T) i m block e) Q st.
Proof.
  intros Hl Hisr Hidle Hm EQ Hi. pose proof Hl as [Hr _ _].
  destruct (empty_list Q st (MSG_WAITERS t) (run_kinv _ _ _ _ Hr)) as [Erm Eh]; [done|done|].
  destruct Hi as [->|(a & Ea & Hi & [v Hv])].
  - destruct (Z.eqb_spec block 0) as [->|Hb].
    { eapply safe_intro; [|apply (live_inv idle Q (set_irq_enabled e st) t T); lenv Hl]. unfold receive_rest. ksimpl. by rewrite Eh. }
    destruct (wait_message Q st t T m Hl Hm) as [E1 Hl1]. cbv zeta in E1, Hl1. set (T1 := set_wait_data _ T) in *. set (st1 := set_tcbs _ st) in *.
    pose proof Hl1 as [Hr1 _ Hi1].
    destruct (stable_block idle Q st1 t T1 STATUS_RECEIVE_BLOCKED (live_stable _ _ _ _ _ Hl1)) as (h & b & E2 & Hs2 & _);
      [apply Hr1|apply Hr1|by apply Hidle|klia| |].
    { apply (tcb_ok_blocked _ T m); [apply (ipc_tcb _ _ (li_ipc _ _ _ _ _ Hl) t), (run_ready _ _ _ _ Hr)|done|tauto]. }
    destruct (stable_yield idle _ _ e Hs2 Hisr) as (st' & E3 & Hinv). eapply safe_intro; [|exact Hinv].
    unfold receive_rest. ksimpl. rewrite (proj2 (Z.eqb_neq _ _) Hb). cbn [andb]. change (0 <=? -1) with false. cbv iota. kstep E1. ksimpl.
    change (heap st1) with (heap st). rewrite Erm. cbn [fst snd]. change (set_heap (heap st) st1) with st1.
    change (-1 <? 0) with true. cbv iota. ksimpl. kstep E2. ksimpl. by kstep E3.
  - pose proof (live_msgs idle Q st t T m v Hl) as Hl1. set (st1 := set_msgs _ st) in Hl1.
    eapply safe_intro; [|apply (live_inv idle Q (set_irq_enabled e st1) t T); lenv Hl1].
    unfold receive_rest. ksimpl. assert (i =? -1 = false) as -> by lia. rewrite !andb_false_r. rewrite (proj2 (Z.leb_le _ _) Hi), Ea. ksimpl.
    kstep (copy_msg_Ok st m (a, i) v Hv Hm). fold st1. ksimpl. change (heap st1) with (heap st). rewrite Erm. cbn [fst snd].
    change (set_heap (heap st) st1) with st1. assert (i <? 0 = false) as -> by lia. by ksimpl.
Qed.

(** A sender waits. *)
Lemma receive_waiting Q st t T m block e i s w :
  live Q st t T → valid (msgs st) m → Q (MSG_WAITERS t) = s :: w →
  i = -1 ∨ (∃ a k n, msg_array T = Some a ∧ 0 <= i < 2 ^ k ∧ slots (msgs st) a k ∧ cib_wf k n (msg_queue T) ∧ Z.of_nat n < 2 ^ k) →
  safe (receive_rest t (msg_array T) i m block e) Q st.
Proof.
  intros Hl Hm EQ Hi. pose proof Hl as [Hr _ Hipc]. pose proof (run_ready _ _ _ _ Hr) as [HT HTs].
  assert (heap st !! MSG_WAITERS t = Some (RQ_ENTRY s)) as Eh.
  { pose proof (k_rep _ _ (run_kinv _ _ _ _ Hr) (MSG_WAITERS t)) as Hrep. simpl in Hrep. rewrite EQ in Hrep. by destruct Hrep as (_ & [? _] & _). }
  assert (s ≠ t) as Hst.
  { intros ->. destruct (k_member _ _ (run_kinv _ _ _ _ Hr) (MSG_WAITERS t) t) as (T0 & HT0 & Hq); [rewrite EQ; by left|].
    rewrite (thr_fun _ _ _ _ HT HT0) in HTs. destruct Hq as [-> | ->] in HTs; klia. }
  unfold safe, receive_rest. ksimpl. rewrite Eh. rewrite bool_decide_false by done. rewrite andb_false_l, andb_false_r.
  destruct Hi as [->|(a & k & n & Ea & Hi & Hs & Hwf & Hn)].
  - change (0 <=? -1) with false. cbv iota. destruct (wait_message Q st t T m Hl Hm) as [E1 Hl1]. cbv zeta in E1, Hl1.
    set (T1 := set_wait_data _ T) in *. set (st1 := set_tcbs _ st) in *. kstep E1. ksimpl. change (heap st1) with (heap st).
    destruct (receive_from Q st t T s w m e Hl EQ) as (h & Eh' & Htake).
    destruct (live_dequeue idle Q st1 t T1 (MSG_WAITERS t) s w Hl1 eq_refl EQ) as (h1 & ? & Eh1 & Hl2 & _).
    change (heap st1) with (heap st) in Eh1. rewrite Eh1. cbn [fst snd]. ksimpl.
    apply (Htake _ T1 Hl2); [simpl; by rewrite lookup_insert_ne|done|done].
  - rewrite (proj2 (Z.leb_le 0 i)) by lia. rewrite Ea. ksimpl. destruct (Hs i Hi) as [v Hv]. kstep (copy_msg_Ok st m (a, i) v Hv Hm).
    pose proof (live_msgs idle Q st t T m v Hl) as Hl1. set (st1 := set_msgs _ st) in *. ksimpl. change (heap st1) with (heap st).
    destruct (cib_put_wf k n _ Hwf) as [Ep|(j & q & Ep & Hj & Hwf')].
    { exfalso. unfold cib_put in Ep. rewrite (cib_wf_avail k n), (cib_wf_mask k n) in Ep by done. pose proof Hwf as (Hk & _). pose proof (pow_le_2_30 k Hk).
      rewrite s32_small in Ep by lia. rewrite (proj2 (Z.leb_le _ _)) in Ep by lia. injection Ep as Ep _.
      pose proof (mask_index k (write_count (msg_queue T)) Hk) as Hmi. destruct Hwf as (_ & Hmask & _). rewrite <- Hmask in Hmi. lia. }
    destruct (receive_from Q st t T s w (a, j) e Hl EQ) as (h & Eh' & Htake).
    destruct (live_dequeue idle Q st1 t T (MSG_WAITERS t) s w Hl1 eq_refl EQ) as (h1 & ? & Eh1 & Hl2 & _).
    change (heap st1) with (heap st) in Eh1. rewrite Eh1. cbn [fst snd]. ksimpl. set (st2 := set_heap h1 st1) in *.
    assert (tcbs st2 !! t = Some T) as HTl by apply HT. kget HTl. rewrite Ep. ksimpl. kstep (modify_thread_Ok st2 t T _ HTl). ksimpl.
    set (T2 := set_msg_queue q T). assert (tcb_ok (msgs st2) T2) as Hok.
    { apply (tcb_ok_queue _ T T2 a k (S n)); try done; [apply (ipc_tcb _ _ (li_ipc _ _ _ _ _ Hl2) t), HTl|].
      intros y Hy. by apply valid_insert, Hs. }
    pose proof (live_tcb idle _ st2 t T t T T2 Hl2 ltac:(split; [done|apply HT]) eq_refl eq_refl eq_refl Hok (or_introl eq_refl)) as Hl3.
    rewrite decide_True in Hl3 by done. apply (Htake _ T2 Hl3); [simpl; by rewrite lookup_insert_ne|done|by apply valid_insert, Hs].
Qed.

Lemma msg_receive_safe Q st t T m block :
  live Q st t T → in_isr st = false → (block ≠ 0 → t ≠ idle) → valid (msgs st) m → safe (_msg_receive m block) Q st.
Proof.
  intros Hl Hisr Hidle Hm. unfold safe. rewrite (receive_start Q st t T m block Hl).
  assert (live Q (set_irq_enabled false st) t T) as Hl0 by (lenv Hl).
  destruct (fetch_live Q _ t T Hl0) as (i & st1 & T1 & E & Hl1 & _ & Ea & Eh & Em & Ei & Hi). kstep E. rewrite <- Ea.
  assert (valid (msgs st1) m) as Hm1 by (by rewrite Em). destruct (Q (MSG_WAITERS t)) as [|s w] eqn:EQ.
  - eapply receive_alone; [exact Hl1|by rewrite Ei|done|done|done|]. rewrite Em, Ea.
    destruct Hi as [->|(a & k & n & Ha & Hi & Hs & _)]; [by left|right]. exists a. split; [done|]. split; [lia|by apply Hs].
  - eapply receive_waiting; [exact Hl1|done|exact EQ|]. rewrite Em, Ea. exact Hi.
Qed.


Lemma msg_init_queue_safe Q st t T a k :
  live Q st t T → 0 <= k <= 30 → slots (msgs st) a k → safe (msg_init_queue a (2 ^ k)) Q st.
Proof.
  intros Hl Hk Hs. pose proof Hl as [Hr _ Hi]. pose proof (run_active _ _ _ _ Hr) as Ha. pose proof (proj1 (run_ready _ _ _ _ Hr)) as HT.
  destruct (cib_init_rep k (replicate (Z.to_nat (2 ^ k)) tt) Hk) as (c & Ec & [Hwf _] & _).
  { rewrite length_replicate. pose proof (pow_le_2_30 k Hk). lia. }
  set (T1 := set_msg_array (Some a) T). set (T2 := set_msg_queue c T1). assert (tcb_ok (msgs st) T2) as Hok.
  { apply (tcb_ok_queue _ T T2 a k 0); try done. apply (ipc_tcb _ _ Hi t), HT. }
  pose proof (live_tcb idle Q st t T t T T2 Hl HT eq_refl eq_refl eq_refl Hok (or_introl eq_refl)) as Hl2. rewrite decide_True in Hl2 by done.
  eapply safe_intro; [|exact (live_inv _ _ _ _ _ Hl2)]. unfold msg_init_queue. ksimpl. rewrite Ha. ksimpl.
  kstep (modify_thread_Ok st t T _ (proj1 HT)). fold T1. pose proof (pow_le_2_30 k Hk). rewrite u32_small by lia. rewrite Ec. ksimpl.
  rewrite (modify_thread_Ok _ t T1 _ (lookup_insert_eq _ _ _)). simpl. by rewrite insert_insert_eq.
Qed.

(** ** Mailboxes *)

Lemma keeps_wake_waiter D u e : keeps D (_wake_waiter u e).
Proof. unfold _wake_waiter. keeps. Qed.

Hint Resolve keeps_runqueue_at keeps_thread_add_to_list keeps_thread_yield_higher : keeps.
Lemma keeps_wait D q e : keeps D (_wait q e).
Proof. unfold _wait, thread_yield. keeps. Qed.

Lemma ipc_new_reader Q Q' st :
  ipc_inv Q st →
  (∀ b u, u ∈ Q' (MBOX_READERS b) → u ∈ Q (MBOX_READERS b) ∨ ∃ U p, tcbs st !! u = Some U ∧ wait_data U = WMsg p ∧ valid (msgs st) p) →
  ipc_inv Q' st.
Proof. intros [Ht Hb Hr] HQ. split; [done|done|]. intros b u [Hu|?]%HQ; [by eapply Hr|done]. Qed.

Lemma wait_safe Q st t T q e :
  live Q st t T → in_isr st = false → t ≠ idle → (∃ b, q = MBOX_READERS b) ∨ (∃ b, q = MBOX_WRITERS b) →
  (∀ b, q = MBOX_READERS b → ∃ p, wait_data T = WMsg p ∧ valid (msgs st) p) →
  ∃ Q' st', _wait q e st = Ok (tt, st') ∧ inv Q' st'.
Proof.
  intros [Hr Hid Hi] Hisr Hne Hq Hw. destruct (wait_spec Q st t T q e Hr Hisr (idle_other _ _ _ _ _ Hr Hid Hne) Hq)
    as (st' & E & Hset & HT' & Hms & _). assert (wait_queue q = true) as Hwq by (destruct Hq as [[b ->]|[b ->]]; done).
  eexists _, st'. split; [exact E|]. split; [split; [exact Hset|]|].
  - apply idle_wait; [done|]. by eapply idle_pop; [exact (run_head _ _ _ _ Hr)|..].
  - assert (ipc_inv Q st') as Hi' by (eapply (ipc_mono Q Q st st' Hi); [by eapply keeps_wait|done]).
    apply (ipc_new_reader Q); [done|]. intros b u. destruct (decide (q = MBOX_READERS b)) as [->|Hqb].
    + rewrite fn_lookup_insert. intros [->|Hu]%elem_of_insert_by; [right|by left].
      destruct (Hw b eq_refl) as (p & Hp & Hv). eexists _, p. split; [exact HT'|]. split; [done|]. by rewrite Hms.
    + rewrite fn_lookup_insert_ne by done. rewrite rq_pop_readers. by left.
Qed.

(** The message goes into the queue of the mailbox. *)
Lemma ipc_mbox_update Q st b B B' ms :
  ipc_inv Q st → mboxes st !! b = Some B → mb_array B' = mb_array B → mask (mb_cib B') = mask (mb_cib B) →
  (∀ p, valid (msgs st) p → valid ms p) → ipc_inv Q (set_msgs ms (set_mboxes (<[b := B']> (mboxes st)) st)).
Proof.
  intros Hi HB Ea Em Hms. destruct (ipc_msgs Q st ms Hi Hms) as [Ht Hb Hr]. split; [done| |done]. simpl in *.
  intros c C. destruct (decide (b = c)) as [->|]; [|rewrite lookup_insert_ne by done; apply Hb]. rewrite lookup_insert_eq. intros [= <-].
  destruct (Hb c B HB) as (k & Hk & Hm & Hs). exists k. rewrite Em, Ea. done.
Qed.

Lemma put_queue_safe Q st t T b B m e :
  live Q st t T → valid (msgs st) m → mboxes st !! b = Some B → safe (_mbox_put_queue b m e) Q st.
Proof.
  intros [Hr Hid Hi] [v Hv] HB. destruct (ipc_mbox _ _ Hi b B HB) as (k & Hk & Hmask & Hs). destruct B as [c a]. simpl in Hmask, Hs.
  pose proof (put_queue_spec Q st t T b m v Hv st c a e Hr Hv HB) as E. cbv zeta in E. unfold cib_put_unsafe in E.
  assert (valid (msgs st) (a, s32 (Z.land (write_count c) (mask c)))) as Hslot by (apply Hs; rewrite Hmask; by apply mask_index).
  specialize (E Hslot). eapply safe_intro; [exact E|].
  split; [split; [exists t, T; renv Hr|done]|]. set (ms := <[_ := _]> _). set (B' := Mbox _ a).
  assert (ipc_inv Q (set_msgs ms (set_mboxes (<[b := B']> (mboxes st)) st))) as Hi'.
  { eapply ipc_mbox_update; [exact Hi|exact HB|done|done|]. intros p Hp. by do 2 apply valid_insert. }
  by eapply ipc_env.
Qed.


(** The first waiting thread is woken, after [v] was written to [p]. *)
Lemma wake_safe Q st t T q u w p v e :
  live Q st t T → (∃ b, q = MBOX_READERS b) ∨ (∃ b, q = MBOX_WRITERS b) → Q q = u :: w → valid (msgs st) p →
  ∃ h U, list_remove_head (heap st) q = (Some (RQ_ENTRY u), h) ∧ thr st u U ∧
    ∃ st' Q', _wake_waiter u e (set_msgs (<[p := v]> (msgs (set_heap h st))) (set_heap h st)) = Ok (tt, st') ∧ inv Q' st'.
Proof.
  intros Hl Hq EQ Hp. assert (wait_queue q = true) as Hwq by (destruct Hq as [[b ->]|[b ->]]; done).
  destruct (live_dequeue idle Q st t T q u w Hl Hwq EQ) as (h & U & Eh & Hl1 & Hn & HU & Hqs).
  assert (status U = STATUS_MBOX_BLOCKED) as Hs by (destruct Hq as [[b ->]|[b ->]]; exact Hqs).
  exists h, U. split; [done|]. split; [done|]. pose proof (live_msgs idle _ _ t T p v Hl1) as [Hr2 Hid2 Hi2].
  destruct (wake_waiter_spec _ _ t T u U e Hr2 HU Hs Hn) as (st' & E & Hset & _). eexists st', _. split; [exact E|].
  split; [split; [exact Hset|by apply idle_push]|].
  eapply ipc_mono; [exact Hi2|by eapply keeps_wake_waiter|]. intros c x. by rewrite rq_push_readers.
Qed.

Lemma mbox_put_safe Q st t T b B m blocking :
  live Q st t T → (blocking ≠ 0 → in_isr st = false ∧ t ≠ idle) → valid (msgs st) m → mboxes st !! b = Some B →
  safe (_mbox_put b m blocking) Q st.
Proof.
  intros Hl Hblock Hm HB. pose proof Hl as [Hr Hid Hi]. assert (live Q (set_irq_enabled false st) t T) as Hl0 by (lenv Hl).
  destruct (Q (MBOX_READERS b)) as [|u w] eqn:EQ.
  - destruct B as [c a]. unfold safe. rewrite (put_start Q st t T b m blocking Hr c a EQ HB). destruct (cib_full c).
    + destruct (Z.eqb_spec blocking 0) as [->|Hb]; cbn [negb].
      * eexists _, Q, _. split; [reflexivity|]. apply (live_inv idle Q _ t T). lenv Hl.
      * destruct (Hblock Hb) as [Hisr Hne].
        destruct (wait_safe Q _ t T (MBOX_WRITERS b) (irq_enabled st) Hl0 Hisr Hne) as (Q' & st' & E & Hinv); [right; by exists b|done|].
        exists Wait, Q', st'. split; [by kstep E|done].
    + destruct (put_queue_safe Q _ t T b _ m (irq_enabled st) Hl0 Hm HB) as (r & Q' & st' & E & Hinv).
      exists (Return r), Q', st'. split; [by kstep E|done].
  - destruct (ipc_readers _ _ Hi b u) as (U0 & p & HU0 & Hw & Hp); [rewrite EQ; by left|]. destruct Hm as [v Hv].
    destruct (wake_safe Q _ t T (MBOX_READERS b) u w p v (irq_enabled st) Hl0) as (h & U & Eh & HU & st' & Q' & E & Hinv);
      [left; by exists b|exact EQ|exact Hp|].
    eapply safe_intro; [|exact Hinv]. assert (U = U0) as -> by (destruct HU as [HU _]; simpl in HU; congruence).
    unfold _mbox_put. ksimpl. change (heap (set_irq_enabled false st)) with (heap st) in Eh. rewrite Eh. cbn [fst snd]. ksimpl.
    kget HU. rewrite Hw. ksimpl. kstep (copy_msg_Ok (set_heap h (set_irq_enabled false st)) p m v Hv Hp). by kstep E.
Qed.

Lemma mbox_get_safe Q st t T b B m blocking :
  live Q st t T → (blocking ≠ 0 → in_isr st = false ∧ t ≠ idle) → valid (msgs st) m → mboxes st !! b = Some B →
  safe (_mbox_get b m blocking) Q st.
Proof.
  intros Hl Hblock Hm HB. pose proof Hl as [Hr Hid Hi]. assert (live Q (set_irq_enabled false st) t T) as Hl0 by (lenv Hl).
  destruct (ipc_mbox _ _ Hi b B HB) as (k & Hk & Hmask & Hs). unfold safe, _mbox_get. ksimpl. kstep (read_mbox_Ok (set_irq_enabled false st) b B HB).
  destruct (cib_avail (mb_cib B) =? 0); cbn [negb].
  - destruct (Z.eqb_spec blocking 0) as [->|Hb]; cbn [negb].
    { eexists _, Q, _. split; [reflexivity|]. apply (live_inv idle Q _ t T). lenv Hl. }
    destruct (Hblock Hb) as [Hisr Hne]. ksimpl. rewrite (run_active _ _ _ _ Hr). ksimpl.
    destruct (wait_message Q _ t T m Hl0 Hm) as [E1 Hl1]. kstep E1.
    destruct (wait_safe Q _ t _ (MBOX_READERS b) (irq_enabled st) Hl1 Hisr Hne) as (Q' & st' & E & Hinv);
      [left; by exists b|intros b' _; by exists m|]. exists 1, Q', st'. split; [by kstep E|done].
  - unfold cib_get_unsafe, write_mbox. set (i := s32 _). set (B' := set_mb_cib _ B). ksimpl.
    destruct (Hs i) as [v Hv]; [unfold i; rewrite Hmask; by apply mask_index|].
    set (ms := <[m := v]> (msgs st)). set (st1 := set_msgs ms (set_mboxes (<[b := B']> (mboxes st)) (set_irq_enabled false st))).
    assert (live Q st1 t T) as Hl1.
    { split; [renv Hr|done|]. apply (ipc_mbox_update Q (set_irq_enabled false st) b B B' ms); [by eapply ipc_env|done|done|done|].
      intros p. apply valid_insert. }
    kstep (copy_msg_Ok (set_mboxes (<[b := B']> (mboxes st)) (set_irq_enabled false st)) m (mb_array B, i) v Hv Hm). fold ms st1. ksimpl.
    destruct (Q (MBOX_WRITERS b)) as [|u w] eqn:EQ.
    + destruct (empty_list Q st1 (MBOX_WRITERS b) (run_kinv _ _ _ _ (li_running _ _ _ _ _ Hl1))) as [E _]; [done|done|].
      change (heap st1) with (heap st) in E. rewrite E. cbn [fst snd]. ksimpl. eexists _, Q, _. split; [reflexivity|]. apply (live_inv idle Q _ t T). lenv Hl1.
    + destruct (wake_safe Q st1 t T (MBOX_WRITERS b) u w m v (irq_enabled st) Hl1) as (h & U & Eh & HU & st' & Q' & E & Hinv);
        [right; by exists b|exact EQ|by apply valid_insert|].
      change (heap st1) with (heap st) in Eh. rewrite Eh. cbn [fst snd]. ksimpl. exists 1, Q', st'. split; [|done].
      assert (set_msgs (<[m := v]> (msgs (set_heap h st1))) (set_heap h st1) = set_heap h st1) as Eid.
      { unfold st1, ms. simpl. by rewrite insert_insert_eq. }
      rewrite Eid in E. by kstep E.
Qed.

Lemma mbox_put_resume_safe Q st t T b B m :
  live Q st t T → valid (msgs st) m → mboxes st !! b = Some B → safe (_mbox_put_resume b m) Q st.
Proof.
  intros Hl Hm HB. assert (live Q (set_irq_enabled false st) t T) as Hl0 by (lenv Hl).
  unfold safe, _mbox_put_resume. ksimpl. by eapply put_queue_safe.
Qed.

Lemma mbox_init_safe Q st t T b a k :
  live Q st t T → 0 <= k <= 30 → slots (msgs st) a k → heap st !! MBOX_READERS b = None → heap st !! MBOX_WRITERS b = None →
  safe (mbox_init b a (2 ^ k)) Q st.
Proof.
  intros [Hr Hid Hi] Hk Hs Er Ew. pose proof (pow_le_2_30 k Hk).
  destruct (cib_init_rep k (replicate (Z.to_nat (2 ^ k)) tt) Hk) as (c & Ec & [Hwf _] & _); [rewrite length_replicate; lia|].
  assert (c = CIB_INIT (2 ^ k)) as -> by (unfold cib_init in Ec; destruct (assert_ _); [by injection Ec as <-|done]).
  unfold safe, mbox_init, write_mbox. rewrite u32_small by lia. ksimpl. eexists _, Q, _. split; [reflexivity|].
  assert (set_next (set_next (heap st) (MBOX_READERS b) None) (MBOX_WRITERS b) None = heap st) as Eh.
  { unfold set_next. by rewrite (delete_id _ _ Er), (delete_id _ _ Ew). }
  simpl. rewrite Eh. split; [split; [exists t, T; renv Hr|done]|]. destruct Hi as [Ht Hb Hrd]. split; [done| |done]. simpl.
  intros x X. destruct (decide (b = x)) as [->|]; [|rewrite lookup_insert_ne by done; apply Hb]. rewrite lookup_insert_eq. intros [= <-].
  exists k. split; [done|]. split; [apply Hwf|done].
Qed.

End Messages.
