(* ===== verification/IpcSystem.v ===== *)
(** * The kernel with message passing as a transition system

    Threads and interrupt handlers make the calls of System and those of core/msg.c
    and core/mbox.c, in any order, from the end of kernel_init on. A call that gives
    up the processor is one step up to its context switch; what [_mbox_put] does when
    it is scheduled again is a step of its own. *)

From S2P Require Import Prelude LinkedList Cib Bitarithm Kernel KernelInv Thread Mutex ThreadFlags Msg Mbox System Ipc.
Open Scope Z_scope.
Implicit Types (Q : node → list Z) (st : kstate) (T U : thread_t).

(** ** Calls *)

Inductive ipc_call : Type :=
  | Core (c : call)
  | MsgSend (m : mptr) (target : Z)
  | MsgTrySend (m : mptr) (target : Z)
  | MsgSendReceive (m reply : mptr) (target : Z)
  | MsgReply (m reply : mptr)
  | MsgReplyInt (m reply : mptr)
  | MsgReceive (m : mptr)
  | MsgTryReceive (m : mptr)
  | MsgInitQueue (array num : Z)
  | MboxInit (mbox array size : Z)
  | MboxPut (mbox : Z) (m : mptr)
  | MboxTryPut (mbox : Z) (m : mptr)
  | MboxPutResume (mbox : Z) (m : mptr)
  | MboxGet (mbox : Z) (m : mptr)
  | MboxTryGet (mbox : Z) (m : mptr).

Section IpcSystem.
Variables (thread_stack_init : Z → Z → Z → Z → Z) (flags0 : Z) (idle : Z).

Definition ipc_exec (c : ipc_call) : M unit :=
  match c with
  | Core c => exec thread_stack_init flags0 c
  | MsgSend m target => void (msg_send m target)
  | MsgTrySend m target => void (msg_try_send m target)
  | MsgSendReceive m reply target => void (msg_send_receive m reply target)
  | MsgReply m reply => void (msg_reply m reply)
  | MsgReplyInt m reply => void (msg_reply_int m reply)
  | MsgReceive m => void (msg_receive m)
  | MsgTryReceive m => void (msg_try_receive m)
  | MsgInitQueue array num => msg_init_queue array num
  | MboxInit mbox array size => mbox_init mbox array size
  | MboxPut mbox m => void (_mbox_put mbox m 1)
  | MboxTryPut mbox m => void (_mbox_put mbox m 0)
  | MboxPutResume mbox m => void (_mbox_put_resume mbox m)
  | MboxGet mbox m => void (_mbox_get mbox m 1)
  | MboxTryGet mbox m => void (_mbox_get mbox m 0)
  end.

(** In a thread other than the idle thread. *)
Definition may_block st : Prop := in_isr st = false ∧ sched_active_thread st ≠ Some idle.

(** The request of [u] is on no list: it has been received. *)
Definition request_taken st (u : Z) : Prop := ∀ w l, is_list (heap st) (MSG_WAITERS w) (RQ_ENTRY <$> l) → u ∉ l.

(** A reply to the sender of [m], which is alive. *)
Definition may_reply st (m reply : mptr) : Prop :=
  valid (msgs st) reply ∧
  ∃ v u, msgs st !! m = Some v ∧ sched_threads st !! sender_pid v = Some u ∧ request_taken st u.

(** A power of two as the size of an array of messages. *)
Definition array_ok st (array num : Z) : Prop := ∃ k, 0 <= k <= 30 ∧ num = 2 ^ k ∧ slots (msgs st) array k.

(** Who may call what: only a thread other than the idle thread blocks; pointers are
    valid; PIDs are in the range of the thread table; a request is sent to a living
    thread; a mailbox is initialised once, before it is used. *)
Definition ipc_allowed (c : ipc_call) st : Prop :=
  match c with
  | Core c => allowed idle c st
  | MsgSend m target => (in_isr st = false → sched_active_thread st ≠ Some idle) ∧ valid (msgs st) m ∧ 0 <= target <= KERNEL_PID_LAST
  | MsgTrySend m target => valid (msgs st) m ∧ 0 <= target <= KERNEL_PID_LAST
  | MsgSendReceive m reply target =>
      may_block st ∧ valid (msgs st) m ∧ valid (msgs st) reply ∧ is_Some (sched_threads st !! target) ∧ target ≠ sched_active_pid st
  | MsgReply m reply => may_reply st m reply
  | MsgReplyInt m reply => in_isr st = true ∧ may_reply st m reply
  | MsgReceive m => may_block st ∧ valid (msgs st) m
  | MsgTryReceive m => in_isr st = false ∧ valid (msgs st) m
  | MsgInitQueue array num => array_ok st array num
  | MboxInit mbox array size => array_ok st array size ∧ heap st !! MBOX_READERS mbox = None ∧ heap st !! MBOX_WRITERS mbox = None
  | MboxPut mbox m | MboxGet mbox m => may_block st ∧ valid (msgs st) m ∧ is_Some (mboxes st !! mbox)
  | MboxTryPut mbox m | MboxTryGet mbox m | MboxPutResume mbox m => valid (msgs st) m ∧ is_Some (mboxes st !! mbox)
  end.

Inductive ipc_reachable : kstate → kstate → Prop :=
  | ipc_reach_refl st : ipc_reachable st st
  | ipc_reach_step st st1 c st2 :
      ipc_reachable st st1 → ipc_allowed c st1 → ipc_exec c st1 = Ok (tt, st2) → ipc_reachable st st2.

(** ** Every call succeeds and keeps the invariant *)

Lemma core_safe Q st c : inv idle Q st → allowed idle c st → safe idle (exec thread_stack_init flags0 c) Q st.
Proof.
  intros [Hs Hi] Hal. destruct (exec_safe thread_stack_init flags0 idle Q st c Hs Hal) as (Q' & st' & E & Hs' & Hrd).
  eapply safe_intro; [exact E|]. split; [done|]. set (D := λ u, ∃ p, sched_threads st !! p = Some u).
  eapply (ipc_step D Q); [exact Hi| |intros b u; by rewrite Hrd|].
  - eapply keeps_exec; [|exact E]. destruct c; try done. intros [p Hp]. destruct Hal as (_ & Hf & _). by apply (Hf p).
  - intros b u Hu. destruct Hs as [(t & T & Hr) _]. destruct (k_member _ _ (run_kinv _ _ _ _ Hr) _ _ Hu) as (U & [_ HU] & _). by exists (pid U).
Qed.

Lemma taken_received Q st u : kinv Q st → request_taken st u → received Q st u.
Proof.
  intros Hk Ht U HU Hs q Hin. destruct (k_member _ _ Hk _ _ Hin) as (U' & HU' & Hq). rewrite <- (thr_fun _ _ _ _ HU HU') in Hq.
  destruct q as [?|p|w|x|b|b|]; simpl in Hq; try done; try (rewrite Hs in Hq; klia).
  apply (Ht w (Q (MSG_WAITERS w))); [exact (k_rep _ _ Hk (MSG_WAITERS w))|done].
Qed.

Lemma safe_void {A} (c : M A) Q st : safe idle c Q st → safe idle (void c) Q st.
Proof. intros (a & Q' & st' & E & Hi). exists tt, Q', st'. split; [|done]. unfold void. by kstep E. Qed.

Lemma ipc_exec_safe Q st c : inv idle Q st → ipc_allowed c st → safe idle (ipc_exec c) Q st.
Proof.
  intros Hinv Hal. destruct (inv_live _ _ _ Hinv) as (t & T & Hl). pose proof Hl as [Hr _ _]. pose proof (run_active _ _ _ _ Hr) as Ha.
  assert (may_block st → in_isr st = false ∧ t ≠ idle) as Hmb by (intros [? Hne]; split; [done|congruence]).
  destruct c; simpl in Hal; cbn [ipc_exec]; try apply safe_void.
  - by apply core_safe.
  - destruct Hal as (Hne & Hm & Hp). eapply msg_send_safe; [exact Hl|intros Hi _ ->; by apply (Hne Hi)|done|done].
  - destruct Hal as (Hm & Hp). by eapply msg_send_safe.
  - destruct Hal as (Hb & Hm & Hrp & Hu & Hp). destruct (Hmb Hb). by eapply msg_send_receive_safe.
  - destruct Hal as (Hrp & v & u & Hv & Hu & Ht). eapply msg_reply_safe; [done..|]. by eapply taken_received; [apply Hr|].
  - destruct Hal as (Hi & Hrp & v & u & Hv & Hu & Ht). eapply msg_reply_int_safe; [done..|]. by eapply taken_received; [apply Hr|].
  - destruct Hal as (Hb & Hm). destruct (Hmb Hb) as [Hi Hne]. exact (msg_receive_safe idle Q st t T m 1 Hl Hi (λ _, Hne) Hm).
  - destruct Hal as (Hi & Hm). exact (msg_receive_safe idle Q st t T m 0 Hl Hi (λ H, False_ind _ (H eq_refl)) Hm).
  - destruct Hal as (k & Hk & -> & Hs). by eapply msg_init_queue_safe.
  - destruct Hal as ((k & Hk & -> & Hs) & ? & ?). by eapply mbox_init_safe.
  - destruct Hal as (Hb & Hm & [B HB]). eapply mbox_put_safe; [exact Hl|by auto|done|done].
  - destruct Hal as (Hm & [B HB]). by eapply mbox_put_safe.
  - destruct Hal as (Hm & [B HB]). by eapply mbox_put_resume_safe.
  - destruct Hal as (Hb & Hm & [B HB]). eapply mbox_get_safe; [exact Hl|by auto|done|done].
  - destruct Hal as (Hm & [B HB]). by eapply mbox_get_safe.
Qed.

Lemma ipc_reachable_inv st st' Q : ipc_reachable st st' → inv idle Q st → ∃ Q', inv idle Q' st'.
Proof.
  intros Hre. revert Q. induction Hre as [st|st st1 c st2 _ IH Hal E]; intros Q HQ; [by exists Q|].
  destruct (IH Q HQ) as (Q1 & HQ1). destruct (ipc_exec_safe Q1 st1 c HQ1 Hal) as (a & Q2 & st3 & E' & HQ2). exists Q2. congruence.
Qed.
End IpcSystem.

(** ** From boot on *)

(** Where [thread_create] puts the control block. *)
Definition cb_of (stack size : Z) : Z := (stack_layout stack size).1 + (stack_layout stack size).2.

Lemma tcb_of_cb tsi flags0 stack size prio f a p : (tcb_of tsi flags0 stack size prio f a p).1 = cb_of stack size.
Proof. unfold tcb_of, cb_of. by destruct (stack_layout stack size). Qed.

Lemma boot_inv tsi flags0 idle_stack idle_size main_stack main_size idle_thread main ms mb rm :
  cb_of idle_stack idle_size ≠ cb_of main_stack main_size → (∀ b B, mb !! b = Some B → mbox_ok ms B) →
  ∃ Q st0, kernel_init tsi flags0 idle_stack idle_size main_stack main_size idle_thread main (reset_state ms mb rm) = Ok (tt, st0) ∧
    inv (cb_of idle_stack idle_size) Q st0.
Proof.
  intros Hne Hmb. pose proof (kernel_init_boot tsi flags0 idle_stack idle_size main_stack main_size idle_thread main ms mb rm) as Hboot.
  rewrite !tcb_of_cb in Hboot. destruct (Hboot Hne) as (st0 & E & Hset & _). eexists _, st0. split; [exact E|]. split; [split; [exact Hset|]|].
  - apply idle_push. unfold rq_push. rewrite fn_lookup_insert. apply elem_of_app. right. by left.
  - assert (ipc_inv no_queues (reset_state ms mb rm)) as Hi by (split; [done|done|intros b u Hu; by apply elem_of_nil in Hu]).
    eapply (ipc_step (λ _, False)); [exact Hi| |intros b u; rewrite !rq_push_readers; done|intros b u Hu; by apply elem_of_nil in Hu].
    assert (keeps (λ _, False) (kernel_init tsi flags0 idle_stack idle_size main_stack main_size idle_thread main)) as Hk; [|exact (Hk _ _ _ E)].
    unfold kernel_init. apply keeps_bind; [apply keeps_irq_disable|intros _].
    do 2 (apply keeps_bind; [apply keeps_thread_create; tauto|intros _]). apply keeps_cpu_switch_context_exit.
Qed.

(** C1: The kernel with message passing is safe under calls that keep its rules.
    From the end of [kernel_init] on, whatever the memory for messages and mailboxes
    holds at boot, in every sequence of calls by threads and interrupt handlers
    (yielding, sleeping, waking, mutexes, creating and ending threads, messages with
    and without queues, requests and replies, mailboxes, and interrupts) that keeps
    the rules of [ipc_allowed], every such call runs without a fault: it does not
    dereference a bad pointer, leave an array, violate an assertion or loop. After
    it the kernel invariant holds and a ready thread of the highest priority runs,
    except inside an interrupt handler that has requested the switch.

    The rules are: calls that may block are made by threads other than the idle
    thread, and handlers make only calls that do not block; message pointers are
    valid and PIDs in the range of the thread table; a request goes to another,
    living thread, and a reply to a living thread whose request has been received;
    an array of messages has a power of two of elements; a mailbox is initialised
    once, before its use; a new thread has a priority of at least 0 and a control
    block that no thread uses. A request to a PID without a thread breaks the
    invariant (see [msg_send_receive] in Msg); thread flags are not among the
    calls. *)
Theorem kernel_ipc_safe tsi flags0 idle_stack idle_size main_stack main_size idle_thread main ms mb rm :
  let idle := cb_of idle_stack idle_size in
  idle ≠ cb_of main_stack main_size → (∀ b B, mb !! b = Some B → mbox_ok ms B) →
  ∃ st0, kernel_init tsi flags0 idle_stack idle_size main_stack main_size idle_thread main (reset_state ms mb rm) = Ok (tt, st0) ∧
    ∀ st, ipc_reachable tsi flags0 idle st0 st →
      (∃ Q, settled Q st) ∧
      ∀ c, ipc_allowed idle c st → ∃ st', ipc_exec tsi flags0 c st = Ok (tt, st') ∧ ∃ Q', settled Q' st'.
Proof.
  intros idle Hne Hmb. destruct (boot_inv tsi flags0 idle_stack idle_size main_stack main_size idle_thread main ms mb rm Hne Hmb) as (Q0 & st0 & E & H0).
  exists st0. split; [done|]. intros st Hre. destruct (ipc_reachable_inv _ _ _ _ _ _ Hre H0) as (Q & HQ). split; [exists Q; apply HQ|].
  intros c Hal. destruct (ipc_exec_safe tsi flags0 idle Q st c HQ Hal) as ([] & Q' & st' & E' & HQ'). exists st'. split; [done|]. exists Q'. apply HQ'.
Qed.

(** ** Examples *)

Fixpoint ipc_run (cs : list ipc_call) st : kstate :=
  match cs with [] => st | c :: cs => ipc_run cs (after (ipc_exec demo_tsi 0 c) st) end.

(** Each call of the sequence is allowed where it is made. *)
Fixpoint ipc_all_allowed (cs : list ipc_call) st : Prop :=
  match cs with [] => True | c :: cs => ipc_allowed 1360 c st ∧ ipc_all_allowed cs (after (ipc_exec demo_tsi 0 c) st) end.

Lemma ipc_run_reachable cs : ∀ Q st st1, inv 1360 Q st → ipc_reachable demo_tsi 0 1360 st st1 → ipc_all_allowed cs st1 →
  ipc_reachable demo_tsi 0 1360 st (ipc_run cs st1).
Proof.
  induction cs as [|c cs IH]; intros Q st st1 H0 Hre Hall; [done|]. destruct Hall as [Hal Hall].
  destruct (ipc_reachable_inv _ _ _ _ _ _ Hre H0) as (Q1 & HQ1). destruct (ipc_exec_safe demo_tsi 0 1360 Q1 st1 c HQ1 Hal) as ([] & _ & st2 & E & _).
  cbn [ipc_run]. eapply IH; [exact H0| |exact Hall]. rewrite (after_Ok _ _ _ _ E). by eapply ipc_reach_step.
Qed.

(** Main creates a thread of higher priority, which waits for a message; main sends
    it a request, the thread replies and waits again, and main runs. *)
Definition demo_ipc : list ipc_call :=
  [Core (Spawn 3000 400 5 3 0); MsgReceive (0, 0); MsgSendReceive (1, 1) (1, 2) 3; MsgReply (0, 0) (0, 1); MsgReceive (0, 0)].

Lemma demo_mbox_ok b B : demo_mboxes !! b = Some B → mbox_ok demo_msgs B.
Proof.
  unfold demo_mboxes. intros [_ <-]%lookup_singleton_Some. exists 2. split; [lia|]. split; [done|]. intros i Hi. unfold valid.
  assert (i = 0 ∨ i = 1 ∨ i = 2 ∨ i = 3) as [->|[->|[->| ->]]] by (simpl in Hi; lia); eexists; vm_compute; reflexivity.
Qed.

Lemma no_waiters_taken st u :
  forallb (λ e, match e.1 with MSG_WAITERS _ => false | _ => true end) (map_to_list (heap st)) = true → request_taken st u.
Proof.
  intros Hh w l Hl Hu. destruct l as [|x l]; [by apply elem_of_nil in Hu|]. destruct Hl as (_ & [Hx _] & _).
  rewrite forallb_forall in Hh. assert (In (MSG_WAITERS w, RQ_ENTRY x) (map_to_list (heap st))) as Hin.
  { apply list_elem_of_In. by apply elem_of_map_to_list. }
  by apply Hh in Hin.
Qed.

Lemma demo_ipc_allowed : ipc_all_allowed demo_ipc demo_boot.
Proof.
  split; [split; [done|]; split; [apply demo_fresh|by vm_compute]|].
  split; [split; [split; by vm_compute|eexists; vm_compute; reflexivity]|].
  split; [split; [split; by vm_compute|]; split; [eexists; vm_compute; reflexivity|]; split; [eexists; vm_compute; reflexivity|];
    split; [eexists; vm_compute; reflexivity|by vm_compute]|].
  split; [|split; [split; [split; by vm_compute|eexists; vm_compute; reflexivity]|done]].
  split; [eexists; vm_compute; reflexivity|]. eexists _, _. split; [vm_compute; reflexivity|]. split; [vm_compute; reflexivity|].
  apply no_waiters_taken. vm_compute. reflexivity.
Qed.

Lemma kernel_ipc_safe_witness :
  sched_active_thread (ipc_run demo_ipc demo_boot) = Some 2360 ∧
  msgs (ipc_run demo_ipc demo_boot) !! (1, 2) = Some (Msg 0 0 0) ∧
  ∃ Q, settled Q (ipc_run demo_ipc demo_boot).
Proof.
  split; [vm_compute; reflexivity|]. split; [vm_compute; reflexivity|].
  destruct (kernel_ipc_safe demo_tsi 0 1000 400 2000 400 1 2 demo_msgs demo_mboxes demo_rmutexes) as (st0 & E & Hsafe);
    [vm_compute; discriminate|exact demo_mbox_ok|].
  assert (st0 = demo_boot) as E0.
  { unfold demo_boot, demo_init. by rewrite (after_Ok _ _ _ _ E). }
  rewrite E0 in Hsafe. apply Hsafe.
  destruct (boot_inv demo_tsi 0 1000 400 2000 400 1 2 demo_msgs demo_mboxes demo_rmutexes) as (Q & st1 & E1 & Hinv);
    [vm_compute; discriminate|exact demo_mbox_ok|].
  assert (st1 = demo_boot) as E2 by congruence. rewrite E2 in Hinv.
  exact (ipc_run_reachable demo_ipc Q demo_boot demo_boot Hinv (ipc_reach_refl _ _ _ _) demo_ipc_allowed).
Defined.
