(* ===== verification/Delivery.v ===== *)
(** * Sending without blocking, seen by the receiver

    What [msg_try_send] does in a kernel that satisfies the invariant, from a thread
    or from an interrupt handler, to any PID: the message is where the receiver
    will find it, or it is refused for a reason and nothing has changed. *)

From S2P Require Import Prelude LinkedList Cib Kernel KernelInv Thread ThreadFlags Msg System Ipc.
Open Scope Z_scope.
Implicit Types (Q : node → list Z) (st : kstate) (T : thread_t).

(** The PID a receiver sees. *)
Definition sender_of st : Z := if in_isr st then KERNEL_PID_ISR else sched_active_pid st.

(** The state with the sender's buffer filled. *)
Definition stamped (m : mptr) (w : msg_t) st : kstate := set_msgs (<[m := w]> (msgs st)) st.

(** The other threads keep their control blocks, but for what the scheduler does to
    their status. *)
Definition kept_but (u : Z) st st' : Prop :=
  ∀ x X, x ≠ u → tcbs st !! x = Some X → ∃ s, tcbs st' !! x = Some (set_status s X).

(** The message [w] at [m] reaches the thread with PID [p]: it is in the buffer of
    the waiting thread, which is ready, or at the end of its queue. *)
Inductive posted (m : mptr) (w : msg_t) (p : Z) st st' : Prop :=
  | posted_waiting u U b s :
      sched_threads st !! p = Some u → tcbs st !! u = Some U →
      status U = STATUS_RECEIVE_BLOCKED → wait_data U = WMsg b →
      msgs st' = <[b := w]> (<[m := w]> (msgs st)) →
      tcbs st' !! u = Some (set_status s U) → STATUS_ON_RUNQUEUE <= s → kept_but u st st' →
      in_isr st' = in_isr st → posted m w p st st'
  | posted_queued u U U' k l :
      sched_threads st !! p = Some u → tcbs st !! u = Some U → status U ≠ STATUS_RECEIVE_BLOCKED →
      queue_is (stamped m w st) U k l → Z.of_nat (length l) < 2 ^ k →
      tcbs st' !! u = Some U' → queue_is st' U' k (l ++ [w]) → same_sched U U' →
      (∀ x, x ≠ u → tcbs st' !! x = tcbs st !! x) → in_isr st' = in_isr st → posted m w p st st'.

(** The message is not taken: there is no such thread, or it neither waits for a
    message nor has room for one. At most the sender's own buffer has changed. *)
Definition refused (m : mptr) (w : msg_t) (p : Z) st st' : Prop :=
  (sched_threads st !! p = None ∨
   ∃ u U, sched_threads st !! p = Some u ∧ tcbs st !! u = Some U ∧ status U ≠ STATUS_RECEIVE_BLOCKED ∧
     no_space (stamped m w st) U) ∧
  ∃ v, st' = stamped m v st.

Lemma set_status_id T : set_status (status T) T = T.
Proof. by destruct T. Qed.

Lemma stamped_irq m w e st : set_irq_enabled (irq_enabled st) (stamped m w (set_irq_enabled e st)) = stamped m w st.
Proof. by destruct st. Qed.

(** What was in the sender's buffer does not matter. *)
Lemma stamped_stamped m v w st : stamped m w (stamped m v st) = stamped m w st.
Proof. unfold stamped. simpl. by rewrite insert_insert_eq. Qed.

Lemma posted_stamped m v w p st st' : posted m w p (stamped m v st) st' → posted m w p st st'.
Proof.
  intros [u U b s|u U U' k l ??? Hq].
  - eapply posted_waiting; try done. etrans; [eassumption|]. simpl. by rewrite insert_insert_eq.
  - rewrite stamped_stamped in Hq. by eapply posted_queued.
Qed.

Lemma refused_stamped m v w p st st' : refused m w p (stamped m v st) st' → refused m w p st st'.
Proof.
  intros [H [v' ->]]. split; [|exists v'; apply stamped_stamped]. destruct H as [H|(u & U & H1 & H2 & H3 & H4)]; [by left|right].
  rewrite stamped_stamped in H4. by exists u, U.
Qed.

(** ** Queues *)

(** A well-formed queue holds some messages. *)
Lemma queue_exists st T : tcb_ok (msgs st) T → no_queue T ∨ ∃ k l, queue_is st T k l.
Proof.
  intros [_ _ Hq]. unfold queue_ok in Hq. destruct (msg_array T) as [a|] eqn:Ea; [right|by left].
  destruct Hq as (k & n & Hwf & Hs). pose proof Hwf as (Hk & _). pose proof (pow_le_2_30 k Hk).
  set (slot := λ i, default (Msg 0 0 0) (msgs st !! (a, Z.of_nat i))).
  set (arr := slot <$> seq 0 (Z.to_nat (2 ^ k))).
  assert (∀ i, (i < Z.to_nat (2 ^ k))%nat → arr !! i = Some (slot i)) as Harr.
  { intros i Hi. unfold arr. rewrite list_lookup_fmap, lookup_seq_lt by done. done. }
  exists k, ((λ i, slot (cib_slot k (msg_queue T) i)) <$> seq 0 n), a, arr. split; [done|]. split.
  - intros i x Hx. pose proof (lookup_lt_Some _ _ _ Hx) as Hi. unfold arr in Hi. rewrite length_fmap, length_seq in Hi.
    rewrite Harr in Hx by done. injection Hx as <-.
    destruct (Hs (Z.of_nat i)) as [v Ev]; [lia|]. unfold slot.
    assert (msgs st !! (a, Z.of_nat i) = Some v) as -> by exact Ev. done.
  - split; [by rewrite length_fmap, length_seq|]. split; [unfold arr; rewrite length_fmap, length_seq; lia|].
    intros i x Hx. rewrite list_lookup_fmap in Hx. destruct (seq 0 n !! i) as [j|] eqn:Ej; [|done].
    apply lookup_seq in Ej as [-> _]. injection Hx as <-. apply Harr. unfold cib_slot.
    pose proof (Z.mod_pos_bound (read_count (msg_queue T) + Z.of_nat i) (2 ^ k)). lia.
Qed.

Lemma queue_msg_effect st u U m w : tcbs st !! u = Some U → tcb_ok (msgs st) U → msgs st !! m = Some w →
  (no_space st U ∧ queue_msg u m st = Ok (0, st)) ∨
  ∃ k l U' ms, let st' := set_msgs ms (set_tcbs (<[u := U']> (tcbs st)) st) in
    queue_is st U k l ∧ Z.of_nat (length l) < 2 ^ k ∧ queue_msg u m st = Ok (1, st') ∧
    queue_is st' U' k (l ++ [w]) ∧ same_sched U U'.
Proof.
  intros HU Hok Hm.
  assert (no_space st U → no_space st U ∧ queue_msg u m st = Ok (0, st)) as Hfull by (intros Hn; split; [done|by apply (queue_msg_full st u U)]).
  destruct (queue_exists st U Hok) as [Hn|(k & l & Hq)]; [by left; apply Hfull; left|].
  destruct (decide (Z.of_nat (length l) < 2 ^ k)) as [Hl|Hl].
  - right. destruct (queue_msg_space st u U m w k l HU Hq Hl Hm (tcb_flags _ _ Hok)) as (q & ms & E & Hq' & _).
    eexists k, l, _, ms. split; [done|]. split; [done|]. split; [exact E|]. split; [exact Hq'|done].
  - left. apply Hfull. right. exists k, l. split; [done|]. destruct Hq as (a & arr & _ & _ & (_ & _ & _ & _ & Hle) & _). lia.
Qed.

(** The queue of a thread that does something else, for a message that is stamped. *)
Lemma queue_posted st u U m w p : tcbs st !! u = Some U → tcb_ok (msgs (stamped m w st)) U → sched_threads st !! p = Some u →
  status U ≠ STATUS_RECEIVE_BLOCKED →
  (queue_msg u m (stamped m w st) = Ok (0, stamped m w st) ∧ refused m w p st (stamped m w st)) ∨
  ∃ st', queue_msg u m (stamped m w st) = Ok (1, st') ∧ ∀ e, posted m w p st (set_irq_enabled e st').
Proof.
  intros HU Hok Hp Hs.
  destruct (queue_msg_effect (stamped m w st) u U m w HU Hok (lookup_insert_eq _ _ _)) as [[Hn E]|(k & l & U' & ms & Hq & Hl & E & Hq' & Hsame)].
  - left. split; [done|]. split; [|by exists w]. right. by exists u, U.
  - right. eexists. split; [exact E|]. intros e. eapply (posted_queued _ _ _ _ _ u U U' k l); try done.
    + simpl. apply lookup_insert_eq.
    + intros x Hx. simpl. by rewrite lookup_insert_ne.
Qed.

(** ** The three ways of sending *)

Section Send.
Context (idle : Z) (Q : node → list Z) (st : kstate) (t : Z) (T : thread_t) (m : mptr) (v : msg_t) (p : Z).
Hypothesis Hlive : live idle Q st t T.
Hypothesis Hm : msgs st !! m = Some v.
Hypothesis Hp : 0 <= p <= KERNEL_PID_LAST.

Definition outcome (c : M Z) : Prop :=
  let w := set_sender_pid (sender_of st) v in
  ∃ r st', c st = Ok (r, st') ∧ (r = 1 ∧ posted m w p st st' ∨ r < 1 ∧ refused m w p st st').

Let Hrun : running Q st t T := li_running _ _ _ _ _ Hlive.
Let w : msg_t := set_sender_pid (sender_of st) v.

Lemma receiver_ok u U : tcbs st !! u = Some U → tcb_ok (msgs (stamped m w st)) U.
Proof. intros HU. eapply tcb_ok_mono; [|by eapply (ipc_tcb _ _ (li_ipc _ _ _ _ _ Hlive))]. intros q. apply valid_insert. Qed.

Lemma waiting_buffer u U : thr st u U → status U = STATUS_RECEIVE_BLOCKED → ∃ b, wait_data U = WMsg b ∧ is_Some (msgs st !! b).
Proof. intros HU Hs. eapply blocked_wait; [apply Hlive|exact HU|]. unfold ipc_status. klia. Qed.

Lemma waiting_unlisted u U : thr st u U → status U = STATUS_RECEIVE_BLOCKED → ∀ q, u ∉ Q q.
Proof. intros HU Hs. eapply unlisted; [apply Hrun|exact HU|unfold unlisted_status; tauto]. Qed.

(** Nobody has the PID. *)
Lemma refused_nobody v' : sched_threads st !! p = None → refused m w p st (stamped m v' st).
Proof. intros Hn. split; [by left|by exists v']. Qed.

(** From an interrupt handler. *)
Lemma send_int_outcome : in_isr st = true → outcome (msg_send_int m p).
Proof.
  intros Hisr. unfold outcome. fold w. unfold msg_send_int.
  destruct (sched_threads st !! p) as [u|] eqn:Eu.
  2:{ exists (-1), st. kstep sched_threads_at_Ok. rewrite Eu. split; [done|]. right. split; [lia|].
      pose proof (refused_nobody v Eu) as Hr. unfold stamped in Hr. rewrite (insert_id _ _ _ Hm) in Hr. by destruct st. }
  destruct (table_thr _ _ _ _ (run_kinv _ _ _ _ Hrun) Eu) as (U & HU & _).
  kstep sched_threads_at_Ok. rewrite Eu. kstep (read_msg_Ok st m v Hm).
  erewrite bind_Ok by (apply write_msg_Ok; by exists v). cbv beta iota.
  assert (set_sender_pid KERNEL_PID_ISR v = w) as -> by (unfold w, sender_of; by rewrite Hisr).
  fold (stamped m w st). assert (tcbs (stamped m w st) !! u = Some U) as HU1 by apply HU. kget HU1.
  destruct (Z.eqb_spec (status U) STATUS_RECEIVE_BLOCKED) as [Es|Es].
  - destruct (waiting_buffer u U HU Es) as (b & Hw & Hb). rewrite Hw. ksimpl.
    assert (is_Some (msgs (stamped m w st) !! b)) as Hb1 by (by apply valid_insert).
    kstep (copy_msg_Ok (stamped m w st) b m w (lookup_insert_eq _ _ _) Hb1). set (st2 := set_msgs _ (stamped m w st)).
    assert (kinv Q st2) as Hk2 by (pose proof (run_kinv _ _ _ _ Hrun) as Hk; kenv Hk).
    destruct (sched_set_status_wake Q st2 u U STATUS_PENDING) as (h & c & E & _); [done|exact HU|klia|by apply (waiting_unlisted u U)|klia|].
    kstep E. ksimpl. eexists 1, _. split; [done|]. left. split; [done|].
    apply (posted_waiting _ _ _ _ _ u U b STATUS_PENDING);
      [done|apply HU|done|done|done|simpl; apply lookup_insert_eq|klia| |done].
    intros x X Hx HX. exists (status X). simpl. by rewrite lookup_insert_ne, set_status_id.
  - destruct (queue_posted st u U m w p (proj1 HU) (receiver_ok u U (proj1 HU)) Eu Es) as [[E Hr]|(st' & E & Hpost)].
    + rewrite E. eexists 0, _. split; [done|]. right. split; [lia|done].
    + rewrite E. exists 1, st'. split; [done|]. left. split; [done|]. specialize (Hpost (irq_enabled st')). by destruct st'.
Qed.

(** To the thread itself. *)
Lemma send_to_self_outcome : in_isr st = false → sched_active_pid st = p → outcome (msg_send_to_self m).
Proof.
  intros Hisr Hself. unfold outcome. fold w. pose proof (run_active _ _ _ _ Hrun) as Ha.
  pose proof (run_ready _ _ _ _ Hrun) as [HT HTs]. destruct (running_pid _ _ _ _ Hrun) as [Hap _].
  assert (sched_threads st !! p = Some t) as Eu by (rewrite <- Hself, Hap; apply HT).
  unfold msg_send_to_self. ksimpl. kstep (read_msg_Ok (set_irq_enabled false st) m v Hm).
  erewrite bind_Ok by (apply write_msg_Ok; by exists v). cbv beta iota. ksimpl. rewrite Ha. ksimpl.
  assert (set_sender_pid (sched_active_pid st) v = w) as -> by (unfold w, sender_of; by rewrite Hisr).
  fold (stamped m w (set_irq_enabled false st)).
  destruct (queue_posted (set_irq_enabled false st) t T m w p (proj1 HT) (receiver_ok t T (proj1 HT)) Eu ltac:(klia))
    as [[E [Hr _]]|(st' & E & Hpost)]; kstep E; ksimpl.
  - eexists 0, _. split; [done|]. right. split; [lia|]. split; [exact Hr|]. exists w. apply stamped_irq.
  - eexists 1, _. split; [done|]. left. split; [done|]. destruct (Hpost (irq_enabled st)).
    + by eapply posted_waiting.
    + by eapply posted_queued.
Qed.

(** To another thread, or to nobody. *)
Lemma send_other_outcome : in_isr st = false → sched_active_pid st ≠ p → outcome (msg_send_with m p false).
Proof.
  intros Hisr Hne. unfold outcome. fold w. destruct (running_pid _ _ _ _ Hrun) as [Hap _].
  assert (set_sender_pid (pid T) v = w) as Ew by (unfold w, sender_of; by rewrite Hisr, Hap).
  destruct (sched_threads st !! p) as [u|] eqn:Eu.
  2:{ exists (-1), (stamped m w st). split; [|right; split; [lia|by apply refused_nobody]].
      unfold msg_send_with. ksimpl. rewrite Hisr. ksimpl. rewrite (proj2 (Z.eqb_neq _ _) Hne). ksimpl. unfold _msg_send.
      kstep sched_threads_at_Ok. kproj. rewrite Eu. ksimpl. kstep (read_msg_Ok (set_irq_enabled false st) m v Hm).
      erewrite bind_Ok by (apply write_msg_Ok; by exists v). cbv beta iota. ksimpl. rewrite Hap, Ew. by rewrite <- (stamped_irq m w false st). }
  destruct (table_thr _ _ _ _ (run_kinv _ _ _ _ Hrun) Eu) as (U & HU & Epid).
  assert (pid U ≠ pid T) as Hpid by congruence. rewrite <- Epid.
  destruct (decide (status U = STATUS_RECEIVE_BLOCKED)) as [Es|Es].
  - destruct (waiting_buffer u U HU Es) as (b & Hw & Hb).
    destruct (send_direct Q st t T u U m v false Hrun Hisr HU Hpid Hm b Es Hw Hb) as (st' & E & _ & Hms & Hi' & (s & Hs & Hss) & Ho).
    exists 1, st'. split; [done|]. left. split; [done|]. rewrite Ew in Hms.
    apply (posted_waiting _ _ _ _ _ u U b s); [by rewrite Epid|apply HU|done|done|done|done|done|done|congruence].
  - rewrite (send_start Q st t T u U m v false Hrun Hisr HU Hpid Hm _ ltac:(intros ?? -> ->; reflexivity)).
    assert (sent st T m v = stamped m w (set_irq_enabled false st)) as -> by (unfold sent; by rewrite Ew).
    assert (tcbs (stamped m w (set_irq_enabled false st)) !! u = Some U) as HU1 by apply HU.
    kget HU1. rewrite (proj2 (Z.eqb_neq _ _) Es). cbn [negb].
    destruct (queue_posted (set_irq_enabled false st) u U m w p (proj1 HU) (receiver_ok u U (proj1 HU)) Eu Es)
      as [[E [Hr _]]|(st' & E & Hpost)]; kstep E.
    + change (negb (0 =? 0)) with false. cbv iota. ksimpl. eexists 0, _. split; [done|]. right. split; [lia|].
      rewrite Epid. split; [exact Hr|]. exists w. apply stamped_irq.
    + change (negb (1 =? 0)) with true. cbv iota. ksimpl. specialize (Hpost (irq_enabled st)).
      destruct (run_ready _ _ _ _ Hrun) as [HT HTs].
      destruct Hpost as [|u' U0 U' k l Eu' HU0 Hs0 Hq Hl HU' Hq' Hsame Ho Hi']; [simplify_eq|].
      { simpl in *. destruct HU. congruence. }
      simpl in Eu', HU0. assert (u' = u) as -> by congruence.
      assert (t ≠ u) as Htu by (intros ->; by rewrite (thr_fun _ _ _ _ HT HU) in Hpid).
      assert (tcbs (set_irq_enabled (irq_enabled st) st') !! t = Some T) as HT' by (rewrite Ho by done; apply HT).
      kget HT'. assert ((status T =? STATUS_REPLY_BLOCKED) = false) as -> by klia.
      eexists 1, _. split; [done|]. left. split; [done|]. rewrite Epid. by eapply posted_queued.
Qed.

(** Every call ends in one of the two ways. *)
Lemma try_send_outcome : outcome (msg_try_send m p).
Proof.
  unfold outcome, msg_try_send. destruct (in_isr st) eqn:Hisr.
  - destruct (send_int_outcome Hisr) as (r & st' & E & H). exists r, st'. split; [|done].
    unfold msg_send_with. ksimpl. by rewrite Hisr.
  - destruct (decide (sched_active_pid st = p)) as [Hself|Hne]; [|by apply send_other_outcome].
    destruct (send_to_self_outcome Hisr Hself) as (r & st' & E & H). exists r, st'. split; [|done].
    unfold msg_send_with. ksimpl. rewrite Hisr. ksimpl. by rewrite (proj2 (Z.eqb_eq _ _) Hself).
Qed.
End Send.
