(* ===== verification/Xtimer.v ===== *)
(** * sys/xtimer/xtimer_core.c: the timer multiplexer

    The lists of timers are heads and [next] members in a heap of list nodes, as
    in core/include/list.h: a pointer to a list head and a pointer to a [next]
    member are both a node. The low-level counter is read through
    [timer_read], the [n]-th read of the run; busy-waiting is bounded by [spin]
    reads. The code is compiled for [XTIMER_HZ] of at least 1 MHz, so without
    the second timer [STIMER]. *)

From S2P Require Import Prelude LinkedList.
Open Scope Z_scope.

(** ** State *)

Inductive xnode : Type :=
  | TIMER_LIST
  | OVERFLOW_LIST
  | LONG_LIST
  | NEXT (t : Z).

Global Instance xnode_eq_dec : EqDecision xnode.
Proof. solve_decision. Defined.

Global Instance xnode_countable : Countable xnode.
Proof.
  apply (inj_countable' (λ n, match n with TIMER_LIST => (0, 0) | OVERFLOW_LIST => (1, 0)
                              | LONG_LIST => (2, 0) | NEXT t => (3, t) end)
    (λ c : Z * Z, if c.1 =? 0 then TIMER_LIST else if c.1 =? 1 then OVERFLOW_LIST
                  else if c.1 =? 2 then LONG_LIST else NEXT c.2)). by intros [].
Defined.

(** [xtimer_t] without its [next] member. *)
Record xtimer_t : Type := Xtimer {
  target : Z;
  long_target : Z;
  callback : option Z;
  arg : Z
}.

Definition set_targets (a b : Z) (r : xtimer_t) : xtimer_t := Xtimer a b (callback r) (arg r).

Record xstate : Type := Xstate {
  links : gmap xnode xnode;
  timers : gmap Z xtimer_t;
  _in_handler : Z;
  _long_cnt : Z;
  _xtimer_high_cnt : Z;
  compare_ : option Z;
  reads : nat;
  fired : list (Z * nat)
}.

Definition set_links v r := Xstate v (timers r) (_in_handler r) (_long_cnt r) (_xtimer_high_cnt r) (compare_ r) (reads r) (fired r).
Definition set_timers v r := Xstate (links r) v (_in_handler r) (_long_cnt r) (_xtimer_high_cnt r) (compare_ r) (reads r) (fired r).
Definition set_in_handler v r := Xstate (links r) (timers r) v (_long_cnt r) (_xtimer_high_cnt r) (compare_ r) (reads r) (fired r).
Definition set_long_cnt v r := Xstate (links r) (timers r) (_in_handler r) v (_xtimer_high_cnt r) (compare_ r) (reads r) (fired r).
Definition set_high_cnt v r := Xstate (links r) (timers r) (_in_handler r) (_long_cnt r) v (compare_ r) (reads r) (fired r).
Definition set_compare v r := Xstate (links r) (timers r) (_in_handler r) (_long_cnt r) (_xtimer_high_cnt r) v (reads r) (fired r).
Definition set_reads v r := Xstate (links r) (timers r) (_in_handler r) (_long_cnt r) (_xtimer_high_cnt r) (compare_ r) v (fired r).
Definition set_fired v r := Xstate (links r) (timers r) (_in_handler r) (_long_cnt r) (_xtimer_high_cnt r) (compare_ r) (reads r) v.

Definition XM (A : Type) : Type := xstate → result (A * xstate).

Global Instance XM_ret : MRet XM := fun A a st => Ok (a, st).
Global Instance XM_bind : MBind XM := fun A B f m st =>
  match m st with Ok (a, st) => f a st | Fault e => Fault e end.

Definition xgets {A} (f : xstate → A) : XM A := λ st, Ok (f st, st).
Definition xmodify (f : xstate → xstate) : XM unit := λ st, Ok (tt, f st).
Definition xfault {A} (e : fault) : XM A := λ st, Fault e.
Definition xwhen (b : bool) (m : XM unit) : XM unit := if b then m else mret tt.

Definition XTIMER_BACKOFF : Z := 30.
Definition XTIMER_OVERHEAD : Z := 20.
Definition XTIMER_ISR_BACKOFF : Z := 20.

Section Xtimer.
(** The low-level timer driver, the user's callbacks, the width of the counter
    (0 for 32 bits) and the bound on busy-waiting. *)
Variables (timer_read : nat → Z) (call : Z → Z → XM unit) (XTIMER_MASK : Z) (spin : nat).

Definition get_timer (t : Z) : XM xtimer_t :=
  λ st, match timers st !! t with Some T => Ok (T, st) | None => Fault BadPointer end.
Definition modify_timer (t : Z) (f : xtimer_t → xtimer_t) : XM unit :=
  λ st, match timers st !! t with
        | Some T => Ok (tt, set_timers (<[t := f T]> (timers st)) st)
        | None => Fault BadPointer
        end.
(** The timer a [next] member or a head points to. *)
Definition timer_of (n : xnode) : XM Z :=
  match n with NEXT t => mret t | _ => xfault BadPointer end.

(** ** Reading the time *)

Definition _xtimer_lltimer_now : XM Z :=
  n ← xgets reads; _ ← xmodify (set_reads (S n)); mret (timer_read n).

Definition _xtimer_lltimer_mask (val : Z) : Z := Z.land val (u32 (Z.lnot XTIMER_MASK)).

(** Interrupts do not change [_xtimer_high_cnt] between the two reads here, so
    the loop of the masked case runs once. *)
Definition _xtimer_now : XM Z :=
  if negb (XTIMER_MASK =? 0) then
    latched_high_cnt ← xgets _xtimer_high_cnt;
    now ← _xtimer_lltimer_now;
    mret (Z.lor latched_high_cnt now)
  else _xtimer_lltimer_now.

(** [while (p(_xtimer_lltimer_now()));] *)
Fixpoint spin_while (fuel : nat) (p : Z → bool) : XM unit :=
  match fuel with
  | O => xfault OutOfFuel
  | S fuel =>
      now ← _xtimer_lltimer_now;
      if p now then spin_while fuel p else mret tt
  end.

Definition xtimer_spin_until (target : Z) : XM unit :=
  let target := if negb (XTIMER_MASK =? 0) then _xtimer_lltimer_mask target else target in
  _ ← spin_while spin (λ now, target <? now);
  spin_while spin (λ now, now <? target).

Definition _xtimer_spin (offset : Z) : XM unit :=
  start ← _xtimer_lltimer_now;
  if negb (XTIMER_MASK =? 0) then
    let offset := _xtimer_lltimer_mask offset in
    spin_while spin (λ now, _xtimer_lltimer_mask (u32 (now - start)) <? offset)
  else spin_while spin (λ now, u32 (now - start) <? offset).

(** [do ... while (before > after)] *)
Fixpoint now_internal_loop (fuel : nat) : XM (Z * Z) :=
  match fuel with
  | O => xfault OutOfFuel
  | S fuel =>
      before ← _xtimer_now;
      long_value ← xgets _long_cnt;
      after ← _xtimer_now;
      if after <? before then now_internal_loop fuel else mret (after, long_value)
  end.

Definition _xtimer_now_internal : XM (Z * Z) := now_internal_loop spin.

Definition _xtimer_now64 : XM Z :=
  r ← _xtimer_now_internal;
  mret (u64 (Z.shiftl r.2 32 + r.1)).

(** ** Lists *)

Definition _is_set (T : xtimer_t) : bool := (negb (target T =? 0) || negb (long_target T =? 0))%bool.

Definition _lltimer_set (target : Z) : XM unit :=
  h ← xgets _in_handler;
  if negb (h =? 0) then mret tt
  else xmodify (set_compare (Some (_xtimer_lltimer_mask target))).

Fixpoint add_loop (fuel : nat) (before : xtimer_t → bool) (list_head : xnode) (timer : Z) : XM unit :=
  match fuel with
  | O => xfault OutOfFuel
  | S fuel =>
      h ← xgets links;
      match h !! list_head with
      | Some n =>
          t ← timer_of n;
          T ← get_timer t;
          if before T then add_loop fuel before n timer
          else xmodify (λ st, set_links (list_add (links st) list_head (NEXT timer)) st)
      | None => xmodify (λ st, set_links (list_add (links st) list_head (NEXT timer)) st)
      end
  end.

Definition _add_timer_to_list (list_head : xnode) (timer : Z) : XM unit :=
  T ← get_timer timer;
  h ← xgets links;
  add_loop (S (size h)) (λ X, target X <=? target T) list_head timer.

Definition _add_timer_to_long_list (list_head : xnode) (timer : Z) : XM unit :=
  T ← get_timer timer;
  h ← xgets links;
  add_loop (S (size h))
    (λ X, (long_target X <? long_target T) ||
          ((long_target X =? long_target T) && (target X <=? target T)))%bool list_head timer.

Fixpoint remove_from_loop (fuel : nat) (list_head : xnode) (timer : Z) : XM Z :=
  match fuel with
  | O => xfault OutOfFuel
  | S fuel =>
      h ← xgets links;
      match h !! list_head with
      | Some n =>
          if decide (n = NEXT timer) then
            _ ← xmodify (λ st, set_links (set_next (links st) list_head (links st !! NEXT timer)) st);
            mret 1
          else remove_from_loop fuel n timer
      | None => mret 0
      end
  end.

Definition _remove_timer_from_list (list_head : xnode) (timer : Z) : XM Z :=
  h ← xgets links;
  remove_from_loop (S (size h)) list_head timer.

Definition _remove (timer : Z) : XM unit :=
  h ← xgets links;
  if decide (h !! TIMER_LIST = Some (NEXT timer)) then
    _ ← xmodify (λ st, set_links (set_next (links st) TIMER_LIST (links st !! NEXT timer)) st);
    h ← xgets links;
    next ← match h !! TIMER_LIST with
           | Some n => t ← timer_of n; T ← get_timer t; mret (u32 (target T - XTIMER_OVERHEAD))
           | None => mret (_xtimer_lltimer_mask 4294967295)
           end;
    _lltimer_set next
  else
    r ← _remove_timer_from_list TIMER_LIST timer;
    if r =? 0 then
      r ← _remove_timer_from_list OVERFLOW_LIST timer;
      if r =? 0 then _ ← _remove_timer_from_list LONG_LIST timer; mret tt else mret tt
    else mret tt.

Definition xtimer_remove (timer : Z) : XM unit :=
  T ← get_timer timer;
  xwhen (_is_set T) (_remove timer).

(** ** Setting a timer *)

Definition _this_high_period (high_cnt target : Z) : bool :=
  if negb (XTIMER_MASK =? 0) then Z.land target XTIMER_MASK =? high_cnt else true.

(** [fired] is the trace of the callbacks: the timer and the number of counter
    reads before it. *)
Definition _shoot (timer : Z) : XM unit :=
  T ← get_timer timer;
  _ ← xmodify (λ st, set_fired (fired st ++ [(timer, reads st)]) st);
  match callback T with Some f => call f (arg T) | None => xfault NullDeref end.

Definition _xtimer_set_absolute (timer target_ now_ : Z) : XM Z :=
  now ← _xtimer_now;
  _ ← xmodify (λ st, set_links (set_next (links st) (NEXT timer) None) st);
  if ((now <=? target_) && (u32 (target_ - XTIMER_BACKOFF) <? now))%bool then
    _ ← xtimer_spin_until (u32 (target_ + XTIMER_BACKOFF));
    _ ← _shoot timer;
    mret 0
  else
    T ← get_timer timer;
    _ ← xwhen (_is_set T) (_remove timer);
    long_cnt ← xgets _long_cnt;
    let lt := if target_ <? now then u32 (long_cnt + 1) else long_cnt in
    _ ← modify_timer timer (set_targets target_ lt);
    high_cnt ← xgets _xtimer_high_cnt;
    _ ← (if ((long_cnt <? lt) || negb (_this_high_period high_cnt target_))%bool then
           _ ← _add_timer_to_long_list LONG_LIST timer;
           h ← xgets links;
           xwhen (bool_decide (h !! TIMER_LIST = None)) (_lltimer_set 4294967295)
         else if target_ <=? _xtimer_lltimer_mask now then
           _ ← _add_timer_to_list OVERFLOW_LIST timer;
           h ← xgets links;
           xwhen (bool_decide (h !! TIMER_LIST = None)) (_lltimer_set 4294967295)
         else
           _ ← _add_timer_to_list TIMER_LIST timer;
           h ← xgets links;
           xwhen (bool_decide (h !! TIMER_LIST = Some (NEXT timer)))
             (_lltimer_set (u32 (target_ - XTIMER_OVERHEAD))));
    mret 0.

Definition _xtimer_set (timer offset : Z) : XM unit :=
  T ← get_timer timer;
  match callback T with
  | None => mret tt
  | Some _ =>
      _ ← xtimer_remove timer;
      if offset <? XTIMER_BACKOFF then
        _ ← _xtimer_spin offset;
        _shoot timer
      else
        now ← _xtimer_now;
        _ ← _xtimer_set_absolute timer (u32 (now + offset)) now;
        mret tt
  end.

Definition _xtimer_set64 (timer offset long_offset : Z) : XM unit :=
  if long_offset =? 0 then _xtimer_set timer offset
  else
    T ← get_timer timer;
    _ ← xwhen (_is_set T) (_remove timer);
    r ← _xtimer_now_internal;
    let tg := u32 (r.1 + offset) in
    let lt := u32 (r.2 + long_offset) in
    _ ← modify_timer timer (set_targets tg (if tg <? offset then u32 (lt + 1) else lt));
    _add_timer_to_long_list LONG_LIST timer.


(** ** The timer interrupt *)

Definition _time_left (target reference now : Z) : Z :=
  if now <? reference then 0
  else if now <? target then u32 (target - now)
  else 0.

Definition _compare (a b : option xnode) : XM (option xnode) :=
  match a, b with
  | Some x, Some y =>
      tx ← timer_of x; X ← get_timer tx;
      ty ← timer_of y; Y ← get_timer ty;
      mret (if target X <=? target Y then a else b)
  | _, _ => mret (if a then a else b)
  end.

Definition xnext (p : option xnode) : XM (option xnode) :=
  λ st, match p with Some n => Ok (links st !! n, st) | None => Fault NullDeref end.
Definition set_xnext (p : option xnode) (v : option xnode) : XM unit :=
  λ st, match p with
        | Some n => Ok (tt, set_links (set_next (links st) n v) st)
        | None => Fault NullDeref
        end.

Fixpoint merge_loop (fuel : nat) (head_a head_b pos : option xnode) : XM unit :=
  match fuel with
  | O => xfault OutOfFuel
  | S fuel =>
      head_a ← xnext head_a;
      head_b ← xnext head_b;
      if negb (bool_decide (is_Some head_a)) then set_xnext pos head_b
      else if negb (bool_decide (is_Some head_b)) then set_xnext pos head_a
      else
        next ← _compare head_a head_b;
        _ ← set_xnext pos next;
        merge_loop fuel head_a head_b next
  end.

Definition _merge_lists (head_a head_b : option xnode) : XM (option xnode) :=
  result_head ← _compare head_a head_b;
  h ← xgets links;
  _ ← merge_loop (S (size h)) head_a head_b result_head;
  mret result_head.

(** The loop that advances [long_list_head]; its value is [select_list_last]. *)
Fixpoint select_loop (fuel : nat) (select_list_last : option xnode) : XM (option xnode) :=
  match fuel with
  | O => xfault OutOfFuel
  | S fuel =>
      h ← xgets links;
      match h !! LONG_LIST with
      | Some n =>
          t ← timer_of n;
          T ← get_timer t;
          long_cnt ← xgets _long_cnt;
          high_cnt ← xgets _xtimer_high_cnt;
          if ((long_target T <=? long_cnt) && _this_high_period high_cnt (target T))%bool then
            _ ← xmodify (λ st, set_links (set_next (links st) LONG_LIST (links st !! n)) st);
            select_loop fuel (Some n)
          else mret select_list_last
      | None => mret select_list_last
      end
  end.

Definition _select_long_timers : XM unit :=
  h ← xgets links;
  let select_list_start := h !! LONG_LIST in
  select_list_last ← select_loop (S (size h)) None;
  _ ← xwhen (bool_decide (is_Some select_list_last)) (set_xnext select_list_last None);
  h ← xgets links;
  if bool_decide (is_Some (h !! TIMER_LIST)) then
    xwhen (bool_decide (is_Some select_list_last))
      (r ← _merge_lists (h !! TIMER_LIST) select_list_start;
       xmodify (λ st, set_links (set_next (links st) TIMER_LIST r) st))
  else
    xwhen (bool_decide (is_Some select_list_last))
      (xmodify (λ st, set_links (set_next (links st) TIMER_LIST select_list_start) st)).

Definition _next_period : XM unit :=
  _ ← (if negb (XTIMER_MASK =? 0) then
         _ ← xmodify (λ st,
               set_high_cnt (u32 (_xtimer_high_cnt st + u32 (u32 (Z.lnot XTIMER_MASK) + 1))) st);
         high_cnt ← xgets _xtimer_high_cnt;
         xwhen (high_cnt =? 0) (xmodify (λ st, set_long_cnt (u32 (_long_cnt st + 1)) st))
       else xmodify (λ st, set_long_cnt (u32 (_long_cnt st + 1)) st));
  _ ← xmodify (λ st, set_links (set_next (links st) TIMER_LIST (links st !! OVERFLOW_LIST)) st);
  _ ← xmodify (λ st, set_links (set_next (links st) OVERFLOW_LIST None) st);
  _select_long_timers.

(** [while ((reference = _xtimer_lltimer_now()) == _xtimer_lltimer_mask(0xFFFFFFFF)) {}] *)
Fixpoint reference_loop (fuel : nat) : XM Z :=
  match fuel with
  | O => xfault OutOfFuel
  | S fuel =>
      reference ← _xtimer_lltimer_now;
      if reference =? _xtimer_lltimer_mask 4294967295 then reference_loop fuel
      else mret reference
  end.

(** [while (_time_left(...)) { now = _xtimer_lltimer_now(); }] *)
Fixpoint wait_loop (fuel : nat) (target reference now : Z) : XM Z :=
  match fuel with
  | O => xfault OutOfFuel
  | S fuel =>
      if negb (_time_left target reference now =? 0) then
        now ← _xtimer_lltimer_now;
        wait_loop fuel target reference now
      else mret now
  end.

(** The body of the loop that fires the timers that are due; the value is [now]. *)
Definition fire_head (timer reference now : Z) : XM Z :=
  T ← get_timer timer;
  now ← wait_loop spin (_xtimer_lltimer_mask (target T)) reference now;
  _ ← xmodify (λ st, set_links (set_next (links st) TIMER_LIST (links st !! NEXT timer)) st);
  _ ← modify_timer timer (set_targets 0 0);
  _ ← _shoot timer;
  _xtimer_lltimer_now.

Fixpoint fire_loop (fuel : nat) (reference now : Z) : XM Z :=
  match fuel with
  | O => xfault OutOfFuel
  | S fuel =>
      h ← xgets links;
      match h !! TIMER_LIST with
      | Some n =>
          timer ← timer_of n;
          T ← get_timer timer;
          if _time_left (_xtimer_lltimer_mask (target T)) reference now <? XTIMER_ISR_BACKOFF then
            now ← fire_head timer reference now;
            fire_loop fuel reference now
          else mret now
      | None => mret now
      end
  end.

(** The code from the label [overflow] on; a [goto overflow] is a recursive call. *)
Fixpoint overflow_loop (fuel : nat) (reference now : Z) : XM unit :=
  match fuel with
  | O => xfault OutOfFuel
  | S fuel =>
      let advance := _ ← _next_period; now ← _xtimer_lltimer_now; overflow_loop fuel 0 now in
      now ← fire_loop spin reference now;
      if now <? reference then advance
      else
        h ← xgets links;
        match h !! TIMER_LIST with
        | Some n =>
            t ← timer_of n;
            T ← get_timer t;
            let next_target := u32 (target T - XTIMER_OVERHEAD) in
            if next_target <? u32 (now + XTIMER_ISR_BACKOFF) then
              now ← _xtimer_lltimer_now;
              overflow_loop fuel reference now
            else
              _ ← xmodify (set_in_handler 0);
              _lltimer_set next_target
        | None =>
            now ← _xtimer_lltimer_now;
            if now <? reference then advance
            else if _xtimer_lltimer_mask (u32 (now + XTIMER_ISR_BACKOFF)) <? now then
              _ ← spin_while spin (λ n, now <=? n);
              advance
            else
              _ ← xmodify (set_in_handler 0);
              h ← xgets links;
              xwhen (bool_decide (is_Some (h !! OVERFLOW_LIST)) || bool_decide (is_Some (h !! LONG_LIST)))%bool
                (_lltimer_set 4294967295)
        end
  end.

Definition _timer_callback : XM unit :=
  _ ← xmodify (set_in_handler 1);
  h ← xgets links;
  reference ← (if bool_decide (h !! TIMER_LIST = None) then
                 _ ← _next_period;
                 reference_loop spin
               else _xtimer_lltimer_now);
  overflow_loop spin reference reference.

Definition _periph_timer_callback (arg chan : Z) : XM unit := _timer_callback.

(** [timer_init] only sets up the hardware. *)
Definition xtimer_init : XM unit := _lltimer_set 4294967295.

End Xtimer.

(** The state after static initialisation. *)
Definition xtimer_boot (ts : gmap Z xtimer_t) : xstate := Xstate ∅ ts 0 0 0 None 0 [].

(** ** Running the monad *)

Lemma xbind_Ok {A B} (m : XM A) (f : A → XM B) st a st' :
  m st = Ok (a, st') → (m ≫= f) st = f a st'.
Proof. intros E. unfold mbind, XM_bind. by rewrite E. Qed.
Lemma xbind_gets {A B} (f : xstate → A) (k : A → XM B) st : (xgets f ≫= k) st = k (f st) st.
Proof. done. Qed.
Lemma xbind_modify {B} f (k : unit → XM B) st : (xmodify f ≫= k) st = k tt (f st).
Proof. done. Qed.
Lemma xbind_ret {A B} (a : A) (k : A → XM B) st : (mret a ≫= k) st = k a st.
Proof. done. Qed.
Lemma xbind_timer_of {B} t (k : Z → XM B) st : (timer_of (NEXT t) ≫= k) st = k t st.
Proof. done. Qed.
Lemma xbind_when_true {B} m (k : unit → XM B) st : (xwhen true m ≫= k) st = (m ≫= k) st.
Proof. done. Qed.
Lemma xbind_when_false {B} m (k : unit → XM B) st : (xwhen false m ≫= k) st = k tt st.
Proof. done. Qed.
Lemma xbind_assoc {A B C} (m : XM A) (f : A → XM B) (g : B → XM C) st :
  ((m ≫= f) ≫= g) st = (m ≫= λ x, f x ≫= g) st.
Proof. unfold mbind, XM_bind. by destruct (m st) as [[a st']|]. Qed.

Create HintDb xrun.
Global Hint Rewrite @xbind_gets @xbind_modify @xbind_ret @xbind_timer_of @xbind_when_true
  @xbind_when_false @xbind_assoc : xrun.

Ltac xproj :=
  cbn [negb fst snd orb andb links timers _in_handler _long_cnt _xtimer_high_cnt compare_ reads fired
       set_links set_timers set_in_handler set_long_cnt set_high_cnt set_compare set_reads set_fired
       target long_target callback arg set_targets].
Ltac xsimpl := repeat (progress (autorewrite with xrun; xproj)).

Lemma get_timer_Ok st t T : timers st !! t = Some T → get_timer t st = Ok (T, st).
Proof. intros E. unfold get_timer. by rewrite E. Qed.
Lemma modify_timer_Ok st t T f :
  timers st !! t = Some T → modify_timer t f st = Ok (tt, set_timers (<[t := f T]> (timers st)) st).
Proof. intros E. unfold modify_timer. by rewrite E. Qed.
Lemma lltimer_now_Ok rd st : _xtimer_lltimer_now rd st = Ok (rd (reads st), set_reads (S (reads st)) st).
Proof. done. Qed.

Tactic Notation "xstep" uconstr(E) := erewrite xbind_Ok by (by eapply E); cbv beta iota zeta.

Lemma links_set_links st : set_links (links st) st = st.
Proof. by destruct st. Qed.

(** ** The timer lists as sequences *)

Definition is_head (n : xnode) : bool := match n with NEXT _ => false | _ => true end.

(** The order of a list: the [long_target] comes first on the long list. *)
Definition key (ts : gmap Z xtimer_t) (q : xnode) (t : Z) : Z :=
  match ts !! t with
  | Some T => match q with LONG_LIST => long_target T * 4294967296 + target T | _ => target T end
  | None => 0
  end.

Definition u32_ok (z : Z) : Prop := 0 <= z < 4294967296.

Global Instance NEXT_inj : Inj (=) (=) NEXT.
Proof. by intros x y [= ->]. Qed.

Lemma elem_of_NEXT t (l : list Z) : NEXT t ∈ NEXT <$> l ↔ t ∈ l.
Proof. apply (list_elem_of_fmap_inj NEXT). Qed.

Lemma filter_NEXT t (l : list Z) : filter (.≠ NEXT t) (NEXT <$> l) = NEXT <$> filter (.≠ t) l.
Proof.
  induction l as [|u l IH]; [done|]. rewrite fmap_cons, !filter_cons.
  destruct (decide (u = t)) as [->|]; [by rewrite !decide_False by naive_solver|].
  rewrite !decide_True by naive_solver. by rewrite fmap_cons, IH.
Qed.

(** Each list holds a sequence of timers, sorted; no timer is on two lists, all
    have a callback and are marked as set; the long list is for later periods. *)
Record xinv (Q : xnode → list Z) (st : xstate) : Prop := {
  x_rep : ∀ q, is_head q = true → is_list (links st) q (NEXT <$> Q q);
  x_disj : ∀ q q' t, is_head q = true → is_head q' = true → t ∈ Q q → t ∈ Q q' → q = q';
  x_timer : ∀ q t, is_head q = true → t ∈ Q q → ∃ T, timers st !! t = Some T ∧
    _is_set T = true ∧ is_Some (callback T) ∧ u32_ok (target T) ∧ u32_ok (long_target T) ∧
    (q = LONG_LIST → _long_cnt st < long_target T);
  x_sorted : ∀ q, is_head q = true → sorted_by (key (timers st) q) (Q q)
}.

Lemma xinv_length Q st q : xinv Q st → is_head q = true → (length (Q q) < S (size (links st)))%nat.
Proof.
  intros Hx Hq. destruct (x_rep _ _ Hx q Hq) as (Hnd & Hp & _).
  apply path_length in Hp; [|done]. rewrite length_fmap in Hp. lia.
Qed.

(** Replacing one list: the other lists are untouched, its members are old ones
    or are new to all lists. *)
Lemma xinv_queue Q st h' q l :
  xinv Q st → is_head q = true → is_list h' q (NEXT <$> l) →
  (∀ y, y ≠ q → y ∉ NEXT <$> (Q q ++ l) → h' !! y = links st !! y) →
  (∀ t, t ∈ l → t ∈ Q q ∨ (∀ q', is_head q' = true → t ∉ Q q') ∧ ∃ T, timers st !! t = Some T ∧
     _is_set T = true ∧ is_Some (callback T) ∧ u32_ok (target T) ∧ u32_ok (long_target T) ∧
     (q = LONG_LIST → _long_cnt st < long_target T)) →
  sorted_by (key (timers st) q) l →
  xinv (<[q := l]> Q) (set_links h' st).
Proof.
  intros Hx Hq Hl Hfr Hmem Hsort.
  assert (Hoth : ∀ q' t, is_head q' = true → q' ≠ q → t ∈ Q q' → t ∉ Q q ++ l).
  { intros q' t Hq' Hne Ht [Hin|Hin]%elem_of_app; [by apply Hne, (x_disj _ _ Hx q' q t)|].
    destruct (Hmem _ Hin) as [Hin'|[Hn _]]; [by apply Hne, (x_disj _ _ Hx q' q t)|by apply (Hn q')]. }
  split.
  - intros q' Hq'. xproj. destruct (decide (q = q')) as [<-|Hne]; [by rewrite fn_lookup_insert|].
    rewrite fn_lookup_insert_ne by done. apply (is_list_frame (links st)); [|by apply (x_rep _ _ Hx)].
    intros y Hy. apply Hfr.
    + apply elem_of_cons in Hy as [->|(t & -> & _)%list_elem_of_fmap]; [done|by intros <-].
    + intros (t & -> & Ht)%list_elem_of_fmap. apply elem_of_cons in Hy as [<-|Hy%elem_of_NEXT]; [done|].
      by apply (Hoth q' t).
  - intros q1 q2 t H1 H2.
    destruct (decide (q = q1)) as [<-|N1], (decide (q = q2)) as [<-|N2];
      rewrite ?fn_lookup_insert, ?fn_lookup_insert_ne by done; try done.
    + intros Hin Hin'. exfalso. apply (Hoth q2 t); [done..|set_solver].
    + intros Hin Hin'. exfalso. apply (Hoth q1 t); [done..|set_solver].
    + by apply (x_disj _ _ Hx).
  - intros q' t Hq' Ht. xproj. destruct (decide (q = q')) as [<-|Hne].
    + rewrite fn_lookup_insert in Ht. destruct (Hmem _ Ht) as [Hin|[_ HT]]; [|done].
      by apply (x_timer _ _ Hx).
    + rewrite fn_lookup_insert_ne in Ht by done. by apply (x_timer _ _ Hx).
  - intros q' Hq'. xproj. destruct (decide (q = q')) as [<-|Hne]; [by rewrite fn_lookup_insert|].
    rewrite fn_lookup_insert_ne by done. by apply (x_sorted _ _ Hx).
Qed.

(** Timers that are on no list can be changed freely. *)
Lemma xinv_unlinked Q st t T :
  xinv Q st → (∀ q, is_head q = true → t ∉ Q q) →
  xinv Q (set_timers (<[t := T]> (timers st)) st).
Proof.
  intros Hx Hn.
  assert (Hk : ∀ q u, is_head q = true → u ∈ Q q → <[t := T]> (timers st) !! u = timers st !! u).
  { intros q u Hq Hu. rewrite lookup_insert_ne; [done|]. intros <-. by apply (Hn q). }
  split; xproj.
  - apply (x_rep _ _ Hx).
  - apply (x_disj _ _ Hx).
  - intros q u Hq Hu. rewrite (Hk q u) by done. by apply (x_timer _ _ Hx).
  - intros q Hq. eapply sorted_by_mono; [|by apply (x_sorted _ _ Hx)].
    intros u v Hu Hv. unfold key. by rewrite (Hk q u), (Hk q v).
Qed.

Lemma xinv_env Q st st' :
  xinv Q st → links st' = links st → timers st' = timers st → _long_cnt st' = _long_cnt st → xinv Q st'.
Proof. intros [] E1 E2 E3. split; rewrite ?E1, ?E2, ?E3; auto. Qed.

(** [timer->next = NULL] on a timer that is on no list. *)
Lemma xinv_clear_next Q st t :
  xinv Q st → (∀ q, is_head q = true → t ∉ Q q) →
  xinv Q (set_links (set_next (links st) (NEXT t) None) st).
Proof.
  intros Hx Hn. split; xproj; [|apply (x_disj _ _ Hx)|apply (x_timer _ _ Hx)|apply (x_sorted _ _ Hx)].
  intros q Hq. apply (is_list_frame (links st)); [|by apply (x_rep _ _ Hx)].
  intros y Hy. rewrite set_next_other; [done|]. intros <-.
  apply elem_of_cons in Hy as [<-|Hy%elem_of_NEXT]; [done|by apply (Hn q)].
Qed.

(** ** Adding to and removing from the lists *)

Lemma add_loop_spec st before k t l fuel hd_ :
  is_list (links st) hd_ (NEXT <$> l) → (length l < fuel)%nat → NEXT t ∉ hd_ :: (NEXT <$> l) →
  (∀ u, u ∈ l → ∃ U, timers st !! u = Some U ∧ before U = negb (k t <? k u)) →
  ∃ h', add_loop fuel before hd_ t st = Ok (tt, set_links h' st) ∧
    is_list h' hd_ (NEXT <$> insert_by k t l) ∧
    ∀ y, y ≠ hd_ → y ∉ NEXT <$> (t :: l) → h' !! y = links st !! y.
Proof.
  revert fuel hd_. induction l as [|u l IH]; intros [|fuel] hd_ Hl Hfuel Ht Hbef; try (simpl in Hfuel; lia).
  - exists (list_add (links st) hd_ (NEXT t)). simpl. xsimpl.
    pose proof Hl as (_ & _ & He). simpl in He. rewrite He. split; [done|]. split.
    + by apply (list_add_spec _ _ [] []).
    + intros y Hy Hin. unfold list_add. rewrite !set_next_other; [done|set_solver|done].
  - destruct (Hbef u) as (U & HU & Hb); [set_solver|].
    pose proof Hl as (Hnd & [Hu Hp] & He). simpl add_loop. xsimpl. rewrite Hu. xsimpl.
    xstep (get_timer_Ok). rewrite Hb. simpl insert_by. destruct (k t <? k u); cbn [negb].
    + exists (list_add (links st) hd_ (NEXT t)). split; [done|]. split.
      * rewrite fmap_cons. by apply (list_add_spec (links st) hd_ [] (NEXT <$> u :: l)).
      * intros y Hy Hin. unfold list_add. rewrite !set_next_other; [done|set_solver|done].
    + destruct (IH fuel (NEXT u)) as (h' & -> & Hl' & Hfr).
      { by eapply is_list_sub. } { simpl in Hfuel. lia. } { set_solver. } { set_solver. }
      apply NoDup_cons in Hnd as [Hn _]. assert (hd_ ∉ NEXT <$> t :: l) by set_solver.
      exists h'. split; [done|]. rewrite fmap_cons. split.
      * eapply is_list_cons; [by rewrite fmap_cons in Hl| done | |].
        -- apply Hfr; [set_solver|done].
        -- intros (v & -> & Hv)%list_elem_of_fmap. apply elem_of_insert_by in Hv. set_solver.
      * intros y Hy Hin. apply Hfr; set_solver.
Qed.

Lemma remove_from_loop_eq fuel st hd_ t :
  remove_from_loop fuel hd_ t st =
  match list_remove_loop fuel (links st) hd_ (NEXT t) with
  | Ok (o, h') => Ok (b2z (bool_decide (is_Some o)), set_links h' st)
  | Fault e => Fault e
  end.
Proof.
  revert hd_. induction fuel as [|fuel IH]; intros hd_; [done|]. simpl. xsimpl.
  destruct (links st !! hd_) as [n|]; [|by rewrite links_set_links]. by destruct (decide (n = NEXT t)).
Qed.

Lemma remove_from_list_spec Q st q t :
  xinv Q st → is_head q = true →
  ∃ h', _remove_timer_from_list q t st = Ok (b2z (bool_decide (t ∈ Q q)), set_links h' st) ∧
        xinv (<[q := filter (.≠ t) (Q q)]> Q) (set_links h' st).
Proof.
  intros Hx Hq. pose proof (x_rep _ _ Hx q Hq) as Hl.
  destruct (list_remove_loop_spec (S (size (links st))) (links st) q (NEXT <$> Q q) (NEXT t))
    as (h' & E & Hl' & Hfr); [done|rewrite length_fmap; by apply xinv_length|by intros <-|].
  exists h'. unfold _remove_timer_from_list. xsimpl. rewrite remove_from_loop_eq, E. split.
  - do 3 f_equal. apply bool_decide_ext. rewrite <- elem_of_NEXT. case_decide; split; try done.
  - rewrite filter_NEXT in Hl'. apply xinv_queue; [done..| | |].
    + intros y Hy Hn. apply Hfr. rewrite fmap_app in Hn. set_solver.
    + intros u Hu. left. by apply list_elem_of_filter in Hu as [_ ?].
    + apply sorted_by_filter. by apply (x_sorted _ _ Hx).
Qed.

(** ** Removing a timer *)

(** Only the sequences of the three heads matter. *)
Lemma xinv_ext Q Q' st : (∀ q, is_head q = true → Q q = Q' q) → xinv Q st → xinv Q' st.
Proof.
  intros HQ Hx. split.
  - intros q Hq. rewrite <- HQ by done. by apply (x_rep _ _ Hx).
  - intros q q' t Hq Hq'. rewrite <- !HQ by done. by apply (x_disj _ _ Hx).
  - intros q t Hq. rewrite <- HQ by done. by apply (x_timer _ _ Hx).
  - intros q Hq. rewrite <- HQ by done. by apply (x_sorted _ _ Hx).
Qed.

Lemma xinv_same Q st q l : xinv Q st → Q q = l → xinv (<[q := l]> Q) st.
Proof.
  intros Hx <-. revert Hx. apply xinv_ext. intros q' _.
  destruct (decide (q = q')) as [<-|]; [by rewrite fn_lookup_insert|by rewrite fn_lookup_insert_ne].
Qed.

Lemma xinv_twice Q st q l l' : xinv (<[q := l']> (<[q := l]> Q)) st → xinv (<[q := l']> Q) st.
Proof.
  apply xinv_ext. intros q' _.
  destruct (decide (q = q')) as [<-|]; [by rewrite !fn_lookup_insert|by rewrite !fn_lookup_insert_ne].
Qed.

Definition without (t : Z) (Q : xnode → list Z) : xnode → list Z := λ q, filter (.≠ t) (Q q).

Lemma filter_ne_id (t : Z) (l : list Z) : t ∉ l → filter (.≠ t) l = l.
Proof. intros Hn. apply filter_all. intros x Hx ->. done. Qed.

Lemma xinv_links Q st q : xinv Q st → is_head q = true → links st !! q = NEXT <$> head (Q q).
Proof.
  intros Hx Hq. destruct (x_rep _ _ Hx q Hq) as (_ & Hp & He).
  destruct (Q q) as [|u l]; [exact He|]. by destruct Hp as [Hp _].
Qed.

Lemma xinv_NoDup Q st q : xinv Q st → is_head q = true → NoDup (Q q).
Proof.
  intros Hx Hq. destruct (x_rep _ _ Hx q Hq) as (Hnd & _).
  apply NoDup_cons in Hnd as [_ Hnd]. by apply NoDup_fmap_1 in Hnd.
Qed.

Lemma lltimer_set_Ok mask a st :
  ∃ c, _lltimer_set mask a st = Ok (tt, set_compare c st).
Proof.
  unfold _lltimer_set. xsimpl. case_match; [|by eexists].
  exists (compare_ st). by destruct st.
Qed.

Lemma set_links_compare h st : set_compare (compare_ st) (set_links h st) = set_links h st.
Proof. by destruct st. Qed.

(** Advancing [timer_list_head] past the first timer. *)
Lemma pop_head Q st t l :
  xinv Q st → Q TIMER_LIST = t :: l →
  let st' := set_links (set_next (links st) TIMER_LIST (links st !! NEXT t)) st in
  xinv (<[TIMER_LIST := l]> Q) st' ∧ ∀ q, is_head q = true → t ∉ (<[TIMER_LIST := l]> Q) q.
Proof.
  intros Hx EQ st'. pose proof (x_rep _ _ Hx TIMER_LIST eq_refl) as Hl. rewrite EQ in Hl.
  destruct (list_remove_head_cons _ _ _ _ Hl) as [_ Hl'].
  pose proof (xinv_NoDup _ _ TIMER_LIST Hx eq_refl) as Hnd. rewrite EQ in Hnd.
  apply NoDup_cons in Hnd as [Hn _]. split.
  - apply xinv_queue; [done..| | |].
    + intros y Hy _. by rewrite set_next_other.
    + intros v Hv. left. rewrite EQ. set_solver.
    + pose proof (x_sorted _ _ Hx TIMER_LIST eq_refl) as Hs. rewrite EQ in Hs.
      by apply StronglySorted_inv in Hs as [? _].
  - intros q Hq. destruct (decide (q = TIMER_LIST)) as [->|Hne]; [by rewrite fn_lookup_insert|].
    rewrite fn_lookup_insert_ne by done. intros Hin.
    apply Hne, (x_disj _ _ Hx q TIMER_LIST t); [done..|]. rewrite EQ. set_solver.
Qed.

(** One attempt of [_remove]: the timer is taken off, or it was not on the list. *)
Lemma remove_step Q st q t :
  xinv Q st → is_head q = true →
  ∃ h', (_remove_timer_from_list q t st = Ok (1, set_links h' st) ∧ xinv (without t Q) (set_links h' st)) ∨
        (_remove_timer_from_list q t st = Ok (0, set_links h' st) ∧ xinv Q (set_links h' st) ∧ t ∉ Q q).
Proof.
  intros Hx Hq. destruct (remove_from_list_spec Q st q t Hx Hq) as (h' & E & Hx'). exists h'.
  destruct (decide (t ∈ Q q)) as [Hin|Hn].
  - left. rewrite bool_decide_eq_true_2 in E by done. split; [done|].
    revert Hx'. apply xinv_ext. intros q' Hq'. unfold without.
    destruct (decide (q = q')) as [<-|Hne]; [by rewrite fn_lookup_insert|].
    rewrite fn_lookup_insert_ne by done. symmetry. apply filter_ne_id. intros Hin'.
    by apply Hne, (x_disj _ _ Hx q q' t).
  - right. rewrite bool_decide_eq_false_2 in E by done. split; [done|]. split; [|done].
    revert Hx'. apply xinv_ext. intros q' Hq'. destruct (decide (q = q')) as [<-|Hne].
    + rewrite fn_lookup_insert. by apply filter_ne_id.
    + by rewrite fn_lookup_insert_ne.
Qed.

(** [_remove] takes the timer off the list it is on, if any. *)
Lemma _remove_spec mask Q st t :
  xinv Q st →
  ∃ h' c, _remove mask t st = Ok (tt, set_compare c (set_links h' st)) ∧
          xinv (without t Q) (set_compare c (set_links h' st)).
Proof.
  intros Hx. unfold _remove. xsimpl. rewrite (xinv_links Q) by done. case_decide as Hhd.
  - destruct (Q TIMER_LIST) as [|u l] eqn:EQ; [done|]. simpl in Hhd. simplify_eq.
    destruct (pop_head Q st t l Hx EQ) as [Hx' Hn].
    set (h' := set_next (links st) TIMER_LIST (links st !! NEXT t)) in *.
    assert (Hx'' : xinv (without t Q) (set_links h' st)).
    { revert Hx'. apply xinv_ext. intros q Hq. unfold without. specialize (Hn q Hq).
      destruct (decide (q = TIMER_LIST)) as [->|Hne].
      - rewrite fn_lookup_insert in *. rewrite EQ, filter_cons_False by naive_solver. by rewrite filter_ne_id.
      - rewrite fn_lookup_insert_ne in * by done. by rewrite filter_ne_id. }
    pose proof (xinv_links _ _ TIMER_LIST Hx' eq_refl) as Hlk. rewrite fn_lookup_insert in Hlk.
    change (links (set_links h' st)) with h' in Hlk. xsimpl. fold h'. rewrite Hlk. exists h'.
    destruct l as [|v l]; simpl fmap; cbv iota; xsimpl.
    + destruct (lltimer_set_Ok mask (_xtimer_lltimer_mask mask 4294967295) (set_links h' st)) as [c ->].
      exists c. split; [done|]. by eapply xinv_env.
    + destruct (x_timer _ _ Hx' TIMER_LIST v) as (V & HV & _); [done|rewrite fn_lookup_insert; set_solver|].
      xstep (get_timer_Ok _ _ _ HV). xsimpl.
      destruct (lltimer_set_Ok mask (u32 (target V - XTIMER_OVERHEAD)) (set_links h' st)) as [c ->].
      exists c. split; [done|]. by eapply xinv_env.
  - destruct (remove_step Q st TIMER_LIST t Hx eq_refl) as (h1 & [[E1 Hx1]|(E1 & Hx1 & Hn1)]);
      rewrite (xbind_Ok _ _ _ _ _ E1); cbv beta; simpl (_ =? 0); cbv iota.
    { exists h1, (compare_ st). by rewrite set_links_compare. }
    destruct (remove_step Q _ OVERFLOW_LIST t Hx1 eq_refl) as (h2 & [[E2 Hx2]|(E2 & Hx2 & Hn2)]);
      rewrite (xbind_Ok _ _ _ _ _ E2); cbv beta; simpl (_ =? 0); cbv iota.
    { exists h2, (compare_ st). by rewrite set_links_compare. }
    destruct (remove_step Q _ LONG_LIST t Hx2 eq_refl) as (h3 & [[E3 Hx3]|(E3 & Hx3 & Hn3)]);
      rewrite (xbind_Ok _ _ _ _ _ E3); exists h3, (compare_ st); rewrite set_links_compare;
      (split; [done|]); [done|].
    revert Hx3. apply xinv_ext. intros q Hq. unfold without. symmetry. apply filter_ne_id.
    by destruct q.
Qed.

(** ** Setting a timer *)

(** What a timer must be to go on list [q]. *)
Definition settable (st : xstate) (q : xnode) (T : xtimer_t) : Prop :=
  _is_set T = true ∧ is_Some (callback T) ∧ u32_ok (target T) ∧ u32_ok (long_target T) ∧
  (q = LONG_LIST → _long_cnt st < long_target T).

Lemma add_sorted Q st q t T before :
  xinv Q st → is_head q = true → timers st !! t = Some T → settable st q T →
  (∀ q', is_head q' = true → t ∉ Q q') →
  (∀ u U, u ∈ Q q → timers st !! u = Some U → u32_ok (target U) →
     before U = negb (key (timers st) q t <? key (timers st) q u)) →
  ∃ h', add_loop (S (size (links st))) before q t st = Ok (tt, set_links h' st) ∧
        xinv (<[q := insert_by (key (timers st) q) t (Q q)]> Q) (set_links h' st).
Proof.
  intros Hx Hq HT HTok Hn Hbef.
  destruct (add_loop_spec st before (key (timers st) q) t (Q q) (S (size (links st))) q)
    as (h' & E & Hl & Hfr).
  - by apply (x_rep _ _ Hx).
  - by apply xinv_length.
  - intros [Eq|Hin%elem_of_NEXT]%elem_of_cons; [by subst q|by apply (Hn q)].
  - intros u Hu. destruct (x_timer _ _ Hx q u Hq Hu) as (U & HU & _ & _ & Ht & _). eauto.
  - exists h'. split; [done|]. apply xinv_queue; [done|done|done| | |].
    + intros y Hy Hin. apply Hfr; [done|]. intros (v & -> & Hv)%list_elem_of_fmap.
      apply Hin, elem_of_NEXT, elem_of_app.
      apply elem_of_cons in Hv as [->|Hv]; [right; apply elem_of_insert_by; by left|by left].
    + intros u [->|Hu]%elem_of_insert_by; [right|by left]. split; [done|]. by exists T.
    + apply insert_by_sorted. by apply (x_sorted _ _ Hx).
Qed.

Lemma add_timer_to_list_spec Q st t T :
  xinv Q st → timers st !! t = Some T → settable st TIMER_LIST T →
  (∀ q', is_head q' = true → t ∉ Q q') →
  ∃ h', _add_timer_to_list TIMER_LIST t st = Ok (tt, set_links h' st) ∧
        xinv (<[TIMER_LIST := insert_by (key (timers st) TIMER_LIST) t (Q TIMER_LIST)]> Q) (set_links h' st).
Proof.
  intros Hx HT Hs Hn. unfold _add_timer_to_list. xstep (get_timer_Ok _ _ _ HT). xsimpl.
  eapply add_sorted; [done..|]. intros u U Hu HU _. unfold key. rewrite HT, HU. lia.
Qed.

Lemma add_timer_to_long_list_spec Q st t T :
  xinv Q st → timers st !! t = Some T → settable st LONG_LIST T →
  (∀ q', is_head q' = true → t ∉ Q q') →
  ∃ h', _add_timer_to_long_list LONG_LIST t st = Ok (tt, set_links h' st) ∧
        xinv (<[LONG_LIST := insert_by (key (timers st) LONG_LIST) t (Q LONG_LIST)]> Q) (set_links h' st).
Proof.
  intros Hx HT Hs Hn. unfold _add_timer_to_long_list. xstep (get_timer_Ok _ _ _ HT). xsimpl.
  eapply add_sorted; [done..|]. intros u U Hu HU Hok. unfold key. rewrite HT, HU.
  destruct Hs as (_ & _ & ? & _). unfold u32_ok in *. lia.
Qed.

Lemma lltimer_mask_0 z : u32_ok z → _xtimer_lltimer_mask 0 z = z.
Proof.
  intros Hz. unfold _xtimer_lltimer_mask, u32_ok in *. change (u32 (Z.lnot 0)) with (Z.ones 32).
  rewrite Z.land_ones by lia. apply Z.mod_small. lia.
Qed.

(** The list a timer goes to on a 32-bit counter. *)
Definition dest (tgt now : Z) : xnode := if tgt <? now then LONG_LIST else TIMER_LIST.

Section Set32.
Variables (rd : nat → Z) (call : Z → Z → XM unit) (spin : nat).
Hypothesis rd_u32 : ∀ n, u32_ok (rd n).

(** Setting a timer that is on no list, when its target is not about to expire. *)
Lemma set_absolute_spec Q st t T tgt a :
  xinv Q st → timers st !! t = Some T → is_Some (callback T) →
  (∀ q, is_head q = true → t ∉ Q q) →
  u32_ok tgt → 0 <= _long_cnt st → _long_cnt st + 1 < 4294967296 →
  tgt < rd (reads st) ∨ rd (reads st) + XTIMER_BACKOFF <= tgt →
  let now := rd (reads st) in
  ∃ st', _xtimer_set_absolute rd call 0 spin t tgt a st = Ok (0, st') ∧
    timers st' = <[t := set_targets tgt (if tgt <? now then _long_cnt st + 1 else _long_cnt st) T]> (timers st) ∧
    fired st' = fired st ∧ _long_cnt st' = _long_cnt st ∧ reads st' = S (reads st) ∧
    xinv (<[dest tgt now := insert_by (key (timers st') (dest tgt now)) t (Q (dest tgt now))]> Q) st'.
Proof.
  intros Hx HT Hcb Hn Htg Hlc Hlc' Hnow now. unfold XTIMER_BACKOFF in *.
  pose proof (rd_u32 (reads st)) as Hrd. fold now in Hrd, Hnow. unfold u32_ok in *.
  unfold _xtimer_set_absolute, _xtimer_now. simpl (negb (0 =? 0)). cbv iota.
  xstep lltimer_now_Ok. fold now. xsimpl. set (st1 := set_reads _ _).
  assert (Hx1 : xinv Q st1) by (by eapply xinv_env).
  set (st2 := set_links _ st1).
  assert (Hx2 : xinv Q st2) by (by apply (xinv_clear_next Q st1)).
  assert (((now <=? tgt) && (u32 (tgt - XTIMER_BACKOFF) <? now))%bool = false) as ->.
  { destruct (Z.leb_spec now tgt); [|done]. unfold u32, XTIMER_BACKOFF. rewrite Z.mod_small; lia. }
  xstep (get_timer_Ok st2 _ _ HT).
  assert (∃ h3 c3, (xwhen (_is_set T) (_remove 0 t)) st2 = Ok (tt, set_compare c3 (set_links h3 st2)) ∧
            xinv Q (set_compare c3 (set_links h3 st2))) as (h3 & c3 & E3 & Hx3).
  { destruct (_is_set T); simpl.
    - destruct (_remove_spec 0 Q st2 t Hx2) as (h3 & c3 & E3 & Hx3). exists h3, c3. split; [done|].
      revert Hx3. apply xinv_ext. intros q Hq. apply filter_ne_id. by apply Hn.
    - exists (links st2), (compare_ st2). split; [|by eapply xinv_env].
      by destruct st2. }
  rewrite (xbind_Ok _ _ _ _ _ E3). set (st3 := set_compare c3 _) in *. xsimpl.
  change (_long_cnt st3) with (_long_cnt st).
  set (lt := if tgt <? now then _ else _).
  assert (lt = if tgt <? now then _long_cnt st + 1 else _long_cnt st) as Hlt.
  { unfold lt. destruct (tgt <? now); [|done]. unfold u32. rewrite Z.mod_small; lia. }
  clearbody lt. rewrite (xbind_Ok _ _ _ _ _ (modify_timer_Ok st3 t T _ HT)). rewrite <- Hlt.
  set (st4 := set_timers _ st3). set (T' := set_targets tgt lt T).
  assert (HT4 : timers st4 !! t = Some T') by apply lookup_insert_eq.
  assert (Hx4 : xinv Q st4) by (by apply xinv_unlinked). xsimpl.
  assert (((_long_cnt st <? lt) || negb (_this_high_period 0 (_xtimer_high_cnt st4) tgt))%bool = (tgt <? now)) as ->.
  { simpl. rewrite Hlt. destruct (tgt <? now); lia. }
  assert (Hset : settable st4 (dest tgt now) T').
  { unfold settable, dest, _is_set, T', st4, st3, u32_ok. xproj. rewrite Hlt.
    change (_long_cnt st2) with (_long_cnt st). destruct (Z.ltb_spec tgt now); repeat split; try done; lia. }
  unfold dest in *. destruct (Z.ltb_spec tgt now).
  - destruct (add_timer_to_long_list_spec Q st4 t T') as (h5 & E5 & Hx5); [done..|].
    rewrite xbind_assoc, (xbind_Ok _ _ _ _ _ E5). xsimpl. unfold xwhen. case_match.
    + destruct (lltimer_set_Ok 0 4294967295 (set_links h5 st4)) as [c6 E6]. xstep E6.
      eexists. split_and!; [done..|by eapply xinv_env].
    + xsimpl. eexists. by split_and!.
  - rewrite lltimer_mask_0 by done. assert ((tgt <=? now) = false) as -> by lia. xsimpl.
    destruct (add_timer_to_list_spec Q st4 t T') as (h5 & E5 & Hx5); [done..|].
    rewrite (xbind_Ok _ _ _ _ _ E5). xsimpl. unfold xwhen. case_match.
    + destruct (lltimer_set_Ok 0 (u32 (tgt - XTIMER_OVERHEAD)) (set_links h5 st4)) as [c6 E6]. xstep E6.
      eexists. split_and!; [done..|by eapply xinv_env].
    + xsimpl. eexists. by split_and!.
Qed.

Lemma xtimer_remove_spec Q st t T :
  xinv Q st → timers st !! t = Some T →
  ∃ h' c, xtimer_remove 0 t st = Ok (tt, set_compare c (set_links h' st)) ∧
          xinv (without t Q) (set_compare c (set_links h' st)).
Proof.
  intros Hx HT. unfold xtimer_remove. xstep (get_timer_Ok _ _ _ HT).
  destruct (_is_set T) eqn:Hset; [by apply _remove_spec|].
  exists (links st), (compare_ st). split; [by destruct st|].
  eapply xinv_ext; [|by eapply xinv_env]. intros q Hq. symmetry. apply filter_ne_id. intros Hin.
  destruct (x_timer _ _ Hx q t Hq Hin) as (T' & HT' & ? & _). congruence.
Qed.

Lemma without_not_in t Q q : t ∉ without t Q q.
Proof. intros [? _]%list_elem_of_filter. done. Qed.

(** [_xtimer_set] (re)arms a timer for the exact 64-bit time
    [_long_cnt * 2^32 + now + offset]: whatever list the timer was on before, it
    ends up on exactly one list, in its place behind all timers that expire no
    later; every other timer keeps its targets and its list. This needs that the
    counter does not wrap between the two reads of the call and that at least
    [XTIMER_BACKOFF] ticks are left at the second. *)
Lemma xtimer_set_schedules Q st t T offset :
  xinv Q st → timers st !! t = Some T → is_Some (callback T) →
  u32_ok offset → 0 <= _long_cnt st → _long_cnt st + 1 < 4294967296 →
  rd (reads st) <= rd (S (reads st)) →
  rd (S (reads st)) + XTIMER_BACKOFF <= rd (reads st) + offset →
  ∃ st' tgt lt, _xtimer_set rd call 0 spin t offset st = Ok (tt, st') ∧
    lt * 4294967296 + tgt = _long_cnt st * 4294967296 + rd (reads st) + offset ∧ u32_ok tgt ∧
    timers st' = <[t := set_targets tgt lt T]> (timers st) ∧ fired st' = fired st ∧
    let q := if lt =? _long_cnt st then TIMER_LIST else LONG_LIST in
    xinv (<[q := insert_by (key (timers st') q) t (without t Q q)]> (without t Q)) st'.
Proof.
  intros Hx HT [cb Hcb] Hoff Hlc Hlc' Hmono Hleft. unfold _xtimer_set.
  xstep (get_timer_Ok _ _ _ HT). rewrite Hcb.
  destruct (xtimer_remove_spec Q st t T Hx HT) as (h1 & c1 & E1 & Hx1). xstep E1.
  set (st1 := set_compare c1 _) in *. unfold u32_ok, XTIMER_BACKOFF in *.
  assert ((offset <? 30) = false) as -> by lia.
  unfold _xtimer_now. simpl (negb (0 =? 0)). cbv iota. xstep lltimer_now_Ok.
  change (rd (reads st1)) with (rd (reads st)). set (st2 := set_reads _ st1).
  pose proof (rd_u32 (reads st)) as H0. pose proof (rd_u32 (S (reads st))) as H1. unfold u32_ok in *.
  set (tgt := u32 (rd (reads st) + offset)).
  assert (Htgt : 0 <= tgt < 4294967296 ∧
    (if tgt <? rd (S (reads st)) then tgt = rd (reads st) + offset - 4294967296
     else tgt = rd (reads st) + offset)).
  { unfold tgt, u32. destruct (Z.lt_ge_cases (rd (reads st) + offset) 4294967296).
    - rewrite Z.mod_small by lia. case_match; lia.
    - replace (rd (reads st) + offset) with (rd (reads st) + offset - 4294967296 + 1 * 4294967296) by lia.
      rewrite Z_mod_plus_full, Z.mod_small by lia. case_match; lia. }
  clearbody tgt. destruct Htgt as [Htok Htgt].
  destruct (set_absolute_spec (without t Q) st2 t T tgt (rd (reads st)))
    as (st' & E & Hts & Hf & Hl & Hr & Hx'); [by eapply xinv_env|done|by eexists| |done..| |].
  { intros q Hq. apply without_not_in. }
  { change (reads st2) with (S (reads st)). unfold XTIMER_BACKOFF. case_match; lia. }
  change (reads st2) with (S (reads st)) in *. change (_long_cnt st2) with (_long_cnt st) in *.
  xstep E. eexists st', tgt, _. split; [done|]. split; [|split; [done|split; [done|split; [done|]]]].
  - case_match; lia.
  - unfold dest in Hx'. destruct (tgt <? rd (S (reads st))); simpl.
    + by assert ((_long_cnt st + 1 =? _long_cnt st) = false) as -> by lia.
    + by rewrite Z.eqb_refl.
Qed.

(** [_xtimer_set64] for every offset: the time is taken at one of the reads. *)
Lemma xtimer_set64_schedules Q st t T offset long_offset :
  xinv Q st → timers st !! t = Some T → is_Some (callback T) → (0 < spin)%nat →
  u32_ok offset → 0 <= long_offset → 0 <= _long_cnt st → _long_cnt st + long_offset + 1 < 4294967296 →
  rd (reads st) <= rd (S (reads st)) →
  rd (S (reads st)) + XTIMER_BACKOFF <= rd (reads st) + long_offset * 4294967296 + offset →
  ∃ st' tgt lt now, _xtimer_set64 rd call 0 spin t offset long_offset st = Ok (tt, st') ∧
    rd (reads st) <= now <= rd (S (reads st)) ∧
    lt * 4294967296 + tgt = _long_cnt st * 4294967296 + now + long_offset * 4294967296 + offset ∧ u32_ok tgt ∧ _long_cnt st <= lt ∧
    timers st' = <[t := set_targets tgt lt T]> (timers st) ∧ fired st' = fired st ∧
    let q := if lt =? _long_cnt st then TIMER_LIST else LONG_LIST in
    xinv (<[q := insert_by (key (timers st') q) t (without t Q q)]> (without t Q)) st'.
Proof.
  intros Hx HT Hcb Hsp Hoff Hlo Hlc Hlc' Hmono Hleft. unfold _xtimer_set64. destruct (Z.eqb_spec long_offset 0) as [->|Hne].
  - destruct (xtimer_set_schedules Q st t T offset) as (st' & tgt & lt & E & Et & Htg & Hts & Hf & Hx'); [done..|lia|done|lia|].
    pose proof (rd_u32 (reads st)). unfold u32_ok in *.
    exists st', tgt, lt, (rd (reads st)). do 5 (split; [done || lia|]). done.
  - xstep (get_timer_Ok _ _ _ HT). pose proof (xtimer_remove_spec Q st t T Hx HT) as (h1 & c1 & E1 & Hx1).
    unfold xtimer_remove in E1. rewrite (xbind_Ok _ _ _ _ _ (get_timer_Ok _ _ _ HT)) in E1. rewrite (xbind_Ok _ _ _ _ _ E1).
    set (st1 := set_compare c1 _) in *. unfold _xtimer_now_internal. destruct spin as [|k]; [lia|]. cbn [now_internal_loop].
    unfold _xtimer_now. cbn [Z.eqb negb]. xsimpl. xstep lltimer_now_Ok. xsimpl. xstep lltimer_now_Ok.
    change (rd (reads (set_reads (S (reads st1)) st1))) with (rd (S (reads st))). change (rd (reads st1)) with (rd (reads st)).
    rewrite (proj2 (Z.ltb_ge _ _)) by done. xsimpl. set (st2 := set_reads _ (set_reads _ st1)). change (_long_cnt (set_reads (S (reads st1)) st1)) with (_long_cnt st).
    pose proof (rd_u32 (S (reads st))) as Hu. unfold u32_ok in *. set (now := rd (S (reads st))) in *.
    set (tg := u32 (now + offset)). set (lt := if tg <? offset then _ else _).
    assert (lt = _long_cnt st + long_offset + (if 4294967296 <=? now + offset then 1 else 0) ∧ tg = now + offset - (if 4294967296 <=? now + offset then 4294967296 else 0)) as [Elt Etg].
    { unfold lt, tg. change (_long_cnt st1) with (_long_cnt st). rewrite (u32_small (_long_cnt st + long_offset)) by lia. destruct (Z.leb_spec 4294967296 (now + offset)).
      - assert (u32 (now + offset) = now + offset - 4294967296) as ->.
        { unfold u32. replace (now + offset) with (now + offset - 4294967296 + 1 * 4294967296) by lia. rewrite Z_mod_plus_full, Z.mod_small; lia. }
        rewrite (proj2 (Z.ltb_lt _ _)) by lia. rewrite u32_small by lia. lia.
      - rewrite (u32_small (now + offset)) by lia. rewrite (proj2 (Z.ltb_ge _ _)) by lia. lia. }
    clearbody lt tg. assert (0 <= tg < 4294967296 ∧ _long_cnt st < lt < 4294967296) as [Htg Hlt] by (case_match; lia).
    assert (HT2 : timers st2 !! t = Some T) by done.
    rewrite (xbind_Ok _ _ _ _ _ (modify_timer_Ok st2 t T _ HT2)).
    set (st3 := set_timers _ st2). assert (Hx3 : xinv (without t Q) st3).
    { apply xinv_unlinked; [by eapply xinv_env|]. intros q Hq. apply without_not_in. }
    destruct (add_timer_to_long_list_spec (without t Q) st3 t (set_targets tg lt T)) as (h4 & E4 & Hx4);
      [done|apply lookup_insert_eq| |intros q Hq; apply without_not_in|].
    { unfold settable, _is_set, u32_ok. xproj. change (_long_cnt st3) with (_long_cnt st).
      split; [|split; [done|split; [done|split; [lia|lia]]]]. rewrite (proj2 (Z.eqb_neq lt 0)) by lia. by destruct (tg =? 0). }
    rewrite E4. eexists _, tg, lt, now. split; [reflexivity|]. split; [lia|]. split; [case_match; lia|]. split; [done|].
    split; [lia|]. split; [done|]. split; [done|]. cbv zeta. rewrite (proj2 (Z.eqb_neq lt _)) by lia. exact Hx4.
Qed.
End Set32.

(** ** Firing timers *)

Section Fire32.
Variables (rd : nat → Z) (call : Z → Z → XM unit) (p : nat).
Hypothesis rd_u32 : ∀ n, u32_ok (rd n).
(** Callbacks that leave the timers alone, such as those of sys/xtimer/xtimer.c,
    which wake threads and send messages. *)
Hypothesis call_ok : ∀ f a st, call f a st = Ok (tt, st).

(** From read [r] on, for [W] reads, the counter does not wrap, and [p] reads
    take at least [XTIMER_ISR_BACKOFF] ticks. *)
Definition ticking (r W : nat) : Prop :=
  (∀ i j, (r <= i)%nat → (i <= j)%nat → (j <= r + W)%nat → rd i <= rd j) ∧
  (∀ n, (r <= n)%nat → (n + p <= r + W)%nat → rd n + XTIMER_ISR_BACKOFF <= rd (n + p)%nat).

Lemma ticking_weaken r W r' W' : ticking r W → (r <= r')%nat → (r' + W' <= r + W)%nat → ticking r' W'.
Proof. intros [H1 H2] Hr HW. split; intros; [apply H1|apply H2]; lia. Qed.

Lemma time_left_0 tgt ref now :
  u32_ok tgt → u32_ok now → ref <= now →
  _time_left tgt ref now = Z.max 0 (tgt - now).
Proof.
  unfold u32_ok. intros. unfold _time_left. assert ((now <? ref) = false) as -> by lia.
  destruct (Z.ltb_spec now tgt); [|lia]. unfold u32. rewrite Z.mod_small; lia.
Qed.

Lemma wait_loop_spec st f r tgt ref :
  reads st = S r → u32_ok tgt → ref <= rd r →
  (∀ i j, (r <= i)%nat → (i <= j)%nat → (j <= r + f)%nat → rd i <= rd j) → tgt <= rd (r + f)%nat →
  ∃ k, (k <= f)%nat ∧ tgt <= rd (r + k)%nat ∧
    wait_loop rd (S f) tgt ref (rd r) st = Ok (rd (r + k)%nat, set_reads (S (r + k)) st).
Proof.
  revert st r. induction f as [|f IH]; intros st r Hr Ht Href Hmono Hf; cbn [wait_loop];
    rewrite time_left_0 by done.
  - exists 0%nat. rewrite Nat.add_0_r in *. split; [done|]. split; [done|].
    assert ((Z.max 0 (tgt - rd r) =? 0) = true) as -> by lia. simpl. rewrite <- Hr. by destruct st.
  - destruct (Z.leb_spec tgt (rd r)).
    + exists 0%nat. rewrite Nat.add_0_r in *. split; [lia|]. split; [done|].
      assert ((Z.max 0 (tgt - rd r) =? 0) = true) as -> by lia. simpl. rewrite <- Hr. by destruct st.
    + assert ((Z.max 0 (tgt - rd r) =? 0) = false) as -> by lia. cbn [negb].
      xstep lltimer_now_Ok. rewrite Hr. pose proof (Hmono r (S r)).
      destruct (IH (set_reads (S (S r)) st) (S r)) as (k & Hk & Htk & E); [done|done|lia| | |].
      { intros i j ???. apply Hmono; lia. } { by rewrite Nat.add_succ_comm. }
      exists (S k). rewrite Nat.add_succ_r, <- Nat.add_succ_l. split; [lia|]. split; [done|].
      etransitivity; [exact E|]. by destruct st.
Qed.

Definition disarm (ts : gmap Z xtimer_t) (t : Z) : gmap Z xtimer_t := alter (set_targets 0 0) t ts.

(** One round of the loop: the counter has passed the target of the head when its
    callback runs. *)
Lemma fire_head_spec Q st t l T ref r :
  xinv Q st → Q TIMER_LIST = t :: l → timers st !! t = Some T → reads st = S r → ref <= rd r →
  ticking r p → target T < rd r + XTIMER_ISR_BACKOFF →
  ∃ k st', (k <= p)%nat ∧ fire_head rd call 0 (S p) t ref (rd r) st = Ok (rd (S (r + k)), st') ∧
    reads st' = S (S (r + k)) ∧ _long_cnt st' = _long_cnt st ∧ fired st' = fired st ++ [(t, S (r + k))] ∧ target T <= rd (r + k)%nat ∧
    timers st' = disarm (timers st) t ∧ xinv (<[TIMER_LIST := l]> Q) st'.
Proof.
  intros Hx EQ HT Hr Href [Hmono Hprog] Hdue. unfold fire_head.
  destruct (x_timer _ _ Hx TIMER_LIST t) as (T' & HT' & _ & [cb Hcb] & Htok & _ & _); [done|rewrite EQ; set_solver|].
  simplify_eq. xstep (get_timer_Ok _ _ _ HT). rewrite lltimer_mask_0 by done.
  destruct (wait_loop_spec st p r (target T) ref) as (k & Hk & Htk & E); [done..| |].
  { specialize (Hprog r). lia. }
  rewrite (xbind_Ok _ _ _ _ _ E). xsimpl.
  destruct (pop_head Q (set_reads (S (r + k)) st) t l) as [Hx1 Hn1]; [by eapply xinv_env|done|].
  set (st1 := set_links _ _) in *. rewrite (xbind_Ok _ _ _ _ _ (modify_timer_Ok st1 t T _ HT)).
  unfold _shoot. xsimpl. set (st2 := set_timers _ _).
  rewrite (xbind_Ok _ _ _ _ _ (get_timer_Ok st2 t (set_targets 0 0 T) (lookup_insert_eq _ _ _))).
  xsimpl. rewrite Hcb. rewrite (xbind_Ok _ _ _ _ _ (call_ok _ _ _)).
  exists k. eexists. split; [done|]. split; [done|]. split_and!; [done|done|done|done| |].
  - simpl. apply map_eq. intros i. unfold disarm. destruct (decide (t = i)) as [<-|].
    + by rewrite lookup_alter_eq, lookup_insert_eq, HT.
    + by rewrite lookup_alter_ne, lookup_insert_ne.
  - eapply xinv_env; [apply (xinv_unlinked _ st1 t (set_targets 0 0 T)); [exact Hx1|exact Hn1]|done..].
Qed.

Lemma key_disarm Q st t A u :
  xinv Q st → t :: A = Q TIMER_LIST → u ∈ A →
  key (disarm (timers st) t) TIMER_LIST u = key (timers st) TIMER_LIST u.
Proof.
  intros Hx EA Hu. unfold key, disarm. rewrite lookup_alter_ne; [done|]. intros <-.
  pose proof (xinv_NoDup _ _ TIMER_LIST Hx eq_refl) as Hnd. rewrite <- EA in Hnd.
  by apply NoDup_cons in Hnd as [? _].
Qed.

(** The loop of the timer interrupt runs the callbacks of the due timers
    in the order of their targets, each exactly once and none before the counter
    has reached its target, and marks them as no longer set; it stops when the
    list is empty or its head is at least [XTIMER_ISR_BACKOFF] ticks away, with
    the other timers untouched. *)
Lemma fire_loop_fires Q st ref r fuel :
  xinv Q st → reads st = S r → ref <= rd r →
  ticking r (S p * length (Q TIMER_LIST)) → (length (Q TIMER_LIST) < fuel)%nat →
  ∃ n F r' st', fire_loop rd call 0 (S p) fuel ref (rd r) st = Ok (rd r', st') ∧
    let A := Q TIMER_LIST in
    reads st' = S r' ∧ (r <= r' <= r + S p * n)%nat ∧ (n <= length A)%nat ∧ _long_cnt st' = _long_cnt st ∧
    F.*1 = take n A ∧ fired st' = fired st ++ F ∧
    (∀ t i, (t, i) ∈ F → key (timers st) TIMER_LIST t <= rd (pred i)) ∧
    timers st' = foldl disarm (timers st) (take n A) ∧
    (∀ t, t ∈ drop n A → rd r' + XTIMER_ISR_BACKOFF <= key (timers st) TIMER_LIST t) ∧
    xinv (<[TIMER_LIST := drop n A]> Q) st'.
Proof.
  remember (Q TIMER_LIST) as A eqn:EA. revert Q st r fuel EA.
  induction A as [|t A IH]; intros Q st r [|fuel] EA Hx Hr Href Htick Hfuel; try (simpl in Hfuel; lia);
    cbn [fire_loop]; xsimpl; rewrite (xinv_links Q) by done; rewrite <- EA.
  - exists 0%nat, [], r, st. split; [done|]. cbv zeta. split_and!; try done; try lia.
    + by rewrite app_nil_r.
    + intros ?? []%not_elem_of_nil.
    + intros ? []%not_elem_of_nil.
    + by apply xinv_same.
  - destruct (x_timer _ _ Hx TIMER_LIST t) as (T & HT & _ & _ & Htok & _); [done|rewrite <- EA; set_solver|].
    change (NEXT <$> head (t :: A)) with (Some (NEXT t)). cbv iota. xsimpl.
    rewrite (xbind_Ok _ _ _ _ _ (get_timer_Ok _ _ _ HT)). rewrite lltimer_mask_0, time_left_0 by done.
    assert (Hkt : key (timers st) TIMER_LIST t = target T) by (unfold key; by rewrite HT).
    destruct (Z.ltb_spec (Z.max 0 (target T - rd r)) XTIMER_ISR_BACKOFF) as [Hdue|Hlater].
    + destruct (fire_head_spec Q st t A T ref r) as (k & st1 & Hk & E1 & Hr1 & Hlc1 & Hf1 & Hnot & Hts1 & Hx1);
        [done|done|done|done|done| |lia|].
      { eapply ticking_weaken; [done|lia|]. simpl. lia. }
      rewrite (xbind_Ok _ _ _ _ _ E1).
      destruct (IH (<[TIMER_LIST := A]> Q) st1 (S (r + k)) fuel) as (n & F & r' & st' & E & Hrd & Hrr & Hn & Hlc & HF & Hfd & Hearly & Hts & Hlate & Hx');
        [by rewrite fn_lookup_insert|done|done| | |simpl in Hfuel; lia|].
      { destruct Htick as [Hmono _]. pose proof (Hmono r (S (r + k))). simpl in *. lia. }
      { eapply ticking_weaken; [done|lia|]. simpl. lia. }
      assert (Hkey : ∀ u, u ∈ A → key (timers st1) TIMER_LIST u = key (timers st) TIMER_LIST u).
      { intros u Hu. rewrite Hts1. by eapply key_disarm. }
      exists (S n), ((t, S (r + k)) :: F), r', st'. split; [done|]. cbv zeta in *. split_and!; try done; try (simpl in *; lia).
      * rewrite fmap_cons, HF. done.
      * rewrite Hfd, Hf1. by rewrite <- app_assoc.
      * intros u i [[= -> ->]|Hin]%elem_of_cons; [by rewrite Hkt|].
        rewrite <- Hkey; [by apply Hearly|]. apply (subseteq_take n). rewrite <- HF.
        by apply list_elem_of_fmap_2 with (f := fst) in Hin.
      * rewrite Hts, Hts1. done.
      * intros u Hu. rewrite <- Hkey; [by apply Hlate|]. rewrite <- (take_drop n A). set_solver.
      * by eapply xinv_twice.
    + exists 0%nat, [], r, st. split; [done|]. cbv zeta. split_and!; try done; try (simpl; lia).
      * by rewrite app_nil_r.
      * intros ?? []%not_elem_of_nil.
      * intros u Hu. pose proof (x_sorted _ _ Hx TIMER_LIST eq_refl) as Hs. rewrite <- EA in Hs.
        apply StronglySorted_inv in Hs as [_ Hs]. rewrite Forall_forall in Hs.
        unfold XTIMER_ISR_BACKOFF in *. apply elem_of_cons in Hu as [->|Hu]; [lia|]. specialize (Hs u Hu). lia.
      * by apply xinv_same.
Qed.
End Fire32.

(** ** The next period of the counter *)

(** A sorted list is its elements up to a bound followed by the others. *)
Lemma sorted_split {A} (k : A → Z) (P : A → Prop) `{!∀ x, Decision (P x)} l :
  sorted_by k l → (∀ x y, x ∈ l → y ∈ l → k x <= k y → P y → P x) →
  l = filter P l ++ filter (λ x, ¬ P x) l.
Proof.
  unfold sorted_by. induction 1 as [|x l Hl IH Hx]; intros HP; [done|]. rewrite !filter_cons.
  destruct (decide (P x)) as [Hp|Hp].
  - rewrite decide_False by tauto. simpl. f_equal. apply IH. intros ??? ? ?. apply HP; set_solver.
  - rewrite decide_True by done. rewrite (filter_none P), (filter_all (λ y, ¬ P y)); [done| |].
    + intros y Hy Py. rewrite Forall_forall in Hx. apply Hp, (HP x y); [set_solver..|by apply Hx|done].
    + apply Forall_forall. intros y Hy Py. rewrite Forall_forall in Hx.
      apply Hp, (HP x y); [set_solver..|by apply Hx|done].
Qed.

(** The timers whose long period has come. *)
Definition due (st : xstate) (t : Z) : Prop :=
  match timers st !! t with Some T => long_target T <= _long_cnt st | None => False end.

Global Instance due_dec st t : Decision (due st t).
Proof. unfold due. case_match; apply _. Defined.

Lemma select_loop_spec st s r fuel last0 :
  is_list (links st) LONG_LIST (NEXT <$> s ++ r) → (length s < fuel)%nat →
  Forall (due st) s → (∀ u, u ∈ r → is_Some (timers st !! u) ∧ ¬ due st u) →
  ∃ h', select_loop 0 fuel last0 st =
          Ok (match last s with Some u => Some (NEXT u) | None => last0 end, set_links h' st) ∧
    is_list h' LONG_LIST (NEXT <$> r) ∧ ∀ y, y ≠ LONG_LIST → h' !! y = links st !! y.
Proof.
  revert st fuel last0. induction s as [|u s IH]; intros st [|fuel] last0 Hl Hf Hs Hr; try (simpl in Hf; lia);
    cbn [select_loop]; xsimpl.
  - exists (links st). rewrite links_set_links. split; [|done]. simpl in Hl.
    destruct r as [|u r]; [destruct Hl as (_ & _ & He); simpl in He; by rewrite He|].
    destruct Hl as (_ & [Hu _] & _). rewrite Hu. xsimpl.
    destruct (Hr u) as [[U HU] Hd]; [set_solver|]. xstep (get_timer_Ok _ _ _ HU). xsimpl.
    unfold due in Hd. rewrite HU in Hd. by assert ((long_target U <=? _long_cnt st) = false) as -> by lia.
  - pose proof Hl as (_ & [Hu _] & _). rewrite Hu. xsimpl. apply Forall_cons in Hs as [Hd Hs].
    unfold due in Hd. destruct (timers st !! u) as [U|] eqn:HU; [|done]. xstep (get_timer_Ok _ _ _ HU). xsimpl.
    assert ((long_target U <=? _long_cnt st) = true) as -> by lia. simpl. xsimpl.
    simpl app in Hl. rewrite fmap_cons in Hl.
    destruct (list_remove_head_cons _ _ _ _ Hl) as [_ Hl'].
    destruct (IH (set_links (set_next (links st) LONG_LIST (links st !! NEXT u)) st) fuel (Some (NEXT u)))
      as (h' & E & Hr' & Hfr); [done|simpl in Hf; lia|done|done|].
    exists h'. rewrite E. split; [|split; [done|]].
    + rewrite last_cons. by destruct (last s).
    + intros y Hy. rewrite Hfr by done. xproj. by rewrite set_next_other.
Qed.

(** The selected prefix, cut off behind its last timer, becomes the new list. *)
Lemma is_list_prefix h h' hd_ hd' s r u :
  is_list h hd_ (NEXT <$> s ++ r) → last s = Some u → is_head hd' = true →
  h' !! hd' = h !! hd_ → h' !! NEXT u = None →
  (∀ y, y ∈ NEXT <$> s → y ≠ NEXT u → h' !! y = h !! y) →
  is_list h' hd' (NEXT <$> s).
Proof.
  intros (Hnd & Hp & _) Hu Hhd E1 E2 Hfr. rewrite fmap_app in *. apply path_app in Hp as [Hp _].
  destruct s as [|v s]; [done|]. rewrite fmap_cons in *. simpl in Hp. destruct Hp as [Hv Hp].
  assert (endof (NEXT v) (NEXT <$> s) = NEXT u) as He.
  { apply (inj Some). rewrite endof_last, <- fmap_cons, fmap_last, Hu. done. }
  assert (Hnd' : NoDup (NEXT v :: (NEXT <$> s))).
  { apply NoDup_cons in Hnd as [_ Hnd]. by apply NoDup_app in Hnd as [? _]. }
  split; [|split].
  - apply NoDup_cons. split; [|done]. rewrite <- fmap_cons. by intros (w & -> & _)%list_elem_of_fmap.
  - split; [by rewrite E1|]. apply (path_ext h); [done| |done]. intros y Hy Hne. rewrite He in Hne. by apply Hfr.
  - simpl. by rewrite He.
Qed.

(** ** Merging two lists *)

(** What [_merge_lists] makes of two lists: both advance in every round, and only
    the head with the earlier target is linked. *)
Fixpoint merged (k : Z → Z) (a b : list Z) : list Z :=
  match a, b with
  | [], _ => b
  | _, [] => a
  | x :: a, y :: b => (if k x <=? k y then x else y) :: merged k a b
  end.

Lemma merged_nil_r k a : merged k a [] = a.
Proof. by destruct a. Qed.

Lemma merged_submseteq k a b : merged k a b ⊆+ a ++ b.
Proof.
  revert b. induction a as [|x a IH]; intros [|y b]; [done|done|by rewrite app_nil_r|]. cbn [merged].
  rewrite <- Permutation_middle. cbn [app]. destruct (k x <=? k y).
  - apply submseteq_cons, submseteq_skip, IH.
  - apply submseteq_skip, submseteq_cons, IH.
Qed.

Lemma merged_subset k a b t : t ∈ merged k a b → t ∈ a ∨ t ∈ b.
Proof. intros Ht. apply elem_of_app. by eapply elem_of_submseteq, merged_submseteq. Qed.

Lemma merged_length k a b : length (merged k a b) = Nat.max (length a) (length b).
Proof. revert b. induction a as [|x a IH]; intros [|y b]; simpl; [done..|]. by rewrite IH. Qed.

Lemma merged_sorted k a b : sorted_by k a → sorted_by k b → sorted_by k (merged k a b).
Proof.
  unfold sorted_by. revert b. induction a as [|x a IH]; intros [|y b] Ha Hb; [done..|]. cbn [merged].
  apply StronglySorted_inv in Ha as [Ha Hx], Hb as [Hb Hy]. constructor; [by apply IH|].
  rewrite Forall_forall in Hx, Hy. apply Forall_forall. intros t [Ht|Ht]%merged_subset.
  - specialize (Hx t Ht). destruct (Z.leb_spec (k x) (k y)); lia.
  - specialize (Hy t Ht). destruct (Z.leb_spec (k x) (k y)); lia.
Qed.

Lemma is_list_push (h : gmap xnode xnode) q x l : h !! q = Some x → is_list h x l → q ∉ x :: l → is_list h q (x :: l).
Proof. intros Hq (Hnd & Hp & He) Hn. split; [by apply NoDup_cons|]. done. Qed.

(** The next node of a list, and the list behind it. *)
Lemma is_list_next h q l : is_list h q (NEXT <$> l) →
  match l with [] => h !! q = None | u :: l => h !! q = Some (NEXT u) ∧ is_list h (NEXT u) (NEXT <$> l) end.
Proof.
  intros Hl. destruct l as [|u l]; [apply Hl|]. rewrite fmap_cons in Hl.
  split; [apply Hl|by eapply is_list_sub].
Qed.

(** The list behind a node that is made to point to it. *)
Lemma is_list_link h q p l : is_list h q (NEXT <$> l) → p ∉ NEXT <$> l → is_list (set_next h p (h !! q)) p (NEXT <$> l).
Proof.
  intros Hl Hp. apply is_list_next in Hl as Hn. destruct l as [|u l].
  - rewrite Hn. apply is_list_nil. by rewrite set_next_same.
  - destruct Hn as [-> Hn]. rewrite fmap_cons in *. apply is_list_push; [by rewrite set_next_same| |done].
    eapply is_list_frame; [|exact Hn]. intros y Hy. rewrite set_next_other; [done|]. intros <-. done.
Qed.

Lemma _compare_Ok st u v U V : timers st !! u = Some U → timers st !! v = Some V →
  _compare (Some (NEXT u)) (Some (NEXT v)) st =
    Ok (Some (NEXT (if key (timers st) TIMER_LIST u <=? key (timers st) TIMER_LIST v then u else v)), st).
Proof.
  intros HU HV. unfold _compare. xsimpl. xstep (get_timer_Ok _ _ _ HU). xsimpl. xstep (get_timer_Ok _ _ _ HV).
  unfold key. rewrite HU, HV. by destruct (_ <=? _).
Qed.

Lemma merge_loop_spec a : ∀ b st x y p fuel,
  is_list (links st) (NEXT x) (NEXT <$> a) → is_list (links st) (NEXT y) (NEXT <$> b) →
  p ∉ a ++ b → NoDup (a ++ b) → (∀ u, u ∈ a ++ b → is_Some (timers st !! u)) → (length a < fuel)%nat →
  ∃ h', merge_loop fuel (Some (NEXT x)) (Some (NEXT y)) (Some (NEXT p)) st = Ok (tt, set_links h' st) ∧
    is_list h' (NEXT p) (NEXT <$> merged (key (timers st) TIMER_LIST) a b) ∧
    ∀ z, z ≠ NEXT p → z ∉ NEXT <$> a ++ b → h' !! z = links st !! z.
Proof.
  induction a as [|u a IH]; intros b st x y p [|fuel] Ha Hb Hp Hnd Ht Hf; try (simpl in Hf; lia);
    cbn [merge_loop]; unfold xnext.
  - pose proof (is_list_next _ _ _ Ha) as Ha'. cbv beta in Ha'.
    erewrite xbind_Ok by reflexivity. erewrite xbind_Ok by reflexivity. rewrite Ha'.
    exists (set_next (links st) (NEXT p) (links st !! NEXT y)). split; [done|]. split.
    + apply is_list_link; [done|]. by rewrite elem_of_NEXT.
    + intros z Hz _. by rewrite set_next_other.
  - destruct (is_list_next _ _ _ Ha) as [Eu Ha']. erewrite xbind_Ok by reflexivity. erewrite xbind_Ok by reflexivity.
    rewrite Eu. destruct b as [|v b].
    { pose proof (is_list_next _ _ _ Hb) as Hb'. cbv beta in Hb'. rewrite Hb'.
      exists (set_next (links st) (NEXT p) (links st !! NEXT x)). rewrite Eu. split; [done|]. rewrite app_nil_r in *. split.
      - rewrite <- Eu. apply is_list_link; [done|]. by rewrite elem_of_NEXT.
      - intros z Hz _. by rewrite set_next_other. }
    destruct (is_list_next _ _ _ Hb) as [Ev Hb']. rewrite Ev.
    rewrite !(bool_decide_eq_true_2 (is_Some (Some _))) by eauto. cbn [negb].
    destruct (Ht u) as [U HU]; [set_solver|]. destruct (Ht v) as [V HV]; [set_solver|].
    rewrite (xbind_Ok _ _ _ _ _ (_compare_Ok st u v U V HU HV)). set (k := key (timers st) TIMER_LIST).
    set (n := if k u <=? k v then u else v). assert (n = u ∨ n = v) as Hn by (unfold n; destruct (_ <=? _); tauto).
    set (st1 := set_links (set_next (links st) (NEXT p) (Some (NEXT n))) st).
    rewrite (xbind_Ok (set_xnext (Some (NEXT p)) (Some (NEXT n))) _ st tt st1 eq_refl).
    assert (∀ z, z ≠ NEXT p → links st1 !! z = links st !! z) as Hst1 by (intros z Hz; simpl; by rewrite set_next_other).
    apply NoDup_app in Hnd as (HndA & Hdis & HndB).
    pose proof HndA as [Hua HndA']%NoDup_cons. pose proof HndB as [Hvb HndB']%NoDup_cons.
    destruct (IH b st1 u v n fuel) as (h' & E & Hl & Hfr).
    + eapply is_list_frame; [|exact Ha']. intros z Hz. apply Hst1. intros ->.
      rewrite <- fmap_cons, elem_of_NEXT in Hz. set_solver.
    + eapply is_list_frame; [|exact Hb']. intros z Hz. apply Hst1. intros ->.
      rewrite <- fmap_cons, elem_of_NEXT in Hz. set_solver.
    + destruct Hn as [-> | ->]; set_solver.
    + apply NoDup_app. split; [done|]. split; [|done]. set_solver.
    + intros w Hw. apply Ht. set_solver.
    + simpl in Hf. lia.
    + exists h'. split; [exact E|]. split.
      * cbn [merged]. fold k n. rewrite fmap_cons. apply is_list_push; [|exact Hl|].
        -- rewrite Hfr; [simpl; by rewrite set_next_same| |]; [|rewrite elem_of_NEXT; set_solver].
           intros [= ->]. destruct Hn as [-> | ->]; set_solver.
        -- rewrite <- fmap_cons, elem_of_NEXT, elem_of_cons. intros [->|Hm%merged_subset]; [|set_solver].
           destruct Hn as [-> | ->]; set_solver.
      * intros z Hz Hzn. rewrite Hfr, Hst1; [done|done| |].
        -- intros ->. apply Hzn. rewrite elem_of_NEXT. destruct Hn as [-> | ->]; set_solver.
        -- intros Hz'. apply Hzn. apply list_elem_of_fmap in Hz' as (w & -> & Hw). rewrite elem_of_NEXT. set_solver.
Qed.

(** The merged list, from its head on. *)
Lemma _merge_lists_spec st hd_ x a y b :
  is_list (links st) (NEXT x) (NEXT <$> a) → is_list (links st) (NEXT y) (NEXT <$> b) →
  NoDup ((x :: a) ++ (y :: b)) → (∀ u, u ∈ (x :: a) ++ (y :: b) → is_Some (timers st !! u)) → is_head hd_ = true →
  ∃ r h', _merge_lists (Some (NEXT x)) (Some (NEXT y)) st = Ok (r, set_links h' st) ∧
    is_list (set_next h' hd_ r) hd_ (NEXT <$> merged (key (timers st) TIMER_LIST) (x :: a) (y :: b)) ∧
    ∀ z, z ∉ NEXT <$> (x :: a) ++ (y :: b) → h' !! z = links st !! z.
Proof.
  intros Ha Hb Hnd Ht Hhd. destruct (Ht x) as [X HX]; [set_solver|]. destruct (Ht y) as [Y HY]; [set_solver|].
  set (k := key (timers st) TIMER_LIST). set (n := if k x <=? k y then x else y).
  assert (n = x ∨ n = y) as Hn by (unfold n; destruct (_ <=? _); tauto).
  apply NoDup_app in Hnd as (HndA & Hdis & HndB).
  pose proof HndA as [Hxa HndA']%NoDup_cons. pose proof HndB as [Hyb HndB']%NoDup_cons.
  destruct (merge_loop_spec a b st x y n (S (size (links st)))) as (h' & E & Hl & Hfr); [done|done| | | | |].
  { destruct Hn as [-> | ->]; set_solver. }
  { apply NoDup_app. split; [done|]. split; [|done]. set_solver. }
  { intros u Hu. apply Ht. set_solver. }
  { destruct Ha as (Hnda & Hpa & _). apply path_length in Hpa; [|done]. rewrite length_fmap in Hpa. lia. }
  exists (Some (NEXT n)), h'. split.
  - unfold _merge_lists. rewrite (xbind_Ok _ _ _ _ _ (_compare_Ok st x y X Y HX HY)). xsimpl. fold k n.
    rewrite (xbind_Ok _ _ _ _ _ E). done.
  - split.
    + cbn [merged]. fold k n. rewrite fmap_cons. apply is_list_push; [by rewrite set_next_same| |].
      * eapply is_list_frame; [|exact Hl]. intros z Hz. rewrite set_next_other; [done|]. intros <-.
        rewrite <- fmap_cons in Hz. by apply list_elem_of_fmap in Hz as (? & -> & _).
      * rewrite <- fmap_cons. intros Hz. by apply list_elem_of_fmap in Hz as (? & -> & _).
    + intros z Hz. apply Hfr.
      * intros ->. apply Hz. rewrite elem_of_NEXT. destruct Hn as [-> | ->]; set_solver.
      * intros Hz'. apply Hz. apply list_elem_of_fmap in Hz' as (w & -> & Hw). rewrite elem_of_NEXT. set_solver.
Qed.

(** The state of the next period: its own long counter, the timers that waited for
    the counter to wrap, and those of the long list whose period has come. *)
Definition next_cnt (st : xstate) : xstate := set_long_cnt (_long_cnt st + 1) st.

Definition advanced (Q : xnode → list Z) (st : xstate) : xnode → list Z := λ q,
  match q with
  | TIMER_LIST => merged (key (timers st) TIMER_LIST) (Q OVERFLOW_LIST) (filter (due (next_cnt st)) (Q LONG_LIST))
  | LONG_LIST => filter (λ t, ¬ due (next_cnt st) t) (Q LONG_LIST)
  | _ => []
  end.

(** Where the timers of the new lists come from. *)
Lemma advanced_from Q st q t : t ∈ advanced Q st q →
  (q = TIMER_LIST ∧ t ∈ Q OVERFLOW_LIST) ∨
  (q = TIMER_LIST ∧ t ∈ Q LONG_LIST ∧ due (next_cnt st) t) ∨ (q = LONG_LIST ∧ t ∈ Q LONG_LIST ∧ ¬ due (next_cnt st) t).
Proof.
  destruct q; simpl; try (by intros ?%not_elem_of_nil).
  - intros [Ht|Ht]%merged_subset; [by left|]. apply list_elem_of_filter in Ht. tauto.
  - intros Ht%list_elem_of_filter. tauto.
Qed.

(** Among the due timers of one long period the short targets decide. *)
Lemma due_sorted Q st : xinv Q st → sorted_by (key (timers st) TIMER_LIST) (filter (due (next_cnt st)) (Q LONG_LIST)).
Proof.
  intros Hx. assert (Heq : ∀ t, t ∈ filter (due (next_cnt st)) (Q LONG_LIST) →
    key (timers st) LONG_LIST t - (_long_cnt st + 1) * 4294967296 = key (timers st) TIMER_LIST t).
  { intros t [Hd Ht]%list_elem_of_filter.
    destruct (x_timer _ _ Hx LONG_LIST t) as (T & HT & _ & _ & _ & _ & H5); [done..|].
    specialize (H5 eq_refl). unfold due, key in *. simpl in Hd. rewrite HT in *. lia. }
  eapply sorted_by_mono, sorted_by_filter, (x_sorted _ _ Hx LONG_LIST eq_refl).
  intros t u Ht Hu. rewrite <- (Heq t), <- (Heq u) by done. lia.
Qed.

(** The new lists satisfy the invariant when they are linked up that way. *)
Lemma advanced_inv Q st h' :
  xinv Q st →
  (∀ q, is_head q = true → is_list h' q (NEXT <$> advanced Q st q)) →
  xinv (advanced Q st) (set_links h' (next_cnt st)).
Proof.
  intros Hx Hrep. split.
  - done.
  - intros q q' t _ _ H1%advanced_from H2%advanced_from.
    destruct H1 as [[-> H1]|[(-> & H1 & Hd)|(-> & H1 & Hd)]], H2 as [[-> H2]|[(-> & H2 & Hd')|(-> & H2 & Hd')]]; try done.
    + by pose proof (x_disj _ _ Hx OVERFLOW_LIST LONG_LIST t eq_refl eq_refl H1 H2).
    + by pose proof (x_disj _ _ Hx OVERFLOW_LIST LONG_LIST t eq_refl eq_refl H2 H1).
  - intros q t Hq [[-> Ht]|[(-> & Ht & Hd)|(-> & Ht & Hd)]]%advanced_from.
    + destruct (x_timer _ _ Hx OVERFLOW_LIST t) as (T & HT & H1 & H2 & H3 & H4 & _); [done..|]. by exists T.
    + destruct (x_timer _ _ Hx LONG_LIST t) as (T & HT & H1 & H2 & H3 & H4 & _); [done..|]. by exists T.
    + destruct (x_timer _ _ Hx LONG_LIST t) as (T & HT & H1 & H2 & H3 & H4 & _); [done..|]. exists T. split_and!; try done.
      intros _. unfold due in Hd. simpl in Hd. rewrite HT in Hd. simpl. lia.
  - intros q Hq. xproj. destruct q; simpl; [|constructor| |done].
    + apply merged_sorted; [|by apply due_sorted].
      eapply sorted_by_mono; [|apply (x_sorted _ _ Hx OVERFLOW_LIST eq_refl)]. done.
    + apply sorted_by_filter. by apply (x_sorted _ _ Hx LONG_LIST).
Qed.

(** [_select_long_timers] with the timers [o] on the current list. *)
Lemma select_long_timers_spec st o s r :
  is_list (links st) LONG_LIST (NEXT <$> s ++ r) → is_list (links st) TIMER_LIST (NEXT <$> o) →
  (∀ t, t ∈ o → is_Some (timers st !! t) ∧ t ∉ s ++ r) →
  Forall (due st) s → (∀ u, u ∈ r → is_Some (timers st !! u) ∧ ¬ due st u) →
  ∃ h', _select_long_timers 0 st = Ok (tt, set_links h' st) ∧
    is_list h' LONG_LIST (NEXT <$> r) ∧ is_list h' TIMER_LIST (NEXT <$> merged (key (timers st) TIMER_LIST) o s) ∧
    h' !! OVERFLOW_LIST = links st !! OVERFLOW_LIST.
Proof.
  intros Hl Ho Hod Hs Hr. unfold _select_long_timers. xsimpl. set (start := links st !! LONG_LIST).
  destruct (select_loop_spec st s r (S (size (links st))) None) as (h1 & E1 & Hr1 & Hfr1); [done| |done|done|].
  { destruct Hl as (Hnd & Hp & _). apply path_length in Hp; [|done]. rewrite length_fmap, length_app in Hp. lia. }
  rewrite (xbind_Ok _ _ _ _ _ E1). clear E1.
  assert (is_list h1 TIMER_LIST (NEXT <$> o)) as Ho1.
  { eapply is_list_frame; [|exact Ho]. intros y Hy. apply Hfr1. intros ->.
    apply elem_of_cons in Hy as [|Hy]; [done|]. by apply list_elem_of_fmap in Hy as (? & ? & _). }
  destruct (last s) as [u|] eqn:Hu.
  2:{ apply last_None in Hu as ->. rewrite bool_decide_eq_false_2 by (by intros []). xsimpl. exists h1. rewrite merged_nil_r.
      split; [by destruct (bool_decide _)|]. split; [done|]. split; [done|by apply Hfr1]. }
  rewrite (bool_decide_eq_true_2 (is_Some (Some _))) by eauto. xsimpl. erewrite xbind_Ok by done. xsimpl.
  set (h2 := set_next h1 (NEXT u) None). assert (Hus : u ∈ s) by (by apply last_Some_elem_of).
  pose proof Hl as (Hnd & _). apply NoDup_cons in Hnd as [_ Hnd]. apply NoDup_fmap_1, NoDup_app in Hnd as (Hnds & Hsr & _).
  assert (is_list h2 LONG_LIST (NEXT <$> r)) as Hr2.
  { eapply is_list_frame; [|exact Hr1]. intros y Hy. unfold h2. rewrite set_next_other; [done|]. intros <-.
    apply elem_of_cons in Hy as [|Hy]; [done|]. apply elem_of_NEXT in Hy. by eapply Hsr. }
  assert (is_list h2 TIMER_LIST (NEXT <$> o)) as Ho2.
  { eapply is_list_frame; [|exact Ho1]. intros y Hy. unfold h2. rewrite set_next_other; [done|]. intros <-.
    apply elem_of_cons in Hy as [|Hy]; [done|]. apply elem_of_NEXT in Hy. apply Hod in Hy as [_ Hy]. set_solver. }
  assert (is_list (set_next h2 TIMER_LIST start) TIMER_LIST (NEXT <$> s)) as Hs2.
  { apply (is_list_prefix (links st) _ LONG_LIST _ s r u); [done..| | |].
    - by rewrite set_next_same.
    - unfold h2. by rewrite set_next_other, set_next_same by done.
    - intros y (v & -> & Hv)%list_elem_of_fmap Hne. unfold h2. rewrite !set_next_other by done. by apply Hfr1. }
  pose proof (is_list_next _ _ _ Ho2) as Hhd. destruct o as [|x a].
  - rewrite Hhd, bool_decide_eq_false_2 by (by intros []). exists (set_next h2 TIMER_LIST start). split; [done|].
    split; [|split; [done|unfold h2; rewrite !set_next_other by done; by apply Hfr1]].
    eapply is_list_frame; [|exact Hr2]. intros y Hy. rewrite set_next_other; [done|]. intros <-.
    apply elem_of_cons in Hy as [|Hy]; [done|]. by apply list_elem_of_fmap in Hy as (? & ? & _).
  - destruct Hhd as [Hx Ha]. destruct s as [|v s]; [done|]. destruct (is_list_next _ _ _ Hs2) as [Ev Hv].
    rewrite set_next_same in Ev. rewrite Hx, (bool_decide_eq_true_2 (is_Some (Some _))) by eauto.
    destruct (_merge_lists_spec (set_links h2 st) TIMER_LIST x a v s) as (n & h3 & E3 & Hm & Hfr3); [exact Ha| | | |done|].
    + eapply is_list_frame; [|exact Hv]. intros y Hy. xproj. rewrite set_next_other; [done|]. intros <-.
      rewrite <- fmap_cons in Hy. by apply list_elem_of_fmap in Hy as (? & ? & _).
    + apply NoDup_app. split; [|split; [|done]].
      * destruct Ho as (Hndo & _). apply NoDup_cons in Hndo as [_ Hndo]. by apply NoDup_fmap_1 in Hndo.
      * intros t [_ Ht]%Hod. set_solver.
    + intros t [Ht|Ht]%elem_of_app; [by apply Hod|]. rewrite Forall_forall in Hs. specialize (Hs t Ht). unfold due in Hs. xproj.
      by destruct (timers st !! t).
    + rewrite Ev. cbn [xwhen]. rewrite (xbind_Ok _ _ _ _ _ E3). xsimpl.
      exists (set_next h3 TIMER_LIST n). split; [done|]. split; [|split; [exact Hm|]].
      * eapply is_list_frame; [|exact Hr2]. intros y Hy. rewrite set_next_other; [apply Hfr3|].
        -- intros Hy'. apply list_elem_of_fmap in Hy' as (t & -> & Ht). apply elem_of_cons in Hy as [|Hy%elem_of_NEXT]; [done|].
           apply elem_of_app in Ht as [Ht|Ht]; [apply Hod in Ht as [_ Ht]; set_solver|by eapply Hsr].
        -- intros <-. apply elem_of_cons in Hy as [|Hy]; [done|]. by apply list_elem_of_fmap in Hy as (? & ? & _).
      * rewrite set_next_other, Hfr3 by (try done; intros Hy; by apply list_elem_of_fmap in Hy as (? & ? & _)).
        unfold h2. xproj. rewrite set_next_other by done. by apply Hfr1.
Qed.

(** C36: When the 32-bit counter wraps, the long counter advances, the current list
    of the old period is given up (it is used up by then), and the new
    current list is made of the timers that waited for the wrap and of the timers
    of the long list whose period starts, in the order of their short targets;
    the others stay on the long list in order. When one of the two parts is empty
    no timer is lost. When both have timers the two lists are merged, and of each
    pair of timers at the same place the later one is dropped: as many timers as
    the shorter part has are on no list any more. *)
Theorem next_period_advances Q st :
  xinv Q st → 0 <= _long_cnt st → _long_cnt st + 1 < 4294967296 →
  let waiting := Q OVERFLOW_LIST in
  let starting := filter (due (next_cnt st)) (Q LONG_LIST) in
  ∃ st' dropped, _next_period 0 st = Ok (tt, st') ∧ _long_cnt st' = _long_cnt st + 1 ∧
    timers st' = timers st ∧ xinv (advanced Q st) st' ∧
    waiting ++ Q LONG_LIST ≡ₚ dropped ++ advanced Q st TIMER_LIST ++ advanced Q st LONG_LIST ∧
    length dropped = Nat.min (length waiting) (length starting).
Proof.
  intros Hx Hc Hc' waiting starting. unfold _next_period. simpl (negb (0 =? 0)). cbv iota. xsimpl.
  assert (u32 (_long_cnt st + 1) = _long_cnt st + 1) as -> by (unfold u32; rewrite Z.mod_small; lia).
  fold (next_cnt st).
  assert (Hsplit : starting ++ advanced Q st LONG_LIST = Q LONG_LIST).
  { symmetry. apply (sorted_split (key (timers st) LONG_LIST)); [by apply (x_sorted _ _ Hx LONG_LIST)|].
    intros t u Ht Hu. unfold key, due. simpl.
    destruct (x_timer _ _ Hx LONG_LIST t) as (T & -> & _ & _ & HTt & _); [done..|].
    destruct (x_timer _ _ Hx LONG_LIST u) as (U & -> & _ & _ & HUt & _); [done..|]. unfold u32_ok in *. lia. }
  destruct (submseteq_Permutation _ _ (merged_submseteq (key (timers st) TIMER_LIST) waiting starting)) as (dropped & Hdrop).
  set (st1 := set_links _ (set_links _ _)).
  pose proof (x_rep _ _ Hx OVERFLOW_LIST eq_refl) as HO. pose proof (x_rep _ _ Hx LONG_LIST eq_refl) as HLl.
  assert (∀ y, y ≠ TIMER_LIST → y ≠ OVERFLOW_LIST → links st1 !! y = links st !! y) as Hst1.
  { intros y H1 H2. unfold st1. xproj. by rewrite !set_next_other. }
  destruct (select_long_timers_spec st1 waiting starting (advanced Q st LONG_LIST)) as (h' & -> & HL & HT & HOv).
  - rewrite Hsplit. apply (is_list_frame (links st)); [|done].
    intros y Hy. apply Hst1; intros ->; apply elem_of_cons in Hy as [|Hy]; try done;
      by apply list_elem_of_fmap in Hy as (? & ? & _).
  - eapply (is_list_frame (set_next (links st) TIMER_LIST (links st !! OVERFLOW_LIST))).
    2:{ apply is_list_link; [done|]. intros Hy. by apply list_elem_of_fmap in Hy as (? & ? & _). }
    intros y Hy. unfold st1. xproj. rewrite (set_next_other _ OVERFLOW_LIST); [done|]. intros <-.
    apply elem_of_cons in Hy as [|Hy]; [done|]. by apply list_elem_of_fmap in Hy as (? & ? & _).
  - intros t Ht. destruct (x_timer _ _ Hx OVERFLOW_LIST t) as (T & HTt & _); [done..|]. split; [by exists T|].
    rewrite Hsplit. intros Ht'. by pose proof (x_disj _ _ Hx OVERFLOW_LIST LONG_LIST t eq_refl eq_refl Ht Ht').
  - apply Forall_forall. intros t [Ht _]%list_elem_of_filter. exact Ht.
  - intros t [Hd Ht]%list_elem_of_filter. split; [|exact Hd].
    destruct (x_timer _ _ Hx LONG_LIST t) as (T & HTt & _); [done..|]. by exists T.
  - eexists _, dropped. split; [done|]. split; [done|]. split; [done|]. split; [|split].
    + eapply (xinv_env _ (set_links h' (next_cnt st))); [|done..]. apply advanced_inv; [done|].
      intros [] Hq; [exact HT| |done|done]. apply is_list_nil. rewrite HOv. unfold st1. xproj. by rewrite set_next_same.
    + rewrite <- Hsplit, app_assoc, Hdrop. cbn [advanced]. fold starting waiting. solve_Permutation.
    + apply Permutation_length in Hdrop. rewrite !length_app, merged_length in Hdrop. lia.
Qed.

(** ** Concrete runs *)

(** A counter that starts at 1000 and advances by a tick per read. *)
Definition demo_rd (n : nat) : Z := Z.min 4294967295 (1000 + Z.of_nat n).
Definition demo_call (f a : Z) : XM unit := mret tt.

Lemma demo_rd_u32 n : u32_ok (demo_rd n).
Proof. unfold u32_ok, demo_rd. lia. Qed.

(** Timer 1 expires at 1010, timer 2 at 5000, timer 3 in the next long period at 100. *)
Definition demo_timers : gmap Z xtimer_t :=
  {[ 1 := Xtimer 1010 0 (Some 7) 11; 2 := Xtimer 5000 0 (Some 7) 12; 3 := Xtimer 100 1 (Some 7) 13 ]}.
Definition demo_links : gmap xnode xnode :=
  {[ TIMER_LIST := NEXT 1; NEXT 1 := NEXT 2; LONG_LIST := NEXT 3 ]}.
Definition demo_armed : xstate := Xstate demo_links demo_timers 0 0 0 None 1 [].
Definition demo_lists (q : xnode) : list Z :=
  match q with TIMER_LIST => [1; 2] | LONG_LIST => [3] | _ => [] end.

Lemma demo_armed_inv : xinv demo_lists demo_armed.
Proof.
  split.
  - intros q Hq. destruct q; try done; (split; [by apply (bool_decide_unpack _); vm_compute|]); split; by vm_compute.
  - intros q q' t _ _. destruct q, q'; simpl; set_solver.
  - intros q t _ Ht. destruct q; simpl in Ht; [| set_solver | | set_solver].
    + assert (t = 1 ∨ t = 2) as [-> | ->] by set_solver; eexists; (split; [by vm_compute|]);
        unfold u32_ok; simpl; split_and!; (done || lia || by eexists).
    + assert (t = 3) as -> by set_solver. eexists. split; [by vm_compute|].
      unfold u32_ok; simpl; split_and!; (done || lia || by eexists).
  - intros q _. destruct q; simpl; repeat constructor; vm_compute; done.
Qed.

(** Timer 2 is moved to 1500 although it is on the list already. *)
Lemma xtimer_set_schedules_witness :
  ∃ st' tgt lt, _xtimer_set demo_rd demo_call 0 30 2 499 demo_armed = Ok (tt, st') ∧
    lt * 4294967296 + tgt = 1500 ∧ u32_ok tgt ∧
    timers st' = <[2 := set_targets tgt lt (Xtimer 5000 0 (Some 7) 12)]> demo_timers ∧ fired st' = [] ∧
    let q := if lt =? 0 then TIMER_LIST else LONG_LIST in
    xinv (<[q := insert_by (key (timers st') q) 2 (without 2 demo_lists q)]> (without 2 demo_lists)) st'.
Proof.
  apply (xtimer_set_schedules demo_rd demo_call 30 demo_rd_u32 demo_lists demo_armed 2
           (Xtimer 5000 0 (Some 7) 12) 499);
    [exact demo_armed_inv | reflexivity | by eexists | unfold u32_ok; lia | by vm_compute..].
Defined.

(** The loop as it runs: timer 1 fires once the counter is at 1010. *)
Example fire_demo :
  match fire_loop demo_rd demo_call 0 21 3 0 (demo_rd 0) demo_armed with
  | Ok (now, st) => (now, fired st, links st !! TIMER_LIST) = (1011, [(1, 11%nat)], Some (NEXT 2))
  | Fault _ => False
  end.
Proof. by vm_compute. Qed.

Definition demo_long : xstate := Xstate {[ LONG_LIST := NEXT 3 ]} demo_timers 0 0 0 None 1 [].
Definition demo_long_lists (q : xnode) : list Z := match q with LONG_LIST => [3] | _ => [] end.

Lemma demo_long_inv : xinv demo_long_lists demo_long.
Proof.
  split.
  - intros q Hq. destruct q; try done; (split; [by apply (bool_decide_unpack _); vm_compute|]); split; by vm_compute.
  - intros q q' t _ _. destruct q, q'; simpl; set_solver.
  - intros q t _ Ht. destruct q; simpl in Ht; [set_solver.. | | set_solver].
    assert (t = 3) as -> by set_solver. eexists. split; [by vm_compute|].
    unfold u32_ok; simpl; split_and!; (done || lia || by eexists).
  - intros q _. destruct q; simpl; repeat constructor.
Qed.

(** Timers 1 and 2 waited for the wrap, timer 3 starts with the new period: of 1
    and 3, at the heads of the two lists, the later one, 1, is dropped. *)
Definition demo_wrap : xstate :=
  Xstate {[ OVERFLOW_LIST := NEXT 1; NEXT 1 := NEXT 2; LONG_LIST := NEXT 3 ]} demo_timers 0 0 0 None 1 [].
Definition demo_wrap_lists (q : xnode) : list Z := match q with OVERFLOW_LIST => [1; 2] | LONG_LIST => [3] | _ => [] end.

Lemma demo_wrap_inv : xinv demo_wrap_lists demo_wrap.
Proof.
  split.
  - intros q Hq. destruct q; try done; (split; [by apply (bool_decide_unpack _); vm_compute|]); split; by vm_compute.
  - intros q q' t _ _. destruct q, q'; simpl; set_solver.
  - intros q t _ Ht. destruct q; simpl in Ht; [set_solver| | | set_solver].
    + assert (t = 1 ∨ t = 2) as [-> | ->] by set_solver; eexists; (split; [by vm_compute|]);
        unfold u32_ok; simpl; split_and!; (done || lia || by eexists).
    + assert (t = 3) as -> by set_solver. eexists. split; [by vm_compute|].
      unfold u32_ok; simpl; split_and!; (done || lia || by eexists).
  - intros q _. destruct q; simpl; repeat constructor; vm_compute; done.
Qed.

Lemma next_period_advances_witness :
  (∃ st' (dropped : list Z), _next_period 0 demo_long = Ok (tt, st') ∧ _long_cnt st' = 0 + 1 ∧
     xinv (advanced demo_long_lists demo_long) st' ∧ advanced demo_long_lists demo_long TIMER_LIST = [3] ∧ length dropped = 0%nat) ∧
  (∃ st' (dropped : list Z), _next_period 0 demo_wrap = Ok (tt, st') ∧
     xinv (advanced demo_wrap_lists demo_wrap) st' ∧ advanced demo_wrap_lists demo_wrap TIMER_LIST = [3; 2] ∧ length dropped = 1%nat).
Proof.
  split.
  - destruct (next_period_advances demo_long_lists demo_long) as (st' & dropped & H1 & H2 & _ & H3 & _ & H4);
      [exact demo_long_inv | by vm_compute | by vm_compute |].
    exists st', dropped. split; [exact H1|]. split; [exact H2|]. split; [exact H3|]. split; [by vm_compute|exact H4].
  - destruct (next_period_advances demo_wrap_lists demo_wrap) as (st' & dropped & H1 & _ & _ & H3 & _ & H4);
      [exact demo_wrap_inv | by vm_compute | by vm_compute |].
    exists st', dropped. split; [exact H1|]. split; [exact H3|]. split; [by vm_compute|]. rewrite H4. by vm_compute.
Defined.

(** ** Timers dropped by a merge

    [_merge_lists] advances both lists in every round and links only the smaller
    of the two heads, so a timer is dropped per round: of the lists 1, 3 and 2, 4
    (by target) only 1 and 3 remain. *)
Definition merge_timers : gmap Z xtimer_t :=
  list_to_map ((λ t, (t, Xtimer (100 * t) 0 (Some 7) 0)) <$> [1; 2; 3; 4]).
Definition merge_demo : xstate :=
  Xstate {[ NEXT 1 := NEXT 3; NEXT 2 := NEXT 4 ]} merge_timers 0 0 0 None 0 [].

Theorem merge_lists_drops_timers :
  match _merge_lists (Some (NEXT 1)) (Some (NEXT 2)) merge_demo with
  | Ok (head, st) => head = Some (NEXT 1) ∧ is_list (links st) (NEXT 1) [NEXT 3]
  | Fault _ => False
  end.
Proof.
  vm_compute _merge_lists. split; [done|]. split; [by apply (bool_decide_unpack _); vm_compute|]. by vm_compute.
Qed.

(** ** Setting a timer for a time close after the wrap

    The check for a target that is about to expire computes
    [target - XTIMER_BACKOFF] modulo [2^32]: a target of 10 at time 5 is not
    recognised, and the comparator is programmed for [10 - XTIMER_OVERHEAD],
    which lies almost a whole period later. *)
Theorem set_absolute_backoff_underflow :
  match _xtimer_set_absolute (λ _, 5) demo_call 0 30 1 10 5
          (xtimer_boot {[ 1 := Xtimer 0 0 (Some 7) 11 ]}) with
  | Ok (_, st) => fired st = [] ∧ links st !! TIMER_LIST = Some (NEXT 1) ∧ compare_ st = Some 4294967286
  | Fault _ => False
  end.
Proof. by vm_compute. Qed.
