(* ===== verification/Base64.v ===== *)
(** * sys/base64/base64.c: encoding and decoding

    Buffers are lists of bytes (a [NULL] pointer is [None]); a write behind the
    end of the buffer is a fault. The sizes are those the caller passes. *)

From S2P Require Import Prelude.
Open Scope Z_scope.

(** ** The code *)

Definition BASE64_CAPITAL_UPPER_BOUND : Z := 25.
Definition BASE64_SMALL_UPPER_BOUND : Z := 51.
Definition BASE64_NUMBER_UPPER_BOUND : Z := 61.
Definition BASE64_PLUS : Z := 62.
Definition BASE64_SLASH : Z := 63.
Definition BASE64_EQUALS : Z := 254.
Definition BASE64_NOT_DEFINED : Z := 255.

Definition BASE64_SUCCESS : Z := 0.
Definition BASE64_ERROR_BUFFER_OUT : Z := -1.
Definition BASE64_ERROR_BUFFER_OUT_SIZE : Z := -2.
Definition BASE64_ERROR_DATA_IN : Z := -3.
Definition BASE64_ERROR_DATA_IN_SIZE : Z := -4.

(** The symbol as the byte that is stored: ['/'] is 47, ['+'] 43, ['A'] 65,
    ['z'] 122, ['9'] 57, ['='] 61. *)
Definition getsymbol (code : Z) : Z :=
  if code =? BASE64_SLASH then 47
  else if code =? BASE64_PLUS then 43
  else if code <=? BASE64_CAPITAL_UPPER_BOUND then u8 (code + 65)
  else if code <=? BASE64_SMALL_UPPER_BOUND then u8 (code + (122 - BASE64_SMALL_UPPER_BOUND))
  else if code <=? BASE64_NUMBER_UPPER_BOUND then u8 (code + (57 - BASE64_NUMBER_UPPER_BOUND))
  else BASE64_NOT_DEFINED.

(** The loop over the input: the value is the next output index, [nLst],
    [njump] and the output buffer. *)
Fixpoint encode_loop (fuel : nat) (data_in : list Z) (data_in_size i iterate_base64_buffer nLst njump : Z)
    (base64_out : list Z) : result (Z * Z * Z * list Z) :=
  match fuel with
  | O => Fault OutOfFuel
  | S fuel =>
      if i <? s32 data_in_size then
        let njump := njump + 1 in
        tmpval ← aget data_in i;
        let nNum := u8 (Z.shiftr tmpval (2 * njump)) in
        if njump =? 4 then
          let nNum := u8 (Z.shiftl nLst (8 - 2 * njump)) in
          base64_out ← aset base64_out iterate_base64_buffer (getsymbol nNum);
          encode_loop fuel data_in data_in_size (i - 1 + 1) (iterate_base64_buffer + 1) 0 0 base64_out
        else
          let nNum := u8 (nNum + Z.shiftl nLst (8 - 2 * njump)) in
          let nLst := Z.land tmpval (Z.shiftl 1 (njump * 2) - 1) in
          base64_out ← aset base64_out iterate_base64_buffer (getsymbol nNum);
          encode_loop fuel data_in data_in_size (i + 1) (iterate_base64_buffer + 1) nLst njump base64_out
      else Ok (iterate_base64_buffer, nLst, njump, base64_out)
  end.

(** [while (iterate_base64_buffer % 4)] *)
Fixpoint pad_loop (fuel : nat) (iterate_base64_buffer : Z) (base64_out : list Z) : result (Z * list Z) :=
  match fuel with
  | O => Fault OutOfFuel
  | S fuel =>
      if negb (iterate_base64_buffer mod 4 =? 0) then
        base64_out ← aset base64_out iterate_base64_buffer 61;
        pad_loop fuel (iterate_base64_buffer + 1) base64_out
      else Ok (iterate_base64_buffer, base64_out)
  end.

(** The code behind the loop. *)
Definition encode_finish (r : Z * Z * Z * list Z) : result (Z * list Z) :=
  let '(iterate_base64_buffer, nLst, njump, base64_out) := r in
  let njump := njump + 1 in
  let nNum := u8 (Z.shiftl nLst (8 - 2 * njump)) in
  base64_out ← aset base64_out iterate_base64_buffer (getsymbol nNum);
  pad_loop 4 (iterate_base64_buffer + 1) base64_out.

(** The return value, the output buffer and [*base64_out_size]. *)
Definition base64_encode (data_in : option (list Z)) (data_in_size : Z)
    (base64_out : option (list Z)) (base64_out_size : Z) : result (Z * option (list Z) * Z) :=
  let required_size := u32 (4 * (u32 (data_in_size + 2) / 3)) in
  match data_in with
  | None => Ok (BASE64_ERROR_DATA_IN, base64_out, base64_out_size)
  | Some data =>
      if data_in_size <? 1 then Ok (BASE64_ERROR_DATA_IN_SIZE, base64_out, base64_out_size)
      else if base64_out_size <? required_size then
        Ok (BASE64_ERROR_BUFFER_OUT_SIZE, base64_out, required_size)
      else
        match base64_out with
        | None => Ok (BASE64_ERROR_BUFFER_OUT, base64_out, base64_out_size)
        | Some out =>
            r ← encode_loop (S (2 * Z.to_nat data_in_size)) data data_in_size 0 0 0 0 out;
            r ← encode_finish r;
            Ok (BASE64_SUCCESS, Some r.2, r.1)
        end
  end.

(** [symbol] as the byte that is read; a negative [char] is not a symbol either
    way. *)
Definition getcode (symbol : Z) : Z :=
  if symbol =? 47 then BASE64_SLASH
  else if symbol =? 43 then BASE64_PLUS
  else if symbol =? 61 then BASE64_EQUALS
  else if symbol <? 48 then BASE64_NOT_DEFINED
  else if ((symbol <=? 57) && (48 <=? symbol))%bool then symbol + (BASE64_NUMBER_UPPER_BOUND - 57)
  else if ((symbol <=? 90) && (65 <=? symbol))%bool then symbol - 65
  else if ((symbol <=? 122) && (97 <=? symbol))%bool then symbol + (BASE64_SMALL_UPPER_BOUND - 122)
  else BASE64_NOT_DEFINED.

(** [for (int i = 1; i < (int)(base64_in_size); i++)]: [n] rounds are left. The
    value is the next output index, the last [code], [nNum] and the buffer. *)
Fixpoint decode_loop (n : nat) (base64_in : list Z) (i iterate_data_buffer nNum nLst code mask : Z)
    (data_out : list Z) : result (Z * Z * Z * list Z) :=
  match n with
  | O => Ok (iterate_data_buffer, code, nNum, data_out)
  | S n =>
      symbol ← aget base64_in i;
      let code := getcode symbol in
      if ((code =? BASE64_NOT_DEFINED) || (code =? BASE64_EQUALS))%bool then
        decode_loop n base64_in (i + 1) iterate_data_buffer nNum nLst code mask data_out
      else
        let nm := Z.shiftl 255 (2 * mask) in
        let nNum := u8 (nLst + Z.shiftr (Z.land code (Z.land 255 nm)) (2 * mask)) in
        let nLst := Z.shiftl (Z.land code (Z.land 255 (Z.lnot nm))) (8 - 2 * mask) in
        r ← (if negb (mask =? 3) then
               data_out ← aset data_out iterate_data_buffer nNum;
               Ok (iterate_data_buffer + 1, data_out)
             else Ok (iterate_data_buffer, data_out));
        let mask := if mask =? 0 then 3 else mask - 1 in
        decode_loop n base64_in (i + 1) r.1 nNum nLst code mask r.2
  end.

Definition base64_decode (base64_in : option (list Z)) (base64_in_size : Z)
    (data_out : option (list Z)) (data_out_size : Z) : result (Z * option (list Z) * Z) :=
  let required_size := u32 (base64_in_size / 4 * 3) in
  match base64_in with
  | None => Ok (BASE64_ERROR_DATA_IN, data_out, data_out_size)
  | Some data =>
      if base64_in_size <? 4 then Ok (BASE64_ERROR_DATA_IN_SIZE, data_out, data_out_size)
      else if data_out_size <? required_size then
        Ok (BASE64_ERROR_BUFFER_OUT_SIZE, data_out, required_size)
      else
        match data_out with
        | None => Ok (BASE64_ERROR_BUFFER_OUT, data_out, data_out_size)
        | Some out =>
            symbol ← aget data 0;
            let nLst := Z.shiftl (getcode symbol) 2 in
            r ← decode_loop (Z.to_nat (s32 base64_in_size - 1)) data 1 0 0 nLst 0 2 out;
            let '(iterate_data_buffer, code, nNum, out) := r in
            out ← (if code =? BASE64_EQUALS then aset out iterate_data_buffer nNum else Ok out);
            Ok (BASE64_SUCCESS, Some out, iterate_data_buffer)
        end
  end.

(** ** The encoding, block by block *)

Fixpoint enc (data : list Z) : list Z :=
  match data with
  | [] => []
  | [a] => [getsymbol (a / 4); getsymbol (a mod 4 * 16); 61; 61]
  | [a; b] => [getsymbol (a / 4); getsymbol (a mod 4 * 16 + b / 16); getsymbol (b mod 16 * 4); 61]
  | a :: b :: c :: data =>
      getsymbol (a / 4) :: getsymbol (a mod 4 * 16 + b / 16) :: getsymbol (b mod 16 * 4 + c / 64) ::
      getsymbol (c mod 64) :: enc data
  end.

Definition is_byte (b : Z) : Prop := 0 <= b < 256.

(** Induction by blocks of three bytes. *)
Lemma block_ind (P : list Z → Prop) :
  P [] → (∀ a, P [a]) → (∀ a b, P [a; b]) → (∀ a b c l, P l → P (a :: b :: c :: l)) → ∀ l, P l.
Proof.
  intros H0 H1 H2 H3. fix IH 1. intros [|a [|b [|c l]]]; [done|apply H1|apply H2|apply H3, IH].
Qed.

Lemma length_enc data : Z.of_nat (length (enc data)) = 4 * ((Z.of_nat (length data) + 2) / 3).
Proof.
  induction data as [|a|a b|a b c l IH] using block_ind; try reflexivity.
  cbn [enc length]. rewrite !Nat2Z.inj_succ in *. rewrite IH. dlia.
Qed.

(** ** [base64_encode] computes the encoding *)

(** The buffers as the loop sees them: [pre] is read, [w] is written. *)
Section EncodeLoop.
Variables (data : list Z) (size : Z).
Hypothesis size_data : Z.of_nat (length data) = s32 size.

Lemma encode_step fuel pre b suf w x r nLst njump i k :
  data = pre ++ b :: suf → i = Z.of_nat (length pre) → k = Z.of_nat (length w) → njump < 3 →
  encode_loop (S fuel) data size i k nLst njump (w ++ x :: r) =
  encode_loop fuel data size (i + 1) (k + 1) (Z.land b (Z.shiftl 1 ((njump + 1) * 2) - 1)) (njump + 1)
    ((w ++ [getsymbol (u8 (u8 (Z.shiftr b (2 * (njump + 1))) + Z.shiftl nLst (8 - 2 * (njump + 1))))]) ++ r).
Proof.
  intros Hd Hi Hk Hj. cbn [encode_loop].
  assert ((i <? s32 size) = true) as -> by (rewrite <- size_data, Hd, length_app; simpl; lia).
  rewrite Hd at 1. rewrite aget_app by done. cbn [mbind result_bind].
  assert ((njump + 1 =? 4) = false) as -> by lia.
  rewrite aset_app by done. cbn [mbind result_bind]. by rewrite <- app_assoc.
Qed.

Lemma encode_step4 fuel pre b suf w x r nLst i k :
  data = pre ++ b :: suf → i = Z.of_nat (length pre) → k = Z.of_nat (length w) →
  encode_loop (S fuel) data size i k nLst 3 (w ++ x :: r) =
  encode_loop fuel data size i (k + 1) 0 0 ((w ++ [getsymbol (u8 nLst)]) ++ r).
Proof.
  intros Hd Hi Hk. cbn [encode_loop].
  assert ((i <? s32 size) = true) as -> by (rewrite <- size_data, Hd, length_app; simpl; lia).
  rewrite Hd at 1. rewrite aget_app by done. cbn [mbind result_bind]. simpl (3 + 1 =? 4). cbv iota.
  rewrite aset_app by done. cbn [mbind result_bind]. rewrite <- app_assoc. f_equal. lia.
Qed.

Lemma encode_end fuel i k nLst njump out :
  i = Z.of_nat (length data) → encode_loop (S fuel) data size i k nLst njump out = Ok (k, nLst, njump, out).
Proof. intros ->. cbn [encode_loop]. by rewrite size_data, Z.ltb_irrefl. Qed.

End EncodeLoop.

(** The four symbols of a block. *)
Lemma sym1 b : is_byte b → u8 (u8 (Z.shiftr b (2 * (0 + 1))) + Z.shiftl 0 (8 - 2 * (0 + 1))) = b / 4 ∧
  Z.land b (Z.shiftl 1 ((0 + 1) * 2) - 1) = b mod 4.
Proof.
  unfold is_byte, u8. intros. change (Z.shiftl 1 _ - 1) with (Z.ones 2).
  rewrite Z.land_ones, Z.shiftr_div_pow2, Z.shiftl_0_l by lia. simpl. dlia.
Qed.
Lemma sym2 n b : is_byte b → 0 <= n < 4 →
  u8 (u8 (Z.shiftr b (2 * (0 + 1 + 1))) + Z.shiftl n (8 - 2 * (0 + 1 + 1))) = n * 16 + b / 16 ∧
  Z.land b (Z.shiftl 1 ((0 + 1 + 1) * 2) - 1) = b mod 16.
Proof.
  unfold is_byte, u8. intros. change (Z.shiftl 1 _ - 1) with (Z.ones 4).
  rewrite Z.land_ones, Z.shiftr_div_pow2, Z.shiftl_mul_pow2 by lia. simpl. dlia.
Qed.
Lemma sym3 n b : is_byte b → 0 <= n < 16 →
  u8 (u8 (Z.shiftr b (2 * (0 + 1 + 1 + 1))) + Z.shiftl n (8 - 2 * (0 + 1 + 1 + 1))) = n * 4 + b / 64 ∧
  Z.land b (Z.shiftl 1 ((0 + 1 + 1 + 1) * 2) - 1) = b mod 64.
Proof.
  unfold is_byte, u8. intros. change (Z.shiftl 1 _ - 1) with (Z.ones 6).
  rewrite Z.land_ones, Z.shiftr_div_pow2, Z.shiftl_mul_pow2 by lia. simpl. dlia.
Qed.
Lemma sym_last n : 0 <= n < 64 → u8 n = n.
Proof. unfold u8. intros. apply Z.mod_small. lia. Qed.

Lemma pad_spec n fuel k w r :
  k = Z.of_nat (length w) → (k + Z.of_nat n) mod 4 = 0 → (n < 4)%nat → (n <= length r)%nat → (n < fuel)%nat →
  pad_loop fuel k (w ++ r) = Ok (k + Z.of_nat n, w ++ replicate n 61 ++ drop n r).
Proof.
  revert fuel k w r. induction n as [|n IH]; intros [|fuel] k w r Hk Hm Hn Hr Hf; try lia; cbn [pad_loop].
  - rewrite Z.add_0_r in *. by rewrite Hm.
  - assert (negb (k mod 4 =? 0) = true) as ->.
    { destruct (Z.eqb_spec (k mod 4) 0); [|done]. exfalso. revert Hm.
      rewrite <- Z.add_mod_idemp_l, e by lia. rewrite Z.add_0_l, Z.mod_small by lia. lia. }
    destruct r as [|x r]; [simpl in Hr; lia|].
    rewrite aset_app by done. cbn [mbind result_bind].
    replace (w ++ 61 :: r) with ((w ++ [61]) ++ r) by by rewrite <- app_assoc.
    rewrite IH; [|rewrite length_app; simpl; lia|rewrite <- Hm; f_equal; lia|lia|simpl in Hr; lia|lia].
    do 2 f_equal; [lia|]. by rewrite <- app_assoc.
Qed.

Lemma encode_finish_spec n k w x r nLst njump :
  k = Z.of_nat (length w) → (k + 1 + Z.of_nat n) mod 4 = 0 → (n < 4)%nat → (n <= length r)%nat →
  encode_finish (k, nLst, njump, w ++ x :: r) =
  Ok (k + 1 + Z.of_nat n, w ++ getsymbol (u8 (Z.shiftl nLst (8 - 2 * (njump + 1)))) :: replicate n 61 ++ drop n r).
Proof.
  intros Hk Hm Hn Hr. cbn [encode_finish]. rewrite aset_app by done. cbn [mbind result_bind].
  set (s := getsymbol _). replace (w ++ s :: r) with ((w ++ [s]) ++ r) by by rewrite <- app_assoc.
  rewrite (pad_spec n) by (rewrite ?length_app; simpl; lia). by rewrite <- app_assoc.
Qed.

(** The unfinished symbol behind the loop. *)
Lemma fin1 n : 0 <= n < 4 → u8 (Z.shiftl n (8 - 2 * (0 + 1 + 1))) = n * 16.
Proof. intros. rewrite Z.shiftl_mul_pow2 by lia. unfold u8. simpl. dlia. Qed.
Lemma fin2 n : 0 <= n < 16 → u8 (Z.shiftl n (8 - 2 * (0 + 1 + 1 + 1))) = n * 4.
Proof. intros. rewrite Z.shiftl_mul_pow2 by lia. unfold u8. simpl. dlia. Qed.
Lemma fin3 n : 0 <= n < 64 → u8 (Z.shiftl n (8 - 2 * (0 + 1 + 1 + 1 + 1))) = n.
Proof. intros. rewrite Z.shiftl_mul_pow2 by lia. unfold u8. simpl. dlia. Qed.

(** One step of the loop on the current buffers. *)
Ltac enc_step H Hd pre suf :=
  erewrite (encode_step _ _ H _ pre _ suf);
    [| rewrite Hd, <- ?app_assoc; reflexivity | rewrite ?length_app; simpl; lia | rewrite ?length_app; simpl; lia | lia].
Ltac enc_done H Hd n :=
  rewrite encode_end by (done || rewrite Hd, length_app; simpl; lia); cbn [mbind result_bind];
  rewrite (encode_finish_spec n); [|rewrite ?length_app; simpl; lia|dlia|lia|simpl; lia];
  do 2 f_equal; [simpl; lia|]; rewrite <- ?app_assoc; simpl.

Lemma encode_blocks data size rest :
  Z.of_nat (length data) = s32 size →
  ∀ pre w r fuel, data = pre ++ rest → rest ≠ [] → Forall is_byte rest →
  Z.of_nat (length w) mod 4 = 0 → (length (enc rest) <= length r)%nat → (2 * length rest < fuel)%nat →
  (encode_loop fuel data size (Z.of_nat (length pre)) (Z.of_nat (length w)) 0 0 (w ++ r) ≫= encode_finish) =
  Ok (Z.of_nat (length w) + Z.of_nat (length (enc rest)), w ++ enc rest ++ drop (length (enc rest)) r).
Proof.
  intros Hsz. induction rest as [|a|a b|a b c l IH] using block_ind; intros pre w r fuel Hd Hne Hb Hw Hr Hf; [done|..];
    rewrite ?Forall_cons in Hb; destruct_and?; destruct r as [|x1 [|x2 [|x3 [|x4 r]]]]; simpl in Hr; try lia.
  - destruct fuel as [|[|fuel]]; simpl in Hf; try lia.
    enc_step Hsz Hd pre (@nil Z). destruct (sym1 a) as [-> ->]; [done|].
    enc_done Hsz Hd 2%nat. rewrite fin1 by dlia. done.
  - destruct fuel as [|[|[|fuel]]]; simpl in Hf; try lia.
    enc_step Hsz Hd pre [b]. destruct (sym1 a) as [-> ->]; [done|].
    enc_step Hsz Hd (pre ++ [a]) (@nil Z). destruct (sym2 (a mod 4) b) as [-> ->]; [done|dlia|].
    enc_done Hsz Hd 1%nat. rewrite fin2 by dlia. done.
  - destruct fuel as [|[|[|[|fuel]]]]; simpl in Hf; try lia.
    enc_step Hsz Hd pre (b :: c :: l). destruct (sym1 a) as [-> ->]; [done|].
    enc_step Hsz Hd (pre ++ [a]) (c :: l). destruct (sym2 (a mod 4) b) as [-> ->]; [done|dlia|].
    enc_step Hsz Hd (pre ++ [a; b]) l. destruct (sym3 (b mod 16) c) as [-> ->]; [done|dlia|].
    destruct l as [|d l].
    + enc_done Hsz Hd 0%nat. rewrite fin3 by dlia. done.
    + erewrite (encode_step4 _ _ Hsz _ (pre ++ [a; b; c]) d l);
        [|by rewrite <- app_assoc|rewrite length_app; simpl; lia|rewrite !length_app; simpl; lia].
      rewrite sym_last by dlia. rewrite <- !app_assoc. simpl app.
      replace (w ++ _ :: _ :: _ :: _ :: r) with
        ((w ++ [getsymbol (a / 4); getsymbol (a mod 4 * 16 + b / 16); getsymbol (b mod 16 * 4 + c / 64);
                getsymbol (c mod 64)]) ++ r) by by rewrite <- app_assoc.
      replace (Z.of_nat (length pre) + 1 + 1 + 1) with (Z.of_nat (length (pre ++ [a; b; c])))
        by (rewrite length_app; simpl; lia).
      replace (Z.of_nat (length w) + 1 + 1 + 1 + 1) with (Z.of_nat (length w + 4)) by lia.
      replace (length w + 4)%nat with (length (w ++ [getsymbol (a / 4); getsymbol (a mod 4 * 16 + b / 16);
        getsymbol (b mod 16 * 4 + c / 64); getsymbol (c mod 64)])) by (rewrite length_app; simpl; lia).
      rewrite IH; [|by rewrite <- app_assoc|done|done|rewrite length_app; simpl; dlia|simpl in *; lia|simpl in *; lia].
      cbn [enc]. rewrite length_app. cbn [length]. do 2 f_equal; [lia|]. by rewrite <- app_assoc.
Qed.

(** ** [base64_decode] inverts the encoding *)

(** Facts about all codes, checked one by one. *)
Lemma all_codes (P : Z → bool) c : forallb P (seqZ 0 64) = true → 0 <= c < 64 → P c = true.
Proof. intros HP Hc. rewrite forallb_forall in HP. apply HP, list_elem_of_In, elem_of_seqZ. lia. Qed.

Lemma getcode_getsymbol c : 0 <= c < 64 → getcode (getsymbol c) = c.
Proof. intros Hc. apply Z.eqb_eq. by apply (all_codes (λ c, getcode (getsymbol c) =? c)). Qed.

Definition hi (c mask : Z) : Z := Z.shiftr (Z.land c (Z.land 255 (Z.shiftl 255 (2 * mask)))) (2 * mask).
Definition lo (c mask : Z) : Z :=
  Z.shiftl (Z.land c (Z.land 255 (Z.lnot (Z.shiftl 255 (2 * mask))))) (8 - 2 * mask).

Lemma hi_lo c :
  0 <= c < 64 →
  hi c 3 = 0 ∧ lo c 3 = c * 4 ∧ hi c 2 = c / 16 ∧ lo c 2 = c mod 16 * 16 ∧
  hi c 1 = c / 4 ∧ lo c 1 = c mod 4 * 64 ∧ hi c 0 = c ∧ lo c 0 = 0.
Proof.
  intros Hc.
  pose proof (all_codes (λ c, (hi c 3 =? 0) && (lo c 3 =? c * 4) && (hi c 2 =? c / 16) && (lo c 2 =? c mod 16 * 16) &&
    (hi c 1 =? c / 4) && (lo c 1 =? c mod 4 * 64) && (hi c 0 =? c) && (lo c 0 =? 0))%bool c eq_refl Hc) as H.
  rewrite !andb_true_iff, !Z.eqb_eq in H. tauto.
Qed.

Section DecodeLoop.
Variable inp : list Z.

(** A symbol of the input; [decode_skip] a padding character. *)
Lemma decode_step n pre c suf w x r i k nNum nLst code mask :
  inp = pre ++ getsymbol c :: suf → 0 <= c < 64 → i = Z.of_nat (length pre) → k = Z.of_nat (length w) →
  0 <= mask < 3 →
  decode_loop (S n) inp i k nNum nLst code mask (w ++ x :: r) =
  decode_loop n inp (i + 1) (k + 1) (u8 (nLst + hi c mask)) (lo c mask) c (if mask =? 0 then 3 else mask - 1)
    ((w ++ [u8 (nLst + hi c mask)]) ++ r).
Proof.
  intros Hd Hc Hi Hk Hm. cbn [decode_loop]. rewrite Hd at 1. rewrite aget_app by done. cbn [mbind result_bind].
  rewrite getcode_getsymbol by done. unfold BASE64_NOT_DEFINED, BASE64_EQUALS.
  assert (((c =? 255) || (c =? 254))%bool = false) as -> by lia.
  assert (negb (mask =? 3) = true) as -> by lia. fold (hi c mask) (lo c mask).
  rewrite aset_app by done. cbn [mbind result_bind fst snd]. by rewrite <- app_assoc.
Qed.

Lemma decode_step3 n pre c suf out i k nNum nLst code :
  inp = pre ++ getsymbol c :: suf → 0 <= c < 64 → i = Z.of_nat (length pre) →
  decode_loop (S n) inp i k nNum nLst code 3 out = decode_loop n inp (i + 1) k (u8 (nLst + hi c 3)) (lo c 3) c 2 out.
Proof.
  intros Hd Hc Hi. cbn [decode_loop]. rewrite Hd at 1. rewrite aget_app by done. cbn [mbind result_bind].
  rewrite getcode_getsymbol by done. unfold BASE64_NOT_DEFINED, BASE64_EQUALS.
  by assert (((c =? 255) || (c =? 254))%bool = false) as -> by lia.
Qed.

Lemma decode_skip n pre suf out i k nNum nLst code mask :
  inp = pre ++ 61 :: suf → i = Z.of_nat (length pre) →
  decode_loop (S n) inp i k nNum nLst code mask out =
  decode_loop n inp (i + 1) k nNum nLst BASE64_EQUALS mask out.
Proof. intros Hd Hi. cbn [decode_loop]. rewrite Hd at 1. by rewrite aget_app. Qed.
End DecodeLoop.

(** The first code of an encoding. *)
Definition first_code (data : list Z) : Z := match data with a :: _ => a / 4 | [] => 0 end.

Ltac dec_step Hd pre suf :=
  erewrite (decode_step _ _ pre _ suf);
    [| rewrite Hd, <- ?app_assoc; reflexivity | dlia | rewrite ?length_app; simpl; lia
     | rewrite ?length_app; simpl; lia | lia].

(** The bytes of a block from its codes. *)
Lemma byte1 a n : is_byte a → 0 <= n < 16 → u8 (a / 4 * 4 + (a mod 4 * 16 + n) / 16) = a.
Proof. unfold is_byte, u8. intros. dlia. Qed.
Lemma byte2 a b n : is_byte a → is_byte b → 0 <= n < 4 →
  u8 ((a mod 4 * 16 + b / 16) mod 16 * 16 + (b mod 16 * 4 + n) / 4) = b.
Proof. unfold is_byte, u8. intros. dlia. Qed.
Lemma byte3 b c : is_byte b → is_byte c → u8 ((b mod 16 * 4 + c / 64) mod 4 * 64 + c mod 64) = c.
Proof. unfold is_byte, u8. intros. dlia. Qed.

Lemma enc_first d l : ∃ suf, enc (d :: l) = getsymbol (d / 4) :: suf.
Proof. destruct l as [|b [|c l]]; eexists; done. Qed.

Lemma decode_blocks inp rest :
  ∀ pre w r nNum code, inp = pre ++ enc rest → rest ≠ [] → Forall is_byte rest →
  (length rest <= length r)%nat →
  ∃ code' nNum',
    decode_loop (length (enc rest) - 1) inp (Z.of_nat (length pre) + 1) (Z.of_nat (length w)) nNum
      (first_code rest * 4) code 2 (w ++ r) =
    Ok (Z.of_nat (length w) + Z.of_nat (length rest), code', nNum', w ++ rest ++ drop (length rest) r) ∧
    (code' = BASE64_EQUALS → Z.of_nat (length rest) mod 3 ≠ 0).
Proof.
  induction rest as [|a|a b|a b c l IH] using block_ind; intros pre w r nNum code Hd Hne Hb Hr; [done|..];
    rewrite ?Forall_cons in Hb; destruct_and?; unfold is_byte in *;
    (destruct r as [|x1 r]; [simpl in Hr; lia|]); cbn [enc] in Hd; simpl first_code.
  - change (length (enc [a]) - 1)%nat with 3%nat.
    dec_step Hd (pre ++ [getsymbol (a / 4)]) [61; 61]. simpl (2 =? 0). cbv iota.
    destruct (hi_lo (a mod 4 * 16)) as (_ & _ & -> & -> & _); [dlia|].
    rewrite <- (Z.add_0_r (a mod 4 * 16)), byte1 by (done || lia).
    erewrite (decode_skip _ _ (pre ++ [_; _])); [|by rewrite Hd, <- app_assoc|rewrite length_app; simpl; lia].
    erewrite (decode_skip _ _ (pre ++ [_; _; 61])); [|by rewrite Hd, <- app_assoc|rewrite length_app; simpl; lia].
    eexists _, _. split; [|by intros]. cbn [decode_loop]. rewrite <- app_assoc. done.
  - destruct r as [|x2 r]; [simpl in Hr; lia|]. change (length (enc [a; b]) - 1)%nat with 3%nat.
    dec_step Hd (pre ++ [getsymbol (a / 4)]) [getsymbol (b mod 16 * 4); 61]. simpl (2 =? 0). cbv iota.
    destruct (hi_lo (a mod 4 * 16 + b / 16)) as (_ & _ & -> & -> & _); [dlia|]. rewrite byte1 by (done || dlia).
    dec_step Hd (pre ++ [getsymbol (a / 4); getsymbol (a mod 4 * 16 + b / 16)]) [61]. simpl (_ =? 0). cbv iota.
    change (2 - 1) with 1. destruct (hi_lo (b mod 16 * 4)) as (_ & _ & _ & _ & -> & -> & _); [dlia|].
    rewrite <- (Z.add_0_r (b mod 16 * 4)), byte2 by (done || dlia).
    erewrite (decode_skip _ _ (pre ++ [_; _; _])); [|by rewrite Hd, <- app_assoc|rewrite length_app; simpl; lia].
    eexists _, _. split; [|by intros]. cbn [decode_loop]. rewrite <- !app_assoc. do 4 f_equal. simpl. lia.
  - destruct r as [|x2 [|x3 r]]; [simpl in Hr; lia..|].
    change (length (enc (a :: b :: c :: l)) - 1)%nat with (3 + length (enc l))%nat.
    set (c0 := a / 4) in *. set (c1 := a mod 4 * 16 + b / 16) in *. set (c2 := b mod 16 * 4 + c / 64) in *.
    set (c3 := c mod 64) in *.
    assert (0 <= c1 < 64 ∧ 0 <= c2 < 64 ∧ 0 <= c3 < 64) as (? & ? & ?) by (unfold c1, c2, c3; dlia).
    simpl Nat.add. dec_step Hd (pre ++ [getsymbol c0]) (getsymbol c2 :: getsymbol c3 :: enc l).
    change (if 2 =? 0 then 3 else 2 - 1) with 1.
    dec_step Hd (pre ++ [getsymbol c0; getsymbol c1]) (getsymbol c3 :: enc l).
    change (if 1 =? 0 then 3 else 1 - 1) with 0.
    dec_step Hd (pre ++ [getsymbol c0; getsymbol c1; getsymbol c2]) (enc l).
    change (if 0 =? 0 then 3 else 0 - 1) with 3.
    destruct (hi_lo c1) as (_ & _ & -> & -> & _); [done|].
    destruct (hi_lo c2) as (_ & _ & _ & _ & -> & -> & _); [done|].
    destruct (hi_lo c3) as (_ & _ & _ & _ & _ & _ & -> & ->); [done|].
    unfold c0, c1, c2, c3. rewrite byte1, byte2, byte3 by (done || dlia). fold c0 c1 c2 c3.
    destruct l as [|d l].
    + exists c3, c. cbn [decode_loop enc length]. split; [|intros E; exfalso; unfold BASE64_EQUALS in E; lia].
      rewrite <- !app_assoc. do 4 f_equal. simpl. lia.
    + rewrite Forall_cons in *. destruct_and?. destruct (enc_first d l) as [suf Hsuf].
      rewrite Hsuf. cbn [length].
      erewrite (decode_step3 _ _ (pre ++ [getsymbol c0; getsymbol c1; getsymbol c2; getsymbol c3]) (d / 4) suf);
        [|rewrite Hd, Hsuf, <- app_assoc; reflexivity|unfold is_byte in *; dlia|rewrite length_app; simpl; lia].
      destruct (hi_lo (d / 4)) as (-> & -> & _); [unfold is_byte in *; dlia|].
      rewrite <- !app_assoc. simpl app.
      replace (w ++ a :: b :: c :: r) with ((w ++ [a; b; c]) ++ r) by by rewrite <- app_assoc.
      destruct (IH (pre ++ [getsymbol c0; getsymbol c1; getsymbol c2; getsymbol c3]) (w ++ [a; b; c]) r
        (u8 (0 + 0)) (d / 4)) as (code' & nNum' & E & Hc); [by rewrite Hd, <- app_assoc|done|apply Forall_cons; split; [lia|done]|simpl in *; lia|].
      exists code', nNum'. rewrite Hsuf in E. cbn [length] in E. rewrite Nat.sub_succ, Nat.sub_0_r in E.
      rewrite !length_app in E. cbn [length] in E.
      replace (Z.of_nat (length pre) + 1 + 1 + 1 + 1 + 1) with (Z.of_nat (length pre + 4) + 1) by lia.
      replace (Z.of_nat (length w) + 1 + 1 + 1) with (Z.of_nat (length w + 3)) by lia.
      split.
      * etransitivity; [exact E|]. rewrite <- app_assoc. cbn [length]. do 4 f_equal. lia.
      * intros Hc'. specialize (Hc Hc'). cbn [length] in *. rewrite !Nat2Z.inj_succ in *. dlia.
Qed.

(** ** Round trip *)

(** [base64_encode] on buffers that are large enough. *)
Lemma base64_encode_spec data out size :
  data ≠ [] → Forall is_byte data → Z.of_nat (length data) < 1073741824 →
  4 * ((Z.of_nat (length data) + 2) / 3) <= size → size <= Z.of_nat (length out) →
  base64_encode (Some data) (Z.of_nat (length data)) (Some out) size =
  Ok (BASE64_SUCCESS, Some (enc data ++ drop (length (enc data)) out), Z.of_nat (length (enc data))).
Proof.
  intros Hne Hb Hlen Hsz Hout. unfold base64_encode. set (n := Z.of_nat (length data)) in *.
  assert (1 <= n) by (unfold n; destruct data; [done|simpl; lia]).
  assert ((n <? 1) = false) as -> by lia.
  assert (u32 (4 * (u32 (n + 2) / 3)) = 4 * ((n + 2) / 3)) as ->.
  { unfold u32. rewrite (Z.mod_small (n + 2)) by lia. apply Z.mod_small. dlia. }
  assert ((size <? 4 * ((n + 2) / 3)) = false) as -> by lia.
  pose proof (length_enc data) as Hel. fold n in Hel.
  pose proof (encode_blocks data n data) as HE. rewrite s32_small in HE by lia.
  specialize (HE eq_refl [] [] out (S (2 * Z.to_nat n)) eq_refl Hne Hb eq_refl).
  simpl length in HE. simpl app in HE. change (Z.of_nat 0) with 0 in HE. rewrite !Z.add_0_l in HE.
  destruct (encode_loop _ _ _ 0 0 0 0 out) as [r|e]; simpl in HE |- *.
  - rewrite HE by lia. done.
  - by discriminate HE; lia.
Qed.

Lemma base64_decode_spec data out size :
  data ≠ [] → Forall is_byte data → Z.of_nat (length data) < 1073741824 →
  3 * ((Z.of_nat (length data) + 2) / 3) <= size → size <= Z.of_nat (length out) →
  ∃ tail, base64_decode (Some (enc data)) (Z.of_nat (length (enc data))) (Some out) size =
            Ok (BASE64_SUCCESS, Some (data ++ tail), Z.of_nat (length data)) ∧
          length (data ++ tail) = length out.
Proof.
  intros Hne Hb Hlen Hsz Hout. unfold base64_decode. pose proof (length_enc data) as Hel.
  set (n := Z.of_nat (length data)) in *.
  assert (1 <= n) by (unfold n; destruct data; [done|simpl; lia]).
  set (m := Z.of_nat (length (enc data))) in *. assert (4 <= m) by dlia.
  assert ((m <? 4) = false) as -> by lia.
  assert (u32 (m / 4 * 3) = 3 * ((n + 2) / 3)) as ->.
  { unfold u32. rewrite Hel, Z.mul_comm, Z.mul_comm, Z.mod_small; dlia. }
  assert ((size <? 3 * ((n + 2) / 3)) = false) as -> by lia.
  assert (∃ d l, data = d :: l) as (d & l & Ed) by (destruct data; [done|eauto]).
  destruct (enc_first d l) as [suf Hsuf].
  assert (is_byte d) as Hbd by (rewrite Ed in Hb; by apply Forall_cons in Hb as [? _]).
  assert (aget (enc data) 0 = Ok (getsymbol (d / 4))) as -> by (rewrite Ed, Hsuf; done).
  cbn [mbind result_bind]. unfold is_byte in Hbd. rewrite getcode_getsymbol by dlia.
  rewrite s32_small by dlia. rewrite Z.shiftl_mul_pow2 by lia. change (2 ^ 2) with 4.
  destruct (decode_blocks (enc data) data [] [] out 0 0) as (code & nNum & E & Hc); [done|done|done|dlia|].
  simpl length in E. simpl app in E. change (Z.of_nat 0 + 1) with 1 in E. change (Z.of_nat 0) with 0 in E.
  rewrite Z.add_0_l in E. fold n in E. replace (first_code data) with (d / 4) in E by (by rewrite Ed).
  replace (Z.to_nat (m - 1)) with (length (enc data) - 1)%nat by lia. rewrite E. cbn [mbind result_bind].
  destruct (Z.eqb_spec code BASE64_EQUALS) as [->|_].
  - specialize (Hc eq_refl). destruct (drop (length data) out) as [|x tl] eqn:Edr.
    { apply (f_equal length) in Edr. rewrite length_drop in Edr. simpl in Edr. exfalso. fold n in Hc. dlia. }
    rewrite aset_app by done. cbn [mbind result_bind]. exists (nNum :: tl). split; [done|].
    apply (f_equal length) in Edr. rewrite length_drop in Edr. rewrite length_app. simpl in *. lia.
  - cbn [mbind result_bind]. exists (drop (length data) out). split; [done|].
    rewrite length_app, length_drop. dlia.
Qed.

(** C38: What [base64_encode] writes, [base64_decode] reads back: for every
    non-empty input and buffers of the sizes the functions ask for, both succeed
    without leaving their buffers, and decoding gives the input and its length. *)
Theorem base64_roundtrip data out out2 :
  data ≠ [] → Forall is_byte data → Z.of_nat (length data) < 1073741824 →
  Z.of_nat (length out) = 4 * ((Z.of_nat (length data) + 2) / 3) →
  Z.of_nat (length out2) = 3 * ((Z.of_nat (length data) + 2) / 3) →
  ∃ text tail,
    base64_encode (Some data) (Z.of_nat (length data)) (Some out) (Z.of_nat (length out)) =
      Ok (BASE64_SUCCESS, Some text, Z.of_nat (length out)) ∧
    base64_decode (Some text) (Z.of_nat (length out)) (Some out2) (Z.of_nat (length out2)) =
      Ok (BASE64_SUCCESS, Some (data ++ tail), Z.of_nat (length data)) ∧
    length text = length out ∧ length (data ++ tail) = length out2.
Proof.
  intros Hne Hb Hlen Ho Ho2. pose proof (length_enc data) as Hel.
  destruct (base64_decode_spec data out2 (Z.of_nat (length out2))) as (tail & E & Ht); [done|done|done|lia|lia|].
  exists (enc data), tail. rewrite base64_encode_spec by (done || lia).
  rewrite drop_ge, app_nil_r by lia. replace (length out) with (length (enc data)) by lia. done.
Qed.

Lemma base64_roundtrip_witness :
  ∃ text tail,
    base64_encode (Some [77; 97; 110; 33]) 4 (Some (replicate 8 0)) 8 = Ok (BASE64_SUCCESS, Some text, 8) ∧
    base64_decode (Some text) 8 (Some (replicate 6 0)) 6 = Ok (BASE64_SUCCESS, Some ([77; 97; 110; 33] ++ tail), 4) ∧
    length text = 8%nat ∧ length ([77; 97; 110; 33] ++ tail) = 6%nat.
Proof.
  apply (base64_roundtrip [77; 97; 110; 33] (replicate 8 0) (replicate 6 0));
    [done | repeat constructor; done | by vm_compute..].
Defined.

(** ** Inputs that are not a multiple of four symbols

    The size check of [base64_decode] rounds the input size down to whole blocks,
    so seven symbols pass with a buffer of three bytes, but decode to five. *)
Theorem base64_decode_overflow :
  base64_decode (Some [65; 65; 65; 65; 65; 65; 65]) 7 (Some [0; 0; 0]) 3 = Fault OutOfBounds.
Proof. reflexivity. Qed.
