(* ===== verification/Fmt.v ===== *)
(** * sys/fmt/fmt.c: formatting and scanning of numbers

    A [char *] into the caller's buffer is [NULL], an offset into the buffer, or
    [Wild]: what arithmetic on the null pointer gives. Accesses outside the
    buffer are faults. Characters are bytes (['0'] is 48, ['-'] 45, ['.'] 46). *)

From S2P Require Import Prelude.
Open Scope Z_scope.

(** ** Pointers and buffers *)

Inductive ptr : Type :=
  | NULL
  | At (i : Z)
  | Wild.

Definition nonnull (p : ptr) : bool := match p with NULL => false | _ => true end.
Definition padd (p : ptr) (n : Z) : ptr :=
  match p with
  | NULL => if n =? 0 then NULL else Wild
  | At i => At (i + n)
  | Wild => Wild
  end.
Definition store (buf : list Z) (p : ptr) (v : Z) : result (list Z) :=
  match p with At i => aset buf i v | NULL => Fault NullDeref | Wild => Fault BadPointer end.

(** [-val] of an [int32_t]. *)
Definition neg32 (val : Z) : result Z :=
  if val =? -2147483648 then Fault SignedOverflow else Ok (- val).

(** ** Formatting *)

Definition _hex_chars : list Z := [48; 49; 50; 51; 52; 53; 54; 55; 56; 57; 65; 66; 67; 68; 69; 70].
Definition _tenmap : list Z := [0; 10; 100; 1000; 10000; 100000; 1000000; 10000000].
Definition TENMAP_SIZE : Z := 8.

Definition _is_digit (c : Z) : bool := ((48 <=? c) && (c <=? 57))%bool.

(** Every function returns the number of characters and the buffer. *)
Definition fmt_byte_hex (buf : list Z) (out : ptr) (byte : Z) : result (Z * list Z) :=
  if nonnull out then
    hi ← aget _hex_chars (Z.shiftr byte 4);
    buf ← store buf out hi;
    lo ← aget _hex_chars (Z.land byte 15);
    buf ← store buf (padd out 1) lo;
    Ok (2, buf)
  else Ok (2, buf).

Fixpoint strlen_loop (fuel : nat) (str : list Z) (tmp : Z) : result Z :=
  match fuel with
  | O => Fault OutOfFuel
  | S fuel => c ← aget str tmp; if negb (c =? 0) then strlen_loop fuel str (tmp + 1) else Ok tmp
  end.

(** A string is the list that holds its characters and the terminating zero. *)
Definition fmt_strlen (str : list Z) : result Z := strlen_loop (S (length str)) str 0.

Fixpoint str_loop (fuel : nat) (buf : list Z) (out : ptr) (str : list Z) (len : Z) : result (Z * list Z) :=
  match fuel with
  | O => Fault OutOfFuel
  | S fuel =>
      c ← aget str len;
      if negb (c =? 0) then
        buf ← store buf out c;
        str_loop fuel buf (padd out 1) str (len + 1)
      else Ok (len, buf)
  end.

Definition fmt_str (buf : list Z) (out : ptr) (str : list Z) : result (Z * list Z) :=
  if negb (nonnull out) then len ← fmt_strlen str; Ok (len, buf)
  else str_loop (S (length str)) buf out str 0.

(** [while (i--)]: [i] rounds are left. *)
Fixpoint hex_reverse_loop (i : nat) (buf : list Z) (out : ptr) (ptr_ : list Z) : result (list Z) :=
  match i with
  | O => Ok buf
  | S i =>
      b ← aget ptr_ (Z.of_nat i);
      r ← fmt_byte_hex buf out b;
      hex_reverse_loop i r.2 (padd out r.1) ptr_
  end.

Definition fmt_bytes_hex_reverse (buf : list Z) (out : ptr) (ptr_ : list Z) (n : Z) : result (Z * list Z) :=
  buf ← hex_reverse_loop (Z.to_nat n) buf out ptr_;
  Ok (u32 (Z.shiftl n 1), buf).

(** The bytes of an object in memory, least significant first. *)
Fixpoint le_bytes (n : nat) (val : Z) : list Z :=
  match n with O => [] | S n => val mod 256 :: le_bytes n (val / 256) end.

Definition fmt_u32_hex (buf : list Z) (out : ptr) (val : Z) : result (Z * list Z) :=
  fmt_bytes_hex_reverse buf out (le_bytes 4 val) 4.

Definition fmt_u64_hex (buf : list Z) (out : ptr) (val : Z) : result (Z * list Z) :=
  fmt_bytes_hex_reverse buf out (le_bytes 8 val) 8.

(** [for (uint32_t tmp = 10; tmp <= val; len++) { tmp *= 10; }] *)
Fixpoint count_loop (fuel : nat) (tmp val len : Z) : result Z :=
  match fuel with
  | O => Fault OutOfFuel
  | S fuel => if tmp <=? val then count_loop fuel (u32 (tmp * 10)) val (len + 1) else Ok len
  end.

(** [do { *--ptr = (val % 10) + '0'; } while ((val /= 10));] *)
Fixpoint digits_loop (fuel : nat) (buf : list Z) (p : ptr) (val : Z) : result (list Z) :=
  match fuel with
  | O => Fault OutOfFuel
  | S fuel =>
      let p := padd p (-1) in
      buf ← store buf p (val mod 10 + 48);
      let val := val / 10 in
      if negb (val =? 0) then digits_loop fuel buf p val else Ok buf
  end.

(** The loop that counts the characters is given 40 rounds; ten are enough for
    every value it counts correctly. *)
Definition fmt_u32_dec (buf : list Z) (out : ptr) (val : Z) : result (Z * list Z) :=
  len ← count_loop 40 10 val 1;
  if nonnull out then
    buf ← digits_loop 10 buf (padd out len) val;
    Ok (len, buf)
  else Ok (len, buf).

(** [while (!d[first] && first) { first--; }] *)
Fixpoint first_loop (first : nat) (d : list Z) : nat :=
  match first with
  | O => O
  | S first' => if nth first d 0 =? 0 then first_loop first' d else first
  end.

(** [memset(out, '0', n)] *)
Fixpoint memset0 (n : nat) (buf : list Z) (out : ptr) : result (list Z) :=
  match n with O => Ok buf | S n => buf ← store buf out 48; memset0 n buf (padd out 1) end.

(** [while(first) { first--; ... out += 4; }] *)
Fixpoint groups_loop (first : nat) (d : list Z) (buf : list Z) (out : ptr) : result (list Z) :=
  match first with
  | O => Ok buf
  | S first =>
      let x := nth first d 0 in
      buf ← (if negb (x =? 0) then
               t ← fmt_u32_dec buf NULL x;
               r ← fmt_u32_dec buf (padd out (4 - t.1)) x;
               Ok r.2
             else Ok buf);
      groups_loop first d buf (padd out 4)
  end.

Definition u64_groups (val : Z) : list Z :=
  let d0 := Z.land val 65535 in
  let d1 := Z.land (Z.shiftr val 16) 65535 in
  let d2 := Z.land (Z.shiftr val 32) 65535 in
  let d3 := Z.land (Z.shiftr val 48) 65535 in
  let d0 := u32 (656 * d3 + 7296 * d2 + 5536 * d1 + d0) in
  let q := d0 / 10000 in
  let d0 := d0 mod 10000 in
  let d1 := u32 (q + 7671 * d3 + 9496 * d2 + 6 * d1) in
  let q := d1 / 10000 in
  let d1 := d1 mod 10000 in
  let d2 := u32 (q + 4749 * d3 + 42 * d2) in
  let q := d2 / 10000 in
  let d2 := d2 mod 10000 in
  let d3 := u32 (q + 281 * d3) in
  let q := d3 / 10000 in
  let d3 := d3 mod 10000 in
  [d0; d1; d2; d3; q].

Definition fmt_u64_dec (buf : list Z) (out : ptr) (val : Z) : result (Z * list Z) :=
  let d := u64_groups val in
  let first := first_loop 4 d in
  r ← fmt_u32_dec buf out (nth first d 0);
  let '(len, buf) := r in
  let total_len := len + Z.of_nat first * 4 in
  if nonnull out then
    let out := padd out len in
    buf ← memset0 (Z.to_nat (total_len - len)) buf out;
    buf ← groups_loop first d buf out;
    Ok (total_len, buf)
  else Ok (total_len, buf).

Definition fmt_u16_dec (buf : list Z) (out : ptr) (val : Z) : result (Z * list Z) := fmt_u32_dec buf out val.

Definition fmt_s32_dec (buf : list Z) (out : ptr) (val : Z) : result (Z * list Z) :=
  let negative := b2z (val <? 0) in
  if val <? 0 then
    r ← (if nonnull out then buf ← store buf out 45; Ok (buf, padd out 1) else Ok (buf, out));
    val ← neg32 val;
    r ← fmt_u32_dec r.1 r.2 val;
    Ok (r.1 + negative, r.2)
  else
    r ← fmt_u32_dec buf out val;
    Ok (r.1 + negative, r.2).

Definition fmt_s16_dec (buf : list Z) (out : ptr) (val : Z) : result (Z * list Z) := fmt_s32_dec buf out val.

(** [while (pos < n) { out[pos++] = '0'; }] *)
Fixpoint zero_loop (fuel : nat) (buf : list Z) (out : ptr) (pos n : Z) : result (Z * list Z) :=
  match fuel with
  | O => Fault OutOfFuel
  | S fuel =>
      if pos <? n then buf ← store buf (padd out pos) 48; zero_loop fuel buf out (pos + 1) n
      else Ok (pos, buf)
  end.

Fixpoint copy_loop (n : nat) (i : Z) (tmp buf : list Z) (out : ptr) (pos : Z) : result (Z * list Z) :=
  match n with
  | O => Ok (pos, buf)
  | S n => c ← aget tmp i; buf ← store buf (padd out pos) c; copy_loop n (i + 1) tmp buf out (pos + 1)
  end.

(** [tmp0] is what the local array [tmp] holds before it is written. *)
Definition fmt_s32_dfp (tmp0 : list Z) (buf : list Z) (out : ptr) (val fp_digits : Z) : result (Z * list Z) :=
  _ ← assert_ (fp_digits <? TENMAP_SIZE);
  if fp_digits =? 0 then fmt_s32_dec buf out val
  else
    r ← (if val <? 0 then
           r ← (if nonnull out then buf ← store buf (padd out 0) 45; Ok (1, buf) else Ok (0, buf));
           val ← neg32 val;
           Ok (val, r)
         else Ok (val, (0, buf)));
    let '(val, (pos, buf)) := r in
    e ← aget _tenmap fp_digits;
    let absolute := s32 (val / e) in
    let divider := s32 (u32 (val - u32 (absolute * e))) in
    r ← fmt_s32_dec buf (padd out pos) absolute;
    let pos := pos + r.1 in
    let buf := r.2 in
    if negb (nonnull out) then Ok (pos + 1 + fp_digits, buf)
    else
      buf ← store buf (padd out pos) 46;
      let pos := pos + 1 in
      let len := pos + fp_digits in
      t ← fmt_s32_dec tmp0 (At 0) divider;
      let '(div_len, tmp) := t in
      r ← zero_loop 10 buf out pos (u32 (len - div_len));
      copy_loop (Z.to_nat div_len) 0 tmp r.2 out r.1.

Definition fmt_s16_dfp (tmp0 : list Z) (buf : list Z) (out : ptr) (val fp_digits : Z) : result (Z * list Z) :=
  fmt_s32_dfp tmp0 buf out val fp_digits.

(** [memmove(out + n, out, in_len); memset(out, pad_char, n);] *)
Definition pad_memmove (buf : list Z) (o in_len n pad_char : Z) : result (list Z) :=
  buf ← memcpy buf (o + n) buf o in_len;
  memcpy buf o (replicate (Z.to_nat n) pad_char) 0 n.

(** The loops of [fmt_lpad] without [memmove]. *)
Fixpoint shift_loop (n : nat) (buf : list Z) (pos out : Z) : result (list Z) :=
  match n with
  | O => Ok buf
  | S n => c ← aget buf out; buf ← aset buf pos c; shift_loop n buf (pos - 1) (out - 1)
  end.
Fixpoint fill_loop (n : nat) (buf : list Z) (pos pad_char : Z) : result (list Z) :=
  match n with O => Ok buf | S n => buf ← aset buf pos pad_char; fill_loop n buf (pos - 1) pad_char end.

Definition fmt_lpad (FMT_USE_MEMMOVE : bool) (buf : list Z) (out : ptr) (in_len pad_len pad_char : Z) : result (Z * list Z) :=
  if pad_len <=? in_len then Ok (in_len, buf)
  else
    match out with
    | NULL => Ok (pad_len, buf)
    | Wild => Fault BadPointer
    | At o =>
        let n := pad_len - in_len in
        buf ← (if FMT_USE_MEMMOVE then pad_memmove buf o in_len n pad_char
               else
                 buf ← shift_loop (Z.to_nat in_len) buf (o + pad_len - 1) (o + in_len - 1);
                 fill_loop (Z.to_nat n) buf (o + pad_len - 1 - in_len) pad_char);
        Ok (pad_len, buf)
    end.

(** ** Scanning *)

Fixpoint scn_loop (n : nat) (str : list Z) (i res : Z) : result Z :=
  match n with
  | O => Ok res
  | S n =>
      c ← aget str i;
      if negb (_is_digit c) then Ok res
      else scn_loop n str (i + 1) (u32 (u32 (res * 10) + (c - 48)))
  end.

Definition scn_u32_dec (str : list Z) (n : Z) : result Z := scn_loop (Z.to_nat n) str 0 0.

(** ** Printing

    [write] is the system call: the result of the [k]-th call of a [print] on the
    bytes it is given. The value is what was handed to it and accepted. *)
Section Print.
Variable write : nat → list Z → Z.

Fixpoint print_loop (fuel k : nat) (s : list Z) (pos n : Z) (sent : list Z) : result (list Z) :=
  match fuel with
  | O => Fault OutOfFuel
  | S fuel =>
      if 0 <? n then
        let chunk := take (Z.to_nat n) (drop (Z.to_nat pos) s) in
        let written := write k chunk in
        if written <? 0 then Ok sent
        else print_loop fuel (S k) s (pos + written) (n - written) (sent ++ take (Z.to_nat written) chunk)
      else Ok sent
  end.

Definition print (s : list Z) (n : Z) : result (list Z) := print_loop (S (Z.to_nat n)) 0 s 0 n [].

(** [buf] is the contents of the local array before it is written. *)
Definition print_u32_dec (buf : list Z) (val : Z) : result (list Z) :=
  r ← fmt_u32_dec buf (At 0) val; print r.2 r.1.
Definition print_s32_dec (buf : list Z) (val : Z) : result (list Z) :=
  r ← fmt_s32_dec buf (At 0) val; print r.2 r.1.
Definition print_byte_hex (buf : list Z) (byte : Z) : result (list Z) :=
  r ← fmt_byte_hex buf (At 0) byte; print r.2 2.
Definition print_u32_hex (buf : list Z) (val : Z) : result (list Z) :=
  r ← fmt_u32_hex buf (At 0) val; print r.2 8.
Definition print_u64_hex (buf : list Z) (val : Z) : result (list Z) :=
  a ← print_u32_hex buf (u32 (Z.shiftr val 32));
  b ← print_u32_hex buf (u32 val);
  Ok (a ++ b).
Definition print_u64_dec (buf : list Z) (val : Z) : result (list Z) :=
  r ← fmt_u64_dec buf (At 0) val; print r.2 r.1.
Definition print_str (str : list Z) : result (list Z) :=
  len ← fmt_strlen str; print str len.
End Print.

(** ** Decimal digits *)

(** The last [k] decimal digits of [v], as characters. *)
Fixpoint dec (k : nat) (v : Z) : list Z :=
  match k with O => [] | S k => dec k (v / 10) ++ [v mod 10 + 48] end.

Lemma length_dec k v : length (dec k v) = k.
Proof. revert v. induction k as [|k IH]; intros v; [done|]. simpl. rewrite length_app, IH. simpl. lia. Qed.

Lemma dec_app k m a b :
  0 <= b < 10 ^ Z.of_nat m → dec (k + m) (a * 10 ^ Z.of_nat m + b) = dec k a ++ dec m b.
Proof.
  revert a b. induction m as [|m IH]; intros a b Hb.
  - simpl in *. rewrite Nat.add_0_r, app_nil_r. f_equal. lia.
  - rewrite Nat.add_succ_r. cbn [dec]. rewrite app_assoc. rewrite Nat2Z.inj_succ, Z.pow_succ_r in * by lia.
    replace ((a * (10 * 10 ^ Z.of_nat m) + b) / 10) with (a * 10 ^ Z.of_nat m + b / 10).
    2: { replace (a * (10 * 10 ^ Z.of_nat m) + b) with (b + a * 10 ^ Z.of_nat m * 10) by lia.
         rewrite Z.div_add by lia. lia. }
    replace ((a * (10 * 10 ^ Z.of_nat m) + b) mod 10) with (b mod 10).
    2: { replace (a * (10 * 10 ^ Z.of_nat m) + b) with (b + a * 10 ^ Z.of_nat m * 10) by lia.
         by rewrite Z_mod_plus_full. }
    rewrite IH; [done|]. split; [dlia|]. apply Z.div_lt_upper_bound; lia.
Qed.

Lemma dec_0 k : dec k 0 = replicate k 48.
Proof. induction k as [|k IH]; [done|]. cbn [dec]. change (0 / 10) with 0. rewrite IH. change (0 mod 10 + 48) with 48. by rewrite <- replicate_S_end. Qed.

(** Leading zeros. *)
Lemma dec_pad k m b : 0 <= b < 10 ^ Z.of_nat m → dec (k + m) b = replicate k 48 ++ dec m b.
Proof. intros Hb. rewrite <- dec_0, <- dec_app by done. by rewrite Z.mul_0_l, Z.add_0_l. Qed.

(** [k] is the number of digits of [v] without leading zeros. *)
Definition ndigits (k : nat) (v : Z) : Prop :=
  (1 <= k)%nat ∧ 0 <= v < 10 ^ Z.of_nat k ∧ (k = 1%nat ∨ 10 ^ (Z.of_nat k - 1) <= v).

Lemma digits_loop_spec fuel k w mid r v :
  length mid = k → ndigits k v → (k <= fuel)%nat →
  digits_loop fuel (w ++ mid ++ r) (At (Z.of_nat (length w + k))) v = Ok (w ++ dec k v ++ r).
Proof.
  revert k mid r v. induction fuel as [|fuel IH]; intros [|k] mid r v Hm (Hk & Hv & Hlow) Hf; try lia.
  cbn [digits_loop padd store].
  destruct (exists_last (l := mid)) as (mid' & x & ->); [by intros ->|].
  rewrite length_app in Hm. simpl in Hm.
  replace (w ++ (mid' ++ [x]) ++ r) with ((w ++ mid') ++ x :: r) by by rewrite <- !app_assoc.
  rewrite aset_app by (rewrite length_app; lia). cbn [mbind result_bind].
  rewrite Nat2Z.inj_succ, Z.pow_succ_r in Hv by lia.
  destruct (Z.eqb_spec (v / 10) 0) as [E|E]; cbn [negb].
  - assert (k = 0%nat) as ->.
    { destruct Hlow as [?|Hlow]; [lia|]. destruct (decide (k = 0%nat)); [done|]. exfalso.
      replace (Z.of_nat (S k) - 1) with (Z.succ (Z.of_nat k - 1)) in Hlow by lia.
      rewrite Z.pow_succ_r in Hlow by lia.
      pose proof (Z.pow_pos_nonneg 10 (Z.of_nat k - 1)). dlia. }
    assert (mid' = []) as -> by (destruct mid'; [done|simpl in Hm; lia]).
    cbn [dec]. by rewrite app_nil_r.
  - destruct Hlow as [?|Hlow].
    { exfalso. assert (k = 0%nat) as -> by lia. simpl in Hv. dlia. }
    replace (Z.of_nat (S k) - 1) with (Z.of_nat k) in Hlow by lia.
    assert (k ≠ 0%nat). { intros ->. simpl in Hv. dlia. }
    replace (Z.of_nat (length w + S k) + -1) with (Z.of_nat (length w + k)) by lia.
    rewrite <- app_assoc. rewrite (IH k mid' (v mod 10 + 48 :: r)); [cbn [dec]; by rewrite <- !app_assoc|lia| |lia].
    split; [lia|]. split; [split; [dlia|]; apply Z.div_lt_upper_bound; lia|]. right.
    replace (Z.of_nat k) with (Z.succ (Z.of_nat k - 1)) in Hlow by lia.
    rewrite Z.pow_succ_r in Hlow by lia. apply Z.div_le_lower_bound; lia.
Qed.

(** The counting loop is right below [10^10 mod 2^32], where the power of ten
    overflows for the first time. *)
Lemma count_loop_from j k fuel v :
  0 <= v < 1410065408 → (j + k = 10)%nat → (1 <= k)%nat → (j < fuel)%nat →
  (k = 1%nat ∨ 10 ^ (Z.of_nat k - 1) <= v) →
  ∃ n, count_loop fuel (u32 (10 ^ Z.of_nat k)) v (Z.of_nat k) = Ok (Z.of_nat n) ∧ ndigits n v ∧ (n <= 10)%nat.
Proof.
  intros Hv. revert k fuel. induction j as [|j IH]; intros k [|fuel] Hjk Hk Hf Hlow; try lia; cbn [count_loop].
  - assert (k = 10%nat) as -> by lia. change (u32 (10 ^ Z.of_nat 10)) with 1410065408.
    assert ((1410065408 <=? v) = false) as -> by lia. exists 10%nat. split; [done|]. split; [|lia].
    split; [lia|]. split; [|done]. change (10 ^ Z.of_nat 10) with 10000000000. lia.
  - assert (Hu : u32 (10 ^ Z.of_nat k) = 10 ^ Z.of_nat k).
    { unfold u32. apply Z.mod_small. split; [lia|]. apply Z.le_lt_trans with (10 ^ 9); [|done].
      apply Z.pow_le_mono_r; lia. }
    rewrite Hu. destruct (Z.leb_spec (10 ^ Z.of_nat k) v) as [Hle|Hlt].
    + replace (10 ^ Z.of_nat k * 10) with (10 ^ Z.of_nat (S k)) by (rewrite Nat2Z.inj_succ, Z.pow_succ_r; lia).
      replace (Z.of_nat k + 1) with (Z.of_nat (S k)) by lia. apply IH; [lia..|].
      right. by replace (Z.of_nat (S k) - 1) with (Z.of_nat k) by lia.
    + exists k. split; [done|]. split; [|lia]. split; [done|]. split; [lia|done].
Qed.

Lemma count_loop_spec v :
  0 <= v < 1410065408 → ∃ k, count_loop 40 10 v 1 = Ok (Z.of_nat k) ∧ ndigits k v ∧ (k <= 10)%nat.
Proof. intros Hv. apply (count_loop_from 9 1 40 v); lia. Qed.

(** [fmt_u32_dec] writes the digits at [out], or only counts them. *)
Lemma fmt_u32_dec_spec v :
  0 <= v < 1410065408 →
  ∃ k, ndigits k v ∧ (k <= 10)%nat ∧
    (∀ buf, fmt_u32_dec buf NULL v = Ok (Z.of_nat k, buf)) ∧
    (∀ w mid r i, length mid = k → i = Z.of_nat (length w) →
     fmt_u32_dec (w ++ mid ++ r) (At i) v = Ok (Z.of_nat k, w ++ dec k v ++ r)).
Proof.
  intros Hv. destruct (count_loop_spec v Hv) as (k & E & Hk & Hk10). exists k.
  split; [done|]. split; [done|]. unfold fmt_u32_dec. rewrite E. cbn [mbind result_bind nonnull padd].
  split; [done|]. intros w mid r i Hm ->. rewrite <- Nat2Z.inj_add. by rewrite (digits_loop_spec 10 k).
Qed.

Lemma ndigits_unique k k' v : ndigits k v → ndigits k' v → k = k'.
Proof.
  intros (H1 & H2 & H3) (H1' & H2' & H3').
  destruct (Nat.lt_trichotomy k k') as [Hlt|[->|Hlt]]; [|done|].
  - destruct H3' as [->|H3']; [lia|]. exfalso.
    assert (10 ^ Z.of_nat k <= 10 ^ (Z.of_nat k' - 1)) by (apply Z.pow_le_mono_r; lia). lia.
  - destruct H3 as [->|H3]; [lia|]. exfalso.
    assert (10 ^ Z.of_nat k' <= 10 ^ (Z.of_nat k - 1)) by (apply Z.pow_le_mono_r; lia). lia.
Qed.

(** ** Scanning what was formatted *)

Lemma scn_loop_dec k pre v suf res n :
  0 <= res → 0 <= v < 10 ^ Z.of_nat k → res * 10 ^ Z.of_nat k + v < 4294967296 →
  scn_loop (k + n) (pre ++ dec k v ++ suf) (Z.of_nat (length pre)) res =
  scn_loop n (pre ++ dec k v ++ suf) (Z.of_nat (length pre + k)) (res * 10 ^ Z.of_nat k + v).
Proof.
  revert pre v suf n. induction k as [|k IH]; intros pre v suf n Hr Hv Hb.
  - simpl in *. rewrite Nat.add_0_r. f_equal. lia.
  - cbn [dec]. rewrite Nat2Z.inj_succ, Z.pow_succ_r in * by lia.
    replace (S k + n)%nat with (k + S n)%nat by lia. rewrite <- app_assoc.
    assert (0 <= v / 10 < 10 ^ Z.of_nat k) by (split; [dlia|]; apply Z.div_lt_upper_bound; lia).
    pose proof (Z.div_mod v 10). pose proof (Z.mod_pos_bound v 10).
    set (p := 10 ^ Z.of_nat k) in *. assert (0 < p) by (apply Z.pow_pos_nonneg; lia).
    assert (0 <= res * p + v / 10) by nia.
    rewrite IH; [|done|done|lia]. cbn [scn_loop]. fold p.
    replace (pre ++ dec k (v / 10) ++ [v mod 10 + 48] ++ suf)
      with ((pre ++ dec k (v / 10)) ++ (v mod 10 + 48) :: suf) by by rewrite <- app_assoc.
    rewrite aget_app by (rewrite length_app, length_dec; lia). cbn [mbind result_bind].
    assert (_is_digit (v mod 10 + 48) = true) as -> by (unfold _is_digit; lia). cbn [negb].
    replace (Z.of_nat (length pre + k) + 1) with (Z.of_nat (length pre + S k)) by lia. f_equal.
    unfold u32. rewrite (Z.mod_small ((res * p + v / 10) * 10)) by lia. rewrite Z.mod_small by lia. lia.
Qed.

(** [scn_u32_dec] reads back what [fmt_u32_dec] writes, the count-only call
    announces the length, and nothing behind the digits is touched; for all
    values below [10^10 mod 2^32]. *)
Theorem fmt_scn_u32_roundtrip buf v :
  0 <= v < 1410065408 → (10 <= length buf)%nat →
  ∃ len buf', fmt_u32_dec buf (At 0) v = Ok (len, buf') ∧ fmt_u32_dec buf NULL v = Ok (len, buf) ∧
    scn_u32_dec buf' len = Ok v ∧ length buf' = length buf ∧
    drop (Z.to_nat len) buf' = drop (Z.to_nat len) buf ∧
    (10 ^ (len - 1) <= v < 10 ^ len ∨ len = 1 ∧ v < 10).
Proof.
  intros Hv Hbuf. destruct (fmt_u32_dec_spec v Hv) as (k & (Hk1 & Hk2 & Hk3) & Hk10 & E0 & E).
  exists (Z.of_nat k), (dec k v ++ drop k buf).
  split.
  { pose proof (E [] (take k buf) (drop k buf) 0) as E'. simpl app in E'. rewrite take_drop in E'.
    apply E'; [rewrite length_take; lia|done]. }
  split; [done|]. split.
  - unfold scn_u32_dec. rewrite Nat2Z.id. pose proof (scn_loop_dec k [] v (drop k buf) 0 0) as H.
    rewrite Nat.add_0_r in H. simpl app in H. etransitivity; [apply H; lia|done].
  - rewrite length_app, length_dec, length_drop, Nat2Z.id. split; [lia|]. split.
    + by rewrite drop_app_length' by (by rewrite length_dec).
    + destruct Hk3 as [->|]; [right; simpl in *; lia|left; lia].
Qed.

Lemma fmt_scn_u32_roundtrip_witness :
  ∃ len buf', fmt_u32_dec (replicate 10 0) (At 0) 90210 = Ok (len, buf') ∧
    fmt_u32_dec (replicate 10 0) NULL 90210 = Ok (len, replicate 10 0) ∧
    scn_u32_dec buf' len = Ok 90210 ∧ length buf' = 10%nat ∧
    drop (Z.to_nat len) buf' = drop (Z.to_nat len) (replicate 10 0) ∧
    (10 ^ (len - 1) <= 90210 < 10 ^ len ∨ len = 1 ∧ 90210 < 10).
Proof. apply (fmt_scn_u32_roundtrip (replicate 10 0) 90210); [lia | by vm_compute; lia]. Defined.

(** From [10^10 mod 2^32] on the counting loop is wrong: two characters too many
    for two thousand million, and no end for the largest value. *)
Theorem fmt_u32_dec_count_wrong : fmt_u32_dec [] NULL 2000000000 = Ok (12, []).
Proof. reflexivity. Qed.

Lemma count_loop_forever fuel tmp len : 0 <= tmp → count_loop fuel (u32 tmp) 4294967295 len = Fault OutOfFuel.
Proof.
  revert tmp len. induction fuel as [|fuel IH]; intros tmp len Ht; [done|]. cbn [count_loop].
  assert ((u32 tmp <=? 4294967295) = true) as -> by (unfold u32; pose proof (Z.mod_pos_bound tmp 4294967296); lia).
  rewrite <- (Z.mod_small (u32 tmp) 4294967296) by (unfold u32; apply Z.mod_pos_bound; lia).
  apply IH. unfold u32. pose proof (Z.mod_pos_bound tmp 4294967296). rewrite Z.mod_mod by lia. lia.
Qed.

Theorem fmt_u32_dec_hangs fuel : count_loop fuel 10 4294967295 1 = Fault OutOfFuel.
Proof. apply (count_loop_forever fuel 10). lia. Qed.

(** ** 64-bit values *)

(** The groups of four digits of a value. *)
Lemma u64_groups_spec v :
  0 <= v < 18446744073709551616 →
  ∃ d0 d1 d2 d3 d4, u64_groups v = [d0; d1; d2; d3; d4] ∧
    v = d0 + d1 * 10 ^ 4 + d2 * 10 ^ 8 + d3 * 10 ^ 12 + d4 * 10 ^ 16 ∧
    0 <= d0 < 10000 ∧ 0 <= d1 < 10000 ∧ 0 <= d2 < 10000 ∧ 0 <= d3 < 10000 ∧ 0 <= d4 < 10000.
Proof.
  intros Hv. unfold u64_groups. change 65535 with (Z.ones 16).
  rewrite !Z.land_ones, !Z.shiftr_div_pow2 by lia.
  change (2 ^ 16) with 65536. change (2 ^ 32) with 4294967296. change (2 ^ 48) with 281474976710656.
  assert (v / 281474976710656 mod 65536 = v / 281474976710656) as ->.
  { apply Z.mod_small. split; [dlia|]. apply Z.div_lt_upper_bound; lia. }
  assert (Hsum : v = v mod 65536 + (v / 65536) mod 65536 * 65536 + (v / 4294967296) mod 65536 * 4294967296 +
    v / 281474976710656 * 281474976710656) by dlia.
  assert (0 <= v / 281474976710656 < 65536) by (split; [dlia|apply Z.div_lt_upper_bound; lia]).
  pose proof (Z.mod_pos_bound v 65536). pose proof (Z.mod_pos_bound (v / 65536) 65536).
  pose proof (Z.mod_pos_bound (v / 4294967296) 65536).
  set (a := v mod 65536) in *. set (b := (v / 65536) mod 65536) in *.
  set (c := (v / 4294967296) mod 65536) in *. set (d := v / 281474976710656) in *. clearbody a b c d.
  assert (Hu : ∀ z, 0 <= z < 4294967296 → u32 z = z) by (intros; by apply Z.mod_small).
  set (e0 := 656 * d + 7296 * c + 5536 * b + a). rewrite (Hu e0) by (unfold e0; lia).
  pose proof (Z.div_mod e0 10000). pose proof (Z.mod_pos_bound e0 10000).
  set (q0 := e0 / 10000) in *. set (r0 := e0 mod 10000) in *. clearbody q0 r0.
  set (e1 := q0 + 7671 * d + 9496 * c + 6 * b). rewrite (Hu e1) by (unfold e1, e0 in *; lia).
  pose proof (Z.div_mod e1 10000). pose proof (Z.mod_pos_bound e1 10000).
  set (q1 := e1 / 10000) in *. set (r1 := e1 mod 10000) in *. clearbody q1 r1.
  set (e2 := q1 + 4749 * d + 42 * c). rewrite (Hu e2) by (unfold e2, e1, e0 in *; lia).
  pose proof (Z.div_mod e2 10000). pose proof (Z.mod_pos_bound e2 10000).
  set (q2 := e2 / 10000) in *. set (r2 := e2 mod 10000) in *. clearbody q2 r2.
  set (e3 := q2 + 281 * d). rewrite (Hu e3) by (unfold e3, e2, e1, e0 in *; lia).
  pose proof (Z.div_mod e3 10000). pose proof (Z.mod_pos_bound e3 10000).
  set (q3 := e3 / 10000) in *. set (r3 := e3 mod 10000) in *. clearbody q3 r3.
  exists r0, r1, r2, r3, q3. unfold e0, e1, e2, e3 in *. split; [done|]. lia.
Qed.

(** The value of the lower [n] groups and their digits. *)
Fixpoint lower (n : nat) (d : list Z) : Z :=
  match n with O => 0 | S n => nth n d 0 * 10 ^ Z.of_nat (4 * n) + lower n d end.

Definition groups_ok (d : list Z) : Prop := ∀ n, 0 <= nth n d 0 < 10000.

Lemma lower_bound n d : groups_ok d → 0 <= lower n d < 10 ^ Z.of_nat (4 * n).
Proof.
  intros Hd. induction n as [|n IH]; [simpl; lia|]. cbn [lower].
  replace (Z.of_nat (4 * S n)) with (4 + Z.of_nat (4 * n)) by lia. rewrite Z.pow_add_r by lia.
  specialize (Hd n). change (10 ^ 4) with 10000. nia.
Qed.

Lemma memset0_spec n w mid r i :
  length mid = n → i = Z.of_nat (length w) → memset0 n (w ++ mid ++ r) (At i) = Ok (w ++ replicate n 48 ++ r).
Proof.
  revert w mid i. induction n as [|n IH]; intros w [|x mid] i Hm ->; try done.
  cbn [memset0 store padd app]. rewrite aset_app by done. cbn [mbind result_bind].
  replace (w ++ 48 :: mid ++ r) with ((w ++ [48]) ++ mid ++ r) by by rewrite <- app_assoc.
  rewrite IH; [|simpl in Hm; lia|rewrite length_app; simpl; lia]. by rewrite <- app_assoc.
Qed.

(** The digits of one group over the zeros. *)
Lemma group_spec x w r i :
  0 <= x < 10000 → i = Z.of_nat (length w) →
  (if negb (x =? 0) then
     t ← fmt_u32_dec (w ++ replicate 4 48 ++ r) NULL x;
     s ← fmt_u32_dec (w ++ replicate 4 48 ++ r) (padd (At i) (4 - t.1)) x; Ok s.2
   else Ok (w ++ replicate 4 48 ++ r)) = Ok (w ++ dec 4 x ++ r).
Proof.
  intros Hx ->. destruct (Z.eqb_spec x 0) as [->|Hne]; [done|]. cbn [negb].
  destruct (fmt_u32_dec_spec x) as (k & (Hk & Hlt & Hlow) & _ & E0 & E); [lia|].
  assert (k <= 4)%nat as Hk4.
  { destruct Hlow as [->|Hlow]; [lia|]. destruct (decide (k <= 4)%nat); [done|]. exfalso.
    assert (10 ^ 4 <= 10 ^ (Z.of_nat k - 1)) by (apply Z.pow_le_mono_r; lia). simpl in *. lia. }
  rewrite E0. cbn [mbind result_bind fst padd].
  replace (w ++ replicate 4 48 ++ r) with ((w ++ replicate (4 - k) 48) ++ replicate k 48 ++ r).
  2: { rewrite <- app_assoc, (app_assoc (replicate (4 - k) 48)), <- replicate_add. by replace (4 - k + k)%nat with 4%nat by lia. }
  rewrite E; [|apply length_replicate|rewrite length_app, length_replicate; lia]. cbn [mbind result_bind snd].
  replace 4%nat with (4 - k + k)%nat at 2 by lia. rewrite dec_pad by done. by rewrite <- !app_assoc.
Qed.

Lemma groups_loop_spec first d w r i :
  groups_ok d → i = Z.of_nat (length w) →
  groups_loop first d (w ++ replicate (4 * first) 48 ++ r) (At i) = Ok (w ++ dec (4 * first) (lower first d) ++ r).
Proof.
  intros Hd. revert w i. induction first as [|first IH]; intros w i ->; [done|]. cbn [groups_loop lower].
  replace (replicate (4 * S first) 48) with (replicate 4 48 ++ replicate (4 * first) 48)
    by (rewrite <- replicate_add; f_equal; lia).
  rewrite <- app_assoc, group_spec by (done || apply Hd). cbn [mbind result_bind padd].
  rewrite app_assoc, IH by (rewrite length_app, length_dec; lia). rewrite <- !app_assoc.
  replace (4 * S first)%nat with (4 + 4 * first)%nat by lia.
  rewrite dec_app by (by apply lower_bound). by rewrite <- app_assoc.
Qed.

Lemma first_loop_spec n d :
  (first_loop n d <= n)%nat ∧ (first_loop n d = 0%nat ∨ nth (first_loop n d) d 0 ≠ 0) ∧
  lower (S n) d = lower (S (first_loop n d)) d.
Proof.
  induction n as [|n IH]; cbn [first_loop]; [by repeat split; left|].
  destruct (Z.eqb_spec (nth (S n) d 0) 0) as [E|E].
  - destruct IH as (H1 & H2 & H3). split; [lia|]. split; [done|]. rewrite <- H3. cbn [lower] in *.
    rewrite E. lia.
  - repeat split; [lia|by right].
Qed.

(** The digits of the leading group and of the groups below. *)
Lemma ndigits_groups k x m low :
  ndigits k x → (m = 0%nat ∨ x ≠ 0) → 0 <= low < 10 ^ Z.of_nat m →
  ndigits (k + m) (x * 10 ^ Z.of_nat m + low).
Proof.
  intros (Hk & Hx & Hlow) Hm Hl. split; [lia|]. rewrite Nat2Z.inj_add, Z.pow_add_r by lia.
  split; [nia|]. destruct Hm as [->|Hne].
  - simpl in Hl. rewrite Nat.add_0_r. change (Z.of_nat 0) with 0. rewrite Z.add_0_r, Z.pow_0_r. destruct Hlow; [by left|right; lia].
  - right. replace (Z.of_nat k + Z.of_nat m - 1) with (Z.of_nat k - 1 + Z.of_nat m) by lia.
    rewrite Z.pow_add_r by lia. assert (10 ^ (Z.of_nat k - 1) <= x); [|nia].
    destruct Hlow as [->|]; [simpl; lia|done].
Qed.

(** [fmt_u64_dec] writes exactly the decimal digits of its argument, without
    leading zeros, for every 64-bit value: the splitting into four-digit groups
    neither overflows 32 bits nor loses a carry. Without a buffer it returns the
    same length. *)
Theorem fmt_u64_dec_correct v w mid r :
  0 <= v < 18446744073709551616 →
  ∃ k, ndigits k v ∧
    (∀ buf, fmt_u64_dec buf NULL v = Ok (Z.of_nat k, buf)) ∧
    (length mid = k →
     fmt_u64_dec (w ++ mid ++ r) (At (Z.of_nat (length w))) v = Ok (Z.of_nat k, w ++ dec k v ++ r)).
Proof.
  intros Hv. destruct (u64_groups_spec v Hv) as (d0 & d1 & d2 & d3 & d4 & Ed & Hsum & H0 & H1 & H2 & H3 & H4).
  unfold fmt_u64_dec. rewrite Ed. set (d := [d0; d1; d2; d3; d4]) in *.
  assert (Hok : groups_ok d). { intros [|[|[|[|[|[|n]]]]]]; simpl; lia. }
  assert (Hval : v = lower 5 d) by (rewrite Hsum; unfold d; cbn [lower nth]; simpl Z.of_nat; lia).
  destruct (first_loop_spec 4 d) as (Hf & Hf' & Hfv). rewrite <- Hval in Hfv. clear Ed Hsum Hval.
  set (first := first_loop 4 d) in *. clearbody first. cbn [lower] in Hfv.
  destruct (fmt_u32_dec_spec (nth first d 0)) as (k & Hk & _ & E0 & E); [specialize (Hok first); lia|].
  exists (k + 4 * first)%nat. rewrite Hfv. pose proof (lower_bound first d Hok) as Hlb. split; [|split].
  - apply ndigits_groups; [done| |done]. destruct Hf' as [->|]; [by left|by right].
  - intros buf. rewrite E0. cbn [mbind result_bind nonnull]. do 2 f_equal. lia.
  - intros Hm. rewrite <- (take_drop k mid), <- app_assoc.
    assert (length (take k mid) = k) by (rewrite length_take; lia).
    rewrite E by done. cbn [mbind result_bind nonnull padd]. rewrite app_assoc.
    rewrite (memset0_spec _ _ (drop k mid));
      [|rewrite length_drop; lia|rewrite length_app, length_dec; lia].
    cbn [mbind result_bind]. replace (Z.to_nat _) with (4 * first)%nat by lia.
    rewrite groups_loop_spec by (done || rewrite length_app, length_dec; lia). cbn [mbind result_bind].
    rewrite dec_app by done. rewrite <- !app_assoc. do 2 f_equal. lia.
Qed.

Lemma fmt_u64_dec_correct_witness :
  ∃ k, ndigits k 18446744073709551615 ∧
    (∀ buf, fmt_u64_dec buf NULL 18446744073709551615 = Ok (Z.of_nat k, buf)) ∧
    (length (replicate 20 0) = k →
     fmt_u64_dec ([] ++ replicate 20 0 ++ []) (At (Z.of_nat (length (@nil Z)))) 18446744073709551615 =
       Ok (Z.of_nat k, [] ++ dec k 18446744073709551615 ++ [])).
Proof. apply (fmt_u64_dec_correct 18446744073709551615 [] (replicate 20 0) []). lia. Defined.

(** The buffer of [print_u64_dec] has 18 bytes; the largest values have 20 digits. *)
Theorem print_u64_dec_overflow write :
  print_u64_dec write (replicate 18 0) 18446744073709551615 = Fault OutOfBounds.
Proof. reflexivity. Qed.

(** Counting the characters of a hexadecimal number without a buffer advances the
    null pointer and then writes through it. *)
Theorem fmt_u32_hex_null : fmt_u32_hex [] NULL 305419896 = Fault BadPointer.
Proof. reflexivity. Qed.

(** Without a buffer [fmt_s32_dfp] does not count the sign. *)
Theorem fmt_s32_dfp_null_sign :
  fmt_s32_dfp (replicate 9 0) [] NULL (-5) 1 = Ok (3, []) ∧
  fmt_s32_dfp (replicate 9 0) (replicate 8 0) (At 0) (-5) 1 = Ok (4, [45; 48; 46; 53; 0; 0; 0; 0]).
Proof. split; reflexivity. Qed.
