(* ===== verification/Cbor.v ===== *)
(** * sys/cbor/cbor.c: Concise Binary Object Representation

    A stream is a caller's buffer with its size and the index of the next free
    byte. [size_t] has 32 bits. The build modelled here has
    [MODULE_CBOR_SEMANTIC_TAGGING] and neither [MODULE_CBOR_FLOAT] nor
    [MODULE_CBOR_CTIME]. *)

From S2P Require Import Prelude.
Open Scope Z_scope.

Definition s64 (z : Z) : Z := (z + 9223372036854775808) mod 18446744073709551616 - 9223372036854775808.

(** ** Streams *)

Record cbor_stream_t : Type := Stream {
  data : list Z;
  size : Z;
  pos : Z
}.

Definition CBOR_TYPE_MASK : Z := 224.
Definition CBOR_INFO_MASK : Z := 31.
Definition CBOR_BYTE_FOLLOWS : Z := 24.
Definition CBOR_UINT : Z := 0.
Definition CBOR_NEGINT : Z := 32.
Definition CBOR_BYTES : Z := 64.
Definition CBOR_TEXT : Z := 96.
Definition CBOR_ARRAY : Z := 128.
Definition CBOR_MAP : Z := 160.
Definition CBOR_TAG : Z := 192.
Definition CBOR_7 : Z := 224.
Definition CBOR_UINT8_FOLLOWS : Z := 24.
Definition CBOR_UINT16_FOLLOWS : Z := 25.
Definition CBOR_UINT32_FOLLOWS : Z := 26.
Definition CBOR_UINT64_FOLLOWS : Z := 27.
Definition CBOR_VAR_FOLLOWS : Z := 31.
Definition CBOR_FALSE : Z := Z.lor CBOR_7 20.
Definition CBOR_TRUE : Z := Z.lor CBOR_7 21.
Definition CBOR_BREAK : Z := Z.lor CBOR_7 31.
Definition CBOR_STREAM_PRINT_BUFFERSIZE : Z := 1024.

(** A stream pointer that may be [NULL]. *)
Definition sptr : Type := option cbor_stream_t.
Definition deref (s : sptr) : result cbor_stream_t := from_option_or NullDeref s.

Definition CBOR_TYPE (s : cbor_stream_t) (offset : Z) : result Z :=
  b ← aget (data s) offset; Ok (Z.land b CBOR_TYPE_MASK).
Definition CBOR_ADDITIONAL_INFO (s : cbor_stream_t) (offset : Z) : result Z :=
  b ← aget (data s) offset; Ok (Z.land b CBOR_INFO_MASK).

(** The conditions under which [CBOR_ENSURE_SIZE] and [CBOR_ENSURE_SIZE_READ]
    let the function go on. *)
Definition CBOR_ENSURE_SIZE (s : cbor_stream_t) (bytes : Z) : bool := u32 (pos s + bytes) <? size s.
Definition CBOR_ENSURE_SIZE_READ (s : cbor_stream_t) (bytes : Z) : bool := bytes <=? size s.

(** [s->data[s->pos++] = v] *)
Definition put (s : cbor_stream_t) (v : Z) : result cbor_stream_t :=
  d ← aset (data s) (pos s) v; Ok (Stream d (size s) (u32 (pos s + 1))).

Definition cbor_init (stream : sptr) (buffer : list Z) (sz : Z) : sptr :=
  match stream with None => None | Some _ => Some (Stream buffer sz 0) end.
Definition cbor_clear (stream : sptr) : sptr :=
  match stream with None => None | Some s => Some (Stream (data s) (size s) 0) end.
Definition cbor_destroy (stream : sptr) : sptr :=
  match stream with None => None | Some _ => Some (Stream [] 0 0) end.

(** ** Heads: the initial byte and the bytes of the argument *)

Definition uint_additional_info (val : Z) : Z :=
  if val <? CBOR_UINT8_FOLLOWS then val
  else if val <=? 255 then CBOR_UINT8_FOLLOWS
  else if val <=? 65535 then CBOR_UINT16_FOLLOWS
  else if val <=? 4294967295 then CBOR_UINT32_FOLLOWS
  else CBOR_UINT64_FOLLOWS.

Definition uint_bytes_follow (additional_info : Z) : Z :=
  if ((additional_info <? CBOR_UINT8_FOLLOWS) || (CBOR_UINT64_FOLLOWS <? additional_info))%bool then 0
  else nth (Z.to_nat (additional_info - CBOR_UINT8_FOLLOWS)) [1; 2; 4; 8] 0.

(** [for (int i = bytes_follow - 1; i >= 0; --i)]: [n] bytes are left. *)
Fixpoint put_bytes (n : nat) (s : cbor_stream_t) (val : Z) : result cbor_stream_t :=
  match n with
  | O => Ok s
  | S i => s ← put s (Z.land (Z.shiftr val (8 * Z.of_nat i)) 255); put_bytes i s val
  end.

(** The writers return the number of bytes and the stream. *)
Definition encode_int (major_type : Z) (s : sptr) (val : Z) : result (Z * sptr) :=
  match s with
  | None => Ok (0, s)
  | Some st =>
      let additional_info := uint_additional_info val in
      let bytes_follow := uint_bytes_follow additional_info in
      if negb (CBOR_ENSURE_SIZE st (bytes_follow + 1)) then Ok (0, s)
      else
        st ← put st (Z.lor major_type additional_info);
        st ← put_bytes (Z.to_nat bytes_follow) st val;
        Ok (bytes_follow + 1, Some st)
  end.

(** The big-endian value of [n] bytes from [i] on: [htons], [htonl] and [htonll]
    of an unaligned load on a little-endian machine. *)
Fixpoint be_load (n : nat) (d : list Z) (i acc : Z) : result Z :=
  match n with
  | O => Ok acc
  | S n => b ← aget d i; be_load n d (i + 1) (acc * 256 + b)
  end.

(** The number of bytes read and [*val]; a [NULL] stream leaves [*val] at
    [val0]. *)
Definition decode_int (s : sptr) (offset val0 : Z) : result (Z * Z) :=
  match s with
  | None => Ok (0, val0)
  | Some st =>
      if negb (CBOR_ENSURE_SIZE_READ st (u32 (offset + 1))) then Ok (0, 0)
      else
        additional_info ← CBOR_ADDITIONAL_INFO st offset;
        let bytes_follow := uint_bytes_follow additional_info in
        if negb (CBOR_ENSURE_SIZE_READ st (u32 (offset + 1 + bytes_follow))) then Ok (0, 0)
        else
          val ← (if bytes_follow =? 0 then b ← aget (data st) offset; Ok (Z.land b CBOR_INFO_MASK)
                 else be_load (Z.to_nat bytes_follow) (data st) (offset + 1) 0);
          Ok (bytes_follow + 1, val)
  end.

(** ** Byte strings *)

Definition encode_bytes (major_type : Z) (s : sptr) (d : list Z) (length : Z) : result (Z * sptr) :=
  let length_field_size := uint_bytes_follow (uint_additional_info length) + 1 in
  st ← deref s;
  if negb (CBOR_ENSURE_SIZE st (u32 (length_field_size + length))) then Ok (0, s)
  else
    r ← encode_int major_type s length;
    let '(bytes_start, s) := r in
    if bytes_start =? 0 then Ok (0, s)
    else
      st ← deref s;
      buf ← memcpy (data st) (pos st) d 0 length;
      Ok (u32 (bytes_start + length), Some (Stream buf (size st) (u32 (pos st + length)))).

(** [SIZE_MAX] of a 32-bit [size_t]. *)
Definition SIZE_MAX : Z := 4294967295.

(** The value and the output buffer; [None] is a [NULL] pointer. *)
Definition decode_bytes (s : sptr) (offset : Z) (out : option (list Z)) (length : Z) : result (Z * option (list Z)) :=
  st ← deref s;
  if negb (CBOR_ENSURE_SIZE_READ st (u32 (offset + 1))) then Ok (0, out)
  else
    ty ← CBOR_TYPE st offset;
    if (negb (ty =? CBOR_BYTES) && negb (ty =? CBOR_TEXT))%bool then Ok (0, out)
    else
      match out with
      | None => Ok (0, out)
      | Some o =>
          r ← decode_int s offset 0;
          let '(bytes_start, bytes_length) := r in
          if bytes_start =? 0 then Ok (0, out)
          else if ((bytes_length =? SIZE_MAX) || (length <? u64 (bytes_length + 1)))%bool then Ok (0, out)
          else if negb (CBOR_ENSURE_SIZE_READ st (u64 (u32 (offset + bytes_start) + bytes_length))) then Ok (0, out)
          else
            o ← memcpy o 0 (data st) (u32 (offset + bytes_start)) (u32 bytes_length);
            o ← aset o bytes_length 0;
            Ok (u32 (bytes_start + bytes_length), Some o)
      end.

(** The value, and what [*out] and [*length] are set to: the offset of the bytes
    in the stream and their number. [out] says whether the pointer is given. *)
Definition decode_bytes_no_copy (s : sptr) (offset : Z) (out : bool) : result (Z * option (Z * Z)) :=
  st ← deref s;
  if negb (CBOR_ENSURE_SIZE_READ st (u32 (offset + 1))) then Ok (0, None)
  else
    ty ← CBOR_TYPE st offset;
    if ((negb (ty =? CBOR_BYTES) && negb (ty =? CBOR_TEXT)) || negb out)%bool then Ok (0, None)
    else
      r ← decode_int s offset 0;
      let '(bytes_start, bytes_length) := r in
      if bytes_start =? 0 then Ok (0, None)
      else if negb (CBOR_ENSURE_SIZE_READ st (u64 (u32 (offset + bytes_start) + bytes_length))) then Ok (0, None)
      else Ok (u32 (bytes_start + bytes_length), Some (u32 (offset + bytes_start), u32 bytes_length)).

(** ** Integers

    The readers return the number of bytes and [*val] when it is written; [val]
    says whether the pointer is given. *)

Definition cbor_deserialize_int (stream : sptr) (offset : Z) (val : bool) : result (Z * option Z) :=
  st ← deref stream;
  if negb (CBOR_ENSURE_SIZE_READ st (u32 (offset + 1))) then Ok (0, None)
  else
    ty ← CBOR_TYPE st offset;
    if ((negb (ty =? CBOR_UINT) && negb (ty =? CBOR_NEGINT)) || negb val)%bool then Ok (0, None)
    else
      r ← decode_int stream offset 0;
      let '(read_bytes, buf) := r in
      if read_bytes =? 0 then Ok (0, None)
      else Ok (read_bytes, Some (if ty =? CBOR_UINT then s32 buf else s32 (u64 (-1 - buf)))).

Definition cbor_serialize_int (s : sptr) (val : Z) : result (Z * sptr) :=
  if 0 <=? val then encode_int CBOR_UINT s val else encode_int CBOR_NEGINT s (-1 - val).

Definition cbor_deserialize_uint64_t (stream : sptr) (offset : Z) (val : bool) : result (Z * option Z) :=
  st ← deref stream;
  ty ← CBOR_TYPE st offset;
  if (negb (ty =? CBOR_UINT) || negb val)%bool then Ok (0, None)
  else r ← decode_int stream offset 0; Ok (r.1, Some r.2).

Definition cbor_serialize_uint64_t (s : sptr) (val : Z) : result (Z * sptr) := encode_int CBOR_UINT s val.

Definition cbor_deserialize_int64_t (stream : sptr) (offset : Z) (val : bool) : result (Z * option Z) :=
  st ← deref stream;
  ty ← CBOR_TYPE st offset;
  if ((negb (ty =? CBOR_UINT) && negb (ty =? CBOR_NEGINT)) || negb val)%bool then Ok (0, None)
  else
    r ← decode_int stream offset 0;
    let '(read_bytes, buf) := r in
    Ok (read_bytes, Some (if ty =? CBOR_UINT then s64 buf else s64 (u64 (-1 - buf)))).

Definition cbor_serialize_int64_t (s : sptr) (val : Z) : result (Z * sptr) :=
  if 0 <=? val then encode_int CBOR_UINT s val else encode_int CBOR_NEGINT s (-1 - val).

(** One byte behind the size check. *)
Definition write_byte (s : sptr) (v : Z) : result (Z * sptr) :=
  st ← deref s;
  if negb (CBOR_ENSURE_SIZE st 1) then Ok (0, s)
  else st ← put st v; Ok (1, Some st).

Definition cbor_deserialize_bool (stream : sptr) (offset : Z) (val : bool) : result (Z * option Z) :=
  st ← deref stream;
  ty ← CBOR_TYPE st offset;
  if (negb (ty =? CBOR_7) || negb val)%bool then Ok (0, None)
  else byte ← aget (data st) offset; Ok (1, Some (b2z (byte =? CBOR_TRUE))).

Definition cbor_serialize_bool (s : sptr) (val : Z) : result (Z * sptr) :=
  write_byte s (if negb (val =? 0) then CBOR_TRUE else CBOR_FALSE).

(** ** Strings, arrays and maps *)

Definition deserialize_string (ty_ : Z) (stream : sptr) (offset : Z) (val : option (list Z)) (length : Z)
  : result (Z * option (list Z)) :=
  st ← deref stream;
  if negb (CBOR_ENSURE_SIZE_READ st (u32 (offset + 1))) then Ok (0, val)
  else
    ty ← CBOR_TYPE st offset;
    if negb (ty =? ty_) then Ok (0, val) else decode_bytes stream offset val length.

Definition deserialize_string_no_copy (ty_ : Z) (stream : sptr) (offset : Z) (val : bool) : result (Z * option (Z * Z)) :=
  st ← deref stream;
  if negb (CBOR_ENSURE_SIZE_READ st (u32 (offset + 1))) then Ok (0, None)
  else
    ty ← CBOR_TYPE st offset;
    if negb (ty =? ty_) then Ok (0, None) else decode_bytes_no_copy stream offset val.

Definition cbor_deserialize_byte_string := deserialize_string CBOR_BYTES.
Definition cbor_deserialize_unicode_string := deserialize_string CBOR_TEXT.
Definition cbor_deserialize_byte_string_no_copy := deserialize_string_no_copy CBOR_BYTES.
Definition cbor_deserialize_unicode_string_no_copy := deserialize_string_no_copy CBOR_TEXT.

(** [strlen]: the string is a list with its terminating zero. *)
Fixpoint strlen (val : list Z) : result Z :=
  match val with
  | [] => Fault OutOfBounds
  | c :: val => if c =? 0 then Ok 0 else n ← strlen val; Ok (n + 1)
  end.

Definition cbor_serialize_byte_string (stream : sptr) (val : list Z) : result (Z * sptr) :=
  n ← strlen val; encode_bytes CBOR_BYTES stream val n.
Definition cbor_serialize_byte_stringl (stream : sptr) (val : list Z) (length : Z) : result (Z * sptr) :=
  encode_bytes CBOR_BYTES stream val length.
Definition cbor_serialize_unicode_string (stream : sptr) (val : list Z) : result (Z * sptr) :=
  n ← strlen val; encode_bytes CBOR_TEXT stream val n.

Definition deserialize_length (ty_ : Z) (s : sptr) (offset : Z) (len : bool) : result (Z * option Z) :=
  st ← deref s;
  ty ← CBOR_TYPE st offset;
  if (negb (ty =? ty_) || negb len)%bool then Ok (0, None)
  else r ← decode_int s offset 0; Ok (r.1, Some (u32 r.2)).

Definition cbor_deserialize_array := deserialize_length CBOR_ARRAY.
Definition cbor_deserialize_map := deserialize_length CBOR_MAP.
Definition cbor_serialize_array (s : sptr) (array_length : Z) : result (Z * sptr) := encode_int CBOR_ARRAY s array_length.
Definition cbor_serialize_map (s : sptr) (map_length : Z) : result (Z * sptr) := encode_int CBOR_MAP s map_length.

Definition cbor_serialize_array_indefinite (s : sptr) : result (Z * sptr) := write_byte s (Z.lor CBOR_ARRAY CBOR_VAR_FOLLOWS).
Definition cbor_serialize_map_indefinite (s : sptr) : result (Z * sptr) := write_byte s (Z.lor CBOR_MAP CBOR_VAR_FOLLOWS).

Definition is_byte_at (v : Z) (s : sptr) (offset : Z) : result Z :=
  st ← deref s; b ← aget (data st) offset; Ok (b2z (b =? v)).
Definition cbor_deserialize_array_indefinite := is_byte_at (Z.lor CBOR_ARRAY CBOR_VAR_FOLLOWS).
Definition cbor_deserialize_map_indefinite := is_byte_at (Z.lor CBOR_MAP CBOR_VAR_FOLLOWS).

(** ** Tags, breaks and the end *)

Definition cbor_write_tag (s : sptr) (tag : Z) : result (Z * sptr) := write_byte s (Z.lor CBOR_TAG tag).
Definition cbor_write_break (s : sptr) : result (Z * sptr) := write_byte s CBOR_BREAK.

Definition cbor_at_end (s : sptr) (offset : Z) : bool :=
  match s with Some st => u32 (pos st - 1) <=? offset | None => true end.
Definition cbor_at_tag (s : sptr) (offset : Z) : result bool :=
  if cbor_at_end s offset then Ok true
  else st ← deref s; ty ← CBOR_TYPE st offset; Ok (ty =? CBOR_TAG).
Definition cbor_at_break (s : sptr) (offset : Z) : result bool :=
  if cbor_at_end s offset then Ok true
  else st ← deref s; b ← aget (data st) offset; Ok (b =? CBOR_BREAK).

(** ** Printing a stream

    The value of the printers is the sequence of items they print; [junk] is what
    their local text buffer holds before a string is read into it. *)

Inductive token : Type :=
  | TUint (val : Z)
  | TNegint (val : Z)
  | TBytes (buffer : list Z)
  | TText (buffer : list Z)
  | TArray (len : option Z)
  | TMap (len : option Z)
  | TBool (val : Z)
  | TSkipped (bytes : list Z).

Section Printers.
Variable junk : list Z.

(** [dump_memory] of [n] bytes. *)
Fixpoint dump (n : nat) (d : list Z) (i : Z) : result (list Z) :=
  match n with O => Ok [] | S n => b ← aget d i; r ← dump n d (i + 1); Ok (b :: r) end.

Definition cbor_stream_print (s : cbor_stream_t) : result (list Z) := dump (Z.to_nat (pos s)) (data s) 0.

Definition cbor_stream_decode_skip (s : cbor_stream_t) (offset : Z) : result (Z * list token) :=
  info ← CBOR_ADDITIONAL_INFO s offset;
  let consume_bytes := if info =? CBOR_BYTE_FOLLOWS then 2 else 1 in
  d ← dump (Z.to_nat consume_bytes) (data s) offset;
  Ok (consume_bytes, [TSkipped d]).

(** The loop over the items of an array; [decode] decodes one item. The value is
    the offset, [read_bytes] and the items. *)
Fixpoint array_loop (fuel : nat) (decode : Z → result (Z * list token)) (s : cbor_stream_t) (is_indefinite : bool)
    (array_length i offset read_bytes : Z) : result (Z * Z * list token) :=
  match fuel with
  | O => Fault OutOfFuel
  | S fuel =>
      more ← (if is_indefinite then b ← cbor_at_break (Some s) offset; Ok (negb b) else Ok (i <? array_length));
      if (more : bool) then
        r ← decode offset;
        let '(inner_read_bytes, items) := r in
        let offset := u32 (offset + inner_read_bytes) in
        if inner_read_bytes =? 0 then Ok (offset, read_bytes, items)
        else
          r ← array_loop fuel decode s is_indefinite array_length (u32 (i + 1)) offset
                (u32 (read_bytes + inner_read_bytes));
          let '(offset, read_bytes, rest) := r in
          Ok (offset, read_bytes, items ++ rest)
      else Ok (offset, read_bytes, [])
  end.

Fixpoint map_loop (fuel : nat) (decode : Z → result (Z * list token)) (s : cbor_stream_t) (is_indefinite : bool)
    (map_length i offset read_bytes : Z) : result (Z * Z * list token) :=
  match fuel with
  | O => Fault OutOfFuel
  | S fuel =>
      more ← (if is_indefinite then b ← cbor_at_break (Some s) offset; Ok (negb b) else Ok (i <? map_length));
      if (more : bool) then
        k ← decode offset;
        let '(key_read_bytes, keys) := k in
        let offset := u32 (offset + key_read_bytes) in
        v ← decode offset;
        let '(value_read_bytes, values) := v in
        let offset := u32 (offset + value_read_bytes) in
        if ((key_read_bytes =? 0) || (value_read_bytes =? 0))%bool then Ok (offset, read_bytes, keys ++ values)
        else
          r ← map_loop fuel decode s is_indefinite map_length (u32 (i + 1)) offset
                (u32 (read_bytes + u32 (key_read_bytes + value_read_bytes)));
          let '(offset, read_bytes, rest) := r in
          Ok (offset, read_bytes, keys ++ values ++ rest)
      else Ok (offset, read_bytes, [])
  end.

Fixpoint cbor_stream_decode_at (fuel : nat) (s : cbor_stream_t) (offset : Z) : result (Z * list token) :=
  match fuel with
  | O => Fault OutOfFuel
  | S fuel =>
      ty ← CBOR_TYPE s offset;
      if ty =? CBOR_UINT then
        r ← cbor_deserialize_uint64_t (Some s) offset true;
        Ok (r.1, [TUint (default 0 r.2)])
      else if ty =? CBOR_NEGINT then
        r ← cbor_deserialize_int64_t (Some s) offset true;
        Ok (r.1, [TNegint (default 0 r.2)])
      else if ty =? CBOR_BYTES then
        r ← cbor_deserialize_byte_string (Some s) offset (Some junk) CBOR_STREAM_PRINT_BUFFERSIZE;
        Ok (r.1, [TBytes (default [] r.2)])
      else if ty =? CBOR_TEXT then
        r ← cbor_deserialize_unicode_string (Some s) offset (Some junk) CBOR_STREAM_PRINT_BUFFERSIZE;
        Ok (r.1, [TText (default [] r.2)])
      else if ((ty =? CBOR_ARRAY) || (ty =? CBOR_MAP))%bool then
        b ← aget (data s) offset;
        let is_indefinite := b =? Z.lor ty CBOR_VAR_FOLLOWS in
        h ← (if is_indefinite then
               n ← (if ty =? CBOR_ARRAY then cbor_deserialize_array_indefinite (Some s) offset
                    else cbor_deserialize_map_indefinite (Some s) offset);
               Ok (n, 0)
             else decode_int (Some s) offset 0);
        let '(read_bytes, len) := h in
        let offset := u32 (offset + read_bytes) in
        r ← (if ty =? CBOR_ARRAY
             then array_loop fuel (cbor_stream_decode_at fuel s) s is_indefinite len 0 offset read_bytes
             else map_loop fuel (cbor_stream_decode_at fuel s) s is_indefinite len 0 offset read_bytes);
        let '(offset, read_bytes, items) := r in
        brk ← cbor_at_break (Some s) offset;
        let shown := if is_indefinite then None else Some len in
        Ok (u32 (read_bytes + b2z brk), (if ty =? CBOR_ARRAY then TArray shown else TMap shown) :: items)
      else
        b ← aget (data s) offset;
        if ((ty =? CBOR_7) && ((b =? CBOR_FALSE) || (b =? CBOR_TRUE)))%bool then
          r ← cbor_deserialize_bool (Some s) offset true;
          Ok (r.1, [TBool (default 0 r.2)])
        else cbor_stream_decode_skip s offset
  end.

Fixpoint stream_decode_loop (fuel : nat) (s : cbor_stream_t) (offset : Z) : result (list token) :=
  match fuel with
  | O => Fault OutOfFuel
  | S fuel =>
      if offset <? pos s then
        r ← cbor_stream_decode_at (S fuel) s offset;
        let '(read_bytes, items) := r in
        if read_bytes =? 0 then d ← cbor_stream_print s; Ok (items ++ [TSkipped d])
        else rest ← stream_decode_loop fuel s (u32 (offset + read_bytes)); Ok (items ++ rest)
      else Ok []
  end.

Definition cbor_stream_decode (s : cbor_stream_t) : result (list token) :=
  stream_decode_loop (S (S (length (data s)))) s 0.
End Printers.

(** ** Heads as byte sequences *)

Fixpoint be_bytes (n : nat) (val : Z) : list Z :=
  match n with O => [] | S i => Z.land (Z.shiftr val (8 * Z.of_nat i)) 255 :: be_bytes i val end.

Definition follow (val : Z) : nat := Z.to_nat (uint_bytes_follow (uint_additional_info val)).

Definition head_bytes (major_type val : Z) : list Z :=
  Z.lor major_type (uint_additional_info val) :: be_bytes (follow val) val.

Lemma length_be_bytes n val : length (be_bytes n val) = n.
Proof. induction n as [|n IH]; [done|]. simpl. by rewrite IH. Qed.

Lemma length_head major val : length (head_bytes major val) = S (follow val).
Proof. unfold head_bytes. simpl. by rewrite length_be_bytes. Qed.

(** The cases of the additional information. *)
Lemma follow_cases val :
  0 <= val < 18446744073709551616 →
  (follow val = 0%nat ∧ uint_additional_info val = val ∧ val < 24) ∨
  (24 <= uint_additional_info val < 28 ∧ (0 < follow val <= 8)%nat ∧ val < 256 ^ Z.of_nat (follow val)).
Proof.
  intros Hv. unfold follow, uint_additional_info, CBOR_UINT8_FOLLOWS, CBOR_UINT16_FOLLOWS, CBOR_UINT32_FOLLOWS,
    CBOR_UINT64_FOLLOWS.
  destruct (Z.ltb_spec val 24).
  - left. unfold uint_bytes_follow, CBOR_UINT8_FOLLOWS. by assert ((val <? 24) = true) as -> by lia.
  - right. destruct (Z.leb_spec val 255); [change (Z.to_nat _) with 1%nat; simpl; lia|].
    destruct (Z.leb_spec val 65535); [change (Z.to_nat _) with 2%nat; simpl; lia|].
    destruct (Z.leb_spec val 4294967295); [change (Z.to_nat _) with 4%nat; simpl; lia|].
    change (Z.to_nat _) with 8%nat. simpl. lia.
Qed.

Lemma uint_bytes_follow_nat val :
  uint_bytes_follow (uint_additional_info val) = Z.of_nat (follow val).
Proof.
  unfold follow. rewrite Z2Nat.id; [done|]. unfold uint_bytes_follow. case_match; [lia|].
  generalize (Z.to_nat (uint_additional_info val - CBOR_UINT8_FOLLOWS)) as n.
  intros [|[|[|[|[|n]]]]]; simpl; lia.
Qed.

Definition major_ok (m : Z) : Prop := m ∈ [0; 32; 64; 96; 128; 160; 192; 224].

Lemma major_info m i :
  major_ok m → 0 <= i < 32 → Z.land (Z.lor m i) CBOR_INFO_MASK = i ∧ Z.land (Z.lor m i) CBOR_TYPE_MASK = m.
Proof.
  intros Hm Hi.
  assert (forallb (λ m, forallb (λ i, (Z.land (Z.lor m i) 31 =? i) && (Z.land (Z.lor m i) 224 =? m))%bool (seqZ 0 32))
    [0; 32; 64; 96; 128; 160; 192; 224] = true) as H by (by vm_compute).
  rewrite forallb_forall in H. specialize (H m). rewrite <- list_elem_of_In in H. specialize (H Hm).
  rewrite forallb_forall in H. specialize (H i). rewrite <- list_elem_of_In, elem_of_seqZ in H.
  unfold CBOR_INFO_MASK, CBOR_TYPE_MASK. lia.
Qed.

(** ** Writing and reading a head *)

(** A stream with [w] written and [r] behind it. *)
Definition stream_at (w r : list Z) (sz : Z) : cbor_stream_t := Stream (w ++ r) sz (Z.of_nat (length w)).

Lemma put_spec w x r sz v :
  Z.of_nat (length w) + 1 < 4294967296 → put (stream_at w (x :: r) sz) v = Ok (stream_at (w ++ [v]) r sz).
Proof.
  intros Hw. unfold put, stream_at. simpl. rewrite aset_app by done. cbn [mbind result_bind].
  rewrite length_app. simpl. rewrite <- app_assoc. do 2 f_equal. unfold u32. rewrite Z.mod_small; lia.
Qed.

Lemma put_bytes_spec n w mid r sz val :
  length mid = n → Z.of_nat (length w + n) < 4294967296 →
  put_bytes n (stream_at w (mid ++ r) sz) val = Ok (stream_at (w ++ be_bytes n val) r sz).
Proof.
  revert w mid. induction n as [|n IH]; intros w [|x mid] Hm Hw; try done.
  - simpl. by rewrite app_nil_r.
  - cbn [put_bytes be_bytes app]. rewrite put_spec by lia. cbn [mbind result_bind].
    rewrite IH; [by rewrite <- app_assoc|simpl in Hm; lia|rewrite length_app; simpl; lia].
Qed.

(** [encode_int] with room for the head and one more byte. *)
Lemma encode_int_spec major val w mid r sz :
  length mid = S (follow val) → Z.of_nat (length w + S (follow val)) < sz → sz < 4294967296 →
  encode_int major (Some (stream_at w (mid ++ r) sz)) val =
  Ok (Z.of_nat (S (follow val)), Some (stream_at (w ++ head_bytes major val) r sz)).
Proof.
  intros Hm Hsz Hmax. unfold encode_int, CBOR_ENSURE_SIZE. rewrite uint_bytes_follow_nat. cbn [pos size stream_at].
  assert ((u32 (Z.of_nat (length w) + (Z.of_nat (follow val) + 1)) <? sz) = true) as ->.
  { unfold u32. rewrite Z.mod_small; lia. }
  cbn [negb]. destruct mid as [|x mid]; [done|]. cbn [app]. rewrite put_spec by lia. cbn [mbind result_bind].
  rewrite Nat2Z.id, put_bytes_spec; [|simpl in Hm; lia|rewrite length_app; simpl; lia]. cbn [mbind result_bind].
  unfold head_bytes. rewrite <- app_assoc. do 2 f_equal. lia.
Qed.

Lemma be_load_spec n w r val acc :
  be_load n (w ++ be_bytes n val ++ r) (Z.of_nat (length w)) acc =
  Ok (acc * 256 ^ Z.of_nat n + val mod 256 ^ Z.of_nat n).
Proof.
  revert w acc. induction n as [|n IH]; intros w acc.
  - simpl. rewrite Z.mod_1_r. f_equal. lia.
  - cbn [be_load be_bytes app]. rewrite aget_app by done. cbn [mbind result_bind].
    set (b := Z.land _ 255).
    replace (w ++ b :: be_bytes n val ++ r) with ((w ++ [b]) ++ be_bytes n val ++ r) by by rewrite <- app_assoc.
    replace (Z.of_nat (length w) + 1) with (Z.of_nat (length (w ++ [b]))) by (rewrite length_app; simpl; lia).
    rewrite IH. f_equal. unfold b. change 255 with (Z.ones 8). rewrite Z.land_ones, Z.shiftr_div_pow2 by lia.
    replace (2 ^ (8 * Z.of_nat n)) with (256 ^ Z.of_nat n) by (rewrite Z.pow_mul_r by lia; done).
    rewrite Nat2Z.inj_succ, Z.pow_succ_r by lia. change (2 ^ 8) with 256.
    set (p := 256 ^ Z.of_nat n). assert (0 < p) by (apply Z.pow_pos_nonneg; lia).
    rewrite (Z.mul_comm 256 p), Z.rem_mul_r by lia. lia.
Qed.

Lemma decode_int_spec major val w r sz ps v0 :
  major_ok major → 0 <= val < 18446744073709551616 →
  Z.of_nat (length w + S (follow val)) <= sz → sz < 4294967296 →
  decode_int (Some (Stream (w ++ head_bytes major val ++ r) sz ps)) (Z.of_nat (length w)) v0 =
  Ok (Z.of_nat (S (follow val)), val).
Proof.
  intros Hm Hv Hsz Hmax. unfold decode_int, CBOR_ENSURE_SIZE_READ, CBOR_ADDITIONAL_INFO, u32. cbn [size data].
  rewrite Z.mod_small by lia. assert ((Z.of_nat (length w) + 1 <=? sz) = true) as -> by lia. cbn [negb].
  unfold head_bytes. cbn [app]. rewrite aget_app by done. cbn [mbind result_bind].
  assert (0 <= uint_additional_info val < 32) as Hi by (destruct (follow_cases val Hv) as [?|?]; lia).
  destruct (major_info major _ Hm Hi) as [-> _]. rewrite uint_bytes_follow_nat.
  rewrite Z.mod_small by lia.
  assert ((Z.of_nat (length w) + 1 + Z.of_nat (follow val) <=? sz) = true) as -> by lia. cbn [negb].
  destruct (follow_cases val Hv) as [(E & Ei & Hlt)|(Hi' & Hf & Hlt)].
  - rewrite E. simpl (Z.of_nat 0 =? 0). cbv iota. cbn [mbind result_bind]. by rewrite Ei.
  - assert ((Z.of_nat (follow val) =? 0) = false) as -> by lia. rewrite Nat2Z.id.
    set (b := Z.lor _ _).
    replace (w ++ b :: be_bytes (follow val) val ++ r) with ((w ++ [b]) ++ be_bytes (follow val) val ++ r)
      by by rewrite <- app_assoc.
    replace (Z.of_nat (length w) + 1) with (Z.of_nat (length (w ++ [b]))) by (rewrite length_app; simpl; lia).
    rewrite be_load_spec. cbn [mbind result_bind]. rewrite Z.mod_small by lia. do 2 f_equal. lia.
Qed.

Lemma type_spec major val w r sz ps :
  major_ok major → 0 <= val < 18446744073709551616 →
  CBOR_TYPE (Stream (w ++ head_bytes major val ++ r) sz ps) (Z.of_nat (length w)) = Ok major.
Proof.
  intros Hm Hv. unfold CBOR_TYPE, head_bytes. cbn [data app]. rewrite aget_app by done. cbn [mbind result_bind].
  assert (0 <= uint_additional_info val < 32) as Hi by (destruct (follow_cases val Hv) as [?|?]; lia).
  by destruct (major_info major _ Hm Hi) as [_ ->].
Qed.

Lemma s64_small z : -9223372036854775808 <= z < 9223372036854775808 → s64 z = z.
Proof. intros. unfold s64. rewrite Z.mod_small by lia. lia. Qed.

(** The argument of the head of an integer. *)
Definition int_arg (val : Z) : Z := if 0 <=? val then val else -1 - val.

(** C37: Every 64-bit integer survives: when the stream has room for its head (and
    one byte more), [cbor_serialize_int64_t] appends the head and
    [cbor_deserialize_int64_t] at the old position gives the number back with the
    same number of bytes, whatever is written behind it later. *)
Theorem cbor_int64_roundtrip val w mid r sz later ps :
  -9223372036854775808 <= val < 9223372036854775808 →
  length mid = S (follow (int_arg val)) → Z.of_nat (length w + length mid) < sz → sz < 4294967296 →
  ∃ head,
    cbor_serialize_int64_t (Some (stream_at w (mid ++ r) sz)) val =
      Ok (Z.of_nat (length mid), Some (stream_at (w ++ head) r sz)) ∧
    cbor_deserialize_int64_t (Some (Stream (w ++ head ++ later) sz ps)) (Z.of_nat (length w)) true =
      Ok (Z.of_nat (length mid), Some val).
Proof.
  intros Hv Hm Hsz Hmax. rewrite Hm in *. set (m := if 0 <=? val then CBOR_UINT else CBOR_NEGINT).
  assert (Hmo : major_ok m) by (unfold m, major_ok; case_match; set_solver).
  assert (Ha : 0 <= int_arg val < 18446744073709551616) by (unfold int_arg; case_match; lia).
  exists (head_bytes m (int_arg val)). split.
  - unfold cbor_serialize_int64_t. rewrite <- (encode_int_spec m _ w mid r sz) by done.
    unfold int_arg, m. by case_match.
  - unfold cbor_deserialize_int64_t. cbn [deref from_option_or mbind result_bind].
    rewrite type_spec by done. cbn [mbind result_bind]. rewrite decode_int_spec by (done || lia). cbn [mbind result_bind].
    unfold m, int_arg. destruct (Z.leb_spec 0 val); cbn.
    + by rewrite s64_small by lia.
    + unfold u64. replace (-1 - (-1 - val)) with val by lia. do 3 f_equal. unfold s64.
      rewrite Z.add_mod_idemp_l by lia. rewrite Z.mod_small by lia. lia.
Qed.

Lemma cbor_int64_roundtrip_witness :
  ∃ head,
    cbor_serialize_int64_t (Some (stream_at [131] (replicate 3 0 ++ replicate 5 0) 9)) (-1000) =
      Ok (3, Some (stream_at ([131] ++ head) (replicate 5 0) 9)) ∧
    cbor_deserialize_int64_t (Some (Stream ([131] ++ head ++ [5]) 9 5)) 1 true = Ok (3, Some (-1000)).
Proof.
  apply (cbor_int64_roundtrip (-1000) [131] (replicate 3 0) (replicate 5 0) 9 [5] 5);
    [lia | reflexivity | simpl; lia | lia].
Defined.

(** What [encode_bytes] appends. *)
Lemma encode_bytes_spec major d w mid1 mid2 r sz :
  length mid1 = S (follow (Z.of_nat (length d))) → length mid2 = length d →
  Z.of_nat (length w + length mid1 + length d) < sz → sz < 4294967295 →
  encode_bytes major (Some (stream_at w (mid1 ++ mid2 ++ r) sz)) d (Z.of_nat (length d)) =
  Ok (Z.of_nat (S (follow (Z.of_nat (length d))) + length d),
      Some (stream_at (w ++ head_bytes major (Z.of_nat (length d)) ++ d) r sz)).
Proof.
  intros Hm1 Hm2 Hsz Hmax. set (n := Z.of_nat (length d)) in *.
  unfold encode_bytes. cbn [deref from_option_or mbind result_bind].
  unfold CBOR_ENSURE_SIZE. rewrite uint_bytes_follow_nat. cbn [pos size stream_at].
  assert (Hu : ∀ z, 0 <= z < 4294967296 → u32 z = z) by (intros; by apply Z.mod_small).
  rewrite (Hu (Z.of_nat (follow n) + 1 + n)), Hu by lia.
  assert ((Z.of_nat (length w) + (Z.of_nat (follow n) + 1 + n) <? sz) = true) as -> by lia. cbn [negb].
  rewrite encode_int_spec by (done || lia). cbn [mbind result_bind].
  assert ((Z.of_nat (S (follow n)) =? 0) = false) as -> by lia. cbn [deref from_option_or mbind result_bind data pos size stream_at].
  rewrite memcpy_Ok by (rewrite ?length_app; lia). cbn [mbind result_bind].
  rewrite drop_0, !Nat2Z.id, take_app_length, (take_ge d) by lia.
  replace (drop _ ((w ++ head_bytes major n) ++ mid2 ++ r)) with r.
  2: { rewrite (app_assoc _ mid2). by rewrite drop_app_length' by (rewrite (length_app _ mid2); lia). }
  rewrite !Hu by (rewrite ?length_app, ?length_head; lia).
  unfold stream_at. rewrite <- !app_assoc, !length_app, !length_head. repeat f_equal; lia.
Qed.

(** What [decode_bytes] makes of it. *)
Lemma decode_bytes_spec major d w sz later ps out :
  major = CBOR_BYTES ∨ major = CBOR_TEXT →
  let n := Z.of_nat (length d) in
  Z.of_nat (length w + S (follow n) + length d) < sz → sz < 4294967295 →
  (length d < length out)%nat → Z.of_nat (length out) < 4294967296 →
  decode_bytes (Some (Stream (w ++ (head_bytes major n ++ d) ++ later) sz ps)) (Z.of_nat (length w)) (Some out)
    (Z.of_nat (length out)) =
  Ok (Z.of_nat (S (follow n) + length d), Some (d ++ 0 :: drop (S (length d)) out)).
Proof.
  intros Hmaj n Hsz Hmax Hout Hout2.
  assert (Hmo : major_ok major) by (unfold major_ok; destruct Hmaj as [-> | ->]; set_solver).
  assert (Hn : 0 <= n < 18446744073709551616) by lia.
  unfold decode_bytes. cbn [deref from_option_or mbind result_bind]. unfold CBOR_ENSURE_SIZE_READ, u32. cbn [size data].
  rewrite Z.mod_small by lia. assert ((Z.of_nat (length w) + 1 <=? sz) = true) as -> by lia. cbn [negb].
  rewrite <- (app_assoc (head_bytes major n)), type_spec by done. cbn [mbind result_bind].
  assert ((negb (major =? CBOR_BYTES) && negb (major =? CBOR_TEXT))%bool = false) as -> by (by destruct Hmaj as [-> | ->]).
  rewrite decode_int_spec by (done || lia). cbn [mbind result_bind].
  assert ((Z.of_nat (S (follow n)) =? 0) = false) as -> by lia. unfold SIZE_MAX, u64.
  rewrite (Z.mod_small (n + 1)) by lia.
  assert (((n =? 4294967295) || (Z.of_nat (length out) <? n + 1))%bool = false) as -> by lia.
  rewrite (Z.mod_small (Z.of_nat (length w) + Z.of_nat (S (follow n)))) by lia. rewrite Z.mod_small by lia.
  assert ((Z.of_nat (length w) + Z.of_nat (S (follow n)) + n <=? sz) = true) as -> by lia. cbn [negb].
  rewrite (Z.mod_small n) by lia. rewrite memcpy_Ok by (rewrite ?length_app, ?length_head; lia). cbn [mbind result_bind].
  replace (drop _ (w ++ head_bytes major n ++ d ++ later)) with (d ++ later).
  2: { rewrite app_assoc. by rewrite drop_app_length' by (rewrite length_app, length_head; lia). }
  replace (Z.to_nat n) with (length d) by lia. replace (Z.to_nat (0 + n)) with (length d) by lia.
  change (Z.to_nat 0) with 0%nat. rewrite take_0, take_app_length. cbn [app].
  destruct (drop (length d) out) as [|x tl] eqn:Ed.
  { apply (f_equal length) in Ed. rewrite length_drop in Ed. simpl in Ed. lia. }
  rewrite aset_app by done. cbn [mbind result_bind].
  rewrite (Z.mod_small (Z.of_nat (S (follow n)) + n)) by lia.
  replace (drop (S (length d)) out) with tl; [do 2 f_equal; lia|].
  replace (S (length d)) with (length d + 1)%nat by lia. rewrite <- drop_drop, Ed. done.
Qed.

(** Byte and text strings survive: what [encode_bytes] appends,
    [decode_bytes] copies out with a terminating zero, and it stays within the
    output buffer. *)
Theorem cbor_bytes_roundtrip major d w mid1 mid2 r sz later ps out :
  major = CBOR_BYTES ∨ major = CBOR_TEXT →
  length mid1 = S (follow (Z.of_nat (length d))) → length mid2 = length d →
  Z.of_nat (length w + length mid1 + length d) < sz → sz < 4294967295 →
  (length d < length out)%nat → Z.of_nat (length out) < 4294967296 →
  ∃ bytes,
    encode_bytes major (Some (stream_at w (mid1 ++ mid2 ++ r) sz)) d (Z.of_nat (length d)) =
      Ok (Z.of_nat (length bytes), Some (stream_at (w ++ bytes) r sz)) ∧
    decode_bytes (Some (Stream (w ++ bytes ++ later) sz ps)) (Z.of_nat (length w)) (Some out) (Z.of_nat (length out)) =
      Ok (Z.of_nat (length bytes), Some (d ++ 0 :: drop (S (length d)) out)).
Proof.
  intros Hmaj Hm1 Hm2 Hsz Hmax Hout Hout2. exists (head_bytes major (Z.of_nat (length d)) ++ d).
  rewrite length_app, length_head. split; [by apply encode_bytes_spec|].
  apply decode_bytes_spec; [done|lia..].
Qed.

Lemma cbor_bytes_roundtrip_witness :
  ∃ bytes,
    encode_bytes CBOR_TEXT (Some (stream_at [] ([0] ++ [0; 0] ++ [0; 0]) 5)) [104; 105] 2 =
      Ok (Z.of_nat (length bytes), Some (stream_at ([] ++ bytes) [0; 0] 5)) ∧
    decode_bytes (Some (Stream ([] ++ bytes ++ [0; 0]) 5 3)) 0 (Some [7; 7; 7; 7]) 4 =
      Ok (Z.of_nat (length bytes), Some ([104; 105] ++ 0 :: [7])).
Proof.
  apply (cbor_bytes_roundtrip CBOR_TEXT [104; 105] [] [0] [0; 0] [0; 0] 5 [0; 0] 3 [7; 7; 7; 7]);
    [by right | reflexivity | reflexivity | simpl; lia | lia | simpl; lia | simpl; lia].
Defined.

(** ** Where the checks do not hold

    The size checks of [decode_bytes] wrap around for a string that claims to be
    [2^64 - 1] bytes long: nine bytes of input make it copy far behind both
    buffers. [decode_bytes_no_copy] hands out such a string. *)
Theorem decode_bytes_length_wraps :
  decode_bytes (Some (Stream (91 :: replicate 8 255) 9 9)) 0 (Some (replicate 16 0)) 16 = Fault OutOfBounds ∧
  decode_bytes_no_copy (Some (Stream (91 :: replicate 8 255) 9 9)) 0 true = Ok (8, Some (9, 4294967295)).
Proof. split; reflexivity. Qed.

(** The last byte of a buffer is never used: one byte does not fit into one byte. *)
Theorem cbor_ensure_size_off_by_one :
  cbor_serialize_bool (Some (Stream [0] 1 0)) 1 = Ok (0, Some (Stream [0] 1 0)).
Proof. reflexivity. Qed.

(** Printing an array whose length is larger than its contents reads behind the
    buffer. *)
Theorem cbor_decode_reads_behind : cbor_stream_decode (replicate 1024 0) (Stream [130; 1] 2 2) = Fault OutOfBounds.
Proof. reflexivity. Qed.

(** [cbor_at_end] takes the last byte for the end of the stream, so the number
    behind the map is not printed. *)
Theorem cbor_decode_drops_last_item :
  cbor_stream_decode (replicate 4 0) (Stream [130; 1; 32; 161; 97; 97; 245; 0] 8 8) =
  Ok [TArray (Some 2); TUint 1; TNegint (-1); TMap (Some 1); TText [97; 0; 0; 0]; TBool 1].
Proof. reflexivity. Qed.
