(* ===== verification/Checksum.v ===== *)
(** * sys/checksum and sys/net/crosslayer/inet_csum: checksums

    Buffers are lists of bytes (of 16-bit words for [fletcher32]); a read behind
    the end is a fault. *)

From S2P Require Import Prelude.
Open Scope Z_scope.

(** ** crc16_ccitt.c *)

Definition _crc16_lookuptable : list Z :=
  [0; 4129; 8258; 12387; 16516; 20645; 24774; 28903; 33032; 37161; 41290; 45419; 49548; 53677; 57806; 61935;
   4657; 528; 12915; 8786; 21173; 17044; 29431; 25302; 37689; 33560; 45947; 41818; 54205; 50076; 62463; 58334;
   9314; 13379; 1056; 5121; 25830; 29895; 17572; 21637; 42346; 46411; 34088; 38153; 58862; 62927; 50604; 54669;
   13907; 9842; 5649; 1584; 30423; 26358; 22165; 18100; 46939; 42874; 38681; 34616; 63455; 59390; 55197; 51132;
   18628; 22757; 26758; 30887; 2112; 6241; 10242; 14371; 51660; 55789; 59790; 63919; 35144; 39273; 43274; 47403;
   23285; 19156; 31415; 27286; 6769; 2640; 14899; 10770; 56317; 52188; 64447; 60318; 39801; 35672; 47931; 43802;
   27814; 31879; 19684; 23749; 11298; 15363; 3168; 7233; 60846; 64911; 52716; 56781; 44330; 48395; 36200; 40265;
   32407; 28342; 24277; 20212; 15891; 11826; 7761; 3696; 65439; 61374; 57309; 53244; 48923; 44858; 40793; 36728;
   37256; 33193; 45514; 41451; 53516; 49453; 61774; 57711; 4224; 161; 12482; 8419; 20484; 16421; 28742; 24679;
   33721; 37784; 41979; 46042; 49981; 54044; 58239; 62302; 689; 4752; 8947; 13010; 16949; 21012; 25207; 29270;
   46570; 42443; 38312; 34185; 62830; 58703; 54572; 50445; 13538; 9411; 5280; 1153; 29798; 25671; 21540; 17413;
   42971; 47098; 34713; 38840; 59231; 63358; 50973; 55100; 9939; 14066; 1681; 5808; 26199; 30326; 17941; 22068;
   55628; 51565; 63758; 59695; 39368; 35305; 47498; 43435; 22596; 18533; 30726; 26663; 6336; 2273; 14466; 10403;
   52093; 56156; 60223; 64286; 35833; 39896; 43963; 48026; 19061; 23124; 27191; 31254; 2801; 6864; 10931; 14994;
   64814; 60687; 56684; 52557; 48554; 44427; 40424; 36297; 31782; 27655; 23652; 19525; 15522; 11395; 7392; 3265;
   61215; 65342; 53085; 57212; 44955; 49082; 36825; 40952; 28183; 32310; 20053; 24180; 11923; 16050; 3793; 7920].

(** [while (len--)]: [len] bytes are left, the next is at [i]. *)
Fixpoint crc16_ccitt_update (crc : Z) (buf : list Z) (i : Z) (len : nat) : result Z :=
  match len with
  | O => Ok crc
  | S len =>
      b ← aget buf i;
      t ← aget _crc16_lookuptable (Z.lxor (Z.shiftr crc 8) (Z.land b 255));
      crc16_ccitt_update (u16 (Z.lxor (Z.shiftl crc 8) t)) buf (i + 1) len
  end.

Definition crc16_ccitt_calc (buf : list Z) (len : nat) : result Z := crc16_ccitt_update 7439 buf 0 len.

(** ** ucrc16.c *)

Definition LEFTMOST_BIT_SET (value : Z) : bool := negb (Z.land value 32768 =? 0).
Definition RIGHTMOST_BIT_SET (value : Z) : bool := negb (Z.land value 1 =? 0).

Fixpoint be_bits (i : nat) (tmp poly : Z) : Z :=
  match i with
  | O => tmp
  | S i =>
      be_bits i (if LEFTMOST_BIT_SET tmp then Z.lxor (u32 (Z.shiftl tmp 1)) poly else u32 (Z.shiftl tmp 1)) poly
  end.

Fixpoint ucrc16_calc_be (buf : list Z) (i : Z) (len : nat) (poly seed : Z) : result Z :=
  match len with
  | O => Ok seed
  | S len =>
      b ← aget buf i;
      let tmp := Z.lxor seed (Z.shiftl b (16 - 8)) in
      ucrc16_calc_be buf (i + 1) len poly (Z.land (be_bits 8 tmp poly) 65535)
  end.

Fixpoint le_bits (i : nat) (seed poly : Z) : Z :=
  match i with
  | O => seed
  | S i =>
      le_bits i (if RIGHTMOST_BIT_SET seed then Z.lxor (Z.shiftr seed 1) poly else Z.shiftr seed 1) poly
  end.

Fixpoint ucrc16_calc_le (buf : list Z) (i : Z) (len : nat) (poly seed : Z) : result Z :=
  match len with
  | O => Ok seed
  | S len => b ← aget buf i; ucrc16_calc_le buf (i + 1) len poly (le_bits 8 (Z.lxor seed b) poly)
  end.

(** ** fletcher16.c and fletcher32.c *)

(** [do { sum2 += sum1 += *data++; } while (--tlen);] with sums of the given
    width: the index behind the block and the sums. *)
Fixpoint fletcher_block (wrap : Z → Z) (tlen : nat) (data : list Z) (i sum1 sum2 : Z) : result (Z * Z * Z) :=
  match tlen with
  | O => Ok (i, sum1, sum2)
  | S tlen =>
      d ← aget data i;
      let sum1 := wrap (sum1 + d) in
      fletcher_block wrap tlen data (i + 1) sum1 (wrap (sum2 + sum1))
  end.

Fixpoint fletcher16_loop (fuel : nat) (data : list Z) (i bytes sum1 sum2 : Z) : result (Z * Z) :=
  match fuel with
  | O => Fault OutOfFuel
  | S fuel =>
      if negb (bytes =? 0) then
        let tlen := if 20 <? bytes then 20 else bytes in
        r ← fletcher_block u16 (Z.to_nat tlen) data i sum1 sum2;
        let '(i, sum1, sum2) := r in
        fletcher16_loop fuel data i (bytes - tlen)
          (Z.land sum1 255 + Z.shiftr sum1 8) (Z.land sum2 255 + Z.shiftr sum2 8)
      else Ok (sum1, sum2)
  end.

Definition fletcher16 (data : list Z) (bytes : Z) : result Z :=
  r ← fletcher16_loop (S (Z.to_nat bytes)) data 0 bytes 255 255;
  let sum1 := Z.land r.1 255 + Z.shiftr r.1 8 in
  let sum2 := Z.land r.2 255 + Z.shiftr r.2 8 in
  Ok (u16 (Z.lor (Z.shiftl sum2 8) sum1)).

Fixpoint fletcher32_loop (fuel : nat) (data : list Z) (i words sum1 sum2 : Z) : result (Z * Z) :=
  match fuel with
  | O => Fault OutOfFuel
  | S fuel =>
      if negb (words =? 0) then
        let tlen := if 359 <? words then 359 else words in
        r ← fletcher_block u32 (Z.to_nat tlen) data i sum1 sum2;
        let '(i, sum1, sum2) := r in
        fletcher32_loop fuel data i (words - tlen)
          (Z.land sum1 65535 + Z.shiftr sum1 16) (Z.land sum2 65535 + Z.shiftr sum2 16)
      else Ok (sum1, sum2)
  end.

Definition fletcher32 (data : list Z) (words : Z) : result Z :=
  r ← fletcher32_loop (S (Z.to_nat words)) data 0 words 65535 65535;
  let sum1 := Z.land r.1 65535 + Z.shiftr r.1 16 in
  let sum2 := Z.land r.2 65535 + Z.shiftr r.2 16 in
  Ok (u32 (Z.lor (Z.shiftl sum2 16) sum1)).

(** ** inet_csum.c *)

Fixpoint csum_words (n : nat) (buf : list Z) (i csum : Z) : result (Z * Z) :=
  match n with
  | O => Ok (i, csum)
  | S n =>
      b0 ← aget buf i;
      b1 ← aget buf (i + 1);
      csum_words n buf (i + 2) (u32 (csum + (u16 (Z.shiftl b0 8) + b1)))
  end.

(** [while (csum >> 16)] *)
Fixpoint fold_carry (fuel : nat) (csum : Z) : result Z :=
  match fuel with
  | O => Fault OutOfFuel
  | S fuel =>
      if negb (Z.shiftr csum 16 =? 0) then fold_carry fuel (Z.land csum 65535 + u16 (Z.shiftr csum 16))
      else Ok csum
  end.

Definition inet_csum_slice (sum : Z) (buf : list Z) (len accum_len : Z) : result Z :=
  let csum := sum in
  if len =? 0 then Ok csum
  else
    r ← (if negb (Z.land accum_len 1 =? 0) then
           b ← aget buf 0;
           Ok (u32 (csum + b), 1, len - 1, u32 (accum_len + 1))
         else Ok (csum, 0, len, accum_len));
    let '(csum, i, len, accum_len) := r in
    r ← csum_words (Z.to_nat (Z.shiftr len 1)) buf i csum;
    let '(i, csum) := r in
    csum ← (if negb (Z.land (u32 (accum_len + len)) 1 =? 0) then
              b ← aget buf i; Ok (u32 (csum + u16 (Z.shiftl b 8)))
            else Ok csum);
    csum ← fold_carry 4 csum;
    Ok (u16 csum).

(** ** The table is the bitwise CRC with polynomial 0x1021 *)

Lemma mod_pow2_lxor n a b : 0 <= n → (Z.lxor a b) mod 2 ^ n = Z.lxor (a mod 2 ^ n) (b mod 2 ^ n).
Proof.
  intros Hn. rewrite <- !Z.land_ones by done. apply Z.bits_inj'. intros i Hi.
  rewrite !Z.lxor_spec, !Z.land_spec, Z.lxor_spec. by destruct (Z.testbit (Z.ones n) i), (Z.testbit a i), (Z.testbit b i).
Qed.

Lemma leftmost_testbit x : LEFTMOST_BIT_SET x = Z.testbit x 15.
Proof.
  unfold LEFTMOST_BIT_SET. destruct (Z.eqb_spec (Z.land x 32768) 0) as [E|E]; simpl.
  - change 32768 with (2 ^ 15) in E. apply (f_equal (λ z, Z.testbit z 15)) in E.
    rewrite Z.land_spec, Z.pow2_bits_true, andb_true_r, Z.bits_0 in E by lia. done.
  - destruct (Z.testbit x 15) eqn:Hb; [done|]. exfalso. apply E. apply Z.bits_inj'. intros i Hi.
    rewrite Z.land_spec, Z.bits_0. change 32768 with (2 ^ 15).
    destruct (Z.eq_dec i 15) as [->|Hne]; [by rewrite Hb|]. by rewrite Z.pow2_bits_false, andb_false_r by lia.
Qed.

Definition be_step (poly tmp : Z) : Z :=
  if LEFTMOST_BIT_SET tmp then Z.lxor (u32 (Z.shiftl tmp 1)) poly else u32 (Z.shiftl tmp 1).

(** The shift register is linear. *)
Lemma be_step_lxor poly x y : be_step poly (Z.lxor x y) = Z.lxor (be_step poly x) (be_step poly y).
Proof.
  unfold be_step. rewrite !leftmost_testbit, Z.lxor_spec, Z.shiftl_lxor.
  unfold u32. change 4294967296 with (2 ^ 32). rewrite mod_pow2_lxor by lia.
  set (a := _ mod _). set (b := _ mod _).
  destruct (Z.testbit x 15), (Z.testbit y 15); simpl;
    rewrite ?(Z.lxor_assoc a poly), ?(Z.lxor_comm poly (Z.lxor b poly)), ?(Z.lxor_assoc b poly poly),
      ?(Z.lxor_comm poly b), ?Z.lxor_nilpotent, ?Z.lxor_0_r, ?Z.lxor_assoc; done.
Qed.

Lemma be_bits_lxor poly n x y : be_bits n (Z.lxor x y) poly = Z.lxor (be_bits n x poly) (be_bits n y poly).
Proof.
  revert x y. induction n as [|n IH]; intros x y; [done|]. cbn [be_bits].
  rewrite <- IH. f_equal. apply be_step_lxor.
Qed.

(** Facts about all bytes, checked one by one. *)
Lemma all_bytes (P : Z → bool) c : forallb P (seqZ 0 256) = true → 0 <= c < 256 → P c = true.
Proof. intros HP Hc. rewrite forallb_forall in HP. apply HP, list_elem_of_In, elem_of_seqZ. lia. Qed.

Lemma table_entry i :
  0 <= i < 256 → ∃ t, aget _crc16_lookuptable i = Ok t ∧ 0 <= t < 65536 ∧
                      Z.land (be_bits 8 (Z.shiftl i 8) 4129) 65535 = t.
Proof.
  intros Hi. set (P := λ i, match aget _crc16_lookuptable i with
    | Ok t => ((0 <=? t) && (t <? 65536) && (Z.land (be_bits 8 (Z.shiftl i 8) 4129) 65535 =? t))%bool
    | Fault _ => false end).
  assert (P i = true) as H. { apply all_bytes; [by vm_compute|done]. }
  unfold P in H. destruct (aget _crc16_lookuptable i) as [t|]; [|done]. exists t. split; [done|]. lia.
Qed.

Lemma low_byte c : 0 <= c < 256 → Z.land (be_bits 8 c 4129) 65535 = c * 256.
Proof.
  intros Hc. apply Z.eqb_eq.
  by apply (all_bytes (λ c, Z.land (be_bits 8 c 4129) 65535 =? c * 256)).
Qed.

(** One byte. *)
Lemma crc_byte crc b t :
  0 <= crc < 65536 → 0 <= b < 256 → aget _crc16_lookuptable (Z.lxor (Z.shiftr crc 8) (Z.land b 255)) = Ok t →
  u16 (Z.lxor (Z.shiftl crc 8) t) = Z.land (be_bits 8 (Z.lxor crc (Z.shiftl b (16 - 8))) 4129) 65535.
Proof.
  intros Hc Hb Ht. set (hi := Z.shiftr crc 8) in *.
  assert (Hhi : 0 <= hi < 256).
  { unfold hi. rewrite Z.shiftr_div_pow2 by lia. change (2 ^ 8) with 256. dlia. }
  assert (Hb' : Z.land b 255 = b).
  { change 255 with (Z.ones 8). rewrite Z.land_ones by lia. by apply Z.mod_small. }
  rewrite Hb' in Ht.
  assert (Hi : 0 <= Z.lxor hi b < 256) by (apply (lxor_bound 8); lia).
  destruct (table_entry _ Hi) as (t' & Ht' & Hlt & Hbits). rewrite Ht' in Ht. injection Ht as ->.
  assert (Elo : 0 <= crc mod 256 < 256) by (apply Z.mod_pos_bound; lia).
  assert (Ec : crc = Z.lxor (Z.shiftl hi 8) (crc mod 256)).
  { unfold hi. rewrite <- Z.add_nocarry_lxor.
    - rewrite Z.shiftl_mul_pow2, Z.shiftr_div_pow2 by lia. change (2 ^ 8) with 256. dlia.
    - apply Z.bits_inj'. intros i Hi'. rewrite Z.land_spec, Z.bits_0, Z.shiftl_spec by done.
      destruct (Z.lt_ge_cases i 8); [by rewrite Z.testbit_neg_r by lia|].
      rewrite (testbit_above 8 (crc mod 256)) by lia. apply andb_false_r. }
  assert (El : Z.lxor crc (Z.shiftl b (16 - 8)) = Z.lxor (Z.shiftl (Z.lxor hi b) 8) (crc mod 256)).
  { rewrite Ec at 1. change (16 - 8) with 8. rewrite Z.shiftl_lxor.
    rewrite !Z.lxor_assoc. f_equal. apply Z.lxor_comm. }
  rewrite El, be_bits_lxor. change 65535 with (Z.ones 16). rewrite Z.land_ones by lia.
  rewrite mod_pow2_lxor by lia. rewrite <- !Z.land_ones by lia. change (Z.ones 16) with 65535.
  rewrite Hbits, low_byte by done. unfold u16. change 65536 with (2 ^ 16). rewrite mod_pow2_lxor by lia.
  rewrite (Z.mod_small t) by (simpl; lia). rewrite Z.lxor_comm. f_equal.
  rewrite Z.shiftl_mul_pow2 by lia. change (2 ^ 8) with 256. change (2 ^ 16) with 65536. dlia.
Qed.

(** C39: The table-driven [crc16_ccitt_update] computes the same checksum as the
    bitwise [ucrc16_calc_be] with the CCITT polynomial 0x1021, for every buffer and
    every start value. *)
Theorem crc16_table_is_bitwise buf i len crc :
  Forall (λ b, 0 <= b < 256) buf → 0 <= crc < 65536 →
  crc16_ccitt_update crc buf i len = ucrc16_calc_be buf i len 4129 crc.
Proof.
  intros Hbuf. revert i crc. induction len as [|len IH]; intros i crc Hc; [done|].
  cbn [crc16_ccitt_update ucrc16_calc_be].
  destruct (aget buf i) as [b|e] eqn:Eb; [|done]. cbn [mbind result_bind].
  assert (Hb : 0 <= b < 256).
  { unfold aget in Eb. case_match; [|done]. destruct (buf !! Z.to_nat i) eqn:E; [|done]. simpl in Eb. simplify_eq.
    rewrite Forall_lookup in Hbuf. by eapply Hbuf. }
  assert (Hi : 0 <= Z.lxor (Z.shiftr crc 8) (Z.land b 255) < 256).
  { apply (lxor_bound 8); [lia| |apply (land_bound 8); simpl; lia].
    rewrite Z.shiftr_div_pow2 by lia. change (2 ^ 8) with 256. dlia. }
  destruct (table_entry _ Hi) as (t & Ht & _). rewrite Ht. cbn [mbind result_bind].
  rewrite <- (crc_byte crc b t) by done. apply IH. unfold u16. apply Z.mod_pos_bound. lia.
Qed.

Lemma crc16_table_is_bitwise_witness :
  crc16_ccitt_update 7439 [49; 50; 51; 52] 0 4 = ucrc16_calc_be [49; 50; 51; 52] 0 4 4129 7439.
Proof. apply (crc16_table_is_bitwise [49; 50; 51; 52] 0 4 7439); [repeat constructor; lia | lia]. Defined.

(** The check value of the CRC-16/CCITT with this start value. *)
Example crc16_check : crc16_ccitt_calc [49; 50; 51; 52; 53; 54; 55; 56; 57] 9 = Ok 58828.
Proof. reflexivity. Qed.
