(* ===== verification/Div.v ===== *)
(** * sys/div/div.c and sys/include/div.h: division by constants

    Division by multiplication with a fixed-point inverse. *)

From S2P Require Import Prelude.
Open Scope Z_scope.

Definition DIV_H_INV_15625_32 : Z := 1125899907.
Definition DIV_H_INV_15625_64 : Z := 4835703278458516699.
Definition DIV_H_INV_15625_SHIFT : Z := 12.

(** The upper half of a 64 by 64 bit product. *)
Definition _div_mulhi64 (a b : Z) : Z :=
  let a_lo := u32 a in
  let a_hi := u32 (Z.shiftr a 32) in
  let b_lo := u32 b in
  let b_hi := u32 (Z.shiftr b 32) in
  let a_x_b_mid := u64 (a_hi * b_lo) in
  let b_x_a_mid := u64 (b_hi * a_lo) in
  let a_x_b_lo := u64 (a_lo * b_lo) in
  let a_x_b_hi := u64 (a_hi * b_hi) in
  let carry_bits := u32 (Z.shiftr (u64 (u64 (u32 a_x_b_mid + u32 b_x_a_mid) + Z.shiftr a_x_b_lo 32)) 32) in
  u64 (u64 (u64 (a_x_b_hi + Z.shiftr a_x_b_mid 32) + Z.shiftr b_x_a_mid 32) + carry_bits).

Definition div_u64_by_15625 (val : Z) : Z :=
  if 16383999997 <? val then Z.shiftr (_div_mulhi64 DIV_H_INV_15625_64 val) DIV_H_INV_15625_SHIFT
  else Z.shiftr (u64 (val * DIV_H_INV_15625_32)) (DIV_H_INV_15625_SHIFT + 32).

Definition div_u64_by_125 (val : Z) : result Z :=
  _ ← assert_ (val <=? 536870911999);
  let hi := u32 (Z.shiftr val 32) in
  let lo := u32 val in
  let r := u32 (Z.shiftr lo 16 + u32 (Z.shiftl hi 16)) in
  let res := r / 125 in
  let r := u32 (u32 (Z.shiftl (r mod 125) 16) + Z.land lo 65535) in
  let res := u32 (u32 (Z.shiftl res 16) + r / 125) in
  Ok res.

Definition div_u64_by_1000000 (val : Z) : Z := Z.shiftr (div_u64_by_15625 val) 6.

Definition div_u32_by_15625div512 (val : Z) : Z :=
  u32 (Z.shiftr (u64 (val * DIV_H_INV_15625_32)) (DIV_H_INV_15625_SHIFT + 32 - 9)).

Definition div_u64_by_15625div512 (val : Z) : Z :=
  if 16383999997 <? val then Z.shiftr (_div_mulhi64 DIV_H_INV_15625_64 val) (DIV_H_INV_15625_SHIFT - 9)
  else Z.shiftr (u64 (val * DIV_H_INV_15625_32)) (DIV_H_INV_15625_SHIFT + 32 - 9).

Definition div_u32_by_44488 (val : Z) : Z := u32 (Z.shiftr (u64 (val * 3163493265)) (15 + 32)).

Definition div_u32_mod_44488 (val : Z) : Z := u32 (val - u32 (div_u32_by_44488 val * 44488)).

(** ** The upper half of the product *)

(** Splitting a double word. *)
Lemma split32 z : 0 <= z < 18446744073709551616 →
  ∃ hi lo, z = hi * 4294967296 + lo ∧ u32 z = lo ∧ Z.shiftr z 32 = hi ∧ 0 <= hi < 4294967296 ∧ 0 <= lo < 4294967296.
Proof.
  intros Hz. exists (z / 4294967296), (z mod 4294967296). rewrite Z.shiftr_div_pow2 by lia.
  change (2 ^ 32) with 4294967296. unfold u32. dlia.
Qed.

Lemma mulhi64_spec a b :
  0 <= a < 18446744073709551616 → 0 <= b < 18446744073709551616 →
  _div_mulhi64 a b = a * b / 18446744073709551616.
Proof.
  intros Ha Hb. unfold _div_mulhi64.
  destruct (split32 a Ha) as (ah & al & Ea & -> & -> & Hah & Hal).
  destruct (split32 b Hb) as (bh & bl & Eb & -> & -> & Hbh & Hbl).
  rewrite (u32_small ah), (u32_small bh) by done.
  assert (0 <= ah * bl <= 4294967295 * 4294967295) by nia.
  assert (0 <= bh * al <= 4294967295 * 4294967295) by nia.
  assert (0 <= al * bl <= 4294967295 * 4294967295) by nia.
  assert (0 <= ah * bh <= 4294967295 * 4294967295) by nia.
  rewrite (u64_small (ah * bl)), (u64_small (bh * al)), (u64_small (al * bl)), (u64_small (ah * bh)) by lia.
  destruct (split32 (ah * bl)) as (m1h & m1l & E1 & -> & -> & ? & ?); [lia|].
  destruct (split32 (bh * al)) as (m2h & m2l & E2 & -> & -> & ? & ?); [lia|].
  destruct (split32 (al * bl)) as (lh & ll & E3 & _ & -> & ? & ?); [lia|].
  rewrite (u64_small (m1l + m2l)), (u64_small (m1l + m2l + lh)) by lia.
  destruct (split32 (m1l + m2l + lh)) as (c & k & E4 & _ & -> & ? & ?); [lia|].
  rewrite (u32_small c) by done.
  assert (E : a * b = (ah * bh + m1h + m2h + c) * 18446744073709551616 + (k * 4294967296 + ll)).
  { rewrite Ea, Eb. replace ((ah * 4294967296 + al) * (bh * 4294967296 + bl)) with
      (ah * bh * 18446744073709551616 + (ah * bl + bh * al) * 4294967296 + al * bl) by ring.
    rewrite E1, E2, E3. lia. }
  assert (0 <= ah * bh + m1h + m2h + c < 18446744073709551616).
  { split; [lia|]. assert (a * b <= 18446744073709551615 * 18446744073709551615) by nia. lia. }
  rewrite (u64_small (ah * bh + m1h)), (u64_small (ah * bh + m1h + m2h)), (u64_small (ah * bh + m1h + m2h + c)) by lia.
  rewrite E.
  rewrite Z.div_add_l by lia. rewrite (Z.div_small (k * _ + ll)) by lia. lia.
Qed.

(** ** The quotients *)

(** A rounded-up inverse [m] of [d] with [m * d = 2^s + e] divides exactly as long
    as [e * val < 2^s]. *)
Lemma inverse_exact d m p e val :
  0 < d → 0 < p → m * d = p + e → 0 <= e → 0 <= val → e * val < p → val * m / p = val / d.
Proof.
  intros Hd Hp Hm He Hv Hb. symmetry.
  pose proof (Z.div_mod val d). pose proof (Z.mod_pos_bound val d).
  set (q := val / d) in *. set (r := val mod d) in *. clearbody q r.
  apply (Z.div_unique _ _ _ (val * m - q * p)); [left|lia].
  assert (E : d * (val * m - q * p) = r * p + e * val).
  { replace (d * (val * m - q * p)) with (val * (m * d) - d * q * p) by ring. rewrite Hm.
    replace (d * q) with (val - r) by lia. ring. }
  split; nia.
Qed.

(** [div_u64_by_15625] is the exact quotient for every 64-bit value outside the
    gap between 2^44/2459 and the bound up to which the short inverse is used;
    above the bound the long inverse and the 64 by 64 bit product are exact. *)
Theorem div_u64_by_15625_exact val :
  0 <= val <= 7154203352 ∨ 16383999997 < val < 18446744073709551616 →
  div_u64_by_15625 val = val / 15625.
Proof.
  intros Hv. unfold div_u64_by_15625, DIV_H_INV_15625_SHIFT, DIV_H_INV_15625_32, DIV_H_INV_15625_64.
  rewrite !Z.shiftr_div_pow2 by lia. destruct (Z.ltb_spec 16383999997 val).
  - rewrite mulhi64_spec by lia. rewrite Z.div_div by lia.
    change (18446744073709551616 * 2 ^ 12) with (2 ^ 76). rewrite Z.mul_comm.
    apply (inverse_exact _ _ _ 2739); try lia; try done.
  - rewrite u64_small by lia. change (12 + 32) with 44. apply (inverse_exact _ _ _ 2459); try lia; done.
Qed.

Lemma div_u64_by_15625_exact_witness : div_u64_by_15625 18446744073709551615 = 18446744073709551615 / 15625.
Proof. apply (div_u64_by_15625_exact 18446744073709551615). right. lia. Defined.

(** In the gap the quotient can be one too large. *)
Theorem div_u64_by_15625_gap : div_u64_by_15625 16383984374 = 16383984374 / 15625 + 1.
Proof. reflexivity. Qed.

Theorem div_u32_by_44488_exact val : 0 <= val < 4294967296 → div_u32_by_44488 val = val / 44488.
Proof.
  intros Hv. unfold div_u32_by_44488. rewrite u64_small by lia. rewrite Z.shiftr_div_pow2 by lia.
  change (15 + 32) with 47. rewrite (inverse_exact 44488 3163493265 (2 ^ 47) 17992) by (done || lia).
  apply u32_small. split; [dlia|]. apply Z.div_lt_upper_bound; lia.
Qed.

Theorem div_u64_by_125_exact val : 0 <= val <= 536870911999 → div_u64_by_125 val = Ok (val / 125).
Proof.
  intros Hv. unfold div_u64_by_125. assert ((val <=? 536870911999) = true) as -> by lia. cbn [assert_ mbind result_bind].
  destruct (split32 val) as (hi & lo & E & -> & -> & Hh & Hl); [lia|]. rewrite (u32_small hi) by done.
  rewrite !Z.shiftl_mul_pow2, Z.shiftr_div_pow2 by lia. change 65535 with (Z.ones 16). rewrite Z.land_ones by lia.
  change (2 ^ 16) with 65536. f_equal.
  assert (hi < 125) by lia. rewrite (u32_small (hi * 65536)) by lia.
  assert (0 <= lo / 65536 < 65536) by dlia.
  rewrite (u32_small (lo / 65536 + hi * 65536)) by lia. set (r := lo / 65536 + hi * 65536).
  pose proof (Z.mod_pos_bound r 125). rewrite (u32_small (r mod 125 * 65536)) by lia.
  pose proof (Z.mod_pos_bound lo 65536). rewrite (u32_small (r mod 125 * 65536 + _)) by lia.
  assert (Ev : val = r * 65536 + lo mod 65536) by (unfold r; rewrite E; dlia).
  assert (Eq : val / 125 = r / 125 * 65536 + (r mod 125 * 65536 + lo mod 65536) / 125).
  { rewrite Ev. replace (r * 65536 + lo mod 65536) with (r / 125 * 65536 * 125 + (r mod 125 * 65536 + lo mod 65536)).
    - by rewrite Z.div_add_l by lia.
    - pose proof (Z.div_mod r 125). lia. }
  assert (0 <= val / 125 < 4294967296) by (split; [dlia|apply Z.div_lt_upper_bound; lia]).
  assert (0 <= (r mod 125 * 65536 + lo mod 65536) / 125) by dlia.
  assert (0 <= r / 125) by (apply Z.div_pos; unfold r; lia).
  rewrite (u32_small (r / 125 * 65536)) by lia. rewrite <- Eq. by apply u32_small.
Qed.

(** The 32 kHz conversion is documented as [floor(val * 512 / 15625)]; from about
    fourteen seconds on it can be a tick more. *)
Theorem div_u32_by_15625div512_off_by_one :
  div_u32_by_15625div512 13978302 = 13978302 * 512 / 15625 + 1.
Proof. reflexivity. Qed.
