(* ===== verification/Timex.v ===== *)
(** * sys/timex: timestamps in seconds and microseconds

    timex.c, timex_to_str.c and the functions of sys/include/timex.h: what they
    compute on the 64-bit number of microseconds, and the text of a timestamp. *)

From S2P Require Import Prelude Fmt.
Open Scope Z_scope.

(** ** The code *)

Definition US_PER_SEC : Z := 1000000.

Record timex_t : Type := Timex {
  seconds : Z;
  microseconds : Z
}.

Definition timex_add (a b : timex_t) : timex_t :=
  let s := u32 (seconds a + seconds b) in
  let us := u32 (microseconds a + microseconds b) in
  if US_PER_SEC <? us then Timex (u32 (s + 1)) (u32 (us - US_PER_SEC)) else Timex s us.

Definition timex_set (s us : Z) : timex_t := Timex s us.

Definition timex_sub (a b : timex_t) : timex_t :=
  if microseconds b <=? microseconds a then Timex (u32 (seconds a - seconds b)) (u32 (microseconds a - microseconds b))
  else Timex (u32 (u32 (seconds a - seconds b) - 1)) (u32 (u32 (microseconds a + US_PER_SEC) - microseconds b)).

Definition timex_cmp (a b : timex_t) : Z :=
  if seconds a <? seconds b then -1
  else if seconds a =? seconds b then
    if microseconds a <? microseconds b then -1
    else if microseconds a =? microseconds b then 0
    else 1
  else 1.

Definition timex_normalize (t : timex_t) : timex_t :=
  Timex (u32 (seconds t + microseconds t / US_PER_SEC)) (microseconds t mod US_PER_SEC).

Definition timex_isnormalized (t : timex_t) : bool := microseconds t <? US_PER_SEC.

Definition timex_uint64 (a : timex_t) : Z := u64 (u64 (seconds a * US_PER_SEC) + microseconds a).

Definition timex_from_uint64 (timestamp : Z) : timex_t := timex_set (u32 (timestamp / US_PER_SEC)) (u32 (timestamp mod US_PER_SEC)).

(** *** Text *)

(** [for (; u32 > 0; u32 /= RADIX)] on the characters from [str] on; the result has
    the number of digits. *)
Fixpoint digit_loop (fuel : nat) (buf : list Z) (str i u32 : Z) : result (Z * list Z) :=
  match fuel with
  | O => Fault OutOfFuel
  | S fuel =>
      if 0 <? u32 then
        let digit := u32 mod 10 in
        buf ← aset buf (str + i) (48 + digit);
        digit_loop fuel buf str (i + 1) (u32 / 10)
      else Ok (i, buf)
  end.

(** [for (int j = 0; j < i; j++, i--)] *)
Fixpoint swap_loop (fuel : nat) (buf : list Z) (str j i : Z) : result (list Z) :=
  match fuel with
  | O => Fault OutOfFuel
  | S fuel =>
      if j <? i then
        tmp ← aget buf (str + i);
        b ← aget buf (str + j);
        buf ← aset buf (str + i) b;
        buf ← aset buf (str + j) tmp;
        swap_loop fuel buf str (j + 1) (i - 1)
      else Ok buf
  end.

Definition u32_to_str (buf : list Z) (str u32 : Z) : result (Z * list Z) :=
  if u32 =? 0 then buf ← aset buf str 48; Ok (1, buf)
  else
    '(len, buf) ← digit_loop 11 buf str 0 u32;
    buf ← swap_loop 6 buf str 0 (len - 1);
    Ok (len, buf).

(** [for (uint32_t i = 100000; i > 1; i /= 10)] *)
Fixpoint leading_loop (fuel : nat) (buf : list Z) (dec offset i us : Z) : result (Z * Z * list Z) :=
  match fuel with
  | O => Fault OutOfFuel
  | S fuel =>
      if 1 <? i then
        if us <? i then
          buf ← aset buf dec 48;
          leading_loop fuel buf (dec + 1) (u8 (offset - 1)) (i / 10) us
        else leading_loop fuel buf dec offset (i / 10) us
      else Ok (dec, offset, buf)
  end.

Definition timex_to_str (buf : list Z) (t : timex_t) : result (list Z) :=
  let t := timex_normalize t in
  '(n, buf) ← u32_to_str buf 0 (seconds t);
  buf ← aset buf n 46;
  '(dec, offset, buf) ← leading_loop 6 buf (n + 1) 6 100000 (microseconds t);
  '(_, buf) ← u32_to_str buf dec (microseconds t);
  let dec := dec + offset in
  buf ← aset buf dec 32;
  buf ← aset buf (dec + 1) 115;
  aset buf (dec + 2) 0.

(** ** Arithmetic *)

Definition normal (t : timex_t) : Prop := 0 <= seconds t < 2 ^ 32 ∧ 0 <= microseconds t < US_PER_SEC.

Definition us_of (t : timex_t) : Z := seconds t * US_PER_SEC + microseconds t.

Ltac timex := unfold normal, us_of, US_PER_SEC in *; cbn [seconds microseconds] in *.

Lemma timex_uint64_Ok t : normal t → timex_uint64 t = us_of t.
Proof. intros [Hs Hu]. unfold timex_uint64, u64. timex. rewrite (Z.mod_small (seconds t * _)) by lia. apply Z.mod_small. lia. Qed.

Lemma timex_roundtrip t : normal t → timex_from_uint64 (timex_uint64 t) = t.
Proof.
  intros Ht. rewrite timex_uint64_Ok by done. destruct t as [s us]. unfold timex_from_uint64, timex_set. timex.
  assert ((s * 1000000 + us) / 1000000 = s) as -> by dlia. assert ((s * 1000000 + us) mod 1000000 = us) as -> by dlia.
  by rewrite !u32_small by lia.
Qed.

Lemma timex_normalize_normal t : 0 <= microseconds t < 2 ^ 32 → normal (timex_normalize t).
Proof. intros H. unfold timex_normalize. timex. split; [apply Z.mod_pos_bound; lia|dlia]. Qed.

(** The sum is exact as long as its seconds fit; it is normalised unless its
    microseconds are exactly one second. *)
Lemma timex_add_Ok a b : normal a → normal b → us_of a + us_of b < 2 ^ 32 * US_PER_SEC →
  us_of (timex_add a b) = us_of a + us_of b ∧
  (timex_isnormalized (timex_add a b) = false ↔ microseconds a + microseconds b = US_PER_SEC).
Proof.
  intros Ha Hb Hsum. unfold timex_add, timex_isnormalized. timex.
  rewrite (u32_small (seconds a + seconds b)), (u32_small (microseconds a + microseconds b)) by lia.
  destruct (Z.ltb_spec 1000000 (microseconds a + microseconds b)); cbn [seconds microseconds].
  - rewrite !u32_small by lia. lia.
  - lia.
Qed.

Lemma timex_sub_Ok a b : normal a → normal b → us_of b <= us_of a →
  us_of (timex_sub a b) = us_of a - us_of b ∧ normal (timex_sub a b).
Proof.
  intros Ha Hb Hle. unfold timex_sub. timex. destruct (Z.leb_spec (microseconds b) (microseconds a)); cbn [seconds microseconds].
  - rewrite !u32_small by lia. lia.
  - rewrite (u32_small (microseconds a + 1000000)), (u32_small (seconds a - seconds b)), !u32_small by lia. lia.
Qed.

Lemma timex_cmp_Ok a b : normal a → normal b →
  timex_cmp a b = match Z.compare (us_of a) (us_of b) with Lt => -1 | Eq => 0 | Gt => 1 end.
Proof.
  intros Ha Hb. unfold timex_cmp. timex.
  destruct (Z.compare_spec (seconds a * 1000000 + microseconds a) (seconds b * 1000000 + microseconds b));
    repeat case_match; lia.
Qed.

(** The sum of half a second and half a second is not normalised. *)
Example timex_add_denormal : timex_add (Timex 0 500000) (Timex 0 500000) = Timex 0 1000000.
Proof. reflexivity. Qed.

(** ** Text *)

Lemma digit_loop_Ok fuel k v w mid r i str :
  length mid = k → 0 <= v < 10 ^ Z.of_nat k → (v ≠ 0 → 10 ^ (Z.of_nat k - 1) <= v) → (v = 0 → k = 0%nat) →
  (k < fuel)%nat → str + i = Z.of_nat (length w) →
  digit_loop fuel (w ++ mid ++ r) str i v = Ok (i + Z.of_nat k, w ++ rev (dec k v) ++ r).
Proof.
  revert fuel v w mid i. induction k as [|k IH]; intros [|fuel] v w mid i Hm Hv Hv1 Hv0 Hf Hi; try lia; cbn [digit_loop].
  - change (10 ^ Z.of_nat 0) with 1 in Hv. assert (v = 0) as -> by lia. destruct mid; [|done]. simpl. by rewrite Z.add_0_r.
  - assert (v ≠ 0) as Hne by (intros ->; by specialize (Hv0 eq_refl)). specialize (Hv1 Hne).
    rewrite (proj2 (Z.ltb_lt 0 v)) by lia. destruct mid as [|x mid]; [done|]. injection Hm as Hm. rewrite Hi. simpl app.
    rewrite aset_app by done. cbn [mbind result_bind]. cbn [dec]. rewrite rev_app_distr. simpl. rewrite (Z.add_comm 48).
    replace (w ++ (v mod 10 + 48) :: mid ++ r) with ((w ++ [v mod 10 + 48]) ++ mid ++ r) by by rewrite <- app_assoc.
    rewrite IH; [| done | | | | lia | rewrite length_app; simpl; lia].
    + rewrite <- app_assoc. simpl. do 2 f_equal. lia.
    + rewrite Nat2Z.inj_succ, Z.pow_succ_r in Hv by lia. split; [dlia|]. apply Z.div_lt_upper_bound; lia.
    + intros Hd. replace (Z.of_nat (S k) - 1) with (Z.of_nat k) in Hv1 by lia. destruct k as [|k]; [simpl in Hv; change (10 ^ 1) with 10 in Hv; exfalso; apply Hd; dlia|].
      apply Z.div_le_lower_bound; [lia|]. replace (10 * 10 ^ (Z.of_nat (S k) - 1)) with (10 ^ Z.of_nat (S k)); [done|].
      rewrite <- Z.pow_succ_r by lia. f_equal. lia.
    + intros Hd. destruct k as [|k]; [done|]. replace (Z.of_nat (S (S k)) - 1) with (Z.succ (Z.of_nat k)) in Hv1 by lia.
      rewrite Z.pow_succ_r in Hv1 by lia. pose proof (Z.pow_pos_nonneg 10 (Z.of_nat k)). dlia.
Qed.

(** The swaps reverse the characters. *)
Lemma swap_loop_Ok fuel mid w r str j i : (length mid < 2 * fuel)%nat → str + j = Z.of_nat (length w) →
  str + i = Z.of_nat (length w + length mid) - 1 → swap_loop fuel (w ++ mid ++ r) str j i = Ok (w ++ rev mid ++ r).
Proof.
  revert mid w r j i. induction fuel as [|fuel IH]; intros mid w r j i Hf Hj Hi; [lia|]. cbn [swap_loop].
  destruct mid as [|a mid]; [rewrite (proj2 (Z.ltb_ge j i)) by (simpl in Hi; lia); done|].
  destruct mid as [|b mid _] using rev_ind; [rewrite (proj2 (Z.ltb_ge j i)) by (simpl in Hi; lia); done|].
  simpl length in *. rewrite length_app in *. simpl length in *. rewrite (proj2 (Z.ltb_lt j i)) by lia.
  assert (w ++ (a :: mid ++ [b]) ++ r = (w ++ a :: mid) ++ b :: r) as E by (cbn [app]; rewrite <- !app_assoc; cbn [app]; by rewrite <- ?app_assoc).
  rewrite E, (aget_app (w ++ a :: mid) r b (str + i)) by (rewrite length_app; cbn [length]; lia). cbn [mbind result_bind].
  assert (E' : ∀ x, (w ++ a :: mid) ++ x :: r = w ++ a :: (mid ++ x :: r)) by (intros x; by rewrite <- app_assoc).
  rewrite (E' b), (aget_app w _ a) by done. cbn [mbind result_bind].
  rewrite <- (E' b), aset_app by (rewrite length_app; cbn [length]; lia). cbn [mbind result_bind].
  rewrite (E' a), aset_app by done. cbn [mbind result_bind].
  replace (w ++ b :: mid ++ a :: r) with ((w ++ [b]) ++ mid ++ (a :: r)) by by rewrite <- !app_assoc.
  rewrite IH; [|lia|rewrite length_app; cbn [length]; lia|rewrite length_app; cbn [length]; lia].
  rewrite <- app_assoc. simpl. rewrite rev_app_distr. simpl. by rewrite <- app_assoc.
Qed.

Lemma ndigits_exists v n : 0 <= v < 10 ^ Z.of_nat (S n) → ∃ k, ndigits k v ∧ (k <= S n)%nat.
Proof.
  induction n as [|n IH]; intros Hv; [exists 1%nat; split; [split; [done|split; [done|by left]]|done]|].
  destruct (decide (v < 10 ^ Z.of_nat (S n))) as [Hlt|Hge].
  - destruct IH as (k & Hk & Hle); [lia|]. exists k. split; [done|lia].
  - exists (S (S n)). split; [|done]. split; [lia|]. split; [done|]. right. replace (Z.of_nat (S (S n)) - 1) with (Z.of_nat (S n)) by lia. lia.
Qed.

(** The decimal digits of a number without leading zeros. *)
Lemma u32_to_str_Ok k v w mid r str : ndigits k v → (k <= 10)%nat → length mid = k → str = Z.of_nat (length w) →
  u32_to_str (w ++ mid ++ r) str v = Ok (Z.of_nat k, w ++ dec k v ++ r).
Proof.
  intros (Hk1 & Hv & Hk2) Hk Hm ->. unfold u32_to_str. destruct (Z.eqb_spec v 0) as [->|Hne].
  - assert (k = 1%nat) as ->.
    { destruct Hk2 as [->|Hle]; [done|]. pose proof (Z.pow_pos_nonneg 10 (Z.of_nat k - 1)). lia. }
    destruct mid as [|x [|]]; try done. simpl app. by rewrite aset_app.
  - rewrite (digit_loop_Ok 11 k); [|done|done| |done|lia|lia].
    + cbn [mbind result_bind]. rewrite swap_loop_Ok; [|rewrite length_rev, length_dec; lia|lia|rewrite length_rev, length_dec; lia].
      cbn [mbind result_bind]. by rewrite rev_involutive.
    + intros _. destruct Hk2 as [->|?]; [simpl; change (10 ^ 0) with 1; lia|done].
Qed.

(** The zeros before the microseconds. *)
Lemma leading_loop_Ok n fuel j us w m r off :
  ndigits j us → length m = (S n - j)%nat → (n < fuel)%nat → Z.of_nat (S n) <= off < 256 →
  leading_loop fuel (w ++ m ++ r) (Z.of_nat (length w)) off (10 ^ Z.of_nat n) us =
    Ok (Z.of_nat (length w + (S n - j)), off - Z.of_nat (S n - j), w ++ replicate (S n - j) 48 ++ r).
Proof.
  intros (Hj & Hu & Hlow). revert fuel w m off. induction n as [|n IH]; intros [|fuel] w m off Hm Hf Hoff; try lia; cbn [leading_loop].
  - change (10 ^ Z.of_nat 0) with 1. rewrite Z.ltb_irrefl. replace (1 - j)%nat with 0%nat in * by lia. destruct m; [|done].
    simpl. by rewrite Nat.add_0_r, Z.sub_0_r.
  - assert (10 ^ Z.of_nat (S n) / 10 = 10 ^ Z.of_nat n) as Ediv.
    { rewrite Nat2Z.inj_succ, Z.pow_succ_r, Z.mul_comm, Z.div_mul by lia. done. }
    assert (1 < 10 ^ Z.of_nat (S n)) as H1 by (apply Z.pow_gt_1; lia). rewrite (proj2 (Z.ltb_lt 1 _)) by done. rewrite Ediv.
    destruct (decide (j <= S n)%nat) as [Hle|Hgt].
    + assert (us < 10 ^ Z.of_nat (S n)) as Hlt by (assert (10 ^ Z.of_nat j <= 10 ^ Z.of_nat (S n)) by (apply Z.pow_le_mono_r; lia); lia).
      rewrite (proj2 (Z.ltb_lt us _)) by done. replace (S (S n) - j)%nat with (S (S n - j)) in * by lia.
      destruct m as [|x m]; [done|]. injection Hm as Hm. simpl app. rewrite aset_app by done. cbn [mbind result_bind].
      replace (w ++ 48 :: m ++ r) with ((w ++ [48]) ++ m ++ r) by by rewrite <- app_assoc.
      replace (Z.of_nat (length w) + 1) with (Z.of_nat (length (w ++ [48]))) by (rewrite length_app; cbn [length]; lia).
      unfold u8. rewrite Z.mod_small by lia. rewrite IH by (done || lia). rewrite length_app. cbn [length replicate app]. rewrite <- app_assoc. simpl.
      do 3 f_equal; [f_equal; lia|lia].
    + assert (10 ^ Z.of_nat (S n) <= us) as Hge.
      { destruct Hlow as [->|Hlow]; [lia|]. assert (10 ^ Z.of_nat (S n) <= 10 ^ (Z.of_nat j - 1)) by (apply Z.pow_le_mono_r; lia). lia. }
      rewrite (proj2 (Z.ltb_ge us _)) by done. replace (S (S n) - j)%nat with 0%nat in * by lia. destruct m; [|done].
      specialize (IH fuel w [] off). replace (S n - j)%nat with 0%nat in IH by lia. apply IH; [done|lia|lia].
Qed.

Lemma split_length {A} (l : list A) n : (n <= length l)%nat → ∃ a b, l = a ++ b ∧ length a = n.
Proof. intros Hn. exists (take n l), (drop n l). by rewrite take_drop, length_take_le. Qed.

(** Equal up to the nesting of [++]. *)
Ltac norm_app := cbn [app]; repeat (rewrite <- ?app_assoc; cbn [app]); reflexivity.

(** The text of a timestamp: its seconds, a point, its microseconds with six
    digits, and the unit. It fits in [TIMEX_MAX_STR_LEN] characters. *)
Lemma timex_to_str_Ok t buf : 0 <= microseconds t < 2 ^ 32 → (20 <= length buf)%nat →
  let t' := timex_normalize t in
  ∃ k rest, ndigits k (seconds t') ∧ (k <= 10)%nat ∧ rest = drop (k + 10) buf ∧
    timex_to_str buf t = Ok (dec k (seconds t') ++ [46] ++ dec 6 (microseconds t') ++ [32; 115; 0] ++ rest).
Proof.
  intros Ht Hl t'. pose proof (timex_normalize_normal t Ht) as [Hs Hu]. fold t' in Hs, Hu. unfold US_PER_SEC in Hu.
  destruct (ndigits_exists (seconds t') 9) as (k & Hk & Hk10); [lia|]. destruct (ndigits_exists (microseconds t') 5) as (j & Hj & Hj6); [lia|].
  exists k, (drop (k + 10) buf). do 3 (split; [done|]).
  destruct (split_length buf (k + 10)) as (pre & r & -> & Hpre); [lia|]. rewrite drop_app_length' by done.
  destruct (split_length pre k) as (a & pre' & -> & Ha); [lia|]. rewrite length_app in Hpre.
  destruct pre' as [|x pre']; [simpl in Hpre; lia|]. simpl in Hpre.
  destruct (split_length pre' (6 - j)) as (b & pre'' & -> & Hb); [lia|]. rewrite length_app in Hpre.
  destruct (split_length pre'' j) as (c & d & -> & Hc); [lia|]. rewrite length_app in Hpre.
  destruct d as [|y [|z [|u [|]]]]; simpl in Hpre; try lia.
  assert (Ebuf : (a ++ x :: b ++ c ++ [y; z; u]) ++ r = a ++ x :: b ++ c ++ y :: z :: u :: r) by norm_app. rewrite Ebuf. clear Ebuf Hl.
  set (S1 := dec k (seconds t')). set (S2 := dec j (microseconds t')). set (Z6 := replicate (6 - j) 48).
  assert (length S1 = k ∧ length S2 = j ∧ length Z6 = (6 - j)%nat) as (HS1 & HS2 & HZ6)
    by (unfold S1, S2, Z6; by rewrite !length_dec, length_replicate).
  pose proof (u32_to_str_Ok k (seconds t') [] a (x :: b ++ c ++ y :: z :: u :: r) 0 Hk Hk10 Ha eq_refl) as E1. cbn [app] in E1. fold S1 in E1.
  pose proof (leading_loop_Ok 5 6 j (microseconds t') (S1 ++ [46]) b (c ++ y :: z :: u :: r) 6 Hj Hb ltac:(lia) ltac:(lia)) as E2. fold Z6 in E2.
  pose proof (u32_to_str_Ok j (microseconds t') ((S1 ++ [46]) ++ Z6) c (y :: z :: u :: r) _ Hj ltac:(lia) Hc eq_refl) as E3. fold S2 in E3.
  set (w := ((S1 ++ [46]) ++ Z6) ++ S2). assert (length w = (k + 1 + 6)%nat) as Hw by (unfold w; rewrite !length_app; cbn [length]; lia).
  assert (dec 6 (microseconds t') = Z6 ++ S2) as ->.
  { unfold Z6, S2. rewrite <- dec_pad by apply Hj. f_equal. lia. }
  unfold timex_to_str. fold t'. rewrite E1. cbn [mbind result_bind]. rewrite aset_app by lia. cbn [mbind result_bind].
  replace (S1 ++ 46 :: b ++ c ++ y :: z :: u :: r) with ((S1 ++ [46]) ++ b ++ c ++ y :: z :: u :: r) by norm_app.
  replace (Z.of_nat k + 1) with (Z.of_nat (length (S1 ++ [46]))) by (rewrite length_app; cbn [length]; lia).
  change 100000 with (10 ^ Z.of_nat 5). rewrite E2. cbn [mbind result_bind].
  replace ((S1 ++ [46]) ++ Z6 ++ c ++ y :: z :: u :: r) with (((S1 ++ [46]) ++ Z6) ++ c ++ y :: z :: u :: r) by norm_app.
  replace (length (S1 ++ [46%Z]) + (6 - j))%nat with (length ((S1 ++ [46]) ++ Z6)) by (rewrite (length_app (S1 ++ [46])), HZ6; lia).
  rewrite E3. cbn [mbind result_bind].
  replace (Z.of_nat (length ((S1 ++ [46]) ++ Z6)) + (6 - Z.of_nat (6 - j))) with (Z.of_nat (length w))
    by (unfold w; rewrite (length_app ((S1 ++ [46]) ++ Z6)); lia).
  replace (((S1 ++ [46]) ++ Z6) ++ S2 ++ y :: z :: u :: r) with (w ++ y :: z :: u :: r) by (unfold w; norm_app).
  rewrite aset_app by done. cbn [mbind result_bind].
  replace (w ++ 32 :: z :: u :: r) with ((w ++ [32]) ++ z :: u :: r) by norm_app.
  rewrite aset_app by (rewrite length_app; cbn [length]; lia). cbn [mbind result_bind].
  replace ((w ++ [32]) ++ 115 :: u :: r) with ((w ++ [32; 115]) ++ u :: r) by norm_app.
  rewrite aset_app by (rewrite length_app; cbn [length]; lia). f_equal. unfold w. norm_app.
Qed.
