(* ===== verification/XtimerIsr.v ===== *)
(** * The timer interrupt as a whole

    [_timer_callback] of sys/xtimer/xtimer_core.c on a 32-bit counter that does not
    wrap while the handler runs: it fires every timer that is due, waits for timers
    that are about to be due, and leaves the compare register set for the first of
    the others. *)

From S2P Require Import Prelude LinkedList Xtimer.
Open Scope Z_scope.
Implicit Types (Q : xnode → list Z).

Section Isr.
(** [p] reads of the counter take at least [XTIMER_ISR_BACKOFF] ticks; the loops
    have [S N] rounds. *)
Variables (rd : nat → Z) (call : Z → Z → XM unit) (p N : nat).
Hypothesis rd_u32 : ∀ n, u32_ok (rd n).
Hypothesis call_ok : ∀ f a st, call f a st = Ok (tt, st).
Hypothesis Hp : (0 < p <= N)%nat.

Lemma ticking_more r W : ticking rd p r W → ticking rd N r W.
Proof.
  intros [Hm Hb]. split; [done|]. intros n Hn HW. pose proof (Hb n Hn ltac:(lia)).
  pose proof (Hm (n + p)%nat (n + N)%nat). lia.
Qed.

(** The number of reads for [n] timers when the first of them is due after [c]
    reads, or may have to be waited for. *)
Definition isr_reads (n c : nat) : nat := (S N * n + (p + 2) * n + c + 2)%nat.

(** Rounds of the loop behind the label [overflow]. *)
Definition isr_rounds (n c : nat) : nat := ((p + 2) * n + c + 1)%nat.

(** The handler has not met a wrap of the counter, nor will it. *)
Definition no_wrap (r W : nat) : Prop := ticking rd p r W ∧ ∀ j, (r <= j <= r + W)%nat → rd j + 2 * XTIMER_ISR_BACKOFF < 4294967296.

Lemma no_wrap_weaken r W r' W' : no_wrap r W → (r <= r')%nat → (r' + W' <= r + W)%nat → no_wrap r' W'.
Proof. intros [Ht Hw] Hr HW. split; [by eapply ticking_weaken|]. intros j Hj. apply Hw. lia. Qed.

(** The first timer is due after [c] more reads, or [c] exceeds the reads one has to
    wait for it. *)
Definition soon (ts : gmap Z xtimer_t) (A : list Z) (r c : nat) : Prop :=
  c = S p ∨ (c <= p)%nat ∧ ∀ t, head A = Some t → key ts TIMER_LIST t < rd (r + c)%nat + XTIMER_ISR_BACKOFF.

(** What the handler leaves: it has fired the first [n] timers. *)
Record isr_done (Q : xnode → list Z) (st : xstate) (r n : nat) (F : list (Z * nat)) (st' : xstate) : Prop := {
  i_fired : fired st' = fired st ++ F;
  i_order : F.*1 = take n (Q TIMER_LIST);
  i_early : ∀ t i, (t, i) ∈ F → key (timers st) TIMER_LIST t <= rd (pred i);
  i_late : ∀ t, t ∈ drop n (Q TIMER_LIST) → rd r + XTIMER_ISR_BACKOFF <= key (timers st) TIMER_LIST t;
  i_timers : timers st' = foldl disarm (timers st) (take n (Q TIMER_LIST));
  i_inv : xinv (<[TIMER_LIST := drop n (Q TIMER_LIST)]> Q) st';
  i_long : _long_cnt st' = _long_cnt st
}.

Lemma disarm_other ts l u : u ∉ l → foldl disarm ts l !! u = ts !! u.
Proof.
  revert ts. induction l as [|v l IH]; intros ts Hu; [done|]. cbn [foldl]. rewrite IH by set_solver.
  unfold disarm. apply lookup_alter_ne. set_solver.
Qed.

Lemma disarm_callback ts l u X : ts !! u = Some X →
  ∃ Y, foldl disarm ts l !! u = Some Y ∧ callback Y = callback X ∧ arg Y = arg X.
Proof.
  revert ts X. induction l as [|v l IH]; intros ts X HX; [by exists X|]. cbn [foldl]. destruct (decide (v = u)) as [->|Hne].
  - destruct (IH (disarm ts u) (set_targets 0 0 X)) as (Y & HY & HcY & HaY); [|by exists Y].
    unfold disarm. by rewrite lookup_alter_eq, HX.
  - apply IH. unfold disarm. by rewrite lookup_alter_ne.
Qed.

(** The timers that are left keep their targets. *)
Lemma late_key Q st r n F st1 t : xinv Q st → isr_done Q st r n F st1 → t ∈ drop n (Q TIMER_LIST) →
  key (timers st1) TIMER_LIST t = key (timers st) TIMER_LIST t.
Proof.
  intros Hx H1 Ht. pose proof (xinv_NoDup _ _ TIMER_LIST Hx eq_refl) as Hnd.
  unfold key. rewrite (i_timers _ _ _ _ _ _ H1), disarm_other; [done|]. intros Ht'.
  rewrite <- (take_drop n (Q TIMER_LIST)) in Hnd. apply NoDup_app in Hnd as (_ & Hd & _). by apply (Hd t).
Qed.

(** Firing in two goes. *)
Lemma isr_done_app Q st r n F st1 r' m G st2 :
  xinv Q st → isr_done Q st r n F st1 → (n <= length (Q TIMER_LIST))%nat →
  isr_done (<[TIMER_LIST := drop n (Q TIMER_LIST)]> Q) st1 r' m G st2 →
  isr_done Q st r' (n + m) (F ++ G) st2.
Proof.
  intros Hx H1 Hn H2. set (A := Q TIMER_LIST) in *.
  pose proof (λ t, late_key Q st r n F st1 t Hx H1) as Hkey. fold A in Hkey.
  destruct H2 as [HF HO HE HL HT HI HC]. rewrite fn_lookup_insert in *. rewrite drop_drop in *.
  assert (Hin : ∀ t, t ∈ drop (n + m) A → t ∈ drop n A).
  { intros t Ht. rewrite <- drop_drop in Ht. rewrite <- (take_drop m (drop n A)). set_solver. }
  assert (Htk : take (n + m) A = take n A ++ take m (drop n A)).
  { rewrite <- (take_drop n A) at 1. rewrite take_app, length_take_le by done.
    rewrite (take_ge (take n A)) by (rewrite length_take_le by done; lia). by replace (n + m - n)%nat with m by lia. }
  split.
  - rewrite HF, (i_fired _ _ _ _ _ _ H1). by rewrite app_assoc.
  - fold A. rewrite fmap_app, HO, (i_order _ _ _ _ _ _ H1). done.
  - intros t i [Hi|Hi]%elem_of_app; [by apply (i_early _ _ _ _ _ _ H1)|].
    rewrite <- Hkey; [by apply HE|]. apply (subseteq_take m). rewrite <- HO.
    by apply list_elem_of_fmap_2 with (f := fst) in Hi.
  - intros t Ht. rewrite <- Hkey by auto. by apply HL.
  - fold A. rewrite HT, (i_timers _ _ _ _ _ _ H1), Htk. by rewrite foldl_app.
  - by eapply xinv_twice.
  - rewrite HC. apply H1.
Qed.

Lemma fire_done Q st ref r W :
  xinv Q st → reads st = S r → ref <= rd r → no_wrap r W → (S N * length (Q TIMER_LIST) <= W)%nat → (length (Q TIMER_LIST) < S N)%nat →
  ∃ n F r' st', fire_loop rd call 0 (S N) (S N) ref (rd r) st = Ok (rd r', st') ∧ reads st' = S r' ∧
    (r <= r' <= r + S N * n)%nat ∧ (n <= length (Q TIMER_LIST))%nat ∧ isr_done Q st r' n F st'.
Proof.
  intros Hx Hr Href [Ht _] HW Hl.
  destruct (fire_loop_fires rd call N rd_u32 call_ok Q st ref r (S N)) as (n & F & r' & st' & E & H1 & H2 & H3 & H4 & H5 & H6 & H7 & H8 & H9 & H10);
    [done|done|done| |done|].
  { eapply ticking_weaken; [by apply ticking_more|lia|lia]. }
  exists n, F, r', st'. do 4 (split; [done|]). by split.
Qed.

(** The compare register for the timers that are left. *)
Definition programmed (Q : xnode → list Z) (st st' : xstate) (l : list Z) : Prop :=
  match l with
  | t :: _ => compare_ st' = Some (key (timers st) TIMER_LIST t - XTIMER_OVERHEAD)
  | [] => Q OVERFLOW_LIST ≠ [] ∨ Q LONG_LIST ≠ [] → compare_ st' = Some 4294967295
  end.

Lemma programmed_later Q st r n F st1 st2 m :
  xinv Q st → isr_done Q st r n F st1 →
  programmed (<[TIMER_LIST := drop n (Q TIMER_LIST)]> Q) (set_reads (S (S r)) st1) st2 (drop (n + m) (Q TIMER_LIST)) →
  programmed Q st st2 (drop (n + m) (Q TIMER_LIST)).
Proof.
  intros Hx Hd. destruct (drop (n + m) (Q TIMER_LIST)) as [|t l] eqn:E; simpl.
  - by rewrite !fn_lookup_insert_ne by done.
  - intros ->. rewrite (late_key Q st r n F st1); [done..|]. rewrite <- drop_drop in E.
    rewrite <- (take_drop m (drop n (Q TIMER_LIST))), E. set_solver.
Qed.

Lemma lltimer_set_final a st : u32_ok a → _in_handler st = 0 → _lltimer_set 0 a st = Ok (tt, set_compare (Some a) st).
Proof. intros Ha Hh. unfold _lltimer_set. xsimpl. rewrite Hh. cbn [Z.eqb negb]. by rewrite lltimer_mask_0. Qed.

Lemma set_compare_same st : set_compare (compare_ st) st = st.
Proof. by destruct st. Qed.

(** One round, behind its inner loop. *)
Lemma overflow_empty Q ref r r' f st st1 W :
  fire_loop rd call 0 (S N) (S N) ref (rd r) st = Ok (rd r', st1) → reads st1 = S r' →
  xinv Q st1 → Q TIMER_LIST = [] → ref <= rd r' → no_wrap r' W → (0 < W)%nat →
  ∃ st', overflow_loop rd call 0 (S N) (S f) ref (rd r) st = Ok (tt, st') ∧ programmed Q st st' [] ∧
    _in_handler st' = 0 ∧ links st' = links st1 ∧ timers st' = timers st1 ∧ fired st' = fired st1 ∧ _long_cnt st' = _long_cnt st1.
Proof.
  intros E Hr Hx EQ Href [[Hm _] Hw] HW. cbn [overflow_loop]. rewrite (xbind_Ok _ _ _ _ _ E).
  rewrite (proj2 (Z.ltb_ge _ _) Href). xsimpl. rewrite (xinv_links Q), EQ by done. cbn [head fmap option_fmap option_map].
  xstep lltimer_now_Ok. rewrite Hr. pose proof (Hm r' (S r') ltac:(lia) ltac:(lia) ltac:(lia)) as Hmono.
  pose proof (Hw (S r') ltac:(lia)) as Hno. pose proof (rd_u32 (S r')) as Hu. unfold u32_ok, XTIMER_ISR_BACKOFF in *.
  rewrite (proj2 (Z.ltb_ge _ _)) by lia. rewrite (u32_small (rd (S r') + 20)) by lia. rewrite lltimer_mask_0 by (unfold u32_ok; lia).
  rewrite (proj2 (Z.ltb_ge _ _)) by lia. xsimpl. rewrite !(xinv_links Q) by done.
  unfold programmed. destruct (Q OVERFLOW_LIST) as [|o lo], (Q LONG_LIST) as [|u lu]; cbn [head fmap option_fmap option_map];
    repeat first [rewrite bool_decide_eq_false_2 by (intros [? ?]; done) | rewrite bool_decide_eq_true_2 by eauto]; cbn [orb xwhen];
    rewrite ?lltimer_set_final by done; eexists; (split; [reflexivity|]); (split; [|done]); naive_solver.
Qed.

Lemma overflow_first Q ref r r' f st st1 t l W :
  fire_loop rd call 0 (S N) (S N) ref (rd r) st = Ok (rd r', st1) → reads st1 = S r' →
  xinv Q st1 → Q TIMER_LIST = t :: l → ref <= rd r' → no_wrap r' W →
  rd r' + XTIMER_ISR_BACKOFF <= key (timers st1) TIMER_LIST t →
  overflow_loop rd call 0 (S N) (S f) ref (rd r) st =
    if key (timers st1) TIMER_LIST t - XTIMER_OVERHEAD <? rd r' + XTIMER_ISR_BACKOFF
    then overflow_loop rd call 0 (S N) f ref (rd (S r')) (set_reads (S (S r')) st1)
    else Ok (tt, set_compare (Some (key (timers st1) TIMER_LIST t - XTIMER_OVERHEAD)) (set_in_handler 0 st1)).
Proof.
  intros E Hr Hx EQ Href [_ Hw] Hlate. cbn [overflow_loop]. rewrite (xbind_Ok _ _ _ _ _ E).
  rewrite (proj2 (Z.ltb_ge _ _) Href). xsimpl. rewrite (xinv_links Q), EQ by done. cbn [head fmap option_fmap option_map].
  destruct (x_timer _ _ Hx TIMER_LIST t) as (T & HT & _ & _ & Htok & _); [done|rewrite EQ; by left|].
  xsimpl. xstep (get_timer_Ok _ _ _ HT). unfold key in *. rewrite HT in *. pose proof (rd_u32 r') as Hu. pose proof (Hw r' ltac:(lia)) as Hno.
  unfold u32_ok, XTIMER_ISR_BACKOFF, XTIMER_OVERHEAD in *. rewrite (u32_small (rd r' + 20)), (u32_small (target T - 20)) by lia.
  destruct (target T - 20 <? rd r' + 20) eqn:Hlt.
  - xstep lltimer_now_Ok. by rewrite Hr.
  - xsimpl. rewrite lltimer_set_final; [done|unfold u32_ok; lia|done].
Qed.

Lemma isr_done_env Q st st0 r n F st1 st' :
  isr_done Q st r n F st1 → fired st0 = fired st → timers st0 = timers st → _long_cnt st0 = _long_cnt st →
  links st' = links st1 → timers st' = timers st1 → fired st' = fired st1 → _long_cnt st' = _long_cnt st1 → isr_done Q st0 r n F st'.
Proof.
  intros [H1 H2 H3 H4 H5 H6 H7] E1 E2 E3 E4 E5 E6 E7. split; rewrite ?E1, ?E2, ?E3, ?E5, ?E6, ?E7; try done. by eapply xinv_env.
Qed.

(** The budget of re-reads behind a round that has fired [n] timers. *)
Lemma soon_next Q st r c n r' t l W :
  soon (timers st) (Q TIMER_LIST) r c → drop n (Q TIMER_LIST) = t :: l → (n = O → r' = r) → (r <= r')%nat → no_wrap r W → (r' + p <= r + W)%nat →
  rd r' + XTIMER_ISR_BACKOFF <= key (timers st) TIMER_LIST t →
  key (timers st) TIMER_LIST t - XTIMER_OVERHEAD < rd r' + XTIMER_ISR_BACKOFF →
  ∃ c', soon (timers st) (t :: l) (S r') c' ∧ (c' < p)%nat ∧ (n = O → c' < c)%nat.
Proof.
  intros Hs Hd Hrr Hle [[_ Hp'] _] HW Hlate Hlt. unfold XTIMER_ISR_BACKOFF, XTIMER_OVERHEAD in *.
  assert (∃ c', (c' < p)%nat ∧ (n = O → c' < c)%nat ∧ key (timers st) TIMER_LIST t < rd (S r' + c')%nat + 20) as (c' & H1 & H2 & H3).
  { destruct n as [|n], Hs as [->|[Hc Hs]].
    - exists (pred p). split; [lia|]. split; [lia|]. replace (S r' + pred p)%nat with (r' + p)%nat by lia. specialize (Hp' r' Hle HW). lia.
    - rewrite Hrr in * by done. change (drop 0 (Q TIMER_LIST)) with (Q TIMER_LIST) in Hd. rewrite Hd in Hs. specialize (Hs t eq_refl).
      unfold XTIMER_ISR_BACKOFF in Hs. destruct c as [|c]; [rewrite Nat.add_0_r in Hs; lia|]. exists c. split; [lia|]. split; [lia|]. by rewrite Nat.add_succ_comm.
    - exists (pred p). split; [lia|]. split; [lia|]. replace (S r' + pred p)%nat with (r' + p)%nat by lia. specialize (Hp' r' Hle HW). lia.
    - exists (pred p). split; [lia|]. split; [lia|]. replace (S r' + pred p)%nat with (r' + p)%nat by lia. specialize (Hp' r' Hle HW). lia. }
  exists c'. split; [|done]. right. split; [lia|]. by intros u [= <-].
Qed.

Lemma overflow_loop_spec fuel Q st r c ref :
  xinv Q st → reads st = S r → ref <= rd r → soon (timers st) (Q TIMER_LIST) r c →
  let len := length (Q TIMER_LIST) in
  no_wrap r (isr_reads len c) → (isr_rounds len c <= fuel)%nat → (len <= N)%nat →
  ∃ n F r' st', overflow_loop rd call 0 (S N) fuel ref (rd r) st = Ok (tt, st') ∧ isr_done Q st r' n F st' ∧
    (n <= len)%nat ∧ (r <= r')%nat ∧ rd r <= rd r' ∧ _in_handler st' = 0 ∧ programmed Q st st' (drop n (Q TIMER_LIST)).
Proof.
  revert Q st r c. induction fuel as [|fuel IH]; intros Q st r c Hx Hr Href Hs len Hw Hf Hl; [unfold isr_rounds in Hf; lia|].
  destruct (fire_done Q st ref r (isr_reads len c) Hx Hr Href Hw) as (n & F & r1 & st1 & E & Hr1 & Hrr & Hn & Hd);
    [unfold isr_reads; subst len; lia|subst len; lia|]. fold len in Hn.
  pose proof (i_inv _ _ _ _ _ _ Hd) as Hx1. set (Q1 := <[TIMER_LIST := drop n (Q TIMER_LIST)]> Q) in *.
  assert (EQ1 : Q1 TIMER_LIST = drop n (Q TIMER_LIST)) by (unfold Q1; apply fn_lookup_insert).
  assert (Hlen : length (drop n (Q TIMER_LIST)) = (len - n)%nat) by apply length_drop.
  assert (Hnm : (S N * n + S N * (len - n) = S N * len)%nat) by nia.
  assert (Hpm : ((p + 2) * n + (p + 2) * (len - n) = (p + 2) * len)%nat) by nia.
  pose proof Hw as [[Hmono _] _]. pose proof (Hmono r r1 ltac:(lia) ltac:(lia) ltac:(unfold isr_reads; lia)) as Hge.
  destruct (drop n (Q TIMER_LIST)) as [|t l] eqn:ED.
  - destruct (overflow_empty Q1 ref r r1 fuel st st1 1) as (st' & E' & Hpr & Hh & E1 & E2 & E3 & E4); [done..|lia| |lia|].
    { eapply no_wrap_weaken; [exact Hw|lia|unfold isr_reads; lia]. }
    exists n, F, r1, st'. split; [done|]. split; [by eapply isr_done_env|]. rewrite ED. do 4 (split; [done || lia|]). done.
  - pose proof (late_key Q st r1 n F st1 t Hx Hd ltac:(rewrite ED; by left)) as Hkey.
    pose proof (i_late _ _ _ _ _ _ Hd t ltac:(rewrite ED; by left)) as Hlate.
    pose proof (overflow_first Q1 ref r r1 fuel st st1 t l (isr_reads len c - (S N * n))) as E'.
    rewrite Hkey in E'. rewrite E' by (done || lia || (eapply no_wrap_weaken; [exact Hw|lia|unfold isr_reads; lia])). clear E'.
    destruct (Z.ltb_spec (key (timers st) TIMER_LIST t - XTIMER_OVERHEAD) (rd r1 + XTIMER_ISR_BACKOFF)) as [Hlt|Hge'].
    + assert (0 < len - n)%nat as Hpos by (rewrite <- Hlen; simpl; lia).
      destruct (soon_next Q st r c n r1 t l (isr_reads len c) Hs ED) as (c' & Hs' & Hc' & Hc0);
        [intros ->; lia|lia|done|unfold isr_reads; nia|done|done|].
      destruct (IH Q1 (set_reads (S (S r1)) st1) (S r1) c') as (m & G & r2 & st2 & E2 & Hd2 & Hm & Hr2 & Hge2 & Hh & Hpr).
      * by eapply xinv_env.
      * done.
      * pose proof (Hmono r1 (S r1) ltac:(lia) ltac:(lia) ltac:(unfold isr_reads; nia)). lia.
      * rewrite EQ1. destruct Hs' as [->|[? Hs']]; [lia|]. right. split; [done|]. intros u Hu. cbn in Hu. injection Hu as <-.
        cbn [timers set_reads]. rewrite Hkey. by apply Hs'.
      * rewrite EQ1, Hlen. eapply no_wrap_weaken; [exact Hw|lia|]. unfold isr_reads. destruct n; [|nia]. specialize (Hc0 eq_refl). nia.
      * rewrite EQ1, Hlen. unfold isr_rounds in *. destruct n; [|nia]. specialize (Hc0 eq_refl). nia.
      * rewrite EQ1, Hlen. lia.
      * rewrite EQ1, Hlen in Hm. pose proof (Hmono r1 (S r1) ltac:(lia) ltac:(lia) ltac:(unfold isr_reads; nia)).
        exists (n + m)%nat, (F ++ G), r2, st2. split; [done|]. split.
        { apply (isr_done_app Q st r1 n F st1); [done|exact Hd|done|]. rewrite ED. fold Q1. eapply isr_done_env; [exact Hd2|done..]. }
        split; [lia|]. split; [lia|]. split; [lia|]. split; [done|].
        rewrite EQ1, <- ED, drop_drop in Hpr. by eapply (programmed_later Q st r1 n F st1).
    + exists n, F, r1. eexists. split; [reflexivity|]. split; [by eapply isr_done_env|]. rewrite ED. do 4 (split; [done || lia|]). done.
Qed.

(** The handler when there are timers for the current period: it ends, and all
    timers that are due when it reads the counter last have fired in order, none of
    them before its target. *)
Lemma timer_callback_spec Q st :
  let len := length (Q TIMER_LIST) in
  xinv Q st → Q TIMER_LIST ≠ [] → no_wrap (reads st) (isr_reads len (S p)) → (isr_rounds len (S p) <= S N)%nat →
  ∃ n F r' st', _timer_callback rd call 0 (S N) st = Ok (tt, st') ∧ isr_done Q st r' n F st' ∧
    (n <= len)%nat ∧ rd (reads st) <= rd r' ∧ _in_handler st' = 0 ∧ programmed Q st st' (drop n (Q TIMER_LIST)).
Proof.
  intros len Hx HQ Hw Hf. unfold _timer_callback. xsimpl. rewrite (xinv_links Q) by done.
  rewrite bool_decide_eq_false_2 by (by destruct (Q TIMER_LIST)). xstep lltimer_now_Ok. xproj.
  set (st1 := set_reads _ _).
  destruct (overflow_loop_spec (S N) Q st1 (reads st) (S p) (rd (reads st))) as (n & F & r' & st' & E & Hd & Hn & _ & Hr & Hh & Hpr);
    [by eapply xinv_env|done|done|by left|done|done|unfold isr_rounds in Hf; lia|].
  exists n, F, r', st'. split; [exact E|]. split; [|done]. by eapply isr_done_env.
Qed.
End Isr.
