(* ===== verification/XtimerApi.v ===== *)
(** * sys/xtimer/xtimer.c: timers that wake threads

    Sleeping, timed messages and wakeups, and receiving and locking with a timeout,
    over the timers of Xtimer and the calls of the kernel. The timer code and the
    callbacks of this file work on different parts of the state, and no callback
    sets a timer: a call of the timer code runs first and its trace of callbacks is
    then executed on the kernel, in order. [XTIMER_HZ] is 1 MHz, so that a tick is a
    microsecond. A function that blocks ends with the call that blocks; what it does
    when its thread runs again is a definition of its own ([..._resume]). *)

From stdpp Require Import gmap.
From S2P Require Import Prelude LinkedList Cib Bitarithm Kernel KernelInv Thread Mutex ThreadFlags Msg System Xtimer XtimerIsr Div Timex.
Open Scope Z_scope.
Implicit Types (Q : node → list Z) (P : xnode → list Z) (T : thread_t).

(** ** The state *)

Record mutex_thread_t : Type := MutexThread {
  mt_mutex : Z;
  mt_thread : Z;
  timeout : Z
}.

(** The kernel, the timers, and the [mutex_thread_t] objects by their addresses. *)
Record world : Type := World {
  kern : kstate;
  xt : xstate;
  mts : gmap Z mutex_thread_t
}.

Definition API (A : Type) : Type := world → result (A * world).

Global Instance API_ret : MRet API := fun A a w => Ok (a, w).
Global Instance API_bind : MBind API := fun A B f m w =>
  match m w with Ok (a, w) => f a w | Fault e => Fault e end.

Definition on_kernel {A} (c : M A) : API A := λ w,
  match c (kern w) with Ok (a, k) => Ok (a, World k (xt w) (mts w)) | Fault e => Fault e end.
Definition on_timers {A} (c : XM A) : API A := λ w,
  match c (xt w) with Ok (a, x) => Ok (a, World (kern w) x (mts w)) | Fault e => Fault e end.

Definition get_mt (p : Z) : API mutex_thread_t := λ w,
  match mts w !! p with Some v => Ok (v, w) | None => Fault BadPointer end.
Definition put_mt (p : Z) (v : mutex_thread_t) : API unit := λ w,
  Ok (tt, World (kern w) (xt w) (<[p := v]> (mts w))).

(** A local variable [timer] at [t]. *)
Definition put_timer (t : Z) (T : xtimer_t) : API unit :=
  on_timers (xmodify (λ x, set_timers (<[t := T]> (timers x)) x)).

(** ** Callbacks *)

(** The addresses of the functions. *)
Definition CB_UNLOCK_MUTEX : Z := 1.
Definition CB_MSG : Z := 2.
Definition CB_WAKEUP : Z := 3.
Definition CB_MUTEX_TIMEOUT : Z := 4.
Definition CB_TIMEOUT_FLAG : Z := 5.

Definition THREAD_FLAG_TIMEOUT : Z := Z.shiftl 1 14.

Definition _callback_unlock_mutex (arg : Z) : M unit := mutex_unlock arg.

(** The message at the address [arg]. *)
Definition msg_at (arg : Z) : mptr := (arg, 0).

Definition _callback_msg (arg : Z) : M unit :=
  m ← read_msg (msg_at arg);
  void (msg_send_int (msg_at arg) (sender_pid m)).

Definition _callback_wakeup (arg : Z) : M unit := void (thread_wakeup (s16 arg)).

(** [list_remove] on the queue of a mutex, whose last pointer may be
    [MUTEX_LOCKED]: there is no object at that address. *)
Fixpoint queue_remove (fuel : nat) (list node_ : node) : M (option node) :=
  match fuel with
  | O => fault_ OutOfFuel
  | S fuel =>
      h ← gets heap;
      match h !! list with
      | Some nxt =>
          if decide (nxt = node_) then
            _ ← modify (set_heap (set_next h list (h !! node_)));
            mret (Some node_)
          else if decide (nxt = MUTEX_LOCKED) then fault_ BadPointer
          else queue_remove fuel nxt node_
      | None => mret None
      end
  end.

Definition mutex_timeout_kernel (mutex thread : Z) : M unit :=
  h ← gets heap;
  node ← queue_remove (S (base.size h)) (MUTEX_QUEUE mutex) (RQ_ENTRY thread);
  h ← gets heap;
  _ ← when (bool_decide (is_Some node) && bool_decide (h !! MUTEX_QUEUE mutex = None))
        (set_queue mutex (Some MUTEX_LOCKED));
  _ ← sched_set_status thread STATUS_PENDING;
  thread_yield_higher.

Definition _mutex_timeout (arg : Z) : API unit :=
  mt ← get_mt arg;
  _ ← put_mt arg (MutexThread (mt_mutex mt) (mt_thread mt) 1);
  on_kernel (mutex_timeout_kernel (mt_mutex mt) (mt_thread mt)).

Definition _set_timeout_flag_callback (arg : Z) : M unit := thread_flags_set arg THREAD_FLAG_TIMEOUT.

Section Api.
(** The low-level timer driver, the callbacks of other timers, the width of the
    counter (0 for 32 bits) and the bound on busy-waiting. *)
Variables (timer_read : nat → Z) (user : Z → Z → M unit) (XTIMER_MASK : Z) (spin : nat).

Definition run_callback (callback arg : Z) : API unit :=
  if callback =? CB_UNLOCK_MUTEX then on_kernel (_callback_unlock_mutex arg)
  else if callback =? CB_MSG then on_kernel (_callback_msg arg)
  else if callback =? CB_WAKEUP then on_kernel (_callback_wakeup arg)
  else if callback =? CB_MUTEX_TIMEOUT then _mutex_timeout arg
  else if callback =? CB_TIMEOUT_FLAG then on_kernel (_set_timeout_flag_callback arg)
  else on_kernel (user callback arg).

(** The callbacks of the timers that have fired. *)
Fixpoint run_callbacks (l : list (Z * nat)) : API unit :=
  match l with
  | [] => mret tt
  | (t, _) :: l =>
      T ← on_timers (get_timer t);
      _ ← match callback T with Some f => run_callback f (arg T) | None => mret tt end;
      run_callbacks l
  end.

Definition no_call (callback arg : Z) : XM unit := mret tt.

(** A call of the timer code and the callbacks that it makes. *)
Definition with_callbacks {A} (c : XM A) : API A :=
  n ← on_timers (xgets (λ x, length (fired x)));
  a ← on_timers c;
  l ← on_timers (xgets (λ x, drop n (fired x)));
  _ ← run_callbacks l;
  mret a.

Definition api_now : API Z := on_timers (_xtimer_now timer_read XTIMER_MASK).
Definition api_set (timer offset : Z) : API unit :=
  with_callbacks (_xtimer_set timer_read no_call XTIMER_MASK spin timer offset).
Definition api_set64 (timer offset long_offset : Z) : API unit :=
  with_callbacks (_xtimer_set64 timer_read no_call XTIMER_MASK spin timer offset long_offset).

(** ** Sleeping *)

(** The local variables [timer] and [mutex] are at [timer] and [mutex]. *)
Definition _xtimer_tsleep (timer mutex offset long_offset : Z) : API unit :=
  isr ← on_kernel irq_is_in;
  if (isr : bool) then
    _ ← on_kernel (massert (long_offset =? 0));
    on_timers (_xtimer_spin timer_read XTIMER_MASK spin offset)
  else
    _ ← on_kernel (mutex_init mutex);
    _ ← put_timer timer (Xtimer 0 0 (Some CB_UNLOCK_MUTEX) mutex);
    _ ← on_kernel (mutex_lock mutex);
    _ ← api_set64 timer offset long_offset;
    on_kernel (mutex_lock mutex).

Definition XTIMER_PERIODIC_SPIN : Z := XTIMER_BACKOFF * 2.
Definition XTIMER_PERIODIC_RELATIVE : Z := 512.

(** Whether the target time has already passed. *)
Definition target_passed (last_wakeup target now : Z) : bool :=
  if now <? last_wakeup then negb ((now <? target) && (target <? last_wakeup))
  else (last_wakeup <=? target) && (target <=? now).

(** The result is the new value of [*last_wakeup]; the targets in the local
    variable [timer] are the uninitialised [junk]. *)
Definition _xtimer_periodic_wakeup (junk : Z * Z) (timer mutex last_wakeup period : Z) : API Z :=
  _ ← on_kernel (mutex_init mutex);
  _ ← put_timer timer (Xtimer junk.1 junk.2 (Some CB_UNLOCK_MUTEX) mutex);
  let target := u32 (last_wakeup + period) in
  now ← api_now;
  if target_passed last_wakeup target now then mret target
  else
    let offset := u32 (target - now) in
    if offset <? XTIMER_PERIODIC_SPIN then
      _ ← on_timers (_xtimer_spin timer_read XTIMER_MASK spin offset);
      mret target
    else
      target ← (if offset <? XTIMER_PERIODIC_RELATIVE then now ← api_now; mret (u32 (now + offset)) else mret target);
      _ ← on_kernel (mutex_lock mutex);
      _ ← with_callbacks (_xtimer_set_absolute timer_read no_call XTIMER_MASK spin timer target now);
      _ ← on_kernel (mutex_lock mutex);
      mret target.

(** ** Timed messages and wakeups *)

Definition set_callback (f a : Z) (T : xtimer_t) : xtimer_t := Xtimer (target T) (long_target T) (Some f) a.

Definition _setup_msg (timer msg target_pid : Z) : API unit :=
  _ ← on_timers (modify_timer timer (set_callback CB_MSG msg));
  on_kernel (m ← read_msg (msg_at msg); write_msg (msg_at msg) (set_sender_pid target_pid m)).

Definition _xtimer_set_msg (timer offset msg target_pid : Z) : API unit :=
  _ ← _setup_msg timer msg target_pid;
  api_set timer offset.

Definition _xtimer_set_msg64 (timer offset msg target_pid : Z) : API unit :=
  _ ← _setup_msg timer msg target_pid;
  api_set64 timer (u32 offset) (Z.shiftr offset 32).

Definition _xtimer_set_wakeup (timer offset pid : Z) : API unit :=
  _ ← on_timers (modify_timer timer (set_callback CB_WAKEUP pid));
  api_set timer offset.

Definition _xtimer_set_wakeup64 (timer offset pid : Z) : API unit :=
  _ ← on_timers (modify_timer timer (set_callback CB_WAKEUP pid));
  api_set64 timer (u32 offset) (Z.shiftr offset 32).

(** ** The time of day *)

Definition xtimer_now_timex : API timex_t :=
  now ← on_timers (_xtimer_now64 timer_read XTIMER_MASK spin);
  let seconds := u32 (div_u64_by_1000000 now) in
  mret (Timex seconds (u32 (now - u32 (seconds * US_PER_SEC)))).

(** ** Receiving with a timeout *)

Definition MSG_XTIMER : Z := 12345.

Definition _setup_timer_msg (m t : Z) : API unit :=
  _ ← on_kernel (v ← read_msg (msg_at m); write_msg (msg_at m) (Msg (sender_pid v) MSG_XTIMER m));
  on_timers (modify_timer t (set_targets 0 0)).

(** [_msg_wait] behind [msg_receive(m)]. *)
Definition _msg_wait_resume (m : mptr) (tmsg t : Z) : API Z :=
  v ← on_kernel (read_msg m);
  if (type_ v =? MSG_XTIMER) && (content v =? tmsg) then mret (-1)
  else _ ← on_timers (xtimer_remove XTIMER_MASK t); mret 1.

Definition _msg_wait (m : mptr) : API unit := on_kernel (void (msg_receive m)).

(** The local variables [tmsg] and [t], with uninitialised contents. *)
Definition _xtimer_msg_receive_timeout64 (tmsg t : Z) (m : mptr) (timeout_ticks : Z) : API unit :=
  _ ← _setup_timer_msg tmsg t;
  pid ← on_kernel (gets sched_active_pid);
  _ ← _xtimer_set_msg64 t timeout_ticks tmsg pid;
  _msg_wait m.

Definition _xtimer_msg_receive_timeout (tmsg t : Z) (m : mptr) (timeout_ticks : Z) : API unit :=
  _ ← _setup_timer_msg tmsg t;
  pid ← on_kernel (gets sched_active_pid);
  _ ← _xtimer_set_msg t timeout_ticks tmsg pid;
  _msg_wait m.

(** ** Locking with a timeout *)

(** The local variables [t], uninitialised, and [mt]. *)
Definition xtimer_mutex_lock_timeout (t mt mutex timeout : Z) : API unit :=
  a ← on_kernel (gets sched_active_thread);
  me ← on_kernel (nonnull a);
  _ ← put_mt mt (MutexThread mutex me 0);
  _ ← (if negb (timeout =? 0) then
         _ ← on_timers (modify_timer t (set_callback CB_MUTEX_TIMEOUT mt));
         api_set64 t (u32 timeout) (Z.shiftr timeout 32)
       else mret tt);
  on_kernel (mutex_lock mutex).

Definition xtimer_mutex_lock_timeout_resume (t mt : Z) : API Z :=
  _ ← on_timers (xtimer_remove XTIMER_MASK t);
  v ← get_mt mt;
  mret (- timeout v).

(** ** The timeout flag *)

Definition xtimer_set_timeout_flag (t timeout : Z) : API unit :=
  a ← on_kernel (gets sched_active_thread);
  me ← on_kernel (nonnull a);
  _ ← on_timers (modify_timer t (set_callback CB_TIMEOUT_FLAG me));
  _ ← on_kernel (void (thread_flags_clear THREAD_FLAG_TIMEOUT));
  api_set t timeout.
(** The interrupt of the low-level timer. *)
Definition timer_interrupt : API unit :=
  _ ← on_kernel irq_enter;
  _ ← with_callbacks (_periph_timer_callback timer_read no_call XTIMER_MASK spin 0 0);
  on_kernel irq_exit.
End Api.

(** ** Running the monad *)

Lemma api_bind_Ok {A B} (m : API A) (f : A → API B) w a w' : m w = Ok (a, w') → (m ≫= f) w = f a w'.
Proof. intros E. unfold mbind, API_bind. by rewrite E. Qed.

Lemma on_kernel_Ok {A} (c : M A) w a k : c (kern w) = Ok (a, k) → on_kernel c w = Ok (a, World k (xt w) (mts w)).
Proof. intros E. unfold on_kernel. by rewrite E. Qed.

Lemma on_timers_Ok {A} (c : XM A) w a x : c (xt w) = Ok (a, x) → on_timers c w = Ok (a, World (kern w) x (mts w)).
Proof. intros E. unfold on_timers. by rewrite E. Qed.

Lemma on_kernel_get {A B} (f : kstate → A) (g : A → API B) w : (on_kernel (gets f) ≫= g) w = g (f (kern w)) w.
Proof. by destruct w. Qed.

Tactic Notation "kernel_step" uconstr(E) := erewrite api_bind_Ok by (apply on_kernel_Ok; eapply E); cbv beta iota zeta.
Tactic Notation "timer_step" uconstr(E) := erewrite api_bind_Ok by (apply on_timers_Ok; eapply E); cbv beta iota zeta.

(** A call of the timer code, with the callbacks it makes. *)
Lemma with_callbacks_Ok {A} user (c : XM A) w a x F w' :
  c (xt w) = Ok (a, x) → fired x = fired (xt w) ++ F →
  run_callbacks user F (World (kern w) x (mts w)) = Ok (tt, w') → with_callbacks user c w = Ok (a, w').
Proof.
  intros E HF Hc. unfold with_callbacks, on_timers, xgets, mbind, API_bind. cbn [kern xt mts]. rewrite E. cbn [kern xt mts].
  rewrite HF, drop_app_length, Hc. done.
Qed.

Lemma with_callbacks_quiet {A} user (c : XM A) w a x :
  c (xt w) = Ok (a, x) → fired x = fired (xt w) → with_callbacks user c w = Ok (a, World (kern w) x (mts w)).
Proof. intros E HF. eapply (with_callbacks_Ok user c w a x []); [done|by rewrite app_nil_r|done]. Qed.

(** ** Sleeping *)

(** The thread [t] waits for the timer [tm] on its mutex [mx]. *)
Record asleep Q (w : world) (tm mx t : Z) : Prop := {
  as_timer : ∃ X, timers (xt w) !! tm = Some X ∧ callback X = Some CB_UNLOCK_MUTEX ∧ arg X = mx;
  as_queue : Q (MUTEX_QUEUE mx) = [t]
}.

Section Sleep.
Variables (rd : nat → Z) (user : Z → Z → M unit) (spin : nat).
Hypothesis rd_u32 : ∀ n, u32_ok (rd n).

Lemma mutex_init_Ok Q st t T mx : running Q st t T → Q (MUTEX_QUEUE mx) = [] →
  ∃ st', mutex_init mx st = Ok (tt, st') ∧ running Q st' t T ∧ mutex_is st' Q mx Unlocked ∧ in_isr st' = in_isr st ∧ tcbs st' = tcbs st ∧
    sched_threads st' = sched_threads st.
Proof.
  intros [Hk Ha HT Hhd Hd] EQ. eexists. split; [reflexivity|]. split.
  - split; try done. apply kinv_set_queue; [done|done|by left].
  - split; [split; [apply set_next_same|done]|done].
Qed.

Lemma lock_free_eq Q st mx : mutex_is st Q mx Unlocked →
  mutex_lock mx st = Ok (tt, set_heap (set_next (heap st) (MUTEX_QUEUE mx) (Some MUTEX_LOCKED)) st).
Proof. intros [Hm _]. unfold mutex_lock, _mutex_lock. ksimpl. rewrite Hm. unfold set_queue. ksimpl. by destruct st. Qed.

(** A mutex that is taken at once. *)
Lemma lock_free Q st t T mx : running Q st t T → mutex_is st Q mx Unlocked →
  ∃ st', mutex_lock mx st = Ok (tt, st') ∧ running Q st' t T ∧ mutex_is st' Q mx (Locked []) ∧ in_isr st' = in_isr st ∧
    tcbs st' = tcbs st ∧ sched_threads st' = sched_threads st.
Proof.
  intros Hr Hm. destruct (mutex_lock_free _ _ _ _ _ 1 Hr Hm) as (st' & E & Hr' & Hm').
  pose proof (lock_free_eq _ _ _ Hm) as E2. unfold mutex_lock in E2. erewrite bind_Ok in E2 by exact E. cbn in E2. injection E2 as E2.
  exists st'. split; [unfold mutex_lock; erewrite bind_Ok by exact E; done|]. split; [done|]. split; [done|]. by rewrite E2.
Qed.

(** Blocking on a mutex without waiters. *)
Lemma lock_wait Q st t T mx : running Q st t T → in_isr st = false → other_ready st t → mutex_is st Q mx (Locked []) →
  let Q' := <[MUTEX_QUEUE mx := [t]]> (rq_pop Q (priority T)) in
  ∃ st', mutex_lock mx st = Ok (tt, st') ∧ settled Q' st' ∧ tcbs st' !! t = Some (set_status STATUS_MUTEX_BLOCKED T) ∧ in_isr st' = false.
Proof.
  intros Hr Hi Ho Hm Q'. destruct (mutex_lock_wait _ _ _ _ mx 1 [] Hr Hi Ho Hm) as (st' & E & Hs & HT & Hi' & _); [done|].
  exists st'. split; [unfold mutex_lock; erewrite bind_Ok by exact E; done|]. done.
Qed.

Lemma fn_insert_pointwise (f : list Z → list Z) P P' q q0 : is_head q0 = true → is_head q = true →
  (∀ q, is_head q = true → P q = P' q) → (<[q0 := f (P q0)]> P : xnode → list Z) q = <[q0 := f (P' q0)]> P' q.
Proof.
  intros Hq0 Hq H. destruct (decide (q0 = q)) as [<-|Hne]; [by rewrite !fn_lookup_insert, H|by rewrite !fn_lookup_insert_ne, H].
Qed.

End Sleep.

(** ** Waking up *)

Section Wake.
Variables (rd : nat → Z) (user : Z → Z → M unit) (p N : nat).
Hypothesis rd_u32 : ∀ n, u32_ok (rd n).
Hypothesis Hp : (0 < p <= N)%nat.
(** The mutex and the thread of a timer. *)
Variables (mx th : Z → Z).

Lemma wake_one Q k m u : settled Q k → Q (MUTEX_QUEUE m) = [u] →
  ∃ k' pr, mutex_unlock m k = Ok (tt, k') ∧ settled (rq_push (<[MUTEX_QUEUE m := []]> Q) pr u) k' ∧ in_isr k' = in_isr k.
Proof.
  intros (t & T & Hr) EQ. destruct (mutex_unlock_pass Q k t T m u [] Hr EQ) as (U & k' & _ & _ & E & Hs & _ & _ & Hi).
  by exists k', (priority U).
Qed.

(** The threads of the timers [l] have become ready, and nothing else has changed
    in the wait queues. *)
Record woken (l : list Z) Q Q' : Prop := {
  wk_ready : ∀ tm, tm ∈ l → ∃ pr, th tm ∈ Q' (RUNQUEUE pr);
  wk_free : ∀ tm, tm ∈ l → Q' (MUTEX_QUEUE (mx tm)) = [];
  wk_wait : ∀ q, wait_queue q = true → (∀ tm, tm ∈ l → q ≠ MUTEX_QUEUE (mx tm)) → Q' q = Q q;
  wk_keep : ∀ pr u, u ∈ Q (RUNQUEUE pr) → u ∈ Q' (RUNQUEUE pr)
}.

Lemma woken_one l Q Q' tm pr :
  mx tm ∉ mx <$> l → woken l (rq_push (<[MUTEX_QUEUE (mx tm) := []]> Q) pr (th tm)) Q' → woken (tm :: l) Q Q'.
Proof.
  intros Hn [H1 H2 H3 H4]. split.
  - intros v [->|Hv]%elem_of_cons; [|by apply H1]. exists pr. apply H4. unfold rq_push. rewrite fn_lookup_insert. set_solver.
  - intros v [->|Hv]%elem_of_cons; [|by apply H2]. rewrite H3; [rewrite rq_push_wait by done; apply fn_lookup_insert|done|].
    intros v Hv [= E]. apply Hn. rewrite E. by apply list_elem_of_fmap_2.
  - intros q Hq Hd. rewrite H3; [|done|intros v Hv; apply Hd; by right]. rewrite rq_push_wait by done.
    apply fn_lookup_insert_ne. intros <-. by apply (Hd tm ltac:(left)).
  - intros pr' u Hu. apply H4. unfold rq_push. destruct (decide (RUNQUEUE pr = RUNQUEUE pr')) as [[= ->]|Hne].
    + rewrite fn_lookup_insert, wait_insert_rq by done. set_solver.
    + by rewrite fn_lookup_insert_ne, wait_insert_rq by done.
Qed.

Lemma wake_all F w Q : settled Q (kern w) → NoDup (mx <$> F.*1) → (∀ tm, tm ∈ F.*1 → asleep Q w tm (mx tm) (th tm)) →
  ∃ k' Q', run_callbacks user F w = Ok (tt, World k' (xt w) (mts w)) ∧ settled Q' k' ∧ in_isr k' = in_isr (kern w) ∧ woken F.*1 Q Q'.
Proof.
  revert w Q. induction F as [|[tm i] F IH]; intros w Q Hs Hnd Ha.
  - exists (kern w), Q. split; [by destruct w|]. split; [done|]. split; [done|]. split; [intros ? []%elem_of_nil..|done|done].
  - cbn [fmap list_fmap fst] in *. apply NoDup_cons in Hnd as [Hn Hnd]. destruct (Ha tm ltac:(left)) as [(X & HX & HcX & HaX) HQ].
    destruct (wake_one Q (kern w) (mx tm) (th tm) Hs HQ) as (k1 & pr & E1 & Hs1 & Hi1).
    destruct (IH (World k1 (xt w) (mts w)) _ Hs1 Hnd) as (k' & Q' & E2 & Hs2 & Hi2 & Hw).
    { intros v Hv. destruct (Ha v ltac:(by right)) as [Ht HQv]. split; [done|]. rewrite rq_push_wait by done.
      rewrite fn_lookup_insert_ne; [done|]. intros [= E]. apply Hn. rewrite E. by apply list_elem_of_fmap_2. }
    exists k', Q'. split; [|split; [done|split; [cbn in Hi2; congruence|by eapply woken_one]]].
    cbn [run_callbacks]. timer_step (get_timer_Ok (xt w) tm X HX). rewrite HcX, HaX. cbn [kern xt mts].
    unfold run_callback. rewrite Z.eqb_refl.
    rewrite (api_bind_Ok _ _ _ _ _ (on_kernel_Ok _ (World (kern w) (xt w) (mts w)) tt k1 E1)). exact E2.
Qed.

End Wake.

(** ** Locking with a timeout *)

Lemma filter_RQ t (l : list Z) : filter (.≠ RQ_ENTRY t) (RQ_ENTRY <$> l) = RQ_ENTRY <$> filter (.≠ t) l.
Proof.
  induction l as [|u l IH]; [done|]. rewrite fmap_cons, !filter_cons.
  destruct (decide (u = t)) as [->|]; [by rewrite !decide_False by naive_solver|].
  rewrite !decide_True by naive_solver. by rewrite fmap_cons, IH.
Qed.

(** On the threads of a queue it is [list_remove]. *)
Lemma queue_remove_eq fuel st q l x r h' :
  is_list (heap st) q (RQ_ENTRY <$> l) → list_remove_loop fuel (heap st) q x = Ok (r, h') →
  queue_remove fuel q x st = Ok (r, set_heap h' st).
Proof.
  revert q l. induction fuel as [|fuel IH]; intros q l Hl E; [done|]. cbn [queue_remove list_remove_loop] in *. ksimpl.
  destruct l as [|u l].
  - destruct Hl as (_ & _ & He). simpl in He. rewrite He in *. injection E as <- <-. by destruct st.
  - pose proof Hl as (Hnd & [Hu Hp] & He). rewrite Hu in *. case_decide as Hx.
    + injection E as <- <-. by ksimpl.
    + rewrite decide_False by done. apply (IH _ l); [|done]. apply NoDup_cons in Hnd as [_ Hnd]. by split.
Qed.

Lemma queue_remove_none fuel st q t l :
  is_list (heap st) q (RQ_ENTRY <$> l) → t ∉ l → (length l < fuel)%nat → queue_remove fuel q (RQ_ENTRY t) st = Ok (None, st).
Proof.
  revert q l. induction fuel as [|fuel IH]; intros q l Hl Hn Hf; [lia|]. cbn [queue_remove]. ksimpl. destruct l as [|u l].
  - destruct Hl as (_ & _ & He). simpl in He. by rewrite He.
  - pose proof Hl as (Hnd & [Hu Hp] & He). rewrite Hu, decide_False by (intros [= ->]; apply Hn; by left). rewrite decide_False by done.
    apply (IH _ l); [|set_solver|simpl in Hf; lia]. apply NoDup_cons in Hnd as [_ Hnd]. by split.
Qed.

Lemma queue_remove_Ok st q l t fuel :
  is_list (heap st) q (RQ_ENTRY <$> l) → (length l < fuel)%nat → (∀ u, q ≠ RQ_ENTRY u) →
  ∃ h', queue_remove fuel q (RQ_ENTRY t) st = Ok (if decide (t ∈ l) then Some (RQ_ENTRY t) else None, set_heap h' st) ∧
    is_list h' q (RQ_ENTRY <$> filter (.≠ t) l) ∧ (∀ y, y ∉ q :: (RQ_ENTRY <$> l) → h' !! y = heap st !! y).
Proof.
  intros Hl Hf Hq. destruct (list_remove_loop_spec fuel (heap st) q (RQ_ENTRY <$> l) (RQ_ENTRY t) Hl) as (h' & E & Hl' & Hfr);
    [by rewrite length_fmap|by intros <-; apply (Hq t)|].
  exists h'. split; [|split; [by rewrite <- filter_RQ|done]].
  assert (Ed : (if decide (RQ_ENTRY t ∈ RQ_ENTRY <$> l) then Some (RQ_ENTRY t) else None) = if decide (t ∈ l) then Some (RQ_ENTRY t) else None).
  { do 2 case_decide; try done; rewrite elem_of_RQ in *; done. }
  rewrite Ed in E. by eapply queue_remove_eq.
Qed.

Section Timeout.
(** The interrupt comes while the thread [a] runs. *)
Context Q (k : kstate) (a : Z) (A : thread_t) (Hr : running Q k a A) (Hisr : in_isr k = true).
Context (m t : Z) (T : thread_t) (HT : thr k t T).
Notation q := (MUTEX_QUEUE m).

(** The end of the callback: the thread becomes ready. *)
Lemma timeout_wake Q1 h : kinv Q1 (set_heap h k) → (∀ pr, Q1 (RUNQUEUE pr) = Q (RUNQUEUE pr)) →
  status T < STATUS_ON_RUNQUEUE → (∀ q', t ∉ Q1 q') →
  ∃ k', (_ ← sched_set_status t STATUS_PENDING; thread_yield_higher) (set_heap h k) = Ok (tt, k') ∧
    settled (rq_push Q1 (priority T) t) k' ∧ in_isr k' = true ∧ (∀ q', wait_queue q' = true → heap k' !! q' = h !! q').
Proof.
  intros Hk1 HQ1 Hs Hn. pose proof Hr as [_ Ha [HA HAs] Hhd _].
  destruct (sched_set_status_wake Q1 (set_heap h k) t T STATUS_PENDING Hk1) as (h2 & b & E & Hk2 & Hfr); [done|done|done|klia|].
  fold (rq_push Q1 (priority T) t) in Hk2. kstep E. rewrite yield_isr by done. eexists. split; [reflexivity|].
  assert (a ≠ t) as Hne by (intros ->; rewrite (thr_fun _ _ _ _ HT HA) in Hs; lia).
  split; [|split; [done|exact Hfr]]. exists a, A. split; [kenv Hk2|done| |apply rq_push_head; by rewrite HQ1|by right].
  split; [|done]. split; [simpl; rewrite lookup_insert_ne by done; apply HA|apply HA].
Qed.

(** The callback for a thread that is ready already. *)
Lemma timeout_ready : STATUS_ON_RUNQUEUE <= status T →
  ∃ k', (_ ← sched_set_status t STATUS_PENDING; thread_yield_higher) k = Ok (tt, k') ∧ settled Q k' ∧ in_isr k' = true ∧ heap k' = heap k.
Proof.
  intros Hs. pose proof Hr as [Hk Ha [HA HAs] Hhd _]. pose proof HT as [HTl HTp].
  assert (sched_set_status t STATUS_PENDING k = Ok (tt, set_tcbs (<[t := set_status STATUS_PENDING T]> (tcbs k)) k)) as E.
  { unfold sched_set_status. kget HTl. unfold STATUS_ON_RUNQUEUE, STATUS_RUNNING in *. rewrite (proj2 (Z.leb_le 9 (status T))) by done.
    change (9 <=? STATUS_PENDING) with true. cbn [negb]. ksimpl. by rewrite (modify_thread_Ok _ _ T). }
  kstep E. rewrite yield_isr by done. eexists. split; [reflexivity|]. split; [|done].
  pose proof (kinv_restatus Q k t T STATUS_PENDING Hk HT Hs ltac:(klia)) as Hk2.
  destruct (decide (a = t)) as [->|Hne].
  - rewrite (thr_fun _ _ _ _ HA HT) in *. exists t, (set_status STATUS_PENDING T). split; [kenv Hk2|done| |done|by right].
    split; [split; [apply lookup_insert_eq|done]|klia].
  - exists a, A. split; [kenv Hk2|done| |done|by right]. split; [|done].
    split; [simpl; rewrite lookup_insert_ne by done; apply HA|apply HA].
Qed.

Lemma kernel_eq h r : queue_remove (S (base.size (heap k))) q (RQ_ENTRY t) k = Ok (r, set_heap h k) →
  mutex_timeout_kernel m t k =
    (_ ← sched_set_status t STATUS_PENDING; thread_yield_higher)
      (set_heap (if bool_decide (is_Some r) && bool_decide (h !! q = None) then set_next h q (Some MUTEX_LOCKED) else h) k).
Proof.
  intros E. unfold mutex_timeout_kernel. rewrite bind_gets, (bind_Ok _ _ _ _ _ E), bind_gets. cbn [heap set_heap].
  destruct (bool_decide (is_Some r) && bool_decide (h !! q = None)); [|by ksimpl]. unfold set_queue. by ksimpl.
Qed.

Lemma timeout_waiting : t ∈ Q q →
  let l := filter (.≠ t) (Q q) in let Q' := rq_push (<[q := l]> Q) (priority T) t in
  ∃ k', mutex_timeout_kernel m t k = Ok (tt, k') ∧ settled Q' k' ∧ in_isr k' = true ∧ mutex_is k' Q' m (Locked l).
Proof.
  intros Hin l Q'. pose proof Hr as [Hk _ _ _ _]. assert (Q q ≠ []) as Hne by (intros E; rewrite E in Hin; by apply elem_of_nil in Hin).
  pose proof (wait_rep _ q (Q q) eq_refl Hne (k_rep _ _ Hk q)) as Hl.
  destruct (queue_remove_Ok k q (Q q) t (S (base.size (heap k))) Hl) as (h' & E & Hl' & Hfr); [|done|].
  { pose proof Hl as (Hnd & Hp & _). apply path_length in Hp; [|done]. rewrite length_fmap in Hp. lia. }
  rewrite decide_True in E by done. apply kernel_eq in E. rewrite bool_decide_eq_true_2 in E by eauto. cbn [andb] in E.
  fold l in Hl'. set (Q1 := <[q := l]> Q) in *.
  assert (kinv Q1 (set_heap h' k)) as Hk1.
  { apply kinv_queue; [done|done|by apply is_list_wait_rep| | |].
    - intros y Hy Hn. apply Hfr. intros [->|Hy']%elem_of_cons; [done|]. apply Hn. rewrite fmap_app. set_solver.
    - intros u [_ Hu]%list_elem_of_filter. by left.
    - apply sorted_by_filter, (k_sorted _ _ Hk q eq_refl). }
  set (h2 := if bool_decide (h' !! q = None) then _ else _) in E.
  assert (kinv Q1 (set_heap h2 k) ∧ (l = [] → h2 !! q = Some MUTEX_LOCKED)) as [Hk2 Hlock].
  { unfold h2. destruct l as [|u l'] eqn:El.
    - rewrite bool_decide_eq_true_2 by apply Hl'. split; [|intros _; apply set_next_same].
      pose proof (kinv_set_queue Q1 (set_heap h' k) m (Some MUTEX_LOCKED) Hk1 (fn_lookup_insert _ _ _) (or_intror eq_refl)) as Hk2. kenv Hk2.
    - destruct Hl' as (_ & [Hh _] & _). rewrite bool_decide_eq_false_2 by (by rewrite Hh). by split. }
  assert (∀ q', t ∉ Q1 q') as Hn1.
  { intros q'. unfold Q1. destruct (decide (q = q')) as [<-|Hq]; [rewrite fn_lookup_insert; unfold l; rewrite list_elem_of_filter; naive_solver|].
    rewrite fn_lookup_insert_ne by done. intros Hin'. apply Hq. by apply (k_disj _ _ Hk q q' t). }
  destruct (timeout_wake Q1 h2 Hk2) as (k' & E2 & Hs & Hi & Hfr2); [intros pr; by apply fn_lookup_insert_ne| |done|].
  { destruct (k_member _ _ Hk _ _ Hin) as (T' & HT' & Hq). rewrite (thr_fun _ _ _ _ HT' HT) in Hq. simpl in Hq. klia. }
  exists k'. split; [by rewrite E|]. split; [exact Hs|]. split; [done|].
  assert (Q' q = l) as EQ by (unfold Q'; rewrite rq_push_wait by done; apply fn_lookup_insert).
  destruct l as [|u l'] eqn:El; [|done]. split; [|done]. rewrite Hfr2 by done. by apply Hlock.
Qed.

(** Waiters other than the thread. *)
Lemma timeout_other : t ∉ Q q → heap k !! q ≠ Some MUTEX_LOCKED → STATUS_ON_RUNQUEUE <= status T →
  ∃ k', mutex_timeout_kernel m t k = Ok (tt, k') ∧ settled Q k' ∧ in_isr k' = true ∧ heap k' = heap k.
Proof.
  intros Hn Hh Hs. pose proof Hr as [Hk _ _ _ _].
  assert (is_list (heap k) q (RQ_ENTRY <$> Q q)) as Hl.
  { pose proof (k_rep _ _ Hk q) as Hrep. destruct (Q q) as [|u l] eqn:EQ; [|by apply wait_rep].
    destruct Hrep as [?|?]; [|done]. by apply is_list_nil. }
  assert (queue_remove (S (base.size (heap k))) q (RQ_ENTRY t) k = Ok (None, set_heap (heap k) k)) as E.
  { rewrite (queue_remove_none _ _ _ _ (Q q)); [by destruct k|done|done|].
    pose proof Hl as (Hnd & Hp & _). apply path_length in Hp; [|done]. rewrite length_fmap in Hp. lia. }
  apply kernel_eq in E. rewrite bool_decide_eq_false_2 in E by (intros [? ?]; done). cbn [andb] in E.
  destruct (timeout_ready Hs) as (k' & E2 & Hs2 & Hi & Hh2). exists k'. split; [|done]. rewrite E, <- E2. f_equal. by destruct k.
Qed.
End Timeout.

(** The threads that wait for a mutex. *)
Definition waiters_of (m : mutex_abs) : list Z := match m with Unlocked => [] | Locked l => l end.

(** C35: the timeout of [xtimer_mutex_lock_timeout], in the interrupt. A thread that
    still waits for the mutex is taken out of the queue, wherever it stands in it,
    and becomes ready; the mutex stays locked and the others keep their order. For a
    thread that already has the mutex while others wait (its timer was not removed in
    time) nothing but the note that the time is over is made, so that the call
    reports a timeout although the mutex is held; and when nobody waits, the
    callback follows the pointer [MUTEX_LOCKED], at which there is no object. *)
Theorem mutex_timeout_correct Q w a A mt v T m :
  running Q (kern w) a A → in_isr (kern w) = true → mts w !! mt = Some v →
  let t := mt_thread v in let mutex := mt_mutex v in
  thr (kern w) t T → mutex_is (kern w) Q mutex m → (t ∉ waiters_of m → STATUS_ON_RUNQUEUE <= status T) →
  match m with
  | Locked [] => _mutex_timeout mt w = Fault BadPointer
  | _ =>
      ∃ w' Q', _mutex_timeout mt w = Ok (tt, w') ∧ settled Q' (kern w') ∧ in_isr (kern w') = true ∧ xt w' = xt w ∧
        mts w' = <[mt := MutexThread mutex t 1]> (mts w) ∧
        mutex_is (kern w') Q' mutex (match m with Unlocked => Unlocked | Locked l => Locked (filter (.≠ t) l) end) ∧
        Q' = if decide (t ∈ waiters_of m)
             then rq_push (<[MUTEX_QUEUE mutex := filter (.≠ t) (waiters_of m)]> Q) (priority T) t else Q
  end.
Proof.
  intros Hr Hi Hv t mutex HT Hm Hst. unfold _mutex_timeout.
  assert (∀ r, (mt0 ← get_mt mt; _ ← put_mt mt (MutexThread (mt_mutex mt0) (mt_thread mt0) 1); on_kernel (mutex_timeout_kernel (mt_mutex mt0) (mt_thread mt0))) w = r
    ↔ on_kernel (mutex_timeout_kernel mutex t) (World (kern w) (xt w) (<[mt := MutexThread mutex t 1]> (mts w))) = r) as Hrun.
  { intros r. unfold get_mt, mbind, API_bind. by rewrite Hv. }
  assert (∀ k', mutex_timeout_kernel mutex t (kern w) = Ok (tt, k') →
    on_kernel (mutex_timeout_kernel mutex t) (World (kern w) (xt w) (<[mt := MutexThread mutex t 1]> (mts w))) =
      Ok (tt, World k' (xt w) (<[mt := MutexThread mutex t 1]> (mts w)))) as Hok.
  { intros k' E. unfold on_kernel. cbn [kern xt mts]. by rewrite E. }
  destruct m as [|l].
  - destruct Hm as [Hm EQ]. destruct (timeout_other Q (kern w) a A Hr Hi mutex t T HT) as (k' & E & Hs & Hi' & Hh);
      [rewrite EQ; apply not_elem_of_nil|by rewrite Hm|by apply Hst, not_elem_of_nil|].
    eexists _, Q. split; [by apply Hrun, Hok|]. cbn [kern xt mts]. do 4 (split; [done|]). split; [split; [by rewrite Hh|done]|].
    cbn [waiters_of]. by rewrite decide_False by apply not_elem_of_nil.
  - destruct l as [|u l].
    + destruct Hm as [Hm EQ]. apply Hrun. unfold on_kernel. cbn [kern]. unfold mutex_timeout_kernel. rewrite bind_gets.
      cbn [queue_remove]. ksimpl. rewrite Hm. rewrite decide_False by done. by rewrite decide_True by done.
    + pose proof (mutex_next _ _ _ _ _ (run_kinv _ _ _ _ Hr) Hm) as Hh. simpl in Hm. cbn [waiters_of] in *. destruct (decide (t ∈ u :: l)) as [Hin|Hn].
      * destruct (timeout_waiting Q (kern w) a A Hr Hi mutex t T HT) as (k' & E & Hs & Hi' & Hm'); [by rewrite Hm|]. rewrite Hm in Hs, Hm'.
        eexists _, _. split; [by apply Hrun, Hok|]. by do 5 (split; [done|]).
      * destruct (timeout_other Q (kern w) a A Hr Hi mutex t T HT) as (k' & E & Hs & Hi' & Hh'); [by rewrite Hm|by rewrite Hh|by apply Hst|].
        eexists _, Q. split; [by apply Hrun, Hok|]. cbn [kern xt mts]. do 4 (split; [done|]). split; [|done].
        rewrite filter_all by (intros x Hx ->; done). exact Hm.
Qed.

(** A mutex that is free is locked at once; the rest of the call takes the timer off
    its list and reports no timeout. *)
Lemma mutex_lock_timeout_free rd user spin Q P w t T tm mt mutex timeout X :
  (∀ n, u32_ok (rd n)) → running Q (kern w) t T → mutex_is (kern w) Q mutex Unlocked →
  xinv P (xt w) → timers (xt w) !! tm = Some X → (∀ q, is_head q = true → tm ∉ P q) → (0 < spin)%nat →
  0 < timeout < 2 ^ 64 → 0 <= _long_cnt (xt w) → _long_cnt (xt w) + timeout / 4294967296 + 1 < 4294967296 →
  rd (reads (xt w)) <= rd (S (reads (xt w))) → rd (S (reads (xt w))) + XTIMER_BACKOFF <= rd (reads (xt w)) + timeout →
  ∃ w1 w2 P', xtimer_mutex_lock_timeout rd user 0 spin tm mt mutex timeout w = Ok (tt, w1) ∧
    xtimer_mutex_lock_timeout_resume 0 tm mt w1 = Ok (0, w2) ∧
    running Q (kern w2) t T ∧ mutex_is (kern w2) Q mutex (Locked []) ∧ xinv P' (xt w2) ∧ ∀ q, tm ∉ P' q.
Proof.
  intros Hrd Hr Hm Hx HX Hn Hsp Ht Hlc Hlc' Hmono Hleft. pose proof (run_active _ _ _ _ Hr) as Ha.
  set (X1 := set_callback CB_MUTEX_TIMEOUT mt X). set (x1 := set_timers (<[tm := X1]> (timers (xt w))) (xt w)).
  assert (Hx1 : xinv P x1) by (by apply xinv_unlinked).
  pose proof (Z.div_mod timeout 4294967296 ltac:(lia)) as Hdm. pose proof (Z.mod_pos_bound timeout 4294967296 ltac:(lia)).
  assert (u32 timeout = timeout mod 4294967296 ∧ Z.shiftr timeout 32 = timeout / 4294967296) as [E1 E2].
  { split; [done|]. rewrite Z.shiftr_div_pow2 by lia. done. }
  destruct (xtimer_set64_schedules rd no_call spin Hrd P x1 tm X1 (u32 timeout) (Z.shiftr timeout 32))
    as (x2 & tgt & lt & now & E3 & _ & _ & _ & _ & Hts & Hf & Hx2); rewrite ?E1, ?E2; try done.
  { apply lookup_insert_eq. } { apply Z.div_pos; lia. }
  { change (reads x1) with (reads (xt w)). lia. }
  destruct (lock_free Q (kern w) t T mutex Hr Hm) as (k1 & E4 & Hr1 & Hm1 & _).
  set (mts1 := <[mt := MutexThread mutex t 0]> (mts w)).
  exists (World k1 x2 mts1).
  assert (timers x2 !! tm = Some (set_targets tgt lt X1)) as HX2 by (rewrite Hts; apply lookup_insert_eq).
  destruct (xtimer_remove_spec _ x2 tm _ Hx2 HX2) as (h' & c & E5 & Hx3).
  eexists (World k1 _ mts1), _. split; [|split; [|split; [exact Hr1|split; [exact Hm1|split; [exact Hx3|intros q; apply without_not_in]]]]].
  - unfold xtimer_mutex_lock_timeout. rewrite on_kernel_get, Ha. kernel_step reflexivity.
    erewrite (api_bind_Ok (put_mt _ _)) by reflexivity. cbn [kern xt mts]. fold mts1.
    rewrite (proj2 (Z.eqb_neq timeout 0)) by lia. cbn [negb].
    assert ((on_timers (modify_timer tm (set_callback CB_MUTEX_TIMEOUT mt)) ≫= λ _, api_set64 rd user 0 spin tm (u32 timeout) (Z.shiftr timeout 32))
      (World (kern w) (xt w) mts1) = Ok (tt, World (kern w) x2 mts1)) as E6.
    { timer_step (modify_timer_Ok (xt w) tm X _ HX). cbn [kern xt mts]. fold X1 x1.
      exact (with_callbacks_quiet user _ (World (kern w) x1 mts1) tt x2 E3 Hf). }
    rewrite (api_bind_Ok _ _ _ _ _ E6). exact (on_kernel_Ok _ (World (kern w) x2 mts1) tt k1 E4).
  - unfold xtimer_mutex_lock_timeout_resume. timer_step E5. cbn [kern xt mts].
    unfold get_mt, mbind, API_bind. cbn [mts]. unfold mts1. rewrite lookup_insert_eq. done.
Qed.

(** ** The target of a periodic wakeup

    With times as unbounded numbers: at most [2^32] ticks after the last wakeup, the
    test whether the target has passed is exact, whichever of the two has wrapped. *)
Lemma target_passed_exact last now period :
  0 <= last <= now → now < last + 4294967296 → 0 <= period < 4294967296 →
  target_passed (u32 last) (u32 (u32 last + period)) (u32 now) = bool_decide (last + period <= now).
Proof.
  intros Hl Hn Hp. unfold target_passed, u32.
  pose proof (Z.div_mod last 4294967296 ltac:(lia)). pose proof (Z.div_mod now 4294967296 ltac:(lia)).
  pose proof (Z.mod_pos_bound last 4294967296 ltac:(lia)). pose proof (Z.mod_pos_bound now 4294967296 ltac:(lia)).
  set (l := last mod 4294967296) in *. set (n := now mod 4294967296) in *.
  assert ((l + period) mod 4294967296 = if 4294967296 <=? l + period then l + period - 4294967296 else l + period) as ->.
  { destruct (Z.leb_spec 4294967296 (l + period)); [|by rewrite Z.mod_small by lia].
    replace (l + period) with (l + period - 4294967296 + 1 * 4294967296) at 1 by lia. rewrite Z_mod_plus_full, Z.mod_small; lia. }
  assert (now / 4294967296 = last / 4294967296 ∨ now / 4294967296 = last / 4294967296 + 1) as Hq by nia.
  destruct (Z.leb_spec 4294967296 (l + period)), (Z.ltb_spec n l); symmetry;
    (match goal with |- bool_decide ?P = ?b => destruct b eqn:E; [apply bool_decide_eq_true_2|apply bool_decide_eq_false_2] end); nia.
Qed.

(** ** Examples *)

(** The thread at 3360 sleeps for 5000 ticks. *)
Definition demo_awake : world := World demo_two (xtimer_boot ∅) ∅.

Lemma xtimer_boot_inv : xinv (λ _, []) (xtimer_boot ∅).
Proof.
  split; [|intros ? ? ? _ _ []%elem_of_nil|intros ? ? _ []%elem_of_nil|intros; constructor].
  intros q Hq. split; [apply NoDup_singleton|]. by split.
Qed.


(** The thread at 2360 sleeps on timer 77, which is due at 1000; the idle thread
    runs. *)
Definition demo_sleep_timer : xtimer_t := Xtimer 1000 0 (Some CB_UNLOCK_MUTEX) 70.
Definition demo_sleep : world :=
  World demo_waiting (Xstate {[ TIMER_LIST := NEXT 77 ]} {[ 77 := demo_sleep_timer ]} 0 0 0 None 0 []) ∅.
Definition demo_sleep_lists (q : xnode) : list Z := match q with TIMER_LIST => [77] | _ => [] end.

Lemma demo_sleep_inv : xinv demo_sleep_lists (xt demo_sleep).
Proof.
  split.
  - intros q Hq. destruct q; try done; (split; [by apply (bool_decide_unpack _); vm_compute|]); split; by vm_compute.
  - intros q q' t _ _. destruct q, q'; simpl; set_solver.
  - intros q t _ Ht. destruct q; simpl in Ht; [|set_solver..]. assert (t = 77) as -> by set_solver.
    exists demo_sleep_timer. split; [done|]. unfold u32_ok; simpl. by split_and!.
  - intros q _. destruct q; simpl; repeat constructor.
Qed.

Lemma demo_rd_no_wrap W : Z.of_nat W <= 100000 → no_wrap demo_rd 20 0 W.
Proof. intros HW. split; [split|]; unfold demo_rd, XTIMER_ISR_BACKOFF; intros; lia. Qed.


(** The thread at 2360 waits for the mutex 70 with a timeout. *)
Definition demo_in_isr : kstate := after irq_enter demo_waiting.
Definition demo_timeout : world := World demo_in_isr (xtimer_boot ∅) {[ 90 := MutexThread 70 2360 0 ]}.

Lemma demo_in_isr_running : running demo_Q5 demo_in_isr 1360 demo_idle.
Proof.
  destruct (irq_enter_Ok _ _ _ _ demo_waiting_running) as (st & E & Hr & _); [by vm_compute|].
  unfold demo_in_isr. by rewrite (after_Ok _ _ _ _ E).
Qed.

Lemma mutex_timeout_correct_witness :
  ∃ w' Q', _mutex_timeout 90 demo_timeout = Ok (tt, w') ∧ settled Q' (kern w') ∧ mutex_is (kern w') Q' 70 (Locked []) ∧
    2360 ∈ Q' (RUNQUEUE 7).
Proof.
  destruct (mutex_timeout_correct demo_Q5 demo_timeout 1360 demo_idle 90 (MutexThread 70 2360 0)
    (set_status STATUS_MUTEX_BLOCKED demo_main) (Locked [2360]) demo_in_isr_running) as (w' & Q' & E & Hs & _ & _ & _ & Hm & HQ).
  - by vm_compute.
  - by vm_compute.
  - split; by vm_compute.
  - by vm_compute.
  - intros Hn. destruct Hn. left.
  - exists w', Q'. split; [exact E|]. split; [exact Hs|]. split; [exact Hm|]. rewrite HQ. vm_compute. left.
Defined.

(** A timeout of less than [XTIMER_BACKOFF] ticks runs the callback in the calling
    thread before it has blocked: on a held mutex that nobody waits for, it follows
    the pointer [MUTEX_LOCKED]. *)
Example short_timeout_bad_pointer :
  mutex_is demo_held demo_Q4 70 (Locked []) ∧
  xtimer_mutex_lock_timeout demo_rd (λ _ _, mret tt) 0 30 77 90 70 5
    (World demo_held (xtimer_boot {[ 77 := Xtimer 0 0 None 0 ]}) ∅) = Fault BadPointer.
Proof. split; [exact demo_held_locked|by vm_compute]. Qed.

(** The thread at 3360 has a message in its queue and receives with a timeout of 5
    ticks. It gets that message, and the call returns 1; the message of the timer is
    behind it in the queue and is not taken out. The next receiving call gets it. *)
Definition demo_queued : kstate :=
  after (_ ← msg_init_queue 1 4; _ ← write_msg (0, 1) (Msg 0 7 8); msg_send_to_self (0, 1)) demo_two.

Example stale_timeout_message :
  (_ ← _xtimer_msg_receive_timeout demo_rd (λ _ _, mret tt) 0 30 2 77 (3, 0) 5;
   r ← _msg_wait_resume 0 (3, 0) 2 77;
   v ← on_kernel (_ ← msg_receive (3, 1); read_msg (3, 1));
   mret (r, type_ v))
    (World demo_queued (xtimer_boot {[ 77 := Xtimer 0 0 None 0 ]}) ∅) ≫= (λ x, Ok x.1) = Ok (1, MSG_XTIMER).
Proof. by vm_compute. Qed.

(** The split of the time into seconds and microseconds, where the division is
    exact. *)
Lemma now_timex_split now : 0 <= now <= 7154203352 ∨ 16383999997 < now < 2 ^ 32 * US_PER_SEC →
  let s := u32 (div_u64_by_1000000 now) in
  let t := Timex s (u32 (now - u32 (s * US_PER_SEC))) in normal t ∧ us_of t = now.
Proof.
  intros H s. assert (s = now / 1000000) as ->.
  { unfold s, div_u64_by_1000000. rewrite div_u64_by_15625_exact by (unfold US_PER_SEC in H; lia).
    rewrite Z.shiftr_div_pow2, Z.div_div by lia. change (15625 * 2 ^ 6) with 1000000. apply u32_small.
    unfold US_PER_SEC in H. split; [apply Z.div_pos; lia|apply Z.div_lt_upper_bound; lia]. }
  timex. assert (now = now / 1000000 * 1000000 + now mod 1000000 ∧ 0 <= now mod 1000000 < 1000000) as [Hd Hm] by dlia.
  assert (u32 (now - u32 (now / 1000000 * 1000000)) = now mod 1000000) as ->.
  { unfold u32. rewrite Zminus_mod_idemp_r. replace (now - now / 1000000 * 1000000) with (now mod 1000000) by lia. apply Z.mod_small. lia. }
  split; [|lia]. split; [|lia]. split; [apply Z.div_pos; lia|apply Z.div_lt_upper_bound; lia].
Qed.

(** One microsecond before the 7155th second the division by a constant is one too
    large ([div_u64_by_15625_gap]), and the microseconds wrap. *)
Example now_timex_wraps :
  xtimer_now_timex (λ n, 2860032703 + Z.of_nat n) 0 1 (World demo_two (set_reads 0 (set_long_cnt 1 (xtimer_boot ∅))) ∅)
    ≫= (λ x, Ok x.1) = Ok (Timex 7155 0) ∧
  xtimer_now_timex (λ _, 2860032703) 0 1 (World demo_two (set_long_cnt 1 (xtimer_boot ∅)) ∅)
    ≫= (λ x, Ok x.1) = Ok (Timex 7155 4294967295).
Proof. split; by vm_compute. Qed.
