(* ===== verification/Words.v ===== *)
(** * Bytes and 32-bit words

    A big-endian word as four bytes, for the code that splits words by shifts
    and masks and puts them together by shifts and exclusive or. *)

From S2P Require Import Prelude.
Open Scope Z_scope.

Definition is_byte (x : Z) : Prop := 0 <= x < 256.
Definition is_word (x : Z) : Prop := 0 <= x < 4294967296.

Global Instance is_byte_dec x : Decision (is_byte x).
Proof. unfold is_byte. apply _. Defined.

(** The word with the given bytes, the most significant one first. *)
Definition w4 (a b c d : Z) : Z :=
  Z.lxor (Z.lxor (Z.lxor (Z.shiftl a 24) (Z.shiftl b 16)) (Z.shiftl c 8)) d.

(** The bytes of a word, as the code takes them. *)
Definition byte0 (w : Z) : Z := Z.shiftr w 24.
Definition byte1 (w : Z) : Z := Z.land (Z.shiftr w 16) 255.
Definition byte2 (w : Z) : Z := Z.land (Z.shiftr w 8) 255.
Definition byte3 (w : Z) : Z := Z.land w 255.

(** ** Bitwise reasoning *)

Lemma byte_testbit x i : is_byte x → 8 <= i → Z.testbit x i = false.
Proof. intros Hx Hi. by apply (testbit_above 8). Qed.

Lemma mask_testbit n i : 0 <= n → 0 <= i → Z.testbit (2 ^ n - 1) i = (i <? n).
Proof.
  intros Hn Hi. replace (2 ^ n - 1) with (Z.ones n) by (rewrite Z.ones_equiv; lia).
  destruct (Z.ltb_spec i n); [by apply Z.ones_spec_low|by apply Z.ones_spec_high].
Qed.

Lemma land_255 x : Z.land x 255 = x mod 256.
Proof. change 255 with (Z.ones 8). by rewrite Z.land_ones. Qed.

Lemma byte_land x : is_byte x → Z.land x 255 = x.
Proof. intros Hx. rewrite land_255. by apply Z.mod_small. Qed.

Lemma land_255_byte x : is_byte (Z.land x 255).
Proof. rewrite land_255. by apply Z.mod_pos_bound. Qed.

Lemma lxor_byte x y : is_byte x → is_byte y → is_byte (Z.lxor x y).
Proof. apply (lxor_bound 8). lia. Qed.

Lemma lxor_word x y : is_word x → is_word y → is_word (Z.lxor x y).
Proof. apply (lxor_bound 32). lia. Qed.

(** Without carries, the exclusive or is the sum. *)
Lemma lxor_shiftl_add x y n : 0 <= n → 0 <= y < 2 ^ n → Z.lxor (Z.shiftl x n) y = x * 2 ^ n + y.
Proof.
  intros Hn Hy. rewrite <- Z.shiftl_mul_pow2 by done. symmetry. apply Z.add_nocarry_lxor.
  apply Z.bits_inj'. intros i Hi. rewrite Z.land_spec, Z.bits_0, Z.shiftl_spec by done.
  destruct (Z.ltb_spec i n); [by rewrite Z.testbit_neg_r by lia|].
  rewrite (testbit_above n y) by (done || lia). apply andb_false_r.
Qed.

Lemma w4_add a b c d :
  is_byte b → is_byte c → is_byte d → w4 a b c d = a * 16777216 + b * 65536 + c * 256 + d.
Proof.
  unfold is_byte. intros Hb Hc Hd. unfold w4. rewrite !Z.lxor_assoc.
  rewrite (lxor_shiftl_add c d 8) by lia. rewrite (lxor_shiftl_add b _ 16) by lia.
  rewrite (lxor_shiftl_add a _ 24) by lia. lia.
Qed.

Lemma w4_word a b c d : is_byte a → is_byte b → is_byte c → is_byte d → is_word (w4 a b c d).
Proof. intros Ha Hb Hc Hd. rewrite w4_add by done. unfold is_byte, is_word in *. lia. Qed.

Lemma w4_bytes a b c d :
  is_byte a → is_byte b → is_byte c → is_byte d →
  byte0 (w4 a b c d) = a ∧ byte1 (w4 a b c d) = b ∧ byte2 (w4 a b c d) = c ∧ byte3 (w4 a b c d) = d.
Proof.
  intros Ha Hb Hc Hd. rewrite w4_add by done. unfold byte0, byte1, byte2, byte3, is_byte in *.
  rewrite !land_255, !Z.shiftr_div_pow2 by lia. split_and!; dlia.
Qed.

Lemma word_w4 w : is_word w → w = w4 (byte0 w) (byte1 w) (byte2 w) (byte3 w).
Proof.
  intros Hw. rewrite w4_add by apply land_255_byte. unfold byte0, byte1, byte2, byte3, is_word in *.
  rewrite !land_255, !Z.shiftr_div_pow2 by lia. dlia.
Qed.

Lemma byte0_byte w : is_word w → is_byte (byte0 w).
Proof. unfold is_word, is_byte, byte0. intros Hw. rewrite Z.shiftr_div_pow2 by lia. dlia. Qed.

Lemma byte1_byte w : is_byte (byte1 w).
Proof. apply land_255_byte. Qed.
Lemma byte2_byte w : is_byte (byte2 w).
Proof. apply land_255_byte. Qed.
Lemma byte3_byte w : is_byte (byte3 w).
Proof. apply land_255_byte. Qed.

Create HintDb bytes.
#[export] Hint Resolve lxor_byte lxor_word w4_word land_255_byte byte0_byte byte1_byte byte2_byte byte3_byte : bytes.
#[export] Hint Extern 1 (is_byte _) => (unfold is_byte; lia) : bytes.

(** A word is four bytes. *)
Lemma word_ind (P : Z → Prop) :
  (∀ a b c d, is_byte a → is_byte b → is_byte c → is_byte d → P (w4 a b c d)) → ∀ w, is_word w → P w.
Proof.
  intros HP w Hw. rewrite (word_w4 w Hw). apply HP; try apply land_255_byte. by apply byte0_byte.
Qed.

Lemma w4_lxor a b c d a' b' c' d' :
  Z.lxor (w4 a b c d) (w4 a' b' c' d') = w4 (Z.lxor a a') (Z.lxor b b') (Z.lxor c c') (Z.lxor d d').
Proof.
  unfold w4. rewrite !Z.shiftl_lxor.
  apply Z.bits_inj'. intros i Hi. rewrite !Z.lxor_spec.
  repeat match goal with |- context [Z.testbit ?x i] => destruct (Z.testbit x i) end; done.
Qed.

Lemma w4_testbit a b c d i :
  is_byte a → is_byte b → is_byte c → is_byte d → 0 <= i →
  Z.testbit (w4 a b c d) i =
    if i <? 8 then Z.testbit d i else if i <? 16 then Z.testbit c (i - 8)
    else if i <? 24 then Z.testbit b (i - 16) else Z.testbit a (i - 24).
Proof.
  intros Ha Hb Hc Hd Hi. unfold w4. rewrite !Z.lxor_spec, !Z.shiftl_spec by done.
  repeat case_match; rewrite ?(byte_testbit d), ?(byte_testbit c), ?(byte_testbit b) by (done || lia);
    rewrite ?(Z.testbit_neg_r a), ?(Z.testbit_neg_r b), ?(Z.testbit_neg_r c) by lia;
    rewrite ?xorb_false_l, ?xorb_false_r; done.
Qed.

Lemma land_byte x y : is_byte x → is_byte (Z.land x y).
Proof. apply (land_bound 8). lia. Qed.

Lemma w4_land a b c d a' b' c' d' :
  is_byte a → is_byte b → is_byte c → is_byte d → is_byte a' → is_byte b' → is_byte c' → is_byte d' →
  Z.land (w4 a b c d) (w4 a' b' c' d') = w4 (Z.land a a') (Z.land b b') (Z.land c c') (Z.land d d').
Proof.
  intros. apply Z.bits_inj'. intros i Hi. rewrite Z.land_spec, !w4_testbit by auto using land_byte.
  rewrite !Z.land_spec. by repeat case_match.
Qed.

(** ** Single bits *)

Lemma land_pow2 x k : 0 <= k → negb (Z.land x (2 ^ k) =? 0) = Z.testbit x k.
Proof.
  intros Hk. destruct (Z.testbit x k) eqn:E.
  - apply negb_true_iff, Z.eqb_neq. intros H.
    assert (Z.testbit (Z.land x (2 ^ k)) k = false) as H1 by (by rewrite H, Z.bits_0).
    by rewrite Z.land_spec, E, Z.pow2_bits_true in H1.
  - apply negb_false_iff, Z.eqb_eq, Z.bits_inj'. intros i Hi. rewrite Z.land_spec, Z.bits_0.
    destruct (decide (i = k)) as [->|]; [by rewrite E|]. rewrite Z.pow2_bits_false by lia. apply andb_false_r.
Qed.

Lemma testbit_u8 x i : 0 <= i → Z.testbit (u8 x) i = Z.testbit x i && (i <? 8).
Proof. intros. unfold u8. rewrite <- land_255, Z.land_spec. f_equal. by apply (mask_testbit 8). Qed.

(** ** Exhaustive checks on bytes *)

Definition all_bytes : list Z := seqZ 0 256.

Lemma elem_of_all_bytes x : x ∈ all_bytes ↔ is_byte x.
Proof. unfold all_bytes, is_byte. rewrite elem_of_seqZ. lia. Qed.

Lemma byte_check (p : Z → bool) : forallb p all_bytes = true → ∀ x, is_byte x → p x = true.
Proof.
  intros Hp x Hx. rewrite forallb_forall in Hp. apply Hp. apply list_elem_of_In.
  by apply elem_of_all_bytes.
Qed.
