(* ===== verification/Cipher.v ===== *)
(** * sys/crypto/ciphers.c and crypto/ciphers.h: the block cipher interface

    A [uint8_t *] argument that points into a buffer is the part of the buffer
    from there on; a function that writes through it returns that part. A cipher
    is a record of functions as in the source. The class [BlockCipher] is what
    the modes of operation rely on; a cipher discharges it. *)

From S2P Require Import Prelude Words.
Open Scope Z_scope.

(** ** The code *)

(** Built with [CRYPTO_AES]. *)
Definition CIPHERS_MAX_KEY_SIZE : Z := 20.
Definition CIPHER_MAX_BLOCK_SIZE : Z := 16.
Definition CIPHER_MAX_CONTEXT_SIZE : Z := CIPHERS_MAX_KEY_SIZE.

Definition CIPHER_ERR_INVALID_KEY_SIZE : Z := -3.
Definition CIPHER_ERR_INVALID_LENGTH : Z := -4.
Definition CIPHER_ERR_ENC_FAILED : Z := -5.
Definition CIPHER_ERR_DEC_FAILED : Z := -6.
Definition CIPHER_ERR_BAD_CONTEXT_SIZE : Z := 0.
Definition CIPHER_INIT_SUCCESS : Z := 1.

(** [init] takes the context, the key and its size, and gives the new context;
    [encrypt] and [decrypt] take the context, the input and the output. *)
Record cipher_interface_t : Type := Cipher_interface {
  block_size : Z;
  max_key_size : Z;
  init : list Z → list Z → Z → result (Z * list Z);
  encrypt : list Z → list Z → list Z → result (Z * list Z);
  decrypt : list Z → list Z → list Z → result (Z * list Z)
}.

Record cipher_t : Type := Cipher {
  interface : cipher_interface_t;
  context : list Z
}.

Definition cipher_init (cipher : cipher_t) (cipher_id : cipher_interface_t) (key : list Z) (key_size : Z)
  : result (Z * cipher_t) :=
  if max_key_size cipher_id <? key_size then Ok (CIPHER_ERR_INVALID_KEY_SIZE, cipher)
  else
    '(res, ctx) ← init cipher_id (context cipher) key key_size;
    Ok (res, Cipher cipher_id ctx).

Definition cipher_encrypt (cipher : cipher_t) (input output : list Z) : result (Z * list Z) :=
  encrypt (interface cipher) (context cipher) input output.

Definition cipher_decrypt (cipher : cipher_t) (input output : list Z) : result (Z * list Z) :=
  decrypt (interface cipher) (context cipher) input output.

Definition cipher_get_block_size (cipher : cipher_t) : Z := block_size (interface cipher).

(** ** What a block cipher promises *)

(** A block of [n] bytes. *)
Definition is_block (n : Z) (b : list Z) : Prop := Z.of_nat (length b) = n ∧ Forall is_byte b.

Class BlockCipher (I : cipher_interface_t) : Type := {
  (** Contexts that a successful [init] leaves. *)
  bc_ready : list Z → Prop;
  (** The permutation of blocks and its inverse. *)
  bc_enc : list Z → list Z → list Z;
  bc_dec : list Z → list Z → list Z;
  bc_size : 0 < block_size I <= CIPHER_MAX_BLOCK_SIZE;
  bc_init ctx key n :
    Z.of_nat (length ctx) = CIPHER_MAX_CONTEXT_SIZE → is_block n key → 0 < n <= max_key_size I →
    ∃ ctx', init I ctx key n = Ok (CIPHER_INIT_SUCCESS, ctx') ∧ bc_ready ctx';
  bc_enc_block ctx b : bc_ready ctx → is_block (block_size I) b → is_block (block_size I) (bc_enc ctx b);
  bc_dec_block ctx b : bc_ready ctx → is_block (block_size I) b → is_block (block_size I) (bc_dec ctx b);
  bc_encrypt ctx b rest out pad :
    bc_ready ctx → is_block (block_size I) b → Z.of_nat (length out) = block_size I →
    encrypt I ctx (b ++ rest) (out ++ pad) = Ok (1, bc_enc ctx b ++ pad);
  bc_decrypt ctx b rest out pad :
    bc_ready ctx → is_block (block_size I) b → Z.of_nat (length out) = block_size I →
    decrypt I ctx (b ++ rest) (out ++ pad) = Ok (1, bc_dec ctx b ++ pad);
  bc_dec_enc ctx b : bc_ready ctx → is_block (block_size I) b → bc_dec ctx (bc_enc ctx b) = b
}.
