(* ===== verification/AesCorrect.v ===== *)
(** * AES: the table implementation against FIPS 197

    [Fips] is the standard, on bytes: the field of polynomials modulo
    [x^8 + x^4 + x^3 + x + 1], the substitution box as inverse and affine map,
    the four transformations and the key expansion. The tables are checked
    against it entry by entry, and the block functions follow by algebra on the
    bytes of words. *)

From S2P Require Import Prelude Words Cipher Aes.
Open Scope Z_scope.

(** ** The standard *)

Module Fips.

Definition xtime (b : Z) : Z := if b <? 128 then 2 * b else Z.lxor (2 * b) 0x11b.

(** [a * b] in the field, by the bits of [b] from the lowest on. *)
Fixpoint gmul_bits (n : nat) (a b : Z) : Z :=
  match n with
  | O => 0
  | S n => Z.lxor (if Z.odd b then a else 0) (gmul_bits n (xtime a) (b / 2))
  end.
Definition gmul (a b : Z) : Z := gmul_bits 8 a b.

Fixpoint gpow (a : Z) (n : nat) : Z := match n with O => 1 | S n => gmul a (gpow a n) end.

(** The inverse (zero for zero) is the 254th power. *)
Definition ginv (a : Z) : Z := gpow a 254.

Definition rotl8 (x n : Z) : Z := Z.lor (u8 (Z.shiftl x n)) (Z.shiftr x (8 - n)).

Definition sbox (a : Z) : Z :=
  let b := ginv a in
  Z.lxor (Z.lxor (Z.lxor (Z.lxor (Z.lxor b (rotl8 b 1)) (rotl8 b 2)) (rotl8 b 3)) (rotl8 b 4)) 0x63.

(** The state is read column by column. *)
Definition sub_bytes (s : list Z) : list Z := sbox <$> s.

Definition shift_rows (s : list Z) : list Z :=
  (λ i, s !!! i) <$> [0; 5; 10; 15; 4; 9; 14; 3; 8; 13; 2; 7; 12; 1; 6; 11]%nat.

Definition xor_all (l : list Z) : Z := foldl Z.lxor 0 l.

Definition mix_column (c : list Z) : list Z :=
  (λ row, xor_all (zip_with gmul row c)) <$> [[2; 3; 1; 1]; [1; 2; 3; 1]; [1; 1; 2; 3]; [3; 1; 1; 2]].

Definition mix_columns (s : list Z) : list Z :=
  mix_column (take 4 s) ++ mix_column (take 4 (drop 4 s)) ++
  mix_column (take 4 (drop 8 s)) ++ mix_column (take 4 (drop 12 s)).

Definition add_round_key (s k : list Z) : list Z := zip_with Z.lxor s k.

(** Key expansion for four-word keys. *)
Definition bytes_of (w : Z) : list Z := [byte0 w; byte1 w; byte2 w; byte3 w].

Definition rot_word (w : Z) : Z := w4 (byte1 w) (byte2 w) (byte3 w) (byte0 w).
Definition sub_word (w : Z) : Z := w4 (sbox (byte0 w)) (sbox (byte1 w)) (sbox (byte2 w)) (sbox (byte3 w)).
Definition Rcon (i : nat) : Z := w4 (gpow 2 (pred i)) 0 0 0.

Definition next_word (w : list Z) : Z :=
  let i := length w in
  let temp := w !!! (i - 1)%nat in
  Z.lxor (w !!! (i - 4)%nat)
    (if (i mod 4 =? 0)%nat then Z.lxor (sub_word (rot_word temp)) (Rcon (i / 4)) else temp).

Fixpoint expand (n : nat) (w : list Z) : list Z :=
  match n with O => w | S n => expand n (w ++ [next_word w]) end.

(** The words of a key of 16 bytes, and all 44 words of its schedule. *)
Definition words (key : list Z) : list Z :=
  (λ i, w4 (key !!! (4 * i)%nat) (key !!! (4 * i + 1)%nat) (key !!! (4 * i + 2)%nat) (key !!! (4 * i + 3)%nat))
    <$> seq 0 4.
Definition key_expansion (key : list Z) : list Z := expand 40 (words key).

Definition round_key (w : list Z) (r : nat) : list Z := take 4 (drop (4 * r) w) ≫= bytes_of.

Definition round (w : list Z) (s : list Z) (r : nat) : list Z :=
  add_round_key (mix_columns (shift_rows (sub_bytes s))) (round_key w r).

Definition cipher (key input : list Z) : list Z :=
  let w := key_expansion key in
  let s := add_round_key input (round_key w 0) in
  let s := foldl (round w) s (seq 1 9) in
  add_round_key (shift_rows (sub_bytes s)) (round_key w 10).

End Fips.

Import Fips.

(** ** The tables *)

(** The values of the substitution box, computed once. *)
Definition sbox_table : list Z := Eval vm_compute in sbox <$> all_bytes.

Ltac check_bytes := intros x Hx; apply Z.eqb_eq; revert x Hx; apply byte_check; by vm_compute.

Lemma sbox_eq : ∀ x, is_byte x → sbox x = tab sbox_table x.
Proof. check_bytes. Qed.

Lemma sbox_byte x : is_byte x → is_byte (sbox x).
Proof.
  intros Hx. rewrite sbox_eq by done. revert x Hx.
  assert (∀ x, is_byte x → bool_decide (is_byte (tab sbox_table x)) = true) as Hc
    by (apply byte_check; by vm_compute).
  intros x Hx. specialize (Hc x Hx). by apply bool_decide_eq_true in Hc.
Qed.

Lemma gmul_byte x y : is_byte x → is_byte y → is_byte (gmul x y).
Proof.
  assert (∀ n x y, is_byte x → is_byte (gmul_bits n x y)) as Hn; [|intros; by apply Hn].
  clear. induction n as [|n IH]; intros x y Hx; simpl; [done|].
  apply lxor_byte; [by case_match|]. apply IH. unfold xtime.
  destruct (Z.ltb_spec x 128); [unfold is_byte in *; lia|].
  unfold is_byte in *.
  replace (2 * x) with (Z.lxor 256 (2 * (x - 128))).
  2:{ rewrite Z.lxor_comm. change 256 with (Z.shiftl 1 8).
      rewrite Z.lxor_comm, lxor_shiftl_add by lia. lia. }
  replace (Z.lxor (Z.lxor 256 (2 * (x - 128))) 283) with (Z.lxor (2 * (x - 128)) 27).
  2:{ change 283 with (Z.lxor 256 27). rewrite (Z.lxor_comm 256), !Z.lxor_assoc.
      rewrite <- (Z.lxor_assoc 256 256). by rewrite Z.lxor_nilpotent, Z.lxor_0_l. }
  apply (lxor_bound 8); lia.
Qed.

(** [x] times two and three in the field, for the four positions in a column. *)
Lemma Te0_spec : ∀ x, is_byte x →
  tab Te0 x = w4 (gmul 2 (tab sbox_table x)) (tab sbox_table x) (tab sbox_table x) (gmul 3 (tab sbox_table x)).
Proof. check_bytes. Qed.
Lemma Te1_spec : ∀ x, is_byte x →
  tab Te1 x = w4 (gmul 3 (tab sbox_table x)) (gmul 2 (tab sbox_table x)) (tab sbox_table x) (tab sbox_table x).
Proof. check_bytes. Qed.
Lemma Te2_spec : ∀ x, is_byte x →
  tab Te2 x = w4 (tab sbox_table x) (gmul 3 (tab sbox_table x)) (gmul 2 (tab sbox_table x)) (tab sbox_table x).
Proof. check_bytes. Qed.
Lemma Te3_spec : ∀ x, is_byte x →
  tab Te3 x = w4 (tab sbox_table x) (tab sbox_table x) (gmul 3 (tab sbox_table x)) (gmul 2 (tab sbox_table x)).
Proof. check_bytes. Qed.

Lemma Te4_spec : ∀ x, is_byte x →
  tab Te4 x = w4 (tab sbox_table x) (tab sbox_table x) (tab sbox_table x) (tab sbox_table x).
Proof. check_bytes. Qed.

(** Masking a word keeps one of its bytes. *)
Lemma w4_mask a b c d :
  is_byte a → is_byte b → is_byte c → is_byte d →
  Z.land (w4 a b c d) 0xff000000 = w4 a 0 0 0 ∧ Z.land (w4 a b c d) 0x00ff0000 = w4 0 b 0 0 ∧
  Z.land (w4 a b c d) 0x0000ff00 = w4 0 0 c 0 ∧ Z.land (w4 a b c d) 0x000000ff = w4 0 0 0 d.
Proof.
  intros Ha Hb Hc Hd. change 0xff000000 with (w4 255 0 0 0). change 0x00ff0000 with (w4 0 255 0 0).
  change 0x0000ff00 with (w4 0 0 255 0). change 0x000000ff with (w4 0 0 0 255).
  rewrite !w4_land by (done || (unfold is_byte; lia)). by rewrite !Z.land_0_r, !byte_land.
Qed.

(** Four masked words make one word. *)
Lemma masked_bytes a b c d :
  is_byte a → is_byte b → is_byte c → is_byte d →
  Z.lxor (Z.lxor (Z.lxor (Z.land (w4 a a a a) 0xff000000) (Z.land (w4 b b b b) 0x00ff0000))
    (Z.land (w4 c c c c) 0x0000ff00)) (Z.land (w4 d d d d) 0x000000ff) = w4 a b c d.
Proof.
  intros Ha Hb Hc Hd. destruct (w4_mask a a a a) as (-> & _); [done..|].
  destruct (w4_mask b b b b) as (_ & -> & _); [done..|].
  destruct (w4_mask c c c c) as (_ & _ & -> & _); [done..|].
  destruct (w4_mask d d d d) as (_ & _ & _ & ->); [done..|].
  by rewrite !w4_lxor, !Z.lxor_0_l, !Z.lxor_0_r.
Qed.

Lemma lxor_cancel x k : Z.lxor (Z.lxor x k) k = x.
Proof. by rewrite Z.lxor_assoc, Z.lxor_nilpotent, Z.lxor_0_r. Qed.

(** ** Rounds *)

Definition quad : Type := Z * Z * Z * Z.
Definition is_quad (s : quad) : Prop :=
  let '(a, b, c, d) := s in is_word a ∧ is_word b ∧ is_word c ∧ is_word d.

(** The bytes of the four columns. *)
Definition state_bytes (s : quad) : list Z :=
  let '(a, b, c, d) := s in bytes_of a ++ bytes_of b ++ bytes_of c ++ bytes_of d.

Lemma bytes_w4 a b c d : is_byte a → is_byte b → is_byte c → is_byte d → bytes_of (w4 a b c d) = [a; b; c; d].
Proof. intros Ha Hb Hc Hd. destruct (w4_bytes a b c d) as (E0 & E1 & E2 & E3); [done..|]. unfold bytes_of. congruence. Qed.

Lemma gmul_1 : ∀ x, is_byte x → gmul 1 x = x.
Proof. check_bytes. Qed.

(** Ranges of the bytes the cipher computes. *)
Ltac in_bytes :=
  repeat match goal with
  | |- is_byte (Z.lxor _ _) => apply lxor_byte
  | |- is_byte (gmul _ _) => apply gmul_byte
  | |- is_byte (sbox _) => apply sbox_byte
  | |- is_byte (byte0 _) => apply byte0_byte
  | |- is_byte (byte1 _) => apply byte1_byte
  | |- is_byte (byte2 _) => apply byte2_byte
  | |- is_byte (byte3 _) => apply byte3_byte
  | |- is_word (Z.lxor _ _) => apply lxor_word
  | |- is_word (w4 _ _ _ _) => apply w4_word
  | |- _ => first [assumption | (unfold is_byte; lia)]
  end.

(** A round's word is a column of MixColumns and the round key. *)
Definition column (a b c d k : Z) : Z :=
  match zip_with Z.lxor (mix_column [sbox (byte0 a); sbox (byte1 b); sbox (byte2 c); sbox (byte3 d)]) (bytes_of k) with
  | [x; y; z; w] => w4 x y z w
  | _ => 0
  end.

Lemma te_column a b c d k :
  is_word a → is_word b → is_word c → is_word d → is_word k → te a b c d k = column a b c d k.
Proof.
  intros Ha Hb Hc Hd Hk. unfold te, column.
  rewrite Te0_spec, Te1_spec, Te2_spec, Te3_spec by in_bytes. rewrite <- !sbox_eq by in_bytes.
  rewrite (word_w4 k Hk) at 1. rewrite !w4_lxor. unfold mix_column, xor_all. simpl.
  rewrite !gmul_1 by in_bytes. by rewrite !Z.lxor_0_l.
Qed.

Lemma column_bytes a b c d k :
  is_word a → is_word b → is_word c → is_word d → is_word k →
  bytes_of (column a b c d k) =
    zip_with Z.lxor (mix_column [sbox (byte0 a); sbox (byte1 b); sbox (byte2 c); sbox (byte3 d)]) (bytes_of k) ∧
  is_word (column a b c d k).
Proof.
  intros Ha Hb Hc Hd Hk. unfold column.
  unfold mix_column, xor_all, bytes_of. cbn [fmap list_fmap zip_with foldl].
  split; [apply bytes_w4|apply w4_word]; in_bytes.
Qed.

#[local] Opaque sbox gmul.

(** ** The code's rounds are the standard's *)

(** The shape of a round, for any substitution and any map of columns. *)
Lemma round_shape (mix : list Z → list Z) (box : Z → Z) s0 s1 s2 s3 k0 k1 k2 k3 :
  (∀ c, length (mix c) = 4%nat) →
  let x := shift_rows (box <$> state_bytes (s0, s1, s2, s3)) in
  add_round_key (mix (take 4 x) ++ mix (take 4 (drop 4 x)) ++ mix (take 4 (drop 8 x)) ++ mix (take 4 (drop 12 x)))
    (state_bytes (k0, k1, k2, k3)) =
  zip_with Z.lxor (mix [box (byte0 s0); box (byte1 s1); box (byte2 s2); box (byte3 s3)]) (bytes_of k0) ++
  zip_with Z.lxor (mix [box (byte0 s1); box (byte1 s2); box (byte2 s3); box (byte3 s0)]) (bytes_of k1) ++
  zip_with Z.lxor (mix [box (byte0 s2); box (byte1 s3); box (byte2 s0); box (byte3 s1)]) (bytes_of k2) ++
  zip_with Z.lxor (mix [box (byte0 s3); box (byte1 s0); box (byte2 s1); box (byte3 s2)]) (bytes_of k3).
Proof.
  intros Hm x. unfold add_round_key, state_bytes. rewrite !zip_with_app by (by rewrite Hm). reflexivity.
Qed.

Lemma last_shape (box : Z → Z) s0 s1 s2 s3 k0 k1 k2 k3 :
  add_round_key (shift_rows (box <$> state_bytes (s0, s1, s2, s3))) (state_bytes (k0, k1, k2, k3)) =
  zip_with Z.lxor [box (byte0 s0); box (byte1 s1); box (byte2 s2); box (byte3 s3)] (bytes_of k0) ++
  zip_with Z.lxor [box (byte0 s1); box (byte1 s2); box (byte2 s3); box (byte3 s0)] (bytes_of k1) ++
  zip_with Z.lxor [box (byte0 s2); box (byte1 s3); box (byte2 s0); box (byte3 s1)] (bytes_of k2) ++
  zip_with Z.lxor [box (byte0 s3); box (byte1 s0); box (byte2 s1); box (byte3 s2)] (bytes_of k3).
Proof. reflexivity. Qed.

Lemma mix_column_length c : length (mix_column c) = 4%nat.
Proof. reflexivity. Qed.

Lemma te_round_spec s k :
  is_quad s → is_quad k →
  state_bytes (te_round s k) =
    add_round_key (mix_columns (shift_rows (sub_bytes (state_bytes s)))) (state_bytes k) ∧
  is_quad (te_round s k).
Proof.
  destruct s as [[[s0 s1] s2] s3], k as [[[k0 k1] k2] k3].
  intros (A & B & C & D) (K0 & K1 & K2 & K3). unfold te_round. rewrite !te_column by done.
  destruct (column_bytes s0 s1 s2 s3 k0) as [E0 W0]; [done..|].
  destruct (column_bytes s1 s2 s3 s0 k1) as [E1 W1]; [done..|].
  destruct (column_bytes s2 s3 s0 s1 k2) as [E2 W2]; [done..|].
  destruct (column_bytes s3 s0 s1 s2 k3) as [E3 W3]; [done..|].
  split; [|done]. unfold mix_columns, sub_bytes. rewrite round_shape by apply mix_column_length.
  unfold state_bytes. by rewrite E0, E1, E2, E3.
Qed.

Lemma last_word_Te4 a b c d k :
  is_word a → is_word b → is_word c → is_word d → is_word k →
  bytes_of (last_word Te4 a b c d k) =
    zip_with Z.lxor [sbox (byte0 a); sbox (byte1 b); sbox (byte2 c); sbox (byte3 d)] (bytes_of k) ∧
  is_word (last_word Te4 a b c d k).
Proof.
  intros Ha Hb Hc Hd Hk. unfold last_word.
  rewrite !Te4_spec by in_bytes. rewrite <- !sbox_eq by in_bytes.
  rewrite masked_bytes by in_bytes.
  pattern k. revert k Hk. apply word_ind. intros k0 k1 k2 k3 K0 K1 K2 K3.
  rewrite w4_lxor, !bytes_w4 by in_bytes.
  split; [done|]. apply w4_word; in_bytes.
Qed.

(** ** The key schedule *)

Lemma rot_sub_spec t : is_word t → rot_sub t = sub_word (rot_word t).
Proof.
  intros Ht. unfold rot_sub, sub_word, rot_word. rewrite !Te4_spec by in_bytes.
  rewrite <- !sbox_eq by in_bytes.
  rewrite masked_bytes by in_bytes.
  by destruct (w4_bytes (byte1 t) (byte2 t) (byte3 t) (byte0 t)) as (-> & -> & -> & ->); [in_bytes..|].
Qed.

Lemma sub_word_word w : is_word w → is_word (sub_word (rot_word w)).
Proof.
  intros Hw. unfold sub_word, rot_word.
  destruct (w4_bytes (byte1 w) (byte2 w) (byte3 w) (byte0 w)) as (-> & -> & -> & ->); in_bytes.
Qed.

Lemma rcon_spec i : (i < 10)%nat → aget rcon (Z.of_nat i) = Ok (Rcon (S i)) ∧ is_word (Rcon (S i)).
Proof.
  intros Hi. unfold is_word. do 10 (destruct i as [|i]; [vm_compute; done|]). lia.
Qed.

Lemma aget_prefix (w r : list Z) j : 0 <= j < Z.of_nat (length w) → aget (w ++ r) j = Ok (w !!! Z.to_nat j).
Proof.
  intros Hj. apply aget_Some; [lia|]. rewrite lookup_app_l by lia.
  by apply list_lookup_lookup_total_lt; lia.
Qed.

Lemma is_word_lookup w i : Forall is_word w → (i < length w)%nat → is_word (w !!! i).
Proof. intros Hw Hi. by apply Forall_lookup_total_1. Qed.

Lemma next_word_word w : Forall is_word w → (4 <= length w <= 43)%nat → is_word (next_word w).
Proof.
  intros Hw Hl. unfold next_word.
  assert (is_word (w !!! (length w - 1)%nat)) by (apply is_word_lookup; [done|lia]).
  apply lxor_word; [apply is_word_lookup; [done|lia]|]. case_match; [|done].
  apply lxor_word; [by apply sub_word_word|].
  assert (0 < length w / 4 < 11)%nat.
  { split; [apply Nat.div_str_pos; lia|apply Nat.Div0.div_lt_upper_bound; lia]. }
  destruct (length w / 4)%nat as [|i]; [lia|]. apply rcon_spec. lia.
Qed.

Lemma mod4_ne n i r : n = (4 * i + r)%nat → (0 < r < 4)%nat → (n mod 4 ≠ 0)%nat.
Proof.
  intros -> Hr E. rewrite Nat.add_comm, Nat.mul_comm, Nat.Div0.mod_add, Nat.mod_small in E by lia. lia.
Qed.

Lemma rk_xor_next w i q x r p a b :
  length w = (4 * i + q)%nat → (0 < i)%nat → (0 < q < 4)%nat →
  p = Z.of_nat (length w) → a = Z.of_nat (length w) - 4 → b = Z.of_nat (length w) - 1 →
  rk_xor (w ++ x :: r) p a b = Ok ((w ++ [next_word w]) ++ r).
Proof.
  intros Hl Hi Hq -> -> ->. pose proof (mod4_ne _ _ _ Hl Hq) as Hm. unfold rk_xor. rewrite !aget_prefix by lia. simpl. rewrite aset_app by done.
  rewrite <- app_assoc. unfold next_word. apply Nat.eqb_neq in Hm. rewrite Hm.
  by replace (Z.to_nat (Z.of_nat (length w) - 4)) with (length w - 4)%nat by lia;
     replace (Z.to_nat (Z.of_nat (length w) - 1)) with (length w - 1)%nat by lia.
Qed.

Lemma expand_length n w : length (expand n w) = (n + length w)%nat.
Proof. revert w. induction n as [|n IH]; intros w; [done|]. simpl. rewrite IH, length_app. simpl. lia. Qed.

Lemma expand_words n w :
  Forall is_word w → (4 <= length w)%nat → (n + length w <= 44)%nat → Forall is_word (expand n w).
Proof.
  revert w. induction n as [|n IH]; intros w Hw Hl Hn; [done|]. simpl.
  apply IH; rewrite ?length_app; simpl; [|lia..]. apply Forall_app. split; [done|].
  apply Forall_singleton, next_word_word; [done|lia].
Qed.

Lemma next_word_rcon w i :
  length w = (4 * (i + 1))%nat →
  next_word w = Z.lxor (Z.lxor (w !!! (4 * i)%nat) (sub_word (rot_word (w !!! (4 * i + 3)%nat)))) (Rcon (S i)).
Proof.
  intros Hl. unfold next_word. replace (length w mod 4 =? 0)%nat with true.
  2:{ symmetry. apply Nat.eqb_eq. rewrite Hl, Nat.mul_comm. apply Nat.Div0.mod_mul. }
  rewrite Z.lxor_assoc. replace (length w / 4)%nat with (S i).
  2:{ rewrite Hl, Nat.mul_comm, Nat.div_mul by done. lia. }
  replace (length w - 1)%nat with (4 * i + 3)%nat by lia.
  by replace (length w - 4)%nat with (4 * i)%nat by lia.
Qed.

Lemma expand128_spec fuel w r i :
  length w = (4 * (i + 1))%nat → (i + fuel = 10)%nat → (0 < fuel)%nat → (4 * fuel <= length r)%nat →
  Forall is_word w →
  expand128 fuel (w ++ r) (4 * Z.of_nat i) (Z.of_nat i) = Ok (expand (4 * fuel) w ++ drop (4 * fuel) r).
Proof.
  revert w r i. induction fuel as [|fuel IH]; intros w r i Hl Hf Hpos Hr Hw; [lia|].
  destruct r as [|a [|b [|c [|d r]]]]; simpl in Hr; try lia. cbn [expand128].
  rewrite !aget_prefix by lia. cbn [mbind result_bind].
  rewrite (proj1 (rcon_spec i ltac:(lia))). cbn [mbind result_bind].
  rewrite aset_app by lia. cbn [mbind result_bind]. rewrite rot_sub_spec by (apply is_word_lookup; [done|lia]).
  replace (Z.to_nat (4 * Z.of_nat i + 3)) with (4 * i + 3)%nat by lia.
  replace (Z.to_nat (4 * Z.of_nat i)) with (4 * i)%nat by lia. rewrite <- next_word_rcon by done.
  change (w ++ next_word w :: b :: c :: d :: r) with (w ++ [next_word w] ++ b :: c :: d :: r).
  rewrite (app_assoc w [_]). set (w1 := w ++ [next_word w]).
  assert (length w1 = 4 * (i + 1) + 1)%nat as L1 by (unfold w1; rewrite length_app; simpl; lia).
  rewrite (rk_xor_next w1 (i + 1) 1) by lia. cbn [mbind result_bind].
  set (w2 := w1 ++ [next_word w1]).
  assert (length w2 = 4 * (i + 1) + 2)%nat as L2 by (unfold w2; rewrite length_app; simpl; lia).
  rewrite (rk_xor_next w2 (i + 1) 2) by lia. cbn [mbind result_bind].
  set (w3 := w2 ++ [next_word w2]).
  assert (length w3 = 4 * (i + 1) + 3)%nat as L3 by (unfold w3; rewrite length_app; simpl; lia).
  rewrite (rk_xor_next w3 (i + 1) 3) by lia. cbn [mbind result_bind].
  replace (4 * S fuel)%nat with (S (S (S (S (4 * fuel))))) by lia. cbn [expand drop]. fold w1. fold w2. fold w3.
  destruct (Z.eqb_spec (Z.of_nat i + 1) 10).
  - assert (fuel = 0)%nat as -> by lia. done.
  - replace (4 * Z.of_nat i + 4) with (4 * Z.of_nat (S i)) by lia.
    replace (Z.of_nat i + 1) with (Z.of_nat (S i)) by lia.
    apply IH; [rewrite length_app; simpl; lia|lia..|].
    apply (expand_words 4 w); [done|lia..].
Qed.

(** Lists of known length, element by element. *)
Lemma length_S {A} (l : list A) n : length l = S n → ∃ x k, l = x :: k ∧ length k = n.
Proof. destruct l as [|x k]; [done|]. intros [= <-]. by exists x, k. Qed.

Ltac explode l :=
  repeat match goal with
  | H : length l = O |- _ => apply nil_length_inv in H; subst l
  | H : length l = S _ |- _ =>
      let x := fresh l in let k := fresh "k" in let E := fresh in
      apply length_S in H as (x & k & E & H); subst l; rename k into l
  end.

Lemma load_word_spec ukey rk w y r dst o k :
  rk = w ++ y :: r → GETU32 ukey o = Ok k → dst = Z.of_nat (length w) →
  load_word ukey rk dst o = Ok (w ++ k :: r).
Proof. intros -> Hk ->. unfold load_word. rewrite Hk. simpl. by rewrite aset_app. Qed.

Lemma words_word b : is_block 16 b → Forall is_word (words b).
Proof.
  intros [Hl Hb]. unfold words. rewrite Forall_fmap. apply Forall_forall. intros i Hi.
  apply elem_of_seq in Hi. simpl. apply w4_word; apply (Forall_lookup_total_1 _ _ _ Hb); lia.
Qed.

Lemma key_expansion_words key :
  is_block 16 key → Forall is_word (key_expansion key) ∧ length (key_expansion key) = 44%nat.
Proof.
  intros Hk. unfold key_expansion. split; [|by rewrite expand_length].
  apply expand_words; [by apply words_word|simpl; lia..].
Qed.

Lemma set_encrypt_key_spec key x K :
  is_block 16 key → (44 <= length (rd_key K))%nat →
  aes_set_encrypt_key (Some (key ++ x)) 128 (Some K) =
    Ok (0, Some (Aes_key (key_expansion key ++ drop 44 (rd_key K)) 10)).
Proof.
  intros Hk HK. pose proof (words_word key Hk) as Hw. destruct Hk as [Hlen Hb].
  assert (length key = 16%nat) as Hl by lia. clear Hlen. unfold key_expansion.
  revert Hw. unfold words.
  explode key. destruct (rd_key K) as [|a [|b [|c [|d r]]]] eqn:ER; simpl in HK; try lia.
  cbn [fmap list_fmap seq Nat.mul Nat.add]. cbn [lookup_total list_lookup_total]. intros Hw.
  unfold aes_set_encrypt_key. rewrite ER. cbn [negb andb Z.eqb Pos.eqb].
  erewrite (load_word_spec _ (a :: _) []) by reflexivity. cbn [mbind result_bind app].
  erewrite (load_word_spec _ (_ :: b :: _) [_]) by reflexivity. cbn [mbind result_bind app].
  erewrite (load_word_spec _ (_ :: _ :: c :: _) [_; _]) by reflexivity. cbn [mbind result_bind app].
  erewrite (load_word_spec _ (_ :: _ :: _ :: d :: _) [_; _; _]) by reflexivity. cbn [mbind result_bind app].
  match type of Hw with Forall _ ?l => pose proof (expand128_spec 10 l r 0) as HE end.
  cbn [app] in HE. change (4 * Z.of_nat 0) with 0 in HE. change (Z.of_nat 0) with 0 in HE.
  rewrite HE; [reflexivity|simpl; lia..|exact Hw].
Qed.

(** ** Running the block functions *)

(** The [r]-th round key of a schedule. *)
Definition qk (W : list Z) (r : nat) : quad :=
  (W !!! (4 * r)%nat, W !!! (4 * r + 1)%nat, W !!! (4 * r + 2)%nat, W !!! (4 * r + 3)%nat).

Definition qxor (s k : quad) : quad :=
  let '(a, b, c, d) := s in let '(k0, k1, k2, k3) := k in
  (Z.lxor a k0, Z.lxor b k1, Z.lxor c k2, Z.lxor d k3).

(** The columns of a block. *)
Definition quad_of (b : list Z) : quad := qk (words b) 0.

Definition last_round (T : list Z) (s k : quad) : quad :=
  let '(a, b, c, d) := s in let '(k0, k1, k2, k3) := k in
  (last_word T a b c d k0, last_word T b c d a k1, last_word T c d a b k2, last_word T d a b c k3).

Definition inv_last_round (T : list Z) (s k : quad) : quad :=
  let '(a, b, c, d) := s in let '(k0, k1, k2, k3) := k in
  (last_word T a d c b k0, last_word T b a d c k1, last_word T c b a d k2, last_word T d c b a k3).

Lemma rk4_spec W rest r p :
  p = 4 * Z.of_nat r → (4 * r + 4 <= length W)%nat → rk4 (W ++ rest) p = Ok (qk W r).
Proof.
  intros -> Hr. unfold rk4, qk. rewrite !aget_prefix by lia. cbn [mbind result_bind].
  by replace (Z.to_nat (4 * Z.of_nat r)) with (4 * r)%nat by lia;
    replace (Z.to_nat (4 * Z.of_nat r + 1)) with (4 * r + 1)%nat by lia;
    replace (Z.to_nat (4 * Z.of_nat r + 2)) with (4 * r + 2)%nat by lia;
    replace (Z.to_nat (4 * Z.of_nat r + 3)) with (4 * r + 3)%nat by lia.
Qed.

Lemma rounds_loop_step fuel round W rest i p r s :
  p = 8 * Z.of_nat i → (8 * i + 12 <= length W)%nat →
  rounds_loop (S fuel) round (W ++ rest) p r s =
    if r - 1 =? 0 then Ok (round s (qk W (2 * i + 1)), p + 8)
    else rounds_loop fuel round (W ++ rest) (p + 8) (r - 1)
           (round (round s (qk W (2 * i + 1))) (qk W (2 * i + 2))).
Proof.
  intros -> Hi. cbn [rounds_loop].
  rewrite (rk4_spec W rest (2 * i + 1) (8 * Z.of_nat i + 4)) by lia. cbn [mbind result_bind].
  case_match; [done|]. by rewrite (rk4_spec W rest (2 * i + 2)) by lia.
Qed.

Lemma rounds_loop_spec (round : quad → quad → quad) W rest (s : quad) :
  length W = 44%nat →
  rounds_loop 8 round (W ++ rest) 0 5 s = Ok (foldl (λ (s : quad) r, round s (qk W r)) s (seq 1 9), 40).
Proof.
  intros HW. rewrite (rounds_loop_step _ _ _ _ 0) by (done || lia). simpl (5 - 1).
  rewrite (rounds_loop_step _ _ _ _ 1) by (done || lia). simpl (4 - 1).
  rewrite (rounds_loop_step _ _ _ _ 2) by (done || lia). simpl (3 - 1).
  rewrite (rounds_loop_step _ _ _ _ 3) by (done || lia). simpl (2 - 1).
  rewrite (rounds_loop_step _ _ _ _ 4) by (done || lia). reflexivity.
Qed.

Lemma load_state_spec b x W rest :
  is_block 16 b → (4 <= length W)%nat → load_state (b ++ x) (W ++ rest) = Ok (qxor (quad_of b) (qk W 0)).
Proof.
  intros [Hlen _] HW. assert (length b = 16%nat) as Hl by lia. clear Hlen. explode b.
  unfold load_state. rewrite (rk4_spec W rest 0) by (done || lia). reflexivity.
Qed.

Lemma put_word buf w x0 x1 x2 x3 r o v :
  buf = w ++ x0 :: x1 :: x2 :: x3 :: r → o = Z.of_nat (length w) → is_word v →
  PUTU32 buf o v = Ok ((w ++ bytes_of v) ++ r).
Proof.
  intros -> -> Hv. unfold PUTU32. rewrite aset_app by done. cbn [mbind result_bind].
  assert (∀ n, 0 <= n → u8 (Z.shiftr v n) = Z.land (Z.shiftr v n) 255) as Hu by (intros; by rewrite land_255).
  rewrite (Hu 16), (Hu 8) by lia. replace (u8 v) with (byte3 v) by (unfold byte3, u8; apply land_255).
  replace (u8 (Z.shiftr v 24)) with (byte0 v).
  2:{ unfold u8. symmetry. apply Z.mod_small. by apply (byte0_byte v). }
  rewrite (cons_middle (byte0 v) w). rewrite (app_assoc w [_]).
  rewrite aset_app by (rewrite length_app; simpl; lia). cbn [mbind result_bind].
  rewrite (cons_middle (Z.land (Z.shiftr v 16) 255)), (app_assoc _ [_] (x2 :: _)).
  rewrite aset_app by (rewrite !length_app; simpl; lia). cbn [mbind result_bind].
  rewrite (cons_middle (Z.land (Z.shiftr v 8) 255)), (app_assoc _ [_] (x3 :: _)).
  rewrite aset_app by (rewrite !length_app; simpl; lia). by rewrite <- !app_assoc.
Qed.

Lemma put_quad out pad s0 s1 s2 s3 :
  length out = 16%nat → is_quad (s0, s1, s2, s3) →
  (o ← PUTU32 (out ++ pad) 0 s0; o ← PUTU32 o 4 s1; o ← PUTU32 o 8 s2; o ← PUTU32 o 12 s3; Ok (1, o)) =
    Ok (1, state_bytes (s0, s1, s2, s3) ++ pad).
Proof.
  intros Hl (H0 & H1 & H2 & H3). explode out.
  erewrite (put_word _ []) by (reflexivity || done). cbn [mbind result_bind].
  erewrite (put_word _ (bytes_of s0)) by (reflexivity || done). cbn [mbind result_bind].
  erewrite (put_word _ (bytes_of s0 ++ bytes_of s1)) by (reflexivity || done). cbn [mbind result_bind].
  erewrite (put_word _ ((bytes_of s0 ++ bytes_of s1) ++ bytes_of s2)) by (reflexivity || done).
  cbn [mbind result_bind].
  unfold state_bytes. by rewrite <- !app_assoc.
Qed.

(** ** Encryption *)

Lemma qk_quad W r : Forall is_word W → (4 * r + 4 <= length W)%nat → is_quad (qk W r).
Proof. intros HW Hr. unfold qk. repeat split; apply (is_word_lookup W); done || lia. Qed.

Lemma quad_of_quad b : is_block 16 b → is_quad (quad_of b).
Proof. intros Hb. apply qk_quad; [by apply words_word|done]. Qed.

Lemma qxor_quad s k : is_quad s → is_quad k → is_quad (qxor s k).
Proof.
  destruct s as [[[? ?] ?] ?], k as [[[? ?] ?] ?].
  intros (? & ? & ? & ?) (? & ? & ? & ?). repeat split; by apply lxor_word.
Qed.

Lemma rounds_quad (round : quad → quad → quad) W s rs :
  (∀ s k, is_quad s → is_quad k → is_quad (round s k)) →
  Forall is_word W → is_quad s → (∀ r, r ∈ rs → (4 * r + 4 <= length W)%nat) →
  is_quad (foldl (λ s r, round s (qk W r)) s rs).
Proof.
  intros Hr HW. revert s. induction rs as [|r rs IH]; intros s Hs Hrs; [done|]. simpl.
  apply IH; [|set_solver]. apply Hr; [done|]. apply qk_quad; [done|]. apply Hrs. set_solver.
Qed.

Lemma last_round_Te4 s k :
  is_quad s → is_quad k →
  state_bytes (last_round Te4 s k) =
    add_round_key (shift_rows (sub_bytes (state_bytes s))) (state_bytes k) ∧ is_quad (last_round Te4 s k).
Proof.
  destruct s as [[[s0 s1] s2] s3], k as [[[k0 k1] k2] k3].
  intros (A & B & C & D) (K0 & K1 & K2 & K3). unfold last_round.
  destruct (last_word_Te4 s0 s1 s2 s3 k0) as [E0 W0]; [done..|].
  destruct (last_word_Te4 s1 s2 s3 s0 k1) as [E1 W1]; [done..|].
  destruct (last_word_Te4 s2 s3 s0 s1 k2) as [E2 W2]; [done..|].
  destruct (last_word_Te4 s3 s0 s1 s2 k3) as [E3 W3]; [done..|].
  split; [|done]. unfold sub_bytes. rewrite last_shape. unfold state_bytes. by rewrite E0, E1, E2, E3.
Qed.

(** The state before the last round. *)
Definition middle (round : quad → quad → quad) (W : list Z) (s : quad) : quad :=
  foldl (λ s r, round s (qk W r)) (qxor s (qk W 0)) (seq 1 9).

Lemma middle_quad (round : quad → quad → quad) W s :
  (∀ s k, is_quad s → is_quad k → is_quad (round s k)) → Forall is_word W → length W = 44%nat →
  is_quad s → is_quad (middle round W s).
Proof.
  intros Hr HW Hl Hs. apply rounds_quad; [done..| |].
  - apply qxor_quad; [done|]. apply qk_quad; [done|lia].
  - intros r Hr'. apply elem_of_seq in Hr'. lia.
Qed.

Lemma rounds_loop_middle (round : quad → quad → quad) W rest s :
  length W = 44%nat → rounds_loop 8 round (W ++ rest) 0 5 (qxor s (qk W 0)) = Ok (middle round W s, 40).
Proof. intros HW. unfold middle. by apply rounds_loop_spec. Qed.

Lemma aes_encrypt_run K ctx W rest' b rest out pad :
  aes_set_encrypt_key (Some ctx) 128 (Some K) = Ok (0, Some (Aes_key (W ++ rest') 10)) →
  Forall is_word W → length W = 44%nat → is_block 16 b → length out = 16%nat →
  aes_encrypt K ctx (b ++ rest) (out ++ pad) =
    Ok (1, state_bytes (last_round Te4 (middle te_round W (quad_of b)) (qk W 10)) ++ pad).
Proof.
  intros E HW HL Hb Ho. unfold aes_encrypt. change (AES_KEY_SIZE * 8) with 128. rewrite E. cbn [mbind result_bind].
  change (0 <? 0) with false. cbn [from_option_or mbind result_bind rd_key rounds].
  rewrite load_state_spec by (done || lia). cbn [mbind result_bind].
  change (Z.shiftr 10 1) with 5. rewrite rounds_loop_middle by done. cbn [mbind result_bind].
  pose proof (middle_quad te_round W (quad_of b) (λ s k Hs Hk, proj2 (te_round_spec s k Hs Hk)) HW HL
    (quad_of_quad b Hb)) as Hm.
  destruct (middle te_round W (quad_of b)) as [[[t0 t1] t2] t3].
  rewrite (rk4_spec W _ 10) by (done || lia). cbn [mbind result_bind].
  pose proof (qk_quad W 10 HW ltac:(lia)) as Hq. destruct (qk W 10) as [[[k0 k1] k2] k3].
  apply put_quad; [done|]. apply (proj2 (last_round_Te4 (t0, t1, t2, t3) (k0, k1, k2, k3) Hm Hq)).
Qed.

Lemma state_bytes_quad_of b : is_block 16 b → state_bytes (quad_of b) = b.
Proof.
  intros [Hlen Hb]. assert (length b = 16%nat) as Hl by lia. clear Hlen.
  explode b. rewrite !Forall_cons in Hb. destruct_and! Hb.
  unfold quad_of, qk, words, state_bytes. cbn [fmap list_fmap seq Nat.mul Nat.add].
  cbn [lookup_total list_lookup_total]. by rewrite !bytes_w4 by done.
Qed.

Lemma state_bytes_qxor s k :
  is_quad s → is_quad k → state_bytes (qxor s k) = add_round_key (state_bytes s) (state_bytes k).
Proof.
  destruct s as [[[s0 s1] s2] s3], k as [[[k0 k1] k2] k3].
  intros (A & B & C & D) (K0 & K1 & K2 & K3). unfold qxor, state_bytes, add_round_key.
  assert (∀ a b, is_word a → is_word b → bytes_of (Z.lxor a b) = zip_with Z.lxor (bytes_of a) (bytes_of b)) as Hx.
  { intros a b Ha Hb. rewrite (word_w4 a Ha), (word_w4 b Hb) at 1. rewrite w4_lxor. apply bytes_w4; in_bytes. }
  rewrite !Hx by done. reflexivity.
Qed.

Lemma round_key_qk W r : (4 * r + 4 <= length W)%nat → round_key W r = state_bytes (qk W r).
Proof.
  intros Hr. unfold round_key, qk, state_bytes.
  assert (∀ i, (i < length W)%nat → drop i W = (W !!! i) :: drop (S i) W) as Hd.
  { intros i Hi. apply drop_S. by apply list_lookup_lookup_total_lt. }
  rewrite (Hd (4 * r)%nat), (Hd (S (4 * r))), (Hd (S (S (4 * r)))), (Hd (S (S (S (4 * r))))) by lia.
  replace (4 * r + 1)%nat with (S (4 * r)) by lia. replace (4 * r + 2)%nat with (S (S (4 * r))) by lia.
  by replace (4 * r + 3)%nat with (S (S (S (4 * r)))) by lia.
Qed.

Lemma rounds_are_cipher_rounds W rs s :
  Forall is_word W → is_quad s → (∀ r, r ∈ rs → (4 * r + 4 <= length W)%nat) →
  state_bytes (foldl (λ s r, te_round s (qk W r)) s rs) = foldl (round W) (state_bytes s) rs.
Proof.
  intros HW. revert s. induction rs as [|r rs IH]; intros s Hs Hrs; [done|].
  assert (4 * r + 4 <= length W)%nat as Hlen by (apply Hrs; by left). cbn [foldl].
  assert (is_quad (qk W r)) as Hr by (by apply qk_quad).
  destruct (te_round_spec s (qk W r) Hs Hr) as [E Hq].
  rewrite IH; [|exact Hq|intros r' Hr'; apply Hrs; by right].
  rewrite E. unfold round at 3. by rewrite round_key_qk.
Qed.

(** The block that the code computes is the standard's. *)
Lemma encrypt_is_cipher key b :
  is_block 16 key → is_block 16 b →
  state_bytes (last_round Te4 (middle te_round (key_expansion key) (quad_of b)) (qk (key_expansion key) 10)) =
    cipher key b.
Proof.
  intros Hk Hb. unfold cipher. destruct (key_expansion_words key Hk) as [HW HL]. revert HW HL.
  generalize (key_expansion key). intros W HW HL.
  pose proof (middle_quad te_round W (quad_of b) (λ s k Hs Hk, proj2 (te_round_spec s k Hs Hk)) HW HL
    (quad_of_quad b Hb)) as Hm.
  rewrite (proj1 (last_round_Te4 _ _ Hm (qk_quad W 10 HW ltac:(lia)))). rewrite <- round_key_qk by lia.
  do 3 f_equal. unfold middle. rewrite (round_key_qk W 0) by lia.
  rewrite <- (state_bytes_quad_of b Hb) at 2.
  assert (is_quad (qk W 0)) as H0 by (apply qk_quad; [done|lia]).
  rewrite <- (state_bytes_qxor _ _ (quad_of_quad b Hb) H0).
  assert (is_quad (qxor (quad_of b) (qk W 0))) as Hq.
  { apply qxor_quad; [by apply quad_of_quad|]. apply qk_quad; [done|lia]. }
  assert (∀ r, r ∈ seq 1 9 → (4 * r + 4 <= length W)%nat) as Hrs by (intros r Hr; apply elem_of_seq in Hr; lia).
  by apply rounds_are_cipher_rounds.
Qed.

(** ** Decryption *)

(** A map of bytes given by its values on the powers of two. *)
Fixpoint lin (basis : list Z) (x : Z) : Z :=
  match basis with
  | [] => 0
  | b :: basis => Z.lxor (if Z.odd x then b else 0) (lin basis (Z.shiftr x 1))
  end.

Lemma lin_lxor basis x y : lin basis (Z.lxor x y) = Z.lxor (lin basis x) (lin basis y).
Proof.
  revert x y. induction basis as [|b basis IH]; intros x y; [done|]. cbn [lin]. rewrite Z.shiftr_lxor, IH.
  rewrite <- !Z.bit0_odd, Z.lxor_spec. generalize (lin basis (Z.shiftr x 1)), (lin basis (Z.shiftr y 1)).
  intros u v. apply Z.bits_inj'. intros i Hi.
  destruct (Z.testbit x 0), (Z.testbit y 0); simpl; rewrite !Z.lxor_spec, ?Z.bits_0;
    destruct (Z.testbit b i), (Z.testbit u i), (Z.testbit v i); done.
Qed.

Definition inv_basis (T : list Z) : list Z :=
  (λ i, tab T (Z.land (tab Te4 (2 ^ i)) 255)) <$> seqZ 0 8.

Definition inv_bases : list Z * list Z * list Z * list Z :=
  Eval vm_compute in (inv_basis Td0, inv_basis Td1, inv_basis Td2, inv_basis Td3).

Lemma Td0_lin : ∀ x, is_byte x → tab Td0 (Z.land (tab Te4 x) 255) = lin inv_bases.1.1.1 x.
Proof. check_bytes. Qed.
Lemma Td1_lin : ∀ x, is_byte x → tab Td1 (Z.land (tab Te4 x) 255) = lin inv_bases.1.1.2 x.
Proof. check_bytes. Qed.
Lemma Td2_lin : ∀ x, is_byte x → tab Td2 (Z.land (tab Te4 x) 255) = lin inv_bases.1.2 x.
Proof. check_bytes. Qed.
Lemma Td3_lin : ∀ x, is_byte x → tab Td3 (Z.land (tab Te4 x) 255) = lin inv_bases.2 x.
Proof. check_bytes. Qed.

Lemma inv_mix_w4 a b c d :
  is_byte a → is_byte b → is_byte c → is_byte d →
  inv_mix_word (w4 a b c d) =
    Z.lxor (Z.lxor (Z.lxor (lin inv_bases.1.1.1 a) (lin inv_bases.1.1.2 b)) (lin inv_bases.1.2 c)) (lin inv_bases.2 d).
Proof.
  intros Ha Hb Hc Hd. unfold inv_mix_word.
  destruct (w4_bytes a b c d) as (-> & -> & -> & ->); [done..|]. by rewrite Td0_lin, Td1_lin, Td2_lin, Td3_lin.
Qed.

(** The inverse MixColumn transform is linear. *)
Lemma inv_mix_lxor v w :
  is_word v → is_word w → inv_mix_word (Z.lxor v w) = Z.lxor (inv_mix_word v) (inv_mix_word w).
Proof.
  intros Hv Hw. pattern v. revert v Hv. apply word_ind. intros a b c d Ha Hb Hc Hd.
  pattern w. revert w Hw. apply word_ind. intros a' b' c' d' Ha' Hb' Hc' Hd'.
  rewrite w4_lxor, !inv_mix_w4, !lin_lxor by in_bytes. apply Z.bits_inj'. intros i Hi. rewrite !Z.lxor_spec.
  repeat match goal with |- context [Z.testbit ?x i] => destruct (Z.testbit x i) end; done.
Qed.

(** It undoes MixColumns on each table. *)
Lemma inv_mix_Te0 : ∀ x, is_byte x → inv_mix_word (tab Te0 x) = w4 (tab sbox_table x) 0 0 0.
Proof. check_bytes. Qed.
Lemma inv_mix_Te1 : ∀ x, is_byte x → inv_mix_word (tab Te1 x) = w4 0 (tab sbox_table x) 0 0.
Proof. check_bytes. Qed.
Lemma inv_mix_Te2 : ∀ x, is_byte x → inv_mix_word (tab Te2 x) = w4 0 0 (tab sbox_table x) 0.
Proof. check_bytes. Qed.
Lemma inv_mix_Te3 : ∀ x, is_byte x → inv_mix_word (tab Te3 x) = w4 0 0 0 (tab sbox_table x).
Proof. check_bytes. Qed.
Lemma Te4_low : ∀ x, is_byte x → Z.land (tab Te4 x) 255 = tab sbox_table x.
Proof. check_bytes. Qed.
Lemma Td4_sbox : ∀ x, is_byte x → tab Td4 (tab sbox_table x) = w4 x x x x.
Proof. check_bytes. Qed.

Lemma table_words x :
  is_byte x → is_word (tab Te0 x) ∧ is_word (tab Te1 x) ∧ is_word (tab Te2 x) ∧ is_word (tab Te3 x).
Proof.
  intros Hx. rewrite Te0_spec, Te1_spec, Te2_spec, Te3_spec by done. rewrite <- sbox_eq by done.
  split_and!; in_bytes.
Qed.

(** The substituted bytes of four words, as in a shifted column. *)
Definition sub_shift_word (a b c d : Z) : Z :=
  w4 (sbox (byte0 a)) (sbox (byte1 b)) (sbox (byte2 c)) (sbox (byte3 d)).

Lemma inv_mix_te a b c d k :
  is_word a → is_word b → is_word c → is_word d → is_word k →
  inv_mix_word (te a b c d k) = Z.lxor (sub_shift_word a b c d) (inv_mix_word k).
Proof.
  intros Ha Hb Hc Hd Hk. unfold te.
  destruct (table_words (byte0 a)) as (T0 & _); [in_bytes|].
  destruct (table_words (byte1 b)) as (_ & T1 & _); [in_bytes|].
  destruct (table_words (byte2 c)) as (_ & _ & T2 & _); [in_bytes|].
  destruct (table_words (byte3 d)) as (_ & _ & _ & T3); [in_bytes|].
  rewrite !inv_mix_lxor by in_bytes.
  rewrite inv_mix_Te0, inv_mix_Te1, inv_mix_Te2, inv_mix_Te3 by in_bytes. rewrite <- !sbox_eq by in_bytes.
  by rewrite !w4_lxor, !Z.lxor_0_l, !Z.lxor_0_r.
Qed.

Definition sub_shift (s : quad) : quad :=
  let '(a, b, c, d) := s in
  (sub_shift_word a b c d, sub_shift_word b c d a, sub_shift_word c d a b, sub_shift_word d a b c).

Definition qmap (f : Z → Z) (s : quad) : quad := let '(a, b, c, d) := s in (f a, f b, f c, f d).

Lemma sub_shift_bytes a b c d :
  is_word a →
  byte0 (sub_shift_word a b c d) = sbox (byte0 a) ∧ byte1 (sub_shift_word a b c d) = sbox (byte1 b) ∧
  byte2 (sub_shift_word a b c d) = sbox (byte2 c) ∧ byte3 (sub_shift_word a b c d) = sbox (byte3 d).
Proof. intros Ha. apply w4_bytes; in_bytes. Qed.

(** A decryption round on a substituted and shifted state. *)
Lemma td_sub_shift a b c d p q r s u v w x y k :
  is_word a → is_word b → is_word c → is_word d →
  td (sub_shift_word a p q r) (sub_shift_word b a s u) (sub_shift_word c v a w) (sub_shift_word d x y a) k =
    Z.lxor (inv_mix_word a) k.
Proof.
  intros Ha Hb Hc Hd. unfold td, inv_mix_word.
  destruct (sub_shift_bytes a p q r Ha) as (-> & _). destruct (sub_shift_bytes b a s u Hb) as (_ & -> & _).
  destruct (sub_shift_bytes c v a w Hc) as (_ & _ & -> & _). destruct (sub_shift_bytes d x y a Hd) as (_ & _ & _ & ->).
  rewrite !Te4_low by in_bytes. by rewrite <- !sbox_eq by in_bytes.
Qed.

(** A decryption round undoes an encryption round. *)
Lemma td_round_te_round s k :
  is_quad s → is_quad k → td_round (sub_shift (te_round s k)) (qmap inv_mix_word k) = sub_shift s.
Proof.
  intros Hs Hk. pose proof (proj2 (te_round_spec s k Hs Hk)) as Ht.
  destruct s as [[[s0 s1] s2] s3], k as [[[k0 k1] k2] k3].
  destruct Hs as (A & B & C & D), Hk as (K0 & K1 & K2 & K3). unfold te_round in *.
  set (t0 := te s0 s1 s2 s3 k0) in *. set (t1 := te s1 s2 s3 s0 k1) in *.
  set (t2 := te s2 s3 s0 s1 k2) in *. set (t3 := te s3 s0 s1 s2 k3) in *.
  destruct Ht as (T0 & T1 & T2 & T3). unfold td_round, sub_shift, qmap. rewrite !td_sub_shift by done.
  unfold t0, t1, t2, t3. rewrite !inv_mix_te by done. by rewrite !lxor_cancel.
Qed.

(** The last rounds. *)
Lemma last_round_sub_shift s k : is_quad s → is_quad k → last_round Te4 s k = qxor (sub_shift s) k.
Proof.
  destruct s as [[[s0 s1] s2] s3], k as [[[k0 k1] k2] k3].
  intros (A & B & C & D) (K0 & K1 & K2 & K3). unfold last_round, qxor, sub_shift.
  assert (∀ a b c d k, is_word a → last_word Te4 a b c d k = Z.lxor (sub_shift_word a b c d) k) as Hl; [|by rewrite !Hl].
  clear. intros a b c d k Ha. unfold last_word. rewrite !Te4_spec by in_bytes. rewrite <- !sbox_eq by in_bytes.
  by rewrite masked_bytes by in_bytes.
Qed.

Lemma inv_last_round_sub_shift s k : is_quad s → inv_last_round Td4 (sub_shift s) k = qxor s k.
Proof.
  destruct s as [[[s0 s1] s2] s3], k as [[[k0 k1] k2] k3].
  intros (A & B & C & D). unfold inv_last_round, qxor, sub_shift.
  assert (∀ a b c d p q r s u v w x y k, is_word a → is_word b → is_word c → is_word d →
    last_word Td4 (sub_shift_word a p q r) (sub_shift_word b a s u) (sub_shift_word c v a w)
      (sub_shift_word d x y a) k = Z.lxor a k) as Hl; [|by rewrite !Hl].
  clear. intros a b c d p q r s u v w x y k Ha Hb Hc Hd. unfold last_word.
  destruct (sub_shift_bytes a p q r Ha) as (-> & _). destruct (sub_shift_bytes b a s u Hb) as (_ & -> & _).
  destruct (sub_shift_bytes c v a w Hc) as (_ & _ & -> & _). destruct (sub_shift_bytes d x y a Hd) as (_ & _ & _ & ->).
  rewrite !sbox_eq, !Td4_sbox by in_bytes. rewrite masked_bytes by in_bytes. by rewrite <- word_w4.
Qed.

(** The decryption schedule. *)
#[local] Opaque inv_mix_word.

Definition quad_list (q : quad) : list Z := let '(a, b, c, d) := q in [a; b; c; d].

Definition dec_key (W : list Z) (r : nat) : quad :=
  if ((r =? 0) || (r =? 10))%nat%bool then qk W (10 - r) else qmap inv_mix_word (qk W (10 - r)).

Definition dec_schedule (W : list Z) : list Z := seq 0 11 ≫= λ r, quad_list (dec_key W r).

Lemma aget_frame {A} (l r : list A) i x : aget l i = Ok x → aget (l ++ r) i = Ok x.
Proof.
  unfold aget. case_match; [|done]. destruct (l !! _) as [y|] eqn:E; [|done]. intros [= ->].
  by rewrite (lookup_app_l_Some _ _ _ _ E).
Qed.

Lemma aset_frame {A} (l r : list A) i v l' : aset l i v = Ok l' → aset (l ++ r) i v = Ok (l' ++ r).
Proof.
  unfold aset. case_match; [|done]. intros [= <-]. rewrite length_app.
  assert (((0 <=? i) && (i <? Z.of_nat (length l + length r)))%bool = true) as -> by lia.
  by rewrite insert_app_l by lia.
Qed.

Lemma swap_word_frame W r i j W' : swap_word W i j = Ok W' → swap_word (W ++ r) i j = Ok (W' ++ r).
Proof.
  unfold swap_word. intros (x & Ex & E)%result_bind_inv. apply result_bind_inv in E as (y & Ey & E).
  apply result_bind_inv in E as (W1 & E1 & E).
  rewrite (aget_frame _ _ _ _ Ex), result_bind_Ok, (aget_frame _ _ _ _ Ey), result_bind_Ok,
    (aset_frame _ _ _ _ _ E1), result_bind_Ok. by apply aset_frame.
Qed.

Lemma invert_loop_frame fuel W r i j W' :
  invert_loop fuel W i j = Ok W' → invert_loop fuel (W ++ r) i j = Ok (W' ++ r).
Proof.
  revert W i j. induction fuel as [|fuel IH]; intros W i j; [done|]. cbn [invert_loop].
  case_match; [|by intros [= <-]]. intros (W1 & E1 & E)%result_bind_inv.
  apply result_bind_inv in E as (W2 & E2 & E). apply result_bind_inv in E as (W3 & E3 & E).
  apply result_bind_inv in E as (W4 & E4 & E).
  rewrite (swap_word_frame _ _ _ _ _ E1), result_bind_Ok, (swap_word_frame _ _ _ _ _ E2), result_bind_Ok,
    (swap_word_frame _ _ _ _ _ E3), result_bind_Ok, (swap_word_frame _ _ _ _ _ E4), result_bind_Ok.
  by apply IH.
Qed.

Lemma inv_mix_at_frame W r i W' : inv_mix_at W i = Ok W' → inv_mix_at (W ++ r) i = Ok (W' ++ r).
Proof.
  unfold inv_mix_at. intros (x & Ex & E)%result_bind_inv.
  rewrite (aget_frame _ _ _ _ Ex), result_bind_Ok. by apply aset_frame.
Qed.

Lemma inv_mix_loop_frame fuel W r p i nr W' :
  inv_mix_loop fuel W p i nr = Ok W' → inv_mix_loop fuel (W ++ r) p i nr = Ok (W' ++ r).
Proof.
  revert W p i. induction fuel as [|fuel IH]; intros W p i; [done|]. cbn [inv_mix_loop].
  case_match; [|by intros [= <-]]. intros (W1 & E1 & E)%result_bind_inv.
  apply result_bind_inv in E as (W2 & E2 & E). apply result_bind_inv in E as (W3 & E3 & E).
  apply result_bind_inv in E as (W4 & E4 & E).
  rewrite (inv_mix_at_frame _ _ _ _ E1), result_bind_Ok, (inv_mix_at_frame _ _ _ _ E2), result_bind_Ok,
    (inv_mix_at_frame _ _ _ _ E3), result_bind_Ok, (inv_mix_at_frame _ _ _ _ E4), result_bind_Ok.
  by apply IH.
Qed.

Lemma dec_schedule_spec W :
  length W = 44%nat →
  ∃ W', invert_loop 15 W 0 40 = Ok W' ∧ inv_mix_loop 15 W' 0 1 10 = Ok (dec_schedule W).
Proof. intros HW. explode W. eexists. split; reflexivity. Qed.

Lemma qk_dec_schedule W r : (r <= 10)%nat → qk (dec_schedule W) r = dec_key W r.
Proof.
  intros Hr. do 11 (destruct r as [|r]; [unfold dec_schedule, dec_key, qk; reflexivity|]). lia.
Qed.

Lemma dec_schedule_length W : length (dec_schedule W) = 44%nat.
Proof. reflexivity. Qed.

Lemma tab_word T : forallb (λ x, bool_decide (is_word (tab T x))) all_bytes = true → ∀ x, is_byte x → is_word (tab T x).
Proof. intros HT x Hx. apply (byte_check _ HT) in Hx. by apply bool_decide_eq_true in Hx. Qed.

Lemma Td_words x :
  is_byte x → is_word (tab Td0 x) ∧ is_word (tab Td1 x) ∧ is_word (tab Td2 x) ∧ is_word (tab Td3 x) ∧
  is_word (tab Td4 x).
Proof. intros Hx. split_and!; revert x Hx; apply tab_word; by vm_compute. Qed.

Lemma inv_mix_word_word w : is_word w → is_word (inv_mix_word w).
Proof.
  intros Hw. with_strategy transparent [inv_mix_word] unfold inv_mix_word.
  repeat apply lxor_word; apply Td_words, land_255_byte.
Qed.

Lemma td_round_quad s k : is_quad s → is_quad k → is_quad (td_round s k).
Proof.
  destruct s as [[[s0 s1] s2] s3], k as [[[k0 k1] k2] k3].
  intros (A & B & C & D) (K0 & K1 & K2 & K3). unfold td_round, td, is_quad.
  split_and!; repeat apply lxor_word; try assumption; apply Td_words; in_bytes.
Qed.

Lemma inv_last_round_quad s k : is_quad s → is_quad k → is_quad (inv_last_round Td4 s k).
Proof.
  destruct s as [[[s0 s1] s2] s3], k as [[[k0 k1] k2] k3].
  intros (A & B & C & D) (K0 & K1 & K2 & K3). unfold inv_last_round, last_word, is_quad.
  split_and!; repeat apply lxor_word; try assumption; apply (land_bound 32); try lia; apply Td_words; in_bytes.
Qed.

Lemma qmap_quad f s : (∀ w, is_word w → is_word (f w)) → is_quad s → is_quad (qmap f s).
Proof. destruct s as [[[? ?] ?] ?]. intros Hf (? & ? & ? & ?). unfold qmap, is_quad. auto 6. Qed.

Lemma dec_schedule_words W : Forall is_word W → length W = 44%nat → Forall is_word (dec_schedule W).
Proof.
  intros HW Hl. unfold dec_schedule. apply Forall_bind, Forall_forall. intros r Hr. apply elem_of_seq in Hr.
  assert (is_quad (dec_key W r)) as Hq.
  { unfold dec_key. case_match; [|apply qmap_quad; [apply inv_mix_word_word|]]; apply qk_quad; done || lia. }
  simpl. destruct (dec_key W r) as [[[? ?] ?] ?]. destruct Hq as (? & ? & ? & ?).
  cbn [quad_list]. by rewrite !Forall_cons.
Qed.

Lemma set_decrypt_key_spec key x K :
  is_block 16 key → (44 <= length (rd_key K))%nat →
  aes_set_decrypt_key (Some (key ++ x)) 128 (Some K) =
    Ok (0, Some (Aes_key (dec_schedule (key_expansion key) ++ drop 44 (rd_key K)) 10)).
Proof.
  intros Hk HK. unfold aes_set_decrypt_key. rewrite set_encrypt_key_spec by done. rewrite result_bind_Ok.
  change (0 <? 0) with false. cbn [rd_key rounds]. change (4 * 10) with 40.
  destruct (key_expansion_words key Hk) as [_ HL]. revert HL. generalize (key_expansion key). intros W HL.
  destruct (dec_schedule_spec W HL) as (W' & E1 & E2).
  by rewrite (invert_loop_frame _ _ _ _ _ _ E1), result_bind_Ok, (inv_mix_loop_frame _ _ _ _ _ _ _ E2), result_bind_Ok.
Qed.

Lemma aes_decrypt_run K ctx W rest' b rest out pad :
  aes_set_decrypt_key (Some ctx) 128 (Some K) = Ok (0, Some (Aes_key (W ++ rest') 10)) →
  Forall is_word W → length W = 44%nat → is_block 16 b → length out = 16%nat →
  aes_decrypt K ctx (b ++ rest) (out ++ pad) =
    Ok (1, state_bytes (inv_last_round Td4 (middle td_round W (quad_of b)) (qk W 10)) ++ pad).
Proof.
  intros E HW HL Hb Ho. unfold aes_decrypt. change (AES_KEY_SIZE * 8) with 128. rewrite E. cbn [mbind result_bind].
  change (0 <? 0) with false. cbn [from_option_or mbind result_bind rd_key rounds].
  rewrite load_state_spec by (done || lia). cbn [mbind result_bind].
  change (Z.shiftr 10 1) with 5. rewrite rounds_loop_middle by done. cbn [mbind result_bind].
  pose proof (middle_quad td_round W (quad_of b) td_round_quad HW HL (quad_of_quad b Hb)) as Hm.
  destruct (middle td_round W (quad_of b)) as [[[t0 t1] t2] t3].
  rewrite (rk4_spec W _ 10) by (done || lia). cbn [mbind result_bind].
  pose proof (qk_quad W 10 HW ltac:(lia)) as Hq. destruct (qk W 10) as [[[k0 k1] k2] k3].
  apply put_quad; [done|]. apply (inv_last_round_quad (t0, t1, t2, t3) (k0, k1, k2, k3) Hm Hq).
Qed.

(** ** Decryption undoes encryption *)

(** The state after [m] rounds of encryption. *)
Definition enc_state (W : list Z) (s : quad) (m : nat) : quad :=
  foldl (λ s r, te_round s (qk W r)) s (seq 1 m).

Lemma enc_state_S W s m : enc_state W s (S m) = te_round (enc_state W s m) (qk W (S m)).
Proof. unfold enc_state. rewrite seq_S, foldl_app. done. Qed.

Lemma enc_state_quad W s m :
  Forall is_word W → length W = 44%nat → is_quad s → (m <= 9)%nat → is_quad (enc_state W s m).
Proof.
  intros HW HL Hs Hm. unfold enc_state. apply rounds_quad; [|done..|].
  - intros s' k Hs' Hk. by apply te_round_spec.
  - intros r Hr. apply elem_of_seq in Hr. lia.
Qed.

Lemma dec_rounds W s n :
  Forall is_word W → length W = 44%nat → is_quad s → (n <= 9)%nat →
  foldl (λ s r, td_round s (qk (dec_schedule W) r)) (sub_shift (enc_state W s 9)) (seq 1 n) =
    sub_shift (enc_state W s (9 - n)).
Proof.
  intros HW HL Hs. induction n as [|n IH]; intros Hn; [done|].
  rewrite seq_S, foldl_app, IH by lia. cbn [foldl]. rewrite qk_dec_schedule by lia.
  unfold dec_key. replace (((1 + n =? 0) || (1 + n =? 10))%nat) with false.
  2:{ symmetry. apply orb_false_iff. split; apply Nat.eqb_neq; lia. }
  replace (9 - n)%nat with (S (9 - S n)) by lia. rewrite enc_state_S.
  replace (10 - (1 + n))%nat with (S (9 - S n)) by lia.
  apply td_round_te_round; [apply enc_state_quad; done || lia|]. apply qk_quad; [done|lia].
Qed.

Lemma qxor_cancel s k : qxor (qxor s k) k = s.
Proof. destruct s as [[[? ?] ?] ?], k as [[[? ?] ?] ?]. unfold qxor. by rewrite !lxor_cancel. Qed.

Lemma quad_of_state_bytes s : is_quad s → quad_of (state_bytes s) = s ∧ is_block 16 (state_bytes s).
Proof.
  destruct s as [[[a b] c] d]. intros (Ha & Hb & Hc & Hd). split.
  - unfold quad_of, qk, words, state_bytes, bytes_of. cbn [app fmap list_fmap seq Nat.mul Nat.add].
    cbn [lookup_total list_lookup_total]. by rewrite <- !word_w4.
  - split; [done|]. unfold state_bytes, bytes_of. cbn [app]. rewrite !Forall_cons. split_and!; in_bytes. by apply Forall_nil.
Qed.

Lemma decrypt_encrypt_quads W s :
  Forall is_word W → length W = 44%nat → is_quad s →
  inv_last_round Td4 (middle td_round (dec_schedule W) (last_round Te4 (middle te_round W s) (qk W 10)))
    (qk (dec_schedule W) 10) = s.
Proof.
  intros HW HL Hs. assert (is_quad (qxor s (qk W 0))) as H0.
  { apply qxor_quad; [done|]. apply qk_quad; [done|lia]. }
  assert (is_quad (qk W 10)) as H10 by (apply qk_quad; [done|lia]).
  change (middle te_round W s) with (enc_state W (qxor s (qk W 0)) 9).
  rewrite last_round_sub_shift by (done || apply enc_state_quad; done || lia).
  unfold middle. rewrite !qk_dec_schedule by lia.
  change (dec_key W 0) with (qk W 10). change (dec_key W 10) with (qk W 0). rewrite qxor_cancel.
  rewrite dec_rounds by (done || lia). change (enc_state W ?s (9 - 9)) with s.
  rewrite inv_last_round_sub_shift by done. by rewrite qxor_cancel.
Qed.

#[local] Opaque key_expansion dec_schedule middle last_round inv_last_round.

(** ** The context *)

(** The first [m] bytes of a key that is repeated as often as needed. *)
Definition repeated (key : list Z) (m : nat) : list Z := (λ j, key !!! (j mod length key)%nat) <$> seq 0 m.

Lemma init_loop_spec fuel key r i n :
  n = Z.of_nat (length key) → 0 < n < CIPHERS_MAX_KEY_SIZE →
  (i + length r = 20)%nat → (length r < fuel)%nat →
  init_loop fuel (repeated key i ++ r) key n (Z.of_nat i) = Ok (repeated key 20).
Proof.
  intros Hn Hpos. revert r i. unfold CIPHERS_MAX_KEY_SIZE in *.
  induction fuel as [|fuel IH]; intros r i Hi Hf; [lia|]. cbn [init_loop]. unfold CIPHERS_MAX_KEY_SIZE.
  assert (length (repeated key i) = i) as Hl by (unfold repeated; by rewrite length_fmap, length_seq).
  destruct r as [|x r]; simpl in Hi.
  - replace (Z.of_nat i <? 20) with false by lia. rewrite app_nil_r. do 2 f_equal. lia.
  - replace (Z.of_nat i <? 20) with true by lia. replace (n <? 20) with true by lia.
    replace (n =? 0) with false by lia.
    rewrite (aget_Some key _ (key !!! (i mod length key)%nat)).
    2:{ apply Z.mod_pos_bound. lia. }
    2:{ replace (Z.to_nat (Z.of_nat i mod n)) with (i mod length key)%nat.
        - apply list_lookup_lookup_total_lt. apply Nat.mod_upper_bound. lia.
        - subst n. rewrite <- Nat2Z.inj_mod. lia. }
    rewrite result_bind_Ok, aset_app, result_bind_Ok by lia.
    replace (Z.of_nat i + 1) with (Z.of_nat (S i)) by lia.
    rewrite <- (IH r (S i)) by (simpl in *; lia). f_equal.
    unfold repeated. rewrite seq_S, fmap_app, <- app_assoc. done.
Qed.

Lemma repeated_bytes key m : (0 < length key)%nat → Forall is_byte key → Forall is_byte (repeated key m).
Proof.
  intros Hl Hk. unfold repeated. rewrite Forall_fmap. apply Forall_forall. intros j _. simpl.
  apply (Forall_lookup_total_1 _ _ _ Hk). apply Nat.mod_upper_bound. lia.
Qed.

Lemma repeated_full key : length key = 16%nat → repeated key 20 = key ++ take 4 key.
Proof. intros Hl. explode key. reflexivity. Qed.

Definition aes_ready (ctx : list Z) : Prop := length ctx = 20%nat ∧ Forall is_byte ctx.

Lemma aes_ready_key ctx : aes_ready ctx → is_block 16 (take 16 ctx).
Proof. intros [Hl Hb]. split; [rewrite length_take; lia|by apply Forall_take]. Qed.

Definition aes_dec (ctx b : list Z) : list Z :=
  let W := dec_schedule (key_expansion (take 16 ctx)) in
  state_bytes (inv_last_round Td4 (middle td_round W (quad_of b)) (qk W 10)).

Lemma aes_init_spec ctx key n :
  Z.of_nat (length ctx) = CIPHER_MAX_CONTEXT_SIZE → is_block n key → 0 < n <= AES_KEY_SIZE →
  aes_init ctx key n = Ok (CIPHER_INIT_SUCCESS, repeated key 20) ∧ aes_ready (repeated key 20).
Proof.
  unfold CIPHER_MAX_CONTEXT_SIZE, AES_KEY_SIZE. intros Hc [Hn Hb] Hpos. split.
  - unfold aes_init. change (CIPHER_MAX_CONTEXT_SIZE <? AES_KEY_SIZE) with false.
    unfold CIPHERS_MAX_KEY_SIZE in Hc.
    change (init_loop 21 ctx key n 0) with (init_loop 21 (repeated key 0 ++ ctx) key n (Z.of_nat 0)).
    rewrite init_loop_spec; [done|lia| |lia|lia]. unfold CIPHERS_MAX_KEY_SIZE. lia.
  - split; [unfold repeated; by rewrite length_fmap, length_seq|]. apply repeated_bytes; [lia|done].
Qed.

Lemma cipher_quads ctx b :
  aes_ready ctx → is_block 16 b →
  ∃ s, is_quad s ∧ cipher (take 16 ctx) b = state_bytes s ∧
    s = last_round Te4 (middle te_round (key_expansion (take 16 ctx)) (quad_of b)) (qk (key_expansion (take 16 ctx)) 10).
Proof.
  intros Hc Hb. pose proof (aes_ready_key ctx Hc) as Hk. destruct (key_expansion_words _ Hk) as [HW HL].
  eexists. split; [|split; [symmetry; by apply encrypt_is_cipher|reflexivity]].
  pose proof (middle_quad te_round _ (quad_of b) (λ s k Hs Hk, proj2 (te_round_spec s k Hs Hk)) HW HL
    (quad_of_quad b Hb)) as Hm.
  exact (proj2 (last_round_Te4 _ _ Hm (qk_quad _ 10 HW ltac:(lia)))).
Qed.

Lemma aes_dec_cipher ctx b : aes_ready ctx → is_block 16 b → aes_dec ctx (cipher (take 16 ctx) b) = b.
Proof.
  intros Hc Hb. destruct (cipher_quads ctx b Hc Hb) as (s & Hs & E & Es).
  destruct (key_expansion_words _ (aes_ready_key ctx Hc)) as [HW HL].
  unfold aes_dec. rewrite E, (proj1 (quad_of_state_bytes s Hs)), Es.
  rewrite (decrypt_encrypt_quads _ _ HW HL (quad_of_quad b Hb)). by apply state_bytes_quad_of.
Qed.

Section Instance.
Context (K : AES_KEY) (HK : length (rd_key K) = 60%nat).

Lemma aes_encrypt_spec ctx b rest out pad :
  aes_ready ctx → is_block 16 b → length out = 16%nat →
  aes_encrypt K ctx (b ++ rest) (out ++ pad) = Ok (1, cipher (take 16 ctx) b ++ pad).
Proof.
  intros Hc Hb Ho. pose proof (aes_ready_key ctx Hc) as Hk. rewrite <- (encrypt_is_cipher _ _ Hk Hb).
  destruct (key_expansion_words _ Hk) as [HW HL]. eapply aes_encrypt_run; [|done..].
  rewrite <- (take_drop 16 ctx) at 1. apply set_encrypt_key_spec; [done|lia].
Qed.

Lemma aes_decrypt_spec ctx b rest out pad :
  aes_ready ctx → is_block 16 b → length out = 16%nat →
  aes_decrypt K ctx (b ++ rest) (out ++ pad) = Ok (1, aes_dec ctx b ++ pad).
Proof.
  intros Hc Hb Ho. pose proof (aes_ready_key ctx Hc) as Hk.
  destruct (key_expansion_words _ Hk) as [HW HL]. eapply aes_decrypt_run; [| |apply dec_schedule_length|done..].
  - rewrite <- (take_drop 16 ctx) at 1. apply set_decrypt_key_spec; [done|lia].
  - by apply dec_schedule_words.
Qed.

(** AES is a block cipher. *)
Global Instance aes_block_cipher : BlockCipher (aes_interface K).
Proof.
  refine {| bc_ready := aes_ready; bc_enc := λ ctx b, cipher (take 16 ctx) b; bc_dec := aes_dec |}; simpl.
  - done.
  - intros ctx key n Hc Hk Hn. destruct (aes_init_spec ctx key n Hc Hk Hn) as [E Hr]. by exists (repeated key 20).
  - intros ctx b Hc Hb. destruct (cipher_quads ctx b Hc Hb) as (s & Hs & -> & _). by apply quad_of_state_bytes.
  - intros ctx b Hc Hb. destruct (key_expansion_words _ (aes_ready_key ctx Hc)) as [HW HL].
    apply quad_of_state_bytes. apply inv_last_round_quad.
    + apply middle_quad; [apply td_round_quad|by apply dec_schedule_words|done|by apply quad_of_quad].
    + apply qk_quad; [by apply dec_schedule_words|]. rewrite dec_schedule_length. lia.
  - intros ctx b rest out pad Hc Hb Ho. apply aes_encrypt_spec; [done..|]. unfold AES_BLOCK_SIZE in Ho. lia.
  - intros ctx b rest out pad Hc Hb Ho. apply aes_decrypt_spec; [done..|]. unfold AES_BLOCK_SIZE in Ho. lia.
  - apply aes_dec_cipher.
Defined.
End Instance.
