(* ===== verification/Modes.v ===== *)
(** * sys/crypto/modes and crypto/helper.c: modes of operation

    ECB, CBC, CTR and CCM over any cipher, with the loops of the source: a
    [do ... while] runs its body before it tests the length. Input and output
    are different buffers. The theorems are proved against the interface
    [BlockCipher]. *)

From S2P Require Import Prelude Words Cipher.
Open Scope Z_scope.

(** ** The code *)

(** [for (i = 0; i < n; ++i) dst[i] ^= src[i];] *)
Fixpoint xor_in_place (fuel : nat) (dst src : list Z) (i n : Z) : result (list Z) :=
  match fuel with
  | O => Fault OutOfFuel
  | S fuel =>
      if i <? n then
        x ← aget dst i; y ← aget src i;
        dst ← aset dst i (Z.lxor x y);
        xor_in_place fuel dst src (i + 1) n
      else Ok dst
  end.

(** [for (i = 0; i < n; ++i) out[i] = a[i] ^ b[i];] *)
Fixpoint xor_to (fuel : nat) (a b out : list Z) (i n : Z) : result (list Z) :=
  match fuel with
  | O => Fault OutOfFuel
  | S fuel =>
      if i <? n then
        x ← aget a i; y ← aget b i;
        out ← aset out i (Z.lxor x y);
        xor_to fuel a b out (i + 1) n
      else Ok out
  end.

(** The part of [l] from offset [o] on, replaced by [p]. *)
Definition splice (l : list Z) (o : Z) (p : list Z) : list Z := take (Z.to_nat o) l ++ p.

Fixpoint inc_loop (fuel : nat) (block : list Z) (b i L : Z) : result (list Z) :=
  match fuel with
  | O => Fault OutOfFuel
  | S fuel =>
      if i <? L then
        x ← aget block b;
        block ← aset block b (u8 (x + 1));
        if negb (u8 (x + 1) =? 0) then Ok block else inc_loop fuel block (b - 1) (i + 1) L
      else Ok block
  end.

Definition crypto_block_inc_ctr (block : list Z) (L : Z) : result (list Z) :=
  inc_loop (S (Z.to_nat L)) block 15 0 L.

Fixpoint equals_loop (fuel : nat) (a b : list Z) (len i diff : Z) : result Z :=
  match fuel with
  | O => Fault OutOfFuel
  | S fuel =>
      if i <? len then
        x ← aget a i; y ← aget b i;
        equals_loop fuel a b len (i + 1) (Z.lor diff (Z.lxor x y))
      else Ok diff
  end.

Definition crypto_equals (a b : list Z) (len : Z) : result Z :=
  diff ← equals_loop (S (Z.to_nat len)) a b len 0 0;
  let diff := u8 (Z.lor diff (Z.lor (Z.shiftr diff 1) (Z.shiftl diff 7))) in
  let diff := u8 (Z.lor diff (Z.lor (Z.shiftr diff 2) (Z.shiftl diff 6))) in
  let diff := u8 (Z.lor diff (Z.lor (Z.shiftr diff 4) (Z.shiftl diff 4))) in
  Ok (u8 (diff + 1)).

(** *** ECB *)

Fixpoint ecb_loop (fuel : nat) (crypt : list Z → list Z → result (Z * list Z)) (err bs length offset : Z)
    (input output : list Z) : result (Z * list Z) :=
  match fuel with
  | O => Fault OutOfFuel
  | S fuel =>
      '(r, o) ← crypt (drop (Z.to_nat offset) input) (drop (Z.to_nat offset) output);
      let output := splice output offset o in
      if negb (r =? 1) then Ok (err, output)
      else
        let offset := u32 (offset + bs) in
        if offset <? length then ecb_loop fuel crypt err bs length offset input output
        else Ok (s32 offset, output)
  end.

Definition cipher_encrypt_ecb (cipher : cipher_t) (input : list Z) (length : Z) (output : list Z) : result (Z * list Z) :=
  let bs := cipher_get_block_size cipher in
  if bs =? 0 then Fault DivByZero
  else if negb (length mod bs =? 0) then Ok (CIPHER_ERR_INVALID_LENGTH, output)
  else ecb_loop (S (Z.to_nat length)) (cipher_encrypt cipher) CIPHER_ERR_ENC_FAILED bs length 0 input output.

Definition cipher_decrypt_ecb (cipher : cipher_t) (input : list Z) (length : Z) (output : list Z) : result (Z * list Z) :=
  let bs := cipher_get_block_size cipher in
  if bs =? 0 then Fault DivByZero
  else if negb (length mod bs =? 0) then Ok (CIPHER_ERR_INVALID_LENGTH, output)
  else ecb_loop (S (Z.to_nat length)) (cipher_decrypt cipher) CIPHER_ERR_DEC_FAILED bs length 0 input output.

(** *** CBC

    The block to chain with is the initialisation vector ([None]) or the block
    at an offset of the buffer. *)

Definition chained (iv buffer : list Z) (last : option Z) : list Z :=
  match last with None => iv | Some o => drop (Z.to_nat o) buffer end.

Fixpoint cbc_encrypt_loop (fuel : nat) (cipher : cipher_t) (bs : Z) (iv input : list Z) (length offset : Z)
    (last : option Z) (input_block output : list Z) : result (Z * list Z) :=
  match fuel with
  | O => Fault OutOfFuel
  | S fuel =>
      input_block ← memcpy input_block 0 input offset bs;
      input_block ← xor_in_place (S (Z.to_nat bs)) input_block (chained iv output last) 0 bs;
      '(r, o) ← cipher_encrypt cipher input_block (drop (Z.to_nat offset) output);
      let output := splice output offset o in
      if negb (r =? 1) then Ok (CIPHER_ERR_ENC_FAILED, output)
      else
        let last := Some offset in
        let offset := u32 (offset + bs) in
        if offset <? length then cbc_encrypt_loop fuel cipher bs iv input length offset last input_block output
        else Ok (s32 offset, output)
  end.

Definition cipher_encrypt_cbc (cipher : cipher_t) (iv input : list Z) (length : Z) (output : list Z)
  : result (Z * list Z) :=
  let bs := cipher_get_block_size cipher in
  if bs =? 0 then Fault DivByZero
  else if negb (length mod bs =? 0) then Ok (CIPHER_ERR_INVALID_LENGTH, output)
  else cbc_encrypt_loop (S (Z.to_nat length)) cipher bs iv input length 0 None
         (replicate (Z.to_nat CIPHER_MAX_BLOCK_SIZE) 0) output.

Fixpoint cbc_decrypt_loop (fuel : nat) (cipher : cipher_t) (bs : Z) (iv input : list Z) (length offset : Z)
    (last : option Z) (output : list Z) : result (Z * list Z) :=
  match fuel with
  | O => Fault OutOfFuel
  | S fuel =>
      '(r, o) ← cipher_decrypt cipher (drop (Z.to_nat offset) input) (drop (Z.to_nat offset) output);
      if negb (r =? 1) then Ok (CIPHER_ERR_DEC_FAILED, splice output offset o)
      else
        o ← xor_in_place (S (Z.to_nat bs)) o (chained iv input last) 0 bs;
        let output := splice output offset o in
        let last := Some offset in
        let offset := u32 (offset + bs) in
        if offset <? length then cbc_decrypt_loop fuel cipher bs iv input length offset last output
        else Ok (s32 offset, output)
  end.

Definition cipher_decrypt_cbc (cipher : cipher_t) (iv input : list Z) (length : Z) (output : list Z)
  : result (Z * list Z) :=
  let bs := cipher_get_block_size cipher in
  if bs =? 0 then Fault DivByZero
  else if negb (length mod bs =? 0) then Ok (CIPHER_ERR_INVALID_LENGTH, output)
  else cbc_decrypt_loop (S (Z.to_nat length)) cipher bs iv input length 0 None output.

(** *** CTR

    The value is the return value, the output and the counter. *)

Fixpoint ctr_loop (fuel : nat) (cipher : cipher_t) (bs nonce_len length offset : Z)
    (nonce_counter stream_block input output : list Z) : result (Z * list Z * list Z) :=
  match fuel with
  | O => Fault OutOfFuel
  | S fuel =>
      '(r, stream_block) ← cipher_encrypt cipher nonce_counter stream_block;
      if negb (r =? 1) then Ok (CIPHER_ERR_ENC_FAILED, output, nonce_counter)
      else
        let n := if bs <? u32 (length - offset) then bs else u8 (u32 (length - offset)) in
        o ← xor_to (S (Z.to_nat n)) stream_block (drop (Z.to_nat offset) input) (drop (Z.to_nat offset) output) 0 n;
        let output := splice output offset o in
        let offset := u32 (offset + n) in
        nonce_counter ← crypto_block_inc_ctr nonce_counter (bs - nonce_len);
        if offset <? length then
          ctr_loop fuel cipher bs nonce_len length offset nonce_counter stream_block input output
        else Ok (s32 offset, output, nonce_counter)
  end.

Definition cipher_encrypt_ctr (cipher : cipher_t) (nonce_counter : list Z) (nonce_len : Z) (input : list Z)
    (length : Z) (output : list Z) : result (Z * list Z * list Z) :=
  ctr_loop (S (Z.to_nat length)) cipher (cipher_get_block_size cipher) nonce_len length 0
    nonce_counter (replicate 16 0) input output.

Definition cipher_decrypt_ctr (cipher : cipher_t) (nonce_counter : list Z) (nonce_len : Z) (input : list Z)
    (length : Z) (output : list Z) : result (Z * list Z * list Z) :=
  cipher_encrypt_ctr cipher nonce_counter nonce_len input length output.

(** *** CCM *)

Definition CCM_ERR_INVALID_CBC_MAC : Z := -3.
Definition CCM_ERR_INVALID_DATA_LENGTH : Z := -3.
Definition CCM_ERR_INVALID_LENGTH_ENCODING : Z := -4.
Definition CCM_ERR_INVALID_MAC_LENGTH : Z := -5.

(** [offset] is a [uint8_t]. *)
Fixpoint cbc_mac_loop (fuel : nat) (cipher : cipher_t) (bs : Z) (input : list Z) (length offset : Z)
    (mac mac_enc : list Z) : result (Z * list Z) :=
  match fuel with
  | O => Fault OutOfFuel
  | S fuel =>
      let n := if bs <? u32 (length - offset) then bs else u8 (u32 (length - offset)) in
      mac ← xor_in_place (S (Z.to_nat n)) mac (drop (Z.to_nat offset) input) 0 n;
      '(r, mac_enc) ← cipher_encrypt cipher mac mac_enc;
      if negb (r =? 1) then Ok (CIPHER_ERR_ENC_FAILED, mac)
      else
        mac ← memcpy mac 0 mac_enc 0 bs;
        let offset := u8 (offset + n) in
        if offset <? length then cbc_mac_loop fuel cipher bs input length offset mac mac_enc
        else Ok (offset, mac)
  end.

Definition ccm_compute_cbc_mac (cipher : cipher_t) (iv input : list Z) (length : Z) (mac : list Z)
  : result (Z * list Z) :=
  let bs := cipher_get_block_size cipher in
  mac ← memcpy mac 0 iv 0 16;
  cbc_mac_loop (S (Z.to_nat length)) cipher bs input length 0 mac (replicate 16 0).

(** [for (uint8_t i = 15; i > 16 - L; --i)]; the value is the block and what
    is left of the length. *)
Fixpoint length_loop (fuel : nat) (X1 : list Z) (i L plaintext_len : Z) : result (list Z * Z) :=
  match fuel with
  | O => Fault OutOfFuel
  | S fuel =>
      if 16 - L <? i then
        X1 ← aset X1 i (Z.land plaintext_len 255);
        length_loop fuel X1 (u8 (i - 1)) L (Z.shiftr plaintext_len 8)
      else Ok (X1, plaintext_len)
  end.

Definition ccm_create_mac_iv (cipher : cipher_t) (auth_data_len M L : Z) (nonce : list Z)
    (nonce_len plaintext_len : Z) (X1 : list Z) : result (Z * list Z) :=
  X1 ← memcpy X1 0 (replicate 16 0) 0 16;
  let M_ := u8 ((M - 2) ÷ 2) in
  let L_ := u8 (L - 1) in
  X1 ← aset X1 0 (u8 (64 * b2z (0 <? auth_data_len) + 8 * M_ + L_));
  X1 ← memcpy X1 1 nonce 0 (Z.min nonce_len (15 - L));
  '(X1, plaintext_len) ← length_loop 16 X1 15 L plaintext_len;
  if 0 <? plaintext_len then Ok (CIPHER_ERR_INVALID_LENGTH, X1)
  else
    '(r, X1) ← cipher_encrypt cipher X1 X1;
    if negb (r =? 1) then Ok (CIPHER_ERR_ENC_FAILED, X1) else Ok (0, X1).

Definition ccm_compute_adata_mac (cipher : cipher_t) (auth_data : list Z) (auth_data_len : Z) (X1 : list Z)
  : result (Z * list Z) :=
  if 0 <? auth_data_len then
    if auth_data_len <? Z.shiftl 2 16 then
      encoded ← aset (replicate 26 0) 1 (Z.land auth_data_len 0xff);
      encoded ← aset encoded 0 (Z.land (Z.shiftr auth_data_len 8) 0xff);
      encoded ← memcpy encoded 2 auth_data 0 auth_data_len;
      '(len, X1) ← ccm_compute_cbc_mac cipher X1 encoded (u32 (auth_data_len + 2)) X1;
      Ok (if len <? 0 then -1 else 0, X1)
    else Ok (-1, X1)
  else Ok (0, X1).

(** [2 << n] on [int]. *)
Definition shift_two (n : Z) : result Z := if n <? 30 then Ok (Z.shiftl 2 n) else Fault BadShift.

Definition cipher_encrypt_ccm (cipher : cipher_t) (auth_data : list Z) (auth_data_len mac_length length_encoding : Z)
    (nonce : list Z) (nonce_len : Z) (input : list Z) (input_len : Z) (output : list Z) : result (Z * list Z) :=
  if (negb (mac_length mod 2 =? 0) || (mac_length <? 4) || (16 <? mac_length))%bool
  then Ok (CCM_ERR_INVALID_MAC_LENGTH, output)
  else
    length_max ← shift_two (8 * length_encoding);
    if ((length_encoding <? 2) || (8 <? length_encoding) || (length_max <? u32 (input_len - auth_data_len)))%bool
    then Ok (CCM_ERR_INVALID_LENGTH_ENCODING, output)
    else
      let bs := cipher_get_block_size cipher in
      '(r, mac_iv) ← ccm_create_mac_iv cipher (u8 auth_data_len) mac_length length_encoding nonce (u8 nonce_len)
                       input_len (replicate 16 0);
      if r <? 0 then Ok (CCM_ERR_INVALID_DATA_LENGTH, output)
      else
        '(_, mac_iv) ← ccm_compute_adata_mac cipher auth_data auth_data_len mac_iv;
        '(len, mac) ← ccm_compute_cbc_mac cipher mac_iv input input_len (replicate 16 0);
        if len <? 0 then Ok (len, output)
        else
          nonce_counter ← aset (replicate 16 0) 0 (u8 (length_encoding - 1));
          nonce_counter ← memcpy nonce_counter 1 nonce 0 (Z.min (s32 nonce_len) (15 - length_encoding));
          '(len, stream_block, nonce_counter) ←
            cipher_encrypt_ctr cipher nonce_counter bs (replicate 16 0) bs (replicate 16 0);
          if len <? 0 then Ok (len, output)
          else
            nonce_counter ← crypto_block_inc_ctr nonce_counter (s32 (bs - nonce_len));
            '(len, output, nonce_counter) ←
              cipher_encrypt_ctr cipher nonce_counter (u8 nonce_len) input input_len output;
            if len <? 0 then Ok (len, output)
            else
              o ← xor_to (S (Z.to_nat mac_length)) mac stream_block (drop (Z.to_nat len) output) 0 mac_length;
              Ok (len + mac_length, splice output len o).

Definition cipher_decrypt_ccm (cipher : cipher_t) (auth_data : list Z) (auth_data_len mac_length length_encoding : Z)
    (nonce : list Z) (nonce_len : Z) (input : list Z) (input_len : Z) (plain : list Z) : result (Z * list Z) :=
  if (negb (mac_length mod 2 =? 0) || (mac_length <? 4) || (16 <? mac_length))%bool
  then Ok (CCM_ERR_INVALID_MAC_LENGTH, plain)
  else
    length_max ← shift_two (8 * length_encoding);
    if ((length_encoding <? 2) || (8 <? length_encoding) || (length_max <? u32 (input_len - auth_data_len)))%bool
    then Ok (CCM_ERR_INVALID_LENGTH_ENCODING, plain)
    else
      nonce_counter ← aset (replicate 16 0) 0 (u8 (length_encoding - 1));
      let bs := cipher_get_block_size cipher in
      nonce_counter ← memcpy nonce_counter 1 nonce 0 (Z.min (s32 nonce_len) (15 - length_encoding));
      '(len, stream_block, nonce_counter) ←
        cipher_encrypt_ctr cipher nonce_counter bs (replicate 16 0) bs (replicate 16 0);
      if len <? 0 then Ok (len, plain)
      else
        let plain_len := u8 (input_len - mac_length) in
        nonce_counter ← crypto_block_inc_ctr nonce_counter (s32 (bs - nonce_len));
        '(len, plain, nonce_counter) ←
          cipher_encrypt_ctr cipher nonce_counter (u8 nonce_len) input plain_len plain;
        if len <? 0 then Ok (len, plain)
        else
          '(r, mac_iv) ← ccm_create_mac_iv cipher (u8 auth_data_len) mac_length length_encoding nonce (u8 nonce_len)
                           plain_len (replicate 16 0);
          if r <? 0 then Ok (CCM_ERR_INVALID_DATA_LENGTH, plain)
          else
            '(_, mac_iv) ← ccm_compute_adata_mac cipher auth_data auth_data_len mac_iv;
            '(len, mac) ← ccm_compute_cbc_mac cipher mac_iv plain plain_len (replicate 16 0);
            if len <? 0 then Ok (len, plain)
            else
              mac_recv ← xor_to (S (Z.to_nat mac_length)) (drop (Z.to_nat len) input) stream_block
                           (replicate 16 0) 0 mac_length;
              eq ← crypto_equals mac_recv mac mac_length;
              if eq =? 0 then Ok (CCM_ERR_INVALID_CBC_MAC, plain) else Ok (plain_len, plain).

(** ** Loops over bytes *)

Definition bxor (a b : list Z) : list Z := zip_with Z.lxor a b.

Lemma bxor_length a b : length a = length b → length (bxor a b) = length a.
Proof. intros Hab. unfold bxor. rewrite length_zip_with. lia. Qed.

Lemma bxor_cancel a b : length a = length b → bxor (bxor a b) b = a.
Proof.
  revert b. induction a as [|x a IH]; intros [|y b] Hl; simplify_eq/=; [done|]. unfold bxor in *. simpl.
  rewrite IH by done. f_equal. by rewrite Z.lxor_assoc, Z.lxor_nilpotent, Z.lxor_0_r.
Qed.

Lemma bxor_comm a b : bxor a b = bxor b a.
Proof. revert b. induction a as [|x a IH]; intros [|y b]; [done..|]. unfold bxor in *. simpl. by rewrite Z.lxor_comm, IH. Qed.

Lemma bxor_bytes a b : Forall is_byte a → Forall is_byte b → Forall is_byte (bxor a b).
Proof.
  intros Ha. revert b. induction Ha as [|x a Hx Ha IH]; intros b Hb; [constructor|].
  destruct Hb as [|y b Hy Hb]; [constructor|]. unfold bxor in *. simpl. constructor; [by apply lxor_byte|by apply IH].
Qed.

Lemma bxor_app_r a b c : length a = length b → bxor a (b ++ c) = bxor a b.
Proof. revert b. induction a as [|x a IH]; intros [|y b] Hl; simplify_eq/=; [done|]. unfold bxor in *. simpl. by rewrite IH. Qed.

Lemma bxor_take a b : (length b <= length a)%nat → bxor a b = bxor (take (length b) a) b.
Proof.
  revert b. induction a as [|x a IH]; intros [|y b] Hl; simpl in *; [done|lia|done|].
  unfold bxor in *. simpl. by rewrite IH by lia.
Qed.

Lemma xor_in_place_spec fuel w v a b r s i n :
  length w = length v → i = Z.of_nat (length w) → length a = length b → n = i + Z.of_nat (length a) →
  (length a < fuel)%nat →
  xor_in_place fuel (w ++ a ++ r) (v ++ b ++ s) i n = Ok (w ++ bxor a b ++ r).
Proof.
  revert fuel w v b i. induction a as [|x a IH]; intros [|fuel] w v b i Hwv Hi Hab Hn Hf; simpl in *; try lia.
  - replace (i <? n) with false by lia. done.
  - destruct b as [|y b]; [done|]. simpl in Hab. replace (i <? n) with true by lia.
    rewrite aget_app by done. rewrite result_bind_Ok. simpl. rewrite aget_app by lia. rewrite result_bind_Ok.
    rewrite aset_app by done. rewrite result_bind_Ok.
    rewrite (cons_middle (Z.lxor x y) w), (cons_middle y v), !(app_assoc _ [_]).
    rewrite IH by (rewrite ?length_app; simpl; lia). by rewrite <- app_assoc.
Qed.

Lemma xor_to_spec fuel u v w a b o p q r i n :
  length u = length w → length v = length w → i = Z.of_nat (length w) →
  length a = length o → length b = length o → n = i + Z.of_nat (length o) → (length o < fuel)%nat →
  xor_to fuel (u ++ a ++ p) (v ++ b ++ q) (w ++ o ++ r) i n = Ok (w ++ bxor a b ++ r).
Proof.
  revert fuel u v w a b i. induction o as [|z o IH]; intros [|fuel] u v w a b i Hu Hv Hi Ha Hb Hn Hf; simpl in *; try lia.
  - replace (i <? n) with false by lia. destruct a; [|done]. done.
  - destruct a as [|x a], b as [|y b]; try done. simpl in Ha, Hb. replace (i <? n) with true by lia. simpl.
    rewrite !aget_app by lia. rewrite !result_bind_Ok.
    rewrite aset_app by lia. rewrite result_bind_Ok.
    rewrite (cons_middle (Z.lxor x y) w), (cons_middle y v), (cons_middle x u), !(app_assoc _ [_]).
    rewrite IH by (rewrite ?length_app; simpl; lia). by rewrite <- app_assoc.
Qed.

(** The counter. *)
Lemma inc_loop_spec fuel block b i L :
  is_block 16 block → 0 <= i → b = 15 - i → L <= 16 → (Z.to_nat (L - i) < fuel)%nat →
  ∃ block', inc_loop fuel block b i L = Ok block' ∧ is_block 16 block'.
Proof.
  revert block b i. induction fuel as [|fuel IH]; intros block b i Hb Hi -> HL Hf; [lia|]. cbn [inc_loop].
  destruct (Z.ltb_spec i L); [|by exists block].
  destruct Hb as [Hlen Hbytes]. destruct (lookup_lt_is_Some_2 block (Z.to_nat (15 - i))) as [x Hx]; [lia|].
  rewrite (aget_Some _ _ x) by (done || lia). rewrite result_bind_Ok.
  rewrite aset_Ok by lia. rewrite result_bind_Ok.
  assert (is_block 16 (<[Z.to_nat (15 - i):=u8 (x + 1)]> block)) as Hb'.
  { split; [by rewrite length_insert|]. apply Forall_insert; [done|]. apply Z.mod_pos_bound. lia. }
  case_match; [by eexists|]. apply IH; [done|lia..].
Qed.

Lemma inc_ctr_total block L :
  is_block 16 block → L <= 16 → ∃ block', crypto_block_inc_ctr block L = Ok block' ∧ is_block 16 block'.
Proof. intros Hb HL. apply inc_loop_spec; [done|lia..]. Qed.

(** The comparison in constant time. *)
Lemma equals_loop_spec fuel a b len i diff :
  len <= Z.of_nat (length a) → len <= Z.of_nat (length b) → 0 <= i → (Z.to_nat (len - i) < fuel)%nat →
  Forall is_byte a → Forall is_byte b → is_byte diff →
  ∃ d, equals_loop fuel a b len i diff = Ok d ∧ is_byte d ∧
    (d = 0 ↔ diff = 0 ∧ ∀ j, i <= j < len → a !! Z.to_nat j = b !! Z.to_nat j).
Proof.
  intros Ha Hb. revert i diff. induction fuel as [|fuel IH]; intros i diff Hi Hf Hab Hbb Hd; [lia|]. cbn [equals_loop].
  destruct (Z.ltb_spec i len).
  - destruct (lookup_lt_is_Some_2 a (Z.to_nat i)) as [x Hx]; [lia|].
    destruct (lookup_lt_is_Some_2 b (Z.to_nat i)) as [y Hy]; [lia|].
    rewrite (aget_Some a i x), result_bind_Ok, (aget_Some b i y), result_bind_Ok by done.
    assert (is_byte x) by (by eapply Forall_lookup_1 in Hx). assert (is_byte y) by (by eapply Forall_lookup_1 in Hy).
    destruct (IH (i + 1) (Z.lor diff (Z.lxor x y))) as (d & -> & Hdb & Hdi); [lia|lia|done|done| |].
    { apply (lor_bound 8); [lia|done|]. by apply lxor_byte. }
    exists d. split; [done|]. split; [done|]. rewrite Hdi, Z.lor_eq_0_iff, Z.lxor_eq_0_iff. split.
    + intros ([-> ->] & Hj). split; [done|]. intros j Hj'.
      destruct (decide (j = i)) as [->|]; [congruence|]. apply Hj. lia.
    + intros (-> & Hj). split; [|intros j ?; apply Hj; lia]. split; [done|].
      specialize (Hj i ltac:(lia)). congruence.
  - exists diff. split; [done|]. split; [done|]. split; [intros ->; split; [done|lia]|by intros [-> _]].
Qed.

(** The bits of the difference are spread over the byte. *)
Lemma smear_spec : ∀ x, is_byte x →
  (let diff := u8 (Z.lor x (Z.lor (Z.shiftr x 1) (Z.shiftl x 7))) in
   let diff := u8 (Z.lor diff (Z.lor (Z.shiftr diff 2) (Z.shiftl diff 6))) in
   let diff := u8 (Z.lor diff (Z.lor (Z.shiftr diff 4) (Z.shiftl diff 4))) in u8 (diff + 1)) = b2z (x =? 0).
Proof. intros x Hx. apply Z.eqb_eq. revert x Hx. apply byte_check. by vm_compute. Qed.

Lemma crypto_equals_spec a b len :
  0 <= len → len <= Z.of_nat (length a) → len <= Z.of_nat (length b) → Forall is_byte a → Forall is_byte b →
  crypto_equals a b len = Ok (b2z (bool_decide (take (Z.to_nat len) a = take (Z.to_nat len) b))).
Proof.
  intros Hl Ha Hb Hab Hbb. unfold crypto_equals.
  destruct (equals_loop_spec (S (Z.to_nat len)) a b len 0 0) as (d & -> & Hd & Hi); [lia..|done|done|unfold is_byte; lia|].
  rewrite result_bind_Ok. f_equal. rewrite smear_spec by done. f_equal. destruct (Z.eqb_spec d 0) as [E|E].
  - symmetry. apply bool_decide_eq_true. apply Hi in E as [_ Hj]. apply list_eq. intros i.
    destruct (decide (i < Z.to_nat len)%nat).
    + rewrite !lookup_take_lt by done. specialize (Hj (Z.of_nat i) ltac:(lia)). by rewrite Nat2Z.id in Hj.
    + by rewrite !lookup_take_ge by lia.
  - symmetry. apply bool_decide_eq_false. intros Ht. apply E, Hi. split; [done|]. intros j Hj.
    rewrite <- (lookup_take_lt a (Z.to_nat len)), <- (lookup_take_lt b (Z.to_nat len)) by lia. by rewrite Ht.
Qed.

(** ** ECB and CBC on blocks *)

Lemma drop_pre (pre l : list Z) o : o = Z.of_nat (length pre) → drop (Z.to_nat o) (pre ++ l) = l.
Proof. intros ->. rewrite Nat2Z.id. apply drop_app_length. Qed.

Lemma splice_pre pre l o p : o = Z.of_nat (length pre) → splice (pre ++ l) o p = pre ++ p.
Proof. intros ->. unfold splice. by rewrite Nat2Z.id, take_app_length. Qed.

Lemma take_drop_Z (l : list Z) n : 0 <= n <= Z.of_nat (length l) → ∃ a b, l = a ++ b ∧ Z.of_nat (length a) = n.
Proof.
  intros Hn. exists (take (Z.to_nat n) l), (drop (Z.to_nat n) l). rewrite take_drop, length_take. split; [done|lia].
Qed.

(** The length of a message of whole blocks. *)
Lemma concat_blocks bs Bs : Forall (is_block bs) Bs → Z.of_nat (length (concat Bs)) = bs * Z.of_nat (length Bs).
Proof.
  induction 1 as [|b Bs [Hb _] HBs IH]; simpl; [lia|]. rewrite length_app. lia.
Qed.

Section Blocks.
Context (bs : Z) (Hbs : 0 < bs <= CIPHER_MAX_BLOCK_SIZE).

Section Ecb.
Context (crypt : list Z → list Z → result (Z * list Z)) (f : list Z → list Z) (err : Z).
Hypothesis crypt_spec : ∀ b rest o pad,
  is_block bs b → Z.of_nat (length o) = bs → crypt (b ++ rest) (o ++ pad) = Ok (1, f b ++ pad).
Hypothesis f_block : ∀ b, is_block bs b → is_block bs (f b).

Lemma ecb_loop_spec fuel Bs pre opre o len offset :
  Forall (is_block bs) Bs → Bs ≠ [] → length opre = length pre → length o = length (concat Bs) →
  offset = Z.of_nat (length pre) → len = offset + Z.of_nat (length (concat Bs)) → len < 2 ^ 31 →
  (length Bs < fuel)%nat →
  ecb_loop fuel crypt err bs len offset (pre ++ concat Bs) (opre ++ o) = Ok (len, opre ++ concat (f <$> Bs)).
Proof.
  revert Bs pre opre o offset. induction fuel as [|fuel IH]; intros Bs pre opre o offset HB Hne Hop Ho Hoff Hlen Hmax Hf; [lia|].
  destruct Bs as [|b Bs]; [done|]. apply Forall_cons in HB as [Hb HB]. simpl in Ho. rewrite length_app in Ho.
  pose proof Hb as [Hbl _]. simpl in Hlen. rewrite length_app in Hlen.
  destruct (take_drop_Z o bs) as (o1 & o2 & -> & Ho1); [lia|]. rewrite length_app in Ho.
  cbn [ecb_loop]. rewrite (drop_pre pre), (drop_pre opre) by lia. simpl concat.
  rewrite crypt_spec by done. rewrite result_bind_Ok. simpl negb. cbv iota.
  rewrite splice_pre by lia. destruct (f_block b Hb) as [Hfb _].
  rewrite u32_small by lia. destruct (Z.ltb_spec (offset + bs) len).
  - rewrite (app_assoc pre), (app_assoc opre). rewrite IH; [|done|..].
    + simpl. by rewrite <- app_assoc.
    + intros ->. simpl in *. lia.
    + rewrite !length_app. lia.
    + lia.
    + rewrite length_app. lia.
    + lia.
    + done.
    + simpl in Hf. lia.
  - destruct Bs as [|b' Bs]; [|apply Forall_cons in HB as [[Hb' _] _]; simpl in *; rewrite length_app in *; lia].
    simpl in *. destruct o2; [|simpl in *; lia]. rewrite s32_small by lia. rewrite !app_nil_r. do 2 f_equal. lia.
Qed.
End Ecb.

(** Cipher block chaining. *)
Fixpoint cbc_enc (E : list Z → list Z) (iv : list Z) (Bs : list (list Z)) : list (list Z) :=
  match Bs with [] => [] | b :: Bs => let c := E (bxor b iv) in c :: cbc_enc E c Bs end.

Fixpoint cbc_dec (D : list Z → list Z) (iv : list Z) (Cs : list (list Z)) : list (list Z) :=
  match Cs with [] => [] | c :: Cs => bxor (D c) iv :: cbc_dec D c Cs end.

Lemma bxor_block a b : is_block bs a → is_block bs b → is_block bs (bxor a b).
Proof. intros [Ha Hab] [Hb Hbb]. split; [rewrite bxor_length; lia|by apply bxor_bytes]. Qed.

Lemma cbc_enc_blocks E iv Bs :
  (∀ b, is_block bs b → is_block bs (E b)) → is_block bs iv → Forall (is_block bs) Bs →
  Forall (is_block bs) (cbc_enc E iv Bs).
Proof.
  intros HE Hiv HB. revert iv Hiv. induction HB as [|b Bs Hb HB IH]; intros iv Hiv; simpl; [done|].
  assert (is_block bs (E (bxor b iv))) by (by apply HE, bxor_block). apply Forall_cons. auto.
Qed.

Lemma cbc_dec_enc E D iv Bs :
  (∀ b, is_block bs b → is_block bs (E b)) → (∀ b, is_block bs b → D (E b) = b) →
  is_block bs iv → Forall (is_block bs) Bs → cbc_dec D iv (cbc_enc E iv Bs) = Bs.
Proof.
  intros HE HD Hiv HB. revert iv Hiv. induction HB as [|b Bs Hb HB IH]; intros iv Hiv; simpl; [done|].
  assert (is_block bs (bxor b iv)) as Hx by (by apply bxor_block).
  rewrite HD by done. rewrite IH by (by apply HE). f_equal. apply bxor_cancel. destruct Hb, Hiv. lia.
Qed.
End Blocks.

Section Cipher.
Context {I : cipher_interface_t} {BC : BlockCipher I} (ctx : list Z) (Hctx : bc_ready ctx).
Notation bs := (block_size I).
Notation cipher := (Cipher I ctx).

Lemma cbc_encrypt_loop_spec fuel Bs pre opre o len offset iv prev x last ib :
  Forall (is_block bs) Bs → Bs ≠ [] → length opre = length pre → length o = length (concat Bs) →
  offset = Z.of_nat (length pre) → len = offset + Z.of_nat (length (concat Bs)) → len < 2 ^ 31 →
  (length Bs < fuel)%nat → chained iv (opre ++ o) last = prev ++ x → is_block bs prev → length ib = 16%nat →
  cbc_encrypt_loop fuel cipher bs iv (pre ++ concat Bs) len offset last ib (opre ++ o) =
    Ok (len, opre ++ concat (cbc_enc (bc_enc ctx) prev Bs)).
Proof.
  pose proof bc_size as Hbs. unfold CIPHER_MAX_BLOCK_SIZE in Hbs.
  revert Bs pre opre o offset prev x last ib.
  induction fuel as [|fuel IH]; intros Bs pre opre o offset prev x last ib HB Hne Hop Ho Hoff Hlen Hmax Hf Hch Hprev Hib; [lia|].
  destruct Bs as [|b Bs]; [done|]. apply Forall_cons in HB as [Hb HB]. simpl in Ho, Hf. rewrite length_app in Ho.
  pose proof Hb as [Hbl _]. pose proof Hprev as [Hpl _]. simpl in Hlen. rewrite length_app in Hlen.
  destruct (take_drop_Z o bs) as (o1 & o2 & -> & Ho1); [lia|]. rewrite length_app in Ho.
  cbn [cbc_encrypt_loop]. rewrite memcpy_Ok by (rewrite ?length_app; simpl; rewrite ?length_app; lia).
  rewrite result_bind_Ok, Hch. change (take (Z.to_nat 0) ib) with (@nil Z). cbn [app]. rewrite (drop_pre pre) by done.
  simpl concat. replace (Z.to_nat bs) with (length b) by lia. rewrite take_app_length.
  assert (is_block bs (bxor b prev)) as Hx by (by apply bxor_block).
  pose proof (xor_in_place_spec (S (length b)) [] [] b prev (drop (Z.to_nat (0 + bs)) ib) x 0 bs) as Hxor.
  simpl app in Hxor. rewrite Hxor by (simpl; lia). rewrite result_bind_Ok.
  unfold cipher_encrypt. simpl interface. simpl context. rewrite (drop_pre opre) by lia.
  rewrite bc_encrypt by done. rewrite result_bind_Ok. simpl negb. cbv iota. rewrite splice_pre by lia.
  destruct (bc_enc_block ctx (bxor b prev) Hctx Hx) as [Hfb Hfbb].
  rewrite u32_small by lia. destruct (Z.ltb_spec (offset + bs) len).
  - rewrite (app_assoc pre), (app_assoc opre).
    rewrite (IH Bs (pre ++ b) (opre ++ bc_enc ctx (bxor b prev)) o2 (offset + bs) (bc_enc ctx (bxor b prev)) o2);
      [|done| |rewrite ?length_app; lia..| | |].
    + simpl. by rewrite <- app_assoc.
    + intros ->. simpl in *. lia.
    + simpl. rewrite <- app_assoc. apply drop_pre. lia.
    + by split.
    + rewrite length_app, bxor_length, length_drop by lia. lia.
  - destruct Bs as [|b' Bs]; [|apply Forall_cons in HB as [[Hb' _] _]; simpl in *; rewrite length_app in *; lia].
    simpl in *. destruct o2; [|simpl in *; lia]. rewrite s32_small by lia. rewrite !app_nil_r. do 2 f_equal. lia.
Qed.

Lemma cbc_decrypt_loop_spec fuel Bs pre opre o len offset iv prev x last :
  Forall (is_block bs) Bs → Bs ≠ [] → length opre = length pre → length o = length (concat Bs) →
  offset = Z.of_nat (length pre) → len = offset + Z.of_nat (length (concat Bs)) → len < 2 ^ 31 →
  (length Bs < fuel)%nat → chained iv (pre ++ concat Bs) last = prev ++ x → is_block bs prev →
  cbc_decrypt_loop fuel cipher bs iv (pre ++ concat Bs) len offset last (opre ++ o) =
    Ok (len, opre ++ concat (cbc_dec (bc_dec ctx) prev Bs)).
Proof.
  pose proof bc_size as Hbs. unfold CIPHER_MAX_BLOCK_SIZE in Hbs. revert Bs pre opre o offset prev x last.
  induction fuel as [|fuel IH]; intros Bs pre opre o offset prev x last HB Hne Hop Ho Hoff Hlen Hmax Hf Hch Hprev; [lia|].
  destruct Bs as [|b Bs]; [done|]. apply Forall_cons in HB as [Hb HB]. simpl in Ho, Hf. rewrite length_app in Ho.
  pose proof Hb as [Hbl _]. pose proof Hprev as [Hpl _]. simpl in Hlen. rewrite length_app in Hlen.
  destruct (take_drop_Z o bs) as (o1 & o2 & -> & Ho1); [lia|]. rewrite length_app in Ho.
  cbn [cbc_decrypt_loop]. rewrite (drop_pre pre), (drop_pre opre) by lia. rewrite Hch. simpl concat.
  unfold cipher_decrypt. simpl interface. simpl context.
  rewrite bc_decrypt by done. rewrite result_bind_Ok. simpl negb. cbv iota.
  destruct (bc_dec_block ctx b Hctx Hb) as [Hfb Hfbb].
  pose proof (xor_in_place_spec (S (Z.to_nat bs)) [] [] (bc_dec ctx b) prev o2 x 0 bs) as Hxor.
  simpl app in Hxor. rewrite Hxor by (simpl; lia). rewrite result_bind_Ok, splice_pre by lia.
  assert (length (bxor (bc_dec ctx b) prev) = length b) as Hxl by (rewrite bxor_length; lia).
  rewrite u32_small by lia. destruct (Z.ltb_spec (offset + bs) len).
  - rewrite (app_assoc pre), (app_assoc opre).
    rewrite (IH Bs (pre ++ b) (opre ++ bxor (bc_dec ctx b) prev) o2 (offset + bs) b (concat Bs));
      [|done| |rewrite ?length_app; lia..| |done].
    + simpl. by rewrite <- app_assoc.
    + intros ->. simpl in *. lia.
    + simpl. rewrite <- app_assoc. apply drop_pre. lia.
  - destruct Bs as [|b' Bs]; [|apply Forall_cons in HB as [[Hb' _] _]; simpl in *; rewrite length_app in *; lia].
    simpl in *. destruct o2; [|simpl in *; lia]. rewrite s32_small by lia. rewrite !app_nil_r. do 2 f_equal. lia.
Qed.

(** *** Counter mode *)

Section Ctr.
Context (nonce_len : Z) (Hnl : bs - nonce_len <= 16).

Definition inc (nc : list Z) : list Z :=
  match crypto_block_inc_ctr nc (bs - nonce_len) with Ok nc => nc | Fault _ => nc end.

Lemma inc_spec nc :
  is_block 16 nc → crypto_block_inc_ctr nc (bs - nonce_len) = Ok (inc nc) ∧ is_block 16 (inc nc).
Proof. intros Hnc. unfold inc. destruct (inc_ctr_total nc _ Hnc Hnl) as (nc' & -> & ?). done. Qed.

(** The message combined with the encrypted counters, for at most [n] blocks. *)
Fixpoint ctr_xor (n : nat) (nc msg : list Z) : list Z :=
  match n with
  | O => []
  | S n => bxor (bc_enc ctx (take (Z.to_nat bs) nc)) msg ++ ctr_xor n (inc nc) (drop (Z.to_nat bs) msg)
  end.

Lemma take_block nc : is_block 16 nc → is_block bs (take (Z.to_nat bs) nc).
Proof.
  pose proof bc_size as Hbs. unfold CIPHER_MAX_BLOCK_SIZE in Hbs. intros [Hl Hb].
  split; [rewrite length_take; lia|by apply Forall_take].
Qed.

Lemma enc_ctr_length nc : is_block 16 nc → Z.of_nat (length (bc_enc ctx (take (Z.to_nat bs) nc))) = bs.
Proof. intros Hnc. by apply bc_enc_block, take_block. Qed.

Lemma ctr_xor_nil n nc : ctr_xor n nc [] = [].
Proof. revert nc. induction n as [|n IH]; intros nc; [done|]. cbn [ctr_xor]. by rewrite bxor_comm, drop_nil, IH. Qed.

Lemma ctr_xor_length n nc msg : is_block 16 nc → (length msg < n)%nat → length (ctr_xor n nc msg) = length msg.
Proof.
  pose proof bc_size as Hbs. revert nc msg. induction n as [|n IH]; intros nc msg Hnc Hn; [lia|]. cbn [ctr_xor].
  pose proof (enc_ctr_length nc Hnc). rewrite length_app. unfold bxor. rewrite length_zip_with.
  destruct msg as [|x msg]; [by rewrite drop_nil, ctr_xor_nil, Nat.min_0_r|].
  rewrite IH; [|by apply inc_spec|]; rewrite length_drop; simpl in *; lia.
Qed.

Lemma ctr_xor_bytes n nc msg : is_block 16 nc → Forall is_byte msg → Forall is_byte (ctr_xor n nc msg).
Proof.
  revert nc msg. induction n as [|n IH]; intros nc msg Hnc Hm; [constructor|]. cbn [ctr_xor]. apply Forall_app. split.
  - apply bxor_bytes; [|done]. by apply bc_enc_block, take_block.
  - apply IH; [by apply inc_spec|by apply Forall_drop].
Qed.

(** Applying the stream twice gives the message back. *)
Lemma ctr_xor_involutive n nc msg :
  is_block 16 nc → (length msg < n)%nat → ctr_xor n nc (ctr_xor n nc msg) = msg.
Proof.
  pose proof bc_size as Hbs. revert nc msg. induction n as [|n IH]; intros nc msg Hnc Hn; [lia|]. cbn [ctr_xor].
  pose proof (enc_ctr_length nc Hnc) as He. destruct (inc_spec nc Hnc) as [_ Hinc].
  set (k := bc_enc ctx (take (Z.to_nat bs) nc)) in *. destruct (decide (length msg <= Z.to_nat bs)%nat).
  - rewrite (drop_ge msg), ctr_xor_nil, app_nil_r by done.
    assert (length (bxor k msg) = length msg) as Hkl by (unfold bxor; rewrite length_zip_with; lia).
    rewrite (drop_ge (bxor k msg)), ctr_xor_nil, app_nil_r by lia.
    rewrite (bxor_take k (bxor k msg)), Hkl, (bxor_take k msg) by lia.
    rewrite bxor_comm, (bxor_comm _ msg). apply bxor_cancel. rewrite length_take. lia.
  - rewrite <- (take_drop (Z.to_nat bs) msg). set (m1 := take _ msg). set (m2 := drop _ msg).
    assert (length m1 = Z.to_nat bs) as H1 by (unfold m1; rewrite length_take; lia).
    assert (length m2 < n)%nat as H2 by (unfold m2; rewrite length_drop; lia).
    rewrite (bxor_app_r k m1), drop_app_length' by lia.
    assert (length (bxor k m1) = Z.to_nat bs) as Hkl by (rewrite bxor_length; lia).
    rewrite bxor_app_r, drop_app_length' by lia. rewrite IH by done. f_equal.
    rewrite bxor_comm, (bxor_comm k). apply bxor_cancel. lia.
Qed.

Lemma ctr_loop_spec fuel pre msg itail opre o otail len offset nc sb :
  length opre = length pre → length o = length msg → offset = Z.of_nat (length pre) →
  len = offset + Z.of_nat (length msg) → len < 2 ^ 31 → (length msg < fuel)%nat →
  is_block 16 nc → length sb = 16%nat →
  ∃ nc', ctr_loop fuel cipher bs nonce_len len offset nc sb (pre ++ msg ++ itail) (opre ++ o ++ otail) =
           Ok (len, opre ++ ctr_xor fuel nc msg ++ otail, nc') ∧ is_block 16 nc'.
Proof.
  pose proof bc_size as Hbs. unfold CIPHER_MAX_BLOCK_SIZE in Hbs. revert pre msg opre o offset nc sb.
  induction fuel as [|fuel IH]; intros pre msg opre o offset nc sb Hop Ho Hoff Hlen Hmax Hf Hnc Hsb; [lia|].
  cbn [ctr_loop]. unfold cipher_encrypt. simpl interface. simpl context.
  destruct (take_drop_Z sb bs) as (s1 & s2 & -> & Hs1); [lia|].
  assert (encrypt I ctx nc (s1 ++ s2) = Ok (1, bc_enc ctx (take (Z.to_nat bs) nc) ++ s2)) as ->.
  { rewrite <- (take_drop (Z.to_nat bs) nc) at 1. apply bc_encrypt; [done|by apply take_block|done]. }
  rewrite result_bind_Ok. simpl negb. cbv iota.
  pose proof (enc_ctr_length nc Hnc) as He. destruct (inc_spec nc Hnc) as [Einc Hinc].
  cbn [ctr_xor]. set (k := bc_enc ctx (take (Z.to_nat bs) nc)) in *.
  rewrite (u32_small (len - offset)) by lia.
  set (n := if bs <? len - offset then bs else u8 (len - offset)).
  assert (n = Z.min bs (Z.of_nat (length msg))) as Hn.
  { unfold n. destruct (Z.ltb_spec bs (len - offset)); [lia|]. unfold u8. rewrite Z.mod_small by lia. lia. }
  clearbody n. rewrite (drop_pre pre), (drop_pre opre) by lia.
  destruct (take_drop_Z msg n) as (m1 & m2 & -> & Hm1); [lia|]. rewrite length_app in *.
  destruct (take_drop_Z o n) as (o1 & o2 & -> & Ho1); [lia|]. rewrite length_app in *.
  destruct (take_drop_Z k n) as (k1 & k2 & Ek & Hk1); [lia|].
  pose proof (xor_to_spec (S (Z.to_nat n)) [] [] [] k1 m1 o1 (k2 ++ s2) (m2 ++ itail) (o2 ++ otail) 0 n) as Hxor.
  rewrite !app_nil_l, !app_assoc in Hxor. rewrite Ek, !app_assoc. rewrite Hxor by (simpl; lia).
  rewrite result_bind_Ok. rewrite <- !app_assoc. rewrite splice_pre by lia. rewrite Einc, result_bind_Ok.
  rewrite u32_small by lia.
  assert (bxor (k1 ++ k2) (m1 ++ m2) = bxor k1 m1) as Hbx.
  { destruct k2 as [|y k2].
    - rewrite app_nil_r. apply bxor_app_r. lia.
    - assert (m2 = []) as ->; [|rewrite app_nil_r, bxor_comm, bxor_app_r, bxor_comm by lia; done].
      destruct m2; [done|]. rewrite Ek, length_app in He. simpl in *. lia. }
  assert (drop (Z.to_nat bs) (m1 ++ m2) = m2) as Hdr.
  { destruct (decide (n = bs)) as [->|]; [apply drop_app_length'; lia|].
    assert (length m2 = 0%nat) as Hm2 by lia. apply nil_length_inv in Hm2 as ->. apply drop_ge. rewrite app_nil_r. lia. }
  rewrite Hbx, Hdr. assert (length (bxor k1 m1) = length m1) as Hbl by (rewrite bxor_length; lia).
  destruct (Z.ltb_spec (offset + n) len).
  - destruct (IH (pre ++ m1) m2 (opre ++ bxor k1 m1) o2 (offset + n) (inc nc) (k1 ++ k2 ++ s2)) as (nc' & E & Hnc');
      [rewrite ?length_app in *; lia..|done| |].
    { rewrite !length_app. rewrite Ek, length_app in He. lia. }
    rewrite <- !app_assoc in E. by exists nc'.
  - exists (inc nc). split; [|done]. assert (length m2 = 0%nat) as Hm2 by lia. apply nil_length_inv in Hm2 as ->.
    assert (length o2 = 0%nat) as Ho2 by (simpl in *; lia). apply nil_length_inv in Ho2 as ->.
    rewrite ctr_xor_nil. simpl in *. rewrite s32_small by lia. do 3 f_equal. lia.
Qed.
End Ctr.

(** *** CCM *)

Section Ccm.
Context (Hbs16 : bs = 16).

(** The CBC-MAC of a message, the last block filled up with zeros. *)
Fixpoint cbc_mac (n : nat) (mac msg : list Z) : list Z :=
  match n with
  | O => mac
  | S n =>
      let b := take 16 msg in
      let mac := bc_enc ctx (bxor mac (b ++ replicate (16 - length b) 0)) in
      if (length msg <=? 16)%nat then mac else cbc_mac n mac (drop 16 msg)
  end.

Lemma bxor_zeros a : bxor a (replicate (length a) 0) = a.
Proof. induction a as [|x a IH]; [done|]. unfold bxor in *. simpl. by rewrite Z.lxor_0_r, IH. Qed.

Lemma bxor_app a b c d : length a = length b → bxor (a ++ c) (b ++ d) = bxor a b ++ bxor c d.
Proof. intros Hab. unfold bxor. by apply zip_with_app. Qed.

Lemma bytes_zeros n : Forall is_byte (replicate n 0).
Proof. apply Forall_replicate. unfold is_byte. lia. Qed.

Lemma cbc_mac_loop_spec fuel pre msg tail len offset mac enc :
  offset = Z.of_nat (length pre) → len = offset + Z.of_nat (length msg) → len <= 255 →
  (length msg < fuel)%nat → is_block 16 mac → length enc = 16%nat → Forall is_byte msg →
  cbc_mac_loop fuel cipher bs (pre ++ msg ++ tail) len offset mac enc = Ok (len, cbc_mac fuel mac msg) ∧
  is_block 16 (cbc_mac fuel mac msg).
Proof.
  revert pre msg offset mac enc.
  induction fuel as [|fuel IH]; intros pre msg offset mac enc Hoff Hlen Hmax Hf Hmac Henc Hmsg; [lia|].
  cbn [cbc_mac_loop cbc_mac]. rewrite (u32_small (len - offset)) by lia.
  set (n := if bs <? len - offset then bs else u8 (len - offset)).
  assert (n = Z.min 16 (Z.of_nat (length msg))) as Hn.
  { unfold n. destruct (Z.ltb_spec bs (len - offset)); [lia|]. unfold u8. rewrite Z.mod_small by lia. lia. }
  clearbody n. rewrite (drop_pre pre) by lia.
  assert (length (take 16 msg) = Z.to_nat n) as Htl by (rewrite length_take; lia).
  set (b := take 16 msg) in *. pose proof Hmac as [Hml Hmb].
  destruct (take_drop_Z mac n) as (a & r & -> & Ha); [lia|]. rewrite length_app in Hml.
  assert (msg ++ tail = b ++ drop 16 msg ++ tail) as Hmt by (unfold b; by rewrite app_assoc, take_drop).
  pose proof (xor_in_place_spec (S (Z.to_nat n)) [] [] a b r (drop 16 msg ++ tail) 0 n) as Hxor.
  rewrite !app_nil_l in Hxor. rewrite Hmt, Hxor by (simpl; lia). rewrite result_bind_Ok.
  assert (bxor (a ++ r) (b ++ replicate (16 - length b) 0) = bxor a b ++ r) as ->.
  { rewrite bxor_app by lia. f_equal. replace (16 - length b)%nat with (length r) by lia. apply bxor_zeros. }
  assert (is_block bs (bxor a b ++ r)) as Hx.
  { apply Forall_app in Hmb as [? ?]. split; [rewrite length_app, bxor_length; lia|].
    apply Forall_app. split; [|done]. apply bxor_bytes; [done|]. by apply Forall_take. }
  unfold cipher_encrypt. simpl interface. simpl context.
  pose proof (bc_encrypt ctx (bxor a b ++ r) [] enc [] Hctx Hx ltac:(lia)) as He. rewrite !app_nil_r in He.
  rewrite He, result_bind_Ok. simpl negb. cbv iota.
  destruct (bc_enc_block ctx _ Hctx Hx) as [Hel Heb]. set (mac' := bc_enc ctx (bxor a b ++ r)) in *.
  rewrite memcpy_Ok by (rewrite ?length_app, ?bxor_length; lia). rewrite result_bind_Ok.
  assert (take (Z.to_nat 0) (bxor a b ++ r) ++ take (Z.to_nat bs) (drop (Z.to_nat 0) mac') ++
    drop (Z.to_nat (0 + bs)) (bxor a b ++ r) = mac') as ->.
  { change (Z.to_nat 0) with 0%nat. rewrite drop_0, (take_ge mac') by lia.
    rewrite (drop_ge (bxor a b ++ r)) by (rewrite length_app, bxor_length; lia). by rewrite take_0, app_nil_r. }
  assert (is_block 16 mac') as Hmac' by (split; [lia|done]).
  replace (u8 (offset + n)) with (offset + n) by (unfold u8; rewrite Z.mod_small; lia).
  destruct (Nat.leb_spec (length msg) 16).
  - replace (offset + n <? len) with false by lia. split; [|done]. do 2 f_equal. lia.
  - replace (offset + n <? len) with true by lia.
    rewrite <- Hmt, <- (take_drop 16 msg) at 1. fold b. rewrite <- app_assoc, (app_assoc pre).
    apply IH; [rewrite length_app; lia|rewrite length_drop; lia|lia|rewrite length_drop; lia|done| |by apply Forall_drop].
    lia.
Qed.

Lemma cbc_mac_spec iv msg tail len mac :
  len = Z.of_nat (length msg) → len <= 255 → is_block 16 iv → length mac = 16%nat → Forall is_byte msg →
  let t := cbc_mac (S (Z.to_nat len)) iv msg in
  ccm_compute_cbc_mac cipher iv (msg ++ tail) len mac = Ok (len, t) ∧ is_block 16 t.
Proof.
  intros Hlen Hmax Hiv Hm Hmsg t. unfold ccm_compute_cbc_mac, cipher_get_block_size. simpl interface.
  destruct Hiv as [Hivl Hivb]. rewrite memcpy_Ok by lia. rewrite result_bind_Ok.
  change (Z.to_nat 0) with 0%nat. rewrite drop_0, (take_ge iv) by lia.
  rewrite (drop_ge mac) by lia. rewrite take_0, app_nil_r, app_nil_l.
  apply (cbc_mac_loop_spec _ [] msg tail len 0); [done|simpl; lia|done|lia|done|done|done].
Qed.

Lemma aset_block (X : list Z) i v :
  is_block 16 X → 0 <= i < 16 → is_byte v → ∃ X', aset X i v = Ok X' ∧ is_block 16 X'.
Proof.
  intros [Hl Hb] Hi Hv. rewrite aset_Ok by lia. eexists. split; [done|].
  split; [by rewrite length_insert|by apply Forall_insert].
Qed.

Lemma memcpy_block (X src : list Z) o n :
  is_block 16 X → Forall is_byte src → 0 <= o → 0 <= n → o + n <= 16 → n <= Z.of_nat (length src) →
  ∃ X', memcpy X o src 0 n = Ok X' ∧ is_block 16 X'.
Proof.
  intros [Hl Hb] Hs Ho Hn Hon Hns. rewrite memcpy_Ok by lia. eexists. split; [done|]. split.
  - rewrite !length_app, !length_take, !length_drop. lia.
  - repeat apply Forall_app_2; auto using Forall_take, Forall_drop.
Qed.

Lemma zero_block : is_block 16 (replicate 16 0).
Proof. split; [done|apply bytes_zeros]. Qed.

Lemma length_loop_total X L n :
  is_block 16 X → 2 <= L <= 3 → 0 <= n <= 255 →
  ∃ X', length_loop 16 X 15 L n = Ok (X', 0) ∧ is_block 16 X'.
Proof.
  intros HX HL Hn. assert (L = 2 ∨ L = 3) as [-> | ->] by lia; cbn [length_loop].
  - change (16 - 2 <? 15) with true. cbv iota.
    destruct (aset_block X 15 (Z.land n 255)) as (X' & -> & HX'); [done|lia|apply land_255_byte|].
    rewrite result_bind_Ok. change (16 - 2 <? u8 (15 - 1)) with false. cbv iota. exists X'. split; [|done].
    do 2 f_equal. rewrite Z.shiftr_div_pow2 by lia. apply Z.div_small. lia.
  - change (16 - 3 <? 15) with true. cbv iota.
    destruct (aset_block X 15 (Z.land n 255)) as (X' & -> & HX'); [done|lia|apply land_255_byte|].
    rewrite result_bind_Ok. change (u8 (15 - 1)) with 14. change (16 - 3 <? 14) with true. cbv iota.
    destruct (aset_block X' 14 (Z.land (Z.shiftr n 8) 255)) as (X'' & -> & HX''); [done|lia|apply land_255_byte|].
    rewrite result_bind_Ok. change (16 - 3 <? u8 (14 - 1)) with false. cbv iota. exists X''. split; [|done].
    do 2 f_equal. rewrite Z.shiftr_shiftr, Z.shiftr_div_pow2 by lia. apply Z.div_small. lia.
Qed.

Lemma encrypt_in_place X : is_block 16 X → cipher_encrypt cipher X X = Ok (1, bc_enc ctx X) ∧ is_block 16 (bc_enc ctx X).
Proof.
  intros HX. assert (is_block bs X) as HX' by (by rewrite Hbs16). unfold cipher_encrypt. simpl.
  pose proof (bc_encrypt ctx X [] X [] Hctx HX' (proj1 HX')) as E. rewrite !app_nil_r in E. split; [done|].
  rewrite <- Hbs16. by apply bc_enc_block.
Qed.

Lemma create_mac_iv_total alen M L nonce nl n :
  2 <= L <= 3 → 0 <= nl → Forall is_byte nonce → Z.min nl (15 - L) <= Z.of_nat (length nonce) → 0 <= n <= 255 →
  ∃ X, ccm_create_mac_iv cipher alen M L nonce nl n (replicate 16 0) = Ok (0, X) ∧ is_block 16 X.
Proof.
  intros HL Hnl Hnb Hnon Hn. unfold ccm_create_mac_iv.
  destruct (memcpy_block (replicate 16 0) (replicate 16 0) 0 16) as (X0 & -> & H0);
    [apply zero_block|apply bytes_zeros|done..|]. rewrite result_bind_Ok.
  destruct (aset_block X0 0 (u8 (64 * b2z (0 <? alen) + 8 * u8 ((M - 2) ÷ 2) + u8 (L - 1)))) as (X1 & -> & H1);
    [done|lia|by apply Z.mod_pos_bound|]. rewrite result_bind_Ok.
  destruct (memcpy_block X1 nonce 1 (Z.min nl (15 - L))) as (X2 & -> & H2); [done|done|lia..|]. rewrite result_bind_Ok.
  destruct (length_loop_total X2 L n) as (X3 & -> & H3); [done..|]. rewrite result_bind_Ok. simpl (0 <? 0). cbv iota.
  destruct (encrypt_in_place X3 H3) as [-> H4]. rewrite result_bind_Ok. simpl negb. cbv iota. by eexists.
Qed.

Lemma adata_mac_total auth alen X :
  0 <= alen <= 24 → alen <= Z.of_nat (length auth) → Forall is_byte auth → is_block 16 X →
  ∃ X', ccm_compute_adata_mac cipher auth alen X = Ok (0, X') ∧ is_block 16 X'.
Proof.
  intros Ha Hal Hab HX. unfold ccm_compute_adata_mac. destruct (Z.ltb_spec 0 alen); [|by exists X].
  change (Z.shiftl 2 16) with 131072. replace (alen <? 131072) with true by lia.
  change (replicate 26 0) with ([0; 0] ++ replicate 24 0). set (b1 := Z.land alen 255).
  set (b0 := Z.land (Z.shiftr alen 8) 255).
  change (aset ([0; 0] ++ replicate 24 0) 1 b1) with (Ok ([0; b1] ++ replicate 24 0)). rewrite result_bind_Ok.
  change (aset ([0; b1] ++ replicate 24 0) 0 b0) with (Ok ([b0; b1] ++ replicate 24 0)). rewrite result_bind_Ok.
  rewrite memcpy_Ok by (rewrite ?length_app, ?length_replicate; simpl; lia). rewrite result_bind_Ok.
  change (Z.to_nat 2) with (length [b0; b1]). rewrite take_app_length. change (Z.to_nat 0) with 0%nat. rewrite drop_0.
  rewrite app_assoc.
  destruct (cbc_mac_spec X ([b0; b1] ++ take (Z.to_nat alen) auth) (drop (Z.to_nat (2 + alen)) ([b0; b1] ++ replicate 24 0))
    (u32 (alen + 2)) X) as [-> Ht].
  - rewrite length_app, length_take. simpl. rewrite u32_small by lia. lia.
  - rewrite u32_small by lia. lia.
  - done.
  - destruct HX. lia.
  - apply Forall_app. split; [|by apply Forall_take].
    rewrite !Forall_cons. split_and!; [apply land_255_byte..|by apply Forall_nil].
  - rewrite result_bind_Ok. rewrite u32_small in * by lia. replace (alen + 2 <? 0) with false by lia. by eexists.
Qed.

Lemma encrypt_ctr_spec nl nc msg itail o otail n :
  16 - nl <= 16 → is_block 16 nc → n = Z.of_nat (length msg) → n < 2 ^ 31 → length o = length msg →
  ∃ nc', cipher_encrypt_ctr cipher nc nl (msg ++ itail) n (o ++ otail) =
           Ok (n, ctr_xor nl (S (Z.to_nat n)) nc msg ++ otail, nc') ∧ is_block 16 nc'.
Proof.
  intros Hnl Hnc Hn Hmax Ho. unfold cipher_encrypt_ctr, cipher_get_block_size. simpl interface.
  apply (ctr_loop_spec nl ltac:(lia) _ [] msg itail [] o otail); [done|done|done|simpl; lia|lia|lia|done|done].
Qed.

(** The counter block and the first stream block, which both directions start with. *)
Lemma ccm_stream_total L nonce nl :
  2 <= L <= 3 → 0 <= nl <= 16 → Forall is_byte nonce → Z.min nl (15 - L) <= Z.of_nat (length nonce) →
  ∃ nc0 nc1 sb nc2 nc3,
    aset (replicate 16 0) 0 (u8 (L - 1)) = Ok nc0 ∧
    memcpy nc0 1 nonce 0 (Z.min (s32 nl) (15 - L)) = Ok nc1 ∧
    cipher_encrypt_ctr cipher nc1 bs (replicate 16 0) bs (replicate 16 0) = Ok (16, sb, nc2) ∧
    length sb = 16%nat ∧ Forall is_byte sb ∧
    crypto_block_inc_ctr nc2 (s32 (bs - nl)) = Ok nc3 ∧ is_block 16 nc3.
Proof.
  intros HL Hnl Hnb Hnon.
  destruct (aset_block (replicate 16 0) 0 (u8 (L - 1))) as (nc0 & E0 & H0);
    [apply zero_block|lia|by apply Z.mod_pos_bound|].
  rewrite (s32_small nl) by lia.
  destruct (memcpy_block nc0 nonce 1 (Z.min nl (15 - L))) as (nc1 & E1 & H1); [done|done|lia..|].
  destruct (encrypt_ctr_spec bs nc1 (replicate 16 0) [] (replicate 16 0) [] 16) as (nc2 & E2 & H2); [lia|done|done|lia|done|].
  rewrite !app_nil_r in E2. rewrite <- Hbs16 in E2 at 1.
  destruct (inc_ctr_total nc2 (s32 (bs - nl))) as (nc3 & E3 & H3); [done| |].
  { rewrite Hbs16, s32_small by lia. lia. }
  eexists nc0, nc1, _, nc2, nc3. split; [done|]. split; [done|]. split; [exact E2|]. split_and!; [|  |done|done].
  - rewrite (ctr_xor_length bs ltac:(lia)); [done|done|rewrite length_replicate; lia].
  - by apply (ctr_xor_bytes bs ltac:(lia)), bytes_zeros.
Qed.
End Ccm.
End Cipher.
