(* ===== verification/Crypto.v ===== *)
(** * The theorems on ciphers and their modes

    The modes are inverse to each other over every block cipher, and AES is
    one; the witnesses run the modes with AES. *)

From S2P Require Import Prelude Words Cipher Aes AesCorrect Modes.
Open Scope Z_scope.

(** ** AES *)

(** The contents of uninitialised stack memory for the witnesses. *)
Definition demo_aeskey : AES_KEY := Aes_key (replicate 60 0) 0.
Definition demo_key : list Z := [0; 1; 2; 3; 4; 5; 6; 7; 8; 9; 10; 11; 12; 13; 14; 15].
Definition demo_block : list Z := [10; 20; 30; 40; 50; 60; 70; 80; 90; 100; 110; 120; 130; 140; 150; 160].

Ltac solve_bytes := repeat (apply Forall_cons; split; [unfold is_byte; lia|]); apply Forall_nil; exact I.

Lemma demo_key_block : is_block 16 demo_key.
Proof. split; [reflexivity|]. solve_bytes. Qed.
Lemma demo_block_block : is_block 16 demo_block.
Proof. split; [reflexivity|]. solve_bytes. Qed.

(** C10: after [cipher_init] with AES and a key of 16 bytes, [cipher_encrypt]
    writes the block that FIPS 197 specifies for the key and the input, and
    [cipher_decrypt] of that block writes the input again; neither accesses
    anything outside the block, the context and the tables, and both return 1. *)
Theorem aes_is_fips197 K cipher0 key b rest out pad rest' out' pad' :
  length (rd_key K) = 60%nat → Z.of_nat (length (context cipher0)) = CIPHER_MAX_CONTEXT_SIZE →
  is_block 16 key → is_block 16 b → length out = 16%nat → length out' = 16%nat →
  ∃ c, cipher_init cipher0 (aes_interface K) key 16 = Ok (CIPHER_INIT_SUCCESS, c) ∧
    cipher_encrypt c (b ++ rest) (out ++ pad) = Ok (1, Fips.cipher key b ++ pad) ∧
    cipher_decrypt c (Fips.cipher key b ++ rest') (out' ++ pad') = Ok (1, b ++ pad').
Proof.
  intros HK Hc Hk Hb Ho Ho'. destruct (aes_init_spec (context cipher0) key 16 Hc Hk) as [E Hr]; [done|].
  exists (Cipher (aes_interface K) (repeated key 20)). unfold cipher_init.
  change (max_key_size (aes_interface K) <? 16) with false. change (init (aes_interface K)) with aes_init.
  rewrite E. split; [reflexivity|].
  assert (take 16 (repeated key 20) = key) as Ht.
  { destruct Hk as [Hl _]. rewrite repeated_full by lia. apply take_app_length'. lia. }
  unfold cipher_encrypt, cipher_decrypt. cbn [interface context].
  change (encrypt (aes_interface K)) with (aes_encrypt K). change (decrypt (aes_interface K)) with (aes_decrypt K).
  split.
  - rewrite (aes_encrypt_spec K HK) by done. by rewrite Ht.
  - rewrite (aes_decrypt_spec K HK); [|done| |done].
    + pose proof (aes_dec_cipher _ b Hr Hb) as Hd. rewrite Ht in Hd. by rewrite Hd.
    + destruct (cipher_quads (repeated key 20) b Hr Hb) as (s & Hs & Hcs & _). rewrite Ht in Hcs.
      rewrite Hcs. by apply quad_of_state_bytes.
Qed.

Lemma aes_is_fips197_witness :
  ∃ c, cipher_init (Cipher (aes_interface demo_aeskey) (replicate 20 0)) (aes_interface demo_aeskey) demo_key 16 =
         Ok (CIPHER_INIT_SUCCESS, c) ∧
    cipher_encrypt c (demo_block ++ []) (replicate 16 0 ++ [7]) = Ok (1, Fips.cipher demo_key demo_block ++ [7]) ∧
    cipher_decrypt c (Fips.cipher demo_key demo_block ++ []) (replicate 16 0 ++ []) = Ok (1, demo_block ++ []).
Proof.
  apply aes_is_fips197; [reflexivity|reflexivity|exact demo_key_block|exact demo_block_block|reflexivity|reflexivity].
Defined.

(** The unrolled rounds of [aes_encrypt] and [aes_decrypt], which
    FULL_UNROLL selects, compute for every key length what the loops compute:
    the same state, the same place in the key schedule and the same faults. *)
Theorem unrolled_is_loop round rk rounds s : rounds ∈ [10; 12; 14] →
  unrolled_rounds round rk rounds s = rounds_loop 8 round rk 0 (Z.shiftr rounds 1) s.
Proof.
  intros Hr. unfold unrolled_rounds. repeat (apply elem_of_cons in Hr as [->|Hr]); [..|by apply elem_of_nil in Hr];
    cbn -[rk4]; generalize (rk4 rk); intros r; vm_compute;
    repeat (match goal with |- context [r ?z] => destruct (r z); [|reflexivity] end); reflexivity.
Qed.

Lemma unrolled_is_loop_witness : unrolled_rounds te_round (replicate 60 0) 10 (1, 2, 3, 4) =
  rounds_loop 8 te_round (replicate 60 0) 0 (Z.shiftr 10 1) (1, 2, 3, 4).
Proof. apply unrolled_is_loop. left. Defined.

(** ** Modes *)

(** C25: cipher block chaining over any block cipher. Encrypting a message of
    one or more whole blocks returns its length and the chained blocks, and decrypting them
    with the same vector returns the message. (An empty message is not covered: the
    loops run at least once, see [cbc_empty_overruns].) *)
Theorem cbc_roundtrip I `{BlockCipher I} ctx iv pad Bs len out back :
  bc_ready ctx → is_block (block_size I) iv → Forall (is_block (block_size I)) Bs → Bs ≠ [] →
  len = Z.of_nat (length (concat Bs)) → len < 2 ^ 31 → Z.of_nat (length out) = len → Z.of_nat (length back) = len →
  let ct := concat (cbc_enc (bc_enc ctx) iv Bs) in
  cipher_encrypt_cbc (Cipher I ctx) (iv ++ pad) (concat Bs) len out = Ok (len, ct) ∧
  cipher_decrypt_cbc (Cipher I ctx) (iv ++ pad) ct len back = Ok (len, concat Bs).
Proof.
  intros Hc Hiv HB Hne Hlen Hmax Ho Hb ct. pose proof bc_size as Hbs.
  pose proof (concat_blocks _ _ HB) as HcB.
  assert (Forall (is_block (block_size I)) (cbc_enc (bc_enc ctx) iv Bs)) as HC.
  { apply cbc_enc_blocks; [|done..]. intros b Hb'. by apply bc_enc_block. }
  assert (length (cbc_enc (bc_enc ctx) iv Bs) = length Bs) as HCl.
  { clear. revert iv. induction Bs as [|b Bs IH]; intros iv; simpl; [done|]. by rewrite IH. }
  pose proof (concat_blocks _ _ HC) as HcC. rewrite HCl in HcC. unfold ct.
  assert (0 < length Bs)%nat by (destruct Bs; [done|simpl; lia]).
  assert ((len mod block_size I =? 0) = true) as Hmod.
  { apply Z.eqb_eq. rewrite Hlen, HcB, Z.mul_comm. apply Z.mod_mul. lia. }
  unfold cipher_encrypt_cbc, cipher_decrypt_cbc, cipher_get_block_size. simpl interface.
  replace (block_size I =? 0) with false by lia. rewrite Hmod. simpl negb. cbv iota. split.
  - apply (cbc_encrypt_loop_spec ctx Hc _ Bs [] [] out len 0 (iv ++ pad) iv pad None); try done; simpl; lia || nia.
  - pose proof (cbc_decrypt_loop_spec ctx Hc (S (Z.to_nat len)) (cbc_enc (bc_enc ctx) iv Bs) [] [] back len 0
      (iv ++ pad) iv pad None) as HD.
    rewrite !app_nil_l in HD. rewrite HD; [|done| |done|lia|done|simpl; lia|done|nia|done|done].
    + rewrite (cbc_dec_enc (block_size I)); [done|..|done|done]; intros b Hb'; [by apply bc_enc_block|by apply bc_dec_enc].
    + intros E. rewrite E in HCl. simpl in HCl. lia.
Qed.

Lemma demo_ready : bc_ready (BlockCipher := aes_block_cipher demo_aeskey eq_refl) (repeated demo_key 20).
Proof. split; [reflexivity|]. apply repeated_bytes; [simpl; lia|]. apply demo_key_block. Qed.

Lemma demo_blocks : Forall (is_block 16) [demo_key; demo_block].
Proof. apply Forall_cons. split; [exact demo_key_block|]. apply Forall_singleton, demo_block_block. Qed.

Lemma cbc_roundtrip_witness :
  ∃ ct, let c := Cipher (aes_interface demo_aeskey) (repeated demo_key 20) in
  cipher_encrypt_cbc c (demo_block ++ []) (concat [demo_key; demo_block]) 32 (replicate 32 0) = Ok (32, ct) ∧
  cipher_decrypt_cbc c (demo_block ++ []) ct 32 (replicate 32 0) = Ok (32, concat [demo_key; demo_block]).
Proof.
  eexists. apply (cbc_roundtrip (aes_interface demo_aeskey) (H := aes_block_cipher demo_aeskey eq_refl)
    (repeated demo_key 20) demo_block [] [demo_key; demo_block]);
    [exact demo_ready|exact demo_block_block|exact demo_blocks|discriminate|reflexivity|lia|reflexivity|reflexivity].
Defined.

(** The parameter checks of CCM. *)
Lemma ccm_sizes M L n a :
  M mod 2 = 0 → 4 <= M <= 16 → 2 <= L <= 3 → 0 <= a <= n → n <= 300 →
  (negb (M mod 2 =? 0) || (M <? 4) || (16 <? M))%bool = false ∧
  ∃ m, shift_two (8 * L) = Ok m ∧ ((L <? 2) || (8 <? L) || (m <? u32 (n - a)))%bool = false.
Proof.
  intros Hm HM HL Ha Hn. split; [rewrite Hm; simpl; lia|].
  assert (L = 2 ∨ L = 3) as [-> | ->] by lia; [exists 131072|exists 33554432]; (split; [reflexivity|]);
    rewrite u32_small by lia; lia.
Qed.

(** The comparison of tags. *)
Lemma tag_check (tag t1 s1 z t2 : list Z) M (x : list Z) n :
  Forall is_byte tag → Forall is_byte t1 → Forall is_byte s1 → Forall is_byte z → Forall is_byte t2 →
  Z.of_nat (length tag) = M → Z.of_nat (length t1) = M → Z.of_nat (length s1) = M →
  (eq ← crypto_equals (bxor tag s1 ++ z) (t1 ++ t2) M;
   if eq =? 0 then Ok (CCM_ERR_INVALID_CBC_MAC, x) else Ok (n, x)) =
    Ok (if decide (tag = bxor t1 s1) then n else CCM_ERR_INVALID_CBC_MAC, x).
Proof.
  intros Htag Ht1 Hs1 Hz Ht2 Hl Hl1 Hls.
  assert (length (bxor tag s1) = length tag) as Hxl by (apply bxor_length; lia).
  rewrite crypto_equals_spec; [|lia|rewrite length_app; lia|rewrite length_app; lia|..].
  2:{ apply Forall_app. split; [by apply bxor_bytes|done]. }
  2:{ by apply Forall_app. }
  rewrite !take_app_length' by lia. rewrite result_bind_Ok. case_decide as Hd.
  - subst tag. rewrite bxor_cancel by lia. by rewrite bool_decide_eq_true_2.
  - rewrite bool_decide_eq_false_2; [done|]. intros E. apply Hd. rewrite <- E. symmetry. apply bxor_cancel. lia.
Qed.

(** C12: counter with CBC-MAC, over any cipher with blocks of 16 bytes, for the
    parameters the code supports (messages of at most 255 bytes, at most 24
    bytes of additional data and not more than the message has). The encrypted
    message is as long as the message, followed by the tag; decryption with the
    same parameters returns the message if the tag that follows it is the one
    encryption wrote, and rejects every other tag. *)
Theorem ccm_authenticates I `{BlockCipher I} ctx auth alen M L nonce nl msg n out plain :
  bc_ready ctx → block_size I = 16 → M mod 2 = 0 → 4 <= M <= 16 → 2 <= L <= 3 →
  Forall is_byte auth → 0 <= alen <= 24 → alen <= Z.of_nat (length auth) → alen <= n →
  Forall is_byte nonce → 0 <= nl <= 16 → Z.min nl (15 - L) <= Z.of_nat (length nonce) →
  Forall is_byte msg → n = Z.of_nat (length msg) → n <= 255 →
  Z.of_nat (length out) = n + M → Z.of_nat (length plain) = n →
  ∃ ct tag, length ct = length msg ∧ Z.of_nat (length tag) = M ∧
    cipher_encrypt_ccm (Cipher I ctx) auth alen M L nonce nl msg n out = Ok (n + M, ct ++ tag) ∧
    ∀ tag', Forall is_byte tag' → Z.of_nat (length tag') = M →
      cipher_decrypt_ccm (Cipher I ctx) auth alen M L nonce nl (ct ++ tag') (n + M) plain =
        Ok (if decide (tag' = tag) then n else CCM_ERR_INVALID_CBC_MAC, msg).
Proof.
  intros Hc H16 HM2 HM HL Hau Hal Hall Haln Hnb Hnl Hnon Hmb Hn Hmax Hout Hplain.
  destruct (ccm_sizes M L n alen) as (EM & m & Esh & EL); [done|lia..|].
  destruct (ccm_sizes M L (n + M) alen) as (_ & m' & Esh' & EL'); [done|lia..|].
  assert (m' = m) as -> by congruence.
  destruct (create_mac_iv_total ctx Hc H16 (u8 alen) M L nonce (u8 nl) n) as (X & EX & HX); [done| |done| |lia|].
  { apply Z.mod_pos_bound. lia. }
  { unfold u8. rewrite Z.mod_small by lia. done. }
  destruct (adata_mac_total ctx Hc H16 auth alen X) as (X' & EX' & HX'); [done..|].
  destruct (cbc_mac_spec ctx Hc H16 X' msg [] n (replicate 16 0)) as [Et Ht]; [done|done|done|done|done|].
  rewrite app_nil_r in Et. set (t := cbc_mac ctx (S (Z.to_nat n)) X' msg) in *.
  destruct (ccm_stream_total ctx Hc H16 L nonce nl) as (nc0 & nc1 & sb & nc2 & nc3 & E0 & E1 & E2 & Hsl & Hsb & E3 & H3);
    [done..|].
  destruct (take_drop_Z out n) as (o & otail & -> & Ho); [lia|]. rewrite length_app in Hout.
  assert (u8 nl = nl) as Hu by (unfold u8; rewrite Z.mod_small; lia).
  destruct (encrypt_ctr_spec ctx Hc H16 nl nc3 msg [] o otail n) as (nc4 & E4 & _); [lia|done|done|lia|lia|].
  rewrite app_nil_r in E4. set (ct := ctr_xor ctx nl (S (Z.to_nat n)) nc3 msg) in *.
  assert (length ct = length msg) as Hct by (apply ctr_xor_length; [done|lia|done|lia]).
  destruct Ht as [Htl Htb]. destruct (take_drop_Z t M) as (t1 & t2 & Ett & Ht1); [lia|].
  destruct (take_drop_Z sb M) as (s1 & s2 & Ess & Hs1); [lia|].
  exists ct, (bxor t1 s1). split; [done|]. split; [rewrite bxor_length; lia|]. split.
  - unfold cipher_encrypt_ccm, cipher_get_block_size. simpl interface.
    rewrite EM, Esh, result_bind_Ok, EL, EX, result_bind_Ok. change (0 <? 0) with false. cbv iota.
    rewrite EX', result_bind_Ok, Et, result_bind_Ok. replace (n <? 0) with false by lia.
    rewrite E0, result_bind_Ok, E1, result_bind_Ok, E2, result_bind_Ok. change (16 <? 0) with false. cbv iota.
    rewrite E3, result_bind_Ok, Hu, E4, result_bind_Ok. replace (n <? 0) with false by lia.
    rewrite drop_pre by lia.
    pose proof (xor_to_spec (S (Z.to_nat M)) [] [] [] t1 s1 otail t2 s2 [] 0 M) as Hx.
    rewrite !app_nil_l, !app_nil_r, <- Ett, <- Ess in Hx. rewrite Hx by (simpl; lia). rewrite result_bind_Ok.
    by rewrite splice_pre by lia.
  - intros tag' Htb' Htl'. unfold cipher_decrypt_ccm, cipher_get_block_size. simpl interface.
    rewrite EM, Esh, result_bind_Ok, EL', E0, result_bind_Ok, E1, result_bind_Ok, E2, result_bind_Ok.
    change (16 <? 0) with false. cbv iota. rewrite E3, result_bind_Ok, Hu.
    replace (u8 (n + M - M)) with n by (unfold u8; rewrite Z.mod_small; lia).
    destruct (encrypt_ctr_spec ctx Hc H16 nl nc3 ct tag' plain [] n) as (nc5 & E5 & _); [lia|done|lia..|].
    rewrite app_nil_r in E5. rewrite E5, result_bind_Ok, app_nil_r. replace (n <? 0) with false by lia.
    assert (ctr_xor ctx nl (S (Z.to_nat n)) nc3 ct = msg) as -> by (apply ctr_xor_involutive; [done|lia|done|lia]).
    rewrite Hu in EX. rewrite EX, result_bind_Ok. change (0 <? 0) with false. cbv iota.
    rewrite EX', result_bind_Ok, Et, result_bind_Ok. replace (n <? 0) with false by lia.
    rewrite drop_pre by lia.
    pose proof (xor_to_spec (S (Z.to_nat M)) [] [] [] tag' s1 (replicate (Z.to_nat M) 0) [] s2
      (replicate (16 - Z.to_nat M) 0) 0 M) as Hx.
    rewrite !app_nil_l, app_nil_r, <- replicate_add, <- Ess in Hx.
    replace (Z.to_nat M + (16 - Z.to_nat M))%nat with 16%nat in Hx by lia.
    rewrite Hx by (simpl; rewrite ?length_replicate; lia). rewrite result_bind_Ok, Ett.
    rewrite Ett in Htb. rewrite Ess in Hsb. apply Forall_app in Htb as [? ?], Hsb as [? ?].
    rewrite tag_check; [done|done|done|done|apply bytes_zeros|done|lia..].
Qed.

Lemma ccm_authenticates_witness :
  ∃ ct tag, let c := Cipher (aes_interface demo_aeskey) (repeated demo_key 20) in
    length ct = 3%nat ∧ Z.of_nat (length tag) = 8 ∧
    cipher_encrypt_ccm c [9; 9] 2 8 2 demo_block 13 [1; 2; 3] 3 (replicate 11 0) = Ok (11, ct ++ tag) ∧
    ∀ tag', Forall is_byte tag' → Z.of_nat (length tag') = 8 →
      cipher_decrypt_ccm c [9; 9] 2 8 2 demo_block 13 (ct ++ tag') 11 [0; 0; 0] =
        Ok (if decide (tag' = tag) then 3 else CCM_ERR_INVALID_CBC_MAC, [1; 2; 3]).
Proof.
  apply (ccm_authenticates (aes_interface demo_aeskey) (H := aes_block_cipher demo_aeskey eq_refl)
    (repeated demo_key 20) [9; 9] 2 8 2 demo_block 13 [1; 2; 3] 3 (replicate 11 0) [0; 0; 0]);
    first [exact demo_ready | reflexivity | solve_bytes | (simpl; lia)].
Defined.

(** ** Limits of the code *)

(** The loops run their body before they test the length: an empty message is
    not empty for them. *)
Lemma cbc_empty_overruns c iv :
  0 < cipher_get_block_size c → cipher_encrypt_cbc c iv [] 0 [] = Fault OutOfBounds.
Proof.
  intros Hbs. unfold cipher_encrypt_cbc. replace (cipher_get_block_size c =? 0) with false by lia.
  rewrite Z.mod_0_l by lia. simpl negb. cbv iota. cbn [cbc_encrypt_loop Z.to_nat]. rewrite memcpy_out; [done|].
  right. change (length []) with O. lia.
Qed.

(** The offset of the CBC-MAC is a [uint8_t]: for 256 bytes or more the loop
    never ends regularly. *)
Lemma cbc_mac_never_ends fuel c bs input length offset mac enc r mac' :
  256 <= length → cbc_mac_loop fuel c bs input length offset mac enc = Ok (r, mac') → r = CIPHER_ERR_ENC_FAILED.
Proof.
  intros Hl. revert offset mac enc. induction fuel as [|fuel IH]; intros offset mac enc; [done|]. cbn [cbc_mac_loop].
  intros (m1 & _ & E)%result_bind_inv. apply result_bind_inv in E as ([q e] & _ & E).
  case_match; [congruence|]. apply result_bind_inv in E as (m2 & _ & E).
  match type of E with (if ?o <? _ then _ else _) = _ => assert (0 <= o < 256) by (apply Z.mod_pos_bound; lia) end.
  rewrite (proj2 (Z.ltb_lt _ _)) in E by lia. eauto.
Qed.

(** More than 24 bytes of additional data are copied behind their buffer. *)
Lemma adata_overruns c auth alen X :
  24 < alen < 131072 → ccm_compute_adata_mac c auth alen X = Fault OutOfBounds.
Proof.
  intros Ha. unfold ccm_compute_adata_mac. replace (0 <? alen) with true by lia.
  change (Z.shiftl 2 16) with 131072. replace (alen <? 131072) with true by lia.
  rewrite aset_Ok by (simpl; lia). rewrite result_bind_Ok.
  rewrite aset_Ok by (rewrite length_insert; simpl; lia). rewrite result_bind_Ok.
  rewrite memcpy_out; [done|]. left. rewrite !length_insert, length_replicate. lia.
Qed.

(** The documented length encodings from 4 on shift an [int] by its width. *)
Lemma ccm_bad_shift c auth alen M L nonce nl msg n out :
  M mod 2 = 0 → 4 <= M <= 16 → 4 <= L →
  cipher_encrypt_ccm c auth alen M L nonce nl msg n out = Fault BadShift.
Proof.
  intros Hm HM HL. unfold cipher_encrypt_ccm. rewrite Hm. replace (M <? 4) with false by lia.
  replace (16 <? M) with false by lia. simpl (_ || _)%bool. cbv iota. unfold shift_two.
  by replace (8 * L <? 30) with false by lia.
Qed.

(** A message shorter than its additional data is refused. *)
Lemma ccm_short_message c auth alen M L nonce nl msg n out :
  M mod 2 = 0 → 4 <= M <= 16 → 2 <= L <= 3 → 0 <= n < alen → alen < 2 ^ 31 →
  cipher_encrypt_ccm c auth alen M L nonce nl msg n out = Ok (CCM_ERR_INVALID_LENGTH_ENCODING, out).
Proof.
  intros Hm HM HL Hn Ha. unfold cipher_encrypt_ccm. rewrite Hm. replace (M <? 4) with false by lia.
  replace (16 <? M) with false by lia. simpl (_ || _)%bool. cbv iota.
  assert (u32 (n - alen) = n - alen + 4294967296) as Hu.
  { unfold u32. rewrite <- (Z.mod_add _ 1) by lia. apply Z.mod_small. lia. }
  assert (∃ m, shift_two (8 * L) = Ok m ∧ m <= 33554432) as (m & -> & Hmm).
  { assert (L = 2 ∨ L = 3) as [-> | ->] by lia; eexists; (split; [reflexivity|vm_compute; discriminate]). }
  rewrite result_bind_Ok, Hu. replace (m <? n - alen + 4294967296) with true by lia. by rewrite !orb_true_r.
Qed.
