(* ===== verification/Sha256.v ===== *)
(** * sys/hashes/sha256.c: SHA-256, HMAC and hash chains

    The machine is little-endian, so [be32enc_vect] swaps bytes (both of its
    branches do). Buffers are lists of bytes; [sizeof(size_t)] is 4. A digest is
    the value of the function that writes it. *)

From S2P Require Import Prelude Words.
Open Scope Z_scope.

(** ** The code *)

Definition SHA256_DIGEST_LENGTH : Z := 32.
Definition SHA256_INTERNAL_BLOCK_SIZE : Z := 64.

Definition Ch (x y z : Z) : Z := Z.lxor (Z.land x (Z.lxor y z)) z.
Definition Maj (x y z : Z) : Z := Z.lor (Z.land x (Z.lor y z)) (Z.land y z).
Definition SHR (x n : Z) : Z := Z.shiftr x n.
Definition ROTR (x n : Z) : Z := Z.lor (Z.shiftr x n) (u32 (Z.shiftl x (32 - n))).
Definition S0 (x : Z) : Z := Z.lxor (Z.lxor (ROTR x 2) (ROTR x 13)) (ROTR x 22).
Definition S1 (x : Z) : Z := Z.lxor (Z.lxor (ROTR x 6) (ROTR x 11)) (ROTR x 25).
Definition s0 (x : Z) : Z := Z.lxor (Z.lxor (ROTR x 7) (ROTR x 18)) (SHR x 3).
Definition s1 (x : Z) : Z := Z.lxor (Z.lxor (ROTR x 17) (ROTR x 19)) (SHR x 10).

(** The round constants, written four at a time. *)
Definition quad (a b c d : Z) : list Z := [a; b; c; d].

Definition K : list Z :=
  quad 0x428a2f98 0x71374491 0xb5c0fbcf 0xe9b5dba5 ++
  quad 0x3956c25b 0x59f111f1 0x923f82a4 0xab1c5ed5 ++
  quad 0xd807aa98 0x12835b01 0x243185be 0x550c7dc3 ++
  quad 0x72be5d74 0x80deb1fe 0x9bdc06a7 0xc19bf174 ++
  quad 0xe49b69c1 0xefbe4786 0x0fc19dc6 0x240ca1cc ++
  quad 0x2de92c6f 0x4a7484aa 0x5cb0a9dc 0x76f988da ++
  quad 0x983e5152 0xa831c66d 0xb00327c8 0xbf597fc7 ++
  quad 0xc6e00bf3 0xd5a79147 0x06ca6351 0x14292967 ++
  quad 0x27b70a85 0x2e1b2138 0x4d2c6dfc 0x53380d13 ++
  quad 0x650a7354 0x766a0abb 0x81c2c92e 0x92722c85 ++
  quad 0xa2bfe8a1 0xa81a664b 0xc24b8b70 0xc76c51a3 ++
  quad 0xd192e819 0xd6990624 0xf40e3585 0x106aa070 ++
  quad 0x19a4c116 0x1e376c08 0x2748774c 0x34b0bcb5 ++
  quad 0x391c0cb3 0x4ed8aa4a 0x5b9cca4f 0x682e6ff3 ++
  quad 0x748f82ee 0x78a5636f 0x84c87814 0x8cc70208 ++
  quad 0x90befffa 0xa4506ceb 0xbef9a3f7 0xc67178f2.

(** Words as bytes in big-endian order, and back. *)
Definition be32enc_vect (ws : list Z) : list Z := ws ≫= λ w, [byte0 w; byte1 w; byte2 w; byte3 w].

Fixpoint be32dec_vect (bytes : list Z) : list Z :=
  match bytes with a :: b :: c :: d :: bytes => w4 a b c d :: be32dec_vect bytes | _ => [] end.

(** [W[i] = s1(W[i - 2]) + W[i - 7] + s0(W[i - 15]) + W[i - 16]], [n] times. *)
Fixpoint schedule_loop (n : nat) (W : list Z) : list Z :=
  match n with
  | O => W
  | S n =>
      let i := length W in
      schedule_loop n
        (W ++ [u32 (s1 (W !!! (i - 2)%nat) + W !!! (i - 7)%nat + s0 (W !!! (i - 15)%nat) + W !!! (i - 16)%nat)])
  end.

(** One round; the working variables stay where they are and the index moves. *)
Definition mix_round (W : list Z) (S : list Z) (i : nat) : list Z :=
  let at_ k := S !!! ((k - i) mod 8)%nat in
  let e := at_ 68%nat in let f := at_ 69%nat in let g := at_ 70%nat in let h := at_ 71%nat in
  let t0 := u32 (h + S1 e + Ch e f g + W !!! i + K !!! i) in
  let a := at_ 64%nat in let b := at_ 65%nat in let c := at_ 66%nat in let d := at_ 67%nat in
  let t1 := u32 (S0 a + Maj a b c) in
  let S := <[((67 - i) mod 8)%nat := u32 (d + t0)]> S in
  <[((71 - i) mod 8)%nat := u32 (t0 + t1)]> S.

Definition sha256_transform (state block : list Z) : result (list Z) :=
  if (Z.of_nat (length block) <? 64) then Fault OutOfBounds
  else
    let W := schedule_loop 48 (be32dec_vect (take 64 block)) in
    let S := foldl (mix_round W) state (seq 0 64) in
    Ok (zip_with (λ x y, u32 (x + y)) state S).

Record sha256_context_t : Type := Sha256_context {
  state : list Z;
  count0 : Z;
  count1 : Z;
  buf : list Z
}.

Definition PAD : list Z := 0x80 :: replicate 63 0.

(** [while (len >= 64)] over the data from [src] on. *)
Fixpoint blocks_loop (fuel : nat) (st src : list Z) (len : Z) : result (list Z * list Z * Z) :=
  match fuel with
  | O => Fault OutOfFuel
  | S fuel =>
      if 64 <=? len then
        st ← sha256_transform st src;
        blocks_loop fuel st (drop 64 src) (len - 64)
      else Ok (st, src, len)
  end.

Definition sha256_update (ctx : sha256_context_t) (data : list Z) (len : Z) : result sha256_context_t :=
  let r := Z.land (Z.shiftr (count1 ctx) 3) 0x3f in
  let bitlen1 := u32 (Z.shiftl len 3) in
  let bitlen0 := Z.shiftr len 29 in
  let c1 := u32 (count1 ctx + bitlen1) in
  let c0 := if c1 <? bitlen1 then u32 (count0 ctx + 1) else count0 ctx in
  let c0 := u32 (c0 + bitlen0) in
  if len <? 64 - r then
    b ← memcpy (buf ctx) r data 0 len;
    Ok (Sha256_context (state ctx) c0 c1 b)
  else
    b ← memcpy (buf ctx) r data 0 (64 - r);
    st ← sha256_transform (state ctx) b;
    '(st, src, len) ← blocks_loop (S (Z.to_nat len)) st (drop (Z.to_nat (64 - r)) data) (len - (64 - r));
    b ← memcpy b 0 src 0 len;
    Ok (Sha256_context st c0 c1 b).

Definition sha256_pad (ctx : sha256_context_t) : result sha256_context_t :=
  let len := be32enc_vect [count0 ctx; count1 ctx] in
  let r := Z.land (Z.shiftr (count1 ctx) 3) 0x3f in
  let plen := if r <? 56 then 56 - r else 120 - r in
  ctx ← sha256_update ctx PAD plen;
  sha256_update ctx len 8.

(** The buffer keeps what the memory held before. *)
Definition sha256_init (ctx : sha256_context_t) : sha256_context_t :=
  Sha256_context
    [0x6A09E667; 0xBB67AE85; 0x3C6EF372; 0xA54FF53A; 0x510E527F; 0x9B05688C; 0x1F83D9AB; 0x5BE0CD19]
    0 0 (buf ctx).

(** The digest and the cleared context. *)
Definition sha256_final (ctx : sha256_context_t) : result (list Z * sha256_context_t) :=
  ctx ← sha256_pad ctx;
  Ok (be32enc_vect (take 8 (state ctx)), Sha256_context (replicate 8 0) 0 0 (replicate 64 0)).

(** Elements of the array of waypoints: index and element. *)
Notation waypoint := (Z * list Z)%type.

Section Local.
(** The contents of an uninitialised local context. *)
Variable c : sha256_context_t.

Definition sha256 (data : list Z) (len : Z) : result (list Z) :=
  ctx ← sha256_update (sha256_init c) data len;
  '(digest, _) ← sha256_final ctx;
  Ok digest.

(** *** HMAC *)

Record hmac_context_t : Type := Hmac_context {
  c_in : sha256_context_t;
  c_out : sha256_context_t
}.

Definition hmac_sha256_init (ctx : hmac_context_t) (key : list Z) (key_length : Z) : result hmac_context_t :=
  let k := replicate 64 0 in
  k ← (if SHA256_INTERNAL_BLOCK_SIZE <? key_length then
         d ← sha256 key key_length; memcpy k 0 d 0 SHA256_DIGEST_LENGTH
       else memcpy k 0 key 0 key_length);
  let o_key_pad := Z.lxor 0x5c <$> k in
  let i_key_pad := Z.lxor 0x36 <$> k in
  i ← sha256_update (sha256_init (c_in ctx)) i_key_pad SHA256_INTERNAL_BLOCK_SIZE;
  o ← sha256_update (sha256_init (c_out ctx)) o_key_pad SHA256_INTERNAL_BLOCK_SIZE;
  Ok (Hmac_context i o).

Definition hmac_sha256_update (ctx : hmac_context_t) (data : list Z) (len : Z) : result hmac_context_t :=
  i ← sha256_update (c_in ctx) data len; Ok (Hmac_context i (c_out ctx)).

Definition hmac_sha256_final (ctx : hmac_context_t) : result (list Z * hmac_context_t) :=
  '(tmp, i) ← sha256_final (c_in ctx);
  o ← sha256_update (c_out ctx) tmp SHA256_DIGEST_LENGTH;
  '(digest, o) ← sha256_final o;
  Ok (digest, Hmac_context i o).

(** [digest] says whether the caller passed a buffer. The value is the digest
    and what the returned pointer points to. *)
Definition hmac_sha256 (ctx : hmac_context_t) (key : list Z) (key_length : Z) (data : list Z) (len : Z) (digest : bool)
  : result (list Z * option (list Z)) :=
  ctx ← hmac_sha256_init ctx key key_length;
  ctx ← hmac_sha256_update ctx data len;
  '(d, _) ← hmac_sha256_final ctx;
  Ok (d, if digest then Some d else None).

(** *** Hash chains *)

Definition sha256_inplace (element : list Z) : result (list Z) :=
  ctx ← sha256_update (sha256_init c) element SHA256_DIGEST_LENGTH;
  '(d, _) ← sha256_final ctx;
  Ok d.

(** [n] times [sha256_inplace(tmp_element)]. *)
Fixpoint inplace_loop (n : nat) (element : list Z) : result (list Z) :=
  match n with
  | O => Ok element
  | S n => e ← sha256_inplace element; inplace_loop n e
  end.

Definition sha256_chain (seed : list Z) (seed_length elements : Z) : result (list Z) :=
  _ ← assert_ (2 <=? elements);
  tmp ← sha256 seed seed_length;
  inplace_loop (Z.to_nat (elements - 1)) tmp.

Fixpoint full_loop (n : nat) (waypoints : list waypoint) (i : Z) : result (list waypoint) :=
  match n with
  | O => Ok waypoints
  | S n =>
      w ← aget waypoints (i - 1);
      ctx ← sha256_update (sha256_init c) w.2 SHA256_DIGEST_LENGTH;
      '(d, _) ← sha256_final ctx;
      waypoints ← aset waypoints i (i, d);
      full_loop n waypoints (i + 1)
  end.

Fixpoint streak_loop (n : nat) (streak : Z) (waypoints : list waypoint) (tmp : list Z) (index j : Z)
  : result (list waypoint * list Z * Z * Z) :=
  match n with
  | O => Ok (waypoints, tmp, index, j)
  | S n =>
      tmp ← inplace_loop (Z.to_nat streak) tmp;
      let index := index + streak in
      waypoints ← aset waypoints j (index, tmp);
      streak_loop n streak waypoints tmp index (j + 1)
  end.

(** The value is the tail element, the waypoints and the new length. *)
Definition sha256_chain_with_waypoints (seed : list Z) (seed_length elements : Z) (waypoints : list waypoint)
    (waypoints_length : Z) : result (list Z * list waypoint * Z) :=
  _ ← assert_ (2 <=? elements);
  _ ← assert_ (0 <? waypoints_length);
  _ ← assert_ (1 <? waypoints_length);
  if elements <=? waypoints_length then
    d ← sha256 seed seed_length;
    waypoints ← aset waypoints 0 (0, d);
    waypoints ← full_loop (Z.to_nat (elements - 1)) waypoints 1;
    w ← aget waypoints (elements - 1);
    Ok (w.2, waypoints, elements - 1)
  else
    let streak := elements / waypoints_length in
    tmp ← sha256 seed seed_length;
    tmp ← inplace_loop (Z.to_nat (streak - 1)) tmp;
    waypoints ← aset waypoints 0 (streak - 1, tmp);
    '(waypoints, tmp, index, j) ←
      streak_loop (Z.to_nat (waypoints_length - 1)) streak waypoints tmp (streak - 1) 1;
    tmp ← inplace_loop (Z.to_nat (elements - 1 - index)) tmp;
    Ok (tmp, waypoints, j - 1).

Definition sha256_chain_verify_element (element : list Z) (element_index : Z) (tail_element : list Z)
    (chain_length : Z) : result Z :=
  let delta_count := s32 (chain_length - element_index) in
  _ ← assert_ (1 <=? delta_count);
  tmp ← memcpy (replicate 32 0) 0 element 0 SHA256_DIGEST_LENGTH;
  tmp ← inplace_loop (Z.to_nat (delta_count - 1)) tmp;
  if Z.of_nat (length tail_element) <? SHA256_DIGEST_LENGTH then Fault OutOfBounds
  else Ok (b2z (negb (bool_decide (tmp = take 32 tail_element)))).
End Local.

(** The digest of "abc". *)
Example sha256_abc :
  sha256 (Sha256_context [] 0 0 (replicate 64 7)) [97; 98; 99] 3 =
    Ok (be32enc_vect [0xba7816bf; 0x8f01cfea; 0x414140de; 0x5dae2223; 0xb00361a3; 0x96177a9c; 0xb410ff61; 0xf20015ad]).
Proof. vm_compute. reflexivity. Qed.
