(* ===== verification/Sha256Correct.v ===== *)
(** * SHA-256 against FIPS 180-4

    [Fips180] is the standard: padding, message schedule and compression with
    working variables that move. The code compresses in place and takes the
    message in pieces; [ctx_rep] says which bytes a context has taken. *)

From S2P Require Import Prelude Words Sha256.
Open Scope Z_scope.

Module Fips180.

Definition ch (x y z : Z) : Z := Z.lxor (Z.land x y) (Z.land (Z.lnot x) z).
Definition maj (x y z : Z) : Z := Z.lxor (Z.lxor (Z.land x y) (Z.land x z)) (Z.land y z).
Definition add (x y : Z) : Z := (x + y) mod 2 ^ 32.

(** The working variables [a] to [h]. *)
Definition vars : Type := Z * Z * Z * Z * Z * Z * Z * Z.

Definition round (W : list Z) (v : vars) (t : nat) : vars :=
  let '(a, b, c, d, e, f, g, h) := v in
  let T1 := add (add (add (add h (S1 e)) (ch e f g)) (K !!! t)) (W !!! t) in
  let T2 := add (S0 a) (maj a b c) in
  (add T1 T2, a, b, c, add d T1, e, f, g).

Fixpoint schedule (n : nat) (W : list Z) : list Z :=
  match n with
  | O => W
  | S n =>
      let t := length W in
      schedule n (W ++ [add (add (add (s1 (W !!! (t - 2)%nat)) (W !!! (t - 7)%nat)) (s0 (W !!! (t - 15)%nat)))
                            (W !!! (t - 16)%nat)])
  end.

Definition vars_of (H : list Z) : vars :=
  (H !!! 0%nat, H !!! 1%nat, H !!! 2%nat, H !!! 3%nat, H !!! 4%nat, H !!! 5%nat, H !!! 6%nat, H !!! 7%nat).

Definition compress (H block : list Z) : list Z :=
  let W := schedule 48 (be32dec_vect block) in
  let '(a, b, c, d, e, f, g, h) := foldl (round W) (vars_of H) (seq 0 64) in
  zip_with add H [a; b; c; d; e; f; g; h].

Definition H0 : list Z :=
  [0x6a09e667; 0xbb67ae85; 0x3c6ef372; 0xa54ff53a; 0x510e527f; 0x9b05688c; 0x1f83d9ab; 0x5be0cd19].

(** The bytes of a 64-bit number, the most significant one first. *)
Definition be64 (n : Z) : list Z := (λ k, (n / 2 ^ k) mod 256) <$> [56; 48; 40; 32; 24; 16; 8; 0].

(** A one bit, the least number of zero bits that makes room for the length,
    and the length in bits. *)
Definition padding (l : Z) : list Z := 0x80 :: replicate (Z.to_nat ((55 - l) mod 64)) 0 ++ be64 ((8 * l) mod 2 ^ 64).

Definition padded (m : list Z) : list Z := m ++ padding (Z.of_nat (length m)).

(** The first [n] blocks of a message. *)
Fixpoint blocks (n : nat) (H m : list Z) : list Z :=
  match n with O => H | S n => blocks n (compress H (take 64 m)) (drop 64 m) end.

Definition sha256 (m : list Z) : list Z :=
  be32enc_vect (blocks (length (padded m) / 64) H0 (padded m)).

End Fips180.

(** ** Compression *)

Lemma Ch_ch x y z : Ch x y z = Fips180.ch x y z.
Proof.
  unfold Ch, Fips180.ch. apply Z.bits_inj'. intros i Hi. rewrite !Z.lxor_spec, !Z.land_spec, Z.lnot_spec, Z.lxor_spec by done.
  destruct (Z.testbit x i), (Z.testbit y i), (Z.testbit z i); done.
Qed.

Lemma Maj_maj x y z : Maj x y z = Fips180.maj x y z.
Proof.
  unfold Maj, Fips180.maj. apply Z.bits_inj'. intros i Hi.
  rewrite !Z.lxor_spec, !Z.lor_spec, !Z.land_spec, !Z.lor_spec.
  destruct (Z.testbit x i), (Z.testbit y i), (Z.testbit z i); done.
Qed.

Lemma add_u32 x y : u32 (u32 x + y) = u32 (x + y).
Proof. unfold u32. by rewrite Zplus_mod_idemp_l. Qed.

Lemma add_u32_2 x y z : u32 (u32 x + y + z) = u32 (x + y + z).
Proof. by rewrite <-!Z.add_assoc, add_u32. Qed.

Lemma add_eq x y : Fips180.add x y = u32 (x + y).
Proof. done. Qed.

Lemma schedule_eq n W : schedule_loop n W = Fips180.schedule n W.
Proof.
  revert W. induction n as [|n IH]; intros W; [done|]. cbn [schedule_loop Fips180.schedule]. rewrite IH. do 3 f_equal.
  rewrite !add_eq. by repeat rewrite ?add_u32, ?add_u32_2.
Qed.

(** The working variables before round [i]. *)
Definition vars_at (i : nat) (S : list Z) : Fips180.vars :=
  let at_ k := S !!! ((k - i) mod 8)%nat in
  (at_ 64%nat, at_ 65%nat, at_ 66%nat, at_ 67%nat, at_ 68%nat, at_ 69%nat, at_ 70%nat, at_ 71%nat).

(** The round of the code on moving variables. *)
Definition code_round (W : list Z) (v : Fips180.vars) (t : nat) : Fips180.vars :=
  let '(a, b, c, d, e, f, g, h) := v in
  let t0 := u32 (h + S1 e + Ch e f g + W !!! t + K !!! t) in
  (u32 (t0 + u32 (S0 a + Maj a b c)), a, b, c, u32 (d + t0), e, f, g).

Lemma sum5_eq a b c d e :
  u32 (a + b + c + e + d) = Fips180.add (Fips180.add (Fips180.add (Fips180.add a b) c) d) e.
Proof.
  rewrite !add_eq. repeat rewrite ?add_u32, ?add_u32_2.
  f_equal. lia.
Qed.

Lemma code_round_eq W v t : code_round W v t = Fips180.round W v t.
Proof.
  destruct v as [[[[[[[a b] c] d] e] f] g] h]. unfold code_round, Fips180.round.
  by rewrite sum5_eq, Ch_ch, Maj_maj.
Qed.

Lemma length_8 (l : list Z) : length l = 8%nat →
  ∃ a b c d e f g h, l = [a; b; c; d; e; f; g; h].
Proof. intros Hl. do 9 (destruct l as [|? l]; try done). by repeat eexists. Qed.

Lemma mix_round_length W S i : length (mix_round W S i) = length S.
Proof. unfold mix_round. by rewrite !length_insert. Qed.

(** A round in place is a round on variables that move. *)
Lemma mix_round_step W S i : (i < 64)%nat → length S = 8%nat →
  vars_at (i + 1) (mix_round W S i) = Fips180.round W (vars_at i S) i.
Proof.
  intros Hi (a & b & c & d & e & f & g & h & ->)%length_8. rewrite <-code_round_eq.
  unfold mix_round, code_round, vars_at. generalize K. intros K'.
  do 64 (destruct i as [|i]; [reflexivity|]). lia.
Qed.

Lemma mix_rounds_length W S l : length (foldl (mix_round W) S l) = length S.
Proof. revert S. induction l as [|i l IH]; intros S; [done|]. cbn [foldl]. by rewrite IH, mix_round_length. Qed.

Lemma mix_rounds W S n : (n <= 64)%nat → length S = 8%nat →
  vars_at n (foldl (mix_round W) S (seq 0 n)) = foldl (Fips180.round W) (vars_at 0 S) (seq 0 n).
Proof.
  intros Hn HS. induction n as [|n IH]; [done|]. rewrite seq_S, !foldl_app. cbn [foldl Nat.add].
  rewrite <-IH by lia. rewrite <-Nat.add_1_r. apply mix_round_step; [lia|]. by rewrite mix_rounds_length.
Qed.

Lemma sha256_transform_Ok st b : length st = 8%nat → (64 <= length b)%nat →
  sha256_transform st b = Ok (Fips180.compress st (take 64 b)).
Proof.
  intros Hst Hb. unfold sha256_transform. destruct (Z.ltb_spec (Z.of_nat (length b)) 64); [lia|]. f_equal.
  unfold Fips180.compress. rewrite schedule_eq. set (W := Fips180.schedule _ _).
  pose proof (mix_rounds W st 64 (le_n _) Hst) as Hmix.
  pose proof (mix_rounds_length W st (seq 0 64)) as Hlen. rewrite Hst in Hlen.
  change (Fips180.vars_of st) with (vars_at 0 st). rewrite <-Hmix.
  destruct (length_8 _ Hlen) as (a & b' & c & d & e & f & g & h & ->). done.
Qed.

Lemma compress_length st b : length st = 8%nat → length (Fips180.compress st b) = 8%nat.
Proof.
  intros Hst. unfold Fips180.compress.
  destruct (foldl _ _ _) as [[[[[[[a b'] c] d] e] f] g] h]. by rewrite length_zip_with, Hst.
Qed.

(** ** Blocks *)

Lemma blocks_length n H m : length H = 8%nat → length (Fips180.blocks n H m) = 8%nat.
Proof. revert H m. induction n as [|n IH]; intros H m HH; [done|]. by apply IH, compress_length. Qed.

Lemma blocks_add n k H m : Fips180.blocks (n + k) H m = Fips180.blocks k (Fips180.blocks n H m) (drop (64 * n) m).
Proof.
  revert H m. induction n as [|n IH]; intros H m; [done|]. cbn [Nat.add Fips180.blocks]. rewrite IH, drop_drop.
  do 2 f_equal. lia.
Qed.

(** Blocks depend only on the bytes they take. *)
Lemma blocks_app n H m x : (64 * n <= length m)%nat → Fips180.blocks n H (m ++ x) = Fips180.blocks n H m.
Proof.
  revert H m. induction n as [|n IH]; intros H m Hm; [done|]. cbn [Fips180.blocks].
  rewrite take_app_le, drop_app_le by lia. apply IH. rewrite length_drop. lia.
Qed.

Lemma blocks_loop_Ok fuel st src len : length st = 8%nat →
  (len < fuel)%nat → (len <= length src)%nat →
  blocks_loop fuel st src (Z.of_nat len) =
    Ok (Fips180.blocks (len / 64) st src, drop (64 * (len / 64)) src, Z.of_nat (len mod 64)).
Proof.
  revert st src len. induction fuel as [|fuel IH]; intros st src len Hst Hf Hlen; [lia|]. cbn [blocks_loop].
  destruct (Z.leb_spec 64 (Z.of_nat len)).
  - rewrite sha256_transform_Ok by (done || lia). rewrite result_bind_Ok.
    replace (Z.of_nat len - 64) with (Z.of_nat (len - 64)) by lia.
    rewrite IH; [|by apply compress_length|lia|rewrite length_drop; lia].
    assert (Hq : (len / 64 = S ((len - 64) / 64))%nat).
    { replace len with (1 * 64 + (len - 64))%nat at 1 by lia. rewrite Nat.div_add_l by lia. done. }
    rewrite Hq. cbn [Fips180.blocks]. rewrite drop_drop. do 3 f_equal; [f_equal; lia|].
    replace len with (len - 64 + 1 * 64)%nat at 2 by lia. by rewrite Nat.Div0.mod_add.
  - rewrite Nat.div_small, Nat.mod_small by lia. done.
Qed.

(** ** The context *)

(** The context has taken the bytes [m]. *)
Record ctx_rep (ctx : sha256_context_t) (m : list Z) : Prop := {
  rep_state : state ctx = Fips180.blocks (length m / 64) Fips180.H0 m;
  rep_buf : length (buf ctx) = 64%nat;
  rep_rest : take (length m mod 64) (buf ctx) = drop (64 * (length m / 64)) m;
  rep_c0 : 0 <= count0 ctx < 2 ^ 32;
  rep_c1 : 0 <= count1 ctx < 2 ^ 32;
  rep_count : count0 ctx * 2 ^ 32 + count1 ctx = (8 * Z.of_nat (length m)) mod 2 ^ 64
}.

Lemma ctx_rep_init ctx : length (buf ctx) = 64%nat → ctx_rep (sha256_init ctx) [].
Proof. by split. Qed.

(** The number of bytes in the buffer. *)
Lemma rep_r ctx m : ctx_rep ctx m → Z.land (Z.shiftr (count1 ctx) 3) 0x3f = Z.of_nat (length m mod 64).
Proof.
  intros [_ _ _ H0 H1 Hc]. change 0x3f with (Z.ones 6). rewrite Z.land_ones, Z.shiftr_div_pow2 by lia.
  rewrite Nat2Z.inj_mod. change (2 ^ 32) with 4294967296 in *. change (2 ^ 64) with 18446744073709551616 in *.
  change (2 ^ 3) with 8. change (2 ^ 6) with 64. dlia.
Qed.

(** Adding to the 64-bit bit count in two words. *)
Lemma count_add c0 c1 n len : 0 <= c0 < 2 ^ 32 → 0 <= c1 < 2 ^ 32 → 0 <= n → 0 <= len < 2 ^ 32 →
  c0 * 2 ^ 32 + c1 = (8 * n) mod 2 ^ 64 →
  let b1 := u32 (Z.shiftl len 3) in
  let c1' := u32 (c1 + b1) in
  u32 ((if c1' <? b1 then u32 (c0 + 1) else c0) + Z.shiftr len 29) * 2 ^ 32 + c1' = (8 * (n + len)) mod 2 ^ 64.
Proof.
  intros H0 H1 Hn Hlen Hc. cbv zeta. rewrite Z.shiftl_mul_pow2, Z.shiftr_div_pow2 by lia. unfold u32.
  change (2 ^ 32) with 4294967296 in *. change (2 ^ 64) with 18446744073709551616 in *.
  change (2 ^ 3) with 8. change (2 ^ 29) with 536870912.
  destruct (Z.ltb_spec ((c1 + (len * 8) mod 4294967296) mod 4294967296) ((len * 8) mod 4294967296)); dlia.
Qed.

Lemma u32_range z : 0 <= u32 z < 2 ^ 32.
Proof. by apply Z.mod_pos_bound. Qed.

Lemma div_mod_split a b : (a = 64 * (a / 64) + a mod 64 ∧ a mod 64 < 64 ∧
  (a + b) / 64 = a / 64 + (a mod 64 + b) / 64 ∧ (a + b) mod 64 = (a mod 64 + b) mod 64)%nat.
Proof.
  pose proof (Nat.div_mod_eq a 64) as Ha. pose proof (Nat.mod_upper_bound a 64 ltac:(lia)).
  repeat split; [lia|lia| |by rewrite Nat.Div0.add_mod_idemp_l].
  rewrite Ha at 1. by rewrite <-Nat.add_assoc, (Nat.mul_comm 64), Nat.div_add_l by lia.
Qed.

(** The block that [d] completes. *)
Lemma full_block (m d : list Z) q r : length m = (64 * q + r)%nat → (r < 64)%nat → (64 - r <= length d)%nat →
  drop (64 * q) m ++ take (64 - r) d = take 64 (drop (64 * q) (m ++ d)) ∧
  drop (64 * S q) (m ++ d) = drop (64 - r) d.
Proof.
  intros Hm Hr Hd. split.
  - rewrite drop_app_le by lia. rewrite take_app, (take_ge (drop _ _)) by (rewrite length_drop; lia).
    do 2 f_equal. rewrite length_drop. lia.
  - rewrite drop_app, drop_ge by lia. cbn [app]. f_equal. lia.
Qed.

(** Taking the rest of a message after a full block. *)
Lemma blocks_rest q k H M : Fips180.blocks k (Fips180.compress (Fips180.blocks q H M) (take 64 (drop (64 * q) M))) (drop (64 * S q) M) =
  Fips180.blocks (q + S k) H M.
Proof. rewrite blocks_add. cbn [Fips180.blocks]. rewrite drop_drop. do 2 f_equal. lia. Qed.

(** [sha256_update] takes the bytes it is given, in any number. *)
Lemma sha256_update_Ok ctx m d x : ctx_rep ctx m → Z.of_nat (length d) < 2 ^ 32 →
  ∃ ctx', sha256_update ctx (d ++ x) (Z.of_nat (length d)) = Ok ctx' ∧ ctx_rep ctx' (m ++ d).
Proof.
  intros Hrep Hd. pose proof (rep_r _ _ Hrep) as Hr. destruct Hrep as [Hst Hb Hrest H0 H1 Hc].
  pose proof (count_add _ _ (Z.of_nat (length m)) (Z.of_nat (length d)) H0 H1 ltac:(lia) ltac:(lia) Hc) as Hcount. cbv zeta in Hcount.
  unfold sha256_update. rewrite Hr.
  destruct (div_mod_split (length m) (length d)) as (Hm & Hlt & Hdiv & Hmod).
  set (r := (length m mod 64)%nat) in *. set (q := (length m / 64)%nat) in *.
  destruct (Z.ltb_spec (Z.of_nat (length d)) (64 - Z.of_nat r)) as [Hs|Hs].
  - rewrite memcpy_Ok by (rewrite ?length_app; lia). rewrite result_bind_Ok. eexists. split; [done|].
    rewrite (Nat.div_small (r + _)), Nat.add_0_r in Hdiv by lia. rewrite (Nat.mod_small (r + _)) in Hmod by lia.
    rewrite !Nat2Z.id, drop_0, take_app_length, <-Nat2Z.inj_add, Nat2Z.id.
    split; cbn [state buf count0 count1]; rewrite ?length_app, ?Hdiv, ?Hmod, ?Nat2Z.inj_add; try apply u32_range.
    + by rewrite blocks_app by lia.
    + rewrite length_take, length_drop. lia.
    + rewrite app_assoc, take_app_length' by (rewrite length_app, length_take; lia).
      by rewrite Hrest, drop_app_le by lia.
    + done.
  - rewrite memcpy_Ok by (rewrite ?length_app; lia). rewrite result_bind_Ok.
    destruct (full_block m d q r) as [Hblock Hdrop]; [done|lia|lia|].
    set (L := (length d - (64 - r))%nat).
    replace (Z.of_nat (length d) - (64 - Z.of_nat r)) with (Z.of_nat L) by lia.
    replace (Z.to_nat (64 - Z.of_nat r)) with (64 - r)%nat by lia.
    replace (Z.to_nat (Z.of_nat r + (64 - Z.of_nat r))) with 64%nat by lia.
    rewrite !Nat2Z.id, drop_0, (drop_ge (buf ctx)), app_nil_r, take_app_le, drop_app_le, Hrest, Hblock, <-Hdrop by lia.
    assert (HB : length (take 64 (drop (64 * q) (m ++ d))) = 64%nat) by (rewrite length_take, length_drop, length_app; lia).
    assert (HL : length (drop (64 * S q) (m ++ d)) = L) by (rewrite length_drop, length_app; lia).
    rewrite sha256_transform_Ok by (rewrite ?HB, ?Hst; done || by apply blocks_length).
    rewrite result_bind_Ok, blocks_loop_Ok; [|rewrite Hst; by apply compress_length, blocks_length|lia|rewrite length_app; lia].
    rewrite result_bind_Ok.
    destruct (div_mod_split L 0) as (HLm & HLlt & _).
    assert (Hq1 : ((length m + length d) / 64 = q + S (L / 64))%nat).
    { rewrite Hdiv. replace (r + length d)%nat with (1 * 64 + L)%nat by lia. by rewrite Nat.div_add_l. }
    assert (Hr1 : ((length m + length d) mod 64 = L mod 64)%nat).
    { rewrite Hmod. replace (r + length d)%nat with (L + 1 * 64)%nat by lia. by rewrite Nat.Div0.mod_add. }
    rewrite (drop_app_le (drop _ _) x), (blocks_app _ _ (drop _ _) x), drop_drop by lia.
    replace (64 * S q + 64 * (L / 64))%nat with (64 * (q + S (L / 64)))%nat by lia.
    assert (HR : length (drop (64 * (q + S (L / 64))) (m ++ d)) = (L mod 64)%nat) by (rewrite length_drop, length_app; lia).
    rewrite memcpy_Ok by (rewrite ?length_app; lia). rewrite result_bind_Ok. eexists. split; [done|].
    rewrite Z.add_0_l, !Nat2Z.id, drop_0, take_0, take_app_length', take_take by done. cbn [app Nat.min].
    split; cbn [state buf count0 count1]; rewrite ?length_app, ?Hq1, ?Hr1, ?Nat2Z.inj_add; try apply u32_range.
    + by rewrite Hst, <-(blocks_app q _ m d), blocks_rest by lia.
    + rewrite (length_drop _ (L mod 64)). lia.
    + by rewrite take_app_length'.
    + done.
Qed.

(** ** Padding *)

Lemma be64_words c0 c1 : 0 <= c0 < 2 ^ 32 → 0 <= c1 < 2 ^ 32 →
  be32enc_vect [c0; c1] = Fips180.be64 (c0 * 2 ^ 32 + c1).
Proof.
  intros H0 H1. unfold be32enc_vect, Fips180.be64, byte0, byte1, byte2, byte3. cbn [mbind list_bind app fmap list_fmap].
  change 255 with (Z.ones 8). rewrite !Z.land_ones, !Z.shiftr_div_pow2 by lia.
  change (2 ^ 32) with 4294967296 in *.
  repeat apply (f_equal2 cons); [..|done];
    match goal with |- _ = (_ / ?p) mod _ => let p' := eval vm_compute in p in change p with p' end; dlia.
Qed.

Lemma PAD_split n : (0 < n <= 64)%nat → PAD = (0x80 :: replicate (n - 1) 0) ++ replicate (64 - n) 0.
Proof.
  intros Hn. unfold PAD. cbn [app]. rewrite <-replicate_add. do 2 f_equal. lia.
Qed.

Lemma sha256_pad_Ok ctx m : ctx_rep ctx m →
  ∃ ctx', sha256_pad ctx = Ok ctx' ∧ ctx_rep ctx' (Fips180.padded m).
Proof.
  intros Hrep. unfold sha256_pad. rewrite (rep_r _ _ Hrep). cbv zeta.
  set (l := Z.of_nat (length m)).
  pose proof (Z.mod_pos_bound (55 - l) 64 ltac:(lia)) as Hmod.
  set (plen := Z.to_nat ((55 - l) mod 64 + 1)). assert (Hp : (0 < plen <= 64)%nat) by lia.
  replace (if _ <? 56 then _ else _) with (Z.of_nat (length (0x80 :: replicate (plen - 1) 0))).
  2: { cbn [length]. rewrite length_replicate, Nat2Z.inj_mod. fold l.
       replace (Z.of_nat (S (plen - 1))) with ((55 - l) mod 64 + 1) by lia.
       change (Z.of_nat 64) with 64. destruct (Z.ltb_spec (l mod 64) 56); dlia. }
  rewrite (PAD_split plen) by done.
  destruct (sha256_update_Ok ctx m (0x80 :: replicate (plen - 1) 0) (replicate (64 - plen) 0) Hrep) as (ctx1 & -> & Hrep1).
  { cbn [length]. rewrite length_replicate. lia. }
  rewrite result_bind_Ok.
  destruct Hrep as [_ _ _ H0 H1 Hc]. rewrite be64_words, Hc by done.
  destruct (sha256_update_Ok ctx1 _ (Fips180.be64 ((8 * l) mod 2 ^ 64)) [] Hrep1) as (ctx2 & Hupd & Hrep2); [done|].
  rewrite app_nil_r in Hupd. exists ctx2. split; [exact Hupd|].
  unfold Fips180.padded, Fips180.padding. fold l. rewrite <-app_assoc in Hrep2. cbn [app] in Hrep2.
  replace (plen - 1)%nat with (Z.to_nat ((55 - l) mod 64)) in Hrep2 by lia. done.
Qed.

(** The digest of the bytes a context has taken. *)
Lemma sha256_final_Ok ctx m : ctx_rep ctx m →
  sha256_final ctx = Ok (Fips180.sha256 m, Sha256_context (replicate 8 0) 0 0 (replicate 64 0)).
Proof.
  intros (ctx' & Hpad & Hrep)%sha256_pad_Ok. unfold sha256_final. rewrite Hpad, result_bind_Ok.
  rewrite (rep_state _ _ Hrep), take_ge by (by rewrite blocks_length). done.
Qed.

(** ** Messages in pieces *)

Fixpoint update_all (ctx : sha256_context_t) (chunks : list (list Z)) : result sha256_context_t :=
  match chunks with
  | [] => Ok ctx
  | d :: chunks => ctx ← sha256_update ctx d (Z.of_nat (length d)); update_all ctx chunks
  end.

Lemma update_all_Ok chunks ctx m : ctx_rep ctx m → Forall (λ d, Z.of_nat (length d) < 2 ^ 32) chunks →
  ∃ ctx', update_all ctx chunks = Ok ctx' ∧ ctx_rep ctx' (m ++ concat chunks).
Proof.
  intros Hrep Hch. revert ctx m Hrep. induction Hch as [|d chunks Hd _ IH]; intros ctx m Hrep.
  { exists ctx. by rewrite app_nil_r. }
  cbn [update_all concat]. destruct (sha256_update_Ok ctx m d [] Hrep Hd) as (ctx1 & Hupd & Hrep1).
  rewrite app_nil_r in Hupd. rewrite Hupd, result_bind_Ok, app_assoc. by apply IH.
Qed.

(** A message in one piece. *)
Lemma update_init_Ok ctx d x : length (buf ctx) = 64%nat → Z.of_nat (length d) < 2 ^ 32 →
  ∃ ctx', sha256_update (sha256_init ctx) (d ++ x) (Z.of_nat (length d)) = Ok ctx' ∧ ctx_rep ctx' d.
Proof. intros Hb Hd. exact (sha256_update_Ok _ [] d x (ctx_rep_init _ Hb) Hd). Qed.

Lemma be32enc_length ws : length (be32enc_vect ws) = (4 * length ws)%nat.
Proof. unfold be32enc_vect. induction ws as [|w ws IH]; [done|]. rewrite bind_cons, length_app, IH. cbn [length]. lia. Qed.

Lemma digest_length m : length (Fips180.sha256 m) = 32%nat.
Proof. unfold Fips180.sha256. by rewrite be32enc_length, blocks_length. Qed.

(** ** Theorems *)

(** C11: a message given to [sha256_update] in any number of pieces of any
    length, from a context that [sha256_init] has set up, has the digest FIPS
    180-4 prescribes for the whole message, and [sha256_final] leaves the
    context cleared. *)
Theorem sha256_is_fips180 ctx chunks :
  length (buf ctx) = 64%nat → Forall (λ d, Z.of_nat (length d) < 2 ^ 32) chunks →
  (ctx ← update_all (sha256_init ctx) chunks; sha256_final ctx) =
    Ok (Fips180.sha256 (concat chunks), Sha256_context (replicate 8 0) 0 0 (replicate 64 0)).
Proof.
  intros Hb Hch. destruct (update_all_Ok _ _ _ (ctx_rep_init _ Hb) Hch) as (ctx' & -> & Hrep).
  rewrite result_bind_Ok. exact (sha256_final_Ok _ _ Hrep).
Qed.

Lemma sha256_is_fips180_witness :
  (ctx ← update_all (sha256_init (Sha256_context [] 0 0 (replicate 64 1))) [[97]; []; [98; 99]]; sha256_final ctx) =
    Ok (Fips180.sha256 [97; 98; 99], Sha256_context (replicate 8 0) 0 0 (replicate 64 0)).
Proof. apply (sha256_is_fips180 _ [[97]; []; [98; 99]]); [done|]. by repeat constructor. Defined.
