(* ===== verification/HashChain.v ===== *)
(** * HMAC and hash chains of sys/hashes/sha256.c

    The keyed hash is RFC 2104's over [Fips180.sha256]; a chain is the digest
    iterated on a seed, and every stored waypoint verifies against the tail. *)

From S2P Require Import Prelude Words Sha256 Sha256Correct.
Open Scope Z_scope.

Section Local.
Context (c : sha256_context_t) (Hc : length (buf c) = 64%nat).

Lemma sha256_Ok d x : Z.of_nat (length d) < 2 ^ 32 → sha256 c (d ++ x) (Z.of_nat (length d)) = Ok (Fips180.sha256 d).
Proof.
  intros Hd. unfold sha256. destruct (update_init_Ok c d x Hc Hd) as (ctx & -> & Hrep).
  by rewrite result_bind_Ok, (sha256_final_Ok _ _ Hrep), result_bind_Ok.
Qed.

Lemma sha256_inplace_Ok d : length d = 32%nat → sha256_inplace c d = Ok (Fips180.sha256 d).
Proof.
  intros Hd. rewrite <-(app_nil_r d) at 1. pose proof (sha256_Ok d []) as H. rewrite Hd in H. by apply H.
Qed.

(** *** Hash chains *)

(** Element [n] of the chain of [d]. *)
Definition chain_at (n : nat) (d : list Z) : list Z := Nat.iter n Fips180.sha256 d.

Lemma chain_at_add n k d : chain_at (n + k) d = chain_at n (chain_at k d).
Proof. apply Nat.iter_add. Qed.

Lemma chain_at_length n d : length d = 32%nat → length (chain_at n d) = 32%nat.
Proof. destruct n; [done|]. intros _. apply digest_length. Qed.

Lemma inplace_loop_Ok n d : length d = 32%nat → inplace_loop c n d = Ok (chain_at n d).
Proof.
  revert d. induction n as [|n IH]; intros d Hd; [done|]. cbn [inplace_loop]. rewrite sha256_inplace_Ok by done.
  rewrite result_bind_Ok, IH by apply digest_length. unfold chain_at. by rewrite Nat.iter_succ_r.
Qed.

Lemma sha256_chain_Ok seed x elements : Z.of_nat (length seed) < 2 ^ 32 → 2 <= elements →
  sha256_chain c (seed ++ x) (Z.of_nat (length seed)) elements = Ok (chain_at (Z.to_nat (elements - 1)) (Fips180.sha256 seed)).
Proof.
  intros Hs He. unfold sha256_chain, assert_. destruct (Z.leb_spec 2 elements); [|lia].
  rewrite result_bind_Ok, sha256_Ok, result_bind_Ok by done. apply inplace_loop_Ok, digest_length.
Qed.

(** The waypoints from [j] on are unset, those before are elements of the
    chain. *)
Definition waypoints_ok (N : Z) (d : list Z) (w : list waypoint) (j : nat) : Prop :=
  Forall (λ p, 0 <= p.1 < N ∧ p.2 = chain_at (Z.to_nat p.1) d) (take j w).

Lemma waypoints_set N d w j p : (j < length w)%nat → waypoints_ok N d w j →
  0 <= p.1 < N → p.2 = chain_at (Z.to_nat p.1) d → waypoints_ok N d (<[j := p]> w) (S j).
Proof.
  intros Hj Hw Hp Hc'. unfold waypoints_ok. rewrite (take_S_r _ _ p) by by apply list_lookup_insert_eq.
  rewrite take_insert_ge by lia. by apply Forall_app_2, Forall_singleton.
Qed.

Lemma full_loop_Ok N d n w j : length d = 32%nat → (0 < j)%nat → Z.of_nat (j + n) <= N → (j + n <= length w)%nat →
  waypoints_ok N d w j → w !! (j - 1)%nat = Some (Z.of_nat (j - 1), chain_at (j - 1) d) →
  ∃ w', full_loop c n w (Z.of_nat j) = Ok w' ∧ length w' = length w ∧ waypoints_ok N d w' (j + n) ∧
        w' !! (j + n - 1)%nat = Some (Z.of_nat (j + n - 1), chain_at (j + n - 1) d).
Proof.
  intros Hd. revert w j. induction n as [|n IH]; intros w j Hj HN Hn Hw Hl.
  { exists w. rewrite Nat.add_0_r. done. }
  cbn [full_loop]. rewrite (aget_Some w _ (Z.of_nat (j - 1), chain_at (j - 1) d)), result_bind_Ok;
    [|lia|by replace (Z.to_nat (Z.of_nat j - 1)) with (j - 1)%nat by lia].
  cbn [snd].
  pose proof (chain_at_length (j - 1) d Hd) as Hlen.
  destruct (update_init_Ok c (chain_at (j - 1) d) [] Hc) as (ctx & Hupd & Hrep); [by rewrite Hlen|].
  rewrite app_nil_r, Hlen in Hupd. change SHA256_DIGEST_LENGTH with (Z.of_nat 32). rewrite Hupd, result_bind_Ok.
  rewrite (sha256_final_Ok _ _ Hrep), result_bind_Ok, aset_Ok, result_bind_Ok, Nat2Z.id by lia.
  assert (Hnext : Fips180.sha256 (chain_at (j - 1) d) = chain_at j d) by (by destruct j; [lia|]; rewrite Nat.sub_succ, Nat.sub_0_r).
  rewrite Hnext. replace (Z.of_nat j + 1) with (Z.of_nat (S j)) by lia.
  set (w1 := <[j := _]> w).
  destruct (IH w1 (S j)) as (w' & -> & Hw1 & Hw2 & Hw3); unfold w1; [lia|lia|by rewrite length_insert; lia|..].
  - apply waypoints_set; cbn; rewrite ?Nat2Z.id; auto with lia.
  - by rewrite Nat.sub_succ, Nat.sub_0_r, list_lookup_insert_eq by lia.
  - exists w'. unfold w1 in Hw1. rewrite length_insert in Hw1. by rewrite <-plus_n_Sm.
Qed.

Lemma streak_loop_Ok N d n k w tmp index j : length d = 32%nat → Z.of_nat (index + n * k) < N → (j + n <= length w)%nat → waypoints_ok N d w j →
  tmp = chain_at index d →
  ∃ w', streak_loop c n (Z.of_nat k) w tmp (Z.of_nat index) (Z.of_nat j) =
          Ok (w', chain_at (index + n * k) d, Z.of_nat (index + n * k), Z.of_nat (j + n)) ∧
        length w' = length w ∧ waypoints_ok N d w' (j + n).
Proof.
  intros Hd. revert w tmp index j. induction n as [|n IH]; intros w tmp index j HN Hn Hw ->.
  { exists w. by rewrite !Nat.add_0_r. }
  cbn [streak_loop]. rewrite inplace_loop_Ok by by apply chain_at_length.
  rewrite result_bind_Ok, aset_Ok, result_bind_Ok, !Nat2Z.id, <-chain_at_add by lia.
  replace (Z.of_nat index + Z.of_nat k) with (Z.of_nat (index + k)) by lia. rewrite (Nat.add_comm k index).
  replace (Z.of_nat j + 1) with (Z.of_nat (S j)) by lia.
  set (w1 := <[j := _]> w).
  destruct (IH w1 (chain_at (index + k) d) (index + k)%nat (S j)) as (w' & -> & Hw1 & Hw2); unfold w1; [lia|by rewrite length_insert; lia| |done|].
  - apply waypoints_set; cbn; rewrite ?Nat2Z.id; auto with lia.
  - exists w'. unfold w1 in Hw1. rewrite length_insert in Hw1. rewrite <-plus_n_Sm. cbn [Nat.mul]. by rewrite Nat.add_assoc.
Qed.

Lemma waypoints_ok_0 N d w : waypoints_ok N d w 0.
Proof. by unfold waypoints_ok. Qed.

(** The tail element and the stored waypoints are elements of one chain. *)
Lemma sha256_chain_with_waypoints_Ok seed x elements w : Z.of_nat (length seed) < 2 ^ 32 → 2 <= elements →
  (1 < length w)%nat →
  ∃ w' n, sha256_chain_with_waypoints c (seed ++ x) (Z.of_nat (length seed)) elements w (Z.of_nat (length w)) =
            Ok (chain_at (Z.to_nat (elements - 1)) (Fips180.sha256 seed), w', Z.of_nat n) ∧
          length w' = length w ∧ (n < length w)%nat ∧ waypoints_ok elements (Fips180.sha256 seed) w' (S n).
Proof.
  intros Hs He Hw. unfold sha256_chain_with_waypoints, assert_.
  assert ((2 <=? elements) = true) as -> by lia. assert ((0 <? Z.of_nat (length w)) = true) as -> by lia.
  assert ((1 <? Z.of_nat (length w)) = true) as -> by lia. rewrite !result_bind_Ok, sha256_Ok by done.
  pose proof (digest_length seed) as Hd. set (d := Fips180.sha256 seed) in *.
  destruct (Z.leb_spec elements (Z.of_nat (length w))) as [Hle|Hlt]; rewrite result_bind_Ok.
  - rewrite aset_Ok, result_bind_Ok by lia. change (Z.to_nat 0) with 0%nat.
    set (w1 := <[0%nat := _]> w).
    destruct (full_loop_Ok elements d (Z.to_nat (elements - 1)) w1 1) as (w' & Hloop & H1 & H2 & H3); [done|lia|lia|by unfold w1; rewrite length_insert; lia| | |].
    { apply waypoints_set; cbn; [lia|apply waypoints_ok_0|lia|done]. }
    { unfold w1. by rewrite list_lookup_insert_eq by lia. }
    change (Z.of_nat 1) with 1 in Hloop. rewrite Hloop, result_bind_Ok. unfold w1 in H1. rewrite length_insert in H1. replace (1 + Z.to_nat (elements - 1) - 1)%nat with (Z.to_nat (elements - 1)) in H3 by lia.
    rewrite (aget_Some w' (elements - 1) _ ltac:(lia) H3), result_bind_Ok. cbn [snd].
    exists w', (Z.to_nat (elements - 1)). rewrite Z2Nat.id by lia. repeat split; [done|lia|exact H2].
  - set (k := Z.to_nat (elements / Z.of_nat (length w))).
    assert (Hk : 1 <= elements / Z.of_nat (length w)) by (apply Z.div_le_lower_bound; lia).
    assert (Hk' : Z.of_nat (length w) * Z.of_nat k <= elements) by (unfold k; rewrite Z2Nat.id by lia; apply Z.mul_div_le; lia).
    replace (elements / Z.of_nat (length w)) with (Z.of_nat k) by lia.
    rewrite inplace_loop_Ok, result_bind_Ok, aset_Ok, result_bind_Ok by (done || lia).
    replace (Z.of_nat k - 1) with (Z.of_nat (k - 1)) by lia. rewrite Nat2Z.id. change (Z.to_nat 0) with 0%nat.
    set (w1 := <[0%nat := _]> w).
    destruct (streak_loop_Ok elements d (Z.to_nat (Z.of_nat (length w) - 1)) k w1
      (chain_at (k - 1) d) (k - 1) 1) as (w' & Hloop & H1 & H2); [done|nia|by unfold w1; rewrite length_insert; lia| |done|].
    { apply waypoints_set; cbn; rewrite ?Nat2Z.id; try done; [lia|apply waypoints_ok_0|nia]. }
    change (Z.of_nat 1) with 1 in Hloop. rewrite Hloop, result_bind_Ok.
    rewrite inplace_loop_Ok, result_bind_Ok, <-chain_at_add by by apply chain_at_length.
    unfold w1 in H1. rewrite length_insert in H1. exists w', (length w - 1)%nat. repeat split; [|done|lia|].
    + repeat f_equal; nia.
    + by replace (S (length w - 1)) with (1 + Z.to_nat (Z.of_nat (length w) - 1))%nat by lia.
Qed.

(** An element verifies when hashing it up to the tail gives the tail. *)
Lemma verify_element_Ok element i tail n : length element = 32%nat → length tail = 32%nat →
  0 <= i < n → n < 2 ^ 31 →
  sha256_chain_verify_element c element i tail n =
    Ok (b2z (negb (bool_decide (chain_at (Z.to_nat (n - i - 1)) element = tail)))).
Proof.
  intros Hel Htail Hi Hn. unfold sha256_chain_verify_element, assert_, SHA256_DIGEST_LENGTH.
  rewrite s32_small by lia. assert ((1 <=? n - i) = true) as -> by lia.
  rewrite result_bind_Ok, memcpy_Ok, result_bind_Ok by (cbn; lia).
  change (Z.to_nat 0) with 0%nat. change (Z.to_nat 32) with 32%nat. rewrite drop_0, (take_ge element), drop_ge, app_nil_r by (cbn; lia).
  rewrite take_0. cbn [app]. rewrite inplace_loop_Ok, result_bind_Ok, Htail, (take_ge tail) by (done || lia). done.
Qed.

(** *** HMAC *)

(** RFC 2104 with SHA-256. *)
Definition hmac_key (key : list Z) : list Z :=
  let k := if (64 <? length key)%nat then Fips180.sha256 key else key in
  k ++ replicate (64 - length k) 0.

Definition hmac (key m : list Z) : list Z :=
  Fips180.sha256 ((Z.lxor 0x5c <$> hmac_key key) ++
    Fips180.sha256 ((Z.lxor 0x36 <$> hmac_key key) ++ m)).

Lemma hmac_key_length key : length (hmac_key key) = 64%nat.
Proof.
  unfold hmac_key. rewrite length_app, length_replicate. destruct (Nat.ltb_spec 64 (length key)); [|lia].
  by rewrite digest_length.
Qed.

(** Both hashes of the context have taken a pad. *)
Lemma hmac_init_Ok ctx key x : length (buf (c_in ctx)) = 64%nat → length (buf (c_out ctx)) = 64%nat →
  Z.of_nat (length key) < 2 ^ 32 →
  ∃ i o, hmac_sha256_init c ctx (key ++ x) (Z.of_nat (length key)) = Ok (Hmac_context i o) ∧
    ctx_rep i (Z.lxor 0x36 <$> hmac_key key) ∧ ctx_rep o (Z.lxor 0x5c <$> hmac_key key).
Proof.
  intros Hi Ho Hkey. unfold hmac_sha256_init, SHA256_INTERNAL_BLOCK_SIZE.
  assert (Hk : (if 64 <? Z.of_nat (length key)
                then d ← sha256 c (key ++ x) (Z.of_nat (length key)); memcpy (replicate 64 0) 0 d 0 SHA256_DIGEST_LENGTH
                else memcpy (replicate 64 0) 0 (key ++ x) 0 (Z.of_nat (length key))) = Ok (hmac_key key)).
  { unfold hmac_key. destruct (Nat.ltb_spec 64 (length key)), (Z.ltb_spec 64 (Z.of_nat (length key))); try lia.
    - rewrite sha256_Ok, result_bind_Ok, memcpy_Ok by (rewrite ?digest_length; done).
      change (Z.to_nat SHA256_DIGEST_LENGTH) with 32%nat. rewrite digest_length, drop_0, (take_ge (Fips180.sha256 key)) by (by rewrite digest_length). done.
    - rewrite memcpy_Ok by (rewrite ?length_app; cbn; lia).
      by rewrite Z.add_0_l, Nat2Z.id, drop_0, take_app_length, drop_replicate. }
  rewrite Hk, result_bind_Ok. cbv zeta. pose proof (hmac_key_length key) as Hl.
  destruct (update_init_Ok (c_in ctx) (Z.lxor 0x36 <$> hmac_key key) [] Hi) as (i & Hui & Hri); [by rewrite length_fmap, Hl|].
  destruct (update_init_Ok (c_out ctx) (Z.lxor 0x5c <$> hmac_key key) [] Ho) as (o & Huo & Hro); [by rewrite length_fmap, Hl|].
  rewrite app_nil_r, length_fmap, Hl in Hui, Huo. change 64 with (Z.of_nat 64). rewrite Hui, result_bind_Ok, Huo, result_bind_Ok.
  by exists i, o.
Qed.

Fixpoint hmac_update_all (ctx : hmac_context_t) (chunks : list (list Z)) : result hmac_context_t :=
  match chunks with
  | [] => Ok ctx
  | d :: chunks => ctx ← hmac_sha256_update ctx d (Z.of_nat (length d)); hmac_update_all ctx chunks
  end.

Lemma hmac_update_all_eq ctx chunks :
  hmac_update_all ctx chunks = (i ← update_all (c_in ctx) chunks; Ok (Hmac_context i (c_out ctx))).
Proof.
  revert ctx. induction chunks as [|d chunks IH]; intros ctx; [by destruct ctx|]. cbn [hmac_update_all update_all].
  unfold hmac_sha256_update. destruct (sha256_update _ _ _); [|done]. rewrite !result_bind_Ok. apply IH.
Qed.

End Local.

(** C23: the streaming interface of HMAC computes RFC 2104's function over
    SHA-256, for keys shorter and longer than a block and messages in pieces. *)
Theorem hmac_is_rfc2104 c ctx key chunks :
  length (buf c) = 64%nat → length (buf (c_in ctx)) = 64%nat → length (buf (c_out ctx)) = 64%nat →
  Z.of_nat (length key) < 2 ^ 32 → Forall (λ d, Z.of_nat (length d) < 2 ^ 32) chunks →
  ∃ ctx', (ctx ← hmac_sha256_init c ctx key (Z.of_nat (length key));
           ctx ← hmac_update_all ctx chunks;
           hmac_sha256_final ctx) = Ok (hmac key (concat chunks), ctx').
Proof.
  intros Hc Hi Ho Hkey Hch. destruct (hmac_init_Ok c Hc ctx key [] Hi Ho Hkey) as (i & o & Hinit & Hri & Hro).
  rewrite app_nil_r in Hinit. rewrite Hinit, result_bind_Ok, hmac_update_all_eq. cbn [c_in c_out].
  destruct (update_all_Ok _ _ _ Hri Hch) as (i' & -> & Hri'). rewrite !result_bind_Ok.
  unfold hmac_sha256_final. cbn [c_in c_out]. rewrite (sha256_final_Ok _ _ Hri'), result_bind_Ok.
  set (d := Fips180.sha256 _). destruct (sha256_update_Ok o _ d [] Hro) as (o' & Huo & Hro'); [by unfold d; rewrite digest_length|].
  rewrite app_nil_r in Huo. unfold d at 2 in Huo. rewrite digest_length in Huo. change SHA256_DIGEST_LENGTH with (Z.of_nat 32).
  rewrite Huo, result_bind_Ok, (sha256_final_Ok _ _ Hro'), result_bind_Ok. by eexists.
Qed.

(** A key of 70 bytes, which is hashed, and a message in two pieces. *)
Lemma hmac_is_rfc2104_witness :
  let c := Sha256_context [] 0 0 (replicate 64 1) in
  ∃ ctx', (ctx ← hmac_sha256_init c (Hmac_context c c) (replicate 70 0xaa) 70;
           ctx ← hmac_update_all ctx [[1; 2]; [3]];
           hmac_sha256_final ctx) = Ok (hmac (replicate 70 0xaa) [1; 2; 3], ctx').
Proof.
  intros c. apply (hmac_is_rfc2104 c (Hmac_context c c) (replicate 70 0xaa) [[1; 2]; [3]]); try done. by repeat constructor.
Defined.

(** Every waypoint stored beside a hash chain verifies against the chain's
    tail element, and an element that verifies hashes to the tail. *)
Theorem chain_waypoints_verify c seed elements w :
  length (buf c) = 64%nat → Z.of_nat (length seed) < 2 ^ 32 → 2 <= elements < 2 ^ 31 → (1 < length w)%nat →
  ∃ tail w' n,
    sha256_chain_with_waypoints c seed (Z.of_nat (length seed)) elements w (Z.of_nat (length w)) = Ok (tail, w', Z.of_nat n) ∧
    sha256_chain c seed (Z.of_nat (length seed)) elements = Ok tail ∧
    (n < length w)%nat ∧
    Forall (λ p, sha256_chain_verify_element c p.2 p.1 tail elements = Ok 0) (take (S n) w') ∧
    (∀ e i, length e = 32%nat → 0 <= i < elements →
       sha256_chain_verify_element c e i tail elements = Ok 0 ↔ chain_at (Z.to_nat (elements - i - 1)) e = tail).
Proof.
  intros Hc Hs He Hw. destruct (sha256_chain_with_waypoints_Ok c Hc seed [] elements w Hs) as (w' & n & Hch & Hl & Hn & Hok); [lia|done|].
  pose proof (sha256_chain_Ok c Hc seed [] elements Hs ltac:(lia)) as Hch'. rewrite app_nil_r in Hch, Hch'.
  pose proof (chain_at_length (Z.to_nat (elements - 1)) _ (digest_length seed)) as Htail.
  do 3 eexists. split; [exact Hch|]. split; [exact Hch'|]. split; [done|]. split.
  - eapply Forall_impl; [exact Hok|]. intros [i e] [Hi He']. cbn [fst snd] in *. subst e.
    rewrite verify_element_Ok by (try apply chain_at_length, digest_length; try done; lia).
    rewrite bool_decide_eq_true_2; [done|]. rewrite <-chain_at_add. f_equal. lia.
  - intros e i Hel Hi. rewrite verify_element_Ok by (done || lia). case_bool_decide; split; naive_solver.
Qed.

(** Five elements and room for two waypoints. *)
Lemma chain_waypoints_verify_witness :
  let c := Sha256_context [] 0 0 (replicate 64 1) in
  ∃ tail w' n,
    sha256_chain_with_waypoints c [1; 2; 3] 3 5 (replicate 2 (0, [])) 2 = Ok (tail, w', Z.of_nat n) ∧
    sha256_chain c [1; 2; 3] 3 5 = Ok tail ∧ (n < 2)%nat ∧
    Forall (λ p, sha256_chain_verify_element c p.2 p.1 tail 5 = Ok 0) (take (S n) w').
Proof.
  intros c. destruct (chain_waypoints_verify c [1; 2; 3] 5 (replicate 2 (0, []))) as (tail & w' & n & H1 & H2 & H3 & H4 & _);
    [done|done|done|cbn; lia|]. exists tail, w', n. exact (conj H1 (conj H2 (conj H3 H4))).
Defined.
