(* ===== verification/Pktbuf.v ===== *)
(** * sys/net/gnrc/pktbuf_static, pktbuf and pkt: the packet buffer

    Memory is a map from addresses to bytes that holds the array [_pktbuf] and
    whatever else packets point to; an access outside of it is a fault. Words
    and pointers have 32 bits and are little-endian, so [sizeof(_unused_t)] is 8
    and [sizeof(gnrc_pktsnip_t)] is 20. Every function holds [_mutex] from its
    first access to its last, so a call is one step. Built without
    MODULE_GNRC_NETERR and without the statistics of DEVELHELP. *)

From stdpp Require Import gmap.
From S2P Require Import Prelude Words.
Open Scope Z_scope.

(** ** Memory *)

Notation memory := (gmap Z Z).

Definition rd8 (m : memory) (p : Z) : result Z := from_option_or BadPointer (m !! p).

Definition wr8 (m : memory) (p v : Z) : result memory :=
  _ ← rd8 m p; Ok (<[p := v]> m).

Fixpoint rd (m : memory) (p : Z) (n : nat) : result (list Z) :=
  match n with
  | O => Ok []
  | S n => b ← rd8 m p; bs ← rd m (p + 1) n; Ok (b :: bs)
  end.

Fixpoint wr (m : memory) (p : Z) (bs : list Z) : result memory :=
  match bs with
  | [] => Ok m
  | b :: bs => m ← wr8 m p b; wr m (p + 1) bs
  end.

Definition load (m : memory) (p : Z) : result Z :=
  bs ← rd m p 4;
  match bs with [a; b; c; d] => Ok (w4 d c b a) | _ => Fault BadPointer end.

Definition store (m : memory) (p v : Z) : result memory :=
  wr m p [byte3 v; byte2 v; byte1 v; byte0 v].

(** [memcpy(dst, src, n)] *)
Definition copy (m : memory) (dst src n : Z) : result memory :=
  bs ← rd m src (Z.to_nat n); wr m dst bs.

Definition NULL : Z := 0.

(** ** Structures *)

(** [_unused_t]: [next], [size]; [gnrc_pktsnip_t]: [users], [next], [data],
    [size], [type]. *)
Definition UNUSED_SIZE : Z := 8.
Definition SNIP_SIZE : Z := 20.

Definition u_next (p : Z) : Z := p.
Definition u_size (p : Z) : Z := p + 4.
Definition s_users (p : Z) : Z := p.
Definition s_next (p : Z) : Z := p + 4.
Definition s_data (p : Z) : Z := p + 8.
Definition s_size (p : Z) : Z := p + 12.
Definition s_type (p : Z) : Z := p + 16.

Definition _ALIGNMENT_MASK : Z := 3.

Definition _align (size : Z) : Z := Z.land (u32 (size + _ALIGNMENT_MASK)) (u32 (Z.lnot _ALIGNMENT_MASK)).

(** [(size < sizeof(_unused_t)) ? _align(sizeof(_unused_t)) : _align(size)] *)
Definition chunk_size (size : Z) : Z := if size <? UNUSED_SIZE then _align UNUSED_SIZE else _align size.

Record pktbuf : Type := Pktbuf {
  mem : memory;
  _first_unused : Z
}.

Definition set_mem (m : memory) (st : pktbuf) : pktbuf := Pktbuf m (_first_unused st).

Section Pktbuf.
(** The address and the size of the array [_pktbuf]. *)
Context (_pktbuf GNRC_PKTBUF_SIZE : Z).

Definition loop_fuel : nat := S (Z.to_nat GNRC_PKTBUF_SIZE).

Definition _pktbuf_contains (ptr : Z) : bool := u32 (ptr - _pktbuf) <? GNRC_PKTBUF_SIZE.

Definition _set_pktsnip (m : memory) (pkt next data size type : Z) : result memory :=
  m ← store m (s_next pkt) next;
  m ← store m (s_data pkt) data;
  m ← store m (s_size pkt) size;
  m ← store m (s_type pkt) type;
  store m (s_users pkt) 1.

Definition gnrc_pktbuf_init (m : memory) : result pktbuf :=
  m ← store m (u_next _pktbuf) NULL;
  m ← store m (u_size _pktbuf) GNRC_PKTBUF_SIZE;
  Ok (Pktbuf m _pktbuf).

(** *** Chunks *)

(** [while (ptr && (size > ptr->size))]; the value is [prev] and [ptr]. *)
Fixpoint find_fit (fuel : nat) (m : memory) (size prev ptr : Z) : result (Z * Z) :=
  match fuel with
  | O => Fault OutOfFuel
  | S fuel =>
      if ptr =? NULL then Ok (prev, ptr)
      else
        sz ← load m (u_size ptr);
        if sz <? size then next ← load m (u_next ptr); find_fit fuel m size ptr next
        else Ok (prev, ptr)
  end.

(** [_first_unused = q] when there is no [prev], [prev->next = q] otherwise. *)
Definition set_link (st : pktbuf) (prev q : Z) : result pktbuf :=
  if prev =? NULL then Ok (Pktbuf (mem st) q)
  else m ← store (mem st) (u_next prev) q; Ok (set_mem m st).

Definition _pktbuf_alloc (st : pktbuf) (size : Z) : result (Z * pktbuf) :=
  let size := chunk_size size in
  '(prev, ptr) ← find_fit loop_fuel (mem st) size NULL (_first_unused st);
  if ptr =? NULL then Ok (NULL, st)
  else
    sz ← load (mem st) (u_size ptr);
    if u32 (sz - size) <? UNUSED_SIZE then
      next ← load (mem st) (u_next ptr);
      st ← set_link st prev next; Ok (ptr, st)
    else
      let new := ptr + size in
      st ← (if GNRC_PKTBUF_SIZE <? new - _pktbuf + UNUSED_SIZE then Ok (Pktbuf (mem st) NULL)
            else set_link st prev new);
      next ← load (mem st) (u_next ptr);
      m ← store (mem st) (u_next new) next;
      sz ← load m (u_size ptr);
      m ← store m (u_size new) (u32 (sz - size));
      Ok (ptr, set_mem m st).

Definition _too_small_hole (m : memory) (a b : Z) : result bool :=
  sz ← load m (u_size a);
  Ok (u32 (b - (a + sz)) <? UNUSED_SIZE).

Definition _merge (m : memory) (a b : Z) : result memory :=
  _ ← assert_ (negb (b =? NULL));
  next ← load m (u_next b);
  m ← store m (u_next a) next;
  sz ← load m (u_size b);
  store m (u_size a) (u32 (sz + (b - a))).

(** [while (ptr && (((void * )ptr) < data))] *)
Fixpoint find_place (fuel : nat) (m : memory) (data prev ptr : Z) : result (Z * Z) :=
  match fuel with
  | O => Fault OutOfFuel
  | S fuel =>
      if ptr =? NULL then Ok (prev, ptr)
      else if ptr <? data then next ← load m (u_next ptr); find_place fuel m data ptr next
      else Ok (prev, ptr)
  end.

Definition _pktbuf_free (st : pktbuf) (data size : Z) : result pktbuf :=
  if negb (_pktbuf_contains data) then Ok st
  else
    '(prev, ptr) ← find_place loop_fuel (mem st) data NULL (_first_unused st);
    let new := data in
    m ← store (mem st) (u_next new) ptr;
    m ← store m (u_size new) (chunk_size size);
    let bytes_at_end := u32 (_pktbuf + GNRC_PKTBUF_SIZE - (new + chunk_size size)) in
    m ← (if bytes_at_end <? _align UNUSED_SIZE then store m (u_size new) (u32 (chunk_size size + bytes_at_end))
         else Ok m);
    st ← set_link (set_mem m st) prev new;
    '(m, new) ←
      (if prev =? NULL then Ok (mem st, new)
       else
         small ← _too_small_hole (mem st) prev new;
         if (small : bool) then m ← _merge (mem st) prev new; Ok (m, prev) else Ok (mem st, new));
    next ← load m (u_next new);
    small ← (if next =? NULL then Ok false else _too_small_hole m new next);
    m ← (if (small : bool) then _merge m new next else Ok m);
    Ok (set_mem m st).

(** *** Packets *)

(** The value is the new snip, or [NULL] when there is no room. *)
Definition _create_snip (st : pktbuf) (next data size type : Z) : result (Z * pktbuf) :=
  '(pkt, st) ← _pktbuf_alloc st SNIP_SIZE;
  if pkt =? NULL then Ok (NULL, st)
  else
    '(_data, st) ← (if 0 <? size then _pktbuf_alloc st size else Ok (NULL, st));
    if (0 <? size) && (_data =? NULL) then
      st ← _pktbuf_free st pkt SNIP_SIZE; Ok (NULL, st)
    else
      m ← _set_pktsnip (mem st) pkt next _data size type;
      m ← (if negb (data =? NULL) then copy m _data data size else Ok m);
      Ok (pkt, set_mem m st).

Definition gnrc_pktbuf_add (st : pktbuf) (next data size type : Z) : result (Z * pktbuf) :=
  if GNRC_PKTBUF_SIZE <? size then Ok (NULL, st) else _create_snip st next data size type.

Definition gnrc_pktbuf_mark (st : pktbuf) (pkt size type : Z) : result (Z * pktbuf) :=
  let required_new_size := chunk_size size in
  if (size =? 0) || (pkt =? NULL) then Ok (NULL, st)
  else
    pkt_size ← load (mem st) (s_size pkt);
    pkt_data ← load (mem st) (s_data pkt);
    if (pkt_size <? size) || (pkt_data =? NULL) then Ok (NULL, st)
    else
      '(marked_snip, st) ← _pktbuf_alloc st SNIP_SIZE;
      if marked_snip =? NULL then Ok (NULL, st)
      else
        '(done, new_data_marked, st) ←
          (if negb (pkt_size =? size) && ((size <? required_new_size) || (u32 (pkt_size - size) <? UNUSED_SIZE)) then
             '(new_data_marked, st) ← _pktbuf_alloc st size;
             if new_data_marked =? NULL then
               st ← _pktbuf_free st marked_snip SNIP_SIZE; Ok (false, NULL, st)
             else
               '(new_data_rest, st) ← _pktbuf_alloc st (u32 (pkt_size - size));
               if new_data_rest =? NULL then
                 st ← _pktbuf_free st marked_snip SNIP_SIZE;
                 st ← _pktbuf_free st new_data_marked size; Ok (false, NULL, st)
               else
                 m ← copy (mem st) new_data_marked pkt_data size;
                 m ← copy m new_data_rest (pkt_data + size) (pkt_size - size);
                 st ← _pktbuf_free (set_mem m st) pkt_data pkt_size;
                 m ← store (mem st) (s_data marked_snip) new_data_marked;
                 m ← store m (s_data pkt) new_data_rest;
                 Ok (true, new_data_marked, set_mem m st)
           else
             m ← store (mem st) (s_data pkt) (if negb (pkt_size =? size) then pkt_data + size else NULL);
             Ok (true, pkt_data, set_mem m st));
        if negb done then Ok (NULL, st)
        else
          m ← store (mem st) (s_size pkt) (pkt_size - size);
          next ← load m (s_next pkt);
          m ← _set_pktsnip m marked_snip next new_data_marked size type;
          m ← store m (s_next pkt) marked_snip;
          Ok (marked_snip, set_mem m st).

Definition ENOMEM : Z := 12.

Definition gnrc_pktbuf_realloc_data (st : pktbuf) (pkt size : Z) : result (Z * pktbuf) :=
  let aligned_size := chunk_size size in
  _ ← assert_ (negb (pkt =? NULL));
  pkt_size ← load (mem st) (s_size pkt);
  pkt_data ← load (mem st) (s_data pkt);
  _ ← assert_ (((pkt_size =? 0) && (pkt_data =? NULL)) ||
               ((0 <? pkt_size) && negb (pkt_data =? NULL) && _pktbuf_contains pkt_data));
  if size =? pkt_size then Ok (0, st)
  else
    '(res, st) ←
      (if (size =? 0) && negb (pkt_data =? NULL) then
         st ← _pktbuf_free st pkt_data pkt_size;
         m ← store (mem st) (s_data pkt) NULL;
         Ok (0, set_mem m st)
       else if (pkt_size <? size) || (u32 (pkt_size - aligned_size) <? UNUSED_SIZE) then
         '(new_data, st) ← _pktbuf_alloc st size;
         if new_data =? NULL then Ok (ENOMEM, st)
         else
           m ← (if negb (pkt_data =? NULL)
                then copy (mem st) new_data pkt_data (if pkt_size <? size then pkt_size else size)
                else Ok (mem st));
           st ← _pktbuf_free (set_mem m st) pkt_data pkt_size;
           m ← store (mem st) (s_data pkt) new_data;
           Ok (0, set_mem m st)
       else if aligned_size <? _align pkt_size then
         st ← _pktbuf_free st (pkt_data + aligned_size) (pkt_size - aligned_size);
         Ok (0, st)
       else Ok (0, st));
    if negb (res =? 0) then Ok (res, st)
    else m ← store (mem st) (s_size pkt) size; Ok (0, set_mem m st).

Fixpoint hold_loop (fuel : nat) (m : memory) (pkt num : Z) : result memory :=
  match fuel with
  | O => Fault OutOfFuel
  | S fuel =>
      if pkt =? NULL then Ok m
      else
        users ← load m (s_users pkt);
        m ← store m (s_users pkt) (u32 (users + num));
        next ← load m (s_next pkt);
        hold_loop fuel m next num
  end.

Definition gnrc_pktbuf_hold (st : pktbuf) (pkt num : Z) : result pktbuf :=
  m ← hold_loop loop_fuel (mem st) pkt num; Ok (set_mem m st).

Fixpoint release_loop (fuel : nat) (st : pktbuf) (pkt : Z) : result pktbuf :=
  match fuel with
  | O => Fault OutOfFuel
  | S fuel =>
      if pkt =? NULL then Ok st
      else
        _ ← assert_ (_pktbuf_contains pkt);
        tmp ← load (mem st) (s_next pkt);
        users ← load (mem st) (s_users pkt);
        st ← (if users =? 1 then
                m ← store (mem st) (s_users pkt) 0;
                data ← load m (s_data pkt);
                size ← load m (s_size pkt);
                st ← _pktbuf_free (set_mem m st) data size;
                _pktbuf_free st pkt SNIP_SIZE
              else m ← store (mem st) (s_users pkt) (u32 (users - 1)); Ok (set_mem m st));
        release_loop fuel st tmp
  end.

Definition _release_error_locked (st : pktbuf) (pkt : Z) : result pktbuf := release_loop loop_fuel st pkt.

Definition gnrc_pktbuf_release_error (st : pktbuf) (pkt : Z) : result pktbuf := _release_error_locked st pkt.

Definition gnrc_pktbuf_start_write (st : pktbuf) (pkt : Z) : result (Z * pktbuf) :=
  if pkt =? NULL then Ok (NULL, st)
  else
    size ← load (mem st) (s_size pkt);
    if size =? 0 then Ok (NULL, st)
    else
      users ← load (mem st) (s_users pkt);
      if 1 <? users then
        next ← load (mem st) (s_next pkt);
        data ← load (mem st) (s_data pkt);
        type ← load (mem st) (s_type pkt);
        '(new, st) ← _create_snip st next data size type;
        if negb (new =? NULL) then
          users ← load (mem st) (s_users pkt);
          m ← store (mem st) (s_users pkt) (u32 (users - 1));
          Ok (new, set_mem m st)
        else Ok (new, st)
      else Ok (pkt, st).

(** *** pkt.h, gnrc_pkt.c *)

Fixpoint len_loop (fuel : nat) (m : memory) (pkt len : Z) (stop : Z → bool) : result Z :=
  match fuel with
  | O => Fault OutOfFuel
  | S fuel =>
      if pkt =? NULL then Ok len
      else
        size ← load m (s_size pkt);
        type ← load m (s_type pkt);
        if stop type then Ok (u32 (len + size))
        else next ← load m (s_next pkt); len_loop fuel m next (u32 (len + size)) stop
  end.

Definition gnrc_pkt_len (m : memory) (pkt : Z) : result Z := len_loop loop_fuel m pkt 0 (λ _, false).

Definition gnrc_pkt_len_upto (m : memory) (pkt type : Z) : result Z := len_loop loop_fuel m pkt 0 (Z.eqb type).

Fixpoint count_snips (fuel : nat) (m : memory) (pkt count : Z) : result Z :=
  match fuel with
  | O => Fault OutOfFuel
  | S fuel =>
      if pkt =? NULL then Ok count
      else next ← load m (s_next pkt); count_snips fuel m next (u32 (count + 1))
  end.

Definition gnrc_pkt_count (m : memory) (pkt : Z) : result Z := count_snips loop_fuel m pkt 0.

Fixpoint search_loop (fuel : nat) (m : memory) (pkt type : Z) : result Z :=
  match fuel with
  | O => Fault OutOfFuel
  | S fuel =>
      if pkt =? NULL then Ok pkt
      else
        t ← load m (s_type pkt);
        if t =? type then Ok pkt else next ← load m (s_next pkt); search_loop fuel m next type
  end.

Definition gnrc_pktsnip_search_type (m : memory) (pkt type : Z) : result Z := search_loop loop_fuel m pkt type.

(** The payloads behind each other, the last snip first. *)
Fixpoint dup_loop (fuel : nat) (m : memory) (tmp new_data size type : Z) : result memory :=
  match fuel with
  | O => Fault OutOfFuel
  | S fuel =>
      if tmp =? NULL then Ok m
      else
        tsize ← load m (s_size tmp);
        tdata ← load m (s_data tmp);
        m ← copy m (new_data + (size - tsize)) tdata tsize;
        ttype ← load m (s_type tmp);
        if ttype =? type then Ok m
        else next ← load m (s_next tmp); dup_loop fuel m next new_data (size - tsize) type
  end.

Definition gnrc_pktbuf_duplicate_upto (st : pktbuf) (pkt type : Z) : result (Z * pktbuf) :=
  users ← load (mem st) (s_users pkt);
  let is_shared := 1 <? users in
  size ← gnrc_pkt_len_upto (mem st) pkt type;
  target ← gnrc_pktsnip_search_type (mem st) pkt type;
  next ← (if target =? NULL then Ok NULL else load (mem st) (s_next target));
  '(new, st) ← _create_snip st next NULL size type;
  if new =? NULL then Ok (NULL, st)
  else
    new_data ← load (mem st) (s_data new);
    m ← dup_loop loop_fuel (mem st) pkt new_data size type;
    m ← (if negb (target =? NULL) then store m (s_next target) NULL else Ok m);
    st ← _release_error_locked (set_mem m st) pkt;
    m ← (if is_shared && negb (target =? NULL) then store (mem st) (s_next target) next else Ok (mem st));
    Ok (new, set_mem m st).

(** *** gnrc_pktbuf.c *)

Definition IOVEC_SIZE : Z := 8.
Definition GNRC_NETTYPE_IOVEC : Z := -2.

Fixpoint iovec_loop (fuel : nat) (m : memory) (pkt vec : Z) : result memory :=
  match fuel with
  | O => Fault OutOfFuel
  | S fuel =>
      if pkt =? NULL then Ok m
      else
        data ← load m (s_data pkt);
        m ← store m vec data;
        size ← load m (s_size pkt);
        m ← store m (vec + 4) size;
        next ← load m (s_next pkt);
        iovec_loop fuel m next (vec + IOVEC_SIZE)
  end.

(** The value is the head and the length. *)
Definition gnrc_pktbuf_get_iovec (st : pktbuf) (pkt : Z) : result (Z * Z * pktbuf) :=
  if pkt =? NULL then Ok (NULL, 0, st)
  else
    length ← gnrc_pkt_count (mem st) pkt;
    '(head, st) ← gnrc_pktbuf_add st pkt NULL (u32 (length * IOVEC_SIZE)) (u32 GNRC_NETTYPE_IOVEC);
    if head =? NULL then Ok (NULL, 0, st)
    else
      vec ← load (mem st) (s_data head);
      _ ← assert_ (negb (vec =? NULL));
      m ← iovec_loop loop_fuel (mem st) pkt vec;
      Ok (head, length, set_mem m st).

(** [while (_tmp->next && (_tmp->next != (del)))] of [LL_DELETE] and
    [LL_REPLACE_ELEM]. *)
Fixpoint ll_before (fuel : nat) (m : memory) (tmp del : Z) : result Z :=
  match fuel with
  | O => Fault OutOfFuel
  | S fuel =>
      next ← load m (s_next tmp);
      if negb (next =? NULL) && negb (next =? del) then ll_before fuel m next del else Ok tmp
  end.

Definition LL_DELETE (m : memory) (head del : Z) : result (Z * memory) :=
  if head =? del then next ← load m (s_next head); Ok (next, m)
  else
    tmp ← ll_before loop_fuel m head del;
    tnext ← load m (s_next tmp);
    if negb (tnext =? NULL) then
      dnext ← load m (s_next del);
      m ← store m (s_next tmp) dnext; Ok (head, m)
    else Ok (head, m).

Definition LL_REPLACE_ELEM (m : memory) (head el add : Z) : result (Z * memory) :=
  _ ← assert_ (negb (head =? NULL));
  _ ← assert_ (negb (el =? NULL));
  _ ← assert_ (negb (add =? NULL));
  enext ← load m (s_next el);
  m ← store m (s_next add) enext;
  if head =? el then Ok (add, m)
  else
    tmp ← ll_before loop_fuel m head el;
    tnext ← load m (s_next tmp);
    if negb (tnext =? NULL) then m ← store m (s_next tmp) add; Ok (head, m) else Ok (head, m).

Definition gnrc_pktbuf_remove_snip (st : pktbuf) (pkt snip : Z) : result (Z * pktbuf) :=
  '(pkt, m) ← LL_DELETE (mem st) pkt snip;
  m ← store m (s_next snip) NULL;
  st ← gnrc_pktbuf_release_error (set_mem m st) snip;
  Ok (pkt, st).

(** [LL_SEARCH_SCALAR(tail, back, next, NULL)] *)
Fixpoint search_last (fuel : nat) (m : memory) (out : Z) : result Z :=
  match fuel with
  | O => Fault OutOfFuel
  | S fuel =>
      if out =? NULL then Ok out
      else next ← load m (s_next out); if next =? NULL then Ok out else search_last fuel m next
  end.

Definition gnrc_pktbuf_replace_snip (st : pktbuf) (pkt old add : Z) : result (Z * pktbuf) :=
  anext ← load (mem st) (s_next add);
  '(pkt, m) ←
    (if negb (anext =? NULL) then
       let tail := anext in
       back ← search_last loop_fuel (mem st) tail;
       '(pkt, m) ← LL_REPLACE_ELEM (mem st) pkt old add;
       anext ← load m (s_next add);
       m ← store m (s_next back) anext;
       m ← store m (s_next add) tail;
       Ok (pkt, m)
     else LL_REPLACE_ELEM (mem st) pkt old add);
  m ← store m (s_next old) NULL;
  st ← gnrc_pktbuf_release_error (set_mem m st) old;
  Ok (pkt, st).

(** *** TEST_SUITES *)

Definition gnrc_pktbuf_is_empty (st : pktbuf) : result bool :=
  if _first_unused st =? _pktbuf then
    size ← load (mem st) (u_size (_first_unused st)); Ok (size =? GNRC_PKTBUF_SIZE)
  else Ok false.

Fixpoint sane_loop (fuel : nat) (m : memory) (ptr : Z) : result bool :=
  match fuel with
  | O => Fault OutOfFuel
  | S fuel =>
      if ptr =? NULL then Ok true
      else if (ptr <=? _pktbuf) && (_pktbuf + GNRC_PKTBUF_SIZE <=? ptr) then Ok false
      else
        next ← load m (u_next ptr);
        if negb (next =? NULL) && (next <=? ptr) then Ok false
        else
          size ← load m (u_size ptr);
          if ((next =? NULL) || (u32 (next - ptr) <? size)) &&
             (negb (next =? NULL) || negb (size =? u32 (GNRC_PKTBUF_SIZE - (ptr - _pktbuf)))) then Ok false
          else sane_loop fuel m next
  end.

Definition gnrc_pktbuf_is_sane (st : pktbuf) : result bool := sane_loop loop_fuel (mem st) (_first_unused st).

End Pktbuf.
