(* ===== verification/PktbufAlloc.v ===== *)
(** * The allocator of the packet buffer

    [alloc_inv] describes the list of unused chunks in memory and the blocks in
    use; [_pktbuf_alloc] and [_pktbuf_free] keep it and leave the bytes of all
    other blocks alone. *)

From stdpp Require Import gmap.
From S2P Require Import Prelude Words Pktbuf.
Open Scope Z_scope.

(** ** Reading and writing memory *)

Definition in_mem (m : memory) (p n : Z) : Prop := ∀ q, p <= q < p + n → is_Some (m !! q).
Definition same (m m' : memory) (p n : Z) : Prop := ∀ q, p <= q < p + n → m' !! q = m !! q.

(** Only bytes of the region changed. *)
Definition writes (m m' : memory) (p n : Z) : Prop :=
  (∀ q, is_Some (m !! q) → is_Some (m' !! q)) ∧ ∀ q, q < p ∨ p + n <= q → m' !! q = m !! q.

Lemma rd_same m m' p n : same m m' p (Z.of_nat n) → rd m' p n = rd m p n.
Proof.
  revert p. induction n as [|n IH]; intros p Hs; [done|]. cbn [rd]. unfold rd8.
  rewrite (Hs p) by lia. rewrite IH; [done|]. intros q Hq. apply Hs. lia.
Qed.

Lemma load_same m m' p : same m m' p 4 → load m' p = load m p.
Proof. intros Hs. unfold load. by rewrite (rd_same m m'). Qed.

Lemma rd_Ok m p n : in_mem m p (Z.of_nat n) → ∃ bs, rd m p n = Ok bs ∧ length bs = n.
Proof.
  revert p. induction n as [|n IH]; intros p Hm; [by exists []|]. cbn [rd]. unfold rd8.
  destruct (Hm p ltac:(lia)) as [b ->]. cbn [from_option_or]. rewrite result_bind_Ok.
  destruct (IH (p + 1)) as (bs & -> & Hl); [intros q Hq; apply Hm; lia|].
  rewrite result_bind_Ok. exists (b :: bs). split; [done|]. cbn [length]. lia.
Qed.

Lemma wr_Ok m p bs : in_mem m p (Z.of_nat (length bs)) →
  ∃ m', wr m p bs = Ok m' ∧ writes m m' p (Z.of_nat (length bs)) ∧ rd m' p (length bs) = Ok bs.
Proof.
  revert m p. induction bs as [|b bs IH]; intros m p Hm; [by exists m|]. cbn [wr length] in *. unfold wr8, rd8.
  destruct (Hm p ltac:(lia)) as [c Hc]. rewrite Hc. cbn [from_option_or]. rewrite !result_bind_Ok.
  destruct (IH (<[p := b]> m) (p + 1)) as (m' & -> & [Hdom Hout] & Hrd).
  { intros q Hq. rewrite lookup_insert_ne by lia. apply Hm. lia. }
  exists m'. split; [done|]. split; [split|].
  - intros q Hq. apply Hdom. destruct (decide (q = p)) as [->|]; [by rewrite lookup_insert_eq|by rewrite lookup_insert_ne].
  - intros q Hq. rewrite Hout by lia. apply lookup_insert_ne. lia.
  - cbn [rd]. unfold rd8. rewrite Hout by lia. rewrite lookup_insert_eq. cbn [from_option_or].
    by rewrite result_bind_Ok, Hrd.
Qed.

Lemma in_mem_sub m p n q k : in_mem m p n → p <= q → q + k <= p + n → in_mem m q k.
Proof. intros Hm ?? r Hr. apply Hm. lia. Qed.

Lemma load_Ok m p : in_mem m p 4 → ∃ v, load m p = Ok v.
Proof.
  intros Hm. destruct (rd_Ok m p 4 Hm) as (bs & Hrd & Hl). unfold load. rewrite Hrd, result_bind_Ok.
  do 5 (destruct bs as [|? bs]; try done). by eexists.
Qed.

Lemma store_Ok m p v : is_word v → in_mem m p 4 →
  ∃ m', store m p v = Ok m' ∧ writes m m' p 4 ∧ load m' p = Ok v.
Proof.
  intros Hv Hm. unfold store. destruct (wr_Ok m p [byte3 v; byte2 v; byte1 v; byte0 v] Hm) as (m' & -> & Hw & Hrd).
  exists m'. split; [done|]. split; [done|]. unfold load. cbn [length] in Hrd. rewrite Hrd, result_bind_Ok.
  f_equal. symmetry. by apply word_w4.
Qed.

Lemma same_trans m m' m'' p n : same m m' p n → same m' m'' p n → same m m'' p n.
Proof. intros H H' q Hq. by rewrite H', H. Qed.

Lemma same_sub m m' p n q k : same m m' p n → p <= q → q + k <= p + n → same m m' q k.
Proof. intros H ?? r Hr. apply H. lia. Qed.

Lemma writes_same m m' p n q k : writes m m' p n → q + k <= p ∨ p + n <= q → same m m' q k.
Proof. intros [_ H] ? r Hr. apply H. lia. Qed.

Lemma writes_in_mem m m' p n q k : writes m m' p n → in_mem m q k → in_mem m' q k.
Proof. intros [H _] Hm r Hr. by apply H, Hm. Qed.

Lemma writes_trans m m' m'' p n : writes m m' p n → writes m' m'' p n → writes m m'' p n.
Proof. intros [H1 H2] [H3 H4]. split; [by eauto|]. intros q Hq. by rewrite H4, H2. Qed.

Lemma writes_sub m m' p n q k : writes m m' p n → q <= p → p + n <= q + k → writes m m' q k.
Proof. intros [H1 H2] ??. split; [done|]. intros r Hr. apply H2. lia. Qed.

(** ** Blocks *)

Notation block := (Z * Z)%type.

Definition disj (b c : block) : Prop := b.1 + b.2 <= c.1 ∨ c.1 + c.2 <= b.1.

Fixpoint all_disj (l : list block) : Prop :=
  match l with [] => True | b :: l => Forall (disj b) l ∧ all_disj l end.

Lemma disj_sym b c : disj b c → disj c b.
Proof. unfold disj. lia. Qed.

#[export] Instance all_disj_perm : Proper ((≡ₚ) ==> iff) all_disj.
Proof.
  intros l l' Hp. induction Hp as [|b l l' Hp IH|b c l|l1 l2 l3 _ IH1 _ IH2]; cbn [all_disj]; [done|by rewrite IH, Hp| |by rewrite IH1].
  rewrite !Forall_cons. split; intros ([Hbc Hb] & Hc & Hl); repeat split; auto using disj_sym.
Qed.

Lemma all_disj_app l k : all_disj (l ++ k) ↔ all_disj l ∧ all_disj k ∧ ∀ b c, b ∈ l → c ∈ k → disj b c.
Proof.
  induction l as [|b l IH]; cbn [all_disj app]; [set_solver|]. rewrite IH, Forall_app, !Forall_forall.
  split; [|set_solver]. intros [[H1 H2] (H3 & H4 & H5)]. repeat split; auto. set_solver.
Qed.

(** The change is confined to the blocks [R]. *)
Definition keeps (m m' : memory) (R : list block) : Prop :=
  (∀ q, is_Some (m !! q) → is_Some (m' !! q)) ∧
  ∀ q, Forall (λ b, q < b.1 ∨ b.1 + b.2 <= q) R → m' !! q = m !! q.

Lemma keeps_refl m R : keeps m m R.
Proof. by split. Qed.

Lemma keeps_trans m m' m'' R : keeps m m' R → keeps m' m'' R → keeps m m'' R.
Proof. intros [H1 H2] [H3 H4]. split; [by eauto|]. intros q Hq. by rewrite H4, H2. Qed.

Lemma keeps_writes m m' p n a k R : writes m m' p n → (a, k) ∈ R → a <= p → p + n <= a + k → keeps m m' R.
Proof.
  intros [H1 H2] HR ??. split; [done|]. intros q Hq. rewrite Forall_forall in Hq. specialize (Hq _ HR). cbn in Hq.
  apply H2. lia.
Qed.

Lemma keeps_same m m' R b : keeps m m' R → Forall (disj b) R → same m m' b.1 b.2.
Proof.
  intros [_ H] Hd q Hq. apply H. eapply Forall_impl; [exact Hd|]. unfold disj. cbn. intros c. lia.
Qed.

Lemma keeps_in_mem m m' R p n : keeps m m' R → in_mem m p n → in_mem m' p n.
Proof. intros [H _] Hm r Hr. by apply H, Hm. Qed.

Lemma keeps_mono m m' R R' : keeps m m' R → R ⊆ R' → keeps m m' R'.
Proof. intros [H1 H2] Hsub. split; [done|]. intros q Hq. apply H2. rewrite Forall_forall in *. set_solver. Qed.

(** ** The list of unused chunks *)

(** The chunks [fl] are linked from [p] on, and the last one to [q]. *)
Fixpoint lseg (m : memory) (p : Z) (fl : list block) (q : Z) : Prop :=
  match fl with
  | [] => p = q
  | (a, n) :: fl => p = a ∧ load m (u_size a) = Ok n ∧ ∃ next, load m (u_next a) = Ok next ∧ lseg m next fl q
  end.

(** Chunks in ascending order, large enough for a header, in a region. *)
Fixpoint spaced (lo : Z) (fl : list block) (hi : Z) : Prop :=
  match fl with
  | [] => lo <= hi
  | (a, n) :: fl => lo <= a ∧ UNUSED_SIZE <= n ∧ spaced (a + n) fl hi
  end.

Lemma lseg_app m p f g q : lseg m p (f ++ g) q ↔ ∃ r, lseg m p f r ∧ lseg m r g q.
Proof.
  revert p. induction f as [|[a n] f IH]; intros p; cbn [lseg app]; [naive_solver|]. setoid_rewrite IH. naive_solver.
Qed.

Lemma spaced_app lo f g hi : spaced lo (f ++ g) hi ↔ ∃ mid, spaced lo f mid ∧ spaced mid g hi.
Proof.
  revert lo. induction f as [|[a n] f IH]; intros lo; cbn [spaced app]; [|setoid_rewrite IH; naive_solver].
  split; [intros H; exists lo; split; [lia|done]|]. intros (mid & Hle & H).
  destruct g as [|[a n] g]; cbn [spaced] in *; [lia|]. destruct H as (? & ? & ?). repeat split; [lia|done|done].
Qed.

Lemma spaced_mono lo lo' f hi hi' : spaced lo f hi → lo' <= lo → hi <= hi' → spaced lo' f hi'.
Proof.
  revert lo lo'. induction f as [|[a n] f IH]; intros lo lo'; cbn [spaced]; [lia|].
  intros (? & ? & H) ??. repeat split; [lia|done|]. eapply IH; [exact H|lia|done].
Qed.

Lemma spaced_bounds lo f hi : spaced lo f hi → lo <= hi ∧ ∀ a n, (a, n) ∈ f → lo <= a ∧ UNUSED_SIZE <= n ∧ a + n <= hi.
Proof.
  unfold UNUSED_SIZE. revert lo. induction f as [|[a n] f IH]; intros lo; cbn [spaced]; [set_solver|].
  unfold UNUSED_SIZE. intros (? & ? & H). apply IH in H as [Hle Hin]. split; [lia|]. intros b k [[= -> ->]|Hb]%elem_of_cons; [lia|].
  specialize (Hin _ _ Hb). lia.
Qed.

Lemma spaced_length lo f hi : spaced lo f hi → UNUSED_SIZE * Z.of_nat (length f) <= hi - lo.
Proof.
  revert lo. induction f as [|[a n] f IH]; intros lo; cbn [spaced length]; unfold UNUSED_SIZE in *; [lia|].
  intros (? & ? & H). apply IH in H. lia.
Qed.

Lemma spaced_before lo f hi a : spaced lo f hi → (∀ b n, (b, n) ∈ f → b + n <= a) → lo <= a → spaced lo f a.
Proof.
  revert lo. induction f as [|[b n] f IH]; intros lo; cbn [spaced]; [done|]. intros (? & ? & H) Hin Hlo.
  split; [done|]. split; [done|]. apply IH; [done|set_solver|]. apply (Hin b n). left.
Qed.

Lemma spaced_after lo f hi a : spaced lo f hi → (∀ b n, (b, n) ∈ f → a <= b) → a <= hi → spaced a f hi.
Proof.
  destruct f as [|[b n] f]; cbn [spaced]; [done|]. intros (? & ? & H) Hin Hlo.
  split; [apply (Hin b n); left|]. done.
Qed.

Lemma lseg_same m m' p f q : lseg m p f q → (∀ a n, (a, n) ∈ f → same m m' a UNUSED_SIZE) → lseg m' p f q.
Proof.
  unfold UNUSED_SIZE, u_size, u_next. revert p. induction f as [|[a n] f IH]; intros p; cbn [lseg]; [done|].
  intros (-> & Hsz & nx & Hnx & H) Hs. unfold u_size, u_next in *.
  pose proof (Hs a n ltac:(left)) as Ha. split; [done|].
  rewrite (load_same m m') by (eapply same_sub; [exact Ha|lia|lia]). split; [done|]. exists nx.
  rewrite (load_same m m') by (eapply same_sub; [exact Ha|lia|lia]). split; [done|].
  apply IH; [done|]. intros b k Hb. apply (Hs b k). by right.
Qed.

(** The chunk before a position. *)
Definition last_of (prev : Z) (f : list block) : Z := default prev (fst <$> last f).

Lemma last_of_cons prev a n f : last_of prev ((a, n) :: f) = last_of a f.
Proof. unfold last_of. rewrite last_cons. by destruct (last f). Qed.

Lemma last_of_snoc prev a n f : last_of prev (f ++ [(a, n)]) = a.
Proof. unfold last_of. by rewrite last_snoc. Qed.

Lemma last_of_nil f : (∀ a n, (a, n) ∈ f → 0 < a) → last_of NULL f = NULL → f = [].
Proof.
  intros Hf. destruct f as [|[a n] f _] using rev_ind; [done|]. rewrite last_of_snoc.
  pose proof (Hf a n ltac:(set_solver)). unfold NULL. lia.
Qed.

Lemma lseg_head m p f : lseg m p f NULL → p = from_option fst NULL (head f).
Proof. destruct f as [|[a n] f]; cbn [lseg]; [done|]. by intros [-> _]. Qed.

Lemma _align_eq size : 0 <= size → size + 3 < 2 ^ 32 → _align size = 4 * ((size + 3) / 4).
Proof.
  intros H0 H. unfold _align, _ALIGNMENT_MASK. rewrite u32_small by lia.
  change (u32 (Z.lnot 3)) with (Z.land (Z.ones 32) (Z.lnot (Z.ones 2))).
  rewrite Z.land_assoc, Z.land_ones, Z.mod_small, <-Z.ldiff_land, Z.ldiff_ones_r by lia.
  rewrite Z.shiftl_mul_pow2, Z.shiftr_div_pow2 by lia. apply Z.mul_comm.
Qed.

(** The sizes that rounding up does not wrap. *)
Definition size_ok (size : Z) : Prop := 0 <= size ∧ size + 3 < 2 ^ 32.

Lemma chunk_size_eq size : size_ok size → chunk_size size = Z.max 8 (4 * ((size + 3) / 4)).
Proof.
  intros [H0 H]. unfold chunk_size, UNUSED_SIZE. change (_align 8) with 8. rewrite _align_eq by done.
  destruct (Z.ltb_spec size 8); dlia.
Qed.

Lemma chunk_size_bounds size : size_ok size →
  UNUSED_SIZE <= chunk_size size ∧ size <= chunk_size size <= Z.max 8 (size + 3) ∧ chunk_size size < 2 ^ 32.
Proof. intros Hs. rewrite chunk_size_eq by done. destruct Hs. unfold UNUSED_SIZE. dlia. Qed.

Section Chunks.
Context (_pktbuf GNRC_PKTBUF_SIZE : Z).
Notation base := _pktbuf.
Notation buf_end := (_pktbuf + GNRC_PKTBUF_SIZE).

(** The array is in the address space, not at [NULL], and holds a header. *)
Class Layout : Prop := {
  layout_base : 0 < base;
  layout_size : UNUSED_SIZE <= GNRC_PKTBUF_SIZE;
  layout_end : buf_end + 3 < 2 ^ 32
}.
Context `{!Layout}.

Ltac layout := pose proof layout_base; pose proof layout_size; pose proof layout_end.
Ltac zlia := unfold UNUSED_SIZE, u_next, u_size, NULL, disj in *; cbn [fst snd] in *; lia.

Lemma find_fit_spec fuel m size prev p f : lseg m p f NULL → spaced base f buf_end → (length f < fuel)%nat →
  (Forall (λ c, c.2 < size) f ∧ find_fit fuel m size prev p = Ok (last_of prev f, NULL)) ∨
  ∃ pre a n post, f = pre ++ (a, n) :: post ∧ Forall (λ c, c.2 < size) pre ∧ size <= n ∧
    find_fit fuel m size prev p = Ok (last_of prev pre, a).
Proof.
  layout. intros Hl Hs. assert (Hb : ∀ a n, (a, n) ∈ f → 0 < a) by (intros a n Ha; apply (proj2 (spaced_bounds _ _ _ Hs)) in Ha; lia).
  clear Hs. revert prev p f Hl Hb. induction fuel as [|fuel IH]; intros prev p f Hl Hb Hf; [lia|]. cbn [find_fit].
  destruct f as [|[a n] f]; cbn [lseg] in Hl; [left; by rewrite Hl|]. destruct Hl as (-> & Hsz & nx & Hnx & Hl).
  pose proof (Hb a n ltac:(left)). destruct (Z.eqb_spec a NULL); [unfold NULL in *; lia|].
  rewrite Hsz, result_bind_Ok. destruct (Z.ltb_spec n size) as [Hlt|Hge].
  - rewrite Hnx, result_bind_Ok. destruct (IH a nx f Hl) as [[Hall ->]|(pre & b & k & post & -> & Hpre & Hk & ->)].
    + intros b k Hbk. apply (Hb b k). by right.
    + cbn [length] in Hf. lia.
    + left. split; [by constructor|]. by rewrite last_of_cons.
    + right. exists ((a, n) :: pre), b, k, post. rewrite last_of_cons. repeat split; try done. by constructor.
  - right. exists [], a, n, f. done.
Qed.

Lemma find_place_spec fuel m data prev p f : lseg m p f NULL → spaced base f buf_end → (length f < fuel)%nat →
  ∃ pre post, f = pre ++ post ∧ Forall (λ c, c.1 < data) pre ∧ (∀ a n post', post = (a, n) :: post' → data <= a) ∧
    lseg m p pre (from_option fst NULL (head post)) ∧
    find_place fuel m data prev p = Ok (last_of prev pre, from_option fst NULL (head post)).
Proof.
  layout. intros Hl Hs. assert (Hb : ∀ a n, (a, n) ∈ f → 0 < a) by (intros a n Ha; apply (proj2 (spaced_bounds _ _ _ Hs)) in Ha; lia).
  clear Hs. revert prev p f Hl Hb. induction fuel as [|fuel IH]; intros prev p f Hl Hb Hf; [lia|]. cbn [find_place].
  destruct f as [|[a n] f]; cbn [lseg] in Hl; [exists [], []; rewrite Hl; repeat split; by try constructor|].
  destruct Hl as (-> & Hsz & nx & Hnx & Hl).
  pose proof (Hb a n ltac:(left)). destruct (Z.eqb_spec a NULL); [unfold NULL in *; lia|].
  destruct (Z.ltb_spec a data) as [Hlt|Hge].
  - rewrite Hnx, result_bind_Ok. destruct (IH a nx f Hl) as (pre & post & -> & Hpre & Hpost & Hseg & ->).
    + intros b k Hbk. apply (Hb b k). by right.
    + cbn [length] in Hf. lia.
    + exists ((a, n) :: pre), post. rewrite last_of_cons. repeat split; try done; [by constructor|]. cbn [lseg]. by eauto.
  - exists [], ((a, n) :: f). repeat split; try done. naive_solver.
Qed.

(** Changing the link to what follows the chunks [pre]. *)
Lemma set_link_spec st pre r q mid : lseg (mem st) (_first_unused st) pre r → spaced base pre mid → mid <= buf_end →
  in_mem (mem st) base GNRC_PKTBUF_SIZE → is_word q →
  ∃ st', set_link st (last_of NULL pre) q = Ok st' ∧ lseg (mem st') (_first_unused st') pre q ∧
         keeps (mem st) (mem st') pre.
Proof.
  layout. intros Hl Hs Hmid Hm Hq. unfold set_link. destruct pre as [|[a n] f _] using rev_ind.
  { eexists. split; [done|]. split; [done|apply keeps_refl]. }
  rewrite last_of_snoc. apply spaced_app in Hs as (k & Hf & Ha & Hn & Hk). cbn [spaced] in Hk.
  destruct (spaced_bounds _ _ _ Hf) as [Hbk Hbf]. unfold UNUSED_SIZE in *.
  destruct (Z.eqb_spec a NULL); [unfold NULL in *; lia|].
  destruct (store_Ok (mem st) (u_next a) q Hq) as (m' & -> & Hw & Hld).
  { eapply in_mem_sub; [exact Hm|unfold u_next; lia..]. }
  rewrite result_bind_Ok. eexists. split; [done|]. apply lseg_app in Hl as (r' & Hlf & -> & Hsz & nx & Hnx & _).
  unfold u_next, u_size in *. split.
  - apply lseg_app. exists a. split.
    + eapply lseg_same; [exact Hlf|]. intros b j Hb. apply Hbf in Hb. eapply writes_same; [exact Hw|]. unfold UNUSED_SIZE. lia.
    + cbn [lseg]. split; [done|]. unfold u_size, u_next. cbn [set_mem mem].
      rewrite (load_same (mem st) m') by (eapply writes_same; [exact Hw|lia]). by eauto.
  - eapply (keeps_writes _ _ a 4 a n); [exact Hw|set_solver|lia|lia].
Qed.

(** ** The invariant *)

Definition in_buf (b : block) : Prop := base <= b.1 ∧ UNUSED_SIZE <= b.2 ∧ b.1 + b.2 <= buf_end.

(** The unused chunks [fl] and the blocks [L] in use. *)
Record alloc_inv (st : pktbuf) (fl L : list block) : Prop := {
  ai_mem : in_mem (mem st) base GNRC_PKTBUF_SIZE;
  ai_seg : lseg (mem st) (_first_unused st) fl NULL;
  ai_spaced : spaced base fl buf_end;
  ai_live : Forall in_buf L;
  ai_disj : all_disj L;
  ai_sep : ∀ b c, b ∈ fl → c ∈ L → disj b c
}.

Lemma spaced_disj lo pre a n post hi : spaced lo (pre ++ (a, n) :: post) hi → ∀ b, b ∈ pre ++ post → disj b (a, n).
Proof.
  intros (mid & Hpre & Ha & Hn & Hpost)%spaced_app [b k] [Hb|Hb]%elem_of_app; unfold disj; cbn.
  - apply (proj2 (spaced_bounds _ _ _ Hpre)) in Hb. lia.
  - apply (proj2 (spaced_bounds _ _ _ Hpost)) in Hb. lia.
Qed.

Lemma fuel_enough fl : spaced base fl buf_end → (length fl < loop_fuel GNRC_PKTBUF_SIZE)%nat.
Proof. layout. intros Hs%spaced_length. unfold loop_fuel, UNUSED_SIZE in *. lia. Qed.

Lemma chunk_word fl a n : spaced base fl buf_end → (a, n) ∈ fl → is_word a ∧ is_word n ∧ a ≠ NULL.
Proof. layout. intros Hs Ha. apply (proj2 (spaced_bounds _ _ _ Hs)) in Ha. unfold is_word. zlia. Qed.

Lemma head_word m p fl : spaced base fl buf_end → lseg m p fl NULL → is_word p.
Proof.
  intros Hs ->%lseg_head. destruct fl as [|[a n] fl]; [done|]. apply (chunk_word _ a n Hs). left.
Qed.

(** ** Allocation *)

(** Taking a block from the front of a chunk. *)
Lemma live_cons a n k L : base <= a → a + n <= buf_end → UNUSED_SIZE <= k <= n → (∀ c, c ∈ L → disj (a, n) c) →
  Forall in_buf L → all_disj L → Forall in_buf ((a, k) :: L) ∧ all_disj ((a, k) :: L).
Proof.
  intros Ha Hn Hk HL Hlive Hdisj. split; [constructor; [unfold in_buf; cbn; lia|done]|]. cbn [all_disj]. split; [|done].
  apply Forall_forall. intros c Hc. specialize (HL c Hc). unfold disj in *. cbn in *. lia.
Qed.

(** The chunk is used up. *)
Lemma alloc_whole st pre a n nx post L cs : alloc_inv st (pre ++ (a, n) :: post) L →
  lseg (mem st) (_first_unused st) pre a → lseg (mem st) nx post NULL →
  UNUSED_SIZE <= cs <= n →
  ∃ st', set_link st (last_of NULL pre) nx = Ok st' ∧ alloc_inv st' (pre ++ post) ((a, cs) :: L) ∧
    keeps (mem st) (mem st') (pre ++ (a, n) :: post).
Proof.
  intros [Hm Hl Hs Hlive Hdisj Hsep] Hlp Hlq Hcs. pose proof (spaced_disj _ _ _ _ _ _ Hs) as Hda.
  pose proof Hs as (mid & Hsp & Ha & Hn8 & Hsq)%spaced_app.
  destruct (spaced_bounds _ _ _ Hsp) as [Hb1 Hbp], (spaced_bounds _ _ _ Hsq) as [Hb2 Hbq].
  assert (Hsq' : spaced base post buf_end) by (eapply spaced_mono; [exact Hsq|unfold UNUSED_SIZE in *; lia..]).
  destruct (set_link_spec st pre a nx mid Hlp Hsp ltac:(unfold UNUSED_SIZE in *; lia) Hm (head_word _ _ _ Hsq' Hlq)) as (st' & Hset & Hlp' & Hk).
  exists st'. split; [done|]. split; [|eapply keeps_mono; [exact Hk|set_solver]].
  assert (HL : ∀ c, c ∈ L → disj (a, n) c) by (intros c Hc; apply Hsep; set_solver).
  destruct (live_cons a n cs L ltac:(lia) Hb2 Hcs HL Hlive Hdisj) as [Hlive' Hdisj'].
  split; [by eapply keeps_in_mem| | |done|done|].
  - apply lseg_app. exists nx. split; [done|]. eapply lseg_same; [exact Hlq|]. intros b k Hb.
    apply Hbq in Hb. apply (keeps_same _ _ _ (b, UNUSED_SIZE) Hk). apply Forall_forall. intros [c j] Hc.
    apply Hbp in Hc. unfold disj. cbn. unfold UNUSED_SIZE in *. lia.
  - apply spaced_app. exists mid. split; [done|]. eapply spaced_mono; [exact Hsq|unfold UNUSED_SIZE in *; lia..].
  - intros b c Hb [->|Hc]%elem_of_cons; [|apply Hsep; set_solver].
    specialize (Hda b Hb). unfold disj in *. cbn in *. lia.
Qed.

(** The rest of the chunk becomes a chunk. *)
Lemma alloc_split st pre a n nx post L cs : alloc_inv st (pre ++ (a, n) :: post) L →
  lseg (mem st) (_first_unused st) pre a → load (mem st) (u_size a) = Ok n → load (mem st) (u_next a) = Ok nx →
  lseg (mem st) nx post NULL → UNUSED_SIZE <= cs → cs + UNUSED_SIZE <= n →
  ∃ st', (st ← set_link st (last_of NULL pre) (a + cs);
          next ← load (mem st) (u_next a);
          m ← store (mem st) (u_next (a + cs)) next;
          sz ← load m (u_size a);
          m ← store m (u_size (a + cs)) (u32 (sz - cs));
          Ok (a, set_mem m st)) = Ok (a, st') ∧
    alloc_inv st' (pre ++ (a + cs, n - cs) :: post) ((a, cs) :: L) ∧
    keeps (mem st) (mem st') (pre ++ (a, n) :: post).
Proof.
  layout. intros [Hm Hl Hs Hlive Hdisj Hsep] Hlp Hsz Hnx Hlq Hcs Hcn. pose proof (spaced_disj _ _ _ _ _ _ Hs) as Hda.
  pose proof Hs as (mid & Hsp & Ha & Hn8 & Hsq)%spaced_app.
  destruct (spaced_bounds _ _ _ Hsp) as [Hb1 Hbp], (spaced_bounds _ _ _ Hsq) as [Hb2 Hbq].
  assert (Hsq' : spaced base post buf_end) by (eapply spaced_mono; [exact Hsq|zlia..]).
  destruct (set_link_spec st pre a (a + cs) mid Hlp Hsp ltac:(zlia) Hm ltac:(unfold is_word; zlia)) as (st1 & -> & Hlp1 & Hk1).
  rewrite result_bind_Ok. pose proof (keeps_in_mem _ _ _ _ _ Hk1 Hm) as Hm1.
  assert (Hs1 : same (mem st) (mem st1) a (buf_end - a)).
  { apply (keeps_same _ _ _ (a, buf_end - a) Hk1), Forall_forall. intros [c j] Hc. apply Hbp in Hc. zlia. }
  rewrite (load_same (mem st)) by (eapply same_sub; [exact Hs1|zlia..]). rewrite Hnx, result_bind_Ok.
  destruct (store_Ok (mem st1) (u_next (a + cs)) nx (head_word _ _ _ Hsq' Hlq)) as (m2 & -> & Hw2 & Hld2).
  { eapply in_mem_sub; [exact Hm1|zlia..]. }
  rewrite result_bind_Ok. rewrite (load_same (mem st1) m2) by (eapply writes_same; [exact Hw2|zlia]).
  rewrite (load_same (mem st)) by (eapply same_sub; [exact Hs1|zlia..]). rewrite Hsz, result_bind_Ok, u32_small by zlia.
  destruct (store_Ok m2 (u_size (a + cs)) (n - cs) ltac:(unfold is_word; zlia)) as (m3 & -> & Hw3 & Hld3).
  { eapply in_mem_sub; [eapply writes_in_mem; [exact Hw2|exact Hm1]|zlia..]. }
  rewrite result_bind_Ok. eexists. split; [done|].
  assert (Hw : writes (mem st1) m3 (a + cs) 8) by
    (eapply writes_trans; [eapply writes_sub; [exact Hw2|zlia..]|eapply writes_sub; [exact Hw3|zlia..]]).
  assert (HL : ∀ c, c ∈ L → disj (a, n) c) by (intros c Hc; apply Hsep; set_solver).
  destruct (live_cons a n cs L ltac:(lia) Hb2 ltac:(zlia) HL Hlive Hdisj) as [Hlive' Hdisj'].
  split.
  - split; [by eapply writes_in_mem| | |done|done|]; cbn [set_mem mem _first_unused].
    + apply lseg_app. exists (a + cs). split.
      * eapply lseg_same; [exact Hlp1|]. intros b k Hb. apply Hbp in Hb. eapply writes_same; [exact Hw|zlia].
      * cbn [lseg]. split; [done|]. split; [done|]. exists nx.
        rewrite (load_same m2 m3) by (eapply writes_same; [exact Hw3|zlia]). split; [done|].
        eapply lseg_same; [exact Hlq|]. intros b k Hb. apply Hbq in Hb.
        eapply same_trans; [eapply same_sub; [exact Hs1|zlia..]|eapply writes_same; [exact Hw|zlia]].
    + apply spaced_app. exists mid. split; [done|]. cbn [spaced]. split; [zlia|]. split; [zlia|].
      by replace (a + cs + (n - cs)) with (a + n) by lia.
    + intros b c Hb Hc. assert (Hb' : b = (a + cs, n - cs) ∨ b ∈ pre ++ post) by set_solver.
      apply elem_of_cons in Hc as [->|Hc]; destruct Hb' as [->|Hb'].
      * zlia.
      * specialize (Hda b Hb'). zlia.
      * specialize (HL c Hc). zlia.
      * apply Hsep; set_solver.
  - cbn [set_mem mem]. eapply keeps_trans; [eapply keeps_mono; [exact Hk1|set_solver]|].
    eapply (keeps_writes _ _ _ _ a n); [exact Hw|set_solver|zlia|zlia].
Qed.

(** First fit: no chunk is large enough, or the first one that is gives the
    block, which no other block overlaps; what is left of the chunk stays on the
    list when it is large enough for a chunk. *)
Lemma alloc_first_fit st fl L size : alloc_inv st fl L → size_ok size →
  (Forall (λ c, c.2 < chunk_size size) fl ∧ _pktbuf_alloc _pktbuf GNRC_PKTBUF_SIZE st size = Ok (NULL, st)) ∨
  ∃ pre a n post st', let cs := chunk_size size in
    fl = pre ++ (a, n) :: post ∧ Forall (λ c, c.2 < cs) pre ∧ cs <= n ∧
    _pktbuf_alloc _pktbuf GNRC_PKTBUF_SIZE st size = Ok (a, st') ∧
    alloc_inv st' (pre ++ (if n - cs <? UNUSED_SIZE then [] else [(a + cs, n - cs)]) ++ post) ((a, cs) :: L) ∧
    keeps (mem st) (mem st') fl ∧ a ≠ NULL.
Proof.
  layout. intros Hinv Hsize. pose proof Hinv as [Hm Hl Hs _ _ _]. unfold _pktbuf_alloc.
  destruct (chunk_size_bounds _ Hsize) as (Hc8 & _ & Hcw). set (cs := chunk_size size) in *.
  destruct (find_fit_spec (loop_fuel GNRC_PKTBUF_SIZE) (mem st) cs NULL _ fl Hl Hs (fuel_enough _ Hs))
    as [[Hall ->]|(pre & a & n & post & -> & Hpre & Hn & ->)]; rewrite result_bind_Ok; [by left|right].
  destruct (chunk_word _ a n Hs ltac:(set_solver)) as (Haw & Hnw & HaN).
  destruct (Z.eqb_spec a NULL) as [|_]; [done|].
  apply lseg_app in Hl as (r & Hlp & -> & Hsz & nx & Hnx & Hlq).
  apply spaced_app in Hs as (mid & _ & _ & _ & [Hend _]%spaced_bounds).
  unfold is_word in *. rewrite Hsz, result_bind_Ok, u32_small by zlia.
  exists pre, a, n, post. cbv zeta. destruct (Z.ltb_spec (n - cs) UNUSED_SIZE).
  - rewrite Hnx, result_bind_Ok. destruct (alloc_whole st pre a n nx post L cs Hinv Hlp Hlq) as (st' & -> & Hinv' & Hk); [zlia|].
    rewrite result_bind_Ok. exists st'. done.
  - destruct (Z.ltb_spec GNRC_PKTBUF_SIZE (a + cs - base + UNUSED_SIZE)); [zlia|].
    destruct (alloc_split st pre a n nx post L cs Hinv Hlp Hsz Hnx Hlq) as (st' & -> & Hinv' & Hk); [zlia..|].
    exists st'. done.
Qed.

Lemma _pktbuf_alloc_Ok st fl L size : alloc_inv st fl L → size_ok size →
  (Forall (λ c, c.2 < chunk_size size) fl ∧ _pktbuf_alloc _pktbuf GNRC_PKTBUF_SIZE st size = Ok (NULL, st)) ∨
  ∃ a fl' st', _pktbuf_alloc _pktbuf GNRC_PKTBUF_SIZE st size = Ok (a, st') ∧
    alloc_inv st' fl' ((a, chunk_size size) :: L) ∧ keeps (mem st) (mem st') fl ∧ a ≠ NULL ∧
    ∃ n, (a, n) ∈ fl ∧ chunk_size size <= n.
Proof.
  intros Hinv Hsize. destruct (alloc_first_fit st fl L size Hinv Hsize) as [?|(pre & a & n & post & st' & -> & _ & Hn & E & Hinv' & Hk & Ha)]; [by left|right].
  eexists a, _, st'. split; [exact E|]. split; [exact Hinv'|]. split; [done|]. split; [done|]. exists n. set_solver.
Qed.

(** ** Release *)

(** Two chunks with a hole between them that holds no block. *)
Lemma _merge_Ok st pre b k c j post L : alloc_inv st (pre ++ (b, k) :: (c, j) :: post) L → c - (b + k) < UNUSED_SIZE →
  ∃ m', _merge (mem st) b c = Ok m' ∧ alloc_inv (set_mem m' st) (pre ++ (b, j + (c - b)) :: post) L ∧
        writes (mem st) m' b UNUSED_SIZE.
Proof.
  layout. intros [Hm Hl Hs Hlive Hdisj Hsep] Hhole. unfold _merge, assert_.
  apply lseg_app in Hl as (r & Hlp & -> & Hsz & nx & Hnx & -> & Hcsz & nx' & Hcnx & Hlq).
  pose proof Hs as (mid & Hsp & Hb & Hk8 & Hc & Hj8 & Hsq)%spaced_app.
  destruct (spaced_bounds _ _ _ Hsp) as [Hb1 Hbp], (spaced_bounds _ _ _ Hsq) as [Hb2 Hbq].
  assert (Hsq' : spaced base post buf_end) by (eapply spaced_mono; [exact Hsq|zlia..]).
  destruct (Z.eqb_spec c NULL) as [|_]; [zlia|]. cbn [negb]. rewrite result_bind_Ok, Hcnx, result_bind_Ok.
  destruct (store_Ok (mem st) (u_next b) nx' (head_word _ _ _ Hsq' Hlq)) as (m1 & -> & Hw1 & Hld1).
  { eapply in_mem_sub; [exact Hm|zlia..]. }
  rewrite result_bind_Ok, (load_same (mem st) m1) by (eapply writes_same; [exact Hw1|zlia]).
  rewrite Hcsz, result_bind_Ok, u32_small by zlia.
  destruct (store_Ok m1 (u_size b) (j + (c - b)) ltac:(unfold is_word; zlia)) as (m2 & -> & Hw2 & Hld2).
  { eapply in_mem_sub; [eapply writes_in_mem; [exact Hw1|exact Hm]|zlia..]. }
  assert (Hw : writes (mem st) m2 b 8) by
    (eapply writes_trans; [eapply writes_sub; [exact Hw1|zlia..]|eapply writes_sub; [exact Hw2|zlia..]]).
  eexists. split; [done|]. split; [|done].
  split; cbn [set_mem mem _first_unused]; [by eapply writes_in_mem| | |done|done|].
  - apply lseg_app. exists b. split.
    + eapply lseg_same; [exact Hlp|]. intros x n Hx. apply Hbp in Hx. eapply writes_same; [exact Hw|zlia].
    + cbn [lseg]. split; [done|]. split; [done|]. exists nx'.
      rewrite (load_same m1 m2) by (eapply writes_same; [exact Hw2|zlia]). split; [done|].
      eapply lseg_same; [exact Hlq|]. intros x n Hx. apply Hbq in Hx. eapply writes_same; [exact Hw|zlia].
  - apply spaced_app. exists mid. split; [done|]. cbn [spaced]. split; [zlia|]. split; [zlia|].
    by replace (b + (j + (c - b))) with (c + j) by lia.
  - intros x y Hx Hy. assert (Hx' : x = (b, j + (c - b)) ∨ x ∈ pre ++ post) by set_solver.
    destruct Hx' as [->|Hx']; [|apply Hsep; set_solver].
    pose proof (Hsep (b, k) y ltac:(set_solver) Hy). pose proof (Hsep (c, j) y ltac:(set_solver) Hy).
    rewrite Forall_forall in Hlive. pose proof (Hlive y Hy) as (_ & Hy8 & _). zlia.
Qed.

Lemma _too_small_hole_Ok m b k c : load m (u_size b) = Ok k → 0 <= c - (b + k) < 2 ^ 32 →
  _too_small_hole m b c = Ok (c - (b + k) <? UNUSED_SIZE).
Proof. intros Hsz Hc. unfold _too_small_hole. by rewrite Hsz, result_bind_Ok, u32_small. Qed.

(** A block lies in one of the chunks. *)
Definition covered (fl : list block) (b : block) : Prop := ∃ c, c ∈ fl ∧ c.1 <= b.1 ∧ b.1 + b.2 <= c.1 + c.2.

Lemma covered_elem fl b : b ∈ fl → covered fl b.
Proof. intros Hb. exists b. split; [done|lia]. Qed.

Lemma covered_trans fl fl' b : (∀ c, c ∈ fl → covered fl' c) → covered fl b → covered fl' b.
Proof. intros Hfl (c & Hc & ? & ?). destruct (Hfl c Hc) as (d & Hd & ? & ?). exists d. split; [done|lia]. Qed.

(** Two neighbours become one. *)
Lemma covered_merge pre b k c j post : b <= c → b + k <= c → 0 <= j →
  ∀ x, x ∈ pre ++ (b, k) :: (c, j) :: post → covered (pre ++ (b, j + (c - b)) :: post) x.
Proof.
  intros Hbc Hk Hj x. rewrite elem_of_app, !elem_of_cons. intros [Hx|[->|[->|Hx]]].
  - apply covered_elem. set_solver.
  - exists (b, j + (c - b)). split; [set_solver|simpl; lia].
  - exists (b, j + (c - b)). split; [set_solver|simpl; lia].
  - apply covered_elem. set_solver.
Qed.

(** Merging a chunk with the one behind it. *)
Lemma merge_next_Ok st pre x n post L : alloc_inv st (pre ++ (x, n) :: post) L →
  ∃ fl' m', (next ← load (mem st) (u_next x);
             small ← (if next =? NULL then Ok false else _too_small_hole (mem st) x next);
             m ← (if (small : bool) then _merge (mem st) x next else Ok (mem st));
             Ok (set_mem m st)) = Ok (set_mem m' st) ∧
    alloc_inv (set_mem m' st) fl' L ∧ writes (mem st) m' x UNUSED_SIZE ∧ (∀ b, b ∈ pre ++ (x, n) :: post → covered fl' b).
Proof.
  layout. intros Hinv. pose proof Hinv as [Hm Hl Hs _ _ _].
  apply lseg_app in Hl as (r & _ & -> & Hsz & nx & Hnx & Hlq). rewrite Hnx, result_bind_Ok.
  apply spaced_app in Hs as (mid & [Hb1 _]%spaced_bounds & Hx & Hn8 & Hsq).
  assert (Hid : alloc_inv (set_mem (mem st) st) (pre ++ (x, n) :: post) L) by (by destruct st).
  destruct post as [|[c j] post]; cbn [lseg spaced] in Hlq, Hsq.
  { rewrite Hlq. eexists _, (mem st). split; [done|]. split; [exact Hid|]. split; [by split|apply covered_elem]. }
  destruct Hlq as (-> & _), Hsq as (Hc & Hj & [Hend _]%spaced_bounds).
  destruct (Z.eqb_spec c NULL) as [|_]; [zlia|]. rewrite (_too_small_hole_Ok _ _ _ _ Hsz), result_bind_Ok by zlia.
  destruct (Z.ltb_spec (c - (x + n)) UNUSED_SIZE) as [Hsmall|Hbig].
  - destruct (_merge_Ok st pre x n c j post L Hinv Hsmall) as (m' & -> & Hinv' & Hw). eexists _, m'.
    split; [done|]. split; [done|]. split; [done|]. apply covered_merge; zlia.
  - eexists _, (mem st). split; [done|]. split; [exact Hid|]. split; [by split|apply covered_elem].
Qed.

(** The size of the chunk that takes the place of a block: a rest at the end of
    the buffer that is too small for a chunk is added. *)
Definition freed_size (a cs : Z) : Z :=
  if buf_end - (a + cs) <? UNUSED_SIZE then buf_end - a else cs.

(** Where the block fits between the chunks, and what it does not overlap. *)
Lemma free_place st pre post a cs L : alloc_inv st (pre ++ post) ((a, cs) :: L) →
  Forall (λ c, c.1 < a) pre → (∀ b n post', post = (b, n) :: post' → a <= b) →
  in_buf (a, cs) ∧ spaced base pre a ∧ spaced (a + freed_size a cs) post buf_end ∧ cs <= freed_size a cs ∧
  (∀ y, y ∈ L → disj (a, freed_size a cs) y).
Proof.
  layout. intros [_ _ Hs Hlive Hdisj Hsep] Hpre Hpost. apply Forall_cons in Hlive as [Hin Hlive]. split; [done|].
  unfold in_buf in Hin. cbn [fst snd] in Hin. destruct (proj1 (spaced_app _ _ _ _) Hs) as (mid & Hsp & Hsq).
  destruct (spaced_bounds _ _ _ Hsp) as [Hb1 Hbp], (spaced_bounds _ _ _ Hsq) as [Hb2 Hbq].
  assert (Hq : ∀ b n, (b, n) ∈ post → a + cs <= b).
  { intros b n Hb. pose proof (Hsep (b, n) (a, cs) ltac:(set_solver) ltac:(left)) as Hd.
    destruct post as [|[b0 n0] post]; [set_solver|]. pose proof (Hpost _ _ _ eq_refl). cbn [spaced] in Hsq.
    destruct Hsq as (? & ? & Hsq). apply elem_of_cons in Hb as [[= -> ->]|Hb]; [zlia|].
    apply (proj2 (spaced_bounds _ _ _ Hsq)) in Hb. zlia. }
  unfold freed_size. split; [|split; [|split]].
  - eapply spaced_before; [exact Hsp| |lia]. intros b n Hb. rewrite Forall_forall in Hpre. pose proof (Hpre _ Hb).
    pose proof (Hsep (b, n) (a, cs) ltac:(set_solver) ltac:(left)). apply Hbp in Hb. zlia.
  - destruct (Z.ltb_spec (buf_end - (a + cs)) UNUSED_SIZE) as [Hlt|Hge].
    + destruct post as [|[b n] post]; [cbn [spaced]; lia|]. pose proof (Hq b n ltac:(left)). pose proof (Hbq b n ltac:(left)). zlia.
    + eapply spaced_after; [exact Hsq|done|lia].
  - destruct (Z.ltb_spec (buf_end - (a + cs)) UNUSED_SIZE); lia.
  - intros y Hy. cbn [all_disj] in Hdisj. destruct Hdisj as [Hd _]. rewrite Forall_forall in Hd, Hlive.
    pose proof (Hd y Hy). pose proof (Hlive y Hy) as (_ & ? & ?).
    destruct (Z.ltb_spec (buf_end - (a + cs)) UNUSED_SIZE); zlia.
Qed.

(** Writing the header of the new chunk. *)
Lemma free_header m a cs next : in_mem m base GNRC_PKTBUF_SIZE → in_buf (a, cs) → is_word next →
  ∃ m', (∀ A (f : memory → result A),
          (m ← store m (u_next a) next;
           m ← store m (u_size a) cs;
           m ← (if u32 (buf_end - (a + cs)) <? _align UNUSED_SIZE
                then store m (u_size a) (u32 (cs + u32 (buf_end - (a + cs)))) else Ok m);
           f m) = f m') ∧
    writes m m' a UNUSED_SIZE ∧ load m' (u_next a) = Ok next ∧ load m' (u_size a) = Ok (freed_size a cs).
Proof.
  layout. intros Hm (Ha & Hcs & Hend) Hnext. cbn [fst snd] in *. change (_align UNUSED_SIZE) with UNUSED_SIZE.
  destruct (store_Ok m (u_next a) next Hnext) as (m1 & Hst1 & Hw1 & Hld1); [eapply in_mem_sub; [exact Hm|zlia..]|].
  pose proof (writes_in_mem _ _ _ _ _ _ Hw1 Hm) as Hm1.
  destruct (store_Ok m1 (u_size a) cs ltac:(unfold is_word; zlia)) as (m2 & Hst2 & Hw2 & Hld2); [eapply in_mem_sub; [exact Hm1|zlia..]|].
  pose proof (writes_in_mem _ _ _ _ _ _ Hw2 Hm1) as Hm2.
  assert (Hw12 : writes m m2 a 8) by
    (eapply writes_trans; [eapply writes_sub; [exact Hw1|zlia..]|eapply writes_sub; [exact Hw2|zlia..]]).
  rewrite (u32_small (buf_end - (a + cs))) by zlia. unfold freed_size.
  destruct (Z.ltb_spec (buf_end - (a + cs)) UNUSED_SIZE).
  - rewrite u32_small by zlia.
    destruct (store_Ok m2 (u_size a) (cs + (buf_end - (a + cs))) ltac:(unfold is_word; zlia)) as (m3 & Hst3 & Hw3 & Hld3);
      [eapply in_mem_sub; [exact Hm2|zlia..]|].
    exists m3. split; [by intros A f; rewrite Hst1, result_bind_Ok, Hst2, result_bind_Ok, Hst3, result_bind_Ok|]. split; [eapply writes_trans; [exact Hw12|eapply writes_sub; [exact Hw3|zlia..]]|].
    rewrite (load_same m2 m3), (load_same m1 m2) by (eapply writes_same; [eassumption|zlia]). split; [done|].
    rewrite Hld3. f_equal. lia.
  - exists m2. split; [by intros A f; rewrite Hst1, result_bind_Ok, Hst2, !result_bind_Ok|]. split; [done|].
    rewrite (load_same m1 m2) by (eapply writes_same; [eassumption|zlia]). done.
Qed.

(** The block as a chunk on the list. *)
Lemma free_insert st pre post a cs L : alloc_inv st (pre ++ post) ((a, cs) :: L) →
  Forall (λ c, c.1 < a) pre → (∀ b n post', post = (b, n) :: post' → a <= b) →
  lseg (mem st) (_first_unused st) pre (from_option fst NULL (head post)) →
  ∃ st1, (∀ A (f : pktbuf → result A),
           (m ← store (mem st) (u_next a) (from_option fst NULL (head post));
            m ← store m (u_size a) cs;
            m ← (if u32 (buf_end - (a + cs)) <? _align UNUSED_SIZE
                 then store m (u_size a) (u32 (cs + u32 (buf_end - (a + cs)))) else Ok m);
            st ← set_link (set_mem m st) (last_of NULL pre) a; f st) = f st1) ∧
    alloc_inv st1 (pre ++ (a, freed_size a cs) :: post) L ∧ keeps (mem st) (mem st1) ((a, cs) :: pre).
Proof.
  layout. intros Hinv Hpre Hpost Hlp. destruct (free_place _ _ _ _ _ _ Hinv Hpre Hpost) as (Hin & Hsp & Hsq & Hfs & HL).
  destruct Hinv as [Hm Hl Hs Hlive Hdisj Hsep]. pose proof Hin as (Ha & Hcs & Hend). cbn [fst snd] in *.
  assert (Hlq : lseg (mem st) (from_option fst NULL (head post)) post NULL).
  { apply lseg_app in Hl as (r & _ & Hlq). by rewrite <-(lseg_head _ _ _ Hlq). }
  destruct (spaced_bounds _ _ _ Hsp) as [_ Hbp], (spaced_bounds _ _ _ Hsq) as [Hb2 Hbq].
  assert (Hsq' : spaced base post buf_end) by (eapply spaced_mono; [exact Hsq|zlia..]).
  destruct (free_header (mem st) a cs _ Hm Hin (head_word _ _ _ Hsq' Hlq)) as (m & Hrun & Hw & Hnx & Hsz).
  pose proof (writes_in_mem _ _ _ _ _ _ Hw Hm) as Hm1.
  destruct (set_link_spec (set_mem m st) pre (from_option fst NULL (head post)) a a) as (st1 & Hlink & Hlp1 & Hk1);
    cbn [set_mem mem _first_unused]; [|done|zlia|done|unfold is_word; zlia|].
  { eapply lseg_same; [exact Hlp|]. intros b n Hb. apply Hbp in Hb. eapply writes_same; [exact Hw|zlia]. }
  cbn [set_mem mem] in Hk1. exists st1. split; [by intros A f; rewrite Hrun, Hlink, result_bind_Ok|].
  assert (Hs1 : same m (mem st1) a (buf_end - a)).
  { apply (keeps_same _ _ _ (a, buf_end - a) Hk1), Forall_forall. intros [c j] Hc. apply Hbp in Hc. zlia. }
  apply Forall_cons in Hlive as [_ Hlive]. cbn [all_disj] in Hdisj. split; [split; [by eapply keeps_in_mem| | |done|apply Hdisj|]|].
  - apply lseg_app. exists a. split; [done|]. cbn [lseg]. split; [done|].
    rewrite !(load_same m (mem st1)) by (eapply same_sub; [exact Hs1|zlia..]). split; [done|]. eexists. split; [done|].
    eapply lseg_same; [exact Hlq|]. intros b n Hb. apply Hbq in Hb.
    eapply same_trans; [eapply writes_same; [exact Hw|zlia]|eapply same_sub; [exact Hs1|zlia..]].
  - apply spaced_app. exists a. split; [done|]. cbn [spaced]. split; [lia|]. split; [zlia|done].
  - intros x y Hx Hy. assert (Hx' : x = (a, freed_size a cs) ∨ x ∈ pre ++ post) by set_solver.
    destruct Hx' as [->|Hx']; [by apply HL|apply Hsep; [done|by right]].
  - eapply keeps_trans; [|eapply keeps_mono; [exact Hk1|set_solver]].
    eapply (keeps_writes _ _ _ _ a cs); [exact Hw|left|zlia|zlia].
Qed.

Lemma contains_buf a : base <= a < buf_end → _pktbuf_contains base GNRC_PKTBUF_SIZE a = true.
Proof. layout. intros Ha. unfold _pktbuf_contains. rewrite u32_small by lia. lia. Qed.

(** The block and all chunks are unused afterwards, and the bytes of the blocks
    that stay in use are not touched. *)
Lemma free_covers st fl a size L : alloc_inv st fl ((a, chunk_size size) :: L) →
  ∃ fl' st', _pktbuf_free base GNRC_PKTBUF_SIZE st a size = Ok st' ∧ alloc_inv st' fl' L ∧
    keeps (mem st) (mem st') ((a, chunk_size size) :: fl) ∧ (∀ b, b ∈ (a, chunk_size size) :: fl → covered fl' b).
Proof.
  layout. intros Hinv. unfold _pktbuf_free. set (cs := chunk_size size) in *.
  pose proof Hinv as [Hm Hl Hs Hlive _ _]. apply Forall_cons in Hlive as [(Ha & Hcs & Hend) _]. cbn [fst snd] in *.
  rewrite contains_buf by zlia. cbn [negb].
  destruct (find_place_spec (loop_fuel GNRC_PKTBUF_SIZE) (mem st) a NULL _ fl Hl Hs (fuel_enough _ Hs))
    as (pre & post & -> & Hpre & Hpost & Hlp & ->). rewrite result_bind_Ok.
  destruct (free_insert _ _ _ _ _ _ Hinv Hpre Hpost Hlp) as (st1 & -> & Hinv1 & Hk1).
  destruct (free_place _ _ _ _ _ _ Hinv Hpre Hpost) as (_ & _ & _ & Hfs & _).
  assert (HR : keeps (mem st) (mem st1) ((a, cs) :: pre ++ post)) by (eapply keeps_mono; [exact Hk1|set_solver]).
  assert (Hcov : ∀ b, b ∈ (a, cs) :: pre ++ post → covered (pre ++ (a, freed_size a cs) :: post) b).
  { intros b [->|Hb]%elem_of_cons; [exists (a, freed_size a cs); split; [set_solver|simpl; lia]|apply covered_elem; set_solver]. }
  assert (Hpos : ∀ b n, (b, n) ∈ pre → b ≠ NULL).
  { intros b n Hb. apply (chunk_word _ b n Hs). set_solver. }
  destruct pre as [|[b k] pre _] using rev_ind.
  { change (last_of NULL []) with NULL. rewrite Z.eqb_refl, result_bind_Ok.
    destruct (merge_next_Ok st1 [] a _ post L Hinv1) as (fl' & m' & -> & Hinv' & Hw & Hc).
    eexists fl', _. split; [done|]. split; [done|]. split; [eapply keeps_trans; [exact HR|]|].
    - eapply (keeps_writes _ _ _ _ a cs); [exact Hw|left|zlia|zlia].
    - intros b Hb. by eapply covered_trans, Hcov. }
  rewrite last_of_snoc. destruct (Z.eqb_spec b NULL) as [|_]; [by destruct (Hpos b k); [set_solver|]|].
  rewrite <-(app_assoc pre) in Hinv1. cbn [app] in Hinv1.
  pose proof (ai_seg _ _ _ Hinv1) as (r & _ & -> & Hbsz & _)%lseg_app.
  pose proof (ai_spaced _ _ _ Hinv1) as (mid & [Hmid _]%spaced_bounds & Hb & Hk8 & Hba & _)%spaced_app.
  rewrite (_too_small_hole_Ok _ _ _ _ Hbsz), result_bind_Ok by zlia.
  assert (HbR : (b, k) ∈ (a, cs) :: (pre ++ [(b, k)]) ++ post) by set_solver.
  destruct (Z.ltb_spec (a - (b + k)) UNUSED_SIZE) as [Hsmall|Hbig].
  - destruct (_merge_Ok st1 pre b k a _ post L Hinv1 Hsmall) as (m1 & -> & Hinv2 & Hw1). rewrite !result_bind_Ok.
    destruct (merge_next_Ok _ pre b _ post L Hinv2) as (fl' & m' & Heq & Hinv' & Hw & Hc). cbn [set_mem mem _first_unused] in *.
    exists fl', (set_mem m' st1). split; [exact Heq|]. split; [exact Hinv'|]. split; [eapply keeps_trans; [exact HR|]; eapply keeps_trans|].
    + eapply (keeps_writes _ _ _ _ b k); [exact Hw1|done|zlia|zlia].
    + eapply (keeps_writes _ _ _ _ b k); [exact Hw|done|zlia|zlia].
    + intros x Hx. eapply covered_trans; [exact Hc|]. eapply covered_trans; [|by apply Hcov].
      rewrite <- app_assoc. apply covered_merge; zlia.
  - rewrite result_bind_Ok. rewrite cons_middle, app_assoc in Hinv1.
    destruct (merge_next_Ok st1 _ a _ post L Hinv1) as (fl' & m' & -> & Hinv' & Hw & Hc).
    eexists fl', _. split; [done|]. split; [done|]. split; [eapply keeps_trans; [exact HR|]|].
    + eapply (keeps_writes _ _ _ _ a cs); [exact Hw|left|zlia|zlia].
    + intros x Hx. eapply covered_trans; [exact Hc|]. by apply Hcov.
Qed.

Lemma _pktbuf_free_Ok st fl a size L : alloc_inv st fl ((a, chunk_size size) :: L) →
  ∃ fl' st', _pktbuf_free base GNRC_PKTBUF_SIZE st a size = Ok st' ∧ alloc_inv st' fl' L ∧
    keeps (mem st) (mem st') ((a, chunk_size size) :: fl).
Proof. intros Hinv. destruct (free_covers st fl a size L Hinv) as (fl' & st' & ? & ? & ? & _). by exists fl', st'. Qed.
End Chunks.
