(* ===== verification/PktbufStore.v ===== *)
(** * Packets in the packet buffer

    The abstract state is a finite map from the addresses of packet snips to
    their contents; [rep] relates it to the memory of the packet buffer. Every
    operation has the effect on the map that its documentation promises and
    leaves all other snips and their data alone. *)

From stdpp Require Import gmap.
From S2P Require Import Prelude Words Pktbuf PktbufAlloc.
Open Scope Z_scope.

(** ** Snips *)

Record snip : Type := Snip {
  users : Z;
  next : Z;
  data : Z;
  type : Z;
  bytes : list Z
}.

Definition size (s : snip) : Z := Z.of_nat (length (bytes s)).

Notation packets := (gmap Z snip).

Definition header_at (m : memory) (p u n d sz t : Z) : Prop :=
  load m (s_users p) = Ok u ∧ load m (s_next p) = Ok n ∧ load m (s_data p) = Ok d ∧
  load m (s_size p) = Ok sz ∧ load m (s_type p) = Ok t.

Record snip_at (m : memory) (p : Z) (s : snip) : Prop := {
  sa_header : header_at m p (users s) (next s) (data s) (size s) (type s);
  sa_words : is_word (users s) ∧ is_word (next s) ∧ is_word (data s) ∧ is_word (type s) ∧ size_ok (size s);
  sa_bytes : if data s =? NULL then bytes s = [] else bytes s ≠ [] ∧ rd m (data s) (length (bytes s)) = Ok (bytes s)
}.

(** The blocks a snip occupies. *)
Definition blocks_of (p : Z) (s : snip) : list block :=
  (p, SNIP_SIZE) :: if data s =? NULL then [] else [(data s, chunk_size (size s))].

Definition blocks (S : packets) : list block := map_to_list S ≫= λ ps, blocks_of ps.1 ps.2.

Lemma blocks_insert S p s : S !! p = None → blocks (<[p := s]> S) ≡ₚ blocks_of p s ++ blocks S.
Proof. intros Hp. unfold blocks. rewrite map_to_list_insert by done. by rewrite bind_cons. Qed.

Lemma blocks_delete S p s : S !! p = Some s → blocks S ≡ₚ blocks_of p s ++ blocks (delete p S).
Proof.
  intros Hp. rewrite <-blocks_insert by apply lookup_delete_eq. by rewrite insert_delete_eq, insert_id.
Qed.

Lemma elem_of_blocks S b : b ∈ blocks S ↔ ∃ p s, S !! p = Some s ∧ b ∈ blocks_of p s.
Proof.
  unfold blocks. rewrite list_elem_of_bind. setoid_rewrite elem_of_map_to_list'. split.
  - intros ([p s] & Hb & Hp). by exists p, s.
  - intros (p & s & Hp & Hb). by exists (p, s).
Qed.

Lemma header_same m m' p u n d sz t : same m m' p SNIP_SIZE → header_at m p u n d sz t → header_at m' p u n d sz t.
Proof.
  intros Hs (? & ? & ? & ? & ?). unfold header_at, s_users, s_next, s_data, s_size, s_type, SNIP_SIZE in *.
  rewrite !(load_same m m') by (eapply same_sub; [exact Hs|lia..]). done.
Qed.

Lemma snip_same m m' p s : (∀ b, b ∈ blocks_of p s → same m m' b.1 b.2) →
  snip_at m p s → snip_at m' p s.
Proof.
  intros Hs [Hh Hw Hb]. split; [|done|].
  - eapply header_same; [|done]. apply (Hs (p, SNIP_SIZE)). left.
  - unfold blocks_of in Hs. destruct (data s =? NULL); [done|]. destruct Hb as [Hne Hb]. split; [done|].
    rewrite (rd_same m m'); [done|]. pose proof (Hs (data s, chunk_size (size s)) ltac:(set_solver)) as Hd. cbn [fst snd] in Hd.
    destruct Hw as (_ & _ & _ & _ & Hok). destruct (chunk_size_bounds _ Hok) as (_ & ? & _).
    eapply same_sub; [exact Hd|unfold size in *; lia..].
Qed.

(** ** Writing headers and data *)

Ltac offsets := unfold s_users, s_next, s_data, s_size, s_type, SNIP_SIZE in *.

(** One member of a header; the others stay. *)
Ltac set_member Hh :=
  offsets; match goal with Hm : in_mem ?m ?p 20, Hv : is_word ?v |- context [store _ ?q ?v] =>
    destruct (store_Ok m q v Hv) as (m' & -> & Hw & Hld); [eapply in_mem_sub; [exact Hm|lia..]|];
    exists m'; split; [done|]; split; [eapply writes_sub; [exact Hw|lia..]|];
    destruct Hh as (? & ? & ? & ? & ?); unfold header_at; offsets;
    repeat split; first [exact Hld|rewrite (load_same m m') by (eapply writes_same; [exact Hw|lia]); done]
  end.

Section Headers.
Context (m : memory) (p u n d sz t : Z) (Hm : in_mem m p 20) (Hh : header_at m p u n d sz t).

Lemma set_users_Ok v : is_word v → ∃ m', store m (s_users p) v = Ok m' ∧ writes m m' p 20 ∧ header_at m' p v n d sz t.
Proof using Hm Hh. intros Hv. set_member Hh. Qed.
Lemma set_next_Ok v : is_word v → ∃ m', store m (s_next p) v = Ok m' ∧ writes m m' p 20 ∧ header_at m' p u v d sz t.
Proof using Hm Hh. intros Hv. set_member Hh. Qed.
Lemma set_data_Ok v : is_word v → ∃ m', store m (s_data p) v = Ok m' ∧ writes m m' p 20 ∧ header_at m' p u n v sz t.
Proof using Hm Hh. intros Hv. set_member Hh. Qed.
Lemma set_size_Ok v : is_word v → ∃ m', store m (s_size p) v = Ok m' ∧ writes m m' p 20 ∧ header_at m' p u n d v t.
Proof using Hm Hh. intros Hv. set_member Hh. Qed.
Lemma set_type_Ok v : is_word v → ∃ m', store m (s_type p) v = Ok m' ∧ writes m m' p 20 ∧ header_at m' p u n d sz v.
Proof using Hm Hh. intros Hv. set_member Hh. Qed.
End Headers.

Lemma header_exists m p : in_mem m p 20 → ∃ u n d sz t, header_at m p u n d sz t.
Proof.
  intros Hm. unfold header_at. offsets.
  destruct (load_Ok m p) as [u Hu]; [eapply in_mem_sub; [exact Hm|lia..]|].
  destruct (load_Ok m (p + 4)) as [n Hn]; [eapply in_mem_sub; [exact Hm|lia..]|].
  destruct (load_Ok m (p + 8)) as [d Hd]; [eapply in_mem_sub; [exact Hm|lia..]|].
  destruct (load_Ok m (p + 12)) as [sz Hsz]; [eapply in_mem_sub; [exact Hm|lia..]|].
  destruct (load_Ok m (p + 16)) as [t Ht]; [eapply in_mem_sub; [exact Hm|lia..]|].
  by exists u, n, d, sz, t.
Qed.

Lemma _set_pktsnip_Ok m p n d sz t : in_mem m p 20 → is_word n → is_word d → is_word sz → is_word t →
  ∃ m', _set_pktsnip m p n d sz t = Ok m' ∧ writes m m' p 20 ∧ header_at m' p 1 n d sz t.
Proof.
  intros Hm Hn Hd Hsz Ht. destruct (header_exists m p Hm) as (u0 & n0 & d0 & sz0 & t0 & Hh). unfold _set_pktsnip.
  destruct (set_next_Ok _ _ _ _ _ _ _ Hm Hh n Hn) as (m1 & -> & Hw1 & Hh1). pose proof (writes_in_mem _ _ _ _ _ _ Hw1 Hm) as Hm1.
  destruct (set_data_Ok _ _ _ _ _ _ _ Hm1 Hh1 d Hd) as (m2 & Hs2 & Hw2 & Hh2). pose proof (writes_in_mem _ _ _ _ _ _ Hw2 Hm1) as Hm2.
  destruct (set_size_Ok _ _ _ _ _ _ _ Hm2 Hh2 sz Hsz) as (m3 & Hs3 & Hw3 & Hh3). pose proof (writes_in_mem _ _ _ _ _ _ Hw3 Hm2) as Hm3.
  destruct (set_type_Ok _ _ _ _ _ _ _ Hm3 Hh3 t Ht) as (m4 & Hs4 & Hw4 & Hh4). pose proof (writes_in_mem _ _ _ _ _ _ Hw4 Hm3) as Hm4.
  destruct (set_users_Ok _ _ _ _ _ _ _ Hm4 Hh4 1 ltac:(done)) as (m5 & Hs5 & Hw5 & Hh5).
  rewrite result_bind_Ok, Hs2, result_bind_Ok, Hs3, result_bind_Ok, Hs4, result_bind_Ok, Hs5.
  exists m5. split; [done|]. split; [|done]. do 4 (eapply writes_trans; [eassumption|]). done.
Qed.

Lemma copy_Ok m dst src n bs : rd m src (Z.to_nat n) = Ok bs → length bs = Z.to_nat n → 0 <= n → in_mem m dst n →
  ∃ m', copy m dst src n = Ok m' ∧ writes m m' dst n ∧ rd m' dst (Z.to_nat n) = Ok bs.
Proof.
  intros Hrd Hl Hn Hm. unfold copy. rewrite Hrd, result_bind_Ok.
  replace n with (Z.of_nat (length bs)) in * by lia. rewrite Nat2Z.id in *. by apply wr_Ok.
Qed.

Section Store.
Context (_pktbuf GNRC_PKTBUF_SIZE : Z) `{!Layout _pktbuf GNRC_PKTBUF_SIZE}.
Notation base := _pktbuf.
Notation buf_end := (_pktbuf + GNRC_PKTBUF_SIZE).
Notation alloc_inv := (alloc_inv _pktbuf GNRC_PKTBUF_SIZE).
Notation _pktbuf_alloc := (_pktbuf_alloc _pktbuf GNRC_PKTBUF_SIZE).
Notation _pktbuf_free := (_pktbuf_free _pktbuf GNRC_PKTBUF_SIZE).

(** The buffer holds the packets [S] and the blocks [F] of an operation that
    is under way. *)
Definition rep_with (st : pktbuf) (S : packets) (F : list block) : Prop :=
  (∃ fl, alloc_inv st fl (F ++ blocks S)) ∧ ∀ p s, S !! p = Some s → snip_at (mem st) p s.

Definition rep (st : pktbuf) (S : packets) : Prop := rep_with st S [].

(** The blocks [F] and the memory outside the buffer have not changed. *)
Definition stable (m m' : memory) (F : list block) : Prop :=
  (∀ q, q < base ∨ buf_end <= q → m' !! q = m !! q) ∧ ∀ b, b ∈ F → same m m' b.1 b.2.

#[export] Instance alloc_inv_perm st fl : Proper ((≡ₚ) ==> iff) (alloc_inv st fl).
Proof.
  assert (∀ L L', L ≡ₚ L' → alloc_inv st fl L → alloc_inv st fl L') as Himp.
  { intros L L' Hp [H1 H2 H3 H4 H5 H6]. split; try done; [by rewrite <-Hp|by rewrite <-Hp|].
    intros b c Hb Hc. apply H6; [done|by rewrite Hp]. }
  intros L L' Hp. split; apply Himp; [done|by symmetry].
Qed.

#[export] Instance rep_with_perm st S : Proper ((≡ₚ) ==> iff) (rep_with st S).
Proof. intros F F' Hp. unfold rep_with. by setoid_rewrite Hp. Qed.

Lemma rep_block st S F b : rep_with st S F → b ∈ F ++ blocks S → in_buf base GNRC_PKTBUF_SIZE b.
Proof. intros [[fl Hinv] _] Hb. pose proof (ai_live _ _ _ _ _ Hinv) as H. rewrite Forall_forall in H. by apply H. Qed.

Lemma stable_refl m F : stable m m F.
Proof. by split. Qed.

Lemma stable_trans m m' m'' F : stable m m' F → stable m' m'' F → stable m m'' F.
Proof. intros [H1 H2] [H3 H4]. split; [intros q Hq; by rewrite H3, H1|]. intros b Hb. eapply same_trans; eauto. Qed.

Lemma stable_mono m m' F F' : stable m m' F → F' ⊆ F → stable m m' F'.
Proof. intros [H1 H2] Hsub. split; [done|]. intros b Hb. by apply H2, Hsub. Qed.

Lemma snips_stable m m' S F : stable m m' (F ++ blocks S) →
  (∀ p s, S !! p = Some s → snip_at m p s) → ∀ p s, S !! p = Some s → snip_at m' p s.
Proof.
  intros [_ Hst] HS p s Hp. eapply snip_same; [|by apply HS]. intros b Hb. apply Hst, elem_of_app. right.
  apply elem_of_blocks. by exists p, s.
Qed.

(** What changes only unused chunks leaves the blocks alone. *)
Lemma keeps_stable st fl m' R L L' : alloc_inv st fl L → keeps (mem st) m' R → L' ⊆ L →
  (∀ b, b ∈ R → b ∈ fl ∨ b ∈ L ∧ ∀ c, c ∈ L' → disj b c) → stable (mem st) m' L'.
Proof.
  intros [_ _ Hs Hlive _ Hsep] Hk Hsub HR. rewrite Forall_forall in Hlive. split.
  - intros q Hq. apply Hk, Forall_forall. intros [a n] Hb. destruct (HR _ Hb) as [Hfl|[HL _]].
    + apply (proj2 (spaced_bounds _ _ _ Hs)) in Hfl. cbn. lia.
    + destruct (Hlive _ HL) as (? & ? & ?). cbn in *. lia.
  - intros c Hc. eapply keeps_same; [exact Hk|]. apply Forall_forall. intros b Hb. apply disj_sym.
    destruct (HR _ Hb) as [Hfl|[_ Hd]]; [by apply Hsep, Hsub|by apply Hd].
Qed.

(** ** Allocating, releasing and writing blocks *)

Lemma rep_alloc st S F n : rep_with st S F → size_ok n →
  _pktbuf_alloc st n = Ok (NULL, st) ∨
  ∃ a st', _pktbuf_alloc st n = Ok (a, st') ∧ a ≠ NULL ∧ rep_with st' S ((a, chunk_size n) :: F) ∧
    stable (mem st) (mem st') (F ++ blocks S).
Proof.
  intros [[fl Hinv] HS] Hn. destruct (_pktbuf_alloc_Ok _ _ _ _ _ _ Hinv Hn) as [[_ ->]|(a & fl' & st' & -> & Hinv' & Hk & Ha & _)]; [by left|].
  assert (Hst : stable (mem st) (mem st') (F ++ blocks S)) by (eapply keeps_stable; [exact Hinv|exact Hk|done|by left]).
  right. exists a, st'. split; [done|]. split; [done|]. split; [|done]. split; [by exists fl'|]. by eapply snips_stable.
Qed.

Lemma rep_free st S F a n : rep_with st S ((a, chunk_size n) :: F) →
  ∃ st', _pktbuf_free st a n = Ok st' ∧ rep_with st' S F ∧ stable (mem st) (mem st') (F ++ blocks S).
Proof.
  intros [[fl Hinv] HS]. destruct (_pktbuf_free_Ok _ _ _ _ _ _ _ Hinv) as (fl' & st' & -> & Hinv' & Hk).
  assert (Hst : stable (mem st) (mem st') (F ++ blocks S)).
  { eapply keeps_stable; [exact Hinv|exact Hk|set_solver|]. intros b [->|Hb]%elem_of_cons; [|by left].
    right. split; [left|]. pose proof (ai_disj _ _ _ _ _ Hinv) as Hd. cbn [app all_disj] in Hd. destruct Hd as [Hd _].
    by rewrite Forall_forall in Hd. }
  exists st'. split; [done|]. split; [|done]. split; [by exists fl'|]. by eapply snips_stable.
Qed.

(** Writing to a block of the operation. *)
Lemma rep_write st S F a k m' p n : rep_with st S ((a, k) :: F) → writes (mem st) m' p n → a <= p → p + n <= a + k →
  rep_with (set_mem m' st) S ((a, k) :: F) ∧ stable (mem st) m' (F ++ blocks S).
Proof.
  intros [[fl Hinv] HS] Hw Hp Hn. pose proof Hinv as [Hm Hl Hs Hlive Hdisj Hsep].
  assert (Hk : keeps (mem st) m' [(a, k)]) by (eapply keeps_writes; [exact Hw|left|done|done]).
  assert (Hst : stable (mem st) m' (F ++ blocks S)).
  { eapply keeps_stable; [exact Hinv|exact Hk|set_solver|]. intros b ->%list_elem_of_singleton. right. split; [left|].
    cbn [app all_disj] in Hdisj. destruct Hdisj as [Hd _]. by rewrite Forall_forall in Hd. }
  split; [|done]. split; [|by eapply snips_stable]. exists fl. split; try done; [by eapply writes_in_mem|].
  eapply lseg_same; [exact Hl|]. intros b j Hb. cbn [set_mem mem].
  pose proof (Hsep (b, j) (a, k) Hb ltac:(left)) as Hd. apply (proj2 (spaced_bounds _ _ _ Hs)) in Hb.
  eapply writes_same; [exact Hw|]. unfold disj, UNUSED_SIZE in *. cbn in *. lia.
Qed.

(** ** Opening and closing a snip *)

Lemma alter_Some (S : packets) p s f : S !! p = Some s → alter f p S = <[p := f s]> S.
Proof.
  intros Hp. apply map_eq. intros q. destruct (decide (q = p)) as [->|Hne].
  - by rewrite lookup_insert_eq, lookup_alter_eq, Hp.
  - by rewrite lookup_insert_ne, lookup_alter_ne.
Qed.

Lemma rep_open st S F p s : rep_with st S F → S !! p = Some s → rep_with st (delete p S) (blocks_of p s ++ F).
Proof.
  intros [[fl Hinv] HS] Hp. split; [|intros q t Hq; apply HS; by apply lookup_delete_Some in Hq as [_ ?]].
  exists fl. rewrite (blocks_delete S p s Hp) in Hinv. rewrite <-app_assoc, (app_assoc (blocks_of p s)), (Permutation_app_comm (blocks_of p s)), <-app_assoc. done.
Qed.

Lemma rep_close st S F p s : rep_with st S (blocks_of p s ++ F) → S !! p = None → snip_at (mem st) p s →
  rep_with st (<[p := s]> S) F.
Proof.
  intros [[fl Hinv] HS] Hp Hs. split.
  - exists fl. rewrite (blocks_insert S p s Hp), app_assoc, (Permutation_app_comm F). done.
  - intros q t [[<- <-]|[_ Hq]]%lookup_insert_Some; [done|by apply HS].
Qed.

(** A block of an operation is not the place of a snip. *)
Lemma rep_fresh st S F a k : rep_with st S ((a, k) :: F) → S !! a = None.
Proof.
  intros Hrep. destruct (S !! a) as [s|] eqn:Ha; [|done]. exfalso.
  assert (Hb : (a, SNIP_SIZE) ∈ F ++ blocks S).
  { apply elem_of_app. right. apply elem_of_blocks. exists a, s. split; [done|left]. }
  pose proof (rep_block _ _ _ (a, k) Hrep ltac:(left)) as (_ & H1 & _).
  destruct Hrep as [[fl Hinv] _]. pose proof (ai_disj _ _ _ _ _ Hinv) as Hd. cbn [app all_disj] in Hd. destruct Hd as [Hd _].
  rewrite Forall_forall in Hd. specialize (Hd _ Hb). unfold disj, UNUSED_SIZE, SNIP_SIZE in *. cbn in *. lia.
Qed.

Lemma rep_in_mem st S F b : rep_with st S F → b ∈ F ++ blocks S → in_mem (mem st) b.1 b.2.
Proof.
  intros Hrep Hb. pose proof (rep_block _ _ _ _ Hrep Hb) as (? & ? & ?). destruct Hrep as [[fl Hinv] _].
  eapply in_mem_sub; [exact (ai_mem _ _ _ _ _ Hinv)|lia..].
Qed.

Lemma rep_word st S F b : rep_with st S F → b ∈ F ++ blocks S → is_word b.1 ∧ is_word b.2 ∧ b.1 ≠ NULL.
Proof.
  intros Hrep Hb. pose proof (rep_block _ _ _ _ Hrep Hb) as (? & ? & ?). pose proof (layout_base base GNRC_PKTBUF_SIZE). pose proof (layout_end base GNRC_PKTBUF_SIZE).
  unfold is_word, NULL, UNUSED_SIZE in *. lia.
Qed.

(** ** Operations *)

(** The bytes at [d] that an operation copies from: outside the buffer, or in
    a block. *)
Definition source (m : memory) (L : list block) (d : Z) (bs : list Z) : Prop :=
  rd m d (length bs) = Ok bs ∧
  (d + Z.of_nat (length bs) <= base ∨ buf_end <= d ∨
   ∃ b, b ∈ L ∧ b.1 <= d ∧ d + Z.of_nat (length bs) <= b.1 + b.2).

Lemma source_stable m m' L d bs : source m L d bs → stable m m' L → source m' L d bs.
Proof.
  intros [Hrd Hd] [Hout Hin]. split; [|done]. rewrite (rd_same m m'); [done|].
  destruct Hd as [Hd|[Hd|(b & Hb & ? & ?)]].
  - intros q Hq. apply Hout. lia.
  - intros q Hq. apply Hout. lia.
  - eapply same_sub; [by apply Hin|lia..].
Qed.

(** What [_create_snip] does: nothing, or a new snip with the data. *)
Definition created (st st' : pktbuf) (S : packets) (F : list block) (p n t sz : Z) (src : option (list Z)) : Prop :=
  stable (mem st) (mem st') (F ++ blocks S) ∧
  ((p = NULL ∧ rep_with st' S F) ∨
   (p ≠ NULL ∧ S !! p = None ∧ ∃ d bs, Z.of_nat (length bs) = sz ∧ from_option (eq bs) True src ∧
      rep_with st' (<[p := Snip 1 n d t bs]> S) F)).

(** The snip and its data are allocated: the header and the data are written. *)
Lemma create_fill st S F p a n t d sz src : 0 < sz → size_ok sz →
  rep_with st S ((a, chunk_size sz) :: (p, SNIP_SIZE) :: F) → is_word n → is_word t →
  (d ≠ NULL → ∃ bs, Z.of_nat (length bs) = sz ∧ src = Some bs ∧ source (mem st) (F ++ blocks S) d bs) →
  (d = NULL → src = None) →
  ∃ m', (m ← _set_pktsnip (mem st) p n a sz t;
         m ← (if negb (d =? NULL) then copy m a d sz else Ok m);
         Ok (p, set_mem m st)) = Ok (p, set_mem m' st) ∧
    stable (mem st) m' (F ++ blocks S) ∧ ∃ bs, Z.of_nat (length bs) = sz ∧ from_option (eq bs) True src ∧
      rep_with (set_mem m' st) (<[p := Snip 1 n a t bs]> S) F.
Proof.
  intros Hsz Hok Hrep Hn Ht Hsrc Hnone. rewrite perm_swap in Hrep.
  assert (Hszw : is_word sz) by (destruct Hok; unfold is_word; lia).
  destruct (rep_word _ _ _ (a, chunk_size sz) Hrep ltac:(set_solver)) as (Haw & _ & HaN). cbn [fst snd] in *.
  destruct (_set_pktsnip_Ok (mem st) p n a sz t) as (m1 & -> & Hw1 & Hh1); try done.
  { apply (rep_in_mem _ _ _ (p, 20) Hrep). left. }
  rewrite result_bind_Ok. destruct (rep_write _ _ _ _ _ _ _ _ Hrep Hw1 ltac:(lia) ltac:(unfold SNIP_SIZE; lia)) as [Hrep1 Hst1].
  destruct (chunk_size_bounds _ Hok) as (_ & Hcs & _).
  assert (Hma : in_mem m1 a sz).
  { eapply in_mem_sub; [apply (rep_in_mem _ _ _ (a, chunk_size sz) Hrep1); set_solver|cbn; lia..]. }
  assert (Hclose : ∀ m2 bs, rep_with (set_mem m2 st) S ((a, chunk_size sz) :: (p, SNIP_SIZE) :: F) →
            header_at m2 p 1 n a sz t → Z.of_nat (length bs) = sz → rd m2 a (length bs) = Ok bs →
            rep_with (set_mem m2 st) (<[p := Snip 1 n a t bs]> S) F).
  { intros m2 bs Hrep2 Hh2 Hl Hrd. rewrite perm_swap in Hrep2. apply rep_close.
    - unfold blocks_of, size. cbn [data bytes]. destruct (Z.eqb_spec a NULL); [done|]. by rewrite Hl.
    - by eapply rep_fresh.
    - split; cbn [users next data type bytes]; unfold size; cbn [bytes]; [by rewrite Hl|by rewrite Hl|].
      destruct (Z.eqb_spec a NULL); [done|]. split; [|done]. intros ->. cbn in Hl. lia. }
  destruct (Z.eqb_spec d NULL) as [->|Hd]; cbn [negb].
  - rewrite result_bind_Ok. exists m1. split; [done|]. split; [eapply stable_mono; [exact Hst1|set_solver]|].
    destruct (rd_Ok m1 a (Z.to_nat sz)) as (bs & Hrd & Hl); [by rewrite Z2Nat.id by lia|].
    exists bs. split; [lia|]. rewrite Hnone by done. split; [done|]. apply Hclose; [by rewrite perm_swap|done|lia|by rewrite Hl].
  - destruct (Hsrc Hd) as (bs & Hl & -> & Hs).
    assert (Hst1' : stable (mem st) m1 (F ++ blocks S)) by (eapply stable_mono; [exact Hst1|set_solver]).
    destruct (source_stable _ _ _ _ _ Hs Hst1') as [Hrd _].
    destruct (copy_Ok m1 a d sz bs) as (m2 & -> & Hw2 & Hrd2); [by rewrite <-Hl, Nat2Z.id|lia|lia|done|].
    rewrite result_bind_Ok. rewrite perm_swap in Hrep1.
    destruct (rep_write _ _ _ _ _ m2 a sz Hrep1 Hw2 ltac:(lia) ltac:(lia)) as [Hrep2 Hst2]. cbn [set_mem mem] in Hst2.
    exists m2. split; [done|]. split.
    { eapply stable_trans; [exact Hst1'|eapply stable_mono; [exact Hst2|set_solver]]. }
    exists bs. split; [done|]. split; [done|]. apply Hclose; [done| |done|by rewrite <-Hl, Nat2Z.id in Hrd2].
    eapply header_same; [|exact Hh1]. apply (proj2 Hst2 (p, SNIP_SIZE)). set_solver.
Qed.

Lemma _create_snip_Ok st S F n t d sz src : rep_with st S F → is_word n → is_word t → size_ok sz →
  (d ≠ NULL → ∃ bs, Z.of_nat (length bs) = sz ∧ src = Some bs ∧ source (mem st) (F ++ blocks S) d bs) →
  (d = NULL → src = None) →
  ∃ p st', _create_snip base GNRC_PKTBUF_SIZE st n d sz t = Ok (p, st') ∧ created st st' S F p n t sz src.
Proof.
  intros Hrep Hn Ht Hok Hsrc Hnone. unfold _create_snip, created.
  destruct (rep_alloc st S F SNIP_SIZE Hrep) as [->|(p & st1 & -> & HpN & Hrep1 & Hst1)]; [done|..]; rewrite result_bind_Ok.
  { exists NULL, st. split; [done|]. split; [apply stable_refl|by left]. }
  change (chunk_size SNIP_SIZE) with SNIP_SIZE in Hrep1. destruct (Z.eqb_spec p NULL); [done|].
  destruct (Z.ltb_spec 0 sz) as [Hsz|Hsz].
  - destruct (rep_alloc st1 S _ sz Hrep1 Hok) as [->|(a & st2 & -> & HaN & Hrep2 & Hst2)]; rewrite result_bind_Ok.
    + cbn [andb]. change (NULL =? NULL) with true. cbv iota.
      change SNIP_SIZE with (chunk_size SNIP_SIZE) in Hrep1. destruct (rep_free _ _ _ _ _ Hrep1) as (st2 & -> & Hrep2 & Hst2).
      rewrite result_bind_Ok. exists NULL, st2. split; [done|]. split; [by eapply stable_trans|by left].
    + destruct (Z.eqb_spec a NULL); [done|]. cbn [andb].
      assert (Hst12 : stable (mem st) (mem st2) (F ++ blocks S)) by (eapply stable_trans; [exact Hst1|eapply stable_mono; [exact Hst2|set_solver]]).
      destruct (create_fill st2 S F p a n t d sz src) as (m' & -> & Hst3 & bs & Hl & Hbs & Hrep3); try done.
      { intros Hd. destruct (Hsrc Hd) as (bs & Hl & -> & Hs). exists bs. split; [done|]. split; [done|]. by eapply source_stable. }
      exists p, (set_mem m' st2). split; [done|]. split; [by eapply stable_trans|]. right. split; [done|].
      split; [by eapply rep_fresh|]. by exists a, bs.
  - rewrite result_bind_Ok. cbn [andb]. assert (sz = 0) as -> by (destruct Hok; lia).
    destruct (_set_pktsnip_Ok (mem st1) p n NULL 0 t) as (m1 & -> & Hw1 & Hh1); try done.
    { apply (rep_in_mem _ _ _ (p, 20) Hrep1). left. }
    destruct (rep_write _ _ _ _ _ _ _ _ Hrep1 Hw1 ltac:(lia) ltac:(unfold SNIP_SIZE; lia)) as [Hrep2 Hst2].
    assert ((if negb (d =? NULL) then copy m1 NULL d 0 else Ok m1) = Ok m1) as Hcp by (by destruct (negb (d =? NULL))).
    rewrite result_bind_Ok, Hcp, result_bind_Ok. exists p, (set_mem m1 st1). split; [done|]. split; [by eapply stable_trans|].
    right. split; [done|]. split; [by eapply rep_fresh|]. exists NULL, []. split; [done|]. split.
    { destruct (Z.eqb_spec d NULL) as [->|Hd]; [by rewrite Hnone|]. destruct (Hsrc Hd) as ([|b bs] & Hl & -> & _); [done|cbn in Hl; lia]. }
    apply rep_close; [done|by eapply rep_fresh|]. by split.
Qed.

(** *** Packets as lists of snips *)

Fixpoint chain (S : packets) (p : Z) (l : list Z) : Prop :=
  match l with
  | [] => p = NULL
  | q :: l => p = q ∧ ∃ s, S !! q = Some s ∧ chain S (next s) l
  end.

Lemma rep_snip st S F p s : rep_with st S F → S !! p = Some s → p ≠ NULL ∧ base <= p < buf_end ∧ in_mem (mem st) p 20 ∧ snip_at (mem st) p s.
Proof.
  intros Hrep Hp. assert (Hb : (p, SNIP_SIZE) ∈ F ++ blocks S).
  { apply elem_of_app. right. apply elem_of_blocks. exists p, s. split; [done|left]. }
  pose proof (rep_word _ _ _ _ Hrep Hb) as (_ & _ & ?). pose proof (rep_block _ _ _ _ Hrep Hb) as (? & ? & ?). cbn in *.
  split; [done|]. split; [unfold SNIP_SIZE in *; lia|]. split; [exact (rep_in_mem _ _ _ _ Hrep Hb)|]. by apply Hrep.
Qed.

Lemma chain_det S p l l' : (∀ q s, S !! q = Some s → q ≠ NULL) → chain S p l → chain S p l' → l = l'.
Proof.
  intros HS. revert p l'. induction l as [|q l IH]; intros p [|q' l']; cbn [chain].
  - done.
  - intros -> [<- (s & Hs & _)]. by apply HS in Hs.
  - intros [-> (s & Hs & _)] ->. by apply HS in Hs.
  - intros [-> (s & Hs & Hc)] [<- (s' & Hs' & Hc')]. simplify_eq. f_equal. by eapply IH.
Qed.

Lemma chain_suffix S p l q : chain S p l → q ∈ l → ∃ l1 l2, l = l1 ++ l2 ∧ chain S q l2 ∧ (l2 ≠ []).
Proof.
  revert p. induction l as [|r l IH]; intros p; cbn [chain]; [set_solver|]. intros [-> (s & Hs & Hc)] [->|Hq]%elem_of_cons.
  - exists [], (r :: l). repeat split; [|done]. by exists s.
  - destruct (IH _ Hc Hq) as (l1 & l2 & -> & Hc2 & Hne). by exists (r :: l1), l2.
Qed.

Lemma chain_NoDup S p l : (∀ q s, S !! q = Some s → q ≠ NULL) → chain S p l → NoDup l.
Proof.
  intros HS. revert p. induction l as [|q l IH]; intros p Hc; [constructor|]. pose proof Hc as [_ (s & Hs & Hc')].
  constructor; [|by eapply IH]. intros Hq. destruct (chain_suffix _ _ _ _ Hc' Hq) as (l1 & l2 & -> & Hc2 & _).
  assert (Hc0 : chain S q (q :: l1 ++ l2)) by (cbn [chain]; by eauto).
  pose proof (chain_det _ _ _ _ HS Hc2 Hc0) as Heq. apply (f_equal length) in Heq. cbn [length] in Heq. rewrite length_app in Heq. lia.
Qed.

Lemma chain_fuel st S F p l : rep_with st S F → chain S p l → (length l < loop_fuel GNRC_PKTBUF_SIZE)%nat.
Proof.
  intros Hrep Hc. assert (HS : ∀ q s, S !! q = Some s → q ≠ NULL) by (intros q s Hq; eapply rep_snip; [exact Hrep|exact Hq]).
  pose proof (chain_NoDup _ _ _ HS Hc) as Hnd. unfold loop_fuel.
  assert (Hsub : l ⊆+ seqZ base GNRC_PKTBUF_SIZE).
  { apply NoDup_submseteq; [done|]. intros q Hq. apply elem_of_seqZ. destruct (chain_suffix _ _ _ _ Hc Hq) as (l1 & l2 & _ & Hc2 & Hne).
    destruct l2 as [|q' l2]; [done|]. destruct Hc2 as [<- (s & Hs & _)]. by apply (rep_snip _ _ _ _ _ Hrep Hs). }
  apply submseteq_length in Hsub. rewrite length_seqZ in Hsub. lia.
Qed.

Lemma chain_congr S S' p l : (∀ q, q ∈ l → S' !! q = S !! q) → chain S p l → chain S' p l.
Proof.
  revert p. induction l as [|q l IH]; intros p Heq; [done|]. cbn [chain]. intros [-> (s & Hs & Hc)]. split; [done|].
  exists s. split; [rewrite Heq; [done|left]|]. apply IH; [|done]. intros r Hr. apply Heq. by right.
Qed.

(** Changing the header of a snip. *)
Lemma rep_update st S F p s s' m' : rep_with st S F → S !! p = Some s → writes (mem st) m' p 20 →
  data s' = data s → bytes s' = bytes s →
  header_at m' p (users s') (next s') (data s) (size s) (type s') →
  is_word (users s') → is_word (next s') → is_word (type s') →
  rep_with (set_mem m' st) (<[p := s']> S) F ∧ stable (mem st) m' F.
Proof.
  intros Hrep Hp Hw Hd Hb Hh Hu Hn Ht. destruct (rep_snip _ _ _ _ _ Hrep Hp) as (_ & _ & _ & [_ (_ & _ & Hdw & _ & Hok) Hby]).
  pose proof (rep_open _ _ _ _ _ Hrep Hp) as Hop. unfold blocks_of in Hop. cbn [app] in Hop.
  destruct (rep_write _ _ _ _ _ _ _ _ Hop Hw ltac:(lia) ltac:(unfold SNIP_SIZE; lia)) as [Hrep' Hst].
  split; [|eapply stable_mono; [exact Hst|set_solver]].
  rewrite <-(insert_delete_eq S p s'). apply rep_close; [|apply lookup_delete_eq|].
  - unfold blocks_of, size in *. by rewrite Hd, Hb.
  - split; unfold size in *; rewrite ?Hd, ?Hb; [done|done|]. cbn [set_mem mem].
    destruct (Z.eqb_spec (data s) NULL); [done|]. destruct Hby as [Hne Hby]. split; [done|].
    rewrite (rd_same (mem st) m'); [done|].
    pose proof (proj2 Hst (data s, chunk_size (Z.of_nat (length (bytes s)))) ltac:(set_solver)) as Hs. cbn [fst snd] in Hs.
    destruct (chunk_size_bounds _ Hok) as (_ & ? & _). eapply same_sub; [exact Hs|lia..].
Qed.

Definition add_users (num : Z) (s : snip) : snip := Snip (u32 (users s + num)) (next s) (data s) (type s) (bytes s).

(** [gnrc_pktbuf_hold] on the abstract state. *)
Definition hold_all (num : Z) (l : list Z) (S : packets) : packets := foldl (λ S q, alter (add_users num) q S) S l.

Lemma u32_word z : is_word (u32 z).
Proof. unfold is_word, u32. by apply Z.mod_pos_bound. Qed.

(** Adding to the users of one snip. *)
Lemma add_users_Ok st S F p s num : rep_with st S F → S !! p = Some s →
  ∃ m', store (mem st) (s_users p) (u32 (users s + num)) = Ok m' ∧
    rep_with (set_mem m' st) (<[p := add_users num s]> S) F ∧ stable (mem st) m' F ∧ load m' (s_next p) = Ok (next s).
Proof.
  intros Hrep Hp. destruct (rep_snip _ _ _ _ _ Hrep Hp) as (_ & _ & Hm & [Hh (_ & Hn & _ & Ht & _) _]).
  destruct (set_users_Ok _ _ _ _ _ _ _ Hm Hh (u32 (users s + num)) (u32_word _)) as (m' & -> & Hw & Hh').
  destruct (rep_update st S F p s (add_users num s) m') as [Hrep' Hst]; try done; [apply u32_word|].
  exists m'. split; [done|]. split; [done|]. split; [done|]. apply Hh'.
Qed.

Lemma hold_loop_Ok fuel st S F p l num : rep_with st S F → chain S p l → (length l < fuel)%nat →
  ∃ m', hold_loop fuel (mem st) p num = Ok m' ∧ rep_with (set_mem m' st) (hold_all num l S) F.
Proof.
  revert fuel st S p. induction l as [|q l IH]; intros [|fuel] st S p Hrep Hc Hf; try (cbn [length] in Hf; lia); cbn [hold_loop].
  { cbn [chain] in Hc. rewrite Hc. exists (mem st). split; [done|]. by destruct st. }
  assert (HS : ∀ r s, S !! r = Some s → r ≠ NULL) by (intros r t Hr; eapply rep_snip; [exact Hrep|exact Hr]).
  pose proof (chain_NoDup _ _ _ HS Hc) as [Hnq _]%NoDup_cons. destruct Hc as [-> (s & Hs & Hc)].
  destruct (rep_snip _ _ _ _ _ Hrep Hs) as (HqN & _ & _ & [(Hu & _) _ _]). destruct (Z.eqb_spec q NULL); [done|].
  rewrite Hu, result_bind_Ok. destruct (add_users_Ok _ _ _ _ _ num Hrep Hs) as (m1 & -> & Hrep1 & _ & Hnx).
  rewrite result_bind_Ok, Hnx, result_bind_Ok.
  destruct (IH fuel (set_mem m1 st) (<[q := add_users num s]> S) (next s) Hrep1) as (m' & Heq & Hrep').
  - eapply chain_congr; [|exact Hc]. intros r Hr. apply lookup_insert_ne. set_solver.
  - cbn [length] in Hf. lia.
  - exists m'. split; [exact Heq|]. unfold hold_all in *. cbn [foldl]. by rewrite (alter_Some S q s).
Qed.

Lemma free_NULL st n : _pktbuf_free st NULL n = Ok st.
Proof.
  pose proof (layout_base base GNRC_PKTBUF_SIZE). pose proof (layout_end base GNRC_PKTBUF_SIZE). pose proof (layout_size base GNRC_PKTBUF_SIZE).
  unfold Pktbuf._pktbuf_free, _pktbuf_contains, u32, NULL, UNUSED_SIZE in *.
  assert ((0 - base) mod 4294967296 = 4294967296 - base) as -> by (symmetry; apply (Z.mod_unique _ _ (-1)); lia).
  destruct (Z.ltb_spec (4294967296 - base) GNRC_PKTBUF_SIZE); [lia|done].
Qed.

(** Releasing the data of an opened snip, if there are any. *)
Lemma free_data_Ok st S F s : rep_with st S ((if data s =? NULL then [] else [(data s, chunk_size (size s))]) ++ F) →
  ∃ st', _pktbuf_free st (data s) (size s) = Ok st' ∧ rep_with st' S F ∧ stable (mem st) (mem st') (F ++ blocks S).
Proof.
  destruct (Z.eqb_spec (data s) NULL) as [->|]; intros Hrep; [|by apply rep_free].
  rewrite free_NULL. exists st. split; [done|]. split; [done|apply stable_refl].
Qed.

(** [gnrc_pktbuf_release] of one snip on the abstract state. *)
Definition release_one (S : packets) (q : Z) : packets :=
  match S !! q with
  | Some s => if users s =? 1 then delete q S else <[q := add_users (-1) s]> S
  | None => S
  end.

Lemma release_last_Ok st S F p s : rep_with st S F → S !! p = Some s →
  ∃ st', (m ← store (mem st) (s_users p) 0;
          d ← load m (s_data p);
          n ← load m (s_size p);
          st ← _pktbuf_free (set_mem m st) d n;
          _pktbuf_free st p SNIP_SIZE) = Ok st' ∧
    rep_with st' (delete p S) F ∧ stable (mem st) (mem st') (F ++ blocks (delete p S)).
Proof.
  intros Hrep Hp. destruct (rep_snip _ _ _ _ _ Hrep Hp) as (_ & _ & Hm & [Hh _ _]).
  destruct (set_users_Ok _ _ _ _ _ _ _ Hm Hh 0 ltac:(done)) as (m1 & -> & Hw & (_ & _ & Hd & Hsz & _)).
  rewrite result_bind_Ok, Hd, result_bind_Ok, Hsz, result_bind_Ok.
  pose proof (rep_open _ _ _ _ _ Hrep Hp) as Hop. unfold blocks_of in Hop. cbn [app] in Hop.
  destruct (rep_write _ _ _ _ _ _ _ _ Hop Hw ltac:(lia) ltac:(unfold SNIP_SIZE; lia)) as [Hrep1 Hst1].
  rewrite Permutation_middle in Hrep1. destruct (free_data_Ok _ _ _ s Hrep1) as (st2 & -> & Hrep2 & Hst2).
  rewrite result_bind_Ok. change SNIP_SIZE with (chunk_size SNIP_SIZE) in Hrep2.
  destruct (rep_free _ _ _ _ _ Hrep2) as (st3 & -> & Hrep3 & Hst3). exists st3. split; [done|]. split; [done|].
  eapply stable_trans; [eapply stable_mono; [exact Hst1|set_solver]|].
  eapply stable_trans; [eapply stable_mono; [exact Hst2|set_solver]|done].
Qed.

Lemma release_loop_Ok fuel st S F p l : rep_with st S F → chain S p l → (length l < fuel)%nat →
  ∃ st', release_loop base GNRC_PKTBUF_SIZE fuel st p = Ok st' ∧ rep_with st' (foldl release_one S l) F ∧
    stable (mem st) (mem st') F.
Proof.
  revert fuel st S p. induction l as [|q l IH]; intros [|fuel] st S p Hrep Hc Hf; try (cbn [length] in Hf; lia); cbn [release_loop].
  { cbn [chain] in Hc. rewrite Hc. exists st. split; [done|]. split; [done|apply stable_refl]. }
  assert (HS : ∀ r s, S !! r = Some s → r ≠ NULL) by (intros r t Hr; eapply rep_snip; [exact Hrep|exact Hr]).
  pose proof (chain_NoDup _ _ _ HS Hc) as [Hnq _]%NoDup_cons. destruct Hc as [-> (s & Hs & Hc)].
  destruct (rep_snip _ _ _ _ _ Hrep Hs) as (HqN & Hqb & _ & [(Hu & Hn & _) _ _]). destruct (Z.eqb_spec q NULL); [done|].
  unfold assert_. rewrite contains_buf by done. rewrite result_bind_Ok, Hn, result_bind_Ok, Hu, result_bind_Ok.
  cbn [foldl]. unfold release_one at 2. rewrite Hs. cbn [length] in Hf. destruct (Z.eqb_spec (users s) 1) as [Hu1|Hu1].
  - destruct (release_last_Ok _ _ _ _ _ Hrep Hs) as (st1 & -> & Hrep1 & Hst1). rewrite result_bind_Ok.
    destruct (IH fuel st1 (delete q S) (next s) Hrep1) as (st' & -> & Hrep' & Hst').
    + eapply chain_congr; [|exact Hc]. intros r Hr. apply lookup_delete_ne. set_solver.
    + lia.
    + exists st'. split; [done|]. split; [done|]. eapply stable_trans; [eapply stable_mono; [exact Hst1|set_solver]|done].
  - destruct (add_users_Ok _ _ _ _ _ (-1) Hrep Hs) as (m1 & Hst & Hrep1 & Hst1 & _).
    change (users s + -1) with (users s - 1) in Hst. rewrite Hst, !result_bind_Ok.
    destruct (IH fuel (set_mem m1 st) (<[q := add_users (-1) s]> S) (next s) Hrep1) as (st' & -> & Hrep' & Hst').
    + eapply chain_congr; [|exact Hc]. intros r Hr. apply lookup_insert_ne. set_solver.
    + lia.
    + exists st'. split; [done|]. split; [done|]. eapply stable_trans; [exact Hst1|done].
Qed.
End Store.
