(* ===== verification/PktbufOps.v ===== *)
(** * The operations on packets

    What [gnrc_pktbuf_start_write], [gnrc_pktbuf_realloc_data] and
    [gnrc_pktbuf_mark] do to the packets in the buffer, and the theorems on the
    packet buffer. *)

From stdpp Require Import gmap.
From S2P Require Import Prelude Words Pktbuf PktbufAlloc PktbufStore.
Open Scope Z_scope.

Section Operations.
Context (_pktbuf GNRC_PKTBUF_SIZE : Z) `{!Layout _pktbuf GNRC_PKTBUF_SIZE}.
Notation base := _pktbuf.
Notation buf_end := (_pktbuf + GNRC_PKTBUF_SIZE).
Notation rep_with := (rep_with _pktbuf GNRC_PKTBUF_SIZE).
Notation rep := (rep _pktbuf GNRC_PKTBUF_SIZE).
Notation stable := (stable _pktbuf GNRC_PKTBUF_SIZE).
Notation _pktbuf_alloc := (_pktbuf_alloc _pktbuf GNRC_PKTBUF_SIZE).
Notation _pktbuf_free := (_pktbuf_free _pktbuf GNRC_PKTBUF_SIZE).

(** A block in use as two blocks. *)
Lemma rep_split st S F a k j : rep_with st S ((a, k + j) :: F) → UNUSED_SIZE <= k → UNUSED_SIZE <= j →
  rep_with st S ((a, k) :: (a + k, j) :: F).
Proof.
  intros [[fl [Hm Hl Hs Hlive Hdisj Hsep]] HS] Hk Hj. split; [|done]. exists fl. cbn [app] in *.
  apply Forall_cons in Hlive as [(H1 & H2 & H3) Hlive]. destruct Hdisj as [Hd Hdisj]. cbn [fst snd] in *.
  split; [done|done|done| | |].
  - constructor; [|constructor; [|done]]; unfold in_buf, UNUSED_SIZE in *; cbn; lia.
  - rewrite Forall_forall in Hd. cbn [all_disj]. rewrite Forall_cons, !Forall_forall. repeat split; [| | |done].
    + unfold disj. cbn. lia.
    + intros b Hb. specialize (Hd b Hb). unfold disj in *. cbn in *. unfold UNUSED_SIZE in *. lia.
    + intros b Hb. specialize (Hd b Hb). unfold disj in *. cbn in *. unfold UNUSED_SIZE in *. lia.
  - intros b c Hb Hc. assert (Hc' : c = (a, k) ∨ c = (a + k, j) ∨ c ∈ F ++ blocks S) by set_solver.
    destruct Hc' as [->|[->|Hc']]; [| |apply Hsep; [done|by right]];
      pose proof (Hsep b (a, k + j) Hb ltac:(left)) as Hd'; unfold disj in *; cbn in *; unfold UNUSED_SIZE in *; lia.
Qed.

(** *** Copy on write *)

Lemma start_write_Ok st S p s : rep st S → S !! p = Some s →
  ∃ q st', gnrc_pktbuf_start_write base GNRC_PKTBUF_SIZE st p = Ok (q, st') ∧
    if size s =? 0 then q = NULL ∧ st' = st
    else if users s <=? 1 then q = p ∧ st' = st
    else (q = NULL ∧ rep st' S) ∨
         (S !! q = None ∧ ∃ d, rep st' (<[p := add_users (-1) s]> (<[q := Snip 1 (next s) d (type s) (bytes s)]> S))).
Proof.
  intros Hrep Hp. destruct (rep_snip _ _ _ _ _ _ _ Hrep Hp) as (HpN & _ & _ & Hat). pose proof Hat as [(Hu & Hn & Hd & Hsz & Ht) (Huw & Hnw & Hdw & Htw & Hok) Hby].
  unfold gnrc_pktbuf_start_write. destruct (Z.eqb_spec p NULL); [done|]. rewrite Hsz, result_bind_Ok.
  destruct (Z.eqb_spec (size s) 0) as [Hz|Hz]; [by exists NULL, st|]. rewrite Hu, result_bind_Ok.
  destruct (Z.ltb_spec 1 (users s)), (Z.leb_spec (users s) 1); try lia; [|by exists p, st].
  rewrite Hn, result_bind_Ok, Hd, result_bind_Ok, Ht, result_bind_Ok.
  destruct (Z.eqb_spec (data s) NULL) as [|HdN]; [unfold size in Hz; rewrite Hby in Hz; done|]. destruct Hby as [_ Hby].
  destruct (_create_snip_Ok base GNRC_PKTBUF_SIZE st S [] (next s) (type s) (data s) (size s) (Some (bytes s)))
    as (q & st1 & -> & Hst & [[-> Hrep1]|(HqN & Hq & d & bs & Hl & Hbs & Hrep1)]); try done.
  { intros _. exists (bytes s). split; [done|]. split; [done|]. split; [done|]. right. right.
    exists (data s, chunk_size (size s)). split; [|cbn; destruct (chunk_size_bounds _ Hok) as (_ & ? & _); unfold size in *; lia].
    apply elem_of_blocks. exists p, s. split; [done|]. unfold blocks_of. destruct (Z.eqb_spec (data s) NULL); [done|]. set_solver. }
  - rewrite result_bind_Ok. exists NULL, st1. split; [done|]. by left.
  - rewrite result_bind_Ok. destruct (Z.eqb_spec q NULL); [done|]. cbn [negb]. cbn [from_option] in Hbs. subst bs.
    assert (Hp1 : <[q := Snip 1 (next s) d (type s) (bytes s)]> S !! p = Some s) by (rewrite lookup_insert_ne; [done|congruence]).
    destruct (rep_snip _ _ _ _ _ _ _ Hrep1 Hp1) as (_ & _ & _ & [(Hu1 & _) _ _]). rewrite Hu1, result_bind_Ok.
    destruct (add_users_Ok _ _ _ _ _ _ _ (-1) Hrep1 Hp1) as (m2 & Hst2 & Hrep2 & _).
    change (users s + -1) with (users s - 1) in Hst2. rewrite Hst2, result_bind_Ok.
    exists q, (set_mem m2 st1). split; [done|]. right. split; [done|]. by exists d.
Qed.

(** *** Members of a snip that is opened *)

Section Member.
Context (st : pktbuf) (S : packets) (F : list block) (p u n d sz t : Z).
Context (Hrep : rep_with st S ((p, SNIP_SIZE) :: F)) (Hh : header_at (mem st) p u n d sz t).

Lemma opened_in_mem : in_mem (mem st) p 20.
Proof using Hrep. apply (rep_in_mem _ _ _ _ _ (p, SNIP_SIZE) Hrep). left. Qed.

Lemma opened_write m' : writes (mem st) m' p 20 →
  rep_with (set_mem m' st) S ((p, SNIP_SIZE) :: F) ∧ stable (mem st) m' (F ++ blocks S).
Proof using Hrep Layout0. intros Hw. eapply rep_write; [done|exact Hrep|exact Hw|lia|unfold SNIP_SIZE; lia]. Qed.

Lemma rep_set_data v : is_word v → ∃ m', store (mem st) (s_data p) v = Ok m' ∧
  rep_with (set_mem m' st) S ((p, SNIP_SIZE) :: F) ∧ header_at m' p u n v sz t ∧ stable (mem st) m' (F ++ blocks S).
Proof using Hrep Hh Layout0.
  intros Hv. destruct (set_data_Ok _ _ _ _ _ _ _ opened_in_mem Hh v Hv) as (m' & -> & Hw & Hh').
  destruct (opened_write _ Hw). by exists m'.
Qed.

Lemma rep_set_size v : is_word v → ∃ m', store (mem st) (s_size p) v = Ok m' ∧
  rep_with (set_mem m' st) S ((p, SNIP_SIZE) :: F) ∧ header_at m' p u n d v t ∧ stable (mem st) m' (F ++ blocks S).
Proof using Hrep Hh Layout0.
  intros Hv. destruct (set_size_Ok _ _ _ _ _ _ _ opened_in_mem Hh v Hv) as (m' & -> & Hw & Hh').
  destruct (opened_write _ Hw). by exists m'.
Qed.

Lemma rep_set_next v : is_word v → ∃ m', store (mem st) (s_next p) v = Ok m' ∧
  rep_with (set_mem m' st) S ((p, SNIP_SIZE) :: F) ∧ header_at m' p u v d sz t ∧ stable (mem st) m' (F ++ blocks S).
Proof using Hrep Hh Layout0.
  intros Hv. destruct (set_next_Ok _ _ _ _ _ _ _ opened_in_mem Hh v Hv) as (m' & -> & Hw & Hh').
  destruct (opened_write _ Hw). by exists m'.
Qed.
End Member.

Lemma rd_prefix m p n bs k : rd m p n = Ok bs → (k <= n)%nat → rd m p k = Ok (take k bs).
Proof.
  revert p n bs. induction k as [|k IH]; intros p [|n] bs Hrd Hk; try lia; try done. cbn [rd] in *.
  apply result_bind_inv in Hrd as (b & -> & Hrd). apply result_bind_inv in Hrd as (bs' & Hrd & [= <-]).
  rewrite !result_bind_Ok. rewrite (IH _ _ _ Hrd) by lia. done.
Qed.

(** *** Resizing *)

Definition data_block (d : Z) (bs : list Z) : list block :=
  if d =? NULL then [] else [(d, chunk_size (Z.of_nat (length bs)))].

(** The snip at [p] has got the data [bs] at [d]; its size is yet to be set. *)
Record pending (st : pktbuf) (S : packets) (F : list block) (p : Z) (s : snip) (d : Z) (bs : list Z) : Prop := {
  pe_rep : rep_with st (delete p S) ((p, SNIP_SIZE) :: data_block d bs ++ F);
  pe_header : header_at (mem st) p (users s) (next s) d (size s) (type s);
  pe_word : is_word d;
  pe_bytes : if d =? NULL then bs = [] else bs ≠ [] ∧ rd (mem st) d (length bs) = Ok bs
}.

Lemma snip_words st S F p s : rep_with st S F → S !! p = Some s →
  is_word (users s) ∧ is_word (next s) ∧ is_word (data s) ∧ is_word (type s) ∧ size_ok (size s).
Proof using Layout0. intros Hrep Hp. by destruct (rep_snip _ _ _ _ _ _ _ Hrep Hp) as (_ & _ & _ & [_ ? _]). Qed.

Lemma rd_stable m m' d bs L : stable m m' L → data_block d bs ⊆ L → size_ok (Z.of_nat (length bs)) →
  (if d =? NULL then bs = [] else bs ≠ [] ∧ rd m d (length bs) = Ok bs) →
  if d =? NULL then bs = [] else bs ≠ [] ∧ rd m' d (length bs) = Ok bs.
Proof.
  unfold data_block. intros [_ Hst] Hsub Hok. destruct (d =? NULL); [done|]. intros [Hne Hrd]. split; [done|].
  rewrite (rd_same m m'); [done|]. pose proof (Hst _ (Hsub (d, _) ltac:(left))) as Hs. cbn [fst snd] in Hs.
  destruct (chunk_size_bounds _ Hok) as (_ & ? & _). eapply same_sub; [exact Hs|lia..].
Qed.

Lemma pending_finish st S F p s d bs : pending st S F p s d bs → size_ok (Z.of_nat (length bs)) →
  is_word (users s) → is_word (next s) → is_word (type s) →
  ∃ m', store (mem st) (s_size p) (Z.of_nat (length bs)) = Ok m' ∧
    rep_with (set_mem m' st) (<[p := Snip (users s) (next s) d (type s) bs]> S) F.
Proof.
  intros [Hrep Hh Hd Hby] Hok Hu Hn Ht.
  destruct (rep_set_size _ _ _ _ _ _ _ _ _ Hrep Hh (Z.of_nat (length bs))) as (m' & -> & Hrep' & Hh' & Hst).
  { destruct Hok. unfold is_word. lia. }
  exists m'. split; [done|]. rewrite <-(insert_delete_eq S p). apply rep_close; [exact Hrep'|apply lookup_delete_eq|].
  split; [done|done|]. cbn [data bytes]. eapply rd_stable; [exact Hst|set_solver|done|done].
Qed.

(** The new data of a snip: as long as asked for, the common prefix as before. *)
Definition resized (old new : list Z) (n : Z) : Prop :=
  Z.of_nat (length new) = n ∧ take (min (length old) (length new)) new = take (min (length old) (length new)) old.

Lemma rd_some m p n : in_mem m p n → 0 <= n → ∃ bs, rd m p (Z.to_nat n) = Ok bs ∧ Z.of_nat (length bs) = n.
Proof. intros Hm Hn. destruct (rd_Ok m p (Z.to_nat n)) as (bs & Hrd & Hl); [by rewrite Z2Nat.id|]. exists bs. split; [done|lia]. Qed.

(** Copying the old data to a new block. *)
Lemma realloc_copy st S F p s n a : rep_with st S ((a, chunk_size n) :: F) → S !! p = Some s → size_ok n →
  ∃ m' bs, (if negb (data s =? NULL) then copy (mem st) a (data s) (if size s <? n then size s else n) else Ok (mem st)) = Ok m' ∧
    rep_with (set_mem m' st) S ((a, chunk_size n) :: F) ∧ resized (bytes s) bs n ∧ rd m' a (length bs) = Ok bs.
Proof.
  intros Hrep Hp Hok. destruct (rep_snip _ _ _ _ _ _ _ Hrep Hp) as (_ & _ & _ & [_ (_ & _ & _ & _ & Hsok) Hby]).
  destruct (chunk_size_bounds _ Hok) as (_ & Hcs & _). destruct Hok as [Hn0 Hn].
  assert (Hma : in_mem (mem st) a n).
  { eapply in_mem_sub; [apply (rep_in_mem _ _ _ _ _ (a, chunk_size n) Hrep); left|cbn; lia..]. }
  destruct (Z.eqb_spec (data s) NULL) as [_|HdN]; cbn [negb].
  - destruct (rd_some _ _ _ Hma Hn0) as (bs & Hrd & Hl). exists (mem st), bs. split; [done|]. split; [by destruct st|].
    split; [|by rewrite <-Hl, Nat2Z.id in Hrd]. unfold resized. by rewrite Hby.
  - destruct Hby as [_ Hby]. set (k := if size s <? n then size s else n).
    assert (Hk : 0 <= k ∧ k <= n ∧ k <= size s ∧ k = Z.min (size s) n) by (unfold k, size in *; destruct (Z.ltb_spec (Z.of_nat (length (bytes s))) n); lia).
    destruct (copy_Ok (mem st) a (data s) k (take (Z.to_nat k) (bytes s))) as (m' & -> & Hw & Hrdk).
    { eapply rd_prefix; [exact Hby|unfold size in *; lia]. }
    { rewrite length_take. unfold size in *. lia. }
    { lia. }
    { eapply in_mem_sub; [exact Hma|lia..]. }
    destruct (rep_write _ _ _ _ _ _ _ m' a k Hrep Hw) as [Hrep' _]; [lia|lia|].
    destruct (rd_some m' a n (writes_in_mem _ _ _ _ _ _ Hw Hma) Hn0) as (bs & Hrd & Hl).
    exists m', bs. split; [done|]. split; [done|]. split; [|by rewrite <-Hl, Nat2Z.id in Hrd]. split; [done|].
    replace (min (length (bytes s)) (length bs)) with (Z.to_nat k) by (unfold size in *; lia).
    rewrite (rd_prefix _ _ _ _ (Z.to_nat k) Hrd) in Hrdk by lia. congruence.
Qed.

(** Then the old data are released and the pointer is set. *)
Lemma realloc_move st S p s n a : rep_with st S [(a, chunk_size n)] → S !! p = Some s → size_ok n → 0 < n → a ≠ NULL →
  ∃ st' bs, (m ← (if negb (data s =? NULL) then copy (mem st) a (data s) (if size s <? n then size s else n) else Ok (mem st));
             st ← _pktbuf_free (set_mem m st) (data s) (size s);
             m ← store (mem st) (s_data p) a;
             Ok (0, set_mem m st)) = Ok (0, st') ∧ resized (bytes s) bs n ∧ pending st' S [] p s a bs.
Proof.
  intros Hrep Hp Hok Hn HaN. destruct (realloc_copy _ _ _ _ _ _ _ Hrep Hp Hok) as (m1 & bs & -> & Hrep1 & Hres & Hrd).
  destruct (rep_word _ _ _ _ _ (a, chunk_size n) Hrep ltac:(left)) as (Haw & _). rewrite result_bind_Ok.
  destruct (rep_snip _ _ _ _ _ _ _ Hrep1 Hp) as (_ & _ & _ & [Hh _ _]). pose proof Hres as [Hl _].
  pose proof (rep_open _ _ _ _ _ _ _ Hrep1 Hp) as Hop. unfold blocks_of in Hop. cbn [app] in Hop. rewrite Permutation_middle in Hop.
  destruct (free_data_Ok _ _ _ _ _ s Hop) as (st2 & -> & Hrep2 & Hst2). rewrite result_bind_Ok.
  assert (Hh2 : header_at (mem st2) p (users s) (next s) (data s) (size s) (type s)).
  { eapply header_same; [|exact Hh]. apply (proj2 Hst2 (p, SNIP_SIZE)). left. }
  destruct (rep_set_data _ _ _ _ _ _ _ _ _ Hrep2 Hh2 a Haw) as (m3 & -> & Hrep3 & Hh3 & Hst3). rewrite result_bind_Ok.
  eexists _, bs. split; [done|]. split; [done|].
  assert (Hdb : data_block a bs = [(a, chunk_size n)]) by (unfold data_block; destruct (Z.eqb_spec a NULL); [done|by rewrite Hl]).
  split; [by rewrite Hdb|done|done|]. eapply rd_stable; [exact Hst3|rewrite Hdb; set_solver|by rewrite Hl|].
  eapply rd_stable; [exact Hst2|rewrite Hdb; set_solver|by rewrite Hl|]. destruct (Z.eqb_spec a NULL); [done|]. split; [|done].
  intros ->. cbn in Hl. lia.
Qed.

Lemma resized_take old n : (n <= length old)%nat → resized old (take n old) (Z.of_nat n).
Proof. intros Hn. unfold resized. rewrite length_take. split; [lia|]. rewrite take_take. f_equal. lia. Qed.

(** A prefix of the data, in the front of their block. *)
Lemma pending_take st st' S F p s n L : snip_at (mem st) p s → (0 < n <= length (bytes s))%nat →
  stable (mem st) (mem st') L → (p, SNIP_SIZE) ∈ L → (data s, chunk_size (Z.of_nat n)) ∈ L →
  rep_with st' (delete p S) ((p, SNIP_SIZE) :: (data s, chunk_size (Z.of_nat n)) :: F) → data s ≠ NULL →
  pending st' S F p s (data s) (take n (bytes s)).
Proof.
  intros [Hh (_ & _ & Hdw & _ & Hok) Hby] Hn [_ Hst] HpL HdL Hrep HdN.
  assert (Hl : length (take n (bytes s)) = n) by (rewrite length_take; lia). split; [| |done|].
  - unfold data_block. destruct (Z.eqb_spec (data s) NULL); [done|]. by rewrite Hl.
  - eapply header_same; [|exact Hh]. exact (Hst _ HpL).
  - destruct (Z.eqb_spec (data s) NULL); [done|]. destruct Hby as [Hne Hby]. split; [intros Hnil; rewrite Hnil in Hl; cbn in Hl; lia|].
    rewrite Hl, (rd_same (mem st)); [by eapply rd_prefix; [exact Hby|lia]|].
    pose proof (Hst _ HdL) as Hs. cbn [fst snd] in Hs. destruct (chunk_size_bounds (Z.of_nat n)) as (_ & ? & _); [unfold size_ok, size in *; lia|].
    eapply same_sub; [exact Hs|lia..].
Qed.

(** Releasing the end of the data. *)
Lemma realloc_shrink st S p s n : rep st S → S !! p = Some s → size_ok n → 0 < n →
  chunk_size n + UNUSED_SIZE <= size s →
  ∃ st', _pktbuf_free st (data s + chunk_size n) (size s - chunk_size n) = Ok st' ∧
    pending st' S [] p s (data s) (take (Z.to_nat n) (bytes s)).
Proof.
  intros Hrep Hp Hok Hn Hle. destruct (rep_snip _ _ _ _ _ _ _ Hrep Hp) as (_ & _ & _ & Hat).
  pose proof Hat as [_ (_ & _ & _ & _ & Hsok) Hby]. destruct (chunk_size_bounds _ Hok) as (Hc8 & Hcn & _).
  assert (HdN : data s ≠ NULL).
  { intros Hd. rewrite Hd, Z.eqb_refl in Hby. unfold size in *. rewrite Hby in Hle. cbn in Hle. unfold UNUSED_SIZE in *. lia. }
  pose proof (rep_open _ _ _ _ _ _ _ Hrep Hp) as Hop. unfold blocks_of in Hop. destruct (Z.eqb_spec (data s) NULL); [done|]. cbn [app] in Hop.
  assert (Hsplit : chunk_size (size s) = chunk_size n + chunk_size (size s - chunk_size n)).
  { destruct Hok, Hsok. unfold UNUSED_SIZE in *. rewrite (chunk_size_eq (size s)), (chunk_size_eq (size s - chunk_size n)) by (unfold size_ok; lia).
    rewrite chunk_size_eq in * by (unfold size_ok; lia). dlia. }
  rewrite Hsplit, perm_swap in Hop. apply rep_split in Hop; [|done|].
  2: { apply chunk_size_bounds. destruct Hsok. unfold size_ok, UNUSED_SIZE in *. lia. }
  rewrite perm_swap in Hop. destruct (rep_free _ _ _ _ _ _ _ Hop) as (st' & -> & Hrep' & Hst).
  exists st'. split; [done|]. rewrite perm_swap in Hrep'. unfold UNUSED_SIZE in *.
  eapply pending_take; [exact Hat|unfold size in *; lia|exact Hst|set_solver|rewrite Z2Nat.id by lia; set_solver|by rewrite Z2Nat.id by lia|done].
Qed.

(** The rounded sizes when nothing is released. *)
Lemma same_chunk n k : size_ok n → size_ok k → 0 < n < k → k < chunk_size n → chunk_size k = chunk_size n.
Proof. intros Hn Hk ?. rewrite !chunk_size_eq by done. dlia. Qed.

Lemma aligned_chunk n : size_ok n → _align n <= chunk_size n ∧ (UNUSED_SIZE <= n → chunk_size n = _align n).
Proof.
  intros Hn. rewrite chunk_size_eq by done. destruct Hn. rewrite _align_eq by lia. unfold UNUSED_SIZE. split; [lia|]. intros ?. dlia.
Qed.

(** The branches of [gnrc_pktbuf_realloc_data] up to setting the size. *)
Lemma realloc_branches st S p s n : rep st S → S !! p = Some s → size_ok n → n ≠ size s →
  ∃ r st', (if (n =? 0) && negb (data s =? NULL) then
              st ← _pktbuf_free st (data s) (size s);
              m ← store (mem st) (s_data p) NULL;
              Ok (0, set_mem m st)
            else if (size s <? n) || (u32 (size s - chunk_size n) <? UNUSED_SIZE) then
              '(new_data, st) ← _pktbuf_alloc st n;
              if new_data =? NULL then Ok (ENOMEM, st)
              else
                m ← (if negb (data s =? NULL)
                     then copy (mem st) new_data (data s) (if size s <? n then size s else n)
                     else Ok (mem st));
                st ← _pktbuf_free (set_mem m st) (data s) (size s);
                m ← store (mem st) (s_data p) new_data;
                Ok (0, set_mem m st)
            else if chunk_size n <? _align (size s) then
              st ← _pktbuf_free st (data s + chunk_size n) (size s - chunk_size n);
              Ok (0, st)
            else Ok (0, st)) = Ok (r, st') ∧
    ((r = ENOMEM ∧ st' = st) ∨ (r = 0 ∧ ∃ d bs, resized (bytes s) bs n ∧ pending st' S [] p s d bs)).
Proof.
  intros Hrep Hp Hok Hne. destruct (rep_snip _ _ _ _ _ _ _ Hrep Hp) as (_ & _ & _ & Hat).
  pose proof Hat as [Hh (_ & _ & _ & _ & Hsok) Hby].
  pose proof (rep_open _ _ _ _ _ _ _ Hrep Hp) as Hop. unfold blocks_of in Hop. cbn [app] in Hop.
  destruct ((n =? 0) && negb (data s =? NULL)) eqn:Hzero.
  { apply andb_true_iff in Hzero as [->%Z.eqb_eq _]. rewrite Permutation_cons_append, <-app_assoc in Hop. cbn [app] in Hop.
    destruct (free_data_Ok _ _ _ _ _ s Hop) as (st1 & -> & Hrep1 & Hst1). rewrite result_bind_Ok.
    assert (Hh1 : header_at (mem st1) p (users s) (next s) (data s) (size s) (type s)).
    { eapply header_same; [|exact Hh]. apply (proj2 Hst1 (p, SNIP_SIZE)). left. }
    destruct (rep_set_data _ _ _ _ _ _ _ _ _ Hrep1 Hh1 NULL ltac:(done)) as (m2 & -> & Hrep2 & Hh2 & _). rewrite result_bind_Ok.
    eexists _, _. split; [done|]. right. split; [done|]. exists NULL, []. split; [by split; rewrite ?Nat.min_0_r|]. by split. }
  assert (Hn : 0 < n).
  { destruct Hok. destruct (Z.eqb_spec n 0) as [->|]; [|lia]. cbn [andb] in Hzero.
    destruct (data s =? NULL); [|done]. unfold size in Hne. by rewrite Hby in Hne. }
  destruct ((size s <? n) || (u32 (size s - chunk_size n) <? UNUSED_SIZE)) eqn:Hgrow.
  { destruct (rep_alloc _ _ _ _ _ _ Hrep Hok) as [->|(a & st1 & -> & HaN & Hrep1 & _)]; rewrite result_bind_Ok.
    { exists ENOMEM, st. split; [done|]. by left. }
    destruct (Z.eqb_spec a NULL); [done|].
    destruct (realloc_move _ _ _ _ _ _ Hrep1 Hp Hok Hn HaN) as (st' & bs & -> & Hres & Hpe).
    exists 0, st'. split; [done|]. right. split; [done|]. by exists a, bs. }
  apply orb_false_iff in Hgrow as [Hlt%Z.ltb_ge Hsmall%Z.ltb_ge].
  assert (Hres : resized (bytes s) (take (Z.to_nat n) (bytes s)) n).
  { rewrite <-(Z2Nat.id n) at 2 by lia. apply resized_take. unfold size in *. lia. }
  destruct (chunk_size_bounds _ Hok) as (Hc8 & _ & Hcw). destruct (aligned_chunk _ Hsok) as [Hal Hal'].
  destruct (Z.le_gt_cases (chunk_size n) (size s)) as [Hfit|Hover].
  - rewrite u32_small in Hsmall by (destruct Hsok; unfold UNUSED_SIZE in *; lia).
    destruct (Z.ltb_spec (chunk_size n) (_align (size s))) as [_|Hge].
    2: { rewrite <-Hal' in Hge by lia. destruct (chunk_size_bounds _ Hsok) as (_ & ? & _). unfold UNUSED_SIZE in *. lia. }
    destruct (realloc_shrink st S p s n Hrep Hp Hok Hn ltac:(lia)) as (st' & -> & Hpe).
    exists 0, st'. split; [done|]. right. split; [done|]. by eexists _, _.
  - pose proof (same_chunk n (size s) Hok Hsok ltac:(lia) ltac:(lia)) as Hsame.
    destruct (Z.ltb_spec (chunk_size n) (_align (size s))) as [Hbad|_]; [lia|].
    exists 0, st. split; [done|]. right. split; [done|]. eexists (data s), _. split; [exact Hres|].
    destruct (Z.eqb_spec (data s) NULL); [unfold size in *; rewrite Hby in *; cbn in *; lia|].
    apply (pending_take st st S [] p s (Z.to_nat n) [(p, SNIP_SIZE); (data s, chunk_size n)]);
      rewrite ?Z2Nat.id by lia; [done|unfold size in *; lia|apply stable_refl|set_solver|set_solver|by rewrite <-Hsame|done].
Qed.

Lemma realloc_data_Ok st S p s n : rep st S → S !! p = Some s → size_ok n →
  ∃ r st', gnrc_pktbuf_realloc_data base GNRC_PKTBUF_SIZE st p n = Ok (r, st') ∧
    ((r = ENOMEM ∧ st' = st) ∨
     (r = 0 ∧ ∃ d bs, resized (bytes s) bs n ∧ rep st' (<[p := Snip (users s) (next s) d (type s) bs]> S))).
Proof.
  intros Hrep Hp Hok. destruct (rep_snip _ _ _ _ _ _ _ Hrep Hp) as (HpN & _ & _ & Hat).
  pose proof Hat as [(Hu & Hnx & Hd & Hsz & Ht) (Huw & Hnw & Hdw & Htw & Hsok) Hby].
  unfold gnrc_pktbuf_realloc_data, assert_. destruct (Z.eqb_spec p NULL) as [|_]; [done|]. cbn [negb].
  rewrite result_bind_Ok, Hsz, result_bind_Ok, Hd, result_bind_Ok.
  assert ((size s =? 0) && (data s =? NULL) || (0 <? size s) && negb (data s =? NULL) &&
          _pktbuf_contains base GNRC_PKTBUF_SIZE (data s) = true) as ->.
  { destruct (Z.eqb_spec (data s) NULL) as [_|HdN]; [unfold size; by rewrite Hby|].
    assert (Hb : (data s, chunk_size (size s)) ∈ [] ++ blocks S).
    { apply elem_of_blocks. exists p, s. split; [done|]. unfold blocks_of. destruct (Z.eqb_spec (data s) NULL); [done|]. set_solver. }
    pose proof (rep_block _ _ _ _ _ _ Hrep Hb) as (? & ? & ?). cbn in *. rewrite contains_buf by (done || unfold UNUSED_SIZE in *; lia).
    destruct Hby as [Hne _]. unfold size. destruct (bytes s); [done|]. done. }
  rewrite result_bind_Ok. destruct (Z.eqb_spec n (size s)) as [->|Hne].
  { exists 0, st. split; [done|]. right. split; [done|]. exists (data s), (bytes s).
    split; [by split|]. rewrite insert_id; [done|]. by destruct s. }
  destruct (realloc_branches _ _ _ _ _ Hrep Hp Hok Hne) as (r & st1 & -> & [[-> ->]|(-> & d & bs & Hres & Hpe)]); rewrite result_bind_Ok.
  { exists ENOMEM, st. split; [done|]. by left. }
  change (negb (0 =? 0)) with false. cbv iota. pose proof Hres as [Hl _].
  destruct (pending_finish _ _ _ _ _ _ _ Hpe) as (m' & Hst & Hrep'); [by rewrite Hl|done..|]. rewrite Hl in Hst.
  rewrite Hst, result_bind_Ok. eexists 0, _. split; [done|]. right. split; [done|]. by exists d, bs.
Qed.

(** *** Splitting *)

Lemma rd_suffix m p n bs k : rd m p n = Ok bs → (k <= n)%nat → rd m (p + Z.of_nat k) (n - k) = Ok (drop k bs).
Proof.
  revert p n bs. induction k as [|k IH]; intros p n bs Hrd Hk; [by rewrite Z.add_0_r, Nat.sub_0_r|].
  destruct n as [|n]; [lia|]. cbn [rd] in Hrd. apply result_bind_inv in Hrd as (b & _ & Hrd).
  apply result_bind_inv in Hrd as (bs' & Hrd & [= <-]). cbn [drop Nat.sub]. rewrite <-(IH _ _ _ Hrd) by lia. f_equal. lia.
Qed.

Definition data_at (m : memory) (d : Z) (bs : list Z) : Prop :=
  if d =? NULL then bs = [] else bs ≠ [] ∧ rd m d (length bs) = Ok bs.

(** The data of the snip at [p] are split: [dm] for the new snip at [q], [dr]
    for the rest; the sizes and the new header are yet to be set. *)
Record parted (st : pktbuf) (S : packets) (p : Z) (s : snip) (q dm dr : Z) (b1 b2 : list Z) : Prop := {
  pa_rep : rep_with st (delete p S) ((p, SNIP_SIZE) :: (q, SNIP_SIZE) :: data_block dm b1 ++ data_block dr b2);
  pa_header : header_at (mem st) p (users s) (next s) dr (size s) (type s);
  pa_words : is_word dm ∧ is_word dr;
  pa_ok : size_ok (Z.of_nat (length b1)) ∧ size_ok (Z.of_nat (length b2));
  pa_dm : data_at (mem st) dm b1;
  pa_dr : data_at (mem st) dr b2
}.

Lemma data_at_stable m m' d bs L : stable m m' L → data_block d bs ⊆ L → size_ok (Z.of_nat (length bs)) → data_at m d bs → data_at m' d bs.
Proof. apply rd_stable. Qed.

Lemma mark_finish st S p s q dm dr b1 b2 t : parted st S p s q dm dr b1 b2 → is_word (users s) → is_word (next s) → is_word (type s) →
  is_word t → is_word q → q ≠ p →
  ∃ m', (m ← store (mem st) (s_size p) (Z.of_nat (length b2));
         nx ← load m (s_next p);
         m ← _set_pktsnip m q nx dm (Z.of_nat (length b1)) t;
         m ← store m (s_next p) q;
         Ok (q, set_mem m st)) = Ok (q, set_mem m' st) ∧
    rep (set_mem m' st) (<[q := Snip 1 (next s) dm t b1]> (<[p := Snip (users s) q dr (type s) b2]> S)).
Proof.
  intros [Hrep Hh [Hdm Hdr] [Hok1 Hok2] Hd1 Hd2] Hu Hn Hty Ht Hq Hqp.
  assert (Hw1 : is_word (Z.of_nat (length b1))) by (destruct Hok1; unfold is_word; lia).
  assert (Hw2 : is_word (Z.of_nat (length b2))) by (destruct Hok2; unfold is_word; lia).
  destruct (rep_set_size _ _ _ _ _ _ _ _ _ Hrep Hh _ Hw2) as (m1 & -> & Hrep1 & Hh1 & Hst1).
  rewrite result_bind_Ok, (proj1 (proj2 Hh1)), result_bind_Ok. rewrite perm_swap in Hrep1.
  destruct (_set_pktsnip_Ok m1 q (next s) dm (Z.of_nat (length b1)) t) as (m2 & -> & Hwr & Hhq); [|done..|].
  { apply (rep_in_mem _ _ _ _ _ (q, 20) Hrep1). left. }
  rewrite result_bind_Ok. destruct (rep_write _ _ _ _ _ _ _ m2 q 20 Hrep1 Hwr) as [Hrep2 Hst2]; [lia|unfold SNIP_SIZE; lia|].
  rewrite perm_swap in Hrep2. assert (Hh2 : header_at m2 p (users s) (next s) dr (Z.of_nat (length b2)) (type s)).
  { eapply header_same; [|exact Hh1]. apply (proj2 Hst2 (p, SNIP_SIZE)). left. }
  destruct (rep_set_next _ _ _ _ _ _ _ _ _ Hrep2 Hh2 q Hq) as (m3 & Hs3 & Hrep3 & Hh3 & Hst3). cbn [set_mem mem] in Hs3.
  rewrite Hs3, result_bind_Ok. exists m3. split; [done|].
  assert (Hall : ∀ d bs, data_block d bs ⊆ data_block dm b1 ++ data_block dr b2 → size_ok (Z.of_nat (length bs)) → data_at (mem st) d bs → data_at m3 d bs).
  { intros d bs Hsub Hok Hd. eapply (data_at_stable m2); [exact Hst3|set_solver|done|]. eapply (data_at_stable m1); [exact Hst2|set_solver|done|].
    eapply data_at_stable; [exact Hst1|set_solver|done|done]. }
  assert (HqS : delete p S !! q = None) by (rewrite perm_swap in Hrep3; by eapply rep_fresh).
  rewrite <-(insert_delete_eq S p). apply rep_close; [|by rewrite lookup_insert_ne|].
  - apply rep_close; [|apply lookup_delete_eq|].
    + rewrite app_nil_r. unfold blocks_of, size. cbn [data bytes]. eapply rep_with_perm; [|exact Hrep3].
      fold (data_block dr b2) (data_block dm b1). solve_Permutation.
    + split; [done|done|]. cbn [data bytes]. apply Hall; [set_solver|done|done].
  - split; [|done|].
    + eapply header_same; [|exact Hhq]. apply (proj2 Hst3 (q, SNIP_SIZE)). left.
    + cbn [data bytes]. apply Hall; [set_solver|done|done].
Qed.

Lemma data_block_ne d bs : d ≠ NULL → data_block d bs = [(d, chunk_size (Z.of_nat (length bs)))].
Proof. intros Hd. unfold data_block. by destruct (Z.eqb_spec d NULL). Qed.

Lemma data_at_ne m d bs : d ≠ NULL → data_at m d bs ↔ bs ≠ [] ∧ rd m d (length bs) = Ok bs.
Proof. intros Hd. unfold data_at. by destruct (Z.eqb_spec d NULL). Qed.

(** In place: the data become two blocks, or all go to the new snip. *)
Lemma mark_in_place st S p s q n : rep_with st S [(q, SNIP_SIZE)] → S !! p = Some s → data s ≠ NULL →
  (0 < n <= length (bytes s))%nat →
  (n = length (bytes s) ∨ (chunk_size (Z.of_nat n) <= Z.of_nat n ∧ UNUSED_SIZE <= size s - Z.of_nat n)) →
  let dr := if negb (size s =? Z.of_nat n) then data s + Z.of_nat n else NULL in
  ∃ m', store (mem st) (s_data p) dr = Ok m' ∧
    parted (set_mem m' st) S p s q (data s) dr (take n (bytes s)) (drop n (bytes s)).
Proof.
  intros Hrep Hp HdN Hn Hcase dr. destruct (rep_snip _ _ _ _ _ _ _ Hrep Hp) as (_ & _ & _ & [Hh (_ & _ & Hdw & _ & Hsok) Hby]).
  apply data_at_ne in Hby as [Hne Hby]; [|done].
  assert (Hl1 : length (take n (bytes s)) = n) by (rewrite length_take; lia).
  assert (Hl2 : length (drop n (bytes s)) = (length (bytes s) - n)%nat) by apply length_drop.
  pose proof (rep_open _ _ _ _ _ _ _ Hrep Hp) as Hop. unfold blocks_of in Hop. destruct (Z.eqb_spec (data s) NULL); [done|]. cbn [app] in Hop.
  assert (Hb : rep_with st (delete p S) ((p, SNIP_SIZE) :: (q, SNIP_SIZE) :: data_block (data s) (take n (bytes s)) ++ data_block dr (drop n (bytes s))) ∧
               is_word dr ∧ (dr = NULL → drop n (bytes s) = []) ∧ (dr ≠ NULL → dr = data s + Z.of_nat n ∧ drop n (bytes s) ≠ [])).
  { rewrite (data_block_ne (data s)) by done. rewrite Hl1. unfold dr, data_block, size in *. rewrite Hl2.
    destruct (Z.eqb_spec (Z.of_nat (length (bytes s))) (Z.of_nat n)) as [Heq|Hneq]; cbn [negb].
    - cbn [app]. rewrite Heq in Hop. split; [eapply rep_with_perm; [|exact Hop]; solve_Permutation|].
      split; [done|]. split; [|done]. intros _. apply nil_length_inv. lia.
    - destruct Hcase as [->|[Hcn Hrest]]; [done|]. destruct Hsok as [_ Hsok].
      assert (Hc : chunk_size (Z.of_nat (length (bytes s))) = chunk_size (Z.of_nat n) + chunk_size (Z.of_nat (length (bytes s) - n)) ∧ chunk_size (Z.of_nat n) = Z.of_nat n).
      { unfold UNUSED_SIZE in *. rewrite !chunk_size_eq in * by (unfold size_ok; lia). dlia. }
      destruct Hc as [Hc Hcn']. rewrite Hc, perm_swap in Hop. unfold UNUSED_SIZE in *. apply rep_split in Hop; [|apply chunk_size_bounds; unfold size_ok; lia..].
      rewrite Hcn' in Hop. destruct (rep_word _ _ _ _ _ (data s + Z.of_nat n, chunk_size (Z.of_nat (length (bytes s) - n))) Hop ltac:(set_solver)) as (Hw & _ & HN). cbn [fst snd] in *.
      destruct (Z.eqb_spec (data s + Z.of_nat n) NULL); [done|]. rewrite Hcn'. split; [eapply rep_with_perm; [|exact Hop]; solve_Permutation|].
      split; [done|]. split; [done|]. intros _. split; [done|]. intros Hnil. rewrite Hnil in Hl2. cbn in Hl2. lia. }
  destruct Hb as (Hrep1 & Hdrw & Hnil & Hcons). destruct (rep_set_data _ _ _ _ _ _ _ _ _ Hrep1 Hh dr Hdrw) as (m' & -> & Hrep' & Hh' & Hst).
  exists m'. split; [done|]. assert (Hok2 : size_ok (Z.of_nat (length (drop n (bytes s))))) by (destruct Hsok; unfold size_ok, size in *; lia).
  assert (Hok1 : size_ok (Z.of_nat (length (take n (bytes s))))) by (destruct Hsok; unfold size_ok, size in *; lia).
  split; [done|done|done|done| |]; cbn [set_mem mem].
  - eapply data_at_stable; [exact Hst|set_solver|done|]. apply data_at_ne; [done|]. split.
    + intros Hx. rewrite Hx in Hl1. cbn in Hl1. lia.
    + rewrite Hl1. by eapply rd_prefix; [exact Hby|lia].
  - eapply data_at_stable; [exact Hst|set_solver|done|]. unfold data_at. destruct (Z.eqb_spec dr NULL) as [Hz|Hz]; [by apply Hnil|].
    destruct (Hcons Hz) as [-> Hne2]. split; [done|]. rewrite Hl2. by apply rd_suffix; [|lia].
Qed.

(** Both parts are copied to blocks of their own. *)
Section Copied.
Context (st : pktbuf) (S : packets) (p : Z) (s : snip) (q : Z) (n : nat) (a b : Z).
Notation k := (length (bytes s) - n)%nat.
Context (Hrep : rep_with st S [(b, chunk_size (Z.of_nat k)); (a, chunk_size (Z.of_nat n)); (q, SNIP_SIZE)]).
Context (Hp : S !! p = Some s) (HdN : data s ≠ NULL) (Hn : (0 < n < length (bytes s))%nat) (HaN : a ≠ NULL) (HbN : b ≠ NULL).

Lemma part_sizes : length (take n (bytes s)) = n ∧ length (drop n (bytes s)) = k ∧
  size_ok (Z.of_nat n) ∧ size_ok (Z.of_nat k).
Proof using Hrep Hp Hn Layout0.
  destruct (snip_words _ _ _ _ _ Hrep Hp) as (_ & _ & _ & _ & Hsok). rewrite length_take, length_drop.
  destruct Hsok. unfold size_ok, size in *. lia.
Qed.

Lemma copy_parts :
  ∃ m2, (∀ A (f : memory → result A),
          (m ← copy (mem st) a (data s) (Z.of_nat n);
           m ← copy m b (data s + Z.of_nat n) (size s - Z.of_nat n); f m) = f m2) ∧
    rep_with (set_mem m2 st) S [(b, chunk_size (Z.of_nat k)); (a, chunk_size (Z.of_nat n)); (q, SNIP_SIZE)] ∧
    data_at m2 a (take n (bytes s)) ∧ data_at m2 b (drop n (bytes s)).
Proof using All.
  destruct (rep_snip _ _ _ _ _ _ _ Hrep Hp) as (_ & _ & _ & [Hh (_ & _ & Hdw & _ & Hsok) Hby]).
  apply data_at_ne in Hby as [Hne Hby]; [|done].
  destruct part_sizes as (Hl1 & Hl2 & Hok1 & Hok2).
  destruct (chunk_size_bounds _ Hok1) as (_ & Hc1 & _), (chunk_size_bounds _ Hok2) as (_ & Hc2 & _).
  rewrite perm_swap in Hrep.
  destruct (copy_Ok (mem st) a (data s) (Z.of_nat n) (take n (bytes s))) as (m1 & Hs1 & Hw1 & Hr1); [rewrite Nat2Z.id; by eapply rd_prefix; [exact Hby|lia]|lia|lia| |].
  { eapply in_mem_sub; [apply (rep_in_mem _ _ _ _ _ (a, chunk_size (Z.of_nat n)) Hrep); left|cbn; lia..]. }
  destruct (rep_write _ _ _ _ _ _ _ m1 a (Z.of_nat n) Hrep Hw1) as [Hrep1 Hst1]; [lia|lia|].
  destruct (rep_snip _ _ _ _ _ _ _ Hrep1 Hp) as (_ & _ & _ & [Hh1 _ Hby1]). apply data_at_ne in Hby1 as [_ Hby1]; [|done].
  rewrite perm_swap in Hrep1. cbn [set_mem mem] in Hby1, Hh1.
  destruct (copy_Ok m1 b (data s + Z.of_nat n) (size s - Z.of_nat n) (drop n (bytes s))) as (m2 & Hs2 & Hw2 & Hr2).
  { replace (Z.to_nat (size s - Z.of_nat n)) with (length (bytes s) - n)%nat by (unfold size; lia). by apply rd_suffix; [|lia]. }
  { unfold size. lia. }
  { unfold size. lia. }
  { eapply in_mem_sub; [apply (rep_in_mem _ _ _ _ _ (b, chunk_size (Z.of_nat k)) Hrep1); left|cbn; unfold size in *; lia..]. }
  destruct (rep_write _ _ _ _ _ _ _ m2 b (size s - Z.of_nat n) Hrep1 Hw2) as [Hrep2 Hst2]; [lia|unfold size in *; lia|].
  assert (Hd1 : data_at m2 a (take n (bytes s))).
  { eapply (data_at_stable m1); [exact Hst2|rewrite data_block_ne, Hl1 by done; set_solver|by rewrite Hl1|]. apply data_at_ne; [done|].
    rewrite Hl1. rewrite Nat2Z.id in Hr1. split; [|done]. intros Hx. rewrite Hx in Hl1. cbn in Hl1. lia. }
  assert (Hd2 : data_at m2 b (drop n (bytes s))).
  { apply data_at_ne; [done|]. rewrite Hl2. replace (Z.to_nat (size s - Z.of_nat n)) with k in Hr2 by (unfold size; lia).
    split; [|done]. intros Hx. rewrite Hx in Hl2. cbn in Hl2.  lia. }
  exists m2. split; [by intros A f; rewrite Hs1, result_bind_Ok, Hs2, result_bind_Ok|]. by split.
Qed.

Lemma mark_copied :
  ∃ st', (m ← copy (mem st) a (data s) (Z.of_nat n);
          m ← copy m b (data s + Z.of_nat n) (size s - Z.of_nat n);
          st ← _pktbuf_free (set_mem m st) (data s) (size s);
          m ← store (mem st) (s_data q) a;
          m ← store m (s_data p) b;
          Ok (true, a, set_mem m st)) = Ok (true, a, st') ∧
    parted st' S p s q a b (take n (bytes s)) (drop n (bytes s)).
Proof using All.
  destruct part_sizes as (Hl1 & Hl2 & Hok1 & Hok2). destruct copy_parts as (m2 & -> & Hrep2 & Hd1 & Hd2).
  destruct (rep_word _ _ _ _ _ (a, chunk_size (Z.of_nat n)) Hrep ltac:(set_solver)) as (Haw & _).
  destruct (rep_word _ _ _ _ _ (b, chunk_size (Z.of_nat k)) Hrep ltac:(set_solver)) as (Hbw & _).
  destruct (rep_snip _ _ _ _ _ _ _ Hrep2 Hp) as (_ & _ & _ & [Hh2 _ _]).
  pose proof (rep_open _ _ _ _ _ _ _ Hrep2 Hp) as Hop. unfold blocks_of in Hop. destruct (Z.eqb_spec (data s) NULL); [done|]. cbn [app] in Hop.
  rewrite perm_swap in Hop. destruct (rep_free _ _ _ _ _ _ _ Hop) as (st3 & -> & Hrep3 & Hst3). rewrite result_bind_Ok. cbn [set_mem mem] in *.
  eapply rep_with_perm in Hrep3; [|instantiate (1 := [(q, SNIP_SIZE); (p, SNIP_SIZE); (a, chunk_size (Z.of_nat n)); (b, chunk_size (Z.of_nat k))]); solve_Permutation].
  destruct (header_exists (mem st3) q) as (u0 & n0' & d0 & sz0 & t0 & Hhq); [apply (rep_in_mem _ _ _ _ _ (q, SNIP_SIZE) Hrep3); left|].
  destruct (rep_set_data _ _ _ _ _ _ _ _ _ Hrep3 Hhq a Haw) as (m4 & -> & Hrep4 & _ & Hst4). rewrite result_bind_Ok. rewrite perm_swap in Hrep4.
  assert (Hh4 : header_at m4 p (users s) (next s) (data s) (size s) (type s)).
  { eapply (header_same (mem st3)); [apply (proj2 Hst4 (p, SNIP_SIZE)); left|].
    eapply (header_same m2); [apply (proj2 Hst3 (p, SNIP_SIZE)); left|done]. }
  destruct (rep_set_data _ _ _ _ _ _ _ _ _ Hrep4 Hh4 b Hbw) as (m5 & Hs5 & Hrep5 & Hh5 & Hst5). cbn [set_mem mem] in *.
  rewrite Hs5, result_bind_Ok. eexists. split; [done|].
  assert (Hall : ∀ d bs, data_block d bs ⊆ [(a, chunk_size (Z.of_nat n)); (b, chunk_size (Z.of_nat k))] → size_ok (Z.of_nat (length bs)) → data_at m2 d bs → data_at m5 d bs).
  { intros d bs Hsub Hok Hd. eapply (data_at_stable m4); [exact Hst5|set_solver|done|]. eapply (data_at_stable (mem st3)); [exact Hst4|set_solver|done|].
    eapply (data_at_stable m2); [exact Hst3|set_solver|done|done]. }
  split; [|done|done|by rewrite Hl1, Hl2| |]; rewrite ?(data_block_ne a), ?(data_block_ne b), ?Hl1, ?Hl2 by done; [done|..];
    apply Hall; rewrite ?(data_block_ne a), ?(data_block_ne b), ?Hl1, ?Hl2 by done; try done; set_solver.
Qed.
End Copied.

(** Where the data go: in place, to new blocks, or nowhere when there is no
    room. *)
Lemma mark_branches st S p s q n : rep_with st S [(q, SNIP_SIZE)] → S !! p = Some s → data s ≠ NULL →
  (0 < n <= length (bytes s))%nat →
  ∃ ok dm st',
    (if negb (size s =? Z.of_nat n) && ((Z.of_nat n <? chunk_size (Z.of_nat n)) || (u32 (size s - Z.of_nat n) <? UNUSED_SIZE)) then
       '(new_data_marked, st) ← _pktbuf_alloc st (Z.of_nat n);
       if new_data_marked =? NULL then
         st ← _pktbuf_free st q SNIP_SIZE; Ok (false, NULL, st)
       else
         '(new_data_rest, st) ← _pktbuf_alloc st (u32 (size s - Z.of_nat n));
         if new_data_rest =? NULL then
           st ← _pktbuf_free st q SNIP_SIZE;
           st ← _pktbuf_free st new_data_marked (Z.of_nat n); Ok (false, NULL, st)
         else
           m ← copy (mem st) new_data_marked (data s) (Z.of_nat n);
           m ← copy m new_data_rest (data s + Z.of_nat n) (size s - Z.of_nat n);
           st ← _pktbuf_free (set_mem m st) (data s) (size s);
           m ← store (mem st) (s_data q) new_data_marked;
           m ← store m (s_data p) new_data_rest;
           Ok (true, new_data_marked, set_mem m st)
     else
       m ← store (mem st) (s_data p) (if negb (size s =? Z.of_nat n) then data s + Z.of_nat n else NULL);
       Ok (true, data s, set_mem m st)) = Ok (ok, dm, st') ∧
    if (ok : bool) then ∃ dr, parted st' S p s q dm dr (take n (bytes s)) (drop n (bytes s)) else rep st' S.
Proof.
  intros Hrep Hp HdN Hn. destruct (snip_words _ _ _ _ _ Hrep Hp) as (_ & _ & _ & _ & Hsok).
  assert (Hok1 : size_ok (Z.of_nat n)) by (destruct Hsok; unfold size_ok, size in *; lia).
  assert (Hu : u32 (size s - Z.of_nat n) = Z.of_nat (length (bytes s) - n)) by (destruct Hsok; unfold size in *; rewrite u32_small by lia; lia).
  assert (Hok2 : size_ok (Z.of_nat (length (bytes s) - n))) by (destruct Hsok; unfold size_ok, size in *; lia).
  rewrite Hu. destruct (negb (size s =? Z.of_nat n) && _) eqn:Hcond.
  - apply andb_true_iff in Hcond as [Hne%negb_true_iff%Z.eqb_neq _]. unfold size in Hne.
    destruct (rep_alloc _ _ _ _ _ _ Hrep Hok1) as [->|(a & st1 & -> & HaN & Hrep1 & _)]; rewrite result_bind_Ok.
    { change SNIP_SIZE with (chunk_size SNIP_SIZE) in Hrep. destruct (rep_free _ _ _ _ _ _ _ Hrep) as (st1 & Hf & Hrep1 & _).
      change (NULL =? NULL) with true. cbv iota. rewrite Hf, result_bind_Ok. by eexists false, NULL, _. }
    destruct (Z.eqb_spec a NULL); [done|].
    destruct (rep_alloc _ _ _ _ _ _ Hrep1 Hok2) as [->|(b & st2 & -> & HbN & Hrep2 & _)]; rewrite result_bind_Ok.
    { change (NULL =? NULL) with true. cbv iota. rewrite perm_swap in Hrep1. change (q, SNIP_SIZE) with (q, chunk_size SNIP_SIZE) in Hrep1.
      destruct (rep_free _ _ _ _ _ _ _ Hrep1) as (st2 & -> & Hrep2 & _). rewrite result_bind_Ok.
      destruct (rep_free _ _ _ _ _ _ _ Hrep2) as (st3 & -> & Hrep3 & _). rewrite result_bind_Ok. by eexists false, NULL, _. }
    destruct (Z.eqb_spec b NULL); [done|].
    destruct (mark_copied st2 S p s q n a b Hrep2 Hp HdN ltac:(lia) HaN HbN) as (st' & -> & Hpa). exists true, a, st'. split; [done|]. by exists b.
  - destruct (mark_in_place st S p s q n Hrep Hp HdN Hn) as (m' & -> & Hpa).
    { apply andb_false_iff in Hcond as [Heq%negb_false_iff%Z.eqb_eq|[H1%Z.ltb_ge H2%Z.ltb_ge]%orb_false_iff]; [left; unfold size in Heq; lia|].
      right. unfold size. lia. }
    rewrite result_bind_Ok. exists true, (data s), (set_mem m' st). split; [done|]. by eexists.
Qed.

Lemma mark_Ok st S p s n t : rep st S → S !! p = Some s → 0 <= n → is_word t →
  ∃ q st', gnrc_pktbuf_mark base GNRC_PKTBUF_SIZE st p n t = Ok (q, st') ∧
    ((q = NULL ∧ rep st' S ∧ (n = 0 ∨ size s < n → st' = st)) ∨
     (0 < n <= size s ∧ S !! q = None ∧ ∃ dm dr,
        rep st' (<[q := Snip 1 (next s) dm t (take (Z.to_nat n) (bytes s))]>
                (<[p := Snip (users s) q dr (type s) (drop (Z.to_nat n) (bytes s))]> S)))).
Proof.
  intros Hrep Hp Hn0 Htw. destruct (rep_snip _ _ _ _ _ _ _ Hrep Hp) as (HpN & _ & _ & [(_ & _ & Hd & Hsz & _) (Hu & Hnx & _ & Hty & Hsok) Hby]).
  unfold gnrc_pktbuf_mark. destruct (Z.eqb_spec p NULL) as [|_]; [done|]. rewrite orb_false_r.
  destruct (Z.eqb_spec n 0) as [->|Hnz]; [exists NULL, st; split; [done|by left]|].
  rewrite Hsz, result_bind_Ok, Hd, result_bind_Ok. destruct ((size s <? n) || (data s =? NULL)) eqn:Hg.
  { exists NULL, st. split; [done|by left]. }
  apply orb_false_iff in Hg as [Hle%Z.ltb_ge HdN%Z.eqb_neq].
  destruct (rep_alloc _ _ _ _ _ SNIP_SIZE Hrep ltac:(done)) as [->|(q & st1 & -> & HqN & Hrep1 & _)]; rewrite result_bind_Ok.
  { exists NULL, st. split; [done|by left]. }
  change (chunk_size SNIP_SIZE) with SNIP_SIZE in Hrep1. destruct (Z.eqb_spec q NULL); [done|].
  destruct (mark_branches st1 S p s q (Z.to_nat n) Hrep1 Hp HdN) as (ok & dm & st2 & Hbr & Hres); [unfold size in *; lia|].
  rewrite !Z2Nat.id in Hbr by lia. rewrite Hbr, result_bind_Ok. destruct ok; cbn [negb].
  2: { exists NULL, st2. split; [done|]. left. split; [done|]. split; [done|]. lia. }
  destruct Hres as [dr Hpa]. pose proof (rep_fresh _ _ _ _ _ _ _ Hrep1) as Hq.
  destruct (rep_word _ _ _ _ _ (q, SNIP_SIZE) Hrep1 ltac:(left)) as (Hqw & _).
  destruct (mark_finish _ _ _ _ _ _ _ _ _ t Hpa Hu Hnx Hty Htw Hqw) as (m' & Hfin & Hrep'); [congruence|].
  rewrite length_take, length_drop in Hfin. replace (Z.of_nat (length (bytes s) - Z.to_nat n)) with (size s - n) in Hfin by (unfold size in *; lia).
  replace (Z.of_nat (Z.to_nat n `min` length (bytes s))) with n in Hfin by (unfold size in *; lia).
  rewrite Hfin. eexists q, _. split; [done|]. right. split; [lia|]. split; [done|]. by exists dm, dr.
Qed.
End Operations.
