(* ===== verification/PacketBuffer.v ===== *)
(** * The theorems on the packet buffer

    Calls of the packet buffer are simulated by transitions on finite maps of
    snips. The last part shows by evaluation what the calls do not guarantee. *)

From stdpp Require Import gmap.
From S2P Require Import Prelude Words Pktbuf PktbufAlloc PktbufStore PktbufOps.
Open Scope Z_scope.

(** ** Calls and their specification *)

Inductive call : Type :=
  | Add (next data size type : Z)
  | Mark (pkt size type : Z)
  | Realloc (pkt size : Z)
  | Hold (pkt num : Z)
  | Release (pkt : Z)
  | StartWrite (pkt : Z).

Section Simulation.
Context (_pktbuf GNRC_PKTBUF_SIZE : Z).
Notation rep := (rep _pktbuf GNRC_PKTBUF_SIZE).
Notation source := (source _pktbuf GNRC_PKTBUF_SIZE).

Definition exec (st : pktbuf) (c : call) : result (Z * pktbuf) :=
  match c with
  | Add n d sz t => gnrc_pktbuf_add _pktbuf GNRC_PKTBUF_SIZE st n d sz t
  | Mark p n t => gnrc_pktbuf_mark _pktbuf GNRC_PKTBUF_SIZE st p n t
  | Realloc p n => gnrc_pktbuf_realloc_data _pktbuf GNRC_PKTBUF_SIZE st p n
  | Hold p num => st ← gnrc_pktbuf_hold GNRC_PKTBUF_SIZE st p num; Ok (0, st)
  | Release p => st ← gnrc_pktbuf_release_error _pktbuf GNRC_PKTBUF_SIZE st p; Ok (0, st)
  | StartWrite p => gnrc_pktbuf_start_write _pktbuf GNRC_PKTBUF_SIZE st p
  end.

(** What a caller has to respect: pointers to snips of the buffer, data that
    can be read, sizes that can be rounded up. *)
Definition valid (st : pktbuf) (S : packets) (c : call) : Prop :=
  match c with
  | Add n d sz t => is_word n ∧ is_word t ∧ 0 <= sz ∧
      (d ≠ NULL → sz <= GNRC_PKTBUF_SIZE → ∃ bs, Z.of_nat (length bs) = sz ∧ source (mem st) (blocks S) d bs)
  | Mark p n t => is_Some (S !! p) ∧ 0 <= n ∧ is_word t
  | Realloc p n => is_Some (S !! p) ∧ size_ok n
  | Hold p _ | Release p => ∃ l, chain S p l
  | StartWrite p => is_Some (S !! p)
  end.

(** What the call may do to the packets [S], given its value [r]. *)
Definition spec (st : pktbuf) (S : packets) (c : call) (r : Z) (S' : packets) : Prop :=
  match c with
  | Add n d sz t =>
      (r = NULL ∧ S' = S) ∨
      (sz <= GNRC_PKTBUF_SIZE ∧ S !! r = None ∧ ∃ d' bs, Z.of_nat (length bs) = sz ∧
         (d ≠ NULL → rd (mem st) d (length bs) = Ok bs) ∧ S' = <[r := Snip 1 n d' t bs]> S)
  | Mark p n t =>
      ∃ s, S !! p = Some s ∧
        ((r = NULL ∧ S' = S) ∨
         (0 < n <= size s ∧ S !! r = None ∧ ∃ dm dr,
            S' = <[r := Snip 1 (next s) dm t (take (Z.to_nat n) (bytes s))]>
                 (<[p := Snip (users s) r dr (type s) (drop (Z.to_nat n) (bytes s))]> S)))
  | Realloc p n =>
      ∃ s, S !! p = Some s ∧
        ((r = ENOMEM ∧ S' = S) ∨
         (r = 0 ∧ ∃ d bs, resized (bytes s) bs n ∧ S' = <[p := Snip (users s) (next s) d (type s) bs]> S))
  | Hold p num => ∃ l, chain S p l ∧ S' = hold_all num l S
  | Release p => ∃ l, chain S p l ∧ S' = foldl release_one S l
  | StartWrite p =>
      ∃ s, S !! p = Some s ∧
        if size s =? 0 then r = NULL ∧ S' = S
        else if users s <=? 1 then r = p ∧ S' = S
        else (r = NULL ∧ S' = S) ∨
             (S !! r = None ∧ ∃ d, S' = <[p := add_users (-1) s]> (<[r := Snip 1 (next s) d (type s) (bytes s)]> S))
  end.

Lemma add_sim `{!Layout _pktbuf GNRC_PKTBUF_SIZE} st S n d sz t : rep st S → valid st S (Add n d sz t) →
  ∃ r st' S', exec st (Add n d sz t) = Ok (r, st') ∧ spec st S (Add n d sz t) r S' ∧ rep st' S'.
Proof.
  intros Hrep (Hn & Ht & Hsz & Hsrc). cbn [exec spec]. unfold gnrc_pktbuf_add.
  destruct (Z.ltb_spec GNRC_PKTBUF_SIZE sz) as [|Hle]; [exists NULL, st, S; split; [done|]; split; [by left|done]|].
  assert (Hok : size_ok sz) by (pose proof (layout_end _pktbuf GNRC_PKTBUF_SIZE); pose proof (layout_base _pktbuf GNRC_PKTBUF_SIZE); unfold size_ok; lia).
  assert (∃ src, (d ≠ NULL → ∃ bs, Z.of_nat (length bs) = sz ∧ src = Some bs ∧ source (mem st) ([] ++ blocks S) d bs) ∧ (d = NULL → src = None)) as (src & H1 & H2).
  { destruct (decide (d = NULL)) as [->|Hd]; [by exists None|]. destruct (Hsrc Hd Hle) as (bs & Hl & Hs). exists (Some bs). split; [|done]. by exists bs. }
  destruct (_create_snip_Ok _ _ st S [] n t d sz src Hrep Hn Ht Hok H1 H2) as (r & st' & Heq & _ & [[-> Hrep']|(HrN & Hr & d' & bs & Hl & Hbs & Hrep')]).
  - exists NULL, st', S. split; [exact Heq|]. split; [by left|done].
  - eexists r, st', _. split; [exact Heq|]. split; [|exact Hrep']. right. split; [done|]. split; [done|]. exists d', bs.
    split; [done|]. split; [|done]. intros Hd. destruct (H1 Hd) as (bs' & _ & -> & [Hs _]). cbn [from_option] in Hbs. by subst bs'.
Qed.

(** C5: every call of the packet buffer that respects its precondition
    terminates without a fault, and is simulated by its specification on the
    abstract packets: it creates, splits, resizes, shares or releases exactly
    the snips it is asked for, or reports that there is no room and changes
    nothing, and all other snips keep their headers and their data. *)
Theorem pktbuf_simulation st S c : Layout _pktbuf GNRC_PKTBUF_SIZE → rep st S → valid st S c →
  ∃ r st' S', exec st c = Ok (r, st') ∧ spec st S c r S' ∧ rep st' S'.
Proof.
  intros HL Hrep Hv. destruct c as [n d sz t|p n t|p n|p num|p|p]; [by apply add_sim|..]; cbn [valid exec spec] in *.
  - destruct Hv as ([s Hs] & Hn & Ht). destruct (mark_Ok _ _ _ _ _ _ _ _ Hrep Hs Hn Ht) as (r & st' & -> & [(-> & Hrep' & _)|(Hle & Hr & dm & dr & Hrep')]).
    + exists NULL, st', S. split; [done|]. split; [|done]. exists s. split; [done|]. by left.
    + eexists r, st', _. split; [done|]. split; [|exact Hrep']. exists s. split; [done|]. right. split; [done|]. split; [done|]. by exists dm, dr.
  - destruct Hv as ([s Hs] & Hn). destruct (realloc_data_Ok _ _ _ _ _ _ _ Hrep Hs Hn) as (r & st' & -> & [[-> ->]|(-> & d & bs & Hres & Hrep')]).
    + exists ENOMEM, st, S. split; [done|]. split; [|done]. exists s. split; [done|]. by left.
    + eexists 0, st', _. split; [done|]. split; [|exact Hrep']. exists s. split; [done|]. right. split; [done|]. by exists d, bs.
  - destruct Hv as [l Hl]. unfold gnrc_pktbuf_hold.
    destruct (hold_loop_Ok _ _ _ _ _ _ _ _ num Hrep Hl (chain_fuel _ _ _ _ _ _ _ Hrep Hl)) as (m' & -> & Hrep').
    eexists 0, _, _. split; [done|]. split; [by exists l|exact Hrep'].
  - destruct Hv as [l Hl]. unfold gnrc_pktbuf_release_error, _release_error_locked.
    destruct (release_loop_Ok _ _ _ _ _ _ _ _ Hrep Hl (chain_fuel _ _ _ _ _ _ _ Hrep Hl)) as (st' & -> & Hrep' & _).
    eexists 0, _, _. split; [done|]. split; [by exists l|exact Hrep'].
  - destruct Hv as [s Hs]. destruct (start_write_Ok _ _ _ _ _ _ Hrep Hs) as (r & st' & -> & H).
    destruct (size s =? 0) eqn:Hz; [destruct H as [-> ->]; exists NULL, st, S; split; [done|]; split; [|done]; exists s; by rewrite Hz|].
    destruct (users s <=? 1) eqn:Hu; [destruct H as [-> ->]; exists p, st, S; split; [done|]; split; [|done]; exists s; by rewrite Hz, Hu|].
    destruct H as [[-> Hrep']|(Hr & d & Hrep')].
    + exists NULL, st', S. split; [done|]. split; [|done]. exists s. rewrite Hz, Hu. split; [done|]. by left.
    + eexists r, st', _. split; [done|]. split; [|exact Hrep']. exists s. rewrite Hz, Hu. split; [done|]. right. split; [done|]. by exists d.
Qed.
End Simulation.

(** ** Allocation *)

(** The block that is released may be any of the blocks in use. *)
Lemma alloc_inv_middle base N st fl b L1 L2 : alloc_inv base N st fl (L1 ++ b :: L2) → alloc_inv base N st fl (b :: L1 ++ L2).
Proof.
  intros [Hm Hl Hs Hin (H1 & [Hb H2] & H3)%all_disj_app Hsep]. apply Forall_app in Hin as [? [? ?]%Forall_cons].
  split; [done..| | |].
  - apply Forall_cons. by rewrite Forall_app.
  - split; [|apply all_disj_app; set_solver]. apply Forall_app. split; [|done].
    apply Forall_forall. intros c Hc. apply disj_sym, H3; [done|left].
  - intros c d Hc Hd. apply Hsep; [done|]. set_solver.
Qed.

(** Writing only to chunks and to a block that no other one overlaps. *)
Lemma keeps_live base N st m' fl R L : alloc_inv base N st fl L → keeps (mem st) m' R → R ⊆ fl →
  Forall (λ b, same (mem st) m' b.1 b.2) L.
Proof.
  intros Hinv Hk HR. apply Forall_forall. intros b Hb. eapply keeps_same; [exact Hk|]. apply Forall_forall. intros c Hc.
  apply disj_sym, (ai_sep _ _ _ _ _ Hinv); [by apply HR|done].
Qed.

(** C13: In every state of the buffer with unused chunks [fl] and blocks [L] in
    use. [_pktbuf_alloc] returns [NULL] only when every unused chunk is smaller
    than the rounded size, and then changes nothing; otherwise it takes the first
    chunk that is large enough, the block lies in the buffer and overlaps no block
    in use, all other chunks stay unused, and so does the rest of the chunk when
    it has room for a header. [_pktbuf_free] of any block in use succeeds, the
    whole block and all chunks that were unused are unused afterwards, and the
    other blocks stay in use. Neither changes a byte of another block in use. *)
Theorem pktbuf_alloc_free _pktbuf GNRC_PKTBUF_SIZE st fl L :
  Layout _pktbuf GNRC_PKTBUF_SIZE → alloc_inv _pktbuf GNRC_PKTBUF_SIZE st fl L →
  (∀ n, size_ok n → let cs := chunk_size n in
    (Forall (λ c, c.2 < cs) fl ∧ _pktbuf_alloc _pktbuf GNRC_PKTBUF_SIZE st n = Ok (NULL, st)) ∨
    ∃ pre a k post st',
      fl = pre ++ (a, k) :: post ∧ Forall (λ c, c.2 < cs) pre ∧ cs <= k ∧
      _pktbuf_alloc _pktbuf GNRC_PKTBUF_SIZE st n = Ok (a, st') ∧
      _pktbuf <= a ∧ a + n <= _pktbuf + GNRC_PKTBUF_SIZE ∧ Forall (disj (a, cs)) L ∧
      alloc_inv _pktbuf GNRC_PKTBUF_SIZE st'
        (pre ++ (if k - cs <? UNUSED_SIZE then [] else [(a + cs, k - cs)]) ++ post) ((a, cs) :: L) ∧
      Forall (λ b, same (mem st) (mem st') b.1 b.2) L) ∧
  (∀ L1 a n L2, L = L1 ++ (a, chunk_size n) :: L2 →
    ∃ fl' st', _pktbuf_free _pktbuf GNRC_PKTBUF_SIZE st a n = Ok st' ∧
      alloc_inv _pktbuf GNRC_PKTBUF_SIZE st' fl' (L1 ++ L2) ∧
      (∀ b, b ∈ (a, chunk_size n) :: fl → covered fl' b) ∧
      Forall (λ b, same (mem st) (mem st') b.1 b.2) (L1 ++ L2)).
Proof.
  intros HL Hinv. split.
  - intros n Hn cs. destruct (alloc_first_fit _ _ _ _ _ _ Hinv Hn) as [H|(pre & a & k & post & st' & -> & Hpre & Hk & E & Hinv' & Hkp & _)]; [by left|right].
    exists pre, a, k, post, st'. pose proof (ai_live _ _ _ _ _ Hinv') as [(? & ? & ?) _]%Forall_cons.
    pose proof (ai_disj _ _ _ _ _ Hinv') as [Hd _]. destruct (chunk_size_bounds _ Hn) as (_ & ? & _). cbn [fst snd] in *.
    repeat (split; [done || lia|]). by eapply keeps_live.
  - intros L1 a n L2 ->. pose proof (alloc_inv_middle _ _ _ _ _ _ _ Hinv) as Hinv0.
    destruct (free_covers _ _ _ _ _ _ _ Hinv0) as (fl' & st' & E & Hinv' & Hk & Hc). exists fl', st'. do 3 (split; [done|]).
    apply Forall_forall. intros b Hb. eapply keeps_same; [exact Hk|]. apply Forall_forall.
    pose proof (ai_disj _ _ _ _ _ Hinv0) as [Hd _]. rewrite Forall_forall in Hd.
    intros c [->|Hc']%elem_of_cons; apply disj_sym; [by apply Hd|]. apply (ai_sep _ _ _ _ _ Hinv0); [done|by right].
Qed.

(** ** The initial state *)

Lemma pktbuf_init_inv base N m : Layout base N → in_mem m base N →
  ∃ st, gnrc_pktbuf_init base N m = Ok st ∧ alloc_inv base N st [(base, N)] [].
Proof.
  intros HL Hm. pose proof (layout_base base N). pose proof (layout_size base N). pose proof (layout_end base N). unfold UNUSED_SIZE in *.
  unfold gnrc_pktbuf_init, u_next, u_size.
  destruct (store_Ok m base NULL ltac:(done)) as (m1 & -> & Hw1 & Hl1); [eapply in_mem_sub; [exact Hm|lia..]|]. rewrite result_bind_Ok.
  pose proof (writes_in_mem _ _ _ _ _ _ Hw1 Hm) as Hm1.
  destruct (store_Ok m1 (base + 4) N ltac:(unfold is_word; lia)) as (m2 & -> & Hw2 & Hl2); [eapply in_mem_sub; [exact Hm1|lia..]|]. rewrite result_bind_Ok.
  eexists. split; [done|]. split; cbn [mem _first_unused]; [by eapply writes_in_mem| | |by constructor|done|set_solver].
  - cbn [lseg]. split; [done|]. split; [done|]. exists NULL. unfold u_next. rewrite (load_same m1 m2); [done|].
    eapply writes_same; [exact Hw2|lia].
  - cbn [spaced]. unfold UNUSED_SIZE. lia.
Qed.

(** A buffer of 200 bytes at address 1000. *)
Definition demo_base : Z := 1000.
Definition demo_size : Z := 200.
Definition demo_mem : memory := list_to_map ((λ a, (a, 0)) <$> seqZ demo_base demo_size).

Lemma demo_layout : Layout demo_base demo_size.
Proof. by split. Qed.

Lemma demo_in_mem : in_mem demo_mem demo_base demo_size.
Proof.
  intros q Hq. unfold demo_mem. apply elem_of_dom. rewrite dom_list_to_map_L, elem_of_list_to_set, <-list_fmap_compose.
  apply list_elem_of_fmap. exists q. split; [done|]. apply elem_of_seqZ. exact Hq.
Qed.

Lemma pktbuf_alloc_free_witness : ∃ st a st1 st2 fl1 fl2,
  gnrc_pktbuf_init demo_base demo_size demo_mem = Ok st ∧
  _pktbuf_alloc demo_base demo_size st 13 = Ok (a, st1) ∧ demo_base <= a ∧ a + 13 <= demo_base + demo_size ∧
  alloc_inv demo_base demo_size st1 fl1 [(a, 16)] ∧
  _pktbuf_free demo_base demo_size st1 a 13 = Ok st2 ∧ alloc_inv demo_base demo_size st2 fl2 [] ∧ covered fl2 (a, 16).
Proof.
  destruct (pktbuf_init_inv demo_base demo_size demo_mem demo_layout demo_in_mem) as (st & Hi & Hinv).
  destruct (pktbuf_alloc_free demo_base demo_size st [(demo_base, demo_size)] [] demo_layout Hinv) as [Ha _].
  destruct (Ha 13) as [[H _]|(pre & a & k & post & st1 & _ & _ & _ & H1 & H2 & H3 & _ & Hinv1 & _)]; [by split|..].
  - apply Forall_cons in H as [H _]. discriminate H.
  - destruct (pktbuf_alloc_free demo_base demo_size st1 _ _ demo_layout Hinv1) as [_ Hf].
    destruct (Hf [] a 13 [] eq_refl) as (fl2 & st2 & H4 & H5 & H6 & _).
    eexists st, a, st1, st2, _, fl2. split; [exact Hi|]. split; [exact H1|]. split; [exact H2|]. split; [exact H3|].
    split; [exact Hinv1|]. split; [exact H4|]. split; [exact H5|]. apply H6. left.
Defined.

Lemma pktbuf_simulation_witness : ∃ st r st' S',
  gnrc_pktbuf_init demo_base demo_size demo_mem = Ok st ∧
  exec demo_base demo_size st (Add NULL NULL 13 1) = Ok (r, st') ∧
  spec demo_size st ∅ (Add NULL NULL 13 1) r S' ∧ rep demo_base demo_size st' S'.
Proof.
  destruct (pktbuf_init_inv demo_base demo_size demo_mem demo_layout demo_in_mem) as (st & Hi & Hinv). exists st.
  destruct (pktbuf_simulation demo_base demo_size st ∅ (Add NULL NULL 13 1) demo_layout) as (r & st' & S' & H).
  - split; [exists [(demo_base, demo_size)]; exact Hinv|]. intros p s Hp. rewrite lookup_empty in Hp. discriminate Hp.
  - cbn [valid]. unfold is_word, NULL. refine (conj _ (conj _ (conj _ _))); [lia|lia|lia|]. intros Hd. by destruct Hd.
  - exists r, st', S'. exact (conj Hi H).
Defined.

(** ** Limits *)

(** The unused chunks, from the first one on. *)
Fixpoint chunks (fuel : nat) (m : memory) (p : Z) : list block :=
  match fuel with
  | O => []
  | S fuel =>
      if p =? NULL then []
      else match load m (u_next p), load m (u_size p) with Ok n, Ok sz => (p, sz) :: chunks fuel m n | _, _ => [] end
  end.

(** Two allocations that do not fill a chunk leave a hole of eight bytes, which
    is large enough to count as in use: it is not merged when the blocks on both
    sides are released, and the empty buffer is in two chunks. *)
Example alloc_leaks :
  (st ← gnrc_pktbuf_init demo_base demo_size demo_mem;
   '(a, st) ← _pktbuf_alloc demo_base demo_size st 20;
   '(b, st) ← _pktbuf_alloc demo_base demo_size st 8;
   st ← _pktbuf_free demo_base demo_size st a 20;
   '(a, st) ← _pktbuf_alloc demo_base demo_size st 16;
   st ← _pktbuf_free demo_base demo_size st a 16;
   '(a, st) ← _pktbuf_alloc demo_base demo_size st 12;
   st ← _pktbuf_free demo_base demo_size st a 12;
   st ← _pktbuf_free demo_base demo_size st b 8;
   e ← gnrc_pktbuf_is_empty demo_base demo_size st;
   Ok (chunks 5 (mem st) (_first_unused st), e)) = Ok ([(1000, 12); (1020, 180)], false).
Proof. vm_compute. reflexivity. Qed.

(** [gnrc_pktbuf_is_sane] refuses a buffer whose end is in use. *)
Example is_sane_refuses :
  (st ← gnrc_pktbuf_init demo_base demo_size demo_mem;
   '(a, st) ← _pktbuf_alloc demo_base demo_size st 100;
   '(b, st) ← _pktbuf_alloc demo_base demo_size st 100;
   st ← _pktbuf_free demo_base demo_size st a 100;
   gnrc_pktbuf_is_sane demo_base demo_size st) = Ok false.
Proof. vm_compute. reflexivity. Qed.

(** A packet of three snips with two users, the first of which has a copy of
    the first snip: [gnrc_pktbuf_duplicate_upto] of the copy, up to the second
    snip, cuts the third one off the packet of the other user. *)
Example duplicate_truncates :
  (st ← gnrc_pktbuf_init demo_base demo_size demo_mem;
   '(c, st) ← gnrc_pktbuf_add demo_base demo_size st NULL NULL 8 3;
   '(b, st) ← gnrc_pktbuf_add demo_base demo_size st c NULL 8 2;
   '(a, st) ← gnrc_pktbuf_add demo_base demo_size st b NULL 8 1;
   st ← gnrc_pktbuf_hold demo_size st a 1;
   '(a', st) ← gnrc_pktbuf_start_write demo_base demo_size st a;
   n ← gnrc_pkt_count demo_size (mem st) a;
   '(d, st) ← gnrc_pktbuf_duplicate_upto demo_base demo_size st a' 2;
   n' ← gnrc_pkt_count demo_size (mem st) a;
   Ok (n, n')) = Ok (3, 2).
Proof. vm_compute. reflexivity. Qed.

(** A size that rounding up wraps to 0 is granted: the data move to a chunk
    that stays unused. *)
Example realloc_wraps :
  (st ← gnrc_pktbuf_init demo_base demo_size demo_mem;
   '(a, st) ← gnrc_pktbuf_add demo_base demo_size st NULL NULL 8 1;
   let unused := _first_unused st in
   '(r, st) ← gnrc_pktbuf_realloc_data demo_base demo_size st a (2 ^ 32 - 1);
   d ← load (mem st) (s_data a);
   Ok (r, bool_decide (d = unused))) = Ok (0, true).
Proof. vm_compute. reflexivity. Qed.
