(* ===== verification/UniversalAddress.v ===== *)
(** * sys/universal_address: shared address containers

    The containers are an array; a pointer to a container is its index. Every
    function holds [mtx_access] from its first access to its last, so a call is
    one step. [UNIVERSAL_ADDRESS_SIZE] is 16, its value with IPv6. A caller's
    buffer is a list of bytes. *)

From S2P Require Import Prelude Words.
Open Scope Z_scope.

(** ** The code *)

Definition ENOENT : Z := 2.

Definition UNIVERSAL_ADDRESS_SIZE : Z := 16.
Definition UNIVERSAL_ADDRESS_EQUAL : Z := 0.
Definition UNIVERSAL_ADDRESS_MATCHING_PREFIX : Z := 1.
Definition UNIVERSAL_ADDRESS_IS_ALL_ZERO_ADDRESS : Z := 2.

Record universal_address_container_t : Type := Container {
  use_count : Z;
  address_size : Z;
  address : list Z
}.

Record addresses : Type := Addresses {
  universal_address_table : list universal_address_container_t;
  universal_address_table_filled : Z
}.

(** Whether [memcmp(a, b, n)] is 0. *)
Definition memcmp (a b : list Z) (n : Z) : result bool :=
  if (0 <=? n) && (n <=? Z.of_nat (length a)) && (n <=? Z.of_nat (length b))
  then Ok (bool_decide (take (Z.to_nat n) a = take (Z.to_nat n) b))
  else Fault OutOfBounds.

(** The container behind a pointer. *)
Definition container_at (U : addresses) (p : option nat) : result universal_address_container_t :=
  i ← from_option_or NullDeref p;
  from_option_or BadPointer (universal_address_table U !! i).

Definition set_container (i : nat) (c : universal_address_container_t) (U : addresses) : addresses :=
  Addresses (<[i := c]> (universal_address_table U)) (universal_address_table_filled U).

Definition set_filled (n : Z) (U : addresses) : addresses := Addresses (universal_address_table U) n.

Fixpoint find_entry_loop (table : list universal_address_container_t) (i : nat) (addr : list Z) (addr_size : Z)
    : result (option nat) :=
  match table with
  | [] => Ok None
  | c :: table =>
      eq ← (if address_size c =? addr_size then memcmp (address c) addr addr_size else Ok false);
      if (eq : bool) then Ok (Some i) else find_entry_loop table (S i) addr addr_size
  end.

Definition universal_address_find_entry (U : addresses) (addr : list Z) (addr_size : Z) : result (option nat) :=
  find_entry_loop (universal_address_table U) 0 addr addr_size.

Fixpoint unused_loop (table : list universal_address_container_t) (i : nat) : option nat :=
  match table with
  | [] => None
  | c :: table => if use_count c =? 0 then Some i else unused_loop table (S i)
  end.

Definition universal_address_get_next_unused_entry (U : addresses) : option nat :=
  if universal_address_table_filled U <? Z.of_nat (length (universal_address_table U))
  then unused_loop (universal_address_table U) 0
  else None.

(** [pEntry->use_count++] and the count of used containers. *)
Definition count_up (U : addresses) (i : nat) (c : universal_address_container_t) : addresses :=
  let n := u8 (use_count c + 1) in
  let U := set_container i (Container n (address_size c) (address c)) U in
  if n =? 1 then set_filled (u32 (universal_address_table_filled U + 1)) U else U.

Definition universal_address_add (U : addresses) (addr : list Z) (addr_size : Z) : result (option nat * addresses) :=
  o ← universal_address_find_entry U addr addr_size;
  match o with
  | Some i => c ← container_at U (Some i); Ok (Some i, count_up U i c)
  | None =>
      match universal_address_get_next_unused_entry U with
      | None => Ok (None, U)
      | Some i =>
          c ← container_at U (Some i);
          let c := if negb (address_size c =? addr_size)
                   then Container 0 (u8 addr_size) (replicate 16 0)
                   else c in
          a ← memcpy (address c) 0 addr 0 addr_size;
          Ok (Some i, count_up U i (Container (use_count c) (address_size c) a))
      end
  end.

Definition universal_address_rem (U : addresses) (entry : option nat) : result addresses :=
  match entry with
  | None => Ok U
  | Some i =>
      c ← container_at U entry;
      if negb (use_count c =? 0) then
        let n := use_count c - 1 in
        let U := set_container i (Container n (address_size c) (address c)) U in
        Ok (if n =? 0 then set_filled (u32 (universal_address_table_filled U - 1)) U else U)
      else Ok U
  end.

(** Whether an address was stored, the buffer, and its new size. *)
Definition universal_address_get_address (U : addresses) (entry : option nat) (addr : list Z) (addr_size : Z)
    : result (bool * list Z * Z) :=
  c ← container_at U entry;
  if address_size c <=? addr_size then
    addr ← memcpy addr 0 (address c) 0 (address_size c);
    Ok (true, addr, address_size c)
  else Ok (false, addr, address_size c).

Fixpoint compare_loop (fuel : nat) (c : universal_address_container_t) (addr : list Z) (i idx : Z)
    (test_all_zeros : bool) : result (Z * bool) :=
  match fuel with
  | O => Fault OutOfFuel
  | S fuel =>
      if i <? address_size c then
        a ← aget (address c) i;
        idx ← (if idx =? -1 then b ← aget addr i; Ok (if negb (a =? b) then i else idx) else Ok idx);
        let test_all_zeros := if test_all_zeros then a =? 0 else test_all_zeros in
        if negb (idx =? -1) && negb test_all_zeros then Ok (idx, test_all_zeros)
        else compare_loop fuel c addr (i + 1) idx test_all_zeros
      else Ok (idx, test_all_zeros)
  end.

(** [for (j = 7; j > 0; --j) if ((xor >> j) & 0x01) break;] *)
Fixpoint top_bit (j : nat) (xor : Z) : Z :=
  match j with
  | O => 0
  | S j' => if negb (Z.land (Z.shiftr xor (Z.of_nat j)) 1 =? 0) then Z.of_nat j else top_bit j' xor
  end.

(** The result and the number of bits. *)
Definition universal_address_compare (U : addresses) (entry : option nat) (addr : list Z) (addr_size_in_bits : Z)
    : result (Z * Z) :=
  c ← container_at U entry;
  if negb (Z.shiftl (address_size c) 3 =? addr_size_in_bits) then Ok (- ENOENT, addr_size_in_bits)
  else
    '(idx, test_all_zeros) ← compare_loop 257 c addr 0 (-1) true;
    if (test_all_zeros : bool) then Ok (UNIVERSAL_ADDRESS_IS_ALL_ZERO_ADDRESS, 0)
    else if idx =? -1 then Ok (UNIVERSAL_ADDRESS_EQUAL, addr_size_in_bits)
    else
      a ← aget (address c) idx;
      b ← aget addr idx;
      Ok (UNIVERSAL_ADDRESS_MATCHING_PREFIX, Z.shiftl idx 3 + top_bit 7 (Z.lxor a b)).

(** The index of the last byte that is not 0, or -1. *)
Fixpoint last_nonzero (fuel : nat) (prefix : list Z) (i : Z) : result Z :=
  match fuel with
  | O => Fault OutOfFuel
  | S fuel =>
      if 0 <=? i then
        b ← aget prefix i;
        if negb (b =? 0) then Ok i else last_nonzero fuel prefix (i - 1)
      else Ok i
  end.

(** [0xff << j] as a byte, for the lowest bit [j] that is set, or 0. *)
Fixpoint low_mask (n : nat) (j : Z) (b : Z) : Z :=
  match n with
  | O => 0
  | S n => if negb (Z.land (Z.shiftr b j) 1 =? 0) then u8 (Z.shiftl 255 j) else low_mask n (j + 1) b
  end.

Fixpoint rest_zero (fuel : nat) (c : universal_address_container_t) (i : Z) : result bool :=
  match fuel with
  | O => Fault OutOfFuel
  | S fuel =>
      if i <? address_size c then
        a ← aget (address c) i;
        if negb (a =? 0) then Ok false else rest_zero fuel c (i + 1)
      else Ok true
  end.

Definition universal_address_compare_prefix (U : addresses) (entry : option nat) (prefix : list Z)
    (prefix_size_in_bits : Z) : result Z :=
  c ← container_at U entry;
  if negb (Z.shiftl (address_size c) 3 =? prefix_size_in_bits) then Ok (- ENOENT)
  else
    i ← last_nonzero 257 prefix (address_size c - 1);
    eq ← memcmp (address c) prefix (u32 i);
    if (eq : bool) then
      p ← aget prefix i;
      a ← aget (address c) i;
      let bitmask := low_mask 8 0 p in
      if Z.land a bitmask =? Z.land p bitmask then
        if negb (a =? p) then Ok UNIVERSAL_ADDRESS_MATCHING_PREFIX
        else
          z ← rest_zero 257 c (i + 1);
          Ok (if (z : bool) then UNIVERSAL_ADDRESS_EQUAL else UNIVERSAL_ADDRESS_MATCHING_PREFIX)
      else Ok (- ENOENT)
    else Ok (- ENOENT).

(** [universal_address_table_filled] keeps its value. *)
Definition universal_address_init (U : addresses) : addresses :=
  Addresses ((λ _, Container 0 0 (replicate 16 0)) <$> universal_address_table U) (universal_address_table_filled U).

Definition universal_address_reset (U : addresses) : addresses :=
  Addresses ((λ c, Container 0 (address_size c) (address c)) <$> universal_address_table U) 0.

Definition universal_address_get_num_used_entries (U : addresses) : Z := s32 (universal_address_table_filled U).

(** ** Comparing addresses *)

Definition content (c : universal_address_container_t) : list Z := take (Z.to_nat (address_size c)) (address c).

Definition zeros (a : list Z) : bool := forallb (Z.eqb 0) a.

(** The number of leading bytes that agree. *)
Fixpoint common (a b : list Z) : nat :=
  match a, b with
  | x :: a, y :: b => if x =? y then S (common a b) else O
  | _, _ => O
  end.

Record container_wf (c : universal_address_container_t) : Prop := {
  wf_length : length (address c) = 16%nat;
  wf_size : 0 <= address_size c <= 16
}.

Lemma content_length c : container_wf c → Z.of_nat (length (content c)) = address_size c.
Proof. intros [Hl Hs]. unfold content. rewrite length_take. lia. Qed.

Lemma content_app c : address c = content c ++ drop (Z.to_nat (address_size c)) (address c).
Proof. symmetry. apply take_drop. Qed.

Lemma zeros_replicate a : zeros a = true ↔ a = replicate (length a) 0.
Proof.
  induction a as [|x a IH]; [done|]. cbn -[Z.eqb]. rewrite andb_true_iff. unfold zeros in IH. rewrite IH, Z.eqb_eq. split.
  - intros [<- E]. by rewrite <- E.
  - by intros [= -> E].
Qed.

Lemma common_prefix a b n :
  (n <= length a)%nat → (n <= length b)%nat → (n <= common a b)%nat ↔ take n a = take n b.
Proof.
  revert b n. induction a as [|x a IH]; intros [|y b] n Ha Hb; simpl in *; [by replace n with O by lia..|].
  destruct n as [|n]; [split; [done|lia]|]. simpl. destruct (Z.eqb_spec x y) as [->|Hne].
  - rewrite <- Nat.succ_le_mono, IH by lia. split; [by intros ->|by intros [= ->]].
  - split; [lia|by intros [= ?]].
Qed.

Lemma common_lt a b : length a = length b → a ≠ b → (common a b < length a)%nat.
Proof.
  intros Hl Hne. destruct (decide (length a <= common a b)%nat) as [Hc|]; [|lia].
  apply common_prefix in Hc; [|lia..]. rewrite !firstn_all2 in Hc by lia. done.
Qed.

Lemma common_differ a b : length a = length b → a ≠ b → ∃ x y, a !! common a b = Some x ∧ b !! common a b = Some y ∧ x ≠ y.
Proof.
  revert b. induction a as [|x a IH]; intros [|y b] Hl Hne; simplify_eq/=. destruct (Z.eqb_spec x y) as [->|Hxy].
  - apply IH; [done|congruence].
  - by exists x, y.
Qed.

Lemma compare_loop_spec c addr suf : ∀ suf' pre pre' rest fuel idx z,
  address c = pre ++ suf ++ rest → addr = pre' ++ suf' → length pre = length pre' → length suf = length suf' →
  Z.of_nat (length pre + length suf) = address_size c → (length suf < fuel)%nat →
  compare_loop fuel c addr (Z.of_nat (length pre)) idx z =
    Ok (if idx =? -1 then if bool_decide (suf = suf') then -1 else Z.of_nat (length pre + common suf suf') else idx,
        z && zeros suf).
Proof.
  induction suf as [|x suf IH]; intros suf' pre pre' rest fuel idx z Ha Hd Hp Hs Hn Hf;
    (destruct fuel as [|fuel]; [simpl in Hf; lia|]); destruct suf' as [|y suf']; try done;
    cbn [compare_loop common length] in *.
  - rewrite (proj2 (Z.ltb_ge _ _)) by lia. rewrite bool_decide_eq_true_2 by done.
    unfold zeros. cbn [forallb]. rewrite andb_true_r. by destruct (Z.eqb_spec idx (-1)) as [->|].
  - change (zeros (x :: suf)) with ((0 =? x) && zeros suf).
    rewrite (proj2 (Z.ltb_lt _ _)) by lia. rewrite Ha, Hd. change ((x :: suf) ++ rest) with (x :: (suf ++ rest)).
    rewrite (aget_app pre (suf ++ rest) x) by done. rewrite (aget_app pre' suf' y) by lia. cbn [mbind result_bind].
    assert (∀ idx z, compare_loop fuel c (pre' ++ y :: suf') (Z.of_nat (length pre) + 1) idx z =
      Ok (if idx =? -1 then if bool_decide (suf = suf') then -1 else Z.of_nat (S (length pre) + common suf suf')
          else idx, z && zeros suf)) as Hnext.
    { intros idx' z'. rewrite <- Hd. replace (Z.of_nat (length pre) + 1) with (Z.of_nat (length (pre ++ [x])))
        by (rewrite length_app; simpl; lia).
      rewrite (IH suf' (pre ++ [x]) (pre' ++ [y]) rest fuel idx' z'); rewrite ?length_app; cbn [length]; try lia.
      - by rewrite (Nat.add_comm (length pre) 1).
      - by rewrite Ha, <- app_assoc.
      - by rewrite Hd, <- app_assoc. }
    destruct (Z.eqb_spec idx (-1)) as [->|Hidx]; cbn [mbind result_bind].
    + destruct (Z.eqb_spec x y) as [->|Hne]; cbn [negb andb].
      * cbn [Z.eqb Pos.eqb negb andb]. rewrite Hnext, Nat.add_succ_r, (Z.eqb_sym y 0).
        destruct (bool_decide_reflect (suf = suf')) as [->|Hne].
        -- rewrite bool_decide_eq_true_2 by done. by destruct z.
        -- rewrite bool_decide_eq_false_2 by congruence. by destruct z.
      * rewrite (bool_decide_eq_false_2 (x :: suf = y :: suf')) by congruence.
        rewrite Nat.add_0_r.
        assert ((Z.of_nat (length pre) =? -1) = false) as Hi by lia. rewrite Hi, (Z.eqb_sym x 0).
        destruct z, (0 =? x); cbn [negb andb]; rewrite ?Hnext, ?Hi; done.
    + assert ((idx =? -1) = false) as Hi by lia. rewrite Hi, (Z.eqb_sym x 0).
      destruct z, (0 =? x); cbn [negb andb]; rewrite ?Hnext, ?Hi; done.
Qed.

Lemma top_bit_bound j xor : 0 <= top_bit j xor <= Z.of_nat j.
Proof. induction j as [|j IH]; cbn [top_bit]; [lia|]. case_match; lia. Qed.

Lemma container_at_Some U i c : universal_address_table U !! i = Some c → container_at U (Some i) = Ok c.
Proof. intros E. unfold container_at. cbn. by rewrite E. Qed.

(** The number of bits a comparison reports for two different addresses. *)
Definition msize (a d : list Z) : Z :=
  Z.of_nat (common a d) * 8 + top_bit 7 (Z.lxor (a !!! common a d) (d !!! common a d)).

Lemma msize_bounds a d : Z.of_nat (common a d) * 8 <= msize a d <= Z.of_nat (common a d) * 8 + 7.
Proof. unfold msize. pose proof (top_bit_bound 7 (Z.lxor (a !!! common a d) (d !!! common a d))). lia. Qed.

(** What a comparison with an address of the same length returns. *)
Lemma universal_address_compare_spec U i c d :
  universal_address_table U !! i = Some c → container_wf c → Z.of_nat (length d) = address_size c →
  universal_address_compare U (Some i) d (Z.of_nat (length d) * 8) =
    Ok (if zeros (content c) then (UNIVERSAL_ADDRESS_IS_ALL_ZERO_ADDRESS, 0)
        else if bool_decide (content c = d) then (UNIVERSAL_ADDRESS_EQUAL, Z.of_nat (length d) * 8)
        else (UNIVERSAL_ADDRESS_MATCHING_PREFIX, msize (content c) d)).
Proof.
  intros Hi Hwf Hl. pose proof (content_length c Hwf) as Hcl. pose proof Hwf as [Hal Has].
  unfold universal_address_compare. rewrite (container_at_Some _ _ _ Hi), result_bind_Ok.
  rewrite Z.shiftl_mul_pow2 by lia. change (2 ^ 3) with 8. rewrite Hl, Z.eqb_refl. cbn [negb].
  change (compare_loop 257 c d 0) with (compare_loop 257 c d (Z.of_nat (length (A:=Z) []))).
  rewrite (compare_loop_spec c d (content c) d [] [] (drop (Z.to_nat (address_size c)) (address c)));
    [|by rewrite <- content_app|done|done|lia|simpl; lia|lia].
  cbn [length Nat.add andb]. rewrite result_bind_Ok, (Z.eqb_refl (-1)). destruct (zeros (content c)); [done|].
  destruct (bool_decide_reflect (content c = d)) as [He|Hne]; [done|].
  destruct (common_differ (content c) d) as (x & y & Hx & Hy & _); [lia|done|].
  assert ((Z.of_nat (common (content c) d) =? -1) = false) as -> by lia.
  rewrite (aget_Some (address c) _ x); [|lia|].
  2:{ rewrite Nat2Z.id, (content_app c), lookup_app_l by (eapply lookup_lt_Some, Hx). done. }
  rewrite (aget_Some d _ y); [|lia|by rewrite Nat2Z.id]. cbn [mbind result_bind]. unfold msize.
  rewrite (list_lookup_total_correct _ _ _ Hx), (list_lookup_total_correct _ _ _ Hy).
  by rewrite Z.shiftl_mul_pow2 by lia.
Qed.

Lemma universal_address_compare_size U i c d n :
  universal_address_table U !! i = Some c → address_size c * 8 ≠ n →
  universal_address_compare U (Some i) d n = Ok (- ENOENT, n).
Proof.
  intros Hi Hn. unfold universal_address_compare. rewrite (container_at_Some _ _ _ Hi), result_bind_Ok.
  rewrite Z.shiftl_mul_pow2 by lia. change (2 ^ 3) with 8. by rewrite (proj2 (Z.eqb_neq _ _) Hn).
Qed.

(** ** Containers and their users

    [refs i] is the number of pointers to container [i] that are in use. *)

Definition used (c : universal_address_container_t) : Prop := use_count c ≠ 0.

Record ua_inv (refs : nat → nat) (U : addresses) : Prop := {
  ua_container : ∀ i c, universal_address_table U !! i = Some c →
    container_wf c ∧ use_count c = Z.of_nat (refs i) ∧ (refs i < 256)%nat;
  ua_valid : ∀ i, refs i ≠ O → (i < length (universal_address_table U))%nat;
  ua_filled : universal_address_table_filled U = Z.of_nat (length (filter used (universal_address_table U)));
  ua_small : Z.of_nat (length (universal_address_table U)) < 4294967296
}.

Definition addr_at (U : addresses) (i : nat) : option (list Z) := content <$> universal_address_table U !! i.

Lemma ua_inv_ext refs refs' U : (∀ i, refs i = refs' i) → ua_inv refs U → ua_inv refs' U.
Proof.
  intros Hext [Hc Hv Hf Hs]. split; [|intros i; rewrite <- Hext; apply Hv|done|done].
  intros i c Hi. rewrite <- !Hext. by apply Hc.
Qed.

Lemma ua_lookup refs U i : ua_inv refs U → refs i ≠ O →
  ∃ c, universal_address_table U !! i = Some c ∧ container_wf c ∧ use_count c = Z.of_nat (refs i) ∧ (refs i < 256)%nat.
Proof.
  intros HU Hi. destruct (lookup_lt_is_Some_2 _ _ (ua_valid _ _ HU i Hi)) as [c Hc].
  exists c. split; [done|]. by apply (ua_container _ _ HU).
Qed.

Lemma ua_filled_le refs U : ua_inv refs U →
  0 <= universal_address_table_filled U <= Z.of_nat (length (universal_address_table U)).
Proof. intros HU. rewrite (ua_filled _ _ HU). pose proof (length_filter used (universal_address_table U)). lia. Qed.

Lemma find_entry_loop_spec table k d :
  (∀ i c, table !! i = Some c → container_wf c) → (length d <= 16)%nat →
  find_entry_loop table k d (Z.of_nat (length d)) =
    Ok ((λ p, (k + p.1)%nat) <$> list_find (λ c, content c = d) table).
Proof.
  intros Hwf Hd. revert k Hwf. induction table as [|c table IH]; intros k Hwf; [done|]. cbn [find_entry_loop list_find].
  destruct (Hwf O c eq_refl) as [Hl Hs].
  assert ((if address_size c =? Z.of_nat (length d) then memcmp (address c) d (Z.of_nat (length d)) else Ok false) =
    Ok (bool_decide (content c = d))) as ->.
  { destruct (Z.eqb_spec (address_size c) (Z.of_nat (length d))) as [E|Hne].
    - unfold memcmp, content. rewrite E, Nat2Z.id, (firstn_all d).
      by assert ((0 <=? Z.of_nat (length d)) && (Z.of_nat (length d) <=? Z.of_nat (length (address c)))
        && (Z.of_nat (length d) <=? Z.of_nat (length d)) = true) as -> by lia.
    - rewrite bool_decide_eq_false_2; [done|]. intros <-. apply Hne.
      unfold content. rewrite length_take. lia. }
  rewrite result_bind_Ok. destruct (bool_decide_reflect (content c = d)) as [E|Hne].
  - rewrite decide_True by done. simpl. by rewrite Nat.add_0_r.
  - rewrite decide_False, IH by (done || intros i; apply (Hwf (S i))). rewrite <- option_fmap_compose.
    f_equal. apply option_fmap_ext. intros [i x]. simpl. lia.
Qed.

Lemma unused_loop_spec table k :
  unused_loop table k = (λ p, (k + p.1)%nat) <$> list_find (λ c, use_count c = 0) table.
Proof.
  revert k. induction table as [|c table IH]; intros k; [done|]. cbn [unused_loop list_find].
  destruct (Z.eqb_spec (use_count c) 0).
  - rewrite decide_True by done. simpl. by rewrite Nat.add_0_r.
  - rewrite decide_False, IH by done. rewrite <- option_fmap_compose. apply option_fmap_ext. intros [i x]. simpl. lia.
Qed.

(** One more or one less of the elements that satisfy a predicate. *)
Lemma length_filter_insert {A} (P : A → Prop) `{!∀ x, Decision (P x)} (l : list A) i x y :
  l !! i = Some x →
  (length (filter P (<[i := y]> l)) + (if decide (P x) then 1 else 0) =
   length (filter P l) + (if decide (P y) then 1 else 0))%nat.
Proof.
  intros Hi. rewrite <- (take_drop_middle l i x Hi) at 2. rewrite insert_take_drop by (by eapply lookup_lt_Some).
  rewrite !filter_app, !length_app, !filter_cons. do 2 case_decide; simpl; lia.
Qed.

(** A container gets a new use count and perhaps a new address. *)
Lemma ua_inv_set refs U i c c' n :
  ua_inv refs U → universal_address_table U !! i = Some c → container_wf c' → use_count c' = Z.of_nat n →
  (n < 256)%nat →
  ua_inv (<[i := n]> refs)
    (Addresses (<[i := c']> (universal_address_table U))
               (Z.of_nat (length (filter used (<[i := c']> (universal_address_table U)))))).
Proof.
  intros HU Hi Hwf Hn Hlt. split; simpl.
  - intros j cj Hj. destruct (decide (j = i)) as [->|Hne].
    + rewrite list_lookup_insert_eq in Hj by (by eapply lookup_lt_Some). rewrite fn_lookup_insert.
      by simplify_eq.
    + rewrite list_lookup_insert_ne in Hj by done. rewrite fn_lookup_insert_ne by done.
      by apply (ua_container _ _ HU).
  - intros j. rewrite length_insert. destruct (decide (j = i)) as [->|Hne].
    + intros _. by eapply lookup_lt_Some.
    + rewrite fn_lookup_insert_ne by done. apply (ua_valid _ _ HU).
  - done.
  - rewrite length_insert. apply (ua_small _ _ HU).
Qed.

Lemma count_up_spec refs U i c c' :
  ua_inv refs U → universal_address_table U !! i = Some c → container_wf c' → use_count c' = use_count c →
  (refs i < 255)%nat →
  ua_inv (<[i := S (refs i)]> refs) (count_up U i c') ∧ addr_at (count_up U i c') i = Some (content c') ∧
  ∀ j, j ≠ i → addr_at (count_up U i c') j = addr_at U j.
Proof.
  intros HU Hi Hwf Hu Hlt. destruct (ua_container _ _ HU i c Hi) as (_ & Hn & _).
  set (c1 := Container (use_count c' + 1) (address_size c') (address c')).
  assert (universal_address_table (count_up U i c') = <[i := c1]> (universal_address_table U)) as Ht.
  { unfold count_up, c1, u8. rewrite Z.mod_small by lia. by case_match. }
  split; [|unfold addr_at; rewrite Ht; split].
  - replace (count_up U i c') with (Addresses (<[i := c1]> (universal_address_table U))
      (Z.of_nat (length (filter used (<[i := c1]> (universal_address_table U)))))).
    { eapply ua_inv_set; [done|done|by destruct Hwf|simpl; lia|lia]. }
    rewrite <- Ht. destruct (count_up U i c') as [t f] eqn:E. simpl. f_equal. simpl in Ht. subst t.
    pose proof (length_filter_insert used _ i c c1 Hi) as Hf. rewrite (decide_True (P := used c1)) in Hf
      by (unfold used, c1; simpl; lia). pose proof (ua_filled _ _ HU). pose proof (ua_filled_le _ _ HU).
    pose proof (ua_small _ _ HU). pose proof (length_filter used (<[i := c1]> (universal_address_table U))) as Hle.
    rewrite length_insert in Hle. unfold count_up, u8 in E. rewrite Z.mod_small in E by lia.
    destruct (Z.eqb_spec (use_count c' + 1) 1); injection E as <-.
    + rewrite decide_False in Hf by (unfold used; lia). unfold u32. rewrite Z.mod_small; simpl; lia.
    + rewrite decide_True in Hf by (unfold used; lia). simpl. lia.
  - rewrite list_lookup_insert_eq by (by eapply lookup_lt_Some). done.
  - intros j Hj. by rewrite list_lookup_insert_ne.
Qed.

(** Adding finds the address in a container or takes an unused one; containers
    in use keep their address. It fails when all containers are in use and none
    has the address. *)
Lemma universal_address_add_spec refs U d :
  ua_inv refs U → (length d <= 16)%nat → (∀ i, addr_at U i = Some d → refs i < 255)%nat →
  (universal_address_add U d (Z.of_nat (length d)) = Ok (None, U) ∧
   ∀ i, (i < length (universal_address_table U))%nat → refs i ≠ O ∧ addr_at U i ≠ Some d) ∨
  ∃ i U', universal_address_add U d (Z.of_nat (length d)) = Ok (Some i, U') ∧
    ua_inv (<[i := S (refs i)]> refs) U' ∧ addr_at U' i = Some d ∧ (∀ j, refs j ≠ O → addr_at U' j = addr_at U j) ∧
    (∀ j, j ≠ i → addr_at U' j = addr_at U j) ∧ (addr_at U i = Some d ∨ ∀ j, addr_at U j ≠ Some d).
Proof.
  intros HU Hd Hb. unfold universal_address_add, universal_address_find_entry.
  rewrite find_entry_loop_spec, result_bind_Ok; [|intros i c Hi; by apply (ua_container _ _ HU) in Hi as [? _]|done].
  destruct (list_find _ _) as [[i c]|] eqn:Ef; cbn [fmap option_fmap option_map fst Nat.add].
  { apply list_find_Some in Ef as (Hi & Hc & _). right. exists i, (count_up U i c).
    rewrite (container_at_Some _ _ _ Hi). destruct (ua_container _ _ HU i c Hi) as (Hwf & _).
    assert (addr_at U i = Some d) as Hid by (unfold addr_at; by rewrite Hi, <- Hc).
    destruct (count_up_spec refs U i c c HU Hi Hwf eq_refl (Hb i Hid)) as (Hinv & Ha & Ho).
    split; [done|]. split; [done|]. split; [by rewrite Ha, Hc|].
    split; [|split; [done|left; unfold addr_at; by rewrite Hi, <- Hc]]. intros j _.
    destruct (decide (j = i)) as [->|]; [|by apply Ho]. rewrite Ha. unfold addr_at. by rewrite Hi. }
  apply list_find_None in Ef. rewrite Forall_forall in Ef.
  assert (∀ j, addr_at U j ≠ Some d) as Hnew.
  { intros j. unfold addr_at. destruct (universal_address_table U !! j) as [c|] eqn:Hj; [|done]. intros [= E].
    by apply (Ef c (list_elem_of_lookup_2 _ _ _ Hj)). } unfold universal_address_get_next_unused_entry. rewrite unused_loop_spec.
  destruct (list_find (λ c, use_count c = 0) _) as [[i c]|] eqn:Eu; cbn [fmap option_fmap option_map fst Nat.add].
  - apply list_find_Some in Eu as (Hi & Hc & _). destruct (ua_container _ _ HU i c Hi) as (Hwf & Hn & _).
    assert (universal_address_table_filled U <? Z.of_nat (length (universal_address_table U)) = true) as ->.
    { rewrite (ua_filled _ _ HU). apply Z.ltb_lt, inj_lt, length_filter_lt with c; [by eapply list_elem_of_lookup_2|].
      unfold used. lia. }
    right. rewrite (container_at_Some _ _ _ Hi), result_bind_Ok.
    set (c1 := if negb (address_size c =? Z.of_nat (length d)) then Container 0 (u8 (Z.of_nat (length d))) (replicate 16 0)
               else c).
    assert (container_wf c1 ∧ use_count c1 = 0 ∧ address_size c1 = Z.of_nat (length d)) as ([Hl1 Hs1] & Hu1 & Hz1).
    { unfold c1. destruct (Z.eqb_spec (address_size c) (Z.of_nat (length d))); simpl; [done|].
      unfold u8. rewrite Z.mod_small by lia. split; [split; simpl; [done|lia]|done]. }
    clearbody c1. rewrite memcpy_Ok by lia. rewrite result_bind_Ok. set (c2 := Container _ _ _).
    assert (container_wf c2 ∧ content c2 = d) as [Hwf2 Hc2].
    { unfold c2, content. simpl. rewrite drop_0, Nat2Z.id, firstn_all, Hz1, Nat2Z.id. split; [split; simpl|].
      - rewrite length_app, length_drop. lia.
      - lia.
      - apply take_app_length'. done. }
    destruct (count_up_spec refs U i c c2 HU Hi Hwf2 ltac:(simpl; lia) ltac:(lia)) as (Hinv & Ha & Ho).
    exists i, (count_up U i c2). split; [done|]. split; [done|]. split; [by rewrite Ha, Hc2|].
    split; [|by split; [|right]]. intros j Hj. apply Ho. intros ->. lia.
  - apply list_find_None in Eu. left. split; [by destruct (_ <? _)|]. intros i Hi.
    destruct (lookup_lt_is_Some_2 _ _ Hi) as [c Hc]. rewrite Forall_forall in Eu.
    pose proof (list_elem_of_lookup_2 _ _ _ Hc) as Hin. destruct (ua_container _ _ HU i c Hc) as (_ & Hn & _).
    split; [intros E; apply (Eu c Hin); lia|apply Hnew].
Qed.

(** Removing a pointer that is in use; all containers keep their address. *)
Lemma universal_address_rem_spec refs U i :
  ua_inv refs U → refs i ≠ O →
  ∃ U', universal_address_rem U (Some i) = Ok U' ∧ ua_inv (<[i := (refs i - 1)%nat]> refs) U' ∧
    ∀ j, addr_at U' j = addr_at U j.
Proof.
  intros HU Hi. destruct (ua_lookup _ _ _ HU Hi) as (c & Hc & Hwf & Hn & Hlt).
  unfold universal_address_rem. rewrite (container_at_Some _ _ _ Hc), result_bind_Ok.
  assert ((use_count c =? 0) = false) as -> by lia. cbn [negb].
  set (c1 := Container (use_count c - 1) (address_size c) (address c)).
  match goal with |- ∃ _, Ok ?x = _ ∧ _ => set (U1 := x) end. exists U1. split; [done|].
  assert (U1 = Addresses (<[i := c1]> (universal_address_table U))
      (Z.of_nat (length (filter used (<[i := c1]> (universal_address_table U)))))) as ->.
  { pose proof (length_filter_insert used _ i c c1 Hc) as Hf. rewrite decide_True in Hf by (unfold used; lia).
    pose proof (ua_filled _ _ HU). pose proof (ua_filled_le _ _ HU). pose proof (ua_small _ _ HU).
    unfold U1, set_container, set_filled. simpl. destruct (Z.eqb_spec (use_count c - 1) 0).
    + rewrite decide_False in Hf by (unfold used, c1; simpl; lia). f_equal. unfold u32. rewrite Z.mod_small; lia.
    + rewrite decide_True in Hf by (unfold used, c1; simpl; lia). f_equal. lia. }
  split; [eapply ua_inv_set; [done|done|by destruct Hwf|simpl; lia|lia]|].
  intros j. unfold addr_at. simpl. destruct (decide (j = i)) as [->|]; [|by rewrite list_lookup_insert_ne].
  rewrite list_lookup_insert_eq by (by eapply lookup_lt_Some). by rewrite Hc.
Qed.

Lemma count_up_length U i c : length (universal_address_table (count_up U i c)) = length (universal_address_table U).
Proof. unfold count_up. case_match; simpl; apply length_insert. Qed.

(** The array of containers has a fixed size. *)
Lemma universal_address_add_length U d n p U' :
  universal_address_add U d n = Ok (p, U') → length (universal_address_table U') = length (universal_address_table U).
Proof.
  unfold universal_address_add. intros H. apply result_bind_inv in H as ([i|] & _ & H).
  - apply result_bind_inv in H as (c & _ & [= _ <-]). apply count_up_length.
  - destruct (universal_address_get_next_unused_entry U) as [i|]; [|by injection H as _ <-].
    apply result_bind_inv in H as (c & _ & H). apply result_bind_inv in H as (a & _ & [= _ <-]). apply count_up_length.
Qed.

Lemma universal_address_rem_length U p U' :
  universal_address_rem U p = Ok U' → length (universal_address_table U') = length (universal_address_table U).
Proof.
  unfold universal_address_rem. destruct p as [i|]; [|by intros [= <-]].
  intros H. apply result_bind_inv in H as (c & _ & H). destruct (use_count c =? 0); injection H as <-; [done|].
  case_match; apply length_insert.
Qed.

(** An address is read as it was added. *)
Lemma universal_address_get_address_spec refs U i d buf :
  ua_inv refs U → addr_at U i = Some d →
  universal_address_get_address U (Some i) buf (Z.of_nat (length buf)) =
    Ok (if (length d <=? length buf)%nat then (true, d ++ drop (length d) buf, Z.of_nat (length d))
        else (false, buf, Z.of_nat (length d))).
Proof.
  intros HU Hd. unfold addr_at in Hd. destruct (universal_address_table U !! i) as [c|] eqn:Hc; [|done].
  injection Hd as <-. destruct (ua_container _ _ HU i c Hc) as (Hwf & _). pose proof (content_length c Hwf) as Hl.
  destruct Hwf as [Hal Has]. unfold universal_address_get_address.
  rewrite (container_at_Some _ _ _ Hc), result_bind_Ok, <- Hl. destruct (Nat.leb_spec (length (content c)) (length buf)).
  - rewrite (proj2 (Z.leb_le _ _)) by lia. rewrite memcpy_Ok by lia. rewrite result_bind_Ok, drop_0.
    simpl take. rewrite app_nil_l, Z.add_0_l, Nat2Z.id. do 4 f_equal. unfold content at 2.
    f_equal. lia.
  - by rewrite (proj2 (Z.leb_gt _ _)) by lia.
Qed.
