(* ===== verification/AddressPool.v ===== *)
(** * Shared addresses

    The containers of universal_address.c under any sequence of calls by their
    users: they count their pointers, and equal addresses share a container. *)

From S2P Require Import Prelude Words UniversalAddress.
Open Scope Z_scope.

(** A user adds an address, or gives back the [k]-th pointer that is held. *)
Inductive request : Type :=
  | Take (d : list Z)
  | Drop (k : nat).

Definition request_ok (r : request) : Prop := match r with Take d => (length d <= 16)%nat | Drop _ => True end.

(** The pointers that are held, with the addresses they were got for. *)
Definition serve (r : request) (held : list (nat * list Z)) (U : addresses) : result (list (nat * list Z) * addresses) :=
  match r with
  | Take d =>
      '(p, U) ← universal_address_add U d (Z.of_nat (length d));
      Ok (match p with Some i => held ++ [(i, d)] | None => held end, U)
  | Drop k =>
      match held !! k with
      | Some (i, _) => U ← universal_address_rem U (Some i); Ok (delete k held, U)
      | None => Ok (held, U)
      end
  end.

Fixpoint serve_all (rs : list request) (held : list (nat * list Z)) (U : addresses)
    : result (list (nat * list Z) * addresses) :=
  match rs with
  | [] => Ok (held, U)
  | r :: rs => '(held, U) ← serve r held U; serve_all rs held U
  end.

Definition holds (held : list (nat * list Z)) (i : nat) : nat := length (filter (λ p, p.1 = i) held).

Record pool_ok (held : list (nat * list Z)) (U : addresses) : Prop := {
  pool_counts : ua_inv (holds held) U;
  pool_address : ∀ i d, (i, d) ∈ held → addr_at U i = Some d;
  pool_distinct : ∀ i j d, d ≠ [] → addr_at U i = Some d → addr_at U j = Some d → i = j
}.

Lemma holds_app held i d j : holds (held ++ [(i, d)]) j = <[i := S (holds held i)]> (holds held) j.
Proof.
  unfold holds at 1. rewrite filter_app, length_app, filter_cons, filter_nil. simpl. destruct (decide (i = j)) as [->|Hne].
  - rewrite fn_lookup_insert. simpl. unfold holds. lia.
  - rewrite fn_lookup_insert_ne by done. simpl. unfold holds. lia.
Qed.

Lemma holds_delete held k i d j : held !! k = Some (i, d) →
  holds (delete k held) j = <[i := (holds held i - 1)%nat]> (holds held) j.
Proof.
  intros Hk. assert (holds held j = if decide (i = j) then S (holds (delete k held) j) else holds (delete k held) j) as E.
  { unfold holds. rewrite (Permutation_length (filter_Permutation _ _ _ (delete_Permutation held k _ Hk))), filter_cons. simpl.
    by destruct (decide (i = j)). }
  destruct (decide (i = j)) as [->|Hne].
  - rewrite fn_lookup_insert, E. lia.
  - by rewrite fn_lookup_insert_ne.
Qed.

Lemma holds_elem held i d : (i, d) ∈ held → holds held i ≠ O.
Proof.
  intros Hin E. apply length_zero_iff_nil in E. assert ((i, d) ∈ filter (λ p, p.1 = i) held) as Hf by (by apply list_elem_of_filter).
  rewrite E in Hf. by apply not_elem_of_nil in Hf.
Qed.

(** The number of pointers that are held for an address. *)
Definition held_for (d : list Z) (held : list (nat * list Z)) : nat := length (filter (λ p, p.2 = d) held).

(** The pointers to a container are held for its address. *)
Lemma holds_for held U i d : pool_ok held U → addr_at U i = Some d → (holds held i <= held_for d held)%nat.
Proof.
  intros Hp Hi. unfold holds, held_for. apply submseteq_length, sublist_submseteq.
  pose proof (pool_address _ _ Hp) as Ha. clear Hp. induction held as [|[j d'] held IH]; [done|].
  assert (filter (λ p, p.1 = i) held `sublist_of` filter (λ p, p.2 = d) held) as Hs by (apply IH; intros; apply Ha; by right).
  rewrite !filter_cons. simpl. destruct (decide (j = i)) as [->|Hj].
  - assert (d' = d) as -> by (pose proof (Ha i d' ltac:(left)); congruence). rewrite decide_True by done. by apply sublist_skip.
  - destruct (decide (d' = d)); [by apply sublist_cons|done].
Qed.

(** A count of eight bits has room for another pointer. *)
Definition countable (r : request) (held : list (nat * list Z)) : Prop :=
  match r with Take d => (held_for d held < 255)%nat | Drop _ => True end.

(** It has in every state that a sequence of requests goes through. *)
Fixpoint all_countable (rs : list request) (held : list (nat * list Z)) (U : addresses) : Prop :=
  match rs with
  | [] => True
  | r :: rs => countable r held ∧
      match serve r held U with Ok (held, U) => all_countable rs held U | Fault _ => True end
  end.

Lemma serve_ok r held U : pool_ok held U → request_ok r → countable r held →
  ∃ held' U', serve r held U = Ok (held', U') ∧ pool_ok held' U'.
Proof.
  intros Hp Hr Hl. pose proof Hp as [HU Ha Hd]. destruct r as [d|k]; cbn [serve].
  - destruct (universal_address_add_spec (holds held) U d HU Hr) as [[E _]|(i & U' & E & HU' & Hi & Hs & Ho & Hn)].
    { intros i Hi. pose proof (holds_for held U i d Hp Hi). cbn [countable] in Hl. lia. }
    { rewrite E. by exists held, U. }
    rewrite E. exists (held ++ [(i, d)]), U'. split; [done|]. split.
    + eapply ua_inv_ext; [|exact HU']. intros j. symmetry. apply holds_app.
    + intros j d' Hj. apply elem_of_app in Hj as [Hj|Hj].
      * rewrite Hs by (by eapply holds_elem). by apply Ha.
      * apply list_elem_of_singleton in Hj. by simplify_eq.
    + intros j j' d' Hne Hj Hj'. destruct (decide (j = i)) as [->|Hji], (decide (j' = i)) as [->|Hji']; try done.
      * rewrite Ho in Hj' by done. destruct Hn as [Hn|Hn]; [|by destruct (Hn j'); simplify_eq]. apply (Hd i j' d'); [done| |done]. congruence.
      * rewrite Ho in Hj by done. destruct Hn as [Hn|Hn]; [|by destruct (Hn j); simplify_eq]. apply (Hd j i d'); [done|done|]. congruence.
      * rewrite Ho in Hj, Hj' by done. by eapply Hd.
  - destruct (held !! k) as [[i d]|] eqn:Hk; [|by exists held, U].
    destruct (universal_address_rem_spec (holds held) U i HU) as (U' & E & HU' & Hs);
      [by eapply holds_elem, list_elem_of_lookup_2|]. rewrite E. exists (delete k held), U'. split; [done|]. split.
    + eapply ua_inv_ext; [|exact HU']. intros j. symmetry. by eapply holds_delete.
    + intros j d' Hj. rewrite Hs. apply Ha. rewrite (delete_Permutation held k (i, d) Hk). by right.
    + intros j j' d' Hne. rewrite !Hs. by apply Hd.
Qed.

Lemma serve_length r held U held' U' : serve r held U = Ok (held', U') →
  length (universal_address_table U') = length (universal_address_table U).
Proof.
  destruct r as [d|k]; cbn [serve].
  - intros H. apply result_bind_inv in H as ([p U1] & E & [= _ <-]). by eapply universal_address_add_length.
  - destruct (held !! k) as [[i d]|]; [|by intros [= _ <-]]. intros H. apply result_bind_inv in H as (U1 & E & [= _ <-]).
    by eapply universal_address_rem_length.
Qed.

(** ** The number of containers in use *)

Lemma filter_positions {A} (P : A → Prop) `{!∀ x, Decision (P x)} (Q : nat → Prop) `{!∀ i, Decision (Q i)} (l : list A) k :
  (∀ i x, l !! i = Some x → P x ↔ Q (k + i)%nat) → length (filter P l) = length (filter Q (seq k (length l))).
Proof.
  revert k. induction l as [|x l IH]; intros k HPQ; [done|]. cbn [length seq]. rewrite !filter_cons.
  pose proof (HPQ O x eq_refl) as Hx. rewrite Nat.add_0_r in Hx.
  assert (length (filter P l) = length (filter Q (seq (S k) (length l)))) as E.
  { apply IH. intros i y Hi. rewrite (HPQ (S i) y Hi). by rewrite Nat.add_succ_comm. }
  destruct (decide (P x)), (decide (Q k)); simpl; [by f_equal|tauto|tauto|done].
Qed.

Lemma pool_filled held U : pool_ok held U → universal_address_table_filled U = Z.of_nat (length (remove_dups held.*1)).
Proof.
  intros [HU _ _]. rewrite (ua_filled _ _ HU). f_equal.
  rewrite (filter_positions used (λ i, holds held i ≠ O) _ 0).
  2:{ intros i c Hi. destruct (ua_container _ _ HU i c Hi) as (_ & Hn & _). unfold used. simpl. lia. }
  apply Permutation_length, NoDup_Permutation; [apply NoDup_filter, NoDup_seq|apply NoDup_remove_dups|].
  intros i. rewrite list_elem_of_filter, elem_of_remove_dups, list_elem_of_fmap, elem_of_seq. split.
  - intros [Hi _]. unfold holds in Hi. destruct (filter _ held) as [|p f] eqn:E; [done|].
    assert (p ∈ filter (λ p, p.1 = i) held) as Hp by (rewrite E; left). apply list_elem_of_filter in Hp as [<- Hp]. by exists p.
  - intros ([j d] & -> & Hj). pose proof (holds_elem held j d Hj). split; [done|]. simpl. pose proof (ua_valid _ _ HU j). lia.
Qed.

(** C15: Whatever addresses of at most 16 bytes are added and given back, as long
    as no address is added again while 255 pointers to it are held (the use count
    has eight bits) and the table has less than 2^31 containers, no call faults;
    every pointer that is still held refers to the address it was got for, equal
    addresses have the same pointer and different addresses different ones, the
    use counts are the numbers of pointers held, and the number of used
    containers is the number of different pointers. *)
Theorem containers_share_addresses rs held U :
  pool_ok held U → Forall request_ok rs → all_countable rs held U →
  Z.of_nat (length (universal_address_table U)) < 2147483648 →
  ∃ held' U', serve_all rs held U = Ok (held', U') ∧ pool_ok held' U' ∧
    (∀ p q, p ∈ held' → q ∈ held' → p.2 ≠ [] → p.1 = q.1 ↔ p.2 = q.2) ∧
    universal_address_get_num_used_entries U' = Z.of_nat (length (remove_dups held'.*1)).
Proof.
  intros Hp Hrs Hl Hs. revert held U Hp Hl Hs. induction Hrs as [|r rs Hr _ IH]; intros held U Hp Hl Hs.
  - exists held, U. split; [done|]. split; [done|]. split.
    + intros [i d] [j d'] Hi Hj Hne. apply (pool_address _ _ Hp) in Hi, Hj. simpl in *. split; [congruence|].
      intros ->. by eapply (pool_distinct _ _ Hp).
    + unfold universal_address_get_num_used_entries. rewrite (pool_filled held U Hp).
      pose proof (ua_filled_le _ _ (pool_counts _ _ Hp)) as Hf. rewrite (pool_filled held U Hp) in Hf.
      unfold s32. rewrite Z.mod_small; lia.
  - destruct Hl as [Hc Hl]. destruct (serve_ok r held U Hp Hr Hc) as (held1 & U1 & E & Hp1). rewrite E in Hl.
    destruct (IH held1 U1 Hp1 Hl) as (held' & U' & E' & H').
    { apply serve_length in E. by rewrite E. }
    exists held', U'. split; [cbn [serve_all]; by rewrite E|done].
Qed.

(** ** Witness *)

Definition empty_pool (N : nat) : addresses := Addresses (replicate N (Container 0 0 (replicate 16 0))) 0.

Lemma empty_pool_ok N : Z.of_nat N < 4294967296 → pool_ok [] (empty_pool N).
Proof.
  intros HN. split.
  - split; simpl.
    + intros i c Hi. apply lookup_replicate in Hi as [-> _]. split; [split; [done|simpl; lia]|]. split; [done|unfold holds; simpl; lia].
    + done.
    + rewrite filter_none; [done|]. apply Forall_replicate. unfold used. simpl. lia.
    + by rewrite length_replicate.
  - intros i d Hi. by apply not_elem_of_nil in Hi.
  - intros i j d Hne Hi. unfold addr_at in Hi. simpl in Hi. destruct (replicate N _ !! i) as [c|] eqn:E; [|done].
    apply lookup_replicate in E as [-> _]. by injection Hi as <-.
Qed.

(** Three addresses in two containers; a third one has to wait for a free container. *)
Definition demo_requests : list request := [Take [1; 2]; Take [3]; Take [1; 2]; Take [4]; Drop 1; Take [4; 4; 4]].

Lemma containers_share_addresses_witness :
  ∃ held' U', serve_all demo_requests [] (empty_pool 2) = Ok (held', U') ∧ pool_ok held' U' ∧
    (∀ p q, p ∈ held' → q ∈ held' → p.2 ≠ [] → p.1 = q.1 ↔ p.2 = q.2) ∧
    universal_address_get_num_used_entries U' = Z.of_nat (length (remove_dups held'.*1)).
Proof.
  apply (containers_share_addresses demo_requests [] (empty_pool 2)).
  - apply empty_pool_ok. lia.
  - repeat constructor; simpl; lia.
  - vm_compute. repeat split; lia.
  - simpl. lia.
Defined.

Example demo_requests_run :
  match serve_all demo_requests [] (empty_pool 2) with
  | Ok (held, U) => held = [(0%nat, [1; 2]); (0%nat, [1; 2]); (1%nat, [4; 4; 4])] ∧ use_count <$> universal_address_table U = [2; 1]
  | Fault _ => False
  end.
Proof. vm_compute. done. Qed.

(** The use count has eight bits: with 256 pointers to one address, its container
    counts as unused, and another address is stored in it. *)
Example use_count_wraps :
  match serve_all (replicate 256 (Take [1]) ++ [Take [2]]) [] (empty_pool 2) with
  | Ok (held, _) => head held = Some (0%nat, [1]) ∧ last held = Some (0%nat, [2])
  | Fault _ => False
  end.
Proof. vm_compute. done. Qed.
