(* ===== verification/Fib.v ===== *)
(** * sys/net/network_layer/fib: the forwarding information base

    The single-hop table of fib.c. A table is an array of entries or of source
    routes (FibSr models the functions on the latter); a pointer to an entry is
    its index, a pointer to an address the index of its container. The mutex of
    the table is a flag: locking it while it is held waits for ever, since every
    function that takes it runs in one go. [time k] is the value of the [k]-th
    call of [xtimer_now_usec64]. [msg_send_receive] to a routing protocol is an
    event in [sent]: the call holds the mutex, so the receiver cannot change the
    table before it replies. *)

From S2P Require Import Prelude Words UniversalAddress.
Open Scope Z_scope.

(** ** Data *)

Definition ENOMEM : Z := 12.
Definition EFAULT : Z := 14.
Definition EINVAL : Z := 22.
Definition ENOBUFS : Z := 105.
Definition EHOSTUNREACH : Z := 113.

Definition KERNEL_PID_UNDEF : Z := 0.
Definition US_PER_MS : Z := 1000.

Definition FIB_MAX_REGISTERED_RP : nat := 5.
Definition FIB_MSG_RP_SIGNAL_UNREACHABLE_DESTINATION : Z := 0x99.
Definition FIB_MSG_RP_SIGNAL_SOURCE_ROUTE_CREATED : Z := 0x97.
Definition FIB_LIFETIME_NO_EXPIRE : Z := 0xFFFFFFFFFFFFFFFF.
Definition FIB_FLAG_NET_PREFIX_SHIFT : Z := 24.
Definition FIB_FLAG_NET_PREFIX_MASK : Z := Z.shiftl 0xff FIB_FLAG_NET_PREFIX_SHIFT.

Record fib_entry_t : Type := Fib_entry {
  iface_id : Z;
  lifetime : Z;
  global_flags : Z;
  global : option nat;
  next_hop_flags : Z;
  next_hop : option nat
}.

Definition set_lifetime v e := Fib_entry (iface_id e) v (global_flags e) (global e) (next_hop_flags e) (next_hop e).
Definition set_global v e := Fib_entry (iface_id e) (lifetime e) (global_flags e) v (next_hop_flags e) (next_hop e).
Definition set_next_hop v e := Fib_entry (iface_id e) (lifetime e) (global_flags e) (global e) (next_hop_flags e) v.
Definition set_iface_id v e := Fib_entry v (lifetime e) (global_flags e) (global e) (next_hop_flags e) (next_hop e).
Definition set_global_flags v e := Fib_entry (iface_id e) (lifetime e) v (global e) (next_hop_flags e) (next_hop e).
Definition set_next_hop_flags v e := Fib_entry (iface_id e) (lifetime e) (global_flags e) (global e) v (next_hop e).

(** An entry after [memset] to 0. *)
Definition no_entry : fib_entry_t := Fib_entry KERNEL_PID_UNDEF 0 0 None 0 None.

Record fib_sr_entry_t : Type := Fib_sr_entry {
  sr_address : option nat;
  sr_next : option nat
}.

Record fib_sr_t : Type := Fib_sr {
  sr_iface_id : Z;
  sr_lifetime : Z;
  sr_flags : Z;
  sr_path : option nat;
  sr_dest : option nat
}.

(** The union [data], with its tag [table_type]. *)
Inductive table_data : Type :=
  | Entries (entries : list fib_entry_t)
  | Source_routes (headers : list fib_sr_t) (entry_pool : list fib_sr_entry_t).

(** What a routing protocol is told: an address that [dat] points to, or a
    source route of the table. *)
Inductive rp_content : Type :=
  | Rp_address (address : list Z) (address_size address_flags : Z)
  | Rp_source_route (sr : nat).

Record fib_table_t : Type := Fib_table {
  data : table_data;
  mtx_access : bool;
  notify_rp_pos : nat;
  notify_rp : list Z;
  prefix_rp : list (option nat)
}.

(** The table, the containers of addresses, the number of calls of
    [xtimer_now_usec64] and the messages to routing protocols so far. *)
Record world : Type := World {
  table : fib_table_t;
  ua : addresses;
  ticks : nat;
  sent : list (Z * Z * rp_content)
}.

Definition set_data d t := Fib_table d (mtx_access t) (notify_rp_pos t) (notify_rp t) (prefix_rp t).
Definition set_mtx_access b t := Fib_table (data t) b (notify_rp_pos t) (notify_rp t) (prefix_rp t).
Definition set_rp pos pids prefixes t := Fib_table (data t) (mtx_access t) pos pids prefixes.

Definition set_table t w := World t (ua w) (ticks w) (sent w).
Definition set_ua U w := World (table w) U (ticks w) (sent w).
Definition set_ticks n w := World (table w) (ua w) n (sent w).
Definition set_sent l w := World (table w) (ua w) (ticks w) l.

(** ** State and faults *)

Definition F (A : Type) : Type := world → result (A * world).

Global Instance F_ret : MRet F := fun A a w => Ok (a, w).
Global Instance F_bind : MBind F := fun A B f m w =>
  match m w with Ok (a, w) => f a w | Fault e => Fault e end.

Definition ffault {A} (e : fault) : F A := λ w, Fault e.
Definition fgets {A} (f : world → A) : F A := λ w, Ok (f w, w).
Definition fmodify (f : world → world) : F unit := λ w, Ok (tt, f w).
Definition flift {A} (r : result A) : F A := λ w, match r with Ok a => Ok (a, w) | Fault e => Fault e end.
Definition fwhen (b : bool) (m : F unit) : F unit := if b then m else mret tt.

(** A function of universal_address.c that reads or changes the containers. *)
Definition ua_get {A} (f : addresses → result A) : F A := λ w, flift (f (ua w)) w.
Definition ua_run {A} (f : addresses → result (A * addresses)) : F A :=
  λ w, match f (ua w) with Ok (a, U) => Ok (a, set_ua U w) | Fault e => Fault e end.
Definition ua_add (addr : list Z) (addr_size : Z) : F (option nat) :=
  ua_run (λ U, universal_address_add U addr addr_size).
Definition ua_rem (entry : option nat) : F unit :=
  ua_run (λ U, U ← universal_address_rem U entry; Ok (tt, U)).

Definition mutex_init : F unit := fmodify (λ w, set_table (set_mtx_access false (table w)) w).
Definition mutex_lock : F unit :=
  λ w, if mtx_access (table w) then Fault Deadlock else Ok (tt, set_table (set_mtx_access true (table w)) w).
Definition mutex_unlock : F unit := fmodify (λ w, set_table (set_mtx_access false (table w)) w).

(** The array [data.entries]. *)
Definition get_entries : F (list fib_entry_t) :=
  λ w, match data (table w) with Entries es => Ok (es, w) | _ => Fault BadPointer end.
Definition set_entries (es : list fib_entry_t) : F unit :=
  fmodify (λ w, set_table (set_data (Entries es) (table w)) w).
Definition get_entry (i : nat) : F fib_entry_t :=
  es ← get_entries; flift (from_option_or OutOfBounds (es !! i)).
Definition set_entry (i : nat) (e : fib_entry_t) : F unit :=
  es ← get_entries; set_entries (<[i := e]> es).

(** A buffer that is read byte by byte. *)
Fixpoint all_zeros_loop (fuel : nat) (dst : list Z) (i dst_size : Z) : result bool :=
  match fuel with
  | O => Fault OutOfFuel
  | S fuel =>
      if i <? dst_size then
        b ← aget dst i;
        if negb (b =? 0) then Ok false else all_zeros_loop fuel dst (i + 1) dst_size
      else Ok true
  end.

Section Fib.
Context (time : nat → Z).

(** ** The code *)

Definition xtimer_now_usec64 : F Z :=
  λ w, Ok (time (ticks w), set_ticks (S (ticks w)) w).

Definition fib_lifetime_to_absolute (ms : Z) : F Z :=
  now ← xtimer_now_usec64; mret (u64 (now + u32 (ms * US_PER_MS))).

(** The lifetime an entry gets. *)
Definition absolute_lifetime (lifetime : Z) : F Z :=
  if negb (lifetime =? u32 FIB_LIFETIME_NO_EXPIRE) then fib_lifetime_to_absolute lifetime
  else mret FIB_LIFETIME_NO_EXPIRE.

(** Entry [i] is removed if its lifetime expired. *)
Definition expire_entry (now : Z) (i : nat) : F unit :=
  e ← get_entry i;
  fwhen (negb (lifetime e =? FIB_LIFETIME_NO_EXPIRE) && (lifetime e <? now))
    (_ ← set_entry i (Fib_entry KERNEL_PID_UNDEF 0 0 (global e) 0 (next_hop e));
     _ ← fwhen (bool_decide (global e ≠ None))
           (_ ← ua_rem (global e); e ← get_entry i; set_entry i (set_global None e));
     fwhen (bool_decide (next_hop e ≠ None))
           (_ ← ua_rem (next_hop e); e ← get_entry i; set_entry i (set_next_hop None e))).

(** [prefix_size], [ret], [entry_arr[0]] and [count] after a comparison that is
    not an exact match. *)
Definition better_entry (ret_comp match_size flags : Z) (i : nat) (best : Z * Z * option nat * Z)
    : Z * Z * option nat * Z :=
  let '(prefix_size, ret, entry_arr, count) := best in
  if ret_comp =? UNIVERSAL_ADDRESS_MATCHING_PREFIX then
    if negb (Z.land flags FIB_FLAG_NET_PREFIX_MASK =? 0) then
      let global_prefix_len := Z.shiftr (Z.land flags FIB_FLAG_NET_PREFIX_MASK) FIB_FLAG_NET_PREFIX_SHIFT in
      if (global_prefix_len <=? match_size) && ((prefix_size =? 0) || (prefix_size <? match_size))
      then (match_size, 0, Some i, 1)
      else best
    else best
  else if ret_comp =? UNIVERSAL_ADDRESS_IS_ALL_ZERO_ADDRESS then
    if prefix_size =? 0 then (prefix_size, 0, Some i, 1) else best
  else best.

(** From entry [i] on, [n] entries: the result, [entry_arr[0]] and
    [*entry_arr_size]. *)
Fixpoint find_loop (n i : nat) (now : Z) (dst : list Z) (dst_size : Z) (is_all_zeros_addr : bool)
    (prefix_size match_size ret : Z) (entry_arr : option nat) (count : Z) : F (Z * option nat * Z) :=
  match n with
  | O => mret (ret, entry_arr, count)
  | S n =>
      _ ← expire_entry now i;
      e ← get_entry i;
      if (prefix_size <? u32 (Z.shiftl dst_size 3)) && bool_decide (global e ≠ None) then
        '(ret_comp, match_size) ← ua_get (λ U, universal_address_compare U (global e) dst match_size);
        if (ret_comp =? UNIVERSAL_ADDRESS_EQUAL)
           || (is_all_zeros_addr && (ret_comp =? UNIVERSAL_ADDRESS_IS_ALL_ZERO_ADDRESS)) then
          mret (1, Some i, 1)
        else
          let '(prefix_size, ret, entry_arr, count) :=
            better_entry ret_comp match_size (global_flags e) i (prefix_size, ret, entry_arr, count) in
          find_loop n (S i) now dst dst_size is_all_zeros_addr prefix_size (u32 (Z.shiftl dst_size 3))
            ret entry_arr count
      else find_loop n (S i) now dst dst_size is_all_zeros_addr prefix_size match_size ret entry_arr count
  end.

Definition fib_find_entry (dst : list Z) (dst_size : Z) : F (Z * option nat * Z) :=
  now ← xtimer_now_usec64;
  is_all_zeros_addr ← flift (all_zeros_loop (S (length dst)) dst 0 dst_size);
  es ← get_entries;
  find_loop (length es) 0 now dst dst_size is_all_zeros_addr 0 (u32 (Z.shiftl dst_size 3)) (- EHOSTUNREACH) None 0.

Definition fib_upd_entry (i : nat) (nh : list Z) (next_hop_size nh_flags life : Z) : F Z :=
  container ← ua_add nh next_hop_size;
  match container with
  | None => mret (- ENOMEM)
  | Some _ =>
      e ← get_entry i;
      _ ← ua_rem (next_hop e);
      _ ← set_entry i (set_next_hop_flags nh_flags (set_next_hop container e));
      life ← absolute_lifetime life;
      e ← get_entry i;
      _ ← set_entry i (set_lifetime life e);
      mret 0
  end.

(** The attempt to use entry [i], and whether it worked. *)
Definition create_at (i : nat) (iface : Z) (dst : list Z) (dst_size dst_flags : Z) (nh : list Z)
    (next_hop_size nh_flags life : Z) : F bool :=
  g ← ua_add dst dst_size;
  e ← get_entry i;
  _ ← set_entry i (set_global g e);
  _ ← fwhen (bool_decide (g ≠ None))
        (h ← ua_add nh next_hop_size;
         e ← get_entry i;
         set_entry i (set_next_hop_flags nh_flags (set_next_hop h (set_global_flags dst_flags e))));
  e ← get_entry i;
  if bool_decide (next_hop e ≠ None) then
    _ ← set_entry i (set_iface_id iface e);
    life ← absolute_lifetime life;
    e ← get_entry i;
    _ ← set_entry i (set_lifetime life e);
    mret true
  else mret false.

Fixpoint create_loop (n i : nat) (iface : Z) (dst : list Z) (dst_size dst_flags : Z) (nh : list Z)
    (next_hop_size nh_flags life : Z) : F Z :=
  match n with
  | O => mret (- ENOMEM)
  | S n =>
      e ← get_entry i;
      created ← (if lifetime e =? 0
                 then create_at i iface dst dst_size dst_flags nh next_hop_size nh_flags life
                 else mret false);
      if (created : bool) then mret 0
      else create_loop n (S i) iface dst dst_size dst_flags nh next_hop_size nh_flags life
  end.

Definition fib_create_entry (iface : Z) (dst : list Z) (dst_size dst_flags : Z) (nh : list Z)
    (next_hop_size nh_flags life : Z) : F Z :=
  es ← get_entries;
  create_loop (length es) 0 iface dst dst_size dst_flags nh next_hop_size nh_flags life.

Definition fib_remove (i : nat) : F unit :=
  e ← get_entry i;
  _ ← fwhen (bool_decide (global e ≠ None)) (ua_rem (global e));
  _ ← fwhen (bool_decide (next_hop e ≠ None)) (ua_rem (next_hop e));
  set_entry i no_entry.

(** [dat] is the address or the source route the signal is about, [addr] and
    [addr_size] the address that is compared with the prefixes. *)
Fixpoint signal_loop (pids : list Z) (prefixes : list (option nat)) (type : Z) (dat : rp_content)
    (addr : list Z) (addr_size ret : Z) : F Z :=
  match pids, prefixes with
  | pid :: pids, prefix :: prefixes =>
      ret ← (if negb (pid =? KERNEL_PID_UNDEF) then
               '(c, _) ← ua_get (λ U, universal_address_compare U prefix addr (u32 (Z.shiftl addr_size 3)));
               if negb (c =? - ENOENT) then
                 _ ← fmodify (λ w, set_sent (sent w ++ [(pid, type, dat)]) w);
                 mret 0
               else mret ret
             else mret ret);
      signal_loop pids prefixes type dat addr addr_size ret
  | _, _ => mret ret
  end.

Definition fib_signal_rp_address (type : Z) (dat : list Z) (dat_size dat_flags : Z) : F Z :=
  t ← fgets table;
  signal_loop (notify_rp t) (prefix_rp t) type (Rp_address dat dat_size dat_flags) dat dat_size (- ENOENT).

Definition fib_add_entry (iface : Z) (dst : option (list Z)) (dst_size dst_flags : Z) (nh : option (list Z))
    (next_hop_size nh_flags life : Z) : F Z :=
  _ ← mutex_lock;
  match dst, nh with
  | Some dst, Some nh =>
      '(ret, entry, count) ← fib_find_entry dst dst_size;
      ret ← (if ret =? 1 then
               i ← flift (from_option_or BadPointer entry);
               fib_upd_entry i nh next_hop_size nh_flags life
             else fib_create_entry iface dst dst_size dst_flags nh next_hop_size nh_flags life);
      _ ← mutex_unlock;
      mret ret
  | _, _ => _ ← mutex_unlock; mret (- EFAULT)
  end.

Definition fib_update_entry (dst : option (list Z)) (dst_size : Z) (nh : option (list Z))
    (next_hop_size nh_flags life : Z) : F Z :=
  _ ← mutex_lock;
  match dst, nh with
  | Some dst, Some nh =>
      '(ret, entry, count) ← fib_find_entry dst dst_size;
      ret ← (if ret =? 1 then
               i ← flift (from_option_or BadPointer entry);
               fib_upd_entry i nh next_hop_size nh_flags life
             else mret (- ENOMEM));
      _ ← mutex_unlock;
      mret ret
  | _, _ => _ ← mutex_unlock; mret (- EFAULT)
  end.

Definition fib_remove_entry (dst : list Z) (dst_size : Z) : F unit :=
  _ ← mutex_lock;
  '(ret, entry, count) ← fib_find_entry dst dst_size;
  _ ← fwhen (ret =? 1) (i ← flift (from_option_or BadPointer entry); fib_remove i);
  mutex_unlock.

Fixpoint flush_loop (n i : nat) (interface : Z) : F unit :=
  match n with
  | O => mret tt
  | S n =>
      e ← get_entry i;
      _ ← fwhen ((interface =? KERNEL_PID_UNDEF) || (interface =? iface_id e)) (fib_remove i);
      flush_loop n (S i) interface
  end.

Definition fib_flush (interface : Z) : F unit :=
  _ ← mutex_lock;
  es ← get_entries;
  _ ← flush_loop (length es) 0 interface;
  mutex_unlock.

(** The result and what is behind the out-pointers, where they are not [NULL]. *)
Record next_hop_t : Type := Next_hop {
  nh_iface_id : option Z;
  nh_next_hop : option (list Z);
  nh_size : option Z;
  nh_flags : option Z
}.

Definition fib_get_next_hop (out : next_hop_t) (dst : option (list Z)) (dst_size dst_flags : Z)
    : F (Z * next_hop_t) :=
  _ ← mutex_lock;
  match nh_iface_id out, nh_size out, nh_flags out with
  | Some _, Some size, Some _ =>
      match dst, nh_next_hop out with
      | Some dst, Some buf =>
          '(ret, entry, count) ← fib_find_entry dst dst_size;
          '(ret, entry) ←
            (if negb ((ret =? 0) || (ret =? 1)) then
               s ← fib_signal_rp_address FIB_MSG_RP_SIGNAL_UNREACHABLE_DESTINATION dst dst_size dst_flags;
               if s =? 0 then
                 '(ret, entry, count) ← fib_find_entry dst dst_size; mret (ret, entry)
               else mret (ret, entry)
             else mret (ret, entry));
          if (ret =? 0) || (ret =? 1) then
            i ← flift (from_option_or BadPointer entry);
            e ← get_entry i;
            '(stored, buf, size) ← ua_get (λ U, universal_address_get_address U (next_hop e) buf size);
            _ ← mutex_unlock;
            if (stored : bool)
            then mret (0, Next_hop (Some (iface_id e)) (Some buf) (Some size) (Some (next_hop_flags e)))
            else mret (- ENOBUFS, Next_hop (nh_iface_id out) (Some buf) (Some size) (nh_flags out))
          else _ ← mutex_unlock; mret (- EHOSTUNREACH, out)
      | _, _ => _ ← mutex_unlock; mret (- EFAULT, out)
      end
  | _, _, _ => _ ← mutex_unlock; mret (- EINVAL, out)
  end.

Record fib_destination_set_entry_t : Type := Fib_destination_set_entry {
  dest : list Z;
  dest_size : Z
}.

Fixpoint destination_loop (n i : nat) (prefix : list Z) (prefix_size : Z)
    (dst_set : option (list fib_destination_set_entry_t)) (dst_set_size found_entries : Z)
    : F (option (list fib_destination_set_entry_t) * Z) :=
  match n with
  | O => mret (dst_set, found_entries)
  | S n =>
      e ← get_entry i;
      c ← (if bool_decide (global e ≠ None)
           then ua_get (λ U, universal_address_compare_prefix U (global e) prefix (u32 (Z.shiftl prefix_size 3)))
           else mret (- ENOENT));
      if bool_decide (global e ≠ None) && (UNIVERSAL_ADDRESS_EQUAL <=? c) then
        dst_set ←
          match dst_set with
          | Some set =>
              if found_entries <? dst_set_size then
                d ← flift (aget set found_entries);
                '(_, a, s) ← ua_get (λ U, universal_address_get_address U (global e) (dest d) 16);
                set ← flift (aset set found_entries (Fib_destination_set_entry a s));
                mret (Some set)
              else mret dst_set
          | None => mret dst_set
          end;
        destination_loop n (S i) prefix prefix_size dst_set dst_set_size (found_entries + 1)
      else destination_loop n (S i) prefix prefix_size dst_set dst_set_size found_entries
  end.

(** The result, [dst_set] and [*dst_set_size]. *)
Definition fib_get_destination_set (prefix : list Z) (prefix_size : Z)
    (dst_set : option (list fib_destination_set_entry_t)) (dst_set_size : Z)
    : F (Z * option (list fib_destination_set_entry_t) * Z) :=
  _ ← mutex_lock;
  es ← get_entries;
  '(dst_set, found_entries) ← destination_loop (length es) 0 prefix prefix_size dst_set dst_set_size 0;
  _ ← mutex_unlock;
  mret (if dst_set_size <? found_entries then - ENOBUFS else if 0 <? found_entries then 0 else - EHOSTUNREACH,
        dst_set, found_entries).

(** [memset] of the entries, or of the headers and the pool, to 0. *)
Definition clear_data (d : table_data) : table_data :=
  match d with
  | Entries es => Entries ((λ _, no_entry) <$> es)
  | Source_routes hs pool =>
      Source_routes ((λ _, Fib_sr KERNEL_PID_UNDEF 0 0 None None) <$> hs) ((λ _, Fib_sr_entry None None) <$> pool)
  end.

(** No routing protocol, and an empty table. *)
Definition clear_table : F unit :=
  fmodify (λ w, set_table (set_rp 0 (replicate FIB_MAX_REGISTERED_RP KERNEL_PID_UNDEF)
                                    (replicate FIB_MAX_REGISTERED_RP None)
                                    (set_data (clear_data (data (table w))) (table w))) w).

Definition fib_init : F unit :=
  _ ← mutex_init;
  _ ← mutex_lock;
  _ ← clear_table;
  _ ← fmodify (λ w, set_ua (universal_address_init (ua w)) w);
  mutex_unlock.

Definition fib_deinit : F unit :=
  _ ← mutex_lock;
  _ ← clear_table;
  _ ← fmodify (λ w, set_ua (universal_address_reset (ua w)) w);
  mutex_unlock.

Definition fib_register_rp (sched_active_pid : Z) (prefix : option (list Z)) (prefix_addr_type_size : Z) : F Z :=
  _ ← mutex_lock;
  t ← fgets table;
  let pos := notify_rp_pos t in
  if (FIB_MAX_REGISTERED_RP <=? pos)%nat then _ ← mutex_unlock; mret (- ENOMEM)
  else
    match prefix with
    | None => _ ← mutex_unlock; mret (- EINVAL)
    | Some prefix =>
        if prefix_addr_type_size =? 0 then _ ← mutex_unlock; mret (- EINVAL)
        else
          container ← ua_add prefix prefix_addr_type_size;
          _ ← fmodify (λ w, set_table (set_rp (S pos) (<[pos := sched_active_pid]> (notify_rp (table w)))
                                                (<[pos := container]> (prefix_rp (table w))) (table w)) w);
          _ ← mutex_unlock;
          mret 0
    end.

Definition fib_get_num_used_entries : F Z :=
  _ ← mutex_lock;
  es ← get_entries;
  _ ← mutex_unlock;
  mret (Z.of_nat (length (filter (λ e, global e ≠ None) es))).

(** The lifetime of an exact match of a single-hop table. *)
Definition fib_devel_get_lifetime (dst : list Z) (dst_size : Z) : F (Z * option Z) :=
  '(ret, entry, count) ← fib_find_entry dst dst_size;
  if ret =? 1 then
    i ← flift (from_option_or BadPointer entry);
    e ← get_entry i;
    mret (0, Some (lifetime e))
  else mret (- EHOSTUNREACH, None).

End Fib.
