(* ===== verification/FibInv.v ===== *)
(** * The invariant of the forwarding table

    Every pointer of the table to a container is counted in its use count; an
    entry that is not used has no next hop; the addresses of used entries are
    different. The lemmas say what the functions on single entries do. *)

From S2P Require Import Prelude Words UniversalAddress Fib.
Open Scope Z_scope.

(** ** Running the monad *)

Lemma fbind_Ok {A B} (m : F A) (k : A → F B) w a w' : m w = Ok (a, w') → (m ≫= k) w = k a w'.
Proof. intros E. unfold mbind, F_bind. by rewrite E. Qed.

Ltac fstep H := rewrite (fbind_Ok _ _ _ _ _ H); cbn [fst snd].

(** A pointer that was set. *)
Lemma deref_Ok {A} f (x : A) w : flift (from_option_or f (Some x)) w = Ok (x, w).
Proof. done. Qed.

(** The world with other entries and other containers. *)
Definition upd (es : list fib_entry_t) (U : addresses) (w : world) : world :=
  set_ua U (set_table (set_data (Entries es) (table w)) w).

Record w_is (w : world) (es : list fib_entry_t) (U : addresses) : Prop := {
  w_entries : data (table w) = Entries es;
  w_ua : ua w = U
}.

Lemma upd_is es U w : w_is (upd es U w) es U.
Proof. done. Qed.
Lemma upd_upd es U es' U' w : upd es U (upd es' U' w) = upd es U w.
Proof. done. Qed.
Lemma upd_id es U w : w_is w es U → upd es U w = w.
Proof. destruct w as [[d m p n r] U' k s]. intros [E1 E2]. simpl in *. by subst. Qed.

Section Run.
Context {w : world} {es : list fib_entry_t} {U : addresses} (Hw : w_is w es U).

Lemma get_entries_Ok : get_entries w = Ok (es, w).
Proof. unfold get_entries. by rewrite (w_entries _ _ _ Hw). Qed.

Lemma get_entry_Ok i e : es !! i = Some e → get_entry i w = Ok (e, w).
Proof. intros Hi. unfold get_entry. fstep get_entries_Ok. by rewrite Hi. Qed.

Lemma set_entry_Ok i e : set_entry i e w = Ok (tt, upd (<[i := e]> es) U w).
Proof.
  unfold set_entry. fstep get_entries_Ok. unfold set_entries, fmodify. do 2 f_equal.
  rewrite <- (w_ua _ _ _ Hw). by destruct w.
Qed.

Lemma ua_add_Ok d n p U' : universal_address_add U d n = Ok (p, U') → ua_add d n w = Ok (p, upd es U' w).
Proof.
  intros E. unfold ua_add, ua_run. rewrite (w_ua _ _ _ Hw), E. do 2 f_equal.
  rewrite <- (upd_id _ _ _ Hw) at 1. done.
Qed.

Lemma ua_rem_Ok p U' : universal_address_rem U p = Ok U' → ua_rem p w = Ok (tt, upd es U' w).
Proof.
  intros E. unfold ua_rem, ua_run. rewrite (w_ua _ _ _ Hw), E. simpl. do 2 f_equal.
  rewrite <- (upd_id _ _ _ Hw) at 1. done.
Qed.

Lemma ua_get_Ok {A} (f : addresses → result A) a : f U = Ok a → ua_get f w = Ok (a, w).
Proof. intros E. unfold ua_get. by rewrite (w_ua _ _ _ Hw), E. Qed.

End Run.

(** ** Counting pointers *)

Definition points (p : option nat) (i : nat) : nat := if decide (p = Some i) then 1%nat else 0%nat.

(** How many of the pointers are to container [i]. *)
Definition nrefs (ps : list (option nat)) (i : nat) : nat := length (filter (λ p, p = Some i) ps).

Lemma nrefs_insert ps k p p' i : ps !! k = Some p → (nrefs (<[k := p']> ps) i + points p i = nrefs ps i + points p' i)%nat.
Proof. intros Hk. exact (length_filter_insert (λ q, q = Some i) ps k p p' Hk). Qed.

Lemma nrefs_fmap_insert (f : fib_entry_t → option nat) es k e e' i :
  es !! k = Some e → (nrefs (f <$> <[k := e']> es) i + points (f e) i = nrefs (f <$> es) i + points (f e') i)%nat.
Proof. intros Hk. rewrite list_fmap_insert. apply nrefs_insert. by rewrite list_lookup_fmap, Hk. Qed.

Lemma nrefs_elem ps k i : ps !! k = Some (Some i) → nrefs ps i ≠ O.
Proof.
  intros Hk. pose proof (nrefs_insert ps k (Some i) None i Hk) as E. unfold points in E.
  rewrite decide_True, decide_False in E by done. lia.
Qed.

Lemma points_Some i : points (Some i) i = 1%nat.
Proof. unfold points. by rewrite decide_True. Qed.

Lemma points_None i : points None i = O.
Proof. done. Qed.

Lemma nrefs_le ps i : (nrefs ps i <= length ps)%nat.
Proof. apply length_filter. Qed.

Definition same_addrs (refs : nat → nat) (U U' : addresses) : Prop := ∀ i, refs i ≠ O → addr_at U' i = addr_at U i.

(** No container has got another address. *)
Definition same_table (U U' : addresses) : Prop :=
  length (universal_address_table U') = length (universal_address_table U) ∧ ∀ i, addr_at U' i = addr_at U i.

Lemma same_table_refl U : same_table U U.
Proof. done. Qed.
Lemma same_table_trans U U' U'' : same_table U U' → same_table U' U'' → same_table U U''.
Proof. intros [Hl Ha] [Hl' Ha']. split; [congruence|]. intros i. by rewrite Ha', Ha. Qed.

Lemma release refs U p :
  ua_inv refs U → (∀ i, p = Some i → refs i ≠ O) →
  ∃ U', universal_address_rem U p = Ok U' ∧ ua_inv (λ i, (refs i - points p i)%nat) U' ∧ same_table U U'.
Proof.
  intros HU Hp. destruct p as [i|].
  - destruct (universal_address_rem_spec refs U i HU (Hp i eq_refl)) as (U' & E & HU' & Ha).
    exists U'. split; [done|]. split; [|split; [by eapply universal_address_rem_length|done]].
    eapply ua_inv_ext; [|exact HU']. intros j. simpl. unfold points. destruct (decide (j = i)) as [->|].
    + by rewrite fn_lookup_insert, decide_True.
    + rewrite fn_lookup_insert_ne, decide_False by congruence. lia.
  - exists U. split; [done|]. split; [|done]. eapply ua_inv_ext; [|exact HU]. intros j. unfold points.
    rewrite decide_False by done. lia.
Qed.

Lemma acquire refs U d :
  ua_inv refs U → (length d <= 16)%nat → (∀ i, refs i < 255)%nat →
  ∃ p U', universal_address_add U d (Z.of_nat (length d)) = Ok (p, U') ∧
    ua_inv (λ i, (refs i + points p i)%nat) U' ∧ same_addrs refs U U' ∧
    length (universal_address_table U') = length (universal_address_table U) ∧
    match p with
    | Some i => addr_at U' i = Some d
    | None => U' = U ∧ ∀ i, (i < length (universal_address_table U))%nat → refs i ≠ O
    end.
Proof.
  intros HU Hd Hb. destruct (universal_address_add_spec refs U d HU Hd (λ i _, Hb i)) as [[E Hfull]|(i & U' & E & HU' & Hi & Ha & _)].
  - exists None, U. split; [done|]. split; [|split; [by intros ??|split; [done|split; [done|intros i Hi; by apply Hfull]]]].
    eapply ua_inv_ext; [|exact HU]. intros j. unfold points. rewrite decide_False by done. lia.
  - exists (Some i), U'. split; [done|]. split; [|split; [done|split; [by eapply universal_address_add_length|done]]].
    eapply ua_inv_ext; [|exact HU']. intros j. simpl. unfold points.
    destruct (decide (j = i)) as [->|].
    + rewrite fn_lookup_insert, decide_True by done. lia.
    + rewrite fn_lookup_insert_ne, decide_False by congruence. lia.
Qed.

(** ** Routes *)

Record route : Type := Route {
  r_flags : Z;
  r_next_hop : list Z;
  r_next_hop_flags : Z;
  r_iface : Z;
  r_expiry : Z
}.

(** The destination and the route an entry stands for. *)
Definition entry_route (U : addresses) (e : fib_entry_t) : option (list Z * route) :=
  if lifetime e =? 0 then None
  else
    a ← global e ≫= addr_at U;
    h ← next_hop e ≫= addr_at U;
    Some (a, Route (global_flags e) h (next_hop_flags e) (iface_id e) (lifetime e)).

Definition entry_used (e : fib_entry_t) : Prop :=
  lifetime e ≠ 0 ∧ is_Some (global e) ∧ is_Some (next_hop e).

(** An entry with lifetime 0 can have been left with a destination only. *)
Definition entry_ok (e : fib_entry_t) : Prop :=
  0 <= lifetime e <= FIB_LIFETIME_NO_EXPIRE ∧ (entry_used e ∨ lifetime e = 0 ∧ next_hop e = None).

Section Inv.
(** The pointers other users of containers have, and those of the table to the
    prefixes of routing protocols. *)
Context (others : nat → nat) (rps : list (option nat)).

Definition refs (es : list fib_entry_t) (i : nat) : nat :=
  (others i + nrefs rps i + nrefs (global <$> es) i + nrefs (next_hop <$> es) i)%nat.

Record fib_inv (es : list fib_entry_t) (U : addresses) : Prop := {
  inv_ua : ua_inv (refs es) U;
  inv_entry : ∀ i e, es !! i = Some e → entry_ok e;
  inv_unique : ∀ i j e e' a r r', es !! i = Some e → es !! j = Some e' →
    entry_route U e = Some (a, r) → entry_route U e' = Some (a, r') → i = j;
  inv_room : ∀ i, (others i + length rps + 2 * length es < 254)%nat
}.

Lemma refs_lt es i : (∀ i, others i + length rps + 2 * length es < 254)%nat → (refs es i < 254)%nat.
Proof.
  intros Hb. specialize (Hb i). unfold refs. pose proof (nrefs_le rps i). pose proof (nrefs_le (global <$> es) i) as H1.
  pose proof (nrefs_le (next_hop <$> es) i) as H2. rewrite length_fmap in H1, H2. lia.
Qed.

Lemma refs_insert es k e e' i : es !! k = Some e →
  (refs (<[k := e']> es) i + points (global e) i + points (next_hop e) i =
   refs es i + points (global e') i + points (next_hop e') i)%nat.
Proof.
  intros Hk. unfold refs. pose proof (nrefs_fmap_insert global es k e e' i Hk).
  pose proof (nrefs_fmap_insert next_hop es k e e' i Hk). lia.
Qed.

Lemma refs_clear es k e i : es !! k = Some e →
  (refs (<[k := no_entry]> es) i + points (global e) i + points (next_hop e) i = refs es i)%nat.
Proof. intros Hk. rewrite (refs_insert es k e no_entry i Hk). simpl. rewrite points_None. lia. Qed.

Lemma refs_global es k e i : es !! k = Some e → global e = Some i → refs es i ≠ O.
Proof.
  intros Hk Hg. unfold refs. assert (nrefs (global <$> es) i ≠ O); [|lia].
  eapply (nrefs_elem _ k). by rewrite list_lookup_fmap, Hk; simpl; rewrite Hg.
Qed.

Lemma refs_next_hop es k e i : es !! k = Some e → next_hop e = Some i → refs es i ≠ O.
Proof.
  intros Hk Hg. unfold refs. assert (nrefs (next_hop <$> es) i ≠ O); [|lia].
  eapply (nrefs_elem _ k). by rewrite list_lookup_fmap, Hk; simpl; rewrite Hg.
Qed.

(** The route of an entry depends on the containers it points to. *)
Lemma entry_route_same es U U' k e :
  es !! k = Some e → same_addrs (refs es) U U' → entry_route U' e = entry_route U e.
Proof.
  intros Hk Hs. unfold entry_route. case_match; [done|].
  assert (∀ p, (∀ i, p = Some i → refs es i ≠ O) → (p ≫= addr_at U') = p ≫= addr_at U) as Hp.
  { intros [i|] Hi; [|done]. simpl. by apply Hs, Hi. }
  rewrite !Hp; [done|..]; intros i Hi; [by eapply refs_global|by eapply refs_next_hop].
Qed.

Lemma entry_route_used U es k e : fib_inv es U → es !! k = Some e →
  entry_used e ↔ is_Some (entry_route U e).
Proof.
  intros Hinv Hk. unfold entry_used, entry_route. split.
  - intros (Hl & [g Hg] & [h Hh]). rewrite (proj2 (Z.eqb_neq _ _) Hl), Hg, Hh. simpl.
    destruct (ua_lookup _ _ _ (inv_ua _ _ Hinv) (refs_global _ _ _ _ Hk Hg)) as (c & Hc & _).
    destruct (ua_lookup _ _ _ (inv_ua _ _ Hinv) (refs_next_hop _ _ _ _ Hk Hh)) as (c' & Hc' & _).
    unfold addr_at. rewrite Hc, Hc'. by eexists.
  - intros [x Hx]. destruct (Z.eqb_spec (lifetime e) 0); [done|]. split; [done|].
    destruct (global e) as [g|]; [|done]. destruct (next_hop e) as [h|]; [by eauto|].
    simpl in Hx. by destruct (addr_at U g).
Qed.

(** ** Updates of an entry *)

(** One entry gets other pointers, which the containers account for, and is not
    a used entry with the address of another one. *)
Lemma fib_inv_insert es U U' k e e' :
  fib_inv es U → es !! k = Some e → entry_ok e' →
  ua_inv (refs (<[k := e']> es)) U' →
  (∀ j ej, j ≠ k → es !! j = Some ej → entry_route U' ej = entry_route U ej) →
  (∀ a r j ej r', entry_route U' e' = Some (a, r) → j ≠ k → es !! j = Some ej → entry_route U ej ≠ Some (a, r')) →
  fib_inv (<[k := e']> es) U'.
Proof.
  intros Hinv Hk He' HU' Hsame Hnew. split; [done| | |].
  - intros i e1. rewrite list_lookup_insert_Some. intros [(-> & -> & _)|[_ Hi]]; [done|by eapply inv_entry].
  - intros i j e1 e2 a r r'. rewrite !list_lookup_insert_Some.
    intros [(-> & -> & _)|[Hki Hi]] [(-> & -> & _)|[Hkj Hj]] H1 H2; [done|..].
    + rewrite (Hsame j e2) in H2 by done. by destruct (Hnew a r j e2 r' H1 ltac:(done) Hj).
    + rewrite (Hsame i e1) in H1 by done. by destruct (Hnew a r' i e1 r H2 ltac:(done) Hi).
    + rewrite (Hsame i e1) in H1 by done. rewrite (Hsame j e2) in H2 by done. by eapply inv_unique.
  - rewrite length_insert. apply (inv_room _ _ Hinv).
Qed.

(** Giving up both pointers of an entry. *)
Lemma release_entry es U k e :
  fib_inv es U → es !! k = Some e →
  ∃ U1 U2, universal_address_rem U (global e) = Ok U1 ∧ universal_address_rem U1 (next_hop e) = Ok U2 ∧
    fib_inv (<[k := no_entry]> es) U2 ∧ same_table U U2.
Proof.
  intros Hinv Hk. pose proof (inv_ua _ _ Hinv) as HU.
  assert (∀ i, (points (global e) i + points (next_hop e) i <= refs es i)%nat) as Hle.
  { intros i. pose proof (refs_clear es k e i Hk). lia. }
  destruct (release _ _ (global e) HU) as (U1 & E1 & HU1 & Ha1).
  { intros i Hi. by eapply refs_global. }
  destruct (release _ _ (next_hop e) HU1) as (U2 & E2 & HU2 & Ha2).
  { intros i Hi. specialize (Hle i). rewrite Hi, points_Some in Hle. lia. }
  exists U1, U2. split; [done|]. split; [done|]. pose proof (same_table_trans _ _ _ Ha1 Ha2) as Ha.
  split; [|done]. eapply (fib_inv_insert es U); [done|done| | |..].
  - split; [simpl; unfold FIB_LIFETIME_NO_EXPIRE; lia|]. by right.
  - eapply ua_inv_ext; [|exact HU2]. intros i. simpl. pose proof (refs_clear es k e i Hk). lia.
  - intros j ej _ Hj. eapply (entry_route_same es); [done|]. intros i _. apply (proj2 Ha).
  - done.
Qed.

(** ** Expiry and removal *)

Lemma fwhen_true b m w : b = true → fwhen b m w = m w.
Proof. by intros ->. Qed.

Lemma ua_rem_when w es U p U' : w_is w es U → universal_address_rem U p = Ok U' →
  fwhen (bool_decide (p ≠ None)) (ua_rem p) w = Ok (tt, upd es U' w).
Proof.
  intros Hw E. destruct p as [i|].
  - rewrite fwhen_true by (by apply bool_decide_eq_true_2). by apply (ua_rem_Ok Hw).
  - injection E as <-. by rewrite (upd_id _ _ _ Hw).
Qed.

(** An entry is cleared when it is older than [now]. *)
Definition expired (now : Z) (e : fib_entry_t) : fib_entry_t := if lifetime e <? now then no_entry else e.

Definition clean (now : Z) (e : fib_entry_t) : Prop := e = no_entry ∨ entry_used e ∧ now <= lifetime e.

Lemma expired_clean now e : 0 < now → entry_ok e → clean now (expired now e).
Proof.
  intros Hn [Hl He]. unfold expired, clean. destruct (Z.ltb_spec (lifetime e) now); [by left|right].
  destruct He as [He|[He _]]; [done|lia].
Qed.

Lemma expire_entry_spec es U w now i e :
  fib_inv es U → w_is w es U → es !! i = Some e → now <= FIB_LIFETIME_NO_EXPIRE →
  ∃ U', expire_entry now i w = Ok (tt, upd (<[i := expired now e]> es) U' w) ∧
    fib_inv (<[i := expired now e]> es) U' ∧ same_table U U'.
Proof.
  intros Hinv Hw Hi Hn. unfold expire_entry. fstep (get_entry_Ok Hw i e Hi). unfold expired.
  destruct (inv_entry _ _ Hinv i e Hi) as [Hl _]. destruct (Z.ltb_spec (lifetime e) now).
  - assert ((lifetime e =? FIB_LIFETIME_NO_EXPIRE) = false) as -> by lia. cbn [negb andb fwhen].
    destruct (release_entry es U i e Hinv Hi) as (U1 & U2 & E1 & E2 & Hinv' & Ha).
    exists U2. split; [|done]. fstep (set_entry_Ok Hw i (Fib_entry KERNEL_PID_UNDEF 0 0 (global e) 0 (next_hop e))).
    set (es1 := <[i := _]> es). assert (i < length es)%nat as Hlt by (by eapply lookup_lt_Some).
    assert (∀ f e1 e2 U w p, w_is w (<[i := e1]> es) U → f e1 = e2 → (p = None → e1 = e2) → ∀ U',
      universal_address_rem U p = Ok U' →
      fwhen (bool_decide (p ≠ None)) (_ ← ua_rem p; e ← get_entry i; set_entry i (f e)) w =
      Ok (tt, upd (<[i := e2]> es) U' w)) as Hclear.
    { intros f e1 e2 U0 w0 p Hw0 <- Hp U' E. destruct p as [q|].
      - rewrite fwhen_true by (by apply bool_decide_eq_true_2). fstep (ua_rem_Ok Hw0 _ _ E).
        fstep (get_entry_Ok (upd_is (<[i := e1]> es) U' w0) i e1 (list_lookup_insert_eq _ _ _ Hlt)).
        rewrite (set_entry_Ok (upd_is _ _ _)), list_insert_insert_eq. done.
      - injection E as <-. rewrite <- Hp by done. by rewrite (upd_id _ _ _ Hw0). }
    rewrite (fbind_Ok _ _ _ _ _ (Hclear (set_global None) _ (Fib_entry 0 0 0 None 0 (next_hop e)) _ _ _
      (upd_is es1 U w) eq_refl ltac:(by intros ->) _ E1)).
    refine (Hclear (set_next_hop None) (Fib_entry 0 0 0 None 0 (next_hop e)) no_entry _ _ (next_hop e)
      (upd_is _ U1 _) eq_refl _ _ E2). by intros ->.
  - rewrite list_insert_id by done. rewrite andb_false_r. exists U. split; [|done].
    by rewrite (upd_id _ _ _ Hw).
Qed.

Lemma fib_remove_spec es U w i e :
  fib_inv es U → w_is w es U → es !! i = Some e →
  ∃ U', fib_remove i w = Ok (tt, upd (<[i := no_entry]> es) U' w) ∧
    fib_inv (<[i := no_entry]> es) U' ∧ same_table U U'.
Proof.
  intros Hinv Hw Hi. destruct (release_entry es U i e Hinv Hi) as (U1 & U2 & E1 & E2 & Hinv' & Ha).
  exists U2. split; [|done]. unfold fib_remove. fstep (get_entry_Ok Hw i e Hi).
  fstep (ua_rem_when _ _ _ _ _ Hw E1). fstep (ua_rem_when _ _ _ _ _ (upd_is es U1 w) E2).
  apply (set_entry_Ok (upd_is es U2 w)).
Qed.

End Inv.
