(* ===== verification/FibFind.v ===== *)
(** * Looking up an address in the forwarding table

    [fib_find_entry] clears entries whose lifetime is over on its way, returns
    the entry of the address itself if there is one, and else the entry it takes
    for the best; [found] describes that choice. *)

From S2P Require Import Prelude Words UniversalAddress Fib FibInv.
Open Scope Z_scope.

(** ** Entries and flags *)

Definition prefix_len (flags : Z) : Z :=
  Z.shiftr (Z.land flags FIB_FLAG_NET_PREFIX_MASK) FIB_FLAG_NET_PREFIX_SHIFT.

Lemma prefix_mask flags : Z.land flags FIB_FLAG_NET_PREFIX_MASK = Z.shiftl (prefix_len flags) 24.
Proof.
  unfold prefix_len, FIB_FLAG_NET_PREFIX_MASK, FIB_FLAG_NET_PREFIX_SHIFT. apply Z.bits_inj'. intros n Hn.
  destruct (Z.le_gt_cases 24 n) as [H|H].
  - rewrite (Z.shiftl_spec (Z.shiftr _ _)), Z.shiftr_spec by lia. f_equal. lia.
  - rewrite (Z.shiftl_spec_low (Z.shiftr _ _)), Z.land_spec, Z.shiftl_spec_low by lia. apply andb_false_r.
Qed.

Lemma prefix_mask_zero flags : (Z.land flags FIB_FLAG_NET_PREFIX_MASK =? 0) = (prefix_len flags =? 0).
Proof. rewrite prefix_mask, Z.shiftl_mul_pow2 by lia. lia. Qed.

Lemma prefix_len_nonneg flags : 0 <= prefix_len flags.
Proof. unfold prefix_len, FIB_FLAG_NET_PREFIX_SHIFT. apply Z.shiftr_nonneg, Z.land_nonneg. by right. Qed.

(** Entry [i] is a route to [a]. *)
Definition has (es : list fib_entry_t) (U : addresses) (i : nat) (a : list Z) (r : route) : Prop :=
  ∃ e, es !! i = Some e ∧ entry_route U e = Some (a, r).

Lemma entry_route_addr U U' e : (∀ i, addr_at U' i = addr_at U i) → entry_route U' e = entry_route U e.
Proof. intros Ha. unfold entry_route. case_match; [done|]. destruct (global e), (next_hop e); simpl; by rewrite ?Ha. Qed.

Lemma has_other es U U' i e' j a r :
  (∀ i, addr_at U' i = addr_at U i) → j ≠ i → has (<[i := e']> es) U' j a r ↔ has es U j a r.
Proof.
  intros Ha Hj. unfold has. rewrite list_lookup_insert_ne by done. by setoid_rewrite (entry_route_addr U U').
Qed.

Lemma has_unused es U i e a r : es !! i = Some e → entry_route U e = None → ¬ has es U i a r.
Proof. intros Hi He (e' & Hi' & E). congruence. Qed.

(** The routes that have not expired are the same. *)
Definition live_same (now : Z) es U es' U' : Prop :=
  ∀ i a r, now <= r_expiry r → has es U i a r ↔ has es' U' i a r.

Lemma entry_route_expiry U e a r : entry_route U e = Some (a, r) → r_expiry r = lifetime e ∧ r_flags r = global_flags e.
Proof.
  unfold entry_route. case_match; [done|]. destruct (global e ≫= addr_at U); [|done].
  destruct (next_hop e ≫= addr_at U); [|done]. by intros [= <- <-].
Qed.

Lemma expired_live now es U U' i e :
  es !! i = Some e → (∀ i, addr_at U' i = addr_at U i) → live_same now es U (<[i := expired now e]> es) U'.
Proof.
  intros Hi Ha j a r Hr. destruct (decide (j = i)) as [->|Hj]; [|by rewrite has_other].
  unfold has. rewrite list_lookup_insert_eq by (by eapply lookup_lt_Some).
  setoid_rewrite (entry_route_addr U U'); [|done]. unfold expired. destruct (Z.ltb_spec (lifetime e) now).
  - split; [|by intros (? & [= <-] & ?)]. intros (e1 & Hi1 & E). apply entry_route_expiry in E as [E _].
    simplify_eq. lia.
  - rewrite Hi. done.
Qed.

(** ** The choice of the loop *)

(** The route is taken for one whose prefix the address has. *)
Definition cand (a : list Z) (r : route) (d : list Z) : Prop :=
  length a = length d ∧ zeros a = false ∧ prefix_len (r_flags r) ≠ 0 ∧ prefix_len (r_flags r) <= msize a d.

Definition default (a d : list Z) : Prop := length a = length d ∧ zeros a = true.

(** The loop's choice among the first [i] entries: [prefix_size], [ret] and
    [entry_arr[0]]. *)
Inductive found es U (d : list Z) (i : nat) : Z → Z → option nat → Prop :=
  | found_none :
      (∀ j a r, (j < i)%nat → has es U j a r → ¬ cand a r d ∧ ¬ default a d) →
      found es U d i 0 (- EHOSTUNREACH) None
  | found_default j a r :
      (j < i)%nat → has es U j a r → default a d →
      (∀ j' a' r', (j' < i)%nat → has es U j' a' r' → ¬ cand a' r' d) →
      found es U d i 0 0 (Some j)
  | found_prefix j a r :
      (j < i)%nat → has es U j a r → cand a r d →
      (∀ j' a' r', (j' < i)%nat → has es U j' a' r' → cand a' r' d → msize a' d <= msize a d) →
      found es U d i (msize a d) 0 (Some j).

Lemma cand_pos a r d : cand a r d → 0 < msize a d.
Proof. intros (_ & _ & H1 & H2). pose proof (prefix_len_nonneg (r_flags r)). lia. Qed.

Lemma found_size es U d i ps ret en : found es U d i ps ret en →
  (ps = 0 ∧ ∀ j a r, (j < i)%nat → has es U j a r → ¬ cand a r d) ∨
  ∃ j a r, (j < i)%nat ∧ has es U j a r ∧ cand a r d ∧ ps = msize a d ∧ ret = 0 ∧ en = Some j ∧
    ∀ j' a' r', (j' < i)%nat → has es U j' a' r' → cand a' r' d → msize a' d <= msize a d.
Proof.
  destruct 1 as [H|j a r Hj Hh Hd H|j a r Hj Hh Hc H].
  - left. split; [done|]. intros j a r Hj Hh. by apply (H j a r).
  - by left.
  - right. by exists j, a, r.
Qed.

(** The first [i] entries stay the same; entry [i] is not better. *)
Lemma found_skip es U es' U' d i ps ret en :
  found es U d i ps ret en → (∀ j a r, (j < i)%nat → has es' U' j a r ↔ has es U j a r) →
  (∀ a r, has es' U' i a r → (cand a r d → 0 < ps ∧ msize a d <= ps) ∧ (default a d → ret = 0 ∧ 0 < ps)) →
  found es' U' d (S i) ps ret en.
Proof.
  intros Hf Hsame Hi.
  assert (∀ j a r, (j < S i)%nat → has es' U' j a r → (j < i)%nat ∧ has es U j a r ∨ j = i ∧ has es' U' i a r) as Hcase.
  { intros j a r Hj Hh. destruct (decide (j = i)) as [->|]; [by right|left].
    split; [lia|]. apply Hsame; [lia|done]. }
  destruct Hf as [H|j a r Hj Hh Hd H|j a r Hj Hh Hc H].
  - constructor. intros j a r Hj Hh. destruct (Hcase j a r Hj Hh) as [[Hj' Hh']|[-> Hh']]; [by apply (H j)|].
    destruct (Hi a r Hh') as [H1 H2]. split; [intros Hc; by destruct (H1 Hc)|intros Hd; by destruct (H2 Hd)].
  - apply (found_default _ _ _ _ j a r); [lia|by apply Hsame|done|]. intros j' a' r' Hj' Hh'.
    destruct (Hcase j' a' r' Hj' Hh') as [[Hj'' Hh'']|[-> Hh'']]; [by apply (H j')|].
    intros Hc. by destruct (proj1 (Hi a' r' Hh'') Hc).
  - apply (found_prefix _ _ _ _ j a r); [lia|by apply Hsame|done|]. intros j' a' r' Hj' Hh' Hc'.
    destruct (Hcase j' a' r' Hj' Hh') as [[Hj'' Hh'']|[-> Hh'']]; [by apply (H j' a' r')|].
    by destruct (proj1 (Hi a' r' Hh'') Hc').
Qed.

Lemma found_take es U es' U' d i ps ret en a r :
  found es U d i ps ret en → (∀ j a r, (j < i)%nat → has es' U' j a r ↔ has es U j a r) →
  has es' U' i a r → cand a r d → ps = 0 ∨ ps < msize a d →
  found es' U' d (S i) (msize a d) 0 (Some i).
Proof.
  intros Hf Hsame Hh Hc Hps. apply (found_prefix _ _ _ _ i a r); [lia|done|done|]. intros j a' r' Hj Hh' Hc'.
  destruct (decide (j = i)) as [->|].
  - destruct Hh as (e & He & E), Hh' as (e' & He' & E'). simplify_eq. lia.
  - apply Hsame in Hh'; [|lia]. apply found_size in Hf as [[-> H]|(k & b & rb & _ & _ & Hcb & -> & _ & _ & H)].
    + destruct (H j a' r'); [lia|done..].
    + specialize (H j a' r' ltac:(lia) Hh' Hc'). pose proof (cand_pos _ _ _ Hcb). lia.
Qed.

Lemma found_take_default es U es' U' d i ret en a r :
  found es U d i 0 ret en → (∀ j a r, (j < i)%nat → has es' U' j a r ↔ has es U j a r) →
  has es' U' i a r → default a d → found es' U' d (S i) 0 0 (Some i).
Proof.
  intros Hf Hsame Hh Hd. apply (found_default _ _ _ _ i a r); [lia|done|done|]. intros j a' r' Hj Hh' Hc'.
  destruct (decide (j = i)) as [->|].
  - destruct Hh as (e & He & E), Hh' as (e' & He' & E'). simplify_eq.
    destruct Hd as [_ Hz], Hc' as (_ & Hz' & _). congruence.
  - apply Hsame in Hh'; [|lia]. apply found_size in Hf as [[_ H]|(k & b & rb & _ & _ & Hcb & E & _)].
    + destruct (H j a' r'); [lia|done..].
    + pose proof (cand_pos _ _ _ Hcb). lia.
Qed.

(** ** The loop *)

Section Find.
Context (others : nat → nat) (rps : list (option nat)).
Notation fib_inv := (fib_inv others rps).

(** A comparison with the destination of a route. *)
Lemma compare_route es U w i e a r d :
  fib_inv es U → w_is w es U → es !! i = Some e → entry_route U e = Some (a, r) →
  is_Some (global e) ∧
  ua_get (λ U, universal_address_compare U (global e) d (Z.of_nat (length d) * 8)) w =
    Ok (if bool_decide (length a = length d) then
          if zeros a then (UNIVERSAL_ADDRESS_IS_ALL_ZERO_ADDRESS, 0)
          else if bool_decide (a = d) then (UNIVERSAL_ADDRESS_EQUAL, Z.of_nat (length d) * 8)
          else (UNIVERSAL_ADDRESS_MATCHING_PREFIX, msize a d)
        else (- ENOENT, Z.of_nat (length d) * 8), w).
Proof.
  intros Hinv Hw Hi E. unfold entry_route in E. destruct (lifetime e =? 0); [done|].
  destruct (global e) as [g|] eqn:Hg; [|done]. split; [done|]. simpl in E.
  destruct (addr_at U g) as [a'|] eqn:Ha; [|done]. destruct (next_hop e ≫= addr_at U); [|done]. simplify_eq/=.
  unfold addr_at in Ha. destruct (universal_address_table U !! g) as [c|] eqn:Hc; [|done]. injection Ha as <-.
  destruct (ua_container _ _ (inv_ua _ _ _ _ Hinv) g c Hc) as (Hwf & _). pose proof (content_length c Hwf) as Hl.
  apply (ua_get_Ok Hw). destruct (bool_decide_reflect (length (content c) = length d)).
  - apply (universal_address_compare_spec U g c d); [done|done|lia].
  - apply (universal_address_compare_size U g c); [done|lia].
Qed.

Lemma entry_clean_route es U i e now : fib_inv es U → es !! i = Some e → clean now e →
  e = no_entry ∨ ∃ a r, entry_route U e = Some (a, r) ∧ now <= r_expiry r.
Proof.
  intros Hinv Hi [->|[Hu Hn]]; [by left|right].
  apply (entry_route_used _ _ _ _ _ _ Hinv Hi) in Hu as [[a r] E]. exists a, r. split; [done|].
  by destruct (entry_route_expiry _ _ _ _ E) as [-> _].
Qed.

Context (now : Z) (Hnow : 0 < now <= FIB_LIFETIME_NO_EXPIRE).
Context (d : list Z) (Hd : (0 < length d <= 16)%nat).

(** What the loop did: entries that have not expired stay, and either the entry
    of the address was found, or the table has no such entry, holds nothing that
    expired, and a choice was made. *)
Definition found_result es U es' U' (ret : Z) (en : option nat) : Prop :=
  fib_inv es' U' ∧ (length es' = length es ∧ same_table U U') ∧ live_same now es U es' U' ∧
  ((ret = 1 ∧ ∃ i r, en = Some i ∧ has es' U' i d r ∧ now <= r_expiry r) ∨
   ((∀ i e, es' !! i = Some e → clean now e) ∧ (∀ i r, ¬ has es' U' i d r) ∧
    ∃ ps, found es' U' d (length es') ps ret en)).

Lemma found_result_trans es U es1 U1 es' U' ret en :
  live_same now es U es1 U1 → length es1 = length es → same_table U U1 →
  found_result es1 U1 es' U' ret en → found_result es U es' U' ret en.
Proof.
  intros Hs Hl Ha (Hinv & [Hl' Ha'] & Hs' & H). split; [done|].
  split; [split; [congruence|by eapply same_table_trans]|]. split; [|done].
  intros i a r Hr. rewrite (Hs i a r Hr). by apply Hs'.
Qed.

Definition bits : Z := u32 (Z.shiftl (Z.of_nat (length d)) 3).

Lemma bits_eq : bits = Z.of_nat (length d) * 8.
Proof. unfold bits, u32. rewrite Z.shiftl_mul_pow2 by lia. change (2 ^ 3) with 8. rewrite Z.mod_small; lia. Qed.

Lemma msize_lt a : length a = length d → a ≠ d → msize a d < bits.
Proof.
  intros Hl Hne. rewrite bits_eq. pose proof (msize_bounds a d). pose proof (common_lt a d Hl Hne). lia.
Qed.

(** The result of a comparison with [a]. *)
Definition comparison (a : list Z) : Z * Z :=
  if bool_decide (length a = length d) then
    if zeros a then (UNIVERSAL_ADDRESS_IS_ALL_ZERO_ADDRESS, 0)
    else if bool_decide (a = d) then (UNIVERSAL_ADDRESS_EQUAL, bits)
    else (UNIVERSAL_ADDRESS_MATCHING_PREFIX, msize a d)
  else (- ENOENT, bits).

Lemma comparison_exact a :
  ((comparison a).1 =? UNIVERSAL_ADDRESS_EQUAL) ||
  (zeros d && ((comparison a).1 =? UNIVERSAL_ADDRESS_IS_ALL_ZERO_ADDRESS)) = bool_decide (a = d).
Proof.
  unfold comparison. destruct (bool_decide_reflect (length a = length d)) as [Hl|Hl].
  2:{ rewrite bool_decide_eq_false_2 by congruence. by destruct (zeros d). }
  destruct (bool_decide_reflect (a = d)) as [->|Hne]; [by destruct (zeros d)|].
  destruct (zeros a) eqn:Hz; [|by destruct (zeros d)]. destruct (zeros d) eqn:Hzd; [|done].
  apply zeros_replicate in Hz, Hzd. congruence.
Qed.

(** A comparison that is no exact match extends the choice by one entry. *)
Lemma better_entry_spec es U es' U' i ps ret en count a r ps' ret' en' count' :
  found es U d i ps ret en → ps < bits → (∀ j a r, (j < i)%nat → has es' U' j a r ↔ has es U j a r) →
  has es' U' i a r → a ≠ d →
  better_entry (comparison a).1 (comparison a).2 (r_flags r) i (ps, ret, en, count) = (ps', ret', en', count') →
  found es' U' d (S i) ps' ret' en' ∧ ps' < bits.
Proof.
  intros Hf Hps Hsame Hh Had. unfold better_entry. rewrite prefix_mask_zero. fold (prefix_len (r_flags r)).
  assert ((cand a r d → 0 < ps ∧ msize a d <= ps) → (default a d → ret = 0 ∧ 0 < ps) →
    found es' U' d (S i) ps ret en ∧ ps < bits) as Hskip.
  { intros H1 H2. split; [|done]. apply (found_skip es U); [done|done|]. intros a' r' (e & Hi & E).
    destruct Hh as (e' & Hi' & E'). by simplify_eq. }
  unfold comparison. destruct (bool_decide_reflect (length a = length d)) as [Hla|Hla].
  2:{ cbn. intros [= <- <- <- <-]. apply Hskip; by intros (? & _). }
  destruct (zeros a) eqn:Hz; cbn -[Z.eqb Z.ltb Z.leb bits].
  - destruct (Z.eqb_spec ps 0) as [->|Hps0]; intros [= <- <- <- <-].
    + split; [|done]. by apply (found_take_default es U _ _ _ _ ret en a r).
    + apply Hskip; [by intros (_ & ? & _); congruence|]. intros _.
      apply found_size in Hf as [[-> _]|(k & b & rb & _ & _ & Hcb & -> & -> & _)]; [done|].
      by apply cand_pos in Hcb.
  - rewrite bool_decide_eq_false_2 by done. cbn -[Z.eqb Z.ltb Z.leb bits].
    destruct (Z.eqb_spec (prefix_len (r_flags r)) 0) as [Hp0|Hp0]; cbn [negb].
    { intros [= <- <- <- <-]. apply Hskip; [by intros (_ & _ & ? & _)|by intros [_ ?]; congruence]. }
    destruct (Z.leb_spec (prefix_len (r_flags r)) (msize a d)) as [Hp|Hp]; cbn [andb].
    2:{ intros [= <- <- <- <-]. apply Hskip; [intros (_ & _ & _ & ?); lia|by intros [_ ?]; congruence]. }
    destruct ((ps =? 0) || (ps <? msize a d)) eqn:Eb; intros [= <- <- <- <-].
    + split; [|by apply msize_lt]. apply (found_take es U _ _ _ _ ps ret en a r); [done|done|done|done|lia].
    + apply Hskip; [|by intros [_ ?]; congruence]. intros _. split; [|lia].
      apply found_size in Hf as [[-> _]|(k & b & rb & _ & _ & Hcb & -> & _)]; [lia|by apply cand_pos in Hcb].
Qed.

Lemma find_loop_spec n : ∀ i es U w ps ret en count,
  fib_inv es U → w_is w es U → (i + n = length es)%nat →
  (∀ j e, (j < i)%nat → es !! j = Some e → clean now e) →
  (∀ j r, (j < i)%nat → ¬ has es U j d r) →
  found es U d i ps ret en → ps < bits →
  ∃ es' U' ret' en' count',
    find_loop n i now d (Z.of_nat (length d)) (zeros d) ps bits ret en count w =
      Ok ((ret', en', count'), upd es' U' w) ∧
    found_result es U es' U' ret' en'.
Proof.
  induction n as [|n IH]; intros i es U w ps ret en count Hinv Hw Hn Hcl Hno Hf Hps.
  { exists es, U, ret, en, count. split; [by rewrite (upd_id _ _ _ Hw)|]. split; [done|]. split; [done|].
    split; [done|]. right. assert (i = length es) as -> by lia. split; [|split].
    - intros j e Hj. apply (Hcl j e); [by eapply lookup_lt_Some|done].
    - intros j r (e & Hj & E). apply (Hno j r); [by eapply lookup_lt_Some|by exists e].
    - by exists ps. }
  destruct (lookup_lt_is_Some_2 es i ltac:(lia)) as [e Hi]. cbn [find_loop].
  destruct (expire_entry_spec others rps es U w now i e Hinv Hw Hi ltac:(lia)) as (U1 & E1 & Hinv1 & Ha1). fstep E1.
  pose proof (expired_clean now e ltac:(lia) (inv_entry _ _ _ _ Hinv i e Hi)) as Hcl1.
  pose proof (expired_live now es U U1 i e Hi (proj2 Ha1)) as Hlive. set (e1 := expired now e) in *. clearbody e1.
  set (es1 := <[i := e1]> es) in *. assert (length es1 = length es) as Hl1 by (apply length_insert).
  assert (es1 !! i = Some e1) as Hi1 by (apply list_lookup_insert_eq; by eapply lookup_lt_Some).
  assert (∀ j a r, (j < i)%nat → has es1 U1 j a r ↔ has es U j a r) as Hsame
    by (intros j a r Hj; apply has_other; [apply Ha1|lia]).
  assert (∀ j e, (j < S i)%nat → es1 !! j = Some e → clean now e) as Hcl'.
  { intros j e2 Hj He2. destruct (decide (j = i)) as [->|]; [by simplify_eq|].
    unfold es1 in He2. rewrite list_lookup_insert_ne in He2 by done. apply (Hcl j); [lia|done]. }
  rewrite (fbind_Ok _ _ _ _ _ (get_entry_Ok (upd_is es1 U1 w) i e1 Hi1)).
  assert (∀ ps ret en count, found es1 U1 d (S i) ps ret en → ps < bits → (∀ r, ¬ has es1 U1 i d r) →
    ∃ es' U' ret' en' count',
      find_loop n (S i) now d (Z.of_nat (length d)) (zeros d) ps bits ret en count (upd es1 U1 w) =
        Ok ((ret', en', count'), upd es' U' w) ∧ found_result es U es' U' ret' en') as Hnext.
  { intros ps' ret' en' count' Hf' Hps' Hno'.
    destruct (IH (S i) es1 U1 (upd es1 U1 w) ps' ret' en' count') as (es2 & U2 & r2 & n2 & c2 & E2 & Hr2);
      [done|done|lia|done| |done|done|].
    - intros j r Hj. destruct (decide (j = i)) as [->|]; [apply Hno'|]. rewrite Hsame by lia. apply Hno. lia.
    - exists es2, U2, r2, n2, c2. split; [done|]. by eapply found_result_trans. }
  fold bits. rewrite (proj2 (Z.ltb_lt _ _) Hps), bits_eq.
  destruct (entry_clean_route es1 U1 i e1 now Hinv1 Hi1 Hcl1) as [->|(a & r & E & Hr)].
  { simpl. rewrite <- bits_eq. apply Hnext; [|done|intros r; by eapply has_unused].
    apply (found_skip es U); [done|done|]. intros a r Hh. by apply (has_unused _ _ _ _ _ _ Hi1) in Hh. }
  destruct (compare_route es1 U1 (upd es1 U1 w) i e1 a r d Hinv1 (upd_is _ _ _) Hi1 E) as [[g Hg] Ec].
  rewrite (bool_decide_eq_true_2 (global e1 ≠ None)) by (rewrite Hg; done). cbn [andb].
  rewrite (fbind_Ok _ _ _ _ _ Ec). assert (has es1 U1 i a r) as Hh by (by exists e1).
  rewrite <- bits_eq. fold (comparison a). destruct (comparison a) as [c ms] eqn:Ecmp.
  pose proof (comparison_exact a) as Hex. rewrite Ecmp in Hex. cbn [fst] in Hex. rewrite Hex.
  destruct (bool_decide_reflect (a = d)) as [->|Had].
  { exists es1, U1, 1, (Some i), 1. split; [done|]. split; [done|]. split; [done|]. split; [done|]. left.
    split; [done|]. by exists i, r. }
  destruct (better_entry c ms (global_flags e1) i (ps, ret, en, count)) as [[[ps' ret'] en'] count'] eqn:Eb.
  destruct (entry_route_expiry _ _ _ _ E) as [_ Hfl]. rewrite <- Hfl in Eb.
  destruct (better_entry_spec es U es1 U1 i ps ret en count a r ps' ret' en' count') as [Hf' Hps'];
    [done|done|done|done|done|by rewrite Ecmp|]. apply Hnext; [done|done|].
  intros r' (e' & Hi' & E'). congruence.
Qed.

End Find.

Lemma all_zeros_loop_spec d fuel pre suf :
  d = pre ++ suf → (length suf < fuel)%nat →
  all_zeros_loop fuel d (Z.of_nat (length pre)) (Z.of_nat (length d)) = Ok (zeros suf).
Proof.
  revert pre suf. induction fuel as [|fuel IH]; intros pre suf E Hf; [lia|]. cbn [all_zeros_loop].
  destruct suf as [|x suf].
  - rewrite (proj2 (Z.ltb_ge _ _)); [done|]. rewrite E, app_nil_r. lia.
  - rewrite (proj2 (Z.ltb_lt _ _)) by (rewrite E, length_app; simpl; lia).
    rewrite E at 1. rewrite aget_app, result_bind_Ok by done. change (zeros (x :: suf)) with ((0 =? x) && zeros suf).
    rewrite (Z.eqb_sym 0 x). destruct (x =? 0); [cbn [negb andb]|done].
    replace (Z.of_nat (length pre) + 1) with (Z.of_nat (length (pre ++ [x]))) by (rewrite length_app; simpl; lia).
    apply IH; [by rewrite <- app_assoc|simpl in Hf; lia].
Qed.

Lemma fib_find_entry_spec others rps time es U w d :
  fib_inv others rps es U → w_is w es U → 0 < time (ticks w) <= FIB_LIFETIME_NO_EXPIRE → (0 < length d <= 16)%nat →
  ∃ es' U' ret en count,
    fib_find_entry time d (Z.of_nat (length d)) w = Ok ((ret, en, count), upd es' U' (set_ticks (S (ticks w)) w)) ∧
    found_result others rps (time (ticks w)) d es U es' U' ret en.
Proof.
  intros Hinv Hw Hnow Hd. unfold fib_find_entry, xtimer_now_usec64. rewrite (fbind_Ok _ _ _ _ _ eq_refl).
  set (w1 := set_ticks _ w). assert (w_is w1 es U) as Hw1 by (by destruct Hw).
  assert (flift (all_zeros_loop (S (length d)) d 0 (Z.of_nat (length d))) w1 = Ok (zeros d, w1)) as Ez.
  { unfold flift. change 0 with (Z.of_nat (length (A:=Z) [])). by rewrite (all_zeros_loop_spec d _ [] d) by (done || lia). }
  fstep Ez. fstep (get_entries_Ok Hw1). fold (bits d).
  eapply (find_loop_spec others rps (time (ticks w)) Hnow d Hd);
    [done|done|done|intros; lia|intros; lia|constructor; intros; lia|]. rewrite bits_eq by done. lia.
Qed.

(** ** The table as a finite map *)

Definition live (now : Z) (M : gmap (list Z) route) : gmap (list Z) route := filter (λ p, now <= r_expiry p.2) M.

(** The routes of the table that have not expired at [now]. *)
Definition rep (now : Z) (es : list fib_entry_t) (U : addresses) (M : gmap (list Z) route) : Prop :=
  ∀ a r, M !! a = Some r ↔ (∃ i, has es U i a r) ∧ now <= r_expiry r.

Lemma live_lookup now M a r : live now M !! a = Some r ↔ M !! a = Some r ∧ now <= r_expiry r.
Proof. unfold live. by rewrite map_lookup_filter_Some. Qed.

Lemma rep_live now0 now es U es' U' M :
  rep now0 es U M → now0 <= now → live_same now es U es' U' → rep now es' U' (live now M).
Proof.
  intros HM Hn Hs a r. rewrite live_lookup, (HM a r). split.
  - intros [[(i & Hi) Hr0] Hr]. split; [|done]. exists i. by apply (Hs i a r Hr).
  - intros [(i & Hi) Hr]. split; [|done]. split; [|lia]. exists i. by apply (Hs i a r Hr).
Qed.

(** ** Longest prefix match *)

(** The bits of a destination that are its prefix; the zero address stands for
    every address. *)
Definition plen (a : list Z) (r : route) : Z := if zeros a then 0 else prefix_len (r_flags r).

(** The destination is an address, or a prefix of whole bytes with zeros behind. *)
Definition canonical (a : list Z) (r : route) : Prop :=
  plen a r mod 8 = 0 ∧ plen a r <= Z.of_nat (length a) * 8 ∧
  (plen a r ≠ 0 → zeros (drop (Z.to_nat (plen a r / 8)) a) = true).

(** The address has the prefix. *)
Definition covers (a : list Z) (r : route) (d : list Z) : Prop :=
  length a = length d ∧ (zeros a = true ∨ plen a r ≠ 0) ∧
  take (Z.to_nat (plen a r / 8)) a = take (Z.to_nat (plen a r / 8)) d.

(** Where packets to [d] go: to the route of [d] itself, or else along the
    longest prefix. *)
Inductive forwards (M : gmap (list Z) route) (d : list Z) : option route → Prop :=
  | forwards_exact r : M !! d = Some r → forwards M d (Some r)
  | forwards_prefix a r :
      M !! d = None → M !! a = Some r → covers a r d →
      (∀ a' r', M !! a' = Some r' → covers a' r' d → a' = a ∨ plen a' r' < plen a r) →
      forwards M d (Some r)
  | forwards_not :
      M !! d = None → (∀ a r, M !! a = Some r → ¬ covers a r d) → forwards M d None.

Lemma zeros_take_drop a b k :
  length a = length b → take k a = take k b → zeros (drop k a) = true → zeros (drop k b) = true → a = b.
Proof.
  intros Hl Ht Ha Hb. rewrite <- (take_drop k a), <- (take_drop k b), Ht. f_equal.
  apply zeros_replicate in Ha, Hb. rewrite Ha, Hb. f_equal. rewrite !length_drop. lia.
Qed.

Lemma zeros_drop k a : zeros (drop k a) = true → ∀ k', (k <= k')%nat → zeros (drop k' a) = true.
Proof.
  intros Hz k' Hk. replace k' with (k + (k' - k))%nat by lia. rewrite <- drop_drop.
  revert Hz. generalize (drop k a) (k' - k)%nat. intros l n. revert n.
  induction l as [|x l IH]; intros [|n] Hz; [done..|]. simpl. apply IH.
  cbn -[Z.eqb] in Hz. by apply andb_true_iff in Hz as [_ ?].
Qed.

(** The bits of a comparison decide whether a prefix of whole bytes matches. *)
Lemma cand_covers a r d : canonical a r → cand a r d ↔ covers a r d ∧ zeros a = false.
Proof.
  intros (H8 & Hle & Hz). unfold cand, covers, plen in *. destruct (zeros a) eqn:Ez.
  { split; [by intros (_ & ? & _)|by intros [_ ?]]. }
  set (k := Z.to_nat (prefix_len (r_flags r) / 8)). pose proof (prefix_len_nonneg (r_flags r)).
  pose proof (msize_bounds a d). assert (prefix_len (r_flags r) = Z.of_nat k * 8) as Hk by dlia.
  split.
  - intros (Hl & _ & Hp & Hm). split; [|done]. split; [done|]. split; [by right|]. apply common_prefix; lia.
  - intros [(Hl & Hp & Ht) _]. destruct Hp as [?|Hp]; [done|]. split; [done|]. split; [done|]. split; [done|].
    apply common_prefix in Ht; lia.
Qed.

(** Of two prefixes of an address, the one with more bits in common is longer. *)
Lemma longer_prefix a r a' r' d :
  canonical a r → canonical a' r' → covers a r d → covers a' r' d → zeros a = false → a ≠ d →
  msize a' d <= msize a d → a' = a ∨ plen a' r' < plen a r.
Proof.
  intros (H8 & Hle & Hz) (H8' & Hle' & Hz') (Hl & Hp & Ht) (Hl' & Hp' & Ht') Hza Had Hm.
  destruct (Z.lt_ge_cases (plen a' r') (plen a r)) as [|Hge]; [by right|left].
  destruct Hp as [?|Hp]; [congruence|]. assert (0 <= plen a r) by (unfold plen; case_match; [lia|apply prefix_len_nonneg]).
  set (k := Z.to_nat (plen a r / 8)) in *. set (k' := Z.to_nat (plen a' r' / 8)) in *.
  assert ((k <= k')%nat ∧ plen a' r' = Z.of_nat k' * 8) as [Hk Hk'] by (unfold k, k'; dlia).
  assert ((k' <= common a' d)%nat) as Hc' by (apply common_prefix; [lia|lia|done]).
  pose proof (msize_bounds a d). pose proof (msize_bounds a' d).
  assert ((k' <= common a d)%nat) as Hc by lia.
  apply common_prefix in Hc; [|lia..]. eapply (zeros_take_drop _ _ k'); [lia|congruence|apply Hz'; lia|].
  apply (zeros_drop k); [by apply Hz|done].
Qed.

(** What is found is where packets go. *)
Lemma found_forwards others rps now d es U es' U' ret en now0 M :
  found_result others rps now d es U es' U' ret en → rep now0 es U M → now0 <= now →
  (∀ a r, live now M !! a = Some r → canonical a r) →
  rep now es' U' (live now M) ∧
  ((ret = 0 ∨ ret = 1) ∧ (∃ i a r, en = Some i ∧ has es' U' i a r ∧ live now M !! a = Some r ∧
      forwards (live now M) d (Some r)) ∨
   ret = - EHOSTUNREACH ∧ forwards (live now M) d None).
Proof.
  intros (Hinv & _ & Hs & Hres) HM Hn Hcan. pose proof (rep_live _ _ _ _ _ _ _ HM Hn Hs) as HM'.
  split; [done|]. set (M1 := live now M) in *. clearbody M1.
  destruct Hres as [(-> & i & r & -> & Hh & Hr)|(Hcl & Hno & ps & Hf)].
  { left. split; [by right|]. assert (M1 !! d = Some r) by (apply HM'; eauto). exists i, d, r. by repeat constructor. }
  assert (M1 !! d = None) as Hnd.
  { destruct (M1 !! d) as [r|] eqn:E; [|done]. apply HM' in E as [(i & Hi) _]. by apply Hno in Hi. }
  assert (∀ i a r, has es' U' i a r → M1 !! a = Some r) as Hall.
  { intros i a r (e & Hi & E). apply HM'. split; [by exists i, e|]. destruct (Hcl i e Hi) as [->|[_ Hr]]; [done|].
    by destruct (entry_route_expiry _ _ _ _ E) as [-> _]. }
  assert (∀ a r, M1 !! a = Some r → ∃ i, (i < length es')%nat ∧ has es' U' i a r) as Hex.
  { intros a r E. apply HM' in E as [(i & e & Hi & E) _]. exists i. split; [by eapply lookup_lt_Some|by exists e]. }
  assert (∀ a r, covers a r d → zeros a = true → default a d) as Hdef by (by intros a r (? & _) ?).
  destruct Hf as [H|i a r Hi Hh [Hla Hza] H|i a r Hi Hh Hc H].
  - right. split; [done|]. constructor; [done|]. intros a r E Hc. destruct (Hex a r E) as (i & Hi & Hh).
    destruct (H i a r Hi Hh) as [H1 H2]. destruct (zeros a) eqn:Ez; [by apply H2, (Hdef a r)|].
    by apply H1, cand_covers; [apply Hcan|].
  - left. split; [by left|]. exists i, a, r. split; [done|]. split; [done|]. split; [by eapply Hall|].
    apply (forwards_prefix _ _ a r); [done|by eapply Hall| |].
    + split; [done|]. split; [by left|]. unfold plen. by rewrite Hza.
    + intros a' r' E' Hc'. destruct (Hex a' r' E') as (i' & Hi' & Hh'). left. destruct (zeros a') eqn:Ez.
      * destruct Hc' as [Hl' _]. apply zeros_replicate in Ez, Hza. congruence.
      * destruct (H i' a' r' Hi' Hh'). by apply cand_covers; [apply Hcan|].
  - left. split; [by left|]. pose proof (Hall i a r Hh) as E. exists i, a, r. split; [done|]. split; [done|]. split; [done|].
    pose proof (proj1 (cand_covers a r d (Hcan a r E)) Hc) as [Hcov Hz].
    apply (forwards_prefix _ _ a r); [done|done|done|]. intros a' r' E' Hc'.
    destruct (Hex a' r' E') as (i' & Hi' & Hh'). destruct (zeros a') eqn:Ez.
    + right. unfold plen at 1. rewrite Ez. destruct Hcov as (_ & [?|Hp] & _); [congruence|].
      unfold plen in *. rewrite Hz in *. pose proof (prefix_len_nonneg (r_flags r)). lia.
    + apply (longer_prefix a r a' r' d); [by apply Hcan|by apply Hcan|done|done|done|congruence|].
      apply (H i' a' r' Hi' Hh'). by apply cand_covers; [apply Hcan|].
Qed.
