(* ===== verification/FibOps.v ===== *)
(** * Adding, updating and removing routes

    What the functions that change the forwarding table do to the routes it
    holds, and when they run out of memory. *)

From S2P Require Import Prelude Words UniversalAddress Fib FibInv FibFind.
Open Scope Z_scope.

(** ** Expiry *)

(** The lifetime an entry gets at the [k]-th look at the clock, and the number of
    looks afterwards. *)
Definition expiry (time : nat → Z) (k : nat) (life : Z) : Z :=
  if life =? u32 FIB_LIFETIME_NO_EXPIRE then FIB_LIFETIME_NO_EXPIRE else time k + u32 (life * US_PER_MS).
Definition looks (k : nat) (life : Z) : nat := if life =? u32 FIB_LIFETIME_NO_EXPIRE then k else S k.

(** The clock is past zero and does not wrap. *)
Definition clock_ok (time : nat → Z) : Prop :=
  ∀ k, 0 < time k ∧ time k <= time (S k) ∧ time k + 4294967296 <= FIB_LIFETIME_NO_EXPIRE.

Lemma absolute_lifetime_Ok time life w : clock_ok time →
  absolute_lifetime time life w = Ok (expiry time (ticks w) life, set_ticks (looks (ticks w) life) w).
Proof.
  intros Ht. unfold absolute_lifetime, expiry, looks. destruct (life =? u32 FIB_LIFETIME_NO_EXPIRE); cbn [negb].
  { by destruct w. }
  unfold fib_lifetime_to_absolute, xtimer_now_usec64. rewrite (fbind_Ok _ _ _ _ _ eq_refl).
  destruct (Ht (ticks w)) as (H0 & _ & H1). unfold FIB_LIFETIME_NO_EXPIRE in H1.
  unfold mret, F_ret. do 2 f_equal. unfold u64. rewrite Z.mod_small; [done|]. unfold u32. dlia.
Qed.

Lemma expiry_bounds time k life : clock_ok time → time k <= expiry time k life <= FIB_LIFETIME_NO_EXPIRE.
Proof.
  intros Ht. destruct (Ht k) as (H0 & _ & H1). unfold expiry, u32.
  destruct (life =? _); [|dlia]. lia.
Qed.

Section Ops.
Context (others : nat → nat) (rps : list (option nat)).
Notation fib_inv := (fib_inv others rps).
Notation refs := (refs others rps).

(** ** Memory for addresses *)

(** The number of containers that others use. *)
Definition nothers (N : nat) : nat := length (filter (λ i, others i ≠ O) (seq 0 N)).

(** All address containers are in use. *)
Definition exhausted (U : addresses) : Prop := Forall used (universal_address_table U).

Lemma full_exhausted refs U : ua_inv refs U → (∀ i, (i < length (universal_address_table U))%nat → refs i ≠ O) → exhausted U.
Proof.
  intros HU Hfull. apply Forall_lookup. intros i c Hc. destruct (ua_container _ _ HU i c Hc) as (_ & Hn & _).
  specialize (Hfull i (lookup_lt_Some _ _ _ Hc)). unfold used. lia.
Qed.

Lemma nrefs_pigeonhole ps l :
  NoDup l → (∀ i, i ∈ l → nrefs ps i ≠ O) → (length l <= length ps)%nat.
Proof.
  intros Hl Hi. apply (NoDup_fmap_2 Some) in Hl. rewrite <- (length_fmap Some l).
  apply submseteq_length, NoDup_submseteq; [done|]. intros p Hp. apply list_elem_of_fmap in Hp as (i & -> & Hin).
  specialize (Hi i Hin). unfold nrefs in Hi. destruct (filter _ ps) as [|q f] eqn:E; [done|].
  assert (q ∈ filter (λ p, p = Some i) ps) as Hq by (rewrite E; left).
  apply list_elem_of_filter in Hq as [-> Hq]. done.
Qed.

(** ** Updating an entry *)

(** The routes of all entries but [i] are the same. *)
Definition others_same es U es' U' (i : nat) : Prop := ∀ j a r, j ≠ i → has es' U' j a r ↔ has es U j a r.

Lemma has_global es U k e a r : es !! k = Some e → has es U k a r → ∃ g, global e = Some g ∧ addr_at U g = Some a.
Proof.
  intros Hk (e' & Hk' & E). simplify_eq. unfold entry_route in E. case_match; [done|].
  destruct (global e) as [g|]; [|done]. exists g. split; [done|]. simpl in E.
  destruct (addr_at U g); [|done]. destruct (next_hop e ≫= addr_at U); [|done]. by simplify_eq/=.
Qed.

Lemma others_same_insert es U U' k e' : same_addrs (refs es) U U' → others_same es U (<[k := e']> es) U' k.
Proof.
  intros Hs j a r Hj. unfold has. rewrite list_lookup_insert_ne by done.
  split; intros (e & Hj' & E); exists e; (split; [done|]).
  - by rewrite <- (entry_route_same others rps es U U' j e).
  - by rewrite (entry_route_same others rps es U U' j e).
Qed.

(** Another next hop for a route, on the level of containers. *)
Lemma replace_next_hop es U i e a r nh :
  fib_inv es U → es !! i = Some e → entry_route U e = Some (a, r) → (length nh <= 16)%nat →
  universal_address_add U nh (Z.of_nat (length nh)) = Ok (None, U) ∧ exhausted U ∨
  ∃ h U1 U2, universal_address_add U nh (Z.of_nat (length nh)) = Ok (Some h, U1) ∧
    universal_address_rem U1 (next_hop e) = Ok U2 ∧ same_addrs (refs es) U U2 ∧
    length (universal_address_table U2) = length (universal_address_table U) ∧
    ∀ nhf L, 0 < L <= FIB_LIFETIME_NO_EXPIRE →
      let e' := Fib_entry (iface_id e) L (global_flags e) (global e) nhf (Some h) in
      fib_inv (<[i := e']> es) U2 ∧
      entry_route U2 e' = Some (a, Route (r_flags r) nh nhf (r_iface r) L).
Proof.
  intros Hinv Hi E Hn.
  destruct (acquire _ U nh (inv_ua _ _ _ _ Hinv) Hn) as (p & U1 & E1 & HU1 & Hs1 & Hl1 & Hp).
  { intros j. pose proof (refs_lt others rps es j (inv_room _ _ _ _ Hinv)). lia. }
  destruct p as [h|]; [right|left; destruct Hp as [-> Hfull]; split; [done|by eapply full_exhausted, Hfull; apply Hinv]].
  destruct (has_global _ _ _ _ _ _ Hi ltac:(by exists e)) as (g & Hg & Hga).
  destruct (release _ _ (next_hop e) HU1) as (U2 & E2 & HU2 & Hl2 & Ha2).
  { intros j Hj. pose proof (refs_next_hop others rps es i e j Hi Hj). lia. }
  assert (same_addrs (refs es) U U2) as Hs2 by (intros j Hj; rewrite Ha2; by apply Hs1).
  exists h, U1, U2. split; [done|]. split; [done|]. split; [done|]. split; [congruence|]. intros nhf L HL e'.
  assert (entry_route U2 e' = Some (a, Route (r_flags r) nh nhf (r_iface r) L)) as Hroute.
  { unfold entry_route in E |- *. simpl. rewrite (proj2 (Z.eqb_neq L 0)), Hg by lia. simpl.
    rewrite !Ha2, Hp, Hs1, Hga by (by eapply refs_global). destruct (lifetime e =? 0); [done|].
    rewrite Hg in E. simpl in E. rewrite Hga in E. simpl in E.
    destruct (next_hop e ≫= addr_at U); [|done]. by simplify_eq/=. }
  split; [|done]. apply (fib_inv_insert others rps es U U2 i e e' Hinv Hi).
  - split; [simpl; lia|]. left. split; [simpl; lia|]. simpl. rewrite Hg. by split.
  - eapply ua_inv_ext; [|exact HU2]. intros j. simpl. pose proof (refs_insert others rps es i e e' j Hi) as Hr.
    simpl in Hr. assert (points (next_hop e) j <= refs es j)%nat; [|lia]. unfold points.
    case_decide as Hj; [|lia]. pose proof (refs_next_hop others rps es i e j Hi Hj). lia.
  - intros j ej _ Hj. by eapply entry_route_same.
  - intros a' r' j ej r'' E' Hj Hej E''. rewrite Hroute in E'. injection E' as <- _.
    by apply Hj, (inv_unique _ _ _ _ Hinv j i ej e a r'' r).
Qed.

(** Setting the lifetime of entry [i] at the end of an update. *)
Lemma set_life_Ok {A} time es U w i e life (x : A) :
  clock_ok time → w_is w es U → es !! i = Some e →
  (life ← absolute_lifetime time life; e ← get_entry i; _ ← set_entry i (set_lifetime life e); mret x) w =
  Ok (x, upd (<[i := set_lifetime (expiry time (ticks w) life) e]> es) U (set_ticks (looks (ticks w) life) w)).
Proof.
  intros Ht Hw Hi. fstep (absolute_lifetime_Ok time life w Ht). set (w1 := set_ticks _ w).
  assert (w_is w1 es U) as Hw1 by (by destruct Hw). fstep (get_entry_Ok Hw1 i e Hi).
  by fstep (set_entry_Ok Hw1 i (set_lifetime (expiry time (ticks w) life) e)).
Qed.

Lemma fib_upd_entry_spec time es U w i a r nh nhf life :
  clock_ok time → fib_inv es U → w_is w es U → has es U i a r → (length nh <= 16)%nat →
  ∃ ret es' U' k, fib_upd_entry time i nh (Z.of_nat (length nh)) nhf life w = Ok (ret, upd es' U' (set_ticks k w)) ∧
    fib_inv es' U' ∧ length es' = length es ∧ length (universal_address_table U') = length (universal_address_table U) ∧
    same_addrs (refs es) U U' ∧ others_same es U es' U' i ∧
    (ret = 0 ∧ k = looks (ticks w) life ∧
       has es' U' i a (Route (r_flags r) nh nhf (r_iface r) (expiry time (ticks w) life)) ∨
     ret = - ENOMEM ∧ k = ticks w ∧ es' = es ∧ U' = U ∧ exhausted U).
Proof.
  intros Ht Hinv Hw Hh Hn. pose proof Hh as (e & Hi & E). unfold fib_upd_entry.
  destruct (replace_next_hop es U i e a r nh Hinv Hi E Hn) as [[E1 Hfull]|(h & U1 & U2 & E1 & E2 & Hs & Hl & Hnew)];
    fstep (ua_add_Ok Hw _ _ _ _ E1).
  { exists (- ENOMEM), es, U, (ticks w). split; [by destruct w|]. do 5 (split; [done|]). right. done. }
  fstep (get_entry_Ok (upd_is es U1 w) i e Hi). fstep (ua_rem_Ok (upd_is es U1 w) _ _ E2).
  fstep (set_entry_Ok (upd_is es U2 (upd es U1 w)) i (set_next_hop_flags nhf (set_next_hop (Some h) e))).
  set (e1 := set_next_hop_flags nhf (set_next_hop (Some h) e)). assert (i < length es)%nat as Hlt by (by eapply lookup_lt_Some).
  rewrite (set_life_Ok time _ _ _ i e1 life 0 Ht (upd_is _ U2 _) (list_lookup_insert_eq _ _ _ Hlt)), list_insert_insert_eq.
  cbn [upd set_ua set_table ticks]. set (L := expiry time (ticks w) life).
  pose proof (expiry_bounds time (ticks w) life Ht) as HL. destruct (Ht (ticks w)) as (H0 & _ & _).
  destruct (Hnew nhf L ltac:(unfold L; lia)) as [Hinv' Hroute].
  exists 0, (<[i := set_lifetime L e1]> es), U2, (looks (ticks w) life). split; [done|]. split; [done|].
  split; [apply length_insert|]. split; [done|]. split; [done|]. split; [by apply others_same_insert|].
  left. split; [done|]. split; [done|]. eexists. by rewrite list_lookup_insert_eq.
Qed.

(** ** Creating an entry *)

(** A new route in an unused entry, on the level of containers; [e] has the
    members of the entry that are not set yet. *)
Lemma new_pointers es U i d nh :
  fib_inv es U → es !! i = Some no_entry → (∀ j r, ¬ has es U j d r) → (length d <= 16)%nat → (length nh <= 16)%nat →
  universal_address_add U d (Z.of_nat (length d)) = Ok (None, U) ∧ exhausted U ∨
  ∃ g p U1 U2, universal_address_add U d (Z.of_nat (length d)) = Ok (Some g, U1) ∧
    universal_address_add U1 nh (Z.of_nat (length nh)) = Ok (p, U2) ∧ same_addrs (refs es) U U2 ∧
    length (universal_address_table U2) = length (universal_address_table U) ∧
    match p with
    | None => exhausted U2 ∧
        ∀ iface fl nhf, let e' := Fib_entry iface 0 fl (Some g) nhf None in
          fib_inv (<[i := e']> es) U2 ∧ entry_route U2 e' = None
    | Some h => ∀ iface fl nhf L, 0 < L <= FIB_LIFETIME_NO_EXPIRE →
        let e' := Fib_entry iface L fl (Some g) nhf (Some h) in
        fib_inv (<[i := e']> es) U2 ∧ entry_route U2 e' = Some (d, Route fl nh nhf iface L)
    end.
Proof.
  intros Hinv Hi Hno Hd Hn. pose proof (refs_lt others rps es) as Hlt. specialize (λ j, Hlt j (inv_room _ _ _ _ Hinv)).
  destruct (acquire _ U d (inv_ua _ _ _ _ Hinv) Hd) as (p & U1 & E1 & HU1 & Hs1 & Hl1 & Hp).
  { intros j. specialize (Hlt j). lia. }
  destruct p as [g|]; [right|left; destruct Hp as [-> Hfull]; split; [done|by eapply full_exhausted, Hfull; apply Hinv]].
  destruct (acquire _ U1 nh HU1 Hn) as (p & U2 & E2 & HU2 & Hs2 & Hl2 & Hp2).
  { intros j. specialize (Hlt j). unfold points. case_decide; lia. }
  assert (same_addrs (refs es) U U2) as Hs by (intros j Hj; rewrite Hs2 by lia; by apply Hs1).
  assert (addr_at U2 g = Some d) as Hg by (rewrite Hs2; [done|rewrite points_Some; lia]).
  assert (∀ e', global e' = Some g → next_hop e' = p → entry_ok e' →
    (∀ a r, entry_route U2 e' = Some (a, r) → a = d) → fib_inv (<[i := e']> es) U2) as Hinv'.
  { intros e' Hg' Hp' He' Ha'. apply (fib_inv_insert others rps es U U2 i no_entry e' Hinv Hi He').
    - eapply ua_inv_ext; [|exact HU2]. intros j. simpl. pose proof (refs_insert others rps es i no_entry e' j Hi) as Hr.
      rewrite Hg', Hp' in Hr. cbn [no_entry global next_hop] in Hr. rewrite !points_None in Hr. lia.
    - intros j ej _ Hj. by eapply entry_route_same.
    - intros a r j ej r' E' Hj Hej E''. apply Ha' in E' as ->. apply (Hno j r'). by exists ej. }
  exists g, p, U1, U2. split; [done|]. split; [done|]. split; [done|]. split; [congruence|]. destruct p as [h|].
  - intros iface fl nhf L HL e'.
    assert (entry_route U2 e' = Some (d, Route fl nh nhf iface L)) as Hroute.
    { unfold entry_route. simpl. rewrite (proj2 (Z.eqb_neq L 0)), Hg, Hp2 by lia. done. }
    split; [|done]. apply Hinv'; [done|done| |by intros a r; rewrite Hroute; intros [= <- _]].
    split; [simpl; lia|]. left. split; [simpl; lia|]. by split.
  - destruct Hp2 as [-> Hfull]. split.
    + by eapply full_exhausted, Hfull.
    + intros iface fl nhf e'. split; [|done]. apply Hinv'; [done|done| |done].
      split; [simpl; unfold FIB_LIFETIME_NO_EXPIRE; lia|]. by right.
Qed.

(** The addresses others and the routing protocols point to stay. *)
Definition keeps (U U' : addresses) : Prop :=
  length (universal_address_table U') = length (universal_address_table U) ∧
  ∀ i, (others i + nrefs rps i ≠ 0)%nat → addr_at U' i = addr_at U i.

Lemma kept_trans U U' U'' : keeps U U' → keeps U' U'' → keeps U U''.
Proof. intros [Hl H] [Hl' H']. split; [congruence|]. intros i Hi. by rewrite H', H. Qed.

Lemma same_addrs_keeps es U U' : same_addrs (refs es) U U' →
  length (universal_address_table U') = length (universal_address_table U) → keeps U U'.
Proof. intros Hs Hl. split; [done|]. intros i Hi. apply Hs. unfold FibInv.refs. lia. Qed.

Lemma same_table_keeps U U' : same_table U U' → keeps U U'.
Proof. intros [Hl Ha]. split; [done|]. intros i _. apply Ha. Qed.

Definition same_routes es U es' U' : Prop := ∀ j a r, has es' U' j a r ↔ has es U j a r.

(** A change of an unused entry to another one. *)
Lemma unused_same es U U' i e e' :
  es !! i = Some e → entry_route U e = None → same_addrs (refs es) U U' → entry_route U' e' = None →
  same_routes es U (<[i := e']> es) U'.
Proof.
  intros Hi He Hs He' j a r. destruct (decide (j = i)) as [->|Hj]; [|by apply (others_same_insert es U U' i e')].
  split; intros (x & Hx & E); [rewrite list_lookup_insert_eq in Hx by (by eapply lookup_lt_Some)|]; congruence.
Qed.

(** What creating an entry did, looking at the entries from [i] on. *)
Definition created time (es : list fib_entry_t) U es' U' (i k0 : nat) (d : list Z) fl nh nhf iface life (ret : Z) (k : nat) : Prop :=
  (ret = 0 ∧ k = looks k0 life ∧ ∃ j, has es' U' j d (Route fl nh nhf iface (expiry time k0 life)) ∧
     others_same es U es' U' j ∧ ∀ a r, ¬ has es U j a r) ∨
  (ret = - ENOMEM ∧ k = k0 ∧ same_routes es U es' U' ∧
   (exhausted U' ∨ U' = U ∧ ∀ j e, (i <= j)%nat → es !! j = Some e → lifetime e ≠ 0)).

Lemma created_mono time es U es1 U1 es' U' i k0 d fl nh nhf iface life ret k :
  same_routes es U es1 U1 → (exhausted U1 ∨ U1 = U ∧ ∀ e, es !! i = Some e → lifetime e ≠ 0) →
  (∀ j, (i < j)%nat → es1 !! j = es !! j) →
  created time es1 U1 es' U' (S i) k0 d fl nh nhf iface life ret k →
  created time es U es' U' i k0 d fl nh nhf iface life ret k.
Proof.
  intros Hs Hi Hj [(-> & -> & j & Hh & Ho & Hn)|(-> & -> & Hr & Hfull)].
  - left. split; [done|]. split; [done|]. exists j. split; [done|]. split.
    + intros x a r Hx. by rewrite (Ho x a r Hx), (Hs x a r).
    + intros a r. by rewrite <- (Hs j a r).
  - right. split; [done|]. split; [done|]. split; [intros x a r; by rewrite (Hr x a r), (Hs x a r)|].
    destruct Hfull as [?|[-> Hfull]]; [by left|]. destruct Hi as [?|[-> Hi]]; [by left|]. right. split; [done|].
    intros x e Hx Hxe. destruct (decide (x = i)) as [->|]; [by apply Hi|].
    apply (Hfull x e); [lia|]. rewrite Hj; [done|lia].
Qed.

(** One attempt on an unused entry. *)
Lemma create_at_spec time es U w i iface d fl nh nhf life :
  clock_ok time → fib_inv es U → w_is w es U → es !! i = Some no_entry → (∀ j r, ¬ has es U j d r) →
  (length d <= 16)%nat → (length nh <= 16)%nat →
  ∃ b e' U' k, create_at time i iface d (Z.of_nat (length d)) fl nh (Z.of_nat (length nh)) nhf life w =
      Ok (b, upd (<[i := e']> es) U' (set_ticks k w)) ∧
    fib_inv (<[i := e']> es) U' ∧ keeps U U' ∧ same_addrs (refs es) U U' ∧
    if b : bool
    then k = looks (ticks w) life ∧
         entry_route U' e' = Some (d, Route fl nh nhf iface (expiry time (ticks w) life))
    else k = ticks w ∧ entry_route U' e' = None ∧ exhausted U'.
Proof.
  intros Ht Hinv Hw Hi Hno Hd Hnh. assert (i < length es)%nat as Hlt by (by eapply lookup_lt_Some). unfold create_at.
  assert (∀ e, <[i := e]> es !! i = Some e) as Hget by (intros e; by apply list_lookup_insert_eq).
  destruct (new_pointers es U i d nh Hinv Hi Hno Hd Hnh)
    as [[E1 Hfull]|(g & p & U1 & U2 & E1 & E2 & Hs & Hl & Hp)]; fstep (ua_add_Ok Hw _ _ _ _ E1).
  { exists false, no_entry, U, (ticks w). fstep (get_entry_Ok (upd_is es U w) i _ Hi).
    fstep (set_entry_Ok (upd_is es U w) i (set_global None no_entry)).
    rewrite (fbind_Ok _ _ (upd (<[i := no_entry]> es) U (upd es U w)) tt _ eq_refl).
    fstep (get_entry_Ok (upd_is (<[i := no_entry]> es) U (upd es U w)) i _ (Hget no_entry)).
    rewrite list_insert_id by done. split; [by destruct w|]. done. }
  fstep (get_entry_Ok (upd_is es U1 w) i _ Hi). set (e1 := set_global (Some g) no_entry).
  fstep (set_entry_Ok (upd_is es U1 w) i e1). rewrite bool_decide_eq_true_2 by done. cbn [fwhen].
  set (e2 := set_next_hop_flags nhf (set_next_hop p (set_global_flags fl e1))).
  assert ((h ← ua_add nh (Z.of_nat (length nh)); e ← get_entry i;
    set_entry i (set_next_hop_flags nhf (set_next_hop h (set_global_flags fl e))))
    (upd (<[i := e1]> es) U1 (upd es U1 w)) = Ok (tt, upd (<[i := e2]> es) U2 w)) as Estep.
  { fstep (ua_add_Ok (upd_is (<[i := e1]> es) U1 (upd es U1 w)) _ _ _ _ E2).
    fstep (get_entry_Ok (upd_is (<[i := e1]> es) U2 (upd es U1 w)) i e1 (Hget e1)).
    by rewrite (set_entry_Ok (upd_is (<[i := e1]> es) U2 (upd es U1 w))), list_insert_insert_eq. }
  fstep Estep. fstep (get_entry_Ok (upd_is (<[i := e2]> es) U2 w) i e2 (Hget e2)). cbn [e2 next_hop set_next_hop_flags set_next_hop].
  destruct p as [h|].
  - rewrite bool_decide_eq_true_2 by done. fstep (set_entry_Ok (upd_is (<[i := e2]> es) U2 w) i (set_iface_id iface e2)).
    rewrite list_insert_insert_eq.
    rewrite (set_life_Ok time _ _ _ i _ life true Ht (upd_is _ U2 _) (Hget _)), list_insert_insert_eq.
    pose proof (expiry_bounds time (ticks w) life Ht). destruct (Ht (ticks w)) as (H0 & _ & _).
    destruct (Hp iface fl nhf (expiry time (ticks w) life) ltac:(lia)) as [Hinv' Hroute].
    eexists true, _, U2, _. split; [reflexivity|]. split; [exact Hinv'|].
    split; [by eapply same_addrs_keeps|]. split; [done|]. split; [done|exact Hroute].
  - rewrite bool_decide_eq_false_2 by (by intros ?). destruct Hp as [Hroom Hp]. destruct (Hp 0 fl nhf) as [Hinv' Hroute].
    exists false, e2, U2, (ticks w). split; [by destruct w|]. split; [exact Hinv'|].
    split; [by eapply same_addrs_keeps|]. done.
Qed.

Lemma create_loop_spec time iface d fl nh nhf life n : ∀ i es U w,
  clock_ok time → fib_inv es U → w_is w es U → (i + n = length es)%nat →
  (∀ j e, (i <= j)%nat → es !! j = Some e → lifetime e = 0 → e = no_entry) → (∀ j r, ¬ has es U j d r) →
  (length d <= 16)%nat → (length nh <= 16)%nat →
  ∃ ret es' U' k,
    create_loop time n i iface d (Z.of_nat (length d)) fl nh (Z.of_nat (length nh)) nhf life w =
      Ok (ret, upd es' U' (set_ticks k w)) ∧
    fib_inv es' U' ∧ length es' = length es ∧ keeps U U' ∧
    created time es U es' U' i (ticks w) d fl nh nhf iface life ret k.
Proof.
  induction n as [|n IH]; intros i es U w Ht Hinv Hw Hn Hfree Hno Hd Hnh; cbn [create_loop].
  { exists (- ENOMEM), es, U, (ticks w). split; [|split; [done|split; [done|split; [done|]]]].
    - unfold mret, F_ret. do 2 f_equal. rewrite <- (upd_id _ _ _ Hw) at 1. by destruct w.
    - right. do 3 (split; [done|]). right. split; [done|]. intros j e Hj Hje. apply lookup_lt_Some in Hje. lia. }
  destruct (lookup_lt_is_Some_2 es i ltac:(lia)) as [e Hi]. fstep (get_entry_Ok Hw i e Hi).
  assert (∀ es1 U1, fib_inv es1 U1 → same_routes es U es1 U1 → keeps U U1 → length es1 = length es →
    (exhausted U1 ∨ U1 = U ∧ ∀ e, es !! i = Some e → lifetime e ≠ 0) →
    (∀ j, (i < j)%nat → es1 !! j = es !! j) → ∃ ret es' U' k,
    create_loop time n (S i) iface d (Z.of_nat (length d)) fl nh (Z.of_nat (length nh)) nhf life (upd es1 U1 w) =
      Ok (ret, upd es' U' (set_ticks k w)) ∧
    fib_inv es' U' ∧ length es' = length es ∧ keeps U U' ∧
    created time es U es' U' i (ticks w) d fl nh nhf iface life ret k) as Hnext.
  { intros es1 U1 Hinv1 Hs1 Hk1 Hl1 Hr1 Hj1.
    destruct (IH (S i) es1 U1 (upd es1 U1 w)) as (ret & es' & U' & k & E & Hinv' & Hl' & Hk' & Hc);
      [done|done|done|lia| |by intros j r; rewrite (Hs1 j d r)|done|done|].
    - intros j e' Hj He' Hl0. rewrite Hj1 in He' by lia. apply (Hfree j); [lia|done|done].
    - exists ret, es', U', k. split; [done|]. split; [done|]. split; [congruence|].
      split; [by eapply kept_trans|by eapply created_mono]. }
  destruct (Z.eqb_spec (lifetime e) 0) as [Hl0|Hl0].
  2:{ rewrite (fbind_Ok _ _ w false w eq_refl). specialize (Hnext es U). rewrite (upd_id _ _ _ Hw) in Hnext.
      apply Hnext; [done|done|done|done| |done]. right. split; [done|]. intros e' He'. congruence. }
  rewrite (Hfree i e (le_n i) Hi Hl0) in Hi.
  destruct (create_at_spec time es U w i iface d fl nh nhf life Ht Hinv Hw Hi Hno Hd Hnh)
    as ([|] & e' & U' & k & E & Hinv' & Hk & Hs & Hres); fstep E.
  - destruct Hres as [-> Hroute]. exists 0, (<[i := e']> es), U', (looks (ticks w) life).
    split; [done|]. split; [done|]. split; [apply length_insert|]. split; [done|]. left. split; [done|]. split; [done|].
    exists i. split; [exists e'; by rewrite list_lookup_insert_eq by (by eapply lookup_lt_Some)|].
    split; [by apply others_same_insert|]. intros a r (x & Hx & Ex). by simplify_eq.
  - destruct Hres as (-> & Hroute & Hroom). replace (set_ticks (ticks w) w) with w by (by destruct w).
    apply Hnext; [done| |done|apply length_insert|by left|].
    + by apply (unused_same es U U' i no_entry e').
    + intros j Hj. rewrite list_lookup_insert_ne by lia. done.
Qed.

(** ** Removing entries *)

Lemma entry_route_iface U e a r : entry_route U e = Some (a, r) → r_iface r = iface_id e.
Proof.
  unfold entry_route. case_match; [done|]. destruct (global e ≫= addr_at U); [|done].
  destruct (next_hop e ≫= addr_at U); [|done]. by intros [= <- <-].
Qed.

(** Removing an entry or not. *)
Lemma remove_if_spec hit es U w i e :
  fib_inv es U → w_is w es U → es !! i = Some e →
  ∃ es' U', fwhen hit (fib_remove i) w = Ok (tt, upd es' U' w) ∧ fib_inv es' U' ∧ length es' = length es ∧
    same_table U U' ∧ ∀ j a r, has es' U' j a r ↔ has es U j a r ∧ (j ≠ i ∨ hit = false).
Proof.
  intros Hinv Hw Hi. destruct hit; cbn [fwhen].
  - destruct (fib_remove_spec others rps es U w i e Hinv Hw Hi) as (U1 & E1 & Hinv1 & Hs1).
    exists (<[i := no_entry]> es), U1. split; [done|]. split; [done|]. split; [apply length_insert|]. split; [done|].
    intros j a r. destruct (decide (j = i)) as [->|Hj].
    + split; [|by intros [_ [?|?]]]. intros (x & Hx & Ex).
      rewrite list_lookup_insert_eq in Hx by (by eapply lookup_lt_Some). by simplify_eq.
    + rewrite (has_other es U U1 i no_entry j a r (proj2 Hs1) Hj). naive_solver.
  - exists es, U. split; [by rewrite (upd_id _ _ _ Hw)|]. do 3 (split; [done|]). naive_solver.
Qed.

Lemma flush_loop_spec interface n : ∀ i es U w,
  fib_inv es U → w_is w es U → (i + n = length es)%nat →
  ∃ es' U', flush_loop n i interface w = Ok (tt, upd es' U' w) ∧ fib_inv es' U' ∧ length es' = length es ∧ same_table U U' ∧
    ∀ j a r, has es' U' j a r ↔
      has es U j a r ∧ ((j < i)%nat ∨ interface ≠ KERNEL_PID_UNDEF ∧ interface ≠ r_iface r).
Proof.
  induction n as [|n IH]; intros i es U w Hinv Hw Hn; cbn [flush_loop].
  { exists es, U. split; [by rewrite (upd_id _ _ _ Hw)|]. do 3 (split; [done|]). intros j a r. split; [|by intros [? _]].
    intros Hh. split; [done|]. destruct Hh as (e & He & _). apply lookup_lt_Some in He. lia. }
  destruct (lookup_lt_is_Some_2 es i ltac:(lia)) as [e Hi]. fstep (get_entry_Ok Hw i e Hi).
  set (hit := (interface =? KERNEL_PID_UNDEF) || (interface =? iface_id e)).
  destruct (remove_if_spec hit es U w i e Hinv Hw Hi) as (es1 & U1 & E1 & Hinv1 & Hl1 & Hs1 & Hh1).
  fstep E1. destruct (IH (S i) es1 U1 (upd es1 U1 w) Hinv1 (upd_is _ _ _) ltac:(lia)) as (es' & U' & E' & Hinv' & Hl' & Hs' & Hh').
  exists es', U'. split; [done|]. split; [done|]. split; [congruence|]. split; [by eapply same_table_trans|].
  intros j a r. rewrite Hh', Hh1. split.
  - intros [[Hh Hj] Hr]. split; [done|]. destruct (decide (j = i)) as [->|]; [|destruct Hr; [left; lia|by right]].
    destruct Hj as [?|Hj]; [done|]. right. destruct Hh as (x & Hx & Ex). simplify_eq.
    rewrite (entry_route_iface _ _ _ _ Ex). lia.
  - intros [Hh Hr]. split; [|destruct Hr; [left; lia|by right]]. split; [done|].
    destruct (decide (j = i)) as [->|]; [right|by left]. destruct Hr as [?|[H1 H2]]; [lia|].
    destruct Hh as (x & Hx & Ex). simplify_eq. rewrite (entry_route_iface _ _ _ _ Ex) in H2. lia.
Qed.
End Ops.

(** ** Changes of the map of routes *)

Lemma rep_same now es U es' U' M : rep now es U M → same_routes es U es' U' → rep now es' U' M.
Proof. intros HM Hs a r. rewrite (HM a r). by setoid_rewrite (Hs _ a r). Qed.

Lemma rep_insert now es U es' U' M i d r :
  rep now es U M → others_same es U es' U' i → has es' U' i d r → now <= r_expiry r →
  (∀ j r', j ≠ i → ¬ has es U j d r') → (∀ a' r', has es U i a' r' → a' = d) →
  rep now es' U' (<[d := r]> M).
Proof.
  intros HM Ho Hi Hr Hother Hold a r'. destruct (decide (a = d)) as [->|Ha].
  - rewrite lookup_insert_eq. split; [intros [= <-]; eauto|]. intros [(j & Hj) _].
    destruct (decide (j = i)) as [->|Hji].
    + destruct Hi as (e & He & E), Hj as (e' & He' & E'). by simplify_eq.
    + apply Ho in Hj; [|done]. by apply Hother in Hj.
  - rewrite lookup_insert_ne, (HM a r') by done. f_equiv. split; intros (j & Hj); exists j.
    + apply Ho; [|done]. intros ->. by apply Hold in Hj.
    + apply Ho; [|done]. intros ->. destruct Hi as (e & He & E), Hj as (e' & He' & E'). by simplify_eq.
Qed.

Lemma rep_delete now es U es' U' M i d :
  rep now es U M → others_same es U es' U' i → (∀ a r, ¬ has es' U' i a r) →
  (∀ j r', j ≠ i → ¬ has es U j d r') → (∀ a' r', has es U i a' r' → a' = d) →
  rep now es' U' (delete d M).
Proof.
  intros HM Ho Hi Hother Hold a r. destruct (decide (a = d)) as [->|Ha].
  - rewrite lookup_delete_eq. split; [done|]. intros [(j & Hj) _]. destruct (decide (j = i)) as [->|Hji]; [by apply Hi in Hj|].
    apply Ho in Hj; [|done]. by apply Hother in Hj.
  - rewrite lookup_delete_ne, (HM a r) by done. f_equiv. split; intros (j & Hj); exists j.
    + apply Ho; [|done]. intros ->. by apply Hold in Hj.
    + apply Ho; [|done]. intros ->. by apply Hi in Hj.
Qed.
