(* ===== verification/FibTable.v ===== *)
(** * The theorems on the forwarding information base

    Every sequence of calls is simulated by calls on a finite map of routes:
    expired routes vanish, packets go along the longest prefix, and a call runs
    out of memory only when all entries hold routes or all containers are in use. *)

From S2P Require Import Prelude Words UniversalAddress Fib FibInv FibFind FibOps.
Open Scope Z_scope.

(** ** Routing protocols *)

(** The registered routing protocols and their prefixes. *)
Inductive rp_rep (U : addresses) : list Z → list (option nat) → list (Z * list Z) → Prop :=
  | rp_nil : rp_rep U [] [] []
  | rp_skip p pids ps R : rp_rep U pids ps R → rp_rep U (KERNEL_PID_UNDEF :: pids) (p :: ps) R
  | rp_cons pid i a pids ps R :
      pid ≠ KERNEL_PID_UNDEF → addr_at U i = Some a → rp_rep U pids ps R →
      rp_rep U (pid :: pids) (Some i :: ps) ((pid, a) :: R).

Lemma rp_rep_same U U' pids ps R :
  rp_rep U pids ps R → (∀ i, Some i ∈ ps → addr_at U' i = addr_at U i) → rp_rep U' pids ps R.
Proof.
  induction 1 as [|p pids ps R _ IH|pid i a pids ps R Hp Ha _ IH]; intros Hs; constructor.
  - apply IH. set_solver.
  - done.
  - rewrite Hs by set_solver. done.
  - apply IH. set_solver.
Qed.

(** The messages about an address that cannot be reached: to every routing
    protocol whose prefix has the length of the address. *)
Definition signals (R : list (Z * list Z)) (d : list Z) (flags : Z) : list (Z * Z * rp_content) :=
  (λ p, (p.1, FIB_MSG_RP_SIGNAL_UNREACHABLE_DESTINATION, Rp_address d (Z.of_nat (length d)) flags)) <$>
  filter (λ p, length p.2 = length d) R.

Lemma compare_reply U i c d :
  universal_address_table U !! i = Some c → container_wf c → (length d <= 16)%nat →
  ∃ ret n, universal_address_compare U (Some i) d (Z.of_nat (length d) * 8) = Ok (ret, n) ∧
    (ret =? - ENOENT) = negb (bool_decide (length (content c) = length d)).
Proof.
  intros Hi Hwf Hd. pose proof (content_length c Hwf) as Hl.
  destruct (bool_decide_reflect (length (content c) = length d)).
  - eexists _, _. split; [rewrite (universal_address_compare_spec U i c d) by (done || lia); apply f_equal, surjective_pairing|].
    destruct (zeros (content c)); [done|]. by destruct (bool_decide (content c = d)).
  - exists (- ENOENT), (Z.of_nat (length d) * 8). split; [|done]. apply (universal_address_compare_size U i c); [done|lia].
Qed.

Lemma signal_loop_spec refs U d flags pids ps R : ∀ w ret,
  rp_rep U pids ps R → ua_inv refs U → ua w = U → (0 < length d <= 16)%nat →
  signal_loop pids ps FIB_MSG_RP_SIGNAL_UNREACHABLE_DESTINATION (Rp_address d (Z.of_nat (length d)) flags) d
      (Z.of_nat (length d)) ret w =
    Ok (if bool_decide (signals R d flags = []) then ret else 0, set_sent (sent w ++ signals R d flags) w).
Proof.
  intros w ret HR HU Hw Hd. revert w ret Hw. induction HR as [|p pids ps R HR IH|pid i a pids ps R Hp Ha HR IH];
    intros w ret Hw; cbn [signal_loop].
  - unfold signals. simpl. rewrite app_nil_r. by destruct w.
  - by rewrite (fbind_Ok _ _ w ret w eq_refl), IH.
  - rewrite (proj2 (Z.eqb_neq _ _) Hp). cbn [negb]. unfold addr_at in Ha.
    destruct (universal_address_table U !! i) as [c|] eqn:Hc; [|done]. injection Ha as <-.
    destruct (ua_container _ _ HU i c Hc) as (Hwf & _).
    destruct (compare_reply U i c d Hc Hwf ltac:(lia)) as (r & n & E & Er).
    assert (u32 (Z.shiftl (Z.of_nat (length d)) 3) = Z.of_nat (length d) * 8) as -> by (apply (bits_eq d Hd)).
    assert (ua_get (λ U, universal_address_compare U (Some i) d (Z.of_nat (length d) * 8)) w = Ok ((r, n), w)) as Eg.
    { unfold ua_get. by rewrite Hw, E. }
    unfold signals. rewrite filter_cons. cbn [snd].
    destruct (bool_decide_reflect (length (content c) = length d)) as [Hl|Hl]; cbn [negb] in Er.
    + rewrite (decide_True _ _ Hl).
      erewrite fbind_Ok by (rewrite (fbind_Ok _ _ _ _ _ Eg), Er; reflexivity). cbn [fst]. rewrite IH by done.
      rewrite fmap_cons. fold (signals R d flags). rewrite (bool_decide_eq_false_2 (_ :: _ = [])) by done.
      cbn. rewrite <- app_assoc. by case_bool_decide.
    + rewrite (decide_False _ _ Hl).
      erewrite fbind_Ok by (rewrite (fbind_Ok _ _ _ _ _ Eg), Er; reflexivity). by rewrite IH.
Qed.

(** ** Calls and their specification *)

Inductive call : Type :=
  | Add (iface : Z) (dst : list Z) (dst_flags : Z) (nh : list Z) (nh_flags life : Z)
  | Update (dst nh : list Z) (nh_flags life : Z)
  | Remove (dst : list Z)
  | Flush (interface : Z)
  | Route_to (iface0 flags0 : Z) (buf dst : list Z) (dst_flags : Z).

Inductive outcome : Type :=
  | Value (ret : Z)
  | Nothing
  | Hop (ret : Z) (out : next_hop_t).

(** The addresses are at most as long as a container, and the destinations of
    new routes are addresses or prefixes of whole bytes. *)
Definition allowed (c : call) : Prop :=
  match c with
  | Add iface dst fl nh _ _ => (0 < length dst <= 16)%nat ∧ (length nh <= 16)%nat ∧ canonical dst (Route fl [] 0 0 0)
  | Update dst nh _ _ => (0 < length dst <= 16)%nat ∧ (length nh <= 16)%nat
  | Remove dst | Route_to _ _ _ dst _ => (0 < length dst <= 16)%nat
  | Flush _ => True
  end.

(** What a lookup leaves behind its pointers. *)
Definition hop (iface0 flags0 : Z) (buf : list Z) (r : route) : outcome :=
  let n := length (r_next_hop r) in
  if (n <=? length buf)%nat
  then Hop 0 (Next_hop (Some (r_iface r)) (Some (r_next_hop r ++ drop n buf)) (Some (Z.of_nat n)) (Some (r_next_hop_flags r)))
  else Hop (- ENOBUFS) (Next_hop (Some iface0) (Some buf) (Some (Z.of_nat n)) (Some flags0)).

Section Simulation.
Context (time : nat → Z) (others : nat → nat) (rps : list (option nat)) (pids : list Z).
Context (R : list (Z * list Z)) (N T : nat).

Definition exec (c : call) : F outcome :=
  match c with
  | Add iface dst fl nh nhf life =>
      r ← fib_add_entry time iface (Some dst) (Z.of_nat (length dst)) fl (Some nh) (Z.of_nat (length nh)) nhf life;
      mret (Value r)
  | Update dst nh nhf life =>
      r ← fib_update_entry time (Some dst) (Z.of_nat (length dst)) (Some nh) (Z.of_nat (length nh)) nhf life;
      mret (Value r)
  | Remove dst => _ ← fib_remove_entry time dst (Z.of_nat (length dst)); mret Nothing
  | Flush interface => _ ← fib_flush interface; mret Nothing
  | Route_to iface0 flags0 buf dst fl =>
      '(r, out) ← fib_get_next_hop time
        (Next_hop (Some iface0) (Some buf) (Some (Z.of_nat (length buf))) (Some flags0))
        (Some dst) (Z.of_nat (length dst)) fl;
      mret (Hop r out)
  end.

(** The route that replaces [r]. *)
Definition updated (r : route) nh nhf life (k : nat) : route :=
  Route (r_flags r) nh nhf (r_iface r) (expiry time k life).

(** A call at the [k]-th look at the clock on the routes [M], what it returns,
    the messages it sends, and the looks and routes after it; [full] says that
    all address containers are in use. *)
Inductive step (full : Prop) (k : nat) (M : gmap (list Z) route)
    : call → outcome → list (Z * Z * rp_content) → nat → gmap (list Z) route → Prop :=
  | step_add_new iface dst fl nh nhf life :
      live (time k) M !! dst = None →
      step full k M (Add iface dst fl nh nhf life) (Value 0) [] (looks (S k) life)
        (<[dst := Route fl nh nhf iface (expiry time (S k) life)]> (live (time k) M))
  | step_add_known iface dst fl nh nhf life r :
      live (time k) M !! dst = Some r →
      step full k M (Add iface dst fl nh nhf life) (Value 0) [] (looks (S k) life)
        (<[dst := updated r nh nhf life (S k)]> (live (time k) M))
  | step_add_nomem iface dst fl nh nhf life :
      full ∨ live (time k) M !! dst = None ∧ (T <= size (live (time k) M))%nat →
      step full k M (Add iface dst fl nh nhf life) (Value (- ENOMEM)) [] (S k) (live (time k) M)
  | step_update dst nh nhf life r :
      live (time k) M !! dst = Some r →
      step full k M (Update dst nh nhf life) (Value 0) [] (looks (S k) life)
        (<[dst := updated r nh nhf life (S k)]> (live (time k) M))
  | step_update_none dst nh nhf life :
      full ∨ live (time k) M !! dst = None →
      step full k M (Update dst nh nhf life) (Value (- ENOMEM)) [] (S k) (live (time k) M)
  | step_remove dst :
      step full k M (Remove dst) Nothing [] (S k) (delete dst (live (time k) M))
  | step_flush interface :
      step full k M (Flush interface) Nothing [] k
        (filter (λ p, interface ≠ KERNEL_PID_UNDEF ∧ interface ≠ r_iface p.2) M)
  | step_lookup iface0 flags0 buf dst fl r :
      forwards (live (time k) M) dst (Some r) →
      step full k M (Route_to iface0 flags0 buf dst fl) (hop iface0 flags0 buf r) [] (S k) (live (time k) M)
  | step_unreachable iface0 flags0 buf dst fl :
      forwards (live (time k) M) dst None →
      let k' := if bool_decide (signals R dst fl = []) then S k else S (S k) in
      step full k M (Route_to iface0 flags0 buf dst fl)
        (Hop (- EHOSTUNREACH) (Next_hop (Some iface0) (Some buf) (Some (Z.of_nat (length buf))) (Some flags0)))
        (signals R dst fl) k' (live (time (pred k')) M).

(** The entries [es] of the table hold the routes [M]. *)
Record fib_state (w : world) (es : list fib_entry_t) (M : gmap (list Z) route) : Prop := {
  st_is : w_is w es (ua w);
  st_sizes : length es = T ∧ length (universal_address_table (ua w)) = N;
  st_rps : notify_rp (table w) = pids ∧ prefix_rp (table w) = rps ∧ rp_rep (ua w) pids rps R;
  st_unlocked : mtx_access (table w) = false;
  st_inv : fib_inv others rps es (ua w);
  st_rep : ∃ now, now <= time (ticks w) ∧ rep now es (ua w) M;
  st_canonical : ∀ a r, M !! a = Some r → canonical a r
}.

Definition fib_rep (w : world) (M : gmap (list Z) route) : Prop := ∃ es, fib_state w es M.

Context (Ht : clock_ok time).

(** ** Locking, and the state after a call *)

Definition locked (w : world) : world := set_table (set_mtx_access true (table w)) w.

Lemma lock_Ok w es M : fib_state w es M → mutex_lock w = Ok (tt, locked w).
Proof. intros Hst. unfold mutex_lock. by rewrite (st_unlocked _ _ _ Hst). Qed.

Lemma unlock_Ok w es M : fib_state w es M → mutex_unlock (locked w) = Ok (tt, w).
Proof.
  intros Hst. unfold mutex_unlock, fmodify. do 2 f_equal. pose proof (st_unlocked _ _ _ Hst) as E.
  destruct w as [[d m p n r] U t x]. simpl in *. by subst.
Qed.

Lemma keeps_rps U U' : keeps others rps U U' → rp_rep U pids rps R → rp_rep U' pids rps R.
Proof.
  intros [_ Hk] HR. apply (rp_rep_same U); [done|]. intros i Hi. apply Hk.
  apply list_elem_of_lookup in Hi as [j Hj]. apply nrefs_elem in Hj. lia.
Qed.

Lemma upd_state w es M es' U' k M' now :
  fib_state w es M → fib_inv others rps es' U' → length es' = length es → keeps others rps (ua w) U' →
  rep now es' U' M' → now <= time k → (∀ a r, M' !! a = Some r → canonical a r) →
  fib_state (upd es' U' (set_ticks k w)) es' M'.
Proof.
  intros Hst Hinv Hl Hk HM Hn Hc. destruct (st_sizes _ _ _ Hst), (st_rps _ _ _ Hst) as (? & ? & ?).
  split; [done| | |exact (st_unlocked _ _ _ Hst)|done|by exists now|done].
  - split; [congruence|]. simpl. destruct Hk. congruence.
  - split; [done|]. split; [done|]. by eapply keeps_rps.
Qed.

Lemma sent_state w es M l : fib_state w es M → fib_state (set_sent l w) es M.
Proof. intros [H1 H2 H3 H4 H5 H6 H7]. split; [by destruct H1|done..]. Qed.

Lemma live_canonical (M : gmap (list Z) route) now : (∀ a r, M !! a = Some r → canonical a r) → ∀ a r, live now M !! a = Some r → canonical a r.
Proof. intros Hc a r Hl. apply live_lookup in Hl as [? _]. by apply Hc. Qed.

Lemma insert_canonical (M : gmap (list Z) route) a0 r0 :
  (∀ a r, M !! a = Some r → canonical a r) → canonical a0 r0 → ∀ a r, <[a0 := r0]> M !! a = Some r → canonical a r.
Proof. intros Hc H0 a r. rewrite lookup_insert_Some. intros [[<- <-]|[_ ?]]; [done|by apply Hc]. Qed.

(** The search of a call that holds the mutex. *)
Lemma find_locked w es M d :
  fib_state w es M → (0 < length d <= 16)%nat →
  let now := time (ticks w) in
  ∃ w1 es1 ret en count,
    fib_find_entry time d (Z.of_nat (length d)) (locked w) = Ok ((ret, en, count), locked w1) ∧
    ticks w1 = S (ticks w) ∧ sent w1 = sent w ∧ fib_state w1 es1 (live now M) ∧ rep now es1 (ua w1) (live now M) ∧
    ((ret = 1 ∧ ∃ i r, en = Some i ∧ has es1 (ua w1) i d r ∧ live now M !! d = Some r) ∨
     (ret ≠ 1 ∧ live now M !! d = None ∧ (∀ i e, es1 !! i = Some e → clean now e) ∧ (∀ i r, ¬ has es1 (ua w1) i d r))) ∧
    ((ret = 0 ∨ ret = 1) ∧ (∃ i a r, en = Some i ∧ has es1 (ua w1) i a r ∧ forwards (live now M) d (Some r)) ∨
     ret = - EHOSTUNREACH ∧ forwards (live now M) d None).
Proof.
  intros Hst Hd now. destruct (st_rep _ _ _ Hst) as (now0 & Hn & HM). destruct (Ht (ticks w)) as (H0 & Hm & Hb).
  destruct (fib_find_entry_spec others rps time es (ua w) (locked w) d) as (es1 & U1 & ret & en & count & E & Hr);
    [exact (st_inv _ _ _ Hst)|by destruct (st_is _ _ _ Hst)|unfold FIB_LIFETIME_NO_EXPIRE in *; simpl; lia|done|].
  pose proof (live_canonical M now (st_canonical _ _ _ Hst)) as Hcan.
  destruct (found_forwards _ _ _ _ _ _ _ _ _ _ _ M Hr HM Hn Hcan) as [HM1 Hfw].
  pose proof Hr as (Hinv & [Hl Hs] & Hlive & Hres). fold now in HM1, Hfw.
  exists (upd es1 U1 (set_ticks (S (ticks w)) w)), es1, ret, en, count. do 3 (split; [done|]).
  split; [by eapply upd_state, Hcan; [..|done]; [| | |by apply same_table_keeps|]|]. split; [done|]. split.
  - destruct Hres as [(-> & i & r & -> & Hh & Hal)|(Hcl & Hno & ps & Hf)].
    + left. split; [done|]. exists i, r. split; [done|]. split; [done|]. apply HM1. eauto.
    + right. split; [by destruct Hf|]. split; [|done]. destruct (live now M !! d) as [r|] eqn:Ed; [|done].
      apply HM1 in Ed as [(i & Hi) _]. by apply Hno in Hi.
  - destruct Hfw as [(Hret & i & a & r & -> & Hh & _ & Hf)|?]; [left|by right]. split; [done|]. by exists i, a, r.
Qed.

(** ** The calls *)

Lemma entry_owner es U i d r : fib_inv others rps es U → has es U i d r →
  (∀ j r', j ≠ i → ¬ has es U j d r') ∧ (∀ a r', has es U i a r' → a = d).
Proof.
  intros Hinv (e & Hi & E). split.
  - intros j r' Hj (e' & Hj' & E'). apply Hj. by eapply (inv_unique _ _ _ _ Hinv j i e' e d).
  - intros a r' (e' & Hi' & E'). by simplify_eq.
Qed.

(** Another next hop for a route that was found. *)
Lemma upd_locked w es M i d r nh nhf life :
  fib_state w es M → rep (time (pred (ticks w))) es (ua w) M → has es (ua w) i d r → M !! d = Some r → (length nh <= 16)%nat →
  ∃ w' ret, fib_upd_entry time i nh (Z.of_nat (length nh)) nhf life (locked w) = Ok (ret, locked w') ∧ sent w' = sent w ∧
    (ret = 0 ∧ ticks w' = looks (ticks w) life ∧ fib_rep w' (<[d := updated r nh nhf life (ticks w)]> M) ∨
     ret = - ENOMEM ∧ ticks w' = ticks w ∧ fib_rep w' M ∧ exhausted (ua w')).
Proof.
  intros Hst HM Hh Hd Hn. destruct (st_sizes _ _ _ Hst) as [HT HN].
  destruct (fib_upd_entry_spec others rps time es (ua w) (locked w) i d r nh nhf life) as (ret & es' & U' & k & E & Hinv & Hl & HlU & Hs & Ho & Hres);
    [done|exact (st_inv _ _ _ Hst)|by destruct (st_is _ _ _ Hst)|done|done|].
  exists (upd es' U' (set_ticks k w)), ret. split; [done|]. split; [done|]. simpl in Hres.
  destruct Hres as [(-> & -> & Hh')|(-> & -> & -> & -> & Hroom)].
  - left. split; [done|]. split; [done|]. exists es'. destruct (entry_owner _ _ _ _ _ (st_inv _ _ _ Hst) Hh) as [H1 H2].
    assert (time (pred (ticks w)) <= time (ticks w) ∧ time (ticks w) <= time (looks (ticks w) life)) as [Hn1 Hn2].
    { split; [destruct (ticks w) as [|t]; [done|apply Ht]|]. unfold looks. case_match; [done|apply Ht]. }
    eapply (upd_state w es M); [done|done|done|by eapply same_addrs_keeps| | |].
    + eapply rep_insert; [exact HM|done|exact Hh'| |done|done].
      exact (Z.le_trans _ _ _ Hn1 (proj1 (expiry_bounds time (ticks w) life Ht))).
    + exact (Z.le_trans _ _ _ Hn1 Hn2).
    + apply insert_canonical; [exact (st_canonical _ _ _ Hst)|]. exact (st_canonical _ _ _ Hst d r Hd).
  - right. split; [done|]. split; [done|]. split; [|done]. exists es.
    replace (upd es (ua w) (set_ticks (ticks w) w)) with w; [done|]. rewrite <- (upd_id _ _ _ (st_is _ _ _ Hst)) at 1.
    by destruct w.
Qed.

(** A table without an unused entry has as many routes as entries. *)
Lemma full_size now es U M :
  fib_inv others rps es U → rep now es U M → (∀ i e, es !! i = Some e → clean now e) →
  (∀ i e, es !! i = Some e → lifetime e ≠ 0) → (length es <= size M)%nat.
Proof.
  intros Hinv HM Hcl Hused. set (f := λ e, from_option fst [] (entry_route U e)).
  assert (∀ i e, es !! i = Some e → ∃ r, entry_route U e = Some (f e, r) ∧ M !! f e = Some r) as Hf.
  { intros i e Hi. destruct (entry_clean_route others rps es U i e now Hinv Hi (Hcl i e Hi)) as [->|(a & r & E & Hr)].
    - by destruct (Hused i _ Hi).
    - exists r. unfold f. rewrite E. simpl. split; [done|]. apply HM. split; [by exists i, e|done]. }
  rewrite <- (length_fmap f es), <- size_dom. rewrite <- (size_list_to_set (C := gset (list Z)) (f <$> es)).
  - apply subseteq_size. intros a Ha. apply elem_of_list_to_set, list_elem_of_fmap in Ha as (e & -> & He).
    apply list_elem_of_lookup in He as [i Hi]. destruct (Hf i e Hi) as (r & _ & Hr). by apply elem_of_dom_2 in Hr.
  - apply NoDup_alt. intros i j a Hi Hj. rewrite list_lookup_fmap in Hi, Hj.
    destruct (es !! i) as [e|] eqn:Ei, (es !! j) as [e'|] eqn:Ej; simplify_eq/=.
    destruct (Hf i e Ei) as (r & E & _), (Hf j e' Ej) as (r' & E' & _). rewrite Hi in E. by eapply (inv_unique _ _ _ _ Hinv i j e e').
Qed.

Lemma pred_looks w life : (0 < ticks w)%nat →
  time (pred (ticks w)) <= time (ticks w) ∧ time (ticks w) <= time (looks (ticks w) life).
Proof.
  intros _. split; [destruct (ticks w) as [|t]; [done|apply Ht]|]. unfold looks. case_match; [done|apply Ht].
Qed.

(** A new route. *)
Lemma create_locked w es M iface d fl nh nhf life :
  fib_state w es M → rep (time (pred (ticks w))) es (ua w) M → (0 < ticks w)%nat → M !! d = None →
  (∀ i e, es !! i = Some e → clean (time (pred (ticks w))) e) → (∀ i r, ¬ has es (ua w) i d r) →
  (length d <= 16)%nat → (length nh <= 16)%nat → canonical d (Route fl [] 0 0 0) →
  ∃ w' ret, fib_create_entry time iface d (Z.of_nat (length d)) fl nh (Z.of_nat (length nh)) nhf life (locked w) =
      Ok (ret, locked w') ∧ sent w' = sent w ∧
    (ret = 0 ∧ ticks w' = looks (ticks w) life ∧
       fib_rep w' (<[d := Route fl nh nhf iface (expiry time (ticks w) life)]> M) ∨
     ret = - ENOMEM ∧ ticks w' = ticks w ∧ fib_rep w' M ∧ (exhausted (ua w') ∨ (T <= size M)%nat)).
Proof.
  intros Hst HM Hk Hd Hcl Hno Hld Hln Hcan. destruct (st_sizes _ _ _ Hst) as [HT HN]. unfold fib_create_entry.
  assert (w_is (locked w) es (ua w)) as Hw by (by destruct (st_is _ _ _ Hst)). fstep (get_entries_Ok Hw).
  destruct (create_loop_spec others rps time iface d fl nh nhf life (length es) 0 es (ua w) (locked w))
    as (ret & es' & U' & k & E & Hinv & Hl & Hkeep & Hres); [done|exact (st_inv _ _ _ Hst)|done|done| |done..|].
  { intros j e _ Hj Hl0. destruct (Hcl j e Hj) as [->|[(? & _) _]]; done. }
  destruct (pred_looks w life Hk) as [Hn1 Hn2]. exists (upd es' U' (set_ticks k w)), ret. split; [done|]. split; [done|].
  destruct Hres as [(-> & -> & j & Hh & Ho & Hnone)|(-> & -> & Hs & Hfull)].
  - left. split; [done|]. split; [done|]. exists es'. eapply (upd_state w es M);
      [done|done|done|done| |exact (Z.le_trans _ _ _ Hn1 Hn2)|].
    + eapply rep_insert; [exact HM|exact Ho|exact Hh| |intros j' r' _; apply Hno|intros a' r' Ha'; by apply Hnone in Ha'].
      exact (Z.le_trans _ _ _ Hn1 (proj1 (expiry_bounds time (ticks w) life Ht))).
    + apply insert_canonical; [exact (st_canonical _ _ _ Hst)|done].
  - right. split; [done|]. split; [done|]. split.
    + exists es'. eapply (upd_state w es M); [done|done|done|done|by eapply rep_same|done|exact (st_canonical _ _ _ Hst)].
    + destruct Hfull as [?|[_ Hfull]]; [by left|right].
      rewrite <- HT. eapply full_size; [exact (st_inv _ _ _ Hst)|exact HM|done|]. intros i e. apply (Hfull i e). lia.
Qed.

(** ** Simulation *)

(** A call does what its specification says. *)
Definition simulated (w : world) (M : gmap (list Z) route) (c : call) : Prop :=
  ∃ o w' M', exec c w = Ok (o, w') ∧ fib_rep w' M' ∧
    ∃ sigs, sent w' = sent w ++ sigs ∧ step (exhausted (ua w')) (ticks w) M c o sigs (ticks w') M'.

Lemma exec_add w M iface dst fl nh nhf life :
  fib_rep w M → allowed (Add iface dst fl nh nhf life) → simulated w M (Add iface dst fl nh nhf life).
Proof.
  intros [es Hst] (Hd & Hn & Hcan). unfold simulated, exec, fib_add_entry.
  destruct (find_locked w es M dst Hst Hd) as (w1 & es1 & ret & en & count & E1 & Hk1 & Hs1 & Hst1 & HM1 & Hfound & _).
  set (M1 := live (time (ticks w)) M) in *.
  assert (∃ w2 r2, (if ret =? 1 then i ← flift (from_option_or BadPointer en);
      fib_upd_entry time i nh (Z.of_nat (length nh)) nhf life
    else fib_create_entry time iface dst (Z.of_nat (length dst)) fl nh (Z.of_nat (length nh)) nhf life) (locked w1) =
    Ok (r2, locked w2) ∧ sent w2 = sent w ∧ ∃ M2, fib_rep w2 M2 ∧
    step (exhausted (ua w2)) (ticks w) M (Add iface dst fl nh nhf life) (Value r2) [] (ticks w2) M2) as (w2 & r2 & E2 & Hs2 & M2 & [es2 Hst2] & Hstep).
  { destruct Hfound as [(-> & i & r & -> & Hh & Hr)|(Hret & Hnone & Hcl & Hno)].
    - rewrite (Z.eqb_refl 1), (fbind_Ok _ _ _ _ _ (deref_Ok BadPointer i (locked w1))).
      destruct (upd_locked w1 es1 M1 i dst r nh nhf life) as (w2 & r2 & E2 & Hs2 & Hres); [done|by rewrite Hk1|done|done|done|].
      exists w2, r2. split; [done|]. split; [congruence|]. rewrite Hk1 in Hres.
      destruct Hres as [(-> & -> & Hr2)|(-> & -> & Hr2 & Hroom)].
      + eexists. split; [exact Hr2|]. by apply step_add_known.
      + eexists. split; [exact Hr2|]. apply step_add_nomem. by left.
    - rewrite (proj2 (Z.eqb_neq _ _) Hret).
      destruct (create_locked w1 es1 M1 iface dst fl nh nhf life) as (w2 & r2 & E2 & Hs2 & Hres);
        [done|by rewrite Hk1|lia|done|by rewrite Hk1|done|lia|done|done|].
      exists w2, r2. split; [done|]. split; [congruence|]. rewrite Hk1 in Hres.
      destruct Hres as [(-> & -> & Hr2)|(-> & -> & Hr2 & Hroom)].
      + eexists. split; [exact Hr2|]. by apply step_add_new.
      + eexists. split; [exact Hr2|]. apply step_add_nomem. destruct Hroom; [by left|right]. done. }
  exists (Value r2), w2, M2. split.
  - erewrite fbind_Ok; [reflexivity|]. fstep (lock_Ok _ _ _ Hst). fstep E1. fstep E2. by fstep (unlock_Ok _ _ _ Hst2).
  - split; [by exists es2|]. exists []. by rewrite app_nil_r.
Qed.

Lemma exec_update w M dst nh nhf life :
  fib_rep w M → allowed (Update dst nh nhf life) → simulated w M (Update dst nh nhf life).
Proof.
  intros [es Hst] (Hd & Hn). unfold simulated, exec, fib_update_entry.
  destruct (find_locked w es M dst Hst Hd) as (w1 & es1 & ret & en & count & E1 & Hk1 & Hs1 & Hst1 & HM1 & Hfound & _).
  set (M1 := live (time (ticks w)) M) in *.
  destruct Hfound as [(-> & i & r & -> & Hh & Hr)|(Hret & Hnone & Hcl & Hno)].
  - destruct (upd_locked w1 es1 M1 i dst r nh nhf life) as (w2 & r2 & E2 & Hs2 & Hres); [done|by rewrite Hk1|done|done|done|].
    rewrite Hk1 in Hres. assert (∃ M2, fib_rep w2 M2 ∧
      step (exhausted (ua w2)) (ticks w) M (Update dst nh nhf life) (Value r2) [] (ticks w2) M2) as (M2 & [es2 Hst2] & Hstep).
    { destruct Hres as [(-> & -> & Hr2)|(-> & -> & Hr2 & Hroom)]; (eexists; split; [exact Hr2|]).
      - by apply step_update.
      - apply step_update_none. by left. }
    exists (Value r2), w2, M2. split; [|split; [by exists es2|exists []; rewrite app_nil_r; split; [congruence|done]]].
    erewrite fbind_Ok; [reflexivity|]. fstep (lock_Ok _ _ _ Hst). fstep E1. rewrite (Z.eqb_refl 1).
    erewrite fbind_Ok; [|by rewrite (fbind_Ok _ _ _ _ _ (deref_Ok BadPointer i (locked w1)))].
    by fstep (unlock_Ok _ _ _ Hst2).
  - exists (Value (- ENOMEM)), w1, M1.
    split; [|split; [by exists es1|exists []; rewrite app_nil_r, Hk1; split; [done|apply step_update_none; by right]]].
    erewrite fbind_Ok; [reflexivity|]. fstep (lock_Ok _ _ _ Hst). fstep E1. rewrite (proj2 (Z.eqb_neq _ _) Hret).
    rewrite (fbind_Ok _ _ (locked w1) (- ENOMEM) (locked w1) eq_refl). by fstep (unlock_Ok _ _ _ Hst1).
Qed.

Lemma exec_remove w M dst : fib_rep w M → allowed (Remove dst) → simulated w M (Remove dst).
Proof.
  intros [es Hst] Hd. unfold simulated, exec, fib_remove_entry.
  destruct (find_locked w es M dst Hst Hd) as (w1 & es1 & ret & en & count & E1 & Hk1 & Hs1 & Hst1 & HM1 & Hfound & _).
  set (M1 := live (time (ticks w)) M) in *.
  assert (∃ w2, fwhen (ret =? 1) (i ← flift (from_option_or BadPointer en); fib_remove i) (locked w1) = Ok (tt, locked w2) ∧
    sent w2 = sent w ∧ ticks w2 = S (ticks w) ∧ fib_rep w2 (delete dst M1)) as (w2 & E2 & Hs2 & Hk2 & [es2 Hst2]).
  { destruct Hfound as [(-> & i & r & -> & Hh & Hr)|(Hret & Hnone & Hcl & Hno)].
    - pose proof Hh as (e & Hi & _). assert (w_is (locked w1) es1 (ua w1)) as Hw1 by (by destruct (st_is _ _ _ Hst1)).
      destruct (fib_remove_spec others rps es1 (ua w1) (locked w1) i e (st_inv _ _ _ Hst1) Hw1 Hi) as (U2 & E2 & Hinv2 & Hs2).
      exists (upd (<[i := no_entry]> es1) U2 w1). rewrite fwhen_true, (fbind_Ok _ _ _ _ _ (deref_Ok BadPointer i (locked w1))) by done.
      split; [done|]. split; [done|]. split; [done|]. exists (<[i := no_entry]> es1).
      destruct (entry_owner _ _ _ _ _ (st_inv _ _ _ Hst1) Hh) as [H1 H2].
      replace w1 with (set_ticks (S (ticks w)) w1) by (rewrite <- Hk1; by destruct w1).
      eapply (upd_state w1 es1 M1); [done|done|apply length_insert|by apply same_table_keeps| |apply Ht|].
      + eapply rep_delete; [exact HM1| | |done|done].
        * intros j a r' Hj. apply has_other; [apply Hs2|done].
        * intros a r' (x & Hx & Ex). rewrite list_lookup_insert_eq in Hx by (by eapply lookup_lt_Some). by simplify_eq.
      + intros a r' Hl. apply lookup_delete_Some in Hl as [_ Hl]. exact (st_canonical _ _ _ Hst1 a r' Hl).
    - exists w1. rewrite (proj2 (Z.eqb_neq _ _) Hret). split; [done|]. split; [done|]. split; [done|]. exists es1.
      by rewrite delete_id. }
  exists Nothing, w2, (delete dst M1). split.
  - erewrite fbind_Ok; [reflexivity|]. fstep (lock_Ok _ _ _ Hst). fstep E1. fstep E2. by apply (unlock_Ok _ _ _ Hst2).
  - split; [by exists es2|]. exists []. rewrite app_nil_r, Hk2. split; [done|]. constructor.
Qed.

Lemma exec_flush w M interface : fib_rep w M → simulated w M (Flush interface).
Proof.
  intros [es Hst]. unfold simulated, exec, fib_flush. destruct (st_rep _ _ _ Hst) as (now & Hn & HM).
  assert (w_is (locked w) es (ua w)) as Hw by (by destruct (st_is _ _ _ Hst)).
  destruct (flush_loop_spec others rps interface (length es) 0 es (ua w) (locked w)) as (es' & U' & E & Hinv & Hl & Hs & Hh);
    [exact (st_inv _ _ _ Hst)|done|done|].
  set (M' := filter (λ p, interface ≠ KERNEL_PID_UNDEF ∧ interface ≠ r_iface p.2) M).
  assert (fib_state (upd es' U' w) es' M') as Hst'.
  { replace w with (set_ticks (ticks w) w) at 1 by (by destruct w).
    eapply (upd_state w es M); [done|done|done|by apply same_table_keeps| |exact Hn|].
    - intros a r. unfold M'. rewrite map_lookup_filter_Some, (HM a r). simpl. split.
      + intros [[(j & Hj) Hr] Hi]. split; [|done]. exists j. apply Hh. split; [done|by right].
      + intros [(j & Hj) Hr]. apply Hh in Hj as [Hj [?|Hi]]; [lia|]. split; [|done]. split; [by exists j|done].
    - intros a r Ha. apply map_lookup_filter_Some in Ha as [Ha _]. exact (st_canonical _ _ _ Hst a r Ha). }
  exists Nothing, (upd es' U' w), M'. split.
  - erewrite fbind_Ok; [reflexivity|]. fstep (lock_Ok _ _ _ Hst). fstep (get_entries_Ok Hw). fstep E.
    by apply (unlock_Ok _ _ _ Hst').
  - split; [by exists es'|]. exists []. rewrite app_nil_r. split; [done|]. constructor.
Qed.

(** The route of an entry, as a lookup reads it. *)
Lemma read_route es w i a r buf :
  fib_inv others rps es (ua w) → w_is w es (ua w) → has es (ua w) i a r →
  ∃ e, get_entry i w = Ok (e, w) ∧ iface_id e = r_iface r ∧ next_hop_flags e = r_next_hop_flags r ∧
    ua_get (λ U, universal_address_get_address U (next_hop e) buf (Z.of_nat (length buf))) w =
    Ok (if (length (r_next_hop r) <=? length buf)%nat
        then (true, r_next_hop r ++ drop (length (r_next_hop r)) buf, Z.of_nat (length (r_next_hop r)))
        else (false, buf, Z.of_nat (length (r_next_hop r))), w).
Proof.
  intros Hinv Hw (e & Hi & E). exists e. split; [by apply (get_entry_Ok Hw)|]. unfold entry_route in E.
  destruct (lifetime e =? 0); [done|]. destruct (global e ≫= addr_at (ua w)); [|done].
  destruct (next_hop e) as [h|]; [|done]. simpl in E. destruct (addr_at (ua w) h) as [n|] eqn:Hn; [|done].
  injection E as <- <-. split; [done|]. split; [done|]. apply (ua_get_Ok Hw).
  by eapply universal_address_get_address_spec; [exact (inv_ua _ _ _ _ Hinv)|].
Qed.

Lemma live_forwards_none M now d : forwards M d None → forwards (live now M) d None.
Proof.
  inversion 1 as [| |Hd Hc]; subst. constructor.
  - destruct (live now M !! d) as [r|] eqn:E; [|done]. apply live_lookup in E as [E _]. congruence.
  - intros a r E. apply live_lookup in E as [E _]. by apply Hc.
Qed.

Lemma live_live M now now' : now <= now' → live now' (live now M) = live now' M.
Proof.
  intros Hn. apply map_eq. intros a. apply option_eq. intros r. rewrite !live_lookup. split; [tauto|].
  intros [? ?]. split; [|done]. split; [done|lia].
Qed.

Lemma exec_reachable w M iface0 flags0 buf dst fl es1 w1 ret i a r count es :
  fib_state w es M → fib_find_entry time dst (Z.of_nat (length dst)) (locked w) = Ok ((ret, Some i, count), locked w1) →
  ticks w1 = S (ticks w) → sent w1 = sent w → fib_state w1 es1 (live (time (ticks w)) M) → (ret = 0 ∨ ret = 1) →
  has es1 (ua w1) i a r → forwards (live (time (ticks w)) M) dst (Some r) →
  simulated w M (Route_to iface0 flags0 buf dst fl).
Proof.
  intros Hst E1 Hk1 Hs1 Hst1 Hret Hh Hf. unfold simulated, exec, fib_get_next_hop. cbn [nh_iface_id nh_size nh_flags nh_next_hop].
  destruct (read_route es1 (locked w1) i a r buf) as (e & Eg & Hif & Hfl & Ea);
    [exact (st_inv _ _ _ Hst1)|by destruct (st_is _ _ _ Hst1)|done|].
  assert ((ret =? 0) || (ret =? 1) = true) as Hr by lia.
  exists (hop iface0 flags0 buf r), w1, (live (time (ticks w)) M). split.
  - unfold hop. destruct (_ <=? _)%nat; (refine (eq_trans (fbind_Ok _ _ _ (_, _) _ _) eq_refl));
      fstep (lock_Ok _ _ _ Hst); fstep E1; rewrite Hr; cbn [negb];
      rewrite (fbind_Ok _ _ (locked w1) (ret, Some i) (locked w1) eq_refl), Hr,
        (fbind_Ok _ _ _ _ _ (deref_Ok BadPointer i (locked w1)));
      fstep Eg; fstep Ea; fstep (unlock_Ok _ _ _ Hst1); by rewrite ?Hif, ?Hfl.
  - split; [by exists es1|]. exists []. rewrite app_nil_r, Hk1. split; [done|]. by constructor.
Qed.

Lemma forwards_none_some (M : gmap (list Z) route) d r : forwards M d None → forwards M d (Some r) → False.
Proof.
  inversion 1 as [| |Hd Hc]; subst. inversion 1 as [r' Hr|a r' _ Ha Hco _|]; subst; [congruence|]. by eapply Hc.
Qed.

Lemma exec_unreachable w M iface0 flags0 buf dst fl es1 w1 en count es :
  fib_state w es M → (0 < length dst <= 16)%nat →
  fib_find_entry time dst (Z.of_nat (length dst)) (locked w) = Ok ((- EHOSTUNREACH, en, count), locked w1) →
  ticks w1 = S (ticks w) → sent w1 = sent w → fib_state w1 es1 (live (time (ticks w)) M) →
  forwards (live (time (ticks w)) M) dst None →
  simulated w M (Route_to iface0 flags0 buf dst fl).
Proof.
  intros Hst Hd E1 Hk1 Hs1 Hst1 Hf. unfold simulated, exec, fib_get_next_hop. cbn [nh_iface_id nh_size nh_flags nh_next_hop].
  destruct (st_rps _ _ _ Hst1) as (Hpids & Hrps & HR). set (l := sent w ++ signals R dst fl).
  assert (fib_signal_rp_address FIB_MSG_RP_SIGNAL_UNREACHABLE_DESTINATION dst (Z.of_nat (length dst)) fl (locked w1) =
    Ok (if bool_decide (signals R dst fl = []) then - ENOENT else 0, locked (set_sent l w1))) as Esig.
  { unfold fib_signal_rp_address. rewrite (fbind_Ok _ _ _ _ _ eq_refl). cbn [locked table notify_rp prefix_rp set_table set_mtx_access].
    rewrite Hpids, Hrps, (signal_loop_spec _ (ua w1) dst fl pids rps R (locked w1) (- ENOENT) HR (inv_ua _ _ _ _ (st_inv _ _ _ Hst1)) eq_refl Hd).
    unfold l. by rewrite <- Hs1. }
  pose proof (sent_state _ _ _ l Hst1) as Hst1'. set (w1' := set_sent l w1) in *.
  assert (∃ w2 es2 ret2 en2, (s ← fib_signal_rp_address FIB_MSG_RP_SIGNAL_UNREACHABLE_DESTINATION dst (Z.of_nat (length dst)) fl;
      if s =? 0 then '(ret, entry, count) ← fib_find_entry time dst (Z.of_nat (length dst)); mret (ret, entry)
      else mret (- EHOSTUNREACH, en)) (locked w1) = Ok ((ret2, en2), locked w2) ∧
    (ret2 =? 0) || (ret2 =? 1) = false ∧ sent w2 = l ∧
    ticks w2 = (if bool_decide (signals R dst fl = []) then S (ticks w) else S (S (ticks w))) ∧
    fib_state w2 es2 (live (time (pred (ticks w2))) M)) as (w2 & es2 & ret2 & en2 & E2 & Hr2 & Hs2 & Hk2 & Hst2).
  { fstep Esig. destruct (bool_decide_reflect (signals R dst fl = [])).
    - exists w1', es1, (- EHOSTUNREACH), en. split; [done|]. split; [done|]. split; [done|]. split; [done|].
      simpl. by rewrite Hk1.
    - destruct (find_locked w1' es1 _ dst Hst1' Hd) as (w2 & es2 & ret2 & en2 & c2 & E2 & Hk2 & Hs2 & Hst2 & _ & _ & Hfw).
      cbn [w1' set_sent ticks] in Hk2, Hst2, Hfw. rewrite Hk1 in Hk2, Hst2, Hfw. rewrite live_live in Hst2, Hfw by apply Ht.
      assert (ret2 = - EHOSTUNREACH) as ->.
      { destruct Hfw as [(_ & i & a & r & _ & _ & Hfr)|[? _]]; [|done]. exfalso. eapply (forwards_none_some _ dst r); [|exact Hfr].
        rewrite <- (live_live M (time (ticks w))) by apply Ht. by apply live_forwards_none. }
      exists w2, es2, (- EHOSTUNREACH), en2. rewrite (Z.eqb_refl 0). split; [by fstep E2|]. split; [done|].
      split; [done|]. split; [done|]. by rewrite Hk2. }
  exists (Hop (- EHOSTUNREACH) (Next_hop (Some iface0) (Some buf) (Some (Z.of_nat (length buf))) (Some flags0))), w2,
    (live (time (pred (ticks w2))) M). split.
  - refine (eq_trans (fbind_Ok _ _ _ (_, _) _ _) eq_refl). fstep (lock_Ok _ _ _ Hst). fstep E1. fstep E2. rewrite Hr2.
    by fstep (unlock_Ok _ _ _ Hst2).
  - split; [by exists es2|]. exists (signals R dst fl). split; [done|]. rewrite Hk2. by apply step_unreachable.
Qed.

Lemma exec_simulated w M c : fib_rep w M → allowed c → simulated w M c.
Proof.
  intros HM Hc. destruct c as [iface dst fl nh nhf life|dst nh nhf life|dst|interface|iface0 flags0 buf dst fl].
  - by apply exec_add.
  - by apply exec_update.
  - by apply exec_remove.
  - by apply exec_flush.
  - destruct HM as [es Hst]. destruct (find_locked w es M dst Hst Hc)
      as (w1 & es1 & ret & en & count & E1 & Hk1 & Hs1 & Hst1 & _ & _ & [(Hret & i & a & r & -> & Hh & Hf)|[-> Hf]]).
    + by eapply exec_reachable.
    + by eapply exec_unreachable.
Qed.

(** Calls one after the other, and what they return. *)
Fixpoint run_calls (cs : list call) : F (list outcome) :=
  match cs with
  | [] => mret []
  | c :: cs => o ← exec c; os ← run_calls cs; mret (o :: os)
  end.

(** A run of the code, and the run of the specification that it follows: the
    states, the routes and the results after each call. *)
Inductive follows : world → gmap (list Z) route → list call → list outcome → world → gmap (list Z) route → Prop :=
  | follows_nil w M : follows w M [] [] w M
  | follows_cons w M c o sigs w1 M1 cs os w' M' :
      exec c w = Ok (o, w1) → fib_rep w1 M1 → sent w1 = sent w ++ sigs →
      step (exhausted (ua w1)) (ticks w) M c o sigs (ticks w1) M1 →
      follows w1 M1 cs os w' M' → follows w M (c :: cs) (o :: os) w' M'.

End Simulation.

(** ** The initial table *)

Lemma nrefs_none {A} (l : list A) i : nrefs ((λ _, None) <$> l) i = O.
Proof. unfold nrefs. induction l as [|x l IH]; [done|]. by rewrite fmap_cons, filter_cons_False. Qed.

Lemma init_ua U : universal_address_table_filled U = 0 → Z.of_nat (length (universal_address_table U)) < 4294967296 →
  ua_inv (λ _, O) (universal_address_init U).
Proof.
  intros Hf Hs. split; cbn [universal_address_init universal_address_table universal_address_table_filled].
  - intros i c Hi. rewrite list_lookup_fmap in Hi. destruct (universal_address_table U !! i); [|done]. injection Hi as <-.
    split; [split; [done|simpl; lia]|]. split; [done|lia].
  - done.
  - rewrite Hf, filter_none; [done|]. apply Forall_fmap, Forall_true. intros c. simpl. unfold used. simpl. lia.
  - by rewrite length_fmap.
Qed.

(** A table is empty after [fib_init], when no container was in use before. *)
Lemma fib_init_rep time w es :
  data (table w) = Entries es → universal_address_table_filled (ua w) = 0 →
  Z.of_nat (length (universal_address_table (ua w))) < 4294967296 → (length es <= 120)%nat →
  ∃ w', fib_init w = Ok (tt, w') ∧ ticks w' = ticks w ∧ sent w' = sent w ∧
    fib_rep time (λ _, O) (replicate 5 None) (replicate 5 KERNEL_PID_UNDEF) []
      (length (universal_address_table (ua w))) (length es) w' ∅.
Proof.
  intros Hes Hf Hs Hl. eexists. split; [reflexivity|]. split; [done|]. split; [done|].
  exists ((λ _, no_entry) <$> es).
  assert (∀ i e, ((λ _, no_entry) <$> es) !! i = Some e → e = no_entry) as Hno.
  { intros i e. rewrite list_lookup_fmap. destruct (es !! i); [by intros [= <-]|done]. }
  split; cbn.
  - split; [cbn; by rewrite Hes|done].
  - by rewrite !length_fmap.
  - split; [done|]. split; [done|]. repeat constructor.
  - done.
  - split.
    + eapply ua_inv_ext; [|by apply init_ua]. intros i. unfold refs. rewrite <- !list_fmap_compose.
      change (global ∘ (λ _, no_entry)) with (λ _ : fib_entry_t, @None nat).
      change (next_hop ∘ (λ _, no_entry)) with (λ _ : fib_entry_t, @None nat). by rewrite !(nrefs_none es i).
    + intros i e Hi. apply Hno in Hi as ->. split; [simpl; unfold FIB_LIFETIME_NO_EXPIRE; lia|by right].
    + intros i j e e' a r r' Hi Hj E. by apply Hno in Hi as ->.
    + intros _. rewrite length_fmap. simpl. lia.
  - exists (time (ticks w)). split; [done|]. intros a r. rewrite lookup_empty. split; [done|].
    intros [(i & e & Hi & E) _]. by apply Hno in Hi as ->.
  - intros a r. by rewrite lookup_empty.
Qed.

(** ** Witness and examples *)

(** A table of three entries, fourteen containers, and a clock that shows 1000
    and then advances by 10. *)
Definition demo_time (k : nat) : Z := 1000 + 10 * Z.of_nat (Nat.min k 1000).
Definition demo_world (T N : nat) : world :=
  World (Fib_table (Entries (replicate T no_entry)) false 0 (replicate 5 0) (replicate 5 None))
        (Addresses (replicate N (Container 0 0 (replicate 16 0))) 0) 0 [].

Definition demo_start (T N : nat) : world :=
  match fib_init (demo_world T N) with Ok (_, w) => w | Fault _ => demo_world T N end.

Lemma demo_clock : clock_ok demo_time.
Proof. intros k. unfold demo_time, FIB_LIFETIME_NO_EXPIRE. lia. Qed.

Lemma demo_rep : fib_rep demo_time (λ _, O) (replicate 5 None) (replicate 5 KERNEL_PID_UNDEF) [] 14 3 (demo_start 3 14) ∅.
Proof.
  destruct (fib_init_rep demo_time (demo_world 3 14) (replicate 3 no_entry)) as (w & E & _ & _ & Hr); [done|done|simpl; lia|simpl; lia|].
  unfold demo_start. rewrite E. exact Hr.
Qed.

(** Two prefixes and a host; the lookups take the longest prefix. *)
Definition demo_calls : list call :=
  [Add 7 [32; 1; 0; 0] (Z.shiftl 16 24) [1] 11 0xFFFFFFFF;
   Add 8 [32; 1; 5; 0] (Z.shiftl 24 24) [2] 12 0xFFFFFFFF;
   Add 9 [32; 1; 5; 6] 0 [3] 13 1000;
   Route_to 0 0 [0; 0] [32; 1; 9; 9] 0;
   Route_to 0 0 [0; 0] [32; 1; 5; 9] 0;
   Route_to 0 0 [0; 0] [32; 1; 5; 6] 0;
   Remove [32; 1; 5; 0];
   Route_to 0 0 [0; 0] [32; 1; 5; 9] 0].

Definition demo_hop (iface x flags : Z) : outcome := Hop 0 (Next_hop (Some iface) (Some [x; 0]) (Some 1) (Some flags)).


(** The result of a computation, for examples. *)
Definition value_of {A} (m : F A) (w : world) : result A :=
  match m w with Ok (a, _) => Ok a | Fault e => Fault e end.

(** The bit count of a comparison starts at the wrong end of the byte: an address
    that differs in its first bit has seven bits in common, and is sent along a
    prefix of one bit. *)
Example prefix_bits_wrong :
  value_of (run_calls demo_time [Add 7 [128; 0; 0; 0] (Z.shiftl 1 24) [1] 11 0xFFFFFFFF;
                                 Route_to 0 0 [0; 0] [1; 0; 0; 1] 0]) (demo_start 3 14) =
  Ok [Value 0; demo_hop 7 1 11].
Proof. vm_compute. reflexivity. Qed.

(** A lifetime of 72 minutes is over after 704 microseconds. *)
Example long_lifetime_wraps :
  value_of (_ ← fib_add_entry demo_time 7 (Some [1; 2]) 2 0 (Some [3]) 1 0 4294968;
            fib_devel_get_lifetime demo_time [1; 2] 2) (demo_start 3 14) = Ok (0, Some (1010 + 704)).
Proof. vm_compute. reflexivity. Qed.

(** The set of all destinations cannot be asked for with the zero prefix. *)
Example zero_prefix_faults :
  value_of (_ ← fib_add_entry demo_time 7 (Some [1; 2]) 2 0 (Some [3]) 1 0 0xFFFFFFFF;
            fib_get_destination_set [0; 0] 2 None 0) (demo_start 3 14) = Fault OutOfBounds.
Proof. vm_compute. reflexivity. Qed.

(** A registration without memory for the prefix succeeds; the next address that
    cannot be reached dereferences it. *)
Example register_without_memory :
  value_of (_ ← fib_register_rp 5 (Some [9]) 1; fib_register_rp 6 (Some [8]) 1) (demo_start 1 1) = Ok 0 ∧
  value_of (_ ← fib_register_rp 5 (Some [9]) 1; _ ← fib_register_rp 6 (Some [8]) 1;
            exec demo_time (Route_to 0 0 [0] [4] 0)) (demo_start 1 1) = Fault NullDeref.
Proof. split; vm_compute; reflexivity. Qed.

(** An addition that fails leaves its destination in every unused entry. *)
Example failed_add_leaves_entries :
  value_of (_ ← fib_add_entry demo_time 7 (Some [1; 2]) 2 0 (Some [3]) 1 0 0xFFFFFFFF;
            fib_get_num_used_entries) (demo_start 2 1) = Ok 2.
Proof. vm_compute. reflexivity. Qed.

(** A second [fib_init] forgets to reset the number of used containers, and an
    empty table has no room. *)
Example init_again_is_full :
  value_of (_ ← fib_add_entry demo_time 7 (Some [1; 2]) 2 0 (Some [3]) 1 0 0xFFFFFFFF; _ ← fib_init;
            fib_add_entry demo_time 7 (Some [1; 2]) 2 0 (Some [3]) 1 0 0xFFFFFFFF) (demo_start 2 2) = Ok (- ENOMEM).
Proof. vm_compute. reflexivity. Qed.

(** A routing protocol that is told about an unreachable address cannot add a
    route before it replies: the mutex is held. *)
Lemma add_while_signalled time w iface dst dst_size fl nh nh_size nhf life :
  mtx_access (table w) = true →
  fib_add_entry time iface dst dst_size fl nh nh_size nhf life w = Fault Deadlock.
Proof. intros Hm. unfold fib_add_entry, mbind, F_bind, mutex_lock. by rewrite Hm. Qed.
