(* ===== verification/FibSr.v ===== *)
(** * sys/net/network_layer/fib: source routes

    The functions of fib.c on a table of source routes. A pointer to a route is
    the index of its header, a pointer to a hop its index in [entry_pool]; the
    pointers of the callers are [option]s. A list that runs in a circle makes a
    loop run out of its bound, the size of the pool. *)

From S2P Require Import Prelude Words UniversalAddress Fib.
Open Scope Z_scope.

(** ** Headers, hops and lists *)

Definition s64 (z : Z) : Z := (z + 9223372036854775808) mod 18446744073709551616 - 9223372036854775808.

Definition get_source_routes : F (list fib_sr_t * list fib_sr_entry_t) :=
  λ w, match data (table w) with Source_routes hs pool => Ok ((hs, pool), w) | _ => Fault BadPointer end.
Definition set_source_routes (hs : list fib_sr_t) (pool : list fib_sr_entry_t) : F unit :=
  fmodify (λ w, set_table (set_data (Source_routes hs pool) (table w)) w).

Definition get_header (i : nat) : F fib_sr_t :=
  '(hs, _) ← get_source_routes; flift (from_option_or BadPointer (hs !! i)).
Definition set_header (i : nat) (h : fib_sr_t) : F unit :=
  '(hs, pool) ← get_source_routes; set_source_routes (<[i := h]> hs) pool.
Definition get_hop (i : nat) : F fib_sr_entry_t :=
  '(_, pool) ← get_source_routes; flift (from_option_or BadPointer (pool !! i)).
Definition set_hop (i : nat) (e : fib_sr_entry_t) : F unit :=
  '(hs, pool) ← get_source_routes; set_source_routes hs (<[i := e]> pool).

Definition set_sr_lifetime v h := Fib_sr (sr_iface_id h) v (sr_flags h) (sr_path h) (sr_dest h).
Definition set_sr_path v h := Fib_sr (sr_iface_id h) (sr_lifetime h) (sr_flags h) v (sr_dest h).
Definition set_sr_dest v h := Fib_sr (sr_iface_id h) (sr_lifetime h) (sr_flags h) (sr_path h) v.
Definition set_sr_iface_id v h := Fib_sr v (sr_lifetime h) (sr_flags h) (sr_path h) (sr_dest h).
Definition set_sr_flags v h := Fib_sr (sr_iface_id h) (sr_lifetime h) v (sr_path h) (sr_dest h).

Definition set_address (i : nat) (a : option nat) : F unit := e ← get_hop i; set_hop i (Fib_sr_entry a (sr_next e)).
Definition set_next (i : nat) (n : option nat) : F unit := e ← get_hop i; set_hop i (Fib_sr_entry (sr_address e) n).

(** [LL_FOREACH(head, elt) { body }]; [inr] leaves the loop. *)
Fixpoint foreach_loop {S R} (fuel : nat) (elt : option nat) (body : nat → S → F (S + R)) (s : S) : F (S + R) :=
  match fuel with
  | O => ffault OutOfFuel
  | Datatypes.S fuel =>
      match elt with
      | None => mret (inl s)
      | Some i =>
          r ← body i s;
          match r with
          | inr _ => mret r
          | inl s => e ← get_hop i; foreach_loop fuel (sr_next e) body s
          end
      end
  end.

Definition LL_FOREACH {S R} (head : option nat) (body : nat → S → F (S + R)) (s : S) : F (S + R) :=
  '(_, pool) ← get_source_routes; foreach_loop (Datatypes.S (length pool)) head body s.

(** [while (_tmp->next && (_tmp->next != del)) _tmp = _tmp->next;] and the unlinking. *)
Fixpoint unlink_loop (fuel : nat) (tmp del : nat) : F unit :=
  match fuel with
  | O => ffault OutOfFuel
  | S fuel =>
      t ← get_hop tmp;
      match sr_next t with
      | None => mret tt
      | Some n => if (n =? del)%nat then d ← get_hop del; set_next tmp (sr_next d) else unlink_loop fuel n del
      end
  end.

(** [LL_DELETE(head, del)]: the new head. *)
Definition LL_DELETE (head : option nat) (del : nat) : F (option nat) :=
  h ← flift (from_option_or NullDeref head);
  if (h =? del)%nat then e ← get_hop h; mret (sr_next e)
  else '(_, pool) ← get_source_routes; _ ← unlink_loop (S (length pool)) h del; mret head.

(** [LL_FOREACH_SAFE(head, elt, tmp) { universal_address_rem(elt->address);
    elt->address = NULL; LL_DELETE(head, elt); }] where [head] is a variable of
    its own: its value at the end. *)
Fixpoint release_loop (fuel : nat) (head elt : option nat) : F (option nat) :=
  match fuel with
  | O => ffault OutOfFuel
  | S fuel =>
      match elt with
      | None => mret head
      | Some i =>
          e ← get_hop i;
          let tmp := sr_next e in
          _ ← ua_rem (sr_address e);
          _ ← set_address i None;
          head ← LL_DELETE head i;
          release_loop fuel head tmp
      end
  end.

Definition release_path (head : option nat) : F (option nat) :=
  '(_, pool) ← get_source_routes; release_loop (S (length pool)) head head.

Section FibSr.
Context (time : nat → Z).

(** ** The code *)

Fixpoint create_sr_loop (n i : nat) (iface flags life : Z) : F (Z * option nat) :=
  match n with
  | O => mret (- ENOBUFS, None)
  | S n =>
      h ← get_header i;
      if sr_lifetime h =? 0 then
        _ ← set_header i (Fib_sr iface (sr_lifetime h) flags None None);
        life ← (if life <? u32 FIB_LIFETIME_NO_EXPIRE then fib_lifetime_to_absolute time life
                else mret FIB_LIFETIME_NO_EXPIRE);
        h ← get_header i;
        _ ← set_header i (set_sr_lifetime life h);
        mret (0, Some i)
      else create_sr_loop n (S i) iface flags life
  end.

(** The result and, if it is not [NULL], what [fib_sr] points to. *)
Definition fib_sr_create (fib_sr : bool) (iface flags life : Z) : F (Z * option nat) :=
  _ ← mutex_lock;
  if negb fib_sr || (life =? 0) then _ ← mutex_unlock; mret (- EFAULT, None)
  else
    '(hs, _) ← get_source_routes;
    r ← create_sr_loop (length hs) 0 iface flags life;
    _ ← mutex_unlock;
    mret r.

Definition fib_sr_check_lifetime (i : nat) : F Z :=
  h ← get_header i;
  now ← xtimer_now_usec64 time;
  let tm := u64 (sr_lifetime h - now) in
  if s64 tm <? 0 then
    _ ← set_header i (set_sr_lifetime 0 h);
    _ ← fwhen (bool_decide (sr_path h ≠ None))
          (_ ← LL_FOREACH (R := unit) (sr_path h) (λ elt s, e ← get_hop elt; _ ← ua_rem (sr_address e); mret (inl s)) tt;
           h ← get_header i;
           set_header i (set_sr_path None h));
    mret (- ENOENT)
  else mret 0.

Fixpoint new_entry_loop (n i : nat) (addr : list Z) (addr_size : Z) : F (Z * option nat) :=
  match n with
  | O => mret (- ENOMEM, None)
  | S n =>
      e ← get_hop i;
      if bool_decide (sr_address e = None) then
        a ← ua_add addr addr_size;
        _ ← set_address i a;
        mret (if bool_decide (a = None) then (- ENOMEM, None) else (0, Some i))
      else new_entry_loop n (S i) addr addr_size
  end.

Definition fib_sr_new_entry (addr : list Z) (addr_size : Z) : F (Z * option nat) :=
  '(_, pool) ← get_source_routes; new_entry_loop (length pool) 0 addr addr_size.

Definition fib_is_sr_in_table (i : nat) : F Z :=
  '(hs, _) ← get_source_routes; mret (if (i <? length hs)%nat then 0 else - ENOENT).

(** The beginning of every function on a route: [body] runs with the mutex held,
    on a route of the table that has not expired. *)
Definition with_sr {A} (args_ok : bool) (fib_sr : option nat) (fail : Z → A) (body : nat → F A) : F A :=
  _ ← mutex_lock;
  match fib_sr with
  | Some i =>
      t ← fib_is_sr_in_table i;
      if negb args_ok || (t =? - ENOENT) then _ ← mutex_unlock; mret (fail (- EFAULT))
      else
        l ← fib_sr_check_lifetime i;
        if l =? - ENOENT then _ ← mutex_unlock; mret (fail (- ENOENT)) else body i
  | None => _ ← mutex_unlock; mret (fail (- EFAULT))
  end.

(** The result and the interface, the flags and the lifetime that is left. *)
Definition fib_sr_read_head (args_ok : bool) (fib_sr : option nat) : F (Z * option (Z * Z * Z)) :=
  with_sr args_ok fib_sr (λ e, (e, None)) (λ i,
    h ← get_header i;
    now ← xtimer_now_usec64 time;
    _ ← mutex_unlock;
    mret (0, Some (sr_iface_id h, sr_flags h, u32 (sr_lifetime h - now)))).

(** The result, the buffer and its size. *)
Definition fib_sr_read_destination (args_ok : bool) (fib_sr : option nat) (dst : list Z) (dst_size : Z)
    : F (Z * list Z * Z) :=
  with_sr args_ok fib_sr (λ e, (e, dst, dst_size)) (λ i,
    h ← get_header i;
    match sr_dest h with
    | None => _ ← mutex_unlock; mret (- EHOSTUNREACH, dst, dst_size)
    | Some d =>
        e ← get_hop d;
        '(stored, dst, dst_size) ← ua_get (λ U, universal_address_get_address U (sr_address e) dst dst_size);
        _ ← mutex_unlock;
        mret (if (stored : bool) then 0 else - ENOBUFS, dst, dst_size)
    end).

Definition fib_sr_set (fib_sr : option nat) (iface flags life : option Z) : F Z :=
  with_sr true fib_sr (λ e, e) (λ i,
    _ ← match iface with Some v => h ← get_header i; set_header i (set_sr_iface_id v h) | None => mret tt end;
    _ ← match flags with Some v => h ← get_header i; set_header i (set_sr_flags v h) | None => mret tt end;
    _ ← match life with
        | Some v => t ← fib_lifetime_to_absolute time v; h ← get_header i; set_header i (set_sr_lifetime t h)
        | None => mret tt
        end;
    _ ← mutex_unlock;
    mret 0).

(** The hops of route [i] are released; the list is [sr_path] itself. *)
Definition release_sr (i : nat) : F unit :=
  h ← get_header i;
  fwhen (bool_decide (sr_path h ≠ None))
    (_ ← release_path (sr_path h);
     h ← get_header i;
     set_header i (set_sr_path None h)).

Definition fib_sr_delete (fib_sr : option nat) : F Z :=
  _ ← mutex_lock;
  match fib_sr with
  | Some i =>
      t ← fib_is_sr_in_table i;
      if t =? - ENOENT then _ ← mutex_unlock; mret (- EFAULT)
      else
        h ← get_header i;
        _ ← set_header i (set_sr_lifetime 0 h);
        _ ← release_sr i;
        _ ← mutex_unlock;
        mret 0
  | None => _ ← mutex_unlock; mret (- EFAULT)
  end.

(** [entry] is what [sr_path_entry] points to. *)
Definition fib_sr_next (args_ok : bool) (fib_sr : option nat) (entry : option nat) : F (Z * option nat) :=
  _ ← mutex_lock;
  match fib_sr with
  | Some i =>
      t ← fib_is_sr_in_table i;
      if negb args_ok || (t =? - ENOENT) then _ ← mutex_unlock; mret (- EFAULT, entry)
      else
        h ← get_header i;
        if bool_decide (sr_path h = None) then _ ← mutex_unlock; mret (- EFAULT, entry)
        else
          l ← fib_sr_check_lifetime i;
          if l =? - ENOENT then _ ← mutex_unlock; mret (- ENOENT, entry)
          else
            h ← get_header i;
            if bool_decide (entry = sr_dest h) then _ ← mutex_unlock; mret (1, entry)
            else
              entry ← match entry with
                      | None => mret (sr_path h)
                      | Some p => e ← get_hop p; mret (sr_next e)
                      end;
              _ ← mutex_unlock;
              mret (0, entry)
  | None => _ ← mutex_unlock; mret (- EFAULT, entry)
  end.

(** Whether a hop has the address. *)
Definition hop_equals (elt : nat) (addr : list Z) (bits : Z) : F bool :=
  e ← get_hop elt;
  '(c, _) ← ua_get (λ U, universal_address_compare U (sr_address e) addr bits);
  mret (c =? UNIVERSAL_ADDRESS_EQUAL).

Definition fib_sr_search (fib_sr : option nat) (addr : option (list Z)) (addr_size : Z) (args_ok : bool)
    : F (Z * option nat) :=
  with_sr (args_ok && bool_decide (addr ≠ None)) fib_sr (λ e, (e, None)) (λ i,
    addr ← flift (from_option_or NullDeref addr);
    h ← get_header i;
    r ← LL_FOREACH (sr_path h) (λ elt s,
          eq ← hop_equals elt addr (u32 (Z.shiftl addr_size 3));
          mret (if (eq : bool) then inr elt else inl s)) tt;
    _ ← mutex_unlock;
    mret (match r with inr elt => (0, Some elt) | inl _ => (- EHOSTUNREACH, None) end)).

Definition fib_sr_entry_append (fib_sr : option nat) (addr : option (list Z)) (addr_size : Z) : F Z :=
  with_sr (bool_decide (addr ≠ None)) fib_sr (λ e, e) (λ i,
    addr ← flift (from_option_or NullDeref addr);
    h ← get_header i;
    r ← LL_FOREACH (sr_path h) (λ elt s,
          eq ← hop_equals elt addr (u32 (Z.shiftl addr_size 3));
          mret (if (eq : bool) then inr tt else inl s)) tt;
    match r with
    | inr _ => _ ← mutex_unlock; mret (- EINVAL)
    | inl _ =>
        '(ret, new_entry) ← fib_sr_new_entry addr addr_size;
        _ ← fwhen (ret =? 0)
              (h ← get_header i;
               _ ← match sr_dest h with
                   | Some tmp => set_next tmp new_entry
                   | None => set_header i (set_sr_path new_entry h)
                   end;
               h ← get_header i;
               set_header i (set_sr_dest new_entry h));
        _ ← mutex_unlock;
        mret ret
    end).

Definition fib_sr_entry_add (fib_sr sr_path_entry : option nat) (addr : option (list Z)) (addr_size : Z)
    (keep_remaining_route : bool) : F Z :=
  with_sr (bool_decide (sr_path_entry ≠ None) && bool_decide (addr ≠ None)) fib_sr (λ e, e) (λ i,
    addr ← flift (from_option_or NullDeref addr);
    p ← flift (from_option_or NullDeref sr_path_entry);
    h ← get_header i;
    r ← LL_FOREACH (sr_path h) (λ elt s,
          eq ← hop_equals elt addr (u32 (Z.shiftl addr_size 3));
          mret (if (eq : bool) then inr false else if (p =? elt)%nat then inr true else inl s)) tt;
    match r with
    | inr false => _ ← mutex_unlock; mret (- EINVAL)
    | inl _ => _ ← mutex_unlock; mret (- ENOENT)
    | inr true =>
        '(ret, new_entry) ← fib_sr_new_entry addr addr_size;
        _ ← fwhen (ret =? 0)
              (e ← get_hop p;
               let remaining := sr_next e in
               n ← flift (from_option_or NullDeref new_entry);
               _ ← set_next p new_entry;
               if (keep_remaining_route : bool) then set_next n remaining
               else
                 _ ← release_path remaining;
                 _ ← set_next n None;
                 h ← get_header i;
                 set_header i (set_sr_dest new_entry h));
        _ ← mutex_unlock;
        mret ret
    end).

(** [tmp] is the hop before the current one, at first the first hop. *)
Definition fib_sr_entry_delete (fib_sr : option nat) (addr : list Z) (addr_size : Z) (keep_remaining_route : bool)
    : F Z :=
  with_sr true fib_sr (λ e, e) (λ i,
    h ← get_header i;
    r ← LL_FOREACH (sr_path h) (λ elt tmp,
          eq ← hop_equals elt addr (u32 (Z.shiftl addr_size 3));
          mret (if (eq : bool) then inr (elt, tmp) else inl (Some elt))) (sr_path h);
    match r with
    | inr (elt, tmp) =>
        e ← get_hop elt;
        _ ← ua_rem (sr_address e);
        tmp ← (if (keep_remaining_route : bool) then
                 t ← flift (from_option_or NullDeref tmp);
                 _ ← set_next t (sr_next e);
                 mret tmp
               else release_path tmp);
        e ← get_hop elt;
        h ← get_header i;
        _ ← fwhen (bool_decide (sr_path h = Some elt)) (set_header i (set_sr_path (sr_next e) h));
        h ← get_header i;
        _ ← fwhen (bool_decide (sr_dest h = Some elt)) (set_header i (set_sr_dest tmp h));
        _ ← mutex_unlock;
        mret 0
    | inl _ => mret (- ENOENT)
    end).

Definition fib_sr_entry_overwrite (fib_sr : option nat) (addr_old : option (list Z)) (addr_old_size : Z)
    (addr_new : option (list Z)) (addr_new_size : Z) : F Z :=
  with_sr (bool_decide (addr_old ≠ None) && bool_decide (addr_new ≠ None)) fib_sr (λ e, e) (λ i,
    addr_old ← flift (from_option_or NullDeref addr_old);
    addr_new ← flift (from_option_or NullDeref addr_new);
    h ← get_header i;
    r ← LL_FOREACH (sr_path h) (λ elt elt_repl,
          eq_old ← hop_equals elt addr_old (u32 (Z.shiftl addr_old_size 3));
          eq_new ← hop_equals elt addr_new (u32 (Z.shiftl addr_old_size 3));
          mret (if (eq_new : bool) then inr tt else inl (if (eq_old : bool) then Some elt else elt_repl))) None;
    match r with
    | inr _ => _ ← mutex_unlock; mret (- EINVAL)
    | inl None => _ ← mutex_unlock; mret 0
    | inl (Some elt_repl) =>
        e ← get_hop elt_repl;
        _ ← ua_rem (sr_address e);
        add ← ua_add addr_new addr_new_size;
        match add with
        | None => _ ← ua_add addr_old addr_old_size; _ ← mutex_unlock; mret (- ENOMEM)
        | Some _ => _ ← set_address elt_repl add; _ ← mutex_unlock; mret 0
        end
    end).

Definition fib_sr_entry_get_address (fib_sr sr_entry : option nat) (addr : list Z) (addr_size : Z) : F (Z * list Z * Z) :=
  with_sr true fib_sr (λ e, (e, addr, addr_size)) (λ i,
    h ← get_header i;
    r ← LL_FOREACH (sr_path h) (λ elt s, mret (if bool_decide (Some elt = sr_entry) then inr elt else inl s)) tt;
    match r with
    | inr elt =>
        e ← get_hop elt;
        '(stored, addr, addr_size) ← ua_get (λ U, universal_address_get_address U (sr_address e) addr addr_size);
        _ ← mutex_unlock;
        mret (if (stored : bool) then 0 else - ENOMEM, addr, addr_size)
    | inl _ => _ ← mutex_unlock; mret (- ENOENT, addr, addr_size)
    end).

(** [fib_signal_rp] with a source route that has a destination. *)
Definition fib_signal_rp_source_route (sr : nat) : F Z :=
  t ← fgets table;
  h ← get_header sr;
  d ← flift (from_option_or NullDeref (sr_dest h));
  e ← get_hop d;
  c ← ua_get (λ U, container_at U (sr_address e));
  signal_loop (notify_rp t) (prefix_rp t) FIB_MSG_RP_SIGNAL_SOURCE_ROUTE_CREATED (Rp_source_route sr) (address c)
    (address_size c) (- ENOENT).

(** The copy of the path of header [i] up to [elt] into header [j]: [inr] with
    the error, or [inr] with the route and the state of the signal. The state of
    the loop is [elt_add]. *)
Definition copy_path (i j elt : nat) : F (option nat + (Z * bool)) :=
  h ← get_header i;
  LL_FOREACH (sr_path h) (λ elt_iter elt_add,
    e ← get_hop elt_iter;
    c ← ua_get (λ U, container_at U (sr_address e));
    '(ret, new_entry) ← fib_sr_new_entry (address c) (address_size c);
    if negb (ret =? 0) then mret (inr (- ENOBUFS, false))
    else
      hj ← get_header j;
      elt_add ← (if bool_decide (sr_path hj = None) then
                   _ ← set_header j (set_sr_path new_entry hj); mret new_entry
                 else
                   a ← flift (from_option_or NullDeref elt_add);
                   _ ← set_next a new_entry; mret new_entry);
      if (elt_iter =? elt)%nat then
        hj ← get_header j;
        _ ← set_header j (set_sr_dest new_entry hj);
        s ← fib_signal_rp_source_route j;
        mret (inr (if negb (s =? 0) then - EHOSTUNREACH else 0, true))
      else mret (inl elt_add)) None.

(** From header [j] on, [n] headers: the last copy that was made ([hit]) and the
    error; [inr] returns from the function. The loop goes on after a copy. *)
Fixpoint copy_loop (n j i elt : nat) (hit : option nat) (error : Z) : F (option nat * Z + option nat * Z) :=
  match n with
  | O => mret (inl (hit, error))
  | S n =>
      hj ← get_header j;
      if negb (sr_lifetime hj =? 0) then copy_loop n (S j) i elt hit error
      else
        hi ← get_header i;
        _ ← set_header j (Fib_sr (sr_iface_id hi) (sr_lifetime hi) (sr_flags hi) None (sr_dest hj));
        r ← copy_path i j elt;
        match r with
        | inr (e, true) => copy_loop n (S j) i elt (Some j) (if e =? 0 then error else e)
        | inr (e, false) => mret (inr (Some j, e))
        | inl _ => copy_loop n (S j) i elt hit error
        end
  end.

Fixpoint partial_loop (n i size : nat) (dst : list Z) (dst_size check_free_entry error : Z) : F (option nat * Z) :=
  match n with
  | O => mret (None, error)
  | S n =>
      h ← get_header i;
      if negb (sr_lifetime h =? 0) then
        r ← LL_FOREACH (sr_path h) (λ elt s,
              eq ← hop_equals elt dst (u32 (Z.shiftl dst_size 3));
              mret (if (eq : bool) then inr elt else inl s)) tt;
        match r with
        | inr elt =>
            if check_free_entry =? -1 then mret (None, - ENOBUFS)
            else
              let j := Z.to_nat check_free_entry in
              c ← copy_loop (size - j) j i elt None error;
              match c with
              | inr out => mret out
              | inl (Some hit, error) => mret (Some hit, error)
              | inl (None, error) => partial_loop n (S i) size dst dst_size check_free_entry error
              end
        | inl _ => partial_loop n (S i) size dst dst_size check_free_entry error
        end
      else partial_loop n (S i) size dst dst_size check_free_entry error
  end.

(** The new route and [*error]. *)
Definition _fib_create_sr_from_partial (dst : list Z) (dst_size check_free_entry : Z) : F (option nat * Z) :=
  '(hs, _) ← get_source_routes;
  partial_loop (length hs) 0 (length hs) dst dst_size check_free_entry 0.

(** Case 1 of [fib_sr_get_route]: [hit], [tmp_hit] and [check_free_entry]. *)
Fixpoint direct_loop (n i : nat) (dst : list Z) (dst_size flags : Z) (fib_sr : option nat) (skip : bool)
    (tmp_hit : option nat) (check_free_entry : Z) : F (option nat * option nat * Z) :=
  match n with
  | O => mret (None, tmp_hit, check_free_entry)
  | S n =>
      l ← fib_sr_check_lifetime i;
      if l =? - ENOENT then
        direct_loop n (S i) dst dst_size flags fib_sr skip tmp_hit
          (if check_free_entry =? -1 then Z.of_nat i else check_free_entry)
      else if skip then
        direct_loop n (S i) dst dst_size flags fib_sr (negb (bool_decide (fib_sr = Some i))) tmp_hit check_free_entry
      else
        h ← get_header i;
        d ← flift (from_option_or NullDeref (sr_dest h));
        eq ← hop_equals d dst (u32 (Z.shiftl dst_size 3));
        if (eq : bool) then
          if flags =? sr_flags h
          then mret (Some i, None, if check_free_entry =? -1 then Z.of_nat i else check_free_entry)
          else direct_loop n (S i) dst dst_size flags fib_sr skip (Some i) check_free_entry
        else direct_loop n (S i) dst dst_size flags fib_sr skip tmp_hit check_free_entry
  end.

(** Copying the addresses: the position in [addr_list] moves by [step]. *)
Definition copy_route (path : option nat) (addr_list : list Z) (start step : Z) : F (list Z) :=
  r ← LL_FOREACH (R := unit) path (λ elt st,
        let '(addr_list, next_entry) := st in
        e ← get_hop elt;
        c ← ua_get (λ U, container_at U (sr_address e));
        addr_list ← flift (if address_size c <=? UNIVERSAL_ADDRESS_SIZE
                           then memcpy addr_list next_entry (address c) 0 (address_size c) else Ok addr_list);
        mret (inl (addr_list, next_entry + step))) (addr_list, start);
  mret (match r with inl (l, _) => l | inr _ => addr_list end).

Record route_out : Type := Route_out {
  o_iface_id : Z;
  o_flags : Z;
  o_addr_list : list Z;
  o_elements : Z;
  o_element_size : Z;
  o_fib_sr : option (option nat)
}.

(** Cases 2 and 3: what is done with the route that was found. *)
Definition deliver (out : route_out) (reverse : bool) (hit : nat) (distinct : bool) : F (Z * route_out) :=
  h ← get_header hit;
  r ← LL_FOREACH (R := unit) (sr_path h) (λ elt n, mret (inl (n + 1))) 0;
  let count := match r with inl n => n | inr _ => 0 end in
  let o_fib_sr := match o_fib_sr out with Some _ => Some (Some hit) | None => None end in
  if (o_elements out <? count) || (o_element_size out <? UNIVERSAL_ADDRESS_SIZE) then
    _ ← mutex_unlock;
    mret (- ENOBUFS, Route_out (o_iface_id out) (o_flags out) (o_addr_list out) count UNIVERSAL_ADDRESS_SIZE o_fib_sr)
  else
    let start := if reverse then (count - 1) * UNIVERSAL_ADDRESS_SIZE else 0 in
    let step := if reverse then - o_element_size out else o_element_size out in
    addr_list ← copy_route (sr_path h) (o_addr_list out) start step;
    _ ← mutex_unlock;
    mret (if distinct then 1 else 0,
          Route_out (sr_iface_id h) (sr_flags h) addr_list count UNIVERSAL_ADDRESS_SIZE o_fib_sr).

(** [out] has the values behind the pointers; [o_fib_sr] is [None] for [NULL]. *)
Definition fib_sr_get_route (args_ok : bool) (dst : list Z) (dst_size : Z) (out : route_out) (reverse : bool)
    : F (Z * route_out) :=
  _ ← mutex_lock;
  if negb args_ok then _ ← mutex_unlock; mret (- EFAULT, out)
  else
    '(hs, _) ← get_source_routes;
    let fib_sr := match o_fib_sr out with Some p => p | None => None end in
    '(hit, tmp_hit, check_free_entry) ←
      direct_loop (length hs) 0 dst dst_size (o_flags out) fib_sr (bool_decide (fib_sr ≠ None)) None (-1);
    let hit := match hit with Some _ => hit | None => tmp_hit end in
    '(hit, error) ←
      match hit with
      | Some _ => mret (hit, 0)
      | None => _fib_create_sr_from_partial dst dst_size check_free_entry
      end;
    if negb (error =? 0) && negb (error =? - EHOSTUNREACH) then
      _ ← match hit with
          | Some j => h ← get_header j; _ ← set_header j (set_sr_lifetime 0 h); release_sr j
          | None => mret tt
          end;
      _ ← mutex_unlock;
      mret (error, out)
    else
      match hit with
      | Some hit => deliver out reverse hit (bool_decide (tmp_hit ≠ None))
      | None =>
          _ ← fib_signal_rp_address FIB_MSG_RP_SIGNAL_UNREACHABLE_DESTINATION dst dst_size (o_flags out);
          _ ← mutex_unlock;
          mret (- EHOSTUNREACH, out)
      end.

(** [fib_devel_get_lifetime] on source routes; [addr_size_match] keeps the size
    the last comparison left in it. *)
Fixpoint devel_loop (n i : nat) (dst : list Z) (addr_size_match : Z) : F (Z * option Z) :=
  match n with
  | O => mret (- EHOSTUNREACH, None)
  | S n =>
      h ← get_header i;
      d ← flift (from_option_or NullDeref (sr_dest h));
      e ← get_hop d;
      '(c, addr_size_match) ← ua_get (λ U, universal_address_compare U (sr_address e) dst addr_size_match);
      if c =? UNIVERSAL_ADDRESS_EQUAL then mret (0, Some (sr_lifetime h)) else devel_loop n (S i) dst addr_size_match
  end.

Definition fib_devel_get_lifetime_sr (dst : list Z) (dst_size : Z) : F (Z * option Z) :=
  '(hs, _) ← get_source_routes;
  devel_loop (length hs) 0 dst (u32 (Z.shiftl dst_size 3)).

End FibSr.
