(* ===== verification/FibRoute.v ===== *)
(** * The theorems on source routes

    A route that is created on an empty table and built hop by hop is delivered
    as the list of its hops, in both directions. The last part shows by
    evaluation what the functions do not guarantee. *)

From S2P Require Import Prelude Words UniversalAddress Fib FibInv FibOps FibTable FibSr.
Open Scope Z_scope.

(** ** Running the monad on source routes *)

Definition upd_sr (hs : list fib_sr_t) (pool : list fib_sr_entry_t) (U : addresses) (w : world) : world :=
  set_ua U (set_table (set_data (Source_routes hs pool) (table w)) w).

Record sr_is (w : world) (hs : list fib_sr_t) (pool : list fib_sr_entry_t) (U : addresses) : Prop := {
  sr_data : data (table w) = Source_routes hs pool;
  sr_ua : ua w = U
}.

Lemma upd_sr_is hs pool U w : sr_is (upd_sr hs pool U w) hs pool U.
Proof. done. Qed.
Lemma upd_sr_id hs pool U w : sr_is w hs pool U → upd_sr hs pool U w = w.
Proof. destruct w as [[d m p n r] U' k s]. intros [E1 E2]. simpl in *. by subst. Qed.

Section Run.
Context {w : world} {hs : list fib_sr_t} {pool : list fib_sr_entry_t} {U : addresses} (Hw : sr_is w hs pool U).

Lemma get_source_routes_Ok : get_source_routes w = Ok ((hs, pool), w).
Proof. unfold get_source_routes. by rewrite (sr_data _ _ _ _ Hw). Qed.

Lemma get_header_Ok i h : hs !! i = Some h → get_header i w = Ok (h, w).
Proof. intros Hi. unfold get_header. fstep get_source_routes_Ok. by rewrite Hi. Qed.

Lemma get_hop_Ok i e : pool !! i = Some e → get_hop i w = Ok (e, w).
Proof. intros Hi. unfold get_hop. fstep get_source_routes_Ok. by rewrite Hi. Qed.

Lemma set_header_Ok i h : set_header i h w = Ok (tt, upd_sr (<[i := h]> hs) pool U w).
Proof.
  unfold set_header. fstep get_source_routes_Ok. unfold set_source_routes, fmodify. do 2 f_equal.
  rewrite <- (sr_ua _ _ _ _ Hw). by destruct w.
Qed.

Lemma set_hop_Ok i e : set_hop i e w = Ok (tt, upd_sr hs (<[i := e]> pool) U w).
Proof.
  unfold set_hop. fstep get_source_routes_Ok. unfold set_source_routes, fmodify. do 2 f_equal.
  rewrite <- (sr_ua _ _ _ _ Hw). by destruct w.
Qed.

Lemma sr_add_Ok d n p U' : universal_address_add U d n = Ok (p, U') → ua_add d n w = Ok (p, upd_sr hs pool U' w).
Proof.
  intros E. unfold ua_add, ua_run. rewrite (sr_ua _ _ _ _ Hw), E. do 2 f_equal.
  rewrite <- (upd_sr_id _ _ _ _ Hw) at 1. done.
Qed.

Lemma sr_get_Ok {A} (f : addresses → result A) a : f U = Ok a → ua_get f w = Ok (a, w).
Proof. intros E. unfold ua_get. by rewrite (sr_ua _ _ _ _ Hw), E. Qed.
End Run.

(** ** Paths *)

(** The hops [l] from [start] on, with their addresses. *)
Fixpoint path_is (U : addresses) (pool : list fib_sr_entry_t) (start : option nat) (l : list nat) (ds : list (list Z)) : Prop :=
  match l, ds with
  | [], [] => start = None
  | i :: l, d :: ds =>
      start = Some i ∧ ∃ g next, pool !! i = Some (Fib_sr_entry (Some g) next) ∧ addr_at U g = Some d ∧
        path_is U pool next l ds
  | _, _ => False
  end.

Lemma hops_length U pool start l ds : path_is U pool start l ds → length l = length ds.
Proof.
  revert start ds. induction l as [|i l IH]; intros start [|d ds] Hp; [done..|]. destruct Hp as (_ & g & n & _ & _ & Hp).
  simpl. f_equal. by eapply IH.
Qed.

Lemma path_bound U pool start l ds : path_is U pool start l ds → NoDup l → (length l <= length pool)%nat.
Proof.
  intros Hp Hnd. assert (∀ i, i ∈ l → (i < length pool)%nat) as Hin.
  { clear Hnd. revert start ds Hp. induction l as [|i l IH]; intros start [|d ds] Hp j Hj; [by apply not_elem_of_nil in Hj|done..|].
    destruct Hp as (_ & g & n & Hi & _ & Hp). apply elem_of_cons in Hj as [->|Hj]; [by eapply lookup_lt_Some|by eapply IH]. }
  rewrite <- (length_seq (length pool) 0). apply submseteq_length, NoDup_submseteq; [done|].
  intros i Hi. apply elem_of_seq. specialize (Hin i Hi). lia.
Qed.

(** What an iteration does to the state, over the hops and their addresses. *)
Fixpoint walk {S R} (step : list Z → nat → S → S + R) (l : list nat) (ds : list (list Z)) (s : S) : S + R :=
  match l, ds with
  | i :: l, d :: ds => match step d i s with inl s => walk step l ds s | inr r => inr r end
  | _, _ => inl s
  end.

(** A loop over a path whose body does not change the world. *)
Lemma foreach_spec {S R} U hs pool (body : nat → S → F (S + R)) (step : list Z → nat → S → S + R) w l :
  sr_is w hs pool U → (∀ i d g n s, pool !! i = Some (Fib_sr_entry (Some g) n) → addr_at U g = Some d →
    body i s w = Ok (step d i s, w)) →
  ∀ start ds s, path_is U pool start l ds → NoDup l → LL_FOREACH start body s w = Ok (walk step l ds s, w).
Proof.
  intros Hw Hbody start ds s Hp Hnd. unfold LL_FOREACH. fstep (get_source_routes_Ok Hw).
  pose proof (path_bound _ _ _ _ _ Hp Hnd) as Hf. apply Nat.lt_succ_r in Hf. revert Hf. generalize (Datatypes.S (length pool)).
  clear Hnd. intros fuel. revert start ds s fuel Hp.
  induction l as [|i l IH]; intros start [|d ds] s [|fuel] Hp Hf; try done; try (simpl in Hf; lia); cbn [foreach_loop].
  - by rewrite Hp.
  - destruct Hp as (-> & g & n & Hi & Ha & Hp). fstep (Hbody i d g n s Hi Ha). cbn [walk].
    destruct (step d i s) as [s'|r]; [|done]. fstep (get_hop_Ok Hw i _ Hi). cbn [sr_next].
    apply IH; [done|simpl in Hf; lia].
Qed.

(** A loop that does not leave, with an invariant on the addresses it has seen. *)
Lemma foreach_inv {S R} U hs pool (body : nat → S → F (S + R)) (I : list (list Z) → S → Prop) w l :
  sr_is w hs pool U → ∀ start ds s, path_is U pool start l ds → NoDup l →
  (∀ i d g n pre suf s, ds = pre ++ d :: suf → pool !! i = Some (Fib_sr_entry (Some g) n) → addr_at U g = Some d →
    I pre s → ∃ s', body i s w = Ok (inl s', w) ∧ I (pre ++ [d]) s') →
  I [] s → ∃ s', LL_FOREACH start body s w = Ok (inl s', w) ∧ I ds s'.
Proof.
  intros Hw start ds s Hp Hnd Hbody Hs. unfold LL_FOREACH. rewrite (fbind_Ok _ _ _ _ _ (get_source_routes_Ok Hw)).
  pose proof (path_bound _ _ _ _ _ Hp Hnd) as Hf. apply Nat.lt_succ_r in Hf. revert Hf. generalize (Datatypes.S (length pool)).
  clear Hnd. intros fuel. assert (∃ pre, ds = pre ++ ds ∧ I pre s) as (pre & Hds & Hpre) by (by exists []).
  clear Hs. revert Hds Hp. generalize ds at 2 3. intros rest. revert rest start s fuel pre Hpre.
  induction l as [|i l IH]; intros [|d rest] start s [|fuel] pre Hpre Hds Hp Hf; try done; try (simpl in Hf; lia); cbn [foreach_loop].
  - exists s. rewrite app_nil_r in Hds. by rewrite Hp, Hds.
  - destruct Hp as (-> & g & n & Hi & Ha & Hp). destruct (Hbody i d g n pre rest s Hds Hi Ha Hpre) as (s' & E & Hs').
    rewrite (fbind_Ok _ _ _ _ _ E), (fbind_Ok _ _ _ _ _ (get_hop_Ok Hw i _ Hi)).
    apply (IH rest n s' fuel (pre ++ [d])); [done|by rewrite <- app_assoc|done|simpl in Hf; lia].
Qed.

(** ** The table with one route *)

Section Route.
Context (others : nat → nat).

Definition sr_refs (pool : list fib_sr_entry_t) (i : nat) : nat := (others i + nrefs (sr_address <$> pool) i)%nat.

Record pool_inv (pool : list fib_sr_entry_t) (U : addresses) : Prop := {
  pool_ua : ua_inv (sr_refs pool) U;
  pool_fresh : ∀ i e, pool !! i = Some e → sr_address e = None → sr_next e = None;
  pool_room : ∀ i, (others i + length pool < 255)%nat
}.

(** The hop has the address; the zero address equals none. *)
Lemma hop_equals_Ok hs pool U w i g n d a :
  sr_is w hs pool U → pool_inv pool U → pool !! i = Some (Fib_sr_entry (Some g) n) → addr_at U g = Some d →
  zeros a = false → (length a <= 16)%nat →
  hop_equals i a (u32 (Z.shiftl (Z.of_nat (length a)) 3)) w = Ok (bool_decide (d = a), w).
Proof.
  intros Hw Hinv Hi Ha Hz Hl. unfold hop_equals. fstep (get_hop_Ok Hw i _ Hi). cbn [sr_address].
  unfold addr_at in Ha. destruct (universal_address_table U !! g) as [c|] eqn:Hc; [|done]. injection Ha as <-.
  destruct (ua_container _ _ (pool_ua _ _ Hinv) g c Hc) as (Hwf & _). pose proof (content_length c Hwf).
  assert (u32 (Z.shiftl (Z.of_nat (length a)) 3) = Z.of_nat (length a) * 8) as ->.
  { unfold u32. rewrite Z.shiftl_mul_pow2 by lia. change (2 ^ 3) with 8. rewrite Z.mod_small; lia. }
  destruct (decide (length (content c) = length a)) as [E|E].
  - pose proof (universal_address_compare_spec U g c a Hc Hwf ltac:(lia)) as Ec. fstep (sr_get_Ok Hw (λ U, universal_address_compare U (Some g) a (Z.of_nat (length a) * 8)) _ Ec).
    destruct (zeros (content c)) eqn:Ez.
    + rewrite bool_decide_eq_false_2 by congruence. done.
    + by destruct (bool_decide (content c = a)).
  - pose proof (universal_address_compare_size U g c a (Z.of_nat (length a) * 8) Hc ltac:(lia)) as Ec.
    fstep (sr_get_Ok Hw (λ U, universal_address_compare U (Some g) a (Z.of_nat (length a) * 8)) _ Ec). rewrite bool_decide_eq_false_2 by congruence. done.
Qed.

Lemma walk_search {R} (f : nat → R) a l ds : length l = length ds →
  walk (λ d i (_ : unit), if bool_decide (d = a) then inr (f i) else inl tt) l ds tt =
  match list_find (λ d, d = a) ds with Some (k, _) => inr (f (l !!! k)) | None => inl tt end.
Proof.
  revert ds. induction l as [|i l IH]; intros [|d ds] Hl; try done. cbn [walk list_find].
  destruct (decide (d = a)) as [->|Hne].
  - by rewrite bool_decide_eq_true_2.
  - rewrite bool_decide_eq_false_2 by done. rewrite IH by (simpl in Hl; lia). by destruct (list_find _ ds) as [[k x]|].
Qed.

(** ** New hops *)

Definition sr_roomy (N n : nat) : Prop := (nothers others N + n < N)%nat.

Lemma pool_full pool N : (∀ i, (i < N)%nat → sr_refs pool i ≠ O) → ¬ sr_roomy N (length pool).
Proof.
  intros Hfull. unfold sr_roomy, nothers. set (P := λ i, others i ≠ O).
  pose proof (Permutation_length (filter_app_complement P (seq 0 N))) as Hc. rewrite length_app, length_seq in Hc.
  assert (length (filter (λ i, ¬ P i) (seq 0 N)) <= length (sr_address <$> pool))%nat as Hle.
  { apply nrefs_pigeonhole; [apply NoDup_filter, NoDup_seq|]. intros i Hi.
    apply list_elem_of_filter in Hi as [Hn Hi]. apply elem_of_seq in Hi. specialize (Hfull i ltac:(lia)).
    unfold P in Hn. apply dec_stable in Hn. unfold sr_refs in Hfull. lia. }
  rewrite length_fmap in Hle. lia.
Qed.

Lemma new_entry_loop_spec hs pool U a w n : ∀ i,
  sr_is w hs pool U → pool_inv pool U → (length a <= 16)%nat → (i + n = length pool)%nat →
  sr_roomy (length (universal_address_table U)) (length pool) →
  (∃ k, (i <= k)%nat ∧ pool !! k = Some (Fib_sr_entry None None)) →
  ∃ j g U', new_entry_loop n i a (Z.of_nat (length a)) w =
      Ok ((0, Some j), upd_sr hs (<[j := Fib_sr_entry (Some g) None]> pool) U' w) ∧
    pool !! j = Some (Fib_sr_entry None None) ∧ pool_inv (<[j := Fib_sr_entry (Some g) None]> pool) U' ∧
    same_addrs (sr_refs pool) U U' ∧ addr_at U' g = Some a ∧
    length (universal_address_table U') = length (universal_address_table U).
Proof.
  induction n as [|n IH]; intros i Hw Hinv Ha Hn Hroom (k & Hk & Hfree); cbn [new_entry_loop].
  { apply lookup_lt_Some in Hfree. lia. }
  destruct (lookup_lt_is_Some_2 pool i ltac:(lia)) as [e Hi]. fstep (get_hop_Ok Hw i e Hi).
  destruct (bool_decide_reflect (sr_address e = None)) as [He|He].
  2:{ apply IH; [done|done|done|lia|done|]. exists k. split; [|done]. destruct (decide (k = i)) as [->|]; [by simplify_eq|lia]. }
  assert (e = Fib_sr_entry None None) as ->.
  { pose proof (pool_fresh _ _ Hinv i e Hi He). destruct e. simpl in *. by subst. }
  destruct (acquire _ U a (pool_ua _ _ Hinv) Ha) as (p & U' & E & HU' & Hs & Hl & Hp).
  { intros j. pose proof (pool_room _ _ Hinv j). unfold sr_refs. pose proof (nrefs_le (sr_address <$> pool) j) as Hle.
    rewrite length_fmap in Hle. lia. }
  destruct p as [g|]; [|by destruct Hp as [_ Hfull]; apply pool_full in Hfull].
  fstep (sr_add_Ok Hw _ _ _ _ E). exists i, g, U'. split; [|split; [done|split; [split|done]]].
  - assert (set_address i (Some g) (upd_sr hs pool U' w) =
      Ok (tt, upd_sr hs (<[i := Fib_sr_entry (Some g) None]> pool) U' w)) as Eset.
    { unfold set_address. fstep (get_hop_Ok (upd_sr_is hs pool U' w) i _ Hi). apply (set_hop_Ok (upd_sr_is hs pool U' w)). }
    fstep Eset. by rewrite bool_decide_eq_false_2.
  - eapply ua_inv_ext; [|exact HU']. intros j. simpl. unfold sr_refs. rewrite list_fmap_insert.
    pose proof (nrefs_insert (sr_address <$> pool) i None (Some g) j) as Hr. rewrite list_lookup_fmap, Hi in Hr.
    specialize (Hr eq_refl). rewrite points_None in Hr. simpl. lia.
  - intros j e'. rewrite list_lookup_insert_Some. intros [(-> & <- & _)|[_ Hj]]; [done|]. by apply (pool_fresh _ _ Hinv j).
  - intros j. rewrite length_insert. apply (pool_room _ _ Hinv).
Qed.

(** ** Paths that grow *)

Lemma path_same U U' pool pool' l : ∀ start ds,
  path_is U pool start l ds → (∀ i, i ∈ l → pool' !! i = pool !! i) →
  (∀ g, sr_refs pool g ≠ O → addr_at U' g = addr_at U g) → path_is U' pool' start l ds.
Proof.
  induction l as [|i l IH]; intros start [|d ds] Hp Hpool Ha; try done. destruct Hp as (-> & g & n & Hi & Hg & Hp).
  split; [done|]. exists g, n. rewrite Hpool by left. split; [done|]. split.
  - rewrite Ha; [done|]. unfold sr_refs. assert (nrefs (sr_address <$> pool) g ≠ O); [|lia].
    apply (nrefs_elem _ i). by rewrite list_lookup_fmap, Hi.
  - apply IH; [done| |done]. intros j Hj. apply Hpool. by right.
Qed.

Lemma path_used U pool l i : ∀ start ds, path_is U pool start l ds → i ∈ l → ∃ g n, pool !! i = Some (Fib_sr_entry (Some g) n).
Proof.
  induction l as [|j l IH]; intros start [|d ds] Hp Hi; [by apply not_elem_of_nil in Hi|done..|].
  destruct Hp as (-> & g & n & Hj & _ & Hp). apply elem_of_cons in Hi as [->|Hi]; [by exists g, n|by eapply IH].
Qed.

Lemma path_snoc U pool l t j g a : ∀ start ds,
  path_is U pool start (l ++ [t]) ds → NoDup (l ++ [t]) → j ∉ l ++ [t] →
  pool !! j = Some (Fib_sr_entry (Some g) None) → addr_at U g = Some a →
  ∃ e, pool !! t = Some e ∧
    path_is U (<[t := Fib_sr_entry (sr_address e) (Some j)]> pool) start (l ++ [t; j]) (ds ++ [a]).
Proof.
  induction l as [|i l IH]; intros start [|d ds] Hp Hnd Hj Hpj Ha; try done.
  - destruct Hp as (-> & gt & n & Ht & Hgt & Hp). destruct ds; [|done]. simpl in Hp. subst n.
    exists (Fib_sr_entry (Some gt) None). split; [done|]. split; [done|]. exists gt, (Some j).
    rewrite list_lookup_insert_eq by (by eapply lookup_lt_Some). split; [done|]. split; [done|]. split; [done|].
    exists g, None. rewrite list_lookup_insert_ne by set_solver. done.
  - destruct Hp as (-> & gi & n & Hi & Hgi & Hp). apply NoDup_cons in Hnd as [Hni Hnd].
    destruct (IH n ds Hp Hnd ltac:(set_solver) Hpj Ha) as (e & He & Hp'). exists e. split; [done|]. split; [done|].
    exists gi, n. rewrite list_lookup_insert_ne by set_solver. done.
Qed.

(** ** Appending *)

Record route_at (hs : list fib_sr_t) (pool : list fib_sr_entry_t) (U : addresses) (i : nat) (h : fib_sr_t)
    (l : list nat) (ds : list (list Z)) : Prop := {
  at_header : hs !! i = Some h;
  at_path : path_is U pool (sr_path h) l ds;
  at_dest : sr_dest h = last l;
  at_nodup : NoDup l
}.

Definition free (pool : list fib_sr_entry_t) : nat := length (filter (λ e, sr_address e = None) pool).

Lemma free_entry pool U : pool_inv pool U → (0 < free pool)%nat → ∃ k, (0 <= k)%nat ∧ pool !! k = Some (Fib_sr_entry None None).
Proof.
  intros Hinv Hf. unfold free in Hf. destruct (filter _ pool) as [|e f] eqn:E; [simpl in Hf; lia|].
  assert (e ∈ filter (λ e, sr_address e = None) pool) as He by (rewrite E; left).
  apply list_elem_of_filter in He as [He Hin]. apply list_elem_of_lookup in Hin as [k Hk]. exists k. split; [lia|].
  pose proof (pool_fresh _ _ Hinv k e Hk He). destruct e. simpl in *. by subst.
Qed.

Lemma hop_free_insert pool k e e' : pool !! k = Some e →
  (free (<[k := e']> pool) + (if decide (sr_address e = None) then 1 else 0) =
   free pool + (if decide (sr_address e' = None) then 1 else 0))%nat.
Proof. intros Hk. exact (length_filter_insert (λ e, sr_address e = None) pool k e e' Hk). Qed.

(** The pointers of a pool do not depend on the links. *)
Lemma pool_inv_link pool U t e n : pool_inv pool U → pool !! t = Some e → sr_address e ≠ None →
  pool_inv (<[t := Fib_sr_entry (sr_address e) n]> pool) U.
Proof.
  intros Hinv Ht He. split.
  - eapply ua_inv_ext; [|exact (pool_ua _ _ Hinv)]. intros i. unfold sr_refs. rewrite list_fmap_insert. simpl.
    rewrite list_insert_id; [done|]. by rewrite list_lookup_fmap, Ht.
  - intros i e'. rewrite list_lookup_insert_Some. intros [(-> & <- & _)|[_ Hi]]; [done|]. by apply (pool_fresh _ _ Hinv i).
  - intros i. rewrite length_insert. apply (pool_room _ _ Hinv).
Qed.

(** A new hop at the end of the path, on the level of the pool. *)
Lemma route_snoc hs pool U U' i h l ds j g a :
  route_at hs pool U i h l ds → pool_inv pool U → pool !! j = Some (Fib_sr_entry None None) →
  pool_inv (<[j := Fib_sr_entry (Some g) None]> pool) U' → same_addrs (sr_refs pool) U U' → addr_at U' g = Some a →
  let pool1 := <[j := Fib_sr_entry (Some g) None]> pool in
  match sr_dest h with
  | None => route_at (<[i := set_sr_dest (Some j) (set_sr_path (Some j) h)]> hs) pool1 U' i
      (set_sr_dest (Some j) (set_sr_path (Some j) h)) [j] [a] ∧ l = [] ∧ ds = []
  | Some t => ∃ e, pool1 !! t = Some e ∧ sr_address e ≠ None ∧
      let pool2 := <[t := Fib_sr_entry (sr_address e) (Some j)]> pool1 in
      route_at (<[i := set_sr_dest (Some j) h]> hs) pool2 U' i (set_sr_dest (Some j) h) (l ++ [j]) (ds ++ [a])
  end.
Proof.
  intros [Hh Hp Hd Hnd] Hinv Hj Hinv1 Hs Ha pool1. assert (j < length pool)%nat as Hlt by (by eapply lookup_lt_Some).
  assert (j ∉ l) as Hjl by (intros Hin; destruct (path_used _ _ _ _ _ _ Hp Hin) as (? & ? & ?); congruence).
  assert (path_is U' pool1 (sr_path h) l ds) as Hp1.
  { apply (path_same U U' pool); [done| |intros g' Hg'; by apply Hs]. intros k Hk. apply list_lookup_insert_ne. set_solver. }
  assert (pool1 !! j = Some (Fib_sr_entry (Some g) None)) as Hj1 by (by apply list_lookup_insert_eq).
  assert (i < length hs)%nat as Hi by (by eapply lookup_lt_Some). rewrite Hd.
  destruct l as [|x l _] using rev_ind.
  - destruct ds; [|done]. simpl. split; [|done]. split; [by apply list_lookup_insert_eq| |done|apply NoDup_singleton].
    split; [done|]. by exists g, None.
  - rewrite last_snoc. destruct (path_snoc U' pool1 l x j g a _ _ Hp1 Hnd Hjl Hj1 Ha) as (e & He & Hp2).
    exists e. split; [done|]. split.
    + destruct (path_used _ _ _ x _ _ Hp1 ltac:(set_solver)) as (gx & nx & Hx). by simplify_eq.
    + rewrite <- app_assoc. split; [by apply list_lookup_insert_eq|done|by rewrite (app_assoc l [x] [j]), last_snoc|].
      rewrite (app_assoc l [x] [j]). apply NoDup_app. split; [done|]. split; [set_solver|apply NoDup_singleton].
Qed.
End Route.

(** ** The calls *)

Section Calls.
Context (others : nat → nat) (time : nat → Z).

Definition now_left (w : world) (h : fib_sr_t) : Prop :=
  0 <= sr_lifetime h - time (ticks w) < 9223372036854775808.

Record sr_state (w : world) (hs : list fib_sr_t) (pool : list fib_sr_entry_t) (i : nat) (h : fib_sr_t)
    (l : list nat) (ds : list (list Z)) : Prop := {
  ss_is : sr_is w hs pool (ua w);
  ss_unlocked : mtx_access (table w) = false;
  ss_pool : pool_inv others pool (ua w);
  ss_roomy : sr_roomy others (length (universal_address_table (ua w))) (length pool);
  ss_route : route_at hs pool (ua w) i h l ds
}.

Lemma sr_lock_Ok w : mtx_access (table w) = false → mutex_lock w = Ok (tt, locked w).
Proof. intros Hm. unfold mutex_lock. by rewrite Hm. Qed.

Lemma sr_unlock_Ok w hs pool U : mtx_access (table w) = false →
  mutex_unlock (upd_sr hs pool U (locked w)) = Ok (tt, upd_sr hs pool U w).
Proof. intros Hm. unfold mutex_unlock, fmodify. do 2 f_equal. destruct w as [[d m p n r] U' t x]. simpl in *. by subst. Qed.

Lemma sr_unlock_same w : mtx_access (table w) = false → mutex_unlock (locked w) = Ok (tt, w).
Proof. intros Hm. unfold mutex_unlock, fmodify. do 2 f_equal. destruct w as [[d m p n r] U' t x]. simpl in *. by subst. Qed.

Lemma locked_is w hs pool U k : sr_is w hs pool U → sr_is (locked (set_ticks k w)) hs pool U.
Proof. by intros []. Qed.

Lemma check_lifetime_Ok w hs pool U i h : sr_is w hs pool U → hs !! i = Some h → now_left w h →
  fib_sr_check_lifetime time i w = Ok (0, set_ticks (S (ticks w)) w).
Proof.
  intros Hw Hi Hl. unfold fib_sr_check_lifetime. fstep (get_header_Ok Hw i h Hi).
  rewrite (fbind_Ok _ _ w _ _ eq_refl). unfold now_left in Hl.
  assert (s64 (u64 (sr_lifetime h - time (ticks w))) <? 0 = false) as ->; [|done].
  unfold u64, s64. rewrite !Z.mod_small by (rewrite ?Z.mod_small; lia). lia.
Qed.

Lemma with_sr_Ok {A} w hs pool i h l ds (fail : Z → A) body : sr_state w hs pool i h l ds → now_left w h →
  with_sr time true (Some i) fail body w = body i (locked (set_ticks (S (ticks w)) w)).
Proof.
  intros [Hw Hm _ _ [Hi _ _ _]] Hl. unfold with_sr. fstep (sr_lock_Ok _ Hm).
  assert (sr_is (locked w) hs pool (ua w)) as Hw' by (by destruct Hw).
  assert (fib_is_sr_in_table i (locked w) = Ok (0, locked w)) as Ei.
  { unfold fib_is_sr_in_table. fstep (get_source_routes_Ok Hw'). apply lookup_lt_Some in Hi.
    by rewrite (proj2 (Nat.ltb_lt _ _) Hi). }
  fstep Ei. cbn [negb orb]. change (0 =? - ENOENT) with false. cbv iota.
  fstep (check_lifetime_Ok _ _ _ _ _ _ Hw' Hi Hl). done.
Qed.

(** The search for a hop, by a call that holds the mutex. *)
Lemma search_Ok {R} w hs pool U i h l ds a (f : nat → R) :
  sr_is w hs pool U → pool_inv others pool U → route_at hs pool U i h l ds → zeros a = false → (length a <= 16)%nat →
  LL_FOREACH (sr_path h) (λ elt s,
    eq ← hop_equals elt a (u32 (Z.shiftl (Z.of_nat (length a)) 3)); mret (if (eq : bool) then inr (f elt) else inl s)) tt w =
  Ok (match list_find (λ d, d = a) ds with Some (k, _) => inr (f (l !!! k)) | None => inl tt end, w).
Proof.
  intros Hw Hinv Hr Hz Ha. rewrite <- walk_search by (by eapply hops_length, at_path).
  eapply (foreach_spec U hs pool); [done| |by eapply at_path|by eapply at_nodup].
  intros j d g n [] Hj Hd. fstep (hop_equals_Ok others hs pool U w j g n d a Hw Hinv Hj Hd Hz Ha). by destruct (bool_decide _).
Qed.

Definition ticked (w : world) : world := set_ticks (S (ticks w)) w.

(** The hops of a route are distinct. *)
Lemma append_known w hs pool i h l ds a :
  sr_state w hs pool i h l ds → now_left w h → zeros a = false → (length a <= 16)%nat → a ∈ ds →
  fib_sr_entry_append time (Some i) (Some a) (Z.of_nat (length a)) w = Ok (- EINVAL, ticked w).
Proof.
  intros Hst Hl Hz Ha Hin. pose proof Hst as [Hw Hm Hinv _ Hr]. unfold fib_sr_entry_append.
  rewrite (bool_decide_eq_true_2 (Some a ≠ None)) by done. rewrite (with_sr_Ok _ _ _ _ _ _ _ _ _ Hst Hl).
  pose proof (locked_is _ _ _ _ (S (ticks w)) Hw) as Hw'. rewrite (fbind_Ok _ _ _ _ _ eq_refl).
  fstep (get_header_Ok Hw' i h (at_header _ _ _ _ _ _ _ Hr)). fstep (search_Ok _ _ _ _ _ _ _ _ a (λ _, tt) Hw' Hinv Hr Hz Ha).
  destruct (list_find _ ds) as [[k x]|] eqn:E.
  - by fstep (sr_unlock_same (ticked w) Hm).
  - apply list_find_None in E. rewrite Forall_forall in E. by apply E in Hin.
Qed.

(** What appending writes once the new hop [j] is there. *)
Lemma link_Ok w hs pool U i h j e :
  hs !! i = Some h → sr_is w hs pool U → (∀ t, sr_dest h = Some t → pool !! t = Some e) →
  (h ← get_header i;
   _ ← match sr_dest h with Some tmp => set_next tmp (Some j) | None => set_header i (set_sr_path (Some j) h) end;
   h ← get_header i;
   set_header i (set_sr_dest (Some j) h)) w =
  Ok (tt, match sr_dest h with
          | Some t => upd_sr (<[i := set_sr_dest (Some j) h]> hs) (<[t := Fib_sr_entry (sr_address e) (Some j)]> pool) U w
          | None => upd_sr (<[i := set_sr_dest (Some j) (set_sr_path (Some j) h)]> hs) pool U w
          end).
Proof.
  intros Hi Hw He. assert (i < length hs)%nat as Hlt by (by eapply lookup_lt_Some). fstep (get_header_Ok Hw i h Hi).
  destruct (sr_dest h) as [t|] eqn:Ed.
  - assert (set_next t (Some j) w = Ok (tt, upd_sr hs (<[t := Fib_sr_entry (sr_address e) (Some j)]> pool) U w)) as E.
    { unfold set_next. fstep (get_hop_Ok Hw t e (He t eq_refl)). apply (set_hop_Ok Hw). }
    fstep E. fstep (get_header_Ok (upd_sr_is hs (<[t := Fib_sr_entry (sr_address e) (Some j)]> pool) U w) i h Hi).
    apply (set_header_Ok (upd_sr_is hs (<[t := Fib_sr_entry (sr_address e) (Some j)]> pool) U w)).
  - fstep (set_header_Ok Hw i (set_sr_path (Some j) h)).
    fstep (get_header_Ok (upd_sr_is (<[i := set_sr_path (Some j) h]> hs) pool U w) i (set_sr_path (Some j) h)
      (list_lookup_insert_eq hs i (set_sr_path (Some j) h) Hlt)).
    rewrite (set_header_Ok (upd_sr_is (<[i := set_sr_path (Some j) h]> hs) pool U w)). by rewrite list_insert_insert_eq.
Qed.

Lemma append_new w hs pool i h l ds a :
  sr_state w hs pool i h l ds → now_left w h → zeros a = false → (length a <= 16)%nat → a ∉ ds → (0 < free pool)%nat →
  ∃ w' hs' pool' h' l', fib_sr_entry_append time (Some i) (Some a) (Z.of_nat (length a)) w = Ok (0, w') ∧
    sr_state w' hs' pool' i h' l' (ds ++ [a]) ∧ ticks w' = S (ticks w) ∧ S (free pool') = free pool ∧
    (sr_iface_id h', sr_flags h', sr_lifetime h') = (sr_iface_id h, sr_flags h, sr_lifetime h).
Proof.
  intros Hst Hl Hz Ha Hin Hf. pose proof Hst as [Hw Hm Hinv Hroom Hr]. unfold fib_sr_entry_append.
  rewrite (bool_decide_eq_true_2 (Some a ≠ None)) by done. rewrite (with_sr_Ok _ _ _ _ _ _ _ _ _ Hst Hl).
  set (w1 := locked (set_ticks (S (ticks w)) w)).
  pose proof (locked_is _ _ _ _ (S (ticks w)) Hw) as Hw'. fold w1 in Hw'. rewrite (fbind_Ok _ _ w1 a w1 eq_refl).
  pose proof (at_header _ _ _ _ _ _ _ Hr) as Hi. fstep (get_header_Ok Hw' i h Hi).
  fstep (search_Ok _ _ _ _ _ _ _ _ a (λ _, tt) Hw' Hinv Hr Hz Ha).
  destruct (list_find _ ds) as [[k x]|] eqn:E.
  { apply list_find_Some in E as (Hk & -> & _). apply list_elem_of_lookup_2 in Hk. done. }
  destruct (new_entry_loop_spec others hs pool (ua w) a w1 (length pool) 0 Hw' Hinv Ha eq_refl Hroom (free_entry _ _ _ Hinv Hf))
    as (j & g & U' & En & Hj & Hinv' & Hs & Hg & HlU).
  assert (fib_sr_new_entry a (Z.of_nat (length a)) w1 = Ok ((0, Some j), upd_sr hs (<[j := Fib_sr_entry (Some g) None]> pool) U' w1)) as En'.
  { unfold fib_sr_new_entry. by fstep (get_source_routes_Ok Hw'). }
  fstep En'. pose proof (route_snoc others hs pool (ua w) U' i h l ds j g a Hr Hinv Hj Hinv' Hs Hg) as Hsn. cbn zeta in Hsn.
  pose proof (length_insert pool j (Fib_sr_entry (Some g) None)) as Hlp.
  set (pool1 := <[j := Fib_sr_entry (Some g) None]> pool) in *.
  pose proof (hop_free_insert pool j _ (Fib_sr_entry (Some g) None) Hj) as Hfree. fold pool1 in Hfree. simpl in Hfree.
  change (0 =? 0) with true. cbn [fwhen]. destruct (sr_dest h) as [t|] eqn:Ed.
  - destruct Hsn as (e & He & Hea & Hr'). pose proof (hop_free_insert pool1 t e (Fib_sr_entry (sr_address e) (Some j)) He) as Hfree'.
    simpl in Hfree'. rewrite !decide_False in Hfree' by done.
    pose proof (link_Ok (upd_sr hs pool1 U' w1) hs pool1 U' i h j e Hi (upd_sr_is _ _ _ _)) as Hlk. rewrite Ed in Hlk.
    fstep (Hlk ltac:(congruence)). fstep (sr_unlock_Ok (set_ticks (S (ticks w)) w) (<[i := set_sr_dest (Some j) h]> hs)
      (<[t := Fib_sr_entry (sr_address e) (Some j)]> pool1) U' Hm).
    eexists _, _, (<[t := Fib_sr_entry (sr_address e) (Some j)]> pool1), _, _. split; [reflexivity|].
    split; [split; [done|done| |cbn; by rewrite length_insert, Hlp, HlU|exact Hr']|].
    + by apply pool_inv_link.
    + split; [done|]. split; [lia|done].
  - destruct Hsn as (Hr' & -> & ->).
    pose proof (link_Ok (upd_sr hs pool1 U' w1) hs pool1 U' i h j (Fib_sr_entry None None) Hi (upd_sr_is _ _ _ _)) as Hlk.
    rewrite Ed in Hlk. fstep (Hlk ltac:(congruence)).
    fstep (sr_unlock_Ok (set_ticks (S (ticks w)) w) (<[i := set_sr_dest (Some j) (set_sr_path (Some j) h)]> hs) pool1 U' Hm).
    eexists _, _, pool1, _, _. split; [reflexivity|].
    split; [split; [done|done|done|cbn; by rewrite Hlp, HlU|exact Hr']|].
    split; [done|]. split; [lia|done].
Qed.

(** Hop after hop; what the calls return. *)
Fixpoint build (sr : option nat) (ds : list (list Z)) : F (list Z) :=
  match ds with
  | [] => mret []
  | d :: ds =>
      r ← fib_sr_entry_append time sr (Some d) (Z.of_nat (length d));
      rs ← build sr ds;
      mret (r :: rs)
  end.

Lemma build_Ok ds : ∀ w hs pool i h l ds0,
  sr_state w hs pool i h l ds0 →
  (∀ k, (k < length ds)%nat → 0 <= sr_lifetime h - time (ticks w + k)%nat < 9223372036854775808) →
  NoDup (ds0 ++ ds) → Forall (λ d, zeros d = false ∧ length d = 16%nat) ds → (length ds <= free pool)%nat →
  ∃ w' hs' pool' h' l', build (Some i) ds w = Ok (replicate (length ds) 0, w') ∧
    sr_state w' hs' pool' i h' l' (ds0 ++ ds) ∧ ticks w' = (ticks w + length ds)%nat ∧
    (sr_iface_id h', sr_flags h', sr_lifetime h') = (sr_iface_id h, sr_flags h, sr_lifetime h).
Proof.
  induction ds as [|d ds IH]; intros w hs pool i h l ds0 Hst Hl Hnd Hok Hf.
  { exists w, hs, pool, h, l. rewrite app_nil_r, Nat.add_0_r. done. }
  apply Forall_cons in Hok as [[Hz Hd] Hok].
  destruct (append_new w hs pool i h l ds0 d) as (w1 & hs1 & pool1 & h1 & l1 & E1 & Hst1 & Hk1 & Hf1 & Hh1);
    [done| |done|lia| |simpl in Hf; lia|].
  { unfold now_left. specialize (Hl 0%nat). rewrite Nat.add_0_r in Hl. apply Hl. simpl. lia. }
  { apply NoDup_app in Hnd as (_ & Hdis & _). intros Hin. by eapply Hdis, list_elem_of_here. }
  injection Hh1 as Hh1 Hh2 Hh3.
  destruct (IH w1 hs1 pool1 i h1 l1 (ds0 ++ [d])) as (w' & hs' & pool' & h' & l' & E & Hst' & Hk & Hh);
    [done| |by rewrite <- app_assoc|done|simpl in Hf; lia|].
  { intros k Hk. rewrite Hk1, Hh3, Nat.add_succ_comm. apply Hl. simpl. lia. }
  exists w', hs', pool', h', l'. rewrite <- app_assoc in Hst'. split; [cbn [build]; fstep E1; by fstep E|].
  split; [done|]. split; [simpl; lia|]. by rewrite Hh, Hh1, Hh2, Hh3.
Qed.

(** ** A new route *)

Record sr_fresh (w : world) (h0 : fib_sr_t) (hs : list fib_sr_t) (n : nat) : Prop := {
  fr_data : data (table w) = Source_routes (h0 :: hs) (replicate n (Fib_sr_entry None None));
  fr_lifetime : sr_lifetime h0 = 0;
  fr_unlocked : mtx_access (table w) = false;
  fr_ua : ua_inv others (ua w);
  fr_room : sr_roomy others (length (universal_address_table (ua w))) n;
  fr_refs : ∀ i, (others i + n < 255)%nat
}.

Lemma nrefs_replicate n i : nrefs (sr_address <$> replicate n (Fib_sr_entry None None)) i = O.
Proof. rewrite fmap_replicate. unfold nrefs. induction n as [|n IH]; [done|]. simpl. by rewrite filter_cons_False. Qed.

Lemma free_replicate n : free (replicate n (Fib_sr_entry None None)) = n.
Proof. unfold free. induction n as [|n IH]; [done|]. cbn [replicate]. rewrite filter_cons_True by done. simpl. by f_equal. Qed.

Lemma fresh_pool w h0 hs n : sr_fresh w h0 hs n → pool_inv others (replicate n (Fib_sr_entry None None)) (ua w).
Proof.
  intros Hf. split.
  - eapply ua_inv_ext; [|exact (fr_ua _ _ _ _ Hf)]. intros i. unfold sr_refs. rewrite nrefs_replicate. lia.
  - intros i e Hi _. apply lookup_replicate in Hi as [-> _]. done.
  - intros i. rewrite length_replicate. apply (fr_refs _ _ _ _ Hf).
Qed.

Lemma create_fresh w h0 hs n iface flags life :
  sr_fresh w h0 hs n → 0 < life < 4294967295 → 0 <= time (ticks w) → time (ticks w) + u32 (life * US_PER_MS) < 9223372036854775808 →
  let h := Fib_sr iface (time (ticks w) + u32 (life * US_PER_MS)) flags None None in
  ∃ w', fib_sr_create time true iface flags life w = Ok ((0, Some O), w') ∧
    sr_state w' (h :: hs) (replicate n (Fib_sr_entry None None)) O h [] [] ∧ ticks w' = S (ticks w).
Proof.
  intros Hf Hl H0 Ht h. pose proof (fresh_pool _ _ _ _ Hf) as Hinv. destruct Hf as [Hd Hl0 Hm Hua Hroom Hrefs].
  set (pool := replicate n (Fib_sr_entry None None)) in *. set (w' := set_ticks (S (ticks w)) (upd_sr (h :: hs) pool (ua w) w)).
  exists w'. split; [|split; [|done]].
  - unfold fib_sr_create. fstep (sr_lock_Ok _ Hm). assert (life =? 0 = false) as -> by lia. cbn [negb orb].
    assert (sr_is (locked w) (h0 :: hs) pool (ua w)) as Hw by done.
    fstep (get_source_routes_Ok Hw). cbn [length create_sr_loop].
    refine (eq_trans (fbind_Ok _ _ _ (0, Some O) (locked w') _) _); [|by fstep (sr_unlock_same w' Hm)].
    fstep (get_header_Ok Hw 0 h0 eq_refl). rewrite Hl0. change (0 =? 0) with true. cbv iota.
    fstep (set_header_Ok Hw 0 (Fib_sr iface 0 flags None None)). assert (life <? u32 FIB_LIFETIME_NO_EXPIRE = true) as -> by (unfold u32, FIB_LIFETIME_NO_EXPIRE; change (18446744073709551615 mod 4294967296) with 4294967295; lia).
    rewrite (fbind_Ok (fib_lifetime_to_absolute time life) _ _ _ _ eq_refl). cbn [list_insert insert].
    set (w2 := set_ticks _ _). assert (sr_is w2 (Fib_sr iface 0 flags None None :: hs) pool (ua w)) as Hw2 by done.
    fstep (get_header_Ok Hw2 0 (Fib_sr iface 0 flags None None) eq_refl).
    fstep (set_header_Ok Hw2 0 (set_sr_lifetime (u64 (time (ticks w) + u32 (life * US_PER_MS))) (Fib_sr iface 0 flags None None))).
    unfold u64. rewrite Z.mod_small; [done|]. unfold u32 in *. pose proof (Z.mod_pos_bound (life * US_PER_MS) 4294967296). lia.
  - split; [done|done|done|unfold pool; by rewrite length_replicate|]. split; [done|done|done|constructor].
Qed.

(** ** Delivery *)

Lemma path_last U pool l t a : ∀ start ds, path_is U pool start (l ++ [t]) (ds ++ [a]) →
  ∃ g n, pool !! t = Some (Fib_sr_entry (Some g) n) ∧ addr_at U g = Some a.
Proof.
  induction l as [|i l IH]; intros start [|d ds] Hp; destruct Hp as (_ & g & n & Hi & Ha & Hp); [by exists g, n| | |by eapply IH].
  - by destruct ds.
  - by destruct l.
Qed.

Lemma count_Ok w hs pool U start l ds : sr_is w hs pool U → path_is U pool start l ds → NoDup l →
  LL_FOREACH (R := unit) start (λ elt n, mret (inl (n + 1))) 0 w = Ok (inl (Z.of_nat (length ds)), w).
Proof.
  intros Hw Hp Hnd.
  destruct (foreach_inv (R := unit) U hs pool (λ elt n, mret (inl (n + 1))) (λ pre n, n = Z.of_nat (length pre)) w l Hw start ds 0 Hp Hnd)
    as (n & E & ->); [|done|done].
  intros i d g n pre suf s _ _ _ ->. eexists. split; [reflexivity|]. rewrite length_app. simpl. lia.
Qed.

(** Sixteen bytes of a list, replaced. *)
Lemma memcpy_slot (A X B src : list Z) : length X = 16%nat → (16 <= length src)%nat →
  memcpy (A ++ X ++ B) (Z.of_nat (length A)) src 0 16 = Ok (A ++ take 16 src ++ B).
Proof.
  intros HX Hs. rewrite memcpy_Ok by (rewrite ?length_app; lia). rewrite Nat2Z.id, take_app_length.
  change (Z.to_nat 16) with 16%nat. change (Z.to_nat 0) with 0%nat. rewrite drop_0. do 3 f_equal.
  replace (Z.to_nat (Z.of_nat (length A) + 16)) with (length (A ++ X)) by (rewrite length_app; lia).
  by rewrite app_assoc, drop_app_length.
Qed.

Definition sixteen (ds : list (list Z)) : Prop := Forall (λ d, length d = 16%nat) ds.

Lemma concat_length ds : sixteen ds → length (concat ds) = (16 * length ds)%nat.
Proof. induction 1 as [|d ds Hd _ IH]; [done|]. simpl. rewrite length_app, IH, Hd. lia. Qed.

Lemma slot (b : list Z) k : (k + 16 <= length b)%nat →
  length (take 16 (drop k b)) = 16%nat ∧ drop k b = take 16 (drop k b) ++ drop (k + 16) b ∧
  take (k + 16) b = take k b ++ take 16 (drop k b).
Proof.
  intros Hk. split; [rewrite length_take, length_drop; lia|]. split; [by rewrite <- drop_drop, take_drop|].
  by rewrite take_take_drop.
Qed.

(** The body of the loop that copies. *)
Definition copy_body (step : Z) (elt : nat) (st : list Z * Z) : F (list Z * Z + unit) :=
  let '(addr_list, next_entry) := st in
  e ← get_hop elt;
  c ← ua_get (λ U, container_at U (sr_address e));
  addr_list ← flift (if address_size c <=? UNIVERSAL_ADDRESS_SIZE
                     then memcpy addr_list next_entry (address c) 0 (address_size c) else Ok addr_list);
  mret (inl (addr_list, next_entry + step)).

Lemma copy_body_Ok w hs pool U step i g n d (A X B : list Z) :
  sr_is w hs pool U → pool_inv others pool U → pool !! i = Some (Fib_sr_entry (Some g) n) → addr_at U g = Some d →
  length d = 16%nat → length X = 16%nat →
  copy_body step i (A ++ X ++ B, Z.of_nat (length A)) w = Ok (inl (A ++ d ++ B, Z.of_nat (length A) + step), w).
Proof.
  intros Hw Hinv Hi Ha Hd HX. unfold copy_body. fstep (get_hop_Ok Hw i _ Hi). cbn [sr_address].
  unfold addr_at in Ha. destruct (universal_address_table U !! g) as [c|] eqn:Hc; [|done]. injection Ha as <-.
  fstep (sr_get_Ok Hw (λ U, container_at U (Some g)) _ (container_at_Some U g c Hc)).
  destruct (ua_container _ _ (pool_ua _ _ _ Hinv) g c Hc) as ([Hl Hs] & _).
  pose proof (content_length c (Build_container_wf c Hl Hs)) as Hcl. rewrite Hd in Hcl. rewrite <- Hcl.
  change (Z.of_nat 16 <=? UNIVERSAL_ADDRESS_SIZE) with true. cbv iota.
  pose proof (memcpy_slot A X B (address c) HX ltac:(lia)) as Em. unfold content. rewrite <- Hcl.
  rewrite (fbind_Ok _ _ w (A ++ take 16 (address c) ++ B) w); [done|]. unfold flift. change (Z.of_nat 16) with 16. by rewrite Em.
Qed.

Lemma copy_forward w hs pool U start l ds buf : sr_is w hs pool U → pool_inv others pool U → path_is U pool start l ds →
  NoDup l → sixteen ds → (16 * length ds <= length buf)%nat →
  copy_route start buf 0 16 w = Ok (concat ds ++ drop (16 * length ds) buf, w).
Proof.
  intros Hw Hinv Hp Hnd Hds Hb. unfold copy_route.
  destruct (foreach_inv U hs pool (copy_body 16)
    (λ pre st, st = (concat pre ++ drop (16 * length pre) buf, Z.of_nat (16 * length pre))) w l Hw start ds (buf, 0) Hp Hnd)
    as ([b p] & E & [= -> _]); [|by rewrite drop_0|by fstep E].
  intros i d g n pre suf st Hd Hi Hg ->. subst ds. apply Forall_app in Hds as [Hpre Hd]. apply Forall_cons in Hd as [Hd _].
  rewrite length_app in Hb. cbn [length] in Hb. destruct (slot buf (16 * length pre)) as (HX & E1 & _); [lia|].
  pose proof (copy_body_Ok w hs pool U 16 i g n d (concat pre) _ (drop (16 * length pre + 16) buf) Hw Hinv Hi Hg Hd HX) as Ec.
  rewrite <- E1, (concat_length pre Hpre) in Ec. eexists. split; [exact Ec|]. rewrite concat_app, length_app. cbn [concat length]. rewrite app_nil_r, <- app_assoc.
  f_equal; [|lia]. do 3 f_equal. lia.
Qed.

Lemma copy_reverse w hs pool U start l ds buf : sr_is w hs pool U → pool_inv others pool U → path_is U pool start l ds →
  NoDup l → sixteen ds → (16 * length ds <= length buf)%nat →
  copy_route start buf ((Z.of_nat (length ds) - 1) * 16) (- 16) w = Ok (concat (reverse ds) ++ drop (16 * length ds) buf, w).
Proof.
  intros Hw Hinv Hp Hnd Hds Hb. unfold copy_route. set (N := length ds) in *.
  destruct (foreach_inv U hs pool (copy_body (- 16))
    (λ pre st, st = (take (16 * (N - length pre)) buf ++ concat (reverse pre) ++ drop (16 * N) buf,
                     (Z.of_nat N - Z.of_nat (length pre) - 1) * 16)) w l Hw start ds (buf, (Z.of_nat N - 1) * 16) Hp Hnd)
    as ([b p] & E & [= -> _]).
  - intros i d g n pre suf st Hd Hi Hg ->. assert (length d = 16%nat) as Hd16.
    { unfold sixteen in Hds. rewrite Hd in Hds. apply Forall_app in Hds as [_ Hds]. by apply Forall_cons in Hds as [? _]. }
    assert (N = length pre + S (length suf))%nat as HN by (unfold N; by rewrite Hd, length_app).
    destruct (slot buf (16 * length suf)) as (HX & _ & E1); [lia|].
    pose proof (copy_body_Ok w hs pool U (- 16) i g n d (take (16 * length suf) buf) _ (concat (reverse pre) ++ drop (16 * N) buf)
      Hw Hinv Hi Hg Hd16 HX) as Ec. rewrite app_assoc, <- E1 in Ec. rewrite length_take_le in Ec by lia.
    eexists. rewrite length_app. cbn [length]. split.
    + replace (16 * (N - length pre))%nat with (16 * length suf + 16)%nat by lia.
      replace ((Z.of_nat N - Z.of_nat (length pre) - 1) * 16) with (Z.of_nat (16 * length suf)) by lia. exact Ec.
    + rewrite reverse_snoc. cbn [concat]. rewrite <- app_assoc. f_equal; [|lia]. do 2 f_equal. lia.
  - cbn [length]. rewrite Nat.sub_0_r. change (concat (reverse [])) with (@nil Z). rewrite app_nil_l, take_drop. f_equal. lia.
  - fold (copy_body (- 16)). rewrite (fbind_Ok _ _ _ _ _ E). by rewrite Nat.sub_diag.
Qed.

Definition ordered (rev : bool) (ds : list (list Z)) : list (list Z) := if rev then reverse ds else ds.

Lemma deliver_Ok w hs pool i h l ds out rev :
  sr_state w hs pool i h l ds → sixteen ds → o_element_size out = 16 → Z.of_nat (length ds) <= o_elements out →
  (16 * length ds <= length (o_addr_list out))%nat →
  deliver out rev i false (locked w) =
  Ok ((0, Route_out (sr_iface_id h) (sr_flags h) (concat (ordered rev ds) ++ drop (16 * length ds) (o_addr_list out))
            (Z.of_nat (length ds)) 16 (match o_fib_sr out with Some _ => Some (Some i) | None => None end)), w).
Proof.
  intros [Hw Hm Hinv _ [Hi Hp _ Hnd]] Hds He Hn Hb. unfold deliver.
  assert (sr_is (locked w) hs pool (ua w)) as Hw' by (by destruct Hw). fstep (get_header_Ok Hw' i h Hi).
  fstep (count_Ok _ _ _ _ _ _ _ Hw' Hp Hnd). rewrite He.
  assert ((o_elements out <? Z.of_nat (length ds)) || (16 <? UNIVERSAL_ADDRESS_SIZE) = false) as ->.
  { change (16 <? UNIVERSAL_ADDRESS_SIZE) with false. lia. }
  destruct rev; cbn [ordered].
  - fstep (copy_reverse _ _ _ _ _ _ _ _ Hw' Hinv Hp Hnd Hds Hb). by fstep (sr_unlock_same _ Hm).
  - fstep (copy_forward _ _ _ _ _ _ _ _ Hw' Hinv Hp Hnd Hds Hb). by fstep (sr_unlock_same _ Hm).
Qed.

Lemma get_route_Ok w hs pool h l ds a out rev :
  sr_state w hs pool O h l (ds ++ [a]) → now_left w h → zeros a = false → sixteen (ds ++ [a]) →
  o_flags out = sr_flags h → o_element_size out = 16 → Z.of_nat (S (length ds)) <= o_elements out →
  (16 * S (length ds) <= length (o_addr_list out))%nat → (o_fib_sr out = None ∨ o_fib_sr out = Some None) →
  fib_sr_get_route time true a 16 out rev w =
  Ok ((0, Route_out (sr_iface_id h) (sr_flags h) (concat (ordered rev (ds ++ [a])) ++ drop (16 * S (length ds)) (o_addr_list out))
            (Z.of_nat (S (length ds))) 16 (match o_fib_sr out with Some _ => Some (Some O) | None => None end)), ticked w).
Proof.
  intros Hst Hl Hz Hds Hfl He Hn Hb Hsr. pose proof Hst as [Hw Hm Hinv Hroom [Hi Hp Hd Hnd]].
  assert (length (ds ++ [a]) = S (length ds)) as HS by (rewrite length_app; simpl; lia).
  assert (sr_is (locked w) hs pool (ua w)) as Hw' by (by destruct Hw). unfold fib_sr_get_route. fstep (sr_lock_Ok _ Hm). cbn [negb].
  fstep (get_source_routes_Ok Hw'). assert (match o_fib_sr out with Some p => p | None => None end = None) as -> by (by destruct Hsr as [->| ->]).
  rewrite (bool_decide_eq_false_2 (None ≠ None)) by (intros []; done).
  destruct l as [|t l _] using rev_ind; [by destruct ds|]. rewrite last_snoc in Hd.
  destruct (path_last _ _ _ _ _ _ _ Hp) as (g & n & Ht & Hg). destruct hs as [|h' hs]; [done|]. injection Hi as ->. cbn [length direct_loop].
  set (w1 := set_ticks (S (ticks w)) w). assert (sr_is (locked w1) (h :: hs) pool (ua w)) as Hw1 by (by destruct Hw).
  refine (eq_trans (fbind_Ok _ _ _ (Some O, None, 0) (locked w1) _) _).
  { fstep (check_lifetime_Ok (locked w) (h :: hs) pool (ua w) 0 h Hw' eq_refl Hl).
    change (set_ticks (S (ticks (locked w))) (locked w)) with (locked w1). change (0 =? - ENOENT) with false. cbv iota.
    fstep (get_header_Ok Hw1 0 h eq_refl). rewrite Hd. rewrite (fbind_Ok _ _ (locked w1) t (locked w1) eq_refl).
    pose proof (hop_equals_Ok others _ _ _ _ t g n a a Hw1 Hinv Ht Hg Hz) as Eh. apply Forall_app in Hds as [_ Ha].
    apply Forall_cons in Ha as [Ha _]. rewrite Ha in Eh. fstep (Eh ltac:(lia)). rewrite bool_decide_eq_true_2 by done.
    rewrite Hfl, Z.eqb_refl. done. }
  cbv beta iota. rewrite (fbind_Ok _ _ (locked w1) (Some O, 0) (locked w1) eq_refl). cbv beta iota.
  change (negb (0 =? 0) && negb (0 =? - EHOSTUNREACH)) with false. cbv iota.
  rewrite (bool_decide_eq_false_2 (None ≠ None)) by (intros []; done). rewrite <- HS. apply (deliver_Ok w1 (h :: hs) pool O h (l ++ [t])); [|done|done|by rewrite HS|by rewrite HS].
  split; [by destruct Hw|done|done|done|]. split; [done|done|by rewrite last_snoc|done].
Qed.

(** A route is created, built and asked for. *)
Definition route_session (iface flags life : Z) (ds : list (list Z)) (a : list Z) (out : route_out) (rev : bool)
    : F (Z * list Z * Z * route_out) :=
  '(r, sr) ← fib_sr_create time true iface flags life;
  rs ← build sr (ds ++ [a]);
  '(ret, out) ← fib_sr_get_route time true a 16 out rev;
  mret (r, rs, ret, out).

(** C14: a source route that is created on an empty table and built from distinct
    addresses, as long as there are hops for them and its lifetime lasts, is
    delivered when its last address is asked for: every call succeeds, and the
    caller's buffer has exactly the addresses in the order of the route, or in
    the opposite order, with the rest of the buffer unchanged. *)
Theorem sr_route_roundtrip w h0 hs n iface flags life ds a out rev :
  sr_fresh w h0 hs n → 0 < life < 4294967295 →
  (∀ k, (k <= length ds + 2)%nat → 0 <= time (ticks w + k)%nat <= time (ticks w) + u32 (life * US_PER_MS)) →
  time (ticks w) + u32 (life * US_PER_MS) < 9223372036854775808 →
  NoDup (ds ++ [a]) → Forall (λ d, zeros d = false ∧ length d = 16%nat) (ds ++ [a]) → (S (length ds) <= n)%nat →
  o_flags out = flags → o_element_size out = 16 → Z.of_nat (S (length ds)) <= o_elements out →
  (16 * S (length ds) <= length (o_addr_list out))%nat → (o_fib_sr out = None ∨ o_fib_sr out = Some None) →
  ∃ w', route_session iface flags life ds a out rev w =
    Ok ((0, replicate (S (length ds)) 0, 0,
         Route_out iface flags (concat (ordered rev (ds ++ [a])) ++ drop (16 * S (length ds)) (o_addr_list out))
           (Z.of_nat (S (length ds))) 16 (match o_fib_sr out with Some _ => Some (Some O) | None => None end)), w').
Proof.
  intros Hf Hlife Ht Hb Hnd Hok Hn Hfl He Hel Hbuf Hsr. assert (length (ds ++ [a]) = S (length ds)) as HS by (rewrite length_app; simpl; lia).
  pose proof (Ht 0%nat ltac:(lia)) as H0. rewrite Nat.add_0_r in H0.
  destruct (create_fresh w h0 hs n iface flags life Hf Hlife (proj1 H0) Hb) as (w1 & E1 & Hst1 & Hk1).
  destruct (build_Ok (ds ++ [a]) w1 _ _ _ _ _ [] Hst1) as (w2 & hs2 & pool2 & h2 & l2 & E2 & Hst2 & Hk2 & Hh2); [|done|done|by rewrite free_replicate, HS|].
  { intros k Hk. rewrite HS in Hk. rewrite Hk1, Nat.add_succ_comm. specialize (Ht (S k) ltac:(lia)). cbn [sr_lifetime]. lia. }
  injection Hh2 as Hi2 Hf2 Hl2. rewrite app_nil_l in Hst2. rewrite HS in E2. exists (ticked w2).
  assert (sixteen (ds ++ [a])) as H16 by (eapply Forall_impl; [exact Hok|]; by intros d [_ ?]).
  assert (zeros a = false) as Hz by (apply Forall_app in Hok as [_ Ha]; by apply Forall_cons in Ha as [[? _] _]).
  assert (now_left w2 h2) as Hl.
  { unfold now_left. rewrite Hl2, Hk2, HS, Hk1. specialize (Ht (S (S (length ds))) ltac:(lia)).
    replace (S (ticks w) + S (length ds))%nat with (ticks w + S (S (length ds)))%nat by lia. lia. }
  unfold route_session. rewrite (fbind_Ok _ _ _ _ _ E1). cbv beta iota. fstep E2.
  rewrite (fbind_Ok _ _ _ _ _ (get_route_Ok w2 hs2 pool2 h2 l2 ds a out rev Hst2 Hl Hz H16 ltac:(congruence) He Hel Hbuf Hsr)).
  by rewrite Hi2, Hf2.
Qed.
End Calls.

(** ** Witness and examples *)

(** Headers, hops and containers that were never used. *)
Definition sr_world (T n N : nat) : world :=
  World (Fib_table (Source_routes (replicate T (Fib_sr 0 0 0 None None)) (replicate n (Fib_sr_entry None None))) false 0
           (replicate 5 0) (replicate 5 None))
        (Addresses (replicate N (Container 0 0 (replicate 16 0))) 0) 0 [].

Definition node (x : Z) : list Z := replicate 15 0 ++ [x].
Definition route_buffer (flags elements : Z) (n : nat) : route_out :=
  Route_out 0 flags (replicate n 255) elements 16 (Some None).

Lemma sr_world_fresh T n N : (n < 255)%nat → (n < N)%nat → Z.of_nat N < 65536 →
  sr_fresh (λ _, O) (sr_world (S T) n N) (Fib_sr 0 0 0 None None) (replicate T (Fib_sr 0 0 0 None None)) n.
Proof.
  intros Hn HN HN'. split; [done|done|done| | |done].
  - split; simpl.
    + intros i c Hi. apply lookup_replicate in Hi as [-> _]. split; [split; [done|simpl; lia]|]. split; [done|lia].
    + done.
    + rewrite filter_none; [done|]. apply Forall_replicate. unfold used. simpl. lia.
    + rewrite length_replicate. lia.
  - unfold sr_roomy, nothers. simpl. rewrite length_replicate, filter_none; [done|]. apply Forall_true. intros i Hi. done.
Qed.

Lemma sr_route_roundtrip_witness :
  ∃ w', route_session demo_time 7 3 1000 [node 1; node 2] (node 3) (route_buffer 3 4 64) true (sr_world 2 4 5) =
    Ok ((0, [0; 0; 0], 0, Route_out 7 3 (node 3 ++ node 2 ++ node 1 ++ replicate 16 255) 3 16 (Some (Some O))), w').
Proof.
  apply (sr_route_roundtrip (λ _, O) demo_time (sr_world 2 4 5) (Fib_sr 0 0 0 None None) [Fib_sr 0 0 0 None None] 4
           7 3 1000 [node 1; node 2] (node 3) (route_buffer 3 4 64) true).
  - apply sr_world_fresh; lia.
  - lia.
  - intros k Hk. unfold demo_time. cbn [length] in Hk. cbn [sr_world ticks]. change (u32 (1000 * US_PER_MS)) with 1000000. lia.
  - vm_compute. reflexivity.
  - apply (bool_decide_unpack _). vm_compute. exact I.
  - repeat constructor.
  - cbn. lia.
  - reflexivity.
  - reflexivity.
  - cbn. lia.
  - cbn. lia.
  - right. reflexivity.
Defined.

Definition hop_to (sr : option nat) (x : Z) : F Z := fib_sr_entry_append demo_time sr (Some (node x)) 16.
Definition route_to (x element_size : Z) (rev : bool) : F (Z * route_out) :=
  fib_sr_get_route demo_time true (node x) 16 (Route_out 0 3 (replicate 64 255) 4 element_size (Some None)) rev.

(** A route that never expires has expired: the largest lifetime is negative as
    an [int64_t]. *)
Example endless_route_expires :
  value_of ('(_, sr) ← fib_sr_create demo_time true 7 3 0xFFFFFFFF; hop_to sr 1) (sr_world 2 4 5) = Ok (- ENOENT).
Proof. vm_compute. reflexivity. Qed.

(** Deleting a route leaves the links of its hops: the first hop of the next
    route still has a successor, which has no address. *)
Example reused_hop_keeps_link :
  value_of ('(_, sr) ← fib_sr_create demo_time true 7 3 1000;
            _ ← build demo_time sr [node 1; node 2];
            _ ← fib_sr_delete sr;
            '(_, sr) ← fib_sr_create demo_time true 7 3 1000;
            build demo_time sr [node 3; node 4]) (sr_world 2 4 5) = Fault NullDeref.
Proof. vm_compute. reflexivity. Qed.

(** A route without hops has no destination to compare with. *)
Example empty_route_faults :
  value_of (_ ← fib_sr_create demo_time true 7 3 1000; route_to 1 16 false) (sr_world 2 4 5) = Fault NullDeref.
Proof. vm_compute. reflexivity. Qed.

(** Deleting a hop that is not on the route leaves the mutex locked. *)
Example missing_hop_locks_table :
  value_of ('(_, sr) ← fib_sr_create demo_time true 7 3 1000;
            _ ← hop_to sr 1;
            fib_sr_entry_delete demo_time sr (node 2) 16 true) (sr_world 2 4 5) = Ok (- ENOENT) ∧
  value_of ('(_, sr) ← fib_sr_create demo_time true 7 3 1000;
            _ ← hop_to sr 1;
            _ ← fib_sr_entry_delete demo_time sr (node 2) 16 true;
            hop_to sr 3) (sr_world 2 4 5) = Fault Deadlock.
Proof. split; vm_compute; reflexivity. Qed.

(** The hops of an expired route are lost. *)
Example expired_route_keeps_hops :
  value_of ('(_, sr) ← fib_sr_create demo_time true 7 3 1;
            _ ← build demo_time sr [node 1; node 2];
            _ ← fmodify (set_ticks 500);
            _ ← route_to 1 16 false;
            '(_, sr) ← fib_sr_create demo_time true 7 3 1000;
            hop_to sr 3) (sr_world 2 2 5) = Ok (- ENOMEM).
Proof. vm_compute. reflexivity. Qed.

(** A hop that is added behind the last one does not become the destination, and
    is dropped by the next [fib_sr_entry_append]. *)
Example added_last_hop_is_dropped :
  value_of ('(_, sr) ← fib_sr_create demo_time true 7 3 1000;
            _ ← hop_to sr 1;
            '(_, e) ← fib_sr_search demo_time sr (Some (node 1)) 16 true;
            added ← fib_sr_entry_add demo_time sr e (Some (node 2)) 16 true;
            '(_, dst, _) ← fib_sr_read_destination demo_time true sr (node 0) 16;
            _ ← hop_to sr 3;
            found ← fib_sr_search demo_time sr (Some (node 2)) 16 true;
            mret (added, dst, found)) (sr_world 2 4 5) = Ok (0, node 1, (- EHOSTUNREACH, None)).
Proof. vm_compute. reflexivity. Qed.

(** A partial route is copied into every free header. *)
Example partial_route_fills_table :
  value_of ('(_, sr) ← fib_sr_create demo_time true 7 3 1000;
            _ ← build demo_time sr [node 1; node 2];
            '(ret, _) ← route_to 1 16 false;
            '(hs, _) ← get_source_routes;
            mret (ret, sr_path <$> hs)) (sr_world 4 8 9) = Ok (0, [Some 0; Some 2; Some 3; Some 4]%nat).
Proof. vm_compute. reflexivity. Qed.

(** In the opposite order, elements of more than sixteen bytes are written in
    front of the buffer. *)
Example large_elements_out_of_bounds :
  value_of ('(_, sr) ← fib_sr_create demo_time true 7 3 1000;
            _ ← build demo_time sr [node 1; node 2];
            route_to 2 20 true) (sr_world 4 8 9) = Fault OutOfBounds.
Proof. vm_compute. reflexivity. Qed.

(** The second route is not found: the comparison with the first one shortened
    the size that is compared. *)
Example lifetime_of_second_route :
  value_of ('(_, sr) ← fib_sr_create demo_time true 7 3 1000;
            _ ← hop_to sr 1;
            '(_, sr) ← fib_sr_create demo_time true 7 3 1000;
            _ ← hop_to sr 2;
            first ← fib_devel_get_lifetime_sr (node 1) 16;
            second ← fib_devel_get_lifetime_sr (node 2) 16;
            mret (first.1, second.1)) (sr_world 2 4 5) = Ok (0, - EHOSTUNREACH).
Proof. vm_compute. reflexivity. Qed.
