(* ===== verification/Ipv6Addr.v ===== *)
(** * sys/net/network_layer: IPv4 and IPv6 addresses

    ipv6_addr.c, ipv6_addr_from_str.c, ipv6_addr_to_str.c, the functions of
    net/ipv6/addr.h, ipv4_addr_from_str.c and ipv4_addr_to_str.c. An address is
    the list of its bytes in network order; a character is its code. A pointer
    into a string is the rest of the string, terminator included: reading behind
    it is a fault. *)

From S2P Require Import Prelude Words.
Open Scope Z_scope.

(** ** Characters *)

Definition c_colon : Z := 58.
Definition c_dot : Z := 46.
Definition c_zero : Z := 48.
Definition HEX_L : list Z := [48; 49; 50; 51; 52; 53; 54; 55; 56; 57; 97; 98; 99; 100; 101; 102].
Definition HEX_U : list Z := [48; 49; 50; 51; 52; 53; 54; 55; 56; 57; 65; 66; 67; 68; 69; 70].
Definition DEC : list Z := [48; 49; 50; 51; 52; 53; 54; 55; 56; 57].

(** [strchr(s, c) - s], for a character that is not the terminator. *)
Definition strchr (s : list Z) (c : Z) : option Z := (λ p, Z.of_nat p.1) <$> list_find (λ x, x = c) s.

Definition deref (s : list Z) : result Z := from_option_or OutOfBounds (head s).

(** ** IPv4 *)

Definition IPV4_ADDR_MAX_STR_LEN : Z := 16.

(** [tmp] has the octets written so far; [tp] points to the last one. The result
    is [None] for [NULL]. *)
Fixpoint ipv4_loop (addr : list Z) (tmp : list Z) (saw_digit : bool) (octets : Z) : result (option (list Z * Z)) :=
  match addr with
  | [] => Fault OutOfBounds
  | ch :: addr =>
      if ch =? 0 then Ok (Some (tmp, octets))
      else
        match strchr DEC ch with
        | Some d =>
            t ← from_option_or OutOfBounds (last tmp);
            let new := u16 (t * 10 + d) in
            if 255 <? new then Ok None
            else
              let tmp := <[pred (length tmp) := u8 new]> tmp in
              if negb saw_digit then
                if 4 <? u8 (octets + 1) then Ok None else ipv4_loop addr tmp true (u8 (octets + 1))
              else ipv4_loop addr tmp saw_digit octets
        | None =>
            if (ch =? c_dot) && saw_digit then
              if octets =? 4 then Ok None
              else if (length tmp <? 4)%nat then ipv4_loop addr (tmp ++ [0]) false octets
              else Fault OutOfBounds
            else Ok None
        end
  end.

(** [result] is an offset into the memory [mem], or [None] for [NULL]. Whether an
    address was read, and the memory. *)
Definition ipv4_addr_from_str (mem : list Z) (result : option Z) (addr : option (list Z)) : Prelude.result (bool * list Z) :=
  match result, addr with
  | Some result, Some addr =>
      r ← ipv4_loop addr [0] false 0;
      match r with
      | None => Ok (false, mem)
      | Some (tmp, octets) =>
          if octets <? 4 then Ok (false, mem)
          else mem ← memcpy mem result tmp 0 4; Ok (true, mem)
      end
  | _, _ => Ok (false, mem)
  end.

(** A buffer and the position that is written next. *)
Definition cursor : Type := list Z * Z.
Definition put_char (c : Z) (st : cursor) : result cursor := let '(b, p) := st in b ← aset b p c; Ok (b, p + 1).

Definition put_octet (u : Z) (next : cursor) : result cursor :=
  '(u, next) ←
    (if 99 <? u then
       next ← put_char (c_zero + u / 100) next;
       let u := u mod 100 in
       next ← put_char (c_zero + u / 10) next;
       Ok (u mod 10, next)
     else if 9 <? u then
       next ← put_char (c_zero + u / 10) next;
       Ok (u mod 10, next)
     else Ok (u, next));
  next ← put_char (c_zero + u) next;
  put_char c_dot next.

Fixpoint ipv4_octets (addr : list Z) (n : nat) (next : cursor) : result cursor :=
  match n with
  | O => Ok next
  | S k => u ← aget addr (4 - Z.of_nat n); next ← put_octet u next; ipv4_octets addr k next
  end.

(** [result] is an offset into the memory [mem], or [None] for [NULL]. *)
Definition ipv4_addr_to_str (mem : list Z) (result : option Z) (addr : option (list Z)) (result_len : Z) : Prelude.result (bool * list Z) :=
  match result, addr with
  | Some result, Some addr =>
      if result_len <? IPV4_ADDR_MAX_STR_LEN then Ok (false, mem)
      else
        '(mem, next) ← ipv4_octets addr 4 (mem, result);
        mem ← aset mem (next - 1) 0;
        Ok (true, mem)
  | _, _ => Ok (false, mem)
  end.

(** ** IPv6 *)

Definition IPV6_ADDR_BIT_LEN : Z := 128.
Definition IPV6_ADDR_WORD_LEN : Z := 8.
Definition IPV6_ADDR_SITE_LOCAL_PREFIX : Z := 0xfec0.
Definition IPV6_ADDR_MCAST_SCP_LINK_LOCAL : Z := 0x2.
Definition IPV6_ADDR_MCAST_SCP_SITE_LOCAL : Z := 0x5.
Definition IPV6_ADDR_MCAST_SCP_GLOBAL : Z := 0xe.

Definition ipv6_addr_unspecified : list Z := replicate 16 0.
Definition ipv6_addr_loopback : list Z := replicate 15 0 ++ [1].
Definition ipv6_addr_link_local_prefix : list Z := [0xfe; 0x80] ++ replicate 14 0.
Definition ipv6_addr_solicited_node_prefix : list Z := [0xff; 0x02] ++ replicate 9 0 ++ [1; 0xff; 0; 0; 0].
Definition ipv6_addr_all_nodes_if_local : list Z := [0xff; 0x01] ++ replicate 13 0 ++ [1].
Definition ipv6_addr_all_nodes_link_local : list Z := [0xff; 0x02] ++ replicate 13 0 ++ [1].
Definition ipv6_addr_all_routers_if_local : list Z := [0xff; 0x01] ++ replicate 13 0 ++ [2].
Definition ipv6_addr_all_routers_link_local : list Z := [0xff; 0x02] ++ replicate 13 0 ++ [2].
Definition ipv6_addr_all_routers_site_local : list Z := [0xff; 0x05] ++ replicate 13 0 ++ [2].

(** [memcmp(a, b, n) == 0]. *)
Definition mem_equal (a b : list Z) (n : nat) : bool := bool_decide (take n a = take n b).

Definition ipv6_addr_is_unspecified (addr : list Z) : bool := mem_equal addr ipv6_addr_unspecified 16.
Definition ipv6_addr_is_loopback (addr : list Z) : bool := mem_equal addr ipv6_addr_loopback 16.
Definition ipv6_addr_is_ipv4_compat (addr : list Z) : bool := mem_equal addr ipv6_addr_unspecified 12.
Definition ipv6_addr_is_ipv4_mapped (addr : list Z) : result bool :=
  h ← aget addr 10; l ← aget addr 11;
  Ok (mem_equal addr ipv6_addr_unspecified 10 && (h =? 0xff) && (l =? 0xff)).
Definition ipv6_addr_is_multicast (addr : list Z) : result bool := b ← aget addr 0; Ok (b =? 0xff).

(** A multicast address of the given scope. *)
Definition has_scope (addr : list Z) (scope : Z) : result bool :=
  m ← ipv6_addr_is_multicast addr;
  if (m : bool) then b ← aget addr 1; Ok (Z.land b 0x0f =? scope) else Ok false.

Definition ipv6_addr_is_link_local (addr : list Z) : result bool :=
  if mem_equal addr ipv6_addr_link_local_prefix 8 then Ok true else has_scope addr IPV6_ADDR_MCAST_SCP_LINK_LOCAL.
Definition ipv6_addr_is_site_local (addr : list Z) : result bool :=
  h ← aget addr 0; l ← aget addr 1;
  if Z.land (h * 256 + l) 0xffc0 =? IPV6_ADDR_SITE_LOCAL_PREFIX then Ok true
  else has_scope addr IPV6_ADDR_MCAST_SCP_SITE_LOCAL.
Definition ipv6_addr_is_unique_local_unicast (addr : list Z) : result bool :=
  b ← aget addr 0; Ok ((b =? 0xfc) || (b =? 0xfd)).
Definition ipv6_addr_is_global (addr : list Z) : result bool :=
  m ← ipv6_addr_is_multicast addr;
  if (m : bool) then b ← aget addr 1; Ok (Z.land b 0x0f =? IPV6_ADDR_MCAST_SCP_GLOBAL)
  else
    l ← ipv6_addr_is_link_local addr;
    Ok (negb (l || ipv6_addr_is_unspecified addr || ipv6_addr_is_loopback addr)).
Definition ipv6_addr_is_solicited_node (addr : list Z) : bool := mem_equal addr ipv6_addr_solicited_node_prefix 13.

Definition ipv6_addr_equal (a b : list Z) : bool := mem_equal a b 8 && mem_equal (drop 8 a) (drop 8 b) 8.

Fixpoint match_bits (n : nat) (xor prefix_len : Z) : Z :=
  match n with
  | O => prefix_len
  | S n => if Z.land xor 0x80 =? 0 then match_bits n (u8 (Z.shiftl xor 1)) (u8 (prefix_len + 1)) else prefix_len
  end.

Fixpoint match_bytes (n : nat) (a b : list Z) (i prefix_len : Z) : result Z :=
  match n with
  | O => Ok prefix_len
  | S n =>
      x ← aget a i; y ← aget b i;
      if x =? y then match_bytes n a b (i + 1) (u8 (prefix_len + 8))
      else Ok (match_bits 8 (Z.lxor x y) prefix_len)
  end.

(** [same]: whether the pointers are equal. *)
Definition ipv6_addr_match_prefix (a b : option (list Z)) (same : bool) : result Z :=
  match a, b with
  | Some a, Some b => if same then Ok 128 else match_bytes 16 a b 0 0
  | _, _ => Ok 0
  end.

Definition ipv6_addr_init_prefix (out prefix : list Z) (bits : Z) : result (list Z) :=
  let bits := if 128 <? bits then 128 else bits in
  let bytes := bits / 8 in
  out ← memcpy out 0 prefix 0 bytes;
  if negb (bits mod 8 =? 0) then
    let mask := u8 (Z.shiftl 0xff (8 - (bits - bytes * 8))) in
    o ← aget out bytes;
    out ← aset out bytes (Z.land o (u8 (Z.lnot mask)));
    o ← aget out bytes;
    p ← aget prefix bytes;
    aset out bytes (Z.lor o (Z.land p mask))
  else Ok out.

Definition ipv6_addr_init_iid (out iid : list Z) (bits : Z) : result (list Z) :=
  let bits := if 128 <? bits then 128 else bits in
  let unaligned_bits := bits mod 8 in
  let bytes := bits / 8 in
  let pos := IPV6_ADDR_BIT_LEN / 8 - bytes in
  if negb (unaligned_bits =? 0) then
    let mask := u8 (Z.shiftl 0xff unaligned_bits) in
    o ← aget out (pos - 1);
    out ← aset out (pos - 1) (Z.land o mask);
    o ← aget out (pos - 1);
    v ← aget iid 0;
    out ← aset out (pos - 1) (Z.lor o (Z.land v (u8 (Z.lnot mask))));
    memcpy out pos iid 1 bytes
  else memcpy out pos iid 0 bytes.

(** The bytes of a 64-bit integer in network order. *)
Definition be64 (z : Z) : list Z := (λ k, u8 (Z.shiftr z (8 * (7 - k)))) <$> seqZ 0 8.

Definition ipv6_addr_set_unspecified (addr : list Z) : result (list Z) := memcpy addr 0 (replicate 16 0) 0 16.
Definition ipv6_addr_set_loopback (addr : list Z) : result (list Z) :=
  addr ← memcpy addr 0 (replicate 16 0) 0 16; aset addr 15 1.
Definition ipv6_addr_set_link_local_prefix (addr : list Z) : result (list Z) :=
  memcpy addr 0 ipv6_addr_link_local_prefix 0 8.
Definition ipv6_addr_set_iid (addr : list Z) (iid : Z) : result (list Z) := memcpy addr 8 (be64 iid) 0 8.
Definition ipv6_addr_set_aiid (addr iid : list Z) : result (list Z) := memcpy addr 8 iid 0 8.
Definition ipv6_addr_set_multicast (addr : list Z) (flags scope : Z) : result (list Z) :=
  addr ← aset addr 0 0xff;
  aset addr 1 (u8 (Z.lor (Z.shiftl (u8 flags) 4) (Z.land (u8 scope) 0x0f))).
Definition ipv6_addr_set_all_nodes_multicast (addr : list Z) (scope : Z) : result (list Z) :=
  addr ← memcpy addr 0 ipv6_addr_all_nodes_if_local 0 16; aset addr 1 (u8 scope).
Definition ipv6_addr_set_all_routers_multicast (addr : list Z) (scope : Z) : result (list Z) :=
  addr ← memcpy addr 0 ipv6_addr_all_routers_if_local 0 16; aset addr 1 (u8 scope).
Definition ipv6_addr_set_solicited_nodes (out input : list Z) : result (list Z) :=
  out ← memcpy out 0 (be64 0xff02000000000000) 0 8;
  out ← memcpy out 8 [0; 0; 0; 1] 0 4;
  out ← aset out 12 0xff;
  x ← aget input 13;
  out ← aset out 13 x;
  memcpy out 14 input 14 2.

(** [atoi]: white space, a sign, and digits up to the first other character. *)
Definition INT_MAX : Z := 2147483647.
Fixpoint atoi_digits (s : list Z) (negative : bool) (n : Z) : result Z :=
  match s with
  | [] => Fault OutOfBounds
  | c :: s =>
      match strchr DEC c with
      | Some d =>
          let n := n * 10 + d in
          if (if negative then INT_MAX + 1 else INT_MAX) <? n then Fault SignedOverflow else atoi_digits s negative n
      | None => Ok (if negative then - n else n)
      end
  end.
Fixpoint atoi (s : list Z) : result Z :=
  match s with
  | [] => Fault OutOfBounds
  | c :: s' =>
      if (c =? 32) || ((9 <=? c) && (c <=? 13)) then atoi s'
      else if c =? 45 then atoi_digits s' true 0
      else if c =? 43 then atoi_digits s' false 0
      else atoi_digits s false 0
  end.

(** The value and the string, cut at the separator. *)
Fixpoint split_loop (before addr_str : list Z) (seperator default : Z) : result (Z * list Z) :=
  match addr_str with
  | [] => Fault OutOfBounds
  | c :: rest =>
      if c =? 0 then Ok (default, before ++ c :: rest)
      else if c =? seperator then
        d ← deref rest;
        n ← (if negb (d =? 0) then atoi rest else Ok default);
        Ok (n, before ++ 0 :: rest)
      else split_loop (before ++ [c]) rest seperator default
  end.

(** The first character is not looked at. *)
Definition ipv6_addr_split (addr_str : list Z) (seperator default : Z) : result (Z * list Z) :=
  match addr_str with
  | [] => Fault OutOfBounds
  | c :: rest => split_loop [c] rest seperator default
  end.
Definition ipv6_addr_split_prefix (addr_str : list Z) : result (Z * list Z) := ipv6_addr_split addr_str 47 128.
Definition ipv6_addr_split_iface (addr_str : list Z) : result (Z * list Z) := ipv6_addr_split addr_str 37 (-1).

(** ** From text *)

Section Text.
(** Whether MODULE_IPV4_ADDR is used. *)
Context (module_ipv4_addr : bool).

Record parse_state : Type := Parse {
  p_result : list Z;
  p_i : Z;
  p_colonp : option Z;
  p_val : Z;
  p_saw_xdigit : bool;
  p_curtok : list Z
}.

(** The two bytes of [val], and [i += 2]; [None] when there is no room. *)
Definition store_val (st : parse_state) : result (option parse_state) :=
  if 16 <? p_i st + 2 then Ok None
  else
    r ← aset (p_result st) (p_i st) (Z.land (u8 (Z.shiftr (p_val st) 8)) 0xff);
    r ← aset r (p_i st + 1) (Z.land (u8 (p_val st)) 0xff);
    Ok (Some (Parse r (u8 (p_i st + 2)) (p_colonp st) 0 false (p_curtok st))).

(** The loop over the characters: the state at its end, or [inl] with the bytes
    written when [NULL] is returned. *)
Fixpoint from_str_loop (addr : list Z) (st : parse_state) : result (list Z + parse_state) :=
  match addr with
  | [] => Fault OutOfBounds
  | ch :: addr =>
      if ch =? 0 then Ok (inr st)
      else
        let pch := match strchr HEX_L ch with Some d => Some d | None => strchr HEX_U ch end in
        match pch with
        | Some d =>
            let val := u32 (Z.lor (u32 (Z.shiftl (p_val st) 4)) d) in
            if 0xffff <? val then Ok (inl (p_result st))
            else from_str_loop addr (Parse (p_result st) (p_i st) (p_colonp st) val true (p_curtok st))
        | None =>
            if ch =? c_colon then
              let st := Parse (p_result st) (p_i st) (p_colonp st) (p_val st) (p_saw_xdigit st) addr in
              if negb (p_saw_xdigit st) then
                match p_colonp st with
                | Some _ => Ok (inl (p_result st))
                | None =>
                    from_str_loop addr (Parse (p_result st) (p_i st) (Some (p_i st)) (p_val st) false (p_curtok st))
                end
              else
                o ← store_val st;
                match o with
                | None => Ok (inl (p_result st))
                | Some st => from_str_loop addr st
                end
            else if module_ipv4_addr && (ch =? c_dot) && (p_i st + 4 <=? 16) then
              '(ok, r) ← ipv4_addr_from_str (p_result st) (Some (p_i st)) (Some (p_curtok st));
              if (ok : bool) then Ok (inr (Parse r (u8 (p_i st + 4)) (p_colonp st) (p_val st) false (p_curtok st)))
              else Ok (inl r)
            else Ok (inl (p_result st))
        end
  end.

(** The bytes behind [colonp] are moved to the end: [j] from 1 to [n]. *)
Fixpoint move_loop (k : nat) (j n colonp : Z) (result : list Z) : Prelude.result (list Z) :=
  match k with
  | O => Ok result
  | S k =>
      b ← aget result (colonp + (n - j));
      result ← aset result (16 - j) b;
      result ← aset result (colonp + (n - j)) 0;
      move_loop k (j + 1) n colonp result
  end.

(** After the loop: a last group of digits, and [colonp]. *)
Definition from_str_end (st : parse_state) : result (bool * list Z) :=
  o ← (if p_saw_xdigit st then store_val st else Ok (Some st));
  match o with
  | None => Ok (false, p_result st)
  | Some st =>
      '(r, i) ←
        match p_colonp st with
        | Some c => r ← move_loop (Z.to_nat (p_i st - c)) 1 (p_i st - c) c (p_result st); Ok (r, 16)
        | None => Ok (p_result st, p_i st)
        end;
      Ok (i =? 16, r)
  end.

(** Whether [addr] was read, and the bytes of [result]. *)
Definition ipv6_addr_from_str (result addr : option (list Z)) : Prelude.result (bool * option (list Z)) :=
  match result, addr with
  | Some result, Some addr =>
      result ← ipv6_addr_set_unspecified result;
      c ← deref addr;
      let curtok := addr in
      o ← (if c =? c_colon then
             d ← deref (tail addr);
             Ok (if negb (d =? c_colon) then None else Some (tail addr))
           else Ok (Some addr));
      match o with
      | None => Ok (false, Some result)
      | Some addr =>
          r ← from_str_loop addr (Parse result 0 None 0 false curtok);
          match r with
          | inl result => Ok (false, Some result)
          | inr st => '(ok, result) ← from_str_end st; Ok (ok, Some result)
          end
      end
  | _, _ => Ok (false, result)
  end.

(** ** To text *)

Definition IPV6_ADDR_MAX_STR_LEN : Z := if module_ipv4_addr then 46 else 40.

(** A run of zero words: [base] is -1 for none. *)
Record run : Type := Run { base : Z; len : Z }.

Definition better_run (best cur : run) : run :=
  if (base best =? -1) || (len best <? len cur) then cur else best.

Fixpoint runs_loop (n : nat) (addr : list Z) (i : Z) (best cur : run) : result (run * run) :=
  match n with
  | O => Ok (best, cur)
  | S n =>
      h ← aget addr (2 * i); l ← aget addr (2 * i + 1);
      if (h =? 0) && (l =? 0) then
        runs_loop n addr (i + 1) best (if base cur =? -1 then Run i 1 else Run (base cur) (s16 (len cur + 1)))
      else if negb (base cur =? -1) then runs_loop n addr (i + 1) (better_run best cur) (Run (-1) (len cur))
      else runs_loop n addr (i + 1) best cur
  end.

(** The run that is written as "::". *)
Definition best_run (addr : list Z) : result run :=
  '(best, cur) ← runs_loop 8 addr 0 (Run (-1) 0) (Run (-1) 0);
  let best := if negb (base cur =? -1) then better_run best cur else best in
  Ok (if negb (base best =? -1) && (len best <? 2) then Run (-1) (len best) else best).

Definition put_hex (d : Z) (tp : cursor) : result cursor := c ← aget HEX_L d; put_char c tp.

Definition put_word (h l : Z) (tp : cursor) : result cursor :=
  tp ←
    (if negb (Z.land h 0xf0 =? 0) then
       tp ← put_hex (Z.shiftr h 4) tp;
       tp ← put_hex (Z.land h 0x0f) tp;
       put_hex (Z.shiftr l 4) tp
     else if negb (Z.land h 0x0f =? 0) then
       tp ← put_hex (Z.land h 0x0f) tp;
       put_hex (Z.shiftr l 4) tp
     else if negb (Z.land l 0xf0 =? 0) then put_hex (Z.shiftr l 4) tp
     else Ok tp);
  put_hex (Z.land l 0xf) tp.

(** Whether the last two words are written as an IPv4 address. *)
Definition embeds_ipv4 (addr : list Z) (best : run) (i : Z) : result bool :=
  h ← aget addr 10; l ← aget addr 11;
  Ok (module_ipv4_addr && (i =? 6) && (base best =? 0) &&
      ((len best =? 6) || ((len best =? 5) && (h =? 0xff) && (l =? 0xff)))).

Fixpoint strlen (s : list Z) : result Z :=
  match s with
  | [] => Fault OutOfBounds
  | c :: s => if c =? 0 then Ok 0 else n ← strlen s; Ok (n + 1)
  end.

(** [None] when [NULL] is returned. *)
Fixpoint to_str_loop (fuel : nat) (addr : list Z) (best : run) (i : Z) (tp : cursor) : result (option cursor) :=
  match fuel with
  | O => Fault OutOfFuel
  | S fuel =>
      if i <? IPV6_ADDR_WORD_LEN then
        if i =? base best then
          tp ← put_char c_colon tp;
          to_str_loop fuel addr best (i + len best) tp
        else
          tp ← (if negb (i =? 0) then put_char c_colon tp else Ok tp);
          v4 ← embeds_ipv4 addr best i;
          if (v4 : bool) then
            let '(tmp, p) := tp in
            '(ok, tmp) ← ipv4_addr_to_str tmp (Some p) (Some (drop 12 addr)) (u8 (IPV6_ADDR_MAX_STR_LEN - p));
            if negb ok then Ok None
            else n ← strlen (drop (Z.to_nat p) tmp); Ok (Some (tmp, p + n))
          else
            h ← aget addr (2 * i); l ← aget addr (2 * i + 1);
            tp ← put_word h l tp;
            to_str_loop fuel addr best (i + 1) tp
      else Ok (Some tp)
  end.

(** [tmp] is the uninitialised local buffer. The result is [None] for [NULL]. *)
Definition ipv6_addr_to_str (tmp : list Z) (result addr : option (list Z)) (result_len : Z)
    : Prelude.result (bool * option (list Z)) :=
  match result, addr with
  | Some result, Some addr =>
      best ← best_run addr;
      o ← to_str_loop 9 addr best 0 (tmp, 0);
      match o with
      | None => Ok (false, Some result)
      | Some tp =>
          tp ← (if negb (base best =? -1) && (base best + len best =? IPV6_ADDR_WORD_LEN) then put_char c_colon tp else Ok tp);
          '(tmp, p) ← put_char 0 tp;
          if result_len <? p then Ok (false, Some result)
          else
            n ← strlen tmp;
            result ← memcpy result 0 tmp 0 (n + 1);
            Ok (true, Some result)
      end
  | _, _ => Ok (false, result)
  end.
End Text.
