(* ===== verification/Ipv6Text.v ===== *)
(** * Addresses as text

    What ipv6_addr_to_str writes, ipv6_addr_from_str reads back, and the run of
    zeros that is written as two colons is the first of the longest ones. *)

From S2P Require Import Prelude Words Ipv6Addr.
Open Scope Z_scope.

(** ** Writing behind a prefix *)

Definition at_end (w r : list Z) : cursor := (w ++ r, Z.of_nat (length w)).

(** [m] writes the characters [cs], whatever is in the buffer. *)
Definition writes (m : cursor → result cursor) (cs : list Z) : Prop :=
  ∀ w r, (length cs <= length r)%nat → m (at_end w r) = Ok (at_end (w ++ cs) (drop (length cs) r)).

Lemma writes_put c : writes (put_char c) [c].
Proof.
  intros w r Hr. destruct r as [|x r]; [simpl in Hr; lia|]. unfold put_char, at_end. rewrite aset_app by done. cbn.
  rewrite <- app_assoc, length_app, drop_0. do 2 f_equal. simpl. lia.
Qed.

Lemma writes_nil : writes Ok [].
Proof. intros w r _. by rewrite app_nil_r, drop_0. Qed.

Lemma writes_bind m1 m2 cs1 cs2 : writes m1 cs1 → writes m2 cs2 → writes (λ tp, tp ← m1 tp; m2 tp) (cs1 ++ cs2).
Proof.
  intros H1 H2 w r Hr. rewrite length_app in Hr. rewrite H1, result_bind_Ok, H2 by (rewrite ?length_drop; lia).
  by rewrite drop_drop, length_app, app_assoc.
Qed.

Lemma writes_ext m m' cs : (∀ tp, m tp = m' tp) → writes m cs → writes m' cs.
Proof. intros E H w r Hr. rewrite <- E. by apply H. Qed.

Create HintDb text.
#[export] Hint Resolve writes_put writes_nil writes_bind : text.

(** ** Hexadecimal words *)

Definition hex (d : Z) : Z := HEX_L !!! Z.to_nat d.

Definition digits (w : Z * Z) : list Z :=
  let '(h, l) := w in
  if negb (Z.land h 0xf0 =? 0) then [Z.shiftr h 4; Z.land h 0x0f; Z.shiftr l 4; Z.land l 0xf]
  else if negb (Z.land h 0x0f =? 0) then [Z.land h 0x0f; Z.shiftr l 4; Z.land l 0xf]
  else if negb (Z.land l 0xf0 =? 0) then [Z.shiftr l 4; Z.land l 0xf]
  else [Z.land l 0xf].

Definition word_text (w : Z * Z) : list Z := hex <$> digits w.

Definition is_nibble (d : Z) : Prop := 0 <= d < 16.
Definition is_word16 (w : Z * Z) : Prop := is_byte w.1 ∧ is_byte w.2.

Lemma high_nibble x : is_byte x → is_nibble (Z.shiftr x 4) ∧ Z.shiftr x 4 = x / 16.
Proof. unfold is_byte, is_nibble. rewrite Z.shiftr_div_pow2 by lia. change (2 ^ 4) with 16. intros. dlia. Qed.
Lemma low_nibble x : is_byte x → is_nibble (Z.land x 15) ∧ Z.land x 15 = x mod 16.
Proof. unfold is_byte, is_nibble. change 15 with (Z.ones 4). rewrite Z.land_ones by lia. change (2 ^ 4) with 16. intros. dlia. Qed.

Lemma mask_f0 x : is_byte x → Z.land x 0xf0 =? 0 = (x <? 16).
Proof.
  intros Hx. assert (forallb (λ x, Bool.eqb (Z.land x 0xf0 =? 0) (x <? 16)) all_bytes = true) as Hc by (vm_compute; reflexivity).
  pose proof (byte_check _ Hc x Hx) as E. by apply eqb_prop in E.
Qed.

Lemma writes_hex d : is_nibble d → writes (put_hex d) [hex d].
Proof.
  intros Hd. apply (writes_ext (put_char (hex d))); [|apply writes_put]. intros tp. unfold put_hex, hex.
  rewrite (aget_Some _ _ (HEX_L !!! Z.to_nat d)); [done|unfold is_nibble in *; lia|].
  apply list_lookup_lookup_total_lt. unfold is_nibble in *. simpl. lia.
Qed.
#[export] Hint Resolve writes_hex : text.

Lemma writes_word h l : is_word16 (h, l) → writes (put_word h l) (word_text (h, l)).
Proof.
  intros [Hh Hl]. simpl in Hh, Hl. destruct (high_nibble h Hh) as [H1 _], (low_nibble h Hh) as [H2 _].
  destruct (high_nibble l Hl) as [H3 _], (low_nibble l Hl) as [H4 _]. unfold put_word, word_text, digits.
  destruct (negb (Z.land h 240 =? 0)); [|destruct (negb (Z.land h 15 =? 0)); [|destruct (negb (Z.land l 240 =? 0))]].
  - exact (writes_bind _ _ _ _ (writes_bind _ _ _ _ (writes_hex _ H1) (writes_bind _ _ _ _ (writes_hex _ H2) (writes_hex _ H3)))
             (writes_hex _ H4)).
  - exact (writes_bind _ _ _ _ (writes_bind _ _ _ _ (writes_hex _ H2) (writes_hex _ H3)) (writes_hex _ H4)).
  - exact (writes_bind _ _ _ _ (writes_hex _ H3) (writes_hex _ H4)).
  - exact (writes_hex _ H4).
Qed.

(** ** Reading digits *)

Lemma hex_cases d (P : Z → Prop) : is_nibble d →
  P 0 → P 1 → P 2 → P 3 → P 4 → P 5 → P 6 → P 7 → P 8 → P 9 → P 10 → P 11 → P 12 → P 13 → P 14 → P 15 → P d.
Proof.
  intros Hd. unfold is_nibble in Hd. intros.
  assert (d = 0 ∨ d = 1 ∨ d = 2 ∨ d = 3 ∨ d = 4 ∨ d = 5 ∨ d = 6 ∨ d = 7 ∨ d = 8 ∨ d = 9 ∨ d = 10 ∨ d = 11 ∨ d = 12 ∨ d = 13 ∨
    d = 14 ∨ d = 15) as Hc by lia. by repeat (destruct Hc as [->|Hc]; [done|]); subst d.
Qed.

Lemma strchr_hex d : is_nibble d → strchr HEX_L (hex d) = Some d.
Proof. intros Hd. by apply (hex_cases d (λ d, strchr HEX_L (hex d) = Some d)). Qed.
Lemma hex_not_0 d : is_nibble d → hex d =? 0 = false.
Proof. intros Hd. by apply (hex_cases d (λ d, hex d =? 0 = false)). Qed.

Lemma lor_digit v d : 0 <= v <= 0xfff → is_nibble d → u32 (Z.lor (u32 (Z.shiftl v 4)) d) = v * 16 + d.
Proof.
  intros Hv Hd. unfold is_nibble in Hd. rewrite Z.shiftl_mul_pow2 by lia. change (2 ^ 4) with 16.
  rewrite (u32_small (v * 16)) by lia. pose proof (Z.add_lor_land (v * 16) d).
  assert (Z.land (v * 16) d = 0) as E.
  { apply Z.bits_inj'. intros i Hi. rewrite Z.land_spec, Z.bits_0. change 16 with (2 ^ 4). destruct (Z.lt_ge_cases i 4).
    - by rewrite Z.mul_pow2_bits_low.
    - rewrite (testbit_above 4 d i) by (simpl; lia). apply andb_false_r. }
  rewrite u32_small; lia.
Qed.

Definition value (v : Z) (ds : list Z) : Z := fold_left (λ v d, v * 16 + d) ds v.

Section Parse.
Context (v4 : bool).

Lemma parse_digits ds : ∀ s r i cp v saw ct, Forall is_nibble ds → ds ≠ [] → 0 <= v → value v ds <= 0xffff →
  from_str_loop v4 ((hex <$> ds) ++ s) (Parse r i cp v saw ct) = from_str_loop v4 s (Parse r i cp (value v ds) true ct).
Proof.
  induction ds as [|d ds IH]; intros s r i cp v saw ct Hds Hne Hv Hle; [done|]. apply Forall_cons in Hds as [Hd Hds].
  assert (v * 16 + d <= value v (d :: ds)) as Hmono.
  { unfold is_nibble in Hd. cbn [value fold_left]. assert (0 <= v * 16 + d) as H0 by lia. revert H0. generalize (v * 16 + d).
    clear -Hds. induction Hds as [|x ds Hx _ IH]; intros z Hz; simpl; [lia|]. unfold is_nibble in Hx.
    specialize (IH (z * 16 + x) ltac:(lia)). unfold value in *. lia. }
  unfold is_nibble in Hd. cbn [fmap list_fmap app from_str_loop]. rewrite hex_not_0, strchr_hex by done. cbv iota. cbn [p_val p_result p_i p_colonp p_curtok].
  rewrite lor_digit by (done || lia). rewrite (proj2 (Z.ltb_ge _ _)) by lia. destruct ds as [|d' ds].
  - done.
  - by rewrite IH by (done || lia).
Qed.

Lemma word_value w : is_word16 w → Forall is_nibble (digits w) ∧ digits w ≠ [] ∧ value 0 (digits w) = w.1 * 256 + w.2 ∧
  (length (digits w) <= 4)%nat.
Proof.
  destruct w as [h l]. intros [Hh Hl]. simpl in Hh, Hl. destruct (high_nibble h Hh) as [H1 E1], (low_nibble h Hh) as [H2 E2].
  destruct (high_nibble l Hl) as [H3 E3], (low_nibble l Hl) as [H4 E4]. unfold digits. rewrite !mask_f0 by done.
  unfold is_byte in *. destruct (Z.ltb_spec h 16), (Z.ltb_spec l 16), (Z.eqb_spec (Z.land h 15) 0); cbn [negb];
    (split; [repeat constructor; done || (unfold is_nibble in *; lia)|split; [done|split; [|simpl; lia]]]);
    unfold value; cbn [fold_left fst snd]; rewrite ?E1, ?E2, ?E3, ?E4 in *; dlia.
Qed.

Lemma parse_word w s r i cp ct : is_word16 w →
  from_str_loop v4 (word_text w ++ s) (Parse r i cp 0 false ct) = from_str_loop v4 s (Parse r i cp (w.1 * 256 + w.2) true ct).
Proof.
  intros Hw. destruct (word_value w Hw) as (Hn & Hne & Hv & _). unfold word_text. destruct Hw as [H1 H2]. unfold is_byte in *.
  by rewrite parse_digits, Hv by (done || lia).
Qed.

(** ** Groups and colons *)

Definition bytes (ws : list (Z * Z)) : list Z := concat ((λ w, [w.1; w.2]) <$> ws).

(** The buffer after the words [ws] were stored. *)
Definition filled (ws : list (Z * Z)) : list Z := bytes ws ++ replicate (16 - 2 * length ws) 0.

Lemma bytes_app ws ws' : bytes (ws ++ ws') = bytes ws ++ bytes ws'.
Proof. unfold bytes. by rewrite fmap_app, concat_app. Qed.
Lemma bytes_length ws : length (bytes ws) = (2 * length ws)%nat.
Proof.
  induction ws as [|w ws IH]; [done|]. change (bytes (w :: ws)) with ([w.1; w.2] ++ bytes ws). rewrite length_app, IH. simpl. lia.
Qed.

Definition pos (ws : list (Z * Z)) : Z := 2 * Z.of_nat (length ws).
Definition reading ws cp ct : parse_state := Parse (filled ws) (pos ws) cp 0 false ct.
Definition pending ws cp (w : Z * Z) ct : parse_state := Parse (filled ws) (pos ws) cp (w.1 * 256 + w.2) true ct.

Lemma store_word ws cp w ct : (length ws < 8)%nat → is_word16 w →
  store_val (pending ws cp w ct) = Ok (Some (reading (ws ++ [w]) cp ct)).
Proof.
  intros Hl [H1 H2]. unfold is_byte in *. destruct w as [h l]. simpl in H1, H2. unfold store_val, pending, reading, pos. cbn [p_i p_result p_val p_colonp p_curtok fst snd].
  rewrite (proj2 (Z.ltb_ge _ _)) by lia.
  assert (Z.land (u8 (Z.shiftr (h * 256 + l) 8)) 255 = h) as ->.
  { rewrite land_255, Z.shiftr_div_pow2 by lia. change (2 ^ 8) with 256. unfold u8. dlia. }
  assert (Z.land (u8 (h * 256 + l)) 255 = l) as -> by (rewrite land_255; unfold u8; dlia).
  unfold filled. rewrite bytes_app, length_app. cbn [length].
  replace (16 - 2 * length ws)%nat with (S (S (16 - 2 * (length ws + 1)))) by lia. cbn [replicate].
  rewrite aset_app by (rewrite bytes_length; lia). rewrite result_bind_Ok, (cons_middle h), app_assoc.
  rewrite aset_app by (rewrite length_app, bytes_length; simpl; lia). rewrite result_bind_Ok.
  change (bytes [(h, l)]) with ([h] ++ [l]). rewrite <- !app_assoc. cbn [app]. unfold u8. do 3 f_equal. dlia.
Qed.

Lemma parse_colon ws cp w ct s : (length ws < 8)%nat → is_word16 w →
  from_str_loop v4 (c_colon :: s) (pending ws cp w ct) = from_str_loop v4 s (reading (ws ++ [w]) cp s).
Proof.
  intros Hl Hw. cbn [from_str_loop]. change (c_colon =? 0) with false. change (strchr HEX_L c_colon) with (@None Z).
  change (strchr HEX_U c_colon) with (@None Z). rewrite (Z.eqb_refl c_colon). cbv iota zeta. cbn [negb pending p_saw_xdigit].
  cbn [p_result p_i p_colonp p_val pending]. fold (pending ws cp w s). by rewrite store_word.
Qed.

Lemma parse_second_colon ws ct s :
  from_str_loop v4 (c_colon :: s) (reading ws None ct) = from_str_loop v4 s (reading ws (Some (pos ws)) s).
Proof. done. Qed.

Definition colon_words (l : list (Z * Z)) : list Z := concat ((λ w, c_colon :: word_text w) <$> l).
Definition groups (l : list (Z * Z)) : list Z := match l with [] => [] | w :: l => word_text w ++ colon_words l end.

Lemma colon_words_cons w l s : colon_words (w :: l) ++ s = c_colon :: word_text w ++ colon_words l ++ s.
Proof. unfold colon_words. cbn [fmap list_fmap concat]. by rewrite <- app_assoc. Qed.

Lemma parse_colon_words l : ∀ ws cp w w' ct s, (length ws + length l < 7)%nat → Forall is_word16 (w :: l ++ [w']) →
  ∃ ct', from_str_loop v4 (colon_words (l ++ [w']) ++ s) (pending ws cp w ct) = from_str_loop v4 s (pending (ws ++ w :: l) cp w' ct').
Proof.
  induction l as [|x l IH]; intros ws cp w w' ct s Hl Hws; apply Forall_cons in Hws as [Hw Hws].
  - apply Forall_cons in Hws as [Hw' _]. cbn [app]. rewrite colon_words_cons. rewrite parse_colon by (done || simpl in Hl; lia).
    eexists. unfold reading. by rewrite (parse_word w') by done.
  - pose proof Hws as Hws'. apply Forall_cons in Hws as [Hx Hws]. cbn [app]. rewrite colon_words_cons.
    rewrite parse_colon by (done || simpl in Hl; lia). unfold reading. rewrite (parse_word x) by done.
    destruct (IH (ws ++ [w]) cp x w' (word_text x ++ colon_words (l ++ [w']) ++ s) s) as [ct' E];
      [rewrite length_app; simpl in *; lia|done|]. exists ct'. rewrite <- app_assoc in E. exact E.
Qed.

Lemma parse_groups l ws cp w' ct s : (length ws + length l < 8)%nat → Forall is_word16 (l ++ [w']) →
  ∃ ct', from_str_loop v4 (groups (l ++ [w']) ++ s) (reading ws cp ct) = from_str_loop v4 s (pending (ws ++ l) cp w' ct').
Proof.
  intros Hl Hws. destruct l as [|w l]; cbn [app groups length] in *.
  - change (colon_words []) with (@nil Z). rewrite !app_nil_r. apply Forall_cons in Hws as [Hw _]. eexists. unfold reading. by rewrite (parse_word w') by done.
  - rewrite <- app_assoc. pose proof Hws as Hws'. apply Forall_cons in Hws as [Hw _]. unfold reading. rewrite (parse_word w) by done.
    destruct (parse_colon_words l ws cp w w' ct s) as [ct' E]; [lia|done|]. by exists ct'.
Qed.

(** ** The end *)

Lemma shift_spec A B : ∀ C z j c n, (length A + length B + S z + length C = 16)%nat → c = Z.of_nat (length A) →
  j = Z.of_nat (length C) + 1 → n = Z.of_nat (length B + length C) →
  move_loop (length B) j n c (A ++ B ++ replicate (S z) 0 ++ C) = Ok (A ++ replicate (S z) 0 ++ B ++ C).
Proof.
  induction B as [|b B IH] using rev_ind; intros C z j c n Hl Hc Hj Hn; [done|]. rewrite length_app, Nat.add_comm. cbn [length Nat.add move_loop].
  rewrite length_app in Hl, Hn. cbn [length] in Hl, Hn. rewrite <- (app_assoc B [b]). cbn [app].
  rewrite (app_assoc A B), aget_app by (rewrite length_app; lia). rewrite result_bind_Ok.
  assert (∀ X, replicate (S z) 0 ++ X = replicate z 0 ++ 0 :: X) as Er.
  { intros X. change (0 :: X) with ([0] ++ X). rewrite app_assoc. f_equal. by rewrite <- replicate_S_end. }
  rewrite Er. rewrite (cons_middle b), !app_assoc. rewrite <- (app_assoc _ (replicate z 0)).
  rewrite (app_assoc _ (replicate z 0)). rewrite aset_app by (rewrite !length_app, length_replicate; simpl; lia). rewrite result_bind_Ok.
  rewrite <- !app_assoc. cbn [app]. rewrite (app_assoc A B), aset_app by (rewrite length_app; lia). rewrite result_bind_Ok, <- app_assoc.
  change (0 :: replicate z 0 ++ b :: C) with (replicate (S z) 0 ++ b :: C). by rewrite (IH (b :: C)) by (simpl; lia).
Qed.

Lemma shift_filled pre post : (length pre + length post < 8)%nat →
  move_loop (Z.to_nat (pos (pre ++ post) - pos pre)) 1 (pos (pre ++ post) - pos pre) (pos pre) (filled (pre ++ post)) =
  Ok (bytes pre ++ replicate (16 - 2 * (length pre + length post)) 0 ++ bytes post).
Proof.
  intros Hl. unfold pos, filled. rewrite bytes_app, length_app.
  replace (Z.to_nat _) with (length (bytes post)) by (rewrite bytes_length; lia).
  destruct (16 - 2 * (length pre + length post))%nat as [|z] eqn:Ez; [lia|].
  pose proof (shift_spec (bytes pre) (bytes post) [] z 1 (2 * Z.of_nat (length pre)) (2 * Z.of_nat (length pre + length post) - 2 * Z.of_nat (length pre))) as E.
  rewrite !app_nil_r in E. rewrite <- app_assoc. apply E; rewrite ?bytes_length; simpl; lia.
Qed.

Lemma end_pending ws w ct : length ws = 7%nat → is_word16 w →
  from_str_end (pending ws None w ct) = Ok (true, bytes (ws ++ [w])).
Proof.
  intros Hl Hw. unfold from_str_end. change (p_saw_xdigit (pending ws None w ct)) with true. cbv iota.
  rewrite store_word by (done || lia). cbn. unfold pos, filled. rewrite length_app, Hl. simpl. by rewrite app_nil_r.
Qed.

Lemma end_reading pre post v ct : (length pre + length post < 8)%nat →
  from_str_end (Parse (filled (pre ++ post)) (pos (pre ++ post)) (Some (pos pre)) v false ct) =
  Ok (true, bytes pre ++ replicate (16 - 2 * (length pre + length post)) 0 ++ bytes post).
Proof.
  intros Hl. unfold from_str_end. cbn [p_saw_xdigit]. rewrite result_bind_Ok. cbn [p_colonp p_i p_result].
  by rewrite shift_filled.
Qed.

Lemma end_pending_shift pre post w ct : (length pre + length post < 7)%nat → is_word16 w →
  from_str_end (pending (pre ++ post) (Some (pos pre)) w ct) =
  Ok (true, bytes pre ++ replicate (16 - 2 * (length pre + S (length post))) 0 ++ bytes (post ++ [w])).
Proof.
  intros Hl Hw. unfold from_str_end. change (p_saw_xdigit (pending (pre ++ post) (Some (pos pre)) w ct)) with true. cbv iota.
  rewrite store_word by (done || rewrite ?length_app; lia). rewrite result_bind_Ok. unfold reading. cbn [p_colonp p_i p_result].
  rewrite <- app_assoc. rewrite shift_filled by (rewrite length_app; simpl; lia). rewrite result_bind_Ok, length_app. simpl.
  do 4 f_equal. f_equal. f_equal. lia.
Qed.

(** ** Whole addresses *)

Lemma set_unspecified_Ok r : length r = 16%nat → ipv6_addr_set_unspecified r = Ok (replicate 16 0).
Proof.
  intros Hr. unfold ipv6_addr_set_unspecified. rewrite memcpy_Ok by (rewrite ?length_replicate; lia).
  change (Z.to_nat (0 + 16)) with 16%nat. rewrite (drop_ge r) by lia. done.
Qed.

Lemma hex_not_colon d : is_nibble d → hex d =? c_colon = false.
Proof. intros Hd. by apply (hex_cases d (λ d, hex d =? c_colon = false)). Qed.

Lemma word_text_head w s : is_word16 w → ∃ d s', word_text w ++ s = hex d :: s' ∧ is_nibble d.
Proof.
  intros Hw. destruct (word_value w Hw) as (Hn & Hne & _). unfold word_text. destruct (digits w) as [|d ds]; [done|].
  apply Forall_cons in Hn as [Hd _]. by exists d, ((hex <$> ds) ++ s).
Qed.

(** The text does not start with a colon. *)
Lemma from_str_start r w s : length r = 16%nat → is_word16 w →
  ipv6_addr_from_str v4 (Some r) (Some (word_text w ++ s)) =
  (r ← from_str_loop v4 (word_text w ++ s) (reading [] None (word_text w ++ s));
   match r with
   | inl result => Ok (false, Some result)
   | inr st => '(ok, result) ← from_str_end st; Ok (ok, Some result)
   end).
Proof.
  intros Hr Hw. unfold ipv6_addr_from_str. rewrite set_unspecified_Ok, result_bind_Ok by done.
  destruct (word_text_head w s Hw) as (d & s' & -> & Hd). unfold deref. cbn [head from_option_or]. rewrite result_bind_Ok.
  rewrite hex_not_colon by done. done.
Qed.

Lemma from_str_plain r ws rest : length r = 16%nat → length ws = 8%nat → Forall is_word16 ws →
  ipv6_addr_from_str v4 (Some r) (Some (groups ws ++ 0 :: rest)) = Ok (true, Some (bytes ws)).
Proof.
  intros Hr Hl Hws. destruct ws as [|w' ws _] using rev_ind; [done|]. rewrite length_app in Hl. simpl in Hl.
  destruct (parse_groups ws [] None w' (groups (ws ++ [w']) ++ 0 :: rest) (0 :: rest)) as [ct E]; [simpl; lia|done|].
  assert (∃ w s, groups (ws ++ [w']) ++ 0 :: rest = word_text w ++ s ∧ is_word16 w) as (w & s & Es & Hw).
  { destruct ws as [|w ws]; apply Forall_cons in Hws as [Hw _]; cbn [app groups]; rewrite <- app_assoc; eauto. }
  rewrite Es in E |- *. rewrite from_str_start by done. rewrite E. cbn [from_str_loop]. rewrite (Z.eqb_refl 0), result_bind_Ok.
  rewrite app_nil_l. apply Forall_app in Hws as [_ Hw']. apply Forall_cons in Hw' as [Hw' _].
  by rewrite end_pending by (done || lia).
Qed.

(** A state in which everything was read, for the words [pre] and [post] with
    zeros between them. *)
Definition finishes (s : list Z) (st : parse_state) (pre post : list (Z * Z)) : Prop :=
  ∃ st', from_str_loop v4 s st = Ok (inr st') ∧
    from_str_end st' = Ok (true, bytes pre ++ replicate (16 - 2 * (length pre + length post)) 0 ++ bytes post).

Lemma finishes_groups pre post ct rest : (length pre + length post < 8)%nat → Forall is_word16 post →
  finishes (groups post ++ 0 :: rest) (reading pre (Some (pos pre)) ct) pre post.
Proof.
  intros Hl Hws. destruct post as [|w' post _] using rev_ind.
  - eexists. split; [reflexivity|]. pose proof (end_reading pre [] 0 ct Hl) as E. by rewrite app_nil_r in E.
  - rewrite length_app in Hl. simpl in Hl. destruct (parse_groups post pre (Some (pos pre)) w' ct (0 :: rest)) as [ct' E]; [lia|done|].
    unfold finishes. rewrite E. eexists. split; [reflexivity|]. rewrite end_pending_shift by (lia || (apply Forall_app in Hws as [_ Hw]; by apply Forall_cons in Hw as [? _])).
    rewrite length_app. do 5 f_equal. simpl. lia.
Qed.

Lemma from_str_compressed r pre post s : length r = 16%nat → (length pre + length post < 8)%nat → Forall is_word16 pre →
  finishes s (reading pre (Some (pos pre)) s) pre post →
  ipv6_addr_from_str v4 (Some r) (Some (groups pre ++ c_colon :: c_colon :: s)) =
  Ok (true, Some (bytes pre ++ replicate (16 - 2 * (length pre + length post)) 0 ++ bytes post)).
Proof.
  intros Hr Hl Hws (st & E & Eend). destruct pre as [|w' pre _] using rev_ind.
  - cbn [groups app]. unfold ipv6_addr_from_str. rewrite set_unspecified_Ok, result_bind_Ok by done. unfold deref.
    cbn [head tail from_option_or]. rewrite result_bind_Ok. change (c_colon =? c_colon) with true. cbv iota. rewrite result_bind_Ok.
    change (c_colon =? c_colon) with true. cbn [negb]. rewrite result_bind_Ok. cbv beta iota. change (Parse _ _ _ _ _ _) with (reading [] None (c_colon :: c_colon :: s)). rewrite parse_second_colon, E, result_bind_Ok. by rewrite Eend.
  - rewrite length_app in Hl. simpl in Hl. set (s2 := c_colon :: c_colon :: s).
    destruct (parse_groups pre [] None w' (groups (pre ++ [w']) ++ s2) s2) as [ct E1]; [simpl; lia|done|].
    assert (∃ w s', groups (pre ++ [w']) ++ s2 = word_text w ++ s' ∧ is_word16 w) as (w & s' & Es & Hw).
    { destruct pre as [|w pre]; apply Forall_cons in Hws as [Hw _]; cbn [app groups]; rewrite <- app_assoc; eauto. }
    apply Forall_app in Hws as [_ Hw']. apply Forall_cons in Hw' as [Hw' _].
    rewrite Es in E1 |- *. rewrite from_str_start by done. rewrite E1, app_nil_l. unfold s2.
    rewrite parse_colon by (done || lia). rewrite parse_second_colon, E, result_bind_Ok. by rewrite Eend.
Qed.
End Parse.

(** ** Decimal octets *)

Definition dec_digits (u : Z) : list Z :=
  if 99 <? u then [u / 100; u mod 100 / 10; u mod 100 mod 10] else if 9 <? u then [u / 10; u mod 10] else [u].
Definition dec_text (u : Z) : list Z := (λ d, c_zero + d) <$> dec_digits u.

Lemma writes_octet u : writes (put_octet u) (dec_text u ++ [c_dot]).
Proof.
  unfold put_octet, dec_text, dec_digits. destruct (99 <? u); [|destruct (9 <? u)].
  - eapply writes_ext; [|exact (writes_bind _ _ _ _ (writes_put (c_zero + u / 100)) (writes_bind _ _ _ _ (writes_put (c_zero + u mod 100 / 10))
      (writes_bind _ _ _ _ (writes_put (c_zero + u mod 100 mod 10)) (writes_put c_dot))))].
    intros tp. simpl. destruct (put_char _ tp) as [tp1|]; [|done]. simpl. by destruct (put_char _ tp1).
  - eapply writes_ext; [|exact (writes_bind _ _ _ _ (writes_put (c_zero + u / 10)) (writes_bind _ _ _ _ (writes_put (c_zero + u mod 10)) (writes_put c_dot)))].
    intros tp. simpl. by destruct (put_char _ tp).
  - exact (writes_bind _ _ _ _ (writes_put (c_zero + u)) (writes_put c_dot)).
Qed.

Definition ipv4_text (a b c d : Z) : list Z :=
  dec_text a ++ c_dot :: dec_text b ++ c_dot :: dec_text c ++ c_dot :: dec_text d.

Lemma dec_spec u : is_byte u → Forall is_nibble (dec_digits u) ∧ dec_digits u ≠ [] ∧ Forall (λ d, d < 10) (dec_digits u) ∧
  fold_left (λ v d, v * 10 + d) (dec_digits u) 0 = u ∧ (length (dec_digits u) <= 3)%nat.
Proof.
  unfold is_byte. intros Hu. unfold dec_digits, is_nibble.
  destruct (Z.ltb_spec 99 u); [|destruct (Z.ltb_spec 9 u)]; (split; [repeat constructor; dlia|split; [done|split; [repeat constructor; dlia|]]]);
    (split; [simpl; dlia|simpl; lia]).
Qed.

Lemma strchr_dec d : 0 <= d < 10 → strchr DEC (c_zero + d) = Some d ∧ c_zero + d =? 0 = false.
Proof.
  intros Hd. assert (d = 0 ∨ d = 1 ∨ d = 2 ∨ d = 3 ∨ d = 4 ∨ d = 5 ∨ d = 6 ∨ d = 7 ∨ d = 8 ∨ d = 9) as Hc by lia.
  by repeat (destruct Hc as [->|Hc]; [done|]); subst d.
Qed.

(** Digits of an octet that has begun. *)
Lemma ipv4_digits ds : ∀ s tmp t oct, Forall (λ d, 0 <= d < 10) ds → 0 <= t → fold_left (λ v d, v * 10 + d) ds t < 256 →
  ipv4_loop (((λ d, c_zero + d) <$> ds) ++ s) (tmp ++ [t]) true oct =
  ipv4_loop s (tmp ++ [fold_left (λ v d, v * 10 + d) ds t]) true oct.
Proof.
  induction ds as [|d ds IH]; intros s tmp t oct Hds Ht Hv; [done|]. apply Forall_cons in Hds as [Hd Hds].
  assert (t * 10 + d <= fold_left (λ v d, v * 10 + d) (d :: ds) t) as Hm.
  { cbn [fold_left]. assert (0 <= t * 10 + d) as H0 by lia. revert H0. generalize (t * 10 + d). clear -Hds.
    induction Hds as [|x ds Hx _ IH]; intros z Hz; simpl; [lia|]. specialize (IH (z * 10 + x) ltac:(lia)). lia. }
  destruct (strchr_dec d Hd) as [E1 E2]. cbn [fmap list_fmap app ipv4_loop]. rewrite E2, E1, last_snoc. cbn [from_option_or]. rewrite result_bind_Ok.
  unfold u16, u8. rewrite !(Z.mod_small (t * 10 + d)) by lia. rewrite (proj2 (Z.ltb_ge _ _)) by lia. cbn [negb].
  rewrite length_app. simpl. rewrite Nat.add_1_r. simpl. rewrite insert_app_r_alt, Nat.sub_diag by done. simpl. apply IH; [done|lia|done].
Qed.

Lemma ipv4_octet u s tmp oct : is_byte u → 0 <= oct < 4 →
  ipv4_loop (dec_text u ++ s) (tmp ++ [0]) false oct = ipv4_loop s (tmp ++ [u]) true (oct + 1).
Proof.
  intros Hu Ho. destruct (dec_spec u Hu) as (Hn & Hne & H10 & Hv & _). unfold dec_text. unfold is_byte in Hu.
  assert (Forall (λ d, 0 <= d < 10) (dec_digits u)) as Hds.
  { apply Forall_forall. intros d Hd. rewrite Forall_forall in Hn, H10. specialize (Hn d Hd). specialize (H10 d Hd). unfold is_nibble in Hn. lia. }
  destruct (dec_digits u) as [|d ds] eqn:E; [done|]. rewrite <- E in *. clear Hne. rewrite E in Hds, Hv |- *.
  apply Forall_cons in Hds as [Hd Hds]. destruct (strchr_dec d Hd) as [E1 E2]. cbn [fmap list_fmap app ipv4_loop].
  rewrite E2, E1, last_snoc. cbn [from_option_or]. rewrite result_bind_Ok. unfold u16, u8. rewrite !(Z.mod_small (0 * 10 + d)) by lia.
  rewrite (proj2 (Z.ltb_ge _ _)) by lia. cbn [negb]. rewrite (Z.mod_small (oct + 1)) by lia. rewrite (proj2 (Z.ltb_ge _ _)) by lia.
  rewrite length_app. simpl. rewrite Nat.add_1_r. simpl. rewrite insert_app_r_alt, Nat.sub_diag by done. cbn [insert list_insert].
  change (fold_left (λ v d, v * 10 + d) (d :: ds) 0) with (fold_left (λ v d, v * 10 + d) ds (0 * 10 + d)) in Hv.
  change (λ d0 : Z, c_zero + d0) with (λ d, c_zero + d). rewrite ipv4_digits by (done || lia). by rewrite Hv.
Qed.

Lemma ipv4_dot s tmp oct : (length tmp < 4)%nat → oct ≠ 4 →
  ipv4_loop (c_dot :: s) tmp true oct = ipv4_loop s (tmp ++ [0]) false oct.
Proof.
  intros Hl Ho. cbn [ipv4_loop]. change (c_dot =? 0) with false. change (strchr DEC c_dot) with (@None Z). rewrite (Z.eqb_refl c_dot). cbn [andb].
  rewrite (proj2 (Z.eqb_neq oct 4)) by done. by rewrite (proj2 (Nat.ltb_lt _ _)) by done.
Qed.

Lemma ipv4_loop_text a b c d rest : is_byte a → is_byte b → is_byte c → is_byte d →
  ipv4_loop (ipv4_text a b c d ++ 0 :: rest) [0] false 0 = Ok (Some ([a; b; c; d], 4)).
Proof.
  intros Ha Hb Hc Hd. unfold ipv4_text. rewrite <- app_assoc. cbn [app]. change [0] with ([] ++ [0]) at 1.
  rewrite ipv4_octet, ipv4_dot by (done || simpl; lia). rewrite <- app_assoc. cbn [app].
  change [a; 0] with ([a] ++ [0]). rewrite ipv4_octet, ipv4_dot by (done || simpl; lia). rewrite <- app_assoc. cbn [app].
  change [a; b; 0] with ([a; b] ++ [0]). rewrite ipv4_octet, ipv4_dot by (done || simpl; lia).
  change (([a; b] ++ [c]) ++ [0]) with ([a; b; c] ++ [0]). rewrite ipv4_octet by (done || lia). done.
Qed.

Lemma dec_text_hex u : is_byte u → dec_text u = hex <$> dec_digits u.
Proof.
  intros Hu. destruct (dec_spec u Hu) as (Hn & _ & H10 & _). unfold dec_text. apply list_fmap_ext. intros i d Hd.
  apply list_elem_of_lookup_2 in Hd. rewrite Forall_forall in Hn, H10. specialize (Hn d Hd). specialize (H10 d Hd). unfold is_nibble in Hn.
  assert (d = 0 ∨ d = 1 ∨ d = 2 ∨ d = 3 ∨ d = 4 ∨ d = 5 ∨ d = 6 ∨ d = 7 ∨ d = 8 ∨ d = 9) as Hc by lia.
  by repeat (destruct Hc as [->|Hc]; [done|]); subst d.
Qed.

Lemma dec_value u : is_byte u → 0 <= value 0 (dec_digits u) <= 0xffff.
Proof.
  unfold is_byte. intros Hu. unfold dec_digits, value. destruct (Z.ltb_spec 99 u); [|destruct (Z.ltb_spec 9 u)]; simpl; dlia.
Qed.

Lemma store_ipv4 ws a b c d s : (length ws <= 6)%nat → ipv4_loop s [0] false 0 = Ok (Some ([a; b; c; d], 4)) →
  ipv4_addr_from_str (filled ws) (Some (pos ws)) (Some s) = Ok (true, filled (ws ++ [(a, b); (c, d)])).
Proof.
  intros Hl E. unfold ipv4_addr_from_str. rewrite E, result_bind_Ok. change (4 <? 4) with false. cbv iota. unfold filled, pos.
  rewrite memcpy_Ok by (rewrite ?length_app, ?bytes_length, ?length_replicate; simpl; lia). rewrite result_bind_Ok. do 2 f_equal.
  rewrite bytes_app, length_app. cbn [length]. replace (Z.to_nat (2 * Z.of_nat (length ws))) with (length (bytes ws)) by (rewrite bytes_length; lia).
  rewrite take_app_length, <- app_assoc. f_equal. change (take (Z.to_nat 4) (drop (Z.to_nat 0) [a; b; c; d])) with (bytes [(a, b); (c, d)]).
  f_equal. rewrite drop_app_ge by (rewrite bytes_length; lia). rewrite drop_replicate, bytes_length. f_equal. lia.
Qed.

Lemma parse_ipv4 ws cp a b c d rest : (length ws <= 6)%nat → is_byte a → is_byte b → is_byte c → is_byte d →
  let s := ipv4_text a b c d ++ 0 :: rest in
  ∃ v, from_str_loop true s (reading ws cp s) =
    Ok (inr (Parse (filled (ws ++ [(a, b); (c, d)])) (pos (ws ++ [(a, b); (c, d)])) cp v false s)).
Proof.
  intros Hl Ha Hb Hc Hd s. pose proof (ipv4_loop_text a b c d rest Ha Hb Hc Hd) as E. fold s in E.
  destruct (dec_spec a Ha) as (Hn & Hne & _). pose proof (dec_value a Ha) as Hv. exists (value 0 (dec_digits a)).
  assert (s = (hex <$> dec_digits a) ++ c_dot :: (dec_text b ++ c_dot :: dec_text c ++ c_dot :: dec_text d) ++ 0 :: rest) as Es.
  { unfold s, ipv4_text. by rewrite <- dec_text_hex, <- app_assoc by done. }
  unfold reading. rewrite Es at 1. rewrite parse_digits by (done || lia). cbn [from_str_loop].
  change (c_dot =? 0) with false. change (strchr HEX_L c_dot) with (@None Z). change (strchr HEX_U c_dot) with (@None Z).
  change (c_dot =? c_colon) with false. rewrite (Z.eqb_refl c_dot). cbv iota. cbn [p_i p_result p_curtok p_colonp p_val andb].
  assert (pos ws + 4 <=? 16 = true) as -> by (unfold pos; lia). rewrite (store_ipv4 ws a b c d s Hl E), result_bind_Ok.
  do 3 f_equal. unfold pos, u8. rewrite length_app, Z.mod_small by lia. simpl. lia.
Qed.

(** The words in front of an embedded IPv4 address. *)
Definition mapped_text (mid : list (Z * Z)) (a b c d : Z) : list Z :=
  concat ((λ w, word_text w ++ [c_colon]) <$> mid) ++ ipv4_text a b c d.

Lemma finishes_ipv4 mid a b c d rest : (length mid <= 1)%nat → Forall is_word16 mid → is_byte a → is_byte b → is_byte c → is_byte d →
  let s := mapped_text mid a b c d ++ 0 :: rest in
  finishes true s (reading [] (Some (pos [])) s) [] (mid ++ [(a, b); (c, d)]).
Proof.
  intros Hl Hmid Ha Hb Hc Hd. destruct mid as [|w [|]]; [| |simpl in Hl; lia].
  - destruct (parse_ipv4 [] (Some (pos [])) a b c d rest) as [v E]; [simpl; lia|done..|]. eexists. split; [exact E|].
    by rewrite (end_reading [] [(a, b); (c, d)]) by (simpl; lia).
  - apply Forall_cons in Hmid as [Hw _]. unfold mapped_text. cbn [fmap list_fmap concat app]. rewrite app_nil_r, <- !app_assoc. cbn [app].
    unfold finishes. unfold reading. rewrite (parse_word true w) by done.
    change (Parse (filled []) (pos []) ?cp (?v) true ?ct) with (pending [] cp w ct).
    rewrite parse_colon by (done || simpl; lia). cbn [app]. destruct (parse_ipv4 [w] (Some (pos [])) a b c d rest) as [v E]; [simpl; lia|done..|].
    eexists. split; [exact E|]. by rewrite (end_reading [] [w; (a, b); (c, d)]) by (simpl; lia).
Qed.
