(* ===== verification/Ipv6Print.v ===== *)
(** * Printing IPv6 addresses

    The text ipv6_addr_to_str writes, and the theorem that it is read back. *)

From S2P Require Import Prelude Words Ipv6Addr Ipv6Text.
From stdpp Require Import strings.
Open Scope Z_scope.

(** ** Runs of zeros *)

Definition is_zero (w : Z * Z) : bool := (w.1 =? 0) && (w.2 =? 0).

Fixpoint runs (bs : list bool) (i : Z) (best cur : run) : run * run :=
  match bs with
  | [] => (best, cur)
  | true :: bs => runs bs (i + 1) best (if base cur =? -1 then Run i 1 else Run (base cur) (s16 (len cur + 1)))
  | false :: bs =>
      if negb (base cur =? -1) then runs bs (i + 1) (better_run best cur) (Run (-1) (len cur)) else runs bs (i + 1) best cur
  end.

Definition best_of (bs : list bool) : run :=
  let '(best, cur) := runs bs 0 (Run (-1) 0) (Run (-1) 0) in
  let best := if negb (base cur =? -1) then better_run best cur else best in
  if negb (base best =? -1) && (len best <? 2) then Run (-1) (len best) else best.

Lemma aget_word pre w post : aget (bytes (pre ++ w :: post)) (2 * Z.of_nat (length pre)) = Ok w.1 ∧
  aget (bytes (pre ++ w :: post)) (2 * Z.of_nat (length pre) + 1) = Ok w.2.
Proof.
  rewrite bytes_app. change (bytes (w :: post)) with (w.1 :: w.2 :: bytes post). split.
  - apply aget_app. rewrite bytes_length. lia.
  - rewrite (cons_middle w.1), app_assoc. apply aget_app. rewrite length_app, bytes_length. simpl. lia.
Qed.

Lemma runs_loop_spec post : ∀ pre best cur, runs_loop (length post) (bytes (pre ++ post)) (Z.of_nat (length pre)) best cur =
  Ok (runs (is_zero <$> post) (Z.of_nat (length pre)) best cur).
Proof.
  induction post as [|w post IH]; intros pre best cur; [done|]. cbn [length runs_loop fmap list_fmap].
  destruct (aget_word pre w post) as [E1 E2]. rewrite E1, result_bind_Ok, E2, result_bind_Ok.
  assert (∀ best cur, runs_loop (length post) (bytes (pre ++ w :: post)) (Z.of_nat (length pre) + 1) best cur =
    Ok (runs (is_zero <$> post) (Z.of_nat (length pre) + 1) best cur)) as IH'.
  { intros. specialize (IH (pre ++ [w]) best0 cur0). rewrite <- app_assoc in IH. simpl in IH. rewrite length_app in IH. simpl in IH.
    by replace (Z.of_nat (length pre + 1)) with (Z.of_nat (length pre) + 1) in IH by lia. }
  fold (is_zero w). destruct (is_zero w) eqn:E; cbn [runs]; [by rewrite IH'|].
  destruct (negb (base cur =? -1)); by rewrite IH'.
Qed.

Lemma best_run_spec ws : length ws = 8%nat → best_run (bytes ws) = Ok (best_of (is_zero <$> ws)).
Proof.
  intros Hl. unfold best_run, best_of. pose proof (runs_loop_spec ws [] (Run (-1) 0) (Run (-1) 0)) as E. rewrite Hl in E.
  change (Z.of_nat (length [])) with 0 in E. cbn [app] in E. rewrite E, result_bind_Ok. by destruct (runs _ _ _ _).
Qed.

(** All patterns of zero words. *)
Fixpoint patterns (n : nat) : list (list bool) :=
  match n with O => [[]] | S n => (cons true <$> patterns n) ++ (cons false <$> patterns n) end.

Lemma elem_of_patterns bs : bs ∈ patterns (length bs).
Proof.
  induction bs as [|b bs IH]; [by left|]. cbn [length patterns]. apply elem_of_app. destruct b; [left|right]; by apply list_elem_of_fmap_2.
Qed.

Definition is_run (bs : list bool) (b l : nat) : bool := (b + l <=? length bs)%nat && forallb id (take l (drop b bs)).

(** The run that is found is a run of two words or more, no run is longer, and no
    other one of its length comes before it. *)
Definition run_ok (bs : list bool) : bool :=
  let r := best_of bs in
  ((base r =? -1) || ((0 <=? base r) && (2 <=? len r) && is_run bs (Z.to_nat (base r)) (Z.to_nat (len r)))) &&
  forallb (λ b, forallb (λ l, negb (is_run bs b l) ||
    (negb (base r =? -1) && ((Z.of_nat l <? len r) || ((Z.of_nat l =? len r) && (base r <=? Z.of_nat b)))))
    (seq 2 7)) (seq 0 8).

Lemma best_of_ok bs : length bs = 8%nat → run_ok bs = true.
Proof.
  intros Hl. assert (forallb run_ok (patterns 8) = true) as Hc by (vm_compute; reflexivity).
  rewrite forallb_forall in Hc. apply Hc. rewrite <- list_elem_of_In. rewrite <- Hl. apply elem_of_patterns.
Qed.

(** The words around the run. *)
Lemma best_of_split ws : length ws = 8%nat → Forall is_word16 ws →
  let r := best_of (is_zero <$> ws) in
  base r = -1 ∨
  ∃ pre post, (length pre + length post <= 6)%nat ∧ base r = Z.of_nat (length pre) ∧
    len r = 8 - Z.of_nat (length pre) - Z.of_nat (length post) ∧
    ws = pre ++ replicate (8 - length pre - length post) (0, 0) ++ post.
Proof.
  intros Hl Hws r. pose proof (best_of_ok (is_zero <$> ws) ltac:(by rewrite length_fmap)) as Hok. unfold run_ok in Hok. fold r in Hok.
  apply andb_true_iff in Hok as [Hok _]. apply orb_true_iff in Hok as [Hok|Hok]; [left; lia|right].
  apply andb_true_iff in Hok as [Hb Hrun]. unfold is_run in Hrun. apply andb_true_iff in Hrun as [Hle Hz]. rewrite length_fmap, Hl in Hle.
  exists (take (Z.to_nat (base r)) ws), (drop (Z.to_nat (base r) + Z.to_nat (len r)) ws). apply Nat.leb_le in Hle.
  rewrite length_take, length_drop. split; [lia|]. split; [lia|]. split; [lia|].
  rewrite <- (take_drop (Z.to_nat (base r)) ws) at 1. f_equal. rewrite <- (take_drop (Z.to_nat (len r)) (drop _ ws)) at 1.
  rewrite drop_drop. f_equal. apply list_eq_same_length with (n := (8 - Z.to_nat (base r) `min` length ws - (length ws - (Z.to_nat (base r) + Z.to_nat (len r))))%nat);
    [by rewrite length_replicate|rewrite length_take, length_drop; lia|].
  intros i x y Hi Hx Hy. apply lookup_replicate in Hy as [-> _]. rewrite forallb_forall in Hz. rewrite <- fmap_drop, <- fmap_take in Hz.
  assert (is_zero x = true) as Hx0. { apply (Hz (is_zero x)). apply list_elem_of_In. apply list_elem_of_fmap_2. by eapply list_elem_of_lookup_2. }
  unfold is_zero in Hx0. destruct x as [h l]. simpl in Hx0. f_equal; lia.
Qed.

(** ** The text *)

Section Print.
Context (v4 : bool).

Lemma embeds_spec ws best i : length ws = 8%nat → ∃ w5, ws !! 5%nat = Some w5 ∧
  embeds_ipv4 v4 (bytes ws) best i =
    Ok (v4 && (i =? 6) && (base best =? 0) && ((len best =? 6) || ((len best =? 5) && (w5.1 =? 0xff) && (w5.2 =? 0xff)))).
Proof.
  intros Hl. do 8 (destruct ws as [|[? ?] ws]; [done|]). eexists. split; [reflexivity|]. done.
Qed.

(** Words that are printed one by one, not from the first one on. *)
Lemma print_words l : ∀ pre post best fuel w r, length (pre ++ l ++ post) = 8%nat → pre ≠ [] → Forall is_word16 l →
  (∀ i, Z.of_nat (length pre) <= i < Z.of_nat (length pre + length l) → i ≠ base best ∧ embeds_ipv4 v4 (bytes (pre ++ l ++ post)) best i = Ok false) →
  (length (colon_words l) <= length r)%nat →
  to_str_loop v4 (length l + fuel) (bytes (pre ++ l ++ post)) best (Z.of_nat (length pre)) (at_end w r) =
  to_str_loop v4 fuel (bytes (pre ++ l ++ post)) best (Z.of_nat (length pre + length l)) (at_end (w ++ colon_words l) (drop (length (colon_words l)) r)).
Proof.
  induction l as [|x l IH]; intros pre post best fuel w r Hl Hne Hws Hi Hr.
  { change (colon_words []) with (@nil Z). cbn [length Nat.add]. by rewrite app_nil_r, drop_0, Nat.add_0_r. }
  apply Forall_cons in Hws as [Hx Hws]. pose proof (colon_words_cons x l []) as Ec. rewrite !app_nil_r in Ec. rewrite Ec in *.
  destruct (Hi (Z.of_nat (length pre))) as [Hnb He]; [simpl; lia|]. destruct (aget_word pre x (l ++ post)) as [E1 E2].
  change (c_colon :: word_text x ++ colon_words l) with ((c_colon :: word_text x) ++ colon_words l) in *. rewrite length_app in Hr.
  assert (writes (put_word x.1 x.2) (word_text x)) as Hw by (destruct x; by apply writes_word).
  cbn [length] in Hr. cbn [length Nat.add to_str_loop]. rewrite length_app in Hl. simpl in Hl.
  rewrite (proj2 (Z.ltb_lt (Z.of_nat (length pre)) IPV6_ADDR_WORD_LEN)) by (unfold IPV6_ADDR_WORD_LEN; lia).
  rewrite (proj2 (Z.eqb_neq _ _) Hnb). assert (Z.of_nat (length pre) =? 0 = false) as -> by (destruct pre; [done|simpl; lia]). cbn [negb].
  rewrite (writes_put c_colon w r) by (simpl; lia). rewrite result_bind_Ok, He, result_bind_Ok.
  change ((x :: l) ++ post) with (x :: l ++ post). rewrite E1, result_bind_Ok, E2, result_bind_Ok.
  rewrite Hw by (rewrite length_drop; simpl; lia). rewrite result_bind_Ok, drop_drop, <- app_assoc. cbn [app length Nat.add].
  specialize (IH (pre ++ [x]) post best fuel (w ++ c_colon :: word_text x) (drop (S (length (word_text x))) r)).
  rewrite <- !app_assoc in IH. cbn [app] in IH.
  assert (length (pre ++ [x]) = S (length pre)) as Hp by (rewrite length_app; simpl; lia). rewrite !Hp in IH.
  replace (Z.of_nat (length pre) + 1) with (Z.of_nat (S (length pre))) by lia. rewrite IH.
  - rewrite drop_drop, length_app. cbn [Nat.add]. by rewrite Nat.add_succ_r.
  - by rewrite length_app.
  - by destruct pre.
  - done.
  - intros i Hi'. apply Hi. simpl. lia.
  - rewrite length_drop. lia.
Qed.

(** From the first word on. *)
Lemma print_groups x l post best fuel r : length (x :: l ++ post) = 8%nat → Forall is_word16 (x :: l) →
  (∀ i, 0 <= i < Z.of_nat (length (x :: l)) → i ≠ base best ∧ embeds_ipv4 v4 (bytes (x :: l ++ post)) best i = Ok false) →
  (length (groups (x :: l)) <= length r)%nat →
  to_str_loop v4 (S (length l) + fuel) (bytes (x :: l ++ post)) best 0 (at_end [] r) =
  to_str_loop v4 fuel (bytes (x :: l ++ post)) best (Z.of_nat (length (x :: l))) (at_end (groups (x :: l)) (drop (length (groups (x :: l))) r)).
Proof.
  intros Hl Hws Hi Hr. apply Forall_cons in Hws as [Hx Hws]. cbn [groups] in *. rewrite length_app in Hr.
  destruct (Hi 0) as [Hnb He]; [simpl; lia|]. destruct (aget_word [] x (l ++ post)) as [E1 E2]. change (2 * Z.of_nat (length [])) with 0 in E1, E2.
  cbn [Nat.add to_str_loop]. change (0 <? IPV6_ADDR_WORD_LEN) with true. cbv iota. rewrite (proj2 (Z.eqb_neq _ _) Hnb).
  change (0 =? 0) with true. cbn [negb]. rewrite result_bind_Ok, He, result_bind_Ok. change (2 * 0) with 0. cbn [app] in E1, E2.
  rewrite E1, result_bind_Ok, E2, result_bind_Ok. destruct x as [h o]. cbn [fst snd].
  rewrite (writes_word h o Hx [] r) by lia. rewrite result_bind_Ok.
  pose proof (print_words l [(h, o)] post best fuel (word_text (h, o)) (drop (length (word_text (h, o))) r) Hl ltac:(done) Hws) as E.
  change (Z.of_nat (length [(h, o)])) with 1 in E. change (0 + 1) with 1. cbn [app] in E |- *. rewrite E.
  - rewrite drop_drop, length_app. cbn [length Nat.add]. done.
  - intros i Hi'. apply Hi. simpl in *. lia.
  - rewrite length_drop. lia.
Qed.

Lemma print_end fuel ws best tp : to_str_loop v4 (S fuel) (bytes ws) best 8 tp = Ok (Some tp).
Proof. done. Qed.

(** ** Lengths and characters *)

Lemma word_text_length w : is_word16 w → (1 <= length (word_text w) <= 4)%nat.
Proof.
  intros Hw. destruct (word_value w Hw) as (_ & Hne & _ & Hl). unfold word_text. rewrite length_fmap. destruct (digits w); [done|simpl in *; lia].
Qed.

Lemma colon_words_length l : Forall is_word16 l → (length (colon_words l) <= 5 * length l)%nat.
Proof.
  induction 1 as [|w l Hw _ IH]; [done|]. pose proof (colon_words_cons w l []) as E. rewrite !app_nil_r in E. rewrite E.
  simpl. rewrite length_app. pose proof (word_text_length w Hw). lia.
Qed.

Lemma groups_length l : Forall is_word16 l → (length (groups l) <= 5 * length l - 1)%nat.
Proof.
  intros Hl. destruct Hl as [|w l Hw Hl]; [done|]. cbn [groups]. rewrite length_app. pose proof (word_text_length w Hw). pose proof (colon_words_length l Hl).
  simpl. lia.
Qed.

Definition visible (s : list Z) : Prop := Forall (λ c, c ≠ 0) s.

Lemma visible_word w : is_word16 w → visible (word_text w).
Proof.
  intros Hw. destruct (word_value w Hw) as (Hn & _). apply Forall_fmap. eapply Forall_impl; [exact Hn|]. intros d Hd. simpl.
  pose proof (hex_not_0 d Hd). lia.
Qed.

Lemma visible_colon_words l : Forall is_word16 l → visible (colon_words l).
Proof.
  induction 1 as [|w l Hw _ IH]; [constructor|]. pose proof (colon_words_cons w l []) as E. rewrite !app_nil_r in E. rewrite E.
  constructor; [done|]. apply Forall_app. split; [by apply visible_word|done].
Qed.

Lemma visible_groups l : Forall is_word16 l → visible (groups l).
Proof. intros Hl. destruct Hl as [|w l Hw Hl]; [constructor|]. apply Forall_app. split; [by apply visible_word|by apply visible_colon_words]. Qed.

Lemma strlen_spec s r : visible s → strlen (s ++ 0 :: r) = Ok (Z.of_nat (length s)).
Proof.
  induction 1 as [|c s Hc _ IH]; [done|]. cbn [app strlen]. rewrite (proj2 (Z.eqb_neq _ _) Hc), IH, result_bind_Ok. simpl. f_equal. lia.
Qed.

(** ** Embedded IPv4 addresses *)

Lemma dec_text_spec u : is_byte u → (1 <= length (dec_text u) <= 3)%nat ∧ visible (dec_text u).
Proof.
  intros Hu. destruct (dec_spec u Hu) as (_ & Hne & _ & _ & Hl). split.
  - unfold dec_text. rewrite length_fmap. destruct (dec_digits u); [done|simpl in *; lia].
  - rewrite dec_text_hex by done. destruct (dec_spec u Hu) as (Hn & _). apply Forall_fmap. eapply Forall_impl; [exact Hn|].
    intros d Hd. simpl. pose proof (hex_not_0 d Hd). lia.
Qed.

Lemma ipv4_text_spec a b c d : is_byte a → is_byte b → is_byte c → is_byte d →
  (length (ipv4_text a b c d) <= 15)%nat ∧ visible (ipv4_text a b c d).
Proof.
  intros Ha Hb Hc Hd. destruct (dec_text_spec a Ha), (dec_text_spec b Hb), (dec_text_spec c Hc), (dec_text_spec d Hd).
  unfold ipv4_text. split.
  - rewrite !length_app. cbn [length]. rewrite !length_app. cbn [length]. rewrite !length_app. simpl. lia.
  - unfold visible in *. repeat (apply Forall_app; split; [done|]; apply Forall_cons; split; [done|]). done.
Qed.

Lemma writes_ipv4 a b c d : writes (ipv4_octets [a; b; c; d] 4) (ipv4_text a b c d ++ [c_dot]).
Proof.
  pose proof (writes_bind _ _ _ _ (writes_octet a) (writes_bind _ _ _ _ (writes_octet b)
    (writes_bind _ _ _ _ (writes_octet c) (writes_bind _ _ _ _ (writes_octet d) writes_nil)))) as H.
  replace (ipv4_text a b c d ++ [c_dot]) with
    ((dec_text a ++ [c_dot]) ++ (dec_text b ++ [c_dot]) ++ (dec_text c ++ [c_dot]) ++ (dec_text d ++ [c_dot]) ++ []); [exact H|].
  unfold ipv4_text. rewrite app_nil_r, <- !app_assoc. cbn [app]. rewrite <- !app_assoc. cbn [app]. by rewrite <- !app_assoc.
Qed.

Lemma ipv4_to_str_Ok w r a b c d n : 16 <= n → (length (ipv4_text a b c d) < length r)%nat →
  ipv4_addr_to_str (w ++ r) (Some (Z.of_nat (length w))) (Some [a; b; c; d]) n =
  Ok (true, w ++ ipv4_text a b c d ++ 0 :: drop (S (length (ipv4_text a b c d))) r).
Proof.
  intros Hn Hr. unfold ipv4_addr_to_str, IPV4_ADDR_MAX_STR_LEN. rewrite (proj2 (Z.ltb_ge _ _)) by lia.
  pose proof (writes_ipv4 a b c d w r ltac:(rewrite length_app; simpl; lia)) as E. unfold at_end in E at 1. rewrite E, result_bind_Ok. unfold at_end.
  rewrite (app_assoc w), <- (app_assoc _ [c_dot]). cbn [app]. rewrite aset_app by (rewrite !length_app; simpl; lia).
  rewrite result_bind_Ok, <- app_assoc. do 5 f_equal. rewrite length_app. simpl. by rewrite Nat.add_1_r.
Qed.

(** ** The whole text *)

Definition MAX : nat := Z.to_nat (IPV6_ADDR_MAX_STR_LEN v4).

(** What is printed for [ws], and what is read from it. *)
Record printed (ws : list (Z * Z)) (T : list Z) : Prop := {
  pr_visible : visible T;
  pr_length : (length T < MAX)%nat;
  pr_read : ∀ r rest, length r = 16%nat → ipv6_addr_from_str v4 (Some r) (Some (T ++ 0 :: rest)) = Ok (true, Some (bytes ws));
  pr_write : let best := best_of (is_zero <$> ws) in ∀ tmp, length tmp = MAX →
    ∃ T0 R0 R, to_str_loop v4 9 (bytes ws) best 0 (at_end [] tmp) = Ok (Some (at_end T0 R0)) ∧
      (if negb (base best =? -1) && (base best + len best =? IPV6_ADDR_WORD_LEN) then put_char c_colon (at_end T0 R0) else Ok (at_end T0 R0)) =
      Ok (at_end T R) ∧ (length T + length R = MAX)%nat
}.

Lemma MAX_bound : (40 <= MAX)%nat ∧ (v4 = true → MAX = 46%nat).
Proof. unfold MAX, IPV6_ADDR_MAX_STR_LEN. destruct v4; simpl; split; intros; done || lia. Qed.

Lemma printed_plain ws : length ws = 8%nat → Forall is_word16 ws → base (best_of (is_zero <$> ws)) = -1 → printed ws (groups ws).
Proof.
  intros Hl Hws Hb. pose proof MAX_bound as [HM _]. pose proof (groups_length ws Hws) as Hg. split.
  - by apply visible_groups.
  - lia.
  - intros r rest Hr. by apply from_str_plain.
  - intros best tmp Ht. destruct ws as [|x l]; [done|]. exists (groups (x :: l)), (drop (length (groups (x :: l))) tmp), (drop (length (groups (x :: l))) tmp).
    fold best in Hb. rewrite Hb. change (negb (-1 =? -1)) with false. cbn [andb]. split; [|split; [done|rewrite length_drop; lia]].
    pose proof (print_groups x l [] best 1 tmp) as E. rewrite app_nil_r in E. simpl in Hl. injection Hl as Hl. rewrite Hl in E.
    change (8 + 1)%nat with 9%nat in E. rewrite E; [|simpl; lia|done| |cbn [length] in Hg; rewrite Hl in Hg; lia].
    + cbn [length]. rewrite Hl. done.
    + intros i Hi. split; [lia|]. destruct (embeds_spec (x :: l) best i) as (w5 & _ & ->); [simpl; lia|]. rewrite Hb. f_equal.
      change (-1 =? 0) with false. by rewrite andb_false_r.
Qed.

Definition zeros_between (pre post : list (Z * Z)) : list (Z * Z) := pre ++ replicate (8 - length pre - length post) (0, 0) ++ post.

Lemma bytes_zeros_between pre post : (length pre + length post <= 8)%nat →
  bytes (zeros_between pre post) = bytes pre ++ replicate (16 - 2 * (length pre + length post)) 0 ++ bytes post.
Proof.
  intros Hl. unfold zeros_between. rewrite !bytes_app. do 2 f_equal. replace (16 - 2 * (length pre + length post))%nat with (2 * (8 - length pre - length post))%nat by lia.
  generalize (8 - length pre - length post)%nat. intros n. induction n as [|n IH]; [done|]. cbn [replicate].
  change (bytes ((0, 0) :: replicate n (0, 0))) with (0 :: 0 :: bytes (replicate n (0, 0))). rewrite IH. by replace (2 * S n)%nat with (S (S (2 * n))) by lia.
Qed.

Lemma double_colon pre post : groups pre ++ c_colon :: colon_words post ++ (if decide (post = []) then [c_colon] else []) =
  groups pre ++ c_colon :: c_colon :: groups post.
Proof.
  destruct post as [|w post]; [done|]. rewrite decide_False by done. rewrite app_nil_r. pose proof (colon_words_cons w post []) as E.
  rewrite !app_nil_r in E. by rewrite E.
Qed.

(** The loop reaches the run of zeros. *)
Lemma print_pre pre rest best fuel tmp : length (pre ++ rest) = 8%nat → Forall is_word16 pre →
  base best = Z.of_nat (length pre) → (length pre < 8)%nat → (length (groups pre) < length tmp)%nat →
  to_str_loop v4 (length pre + S fuel) (bytes (pre ++ rest)) best 0 (at_end [] tmp) =
  to_str_loop v4 fuel (bytes (pre ++ rest)) best (Z.of_nat (length pre) + len best)
    (at_end (groups pre ++ [c_colon]) (drop (S (length (groups pre))) tmp)).
Proof.
  intros Hl Hpre Hb Hl8 Ht. assert (to_str_loop v4 (length pre + S fuel) (bytes (pre ++ rest)) best 0 (at_end [] tmp) =
    to_str_loop v4 (S fuel) (bytes (pre ++ rest)) best (Z.of_nat (length pre)) (at_end (groups pre) (drop (length (groups pre)) tmp))) as ->.
  { destruct pre as [|x l]; [by rewrite drop_0|]. cbn [app length]. rewrite <- print_groups; [done|done|done| |lia].
    intros i Hi. split; [lia|]. destruct (embeds_spec (x :: l ++ rest) best i) as (w5 & _ & ->); [done|]. rewrite Hb. f_equal.
    assert (Z.of_nat (length (x :: l)) =? 0 = false) as -> by (simpl; lia). by rewrite andb_false_r. }
  cbn [to_str_loop]. rewrite (proj2 (Z.ltb_lt (Z.of_nat (length pre)) IPV6_ADDR_WORD_LEN)) by (unfold IPV6_ADDR_WORD_LEN; lia).
  rewrite Hb, Z.eqb_refl. rewrite (writes_put c_colon) by (rewrite length_drop; simpl; lia). rewrite result_bind_Ok.
  rewrite drop_drop. simpl. by rewrite Nat.add_1_r.
Qed.

Lemma printed_compressed pre post :
  (length pre + length post <= 6)%nat → Forall is_word16 pre → Forall is_word16 post →
  let ws := zeros_between pre post in let best := best_of (is_zero <$> ws) in
  base best = Z.of_nat (length pre) → len best = 8 - Z.of_nat (length pre) - Z.of_nat (length post) →
  (∀ i, 8 - Z.of_nat (length post) <= i < 8 → embeds_ipv4 v4 (bytes ws) best i = Ok false) →
  printed ws (groups pre ++ c_colon :: c_colon :: groups post).
Proof.
  intros Hl Hpre Hpost ws best Hb Hlen Hem. pose proof MAX_bound as [HM _]. pose proof (groups_length pre Hpre) as Hg1.
  pose proof (groups_length post Hpost) as Hg2. pose proof (colon_words_length post Hpost) as Hg3.
  assert (length ws = 8%nat) as Hws by (unfold ws, zeros_between; rewrite !length_app, length_replicate; lia). split.
  - apply Forall_app. split; [by apply visible_groups|]. do 2 (apply Forall_cons; split; [done|]). by apply visible_groups.
  - rewrite length_app. simpl. lia.
  - intros r rest Hr. rewrite <- app_assoc. cbn [app]. rewrite (from_str_compressed v4 r pre post) by (done || lia || (apply finishes_groups; done || lia)).
    unfold ws. by rewrite bytes_zeros_between by lia.
  - intros best' tmp Ht. fold best in best'. subst best'. set (mid := replicate (8 - length pre - length post) (0, 0)).
    set (T0 := groups pre ++ c_colon :: colon_words post). set (R0 := drop (length T0) tmp).
    assert (length T0 = length (groups pre) + S (length (colon_words post)))%nat as HT0 by (unfold T0; rewrite length_app; done).
    exists T0, R0, (drop (if decide (post = []) then 1 else 0) R0). split; [|split].
    + pose proof (print_pre pre (mid ++ post) best (length post + (8 - length pre - length post)) tmp) as E1.
      replace (length pre + S (length post + (8 - length pre - length post)))%nat with 9%nat in E1 by lia. unfold ws, zeros_between. fold mid.
      rewrite E1 by (done || lia). rewrite Hlen.
      pose proof (print_words post (pre ++ mid) [] best (8 - length pre - length post) (groups pre ++ [c_colon]) (drop (S (length (groups pre))) tmp)) as E2.
      rewrite app_nil_r, <- app_assoc in E2. assert (length (pre ++ mid) = 8 - length post)%nat as Hpm by (unfold mid; rewrite length_app, length_replicate; lia).
      rewrite Hpm in E2. replace (Z.of_nat (length pre) + (8 - Z.of_nat (length pre) - Z.of_nat (length post))) with (Z.of_nat (8 - length post)) by lia.
      rewrite E2; [|done|by destruct pre, mid eqn:Em; unfold mid in Em; try (apply (f_equal length) in Em; rewrite length_replicate in Em; simpl in Em; lia)|done| |rewrite length_drop; lia].
      * replace (Z.of_nat (8 - length post + length post)) with 8 by lia. destruct (8 - length pre - length post)%nat as [|k] eqn:Ek; [lia|].
        rewrite print_end. unfold R0. rewrite HT0, drop_drop. unfold T0. rewrite <- app_assoc.
        do 4 f_equal. lia.
      * intros i Hi. split; [lia|]. apply Hem. lia.
    + rewrite Hb, Hlen. assert (negb (Z.of_nat (length pre) =? -1) = true) as -> by lia. rewrite andb_true_l. rewrite <- double_colon.
      destruct (decide (post = [])) as [->|Hne].
      * assert (Z.of_nat (length pre) + (8 - Z.of_nat (length pre) - Z.of_nat (length [])) =? IPV6_ADDR_WORD_LEN = true) as ->
          by (unfold IPV6_ADDR_WORD_LEN; simpl; lia). rewrite (writes_put c_colon) by (unfold R0; rewrite length_drop; simpl; lia).
        unfold T0. by rewrite <- app_assoc.
      * assert (Z.of_nat (length pre) + (8 - Z.of_nat (length pre) - Z.of_nat (length post)) =? IPV6_ADDR_WORD_LEN = false) as ->.
        { unfold IPV6_ADDR_WORD_LEN. destruct post; [done|]. simpl. lia. } by rewrite drop_0, app_nil_r.
    + rewrite <- double_colon. unfold R0. rewrite !length_drop, !length_app. cbn [length]. rewrite length_app. destruct (decide (post = [])); simpl; lia.
Qed.

Lemma print_ipv4 six a b c d best fuel w r : length six = 6%nat → base best = 0 → v4 = true →
  embeds_ipv4 v4 (bytes (six ++ [(a, b); (c, d)])) best 6 = Ok true → is_byte a → is_byte b → is_byte c → is_byte d →
  (length w <= 20)%nat → (length w + length r = 46)%nat →
  ∃ R, to_str_loop v4 (S fuel) (bytes (six ++ [(a, b); (c, d)])) best 6 (at_end w r) =
    Ok (Some (at_end (w ++ c_colon :: ipv4_text a b c d) R)) ∧ (length w + S (length (ipv4_text a b c d)) + length R = 46)%nat.
Proof.
  intros Hs Hb Hv4 He Ha Hb' Hc Hd Hw Hr. destruct (ipv4_text_spec a b c d Ha Hb' Hc Hd) as [Hl Hvis].
  set (T := ipv4_text a b c d) in *. exists (0 :: drop (S (length T)) (drop 1 r)). split; [|cbn [length]; rewrite !length_drop; lia].
  cbn [to_str_loop]. change (6 <? IPV6_ADDR_WORD_LEN) with true. cbv iota. rewrite Hb. change (6 =? 0) with false. cbn [negb].
  rewrite (writes_put c_colon) by (simpl; lia). rewrite result_bind_Ok, He, result_bind_Ok. unfold at_end at 1.
  assert (drop 12 (bytes (six ++ [(a, b); (c, d)])) = [a; b; c; d]) as ->.
  { rewrite bytes_app, drop_app_ge by (rewrite bytes_length; lia). rewrite bytes_length, Hs. done. }
  assert (u8 (IPV6_ADDR_MAX_STR_LEN v4 - Z.of_nat (length (w ++ [c_colon]))) = 45 - Z.of_nat (length w)) as ->.
  { unfold IPV6_ADDR_MAX_STR_LEN, u8. rewrite Hv4, length_app, Z.mod_small; simpl; lia. }
  rewrite ipv4_to_str_Ok by (rewrite ?length_drop; simpl; fold T; lia). fold T. rewrite result_bind_Ok. cbn [negb]. rewrite Nat2Z.id, drop_app_length.
  rewrite strlen_spec by done. rewrite result_bind_Ok. unfold at_end. rewrite <- !app_assoc. cbn [app].
  do 4 f_equal. rewrite !length_app. simpl. lia.
Qed.

Lemma printed_embedded mid a b c d :
  v4 = true → (length mid <= 1)%nat → Forall is_word16 mid → is_byte a → is_byte b → is_byte c → is_byte d →
  let ws := zeros_between [] (mid ++ [(a, b); (c, d)]) in let best := best_of (is_zero <$> ws) in
  base best = 0 → len best = 6 - Z.of_nat (length mid) → embeds_ipv4 v4 (bytes ws) best 6 = Ok true →
  printed ws (c_colon :: c_colon :: mapped_text mid a b c d).
Proof.
  intros Hv4 Hm Hmid Ha Hb Hc Hd ws best Hbase Hlen He. destruct MAX_bound as [_ HM]. specialize (HM Hv4).
  destruct (ipv4_text_spec a b c d Ha Hb Hc Hd) as [Hl Hvis].
  assert (visible (mapped_text mid a b c d) ∧ (length (mapped_text mid a b c d) <= 20)%nat) as [Hv Hml].
  { unfold mapped_text. destruct Hmid as [|w mid Hw Hmid]; [split; [done|simpl; lia]|]. destruct mid; [|simpl in Hm; lia]. cbn [fmap list_fmap concat].
    rewrite app_nil_r. pose proof (word_text_length w Hw). split; [|rewrite !length_app; simpl; lia].
    apply Forall_app. split; [|done]. apply Forall_app. split; [by apply visible_word|repeat constructor; done]. }
  split.
  - by do 2 (apply Forall_cons; split; [done|]).
  - simpl. lia.
  - intros r rest Hr. rewrite Hv4. pose proof (finishes_ipv4 mid a b c d rest Hm Hmid Ha Hb Hc Hd) as Hf. cbn zeta in Hf.
    pose proof (from_str_compressed true r [] (mid ++ [(a, b); (c, d)]) _ Hr ltac:(rewrite length_app; simpl; lia) ltac:(constructor) Hf) as E.
    cbn [groups app] in E |- *. rewrite E. unfold ws. by rewrite bytes_zeros_between by (rewrite length_app; simpl; lia).
  - intros best' tmp Ht. fold best in best'. subst best'. rewrite Hbase, Hlen.
    assert (negb (0 =? -1) && (0 + (6 - Z.of_nat (length mid)) =? IPV6_ADDR_WORD_LEN) = false) as -> by (unfold IPV6_ADDR_WORD_LEN; lia).
    assert (length ws = 8%nat) as Hws by (unfold ws, zeros_between; cbn [app]; rewrite !length_app, length_replicate; simpl; lia).
    pose proof (print_pre [] ws best 8 tmp Hws ltac:(constructor) Hbase ltac:(simpl; lia) ltac:(simpl; lia)) as E1.
    cbn [length app groups Nat.add] in E1. rewrite E1, Hlen. clearbody best. destruct Hmid as [|w mid Hw Hmid].
    + cbn [length]. change (Z.of_nat 0 + (6 - Z.of_nat 0)) with 6.
      destruct (print_ipv4 (replicate 6 (0, 0)) a b c d best 7 [c_colon] (drop 1 tmp)) as (R & E2 & HR);
        [done|done|done|exact He|done|done|done|done|simpl; lia|rewrite length_drop; simpl; lia|].
      eexists _, _, _. split; [exact E2|]. split; [reflexivity|]. rewrite HM. cbn [length app mapped_text concat fmap list_fmap] in HR |- *. lia.
    + destruct mid; [|simpl in Hm; lia]. cbn [length]. change (Z.of_nat 0 + (6 - Z.of_nat 1)) with 5. pose proof (word_text_length w Hw) as Hwl.
      assert (ws = replicate 5 (0, 0) ++ [w] ++ [(a, b); (c, d)]) as Ews by done.
      assert (length (colon_words [w]) = S (length (word_text w))) as Hcl by (unfold colon_words; simpl; by rewrite app_nil_r).
      pose proof (print_words [w] (replicate 5 (0, 0)) [(a, b); (c, d)] best 7 [c_colon] (drop 1 tmp)) as E2. rewrite <- Ews in E2.
      change (length [w] + 7)%nat with 8%nat in E2. change (Z.of_nat (length (replicate 5 (0, 0)))) with 5 in E2.
      rewrite E2; [|done|done|by constructor| |rewrite Hcl, length_drop; lia].
      * change (Z.of_nat (length (replicate 5 (0, 0)) + length [w])) with 6.
        destruct (print_ipv4 (replicate 5 (0, 0) ++ [w]) a b c d best 6 ([c_colon] ++ colon_words [w]) (drop (length (colon_words [w])) (drop 1 tmp)))
          as (R & E3 & HR); [done|done|done|exact He|done|done|done|done| | |]; try (rewrite length_app, Hcl, ?length_drop; simpl; lia).
        rewrite length_app, Hcl in HR. eexists _, _, _. split; [exact E3|]. split.
        -- unfold mapped_text, colon_words. cbn [fmap list_fmap concat app]. rewrite !app_nil_r. cbn [app]. by rewrite <- !app_assoc.
        -- rewrite HM. unfold mapped_text. cbn [fmap list_fmap concat]. rewrite app_nil_r, !length_app. simpl in HR |- *. lia.
      * intros i Hi. simpl in Hi. assert (i = 5) as -> by lia. split; [lia|]. destruct (embeds_spec ws best 5 Hws) as (w5 & _ & ->).
        change (5 =? 6) with false. by rewrite andb_false_r.
Qed.

Lemma ws_printed ws : length ws = 8%nat → Forall is_word16 ws → ∃ T, printed ws T.
Proof.
  intros Hl Hws. destruct (best_of_split ws Hl Hws) as [Hb|(pre & post & Hn & Hb & Hlen & E)]; [eexists; by apply printed_plain|].
  fold (zeros_between pre post) in E. assert (Forall is_word16 pre ∧ Forall is_word16 post) as [Hpre Hpost].
  { rewrite E in Hws. unfold zeros_between in Hws. rewrite !Forall_app in Hws. naive_solver. }
  destruct (embeds_spec ws (best_of (is_zero <$> ws)) 6 Hl) as (w5 & _ & He6). destruct (embeds_ipv4 v4 (bytes ws) _ 6) as [[]|] eqn:He; [| |done].
  - injection He6 as He6. symmetry in He6. rewrite !andb_true_iff, orb_true_iff in He6. destruct He6 as [[[Hv4 _] Hb0] Hlen'].
    assert (length pre = 0%nat) as Hp by lia. apply nil_length_inv in Hp as ->. cbn [length Nat.add] in *.
    assert (2 <= length post <= 3)%nat as Hp by (destruct Hlen' as [?|[[? _]%andb_true_iff _]%andb_true_iff]; lia).
    assert (∃ mid a b c d, post = mid ++ [(a, b); (c, d)]) as (mid & a & b & c & d & ->).
    { destruct post as [|[? ?] [|[? ?] [|[? ?] [|]]]]; simpl in Hp; try lia; [by eexists [], _, _, _, _|by eexists [_], _, _, _, _]. }
    rewrite length_app in Hp, Hlen. cbn [length] in Hp, Hlen. apply Forall_app in Hpost as [Hmid [[Ha Hb'] [[Hc Hd] _]%Forall_cons]%Forall_cons].
    rewrite E in *. eexists. apply printed_embedded; done || lia.
  - rewrite E in *. eexists. apply printed_compressed; try done. intros i _. destruct (decide (i = 6)) as [->|Hi]; [done|].
    destruct (embeds_spec _ (best_of (is_zero <$> zeros_between pre post)) i Hl) as (w & _ & ->). rewrite (proj2 (Z.eqb_neq _ _) Hi). by rewrite andb_false_r.
Qed.

(** ** The round trip *)

Lemma to_str_printed ws T tmp buf n : length ws = 8%nat → printed ws T → length tmp = MAX → (MAX <= length buf)%nat → Z.of_nat MAX <= n →
  ipv6_addr_to_str v4 tmp (Some buf) (Some (bytes ws)) n = Ok (true, Some (T ++ 0 :: drop (S (length T)) buf)).
Proof.
  intros Hl [Hv HlT _ Hw] Ht Hbuf Hn. unfold ipv6_addr_to_str. rewrite best_run_spec, result_bind_Ok by done.
  destruct (Hw tmp Ht) as (T0 & R0 & R & E1 & E2 & HR). unfold at_end in E1 at 1. cbn [length app] in E1. change (Z.of_nat 0) with 0 in E1.
  rewrite E1, result_bind_Ok, E2, result_bind_Ok. rewrite (writes_put 0) by (simpl; lia). rewrite result_bind_Ok. unfold at_end.
  rewrite length_app. cbn [length]. rewrite (proj2 (Z.ltb_ge _ _)) by lia. rewrite <- app_assoc. cbn [app]. rewrite strlen_spec, result_bind_Ok by done.
  rewrite memcpy_Ok by (rewrite ?length_app; cbn [length]; rewrite ?length_drop; lia). rewrite result_bind_Ok. do 3 f_equal.
  replace (Z.to_nat (Z.of_nat (length T) + 1)) with (length (T ++ [0])) by (rewrite length_app; simpl; lia).
  change (Z.to_nat 0) with 0%nat. rewrite drop_0, take_0. cbn [app].
  rewrite (cons_middle 0 T (drop 1 R)), app_assoc, take_app_length, <- app_assoc. cbn [app]. do 3 f_equal. lia.
Qed.

Lemma bytes_words addr n : length addr = (2 * n)%nat → Forall is_byte addr →
  ∃ ws, addr = bytes ws ∧ length ws = n ∧ Forall is_word16 ws.
Proof.
  revert addr. induction n as [|n IH]; intros addr Hl Ha; [apply nil_length_inv in Hl as ->; by exists []|].
  destruct addr as [|h [|l addr]]; simpl in Hl; try lia. rewrite !Forall_cons in Ha. destruct Ha as (Hh & Hlo & Ha).
  destruct (IH addr ltac:(lia) Ha) as (ws & -> & <- & Hws). exists ((h, l) :: ws). split; [done|]. split; [done|]. by constructor.
Qed.

(** The text that is written for an address. *)
Lemma to_str_Ok addr tmp buf n : length addr = 16%nat → Forall is_byte addr → length tmp = MAX → (MAX <= length buf)%nat → Z.of_nat MAX <= n →
  ∃ T, (length T < MAX)%nat ∧ ipv6_addr_to_str v4 tmp (Some buf) (Some addr) n = Ok (true, Some (T ++ 0 :: drop (S (length T)) buf)) ∧
    ∀ r rest, length r = 16%nat → ipv6_addr_from_str v4 (Some r) (Some (T ++ 0 :: rest)) = Ok (true, Some addr).
Proof.
  intros Hl Ha Ht Hb Hn. destruct (bytes_words addr 8 Hl Ha) as (ws & -> & Hws & Hw). destruct (ws_printed ws Hws Hw) as [T HT].
  exists T. split; [apply HT|]. split; [by apply to_str_printed|]. intros r rest Hr. by apply HT.
Qed.

(** C16: For every IPv6 address (16 bytes), with and without the IPv4 module,
    [ipv6_addr_to_str] with a buffer of [IPV6_ADDR_MAX_STR_LEN] characters returns
    the buffer, never accesses its local buffer or [result] outside their bounds,
    and [ipv6_addr_from_str] reads the address back from the text that was written:
    whichever run of zero words is written as "::", and for IPv4-compatible and
    IPv4-mapped addresses, whose last words are written as an IPv4 address. *)
Theorem ipv6_str_roundtrip addr tmp buf result_len :
  length addr = 16%nat → Forall is_byte addr → length tmp = MAX → (MAX <= length buf)%nat → Z.of_nat MAX <= result_len →
  ∃ buf', ipv6_addr_to_str v4 tmp (Some buf) (Some addr) result_len = Ok (true, Some buf') ∧ length buf' = length buf ∧
    ∀ r, length r = 16%nat → ipv6_addr_from_str v4 (Some r) (Some buf') = Ok (true, Some addr).
Proof.
  intros Hl Ha Ht Hb Hn. destruct (to_str_Ok addr tmp buf result_len Hl Ha Ht Hb Hn) as (T & HT & E & Hread).
  eexists. split; [exact E|]. split; [|intros r Hr; by apply Hread]. rewrite length_app. cbn [length]. rewrite length_drop. lia.
Qed.
End Print.

(** 2001:db8::ff00:0:1 *)
Lemma ipv6_str_roundtrip_witness :
  let addr := [0x20; 0x01; 0x0d; 0xb8; 0; 0; 0; 0; 0; 0; 0xff; 0; 0; 0; 0; 1] in
  ∃ buf', ipv6_addr_to_str true (replicate 46 7) (Some (replicate 46 9)) (Some addr) 46 = Ok (true, Some buf') ∧
    length buf' = length (replicate 46 9) ∧
    ∀ r, length r = 16%nat → ipv6_addr_from_str true (Some r) (Some buf') = Ok (true, Some addr).
Proof.
  apply (ipv6_str_roundtrip true); [done| |done|vm_compute; lia|vm_compute; done]. repeat constructor; unfold is_byte; lia.
Defined.

(** ** Examples *)

Definition chars (s : string) : list Z := ((λ c, Z.of_N (Ascii.N_of_ascii c)) <$> String.list_ascii_of_string s) ++ [0].

Definition printed_as (v4 : bool) (addr : list Z) (s : string) : Prop :=
  ipv6_addr_to_str v4 (replicate 46 7) (Some (replicate (length (chars s)) 9)) (Some addr) (IPV6_ADDR_MAX_STR_LEN v4) = Ok (true, Some (chars s)).

Definition read_as (v4 : bool) (s : string) (addr : list Z) : Prop :=
  ipv6_addr_from_str v4 (Some (replicate 16 7)) (Some (chars s)) = Ok (true, Some addr).

(** The longest run is written as "::", the first one of two. *)
Example prints_first_run : printed_as true [0x20; 0x01; 0; 0; 0; 0; 0; 1; 0; 0; 0; 0; 0; 0xab; 0xcd; 0xef] "2001::1:0:0:ab:cdef".
Proof. vm_compute. reflexivity. Qed.
Example prints_unspecified : printed_as true (replicate 16 0) "::".
Proof. vm_compute. reflexivity. Qed.
Example prints_mapped : printed_as true [0; 0; 0; 0; 0; 0; 0; 0; 0; 0; 0xff; 0xff; 192; 168; 0; 1] "::ffff:192.168.0.1".
Proof. vm_compute. reflexivity. Qed.
Example prints_mapped_without_ipv4 : printed_as false [0; 0; 0; 0; 0; 0; 0; 0; 0; 0; 0xff; 0xff; 192; 168; 0; 1] "::ffff:c0a8:1".
Proof. vm_compute. reflexivity. Qed.

(** The text of eight words does not need to fit: the length that is compared is
    that of the text, after it was written to the local buffer. *)
Example result_too_short :
  ipv6_addr_to_str true (replicate 46 7) (Some [9; 9]) (Some (replicate 16 0)) 2 = Ok (false, Some [9; 9]).
Proof. vm_compute. reflexivity. Qed.

(** Eight words around a "::": the words behind it are lost. *)
Example double_colon_overwrites :
  read_as true "1:2:3:4::5:6:7:8" [0; 1; 0; 2; 0; 3; 0; 4; 0; 0; 0; 0; 0; 0; 0; 0].
Proof. vm_compute. reflexivity. Qed.

(** A colon behind the last word is accepted. *)
Example trailing_colon : read_as true "1:2:3:4:5:6:7:8:" [0; 1; 0; 2; 0; 3; 0; 4; 0; 5; 0; 6; 0; 7; 0; 8].
Proof. vm_compute. reflexivity. Qed.

(** The loop of [ipv6_addr_split] starts behind the first character, also when it
    is the terminator. *)
Example split_empty : ipv6_addr_split_prefix (chars "") = Fault OutOfBounds.
Proof. vm_compute. reflexivity. Qed.
Example split_prefix : ipv6_addr_split_prefix (chars "fe80::/64") = Ok (64, chars "fe80::" ++ [54; 52; 0]).
Proof. vm_compute. reflexivity. Qed.
