(* ===== verification/Ipv6Prefix.v ===== *)
(** * Prefixes of IPv6 addresses

    What ipv6_addr_match_prefix, ipv6_addr_init_prefix and ipv6_addr_init_iid of
    ipv6_addr.c do to the bits of an address. *)

From S2P Require Import Prelude Words Ipv6Addr.
Open Scope Z_scope.

(** ** Bits *)

(** Bit [k] of a sequence of bytes, the most significant one first. *)
Definition addr_bit (a : list Z) (k : nat) : bool := Z.testbit (default 0 (a !! (k / 8)%nat)) (7 - Z.of_nat (k mod 8)).

Lemma addr_bit_at a q j : (j < 8)%nat → addr_bit a (8 * q + j) = Z.testbit (default 0 (a !! q)) (7 - Z.of_nat j).
Proof.
  intros Hj. unfold addr_bit. rewrite (Nat.mul_comm 8), Nat.div_add_l by lia. rewrite (Nat.div_small j), Nat.add_0_r by done.
  rewrite Nat.add_comm, Nat.Div0.mod_add, (Nat.mod_small j) by done. done.
Qed.

Lemma addr_bit_cons x a k : addr_bit (x :: a) k = if decide (k < 8)%nat then Z.testbit x (7 - Z.of_nat k) else addr_bit a (k - 8).
Proof.
  destruct (decide (k < 8)%nat) as [Hk|Hk]; [by apply (addr_bit_at (x :: a) 0 k)|].
  rewrite (Nat.div_mod_eq (k - 8) 8), (addr_bit_at a) by (apply Nat.mod_upper_bound; lia).
  replace k with (8 * S ((k - 8) / 8) + (k - 8) mod 8)%nat at 1 by (pose proof (Nat.div_mod_eq (k - 8) 8); lia).
  by rewrite addr_bit_at by (apply Nat.mod_upper_bound; lia).
Qed.

(** Statements on the bits of an address are statements on those of its bytes. *)
Lemma all_bits (P : nat → Prop) n : (∀ q j, (q < n)%nat → (j < 8)%nat → P (8 * q + j)%nat) → ∀ k, (k < 8 * n)%nat → P k.
Proof.
  intros H k Hk. rewrite (Nat.div_mod_eq k 8). apply H; [|apply Nat.mod_upper_bound; lia]. apply Nat.Div0.div_lt_upper_bound; lia.
Qed.

(** ** The length of a common prefix *)

Lemma match_bits_add n : ∀ x p, 0 <= p → p + Z.of_nat n < 256 → match_bits n x p = p + match_bits n x 0.
Proof.
  induction n as [|n IH]; intros x p Hp Hn; [simpl; lia|]. cbn [match_bits]. destruct (_ =? 0); [|lia].
  unfold u8. rewrite (Z.mod_small (p + 1)) by lia. change ((0 + 1) mod 2 ^ 8) with 1.
  rewrite IH by lia. rewrite (IH _ 1) by lia. lia.
Qed.

(** The bits of a byte before its first one. *)
Lemma match_bits_byte x : is_byte x → x ≠ 0 → ∃ n, (n < 8)%nat ∧ match_bits 8 x 0 = Z.of_nat n ∧
  (∀ k, (k < n)%nat → Z.testbit x (7 - Z.of_nat k) = false) ∧ Z.testbit x (7 - Z.of_nat n) = true.
Proof.
  intros Hx Hne. set (check := λ x, (x =? 0) || let n := match_bits 8 x 0 in
    (0 <=? n) && (n <? 8) && forallb (λ k, negb (Z.of_nat k <? n) || negb (Z.testbit x (7 - Z.of_nat k))) (seq 0 8) && Z.testbit x (7 - n)).
  pose proof (byte_check check ltac:(vm_compute; reflexivity) x Hx) as Hc. unfold check in Hc. rewrite (proj2 (Z.eqb_neq _ _) Hne) in Hc. cbn [orb] in Hc.
  rewrite !andb_true_iff, forallb_forall in Hc. destruct Hc as [[[H0 H8] Hz] Ho]. exists (Z.to_nat (match_bits 8 x 0)).
  rewrite Z2Nat.id by lia. split; [lia|]. split; [done|]. split; [|done]. intros k Hk.
  specialize (Hz k ltac:(apply in_seq; lia)). assert (Z.of_nat k <? match_bits 8 x 0 = true) as E by lia. rewrite E in Hz. by apply negb_true_iff in Hz.
Qed.

Lemma match_bytes_spec a : ∀ b c, length a = length b → Forall is_byte a → Forall is_byte b → (length c + length a <= 16)%nat →
  ∃ n, match_bytes (length a) (c ++ a) (c ++ b) (Z.of_nat (length c)) (8 * Z.of_nat (length c)) = Ok (8 * Z.of_nat (length c) + Z.of_nat n) ∧
    (n <= 8 * length a)%nat ∧ (∀ k, (k < n)%nat → addr_bit a k = addr_bit b k) ∧ ((n < 8 * length a)%nat → addr_bit a n ≠ addr_bit b n).
Proof.
  induction a as [|x a IH]; intros b c Hl Ha Hb Hc; [exists 0%nat; repeat split; (simpl; lia) || (intros; lia) || (simpl; f_equal; lia)|].
  destruct b as [|y b]; [done|]. apply Forall_cons in Ha as [Hx Ha], Hb as [Hy Hb]. cbn [length match_bytes] in *.
  rewrite !aget_app, !result_bind_Ok by done. destruct (Z.eqb_spec x y) as [->|Hne].
  - destruct (IH b (c ++ [y]) ltac:(lia) Ha Hb) as (n & E & Hn & He & Hd); [rewrite length_app; simpl; lia|].
    rewrite <- !app_assoc in E. cbn [app] in E. rewrite length_app in E. cbn [length] in E. exists (8 + n)%nat. split; [|split; [lia|split]].
    + replace (u8 (8 * Z.of_nat (length c) + 8)) with (8 * Z.of_nat (length c + 1)) by (unfold u8; rewrite Z.mod_small; lia).
      replace (Z.of_nat (length c) + 1) with (Z.of_nat (length c + 1)) by lia. rewrite E. f_equal. lia.
    + intros k Hk. rewrite !addr_bit_cons. case_decide; [done|]. apply He. lia.
    + intros Hk. rewrite !addr_bit_cons, !decide_False by lia. replace (8 + n - 8)%nat with n by lia. apply Hd. lia.
  - assert (is_byte (Z.lxor x y)) as Hxy by (by apply lxor_byte).
    destruct (match_bits_byte (Z.lxor x y) Hxy) as (n & Hn & E & Hz & Ho); [by intros ?%Z.lxor_eq|].
    exists n. split; [|split; [lia|split]].
    + rewrite match_bits_add by lia. by rewrite E.
    + intros k Hk. rewrite !addr_bit_cons, !decide_True by lia. specialize (Hz k Hk). rewrite Z.lxor_spec in Hz. by destruct (Z.testbit x _), (Z.testbit y _).
    + intros _. rewrite !addr_bit_cons, !decide_True by lia. rewrite Z.lxor_spec in Ho. intros Heq. rewrite Heq, xorb_nilpotent in Ho. done.
Qed.

(** ** Writing a prefix *)

Lemma addr_bit_app A C k : addr_bit (A ++ C) k = if decide (k < 8 * length A)%nat then addr_bit A k else addr_bit C (k - 8 * length A).
Proof.
  revert k. induction A as [|x A IH]; intros k; [cbn [length app]; rewrite decide_False, Nat.mul_0_r, Nat.sub_0_r by lia; done|].
  cbn [app]. rewrite !addr_bit_cons. cbn [length]. destruct (decide (k < 8)%nat); [by rewrite decide_True by lia|].
  rewrite IH. repeat case_decide; try lia; f_equal; lia.
Qed.

Lemma mask_bit s i : 0 < s < 8 → 0 <= i < 8 →
  Z.testbit (u8 (Z.shiftl 0xff s)) i = (s <=? i) ∧ Z.testbit (u8 (Z.lnot (u8 (Z.shiftl 0xff s)))) i = negb (s <=? i).
Proof.
  intros Hs Hi. assert (forallb (λ s, forallb (λ i, Bool.eqb (Z.testbit (u8 (Z.shiftl 0xff s)) i) (s <=? i) &&
    Bool.eqb (Z.testbit (u8 (Z.lnot (u8 (Z.shiftl 0xff s)))) i) (negb (s <=? i))) (seqZ 0 8)) (seqZ 1 7) = true) as Hc by (vm_compute; reflexivity).
  rewrite forallb_forall in Hc. specialize (Hc s ltac:(apply list_elem_of_In, elem_of_seqZ; lia)). rewrite forallb_forall in Hc.
  specialize (Hc i ltac:(apply list_elem_of_In, elem_of_seqZ; lia)). apply andb_true_iff in Hc as [H1%eqb_prop H2%eqb_prop]. done.
Qed.

Lemma split_at (l : list Z) n : (n < length l)%nat → ∃ A x C, l = A ++ x :: C ∧ length A = n.
Proof.
  intros Hn. destruct (lookup_lt_is_Some_2 l n Hn) as [x Hx]. exists (take n l), x, (drop (S n) l). split; [by rewrite take_drop_middle|].
  rewrite length_take. lia.
Qed.

Lemma lor_byte x y : is_byte x → is_byte y → is_byte (Z.lor x y).
Proof. apply (lor_bound 8). lia. Qed.

(** A byte of which the bits from [s] on are taken from [x], and the others from [y]. *)
Lemma mixed_bit x y s i : 0 < s < 8 → 0 <= i < 8 →
  let mask := u8 (Z.shiftl 0xff s) in
  Z.testbit (Z.lor (Z.land x mask) (Z.land y (u8 (Z.lnot mask)))) i = if s <=? i then Z.testbit x i else Z.testbit y i.
Proof.
  intros Hs Hi mask. destruct (mask_bit s i Hs Hi) as [H1 H2]. rewrite Z.lor_spec, !Z.land_spec. unfold mask. rewrite H1, H2.
  destruct (s <=? i); cbn [negb]; rewrite ?andb_true_r, ?andb_false_r, ?orb_false_r; done.
Qed.

(** After [ipv6_addr_init_prefix] the first bits are those of the prefix, and the
    others are unchanged. *)
Lemma init_prefix_bits out prefix bits : length out = 16%nat → length prefix = 16%nat → (bits <= 255)%nat →
  ∃ out', ipv6_addr_init_prefix out prefix (Z.of_nat bits) = Ok out' ∧ length out' = 16%nat ∧
    (Forall is_byte out → Forall is_byte prefix → Forall is_byte out') ∧
    ∀ k, (k < 128)%nat → addr_bit out' k = if decide (k < bits)%nat then addr_bit prefix k else addr_bit out k.
Proof.
  intros Ho Hp Hb. unfold ipv6_addr_init_prefix. set (n := (bits `min` 128)%nat).
  assert ((if 128 <? Z.of_nat bits then 128 else Z.of_nat bits) = Z.of_nat n) as -> by (destruct (Z.ltb_spec 128 (Z.of_nat bits)); lia).
  assert (∀ k, (k < 128)%nat → ((k < bits)%nat ↔ (k < n)%nat)) as Hn by lia.
  assert (∃ q r, n = (8 * q + r)%nat ∧ (r < 8)%nat ∧ (q <= 16)%nat ∧ Z.of_nat n / 8 = Z.of_nat q ∧ Z.of_nat n mod 8 = Z.of_nat r) as (q & r & Eq & Hr & Hq & -> & ->).
  { exists (n / 8)%nat, (n mod 8)%nat. rewrite Nat2Z.inj_div, Nat2Z.inj_mod. pose proof (Nat.div_mod_eq n 8). pose proof (Nat.mod_upper_bound n 8). lia. }
  rewrite memcpy_Ok by lia. rewrite result_bind_Ok. change (Z.to_nat 0) with 0%nat. rewrite take_0, drop_0, Nat2Z.id. cbn [app].
  rewrite Z.add_0_l, Nat2Z.id. destruct (Z.eqb_spec (Z.of_nat r) 0) as [Hr0|Hr0]; cbn [negb].
  - assert (r = 0)%nat as -> by lia. eexists. split; [reflexivity|]. split; [rewrite length_app, length_take, length_drop; lia|].
    split; [intros HBo HBp; apply Forall_app; split; [by apply Forall_take|by apply Forall_drop]|].
    intros k Hk. rewrite addr_bit_app, length_take, Hp, Nat.min_l by lia. pose proof (Hn k Hk). repeat case_decide; try lia.
    + rewrite <- (take_drop q prefix) at 2. rewrite addr_bit_app, length_take, decide_True by lia. done.
    + rewrite <- (take_drop q out) at 2. rewrite addr_bit_app, length_take, Ho, Nat.min_l, decide_False by lia. done.
  - destruct (split_at out q) as (A & o & C & -> & HA); [lia|]. destruct (split_at prefix q) as (P & p & S & -> & HP); [lia|].
    rewrite (take_app_length' P), (drop_app_length' A) by done. rewrite (aget_app P C), result_bind_Ok, aset_app, result_bind_Ok by lia.
    rewrite (aget_app P C), result_bind_Ok, (aget_app P S), result_bind_Ok, aset_app by lia.
    eexists. split; [reflexivity|]. rewrite length_app in *. cbn [length] in *. split; [lia|].
    split; [rewrite !Forall_app, !Forall_cons; intros (_ & HBo & HC) (HBP & HBp & _); by repeat split; first [apply lor_byte; by apply land_byte|done]|].
    intros k Hk. pose proof (Hn k Hk).
    rewrite !addr_bit_app, HA, HP, !addr_bit_cons. repeat case_decide; try lia; try done.
    all: replace (8 - (Z.of_nat n - Z.of_nat q * 8)) with (8 - Z.of_nat r) by lia.
    all: rewrite Z.lor_comm, mixed_bit by lia.
    + rewrite (proj2 (Z.leb_le _ _)) by lia. done.
    + rewrite (proj2 (Z.leb_gt _ _)) by lia. done.
Qed.

(** After [ipv6_addr_init_iid] the last bits are those of the identifier, and the
    others are unchanged. *)
Lemma init_iid_bits out iid bits : length out = 16%nat → (bits <= 128)%nat → (8 * length iid = bits + (8 - bits mod 8) mod 8)%nat →
  ∃ out', ipv6_addr_init_iid out iid (Z.of_nat bits) = Ok out' ∧ length out' = 16%nat ∧
    ∀ k, (k < 128)%nat → addr_bit out' k = if decide (k < 128 - bits)%nat then addr_bit out k else addr_bit iid (k + 8 * length iid - 128).
Proof.
  intros Ho Hb Hi. unfold ipv6_addr_init_iid. rewrite (proj2 (Z.ltb_ge _ _)) by lia.
  assert (∃ q r, bits = (8 * q + r)%nat ∧ (r < 8)%nat ∧ (bits mod 8)%nat = r ∧ Z.of_nat bits / 8 = Z.of_nat q ∧ Z.of_nat bits mod 8 = Z.of_nat r)
    as (q & r & Eq & Hr & Er & -> & ->).
  { exists (bits / 8)%nat, (bits mod 8)%nat. rewrite Nat2Z.inj_div, Nat2Z.inj_mod. pose proof (Nat.div_mod_eq bits 8). pose proof (Nat.mod_upper_bound bits 8). lia. }
  rewrite Er in Hi. change (IPV6_ADDR_BIT_LEN / 8) with 16. destruct (Z.eqb_spec (Z.of_nat r) 0) as [Hr0|Hr0]; cbn [negb].
  - assert (r = 0)%nat as -> by lia. change ((8 - 0) mod 8)%nat with 0%nat in Hi. rewrite memcpy_Ok by lia. eexists. split; [reflexivity|].
    rewrite drop_0, Nat2Z.id, (take_ge iid) by lia. rewrite (drop_ge out), app_nil_r by lia.
    split; [rewrite length_app, length_take; lia|]. intros k Hk. rewrite addr_bit_app, length_take, Ho.
    replace (Z.to_nat (16 - Z.of_nat q)) with (16 - q)%nat by lia. rewrite Nat.min_l by lia. repeat case_decide; try lia.
    + rewrite <- (take_drop (16 - q) out) at 2. rewrite addr_bit_app, length_take, decide_True by lia. done.
    + f_equal. lia.
  - rewrite (Nat.mod_small (8 - r)) in Hi by lia. destruct (split_at out (15 - q)) as (A & o & C & -> & HA); [lia|].
    rewrite length_app in Ho. cbn [length] in Ho. destruct iid as [|v I]; [simpl in Hi; lia|]. cbn [length] in Hi.
    rewrite (aget_app A C), result_bind_Ok, aset_app, result_bind_Ok by lia. rewrite (aget_app A C), result_bind_Ok by lia.
    change (aget (v :: I) 0) with (Ok v). rewrite result_bind_Ok, aset_app, result_bind_Ok by lia.
    rewrite memcpy_Ok by (rewrite ?length_app; cbn [length]; lia). eexists. split; [reflexivity|].
    change (Z.to_nat 1) with 1%nat. cbn [drop]. rewrite Nat2Z.id, (take_ge I) by lia. rewrite (drop_ge (A ++ _)) by (rewrite length_app; cbn [length]; lia).
    rewrite app_nil_r, cons_middle, app_assoc. rewrite (take_app_length' (A ++ [_])) by (rewrite length_app; cbn [length]; lia).
    rewrite <- app_assoc. cbn [app]. rewrite length_app. cbn [length]. split; [lia|]. intros k Hk.
    rewrite !addr_bit_app, HA, !addr_bit_cons. repeat case_decide; try lia; try done.
    + rewrite mixed_bit, (proj2 (Z.leb_le _ _)) by lia. done.
    + rewrite mixed_bit, (proj2 (Z.leb_gt _ _)) by lia. f_equal. lia.
    + f_equal. lia.
Qed.

(** ** Well-known addresses *)

(** What each setter writes has the property that the test of the same name checks. *)
Lemma set_then_test addr other : length addr = 16%nat → length other = 16%nat →
  (∃ a, ipv6_addr_set_unspecified addr = Ok a ∧ ipv6_addr_is_unspecified a = true ∧ ipv6_addr_is_global a = Ok false) ∧
  (∃ a, ipv6_addr_set_loopback addr = Ok a ∧ ipv6_addr_is_loopback a = true ∧ ipv6_addr_is_global a = Ok false) ∧
  (∃ a, ipv6_addr_set_link_local_prefix addr = Ok a ∧ ipv6_addr_is_link_local a = Ok true ∧ ipv6_addr_is_global a = Ok false ∧
    drop 8 a = drop 8 addr) ∧
  (∃ a, ipv6_addr_set_solicited_nodes addr other = Ok a ∧ ipv6_addr_is_solicited_node a = true ∧ ipv6_addr_is_multicast a = Ok true ∧
    ipv6_addr_is_link_local a = Ok true ∧ drop 13 a = drop 13 other).
Proof.
  intros Ha Ho. do 16 (destruct addr as [|? addr]; [done|]). destruct addr; [|done].
  do 16 (destruct other as [|? other]; [done|]). destruct other; [|done].
  split; [|split; [|split]]; eexists; repeat split; reflexivity.
Qed.

(** A multicast address has the scope it was given. *)
Lemma set_multicast_scope addr flags scope : length addr = 16%nat → 0 <= scope < 16 → ∃ a, ipv6_addr_set_multicast addr flags scope = Ok a ∧
  ipv6_addr_is_multicast a = Ok true ∧ has_scope a scope = Ok true.
Proof.
  intros Ha Hs. do 16 (destruct addr as [|? addr]; [done|]). destruct addr; [|done]. eexists. split; [reflexivity|]. split; [reflexivity|].
  match goal with |- has_scope (<[_ := ?b]> _) _ = _ => change (Ok (Z.land b 0x0f =? scope) = Ok true) end.
  f_equal. apply Z.eqb_eq. assert (∀ x, Z.land (u8 x) 15 = x mod 16) as Hlow.
  { intros x. change 15 with (Z.ones 4). rewrite Z.land_ones by lia. unfold u8. dlia. }
  rewrite !Hlow. rewrite (Z.mod_small scope) by lia. change 16 with (2 ^ 4). rewrite <- Z.land_ones, Z.land_lor_distr_l, !Z.land_ones by lia.
  rewrite Z.shiftl_mul_pow2, Z.mod_mul, Z.lor_0_l by lia. apply Z.mod_small. lia.
Qed.

(** C17: The prefixes of IPv6 addresses, for all bytes and all lengths, also those
    that are no multiple of eight and those beyond 128. [ipv6_addr_init_prefix]
    writes the first [bits] bits of [prefix] to [out] and no other bit;
    [ipv6_addr_match_prefix] then returns a length of at least [bits], at most 128,
    which is exact: the addresses agree on the bits before it and, when it is below
    128, differ in the bit at it. [ipv6_addr_init_iid] writes the bits of an
    interface identifier to the end of the address and no other bit. *)
Theorem ipv6_prefix_correct out prefix bits iid iid_bits :
  length out = 16%nat → length prefix = 16%nat → Forall is_byte out → Forall is_byte prefix → (bits <= 255)%nat →
  (iid_bits <= 128)%nat → (8 * length iid = iid_bits + (8 - iid_bits mod 8) mod 8)%nat →
  (∃ out' n, ipv6_addr_init_prefix out prefix (Z.of_nat bits) = Ok out' ∧ length out' = 16%nat ∧
    (∀ k, (k < 128)%nat → addr_bit out' k = if decide (k < bits)%nat then addr_bit prefix k else addr_bit out k) ∧
    ipv6_addr_match_prefix (Some out') (Some prefix) false = Ok (Z.of_nat n) ∧ (bits `min` 128 <= n <= 128)%nat ∧
    (∀ k, (k < n)%nat → addr_bit out' k = addr_bit prefix k) ∧ ((n < 128)%nat → addr_bit out' n ≠ addr_bit prefix n)) ∧
  (∃ out', ipv6_addr_init_iid out iid (Z.of_nat iid_bits) = Ok out' ∧ length out' = 16%nat ∧
    ∀ k, (k < 128)%nat →
      addr_bit out' k = if decide (k < 128 - iid_bits)%nat then addr_bit out k else addr_bit iid (k + 8 * length iid - 128)).
Proof.
  intros Ho Hp HBo HBp Hb Hib Hi. split; [|by apply init_iid_bits].
  destruct (init_prefix_bits out prefix bits Ho Hp Hb) as (out' & E & Hl & HB & Hbits). specialize (HB HBo HBp).
  destruct (match_bytes_spec out' prefix [] ltac:(lia) HB HBp) as (n & Em & Hn & He & Hd); [simpl; lia|]. rewrite Hl in Em, Hn, Hd.
  exists out', n. split; [done|]. split; [done|]. split; [done|]. split; [exact Em|]. split; [|split; [done|intros; apply Hd; lia]].
  split; [|lia]. destruct (decide (bits `min` 128 <= n)%nat); [done|]. exfalso. apply Hd; [lia|]. rewrite Hbits, decide_True by lia. done.
Qed.

Lemma ipv6_prefix_correct_witness :
  let out := replicate 16 0xaa in let prefix := replicate 16 0x55 in
  (∃ out' n, ipv6_addr_init_prefix out prefix (Z.of_nat 61) = Ok out' ∧ length out' = 16%nat ∧
    (∀ k, (k < 128)%nat → addr_bit out' k = if decide (k < 61)%nat then addr_bit prefix k else addr_bit out k) ∧
    ipv6_addr_match_prefix (Some out') (Some prefix) false = Ok (Z.of_nat n) ∧ (61 `min` 128 <= n <= 128)%nat ∧
    (∀ k, (k < n)%nat → addr_bit out' k = addr_bit prefix k) ∧ ((n < 128)%nat → addr_bit out' n ≠ addr_bit prefix n)) ∧
  (∃ out', ipv6_addr_init_iid out [0xff; 0x11] (Z.of_nat 12) = Ok out' ∧ length out' = 16%nat ∧
    ∀ k, (k < 128)%nat → addr_bit out' k = if decide (k < 128 - 12)%nat then addr_bit out k else addr_bit [0xff; 0x11] (k + 8 * 2 - 128)).
Proof.
  intros out prefix. apply (ipv6_prefix_correct out prefix 61 [0xff; 0x11] 12); try done; try lia; unfold out, prefix; repeat constructor; unfold is_byte; lia.
Defined.
