(* ===== verification/Ieee802154.v ===== *)
(** * sys/net/link_layer/ieee802154: MAC headers

    ieee802154.c and the functions of net/ieee802154.h, and the round trip of
    headers. A buffer is the list of its bytes, a pointer that may be [NULL] an
    option. *)

From S2P Require Import Prelude Words UniversalAddress.
Open Scope Z_scope.

(** ** Constants *)

Definition EINVAL : Z := 22.

Definition IEEE802154_MAX_HDR_LEN : Z := 23.
Definition IEEE802154_FCF_TYPE_MASK : Z := 0x07.
Definition IEEE802154_FCF_TYPE_BEACON : Z := 0x00.
Definition IEEE802154_FCF_TYPE_DATA : Z := 0x01.
Definition IEEE802154_FCF_TYPE_ACK : Z := 0x02.
Definition IEEE802154_FCF_ACK_REQ : Z := 0x20.
Definition IEEE802154_FCF_PAN_COMP : Z := 0x40.
Definition IEEE802154_FCF_DST_ADDR_MASK : Z := 0x0c.
Definition IEEE802154_FCF_DST_ADDR_VOID : Z := 0x00.
Definition IEEE802154_FCF_DST_ADDR_SHORT : Z := 0x08.
Definition IEEE802154_FCF_DST_ADDR_LONG : Z := 0x0c.
Definition IEEE802154_FCF_VERS_V1 : Z := 0x10.
Definition IEEE802154_FCF_SRC_ADDR_MASK : Z := 0xc0.
Definition IEEE802154_FCF_SRC_ADDR_VOID : Z := 0x00.
Definition IEEE802154_FCF_SRC_ADDR_SHORT : Z := 0x80.
Definition IEEE802154_FCF_SRC_ADDR_LONG : Z := 0xc0.

Definition ieee802154_addr_bcast : list Z := [0xff; 0xff].

(** A 16-bit integer in little endian: the bytes [u8[0]] and [u8[1]]. *)
Definition le_uint16_t : Type := Z * Z.
Definition le_u16 (v : le_uint16_t) : Z := v.1 + 256 * v.2.

(** ** Writing a header *)

(** The buffer and [pos]. *)
Definition cursor : Type := list Z * Z.

(** [buf[pos++] = v]. *)
Definition append (v : Z) (c : cursor) : result cursor :=
  let '(buf, pos) := c in buf ← aset buf pos v; Ok (buf, pos + 1).

(** [buf[i] = f(buf[i])]. *)
Definition update (i : Z) (f : Z → Z) (buf : list Z) : result (list Z) :=
  v ← aget buf i; aset buf i (f v).

(** [for (int i = n - 1; i >= 0; i--) buf[pos++] = a[i]]. *)
Fixpoint append_reversed (a : list Z) (n : nat) (c : cursor) : result cursor :=
  match n with
  | O => Ok c
  | S i => v ← aget a (Z.of_nat i); c ← append v c; append_reversed a i c
  end.

(** The destination's PAN and address; [false] stands for [return 0]. *)
Definition fill_dst (dst : option (list Z)) (dst_len : Z) (dst_pan : le_uint16_t) (c : cursor) : result (bool * cursor) :=
  '(buf, pos) ←
    (if negb (dst_len =? 0) then c ← append dst_pan.1 c; append dst_pan.2 c else Ok c);
  if dst_len =? 0 then
    buf ← update 1 (λ b, Z.lor b IEEE802154_FCF_DST_ADDR_VOID) buf;
    Ok (true, (buf, pos))
  else if dst_len =? 2 then
    d ← from_option_or NullDeref dst;
    bcast ← memcmp d ieee802154_addr_bcast 2;
    buf ← (if bcast : bool then update 0 (λ b, u8 (Z.land b (Z.lnot IEEE802154_FCF_ACK_REQ))) buf else Ok buf);
    buf ← update 1 (λ b, Z.lor b IEEE802154_FCF_DST_ADDR_SHORT) buf;
    d1 ← aget d 1; c ← append d1 (buf, pos);
    d0 ← aget d 0; c ← append d0 c;
    Ok (true, c)
  else if dst_len =? 8 then
    d ← from_option_or NullDeref dst;
    buf ← update 1 (λ b, Z.lor b IEEE802154_FCF_DST_ADDR_LONG) buf;
    c ← append_reversed d 8 (buf, pos);
    Ok (true, c)
  else Ok (false, (buf, pos)).

(** The source's PAN, if it is not compressed, and address. *)
Definition fill_src (src : option (list Z)) (src_len dst_len : Z) (src_pan dst_pan : le_uint16_t) (c : cursor) : result (bool * cursor) :=
  '(buf, pos) ←
    (if negb (src_len =? 0) then
       if negb (dst_len =? 0) && (le_u16 src_pan =? le_u16 dst_pan) then
         buf ← update 0 (λ b, Z.lor b IEEE802154_FCF_PAN_COMP) c.1; Ok (buf, c.2)
       else c ← append src_pan.1 c; append src_pan.2 c
     else Ok c);
  if src_len =? 0 then
    buf ← update 1 (λ b, Z.lor b IEEE802154_FCF_SRC_ADDR_VOID) buf;
    Ok (true, (buf, pos))
  else if src_len =? 2 then
    s ← from_option_or NullDeref src;
    buf ← update 1 (λ b, Z.lor b IEEE802154_FCF_SRC_ADDR_SHORT) buf;
    s1 ← aget s 1; c ← append s1 (buf, pos);
    s0 ← aget s 0; c ← append s0 c;
    Ok (true, c)
  else if src_len =? 8 then
    s ← from_option_or NullDeref src;
    buf ← update 1 (λ b, Z.lor b IEEE802154_FCF_SRC_ADDR_LONG) buf;
    c ← append_reversed s 8 (buf, pos);
    Ok (true, c)
  else Ok (false, (buf, pos)).

Definition is_null {A} (p : option A) : bool := if p then false else true.

(** The size of the header, 0 for an error, and the buffer. *)
Definition ieee802154_set_frame_hdr (buf : list Z) (src : option (list Z)) (src_len : Z) (dst : option (list Z)) (dst_len : Z)
    (src_pan dst_pan : le_uint16_t) (flags seq : Z) : result (Z * list Z) :=
  let pos := 3 in
  let type := Z.land flags IEEE802154_FCF_TYPE_MASK in
  buf ← aset buf 0 flags;
  buf ← aset buf 1 IEEE802154_FCF_VERS_V1;
  if (negb (src_len =? 0) && is_null src) || (negb (dst_len =? 0) && is_null dst) then Ok (0, buf)
  else if negb (type =? IEEE802154_FCF_TYPE_BEACON) && negb (type =? IEEE802154_FCF_TYPE_ACK) &&
          (src_len =? 0) && (dst_len =? 0) then Ok (0, buf)
  else
    buf ← aset buf 2 seq;
    '(ok, c) ← fill_dst dst dst_len dst_pan (buf, pos);
    if negb ok then Ok (0, c.1)
    else
      '(ok, c) ← fill_src src src_len dst_len src_pan dst_pan c;
      if negb ok then Ok (0, c.1) else Ok (c.2, c.1).

(** ** Reading a header *)

Definition ieee802154_get_frame_hdr_len (mhr : list Z) : result Z :=
  let len := 3 in
  m0 ← aget mhr 0; m1 ← aget mhr 1;
  let comp := negb (Z.land m0 IEEE802154_FCF_PAN_COMP =? 0) in
  let tmp := Z.land m1 IEEE802154_FCF_DST_ADDR_MASK in
  let len :=
    if tmp =? IEEE802154_FCF_DST_ADDR_SHORT then Some (len + 4)
    else if tmp =? IEEE802154_FCF_DST_ADDR_LONG then Some (len + 10)
    else if negb (tmp =? IEEE802154_FCF_DST_ADDR_VOID) then None
    else if comp then None
    else Some len in
  match len with
  | None => Ok 0
  | Some len =>
      let tmp := Z.land m1 IEEE802154_FCF_SRC_ADDR_MASK in
      if tmp =? IEEE802154_FCF_SRC_ADDR_VOID then Ok len
      else
        let len := if negb comp then len + 2 else len in
        if tmp =? IEEE802154_FCF_SRC_ADDR_SHORT then Ok (len + 2)
        else if tmp =? IEEE802154_FCF_SRC_ADDR_LONG then Ok (len + 8)
        else Ok 0
  end.

(** [for (int i = n - 1; i >= 0; i--) a[i] = mhr[offset++]]. *)
Fixpoint read_reversed (mhr : list Z) (offset : Z) (n : nat) (a : list Z) : result (list Z) :=
  match n with
  | O => Ok a
  | S i => v ← aget mhr offset; a ← aset a (Z.of_nat i) v; read_reversed mhr (offset + 1) i a
  end.

Definition read_pan (mhr : list Z) (offset : Z) : result le_uint16_t :=
  a ← aget mhr offset; b ← aget mhr (offset + 1); Ok (a, b).

(** What the function returns, and the two objects it writes. *)
Definition ieee802154_get_src (mhr : list Z) (src : option (list Z)) (src_pan : option le_uint16_t) : result (Z * list Z * le_uint16_t) :=
  match src, src_pan with
  | Some src, Some src_pan =>
      let offset := 3 in
      m0 ← aget mhr 0; m1 ← aget mhr 1;
      let comp := negb (Z.land m0 IEEE802154_FCF_PAN_COMP =? 0) in
      let tmp := Z.land m1 IEEE802154_FCF_DST_ADDR_MASK in
      r ← (if tmp =? IEEE802154_FCF_DST_ADDR_SHORT then
             src_pan ← (if comp then read_pan mhr offset else Ok src_pan);
             Ok (Some (offset + 4, src_pan))
           else if tmp =? IEEE802154_FCF_DST_ADDR_LONG then
             src_pan ← (if comp then read_pan mhr offset else Ok src_pan);
             Ok (Some (offset + 10, src_pan))
           else if negb (tmp =? IEEE802154_FCF_DST_ADDR_VOID) then Ok None
           else if comp then Ok None
           else Ok (Some (offset, src_pan)));
      match r with
      | None => Ok (- EINVAL, src, src_pan)
      | Some (offset, src_pan) =>
          let tmp := Z.land m1 IEEE802154_FCF_SRC_ADDR_MASK in
          '(offset, src_pan) ←
            (if negb (tmp =? IEEE802154_FCF_SRC_ADDR_VOID) && negb comp
             then src_pan ← read_pan mhr offset; Ok (offset + 2, src_pan)
             else Ok (offset, src_pan));
          if tmp =? IEEE802154_FCF_SRC_ADDR_SHORT then
            v ← aget mhr offset; src ← aset src 1 v;
            v ← aget mhr (offset + 1); src ← aset src 0 v;
            Ok (2, src, src_pan)
          else if tmp =? IEEE802154_FCF_SRC_ADDR_LONG then
            src ← read_reversed mhr offset 8 src;
            Ok (8, src, src_pan)
          else if negb (tmp =? IEEE802154_FCF_SRC_ADDR_VOID) then Ok (- EINVAL, src, src_pan)
          else Ok (0, src, src_pan)
      end
  | _, _ => Fault AssertFailed
  end.

Definition ieee802154_get_dst (mhr : list Z) (dst : option (list Z)) (dst_pan : option le_uint16_t) : result (Z * list Z * le_uint16_t) :=
  match dst, dst_pan with
  | Some dst, Some dst_pan =>
      let offset := 3 in
      m1 ← aget mhr 1;
      let tmp := Z.land m1 IEEE802154_FCF_DST_ADDR_MASK in
      if tmp =? IEEE802154_FCF_DST_ADDR_SHORT then
        dst_pan ← read_pan mhr offset;
        v ← aget mhr (offset + 2); dst ← aset dst 1 v;
        v ← aget mhr (offset + 3); dst ← aset dst 0 v;
        Ok (2, dst, dst_pan)
      else if tmp =? IEEE802154_FCF_DST_ADDR_LONG then
        dst_pan ← read_pan mhr offset;
        dst ← read_reversed mhr (offset + 2) 8 dst;
        Ok (8, dst, dst_pan)
      else if negb (tmp =? IEEE802154_FCF_DST_ADDR_VOID) then Ok (- EINVAL, dst, dst_pan)
      else
        m0 ← aget mhr 0;
        if negb (Z.land m0 IEEE802154_FCF_PAN_COMP =? 0) then Ok (- EINVAL, dst, dst_pan)
        else Ok (0, dst, dst_pan)
  | _, _ => Fault AssertFailed
  end.

Definition ieee802154_get_seq (mhr : list Z) : result Z := aget mhr 2.

(** ** Interface identifiers *)

(** Whether the result is not [NULL], and the identifier. *)
Definition ieee802154_get_iid (eui64 addr : list Z) (addr_len : Z) : result (bool * list Z) :=
  eui64 ← aset eui64 1 0;
  eui64 ← aset eui64 0 0;
  let tail i eui64 :=
    eui64 ← aset eui64 2 0; eui64 ← aset eui64 3 0xff;
    eui64 ← aset eui64 4 0xfe; eui64 ← aset eui64 5 0;
    v ← aget addr i; eui64 ← aset eui64 6 v;
    v ← aget addr (i + 1); eui64 ← aset eui64 7 v;
    Ok (true, eui64) in
  let first eui64 := v ← aget addr 0; eui64 ← aset eui64 0 (Z.lxor v 0x02); v ← aget addr 1; aset eui64 1 v in
  if addr_len =? 8 then
    eui64 ← first eui64;
    v ← aget addr 2; eui64 ← aset eui64 2 v; v ← aget addr 3; eui64 ← aset eui64 3 v;
    v ← aget addr 4; eui64 ← aset eui64 4 v; v ← aget addr 5; eui64 ← aset eui64 5 v;
    v ← aget addr 6; eui64 ← aset eui64 6 v; v ← aget addr 7; eui64 ← aset eui64 7 v;
    Ok (true, eui64)
  else if addr_len =? 4 then eui64 ← first eui64; tail 2 eui64
  else if addr_len =? 2 then tail 0 eui64
  else Ok (false, eui64).

(** ** The format of a header

    Addresses are in network order in memory and little-endian in the header. *)

(** The pointer [p] refers to the [n] bytes [a]; it may be [NULL] when there are
    none. *)
Definition points_to (p : option (list Z)) (n : Z) (a : list Z) : Prop :=
  n = Z.of_nat (length a) ∧ (a = [] ∨ ∃ rest, p = Some (a ++ rest)).

Definition addr_size (a : list Z) : Prop := length a = 0%nat ∨ length a = 2%nat ∨ length a = 8%nat.
Definition is_pan (p : le_uint16_t) : Prop := 0 <= p.1 < 256 ∧ 0 <= p.2 < 256.

(** The arguments a header can be written for. *)
Definition legal (flags : Z) (s d : list Z) : Prop :=
  addr_size s ∧ addr_size d ∧
  (Z.land flags 7 = IEEE802154_FCF_TYPE_BEACON ∨ Z.land flags 7 = IEEE802154_FCF_TYPE_ACK ∨ s ≠ [] ∨ d ≠ []).

Global Instance addr_size_dec a : Decision (addr_size a).
Proof. unfold addr_size. apply _. Defined.

Global Instance legal_dec flags s d : Decision (legal flags s d).
Proof. unfold legal. apply _. Defined.

Definition compressed (s d : list Z) (sp dp : le_uint16_t) : bool := bool_decide (s ≠ [] ∧ d ≠ [] ∧ sp = dp).

(** The address mode, as a number of two bits. *)
Definition mode (a : list Z) : Z := match length a with O => 0 | 2%nat => 2 | _ => 3 end.

Definition fcf0 (flags : Z) (s d : list Z) (sp dp : le_uint16_t) : Z :=
  let f := if decide (d = ieee802154_addr_bcast) then Z.ldiff flags IEEE802154_FCF_ACK_REQ else flags in
  if compressed s d sp dp then Z.lor f IEEE802154_FCF_PAN_COMP else f.

Definition pan_bytes (p : le_uint16_t) : list Z := [p.1; p.2].

Definition dst_field (d : list Z) (dp : le_uint16_t) : list Z :=
  match d with [] => [] | _ => pan_bytes dp ++ reverse d end.

Definition src_field (s d : list Z) (sp dp : le_uint16_t) : list Z :=
  match s with [] => [] | _ => (if compressed s d sp dp then [] else pan_bytes sp) ++ reverse s end.

Definition frame_hdr (flags seq : Z) (s d : list Z) (sp dp : le_uint16_t) : list Z :=
  [fcf0 flags s d sp dp; 16 + 4 * mode d + 64 * mode s; seq] ++ dst_field d dp ++ src_field s d sp dp.

(** ** Writing *)

Arguments append : simpl never.
Arguments append_reversed : simpl never.
Arguments update : simpl never.

Lemma update_0 f b l : update 0 f (b :: l) = Ok (f b :: l).
Proof. unfold update. simpl aget. simpl. by rewrite aset_Ok by (simpl; lia). Qed.

Lemma update_1 f a b l : update 1 f (a :: b :: l) = Ok (a :: f b :: l).
Proof. unfold update. simpl aget. simpl. by rewrite aset_Ok by (simpl; lia). Qed.

(** Reduces the monad and nothing else. *)
Ltac run := cbn [mbind result_bind fst snd negb andb from_option_or].

(** The bytes [w] have been written behind the first two, [r] has not. *)
Lemma append_Ok f0 f1 w r v :
  (1 <= length r)%nat →
  append v (f0 :: f1 :: w ++ r, 2 + Z.of_nat (length w)) =
    Ok (f0 :: f1 :: (w ++ [v]) ++ drop 1 r, 2 + Z.of_nat (length (w ++ [v]))).
Proof.
  destruct r as [|x r]; simpl; [lia|]. intros _. unfold append.
  change (f0 :: f1 :: w ++ x :: r) with ((f0 :: f1 :: w) ++ x :: r).
  rewrite aset_app by (simpl; lia).
  simpl. rewrite <- app_assoc, length_app. simpl. do 2 f_equal. lia.
Qed.

Lemma append_reversed_S a i c :
  append_reversed a (S i) c = (v ← aget a (Z.of_nat i); c ← append v c; append_reversed a i c).
Proof. done. Qed.

Lemma append_reversed_Ok f0 f1 a rest w r :
  (length a <= length r)%nat →
  append_reversed (a ++ rest) (length a) (f0 :: f1 :: w ++ r, 2 + Z.of_nat (length w)) =
    Ok (f0 :: f1 :: (w ++ reverse a) ++ drop (length a) r, 2 + Z.of_nat (length (w ++ reverse a))).
Proof.
  revert rest w r. induction a as [|x a IH] using rev_ind; intros rest w r Hr.
  { by rewrite reverse_nil, app_nil_r. }
  rewrite length_app in *. simpl in *. rewrite Nat.add_1_r in *. rewrite <- (app_assoc a).
  change ([x] ++ rest) with (x :: rest).
  rewrite append_reversed_S, aget_app by done. run. rewrite append_Ok by lia. run.
  rewrite IH by (rewrite length_drop; lia).
  by rewrite reverse_snoc, drop_drop, <- (app_assoc w).
Qed.

(** Two bytes are written by hand instead of by the loop. *)
Lemma append_two x y rest f0 f1 w r :
  (2 <= length r)%nat →
  (a ← aget (x :: y :: rest) 1; c ← append a (f0 :: f1 :: w ++ r, 2 + Z.of_nat (length w));
   b ← aget (x :: y :: rest) 0; c ← append b c; Ok (true, c)) =
    Ok (true, (f0 :: f1 :: (w ++ [y; x]) ++ drop 2 r, 2 + Z.of_nat (length (w ++ [y; x])))).
Proof.
  intros Hr. change (aget (x :: y :: rest) 1) with (Ok y). run. rewrite append_Ok by lia. run.
  change (aget (x :: y :: rest) 0) with (Ok x). run. rewrite append_Ok by (rewrite length_drop; lia).
  by rewrite drop_drop, <- (app_assoc w).
Qed.

Lemma append_pan p f0 f1 w r :
  (2 <= length r)%nat →
  (c ← append p.1 (f0 :: f1 :: w ++ r, 2 + Z.of_nat (length w)); append p.2 c) =
    Ok (f0 :: f1 :: (w ++ pan_bytes p) ++ drop 2 r, 2 + Z.of_nat (length (w ++ pan_bytes p))).
Proof.
  intros Hr. rewrite append_Ok by lia. run. rewrite append_Ok by (rewrite length_drop; lia).
  by rewrite drop_drop, <- (app_assoc w).
Qed.

(** What the broadcast address does to the first byte. *)
Definition no_ack (d : list Z) (f : Z) : Z :=
  if decide (d = ieee802154_addr_bcast) then u8 (Z.land f (Z.lnot IEEE802154_FCF_ACK_REQ)) else f.

Lemma update_no_ack d f0 l :
  (if bool_decide (d = ieee802154_addr_bcast)
   then update 0 (λ b, u8 (Z.land b (Z.lnot IEEE802154_FCF_ACK_REQ))) (f0 :: l) else Ok (f0 :: l)) =
  Ok (no_ack d f0 :: l).
Proof. unfold no_ack. case_bool_decide; [rewrite update_0|]; by case_decide. Qed.

Lemma fill_dst_Ok dst d dp f0 sq r :
  points_to dst (Z.of_nat (length d)) d → addr_size d → (10 <= length r)%nat →
  fill_dst dst (Z.of_nat (length d)) dp (f0 :: 16 :: [sq] ++ r, 2 + Z.of_nat (length [sq])) =
    Ok (true, (no_ack d f0 :: 16 + 4 * mode d :: (sq :: dst_field d dp) ++ drop (length (dst_field d dp)) r,
               2 + Z.of_nat (length (sq :: dst_field d dp)))).
Proof.
  intros [_ Hp] Hd Hr. unfold fill_dst. destruct Hd as [Hd|Hd].
  { apply nil_length_inv in Hd as ->. change (Z.of_nat (length []) =? 0) with true. run. by rewrite update_1. }
  destruct Hp as [->|[rest ->]]; [simpl in Hd; lia|].
  assert ((Z.of_nat (length d) =? 0) = false) as -> by lia. run.
  rewrite append_pan by lia. run. destruct Hd as [Hd|Hd]; rewrite Hd.
  - destruct d as [|x [|y [|]]]; try discriminate. change (Z.of_nat 2 =? 2) with true. cbv iota.
    run. change ([x; y] ++ rest) with (x :: y :: rest).
    assert (memcmp (x :: y :: rest) ieee802154_addr_bcast 2 = Ok (bool_decide ([x; y] = ieee802154_addr_bcast))) as ->.
    { unfold memcmp. case_match; [done|]. simpl in *. lia. }
    run.
    rewrite update_no_ack. run. rewrite update_1. run. rewrite append_two by (rewrite length_drop; lia).
    by rewrite drop_drop, <- (app_assoc [sq]).
  - change (Z.of_nat 8 =? 2) with false. change (Z.of_nat 8 =? 8) with true. cbv iota. run.
    rewrite update_1. run. rewrite <- Hd at 1.
    rewrite append_reversed_Ok by (rewrite length_drop; lia). run.
    assert (d ≠ ieee802154_addr_bcast) by (by intros ->). unfold no_ack, mode. rewrite decide_False, Hd by done.
    assert (dst_field d dp = pan_bytes dp ++ reverse d) as -> by (by destruct d).
    by rewrite drop_drop, <- (app_assoc [sq]), (length_app (pan_bytes dp)), length_reverse, Hd.
Qed.

Lemma le_u16_inj p q : is_pan p → is_pan q → (le_u16 p =? le_u16 q) = bool_decide (p = q).
Proof.
  destruct p as [a b], q as [a' b']. unfold is_pan, le_u16. simpl. intros Hp Hq.
  case_bool_decide as E; [injection E as -> ->; lia|].
  apply Z.eqb_neq. intros ?. apply E. f_equal; lia.
Qed.

Definition pan_comp (s d : list Z) (sp dp : le_uint16_t) (f : Z) : Z :=
  if compressed s d sp dp then Z.lor f IEEE802154_FCF_PAN_COMP else f.

(** The PAN of the source is written or, if it is the destination's, marked. *)
Lemma src_pan_Ok s (d : list Z) sp dp f0 f1 w r :
  is_pan sp → is_pan dp → s ≠ [] → (2 <= length r)%nat →
  (if negb (Z.of_nat (length d) =? 0) && (le_u16 sp =? le_u16 dp) then
     buf ← update 0 (λ b, Z.lor b IEEE802154_FCF_PAN_COMP) (f0 :: f1 :: w ++ r);
     Ok (buf, 2 + Z.of_nat (length w))
   else c ← append sp.1 (f0 :: f1 :: w ++ r, 2 + Z.of_nat (length w)); append sp.2 c) =
  let v := if compressed s d sp dp then [] else pan_bytes sp in
  Ok (pan_comp s d sp dp f0 :: f1 :: (w ++ v) ++ drop (length v) r, 2 + Z.of_nat (length (w ++ v))).
Proof.
  intros Hs Hd Hn Hr. rewrite le_u16_inj by done. unfold pan_comp.
  assert (negb (Z.of_nat (length d) =? 0) && bool_decide (sp = dp) = compressed s d sp dp) as ->.
  { unfold compressed. destruct d; simpl.
    - symmetry. apply bool_decide_eq_false. naive_solver.
    - apply bool_decide_ext. naive_solver. }
  destruct (compressed s d sp dp).
  - rewrite update_0. simpl. by rewrite app_nil_r.
  - by rewrite append_pan.
Qed.

Lemma fill_src_Ok src s d sp dp f0 f1 w r :
  points_to src (Z.of_nat (length s)) s → addr_size s → is_pan sp → is_pan dp → (10 <= length r)%nat →
  fill_src src (Z.of_nat (length s)) (Z.of_nat (length d)) sp dp (f0 :: f1 :: w ++ r, 2 + Z.of_nat (length w)) =
    let v := src_field s d sp dp in
    Ok (true, (pan_comp s d sp dp f0 :: Z.lor f1 (64 * mode s) :: (w ++ v) ++ drop (length v) r,
               2 + Z.of_nat (length (w ++ v)))).
Proof.
  intros [_ Hp] Hs Hsp Hdp Hr. unfold fill_src. destruct Hs as [Hs|Hs].
  { apply nil_length_inv in Hs as ->. change (Z.of_nat (length []) =? 0) with true. run. rewrite update_1.
    by rewrite app_nil_r. }
  destruct Hp as [->|[rest ->]]; [simpl in Hs; lia|].
  assert ((Z.of_nat (length s) =? 0) = false) as -> by lia. run.
  assert (s ≠ []) by (intros ->; simpl in Hs; lia).
  rewrite (src_pan_Ok s) by (done || lia). cbv zeta.
  assert (src_field s d sp dp = (if compressed s d sp dp then [] else pan_bytes sp) ++ reverse s) as ->
    by (by destruct s).
  set (v := if compressed s d sp dp then [] else pan_bytes sp).
  assert (length v <= 2)%nat by (subst v; destruct (compressed _ _ _ _); simpl; lia).
  run. destruct Hs as [Hs|Hs]; unfold mode; rewrite Hs.
  - destruct s as [|x [|y [|]]]; try discriminate. change (Z.of_nat 2 =? 2) with true. cbv iota.
    run. change ([x; y] ++ rest) with (x :: y :: rest).
    rewrite update_1. run. rewrite append_two by (rewrite length_drop; lia).
    rewrite drop_drop, <- (app_assoc w), (length_app v). done.
  - change (Z.of_nat 8 =? 2) with false. change (Z.of_nat 8 =? 8) with true. cbv iota. run.
    rewrite update_1. run. rewrite <- Hs at 1.
    rewrite append_reversed_Ok by (rewrite length_drop; lia). run.
    by rewrite drop_drop, <- (app_assoc w), (length_app v), length_reverse.
Qed.

Lemma mode_cases a : mode a = 0 ∨ mode a = 2 ∨ mode a = 3.
Proof. unfold mode. repeat case_match; auto. Qed.

Lemma no_ack_ldiff d f :
  0 <= f < 256 → no_ack d f = if decide (d = ieee802154_addr_bcast) then Z.ldiff f IEEE802154_FCF_ACK_REQ else f.
Proof.
  intros Hf. unfold no_ack. case_decide; [|done]. rewrite <- Z.ldiff_land.
  unfold u8. apply Z.mod_small. rewrite Z.ldiff_land. by apply (land_bound 8).
Qed.

Lemma field_bounds s d sp dp :
  addr_size s → addr_size d → (length (dst_field d dp) <= 10 ∧ length (src_field s d sp dp) <= 10)%nat.
Proof.
  unfold addr_size, dst_field, src_field. intros Hs Hd.
  assert (length (if compressed s d sp dp then [] else pan_bytes sp) <= 2)%nat
    by (case_match; simpl; lia).
  split; [destruct d|destruct s]; try (simpl; lia); rewrite length_app, length_reverse; simpl in *; lia.
Qed.

(** The first writes, up to the checks. *)
Lemma aset_first (a b c : Z) l v i :
  0 <= i < 3 → aset (a :: b :: c :: l) i v =
    Ok (if i =? 0 then v :: b :: c :: l else if i =? 1 then a :: v :: c :: l else a :: b :: v :: l).
Proof.
  intros Hi. rewrite aset_Ok by (simpl; lia).
  assert (i = 0 ∨ i = 1 ∨ i = 2) as [->|[->| ->]] by lia; done.
Qed.

Lemma not_null p a : points_to p (Z.of_nat (length a)) a → negb (Z.of_nat (length a) =? 0) && is_null p = false.
Proof. intros [_ [->|[rest ->]]]; [done|]. simpl. lia. Qed.

(** The other lengths. *)
Lemma fill_dst_refuses dst (d : list Z) dp f0 sq r :
  ¬ addr_size d → (10 <= length r)%nat →
  ∃ c, fill_dst dst (Z.of_nat (length d)) dp (f0 :: 16 :: [sq] ++ r, 2 + Z.of_nat (length [sq])) = Ok (false, c).
Proof.
  unfold addr_size. intros Hd Hr. unfold fill_dst.
  assert ((Z.of_nat (length d) =? 0) = false) as -> by lia. run. rewrite append_pan by lia. run.
  assert ((Z.of_nat (length d) =? 2) = false) as -> by lia.
  assert ((Z.of_nat (length d) =? 8) = false) as -> by lia. eauto.
Qed.

Lemma fill_src_refuses src s (d : list Z) sp dp f0 f1 w r :
  ¬ addr_size s → is_pan sp → is_pan dp → (10 <= length r)%nat →
  ∃ c, fill_src src (Z.of_nat (length s)) (Z.of_nat (length d)) sp dp (f0 :: f1 :: w ++ r, 2 + Z.of_nat (length w)) =
       Ok (false, c).
Proof.
  unfold addr_size. intros Hs Hsp Hdp Hr. unfold fill_src.
  assert ((Z.of_nat (length s) =? 0) = false) as -> by lia. run.
  rewrite (src_pan_Ok s) by (done || lia || (intros ->; simpl in *; lia)). cbv zeta. run.
  assert ((Z.of_nat (length s) =? 2) = false) as -> by lia.
  assert ((Z.of_nat (length s) =? 8) = false) as -> by lia. eauto.
Qed.

Section SetFrameHdr.
Context (buf : list Z) (src dst : option (list Z)) (s d : list Z) (sp dp : le_uint16_t) (flags seq : Z).
Hypothesis Hbuf : (23 <= length buf)%nat.
Hypothesis Hsrc : points_to src (Z.of_nat (length s)) s.
Hypothesis Hdst : points_to dst (Z.of_nat (length d)) d.
Hypothesis Hsp : is_pan sp.
Hypothesis Hdp : is_pan dp.
Hypothesis Hflags : 0 <= flags < 256.

(** No addresses, and a type that needs them. *)
Definition needs_address : bool :=
  negb (Z.land flags 7 =? IEEE802154_FCF_TYPE_BEACON) && negb (Z.land flags 7 =? IEEE802154_FCF_TYPE_ACK) &&
  (Z.of_nat (length s) =? 0) && (Z.of_nat (length d) =? 0).

Lemma needs_address_spec : legal flags s d ↔ addr_size s ∧ addr_size d ∧ needs_address = false.
Proof.
  unfold legal, needs_address, IEEE802154_FCF_TYPE_BEACON, IEEE802154_FCF_TYPE_ACK.
  destruct s, d; simpl; naive_solver lia.
Qed.

(** The function behind its checks of pointers. *)
Lemma set_frame_hdr_unfold :
  ∃ b2, ieee802154_set_frame_hdr buf src (Z.of_nat (length s)) dst (Z.of_nat (length d)) sp dp flags seq =
    if needs_address then Ok (0, flags :: 16 :: b2 :: drop 3 buf)
    else
      '(ok, c) ← fill_dst dst (Z.of_nat (length d)) dp (flags :: 16 :: [seq] ++ drop 3 buf, 2 + Z.of_nat (length [seq]));
      if negb ok then Ok (0, c.1)
      else
        '(ok, c) ← fill_src src (Z.of_nat (length s)) (Z.of_nat (length d)) sp dp c;
        if negb ok then Ok (0, c.1) else Ok (c.2, c.1).
Proof.
  unfold ieee802154_set_frame_hdr.
  destruct buf as [|b0 [|b1 [|b2 r]]]; try (simpl in Hbuf; lia). exists b2.
  rewrite aset_first by lia. run. change (0 =? 0) with true. cbv iota.
  rewrite aset_first by lia. run. change (1 =? 0) with false. change (1 =? 1) with true. cbv iota.
  rewrite !not_null by done. cbn [orb].
  rewrite aset_first by lia. reflexivity.
Qed.

Lemma set_frame_hdr_Ok :
  legal flags s d →
  let hdr := frame_hdr flags seq s d sp dp in
  ieee802154_set_frame_hdr buf src (Z.of_nat (length s)) dst (Z.of_nat (length d)) sp dp flags seq =
    Ok (Z.of_nat (length hdr), hdr ++ drop (length hdr) buf).
Proof.
  rewrite needs_address_spec. intros (Hs & Hd & Hn). destruct set_frame_hdr_unfold as [b2 ->].
  rewrite Hn, fill_dst_Ok by (done || rewrite length_drop; lia). run.
  destruct (field_bounds s d sp dp Hs Hd).
  rewrite fill_src_Ok by (done || rewrite !length_drop; lia). cbv zeta. run.
  unfold frame_hdr, pan_comp. rewrite no_ack_ldiff by done.
  assert (Z.lor (16 + 4 * mode d) (64 * mode s) = 16 + 4 * mode d + 64 * mode s) as ->.
  { by destruct (mode_cases d) as [->|[->| ->]], (mode_cases s) as [->|[->| ->]]. }
  cbn [app length]. rewrite !drop_drop, length_app. f_equal. f_equal. lia.
Qed.

(** Every other call is refused. *)
Lemma set_frame_hdr_refuses :
  ¬ legal flags s d →
  ∃ buf', ieee802154_set_frame_hdr buf src (Z.of_nat (length s)) dst (Z.of_nat (length d)) sp dp flags seq = Ok (0, buf').
Proof.
  rewrite needs_address_spec. intros Hl. destruct set_frame_hdr_unfold as [b2 ->].
  destruct needs_address; [eauto|].
  destruct (decide (addr_size d)) as [Hd|Hd].
  - assert (¬ addr_size s) by naive_solver. destruct (field_bounds [] d sp dp) as [? _]; [by left|done|].
    rewrite fill_dst_Ok by (done || rewrite length_drop; lia). run.
    edestruct fill_src_refuses as [c ->]; [done..|rewrite !length_drop; lia|]. run. eauto.
  - edestruct fill_dst_refuses as [c ->]; [done|rewrite length_drop; lia|]. run. eauto.
Qed.
End SetFrameHdr.

(** ** Reading *)

Lemma read_reversed_S m off i o :
  read_reversed m off (S i) o = (v ← aget m off; o ← aset o (Z.of_nat i) v; read_reversed m (off + 1) i o).
Proof. done. Qed.

Lemma read_reversed_app pre a post o1 o2 :
  length o1 = length a →
  read_reversed (pre ++ reverse a ++ post) (Z.of_nat (length pre)) (length a) (o1 ++ o2) = Ok (a ++ o2).
Proof.
  revert pre post o1 o2. induction a as [|x a IH] using rev_ind; intros pre post o1 o2 Ho.
  { by apply nil_length_inv in Ho as ->. }
  rewrite length_app in *. simpl in Ho. rewrite Nat.add_1_r in Ho |- *.
  destruct o1 as [|y o1 _] using rev_ind; [done|]. rewrite length_app in Ho. simpl in Ho.
  rewrite read_reversed_S, reverse_snoc, <- !app_assoc. cbn [app].
  rewrite aget_app by done. run. rewrite aset_app by lia. run.
  rewrite cons_middle, app_assoc. replace (Z.of_nat (length pre) + 1) with (Z.of_nat (length (pre ++ [x])))
    by (rewrite length_app; simpl; lia).
  rewrite IH by lia. done.
Qed.

(** An address at a known place, into an object that is large enough. *)
Lemma read_reversed_Ok pre a post o off :
  off = Z.of_nat (length pre) → (length a <= length o)%nat →
  read_reversed (pre ++ reverse a ++ post) off (length a) o = Ok (a ++ drop (length a) o).
Proof.
  intros -> Ho. rewrite <- (take_drop (length a) o) at 1. apply read_reversed_app. rewrite length_take. lia.
Qed.

(** Two bytes are read by hand instead of by the loop. *)
Lemma read_two m off o (p : le_uint16_t) :
  (v ← aget m off; o ← aset o 1 v; v ← aget m (off + 1); o ← aset o 0 v; Ok (2, o, p)) =
  (o ← read_reversed m off 2 o; Ok (2, o, p)).
Proof.
  rewrite read_reversed_S. destruct (aget m off) as [v|]; [|done]. run. change (Z.of_nat 1) with 1.
  destruct (aset o 1 v) as [o1|]; [|done]. run. rewrite read_reversed_S.
  change (Z.of_nat 0) with 0. destruct (aget m (off + 1)) as [v1|]; [|done]. run. by destruct (aset o1 0 v1).
Qed.

Lemma read_pan_Ok pre p post off : off = Z.of_nat (length pre) → read_pan (pre ++ pan_bytes p ++ post) off = Ok p.
Proof.
  intros ->. unfold read_pan. change (pan_bytes p ++ post) with (p.1 :: p.2 :: post).
  rewrite (aget_app pre _ _ (Z.of_nat (length pre))) by done. run.
  rewrite cons_middle, app_assoc, aget_app by (rewrite length_app; simpl; lia). by destruct p.
Qed.

Lemma pan_comp_bit f : negb (Z.land f IEEE802154_FCF_PAN_COMP =? 0) = Z.testbit f 6.
Proof. by apply (land_pow2 f 6). Qed.

Lemma fcf0_comp flags s d sp dp :
  Z.testbit flags 6 = false → Z.testbit (fcf0 flags s d sp dp) 6 = compressed s d sp dp.
Proof.
  intros Hf. unfold fcf0.
  assert (Z.testbit (if decide (d = ieee802154_addr_bcast) then Z.ldiff flags IEEE802154_FCF_ACK_REQ else flags) 6 = false)
    by (case_decide; [by rewrite Z.ldiff_spec, Hf|done]).
  destruct (compressed s d sp dp); [|done]. rewrite Z.lor_spec. apply orb_true_r.
Qed.

Lemma mode_bits d s :
  Z.land (16 + 4 * mode d + 64 * mode s) IEEE802154_FCF_DST_ADDR_MASK = 4 * mode d ∧
  Z.land (16 + 4 * mode d + 64 * mode s) IEEE802154_FCF_SRC_ADDR_MASK = 64 * mode s.
Proof. by destruct (mode_cases d) as [->|[->| ->]], (mode_cases s) as [->|[->| ->]]. Qed.

Section Read.
Context (s d : list Z) (sp dp : le_uint16_t) (flags seq : Z) (tail : list Z).
Hypothesis Hs : addr_size s.
Hypothesis Hd : addr_size d.
Hypothesis Hf : Z.testbit flags 6 = false.
Let hdr := frame_hdr flags seq s d sp dp.

(** The checks of the readers, on a header. *)
Lemma hdr_first : aget (hdr ++ tail) 0 = Ok (fcf0 flags s d sp dp).
Proof. done. Qed.

Lemma hdr_second : aget (hdr ++ tail) 1 = Ok (16 + 4 * mode d + 64 * mode s).
Proof. done. Qed.

Lemma comp_nil : s = [] ∨ d = [] → compressed s d sp dp = false.
Proof. intros H. apply bool_decide_eq_false. naive_solver. Qed.

Lemma get_frame_hdr_len_Ok : ieee802154_get_frame_hdr_len (hdr ++ tail) = Ok (Z.of_nat (length hdr)).
Proof.
  unfold ieee802154_get_frame_hdr_len. rewrite hdr_first, hdr_second. run.
  destruct (mode_bits d s) as [-> ->]. rewrite pan_comp_bit, fcf0_comp by done.
  subst hdr. unfold frame_hdr, dst_field, src_field. pose proof comp_nil as Hc.
  unfold addr_size, mode in *.
  destruct Hd as [E|[E|E]], Hs as [E'|[E'|E']]; rewrite E, E';
    destruct d, s; try discriminate; rewrite ?Hc by auto; try (destruct (compressed _ _ _ _));
    cbn -[length reverse Z.of_nat Z.add];
    do 2 (cbn [length]; rewrite ?length_app, ?length_reverse, ?E, ?E'); done.
Qed.

(** The header, up to the fields it is cut at. *)
Lemma hdr_eq : hdr ++ tail = [fcf0 flags s d sp dp; 16 + 4 * mode d + 64 * mode s; seq] ++ dst_field d dp ++ src_field s d sp dp ++ tail.
Proof. subst hdr. unfold frame_hdr. by rewrite <- !app_assoc. Qed.

Lemma get_dst_Ok o p :
  (8 <= length o)%nat →
  ieee802154_get_dst (hdr ++ tail) (Some o) (Some p) =
    Ok (Z.of_nat (length d), d ++ drop (length d) o, if d is [] then p else dp).
Proof.
  intros Ho. unfold ieee802154_get_dst. rewrite hdr_first, hdr_second. run.
  destruct (mode_bits d s) as [-> _]. rewrite pan_comp_bit, fcf0_comp by done.
  destruct Hd as [E|E].
  { apply nil_length_inv in E. rewrite comp_nil, E by auto. done. }
  rewrite hdr_eq. change (3 + 2) with 5. change (3 + 3) with (5 + 1).
  assert (dst_field d dp = pan_bytes dp ++ reverse d) as -> by (destruct d; [naive_solver|done]).
  replace (if d is [] then p else dp) with dp by (destruct d; [naive_solver|done]).
  rewrite <- app_assoc, (read_pan_Ok [_; _; _]) by done. run. rewrite read_two, app_assoc.
  unfold mode. destruct E as [E|E]; rewrite E.
  - change (4 * 2 =? IEEE802154_FCF_DST_ADDR_SHORT) with true. cbv iota.
    rewrite <- E, read_reversed_Ok by (done || lia). run. by rewrite E.
  - change (4 * 3 =? IEEE802154_FCF_DST_ADDR_SHORT) with false.
    change (4 * 3 =? IEEE802154_FCF_DST_ADDR_LONG) with true. cbv iota.
    rewrite <- E, read_reversed_Ok by (done || lia). run. by rewrite E.
Qed.

(** [get_src] skips the destination, and reads its PAN if it is the source's. *)
Lemma skip_dst p :
  (if 4 * mode d =? IEEE802154_FCF_DST_ADDR_SHORT then
     p ← (if compressed s d sp dp then read_pan (hdr ++ tail) 3 else Ok p); Ok (Some (3 + 4, p))
   else if 4 * mode d =? IEEE802154_FCF_DST_ADDR_LONG then
     p ← (if compressed s d sp dp then read_pan (hdr ++ tail) 3 else Ok p); Ok (Some (3 + 10, p))
   else if negb (4 * mode d =? IEEE802154_FCF_DST_ADDR_VOID) then Ok None
   else if compressed s d sp dp then Ok None
   else Ok (Some (3, p))) =
  Ok (Some (Z.of_nat (3 + length (dst_field d dp)), if compressed s d sp dp then dp else p)).
Proof.
  destruct Hd as [E|E].
  { apply nil_length_inv in E. rewrite comp_nil, E by auto. done. }
  rewrite hdr_eq.
  assert (dst_field d dp = pan_bytes dp ++ reverse d) as -> by (destruct d; [naive_solver|done]).
  rewrite <- app_assoc, (read_pan_Ok [_; _; _]), length_app, length_reverse by done.
  unfold mode. destruct E as [E|E]; rewrite E; by destruct (compressed _ _ _ _).
Qed.

Lemma get_src_Ok o p :
  (8 <= length o)%nat →
  ieee802154_get_src (hdr ++ tail) (Some o) (Some p) =
    Ok (Z.of_nat (length s), s ++ drop (length s) o, if s is [] then p else sp).
Proof.
  intros Ho. unfold ieee802154_get_src. rewrite hdr_first, hdr_second. run.
  destruct (mode_bits d s) as [-> ->]. rewrite pan_comp_bit, fcf0_comp, skip_dst by done. run.
  destruct Hs as [E|E].
  { apply nil_length_inv in E. rewrite comp_nil, E by auto. done. }
  replace (if s is [] then p else sp) with sp by (destruct s; [naive_solver|done]).
  assert ((64 * mode s =? IEEE802154_FCF_SRC_ADDR_VOID) = false) as ->.
  { unfold mode. by destruct E as [-> | ->]. }
  set (pre := [fcf0 flags s d sp dp; 16 + 4 * mode d + 64 * mode s; seq] ++ dst_field d dp ++
              (if compressed s d sp dp then [] else pan_bytes sp)).
  assert (hdr ++ tail = pre ++ reverse s ++ tail) as Hhdr.
  { rewrite hdr_eq. subst pre.
    assert (src_field s d sp dp = (if compressed s d sp dp then [] else pan_bytes sp) ++ reverse s) as ->
      by (destruct s; [naive_solver|done]).
    by rewrite <- !app_assoc. }
  assert ((if negb false && negb (compressed s d sp dp)
           then src_pan ← read_pan (hdr ++ tail) (Z.of_nat (3 + length (dst_field d dp)));
                Ok (Z.of_nat (3 + length (dst_field d dp)) + 2, src_pan)
           else Ok (Z.of_nat (3 + length (dst_field d dp)), if compressed s d sp dp then dp else p)) =
          Ok (Z.of_nat (length pre), sp)) as ->.
  { rewrite Hhdr. subst pre. rewrite !length_app. destruct (compressed s d sp dp) eqn:Ec; simpl negb; cbn [andb].
    - apply bool_decide_eq_true in Ec as (_ & _ & ->). do 2 f_equal. simpl. lia.
    - rewrite <- !app_assoc, app_assoc, read_pan_Ok by (rewrite length_app; done).
      run. do 2 f_equal. simpl. lia. }
  run. rewrite read_two, Hhdr. unfold mode. destruct E as [E|E]; rewrite E.
  - change (64 * 2 =? IEEE802154_FCF_SRC_ADDR_SHORT) with true. cbv iota.
    rewrite <- E, read_reversed_Ok by (done || lia). run. by rewrite E.
  - change (64 * 3 =? IEEE802154_FCF_SRC_ADDR_SHORT) with false.
    change (64 * 3 =? IEEE802154_FCF_SRC_ADDR_LONG) with true. cbv iota.
    rewrite <- E, read_reversed_Ok by (done || lia). run. by rewrite E.
Qed.
End Read.

(** ** Theorems *)

Lemma fcf0_bits flags s d sp dp i :
  i ≠ 5 → i ≠ 6 → Z.testbit (fcf0 flags s d sp dp) i = Z.testbit flags i.
Proof.
  intros H5 H6. destruct (decide (i < 0)); [by rewrite !Z.testbit_neg_r|]. unfold fcf0.
  change IEEE802154_FCF_ACK_REQ with (2 ^ 5). change IEEE802154_FCF_PAN_COMP with (2 ^ 6).
  destruct (compressed s d sp dp), (decide (d = ieee802154_addr_bcast));
    rewrite ?Z.lor_spec, ?Z.ldiff_spec, ?(Z.pow2_bits_false 6), ?(Z.pow2_bits_false 5) by lia;
    by rewrite ?orb_false_r, ?andb_true_r.
Qed.

Lemma fcf0_ack flags s d sp dp :
  Z.testbit (fcf0 flags s d sp dp) 5 = Z.testbit flags 5 && bool_decide (d ≠ ieee802154_addr_bcast).
Proof.
  unfold fcf0. rewrite bool_decide_not.
  destruct (compressed s d sp dp); case_decide as E;
    rewrite ?Z.lor_spec, ?Z.ldiff_spec, ?(bool_decide_eq_true_2 _ E), ?(bool_decide_eq_false_2 _ E);
    simpl; by rewrite ?orb_false_r, ?andb_false_r, ?andb_true_r.
Qed.

(** A pointer that is [NULL] or refers to at least [n] bytes, and the bytes. *)
Definition readable (p : option (list Z)) (n : Z) : Prop :=
  0 <= n ∧ match p with Some a => n <= Z.of_nat (length a) | None => True end.
Definition pointee (p : option (list Z)) (n : Z) : list Z := match p with Some a => take (Z.to_nat n) a | None => [] end.

(** The arguments a header can be written for. *)
Definition legal_args (flags : Z) (src : option (list Z)) (src_len : Z) (dst : option (list Z)) (dst_len : Z) : Prop :=
  (src_len ≠ 0 → is_Some src) ∧ (dst_len ≠ 0 → is_Some dst) ∧
  (src_len = 0 ∨ src_len = 2 ∨ src_len = 8) ∧ (dst_len = 0 ∨ dst_len = 2 ∨ dst_len = 8) ∧
  (Z.land flags 7 = IEEE802154_FCF_TYPE_BEACON ∨ Z.land flags 7 = IEEE802154_FCF_TYPE_ACK ∨ src_len ≠ 0 ∨ dst_len ≠ 0).

(** A pointer without the [NULL] that the function refuses. *)
Lemma pointee_spec p n : readable p n → (n ≠ 0 → is_Some p) →
  n = Z.of_nat (length (pointee p n)) ∧ points_to p (Z.of_nat (length (pointee p n))) (pointee p n) ∧
  (pointee p n = [] ↔ n = 0) ∧ (addr_size (pointee p n) ↔ n = 0 ∨ n = 2 ∨ n = 8).
Proof.
  intros [Hn Hr] Hp. assert (n = Z.of_nat (length (pointee p n))) as E.
  { destruct p as [a|]; simpl; [rewrite length_take; lia|]. destruct (decide (n = 0)) as [->|H0]; [done|]. by destruct (Hp H0). }
  split; [done|]. split; [split; [done|]|].
  - destruct p as [a|]; [right|by left]. exists (drop (Z.to_nat n) a). simpl. by rewrite (take_drop (Z.to_nat n) a).
  - unfold addr_size. split; [|lia]. split; [intros H; rewrite H in E; done|]. intros ->. by apply nil_length_inv; lia.
Qed.

Lemma set_frame_hdr_null buf src src_len dst dst_len sp dp flags seq : (23 <= length buf)%nat →
  ¬ ((src_len ≠ 0 → is_Some src) ∧ (dst_len ≠ 0 → is_Some dst)) →
  ∃ buf', ieee802154_set_frame_hdr buf src src_len dst dst_len sp dp flags seq = Ok (0, buf').
Proof.
  intros Hbuf Hn. unfold ieee802154_set_frame_hdr.
  assert ((negb (src_len =? 0) && is_null src) || (negb (dst_len =? 0) && is_null dst) = true) as ->.
  2:{ rewrite aset_Ok by lia. cbn [mbind result_bind]. rewrite aset_Ok by (rewrite length_insert; lia). eexists. reflexivity. }
  destruct (Z.eqb_spec src_len 0), (Z.eqb_spec dst_len 0), src, dst; try done; exfalso; apply Hn; split; intros ?; done || by eexists.
Qed.

(** C19: The header of an IEEE 802.15.4 frame is written without a fault whatever
    the arguments, given room for the longest header and addresses that are [NULL]
    or readable, and refused with 0 exactly when an address with a length is
    [NULL], a length is not 0, 2 or 8, or a frame that is neither beacon nor
    acknowledgement has no address at all. A header that is written for flags that
    leave PAN compression to the function has at most 23 bytes, leaves the rest of
    the buffer alone, and is read back as it was written: its length, the sequence
    number, both addresses and PANs (also when the source's was left out), and all
    flags but two: PAN compression, and the request for an acknowledgement, which
    with a destination is kept unless that is the broadcast address. *)
Theorem ieee802154_hdr_roundtrip buf src src_len dst dst_len sp dp flags seq o p :
  (23 <= length buf)%nat → readable src src_len → readable dst dst_len →
  is_pan sp → is_pan dp → 0 <= flags < 256 → (8 <= length o)%nat →
  let s := pointee src src_len in
  let d := pointee dst dst_len in
  ∃ n buf',
    ieee802154_set_frame_hdr buf src src_len dst dst_len sp dp flags seq = Ok (n, buf') ∧
    (n = 0 ↔ ¬ legal_args flags src src_len dst dst_len) ∧
    (n ≠ 0 → Z.testbit flags 6 = false →
     n <= IEEE802154_MAX_HDR_LEN ∧ drop (Z.to_nat n) buf' = drop (Z.to_nat n) buf ∧
     ieee802154_get_frame_hdr_len buf' = Ok n ∧ ieee802154_get_seq buf' = Ok seq ∧
     ieee802154_get_dst buf' (Some o) (Some p) = Ok (dst_len, d ++ drop (length d) o, if d is [] then p else dp) ∧
     ieee802154_get_src buf' (Some o) (Some p) = Ok (src_len, s ++ drop (length s) o, if s is [] then p else sp) ∧
     ∃ b, aget buf' 0 = Ok b ∧ (∀ i, i ≠ 5 → i ≠ 6 → Z.testbit b i = Z.testbit flags i) ∧
       (d ≠ [] → Z.testbit b 5 = Z.testbit flags 5 && bool_decide (d ≠ ieee802154_addr_bcast))).
Proof.
  intros Hbuf Hsrc Hdst Hsp Hdp Hf Ho s d.
  destruct (decide ((src_len ≠ 0 → is_Some src) ∧ (dst_len ≠ 0 → is_Some dst))) as [[Hsn Hdn]|Hnull].
  2:{ destruct (set_frame_hdr_null buf src src_len dst dst_len sp dp flags seq Hbuf Hnull) as [buf' E].
      exists 0, buf'. split; [done|]. unfold legal_args. tauto. }
  destruct (pointee_spec src src_len Hsrc Hsn) as (Es & Hps & Hs0 & Hsz), (pointee_spec dst dst_len Hdst Hdn) as (Ed & Hpd & Hd0 & Hdz).
  fold s in Es, Hps, Hs0, Hsz. fold d in Ed, Hpd, Hd0, Hdz.
  assert (legal_args flags src src_len dst dst_len ↔ legal flags s d) as Hlegal.
  { unfold legal_args, legal. rewrite Hsz, Hdz, Hs0, Hd0. clear -Hsn Hdn.
    split; [by intros (_ & _ & ? & ? & ?)|]. by intros (? & ? & ?). }
  setoid_rewrite Hlegal. clear -Hbuf Hps Hpd Hsp Hdp Hf Ho Es Ed. clearbody s d. subst src_len dst_len.
  destruct (decide (legal flags s d)) as [Hl|Hl].
  - do 2 eexists. split; [by apply set_frame_hdr_Ok|]. destruct Hl as (Hs & Hd & Ht).
    split; [split; [unfold frame_hdr; rewrite length_app; simpl; lia|by intros []]|].
    intros _ H6. destruct (field_bounds s d sp dp Hs Hd).
    split; [unfold IEEE802154_MAX_HDR_LEN, frame_hdr; rewrite !length_app; simpl; lia|].
    rewrite Nat2Z.id, drop_app_length. repeat split; [by apply get_frame_hdr_len_Ok|by apply get_dst_Ok|by apply get_src_Ok|].
    eexists. split; [apply hdr_first|]. split; [by intros; apply fcf0_bits|intros _; apply fcf0_ack].
  - destruct (set_frame_hdr_refuses buf src dst s d sp dp flags seq) as [buf' E]; try done.
    exists 0, buf'. split; [done|]. naive_solver.
Qed.

Lemma ieee802154_hdr_roundtrip_witness :
  (∃ n buf',
    ieee802154_set_frame_hdr (replicate 30 0) (Some [0x12; 0x34]) 2 (Some [1; 2; 3; 4; 5; 6; 7; 8]) 8 (0x23, 0) (0x23, 0) 0x21 7 =
      Ok (n, buf') ∧
    ieee802154_get_src buf' (Some (replicate 8 0)) (Some (0, 0)) = Ok (2, [0x12; 0x34; 0; 0; 0; 0; 0; 0], (0x23, 0))) ∧
  (∃ buf', ieee802154_set_frame_hdr (replicate 30 0) None 2 (Some [1; 2]) 2 (0x23, 0) (0x23, 0) 0x21 7 = Ok (0, buf')).
Proof.
  split.
  - destruct (ieee802154_hdr_roundtrip (replicate 30 0) (Some [0x12; 0x34]) 2 (Some [1; 2; 3; 4; 5; 6; 7; 8]) 8
      (0x23, 0) (0x23, 0) 0x21 7 (replicate 8 0) (0, 0)) as (n & buf' & E & Hn & H).
    + simpl. lia.
    + split; simpl; lia.
    + split; simpl; lia.
    + split; simpl; lia.
    + split; simpl; lia.
    + lia.
    + simpl. lia.
    + exists n, buf'. split; [exact E|]. apply H; [|reflexivity].
      intros H0. apply Hn in H0. apply H0. split; [by eexists|]. split; [by eexists|]. split; [tauto|]. split; [tauto|]. lia.
  - destruct (ieee802154_hdr_roundtrip (replicate 30 0) None 2 (Some [1; 2]) 2
      (0x23, 0) (0x23, 0) 0x21 7 (replicate 8 0) (0, 0)) as (n & buf' & E & Hn & _); try (simpl; lia); try (split; simpl; lia).
    exists buf'. rewrite E. do 2 f_equal. apply Hn. intros [H _]. by destruct H.
Defined.

(** The interface identifier: the address with the universal bit inverted, or the
    short address in its standard frame. *)
Lemma get_iid_Ok e0 e1 e2 e3 e4 e5 e6 e7 addr :
  let run n := ieee802154_get_iid [e0; e1; e2; e3; e4; e5; e6; e7] addr n in
  match addr with
  | [a; b] => run 2 = Ok (true, [0; 0; 0; 0xff; 0xfe; 0; a; b])
  | [p; q; a; b] => run 4 = Ok (true, [Z.lxor p 2; q; 0; 0xff; 0xfe; 0; a; b])
  | [a; b; c; d; e; f; g; h] => run 8 = Ok (true, [Z.lxor a 2; b; c; d; e; f; g; h])
  | _ => True
  end.
Proof. simpl. repeat (case_match; try done). Qed.

(** *** Flags that ask for compression

    The function does not expect its caller to ask for compression: the PAN of
    the source is written and the flag that says it is not there stays set, so
    the header is read with the wrong length and source. *)
Example pan_comp_given_misread :
  let buf := ieee802154_set_frame_hdr (replicate 23 0) (Some [1; 2]) 2 (Some [3; 4]) 2 (5, 6) (7, 8) 0x41 0 in
  fst <$> (match buf with Ok x => Some x | _ => None end) = Some 11 ∧
  (match buf with Ok (_, b) => ieee802154_get_frame_hdr_len b | Fault e => Fault e end) = Ok 9 ∧
  (match buf with Ok (_, b) => ieee802154_get_src b (Some [0; 0]) (Some (0, 0)) | Fault e => Fault e end) =
    Ok (2, [6; 5], (7, 8)).
Proof. by vm_compute. Qed.

(** Without a destination the request for an acknowledgement is kept. *)
Example no_destination_keeps_ack :
  (match ieee802154_set_frame_hdr (replicate 23 0) (Some [1; 2]) 2 None 0 (5, 6) (7, 8) 0x21 0 with
   | Ok (_, b) => aget b 0 | Fault e => Fault e end) = Ok 0x21.
Proof. by vm_compute. Qed.
