(* ===== verification/Hamming.v ===== *)
(** * sys/ecc/hamming256: Hamming codes of blocks of 256 bytes

    All functions of hamming256.c, and the theorem that they correct one flipped
    bit per block and tell two flipped bits, and a damaged code, from it. Data and
    codes are memories, lists of bytes; a pointer is an offset. *)

From S2P Require Import Prelude Words Bitarithm.
Open Scope Z_scope.

(** ** The source *)

Definition Hamming_ERROR_NONE : Z := 0.
Definition Hamming_ERROR_SINGLEBIT : Z := 1.
Definition Hamming_ERROR_ECC : Z := 2.
Definition Hamming_ERROR_MULTIPLEBITS : Z := 3.

(** A code, [code[0]], [code[1]] and [code[2]]. *)
Definition code_t : Type := Z * Z * Z.

Definition count_bits_in_code256 (code : code_t) : result Z :=
  let '(c0, c1, c2) := code in
  a ← bitarithm_bits_set c0; b ← bitarithm_bits_set c1; c ← bitarithm_bits_set c2;
  Ok (u8 (a + b + c)).

(** Byte [i] of the block at [data], which is padded with zeros. *)
Definition current_at (mem : list Z) (data padding i : Z) : result Z :=
  if i <? u16 (256 - padding) then aget mem (data + i) else Ok 0.

(** [n] rounds remain of the loop over the block. *)
Fixpoint line_loop (mem : list Z) (data padding : Z) (n : nat) (columnSum evenLineCode oddLineCode : Z) : result (Z * Z * Z) :=
  match n with
  | O => Ok (columnSum, evenLineCode, oddLineCode)
  | S n' =>
      let i := 256 - Z.of_nat n in
      current ← current_at mem data padding i;
      let columnSum := Z.lxor columnSum current in
      bits ← bitarithm_bits_set current;
      if Z.land bits 1 =? 1
      then line_loop mem data padding n' columnSum (u8 (Z.lxor evenLineCode (255 - i))) (u8 (Z.lxor oddLineCode i))
      else line_loop mem data padding n' columnSum evenLineCode oddLineCode
  end.

Fixpoint column_loop (n : nat) (columnSum evenColumnCode oddColumnCode : Z) : Z * Z :=
  match n with
  | O => (evenColumnCode, oddColumnCode)
  | S n' =>
      let i := 8 - Z.of_nat n in
      if negb (Z.land columnSum 1 =? 0)
      then column_loop n' (Z.shiftr columnSum 1) (u8 (Z.lxor evenColumnCode (7 - i))) (u8 (Z.lxor oddColumnCode i))
      else column_loop n' (Z.shiftr columnSum 1) evenColumnCode oddColumnCode
  end.

(** One byte of the code in one round: room for two bits, then the parities. *)
Definition add_parities (mask code odd even : Z) : Z :=
  let code := u8 (Z.shiftl code 2) in
  let code := if negb (Z.land odd mask =? 0) then Z.lor code 2 else code in
  if negb (Z.land even mask =? 0) then Z.lor code 1 else code.

Fixpoint interleave_loop (n : nat) (code : code_t) (oddLineCode evenLineCode oddColumnCode evenColumnCode : Z) : code_t :=
  match n with
  | O => code
  | S n =>
      let '(c0, c1, c2) := code in
      interleave_loop n
        (add_parities 0x80 c0 oddLineCode evenLineCode,
         add_parities 0x08 c1 oddLineCode evenLineCode,
         add_parities 0x04 c2 oddColumnCode evenColumnCode)
        (u8 (Z.shiftl oddLineCode 1)) (u8 (Z.shiftl evenLineCode 1))
        (u8 (Z.shiftl oddColumnCode 1)) (u8 (Z.shiftl evenColumnCode 1))
  end.

(** [code[i] = ~(uint32_t)code[i]], in a byte. *)
Definition invert (c : Z) : Z := u8 (u32 (Z.lnot c)).

Definition compute256 (mem : list Z) (data padding : Z) : result code_t :=
  '(columnSum, evenLineCode, oddLineCode) ← line_loop mem data padding 256 0 0 0;
  let '(evenColumnCode, oddColumnCode) := column_loop 8 columnSum 0 0 in
  let '(c0, c1, c2) := interleave_loop 4 (0, 0, 0) oddLineCode evenLineCode oddColumnCode evenColumnCode in
  Ok (invert c0, invert c1, invert c2).

(** The index of the byte and of the bit that a correction code names. *)
Definition error_byte (c0 c1 : Z) : Z :=
  let byte := Z.land c0 0x80 in
  let byte := Z.lor byte (Z.land (Z.shiftl c0 1) 0x40) in
  let byte := Z.lor byte (Z.land (Z.shiftl c0 2) 0x20) in
  let byte := Z.lor byte (Z.land (Z.shiftl c0 3) 0x10) in
  let byte := Z.lor byte (Z.land (Z.shiftr c1 4) 0x08) in
  let byte := Z.lor byte (Z.land (Z.shiftr c1 3) 0x04) in
  let byte := Z.lor byte (Z.land (Z.shiftr c1 2) 0x02) in
  Z.lor byte (Z.land (Z.shiftr c1 1) 0x01).

Definition error_bit (c2 : Z) : Z :=
  let bit := Z.land (Z.shiftr c2 5) 0x04 in
  let bit := Z.lor bit (Z.land (Z.shiftr c2 4) 0x02) in
  Z.lor bit (Z.land (Z.shiftr c2 3) 0x01).

(** The result and the data; the codes are only read. *)
Definition verify256 (mem : list Z) (pucData : Z) (codes : list Z) (pucOriginalCode padding : Z) : result (Z * list Z) :=
  '(k0, k1, k2) ← compute256 mem pucData padding;
  o0 ← aget codes pucOriginalCode; o1 ← aget codes (pucOriginalCode + 1); o2 ← aget codes (pucOriginalCode + 2);
  let c0 := Z.lxor k0 o0 in let c1 := Z.lxor k1 o1 in let c2 := Z.lxor k2 o2 in
  if (c0 =? 0) && (c1 =? 0) && (c2 =? 0) then Ok (0, mem)
  else
    n ← count_bits_in_code256 (c0, c1, c2);
    if n =? 11 then
      let byte := error_byte c0 c1 in
      let bit := error_bit c2 in
      v ← aget mem (pucData + byte);
      mem ← aset mem (pucData + byte) (u8 (Z.lxor v (Z.shiftl 1 bit)));
      Ok (Hamming_ERROR_SINGLEBIT, mem)
    else
      n ← count_bits_in_code256 (c0, c1, c2);
      if n =? 1 then Ok (Hamming_ERROR_ECC, mem) else Ok (Hamming_ERROR_MULTIPLEBITS, mem).

(** [uint8_t padding = 0; if (dwSize < 256) padding = 256 - dwSize;] *)
Definition padding_of (dwSize : Z) : Z := if dwSize <? 256 then u8 (256 - dwSize) else 0.

Fixpoint compute_loop (fuel : nat) (mem : list Z) (pucData dwSize : Z) (codes : list Z) (puCode : Z) : result (list Z) :=
  match fuel with
  | O => Fault OutOfFuel
  | S fuel =>
      if 0 <? dwSize then
        let padding := padding_of dwSize in
        '(c0, c1, c2) ← compute256 mem pucData padding;
        codes ← aset codes puCode c0; codes ← aset codes (puCode + 1) c1; codes ← aset codes (puCode + 2) c2;
        compute_loop fuel mem (pucData + 256) (u32 (dwSize - (256 - padding))) codes (puCode + 3)
      else Ok codes
  end.

(** Every round but the last one takes 256 bytes. *)
Definition rounds (dwSize : Z) : nat := Z.to_nat (dwSize / 256 + 2).

Definition hamming_compute256x (mem : list Z) (pucData dwSize : Z) (codes : list Z) (puCode : Z) : result (list Z) :=
  compute_loop (rounds dwSize) mem pucData dwSize codes puCode.

Fixpoint verify_loop (fuel : nat) (mem : list Z) (pucData dwSize : Z) (codes : list Z) (pucCode result_ : Z) : result (Z * list Z) :=
  match fuel with
  | O => Fault OutOfFuel
  | S fuel =>
      if 0 <? dwSize then
        let padding := padding_of dwSize in
        '(error, mem) ← verify256 mem pucData codes pucCode padding;
        if (error =? Hamming_ERROR_SINGLEBIT)
        then verify_loop fuel mem (pucData + 256) (u32 (dwSize - (256 - padding))) codes (pucCode + 3) Hamming_ERROR_SINGLEBIT
        else if negb (error =? 0) then Ok (error, mem)
        else verify_loop fuel mem (pucData + 256) (u32 (dwSize - (256 - padding))) codes (pucCode + 3) result_
      else Ok (result_, mem)
  end.

Definition hamming_verify256x (mem : list Z) (pucData dwSize : Z) (codes : list Z) (pucCode : Z) : result (Z * list Z) :=
  verify_loop (rounds dwSize) mem pucData dwSize codes pucCode 0.


(** ** Parities are linear

    Everything [compute256] computes is a sum (an exclusive or) of contributions
    of the single bits, so a flipped bit adds its own contribution to the code. *)

Definition parity (x : Z) : bool := Z.odd (ones 8 x).

Lemma u8_lxor a b : u8 (Z.lxor a b) = Z.lxor (u8 a) (u8 b).
Proof.
  unfold u8. rewrite <- !land_255. apply Z.bits_inj'. intros i Hi.
  rewrite !Z.land_spec, !Z.lxor_spec, !Z.land_spec. by destruct (Z.testbit a i), (Z.testbit b i), (Z.testbit 255 i).
Qed.

Lemma u8_byte x : is_byte x → u8 x = x.
Proof. intros. by apply Z.mod_small. Qed.

Lemma u8_is_byte x : is_byte (u8 x).
Proof. unfold u8, is_byte. apply Z.mod_pos_bound. lia. Qed.

Lemma bits_set_byte x : is_byte x → bitarithm_bits_set x = Ok (ones 8 x).
Proof.
  intros Hx. unfold bitarithm_bits_set. rewrite (bitarithm_bits_set_loop_spec 33 8); [done|exact Hx|lia|].
  pose proof (ones_lt 8 x). lia.
Qed.

Lemma odd_land_1 x : (Z.land x 1 =? 1) = Z.odd x.
Proof. rewrite land_1. by rewrite Zmod_odd; destruct (Z.odd x). Qed.

Lemma ones_flip n x b : 0 <= b < Z.of_nat n → Z.odd (ones n (Z.lxor x (2 ^ b))) = negb (Z.odd (ones n x)).
Proof.
  revert x b. induction n as [|n IH]; intros x b Hb; [lia|]. rewrite !ones_shift, !Z.odd_add, Z.lxor_spec.
  rewrite <- !Z.div2_div. replace (Z.div2 (Z.lxor x (2 ^ b))) with (Z.lxor (Z.div2 x) (Z.div2 (2 ^ b))).
  2:{ rewrite !Z.div2_spec. by rewrite Z.shiftr_lxor. }
  destruct (decide (b = 0)) as [->|].
  - change (Z.div2 (2 ^ 0)) with 0. rewrite Z.lxor_0_r. change (Z.testbit (2 ^ 0) 0) with true.
    by destruct (Z.testbit x 0), (Z.odd (ones n _)).
  - replace (2 ^ b) with (2 * 2 ^ (b - 1)) by (rewrite <- Z.pow_succ_r by lia; f_equal; lia).
    assert (Z.div2 (2 * 2 ^ (b - 1)) = 2 ^ (b - 1)) as ->
      by (rewrite Z.div2_div, Z.mul_comm; apply Z.div_mul; lia).
    rewrite Z.testbit_even_0, xorb_false_r, IH by lia.
    by destruct (Z.testbit x 0), (Z.odd (ones n _)).
Qed.

Lemma parity_flip x b : 0 <= b < 8 → parity (Z.lxor x (2 ^ b)) = negb (parity x).
Proof. apply (ones_flip 8). Qed.

(** The sums over a block: of its bytes, and of the indices (or their
    complements) of the bytes of odd parity. *)
Definition column_sum (l : list Z) : Z := foldr Z.lxor 0 l.

Fixpoint index_sum (f : Z → Z) (i : Z) (l : list Z) : Z :=
  match l with
  | [] => 0
  | x :: l => Z.lxor (if parity x then f i else 0) (index_sum f (i + 1) l)
  end.

(** The block [b] with one bit inverted. *)
Definition flip (k : nat) (b : Z) (l : list Z) : list Z := alter (λ x, Z.lxor x (2 ^ b)) k l.

Lemma length_flip k b l : length (flip k b l) = length l.
Proof. apply length_alter. Qed.

Lemma flip_0 b x l : flip 0 b (x :: l) = Z.lxor x (2 ^ b) :: l.
Proof. done. Qed.

Lemma flip_S k b x l : flip (S k) b (x :: l) = x :: flip k b l.
Proof. done. Qed.

Lemma column_sum_flip k b l : (k < length l)%nat → column_sum (flip k b l) = Z.lxor (column_sum l) (2 ^ b).
Proof.
  revert k. induction l as [|x l IH]; intros [|k] Hk; simpl in Hk; try lia.
  - rewrite flip_0. simpl. rewrite !Z.lxor_assoc. f_equal. apply Z.lxor_comm.
  - rewrite flip_S. simpl. by rewrite IH, Z.lxor_assoc by lia.
Qed.

Lemma index_sum_flip f i k b l :
  (k < length l)%nat → 0 <= b < 8 →
  index_sum f i (flip k b l) = Z.lxor (index_sum f i l) (f (i + Z.of_nat k)).
Proof.
  revert i k. induction l as [|x l IH]; intros i [|k] Hk Hb; simpl in Hk; try lia.
  - rewrite flip_0. cbn [index_sum]. rewrite parity_flip, Z.add_0_r by done. destruct (parity x); simpl;
      rewrite ?Z.lxor_0_l; [|apply Z.lxor_comm].
    by rewrite Z.lxor_comm, <- Z.lxor_assoc, Z.lxor_nilpotent, Z.lxor_0_l.
  - rewrite flip_S. cbn [index_sum]. rewrite IH, Z.lxor_assoc by (lia || done). do 3 f_equal. lia.
Qed.

Lemma index_sum_zeros f i n : index_sum f i (replicate n 0) = 0.
Proof. revert i. induction n as [|n IH]; intros i; [done|]. simpl. by rewrite IH. Qed.

Lemma flip_byte k b l : 0 <= b < 8 → Forall is_byte l → Forall is_byte (flip k b l).
Proof.
  intros Hb Hl. apply Forall_alter; [done|]. intros x _ Hx. apply lxor_byte; [done|].
  unfold is_byte. split; [apply Z.pow_nonneg; lia|]. apply (Z.pow_lt_mono_r 2 b 8); lia.
Qed.

(** ** What [compute256] computes *)

Definition pad (l : list Z) : list Z := l ++ replicate (256 - length l) 0.

(** Everything the code depends on: odd and even line parities, and columns. *)
Definition lines (l : list Z) : Z * Z := (index_sum (λ i, i) 0 (pad l), index_sum (λ i, 255 - i) 0 (pad l)).

(** The block of the memory at [data]. *)
Definition block_at (mem : list Z) (data : Z) (l : list Z) : Prop :=
  ∃ pre post, mem = pre ++ l ++ post ∧ data = Z.of_nat (length pre).

Definition is_block (l : list Z) : Prop := Forall is_byte l ∧ (0 < length l <= 256)%nat.

Lemma u8_lxor_small i x : is_byte i → is_byte x → u8 (Z.lxor x i) = Z.lxor x i.
Proof. intros. apply u8_byte. by apply lxor_byte. Qed.

Lemma line_loop_S mem data padding n columnSum evenLineCode oddLineCode :
  line_loop mem data padding (S n) columnSum evenLineCode oddLineCode =
    let i := 256 - Z.of_nat (S n) in
    current ← current_at mem data padding i;
    let columnSum := Z.lxor columnSum current in
    bits ← bitarithm_bits_set current;
    if Z.land bits 1 =? 1
    then line_loop mem data padding n columnSum (u8 (Z.lxor evenLineCode (255 - i))) (u8 (Z.lxor oddLineCode i))
    else line_loop mem data padding n columnSum evenLineCode oddLineCode.
Proof. reflexivity. Qed.

Lemma line_loop_step mem data padding n i x cs ev od :
  i = 256 - Z.of_nat (S n) → current_at mem data padding i = Ok x → is_byte x →
  line_loop mem data padding (S n) cs ev od =
    if parity x then line_loop mem data padding n (Z.lxor cs x) (u8 (Z.lxor ev (255 - i))) (u8 (Z.lxor od i))
    else line_loop mem data padding n (Z.lxor cs x) ev od.
Proof.
  intros -> Hc Hx. unfold parity. rewrite line_loop_S. cbv zeta.
  by rewrite Hc, result_bind_Ok, bits_set_byte, result_bind_Ok, odd_land_1.
Qed.

Lemma line_loop_sums mem data padding p n i cs ev od :
  Forall is_byte p → (n <= 256)%nat → i = 256 - Z.of_nat n → length p = n → is_byte ev → is_byte od →
  (∀ j x, p !! j = Some x → current_at mem data padding (i + Z.of_nat j) = Ok x) →
  line_loop mem data padding n cs ev od =
    Ok (Z.lxor cs (column_sum p), Z.lxor ev (index_sum (λ i, 255 - i) i p), Z.lxor od (index_sum (λ i, i) i p)).
Proof.
  intros Hp. revert n i cs ev od. induction Hp as [|x p Hx Hp IH]; intros n i cs ev od Hn Hi Hl Hev Hod Hmem.
  { simpl in Hl. subst n. simpl. by rewrite !Z.lxor_0_r. }
  destruct n as [|n]; [done|]. injection Hl as Hl.
  assert (is_byte i ∧ is_byte (255 - i)) as [Hbi Hbi'] by (unfold is_byte; lia).
  assert (current_at mem data padding i = Ok x) as Hc by (rewrite <- (Hmem 0%nat x eq_refl); f_equal; lia).
  rewrite (line_loop_step _ _ _ _ i x), !u8_lxor_small by done.
  assert (∀ j y, p !! j = Some y → current_at mem data padding (i + 1 + Z.of_nat j) = Ok y) as Hmem'.
  { intros j y Hj. rewrite <- (Hmem (S j) y Hj). f_equal. lia. }
  simpl. rewrite <- !Z.lxor_assoc.
  destruct (parity x); rewrite ?Z.lxor_0_r, (IH n (i + 1)); auto using lxor_byte; lia.
Qed.

Lemma line_loop_Ok mem data l :
  is_block l → block_at mem data l →
  line_loop mem data (padding_of (Z.of_nat (length l))) 256 0 0 0 =
    Ok (column_sum (pad l), (lines l).2, (lines l).1).
Proof.
  intros [Hl Hlen] (pre & post & -> & ->).
  rewrite (line_loop_sums _ _ _ (pad l) 256 0).
  - unfold lines. by rewrite !Z.lxor_0_l.
  - apply Forall_app. split; [done|]. by apply Forall_replicate.
  - lia.
  - lia.
  - unfold pad. rewrite length_app, length_replicate. lia.
  - done.
  - done.
  - intros j x Hj. rewrite Z.add_0_l. unfold current_at.
    assert (u16 (256 - padding_of (Z.of_nat (length l))) = Z.of_nat (length l)) as ->.
    { unfold padding_of, u16, u8. destruct (Z.ltb_spec (Z.of_nat (length l)) 256).
      - rewrite (Z.mod_small (256 - Z.of_nat (length l)) 256) by lia. rewrite Z.mod_small by lia. lia.
      - assert (length l = 256%nat) as -> by lia. done. }
    unfold pad in Hj. destruct (Z.ltb_spec (Z.of_nat j) (Z.of_nat (length l))).
    + rewrite lookup_app_l in Hj by lia. apply aget_Some; [lia|].
      replace (Z.to_nat _) with (length pre + j)%nat by lia.
      rewrite lookup_app_r, Nat.add_comm, Nat.add_sub by lia. by apply lookup_app_l_Some.
    + rewrite lookup_app_r in Hj by lia. apply lookup_replicate in Hj as [-> _]. done.
Qed.

(** ** Columns and interleaving *)

Lemma lxor_testbit_0 x b : 0 < b → Z.odd (Z.lxor x (2 ^ b)) = Z.odd x.
Proof. intros. rewrite <- !Z.bit0_odd, Z.lxor_spec, Z.pow2_bits_false by lia. apply xorb_false_r. Qed.

Lemma odd_land_0 x : negb (Z.land x 1 =? 0) = Z.odd x.
Proof. rewrite land_1. by rewrite Zmod_odd; destruct (Z.odd x). Qed.

Lemma shiftr_flip x b : 0 < b → Z.shiftr (Z.lxor x (2 ^ b)) 1 = Z.lxor (Z.shiftr x 1) (2 ^ (b - 1)).
Proof.
  intros Hb. rewrite Z.shiftr_lxor. f_equal. rewrite <- (Z.shiftl_1_l b), Z.shiftr_shiftl_l by lia.
  by rewrite Z.shiftl_1_l.
Qed.

(** The loop adds to what it starts with. *)
Lemma column_loop_start n cs ev od dev dod :
  is_byte dev → is_byte dod →
  column_loop n cs (Z.lxor ev dev) (Z.lxor od dod) =
    (Z.lxor (column_loop n cs ev od).1 dev, Z.lxor (column_loop n cs ev od).2 dod).
Proof.
  intros Hev Hod. revert cs ev od. induction n as [|n IH]; intros cs ev od; [done|]. cbn [column_loop].
  assert (∀ a x y, is_byte y → u8 (Z.lxor (Z.lxor a y) x) = Z.lxor (u8 (Z.lxor a x)) y) as Hswap.
  { intros a x y Hy. rewrite !u8_lxor, (u8_byte y) by done. rewrite !Z.lxor_assoc. f_equal. apply Z.lxor_comm. }
  rewrite !Hswap by done. by destruct (negb _); rewrite IH.
Qed.

Lemma column_loop_flip n cs b ev od :
  (n <= 8)%nat → 0 <= b < Z.of_nat n → is_byte ev → is_byte od →
  let i := 8 - Z.of_nat n + b in
  column_loop n (Z.lxor cs (2 ^ b)) ev od =
    (Z.lxor (column_loop n cs ev od).1 (7 - i), Z.lxor (column_loop n cs ev od).2 i).
Proof.
  revert cs b ev od. induction n as [|n IH]; intros cs b ev od Hn Hb Hev Hod i; [lia|].
  cbn [column_loop]. rewrite !odd_land_0. subst i. set (i := 8 - Z.of_nat (S n)) in *.
  assert (is_byte i ∧ is_byte (7 - i)) as [Hi Hi'] by (unfold is_byte; lia).
  destruct (decide (b = 0)) as [->|].
  - rewrite Z.add_0_r, !u8_lxor_small by done. change (2 ^ 0) with 1.
    assert (Z.shiftr (Z.lxor cs 1) 1 = Z.shiftr cs 1) as -> by (rewrite Z.shiftr_lxor; apply Z.lxor_0_r).
    assert (Z.odd (Z.lxor cs 1) = negb (Z.odd cs)) as -> by (rewrite <- !Z.bit0_odd, Z.lxor_spec; apply xorb_true_r).
    destruct (Z.odd cs); cbn [negb]; rewrite !column_loop_start by done; [|done]. cbn [fst snd].
    by rewrite !Z.lxor_assoc, !Z.lxor_nilpotent, !Z.lxor_0_r, <- surjective_pairing.
  - rewrite lxor_testbit_0, shiftr_flip, !u8_lxor_small by (done || lia).
    assert (8 - Z.of_nat n + (b - 1) = i + b) as E by lia.
    destruct (Z.odd cs); (rewrite IH; [by rewrite E|lia|lia|auto using lxor_byte..]).
Qed.

(** One byte of the code on its own. *)
Fixpoint weave (mask : Z) (n : nat) (c odd even : Z) : Z :=
  match n with
  | O => c
  | S n => weave mask n (add_parities mask c odd even) (u8 (Z.shiftl odd 1)) (u8 (Z.shiftl even 1))
  end.

Lemma interleave_loop_weave n c0 c1 c2 ol el oc ec :
  interleave_loop n (c0, c1, c2) ol el oc ec = (weave 0x80 n c0 ol el, weave 0x08 n c1 ol el, weave 0x04 n c2 oc ec).
Proof. revert c0 c1 c2 ol el oc ec. induction n as [|n IH]; intros; [done|]. cbn [interleave_loop]. by rewrite IH. Qed.

Lemma add_parities_testbit k c o e i :
  0 <= k → 0 <= i →
  Z.testbit (add_parities (2 ^ k) c o e) i =
    if decide (i = 0) then Z.testbit e k else if decide (i = 1) then Z.testbit o k
    else Z.testbit c (i - 2) && (i <? 8).
Proof.
  intros Hk Hi. unfold add_parities. rewrite !land_pow2 by done.
  assert (∀ (b : bool) x y, (if b then Z.lor x y else x) = Z.lor x (if b then y else 0)) as Hif
    by (intros []; intros; by rewrite ?Z.lor_0_r).
  rewrite !Hif, !Z.lor_spec, testbit_u8, Z.shiftl_spec by done.
  assert (∀ (b : bool) j, Z.testbit (if b then 2 ^ j else 0) i = b && Z.testbit (2 ^ j) i) as Hb
    by (intros []; intros; by rewrite ?Z.bits_0).
  rewrite (Hb _ 1 : Z.testbit (if Z.testbit o k then 2 else 0) i = _).
  rewrite (Hb _ 0 : Z.testbit (if Z.testbit e k then 1 else 0) i = _).
  destruct (decide (i = 0)) as [->|]; [|destruct (decide (i = 1)) as [->|]].
  - rewrite Z.testbit_neg_r by lia. simpl. by rewrite andb_false_r, andb_true_r.
  - rewrite Z.testbit_neg_r by lia. simpl. by rewrite andb_true_r, andb_false_r, orb_false_r.
  - by rewrite !Z.pow2_bits_false, !andb_false_r, !orb_false_r by lia.
Qed.

Lemma add_parities_lxor k c o e c' o' e' :
  0 <= k →
  add_parities (2 ^ k) (Z.lxor c c') (Z.lxor o o') (Z.lxor e e') =
    Z.lxor (add_parities (2 ^ k) c o e) (add_parities (2 ^ k) c' o' e').
Proof.
  intros Hk. apply Z.bits_inj'. intros i Hi. rewrite Z.lxor_spec, !add_parities_testbit, !Z.lxor_spec by done.
  repeat case_decide; try done. by destruct (Z.testbit c _), (Z.testbit c' _), (i <? 8).
Qed.

Lemma weave_lxor k n c o e c' o' e' :
  0 <= k → weave (2 ^ k) n (Z.lxor c c') (Z.lxor o o') (Z.lxor e e') = Z.lxor (weave (2 ^ k) n c o e) (weave (2 ^ k) n c' o' e').
Proof.
  intros Hk. revert c o e c' o' e'. induction n as [|n IH]; intros; [done|]. cbn [weave].
  by rewrite add_parities_lxor, !Z.shiftl_lxor, !u8_lxor, IH.
Qed.

(** The code before it is inverted, from the parities. *)
Definition raw (o e oc ec : Z) : code_t := (weave 0x80 4 0 o e, weave 0x08 4 0 o e, weave 0x04 4 0 oc ec).

Definition code_xor (a b : code_t) : code_t :=
  let '(a0, a1, a2) := a in let '(b0, b1, b2) := b in (Z.lxor a0 b0, Z.lxor a1 b1, Z.lxor a2 b2).

Lemma raw_lxor o e oc ec o' e' oc' ec' :
  raw (Z.lxor o o') (Z.lxor e e') (Z.lxor oc oc') (Z.lxor ec ec') = code_xor (raw o e oc ec) (raw o' e' oc' ec').
Proof.
  unfold raw, code_xor. change 0x80 with (2 ^ 7). change 0x08 with (2 ^ 3). change 0x04 with (2 ^ 2).
  by rewrite <- !weave_lxor.
Qed.

(** ** The code of a block *)

Definition columns (l : list Z) : Z * Z := column_loop 8 (column_sum (pad l)) 0 0.
Definition raw_code (l : list Z) : code_t := raw (lines l).1 (lines l).2 (columns l).2 (columns l).1.

Definition invert_code (c : code_t) : code_t := let '(c0, c1, c2) := c in (invert c0, invert c1, invert c2).
Definition hamming_code (l : list Z) : code_t := invert_code (raw_code l).

Lemma compute256_Ok mem data l :
  is_block l → block_at mem data l → compute256 mem data (padding_of (Z.of_nat (length l))) = Ok (hamming_code l).
Proof.
  intros Hl Hb. unfold compute256. rewrite line_loop_Ok by done. cbn [mbind result_bind].
  unfold hamming_code, raw_code, columns. destruct (column_loop _ _ _ _) as [ev od].
  by rewrite interleave_loop_weave.
Qed.

Lemma pad_flip k b l : (k < length l)%nat → pad (flip k b l) = flip k b (pad l).
Proof. intros Hk. unfold pad. rewrite length_flip. unfold flip. by rewrite alter_app_l. Qed.

(** What one flipped bit adds to the code. *)
Definition syndrome (k : nat) (b : Z) : code_t := raw (Z.of_nat k) (255 - Z.of_nat k) b (7 - b).

Lemma length_pad l : (length l <= 256)%nat → length (pad l) = 256%nat.
Proof. intros. unfold pad. rewrite length_app, length_replicate. lia. Qed.

Lemma raw_code_flip k b l :
  (k < length l)%nat → (length l <= 256)%nat → 0 <= b < 8 →
  raw_code (flip k b l) = code_xor (raw_code l) (syndrome k b).
Proof.
  intros Hk Hl Hb. pose proof (length_pad l Hl).
  unfold raw_code, syndrome. rewrite <- raw_lxor. unfold lines, columns. rewrite pad_flip by done. cbn [fst snd].
  rewrite !index_sum_flip, column_sum_flip by (done || lia).
  by rewrite (column_loop_flip 8) by (done || lia).
Qed.

Lemma add_parities_byte k c o e : 0 <= k → is_byte (add_parities (2 ^ k) c o e).
Proof.
  intros Hk. assert (0 <= add_parities (2 ^ k) c o e) as H0.
  { unfold add_parities, u8. pose proof (Z.mod_pos_bound (Z.shiftl c 2) 256).
    repeat case_match; repeat (apply Z.lor_nonneg; split); lia. }
  split; [done|]. apply (bits_bound 8); [done..|]. intros i Hi. rewrite add_parities_testbit by lia.
  rewrite !decide_False by lia. assert ((i <? 8) = false) as -> by lia. apply andb_false_r.
Qed.

Lemma weave_byte k n c o e : 0 <= k → is_byte c → is_byte (weave (2 ^ k) n c o e).
Proof. intros Hk. revert c o e. induction n as [|n IH]; intros c o e Hc; [done|]. apply IH. by apply add_parities_byte. Qed.

Definition is_code (c : code_t) : Prop := is_byte c.1.1 ∧ is_byte c.1.2 ∧ is_byte c.2.

Lemma raw_byte o e oc ec : is_code (raw o e oc ec).
Proof. split; [|split]; [apply (weave_byte 7)|apply (weave_byte 3)|apply (weave_byte 2)]; done. Qed.

Lemma u8_u32 x : u8 (u32 x) = u8 x.
Proof. unfold u8, u32. change 4294967296 with (256 * 16777216). by rewrite <- Znumtheory.Zmod_div_mod by (lia || by exists 16777216). Qed.

Lemma invert_lxor a b : Z.lxor (invert a) (invert b) = u8 (Z.lxor a b).
Proof. unfold invert. rewrite !u8_u32, <- u8_lxor. by rewrite Z.lxor_lnot_lnot. Qed.

Lemma code_xor_comm a b : code_xor a b = code_xor b a.
Proof. destruct a as [[a0 a1] a2], b as [[b0 b1] b2]. simpl. by rewrite (Z.lxor_comm a0), (Z.lxor_comm a1), (Z.lxor_comm a2). Qed.

Lemma code_xor_assoc a b c : code_xor (code_xor a b) c = code_xor a (code_xor b c).
Proof. destruct a as [[a0 a1] a2], b as [[b0 b1] b2], c as [[c0 c1] c2]. simpl. by rewrite !Z.lxor_assoc. Qed.

Lemma code_xor_self a : code_xor a a = (0, 0, 0).
Proof. destruct a as [[a0 a1] a2]. simpl. by rewrite !Z.lxor_nilpotent. Qed.

Lemma code_xor_0 a : code_xor (0, 0, 0) a = a.
Proof. by destruct a as [[a0 a1] a2]. Qed.

(** The inversion cancels out. *)
Lemma hamming_code_diff l l' : code_xor (hamming_code l') (hamming_code l) = code_xor (raw_code l') (raw_code l).
Proof.
  unfold hamming_code. destruct (raw_byte (lines l).1 (lines l).2 (columns l).2 (columns l).1) as (H0 & H1 & H2).
  destruct (raw_byte (lines l').1 (lines l').2 (columns l').2 (columns l').1) as (H0' & H1' & H2').
  fold (raw_code l) in *. fold (raw_code l') in *.
  destruct (raw_code l) as [[a0 a1] a2], (raw_code l') as [[b0 b1] b2]. simpl in *.
  by rewrite !invert_lxor, !u8_byte by auto using lxor_byte.
Qed.

(** ** The three kinds of damage *)

Definition weight (c : code_t) : Z := ones 8 c.1.1 + ones 8 c.1.2 + ones 8 c.2.

Lemma count_bits_weight c : is_code c → count_bits_in_code256 c = Ok (weight c).
Proof.
  destruct c as [[c0 c1] c2]. intros (H0 & H1 & H2). simpl in *. unfold count_bits_in_code256, weight.
  rewrite !bits_set_byte by done. cbn [mbind result_bind fst snd]. f_equal.
  pose proof (ones_lt 8 c0). pose proof (ones_lt 8 c1). pose proof (ones_lt 8 c2).
  pose proof (ones_nonneg 8 c0). pose proof (ones_nonneg 8 c1). pose proof (ones_nonneg 8 c2).
  apply u8_byte. unfold is_byte. lia.
Qed.

(** Checks of all bytes, and of all bits of a byte. *)
Lemma line_syndrome k : is_byte k →
  let c0 := weave 0x80 4 0 k (255 - k) in let c1 := weave 0x08 4 0 k (255 - k) in
  ones 8 c0 + ones 8 c1 = 8 ∧ error_byte c0 c1 = k.
Proof.
  intros Hk. pose (p k := let c0 := weave 0x80 4 0 k (255 - k) in let c1 := weave 0x08 4 0 k (255 - k) in
    (ones 8 c0 + ones 8 c1 =? 8) && (error_byte c0 c1 =? k)).
  pose proof (byte_check p ltac:(by vm_compute) k Hk) as Hp. unfold p in Hp. cbv zeta in *. lia.
Qed.

Lemma bit_cases b : 0 <= b < 8 → b = 0 ∨ b = 1 ∨ b = 2 ∨ b = 3 ∨ b = 4 ∨ b = 5 ∨ b = 6 ∨ b = 7.
Proof. lia. Qed.

Ltac all_bits H := apply bit_cases in H; repeat destruct H as [->|H]; try subst.

Lemma column_syndrome b : 0 <= b < 8 →
  let c2 := weave 0x04 4 0 b (7 - b) in ones 8 c2 = 3 ∧ error_bit c2 = b.
Proof. intros H. all_bits H; by vm_compute. Qed.

Lemma double_line x : is_byte x →
  let c0 := weave 0x80 4 0 x x in let c1 := weave 0x08 4 0 x x in
  Z.even (ones 8 c0 + ones 8 c1) = true ∧ (c0 = 0 → c1 = 0 → x = 0).
Proof.
  intros Hx. pose (p x := let c0 := weave 0x80 4 0 x x in let c1 := weave 0x08 4 0 x x in
    Z.even (ones 8 c0 + ones 8 c1) && (negb (c0 =? 0) || negb (c1 =? 0) || (x =? 0))).
  pose proof (byte_check p ltac:(by vm_compute) x Hx) as Hp. unfold p in Hp. cbv zeta in *.
  apply andb_true_iff in Hp as [Hp1 Hp2]. split; [done|]. intros H0 H1. rewrite H0, H1 in Hp2. simpl in Hp2. lia.
Qed.

Lemma double_column y : 0 <= y < 8 →
  let c2 := weave 0x04 4 0 y y in Z.even (ones 8 c2) = true ∧ (c2 = 0 → y = 0).
Proof. intros H. all_bits H; by vm_compute. Qed.

Lemma complement_255 k : is_byte k → 255 - k = Z.lxor 255 k.
Proof. intros Hk. apply Z.eqb_eq. revert k Hk. by apply byte_check. Qed.

Lemma lxor_bits b b' : 0 <= b < 8 → 0 <= b' < 8 → 0 <= Z.lxor b b' < 8 ∧ Z.lxor (7 - b) (7 - b') = Z.lxor b b'.
Proof. intros H H'. all_bits H; all_bits H'; by vm_compute. Qed.

(** Two flipped bits: odd and even parities agree. *)
Lemma double_syndrome k b k' b' :
  (k < 256)%nat → (k' < 256)%nat → 0 <= b < 8 → 0 <= b' < 8 →
  code_xor (syndrome k b) (syndrome k' b') =
    let x := Z.lxor (Z.of_nat k) (Z.of_nat k') in let y := Z.lxor b b' in raw x x y y.
Proof.
  intros Hk Hk' Hb Hb'. unfold syndrome. rewrite <- raw_lxor. cbv zeta.
  rewrite (proj2 (lxor_bits b b' Hb Hb')), !complement_255 by (unfold is_byte; lia).
  assert (∀ a c, Z.lxor (Z.lxor 255 a) (Z.lxor 255 c) = Z.lxor a c) as ->; [|done].
  intros a c. rewrite (Z.lxor_comm 255 a), Z.lxor_assoc, <- (Z.lxor_assoc 255), Z.lxor_nilpotent. by rewrite Z.lxor_0_l.
Qed.

Lemma lxor_zero a b : Z.lxor a b = 0 → a = b.
Proof. apply Z.lxor_eq. Qed.

Lemma double_weight k b k' b' :
  (k < 256)%nat → (k' < 256)%nat → 0 <= b < 8 → 0 <= b' < 8 → (k, b) ≠ (k', b') →
  let c := code_xor (syndrome k b) (syndrome k' b') in
  is_code c ∧ c ≠ (0, 0, 0) ∧ Z.even (weight c) = true.
Proof.
  intros Hk Hk' Hb Hb' Hne. rewrite double_syndrome by done. cbv zeta.
  split; [apply raw_byte|].
  destruct (double_line (Z.lxor (Z.of_nat k) (Z.of_nat k'))) as [E1 Z1].
  { apply lxor_byte; unfold is_byte; lia. }
  destruct (double_column (Z.lxor b b')) as [E2 Z2]; [by apply lxor_bits|]. cbv zeta in *.
  split.
  - intros [= H0 H1 H2]. apply Hne. f_equal; [|by apply lxor_zero, Z2].
    apply Nat2Z.inj, lxor_zero. by apply Z1.
  - unfold weight, raw. cbn [fst snd]. by rewrite Z.even_add, E1, E2.
Qed.

(** ** One block *)

(** What happens to a block and its code between the computation and the
    verification. *)
Inductive block_error : Type :=
  | Intact
  | OneBit (k : nat) (b : Z)
  | TwoBits (k : nat) (b : Z) (k' : nat) (b' : Z)
  | CodeBit (i : nat) (j : Z).

Definition hit_data (e : block_error) (l : list Z) : list Z :=
  match e with
  | OneBit k b => flip k b l
  | TwoBits k b k' b' => flip k' b' (flip k b l)
  | _ => l
  end.

Definition code_list (c : code_t) : list Z := [c.1.1; c.1.2; c.2].

Definition hit_code (e : block_error) (c : code_t) : list Z :=
  match e with CodeBit i j => flip i j (code_list c) | _ => code_list c end.

Definition bit_of (l : list Z) (k : nat) (b : Z) : Prop := (k < length l)%nat ∧ 0 <= b < 8.

Definition possible (e : block_error) (l : list Z) : Prop :=
  match e with
  | Intact => True
  | OneBit k b => bit_of l k b
  | TwoBits k b k' b' => bit_of l k b ∧ bit_of l k' b' ∧ (k, b) ≠ (k', b')
  | CodeBit i j => (i < 3)%nat ∧ 0 <= j < 8
  end.

(** The verdict on a block, and the block it leaves. *)
Definition verdict (e : block_error) : Z :=
  match e with
  | Intact => Hamming_ERROR_NONE
  | OneBit _ _ => Hamming_ERROR_SINGLEBIT
  | TwoBits _ _ _ _ => Hamming_ERROR_MULTIPLEBITS
  | CodeBit _ _ => Hamming_ERROR_ECC
  end.

Definition repair (e : block_error) (l : list Z) : list Z :=
  match e with OneBit _ _ => l | _ => hit_data e l end.

Lemma flip_flip k b l : flip k b (flip k b l) = l.
Proof.
  revert k. induction l as [|x l IH]; intros [|k]; try done.
  - rewrite !flip_0. by rewrite Z.lxor_assoc, Z.lxor_nilpotent, Z.lxor_0_r.
  - by rewrite !flip_S, IH.
Qed.

(** The second half of [verify256]. *)
Definition judge (mem : list Z) (pucData : Z) (c : code_t) : result (Z * list Z) :=
  let '(c0, c1, c2) := c in
  if (c0 =? 0) && (c1 =? 0) && (c2 =? 0) then Ok (0, mem)
  else
    n ← count_bits_in_code256 (c0, c1, c2);
    if n =? 11 then
      v ← aget mem (pucData + error_byte c0 c1);
      mem ← aset mem (pucData + error_byte c0 c1) (u8 (Z.lxor v (Z.shiftl 1 (error_bit c2))));
      Ok (Hamming_ERROR_SINGLEBIT, mem)
    else
      n ← count_bits_in_code256 (c0, c1, c2);
      if n =? 1 then Ok (Hamming_ERROR_ECC, mem) else Ok (Hamming_ERROR_MULTIPLEBITS, mem).

Lemma verify256_judge pre l post cpre c cpost data ptr :
  is_block l → data = Z.of_nat (length pre) → ptr = Z.of_nat (length cpre) →
  verify256 (pre ++ l ++ post) data (cpre ++ code_list c ++ cpost) ptr (padding_of (Z.of_nat (length l))) =
    judge (pre ++ l ++ post) data (code_xor (hamming_code l) c).
Proof.
  intros Hl -> ->. unfold verify256. rewrite compute256_Ok; [|done|by exists pre, post].
  destruct (hamming_code l) as [[k0 k1] k2], c as [[c0 c1] c2]. cbn [mbind result_bind code_list fst snd app].
  rewrite (aget_app cpre _ c0 (Z.of_nat (length cpre))) by done.
  rewrite (aget_Some _ (Z.of_nat (length cpre) + 1) c1), (aget_Some _ (Z.of_nat (length cpre) + 2) c2); try lia.
  - reflexivity.
  - rewrite lookup_app_r by lia. by replace (_ - _)%nat with 2%nat by lia.
  - rewrite lookup_app_r by lia. by replace (_ - _)%nat with 1%nat by lia.
Qed.

Lemma judge_weight mem data c :
  is_code c → c ≠ (0, 0, 0) → weight c ≠ 11 →
  judge mem data c = Ok (if weight c =? 1 then Hamming_ERROR_ECC else Hamming_ERROR_MULTIPLEBITS, mem).
Proof.
  intros Hc H0 Hw. unfold judge. pose proof (count_bits_weight c Hc) as Hn. destruct c as [[c0 c1] c2].
  case_match eqn:E; [|rewrite Hn; cbn [mbind result_bind]; apply Z.eqb_neq in Hw as ->; by case_match].
  exfalso. apply H0. repeat (apply andb_true_iff in E as [E ?%Z.eqb_eq]). apply Z.eqb_eq in E. congruence.
Qed.

Lemma flip_insert k b l y : l !! k = Some y → <[k := Z.lxor y (2 ^ b)]> l = flip k b l.
Proof.
  revert k. induction l as [|x l IH]; intros [|k] Hk; simplify_eq/=; [done|].
  f_equal. by apply IH.
Qed.

Lemma judge_syndrome pre l post k b :
  is_block l → bit_of l k b →
  judge (pre ++ flip k b l ++ post) (Z.of_nat (length pre)) (syndrome k b) =
    Ok (Hamming_ERROR_SINGLEBIT, pre ++ l ++ post).
Proof.
  intros [Hl Hlen] [Hk Hb]. pose proof (flip_byte k b l Hb Hl) as Hf.
  destruct (line_syndrome (Z.of_nat k)) as [W1 B1]; [unfold is_byte; lia|].
  destruct (column_syndrome b Hb) as [W2 B2]. cbv zeta in *.
  pose proof (count_bits_weight _ (raw_byte (Z.of_nat k) (255 - Z.of_nat k) b (7 - b))) as Hw.
  unfold judge, syndrome, raw in *. unfold weight in Hw. cbn [fst snd] in Hw. rewrite W1, W2 in Hw.
  rewrite Hw, B1, B2. cbn [mbind result_bind].
  set (c2 := weave 4 4 0 b (7 - b)) in *.
  assert ((c2 =? 0) = false) as ->.
  { apply Z.eqb_neq. intros E. by rewrite E, ones_0 in W2. }
  rewrite andb_false_r. change (8 + 3 =? 11) with true. cbv iota.
  destruct (lookup_lt_is_Some_2 (flip k b l) k) as [y Hy]; [by rewrite length_flip|].
  assert (is_byte y) by (by eapply Forall_lookup_1 in Hy).
  rewrite (aget_Some _ _ y); [|lia|].
  2:{ replace (Z.to_nat _) with (length pre + k)%nat by lia.
      rewrite lookup_app_r by lia. replace (_ - _)%nat with k by lia. by apply lookup_app_l_Some. }
  cbn [mbind result_bind]. rewrite aset_Ok by (rewrite !length_app, length_flip; lia). cbn [mbind result_bind].
  replace (Z.to_nat _) with (length pre + k)%nat by lia.
  rewrite insert_app_r, insert_app_l by (by rewrite length_flip).
  assert (is_byte (2 ^ b)). { split; [apply Z.pow_nonneg; lia|apply (Z.pow_lt_mono_r 2 b 8); lia]. }
  by rewrite Z.shiftl_1_l, u8_lxor_small, flip_insert, flip_flip by done.
Qed.

Lemma flip_block k b l : 0 <= b < 8 → is_block l → is_block (flip k b l).
Proof. intros Hb [Hl Hn]. split; [by apply flip_byte|by rewrite length_flip]. Qed.

(** The difference of the codes is what the flipped bits add to the code. *)
Lemma flip_diff k b l :
  is_block l → bit_of l k b → code_xor (hamming_code (flip k b l)) (hamming_code l) = syndrome k b.
Proof.
  intros [_ Hl] [Hk Hb]. rewrite hamming_code_diff, raw_code_flip by (done || lia).
  by rewrite code_xor_comm, <- code_xor_assoc, code_xor_self, code_xor_0.
Qed.

Lemma flip_diff_2 k b k' b' l :
  is_block l → bit_of l k b → bit_of l k' b' →
  code_xor (hamming_code (flip k' b' (flip k b l))) (hamming_code l) = code_xor (syndrome k b) (syndrome k' b').
Proof.
  intros [_ Hl] [Hk Hb] [Hk' Hb']. rewrite hamming_code_diff, !raw_code_flip by (rewrite ?length_flip; done || lia).
  by rewrite code_xor_comm, code_xor_assoc, <- code_xor_assoc, code_xor_self, code_xor_0.
Qed.

(** A damaged code differs in one bit. *)
Lemma code_bit_diff i j c :
  (i < 3)%nat → 0 <= j < 8 →
  ∃ c', flip i j (code_list c) = code_list c' ∧
    let d := code_xor c c' in is_code d ∧ d ≠ (0, 0, 0) ∧ weight d = 1.
Proof.
  intros Hi Hj. destruct c as [[c0 c1] c2].
  assert (∀ x, Z.lxor x (Z.lxor x (2 ^ j)) = 2 ^ j) as Hx.
  { intros x. by rewrite <- Z.lxor_assoc, Z.lxor_nilpotent, Z.lxor_0_l. }
  destruct i as [|[|[|]]]; [exists (Z.lxor c0 (2 ^ j), c1, c2)|exists (c0, Z.lxor c1 (2 ^ j), c2)|exists (c0, c1, Z.lxor c2 (2 ^ j))|lia];
    (split; [done|]); simpl; rewrite !Z.lxor_nilpotent, Hx; unfold is_code, weight, is_byte; cbn [fst snd];
    all_bits Hj; by vm_compute.
Qed.

(** Every kind of damage of a block gets its verdict, and one bit is put right. *)
Lemma verify256_block pre l post cpre cpost e data ptr :
  is_block l → possible e l → data = Z.of_nat (length pre) → ptr = Z.of_nat (length cpre) →
  verify256 (pre ++ hit_data e l ++ post) data (cpre ++ hit_code e (hamming_code l) ++ cpost) ptr
    (padding_of (Z.of_nat (length l))) =
  Ok (verdict e, pre ++ repair e l ++ post).
Proof.
  intros Hl He -> ->. destruct e as [|k b|k b k' b'|i j]; cbn [hit_data hit_code repair verdict possible] in *.
  - rewrite verify256_judge by done. by rewrite code_xor_self.
  - rewrite <- (length_flip k b l), verify256_judge by (done || by apply flip_block, Hl; apply He).
    rewrite flip_diff by done. by apply judge_syndrome.
  - destruct He as (Hb & Hb' & Hne). rewrite <- (length_flip k b l), <- (length_flip k' b' (flip k b l)).
    rewrite verify256_judge; [|by repeat (apply flip_block; [apply Hb' || apply Hb|])|done..].
    rewrite flip_diff_2 by done.
    destruct (double_weight k b k' b') as (Hc & H0 & Hw); try done; try (by destruct Hl, Hb, Hb'; lia).
    rewrite judge_weight; [|done|done|intros E; by rewrite E in Hw].
    assert ((weight (code_xor (syndrome k b) (syndrome k' b')) =? 1) = false) as ->; [|done].
    apply Z.eqb_neq. intros E. by rewrite E in Hw.
  - destruct He as [Hi Hj]. destruct (code_bit_diff i j (hamming_code l) Hi Hj) as (c' & -> & Hc & H0 & Hw).
    rewrite verify256_judge by done. rewrite judge_weight; [by rewrite Hw|done|done|by rewrite Hw].
Qed.

(** ** Any number of blocks *)

(** All blocks but the last one are full. *)
Fixpoint blocks (bs : list (list Z)) : Prop :=
  match bs with
  | [] => True
  | l :: bs => is_block l ∧ (bs ≠ [] → length l = 256%nat) ∧ blocks bs
  end.

Definition size_of (bs : list (list Z)) : Z := Z.of_nat (length (concat bs)).

Lemma size_cons l bs : size_of (l :: bs) = Z.of_nat (length l) + size_of bs.
Proof. unfold size_of. simpl. rewrite length_app. lia. Qed.

(** One round of either loop takes one block. *)
Lemma round_size l bs :
  blocks (l :: bs) → size_of (l :: bs) < 2 ^ 32 →
  0 < size_of (l :: bs) ∧ padding_of (size_of (l :: bs)) = padding_of (Z.of_nat (length l)) ∧
  u32 (size_of (l :: bs) - (256 - padding_of (Z.of_nat (length l)))) = size_of bs.
Proof.
  intros ([_ Hl] & Hf & _) Hs. rewrite size_cons in *. unfold padding_of, u8, u32.
  assert (0 <= size_of bs) by (unfold size_of; lia). split; [lia|].
  destruct bs as [|l' bs].
  - change (size_of []) with 0 in *. rewrite Z.add_0_r in *. split; [done|].
    destruct (Z.ltb_spec (Z.of_nat (length l)) 256); [rewrite (Z.mod_small (256 - _) 256) by lia|];
      rewrite Z.mod_small; lia.
  - rewrite (Hf ltac:(done)) in *. change (Z.of_nat 256 <? 256) with false.
    assert ((Z.of_nat 256 + size_of (l' :: bs) <? 256) = false) as -> by lia. split; [done|].
    rewrite Z.mod_small; lia.
Qed.

Lemma rounds_enough bs : blocks bs → (S (length bs) <= rounds (size_of bs))%nat.
Proof.
  intros Hb. assert (256 * (Z.of_nat (length bs) - 1) <= size_of bs).
  { induction bs as [|l bs IH]; [unfold size_of; simpl; lia|]. destruct Hb as ([_ Hl] & Hf & Hb).
    rewrite size_cons. specialize (IH Hb). destruct bs as [|l' bs]; [unfold size_of in *; simpl in *; lia|].
    rewrite (Hf ltac:(done)). simpl length in *. lia. }
  assert (0 <= size_of bs) by (unfold size_of; lia).
  unfold rounds. assert (Z.of_nat (length bs) - 1 <= size_of bs / 256) by (apply Z.div_le_lower_bound; lia). lia.
Qed.

(** The next block begins where this one ends, unless it was the last. *)
Lemma next_block (pre l : list Z) bs :
  blocks (l :: bs) → bs ≠ [] → Z.of_nat (length pre) + 256 = Z.of_nat (length (pre ++ l)).
Proof. intros (_ & Hf & _) Hn. rewrite length_app, (Hf Hn). lia. Qed.

Definition codes_of (bs : list (list Z)) : list Z := concat (code_list ∘ hamming_code <$> bs).

Lemma codes_cons l bs : codes_of (l :: bs) = code_list (hamming_code l) ++ codes_of bs.
Proof. reflexivity. Qed.

Lemma compute_loop_done fuel mem data codes ptr : (0 < fuel)%nat → compute_loop fuel mem data 0 codes ptr = Ok codes.
Proof. by destruct fuel; [lia|]. Qed.

Lemma write_code {A} (K : list Z → result A) cpre buf c0 c1 c2 :
  (3 <= length buf)%nat →
  (codes ← aset (cpre ++ buf) (Z.of_nat (length cpre)) c0;
   codes ← aset codes (Z.of_nat (length cpre) + 1) c1;
   codes ← aset codes (Z.of_nat (length cpre) + 2) c2; K codes) = K ((cpre ++ [c0; c1; c2]) ++ drop 3 buf).
Proof.
  destruct buf as [|x [|y [|z buf]]]; simpl; try lia. intros _.
  rewrite aset_app by done. simpl. rewrite (cons_middle c0 cpre), app_assoc, aset_app by (rewrite length_app; simpl; lia).
  simpl. rewrite (cons_middle c1), app_assoc, aset_app by (rewrite !length_app; simpl; lia).
  simpl. by rewrite <- !app_assoc.
Qed.

Lemma compute_loop_Ok fuel pre bs post cpre buf :
  blocks bs → size_of bs < 2 ^ 32 → (length bs < fuel)%nat → (3 * length bs <= length buf)%nat →
  compute_loop fuel (pre ++ concat bs ++ post) (Z.of_nat (length pre)) (size_of bs) (cpre ++ buf) (Z.of_nat (length cpre)) =
    Ok (cpre ++ codes_of bs ++ drop (3 * length bs) buf).
Proof.
  revert fuel pre cpre buf. induction bs as [|l bs IH]; intros fuel pre cpre buf Hb Hs Hf Hbuf.
  { by rewrite compute_loop_done. }
  destruct fuel as [|fuel]; [lia|]. destruct (round_size l bs Hb Hs) as (H0 & Hp & Hn).
  cbn [compute_loop]. rewrite (proj2 (Z.ltb_lt _ _) H0), Hp. cbv iota zeta. rewrite Hn.
  simpl concat. rewrite <- app_assoc, compute256_Ok; [|apply Hb|by exists pre, (concat bs ++ post)].
  cbn [mbind result_bind]. rewrite codes_cons. simpl length in Hbuf, Hf.
  destruct (hamming_code l) as [[c0 c1] c2] eqn:Ec. rewrite write_code by lia.
  change (code_list (c0, c1, c2)) with [c0; c1; c2].
  replace (Z.of_nat (length cpre) + 3) with (Z.of_nat (length (cpre ++ [c0; c1; c2]))) by (rewrite length_app; simpl; lia).
  destruct (decide (bs = [])) as [->|Hne].
  { rewrite compute_loop_done by lia. by rewrite <- !app_assoc. }
  rewrite (next_block pre l bs) by done. rewrite (app_assoc pre).
  rewrite IH; [|apply Hb|pose proof (size_cons l bs); lia|lia|rewrite length_drop; lia].
  replace (3 * length (l :: bs))%nat with (3 + 3 * length bs)%nat by (simpl length; lia).
  by rewrite drop_drop, <- !app_assoc.
Qed.

(** ** The specification of the verification *)

(** The received data, and the received codes, three bytes a block. *)
Definition received (es : list block_error) (bs : list (list Z)) : list Z := concat (zip_with hit_data es bs).

Fixpoint received_codes (es : list block_error) (codes : list Z) : list Z :=
  match es with
  | [] => []
  | e :: es =>
      (match e with CodeBit i j => flip i j (take 3 codes) | _ => take 3 codes end) ++ received_codes es (drop 3 codes)
  end.

(** The verification goes on behind an intact and a repaired block, and stops at
    any other. *)
Fixpoint verdicts (r : Z) (es : list block_error) : Z :=
  match es with
  | [] => r
  | Intact :: es => verdicts r es
  | OneBit _ _ :: es => verdicts Hamming_ERROR_SINGLEBIT es
  | e :: _ => verdict e
  end.

Fixpoint repairs (es : list block_error) (bs : list (list Z)) : list Z :=
  match es, bs with
  | e :: es, l :: bs =>
      match e with
      | Intact | OneBit _ _ => l ++ repairs es bs
      | _ => hit_data e l ++ received es bs
      end
  | _, _ => []
  end.

Lemma received_codes_of es bs :
  length es = length bs → received_codes es (codes_of bs) = concat (zip_with (λ e l, hit_code e (hamming_code l)) es bs).
Proof.
  revert bs. induction es as [|e es IH]; intros [|l bs] Hl; try done. injection Hl as Hl.
  cbn [received_codes zip_with concat]. rewrite codes_cons, take_app_length', drop_app_length', IH by done.
  by destruct e.
Qed.

Lemma length_hit_code e c : length (hit_code e c) = 3%nat.
Proof. destruct e; unfold hit_code; by rewrite ?length_flip. Qed.

Lemma verify_loop_done fuel mem data codes ptr r : (0 < fuel)%nat → verify_loop fuel mem data 0 codes ptr r = Ok (r, mem).
Proof. by destruct fuel; [lia|]. Qed.

Lemma verify_loop_Ok fuel pre es bs post cpre cpost r :
  blocks bs → size_of bs < 2 ^ 32 → (length bs < fuel)%nat → Forall2 possible es bs →
  verify_loop fuel (pre ++ received es bs ++ post) (Z.of_nat (length pre)) (size_of bs)
    (cpre ++ concat (zip_with (λ e l, hit_code e (hamming_code l)) es bs) ++ cpost) (Z.of_nat (length cpre)) r =
    Ok (verdicts r es, pre ++ repairs es bs ++ post).
Proof.
  intros Hb Hs Hf He. revert fuel pre cpre r Hb Hs Hf.
  induction He as [|e l es bs He Hes IH]; intros fuel pre cpre r Hb Hs Hf.
  { by rewrite verify_loop_done. }
  destruct fuel as [|fuel]; [lia|]. destruct (round_size l bs Hb Hs) as (H0 & Hp & Hn).
  unfold received in *. cbn [verify_loop zip_with concat]. rewrite (proj2 (Z.ltb_lt _ _) H0), Hp. cbv iota zeta. rewrite Hn.
  rewrite <- !app_assoc, verify256_block by (done || apply Hb). cbn [mbind result_bind].
  set (hc := hit_code e (hamming_code l)).
  assert (length hc = 3%nat) as Hhc by apply length_hit_code.
  assert (∀ r', verify_loop fuel (pre ++ l ++ concat (zip_with hit_data es bs) ++ post) (Z.of_nat (length pre) + 256) (size_of bs)
    (cpre ++ hc ++ concat (zip_with (λ e l, hit_code e (hamming_code l)) es bs) ++ cpost)
    (Z.of_nat (length cpre) + 3) r' = Ok (verdicts r' es, pre ++ (l ++ repairs es bs) ++ post)) as Hgo.
  { intros r'. rewrite <- (app_assoc l). destruct (decide (bs = [])) as [->|Hne].
    { apply Forall2_nil_inv_r in Hes as ->. rewrite verify_loop_done by (simpl in Hf; lia). done. }
    rewrite (next_block pre l bs) by done. rewrite (app_assoc pre), (app_assoc cpre).
    replace (Z.of_nat (length cpre) + 3) with (Z.of_nat (length (cpre ++ hc))) by (rewrite length_app, Hhc; lia).
    rewrite IH; [by rewrite <- !app_assoc|apply Hb|pose proof (size_cons l bs); lia|simpl in Hf; lia]. }
  destruct e; cbn [verdict repair verdicts repairs hit_data];
    rewrite ?(Z.eqb_refl Hamming_ERROR_SINGLEBIT); cbn -[app verify_loop hamming_code concat zip_with Z.add]; try apply Hgo;
    by rewrite <- app_assoc.
Qed.

(** ** Theorem *)

(** C18: The codes of any number of blocks (all of 256 bytes but the last) are
    computed without a fault. If then at most two bits of each block or one bit
    of its code are inverted, the verification does exactly this: it repairs a
    single inverted bit of the data, wherever it is, and goes on; it stops at the
    first block with two inverted bits or a damaged code and says which of the two
    it is; if it does not stop, all data are as they were, and the result says
    whether a bit had to be repaired. Memory around the data is not changed. *)
Theorem hamming_correct pre bs post es buf :
  blocks bs → size_of bs < 2 ^ 32 → length buf = (3 * length bs)%nat → Forall2 possible es bs →
  ∃ codes,
    hamming_compute256x (pre ++ concat bs ++ post) (Z.of_nat (length pre)) (size_of bs) buf 0 = Ok codes ∧
    hamming_verify256x (pre ++ received es bs ++ post) (Z.of_nat (length pre)) (size_of bs) (received_codes es codes) 0 =
      Ok (verdicts Hamming_ERROR_NONE es, pre ++ repairs es bs ++ post).
Proof.
  intros Hb Hs Hbuf He. pose proof (rounds_enough bs Hb). exists (codes_of bs). split.
  - unfold hamming_compute256x. rewrite (compute_loop_Ok _ pre bs post [] buf) by (done || lia).
    rewrite drop_ge by lia. by rewrite app_nil_r.
  - unfold hamming_verify256x. rewrite received_codes_of by (by eapply Forall2_length).
    pose proof (verify_loop_Ok (rounds (size_of bs)) pre es bs post [] [] Hamming_ERROR_NONE) as Hv.
    rewrite app_nil_r in Hv. apply Hv; done || lia.
Qed.

(** Two blocks, with one bit inverted in each. *)
Lemma hamming_correct_witness :
  ∃ codes,
    hamming_compute256x (concat [replicate 256 0xab; [1; 2; 3]]) 0 259 (replicate 6 0) 0 = Ok codes ∧
    hamming_verify256x (received [OneBit 10 4; OneBit 2 7] [replicate 256 0xab; [1; 2; 3]]) 0 259
      (received_codes [OneBit 10 4; OneBit 2 7] codes) 0 =
      Ok (Hamming_ERROR_SINGLEBIT, concat [replicate 256 0xab; [1; 2; 3]]).
Proof.
  destruct (hamming_correct [] [replicate 256 0xab; [1; 2; 3]] [] [OneBit 10 4; OneBit 2 7] (replicate 6 0)) as (codes & H1 & H2).
  - assert (∀ n, Forall is_byte (replicate n 0xab)) as Hr by (intros n; apply Forall_replicate; unfold is_byte; lia).
    split; [split; [apply Hr|simpl; lia]|]. split; [reflexivity|].
    split; [|split; [intros []; reflexivity|exact I]].
    split; [repeat constructor; unfold is_byte; lia|simpl; lia].
  - reflexivity.
  - reflexivity.
  - repeat constructor; simpl; lia.
  - exists codes. rewrite !app_nil_r in H1, H2. exact (conj H1 H2).
Defined.

(** *** Damage beyond that

    Three inverted bits look like one at the sum of their positions. In a block
    that is shorter than 256 bytes this may be behind the data, and the function
    writes there. *)
Example verify_writes_behind :
  let data := replicate 130 0 in
  match hamming_compute256x data 0 130 [0; 0; 0] 0 with
  | Ok codes => hamming_verify256x (flip 1 0 (flip 2 0 (flip 128 0 data))) 0 130 codes 0
  | Fault e => Fault e
  end = Fault OutOfBounds.
Proof. by vm_compute. Qed.
