(* ===== verification/Cmac.v ===== *)
(** * sys/hashes/cmac.c: message authentication with AES

    All functions of cmac.c, and the theorem that they compute the AES-CMAC of
    RFC 4493. The contents of uninitialised local arrays are parameters. *)

From S2P Require Import Prelude Words Cipher Aes AesCorrect Modes.
Open Scope Z_scope.

(** ** The code *)

Definition CMAC_BLOCK_SIZE : Z := 16.

Record cmac_context_t : Type := Cmac_context {
  aes_ctx : cipher_t;
  X : list Z;
  M_last : list Z;
  M_n : Z
}.

(** [n] rounds remain. *)
Fixpoint xor128_loop (n : nat) (x y : list Z) : result (list Z) :=
  match n with
  | O => Ok y
  | S n' =>
      let i := 16 - Z.of_nat n in
      a ← aget x i; b ← aget y i;
      y ← aset y i (Z.lxor a b);
      xor128_loop n' x y
  end.

Definition _xor128 (x y : list Z) : result (list Z) := xor128_loop 16 x y.

(** The source is another array, or ([None]) the destination itself. *)
Fixpoint leftshift_loop (n : nat) (x : option (list Z)) (y : list Z) : result (list Z) :=
  match n with
  | O => Ok y
  | S n' =>
      let i := 15 - Z.of_nat n in
      a ← aget (default y x) i; b ← aget (default y x) (i + 1);
      y ← aset y i (u8 (Z.lor (Z.shiftl a 1) (Z.shiftr b 7)));
      leftshift_loop n' x y
  end.

Definition _leftshift (x : option (list Z)) (y : list Z) : result (list Z) :=
  y ← leftshift_loop 15 x y;
  a ← aget (default y x) 15;
  aset y 15 (u8 (Z.shiftl a 1)).

Section Code.
(** [CIPHER_AES_128], and the local arrays [d] and [L]. *)
Variable CIPHER_AES_128 : cipher_interface_t.

(** [memset] clears the context; the pointer to the interface is set by
    [cipher_init]. *)
Definition cmac_init (ctx : cmac_context_t) (key : list Z) (key_size : Z) : result (Z * cmac_context_t) :=
  if negb (key_size =? CMAC_BLOCK_SIZE) then Ok (CIPHER_ERR_INVALID_KEY_SIZE, ctx)
  else
    let zero := replicate 16 0 in
    let aes := Cipher (interface (aes_ctx ctx)) (replicate (Z.to_nat CIPHER_MAX_CONTEXT_SIZE) 0) in
    '(res, aes) ← cipher_init aes CIPHER_AES_128 key key_size;
    Ok (res, Cmac_context aes zero zero 0).

(** [data] is the buffer and the offset the pointer has got to. *)
Fixpoint update_loop (fuel : nat) (ctx : cmac_context_t) (d data : list Z) (off len : Z) : result cmac_context_t :=
  match fuel with
  | O => Fault OutOfFuel
  | S fuel =>
      if len =? 0 then Ok ctx
      else
        '(ctx, d) ←
          (if M_n ctx =? 16 then
             x ← _xor128 (M_last ctx) (X ctx);
             '(_, d) ← cipher_encrypt (aes_ctx ctx) x d;
             x ← memcpy x 0 d 0 CMAC_BLOCK_SIZE;
             Ok (Cmac_context (aes_ctx ctx) x (M_last ctx) 0, d)
           else Ok (ctx, d));
        let room := u32 (CMAC_BLOCK_SIZE - M_n ctx) in
        let c := u8 (if room <? len then room else len) in
        last ← memcpy (M_last ctx) (M_n ctx) data off c;
        let ctx := Cmac_context (aes_ctx ctx) (X ctx) last (u32 (M_n ctx + c)) in
        if M_n ctx <? CMAC_BLOCK_SIZE then Ok ctx
        else update_loop fuel ctx d data (off + c) (u32 (len - c))
  end.

Definition cmac_update (ctx : cmac_context_t) (d data : list Z) (len : Z) : result cmac_context_t :=
  update_loop (S (Z.to_nat len)) ctx d data 0 len.

(** Doubling in the field: [if (x[0] & 0x80) { _leftshift(x, K); K[15] ^= 0x87; } else { _leftshift(x, K); }] *)
Definition double (x : option (list Z)) (k : list Z) : result (list Z) :=
  a ← aget (default k x) 0;
  if negb (Z.land a 0x80 =? 0) then
    k ← _leftshift x k;
    b ← aget k 15;
    aset k 15 (Z.lxor b 0x87)
  else _leftshift x k.

(** [memset(M_last + M_n, 0, CMAC_BLOCK_SIZE - M_n); M_last[M_n] = 0x80;] *)
Definition pad_last (last : list Z) (n : Z) : result (list Z) :=
  last ← memcpy last n (replicate (Z.to_nat (CMAC_BLOCK_SIZE - n)) 0) 0 (CMAC_BLOCK_SIZE - n);
  aset last n 0x80.

(** The context and the digest. *)
Definition cmac_final (ctx : cmac_context_t) (L digest : list Z) : result (cmac_context_t * list Z) :=
  let k := replicate 16 0 in
  '(_, L) ← cipher_encrypt (aes_ctx ctx) k L;
  k ← double (Some L) k;
  '(k, last) ←
    (if negb (M_n ctx =? 16) then
       k ← double None k;
       last ← pad_last (M_last ctx) (M_n ctx);
       Ok (k, last)
     else Ok (k, M_last ctx));
  last ← _xor128 k last;
  x ← _xor128 last (X ctx);
  '(_, L) ← cipher_encrypt (aes_ctx ctx) x L;
  digest ← memcpy digest 0 L 0 CMAC_BLOCK_SIZE;
  Ok (Cmac_context (aes_ctx ctx) x last (M_n ctx), digest).
End Code.

(** ** The specification: RFC 4493 *)

Module Rfc4493.
Section Spec.
Context (E : list Z → list Z).

(** Blocks as 128-bit numbers, the most significant byte first. *)
Definition number (b : list Z) : Z := foldl (λ v x, 256 * v + x) 0 b.
Definition block_of (v : Z) : list Z := (λ i : nat, (v / 256 ^ (15 - Z.of_nat i)) mod 256) <$> seq 0 16.

(** Doubling in the field of [2^128] elements. *)
Definition dbl (b : list Z) : list Z :=
  let v := number b in
  block_of (if v <? 2 ^ 127 then 2 * v else Z.lxor (2 * v mod 2 ^ 128) 0x87).

Definition K1 : list Z := dbl (E (replicate 16 0)).
Definition K2 : list Z := dbl K1.

(** The number of blocks in front of the last one, which is empty only in an
    empty message. *)
Definition full (m : list Z) : nat := ((length m - 1) / 16)%nat.
Definition nth_block (m : list Z) (i : nat) : list Z := take 16 (drop (16 * i) m).
Definition chain (m : list Z) (n : nat) : list Z :=
  foldl (λ x i, E (bxor (nth_block m i) x)) (replicate 16 0) (seq 0 n).

Definition last_block (m : list Z) : list Z := drop (16 * full m) m.
Definition padded (l : list Z) : list Z := l ++ 0x80 :: replicate (15 - length l) 0.

Definition cmac (m : list Z) : list Z :=
  let l := last_block m in
  let l := if decide (length l = 16%nat) then bxor K1 l else bxor K2 (padded l) in
  E (bxor l (chain m (full m))).
End Spec.
End Rfc4493.
Import Rfc4493.

(** ** Doubling *)

Lemma number_snoc l x : number (l ++ [x]) = 256 * number l + x.
Proof. unfold number. by rewrite foldl_app. Qed.

Lemma number_bound l : Forall is_byte l → 0 <= number l < 256 ^ Z.of_nat (length l).
Proof.
  induction l as [|x l IH] using rev_ind; intros Hl; [done|].
  apply Forall_app in Hl as [Hl Hx]. apply Forall_cons in Hx as [Hx _]. unfold is_byte in Hx.
  rewrite number_snoc, length_app, Nat.add_1_r, Nat2Z.inj_succ, Z.pow_succ_r by lia. specialize (IH Hl). lia.
Qed.

Lemma number_cons x l : number (x :: l) = x * 256 ^ Z.of_nat (length l) + number l.
Proof.
  induction l as [|y l IH] using rev_ind; [unfold number; simpl; lia|].
  rewrite app_comm_cons, !number_snoc, IH, length_app, Nat.add_1_r, Nat2Z.inj_succ, Z.pow_succ_r by lia. lia.
Qed.

Lemma number_app l r : number (l ++ r) = number l * 256 ^ Z.of_nat (length r) + number r.
Proof.
  induction l as [|x l IH]; [done|]. simpl. rewrite !number_cons, IH, length_app, Nat2Z.inj_add, Z.pow_add_r by lia. lia.
Qed.

Lemma block_of_number b : is_block 16 b → block_of (number b) = b.
Proof.
  intros [Hl Hb]. apply list_eq_same_length with 16%nat; [lia|by unfold block_of; rewrite length_fmap, length_seq|].
  intros i x y Hi Hx Hy. unfold block_of in Hx. apply list_lookup_fmap_Some in Hx as (j & -> & Hj).
  apply lookup_seq in Hj as [-> _]. simpl.
  rewrite <- (take_drop_middle _ _ _ Hy), number_app, number_cons. cbn [length].
  rewrite length_drop, Nat2Z.inj_succ. replace (Z.of_nat (length b - S i)) with (15 - Z.of_nat i) by lia.
  pose proof (number_bound (drop (S i) b) ltac:(by apply Forall_drop)) as Hd.
  rewrite length_drop in Hd. replace (Z.of_nat (length b - S i)) with (15 - Z.of_nat i) in Hd by lia.
  assert (is_byte y) by (by eapply Forall_lookup_1 in Hy). unfold is_byte in *.
  set (B := 256 ^ (15 - Z.of_nat i)) in *. rewrite Z.pow_succ_r by lia. fold B.
  replace (number (take i b) * (256 * B) + (y * B + number (drop (S i) b)))
    with (number (drop (S i) b) + (number (take i b) * 256 + y) * B) by lia.
  rewrite Z.div_add, (Z.div_small (number _)), Z.add_0_l by lia.
  rewrite Z.add_comm, Z.mod_add, Z.mod_small by lia. done.
Qed.

(** The shift of a number of any length by one bit. *)
Fixpoint shl (b : list Z) : list Z :=
  match b with
  | [] => []
  | x :: r => (2 * x mod 256 + default 0 (head r) / 128) :: shl r
  end.

Lemma length_shl b : length (shl b) = length b.
Proof. induction b as [|x b IH]; simpl; by rewrite ?IH. Qed.

Lemma top_bit x r : Forall is_byte (x :: r) → 2 * number (x :: r) / 256 ^ Z.of_nat (length (x :: r)) = x / 128.
Proof.
  intros [Hx Hr]%Forall_cons. rewrite number_cons. cbn [length]. rewrite Nat2Z.inj_succ, Z.pow_succ_r by lia.
  pose proof (number_bound r Hr) as Hb. set (B := 256 ^ Z.of_nat (length r)) in *. unfold is_byte in Hx.
  symmetry. apply (Z.div_unique _ _ _ (2 * (x mod 128) * B + 2 * number r)).
  - left. pose proof (Z.mod_pos_bound x 128). nia.
  - rewrite (Z.div_mod x 128) at 1 by lia. lia.
Qed.

Lemma double_mod x : 0 <= 2 * x mod 256 <= 254.
Proof. dlia. Qed.

Lemma number_shl b : Forall is_byte b → number (shl b) = 2 * number b mod 256 ^ Z.of_nat (length b).
Proof.
  induction b as [|x r IH]; intros Hb; [done|]. cbn [shl]. rewrite number_cons, length_shl.
  assert (Forall is_byte r) as Hr by (by inversion Hb). rewrite IH by done.
  assert (default 0 (head r) / 128 = 2 * number r / 256 ^ Z.of_nat (length r)) as ->.
  { destruct r as [|y r]; [done|]. by rewrite top_bit. }
  rewrite number_cons. cbn [length]. rewrite Nat2Z.inj_succ, Z.pow_succ_r by lia.
  set (B := 256 ^ Z.of_nat (length r)). assert (0 < B) by (apply Z.pow_pos_nonneg; lia).
  apply Forall_cons in Hb as [Hx _]. unfold is_byte in Hx. pose proof (number_bound r Hr).
  apply (Z.mod_unique _ _ (2 * x / 256)).
  - left. pose proof (Z.mod_pos_bound (2 * number r) B). pose proof (Z.mod_pos_bound (2 * x) 256).
    assert (0 <= 2 * number r / B <= 1).
    { split; [apply Z.div_pos; lia|]. apply Z.lt_succ_r, Z.div_lt_upper_bound; lia. }
    pose proof (double_mod x).
    nia.
  - replace (2 * (x * B + number r)) with (2 * x * B + 2 * number r) by lia.
    pose proof (Z.div_mod (2 * x) 256 ltac:(lia)) as Ex. pose proof (Z.div_mod (2 * number r) B ltac:(lia)) as Er.
    rewrite Er at 1. rewrite Ex at 1. lia.
Qed.

Lemma shl_bytes b : Forall is_byte b → Forall is_byte (shl b).
Proof.
  induction b as [|x r IH]; intros Hb; [done|]. apply Forall_cons in Hb as [Hx Hr]. cbn [shl]. apply Forall_cons.
  split; [|by apply IH]. assert (0 <= default 0 (head r) / 128 <= 1).
  { destruct Hr as [|y r Hy Hr]; [done|]. unfold is_byte in Hy. simpl. split; [apply Z.div_pos; lia|].
    apply Z.lt_succ_r, Z.div_lt_upper_bound; lia. }
  unfold is_byte in *. pose proof (double_mod x).
  pose proof (Z.mod_pos_bound (2 * x) 256). lia.
Qed.

Lemma land_shiftl_small x y n : 0 <= n → 0 <= y < 2 ^ n → Z.land (Z.shiftl x n) y = 0.
Proof.
  intros Hn Hy. apply Z.bits_inj'. intros i Hi. rewrite Z.land_spec, Z.bits_0, Z.shiftl_spec by done.
  destruct (decide (i < n)); [by rewrite Z.testbit_neg_r by lia|].
  rewrite (testbit_above n y) by lia. apply andb_false_r.
Qed.

(** The byte the loop writes. *)
Lemma shift_byte x y : is_byte x → is_byte y → u8 (Z.lor (Z.shiftl x 1) (Z.shiftr y 7)) = 2 * x mod 256 + y / 128.
Proof.
  intros Hx Hy. rewrite Z.shiftr_div_pow2 by lia. change (2 ^ 7) with 128.
  assert (0 <= y / 128 < 2 ^ 1) by (unfold is_byte in Hy; dlia).
  rewrite <- Z.lxor_lor, lxor_shiftl_add by (lia || apply land_shiftl_small; lia). unfold u8. dlia.
Qed.

(** Blocks with names for their bytes. *)
Lemma xor128_Ok x y : length x = 16%nat → length y = 16%nat → _xor128 x y = Ok (bxor x y).
Proof. intros Hx Hy. explode x. explode y. reflexivity. Qed.

Definition shifted (b : list Z) : list Z :=
  zip_with (λ x y, u8 (Z.lor (Z.shiftl x 1) (Z.shiftr y 7))) (take 15 b) (drop 1 b) ++ [u8 (Z.shiftl (b !!! 15%nat) 1)].

Lemma leftshift_other x y : length x = 16%nat → length y = 16%nat → _leftshift (Some x) y = Ok (shifted x).
Proof. intros Hx Hy. explode x. explode y. reflexivity. Qed.

Lemma leftshift_same y : length y = 16%nat → _leftshift None y = Ok (shifted y).
Proof. intros Hy. explode y. reflexivity. Qed.

Lemma shifted_shl b : is_block 16 b → shifted b = shl b.
Proof.
  intros [Hl Hb]. assert (length b = 16%nat) as Hn by lia. clear Hl. explode b.
  repeat match goal with H : Forall _ (_ :: _) |- _ => apply Forall_cons in H as [? H] end.
  unfold shifted. simpl zip_with. rewrite !shift_byte by done. cbn [shl head default app lookup_total list_lookup_total].
  unfold u8. rewrite Z.shiftl_mul_pow2 by lia. change (2 ^ 1) with 2. rewrite (Z.mul_comm _ 2). by rewrite Z.add_0_r.
Qed.

(** The top bit of the first byte is the top bit of the number. *)
Lemma top_bit_set x r :
  is_byte x → Forall is_byte r → length r = 15%nat → negb (Z.land x 0x80 =? 0) = negb (number (x :: r) <? 2 ^ 127).
Proof.
  intros Hx Hr Hl. f_equal. rewrite number_cons, Hl. pose proof (number_bound r Hr) as Hb. rewrite Hl in Hb.
  change (Z.of_nat 15) with 15 in *. change (256 ^ 15) with (2 ^ 120) in *.
  assert ((Z.land x 128 =? 0) = (x <? 128)) as ->.
  { apply eqb_true_iff. revert x Hx. by apply byte_check. }
  change (2 ^ 127) with (128 * 2 ^ 120). set (B := 2 ^ 120) in *. unfold is_byte in Hx. clearbody B. apply Bool.eq_iff_eq_true.
  rewrite !Z.ltb_lt. nia.
Qed.

Lemma double_Ok x y k :
  is_block 16 x → length k = 16%nat → (y = Some x ∨ y = None ∧ k = x) → double y k = Ok (dbl x).
Proof.
  intros Hx Hk Hy. assert (length x = 16%nat) as Hl by (destruct Hx; lia). pose proof Hx as [_ Hb].
  assert (_leftshift y k = Ok (shl x)) as Hs.
  { destruct Hy as [->|[-> ->]]; rewrite ?leftshift_other, ?leftshift_same, shifted_shl by done; done. }
  assert (default k y = x) as Hd by (by destruct Hy as [->|[-> ->]]).
  unfold double. rewrite Hd, Hs. clear Hs Hd Hy.
  assert (number (shl x) = 2 * number x mod 2 ^ 128) as Hn.
  { rewrite number_shl, Hl by done. done. }
  assert (is_block 16 (shl x)) as Hsh by (split; [rewrite length_shl; lia|by apply shl_bytes]).
  destruct x as [|x0 r]; [done|]. apply Forall_cons in Hb as [Hx0 Hr]. simpl in Hl.
  change (aget (x0 :: r) 0) with (Ok x0). rewrite result_bind_Ok, (top_bit_set x0 r) by (done || lia).
  unfold dbl. destruct (number (x0 :: r) <? 2 ^ 127) eqn:E; cbn [negb].
  - f_equal. rewrite <- (block_of_number (shl (x0 :: r))) by done. rewrite Hn. f_equal.
    apply Z.mod_small. pose proof (number_bound (x0 :: r) ltac:(by apply Forall_cons)). lia.
  - rewrite result_bind_Ok, <- Hn. set (b := shl (x0 :: r)) in *. clearbody b.
    destruct Hsh as [Hbl Hbb]. assert (length b = 16%nat) as Hb16 by lia.
    destruct b as [|z b _] using rev_ind; [done|]. rewrite length_app in *. simpl in *.
    apply Forall_app in Hbb as [Hbb Hz]. apply Forall_cons in Hz as [Hz _].
    rewrite aget_app by lia. rewrite result_bind_Ok, aset_app by lia. f_equal.
    rewrite number_snoc.
    assert (Z.lxor (256 * number b + z) 135 = 256 * number b + Z.lxor z 135) as ->.
    { pose proof (lxor_shiftl_add (number b) z 8 ltac:(lia) Hz) as E1.
      pose proof (lxor_shiftl_add (number b) (Z.lxor z 135) 8 ltac:(lia) (lxor_byte z 135 Hz ltac:(done))) as E2.
      rewrite (Z.mul_comm 256). change 256 with (2 ^ 8). rewrite <- E1, <- E2. apply Z.lxor_assoc. }
    rewrite <- number_snoc, block_of_number; [done|]. split; [rewrite length_app; simpl; lia|].
    apply Forall_app. split; [done|]. apply Forall_cons. split; [by apply lxor_byte|done].
Qed.

(** ** The context *)

Section Context.
Context (E : list Z → list Z) (c : cipher_t).
Hypothesis HE : ∀ b, is_block 16 b → is_block 16 (E b).
Hypothesis Hc : ∀ b out, is_block 16 b → length out = 16%nat → cipher_encrypt c b out = Ok (1, E b).

Lemma zeros_block : is_block 16 (replicate 16 0).
Proof. split; [done|]. by apply Forall_replicate. Qed.

(** The context after the message [m]. *)
Record ctx_rep (m : list Z) (ctx : cmac_context_t) : Prop := {
  rep_cipher : aes_ctx ctx = c;
  rep_chain : X ctx = chain E m (full m);
  rep_last : ∃ rest, M_last ctx = last_block m ++ rest ∧ length (M_last ctx) = 16%nat ∧ Forall is_byte rest;
  rep_n : M_n ctx = Z.of_nat (length (last_block m))
}.

Lemma last_length m : (length (last_block m) = length m - 16 * full m)%nat.
Proof. apply length_drop. Qed.

Lemma full_bounds m : (16 * full m <= length m <= 16 * full m + 16 ∧ (m ≠ [] → 16 * full m < length m))%nat.
Proof.
  unfold full. pose proof (Nat.div_mod (length m - 1) 16 ltac:(lia)). pose proof (Nat.mod_upper_bound (length m - 1) 16).
  split; [lia|]. destruct m; [done|]. simpl in *. lia.
Qed.

Lemma full_unique m n : (16 * n < length m <= 16 * n + 16)%nat → full m = n.
Proof. intros H. unfold full. symmetry. apply (Nat.div_unique _ _ _ (length m - 1 - 16 * n)); lia. Qed.

Lemma chain_S m n : chain E m (S n) = E (bxor (nth_block m n) (chain E m n)).
Proof. unfold chain. by rewrite seq_S, foldl_app. Qed.

(** The chain depends on the blocks it has gone through only. *)
Lemma chain_app m r n : (16 * n <= length m)%nat → chain E (m ++ r) n = chain E m n.
Proof.
  induction n as [|n IH]; intros Hn; [done|]. rewrite !chain_S, IH by lia. unfold nth_block.
  by rewrite drop_app_le, take_app_le by (rewrite ?length_drop; lia).
Qed.

Lemma chain_block m n : Forall is_byte m → (16 * n <= length m)%nat → is_block 16 (chain E m n).
Proof.
  intros Hm. induction n as [|n IH]; intros Hn; [apply zeros_block|]. rewrite chain_S.
  apply HE, bxor_block; [|apply IH; lia]. split; [|by apply Forall_take, Forall_drop].
  unfold nth_block. rewrite length_take, length_drop. lia.
Qed.

Lemma last_bytes m : Forall is_byte m → Forall is_byte (last_block m).
Proof. apply Forall_drop. Qed.

(** The parts of a message that is continued within the last block. *)
Lemma extend_last m r :
  (length (last_block m) + length r <= 16)%nat → r ≠ [] → full (m ++ r) = full m ∧ last_block (m ++ r) = last_block m ++ r.
Proof.
  intros Hr Hne. destruct (full_bounds m) as [Hb _]. rewrite last_length in Hr.
  assert (0 < length r)%nat by (by destruct r; [|simpl; lia]).
  assert (full (m ++ r) = full m) as Hf by (apply full_unique; rewrite length_app; lia).
  split; [done|]. unfold last_block. rewrite Hf, drop_app_le by lia. done.
Qed.

(** A message that begins a new block. *)
Lemma new_last m r :
  length (last_block m) = 16%nat → (0 < length r <= 16)%nat → full (m ++ r) = S (full m) ∧ last_block (m ++ r) = r.
Proof.
  intros Hl Hr. rewrite last_length in Hl. pose proof (full_bounds m) as [? _].
  assert (full (m ++ r) = S (full m)) as Hf by (apply full_unique; rewrite length_app; lia).
  split; [done|]. unfold last_block. rewrite Hf, drop_app_ge by lia. by replace (_ - _)%nat with 0%nat by lia.
Qed.

Lemma chain_new m r :
  length (last_block m) = 16%nat → chain E (m ++ r) (S (full m)) = E (bxor (last_block m) (chain E m (full m))).
Proof.
  intros Hl. pose proof Hl as Hl'. rewrite last_length in Hl'.
  rewrite chain_app, chain_S by lia. unfold nth_block. fold (last_block m). by rewrite firstn_all2 by lia.
Qed.

(** Writing a piece behind the bytes of the last block. *)
Lemma memcpy_piece (w rest r pre post : list Z) :
  length (w ++ rest) = 16%nat → (length w + length r <= 16)%nat →
  memcpy (w ++ rest) (Z.of_nat (length w)) (pre ++ r ++ post) (Z.of_nat (length pre)) (Z.of_nat (length r)) =
    Ok (w ++ r ++ drop (length r) rest).
Proof.
  intros Hl Hr. rewrite length_app in Hl. rewrite memcpy_Ok by (rewrite ?length_app; lia).
  rewrite <- Nat2Z.inj_add, !Nat2Z.id, take_app_length, drop_app_length, take_app_length.
  by rewrite drop_app_add.
Qed.

(** One piece, into a last block that has room. *)
Definition absorb (ctx : cmac_context_t) (w r : list Z) (rest : list Z) : cmac_context_t :=
  Cmac_context (aes_ctx ctx) (X ctx) (w ++ r ++ drop (length r) rest) (Z.of_nat (length w + length r)).

Lemma absorb_step fuel ctx d w rest r pre post :
  M_n ctx = Z.of_nat (length w) → M_last ctx = w ++ rest → length (w ++ rest) = 16%nat → (length w < 16)%nat →
  Z.of_nat (length r) < 2 ^ 32 →
  let r1 := take (16 - length w) r in
  (let room := u32 (CMAC_BLOCK_SIZE - M_n ctx) in
   let c := u8 (if room <? Z.of_nat (length r) then room else Z.of_nat (length r)) in
   last ← memcpy (M_last ctx) (M_n ctx) (pre ++ r ++ post) (Z.of_nat (length pre)) c;
   let ctx := Cmac_context (aes_ctx ctx) (X ctx) last (u32 (M_n ctx + c)) in
   if M_n ctx <? CMAC_BLOCK_SIZE then Ok ctx
   else update_loop fuel ctx d (pre ++ r ++ post) (Z.of_nat (length pre) + c) (u32 (Z.of_nat (length r) - c))) =
  if (length w + length r1 <? 16)%nat then Ok (absorb ctx w r1 rest)
  else update_loop fuel (absorb ctx w r1 rest) d ((pre ++ r1) ++ drop (16 - length w) r ++ post)
         (Z.of_nat (length (pre ++ r1))) (Z.of_nat (length (drop (16 - length w) r))).
Proof.
  intros Hn Hm Hl Hw Hr r1. assert (length r1 = min (16 - length w) (length r)) as Hr1 by apply length_take.
  assert (r = r1 ++ drop (16 - length w) r) as Hmem by (symmetry; apply take_drop).
  assert (pre ++ r ++ post = pre ++ r1 ++ drop (16 - length w) r ++ post) as ->.
  { rewrite Hmem at 1. by rewrite <- app_assoc. }
  cbv zeta. rewrite Hn, Hm. unfold CMAC_BLOCK_SIZE. rewrite (u32_small (16 - _)) by lia.
  assert (u8 (if 16 - Z.of_nat (length w) <? Z.of_nat (length r) then 16 - Z.of_nat (length w) else Z.of_nat (length r)) =
          Z.of_nat (length r1)) as ->.
  { unfold u8. case_match; rewrite Z.mod_small; lia. }
  rewrite memcpy_piece by (done || lia). rewrite result_bind_Ok. cbn [M_n aes_ctx X].
  rewrite !u32_small, <- Nat2Z.inj_add by lia. unfold absorb.
  replace (Z.of_nat (length w + length r1) <? 16) with (length w + length r1 <? 16)%nat.
  2:{ apply Bool.eq_iff_eq_true. rewrite Nat.ltb_lt, Z.ltb_lt. lia. }
  case_match; [done|]. rewrite length_app, length_drop, <- app_assoc. f_equal; lia.
Qed.

Lemma absorb_rep m ctx w r rest :
  full (m ++ r) = full m → aes_ctx ctx = c → X ctx = chain E m (full m) → last_block (m ++ r) = w ++ r →
  length (w ++ rest) = 16%nat → (length w + length r <= 16)%nat → Forall is_byte rest →
  ctx_rep (m ++ r) (absorb ctx w r rest).
Proof.
  intros Hf Ha Hx Hl Hlen Hr Hb. rewrite length_app in Hlen. pose proof (full_bounds m) as [? _]. split; simpl.
  - done.
  - rewrite Hx, Hf, chain_app by lia. done.
  - exists (drop (length r) rest). split; [by rewrite Hl, <- app_assoc|].
    split; [rewrite !length_app, length_drop; lia|by apply Forall_drop].
  - by rewrite Hl, length_app.
Qed.

Lemma memcpy_head (d tail src : list Z) :
  length d = 16%nat → length src = 16%nat → memcpy (d ++ tail) 0 src 0 CMAC_BLOCK_SIZE = Ok (src ++ tail).
Proof.
  intros Hd Hs. unfold CMAC_BLOCK_SIZE. rewrite memcpy_Ok by (rewrite ?length_app; lia).
  change (Z.to_nat 0) with 0%nat. simpl (take 0 _). rewrite drop_0. change (Z.to_nat 16) with 16%nat.
  change (Z.to_nat (0 + 16)) with 16%nat. rewrite (firstn_all2 src) by lia. by rewrite drop_app_length' by lia.
Qed.

(** A full block is encrypted into the chain. *)
Lemma flush d l x :
  is_block 16 l → is_block 16 x → length d = 16%nat →
  (x ← _xor128 l x;
   '(_, d) ← cipher_encrypt c x d;
   x ← memcpy x 0 d 0 CMAC_BLOCK_SIZE;
   Ok (Cmac_context c x l 0, d)) = Ok (Cmac_context c (E (bxor l x)) l 0, E (bxor l x)).
Proof.
  intros Hl Hx Hd. rewrite xor128_Ok by (destruct Hl, Hx; lia). rewrite result_bind_Ok.
  assert (is_block 16 (bxor l x)) as Hb by (by apply bxor_block). rewrite Hc by done. cbn [mbind result_bind].
  destruct (HE _ Hb) as [Hel _]. destruct Hb as [Hbl _].
  pose proof (memcpy_head (bxor l x) [] (E (bxor l x))) as Hcp. rewrite !app_nil_r in Hcp. by rewrite Hcp by lia.
Qed.

Lemma update_loop_Ok fuel ctx m d pre r post :
  ctx_rep m ctx → Forall is_byte m → Forall is_byte r → length d = 16%nat → Z.of_nat (length r) < 2 ^ 32 →
  (length r < fuel)%nat →
  ∃ ctx', update_loop fuel ctx d (pre ++ r ++ post) (Z.of_nat (length pre)) (Z.of_nat (length r)) = Ok ctx' ∧
    ctx_rep (m ++ r) ctx'.
Proof.
  revert ctx m d pre r. induction fuel as [|fuel IH]; intros ctx m d pre r Hrep Hm Hr Hd Hlen Hf; [lia|].
  cbn [update_loop]. destruct (decide (r = [])) as [->|Hne].
  { exists ctx. by rewrite app_nil_r. }
  assert (0 < length r)%nat by (destruct r; [done|simpl; lia]).
  assert ((Z.of_nat (length r) =? 0) = false) as -> by lia.
  destruct Hrep as [Ha Hx (rest & Hml & Hm16 & Hrest) Hn].
  assert (∀ w r1 rest' x ctx1 d1, ctx1 = Cmac_context c x (w ++ rest') (Z.of_nat (length w)) →
    length d1 = 16%nat → length (w ++ rest') = 16%nat → (length w < 16)%nat → r1 = take (16 - length w) r →
    ctx_rep (m ++ r1) (absorb ctx1 w r1 rest') →
    ∃ ctx', (let room := u32 (CMAC_BLOCK_SIZE - M_n ctx1) in
       let c := u8 (if room <? Z.of_nat (length r) then room else Z.of_nat (length r)) in
       last ← memcpy (M_last ctx1) (M_n ctx1) (pre ++ r ++ post) (Z.of_nat (length pre)) c;
       let ctx := Cmac_context (aes_ctx ctx1) (X ctx1) last (u32 (M_n ctx1 + c)) in
       if M_n ctx <? CMAC_BLOCK_SIZE then Ok ctx
       else update_loop fuel ctx d1 (pre ++ r ++ post) (Z.of_nat (length pre) + c) (u32 (Z.of_nat (length r) - c))) = Ok ctx' ∧
      ctx_rep (m ++ r) ctx') as Hgo.
  { intros w r1 rest' x ctx1 d1 E1 Hd1 Hl Hw -> Hrep1.
    rewrite (absorb_step fuel ctx1 d1 w rest' r pre post) by (by subst ctx1).
    destruct (Nat.ltb_spec (length w + length (take (16 - length w) r)) 16) as [Hs|Hs]; rewrite length_take in Hs.
    - eexists. split; [done|]. by rewrite take_ge in Hrep1 |- * by lia.
    - destruct (IH (absorb ctx1 w (take (16 - length w) r) rest') (m ++ take (16 - length w) r) d1 (pre ++ take (16 - length w) r)
        (drop (16 - length w) r)) as (ctx' & E2 & Hrep2); try done.
      + apply Forall_app. split; [done|by apply Forall_take].
      + by apply Forall_drop.
      + rewrite length_drop. lia.
      + rewrite length_drop. lia.
      + exists ctx'. split; [exact E2|]. by rewrite <- app_assoc, take_drop in Hrep2. }
  pose proof (full_bounds m) as [Hb _]. pose proof (last_length m) as Hll.
  destruct (decide (length (last_block m) = 16%nat)) as [H16|H16].
  - rewrite Hn, H16. change (Z.of_nat 16 =? 16) with true. cbv iota.
    assert (rest = []) as ->. { apply nil_length_inv. rewrite Hml, length_app in Hm16. lia. }
    rewrite app_nil_r in Hml.
    pose proof (chain_block m (full m) Hm ltac:(lia)) as Hch.
    assert (is_block 16 (last_block m)) as Hlb by (split; [lia|by apply last_bytes]).
    set (x := E (bxor (last_block m) (chain E m (full m)))).
    assert (is_block 16 x) as Hxb by (by apply HE, bxor_block).
    rewrite Ha, Hx, Hml, flush by done. fold x. rewrite result_bind_Ok.
    eapply (Hgo [] (take 16 r) (last_block m) x); try done; [destruct Hxb; lia|simpl; lia|].
    destruct (new_last m (take 16 r)) as [Hf1 Hl1]; [done|rewrite length_take; lia|].
    split; simpl.
    + done.
    + by rewrite Hf1, chain_new.
    + rewrite Hl1. exists (drop (length (take 16 r)) (last_block m)). split; [done|].
      split; [rewrite length_app, length_drop, length_take; lia|by apply Forall_drop, last_bytes].
    + by rewrite Hl1.
  - assert ((M_n ctx =? 16) = false) as -> by lia. rewrite result_bind_Ok.
    eapply (Hgo (last_block m) _ rest (X ctx)); try done; [|by rewrite <- Hml|lia|].
    { destruct ctx. simpl in *. by subst. }
    destruct (extend_last m (take (16 - length (last_block m)) r)) as [Hf1 Hl1]; [rewrite length_take; lia| |].
    { intros E1. apply (f_equal length) in E1. rewrite length_take in E1. simpl in E1. lia. }
    apply absorb_rep; try done; [by rewrite <- Hml|rewrite length_take; lia].
Qed.

Lemma pad_last_Ok l rest :
  length (l ++ rest) = 16%nat → (length l < 16)%nat → pad_last (l ++ rest) (Z.of_nat (length l)) = Ok (padded l).
Proof.
  intros Hl Hn. pose proof Hl as Hl'. rewrite length_app in Hl'. unfold pad_last, CMAC_BLOCK_SIZE.
  replace (Z.to_nat (16 - Z.of_nat (length l))) with (S (15 - length l)) by lia.
  pose proof (memcpy_piece l rest (replicate (S (15 - length l)) 0) [] [] Hl) as Hcp.
  rewrite length_replicate, app_nil_r in Hcp. cbn [app length] in Hcp.
  replace (Z.of_nat (S (15 - length l))) with (16 - Z.of_nat (length l)) in Hcp by lia.
  change (Z.of_nat 0) with 0 in Hcp. rewrite Hcp, result_bind_Ok by lia.
  rewrite drop_ge, app_nil_r by lia. simpl. by rewrite aset_app.
Qed.

Lemma padded_block l : Forall is_byte l → (length l < 16)%nat → is_block 16 (padded l).
Proof.
  intros Hl Hn. unfold padded. split; [rewrite length_app; simpl; rewrite length_replicate; lia|].
  apply Forall_app. split; [done|]. apply Forall_cons. split; [done|]. by apply Forall_replicate.
Qed.

Lemma dbl_block b : is_block 16 (dbl b).
Proof.
  unfold dbl, block_of. split; [done|]. apply Forall_fmap, Forall_true. intros i. simpl.
  apply Z.mod_pos_bound. lia.
Qed.

(** The subkeys and the last block, as [cmac_final] puts them together. *)
Lemma final_block m rest k :
  Forall is_byte m → length (last_block m ++ rest) = 16%nat → k = K1 E → 
  ∃ l, ('(k, last) ←
          (if negb (Z.of_nat (length (last_block m)) =? 16) then
             k ← double None k;
             last ← pad_last (last_block m ++ rest) (Z.of_nat (length (last_block m)));
             Ok (k, last)
           else Ok (k, last_block m ++ rest));
        _xor128 k last) = Ok l ∧ is_block 16 l ∧
    l = if decide (length (last_block m) = 16%nat) then bxor (K1 E) (last_block m)
        else bxor (K2 E) (padded (last_block m)).
Proof.
  intros Hm Hl ->. pose proof (last_bytes m Hm) as Hb. pose proof Hl as Hl'. rewrite length_app in Hl'.
  assert (is_block 16 (K1 E)) as HK by apply dbl_block. eexists. split; [|split; [|reflexivity]].
  - case_decide as E16.
    + rewrite E16. change (Z.of_nat 16 =? 16) with true. cbn [negb]. rewrite result_bind_Ok.
      assert (rest = []) as -> by (apply nil_length_inv; lia). rewrite app_nil_r.
      apply xor128_Ok; [destruct HK; lia|done].
    + assert ((Z.of_nat (length (last_block m)) =? 16) = false) as -> by lia. cbn [negb].
      rewrite (double_Ok (K1 E)), result_bind_Ok by (done || (by right) || (destruct HK; lia)).
      rewrite pad_last_Ok by (done || lia). rewrite !result_bind_Ok.
      destruct (padded_block _ Hb ltac:(lia)). apply xor128_Ok; [done|lia].
  - case_decide; (apply bxor_block; [apply dbl_block|]); [split; [lia|done]|apply padded_block; [done|lia]].
Qed.

Lemma cmac_final_Ok m ctx L digest tail :
  ctx_rep m ctx → Forall is_byte m → length L = 16%nat → length digest = 16%nat →
  ∃ ctx', cmac_final ctx L (digest ++ tail) = Ok (ctx', cmac E m ++ tail).
Proof.
  intros [Ha Hx (rest & Hml & H16 & _) Hn] Hm HL Hdig. unfold cmac_final. rewrite Ha, Hx, Hml, Hn.
  rewrite Hc by (done || apply zeros_block). cbn [mbind result_bind].
  assert (is_block 16 (E (replicate 16 0))) as H0 by apply HE, zeros_block.
  rewrite (double_Ok (E (replicate 16 0))) by (done || by left). fold (K1 E). rewrite Hml in H16.
  destruct (final_block m rest (K1 E) Hm H16 eq_refl) as (l & El & Hl & Hlv).
  rewrite result_bind_Ok.
  destruct (if negb (Z.of_nat (length (last_block m)) =? 16) then _ else _) as [[k last]|]; [|done].
  cbn [mbind result_bind] in El |- *. rewrite El. cbn [mbind result_bind]. pose proof (full_bounds m) as [? _].
  pose proof (chain_block m (full m) Hm ltac:(lia)) as Hch. rewrite xor128_Ok, result_bind_Ok by (destruct Hl, Hch; lia).
  assert (is_block 16 (bxor l (chain E m (full m)))) as Hb by (by apply bxor_block).
  rewrite Hc by (done || by destruct H0; lia). cbn [mbind result_bind].
  assert (cmac E m = E (bxor l (chain E m (full m)))) as -> by (unfold cmac; by rewrite Hlv).
  destruct (HE _ Hb) as [Hel _].
  rewrite memcpy_head by lia. cbn [mbind result_bind]. eauto.
Qed.
End Context.

(** ** Theorem *)

(** Messages in pieces. *)
Fixpoint update_all (ctx : cmac_context_t) (d : list Z) (chunks : list (list Z)) : result cmac_context_t :=
  match chunks with
  | [] => Ok ctx
  | r :: chunks => ctx ← cmac_update ctx d r (Z.of_nat (length r)); update_all ctx d chunks
  end.

Lemma cmac_update_all_Ok E c ctx m d chunks :
  (∀ b, is_block 16 b → is_block 16 (E b)) →
  (∀ b out, is_block 16 b → length out = 16%nat → cipher_encrypt c b out = Ok (1, E b)) →
  ctx_rep E c m ctx → Forall is_byte m → length d = 16%nat →
  Forall (λ r, Forall is_byte r ∧ Z.of_nat (length r) < 2 ^ 32) chunks →
  ∃ ctx', update_all ctx d chunks = Ok ctx' ∧ ctx_rep E c (m ++ concat chunks) ctx'.
Proof.
  intros HE Hc Hrep Hm Hd Hch. revert ctx m Hrep Hm. induction Hch as [|r chunks [Hr Hlen] Hch IH]; intros ctx m Hrep Hm.
  { exists ctx. by rewrite app_nil_r. }
  destruct (update_loop_Ok E c HE Hc (S (length r)) ctx m d [] r [] Hrep Hm Hr Hd Hlen ltac:(lia)) as (ctx1 & E1 & Hrep1).
  rewrite app_nil_r in E1. cbn [update_all]. unfold cmac_update. rewrite Nat2Z.id. cbn [app length] in E1.
  change (Z.of_nat 0) with 0 in E1. rewrite E1, result_bind_Ok. simpl. rewrite app_assoc.
  apply IH; [done|]. by apply Forall_app.
Qed.

(** The context [cmac_init] leaves represents the empty message. *)
Lemma cmac_rep_init E c : ctx_rep E c [] (Cmac_context c (replicate 16 0) (replicate 16 0) 0).
Proof. split; try done. exists (replicate 16 0). split; [done|]. split; [done|]. by apply Forall_replicate. Qed.

(** C24: For every key of 16 bytes and every message given to [cmac_update] in any
    number of pieces of any length, from a context that [cmac_init] has set up,
    [cmac_final] writes the AES-CMAC that RFC 4493 defines for the whole message,
    with AES as in FIPS 197, and nothing else; none of the functions accesses
    anything outside its arrays. A key of another size is refused. *)
Theorem cmac_is_rfc4493 K ctx key size d L chunks digest tail :
  length (rd_key K) = 60%nat → Forall is_byte key → Z.of_nat (length key) = 16 → length d = 16%nat → length L = 16%nat →
  Forall (λ r, Forall is_byte r ∧ Z.of_nat (length r) < 2 ^ 32) chunks → length digest = 16%nat →
  if decide (size = 16) then
    ∃ ctx0, cmac_init (aes_interface K) ctx key size = Ok (CIPHER_INIT_SUCCESS, ctx0) ∧
    ∃ ctx1, update_all ctx0 d chunks = Ok ctx1 ∧
    ∃ ctx2, cmac_final ctx1 L (digest ++ tail) = Ok (ctx2, cmac (Fips.cipher key) (concat chunks) ++ tail)
  else cmac_init (aes_interface K) ctx key size = Ok (CIPHER_ERR_INVALID_KEY_SIZE, ctx).
Proof.
  intros HK Hkb Hkl Hd HL Hch Hdig. unfold cmac_init, CMAC_BLOCK_SIZE. case_decide as Hs.
  2:{ by assert ((size =? 16) = false) as -> by lia. }
  subst size. change (negb (16 =? 16)) with false. cbv iota zeta.
  destruct (aes_init_spec (replicate 20 0) key 16) as [Ei Hr]; [done|by split|done|].
  assert (take 16 (repeated key 20) = key) as Ht by (rewrite repeated_full by lia; by apply take_app_length'; lia).
  set (c := Cipher (aes_interface K) (repeated key 20)).
  assert (cipher_init (Cipher (interface (aes_ctx ctx)) (replicate (Z.to_nat CIPHER_MAX_CONTEXT_SIZE) 0)) (aes_interface K) key 16 =
    Ok (CIPHER_INIT_SUCCESS, c)) as ->.
  { unfold cipher_init. change (max_key_size (aes_interface K) <? 16) with false. cbv iota.
    change (init (aes_interface K)) with aes_init. cbn [context].
    change (Z.to_nat CIPHER_MAX_CONTEXT_SIZE) with 20%nat. by rewrite Ei. }
  cbn [mbind result_bind]. eexists. split; [done|].
  assert (∀ b, is_block 16 b → is_block 16 (Fips.cipher key b)) as HE.
  { intros b Hb. destruct (cipher_quads (repeated key 20) b Hr Hb) as (q & Hq & Hcq & _). rewrite Ht in Hcq. rewrite Hcq.
    by apply quad_of_state_bytes. }
  assert (∀ b out, is_block 16 b → length out = 16%nat → cipher_encrypt c b out = Ok (1, Fips.cipher key b)) as Hc.
  { intros b out Hb Ho. unfold cipher_encrypt. cbn [interface context c].
    change (encrypt (aes_interface K)) with (aes_encrypt K).
    pose proof (aes_encrypt_spec K HK (repeated key 20) b [] out [] Hr Hb Ho) as E1. by rewrite !app_nil_r, Ht in E1. }
  destruct (cmac_update_all_Ok (Fips.cipher key) c _ [] d chunks HE Hc (cmac_rep_init _ c)) as (ctx1 & E1 & Hrep); try done.
  exists ctx1. split; [exact E1|]. apply (cmac_final_Ok _ c HE Hc); try done.
  apply Forall_concat. eapply Forall_impl; [exact Hch|]. by intros r [? _].
Qed.

Definition demo_key : list Z := [0x2b; 0x7e; 0x15; 0x16; 0x28; 0xae; 0xd2; 0xa6; 0xab; 0xf7; 0x15; 0x88; 0x09; 0xcf; 0x4f; 0x3c].
Definition demo_aeskey : AES_KEY := Aes_key (replicate 60 0) 0.
Definition demo_ctx : cmac_context_t :=
  Cmac_context (Cipher (aes_interface demo_aeskey) (replicate 20 7)) (replicate 16 7) (replicate 16 7) 7.

Lemma cmac_is_rfc4493_witness :
  ∃ ctx0, cmac_init (aes_interface demo_aeskey) demo_ctx demo_key 16 = Ok (CIPHER_INIT_SUCCESS, ctx0) ∧
  ∃ ctx1, update_all ctx0 (replicate 16 0) [[0x6b; 0xc1]; []; [0xbe]] = Ok ctx1 ∧
  ∃ ctx2, cmac_final ctx1 (replicate 16 0) (replicate 16 0 ++ [5]) =
    Ok (ctx2, cmac (Fips.cipher demo_key) (concat [[0x6b; 0xc1]; []; [0xbe]]) ++ [5]).
Proof.
  apply (cmac_is_rfc4493 demo_aeskey demo_ctx demo_key 16 (replicate 16 0) (replicate 16 0) [[0x6b; 0xc1]; []; [0xbe]] (replicate 16 0) [5]);
    try reflexivity.
  - repeat (apply Forall_cons; split; [unfold is_byte; lia|]). apply Forall_nil. exact I.
  - repeat (apply Forall_cons; split; [split; [|reflexivity]; repeat (apply Forall_cons; split; [unfold is_byte; lia|]);
      apply Forall_nil; exact I|]). apply Forall_nil. exact I.
Defined.

(** The first test vector of RFC 4493, the empty message. *)
Example rfc4493_vector : cmac (Fips.cipher demo_key) [] =
  [0xbb; 0x1d; 0x69; 0x29; 0xe9; 0x59; 0x37; 0x28; 0x7f; 0xa3; 0x7d; 0x12; 0x9b; 0x75; 0x67; 0x46].
Proof. by vm_compute. Qed.
