(* ===== verification/Tsrb.v ===== *)
(** * sys/tsrb/tsrb.c and tsrb.h: the ring buffer with running counters

    The counters of bytes read and written are never reset; they wrap around, and
    the size, a power of two, divides the range they wrap in. A byte is a [char]
    of the native CPU, from -128 to 127. All functions, and the theorem that they
    implement a bounded sequence. *)

From S2P Require Import Prelude Refinement.
Open Scope Z_scope.

(** ** The code *)

Record tsrb_t : Type := Tsrb {
  buf : list Z;
  size : Z;
  reads : Z;
  writes : Z
}.

Definition tsrb_init (buffer : list Z) (bufsize : Z) : result tsrb_t :=
  _ ← assert_ (negb (bufsize =? 0) && (Z.land bufsize (u32 (u32 (Z.lnot bufsize) + 1)) =? bufsize));
  Ok (Tsrb buffer bufsize 0 0).

Definition tsrb_empty (rb : tsrb_t) : bool := reads rb =? writes rb.
Definition tsrb_avail (rb : tsrb_t) : Z := u32 (writes rb - reads rb).
Definition tsrb_full (rb : tsrb_t) : bool := u32 (writes rb - reads rb) =? size rb.
Definition tsrb_free (rb : tsrb_t) : Z := u32 (size rb - writes rb + reads rb).

Definition _push (rb : tsrb_t) (c : Z) : result tsrb_t :=
  b ← aset (buf rb) (Z.land (writes rb) (u32 (size rb - 1))) c;
  Ok (Tsrb b (size rb) (reads rb) (u32 (writes rb + 1))).

Definition _pop (rb : tsrb_t) : result (Z * tsrb_t) :=
  c ← aget (buf rb) (Z.land (reads rb) (u32 (size rb - 1)));
  Ok (c, Tsrb (buf rb) (size rb) (u32 (reads rb + 1)) (writes rb)).

Definition tsrb_get_one (rb : tsrb_t) : result (Z * tsrb_t) :=
  if negb (tsrb_empty rb) then _pop rb else Ok (-1, rb).

(** [tmp] bytes are still wanted; [pos] is where [dst] points. *)
Fixpoint tsrb_get_loop (rb : tsrb_t) (dst : list Z) (pos : Z) (tmp : nat) : result (nat * list Z * tsrb_t) :=
  match tmp with
  | O => Ok (O, dst, rb)
  | S tmp' =>
      if negb (tsrb_empty rb) then
        '(c, rb) ← _pop rb;
        dst ← aset dst pos c;
        tsrb_get_loop rb dst (pos + 1) tmp'
      else Ok (tmp, dst, rb)
  end.

(** The number of bytes read, and the destination. *)
Definition tsrb_get (rb : tsrb_t) (dst : list Z) (n : Z) : result (Z * list Z * tsrb_t) :=
  '(tmp, dst, rb) ← tsrb_get_loop rb dst 0 (Z.to_nat n);
  Ok (s32 (n - Z.of_nat tmp), dst, rb).

Definition tsrb_add_one (rb : tsrb_t) (c : Z) : result (Z * tsrb_t) :=
  if negb (tsrb_full rb) then rb ← _push rb c; Ok (0, rb) else Ok (-1, rb).

Fixpoint tsrb_add_loop (rb : tsrb_t) (src : list Z) (pos : Z) (tmp : nat) : result (nat * tsrb_t) :=
  match tmp with
  | O => Ok (O, rb)
  | S tmp' =>
      if negb (tsrb_full rb) then
        c ← aget src pos;
        rb ← _push rb c;
        tsrb_add_loop rb src (pos + 1) tmp'
      else Ok (tmp, rb)
  end.

Definition tsrb_add (rb : tsrb_t) (src : list Z) (n : Z) : result (Z * tsrb_t) :=
  '(tmp, rb) ← tsrb_add_loop rb src 0 (Z.to_nat n);
  Ok (s32 (n - Z.of_nat tmp), rb).

(** ** The specification: a bounded sequence *)

Inductive op : Type :=
  | GetOne | AddOne (c : Z) | Get (n : Z) | Add (src : list Z) | Avail | Free.

(** An operation returns a number and bytes. *)
Definition tsrb_spec (cap : Z) (l : list Z) (o : op) : (Z * list Z) * list Z :=
  match o with
  | GetOne => match l with [] => ((-1, []), l) | c :: l => ((c, []), l) end
  | AddOne c => if Z.of_nat (length l) =? cap then ((-1, []), l) else ((0, []), l ++ [c])
  | Get n => let r := take (Z.to_nat n) l in ((Z.of_nat (length r), r), drop (Z.to_nat n) l)
  | Add src => let r := take (Z.to_nat cap - length l) src in ((Z.of_nat (length r), []), l ++ r)
  | Avail => ((Z.of_nat (length l), []), l)
  | Free => ((cap - Z.of_nat (length l), []), l)
  end.

Definition tsrb_exec (rb : tsrb_t) (o : op) : result ((Z * list Z) * tsrb_t) :=
  match o with
  | GetOne => '(r, rb) ← tsrb_get_one rb; Ok ((r, []), rb)
  | AddOne c => '(r, rb) ← tsrb_add_one rb c; Ok ((r, []), rb)
  | Get n => '(r, dst, rb) ← tsrb_get rb (replicate (Z.to_nat n) 0) n; Ok ((r, take (Z.to_nat r) dst), rb)
  | Add src => '(r, rb) ← tsrb_add rb src (Z.of_nat (length src)); Ok ((r, []), rb)
  | Avail => Ok ((tsrb_avail rb, []), rb)
  | Free => Ok ((tsrb_free rb, []), rb)
  end.

(** The results are of type [int]. *)
Definition tsrb_allowed (o : op) : Prop :=
  match o with Get n => 0 <= n < 2 ^ 31 | Add src => Z.of_nat (length src) < 2 ^ 31 | _ => True end.

(** ** Representation *)

Record tsrb_seq (k : Z) (rb : tsrb_t) (l : list Z) : Prop := {
  seq_size : size rb = 2 ^ k;
  seq_buf : Z.of_nat (length (buf rb)) = 2 ^ k;
  seq_reads : 0 <= reads rb < 2 ^ 32;
  seq_writes : writes rb = u32 (reads rb + Z.of_nat (length l));
  seq_len : Z.of_nat (length l) <= 2 ^ k;
  seq_bytes : ∀ i x, l !! i = Some x → buf rb !! Z.to_nat ((reads rb + Z.of_nat i) mod 2 ^ k) = Some x
}.

Section Seq.
Context (k : Z) (Hk : 0 <= k < 32).

Lemma pow_bounds : 0 < 2 ^ k < 2 ^ 32.
Proof. split; [apply Z.pow_pos_nonneg; lia|apply Z.pow_lt_mono_r; lia]. Qed.

Lemma mask_mod x : Z.land x (u32 (2 ^ k - 1)) = x mod 2 ^ k.
Proof.
  pose proof pow_bounds. rewrite u32_small by lia. rewrite <- Z.land_ones by lia. f_equal.
  rewrite Z.ones_equiv. lia.
Qed.

(** The size divides the range of the counters. *)
Lemma mod_u32 x : u32 x mod 2 ^ k = x mod 2 ^ k.
Proof.
  unfold u32. change 4294967296 with (2 ^ 32). symmetry. apply Znumtheory.Zmod_div_mod; [apply pow_bounds|lia|].
  exists (2 ^ (32 - k)). rewrite <- Z.pow_add_r by lia. f_equal. lia.
Qed.

Lemma avail_len rb l : tsrb_seq k rb l → u32 (writes rb - reads rb) = Z.of_nat (length l).
Proof.
  intros [_ _ Hr Hw Hl _]. rewrite Hw. pose proof pow_bounds. unfold u32.
  rewrite Zminus_mod_idemp_l. rewrite Z.mod_small; lia.
Qed.

Lemma empty_nil rb l : tsrb_seq k rb l → tsrb_empty rb = bool_decide (l = []).
Proof.
  intros Hrep. pose proof (avail_len rb l Hrep) as Ha. destruct Hrep as [_ _ Hr Hw Hl _].
  pose proof pow_bounds. unfold tsrb_empty. case_bool_decide as E.
  - subst l. rewrite Hw. unfold u32. simpl. rewrite Z.add_0_r, Z.mod_small by lia. lia.
  - apply Z.eqb_neq. intros E1. rewrite E1, Z.sub_diag in Ha. change (u32 0) with 0 in Ha.
    destruct l; [done|]. cbn [length] in Ha. lia.
Qed.

Lemma full_len rb l : tsrb_seq k rb l → tsrb_full rb = (Z.of_nat (length l) =? 2 ^ k).
Proof. intros Hrep. unfold tsrb_full. by rewrite (avail_len rb l Hrep), (seq_size _ _ _ Hrep). Qed.

Lemma pop_seq rb c l : tsrb_seq k rb (c :: l) → ∃ rb', _pop rb = Ok (c, rb') ∧ tsrb_seq k rb' l.
Proof.
  intros [Hs Hb Hr Hw Hl Hby]. pose proof pow_bounds. unfold _pop. rewrite Hs, mask_mod.
  pose proof (Hby 0%nat c eq_refl) as H0. rewrite Z.add_0_r in H0.
  rewrite (aget_Some _ _ c); [|apply Z.mod_pos_bound; lia|done]. eexists. split; [done|].
  split; simpl; try done.
  - unfold u32. apply Z.mod_pos_bound. lia.
  - rewrite Hw. unfold u32. rewrite Zplus_mod_idemp_l. f_equal. simpl. lia.
  - simpl in Hl. lia.
  - intros i x Hx. rewrite <- (Hby (S i) x Hx). f_equal. f_equal.
    rewrite <- Zplus_mod_idemp_l, mod_u32, Zplus_mod_idemp_l. f_equal. lia.
Qed.

Lemma push_seq rb l c :
  tsrb_seq k rb l → Z.of_nat (length l) < 2 ^ k → ∃ rb', _push rb c = Ok rb' ∧ tsrb_seq k rb' (l ++ [c]).
Proof.
  intros [Hs Hb Hr Hw Hl Hby] Hlt. pose proof pow_bounds. unfold _push. rewrite Hs, mask_mod, Hw, mod_u32.
  pose proof (Z.mod_pos_bound (reads rb + Z.of_nat (length l)) (2 ^ k)).
  rewrite aset_Ok by lia. eexists. split; [done|]. split; simpl; try done.
  - by rewrite length_insert.
  - rewrite length_app. simpl. unfold u32. rewrite Zplus_mod_idemp_l. f_equal. lia.
  - rewrite length_app. simpl. lia.
  - intros i x Hx. apply lookup_app_Some in Hx as [Hx|[Hi Hx]].
    + rewrite list_lookup_insert_ne; [by apply Hby|]. apply lookup_lt_Some in Hx. intros E.
      apply (f_equal Z.of_nat) in E. rewrite !Z2Nat.id in E by (apply Z.mod_pos_bound; lia).
      assert (2 ^ k ≠ 0) as Hne by lia.
      pose proof (Z.div_mod (reads rb + Z.of_nat (length l)) (2 ^ k) Hne) as E1.
      pose proof (Z.div_mod (reads rb + Z.of_nat i) (2 ^ k) Hne) as E2. rewrite E in E1.
      set (q1 := (reads rb + Z.of_nat (length l)) / 2 ^ k) in *. set (q2 := (reads rb + Z.of_nat i) / 2 ^ k) in *.
      assert (2 ^ k * (q1 - q2) = Z.of_nat (length l) - Z.of_nat i) as E3 by lia.
      assert (q1 - q2 <= 0 ∨ 1 <= q1 - q2) as [Hq|Hq] by lia; [clear -E3 Hq Hx H; nia|clear -E3 Hq Hl H Hlt; nia].
    + apply list_lookup_singleton_Some in Hx as [E <-]. assert (i = length l) as -> by lia.
      apply list_lookup_insert_eq. lia.
Qed.
End Seq.

(** ** The operations *)

Section Ops.
Context (k : Z) (Hk : 0 <= k < 32).

Lemma get_loop_seq tmp rb l done_ rest :
  tsrb_seq k rb l → (tmp <= length rest)%nat →
  let r := take tmp l in
  ∃ rb', tsrb_get_loop rb (done_ ++ rest) (Z.of_nat (length done_)) tmp =
           Ok ((tmp - length r)%nat, done_ ++ r ++ drop (length r) rest, rb') ∧ tsrb_seq k rb' (drop tmp l).
Proof.
  revert rb l done_ rest. induction tmp as [|tmp IH]; intros rb l done_ rest Hrep Hr; cbn [tsrb_get_loop].
  { exists rb. by rewrite drop_0. }
  rewrite (empty_nil k Hk rb l Hrep). destruct l as [|c l].
  { exists rb. done. }
  rewrite bool_decide_eq_false_2 by done. cbn [negb].
  destruct (pop_seq k Hk rb c l Hrep) as (rb1 & -> & Hrep1). cbn [mbind result_bind].
  destruct rest as [|x rest]; [simpl in Hr; lia|]. rewrite aset_app by done. cbn [mbind result_bind].
  destruct (IH rb1 l (done_ ++ [c]) rest Hrep1 ltac:(simpl in Hr; lia)) as (rb' & E & Hrep').
  rewrite length_app in E. cbn [length] in E. rewrite Nat2Z.inj_add in E. change (Z.of_nat 1) with 1 in E.
  rewrite <- app_assoc in E. cbn [app] in E. rewrite E. exists rb'. split; [|done].
  cbn [take length app drop]. by rewrite <- app_assoc.
Qed.

Lemma add_loop_seq rb l done_ rest :
  tsrb_seq k rb l →
  let r := take (Z.to_nat (2 ^ k) - length l) rest in
  ∃ rb', tsrb_add_loop rb (done_ ++ rest) (Z.of_nat (length done_)) (length rest) =
           Ok ((length rest - length r)%nat, rb') ∧ tsrb_seq k rb' (l ++ r).
Proof.
  revert rb l done_. induction rest as [|c rest IH]; intros rb l done_ Hrep; cbn [tsrb_add_loop length].
  { exists rb. rewrite take_nil, app_nil_r. done. }
  rewrite (full_len k Hk rb l Hrep). pose proof (seq_len _ _ _ Hrep). pose proof (pow_bounds k Hk).
  destruct (Z.eqb_spec (Z.of_nat (length l)) (2 ^ k)) as [E|E]; cbn [negb].
  { exists rb. replace (Z.to_nat (2 ^ k) - length l)%nat with 0%nat by lia. rewrite take_0, app_nil_r. done. }
  rewrite aget_app by done. cbn [mbind result_bind].
  destruct (push_seq k Hk rb l c Hrep ltac:(lia)) as (rb1 & -> & Hrep1). cbn [mbind result_bind].
  destruct (IH rb1 (l ++ [c]) (done_ ++ [c]) Hrep1) as (rb' & E1 & Hrep').
  rewrite <- app_assoc, length_app in E1. cbn [app length] in E1. rewrite Nat2Z.inj_add in E1.
  change (Z.of_nat 1) with 1 in E1. rewrite E1.
  replace (Z.to_nat (2 ^ k) - length l)%nat with (S (Z.to_nat (2 ^ k) - length (l ++ [c]))) by (rewrite length_app; simpl; lia).
  exists rb'. split; [done|]. by rewrite <- app_assoc in Hrep'.
Qed.

Global Instance tsrb_implements : Implements tsrb_exec (tsrb_spec (2 ^ k)) (λ _ _ o, tsrb_allowed o) (tsrb_seq k).
Proof.
  intros rb l o Hrep Ho. pose proof (seq_len _ _ _ Hrep) as Hlen. pose proof (pow_bounds k Hk).
  destruct o as [|c|n|src| |]; cbn [tsrb_exec tsrb_spec tsrb_allowed] in *.
  - unfold tsrb_get_one. rewrite (empty_nil k Hk rb l Hrep). destruct l as [|c l]; [by exists rb|].
    rewrite bool_decide_eq_false_2 by done. cbn [negb]. destruct (pop_seq k Hk rb c l Hrep) as (rb1 & -> & ?). by exists rb1.
  - unfold tsrb_add_one. rewrite (full_len k Hk rb l Hrep). destruct (Z.eqb_spec (Z.of_nat (length l)) (2 ^ k)); [by exists rb|].
    destruct (push_seq k Hk rb l c Hrep ltac:(lia)) as (rb1 & E & ?). cbn [negb]. rewrite E. by exists rb1.
  - unfold tsrb_get. destruct (get_loop_seq (Z.to_nat n) rb l [] (replicate (Z.to_nat n) 0) Hrep) as (rb' & E & Hrep').
    { by rewrite length_replicate. }
    cbn [app length] in E. change (Z.of_nat 0) with 0 in E. rewrite E. cbn [mbind result_bind fst snd].
    exists rb'. split; [|done]. do 2 f_equal. rewrite length_take. unfold s32. rewrite Z.mod_small by lia.
    replace (n - Z.of_nat (Z.to_nat n - Z.to_nat n `min` length l) + 2147483648 - 2147483648)
      with (Z.of_nat (Z.to_nat n `min` length l)) by lia.
    f_equal. rewrite Nat2Z.id. by apply take_app_length'; rewrite length_take.
  - unfold tsrb_add. rewrite Nat2Z.id. destruct (add_loop_seq rb l [] src Hrep) as (rb' & E & Hrep').
    cbn [app length] in E. change (Z.of_nat 0) with 0 in E. rewrite E. cbn [mbind result_bind fst snd].
    exists rb'. split; [|done]. do 3 f_equal. rewrite length_take. unfold s32. rewrite Z.mod_small by lia. lia.
  - exists rb. unfold tsrb_avail. by rewrite (avail_len k Hk rb l Hrep).
  - exists rb. unfold tsrb_free. split; [|done]. do 3 f_equal. simpl. rewrite (seq_size _ _ _ Hrep).
    replace (2 ^ k - writes rb + reads rb) with (2 ^ k - (writes rb - reads rb)) by lia.
    pose proof (avail_len k Hk rb l Hrep) as Ha. unfold u32 in *. rewrite <- Zminus_mod_idemp_r, Ha. by rewrite Z.mod_small by lia.
Qed.
End Ops.

Lemma tsrb_init_Ok k buffer :
  0 <= k < 32 → Z.of_nat (length buffer) = 2 ^ k → ∃ rb, tsrb_init buffer (2 ^ k) = Ok rb ∧ tsrb_seq k rb [].
Proof.
  intros Hk Hb. exists (Tsrb buffer (2 ^ k) 0 0). split.
  - unfold tsrb_init.
    assert (negb (2 ^ k =? 0) && (Z.land (2 ^ k) (u32 (u32 (Z.lnot (2 ^ k)) + 1)) =? 2 ^ k) = true) as ->; [|done].
    clear Hb. assert (k ∈ seqZ 0 32) as Hin by (apply elem_of_seqZ; lia). revert k Hk Hin.
    assert (Forall (λ k, negb (2 ^ k =? 0) && (Z.land (2 ^ k) (u32 (u32 (Z.lnot (2 ^ k)) + 1)) =? 2 ^ k) = true) (seqZ 0 32)) as H
      by (by repeat constructor).
    rewrite Forall_forall in H. auto.
  - split; simpl; try done. apply Z.pow_nonneg. lia.
Qed.

(** ** Theorem *)

(** A buffer whose size is a power of two is accepted, and from then on every
    sequence of calls that add and get single bytes and blocks, and ask for the
    bytes and the room, runs without a fault and does what the same calls do to
    a sequence of bytes bounded by that size, for however long: also when the
    counters have wrapped around. *)
Theorem tsrb_refines_sequence k buffer ops :
  0 <= k < 32 → Z.of_nat (length buffer) = 2 ^ k → Forall tsrb_allowed ops →
  ∃ rb, tsrb_init buffer (2 ^ k) = Ok rb ∧
  ∃ rb', run_exec tsrb_exec rb ops = Ok (fst (run_spec (tsrb_spec (2 ^ k)) [] ops), rb') ∧
         tsrb_seq k rb' (snd (run_spec (tsrb_spec (2 ^ k)) [] ops)).
Proof.
  intros Hk Hb Hops. destruct (tsrb_init_Ok k buffer Hk Hb) as (rb & E & Hrep). exists rb. split; [done|].
  apply (implements_run (H := tsrb_implements k Hk)); [done|]. apply run_allowed_spec. clear -Hops.
  generalize ([] : list Z). induction Hops; intros l0; simpl; auto.
Qed.

Lemma tsrb_refines_sequence_witness :
  ∃ rb, tsrb_init [7; 8; 9; 10] (2 ^ 2) = Ok rb ∧
  ∃ rb', run_exec tsrb_exec rb [AddOne 1; Add [2; 3; 4; 5]; Free; GetOne; AddOne 6; Get 9; Avail] =
    Ok ([(0, []); (3, []); (0, []); (1, []); (0, []); (4, [2; 3; 4; 6]); (0, [])], rb') ∧ tsrb_seq 2 rb' [].
Proof.
  apply (tsrb_refines_sequence 2 [7; 8; 9; 10] [AddOne 1; Add [2; 3; 4; 5]; Free; GetOne; AddOne 6; Get 9; Avail]); [lia|done|].
  repeat constructor; simpl; lia.
Defined.

(** The byte [0xff] is a [char] of value -1, which [tsrb_get_one] also returns
    for an empty buffer. *)
Example get_one_ambiguous :
  fst <$> (match tsrb_get_one (Tsrb [-1; 0] 2 0 1) with Ok r => Some r | Fault _ => None end) =
  fst <$> (match tsrb_get_one (Tsrb [-1; 0] 2 0 0) with Ok r => Some r | Fault _ => None end).
Proof. reflexivity. Qed.
