(* ===== verification/TsrbShared.v ===== *)
(** * sys/tsrb: the ring buffer between a thread and an interrupt handler

    One side adds bytes and the other one gets them, without a lock. Here a call
    is not one step: the counters are [volatile], and each access to a counter or
    to the array is a step of its own, between which the other side may take any
    number of steps. In [buf[writes++ & (size - 1)] = c] and in
    [return buf[reads++ & (size - 1)]] the access to the array and the increment
    are not sequenced, and the array is not volatile: both orders are modelled,
    with the theorem for the one and counterexamples for the other. *)

From S2P Require Import Prelude Tsrb.
Open Scope Z_scope.

(** ** The code, access by access *)

(** Where [tsrb_add_one] is: what it has loaded and what comes next. *)
Inductive producer : Type :=
  | PIdle
  | PLoaded (c w : Z)      (* [tsrb_full]: [writes] is loaded *)
  | PPush (c : Z)          (* the buffer is not full *)
  | PStore (c w : Z)       (* [writes++] is loaded, the byte is stored next *)
  | PCount (w : Z)         (* the byte is stored, [writes] is stored next *)
  | PCountFirst (c w : Z)  (* [writes] is stored next, then the byte *)
  | PStoreLast (c w : Z).

(** Where [tsrb_get_one] is. *)
Inductive consumer : Type :=
  | CIdle
  | CLoaded (r : Z)        (* [tsrb_empty]: [reads] is loaded *)
  | CPop                   (* the buffer is not empty *)
  | CRead (r : Z)          (* [reads++] is loaded, the byte is loaded next *)
  | CCount (c r : Z)       (* the byte is loaded, [reads] is stored next *)
  | CCountFirst (r : Z)    (* [reads] is stored next, then the byte is loaded *)
  | CReadLast (r : Z).

(** The bytes for which [tsrb_add_one] found room, and the bytes that
    [tsrb_get_one] returned. *)
Record shared : Type := Shared {
  rb : tsrb_t;
  prod : producer;
  cons_ : consumer;
  sent : list Z;
  got : list Z
}.

Definition set_buf (b : list Z) (t : tsrb_t) : tsrb_t := Tsrb b (size t) (reads t) (writes t).
Definition set_reads (r : Z) (t : tsrb_t) : tsrb_t := Tsrb (buf t) (size t) r (writes t).
Definition set_writes (w : Z) (t : tsrb_t) : tsrb_t := Tsrb (buf t) (size t) (reads t) w.
Definition slot (t : tsrb_t) (i : Z) : Z := Z.land i (u32 (size t - 1)).

Section Steps.
(** Whether the counter is stored before the array is accessed. *)
Variable count_first : bool.

(** One access of [tsrb_add_one(rb, c)]. *)
Definition producer_step (c : Z) (s : shared) : result shared :=
  let '(Shared t p q sn gt) := s in
  match p with
  | PIdle => Ok (Shared t (PLoaded c (writes t)) q sn gt)
  | PLoaded c w =>
      if negb (u32 (w - reads t) =? size t) then Ok (Shared t (PPush c) q (sn ++ [c]) gt)
      else Ok (Shared t PIdle q sn gt)
  | PPush c => Ok (Shared t (if count_first then PCountFirst c (writes t) else PStore c (writes t)) q sn gt)
  | PStore c w => b ← aset (buf t) (slot t w) c; Ok (Shared (set_buf b t) (PCount w) q sn gt)
  | PCount w => Ok (Shared (set_writes (u32 (w + 1)) t) PIdle q sn gt)
  | PCountFirst c w => Ok (Shared (set_writes (u32 (w + 1)) t) (PStoreLast c w) q sn gt)
  | PStoreLast c w => b ← aset (buf t) (slot t w) c; Ok (Shared (set_buf b t) PIdle q sn gt)
  end.

(** One access of [tsrb_get_one(rb)]. *)
Definition consumer_step (s : shared) : result shared :=
  let '(Shared t p q sn gt) := s in
  match q with
  | CIdle => Ok (Shared t p (CLoaded (reads t)) sn gt)
  | CLoaded r => if negb (r =? writes t) then Ok (Shared t p CPop sn gt) else Ok (Shared t p CIdle sn gt)
  | CPop => Ok (Shared t p (if count_first then CCountFirst (reads t) else CRead (reads t)) sn gt)
  | CRead r => c ← aget (buf t) (slot t r); Ok (Shared t p (CCount c r) sn gt)
  | CCount c r => Ok (Shared (set_reads (u32 (r + 1)) t) p CIdle sn (gt ++ [c]))
  | CCountFirst r => Ok (Shared (set_reads (u32 (r + 1)) t) p (CReadLast r) sn gt)
  | CReadLast r => c ← aget (buf t) (slot t r); Ok (Shared t p CIdle sn (gt ++ [c]))
  end.

(** Whose step it is; the byte is that of a call that begins. *)
Inductive turn : Type := Adds (c : Z) | Gets.

Definition take_turn (s : shared) (w : turn) : result shared :=
  match w with Adds c => producer_step c s | Gets => consumer_step s end.

Fixpoint run (s : shared) (ws : list turn) : result shared :=
  match ws with [] => Ok s | w :: ws => s ← take_turn s w; run s ws end.
End Steps.

Definition idle (t : tsrb_t) : shared := Shared t PIdle CIdle [] [].

(** ** Calls that are not interrupted *)

(** Without steps of the other side in between, the accesses are those of the
    functions of Tsrb, in either order. *)
Lemma add_uninterrupted cf t q sn gt c r t' : tsrb_add_one t c = Ok (r, t') →
  ∃ n, run cf (Shared t PIdle q sn gt) (replicate n (Adds c)) =
       Ok (Shared t' PIdle q (if r =? 0 then sn ++ [c] else sn) gt).
Proof.
  unfold tsrb_add_one, tsrb_full, _push. intros H.
  destruct (negb (u32 (writes t - reads t) =? size t)) eqn:Hf.
  - apply result_bind_inv in H as (t1 & H & [= <- <-]). apply result_bind_inv in H as (b & Hb & [= <-]).
    exists 5%nat. cbn [replicate run take_turn producer_step mbind result_bind]. rewrite Hf.
    destruct cf; simpl; unfold slot; simpl; rewrite Hb; done.
  - injection H as <- <-. exists 2%nat. cbn [replicate run take_turn producer_step mbind result_bind]. by rewrite Hf.
Qed.

Lemma get_uninterrupted cf t p sn gt r t' : tsrb_get_one t = Ok (r, t') →
  ∃ n, run cf (Shared t p CIdle sn gt) (replicate n Gets) =
       Ok (Shared t' p CIdle sn (if tsrb_empty t then gt else gt ++ [r])).
Proof.
  unfold tsrb_get_one, tsrb_empty, _pop. intros H. destruct (reads t =? writes t) eqn:He; cbn [negb] in H.
  - injection H as <- <-. exists 2%nat. cbn [replicate run take_turn consumer_step mbind result_bind]. by rewrite He.
  - apply result_bind_inv in H as (c & Hc & [= <- <-]).
    exists 5%nat. cbn [replicate run take_turn consumer_step mbind result_bind]. rewrite He. cbn [negb].
    destruct cf; simpl; unfold slot; simpl; rewrite Hc; done.
Qed.

(** ** The invariant *)

Section Invariant.
Context (k : Z) (Hk : 0 <= k < 32).

(** What the producer knows: the bytes [pub] are visible to the other side. *)
Definition producer_ok (s : shared) (pub : list Z) : Prop :=
  let room c := sent s = pub ++ [c] ∧ Z.of_nat (length pub) - Z.of_nat (length (got s)) < 2 ^ k in
  match prod s with
  | PIdle => sent s = pub
  | PLoaded _ w => sent s = pub ∧ w = writes (rb s)
  | PPush c => room c
  | PStore c w => room c ∧ w = writes (rb s)
  | PCount w => ∃ c, room c ∧ w = writes (rb s) ∧ buf (rb s) !! Z.to_nat (Z.of_nat (length pub) mod 2 ^ k) = Some c
  | PCountFirst _ _ | PStoreLast _ _ => False
  end.

Definition consumer_ok (s : shared) (pub : list Z) : Prop :=
  match cons_ s with
  | CIdle => True
  | CLoaded r => r = reads (rb s)
  | CPop => (length (got s) < length pub)%nat
  | CRead r => (length (got s) < length pub)%nat ∧ r = reads (rb s)
  | CCount c r => pub !! length (got s) = Some c ∧ r = reads (rb s)
  | CCountFirst _ | CReadLast _ => False
  end.

Record inv (s : shared) (pub : list Z) : Prop := {
  inv_size : size (rb s) = 2 ^ k;
  inv_buf : Z.of_nat (length (buf (rb s))) = 2 ^ k;
  inv_reads : reads (rb s) = u32 (Z.of_nat (length (got s)));
  inv_writes : writes (rb s) = u32 (Z.of_nat (length pub));
  inv_got : got s = take (length (got s)) pub;
  inv_len : Z.of_nat (length pub) <= Z.of_nat (length (got s)) + 2 ^ k;
  inv_bytes : ∀ i x, (length (got s) <= i)%nat → pub !! i = Some x →
                buf (rb s) !! Z.to_nat (Z.of_nat i mod 2 ^ k) = Some x;
  inv_producer : producer_ok s pub;
  inv_consumer : consumer_ok s pub
}.

Lemma got_le s pub : inv s pub → (length (got s) <= length pub)%nat.
Proof. intros H. rewrite (inv_got _ _ H), length_take. lia. Qed.

(** The counters differ by the number of bytes in the buffer. *)
Lemma counters_diff a b : 0 <= a - b <= 2 ^ k → u32 (u32 a - u32 b) = a - b.
Proof. intros H. pose proof (pow_bounds k Hk). unfold u32. rewrite <- Zminus_mod, Z.mod_small; lia. Qed.

Lemma counters_eq a b : 0 <= a - b <= 2 ^ k → (u32 b =? u32 a) = (b =? a).
Proof.
  intros H. pose proof (counters_diff a b H). destruct (Z.eqb_spec b a) as [->|Hne]; [apply Z.eqb_refl|].
  apply Z.eqb_neq. intros E. rewrite E, Z.sub_diag in H0. change (u32 0) with 0 in H0. lia.
Qed.

Lemma slot_mod t a : size t = 2 ^ k → slot t (u32 a) = a mod 2 ^ k.
Proof. intros Hs. unfold slot. by rewrite Hs, (mask_mod k Hk), (mod_u32 k Hk). Qed.

Lemma u32_succ n : u32 (u32 (Z.of_nat n) + 1) = u32 (Z.of_nat (S n)).
Proof. unfold u32. rewrite Zplus_mod_idemp_l. f_equal. lia. Qed.

(** The slot behind the last visible byte holds none of those still to be got. *)
Lemma slots_differ a b i : (b <= i < a)%nat → Z.of_nat a - Z.of_nat b < 2 ^ k →
  Z.to_nat (Z.of_nat a mod 2 ^ k) ≠ Z.to_nat (Z.of_nat i mod 2 ^ k).
Proof.
  intros Hi Hab E. pose proof (pow_bounds k Hk). apply (f_equal Z.of_nat) in E.
  rewrite !Z2Nat.id in E by (apply Z.mod_pos_bound; lia).
  assert (2 ^ k ≠ 0) as Hne by lia.
  pose proof (Z.div_mod (Z.of_nat a) _ Hne) as E1. pose proof (Z.div_mod (Z.of_nat i) _ Hne) as E2. rewrite E in E1.
  set (q1 := Z.of_nat a / 2 ^ k) in *. set (q2 := Z.of_nat i / 2 ^ k) in *.
  assert (2 ^ k * (q1 - q2) = Z.of_nat a - Z.of_nat i) as E3 by lia.
  assert (q1 - q2 <= 0 ∨ 1 <= q1 - q2) as [Hq|Hq] by lia; [clear -E3 Hq Hi H; nia|clear -E3 Hq Hi Hab H; nia].
Qed.

Lemma inv_init buffer : Z.of_nat (length buffer) = 2 ^ k → inv (idle (Tsrb buffer (2 ^ k) 0 0)) [].
Proof. intros Hb. pose proof (pow_bounds k Hk). split; simpl; try done. lia. Qed.

Lemma producer_inv c s pub : inv s pub → ∃ s' pub', producer_step false c s = Ok s' ∧ inv s' pub'.
Proof.
  intros H. pose proof (got_le s pub H) as Hle. pose proof (pow_bounds k Hk) as Hp.
  pose proof H as [Hs Hb Hr Hw Hg Hl Hby HP HC].
  destruct s as [t p q sn gt]. unfold producer_ok in HP. cbn [rb prod cons_ sent got] in *.
  destruct p as [|c0 w|c0|c0 w|w|c0 w|c0 w]; cbn [producer_step]; try done.
  - eexists _, pub. split; [done|]. by split.
  - destruct HP as [-> ->]. rewrite Hw, Hr, counters_diff, Hs by lia. destruct (Z.eqb_spec (Z.of_nat (length pub) - Z.of_nat (length gt)) (2 ^ k)); cbn [negb].
    + eexists _, pub. split; [done|]. by split.
    + eexists _, pub. split; [done|]. split; try done. split; [done|]. cbn. lia.
  - eexists _, pub. split; [done|]. by split.
  - destruct HP as [[-> Hlt] ->]. cbn [rb got] in Hlt. rewrite Hw, slot_mod by done.
    pose proof (Z.mod_pos_bound (Z.of_nat (length pub)) (2 ^ k)).
    rewrite aset_Ok by lia. cbn [mbind result_bind]. eexists _, pub. split; [done|]. split; try done; cbn [rb set_buf buf got sent].
    + by rewrite length_insert.
    + intros i x Hi Hx. rewrite list_lookup_insert_ne; [by apply Hby|]. apply lookup_lt_Some in Hx.
      by apply (slots_differ _ (length gt)).
    + exists c0. split; [by split|]. split; [by rewrite <- Hw|]. cbn. apply list_lookup_insert_eq. lia.
  - destruct HP as (c0 & [-> Hlt] & -> & Hc). cbn [rb got] in Hlt. rewrite Hw, u32_succ.
    eexists _, (pub ++ [c0]). split; [done|].
    split; try done; cbn [rb set_writes buf got sent size reads writes producer_ok prod].
    + rewrite length_app, Nat.add_1_r. done.
    + rewrite take_app_le by done. exact Hg.
    + rewrite length_app. cbn [length]. lia.
    + intros i x Hi [Hx|[Hx1 Hx]]%lookup_app_Some; [by apply Hby|].
      apply list_lookup_singleton_Some in Hx as [E <-]. by replace i with (length pub) by lia.
    + clear -HC Hle. unfold consumer_ok in *. cbn [rb cons_ got set_writes reads] in *.
      destruct q; try done; rewrite ?length_app; cbn [length]; [lia|split; [lia|apply HC]|].
      destruct HC as [HC ?]. split; [by apply lookup_app_l_Some|done].
Qed.

Lemma consumer_inv s pub : inv s pub → ∃ s', consumer_step false s = Ok s' ∧ inv s' pub.
Proof.
  intros H. pose proof (got_le s pub H) as Hle. pose proof (pow_bounds k Hk) as Hp.
  pose proof H as [Hs Hb Hr Hw Hg Hl Hby HP HC].
  destruct s as [t p q sn gt]. unfold consumer_ok in HC. cbn [rb prod cons_ sent got] in *.
  destruct q as [|r| |r|c r|r|r]; cbn [consumer_step]; try done.
  - eexists. split; [done|]. by split.
  - subst r. rewrite Hr, Hw, counters_eq by lia. destruct (Z.eqb_spec (Z.of_nat (length gt)) (Z.of_nat (length pub))); cbn [negb].
    + eexists. split; [done|]. by split.
    + eexists. split; [done|]. split; try done. cbn. lia.
  - eexists. split; [done|]. split; try done.
  - destruct HC as [Hlt ->]. cbn [rb got] in Hlt. rewrite Hr, slot_mod by done.
    destruct (lookup_lt_is_Some_2 pub (length gt) Hlt) as [c Hc].
    rewrite (aget_Some _ _ c); [|apply Z.mod_pos_bound; lia|by apply Hby]. cbn [mbind result_bind].
    eexists. split; [done|]. by split.
  - destruct HC as [Hc ->]. cbn [rb got] in Hc. rewrite Hr, u32_succ.
    pose proof (lookup_lt_Some _ _ _ Hc) as Hlt.
    eexists. split; [done|].
    split; try done; cbn [rb set_reads buf got sent size reads writes]; rewrite ?length_app, ?Nat.add_1_r; try done.
    + rewrite (take_S_r _ _ _ Hc). by rewrite <- Hg.
    + lia.
    + intros i x Hi. apply Hby. lia.
    + clear -HP. unfold producer_ok in *. cbn [rb prod got sent set_reads writes buf] in *.
      rewrite length_app. cbn [length]. destruct p; try done; try (destruct HP as [[? ?] ?]; split; [split|]; [done|lia|done]).
      * destruct HP as [? ?]. split; [done|lia].
      * destruct HP as (c0 & [? ?] & ?). exists c0. split; [split; [done|lia]|done].
Qed.

Lemma run_inv s pub ws : inv s pub → ∃ s' pub', run false s ws = Ok s' ∧ inv s' pub'.
Proof.
  revert s pub. induction ws as [|w ws IH]; intros s pub H; cbn [run]; [by exists s, pub|].
  destruct w as [c|]; cbn [take_turn].
  - destruct (producer_inv c s pub H) as (s1 & pub1 & -> & H1). exact (IH s1 pub1 H1).
  - destruct (consumer_inv s pub H) as (s1 & -> & H1). exact (IH s1 pub H1).
Qed.

(** What was sent: the visible bytes, and one more while it is being added. *)
Lemma sent_pub s pub : inv s pub → ∃ l, sent s = pub ++ l ∧ (length l <= 1)%nat ∧ (prod s = PIdle → l = []).
Proof.
  intros [_ _ _ _ _ _ _ HP _]. unfold producer_ok in HP.
  assert (∀ P, (∃ c, sent s = pub ++ [c]) → (P → False) → ∃ l, sent s = pub ++ l ∧ (length l <= 1)%nat ∧ (P → l = [])) as Hone.
  { intros P [c ->] HP'. exists [c]. split; [done|]. split; [done|]. tauto. }
  assert (∀ P, sent s = pub → ∃ l, sent s = pub ++ l ∧ (length l <= 1)%nat ∧ (P → l = [])) as Hnone.
  { intros P ->. exists []. rewrite app_nil_r. split; [done|]. split; [simpl; lia|done]. }
  destruct (prod s); [apply Hnone|apply Hnone|apply Hone|apply Hone|apply Hone|done..]; try done; [apply HP|..].
  - exists c. apply HP.
  - exists c. apply HP.
  - destruct HP as (c & [HP _] & _). by exists c.
Qed.

(** Between the calls of both sides the buffer holds the bytes that were sent
    and not yet got. *)
Lemma idle_seq s pub : inv s pub → prod s = PIdle → tsrb_seq k (rb s) (drop (length (got s)) (sent s)).
Proof.
  intros H Hi. destruct (sent_pub s pub H) as (l & -> & _ & Hl). rewrite (Hl Hi), app_nil_r.
  pose proof (got_le s pub H) as Hle. pose proof (pow_bounds k Hk). destruct H as [Hs Hb Hr Hw Hg Hln Hby _ _].
  split; [done|done| | | |].
  - rewrite Hr. unfold u32. apply Z.mod_pos_bound. lia.
  - rewrite Hw, Hr, length_drop. unfold u32. rewrite Zplus_mod_idemp_l. f_equal. lia.
  - rewrite length_drop. lia.
  - intros i x Hx. rewrite lookup_drop in Hx. rewrite <- (Hby (length (got s) + i)%nat x) by (done || lia).
    rewrite Hr. f_equal. f_equal. rewrite <- Zplus_mod_idemp_l, (mod_u32 k Hk), Zplus_mod_idemp_l. f_equal. lia.
Qed.
End Invariant.

(** ** Theorem *)

(** With the other order the consumer can get what was in the array before. *)
Lemma count_first_unsafe k b0 buffer : 0 <= k < 32 →
  ∃ ws s, run true (idle (Tsrb (b0 :: buffer) (2 ^ k) 0 0)) ws = Ok s ∧ sent s = [b0 + 1] ∧ got s = [b0].
Proof.
  intros Hk. pose proof (pow_bounds k Hk). exists (replicate 4 (Adds (b0 + 1)) ++ replicate 5 Gets).
  exists (Shared (Tsrb (b0 :: buffer) (2 ^ k) 1 1) (PStoreLast (b0 + 1) 0) CIdle [b0 + 1] [b0]).
  split; [|by split].
  cbn [replicate app run take_turn producer_step consumer_step idle writes reads size mbind result_bind].
  change (u32 (0 - 0)) with 0. rewrite (proj2 (Z.eqb_neq 0 (2 ^ k))) by lia.
  cbn [negb run take_turn producer_step consumer_step writes reads size buf set_writes set_reads mbind result_bind].
  change (0 =? u32 (0 + 1)) with false.
  cbn [negb run take_turn producer_step consumer_step writes reads size buf set_writes set_reads mbind result_bind].
  unfold slot. rewrite Z.land_0_l. reflexivity.
Qed.

(** C20: One thread or interrupt handler adds bytes to the buffer, another one
    gets bytes from it, without a lock. The source leaves open whether the array is
    accessed before or after the counter is stored. If each side accesses the array
    before it stores its counter, then however their accesses to the counters and
    to the array are interleaved, there is no fault, the bytes that are got are
    the first of the bytes for which there was room, in order, none lost, repeated
    or invented, no more bytes are under way than fit, and when no byte is just
    being added the buffer is exactly a representation of the bytes that were added
    and not yet got. If the counters are stored first, there is an interleaving in
    which the consumer gets a byte that was never added. *)
Theorem tsrb_interleaving_safe k buffer :
  0 <= k < 32 → Z.of_nat (length buffer) = 2 ^ k →
  ∃ t, tsrb_init buffer (2 ^ k) = Ok t ∧
    (∀ ws, ∃ s, run false (idle t) ws = Ok s ∧
       got s `prefix_of` sent s ∧
       Z.of_nat (length (sent s)) <= Z.of_nat (length (got s)) + 2 ^ k ∧
       (prod s = PIdle → tsrb_seq k (rb s) (drop (length (got s)) (sent s)))) ∧
    (∃ ws s c, run true (idle t) ws = Ok s ∧ c ∈ got s ∧ c ∉ sent s).
Proof.
  intros Hk Hb. destruct (tsrb_init_Ok k buffer Hk Hb) as (t & Ht & _).
  assert (t = Tsrb buffer (2 ^ k) 0 0) as ->.
  { unfold tsrb_init in Ht. apply result_bind_inv in Ht as (? & _ & [= <-]). done. }
  exists (Tsrb buffer (2 ^ k) 0 0). split; [done|]. split.
  2:{ destruct buffer as [|b0 buffer]; [pose proof (pow_bounds k Hk); simpl in Hb; lia|].
      destruct (count_first_unsafe k b0 buffer Hk) as (ws & s & E & Hs & Hg). exists ws, s, b0. rewrite Hs, Hg.
      split; [done|]. split; [left|]. intros H%list_elem_of_singleton. lia. }
  intros ws. destruct (run_inv k Hk _ [] ws (inv_init k Hk buffer Hb)) as (s & pub & Hrun & H).
  exists s. split; [done|]. destruct (sent_pub k Hk s pub H) as (l & Hl & Hl1 & _).
  split; [|split; [|by apply (idle_seq k Hk s pub)]].
  - rewrite Hl. apply prefix_app_r. rewrite (inv_got _ _ _ H). apply prefix_take.
  - pose proof (inv_len _ _ _ H) as Hln. pose proof (inv_producer _ _ _ H) as HP. unfold producer_ok in HP.
    rewrite Hl, length_app. destruct l as [|x l]; [cbn [length]; lia|]. destruct l; [|cbn in Hl1; lia].
    assert (sent s ≠ pub) as Hne by (rewrite Hl; intros E; apply (f_equal length) in E; rewrite length_app in E; cbn in E; lia).
    cbn [length]. destruct (prod s); try done; try (destruct HP as [[_ HP] _]; lia); [by destruct HP|destruct HP as [_ HP]; lia|].
    destruct HP as (? & [_ HP] & _). lia.
Qed.

Lemma tsrb_interleaving_safe_witness :
  ∃ t s, tsrb_init [7; 8] (2 ^ 1) = Ok t ∧
    run false (idle t) [Adds 1; Adds 1; Gets; Adds 1; Gets; Adds 1; Gets; Adds 1; Gets; Gets; Adds 2; Gets; Adds 2; Gets] = Ok s ∧
    got s = [1] ∧ sent s = [1; 2].
Proof.
  destruct (tsrb_interleaving_safe 1 [7; 8]) as (t & Ht & H & _); [lia|done|].
  destruct (H [Adds 1; Adds 1; Gets; Adds 1; Gets; Adds 1; Gets; Adds 1; Gets; Gets; Adds 2; Gets; Adds 2; Gets]) as (s & Hs & _).
  exists t, s. split; [exact Ht|]. split; [exact Hs|].
  injection Ht as <-. vm_compute in Hs. injection Hs as <-. split; reflexivity.
Defined.

(** If the counter is stored first, as the C standard allows, the other side can
    get a byte that has not been stored yet, and the producer can overwrite the
    byte that is just being got. *)
Example count_first_reads_old_byte :
  (s ← run true (idle (Tsrb [7; 8] 2 0 0)) (replicate 4 (Adds 1) ++ replicate 5 Gets);
   Ok (sent s, got s)) = Ok ([1], [7]).
Proof. vm_compute. reflexivity. Qed.

Example count_first_loses_byte :
  (s ← run true (idle (Tsrb [7; 8] 2 0 0))
         (replicate 5 (Adds 1) ++ replicate 5 (Adds 2) ++ replicate 4 Gets ++ replicate 5 (Adds 3) ++ [Gets]);
   Ok (sent s, got s)) = Ok ([1; 2; 3], [3]).
Proof. vm_compute. reflexivity. Qed.
