(* ===== verification/Netreg.v ===== *)
(** * sys/net/gnrc/netreg: who wants which packets

    For each type of packets a list of entries, linked through the entries
    themselves; an entry names a thread and the context (a port, a message type) it
    is interested in. Built without MODULE_GNRC_NETAPI_MBOX and
    MODULE_GNRC_NETAPI_CALLBACKS, so that a target is a thread. All functions but
    gnrc_netreg_calc_csum, and the theorem that they implement sequences of
    entries. *)

From S2P Require Import Prelude Refinement Kernel Thread Msg.
Open Scope Z_scope.

(** ** The code *)

Record gnrc_netreg_entry_t : Type := Entry {
  e_next : Z;
  demux_ctx : Z;
  target_pid : Z
}.

(** The array [netreg] and the entries in memory, by their addresses. *)
Record registry : Type := Registry {
  netreg : list Z;
  entries : gmap Z gnrc_netreg_entry_t
}.

Definition NULL : Z := 0.
Definition EINVAL : Z := 22.
Definition GNRC_NETTYPE_UNDEF : Z := 0.

Definition gnrc_netreg_entry_init_pid (g : registry) (entry demux_ctx pid : Z) : registry :=
  Registry (netreg g) (<[entry := Entry NULL demux_ctx pid]> (entries g)).

Definition entry_at (g : registry) (p : Z) : result gnrc_netreg_entry_t :=
  if p =? NULL then Fault NullDeref else from_option_or BadPointer (entries g !! p).

Definition set_next (g : registry) (p next : Z) : result registry :=
  e ← entry_at g p;
  Ok (Registry (netreg g) (<[p := Entry next (demux_ctx e) (target_pid e)]> (entries g))).

Definition set_head (g : registry) (type head : Z) : result registry :=
  l ← aset (netreg g) type head; Ok (Registry l (entries g)).

(** Enough rounds for every list without a cycle. *)
Definition rounds (g : registry) : nat := S (base.size (entries g)).

(** [while (_tmp->next && (_tmp->next != (del)))] of [LL_DELETE] *)
Fixpoint before (fuel : nat) (g : registry) (tmp del : Z) : result Z :=
  match fuel with
  | O => Fault OutOfFuel
  | S fuel =>
      e ← entry_at g tmp;
      if negb (e_next e =? NULL) && negb (e_next e =? del) then before fuel g (e_next e) del else Ok tmp
  end.

(** [LL_SEARCH_SCALAR(out, out, demux_ctx, ctx)] *)
Fixpoint search (fuel : nat) (g : registry) (out ctx : Z) : result Z :=
  match fuel with
  | O => Fault OutOfFuel
  | S fuel =>
      if out =? NULL then Ok out
      else
        e ← entry_at g out;
        if demux_ctx e =? ctx then Ok out else search fuel g (e_next e) ctx
  end.

Fixpoint num_loop (fuel : nat) (g : registry) (entry ctx num : Z) : result Z :=
  match fuel with
  | O => Fault OutOfFuel
  | S fuel =>
      if entry =? NULL then Ok num
      else
        e ← entry_at g entry;
        num_loop fuel g (e_next e) ctx (if demux_ctx e =? ctx then num + 1 else num)
  end.

Section Netreg.
(** The number of types, which depends on the modules. *)
Variable GNRC_NETTYPE_NUMOF : Z.

Definition _INVALID_TYPE (type : Z) : bool := (type <? GNRC_NETTYPE_UNDEF) || (GNRC_NETTYPE_NUMOF <=? type).

Definition gnrc_netreg_init (g : registry) : registry :=
  Registry (replicate (Z.to_nat GNRC_NETTYPE_NUMOF) NULL) (entries g).

(** [sched_threads[pid]->msg_array] *)
Definition has_queue (k : kstate) (pid : Z) : result bool :=
  '(t, k) ← sched_threads_at pid k;
  match t with
  | None => Fault NullDeref
  | Some t => T ← from_option_or BadPointer (tcbs k !! t); Ok (bool_decide (is_Some (msg_array T)))
  end.

Definition gnrc_netreg_register (k : kstate) (g : registry) (type entry : Z) : result (Z * registry) :=
  e ← entry_at g entry;
  q ← has_queue k (target_pid e);
  _ ← assert_ q;
  if _INVALID_TYPE type then Ok (- EINVAL, g)
  else
    head ← aget (netreg g) type;
    g ← set_next g entry head;
    g ← set_head g type entry;
    Ok (0, g).

Definition gnrc_netreg_unregister (g : registry) (type entry : Z) : result registry :=
  if _INVALID_TYPE type then Ok g
  else
    head ← aget (netreg g) type;
    if head =? entry then e ← entry_at g head; set_head g type (e_next e)
    else
      tmp ← before (rounds g) g head entry;
      e ← entry_at g tmp;
      if negb (e_next e =? NULL) then d ← entry_at g entry; set_next g tmp (e_next d) else Ok g.

Definition gnrc_netreg_lookup (g : registry) (type ctx : Z) : result Z :=
  if _INVALID_TYPE type then Ok NULL
  else head ← aget (netreg g) type; search (rounds g) g head ctx.

Definition gnrc_netreg_num (g : registry) (type ctx : Z) : result Z :=
  if _INVALID_TYPE type then Ok 0
  else head ← aget (netreg g) type; num_loop (rounds g) g head ctx 0.

Definition gnrc_netreg_getnext (g : registry) (entry : Z) : result Z :=
  if entry =? NULL then Ok NULL
  else e ← entry_at g entry; search (rounds g) g (e_next e) (demux_ctx e).

(** ** Representation *)

(** The list that begins at [p] has the entries [l]. *)
Fixpoint chain (E : gmap Z gnrc_netreg_entry_t) (p : Z) (l : list Z) : Prop :=
  match l with
  | [] => p = NULL
  | q :: l => p = q ∧ q ≠ NULL ∧ ∃ e, E !! q = Some e ∧ chain E (e_next e) l
  end.

(** [R] holds the entries of each type, [D] the contexts and targets of all
    entries. *)
Record reg_rep (D : gmap Z (Z * Z)) (g : registry) (R : list (list Z)) : Prop := {
  rr_types : Z.of_nat (length R) = Z.max 0 GNRC_NETTYPE_NUMOF;
  rr_length : length (netreg g) = length R;
  rr_heads : ∀ i l, R !! i = Some l → ∃ h, netreg g !! i = Some h ∧ chain (entries g) h l;
  rr_nodup : ∀ i l, R !! i = Some l → NoDup l;
  rr_once : ∀ i j l1 l2 p, R !! i = Some l1 → R !! j = Some l2 → p ∈ l1 → p ∈ l2 → i = j;
  rr_data : (λ e, (demux_ctx e, target_pid e)) <$> entries g = D
}.

Definition ctx_of (D : gmap Z (Z * Z)) (p : Z) : option Z := fst <$> D !! p.
Definition entries_of (R : list (list Z)) (type : Z) : list Z := default [] (R !! Z.to_nat type).
Definition wanting (D : gmap Z (Z * Z)) (ctx : Z) (l : list Z) : list Z := filter (λ p, ctx_of D p = Some ctx) l.

Definition registered (R : list (list Z)) (p : Z) : Prop := Exists (λ l, p ∈ l) R.

(** The entries behind [p]. *)
Fixpoint behind (p : Z) (l : list Z) : list Z :=
  match l with [] => [] | q :: l => if decide (q = p) then l else behind p l end.

(** ** The specification *)

Inductive op : Type :=
  | Register (type entry : Z) | Unregister (type entry : Z)
  | Lookup (type ctx : Z) | Num (type ctx : Z) | GetNext (entry : Z).

Definition netreg_exec (k : kstate) (g : registry) (o : op) : result (Z * registry) :=
  match o with
  | Register ty e => gnrc_netreg_register k g ty e
  | Unregister ty e => g ← gnrc_netreg_unregister g ty e; Ok (0, g)
  | Lookup ty c => r ← gnrc_netreg_lookup g ty c; Ok (r, g)
  | Num ty c => r ← gnrc_netreg_num g ty c; Ok (r, g)
  | GetNext e => r ← gnrc_netreg_getnext g e; Ok (r, g)
  end.

Definition first (l : list Z) : Z := default NULL (head l).

Definition netreg_spec (D : gmap Z (Z * Z)) (R : list (list Z)) (o : op) : Z * list (list Z) :=
  match o with
  | Register ty e => if _INVALID_TYPE ty then (- EINVAL, R) else (0, alter (cons e) (Z.to_nat ty) R)
  | Unregister ty e => (0, if _INVALID_TYPE ty then R else alter (filter (λ p, p ≠ e)) (Z.to_nat ty) R)
  | Lookup ty c => (if _INVALID_TYPE ty then NULL else first (wanting D c (entries_of R ty)), R)
  | Num ty c => (if _INVALID_TYPE ty then 0 else Z.of_nat (length (wanting D c (entries_of R ty))), R)
  | GetNext e =>
      (match ctx_of D e with
       | Some c => match list_find (λ l, e ∈ l) R with Some (_, l) => first (wanting D c (behind e l)) | None => NULL end
       | None => NULL
       end, R)
  end.

(** An entry is registered once, for a thread that has a message queue; an entry
    is not removed from a type that has none; the next one is asked for of a
    registered entry. *)
Definition netreg_allowed (k : kstate) (D : gmap Z (Z * Z)) (R : list (list Z)) (o : op) : Prop :=
  match o with
  | Register _ e => e ≠ NULL ∧ ¬ registered R e ∧ ∃ d, D !! e = Some d ∧ has_queue k d.2 = Ok true
  | Unregister ty e => e ≠ NULL ∧ (_INVALID_TYPE ty = true ∨ entries_of R ty ≠ [])
  | Lookup _ _ | Num _ _ => True
  | GetNext e => e = NULL ∧ D !! NULL = None ∨ registered R e
  end.
End Netreg.

(** ** Lists of entries *)

Section Lists.
Context (D : gmap Z (Z * Z)).
Implicit Types (g : registry) (l : list Z).

Definition data_is g : Prop := (λ e, (demux_ctx e, target_pid e)) <$> entries g = D.

Lemma entry_data g p e : data_is g → entries g !! p = Some e → D !! p = Some (demux_ctx e, target_pid e).
Proof. intros <- Hp. rewrite lookup_fmap, Hp. done. Qed.

Lemma data_entry g p d : data_is g → D !! p = Some d → ∃ n, entries g !! p = Some (Entry n d.1 d.2).
Proof.
  intros <- Hp. rewrite lookup_fmap in Hp. destruct (entries g !! p) as [[n c t]|] eqn:E; [|done].
  injection Hp as <-. by exists n.
Qed.

Lemma entry_at_Ok g p e : p ≠ NULL → entries g !! p = Some e → entry_at g p = Ok e.
Proof. intros Hp He. unfold entry_at. rewrite (proj2 (Z.eqb_neq _ _) Hp), He. done. Qed.

Lemma set_next_data g p e n : p ≠ NULL → entries g !! p = Some e → data_is g →
  ∃ g', set_next g p n = Ok g' ∧ data_is g' ∧ netreg g' = netreg g ∧
    entries g' = <[p := Entry n (demux_ctx e) (target_pid e)]> (entries g).
Proof.
  intros Hp He Hd. unfold set_next. rewrite (entry_at_Ok _ _ _ Hp He). cbn [mbind result_bind]. eexists. split; [done|].
  split; [|done]. unfold data_is. simpl. rewrite fmap_insert. simpl. rewrite Hd. by apply insert_id, (entry_data g).
Qed.

Lemma chain_member E p l q : chain E p l → q ∈ l → q ≠ NULL ∧ is_Some (E !! q).
Proof.
  revert p. induction l as [|r l IH]; intros p Hc Hq; [by apply elem_of_nil in Hq|].
  destruct Hc as (_ & Hr & e & He & Hc). apply elem_of_cons in Hq as [->|Hq]; [by rewrite He|by eapply IH].
Qed.

Lemma entries_congr E E' p l : (∀ q, q ∈ l → E' !! q = E !! q) → chain E p l → chain E' p l.
Proof.
  revert p. induction l as [|r l IH]; intros p Heq; [done|]. intros (-> & Hr & e & He & Hc).
  split; [done|]. split; [done|]. exists e. rewrite Heq by set_solver. split; [done|]. apply IH; [|done].
  intros q Hq. apply Heq. set_solver.
Qed.

(** Changing the [next] of an entry that is not on the list. *)
Lemma chain_insert E p l q e : q ∉ l → chain E p l → chain (<[q := e]> E) p l.
Proof. intros Hq. apply entries_congr. intros r Hr. apply lookup_insert_ne. set_solver. Qed.

Lemma chain_head E p l : chain E p l → p = first l.
Proof. destruct l as [|q l]; [done|]. by intros [-> _]. Qed.

Lemma chain_rounds g p l : NoDup l → chain (entries g) p l → (length l < rounds g)%nat.
Proof.
  intros Hnd Hc. unfold rounds.
  assert (length l = base.size (list_to_set l : gset Z)) as -> by (symmetry; by apply size_list_to_set).
  rewrite <- size_dom. apply Nat.lt_succ_r. apply subseteq_size. intros q Hq.
  apply elem_of_list_to_set in Hq. apply elem_of_dom. by apply (chain_member _ _ _ _ Hc).
Qed.

Lemma wanting_cons g p e c l : data_is g → entries g !! p = Some e →
  wanting D c (p :: l) = if demux_ctx e =? c then p :: wanting D c l else wanting D c l.
Proof.
  intros Hd He. unfold wanting, ctx_of. destruct (Z.eqb_spec (demux_ctx e) c) as [<-|Hne].
  - apply filter_cons_True. rewrite (entry_data g p e Hd He). done.
  - apply filter_cons_False. rewrite (entry_data g p e Hd He). simpl. congruence.
Qed.

Lemma search_first fuel g p l c : data_is g → chain (entries g) p l → (length l < fuel)%nat →
  search fuel g p c = Ok (first (wanting D c l)).
Proof.
  intros Hd. revert p l. induction fuel as [|fuel IH]; intros p l Hc Hf; [lia|]. cbn [search].
  destruct l as [|q l]; [simpl in Hc; by subst p|]. destruct Hc as (-> & Hq & e & He & Hc).
  rewrite (proj2 (Z.eqb_neq _ _) Hq), (entry_at_Ok _ _ _ Hq He). cbn [mbind result_bind].
  rewrite (wanting_cons g q e c l Hd He). destruct (demux_ctx e =? c); [done|]. apply IH; [done|]. simpl in Hf. lia.
Qed.

Lemma num_loop_Ok fuel g p l c n : data_is g → chain (entries g) p l → (length l < fuel)%nat →
  num_loop fuel g p c n = Ok (n + Z.of_nat (length (wanting D c l))).
Proof.
  intros Hd. revert p l n. induction fuel as [|fuel IH]; intros p l n Hc Hf; [lia|]. cbn [num_loop].
  destruct l as [|q l]; [simpl in Hc; subst p; simpl; f_equal; lia|]. destruct Hc as (-> & Hq & e & He & Hc).
  rewrite (proj2 (Z.eqb_neq _ _) Hq), (entry_at_Ok _ _ _ Hq He). cbn [mbind result_bind].
  rewrite (wanting_cons g q e c l Hd He). simpl in Hf. rewrite (IH _ l) by (done || lia).
  destruct (demux_ctx e =? c); [|done]. f_equal. simpl. lia.
Qed.

(** The entry before [del], or the last one. *)
Lemma before_Ok fuel g q l del : chain (entries g) q (q :: l) → NoDup (q :: l) → (length (q :: l) < fuel)%nat → del ≠ q → del ≠ NULL →
  ∃ l1 tmp l2, before fuel g q del = Ok tmp ∧ q :: l = l1 ++ tmp :: l2 ∧
    ((del ∉ q :: l ∧ l2 = []) ∨ ∃ l3, l2 = del :: l3).
Proof.
  revert fuel q. induction l as [|r l IH]; intros [|fuel] q Hc Hnd Hf Hdq HdN; try (simpl in Hf; lia); cbn [before];
    destruct Hc as (_ & Hq & e & He & Hc); rewrite (entry_at_Ok _ _ _ Hq He); cbn [mbind result_bind].
  - simpl in Hc. rewrite Hc. exists [], q, []. split; [done|]. split; [done|]. left. set_solver.
  - pose proof Hc as (En & Hr & _). rewrite En. rewrite (proj2 (Z.eqb_neq _ _) Hr). cbn [negb andb].
    destruct (Z.eqb_spec r del) as [->|Hne]; cbn [negb].
    + exists [], q, (del :: l). split; [done|]. split; [done|]. right. by exists l.
    + apply NoDup_cons in Hnd as [_ Hnd].
      destruct (IH fuel r) as (l1 & tmp & l2 & -> & E & Hl); [by rewrite En in Hc|done|simpl in *; lia|done|done|].
      exists (q :: l1), tmp, l2. split; [done|]. split; [by rewrite E|]. destruct Hl as [[Hn ->]|Hl]; [left|by right].
      split; [set_solver|done].
Qed.

Lemma entries_suffix E p l1 q l2 : chain E p (l1 ++ q :: l2) → q ≠ NULL ∧ ∃ e, E !! q = Some e ∧ chain E (e_next e) l2.
Proof.
  revert p. induction l1 as [|r l1 IH]; intros p; [by intros (_ & ? & e & ? & ?); eauto|].
  intros (_ & _ & e & _ & Hc). by eapply IH.
Qed.

(** Taking out the entry behind [tmp]. *)
Lemma chain_remove E p l1 tmp e del d l3 : chain E p (l1 ++ tmp :: del :: l3) → NoDup (l1 ++ tmp :: del :: l3) →
  E !! tmp = Some e → E !! del = Some d →
  chain (<[tmp := Entry (e_next d) (demux_ctx e) (target_pid e)]> E) p (l1 ++ tmp :: l3).
Proof.
  revert p. induction l1 as [|q l1 IH]; intros p Hc Hnd He Hd; cbn [app chain] in *.
  - destruct Hc as (-> & Ht & e' & He' & _ & Hdel & d' & Hd' & Hc). apply NoDup_cons in Hnd as [Hnt _].
    split; [done|]. split; [done|]. eexists. rewrite lookup_insert_eq. split; [done|]. simpl.
    assert (d' = d) as -> by congruence. apply chain_insert; [set_solver|done].
  - destruct Hc as (-> & Hq & e' & He' & Hc). apply NoDup_cons in Hnd as [Hnq Hnd].
    split; [done|]. split; [done|]. exists e'. rewrite lookup_insert_ne by set_solver. split; [done|]. by apply IH.
Qed.
End Lists.

(** ** The operations *)

Section Ops.
Context (N : Z) (k : kstate) (D : gmap Z (Z * Z)).
Notation reg_rep := (reg_rep N D).

(** The list of a valid type. *)
Lemma type_list g R ty : reg_rep g R → _INVALID_TYPE N ty = false →
  ∃ l h, R !! Z.to_nat ty = Some l ∧ entries_of R ty = l ∧ aget (netreg g) ty = Ok h ∧ chain (entries g) h l ∧ 0 <= ty.
Proof.
  intros [HN Hlen Hh _ _ _] Hv. unfold _INVALID_TYPE, GNRC_NETTYPE_UNDEF in Hv.
  destruct (lookup_lt_is_Some_2 R (Z.to_nat ty)) as [l Hl]; [lia|]. destruct (Hh _ _ Hl) as (h & Hg & Hc).
  exists l, h. split; [done|]. split; [unfold entries_of; by rewrite Hl|]. split; [by apply aget_Some; [lia|]|]. split; [done|lia].
Qed.

(** The parts of the registry that belong to one type are replaced. *)
Lemma reg_update g R ty l l' h E' : reg_rep g R → 0 <= ty → R !! Z.to_nat ty = Some l →
  NoDup l' → (∀ p, p ∈ l' → p ∈ l ∨ ¬ registered R p) → chain E' h l' →
  (∀ p, p ∉ l → registered R p → E' !! p = entries g !! p) → (λ e, (demux_ctx e, target_pid e)) <$> E' = D →
  reg_rep (Registry (<[Z.to_nat ty := h]> (netreg g)) E') (alter (λ _, l') (Z.to_nat ty) R).
Proof.
  intros [HN Hlen Hh Hnd Hone Hd] Hty Hl Hnd' Hnew Hc HE HD.
  assert (∀ i l0, alter (λ _, l') (Z.to_nat ty) R !! i = Some l0 → (i = Z.to_nat ty ∧ l0 = l') ∨ (i ≠ Z.to_nat ty ∧ R !! i = Some l0)) as Hi.
  { intros i l0 H0. destruct (decide (i = Z.to_nat ty)) as [->|Hne].
    - rewrite list_lookup_alter_eq, Hl in H0. injection H0 as <-. by left.
    - rewrite list_lookup_alter_ne in H0 by done. by right. }
  assert (∀ i l0 p, R !! i = Some l0 → p ∈ l0 → registered R p) as Hreg.
  { intros i l0 p H0 Hp. apply Exists_exists. exists l0. split; [by eapply list_elem_of_lookup_2|done]. }
  split.
  - by rewrite length_alter.
  - simpl. by rewrite length_insert, length_alter.
  - intros i l0 [[-> ->]|[Hne H0]]%Hi; simpl.
    + exists h. split; [|done]. apply list_lookup_insert_eq. apply lookup_lt_Some in Hl. lia.
    + destruct (Hh _ _ H0) as (h0 & Hg & Hc0). exists h0. rewrite list_lookup_insert_ne by done. split; [done|].
      eapply entries_congr; [|exact Hc0]. intros q Hq. apply HE; [|by eapply Hreg].
      intros Hql. apply Hne. by eapply Hone.
  - intros i l0 [[_ ->]|[_ H0]]%Hi; [done|by eapply Hnd].
  - intros i j l1 l2 p [[-> ->]|[Hne1 H1]]%Hi [[-> ->]|[Hne2 H2]]%Hi Hp1 Hp2; [done| | |by eapply Hone].
    + destruct (Hnew p Hp1) as [Hp|Hp]; [by eapply Hone|]. destruct Hp. by eapply Hreg.
    + destruct (Hnew p Hp2) as [Hp|Hp]; [by eapply Hone|]. destruct Hp. by eapply Hreg.
  - exact HD.
Qed.

Lemma alter_const (f : list Z → list Z) i (R : list (list Z)) l : R !! i = Some l → alter f i R = alter (λ _, f l) i R.
Proof.
  intros Hl. apply list_eq. intros j. destruct (decide (j = i)) as [->|Hne].
  - by rewrite !list_lookup_alter_eq, Hl.
  - by rewrite !list_lookup_alter_ne by done.
Qed.

Lemma register_Ok g R ty e : reg_rep g R → netreg_allowed N k D R (Register ty e) →
  ∃ g', gnrc_netreg_register N k g ty e = Ok (fst (netreg_spec N D R (Register ty e)), g') ∧
        reg_rep g' (snd (netreg_spec N D R (Register ty e))).
Proof.
  intros Hrep (HeN & Hnr & d & Hd & Hq). pose proof (rr_data _ _ _ _ Hrep) as HD.
  destruct (data_entry D g e d HD Hd) as [n He]. unfold gnrc_netreg_register.
  rewrite (entry_at_Ok _ _ _ HeN He). cbn [mbind result_bind target_pid]. rewrite Hq. cbn [mbind result_bind assert_ netreg_spec].
  destruct (_INVALID_TYPE N ty) eqn:Hv; [by exists g|]. destruct (type_list g R ty Hrep Hv) as (l & h & Hl & _ & Hh & Hc & Hty).
  rewrite Hh. cbn [mbind result_bind].
  destruct (set_next_data D g e _ h HeN He HD) as (g1 & -> & HD1 & Hn1 & He1). cbn [mbind result_bind demux_ctx target_pid] in *.
  unfold set_head. rewrite Hn1. pose proof (rr_length _ _ _ _ Hrep) as Hlen. apply lookup_lt_Some in Hl as Hlt.
  rewrite aset_Ok by lia. cbn [mbind result_bind fst snd]. eexists. split; [done|].
  assert (∀ l0, l0 ∈ R → e ∉ l0) as Hne by (intros l0 Hl0 He0; apply Hnr; apply Exists_exists; by exists l0).
  rewrite (alter_const _ _ _ _ Hl). apply (reg_update g R ty l); try done.
  - apply NoDup_cons. split; [|by eapply (rr_nodup _ _ _ _ Hrep)]. apply Hne. by eapply list_elem_of_lookup_2.
  - intros p [->|Hp]%elem_of_cons; [by right|by left].
  - rewrite He1. split; [done|]. split; [done|]. eexists. rewrite lookup_insert_eq. split; [done|]. simpl.
    apply chain_insert; [|done]. apply Hne. by eapply list_elem_of_lookup_2.
  - intros p _ Hp. rewrite He1, lookup_insert_ne; [done|]. intros ->. done.
Qed.

(** Removing an entry that is on no list of the type changes nothing. *)
Lemma filter_other (e : Z) (l : list Z) : e ∉ l → filter (λ p, p ≠ e) l = l.
Proof. intros Hn. apply filter_all. intros p Hp ->. done. Qed.

Lemma filter_here (e : Z) (l1 l2 : list Z) : NoDup (l1 ++ e :: l2) → filter (λ p, p ≠ e) (l1 ++ e :: l2) = l1 ++ l2.
Proof.
  intros (_ & H1 & [H2 _]%NoDup_cons)%NoDup_app. rewrite filter_app, filter_cons_False by tauto.
  rewrite !filter_other; [done|done|]. intros Hin. apply (H1 e Hin). left.
Qed.

Lemma unregister_Ok g R ty e : reg_rep g R → netreg_allowed N k D R (Unregister ty e) →
  ∃ g', gnrc_netreg_unregister N g ty e = Ok g' ∧ reg_rep g' (snd (netreg_spec N D R (Unregister ty e))).
Proof.
  intros Hrep Hal. unfold gnrc_netreg_unregister. cbn [netreg_spec snd].
  destruct (_INVALID_TYPE N ty) eqn:Hv; [by exists g|]. destruct (type_list g R ty Hrep Hv) as (l & h & Hl & El & Hh & Hc & Hty).
  destruct Hal as [HeN [Hal|Hal]]; [congruence|]. rewrite El in Hal. rewrite Hh. cbn [mbind result_bind].
  pose proof (rr_data _ _ _ _ Hrep) as HD. pose proof (rr_nodup _ _ _ _ Hrep _ _ Hl) as Hnd. rewrite (alter_const _ _ _ _ Hl).
  pose proof (rr_length _ _ _ _ Hrep) as Hlen. apply lookup_lt_Some in Hl as Hlt.
  assert (Hsub : ∀ p, p ∈ filter (λ p, p ≠ e) l → p ∈ l ∨ ¬ registered R p) by (intros p [_ Hp]%list_elem_of_filter; by left).
  assert (Hndf : NoDup (filter (λ p, p ≠ e) l)) by (by apply NoDup_filter).
  destruct l as [|q l]; [done|]. pose proof Hc as (-> & Hq & e0 & He0 & Hc').
  destruct (Z.eqb_spec q e) as [->|Hne].
  - rewrite (entry_at_Ok _ _ _ Hq He0). cbn [mbind result_bind]. unfold set_head. rewrite aset_Ok by lia. cbn [mbind result_bind].
    eexists. split; [done|]. apply (reg_update g R ty (e :: l)); try done.
    pose proof (filter_here e [] l Hnd) as Ef. cbn [app] in Ef. by rewrite Ef.
  - destruct (before_Ok (rounds g) g q l e Hc Hnd) as (l1 & tmp & l2 & -> & E & Hl2); [by eapply chain_rounds|done|done|].
    cbn [mbind result_bind]. rewrite E in *. destruct (entries_suffix _ _ _ _ _ Hc) as (HtN & et & Het & Hct).
    rewrite (entry_at_Ok _ _ _ HtN Het). cbn [mbind result_bind]. destruct Hl2 as [[Hn ->]|[l3 ->]].
    + simpl in Hct. rewrite Hct, Z.eqb_refl. cbn [negb]. exists g. split; [done|].
      rewrite filter_other in * by done. rewrite <- (alter_const (λ l, l)) with (l := l1 ++ [tmp]) by done.
      by rewrite list_alter_id.
    + pose proof Hct as (En & _ & d & Hd & _). rewrite En, (proj2 (Z.eqb_neq _ _) HeN). cbn [negb].
      rewrite (entry_at_Ok _ _ _ HeN Hd). cbn [mbind result_bind].
      destruct (set_next_data D g tmp et (e_next d) HtN Het HD) as (g1 & -> & HD1 & Hn1 & He1).
      exists g1. split; [done|]. replace g1 with (Registry (<[Z.to_nat ty := q]> (netreg g)) (entries g1)).
      2:{ destruct g1 as [h1 E1]. simpl in *. rewrite Hn1. f_equal. apply list_insert_id.
          unfold aget in Hh. destruct (0 <=? ty); [|done]. by destruct (netreg g !! Z.to_nat ty); simplify_eq/=. }
      replace (filter (λ p, p ≠ e) (l1 ++ tmp :: e :: l3)) with ((l1 ++ [tmp]) ++ l3) in *
        by (symmetry; change (tmp :: e :: l3) with ([tmp] ++ e :: l3) in *; rewrite app_assoc in *; by apply filter_here).
      apply (reg_update g R ty (l1 ++ tmp :: e :: l3)); try done.
      * rewrite <- app_assoc, He1. by apply (chain_remove _ _ _ _ _ e).
      * intros p Hp _. rewrite He1, lookup_insert_ne; [done|]. set_solver.
Qed.

Lemma lookup_Ok g R ty c : reg_rep g R →
  gnrc_netreg_lookup N g ty c = Ok (if _INVALID_TYPE N ty then NULL else first (wanting D c (entries_of R ty))).
Proof.
  intros Hrep. unfold gnrc_netreg_lookup. destruct (_INVALID_TYPE N ty) eqn:Hv; [done|].
  destruct (type_list g R ty Hrep Hv) as (l & h & Hl & -> & -> & Hc & _). cbn [mbind result_bind].
  apply search_first; [apply (rr_data _ _ _ _ Hrep)|done|]. eapply chain_rounds; [|done]. by eapply (rr_nodup _ _ _ _ Hrep).
Qed.

Lemma num_Ok g R ty c : reg_rep g R →
  gnrc_netreg_num N g ty c = Ok (if _INVALID_TYPE N ty then 0 else Z.of_nat (length (wanting D c (entries_of R ty)))).
Proof.
  intros Hrep. unfold gnrc_netreg_num. destruct (_INVALID_TYPE N ty) eqn:Hv; [done|].
  destruct (type_list g R ty Hrep Hv) as (l & h & Hl & -> & -> & Hc & _). cbn [mbind result_bind].
  rewrite <- (Z.add_0_l (Z.of_nat _)). apply (num_loop_Ok D); [apply (rr_data _ _ _ _ Hrep)|done|]. eapply chain_rounds; [|done]. by eapply (rr_nodup _ _ _ _ Hrep).
Qed.

Lemma behind_app p (l1 l2 : list Z) : p ∉ l1 → behind p (l1 ++ p :: l2) = l2.
Proof.
  induction l1 as [|q l1 IH]; intros Hp; cbn [app behind]; [by rewrite decide_True|].
  rewrite decide_False by set_solver. apply IH. set_solver.
Qed.

(** The next entry, on the list the given one is on. *)
Lemma getnext_Ok g R i l1 e l2 d : reg_rep g R → R !! i = Some (l1 ++ e :: l2) → D !! e = Some d →
  gnrc_netreg_getnext g e = Ok (first (wanting D d.1 l2)).
Proof.
  intros Hrep Hl Hd. pose proof (rr_data _ _ _ _ Hrep) as HD. destruct (rr_heads _ _ _ _ Hrep _ _ Hl) as (h & _ & Hc).
  pose proof (chain_rounds g h _ (rr_nodup _ _ _ _ Hrep _ _ Hl) Hc) as Hf.
  destruct (entries_suffix _ _ _ _ _ Hc) as (HeN & e0 & He & Hc2). destruct (data_entry D g e d HD Hd) as [n He'].
  assert (e0 = Entry n d.1 d.2) as -> by congruence. unfold gnrc_netreg_getnext.
  rewrite (proj2 (Z.eqb_neq _ _) HeN), (entry_at_Ok _ _ _ HeN He). cbn [mbind result_bind].
  apply search_first; [done|done|]. rewrite length_app in Hf. simpl in Hf. lia.
Qed.

(** Without entries, [LL_DELETE] follows the null pointer. *)
Lemma unregister_none g R ty e : reg_rep g R → _INVALID_TYPE N ty = false → entries_of R ty = [] → e ≠ NULL →
  gnrc_netreg_unregister N g ty e = Fault NullDeref.
Proof.
  intros Hrep Hv He HeN. unfold gnrc_netreg_unregister. rewrite Hv.
  destruct (type_list g R ty Hrep Hv) as (l & h & _ & El & -> & Hc & _). rewrite El in He. subst l. simpl in Hc. subst h.
  cbn [mbind result_bind]. by rewrite (proj2 (Z.eqb_neq NULL e)) by done.
Qed.

Lemma getnext_spec g R e : reg_rep g R → netreg_allowed N k D R (GetNext e) →
  gnrc_netreg_getnext g e = Ok (fst (netreg_spec N D R (GetNext e))).
Proof.
  intros Hrep [[-> HN]|Hreg]; cbn [netreg_spec fst].
  { unfold gnrc_netreg_getnext, ctx_of. by rewrite Z.eqb_refl, HN. }
  destruct (list_find (λ l, e ∈ l) R) as [[i l]|] eqn:Hfind.
  2:{ apply list_find_None in Hfind. apply Exists_exists in Hreg as (l & Hl & He). rewrite Forall_forall in Hfind. by apply Hfind in Hl. }
  apply list_find_Some in Hfind as (Hl & He & _).
  apply list_elem_of_split in He as (l1 & l2 & ->). destruct (rr_heads _ _ _ _ Hrep _ _ Hl) as (h & _ & Hc).
  destruct (entries_suffix _ _ _ _ _ Hc) as (HeN & e0 & He & _). pose proof (entry_data D g e e0 (rr_data _ _ _ _ Hrep) He) as Hd.
  rewrite (getnext_Ok g R i l1 e l2 _ Hrep Hl Hd). unfold ctx_of. rewrite Hd. cbn [fmap option_fmap option_map fst].
  pose proof (rr_nodup _ _ _ _ Hrep _ _ Hl) as (_ & Hn & _)%NoDup_app. rewrite behind_app; [done|].
  intros Hin. apply (Hn e Hin). left.
Qed.

Global Instance netreg_implements :
  Implements (netreg_exec N k) (netreg_spec N D) (λ _ R o, netreg_allowed N k D R o) reg_rep.
Proof.
  intros g R o Hrep Hal. destruct o as [ty e|ty e|ty c|ty c|e]; cbn [netreg_exec].
  - by apply register_Ok.
  - destruct (unregister_Ok g R ty e Hrep Hal) as (g' & -> & Hrep'). by exists g'.
  - exists g. rewrite (lookup_Ok g R ty c Hrep). done.
  - exists g. rewrite (num_Ok g R ty c Hrep). done.
  - exists g. rewrite (getnext_spec g R e Hrep Hal). done.
Qed.
End Ops.

Lemma init_rep N g : reg_rep N ((λ e, (demux_ctx e, target_pid e)) <$> entries g) (gnrc_netreg_init N g) (replicate (Z.to_nat N) []).
Proof.
  split; simpl; rewrite ?length_replicate; try done.
  - lia.
  - intros i l [-> Hi]%lookup_replicate. exists NULL. split; [by apply lookup_replicate_2|done].
  - intros i l [-> _]%lookup_replicate. apply NoDup_nil_2.
  - by intros i j l1 l2 p [-> _]%lookup_replicate _ ?%elem_of_nil.
Qed.

(** ** Theorem *)

(** C21: From its initialisation on, every sequence of registrations, removals and
    queries in which an entry is registered only while it is on no list and for a
    thread with a message queue, in which nothing is removed from a valid type
    without entries, and in which the next entry is asked only of a registered one,
    runs without a fault, however the entries are linked in memory, and does what
    it does to a sequence of entries for each type: a new entry goes to the front,
    a removed one leaves the others in order, and a lookup followed by repeated
    calls for the next entry goes through exactly the entries with the context
    asked for. The condition on removals is needed: after every such sequence,
    removing an entry from a valid type without entries follows the null
    pointer. *)
Theorem netreg_refines_sequences N k g0 ops :
  let D := (λ e, (demux_ctx e, target_pid e)) <$> entries g0 in
  let R0 := replicate (Z.to_nat N) [] in
  spec_allowed (netreg_spec N D) (netreg_allowed N k D) R0 ops →
  let R := snd (run_spec (netreg_spec N D) R0 ops) in
  ∃ g, run_exec (netreg_exec N k) (gnrc_netreg_init N g0) ops = Ok (fst (run_spec (netreg_spec N D) R0 ops), g) ∧
       reg_rep N D g R ∧
       ∀ ty e, _INVALID_TYPE N ty = false → entries_of R ty = [] → e ≠ NULL →
         gnrc_netreg_unregister N g ty e = Fault NullDeref.
Proof.
  intros D R0 Hal R. destruct (implements_run (H := netreg_implements N k D) (gnrc_netreg_init N g0) R0 ops) as (g & E & Hrep);
    [apply init_rep|by apply run_allowed_spec|].
  exists g. split; [done|]. split; [done|]. intros ty e. by apply (unregister_none N D).
Qed.

(** Evaluates what is asked of a concrete sequence of calls. *)
Ltac check_allowed :=
  repeat match goal with
    | |- spec_allowed _ _ _ _ => progress cbn [spec_allowed netreg_allowed]
    | |- _ ∧ _ => split
    | |- ¬ registered _ _ => apply (bool_decide_unpack _); vm_compute; exact I
    | |- ∃ d, _ => eexists; split; vm_compute; reflexivity
    | |- _ ∨ registered _ _ => right; apply (bool_decide_unpack _); vm_compute; exact I
    | |- _ ∨ _ ≠ [] => right; vm_compute; discriminate
    | |- _ ≠ NULL => discriminate
    | |- True => exact I
    end.

(** Three entries of the main thread, which has a queue of four messages. *)
Definition demo_queue : kstate := after (msg_init_queue 1 4) demo_boot.
Definition demo_entries : gmap Z gnrc_netreg_entry_t := {[ 100 := Entry NULL 58 2; 200 := Entry NULL 17 2; 300 := Entry NULL 58 2 ]}.
Definition demo_ops : list op :=
  [Register 7 100; Register 1 100; Register 1 200; Register 1 300; Num 1 58; Lookup 1 58; GetNext 300; GetNext 100;
   Unregister 1 200; Unregister 1 300; Lookup 1 58; Lookup 1 17].

Lemma netreg_refines_sequences_witness :
  ∃ g, run_exec (netreg_exec 3 demo_queue) (gnrc_netreg_init 3 (Registry [] demo_entries)) demo_ops =
    Ok ([-22; 0; 0; 0; 2; 300; 100; 0; 0; 0; 100; 0], g) ∧ gnrc_netreg_unregister 3 g 2 100 = Fault NullDeref.
Proof.
  destruct (netreg_refines_sequences 3 demo_queue (Registry [] demo_entries) demo_ops) as (g & E & _ & Hn).
  - unfold demo_ops. check_allowed.
  - exists g. split; [exact E|]. apply Hn; [by vm_compute|by vm_compute|discriminate].
Defined.

(** An entry cannot be removed from a type that has none: the source follows the
    null pointer. *)
Example unregister_empty :
  gnrc_netreg_unregister 3 (gnrc_netreg_init 3 (Registry [] demo_entries)) 1 100 = Fault NullDeref.
Proof. vm_compute. reflexivity. Qed.
