(* ===== verification/Netapi.v ===== *)
(** * sys/net/gnrc/netapi: handing packets to threads

    [gnrc_netapi_dispatch] composes the registry of Netreg, the messages of Msg and
    the use counts of the packet buffer. The theorem says which message reaches which
    receiver, and accounts for every reference to the packet. What the other threads
    do when the kernel switches to them in the middle of a dispatch is a parameter;
    they are expected to leave the registry alone and to release no reference that
    is not theirs. *)

From stdpp Require Import gmap.
From S2P Require Import Prelude Refinement LinkedList Kernel KernelInv Thread Msg System Ipc IpcSystem Delivery Words Pktbuf PktbufAlloc PktbufStore PktbufOps PacketBuffer Netreg.
Open Scope Z_scope.

(** ** The code *)

Definition GNRC_NETAPI_MSG_TYPE_RCV : Z := 0x0201.
Definition GNRC_NETAPI_MSG_TYPE_SND : Z := 0x0202.
Definition GNRC_NETAPI_MSG_TYPE_SET : Z := 0x0203.
Definition GNRC_NETAPI_MSG_TYPE_GET : Z := 0x0204.
Definition GNRC_NETAPI_MSG_TYPE_ACK : Z := 0x0205.

(** The local variable [msg] is at [m]; its member [sender_pid] is uninitialised. *)
Definition local_msg (junk : Z) (m : mptr) (type content : Z) : M unit :=
  modify (λ st, set_msgs (<[m := Msg junk type content]> (msgs st)) st).

Definition _snd_rcv (junk : Z) (m : mptr) (pid type pkt : Z) : M Z :=
  _ ← local_msg junk m type pkt;
  msg_try_send m pid.

Definition gnrc_netapi_send (junk : Z) (m : mptr) (pid pkt : Z) : M Z := _snd_rcv junk m pid GNRC_NETAPI_MSG_TYPE_SND pkt.
Definition gnrc_netapi_receive (junk : Z) (m : mptr) (pid pkt : Z) : M Z := _snd_rcv junk m pid GNRC_NETAPI_MSG_TYPE_RCV pkt.

(** The option is described by the object at [o]. The call blocks for the reply in
    [ack]; the second definition is the rest of its body. *)
Definition _get_set (junk : Z) (cmd ack : mptr) (pid type o : Z) : M Z :=
  _ ← local_msg junk cmd type o;
  msg_send_receive cmd ack pid.

Definition _get_set_resume (ack : mptr) : M Z :=
  v ← read_msg ack;
  _ ← massert (type_ v =? GNRC_NETAPI_MSG_TYPE_ACK);
  mret (s32 (content v)).

Definition gnrc_netapi_get (junk : Z) (cmd ack : mptr) (pid o : Z) : M Z := _get_set junk cmd ack pid GNRC_NETAPI_MSG_TYPE_GET o.
Definition gnrc_netapi_set (junk : Z) (cmd ack : mptr) (pid o : Z) : M Z := _get_set junk cmd ack pid GNRC_NETAPI_MSG_TYPE_SET o.

(** The kernel, the packet buffer and the registry. *)
Record system : Type := System {
  kernel : kstate;
  buffer : pktbuf;
  reg : registry
}.

Section Dispatch.
Context (_pktbuf GNRC_PKTBUF_SIZE : Z) (GNRC_NETTYPE_NUMOF : Z).
(** What the other threads do from the moment a message is delivered until the
    caller runs again, and the address of the local variable of [_snd_rcv]. *)
Context (others : system → system) (junk : Z) (m : mptr).

Definition send_to_target (pid cmd pkt : Z) (s : system) : result (Z * system) :=
  '(r, k) ← _snd_rcv junk m pid cmd pkt (kernel s); Ok (r, System k (buffer s) (reg s)).

Definition gnrc_pktbuf_release (pkt : Z) (s : system) : result system :=
  b ← gnrc_pktbuf_release_error _pktbuf GNRC_PKTBUF_SIZE (buffer s) pkt; Ok (System (kernel s) b (reg s)).

(** [while (sendto)]; an interrupt handler is not interrupted by a thread. *)
Fixpoint dispatch_loop (fuel : nat) (isr : bool) (cmd pkt sendto : Z) (s : system) : result system :=
  match fuel with
  | O => Fault OutOfFuel
  | S fuel =>
      if sendto =? NULL then Ok s
      else
        e ← entry_at (reg s) sendto;
        '(r, s) ← send_to_target (target_pid e) cmd pkt s;
        s ← (if r <? 1 then gnrc_pktbuf_release pkt s else Ok (if isr then s else others s));
        sendto ← gnrc_netreg_getnext (reg s) sendto;
        dispatch_loop fuel isr cmd pkt sendto s
  end.

Definition gnrc_netapi_dispatch (type ctx cmd pkt : Z) (s : system) : result (Z * system) :=
  numof ← gnrc_netreg_num GNRC_NETTYPE_NUMOF (reg s) type ctx;
  if negb (numof =? 0) then
    sendto ← gnrc_netreg_lookup GNRC_NETTYPE_NUMOF (reg s) type ctx;
    b ← gnrc_pktbuf_hold GNRC_PKTBUF_SIZE (buffer s) pkt (numof - 1);
    let s := System (kernel s) b (reg s) in
    s ← dispatch_loop (rounds (reg s)) (in_isr (kernel s)) cmd pkt sendto s;
    Ok (numof, s)
  else Ok (numof, s).

Definition gnrc_netapi_dispatch_send (type ctx pkt : Z) : system → result (Z * system) :=
  gnrc_netapi_dispatch type ctx GNRC_NETAPI_MSG_TYPE_SND pkt.
Definition gnrc_netapi_dispatch_receive (type ctx pkt : Z) : system → result (Z * system) :=
  gnrc_netapi_dispatch type ctx GNRC_NETAPI_MSG_TYPE_RCV pkt.
End Dispatch.

(** ** References to a packet *)

Section References.
Implicit Types (S : packets) (l : list Z).

Lemma hold_lookup num l S q : NoDup l →
  hold_all num l S !! q = if decide (q ∈ l) then add_users num <$> S !! q else S !! q.
Proof.
  unfold hold_all. revert S. induction l as [|r l IH]; intros S; [done|]. intros [Hr Hnd]%NoDup_cons. cbn [foldl].
  rewrite IH by done. destruct (decide (q = r)) as [->|Hne].
  - rewrite decide_False by done. rewrite decide_True by left. by rewrite lookup_alter_eq.
  - rewrite lookup_alter_ne by done. destruct (decide (q ∈ l)).
    + by rewrite decide_True by (by right).
    + by rewrite decide_False by set_solver.
Qed.

(** One reference less; the last one frees the snip. *)
Definition released (s : snip) : option snip := if users s =? 1 then None else Some (add_users (-1) s).

Lemma release_one_lookup S q r : release_one S r !! q = if decide (q = r) then S !! q ≫= released else S !! q.
Proof.
  unfold release_one. destruct (decide (q = r)) as [->|Hne].
  - destruct (S !! r) as [s|] eqn:E; [|by rewrite E]. cbn [mbind option_bind]. unfold released.
    destruct (users s =? 1); [apply lookup_delete_eq|apply lookup_insert_eq].
  - destruct (S !! r) as [s|]; [|done]. destruct (users s =? 1); [by rewrite lookup_delete_ne|by rewrite lookup_insert_ne].
Qed.

Lemma release_lookup l S q : NoDup l →
  foldl release_one S l !! q = if decide (q ∈ l) then S !! q ≫= released else S !! q.
Proof.
  revert S. induction l as [|r l IH]; intros S; [done|]. intros [Hr Hnd]%NoDup_cons. cbn [foldl].
  rewrite IH, release_one_lookup by done. destruct (decide (q = r)) as [->|Hne].
  - rewrite decide_False by done. by rewrite decide_True by left.
  - destruct (decide (q ∈ l)); [by rewrite decide_True by (by right)|].
    by rewrite decide_False by set_solver.
Qed.

(** Chains depend on the [next] members only. *)
Lemma chain_next S S' p l : (∀ q s, q ∈ l → S !! q = Some s → ∃ s', S' !! q = Some s' ∧ next s' = next s) →
  PktbufStore.chain S p l → PktbufStore.chain S' p l.
Proof.
  revert p. induction l as [|r l IH]; intros p Hn; [done|]. intros [-> (s & Hs & Hc)].
  destruct (Hn r s ltac:(left) Hs) as (s' & Hs' & E). split; [done|]. exists s'. rewrite E. split; [done|].
  apply IH; [|done]. intros q t Hq. apply Hn. by right.
Qed.

Context (pkt : Z) (l : list Z) (Hnd : NoDup l).

(** The caller holds [r] references to the packet. *)
Definition owned (r : nat) S : Prop :=
  (0 < r)%nat → PktbufStore.chain S pkt l ∧ ∀ q s, q ∈ l → S !! q = Some s → Z.of_nat r <= users s < 2 ^ 32.

Lemma owned_release r S : owned (Datatypes.S r) S → owned r (foldl release_one S l).
Proof.
  intros H Hr. destruct (H ltac:(lia)) as [Hc Hu].
  assert (∀ q s, q ∈ l → S !! q = Some s → foldl release_one S l !! q = Some (add_users (-1) s)) as Hl.
  { intros q s Hq Hs. rewrite release_lookup, decide_True, Hs by done. simpl. unfold released.
    specialize (Hu q s Hq Hs). by rewrite (proj2 (Z.eqb_neq _ _)) by lia. }
  split.
  - eapply chain_next; [|exact Hc]. intros q s Hq Hs. eexists. split; [by apply Hl|done].
  - intros q s' Hq Hs'. destruct (S !! q) as [s|] eqn:Hs.
    + rewrite (Hl q s Hq Hs) in Hs'. injection Hs' as <-. specialize (Hu q s Hq Hs). simpl. rewrite u32_small by lia. lia.
    + rewrite release_lookup, decide_True, Hs in Hs' by done. done.
Qed.

Lemma owned_hold n S : PktbufStore.chain S pkt l → (∀ q s, q ∈ l → S !! q = Some s → 0 < users s ∧ users s + Z.of_nat n < 2 ^ 32) →
  owned (Datatypes.S n) (hold_all (Z.of_nat n) l S).
Proof.
  intros Hc Hu _. split.
  - eapply chain_next; [|exact Hc]. intros q s Hq Hs. exists (add_users (Z.of_nat n) s).
    rewrite hold_lookup, decide_True, Hs by done. done.
  - intros q s' Hq Hs'. rewrite hold_lookup, decide_True in Hs' by done. destruct (S !! q) as [s|] eqn:Hs; [|done].
    injection Hs' as <-. specialize (Hu q s Hq Hs). simpl. rewrite u32_small by lia. lia.
Qed.

(** The number of receivers that refused the packet. *)
Definition refusals (evs : list (Z * bool)) : nat := length (filter (λ e, e.2 = false) evs).

(** What is left of a snip after the references of those are released. *)
Definition lose (n : nat) (s : snip) : option snip :=
  if Z.of_nat n =? users s then None else Some (add_users (- Z.of_nat n) s).

Lemma lose_0 s : 0 < users s < 2 ^ 32 → Some s = lose 0 s.
Proof.
  intros Hu. unfold lose. rewrite (proj2 (Z.eqb_neq (Z.of_nat 0) (users s))) by lia. f_equal.
  unfold add_users. rewrite Z.add_0_r, u32_small by lia. by destruct s.
Qed.

Lemma lose_release n s : Z.of_nat n < users s < 2 ^ 32 → users s ≠ 1 → lose n (add_users (-1) s) = lose (Datatypes.S n) s.
Proof.
  intros Hu H1. unfold lose, add_users. cbn [users next data type bytes]. rewrite (u32_small (users s + -1)) by lia.
  destruct (Z.eqb_spec (Z.of_nat n) (users s + -1)), (Z.eqb_spec (Z.of_nat (Datatypes.S n)) (users s)); try lia; [done|].
  do 2 f_equal. unfold u32. f_equal. lia.
Qed.
End References.

(** ** What a dispatch does

    [dispatched evs s S s' S'] describes a dispatch from the state [s] with the
    packets [S] on: the events are the PIDs of the receivers in order, and whether
    they take the message. *)
Section Dispatched.
Context (base N : Z) (others : system → system) (m : mptr) (pkt : Z) (l : list Z) (isr : bool) (w : msg_t).

Inductive dispatched : list (Z * bool) → system → packets → system → packets → Prop :=
  | dispatched_nil s S : dispatched [] s S s S
  | dispatched_delivered p evs s S k1 S2 s' S' :
      (* the message is posted to the receiver, and the other threads run, unless
         this is an interrupt handler; then the caller still has a reference for
         each of the receivers that are left *)
      posted m w p (kernel s) k1 →
      let s1 := System k1 (buffer s) (reg s) in
      let s2 := if isr then s1 else others s1 in
      rep base N (buffer s2) S2 → (isr = true → S2 = S) → owned pkt l (length evs) S2 →
      dispatched evs s2 S2 s' S' → dispatched ((p, true) :: evs) s S s' S'
  | dispatched_refused p evs s S k1 b s' S' :
      (* the receiver refuses the message, and the reference meant for it is released *)
      refused m w p (kernel s) k1 →
      rep base N b (foldl release_one S l) →
      dispatched evs (System k1 b (reg s)) (foldl release_one S l) s' S' → dispatched ((p, false) :: evs) s S s' S'.

(** In an interrupt handler exactly the references of those that refuse are gone. *)
Lemma dispatched_users (Hnd : NoDup l) evs s S s' S' q t : isr = true → dispatched evs s S s' S' → q ∈ l → S !! q = Some t →
  Z.of_nat (length evs) <= users t < 2 ^ 32 → 0 < users t → S' !! q = lose (refusals evs) t.
Proof.
  intros Hisr H. revert t. induction H as [s S|p evs s S k1 S2 s' S' _ s1 s2 _ H1 _ H IH|p evs s S k1 b s' S' _ _ H IH]; intros t Hq Ht Hu Hpos.
  - rewrite Ht. apply lose_0. lia.
  - rewrite (H1 Hisr) in IH. unfold refusals. rewrite filter_cons_False by done. apply IH; try done. simpl in Hu. lia.
  - unfold refusals. rewrite filter_cons_True by done. cbn [length] in Hu |- *.
    assert (foldl release_one S l !! q = released t) as Hr by (by rewrite release_lookup, decide_True, Ht).
    unfold released in Hr. destruct (Z.eqb_spec (users t) 1) as [E1|Hne].
    + assert (evs = []) as -> by (destruct evs; [done|simpl in Hu; lia]). inversion H; subst. rewrite Hr.
      unfold lose. simpl. rewrite E1. done.
    + rewrite (IH (add_users (-1) t) Hq Hr) by (simpl; rewrite u32_small by lia; lia). fold (refusals evs).
      assert (refusals evs <= length evs)%nat by (apply length_filter). apply lose_release; lia.
Qed.
End Dispatched.

(** ** The loop *)

Lemma wanting_split D c l e rem : wanting D c l = e :: rem →
  ∃ la lb, l = la ++ e :: lb ∧ wanting D c lb = rem ∧ ctx_of D e = Some c.
Proof.
  unfold wanting. induction l as [|q l IH]; [done|]. rewrite filter_cons. destruct (decide (ctx_of D q = Some c)) as [Hq|Hq].
  - intros [= -> <-]. by exists [], l.
  - intros (la & lb & -> & ? & ?)%IH. by exists (q :: la), lb.
Qed.

(** The target of an entry. *)
Definition target_of (D : gmap Z (Z * Z)) (p : Z) : Z := default 0 (snd <$> D !! p).

Section Loop.
Context (base N NT idle : Z) `{!Layout base N} (others : system → system) (junk : Z) (m : mptr).
Context (D : gmap Z (Z * Z)) (g : registry) (R : list (list Z)) (pkt : Z) (l : list Z) (isr : bool) (me : Z).
Hypothesis Hreg : reg_rep NT D g R.
Hypothesis Hpids : ∀ p d, D !! p = Some d → 0 <= d.2 <= KERNEL_PID_LAST.
Hypothesis Hnd : NoDup l.

(** The state of a dispatch that holds [r] references. *)
Record dispatching (r : nat) (S : packets) (s : system) : Prop := {
  d_kernel : ∃ Q, inv idle Q (kernel s);
  d_isr : in_isr (kernel s) = isr;
  d_registry : reg s = g;
  d_buffer : rep base N (buffer s) S;
  d_refs : owned pkt l r S
}.

(** The caller is running: a thread with the PID [me], or an interrupt handler. *)
Definition calling (s : system) : Prop := isr = false → sched_active_pid (kernel s) = me.

(** What is expected of the other threads: they make the calls of the kernel and of
    the packet buffer as they may, leave the registry alone, release no reference
    that is not theirs, and let the caller run again. *)
Definition others_ok : Prop := ∀ r S s, dispatching (Datatypes.S r) S s →
  ∃ S', dispatching r S' (others s) ∧ sched_active_pid (kernel (others s)) = me.

(** The message as the receivers see it. *)
Definition message (cmd : Z) : msg_t := Msg (if isr then KERNEL_PID_ISR else me) cmd pkt.

Lemma dispatching_le r S s : dispatching (Datatypes.S r) S s → dispatching r S s.
Proof.
  intros [Hk Hi Hg Hb Hr]. split; try done. intros Hpos. destruct (Hr ltac:(lia)) as [Hc Hu]. split; [done|].
  intros q t Hq Ht. specialize (Hu q t Hq Ht). lia.
Qed.

Lemma send_Ok r S s pid cmd : dispatching r S s → calling s → 0 <= pid <= KERNEL_PID_LAST →
  ∃ v k, let s' := System k (buffer s) (reg s) in
    send_to_target junk m pid cmd pkt s = Ok (v, s') ∧ dispatching r S s' ∧
    (v = 1 ∧ posted m (message cmd) pid (kernel s) k ∨ v < 1 ∧ refused m (message cmd) pid (kernel s) k ∧ calling s').
Proof.
  intros [[Q Hk] Hi Hg Hb Hr] Hme Hp. destruct (inv_live idle Q _ Hk) as (t & T & Hl).
  unfold send_to_target, _snd_rcv, local_msg. ksimpl. set (v0 := Msg junk cmd pkt). fold (stamped m v0 (kernel s)).
  assert (live idle Q (stamped m v0 (kernel s)) t T) as Hl1 by (by apply live_msgs).
  destruct (msg_send_safe idle Q _ t T m pid false Hl1) as (v & Q' & k & E & Hinv); [done|by eexists; apply lookup_insert_eq|done|].
  destruct (try_send_outcome idle Q _ t T m v0 pid Hl1 (lookup_insert_eq _ _ _) Hp) as (v' & k' & E' & Hout).
  unfold msg_try_send in *. rewrite E in E'. injection E' as <- <-.
  assert (set_sender_pid (sender_of (stamped m v0 (kernel s))) v0 = message cmd) as Ew.
  { unfold set_sender_pid, sender_of, message, calling in *. simpl. rewrite Hi. f_equal. clear -Hme. destruct isr; [done|by apply Hme]. }
  rewrite Ew in Hout. rewrite E. cbn [mbind result_bind]. exists v, k. split; [done|].
  assert (in_isr k = isr) as Hik.
  { destruct Hout as [[_ [u U b x|u U U' kk ll]]|[_ [_ [? ->]]]]; simpl in *; congruence. }
  split; [by split; [exists Q'|..]|]. destruct Hout as [[-> H]|[Hv H]]; [left|right].
  - split; [done|]. by eapply posted_stamped.
  - split; [done|]. split; [by eapply refused_stamped|]. destruct H as [_ [? ->]]. done.
Qed.

Lemma release_Ok r S s : dispatching (Datatypes.S r) S s → calling s →
  ∃ b, let s' := System (kernel s) b (reg s) in
    gnrc_pktbuf_release base N pkt s = Ok s' ∧ dispatching r (foldl release_one S l) s' ∧ calling s'.
Proof.
  intros [Hk Hi Hg Hb Hr] Hme. destruct (Hr ltac:(lia)) as [Hc _]. unfold gnrc_pktbuf_release, gnrc_pktbuf_release_error, _release_error_locked.
  destruct (release_loop_Ok _ _ _ _ _ _ _ _ Hb Hc (chain_fuel _ _ _ _ _ _ _ Hb Hc)) as (b' & -> & Hb' & _).
  cbn [mbind result_bind]. exists b'. split; [done|]. split; [|done]. split; [done|done|done|exact Hb'|]. by apply owned_release.
Qed.

Notation dispatched cmd := (dispatched base N others m pkt l isr (message cmd)).

(** One receiver. *)
Lemma round_Ok (Hothers : isr = false → others_ok) r S s pid cmd : dispatching (Datatypes.S r) S s → calling s → 0 <= pid <= KERNEL_PID_LAST →
  ∃ v s1 b s2 S2, send_to_target junk m pid cmd pkt s = Ok (v, s1) ∧
    (if v <? 1 then gnrc_pktbuf_release base N pkt s1 else Ok (if isr then s1 else others s1)) = Ok s2 ∧
    dispatching r S2 s2 ∧ calling s2 ∧
    (∀ evs s' S', length evs = r → dispatched cmd evs s2 S2 s' S' → dispatched cmd ((pid, b) :: evs) s S s' S').
Proof.
  intros Hd Hme Hp. destruct (send_Ok _ S s pid cmd Hd Hme Hp) as (v & k & Es & Hd1 & [[-> Hpost]|(Hv & Href & Hme1)]);
    eexists _, (System k (buffer s) (reg s)).
  - assert (∃ S2, let s1 := System k (buffer s) (reg s) in let s2 := if isr then s1 else others s1 in
      dispatching r S2 s2 ∧ calling s2 ∧ (isr = true → S2 = S)) as (S2 & Hd2 & Hme2 & HS).
    { unfold calling. destruct isr eqn:Hi.
      - exists S. split; [by apply dispatching_le|done].
      - destruct (Hothers eq_refl _ _ _ Hd1) as (S2 & Hd2 & Ha). by exists S2. }
    exists true. eexists _, S2. split; [exact Es|]. change (1 <? 1) with false. split; [done|]. split; [done|]. split; [done|].
    intros evs s' S' Hl H. eapply dispatched_delivered; [exact Hpost|apply Hd2|done| |exact H]. rewrite Hl. apply Hd2.
  - destruct (release_Ok _ _ _ Hd1 Hme1) as (b & Er & Hd2 & Hme2). exists false. eexists _, _. split; [exact Es|].
    rewrite (proj2 (Z.ltb_lt _ _) Hv). split; [exact Er|]. split; [exact Hd2|]. split; [done|].
    intros evs s' S' _ H. eapply dispatched_refused; [exact Href|apply Hd2|exact H].
Qed.

Lemma loop_Ok (Hothers : isr = false → others_ok) c cmd i l1 l2 : ∀ fuel S s,
  R !! i = Some (l1 ++ l2) → dispatching (length (wanting D c l2)) S s → calling s → (length l2 < fuel)%nat →
  ∃ evs s' S', dispatch_loop base N others junk m fuel isr cmd pkt (first (wanting D c l2)) s = Ok s' ∧
    evs.*1 = target_of D <$> wanting D c l2 ∧ dispatched cmd evs s S s' S' ∧ dispatching 0 S' s'.
Proof.
  remember (wanting D c l2) as rem eqn:Erem. revert l1 l2 Erem.
  induction rem as [|e rem IH]; intros l1 l2 Erem [|fuel] S s HR Hd Hme Hf; try lia; cbn [dispatch_loop].
  { exists [], s, S. split; [done|]. split; [done|]. split; [constructor|done]. }
  destruct (wanting_split D c l2 e rem) as (la & lb & -> & <- & Hctx); [done|]. rewrite app_assoc in HR.
  unfold ctx_of in Hctx. destruct (D !! e) as [d|] eqn:HDe; [|done]. injection Hctx as Hdc.
  destruct (rr_heads _ _ _ _ Hreg _ _ HR) as (h & _ & Hch). destruct (entries_suffix _ _ _ _ _ Hch) as (HeN & e0 & He & _).
  assert (E0 : target_pid e0 = d.2).
  { pose proof (entry_data D g e e0 (rr_data _ _ _ _ Hreg) He) as E. rewrite HDe in E. by injection E as ->. }
  change (first (e :: wanting D c lb)) with e. rewrite (proj2 (Z.eqb_neq _ _) HeN), (d_registry _ _ _ Hd).
  rewrite (entry_at_Ok _ _ _ HeN He). cbn [mbind result_bind]. rewrite E0.
  destruct (round_Ok Hothers _ S s d.2 cmd Hd Hme (Hpids _ _ HDe)) as (v & s1 & b & s2 & S2 & -> & E2 & Hd2 & Hme2 & Hev).
  cbn [mbind result_bind]. rewrite E2. cbn [mbind result_bind]. rewrite (d_registry _ _ _ Hd2).
  rewrite (getnext_Ok NT D g R i (l1 ++ la) e lb d Hreg HR HDe). cbn [mbind result_bind]. rewrite Hdc.
  rewrite (cons_middle e), app_assoc in HR. rewrite length_app in Hf. cbn [length] in Hf.
  destruct (IH ((l1 ++ la) ++ [e]) lb eq_refl fuel S2 s2 HR Hd2 Hme2 ltac:(lia)) as (evs & s' & S' & E & Hpid & Hdis & Hd').
  exists ((d.2, b) :: evs), s', S'. split; [exact E|]. split; [|split; [|done]].
  - rewrite !fmap_cons, Hpid. unfold target_of at 2. rewrite HDe. done.
  - apply Hev; [|done]. apply (f_equal length) in Hpid. by rewrite !length_fmap in Hpid.
Qed.
End Loop.

(** ** Theorem *)

Definition deliveries (evs : list (Z * bool)) : nat := length (filter (λ e, e.2 = true) evs).

Lemma count_events evs : (deliveries evs + refusals evs = length evs)%nat.
Proof.
  unfold deliveries, refusals. induction evs as [|[p b] evs IH]; [done|]. rewrite !filter_cons. simpl.
  destruct b; simpl; lia.
Qed.

Definition receivers (NT : Z) (D : gmap Z (Z * Z)) (R : list (list Z)) (type ctx : Z) : list Z :=
  if _INVALID_TYPE NT type then [] else wanting D ctx (entries_of R type).

(** C7: Dispatching a packet of which the caller holds a reference, in a kernel and
    with a registry and a packet buffer that satisfy their invariants. The receivers
    are the entries of the registry with the type and context, and their number is
    returned. Without receivers nothing happens, and the caller keeps its reference.
    Otherwise the message, with the command, the packet and the caller's PID, goes
    to each of them in order. It is posted, in the buffer of the waiting thread or
    at the end of its queue, and carries one reference; or, exactly when there is no
    such thread or the thread neither waits nor has room, nothing is sent and the
    reference is released. The caller's own reference is used up: in an interrupt
    handler every snip of the packet has one use less and one more for each
    delivery, and is freed when that leaves none. A thread may be interrupted by the
    receivers after each delivery; the same holds provided that they leave the
    registry alone, release only their own references and let the caller run again
    ([others_ok]; see [registry_changes_leak] for the first). No fault occurs, and
    the invariants are kept. *)
Theorem netapi_dispatch_correct base N NT idle others junk m D R pkt l S s ty ctx cmd :
  Layout base N → reg_rep NT D (reg s) R → (∀ p d, D !! p = Some d → 0 <= d.2 <= KERNEL_PID_LAST) →
  (∃ Q, inv idle Q (kernel s)) → rep base N (buffer s) S → PktbufStore.chain S pkt l →
  let rcv := receivers NT D R ty ctx in
  let isr := in_isr (kernel s) in
  let me := sched_active_pid (kernel s) in
  (∀ q t, q ∈ l → S !! q = Some t → 0 < users t ∧ users t + Z.of_nat (length rcv) <= 2 ^ 32) →
  (isr = false → others_ok base N idle others (reg s) pkt l isr me) →
  ∃ s', gnrc_netapi_dispatch base N NT others junk m ty ctx cmd pkt s = Ok (Z.of_nat (length rcv), s') ∧
    reg s' = reg s ∧ (∃ Q, inv idle Q (kernel s')) ∧ (rcv = [] → s' = s) ∧
    (rcv ≠ [] → ∃ b evs S', evs.*1 = target_of D <$> rcv ∧
       let S0 := hold_all (Z.of_nat (length rcv) - 1) l S in
       let w := Msg (if isr then KERNEL_PID_ISR else me) cmd pkt in
       rep base N b S0 ∧ dispatched base N others m pkt l isr w evs (System (kernel s) b (reg s)) S0 s' S' ∧
       rep base N (buffer s') S' ∧
       (isr = true → ∀ q t, q ∈ l → S !! q = Some t →
          let n := Z.of_nat (deliveries evs) in
          S' !! q = if users t - 1 + n =? 0 then None else Some (add_users (n - 1) t))).
Proof.
  intros HL Hreg Hpids Hk Hb Hc rcv isr me Hu Hothers.
  assert (NoDup l) as Hnd by (eapply (chain_NoDup base N S pkt l); [|exact Hc]; intros q t Hq; by apply (rep_snip base N _ _ _ _ _ Hb Hq)).
  unfold gnrc_netapi_dispatch. rewrite (num_Ok NT D _ R ty ctx Hreg), (lookup_Ok NT D _ R ty ctx Hreg).
  unfold rcv, receivers in *. destruct (_INVALID_TYPE NT ty) eqn:Hv; cbn [mbind result_bind].
  { exists s. done. }
  destruct (type_list NT D _ R ty Hreg Hv) as (l2 & h & HR & El & _ & Hch & _). rewrite El in *.
  destruct (wanting D ctx l2) as [|e rem] eqn:Ew; [by exists s|]. cbn [length]. set (n := length rem).
  assert ((Z.of_nat (Datatypes.S n) =? 0) = false) as -> by lia. cbn [negb mbind result_bind].
  replace (Z.of_nat (Datatypes.S n) - 1) with (Z.of_nat n) by lia. cbn [length] in Hu. fold n in Hu.
  assert (owned pkt l (Datatypes.S n) (hold_all (Z.of_nat n) l S)) as Hown.
  { apply owned_hold; [done..|]. intros q t Hq Ht. specialize (Hu q t Hq Ht). lia. }
  unfold gnrc_pktbuf_hold.
  destruct (hold_loop_Ok _ _ _ _ _ _ _ _ (Z.of_nat n) Hb Hc (chain_fuel _ _ _ _ _ _ _ Hb Hc)) as (m' & -> & Hb').
  cbn [mbind result_bind kernel reg]. set (s1 := System _ _ _).
  destruct (loop_Ok base N NT idle others junk m D (reg s) R pkt l isr me Hreg Hpids Hnd Hothers ctx cmd
      (Z.to_nat ty) [] l2 (rounds (reg s)) (hold_all (Z.of_nat n) l S) s1) as (evs & s' & S' & E & Hpid & Hdis & [Hk' _ Hg' Hb2 _]).
  { done. } { rewrite Ew. by split. } { done. } { eapply chain_rounds; [|exact Hch]. by eapply (rr_nodup _ _ _ _ Hreg). }
  rewrite Ew in E, Hpid. fold isr. rewrite E. cbn [mbind result_bind]. exists s'. split; [done|]. split; [done|]. split; [done|].
  split; [done|]. intros _. eexists _, evs, S'. split; [done|]. split; [exact Hb'|]. split; [exact Hdis|]. split; [done|]. intros Hisr q t Hq Ht.
  pose proof (count_events evs) as Hcount. assert (length evs = Datatypes.S n) as Hlen.
  { apply (f_equal length) in Hpid. rewrite !length_fmap in Hpid. exact Hpid. }
  destruct (Hu q t Hq Ht) as [Hu0 Hu1].
  rewrite (dispatched_users _ _ _ _ _ _ _ _ Hnd evs _ _ s' S' q (add_users (Z.of_nat n) t) Hisr Hdis Hq).
  - unfold lose, add_users. cbn [users next data type bytes]. rewrite (u32_small (users t + Z.of_nat n)) by lia.
    destruct (Z.eqb_spec (Z.of_nat (refusals evs)) (users t + Z.of_nat n)), (Z.eqb_spec (users t - 1 + Z.of_nat (deliveries evs)) 0); try lia; [done|].
    do 3 f_equal. lia.
  - by rewrite hold_lookup, decide_True, Ht.
  - simpl. rewrite u32_small by lia. lia.
  - simpl. rewrite u32_small by lia. lia.
Qed.

(** ** A dispatch in an interrupt handler, and one in a thread

    The main thread has a queue for one message and two entries in the registry. *)

Definition demo_thread : kstate := ipc_run [MsgInitQueue 1 1] demo_boot.
Definition demo_handler : kstate := ipc_run [MsgInitQueue 1 1; Core System.IrqEnter] demo_boot.

Lemma demo_run_inv cs : ipc_all_allowed cs demo_boot → ∃ Q, inv 1360 Q (ipc_run cs demo_boot).
Proof.
  intros Hcs. destruct (boot_inv demo_tsi 0 1000 400 2000 400 1 2 demo_msgs demo_mboxes demo_rmutexes) as (Q & st1 & E1 & Hinv);
    [vm_compute; discriminate|exact demo_mbox_ok|].
  assert (st1 = demo_boot) as E2 by (unfold demo_boot, demo_init; by rewrite (after_Ok _ _ _ _ E1)). rewrite E2 in Hinv.
  eapply ipc_reachable_inv; [|exact Hinv]. eapply ipc_run_reachable; [exact Hinv|apply ipc_reach_refl|exact Hcs].
Qed.

Lemma demo_queue_allowed : ipc_allowed 1360 (MsgInitQueue 1 1) demo_boot.
Proof. exists 0. split; [lia|]. split; [done|]. intros i Hi. assert (i = 0) as -> by lia. eexists. vm_compute. reflexivity. Qed.

Lemma demo_thread_inv : ∃ Q, inv 1360 Q demo_thread.
Proof. apply demo_run_inv. split; [exact demo_queue_allowed|exact I]. Qed.

Lemma demo_handler_inv : ∃ Q, inv 1360 Q demo_handler.
Proof. apply demo_run_inv. split; [exact demo_queue_allowed|split; [by vm_compute|exact I]]. Qed.

(** Other threads that let the caller run on, or else leave a kernel in which it
    runs. *)
Definition demo_others (s : system) : system :=
  if bool_decide (sched_active_pid (kernel s) = 2) then s else System demo_thread (buffer s) (reg s).

Lemma demo_others_ok base N g pkt l : others_ok base N 1360 demo_others g pkt l false 2.
Proof.
  intros r S s Hd. exists S. pose proof (dispatching_le _ _ _ _ _ _ _ _ _ _ Hd) as Hd'. unfold demo_others.
  destruct (bool_decide_reflect (sched_active_pid (kernel s) = 2)); [done|]. split; [|by vm_compute].
  destruct Hd' as [_ _ Hg Hb Hr]. split; [exact demo_thread_inv|by vm_compute|done|done|done].
Qed.

Definition demo_listeners : gmap Z gnrc_netreg_entry_t := {[ 100 := Entry NULL 58 2; 300 := Entry NULL 58 2 ]}.
Definition demo_registrations : list Netreg.op := [Register 1 100; Register 1 300].

Lemma demo_registry : ∃ g, run_exec (netreg_exec 3 demo_queue) (gnrc_netreg_init 3 (Registry [] demo_listeners)) demo_registrations = Ok ([0; 0], g) ∧
  reg_rep 3 ((λ e, (demux_ctx e, target_pid e)) <$> demo_listeners) g [[]; [300; 100]; []].
Proof.
  destruct (implements_run (H := netreg_implements 3 demo_queue ((λ e, (demux_ctx e, target_pid e)) <$> demo_listeners))
    (gnrc_netreg_init 3 (Registry [] demo_listeners)) (replicate 3 []) demo_registrations) as (g & E & Hg);
    [exact (init_rep 3 (Registry [] demo_listeners))|apply run_allowed_spec|exists g; split; [exact E|exact Hg]].
  unfold demo_registrations. check_allowed.
Qed.

(** One snip of 13 bytes. *)
Lemma demo_packet : ∃ b t, gnrc_pktbuf_init demo_base demo_size demo_mem ≫= (λ st, PacketBuffer.exec demo_base demo_size st (Add NULL NULL 13 1)) = Ok (1000, b) ∧
  rep demo_base demo_size b {[ 1000 := t ]} ∧ users t = 1 ∧ next t = NULL.
Proof.
  destruct (pktbuf_init_inv demo_base demo_size demo_mem demo_layout demo_in_mem) as (st & Hi & Hinv). rewrite Hi. cbn [mbind result_bind].
  assert (rep demo_base demo_size st ∅) as Hrep.
  { split; [exists [(demo_base, demo_size)]; exact Hinv|]. intros p s Hp. rewrite lookup_empty in Hp. discriminate Hp. }
  destruct (add_sim demo_base demo_size st ∅ NULL NULL 13 1 (Layout0 := demo_layout) Hrep) as (r & b & S' & E & Hs & Hr).
  { cbn [PacketBuffer.valid]. unfold is_word, NULL, Pktbuf.NULL. refine (conj _ (conj _ (conj _ _))); [lia|lia|lia|]. intros Hd. by destruct Hd. }
  assert ((λ x, match x with Ok (r, _) => r | Fault _ => -1 end) (gnrc_pktbuf_init demo_base demo_size demo_mem ≫= λ st, PacketBuffer.exec demo_base demo_size st (Add NULL NULL 13 1)) = 1000) as Hv
    by (vm_compute; reflexivity).
  rewrite Hi in Hv. cbn [mbind result_bind] in Hv. rewrite E in Hv |- *. subst r. exists b.
  cbn [PacketBuffer.spec] in Hs. destruct Hs as [[Hn _]|(_ & _ & d & bs & _ & _ & ->)]; [discriminate Hn|]. eexists. split; [reflexivity|].
  rewrite insert_empty in Hr. split; [exact Hr|]. by split.
Qed.

Lemma demo_targets : map_Forall (λ (_ : Z) (d : Z * Z), 0 <= d.2 <= KERNEL_PID_LAST)
  ((λ e, (demux_ctx e, target_pid e)) <$> demo_listeners).
Proof. apply (bool_decide_unpack _). vm_compute. exact I. Qed.

(** The state of the packet and of the queue after a dispatch, by evaluation. *)
Definition demo_dispatch (others : system → system) (k : kstate) : result (Z * Z) * option msg_t :=
  match gnrc_pktbuf_init demo_base demo_size demo_mem ≫= (λ st, PacketBuffer.exec demo_base demo_size st (Add NULL NULL 13 1)),
        run_exec (netreg_exec 3 demo_queue) (gnrc_netreg_init 3 (Registry [] demo_listeners)) demo_registrations with
  | Ok (_, b), Ok (_, g) =>
      match gnrc_netapi_dispatch demo_base demo_size 3 others 0 (9, 9) 1 58 GNRC_NETAPI_MSG_TYPE_RCV 1000 (System k b g) with
      | Ok (n, s) => (u ← load (mem (buffer s)) 1000; Ok (n, u), msgs (kernel s) !! (1, 0)) | Fault f => (Fault f, None) end
  | Fault f, _ | _, Fault f => (Fault f, None) end.

(** The first message fills the queue, the second one is refused; in the handler
    and in the thread. *)
Lemma netapi_dispatch_correct_witness : ∃ g b s' s'',
  run_exec (netreg_exec 3 demo_queue) (gnrc_netreg_init 3 (Registry [] demo_listeners)) demo_registrations = Ok ([0; 0], g) ∧
  gnrc_pktbuf_init demo_base demo_size demo_mem ≫= (λ st, PacketBuffer.exec demo_base demo_size st (Add NULL NULL 13 1)) = Ok (1000, b) ∧
  gnrc_netapi_dispatch demo_base demo_size 3 id 0 (9, 9) 1 58 GNRC_NETAPI_MSG_TYPE_RCV 1000 (System demo_handler b g) = Ok (2, s') ∧
  reg s' = g ∧
  gnrc_netapi_dispatch demo_base demo_size 3 demo_others 0 (9, 9) 1 58 GNRC_NETAPI_MSG_TYPE_RCV 1000 (System demo_thread b g) = Ok (2, s'') ∧
  reg s'' = g ∧
  demo_dispatch id demo_handler = (Ok (2, 1), Some (Msg KERNEL_PID_ISR GNRC_NETAPI_MSG_TYPE_RCV 1000)) ∧
  demo_dispatch demo_others demo_thread = (Ok (2, 1), Some (Msg 2 GNRC_NETAPI_MSG_TYPE_RCV 1000)).
Proof.
  destruct demo_registry as (g & Eg & Hg). destruct demo_packet as (b & t & Eb & Hb & Hu & Hn).
  assert (PktbufStore.chain {[ 1000 := t ]} 1000 [1000]) as Hc.
  { split; [reflexivity|]. exists t. split; [apply lookup_singleton_eq|exact Hn]. }
  assert (∀ q u, q ∈ [1000] → ({[ 1000 := t ]} : packets) !! q = Some u → 0 < users u ∧ users u + 2 <= 2 ^ 32) as Huse.
  { intros q u _ Hq. apply lookup_singleton_Some in Hq as [_ <-]. rewrite Hu. lia. }
  destruct (netapi_dispatch_correct demo_base demo_size 3 1360 id 0 (9, 9) ((λ e, (demux_ctx e, target_pid e)) <$> demo_listeners)
    [[]; [300; 100]; []] 1000 [1000] {[ 1000 := t ]} (System demo_handler b g) 1 58 GNRC_NETAPI_MSG_TYPE_RCV
    demo_layout Hg demo_targets demo_handler_inv Hb Hc Huse ltac:(discriminate)) as (s' & E & Hr & _).
  destruct (netapi_dispatch_correct demo_base demo_size 3 1360 demo_others 0 (9, 9) ((λ e, (demux_ctx e, target_pid e)) <$> demo_listeners)
    [[]; [300; 100]; []] 1000 [1000] {[ 1000 := t ]} (System demo_thread b g) 1 58 GNRC_NETAPI_MSG_TYPE_RCV
    demo_layout Hg demo_targets demo_thread_inv Hb Hc Huse (λ _, demo_others_ok _ _ _ _ _)) as (s'' & E' & Hr' & _).
  exists g, b, s', s''. split; [exact Eg|]. split; [exact Eb|]. split; [exact E|]. split; [exact Hr|]. split; [exact E'|]. split; [exact Hr'|].
  split; vm_compute; reflexivity.
Defined.

(** The registry is not locked: the references are counted before the first message
    is sent. If a receiver that is switched to removes another entry, the reference
    meant for that entry is neither delivered nor released. Here a thread sends to
    two entries, and the packet is left with two uses after one delivery. *)
Definition removes (s : system) : system :=
  match gnrc_netreg_unregister 3 (reg s) 1 100 with Ok g => System (kernel s) (buffer s) g | Fault _ => s end.

Example registry_changes_leak :
  ('(_, b) ← gnrc_pktbuf_init demo_base demo_size demo_mem ≫= (λ st, PacketBuffer.exec demo_base demo_size st (Add NULL NULL 13 1));
   '(_, g) ← run_exec (netreg_exec 3 demo_queue) (gnrc_netreg_init 3 (Registry [] demo_listeners)) demo_registrations;
   '(n, s) ← gnrc_netapi_dispatch demo_base demo_size 3 removes 0 (9, 9) 1 58 GNRC_NETAPI_MSG_TYPE_RCV 1000 (System demo_queue b g);
   u ← load (mem (buffer s)) 1000;
   Ok (n, u, length (filter (λ e, content e.2 = 1000 ∧ e.1.1 = 1) (map_to_list (msgs (kernel s)))))) = Ok (2, 2, 1%nat).
Proof. vm_compute. reflexivity. Qed.
