(* ===== verification/Bloom.v ===== *)
(** * sys/bitfield, sys/bloom and sys/hashes/hashes.c

    Bit fields as arrays of bytes, the Bloom filter over them, and the simple hash
    functions it is used with. *)

From S2P Require Import Prelude Words.
Open Scope Z_scope.

(** ** Bit fields *)

(** [field[idx / 8] = f(field[idx / 8])]. *)
Definition bf_update (field : list Z) (idx : Z) (f : Z → Z) : result (list Z) :=
  b ← aget field (idx / 8); aset field (idx / 8) (f b).

Definition bf_bit (idx : Z) : Z := Z.shiftl 1 (idx mod 8).

Definition bf_set (field : list Z) (idx : Z) : result (list Z) := bf_update field idx (λ b, u8 (Z.lor b (bf_bit idx))).
Definition bf_unset (field : list Z) (idx : Z) : result (list Z) :=
  bf_update field idx (λ b, u8 (Z.land b (u32 (Z.lnot (bf_bit idx))))).
Definition bf_toggle (field : list Z) (idx : Z) : result (list Z) := bf_update field idx (λ b, u8 (Z.lxor b (bf_bit idx))).
Definition bf_isset (field : list Z) (idx : Z) : result bool :=
  b ← aget field (idx / 8); Ok (negb (Z.land b (bf_bit idx) =? 0)).

(** [for (j = 0; (j < nbytes) && (field[j] == 255); j++) i += 8]: [n] bytes
    remain; the result is [i]. *)
Fixpoint skip_full (field : list Z) (nbytes : Z) (n : nat) (i : Z) : result Z :=
  match n with
  | O => Ok i
  | S n' =>
      let j := nbytes - Z.of_nat n in
      b ← aget field j;
      if b =? 255 then skip_full field nbytes n' (i + 8) else Ok i
  end.

Fixpoint find_unset (fuel : nat) (field : list Z) (i size : Z) : result (Z * list Z) :=
  match fuel with
  | O => Fault OutOfFuel
  | S fuel =>
      if i <? size then
        s ← bf_isset field i;
        if negb s then field ← bf_set field i; Ok (i, field)
        else find_unset fuel field (i + 1) size
      else Ok (-1, field)
  end.

(** With interrupts disabled. The bits of one byte are looked at. *)
Definition bf_get_unset (field : list Z) (size : Z) : result (Z * list Z) :=
  let nbytes := (size + 7) / 8 in
  i ← skip_full field nbytes (Z.to_nat nbytes) 0;
  find_unset 9 field i size.

(** ** The Bloom filter *)

Section Bloom.

(** A hash function of a buffer and its length. *)
Definition hashfp_t : Type := list Z → Z → Z.

Record bloom_t : Type := Bloom {
  m : Z;
  k : Z;
  a : option (list Z);
  hash : option (list hashfp_t)
}.

Definition bloom_init (size : Z) (bitfield : list Z) (hashes : list hashfp_t) (hashes_numof : Z) : bloom_t :=
  Bloom size hashes_numof (Some bitfield) (Some hashes).

(** The filter and the bit field, which is the caller's. *)
Definition bloom_del (bloom : bloom_t) : result (bloom_t * option (list Z)) :=
  field ←
    match a bloom with
    | Some f => let n := (m bloom + 8 - 1) / 8 in f ← memcpy f 0 (replicate (Z.to_nat n) 0) 0 n; Ok (Some f)
    | None => Ok None
    end;
  Ok (Bloom 0 0 None None, field).

(** [hash[n](buf, len) % m] *)
Definition bloom_index (bloom : bloom_t) (h : hashfp_t) (buf : list Z) (len : Z) : result Z :=
  if m bloom =? 0 then Fault DivByZero else Ok (u32 (h buf len) mod m bloom).

(** [count] functions remain. *)
Fixpoint add_hashes (count : nat) (bloom : bloom_t) (hs : list hashfp_t) (field buf : list Z) (len : Z) : result (list Z) :=
  match count with
  | O => Ok field
  | S count =>
      match hs with
      | [] => Fault OutOfBounds
      | h :: hs => i ← bloom_index bloom h buf len; field ← bf_set field i; add_hashes count bloom hs field buf len
      end
  end.

Fixpoint check_hashes (count : nat) (bloom : bloom_t) (hs : list hashfp_t) (field buf : list Z) (len : Z) : result bool :=
  match count with
  | O => Ok true
  | S count =>
      match hs with
      | [] => Fault OutOfBounds
      | h :: hs =>
          i ← bloom_index bloom h buf len;
          s ← bf_isset field i;
          if negb s then Ok false else check_hashes count bloom hs field buf len
      end
  end.

Definition bloom_add (bloom : bloom_t) (buf : list Z) (len : Z) : result bloom_t :=
  match a bloom, hash bloom with
  | Some field, Some hs =>
      field ← add_hashes (Z.to_nat (k bloom)) bloom hs field buf len;
      Ok (Bloom (m bloom) (k bloom) (Some field) (Some hs))
  | _, _ => if k bloom =? 0 then Ok bloom else Fault NullDeref
  end.

Definition bloom_check (bloom : bloom_t) (buf : list Z) (len : Z) : result bool :=
  match a bloom, hash bloom with
  | Some field, Some hs => check_hashes (Z.to_nat (k bloom)) bloom hs field buf len
  | _, _ => if k bloom =? 0 then Ok true else Fault NullDeref
  end.
End Bloom.

(** ** Hash functions *)

(** [for (size_t i = 0; i < len; i++) hash = f(hash, buf[i])]. *)
Fixpoint hash_loop (f : Z → Z → Z) (buf : list Z) (len : nat) (hash : Z) : result Z :=
  match len with
  | O => Ok hash
  | S len =>
      match buf with
      | [] => Fault OutOfBounds
      | b :: buf => hash_loop f buf len (f hash b)
      end
  end.

Definition djb2_hash (buf : list Z) (len : Z) : result Z :=
  hash_loop (λ hash b, u32 (hash * 33 + b)) buf (Z.to_nat len) 5381.
Definition sdbm_hash (buf : list Z) (len : Z) : result Z :=
  hash_loop (λ hash b, u32 (b + u32 (Z.shiftl hash 6) + u32 (Z.shiftl hash 16) - hash)) buf (Z.to_nat len) 0.
Definition kr_hash (buf : list Z) (len : Z) : result Z :=
  hash_loop (λ hash b, u32 (hash + b)) buf (Z.to_nat len) 0.
Definition sax_hash (buf : list Z) (len : Z) : result Z :=
  hash_loop (λ hash b, Z.lxor hash (u32 (u32 (Z.shiftl hash 5) + Z.shiftr hash 2 + b))) buf (Z.to_nat len) 0.
Definition dek_hash (buf : list Z) (len : Z) : result Z :=
  hash_loop (λ hash b, Z.lxor (Z.lxor (u32 (Z.shiftl hash 5)) (Z.shiftr hash 27)) b) buf (Z.to_nat len) 7919.
Definition fnv_hash (buf : list Z) (len : Z) : result Z :=
  let FNV_PRIME := 0x811C9DC5 in
  hash_loop (λ hash b, Z.lxor (u32 (hash * FNV_PRIME)) b) buf (Z.to_nat len) 0.
Definition rotating_hash (buf : list Z) (len : Z) : result Z :=
  hash_loop (λ hash b, Z.lxor (Z.lxor (u32 (Z.shiftl hash 4)) (Z.shiftr hash 28)) b) buf (Z.to_nat len) 0.
Definition one_at_a_time_hash (buf : list Z) (len : Z) : result Z :=
  hash ← hash_loop (λ hash b,
      let hash := u32 (hash + b) in
      let hash := u32 (hash + u32 (Z.shiftl hash 10)) in
      Z.lxor hash (Z.shiftr hash 6)) buf (Z.to_nat len) 786431;
  let hash := u32 (hash + u32 (Z.shiftl hash 3)) in
  let hash := Z.lxor hash (Z.shiftr hash 11) in
  Ok (u32 (hash + u32 (Z.shiftl hash 15))).

(** ** Bit fields as sets of indices *)

Definition bit (field : list Z) (i : Z) : bool :=
  match field !! Z.to_nat (i / 8) with Some b => Z.testbit b (i mod 8) | None => false end.

(** A field with room for [n] bits. *)
Definition has_bits (field : list Z) (n : Z) : Prop := Forall is_byte field ∧ n <= 8 * Z.of_nat (length field).

Lemma index_byte field n i : has_bits field n → 0 <= i < n → ∃ b, field !! Z.to_nat (i / 8) = Some b ∧ is_byte b.
Proof.
  intros [Hb Hn] Hi. assert (0 <= i / 8 < Z.of_nat (length field)) by dlia.
  destruct (lookup_lt_is_Some_2 field (Z.to_nat (i / 8))) as [b E]; [lia|].
  exists b. split; [done|]. by eapply Forall_lookup_1 in E.
Qed.

Lemma bf_bit_pow idx : 0 <= idx → bf_bit idx = 2 ^ (idx mod 8) ∧ 0 <= idx mod 8 < 8.
Proof.
  intros. pose proof (Z.mod_pos_bound idx 8). unfold bf_bit. rewrite Z.shiftl_1_l. lia.
Qed.

Lemma bf_isset_Ok field n i : has_bits field n → 0 <= i < n → bf_isset field i = Ok (bit field i).
Proof.
  intros Hf Hi. destruct (index_byte field n i Hf Hi) as (b & E & _). destruct (bf_bit_pow i) as [Hbit ?]; [lia|].
  unfold bf_isset, bit. rewrite (aget_Some _ _ b), E, Hbit by (done || apply Z.div_pos; lia).
  rewrite result_bind_Ok. by rewrite land_pow2 by lia.
Qed.

(** An update that changes one bit. *)
Lemma bf_update_Ok field n i f (g : bool → bool) :
  has_bits field n → 0 <= i < n →
  (∀ b j, is_byte b → 0 <= j → is_byte (f b) ∧ Z.testbit (f b) j = if decide (j = i mod 8) then g (Z.testbit b j) else Z.testbit b j) →
  ∃ field', bf_update field i f = Ok field' ∧ has_bits field' n ∧
    ∀ j, 0 <= j < n → bit field' j = if decide (j = i) then g (bit field j) else bit field j.
Proof.
  intros Hf Hi Hg. destruct (index_byte field n i Hf Hi) as (b & E & Hb). destruct Hf as [Hbs Hn].
  unfold bf_update. assert (0 <= i / 8) by (apply Z.div_pos; lia). pose proof (lookup_lt_Some _ _ _ E).
  rewrite (aget_Some _ _ b), result_bind_Ok, aset_Ok by (done || lia). eexists. split; [done|]. split.
  - split; [|by rewrite length_insert]. apply Forall_insert; [done|]. by apply (Hg b 0).
  - intros j Hj. unfold bit. destruct (decide (j / 8 = i / 8)) as [Ej|Ej].
    + rewrite Ej, list_lookup_insert_eq, E by lia. rewrite (proj2 (Hg b (j mod 8) Hb ltac:(apply Z.mod_pos_bound; lia))).
      destruct (decide (j = i)) as [->|]; [by rewrite decide_True|]. rewrite decide_False; [done|].
      intros Em. pose proof (Z.div_mod j 8). pose proof (Z.div_mod i 8). lia.
    + rewrite list_lookup_insert_ne; [rewrite decide_False by congruence; done|].
      intros E2. apply Ej. assert (0 <= j / 8) by (apply Z.div_pos; lia). lia.
Qed.

Lemma testbit_byte_op f j : is_byte f → 0 <= j → (Z.testbit f j && (j <? 8)) = Z.testbit f j.
Proof.
  intros Hf Hj. destruct (Z.ltb_spec j 8); [apply andb_true_r|]. by rewrite (byte_testbit f j), andb_false_r.
Qed.

Lemma bf_set_Ok field n i :
  has_bits field n → 0 <= i < n →
  ∃ field', bf_set field i = Ok field' ∧ has_bits field' n ∧ ∀ j, 0 <= j < n → bit field' j = bool_decide (j = i) || bit field j.
Proof.
  intros Hf Hi. destruct (bf_bit_pow i) as [Hbit ?]; [lia|].
  destruct (bf_update_Ok field n i (λ b, u8 (Z.lor b (bf_bit i))) (λ _, true) Hf Hi) as (field' & E & Hf' & Hbits).
  - intros b j Hb Hj. split; [apply Z.mod_pos_bound; lia|]. rewrite testbit_u8, Z.lor_spec, Hbit by done. case_decide as Ej.
    + subst j. rewrite Z.pow2_bits_true, orb_true_r by lia. simpl. lia.
    + rewrite Z.pow2_bits_false, orb_false_r by lia. by apply testbit_byte_op.
  - exists field'. split; [done|]. split; [done|]. intros j Hj. rewrite Hbits by done.
    case_decide; case_bool_decide; done.
Qed.

Lemma bf_unset_Ok field n i :
  has_bits field n → 0 <= i < n →
  ∃ field', bf_unset field i = Ok field' ∧ has_bits field' n ∧ ∀ j, 0 <= j < n → bit field' j = bool_decide (j ≠ i) && bit field j.
Proof.
  intros Hf Hi. destruct (bf_bit_pow i) as [Hbit ?]; [lia|].
  destruct (bf_update_Ok field n i (λ b, u8 (Z.land b (u32 (Z.lnot (bf_bit i))))) (λ _, false) Hf Hi) as (field' & E & Hf' & Hbits).
  - intros b j Hb Hj. split; [apply Z.mod_pos_bound; lia|]. rewrite testbit_u8, Z.land_spec, Hbit by done.
    unfold u32. change 4294967296 with (2 ^ 32). destruct (Z.ltb_spec j 32).
    + rewrite Z.mod_pow2_bits_low, Z.lnot_spec by lia. case_decide as Ej.
      * subst j. rewrite Z.pow2_bits_true by lia. by rewrite andb_false_r.
      * rewrite Z.pow2_bits_false by lia. simpl. rewrite andb_true_r. by apply testbit_byte_op.
    + rewrite !(byte_testbit b j) by (done || lia). by case_decide.
  - exists field'. split; [done|]. split; [done|]. intros j Hj. rewrite Hbits by done.
    case_decide; case_bool_decide; done.
Qed.

Lemma bf_toggle_Ok field n i :
  has_bits field n → 0 <= i < n →
  ∃ field', bf_toggle field i = Ok field' ∧ has_bits field' n ∧ ∀ j, 0 <= j < n → bit field' j = xorb (bool_decide (j = i)) (bit field j).
Proof.
  intros Hf Hi. destruct (bf_bit_pow i) as [Hbit ?]; [lia|].
  destruct (bf_update_Ok field n i (λ b, u8 (Z.lxor b (bf_bit i))) negb Hf Hi) as (field' & E & Hf' & Hbits).
  - intros b j Hb Hj. split; [apply Z.mod_pos_bound; lia|]. rewrite testbit_u8, Z.lxor_spec, Hbit by done. case_decide as Ej.
    + subst j. rewrite Z.pow2_bits_true, xorb_true_r by lia. assert ((i mod 8 <? 8) = true) as -> by lia. apply andb_true_r.
    + rewrite Z.pow2_bits_false, xorb_false_r by lia. by apply testbit_byte_op.
  - exists field'. split; [done|]. split; [done|]. intros j Hj. rewrite Hbits by done.
    case_decide; case_bool_decide; try done.
Qed.

(** *** The first index that is not in use *)

Lemma skip_full_Ok field nbytes n i :
  Forall is_byte field → nbytes <= Z.of_nat (length field) → Z.of_nat n <= nbytes → i = 8 * (nbytes - Z.of_nat n) →
  (∀ j, 0 <= j < i → bit field j = true) →
  ∃ c, skip_full field nbytes n i = Ok (8 * c) ∧ 0 <= 8 * c ∧ (∀ j, 0 <= j < 8 * c → bit field j = true) ∧
    (8 * c = 8 * nbytes ∨ c < nbytes ∧ ∃ b, field !! Z.to_nat c = Some b ∧ is_byte b ∧ b ≠ 255).
Proof.
  intros Hb Hl. revert i. induction n as [|n IH]; intros i Hn -> Hall; cbn [skip_full].
  { exists nbytes. rewrite Z.sub_0_r in *. auto with lia. }
  set (j0 := nbytes - Z.of_nat (S n)) in *.
  destruct (lookup_lt_is_Some_2 field (Z.to_nat j0)) as [b E]; [lia|].
  rewrite (aget_Some _ _ b), result_bind_Ok by (done || lia). assert (is_byte b) by (by eapply Forall_lookup_1 in E).
  destruct (Z.eqb_spec b 255) as [->|Hne].
  - apply IH; [lia|lia|]. intros j Hj. destruct (decide (j < 8 * j0)); [apply Hall; lia|].
    assert (j / 8 = j0 ∧ 0 <= j mod 8 < 8) as [Ej ?] by dlia. unfold bit. rewrite Ej, E.
    change 255 with (2 ^ 8 - 1). rewrite mask_testbit by lia. lia.
  - exists j0. split; [done|]. split; [lia|]. split; [done|]. right. split; [lia|]. by exists b.
Qed.

(** A byte other than 255 has a bit that is not set. *)
Lemma not_full_byte b : is_byte b → b ≠ 255 → ∃ j, 0 <= j < 8 ∧ Z.testbit b j = false.
Proof.
  intros Hb Hne. destruct (forallb (λ j, Z.testbit b j) (seqZ 0 8)) eqn:E.
  - exfalso. apply Hne. apply Z.bits_inj'. intros i Hi. change 255 with (2 ^ 8 - 1). rewrite mask_testbit by lia.
    destruct (Z.ltb_spec i 8).
    + rewrite forallb_forall in E. apply E. apply list_elem_of_In, elem_of_seqZ. lia.
    + by apply byte_testbit.
  - apply not_true_iff_false in E. rewrite forallb_forall in E.
    destruct (decide (Exists (λ j, Z.testbit b j = false) (seqZ 0 8))) as [(j & Hj & H)%Exists_exists|Hn].
    + exists j. by apply elem_of_seqZ in Hj.
    + exfalso. apply E. intros j Hj%list_elem_of_In. rewrite <- Forall_Exists_neg, Forall_forall in Hn.
      specialize (Hn j Hj). by destruct (Z.testbit b j).
Qed.

Definition first_unset (field : list Z) (size : Z) (r : result (Z * list Z)) : Prop :=
  (∃ i field', r = Ok (i, field') ∧ 0 <= i < size ∧ bit field i = false ∧ (∀ j, 0 <= j < i → bit field j = true) ∧
     has_bits field' size ∧ ∀ j, 0 <= j < size → bit field' j = bool_decide (j = i) || bit field j) ∨
  (r = Ok (-1, field) ∧ ∀ j, 0 <= j < size → bit field j = true).

Lemma find_unset_Ok fuel field i size :
  has_bits field size → 0 <= i → (∀ j, 0 <= j < i → bit field j = true) →
  (size <= i ∨ ∃ j, i <= j < i + Z.of_nat fuel - 1 ∧ (size <= j ∨ bit field j = false)) → (0 < fuel)%nat →
  first_unset field size (find_unset fuel field i size).
Proof.
  intros Hf. revert i. induction fuel as [|fuel IH]; intros i Hi Hall Hj Hfuel; [lia|]. cbn [find_unset].
  destruct (Z.ltb_spec i size) as [Hlt|Hge].
  2:{ right. split; [done|]. intros j Hjs. apply Hall. lia. }
  rewrite (bf_isset_Ok field size i), result_bind_Ok by (done || lia). destruct (bit field i) eqn:E; cbn [negb].
  - destruct Hj as [|(j & Hjr & Hj)]; [lia|]. assert (j ≠ i) by (intros ->; destruct Hj; [lia|congruence]).
    apply IH; [lia| |right; exists j; split; [lia|done]|lia].
    intros j' Hj'. destruct (decide (j' = i)) as [->|]; [done|]. apply Hall. lia.
  - destruct (bf_set_Ok field size i Hf ltac:(lia)) as (field' & -> & Hf' & Hbits). rewrite result_bind_Ok.
    left. exists i, field'. split_and!; done || lia.
Qed.

(** [bf_get_unset] sets the first bit that is not set, or returns -1 if all are. *)
Lemma bf_get_unset_Ok field size :
  has_bits field size → 0 <= size → first_unset field size (bf_get_unset field size).
Proof.
  intros Hf Hs. pose proof Hf as [Hb Hl]. unfold bf_get_unset. set (nbytes := (size + 7) / 8).
  assert (size <= 8 * nbytes <= size + 7) by (subst nbytes; dlia).
  destruct (skip_full_Ok field nbytes (Z.to_nat nbytes) 0) as (c & -> & Hc & Hall & Hstop); [done|lia|lia|lia|lia|].
  rewrite result_bind_Ok. apply find_unset_Ok; [done..| |lia].
  destruct Hstop as [E|(Hcn & b & E & Hbb & Hne)]; [left; lia|right].
  destruct (not_full_byte b Hbb Hne) as (j & Hj & Hbit). exists (8 * c + j). split; [lia|]. right.
  unfold bit. assert ((8 * c + j) / 8 = c ∧ (8 * c + j) mod 8 = j) as [-> ->] by dlia. by rewrite E.
Qed.

(** ** The filter *)

Section Filter.
Context (mm kk : Z) (hs : list hashfp_t).
Hypothesis Hm : 0 < mm.
Hypothesis Hk : 0 <= kk <= Z.of_nat (length hs).

Definition index_of (h : hashfp_t) (e : list Z * Z) : Z := u32 (h e.1 e.2) mod mm.

(** The functions in use, and the indices of an element. *)
Definition functions : list hashfp_t := take (Z.to_nat kk) hs.
Definition indices (e : list Z * Z) : list Z := (λ h, index_of h e) <$> functions.

Lemma index_bound h e : 0 <= index_of h e < mm.
Proof. apply Z.mod_pos_bound. lia. Qed.

Lemma bloom_index_Ok bl h e : m bl = mm → bloom_index bl h e.1 e.2 = Ok (index_of h e).
Proof. intros Hb. unfold bloom_index, index_of. rewrite Hb. by assert ((mm =? 0) = false) as -> by lia. Qed.

Lemma add_hashes_Ok bl count hs' field e :
  m bl = mm → (count <= length hs')%nat → has_bits field mm →
  ∃ field', add_hashes count bl hs' field e.1 e.2 = Ok field' ∧ has_bits field' mm ∧
    ∀ j, 0 <= j < mm → bit field' j = bool_decide (j ∈ (λ h, index_of h e) <$> take count hs') || bit field j.
Proof.
  intros Hb. revert hs' field. induction count as [|count IH]; intros hs' field Hc Hf; cbn [add_hashes].
  { exists field. split; [done|]. split; [done|]. intros j Hj. by rewrite take_0. }
  destruct hs' as [|h hs']; [simpl in Hc; lia|]. rewrite bloom_index_Ok, result_bind_Ok by done.
  destruct (bf_set_Ok field mm (index_of h e) Hf (index_bound h e)) as (f1 & -> & Hf1 & Hb1). rewrite result_bind_Ok.
  destruct (IH hs' f1 ltac:(simpl in Hc; lia) Hf1) as (f2 & -> & Hf2 & Hb2). exists f2. split; [done|]. split; [done|].
  intros j Hj. rewrite Hb2, Hb1 by done. cbn [take fmap list_fmap].
  rewrite (orb_assoc (bool_decide (j ∈ _))). f_equal. rewrite orb_comm.
  apply Bool.eq_iff_eq_true. rewrite orb_true_iff, !bool_decide_eq_true. rewrite elem_of_cons. done.
Qed.

Lemma check_hashes_Ok bl count hs' field e :
  m bl = mm → (count <= length hs')%nat → has_bits field mm →
  check_hashes count bl hs' field e.1 e.2 = Ok (forallb (bit field) ((λ h, index_of h e) <$> take count hs')).
Proof.
  intros Hb. revert hs'. induction count as [|count IH]; intros hs' Hc Hf; cbn [check_hashes]; [by rewrite take_0|].
  destruct hs' as [|h hs']; [simpl in Hc; lia|]. rewrite bloom_index_Ok, result_bind_Ok by done.
  rewrite (bf_isset_Ok field mm _ Hf (index_bound h e)), result_bind_Ok. cbn [take fmap list_fmap forallb].
  destruct (bit field (index_of h e)); cbn [negb andb]; [|done]. apply IH; [simpl in Hc; lia|done].
Qed.

(** A filter that holds the elements [es]. *)
Record holds (bl : bloom_t) (es : list (list Z * Z)) : Prop := {
  holds_m : m bl = mm;
  holds_k : k bl = kk;
  holds_hash : hash bl = Some hs;
  holds_a : ∃ field, a bl = Some field ∧ has_bits field mm ∧
    ∀ j, 0 <= j < mm → bit field j = bool_decide (j ∈ es ≫= indices)
}.

Lemma bloom_add_Ok bl es e : holds bl es → ∃ bl', bloom_add bl e.1 e.2 = Ok bl' ∧ holds bl' (e :: es).
Proof.
  intros [Hb Hbk Hh (field & Ha & Hf & Hbits)]. unfold bloom_add. rewrite Ha, Hh, Hbk.
  destruct (add_hashes_Ok bl (Z.to_nat kk) hs field e Hb ltac:(lia) Hf) as (f' & -> & Hf' & Hb'). rewrite result_bind_Ok.
  eexists. split; [done|]. split; simpl; try done. exists f'. split; [done|]. split; [done|].
  intros j Hj. rewrite Hb', Hbits by done. apply Bool.eq_iff_eq_true.
  rewrite orb_true_iff, !bool_decide_eq_true, elem_of_app. done.
Qed.

Lemma bloom_check_Ok bl es e :
  holds bl es → bloom_check bl e.1 e.2 = Ok (bool_decide (Forall (λ i, i ∈ es ≫= indices) (indices e))).
Proof.
  intros [Hb Hbk Hh (field & Ha & Hf & Hbits)]. unfold bloom_check. rewrite Ha, Hh, Hbk.
  rewrite check_hashes_Ok by (done || lia). f_equal. fold functions. fold (indices e). apply Bool.eq_iff_eq_true.
  rewrite forallb_forall, bool_decide_eq_true, Forall_forall. split.
  - intros H i Hi. pose proof Hi as (h & -> & _)%list_elem_of_fmap. specialize (H _ (proj1 (list_elem_of_In _ _) Hi)).
    rewrite Hbits in H by apply index_bound. by apply bool_decide_eq_true in H.
  - intros H i Hi%list_elem_of_In. specialize (H i Hi). pose proof Hi as (h & -> & _)%list_elem_of_fmap.
    rewrite Hbits by apply index_bound. by apply bool_decide_eq_true.
Qed.

Lemma bit_zeros n j : bit (replicate n 0) j = false.
Proof.
  unfold bit. destruct (replicate n 0 !! Z.to_nat (j / 8)) as [b|] eqn:E; [|done].
  apply lookup_replicate in E as [-> _]. apply Z.bits_0.
Qed.

Lemma bloom_init_Ok n : mm <= 8 * Z.of_nat n → holds (bloom_init mm (replicate n 0) hs kk) [].
Proof.
  intros Hn. split; try done. exists (replicate n 0). split; [done|].
  split; [split; [by apply Forall_replicate|by rewrite length_replicate]|].
  intros j Hj. rewrite bit_zeros. done.
Qed.

(** Deleting a filter leaves a field without set bits. *)
Lemma bloom_del_Ok bl es :
  holds bl es → ∃ f, bloom_del bl = Ok (Bloom 0 0 None None, Some f) ∧ ∀ j, 0 <= j < mm → bit f j = false.
Proof.
  intros [Hb _ _ (field & Ha & [_ Hn] & _)]. unfold bloom_del. rewrite Ha, Hb.
  set (n := (mm + 8 - 1) / 8). assert (mm <= 8 * n <= mm + 7) by (subst n; dlia).
  rewrite memcpy_Ok by (rewrite ?length_replicate; lia). cbn [mbind result_bind]. eexists. split; [done|].
  intros j Hj. change (Z.to_nat 0) with 0%nat. rewrite take_0, drop_0. cbn [app].
  assert (0 <= j / 8 < n) by dlia. rewrite firstn_all2 by (rewrite length_replicate; lia). unfold bit.
  rewrite lookup_app_l by (rewrite length_replicate; lia). rewrite lookup_replicate_2 by lia. apply Z.bits_0.
Qed.

Fixpoint add_all (bl : bloom_t) (es : list (list Z * Z)) : result bloom_t :=
  match es with [] => Ok bl | e :: es => bl ← bloom_add bl e.1 e.2; add_all bl es end.

Lemma add_all_Ok bl es acc : holds bl acc → ∃ bl', add_all bl es = Ok bl' ∧ holds bl' (reverse es ++ acc).
Proof.
  revert bl acc. induction es as [|e es IH]; intros bl acc Hh; cbn [add_all]; [by exists bl|].
  destruct (bloom_add_Ok bl acc e Hh) as (b1 & -> & H1). rewrite result_bind_Ok.
  destruct (IH b1 (e :: acc) H1) as (b2 & -> & H2). exists b2. split; [done|].
  by rewrite reverse_cons, <- app_assoc.
Qed.

Lemma holds_reverse bl es : holds bl (reverse es) → holds bl es.
Proof.
  intros [? ? ? (f & ? & ? & Hbits)]. split; try done. exists f. split; [done|]. split; [done|].
  intros j Hj. rewrite Hbits by done. apply bool_decide_ext. rewrite !list_elem_of_bind. set_solver.
Qed.
End Filter.

(** ** Hash functions *)

Lemma hash_loop_app f buf rest hash : hash_loop f (buf ++ rest) (length buf) hash = Ok (foldl f hash buf).
Proof. revert hash. induction buf as [|b buf IH]; intros v; [by destruct rest|]. cbn. apply IH. Qed.

(** Polynomials with coefficients that are bytes, modulo the word size. *)
Definition polynomial (base start : Z) (buf : list Z) : Z := foldl (λ v b, v * base + b) start buf.

Lemma foldl_mod (f : Z → Z → Z) (base start : Z) buf :
  (∀ h b, f (u32 h) b = u32 (h * base + b)) → foldl f (u32 start) buf = u32 (polynomial base start buf).
Proof.
  intros Hf. unfold polynomial. revert start. induction buf as [|b buf IH]; intros start; [done|].
  cbn [foldl]. by rewrite Hf, IH.
Qed.

Lemma u32_cong x y : x mod 4294967296 = y mod 4294967296 → u32 x = u32 y.
Proof. done. Qed.

(** Three of the functions are polynomials in 33, 65599 and 1. *)
Lemma hashes_are_polynomials buf rest :
  let n := Z.of_nat (length buf) in
  djb2_hash (buf ++ rest) n = Ok (u32 (polynomial 33 5381 buf)) ∧
  sdbm_hash (buf ++ rest) n = Ok (u32 (polynomial 65599 0 buf)) ∧
  kr_hash (buf ++ rest) n = Ok (u32 (foldl Z.add 0 buf)).
Proof.
  intros n. unfold djb2_hash, sdbm_hash, kr_hash. subst n. rewrite Nat2Z.id, !hash_loop_app. split_and!; f_equal.
  - apply (foldl_mod _ 33 5381). intros h b. unfold u32.
    by rewrite <- Zplus_mod_idemp_l, Zmult_mod_idemp_l, Zplus_mod_idemp_l.
  - apply (foldl_mod _ 65599 0). intros h b. rewrite !Z.shiftl_mul_pow2 by lia. apply u32_cong. unfold u32.
    change (2 ^ 6) with 64. change (2 ^ 16) with 65536. dlia.
  - change 0 with (u32 0) at 1. generalize 0 as v. induction buf as [|b buf IH]; intros v; [done|]. cbn [foldl].
    rewrite <- IH. f_equal. unfold u32. by rewrite Zplus_mod_idemp_l.
Qed.

(** The constant that [fnv_hash] multiplies by is the offset basis of the FNV
    functions, not their prime, and the offset basis it begins with is 0: leading
    zeros do not change the hash. *)
Lemma fnv_ignores_leading_zeros n buf rest :
  fnv_hash (replicate n 0 ++ buf ++ rest) (Z.of_nat (n + length buf)) = fnv_hash (buf ++ rest) (Z.of_nat (length buf)).
Proof.
  unfold fnv_hash. rewrite !Nat2Z.id. induction n as [|n IH]; [done|]. exact IH.
Qed.

(** ** Theorem *)

(** C22: A Bloom filter over any hash functions, on a cleared field with room for
    its bits: adding elements does not fault, whatever they are, and afterwards
    the check of an element is true exactly if each of its indices is an index
    of an added element. So it is never false for an element that was added.
    Deleting the filter clears its bits. *)
Theorem bloom_filter_correct mm kk hs n es e :
  0 < mm <= 8 * Z.of_nat n → 0 <= kk <= Z.of_nat (length hs) →
  ∃ bl, add_all (bloom_init mm (replicate n 0) hs kk) es = Ok bl ∧
    bloom_check bl e.1 e.2 = Ok (bool_decide (Forall (λ i, i ∈ es ≫= indices mm kk hs) (indices mm kk hs e))) ∧
    (e ∈ es → bloom_check bl e.1 e.2 = Ok true) ∧
    ∃ f, bloom_del bl = Ok (Bloom 0 0 None None, Some f) ∧ ∀ j, 0 <= j < mm → bit f j = false.
Proof.
  intros [Hm Hn] Hk. destruct (add_all_Ok mm kk hs Hm Hk _ es [] (bloom_init_Ok mm kk hs n Hn)) as (bl & E & Hh).
  rewrite app_nil_r in Hh. apply holds_reverse in Hh; [|done..]. pose proof (bloom_check_Ok mm kk hs Hm Hk bl es e Hh) as Hc.
  exists bl. split; [done|]. split; [done|]. split; [|by apply (bloom_del_Ok mm kk hs Hm bl es)].
  intros He. rewrite Hc. f_equal. apply bool_decide_eq_true, Forall_forall. intros i Hi.
  apply list_elem_of_bind. by exists e.
Qed.

(** A filter of 16 bits with two of the hash functions. *)
Definition demo_hashes : list hashfp_t :=
  [(λ b n, match djb2_hash b n with Ok h => h | _ => 0 end); (λ b n, match kr_hash b n with Ok h => h | _ => 0 end)].

Lemma bloom_filter_correct_witness :
  ∃ bl, add_all (bloom_init 16 (replicate 2 0) demo_hashes 2) [([1; 2], 2); ([9], 1)] = Ok bl ∧
    bloom_check bl [9] 1 = Ok true ∧ bloom_check bl [4] 1 = Ok false.
Proof.
  destruct (bloom_filter_correct 16 2 demo_hashes 2 [([1; 2], 2); ([9], 1)] ([9], 1)) as (bl & E & _ & H & _); [lia|simpl; lia|].
  destruct (bloom_filter_correct 16 2 demo_hashes 2 [([1; 2], 2); ([9], 1)] ([4], 1)) as (bl' & E' & H' & _); [lia|simpl; lia|].
  exists bl. split; [exact E|]. split; [apply H; right; left|].
  assert (bl' = bl) as <- by congruence. exact H'.
Defined.
