(* ===== verification/Pipe.v ===== *)
(** * sys/pipe: pipes between threads and interrupt handlers

    A pipe is a ring buffer with at most one sleeping reader and one sleeping
    writer. The pipe and its ring buffer are state of their own beside the
    kernel's. A call that finds the buffer empty (or full) puts its thread to
    sleep and goes on with its loop when the thread runs again: one pass of the
    loop is a definition, which a call and every resumption execute. *)

From stdpp Require Import gmap.
From S2P Require Import Prelude Refinement LinkedList Cib Bitarithm Ringbuffer Kernel KernelInv Thread Mutex System.
Open Scope Z_scope.
Implicit Types (Q : node → list Z) (st : kstate) (T : thread_t).

(** ** The state *)

Record pipe_t : Type := Pipe {
  rb : ringbuffer_t;
  read_blocked : option Z;
  write_blocked : option Z;
  free : option Z
}.

(** The two fields that a call is given pointers to. *)
Inductive side : Type := READ_BLOCKED | WRITE_BLOCKED.

Global Instance side_eq_dec : EqDecision side.
Proof. solve_decision. Defined.

Definition other (sd : side) : side :=
  match sd with READ_BLOCKED => WRITE_BLOCKED | WRITE_BLOCKED => READ_BLOCKED end.

Definition blocked_at (sd : side) (p : pipe_t) : option Z :=
  match sd with READ_BLOCKED => read_blocked p | WRITE_BLOCKED => write_blocked p end.
Definition set_blocked (sd : side) (v : option Z) (p : pipe_t) : pipe_t :=
  match sd with
  | READ_BLOCKED => Pipe (rb p) v (write_blocked p) (free p)
  | WRITE_BLOCKED => Pipe (rb p) (read_blocked p) v (free p)
  end.
Definition set_rb (v : ringbuffer_t) (p : pipe_t) : pipe_t := Pipe v (read_blocked p) (write_blocked p) (free p).

Record pworld : Type := Pworld { kernel : kstate; pipe : pipe_t }.

Definition PM (A : Type) : Type := pworld → result (A * pworld).

Global Instance PM_ret : MRet PM := fun A a w => Ok (a, w).
Global Instance PM_bind : MBind PM := fun A B f m w =>
  match m w with Ok (a, w) => f a w | Fault e => Fault e end.

Definition in_kernel {A} (c : M A) : PM A := λ w,
  match c (kernel w) with Ok (a, k) => Ok (a, Pworld k (pipe w)) | Fault e => Fault e end.
Definition pget {A} (f : pipe_t → A) : PM A := λ w, Ok (f (pipe w), w).
Definition pset (f : pipe_t → pipe_t) : PM unit := λ w, Ok (tt, Pworld (kernel w) (f (pipe w))).

(** ** pipe.c *)

(** The functions on ring buffers that a pipe calls: they return the count, the
    caller's array and the buffer. *)
Definition ringbuffer_op_t : Type := ringbuffer_t → list Z → Z → result (Z * list Z * ringbuffer_t).
Definition op_get : ringbuffer_op_t := ringbuffer_get.
Definition op_add : ringbuffer_op_t := λ r buf n, '(count, r) ← ringbuffer_add r buf n; Ok (count, buf, r).

Definition on_ring (op : ringbuffer_op_t) (buf : list Z) (n : Z) : PM (Z * list Z) := λ w,
  match op (rb (pipe w)) buf n with
  | Ok (count, buf, r) => Ok ((count, buf), Pworld (kernel w) (set_rb r (pipe w)))
  | Fault e => Fault e
  end.

(** The waiting thread of the other side becomes ready; its priority, or -1. *)
Definition wake_other (other_op_blocked : side) : PM Z :=
  o ← pget (blocked_at other_op_blocked);
  match o with
  | Some other_thread =>
      _ ← pset (set_blocked other_op_blocked None);
      T ← in_kernel (get_thread other_thread);
      _ ← in_kernel (sched_set_status other_thread STATUS_PENDING);
      mret (priority T)
  | None => mret (-1)
  end.

(** One pass of the loop. The caller's array is returned with the count. *)
Definition pipe_rw_loop (buf : list Z) (n : Z) (other_op_blocked this_op_blocked : side)
    (ringbuffer_op : ringbuffer_op_t) : PM (outcome (Z * list Z)) :=
  old_state ← in_kernel irq_disable;
  r ← on_ring ringbuffer_op buf n;
  if 0 <? r.1 then
    other_prio ← wake_other other_op_blocked;
    _ ← in_kernel (irq_restore old_state);
    _ ← in_kernel (when (0 <=? other_prio) (sched_switch other_prio));
    mret (Return r)
  else
    this ← pget (blocked_at this_op_blocked);
    isr ← in_kernel irq_is_in;
    if (bool_decide (is_Some this) || isr)%bool then
      _ ← in_kernel (irq_restore old_state);
      mret (Return (0, r.2))
    else
      a ← in_kernel (gets sched_active_thread);
      _ ← pset (set_blocked this_op_blocked a);
      me ← in_kernel (nonnull a);
      _ ← in_kernel (sched_set_status me STATUS_SLEEPING);
      _ ← in_kernel (irq_restore old_state);
      _ ← in_kernel thread_yield_higher;
      mret Wait.

Definition pipe_rw (buf : list Z) (n : Z) (other_op_blocked this_op_blocked : side)
    (ringbuffer_op : ringbuffer_op_t) : PM (outcome (Z * list Z)) :=
  if n =? 0 then mret (Return (0, buf)) else pipe_rw_loop buf n other_op_blocked this_op_blocked ringbuffer_op.

Definition pipe_read (buf : list Z) (n : Z) : PM (outcome (Z * list Z)) :=
  pipe_rw buf n WRITE_BLOCKED READ_BLOCKED op_get.
Definition pipe_write (buf : list Z) (n : Z) : PM (outcome (Z * list Z)) :=
  pipe_rw buf n READ_BLOCKED WRITE_BLOCKED op_add.

Definition pipe_init (r : ringbuffer_t) (free : option Z) : pipe_t := Pipe r None None free.

(** ** pipe_dynamic.c *)

Section Dynamic.
(** The allocator: the bytes of the new block; the size of [struct mallocd_pipe]
    and the offset of its member [buffer]; the address of [free]. *)
Variables (malloc : Z → option (list Z)) (sizeof_m offset_buffer FREE : Z).

Definition pipe_malloc (size : Z) : option pipe_t :=
  match malloc (u32 (sizeof_m + size)) with
  | Some m =>
      let buffer := take (Z.to_nat size) (drop (Z.to_nat offset_buffer) m) in
      Some (pipe_init (ringbuffer_init buffer size) (Some FREE))
  | None => None
  end.

(** The function that is called, if one is. *)
Definition pipe_free (rp : option pipe_t) : option Z :=
  match rp with Some rp => free rp | None => None end.
End Dynamic.

(** ** Calls and histories *)

Inductive pipe_op : Type := Read (n : Z) | Write (data : list Z).

Definition op_side (o : pipe_op) : side := match o with Read _ => READ_BLOCKED | Write _ => WRITE_BLOCKED end.
Definition op_size (o : pipe_op) : Z := match o with Read n => n | Write data => Z.of_nat (length data) end.
Definition op_array (o : pipe_op) : list Z := match o with Read n => replicate (Z.to_nat n) 0 | Write data => data end.
Definition op_fun (o : pipe_op) : ringbuffer_op_t := match o with Read _ => op_get | Write _ => op_add end.

(** A call, and its thread going on behind [thread_yield_higher]. *)
Definition op_call (o : pipe_op) : PM (outcome (Z * list Z)) :=
  match o with
  | Read _ => pipe_read (op_array o) (op_size o)
  | Write _ => pipe_write (op_array o) (op_size o)
  end.
Definition op_resume (o : pipe_op) : PM (outcome (Z * list Z)) :=
  pipe_rw_loop (op_array o) (op_size o) (other (op_side o)) (op_side o) (op_fun o).

(** The same from an interrupt handler. *)
Definition op_handler (o : pipe_op) : PM (outcome (Z * list Z)) :=
  _ ← in_kernel irq_enter;
  r ← op_call o;
  _ ← in_kernel irq_exit;
  mret r.

Lemma op_call_loop o w :
  op_call o w = if op_size o =? 0 then Ok (Return (0, op_array o), w) else op_resume o w.
Proof. destruct o; unfold op_call, pipe_read, pipe_write, pipe_rw; simpl; by case_match. Qed.

(** The pipe, the unfinished calls by thread, and the bytes that finished calls
    have written and read. *)
Record psys : Type := Psys {
  world : pworld;
  pending : gmap Z pipe_op;
  sent : list Z;
  got : list Z
}.

Definition finish (o : pipe_op) (r : Z * list Z) (w : pworld) (calls : gmap Z pipe_op) (s : psys) : psys :=
  let bytes := take (Z.to_nat r.1) r.2 in
  match o with
  | Read _ => Psys w calls (sent s) (got s ++ bytes)
  | Write _ => Psys w calls (sent s ++ bytes) (got s)
  end.

(** The end of a pass of [t]'s call. *)
Definition pass_done (t : Z) (o : pipe_op) (r : outcome (Z * list Z)) (w : pworld) (s : psys) : psys :=
  match r with
  | Return r => finish o r w (delete t (pending s)) s
  | Wait => Psys w (<[t := o]> (pending s)) (sent s) (got s)
  end.

(** A thread that sleeps still sleeps, and one that is ready is still ready. *)
Definition keeps st st' (t : Z) : Prop :=
  ∀ T, thr st t T → ∃ T', thr st' t T' ∧ (status T = STATUS_SLEEPING → status T' = STATUS_SLEEPING) ∧
    (STATUS_ON_RUNQUEUE <= status T → STATUS_ON_RUNQUEUE <= status T').

Section Steps.
Variable idle : Z.

Definition active (s : psys) : option Z := sched_active_thread (kernel (world s)).

(** The idle thread does not use the pipe. Everything else that goes on in the
    system leaves the pipe alone and neither wakes nor stops a thread with an
    unfinished call. *)
Inductive pipe_step (s : psys) : psys → Prop :=
  | step_call t o r w' :
      active s = Some t → t ≠ idle → pending s !! t = None → 0 <= op_size o →
      op_call o (world s) = Ok (r, w') → pipe_step s (pass_done t o r w' s)
  | step_resume t o r w' :
      active s = Some t → pending s !! t = Some o →
      op_resume o (world s) = Ok (r, w') → pipe_step s (pass_done t o r w' s)
  | step_handler o r w' :
      0 <= op_size o → op_handler o (world s) = Ok (Return r, w') →
      pipe_step s (finish o r w' (pending s) s)
  | step_kernel Q st' :
      sys_inv idle Q st' → in_isr st' = false →
      (∀ t, is_Some (pending s !! t) → keeps (kernel (world s)) st' t) →
      pipe_step s (Psys (Pworld st' (pipe (world s))) (pending s) (sent s) (got s)).

(** ** The invariant *)

(** With the bytes [l] in a buffer of [cap] bytes a call on side [sd] moves nothing. *)
Definition stuck (cap : Z) (sd : side) (l : list Z) : Prop :=
  match sd with READ_BLOCKED => l = [] | WRITE_BLOCKED => Z.of_nat (length l) = cap end.

Definition sleeping st (t : Z) : Prop := ∃ T, thr st t T ∧ status T = STATUS_SLEEPING.

Record pipe_inv (cap : Z) Q (l : list Z) (s : psys) : Prop := PipeInv {
  pi_sys : sys_inv idle Q (kernel (world s));
  pi_ring : ring_seq cap (rb (pipe (world s))) l;
  pi_fifo : sent s = got s ++ l;
  pi_blocked : ∀ sd t, blocked_at sd (pipe (world s)) = Some t →
    stuck cap sd l ∧ sleeping (kernel (world s)) t ∧ ∃ o, pending s !! t = Some o ∧ op_side o = sd;
  pi_pending : ∀ t o, pending s !! t = Some o →
    t ≠ idle ∧ 0 < op_size o ∧
    ((∃ T, ready (kernel (world s)) t T) ∨ blocked_at (op_side o) (pipe (world s)) = Some t)
}.
End Steps.

(** ** The buffer *)

(** The bytes that a call moves, and what it leaves in the buffer. *)
Definition moved (cap : Z) (l : list Z) (o : pipe_op) : list Z :=
  match o with
  | Read n => take (Z.to_nat n) l
  | Write data => take (Z.to_nat (cap - Z.of_nat (length l))) data
  end.
Definition left_over (cap : Z) (l : list Z) (o : pipe_op) : list Z :=
  match o with Read n => drop (Z.to_nat n) l | Write _ => l ++ moved cap l o end.

Lemma op_fun_Ok cap r l o :
  ring_seq cap r l → 0 <= op_size o →
  ∃ out r', op_fun o r (op_array o) (op_size o) = Ok (Z.of_nat (length (moved cap l o)), out, r') ∧
    take (length (moved cap l o)) out = moved cap l o ∧ ring_seq cap r' (left_over cap l o).
Proof.
  intros [Hrep Hc] Hn. pose proof Hrep as ((Hs & _ & _ & Ha) & Hav & _). destruct o as [n|data]; simpl in *.
  - destruct (ringbuffer_get_rep r l (replicate (Z.to_nat n) 0) n) as (r' & E & Hr' & Hs');
      [done..|rewrite length_replicate; lia|].
    set (k := Z.min n (Z.of_nat (length l))) in *.
    assert (take (Z.to_nat k) l = take (Z.to_nat n) l) as Ek.
    { destruct (Z.le_gt_cases n (Z.of_nat (length l))); [f_equal; lia|]. rewrite !take_ge by lia. done. }
    assert (drop (Z.to_nat k) l = drop (Z.to_nat n) l) as Ed.
    { destruct (Z.le_gt_cases n (Z.of_nat (length l))); [f_equal; lia|]. rewrite !drop_ge by lia. done. }
    assert (Z.of_nat (length (take (Z.to_nat n) l)) = k) as El by (rewrite length_take; lia).
    exists (take (Z.to_nat n) l ++ drop (Z.to_nat k) (replicate (Z.to_nat n) 0)), r'. unfold op_get.
    rewrite E, Ek, El. split; [done|]. split; [by rewrite take_app_length|].
    split; [by rewrite <- Ed|congruence].
  - unfold op_add, ringbuffer_add.
    destruct (ringbuffer_add_loop_rep (S (Z.to_nat (Z.of_nat (length data)))) r l data 0) as (r' & E & Hr' & Hs');
      [done|lia|lia|]. rewrite E. simpl.
    assert (take (Z.to_nat (Z.min (Z.of_nat (length data) - 0) (size r - Z.of_nat (length l)))) (drop (Z.to_nat 0) data) =
      take (Z.to_nat (cap - Z.of_nat (length l))) data) as Ek.
    { rewrite drop_0. destruct (Z.le_gt_cases (Z.of_nat (length data)) (cap - Z.of_nat (length l))).
      - rewrite !take_ge by lia. done.
      - f_equal. lia. }
    replace (0 + _) with (Z.of_nat (length (take (Z.to_nat (cap - Z.of_nat (length l))) data)))
      by (rewrite length_take; lia).
    exists data, r'. split; [done|]. split; [|split; [by rewrite <- Ek|congruence]].
    rewrite length_take, <- take_take, (take_ge data) by done. done.
Qed.

(** A call moves nothing just when the buffer is empty, or full. *)
Lemma moved_stuck cap r l o :
  ring_seq cap r l → 0 < op_size o → 0 < Z.of_nat (length (moved cap l o)) ∧ ¬ stuck cap (op_side o) l ∨
    moved cap l o = [] ∧ stuck cap (op_side o) l ∧ left_over cap l o = l.
Proof.
  intros [Hrep Hc] Hn. pose proof Hrep as ((Hs & _ & _ & Ha) & Hav & _). destruct o as [n|data]; simpl in *.
  - destruct l as [|x l]; [right; by rewrite take_nil, drop_nil|left].
    split; [|done]. rewrite length_take. simpl. lia.
  - destruct (decide (Z.of_nat (length l) = cap)) as [E|E].
    + right. replace (Z.to_nat _) with 0%nat by lia. by rewrite take_0, app_nil_r.
    + left. split; [|done]. rewrite length_take. lia.
Qed.

(** What a pass returns: the bytes it has moved. It moves none, of a request for
    some, only if a handler calls or another thread waits at the same side; a pass
    that waits has moved none. *)
Definition pass_result (cap : Z) (l : list Z) (o : pipe_op) (isr : bool) (p : pipe_t) (r : outcome (Z * list Z)) : Prop :=
  match r with
  | Return r =>
      take (Z.to_nat r.1) r.2 = moved cap l o ∧ r.1 = Z.of_nat (length (moved cap l o)) ∧
      (moved cap l o = [] → op_size o = 0 ∨ isr = true ∨ is_Some (blocked_at (op_side o) p))
  | Wait => stuck cap (op_side o) l ∧ isr = false ∧ blocked_at (op_side o) p = None
  end.

Lemma moved_nothing cap r l o : ring_seq cap r l → op_size o = 0 → moved cap l o = [].
Proof. destruct o as [n|[]]; simpl; [by intros _ ->|intros; apply take_nil|done]. Qed.

(** The bytes a read takes were at the front. *)
Lemma moved_fifo cap l o : match o with Read _ => l = moved cap l o ++ left_over cap l o
  | Write _ => left_over cap l o = l ++ moved cap l o end.
Proof. destruct o; simpl; [by rewrite take_drop|done]. Qed.

(** ** Threads across a call *)

Lemma keeps_env st st' t : tcbs st' = tcbs st → sched_threads st' = sched_threads st → keeps st st' t.
Proof. intros E1 E2 T [HT Hp]. exists T. unfold thr. by rewrite E1, E2. Qed.

Lemma keeps_both st1 st2 st3 t : keeps st1 st2 t → keeps st2 st3 t → keeps st1 st3 t.
Proof.
  intros H1 H2 T HT. destruct (H1 T HT) as (T' & HT' & ? & ?), (H2 T' HT') as (T'' & HT'' & ? & ?).
  exists T''. auto.
Qed.

Lemma keeps_yielded st st' t : yielded st st' → keeps st st' t.
Proof.
  intros Hy T [HT Hp]. destruct (yielded_tcb _ _ _ _ Hy HT) as (s & Hs & Hlow & Hhigh).
  destruct (yielded_env _ _ Hy) as (_ & _ & _ & _ & _ & _ & Hth).
  exists (set_status s T). split; [split; [done|by rewrite Hth]|]. cbn [status set_status].
  split; [|done]. intros E. rewrite Hlow; [done|]. by rewrite E.
Qed.

(** One thread's status changes. *)
Lemma keeps_other st st' u U s t :
  thr st u U → tcbs st' = <[u := set_status s U]> (tcbs st) → sched_threads st' = sched_threads st → t ≠ u →
  keeps st st' t.
Proof.
  intros HU Etc Eth Hne T HT. exists T. split; [|done].
  apply (thr_update st st' u U (set_status s U)); [done..|]. by right.
Qed.

Lemma sleeping_keeps st st' t : sleeping st t → keeps st st' t → sleeping st' t.
Proof. intros (T & HT & Hs) Hk. destruct (Hk T HT) as (T' & HT' & Hs' & _). exists T'. auto. Qed.

Lemma ready_keeps st st' t T : ready st t T → keeps st st' t → ∃ T', ready st' t T'.
Proof. intros [HT Hs] Hk. destruct (Hk T HT) as (T' & HT' & _ & Hs'). exists T'. split; auto. Qed.

(** A sleeping thread is woken by the running one. *)
Lemma pass_wakes Q st t T u U :
  running Q st t T → thr st u U → status U = STATUS_SLEEPING →
  ∃ st1 st2, sched_set_status u STATUS_PENDING (set_irq_enabled false st) = Ok (tt, st1) ∧
    sched_switch (priority U) (set_irq_enabled (irq_enabled st) st1) = Ok (tt, st2) ∧
    settled (rq_push Q (priority U) u) st2 ∧ in_isr st2 = in_isr st ∧ (∃ U', ready st2 u U') ∧
    ∀ v, v ≠ u → keeps st st2 v.
Proof.
  intros Hr HU Hs. pose proof (run_kinv _ _ _ _ Hr) as Hk.
  assert (status U < STATUS_ON_RUNQUEUE) as Hb by (rewrite Hs; done).
  assert (∀ q, u ∉ Q q) as Hn by (eapply unlisted; [done..|]; rewrite Hs; right; by left).
  set (st0 := set_irq_enabled false st). assert (kinv Q st0) as Hk0 by kenv Hk.
  destruct (sched_set_status_wake Q st0 u U STATUS_PENDING) as (h & b & E & Hk1 & _); [done..|].
  set (st1 := upd3 st0 h b (<[u := set_status STATUS_PENDING U]> (tcbs st))).
  destruct (wake_switch Q (rq_push Q (priority U) u) st t T u U STATUS_PENDING (set_irq_enabled (irq_enabled st) st1))
    as (st2 & E2 & Hset & Hy); try done.
  { by eapply running_ne. } { kenv Hk1. } { apply rq_push_head. apply Hr. }
  pose proof (yielded_env _ _ Hy) as (_ & _ & _ & _ & _ & Hi & _).
  exists st1, st2. split; [exact E|]. split; [exact E2|]. split; [done|]. split; [by rewrite Hi|]. split.
  - eapply (ready_keeps (set_irq_enabled (irq_enabled st) st1) st2 u (set_status STATUS_PENDING U));
      [|by apply keeps_yielded]. split; [|done]. split; [apply lookup_insert_eq|apply HU].
  - intros v Hv. eapply keeps_both; [|by apply keeps_yielded]. by eapply keeps_other.
Qed.

(** The running thread goes to sleep. *)
Lemma pass_sleeps Q st t T :
  running Q st t T → in_isr st = false → other_ready st t →
  ∃ st1 st2, sched_set_status t STATUS_SLEEPING (set_irq_enabled false st) = Ok (tt, st1) ∧
    thread_yield_higher (set_irq_enabled (irq_enabled st) st1) = Ok (tt, st2) ∧
    settled (rq_pop Q (priority T)) st2 ∧ in_isr st2 = false ∧ sleeping st2 t ∧ ∀ v, v ≠ t → keeps st st2 v.
Proof.
  intros Hr Hisr Ho. set (st0 := set_irq_enabled false st).
  pose proof Hr as [Hk Ha [HT HTs] Hhd _]. assert (kinv Q st0) as Hk0 by kenv Hk.
  destruct (sched_set_status_block Q st0 t T STATUS_SLEEPING) as (h & b & E & Hk1 & _); [done..|].
  set (st1 := upd3 st0 h b (<[t := set_status STATUS_SLEEPING T]> (tcbs st))).
  destruct (yield_thread (rq_pop Q (priority T)) (set_irq_enabled (irq_enabled st) st1)) as (st2 & E2 & Hset & Hy).
  { kenv Hk1. } { done. } { by eapply (other_ready_upd st). }
  pose proof (yielded_env _ _ Hy) as (_ & _ & _ & _ & _ & Hi & _).
  exists st1, st2. split; [exact E|]. split; [exact E2|]. split; [done|]. split; [by rewrite Hi|]. split.
  - eapply (sleeping_keeps (set_irq_enabled (irq_enabled st) st1)); [|by apply keeps_yielded].
    exists (set_status STATUS_SLEEPING T). split; [|done]. split; [apply lookup_insert_eq|apply HT].
  - intros v Hv. eapply keeps_both; [|by apply keeps_yielded]. by eapply keeps_other.
Qed.

(** ** One pass of the loop *)

Lemma pm_bind_Ok {A B} (m : PM A) (f : A → PM B) w a w' : m w = Ok (a, w') → (m ≫= f) w = f a w'.
Proof. intros E. unfold mbind, PM_bind. by rewrite E. Qed.

Lemma in_kernel_Ok {A} (c : M A) k p a k' : c k = Ok (a, k') → in_kernel c (Pworld k p) = Ok (a, Pworld k' p).
Proof. intros E. unfold in_kernel. simpl. by rewrite E. Qed.

Tactic Notation "pipe_step" uconstr(E) :=
  erewrite pm_bind_Ok by (apply in_kernel_Ok; eapply E); cbv beta iota zeta.
Ltac pipe_pure := erewrite pm_bind_Ok by reflexivity; cbv beta iota zeta.

Lemma blocked_set_rb sd r p : blocked_at sd (set_rb r p) = blocked_at sd p.
Proof. by destruct sd. Qed.

Lemma blocked_set sd sd' v p : blocked_at sd' (set_blocked sd v p) = if decide (sd' = sd) then v else blocked_at sd' p.
Proof. by destruct sd, sd'. Qed.

Lemma rb_set_blocked sd v p : rb (set_blocked sd v p) = rb p.
Proof. by destruct sd. Qed.

Lemma other_ne sd : other sd ≠ sd.
Proof. by destruct sd. Qed.

Lemma side_cases sd sd' : sd' = sd ∨ sd' = other sd.
Proof. destruct sd, sd'; auto. Qed.

(** Up to the count. *)
Lemma pass_counts cap k p l o :
  ring_seq cap (rb p) l → 0 <= op_size o →
  ∃ out r', op_resume o (Pworld k p) =
      (if 0 <? Z.of_nat (length (moved cap l o)) then
         other_prio ← wake_other (other (op_side o));
         _ ← in_kernel (irq_restore (irq_enabled k));
         _ ← in_kernel (when (0 <=? other_prio) (sched_switch other_prio));
         mret (Return (Z.of_nat (length (moved cap l o)), out))
       else
         this ← pget (blocked_at (op_side o));
         isr ← in_kernel irq_is_in;
         if (bool_decide (is_Some this) || isr)%bool then
           _ ← in_kernel (irq_restore (irq_enabled k));
           mret (Return (0, out))
         else
           a ← in_kernel (gets sched_active_thread);
           _ ← pset (set_blocked (op_side o) a);
           me ← in_kernel (nonnull a);
           _ ← in_kernel (sched_set_status me STATUS_SLEEPING);
           _ ← in_kernel (irq_restore (irq_enabled k));
           _ ← in_kernel thread_yield_higher;
           mret Wait) (Pworld (set_irq_enabled false k) (set_rb r' p)) ∧
    take (length (moved cap l o)) out = moved cap l o ∧ ring_seq cap r' (left_over cap l o).
Proof.
  intros Hring Hn. destruct (op_fun_Ok cap (rb p) l o Hring Hn) as (out & r' & E & Hout & Hr').
  exists out, r'. split; [|done]. unfold op_resume, pipe_rw_loop.
  erewrite pm_bind_Ok by reflexivity. cbn [kernel pipe fst snd].
  erewrite pm_bind_Ok by (unfold on_ring; cbn [kernel pipe]; rewrite E; reflexivity). reflexivity.
Qed.

Section Pass.
Variables (idle cap : Z).

(** What a pass guarantees about the kernel. *)
Definition kernel_ok st st' : Prop :=
  (∃ Q', sys_inv idle Q' st') ∧ in_isr st' = in_isr st.

(** Bytes move: a waiting thread of the other side becomes ready. *)
Lemma pass_moves Q k t T p l o :
  running Q k t T → idle ∈ Q (RUNQUEUE THREAD_PRIORITY_IDLE) → ring_seq cap (rb p) l → 0 < op_size o →
  0 < Z.of_nat (length (moved cap l o)) →
  (∀ u, blocked_at (other (op_side o)) p = Some u → sleeping k u) →
  ∃ out k' p', op_resume o (Pworld k p) = Ok (Return (Z.of_nat (length (moved cap l o)), out), Pworld k' p') ∧
    take (length (moved cap l o)) out = moved cap l o ∧ ring_seq cap (rb p') (left_over cap l o) ∧
    blocked_at (op_side o) p' = blocked_at (op_side o) p ∧ blocked_at (other (op_side o)) p' = None ∧
    kernel_ok k k' ∧ (∀ u, blocked_at (other (op_side o)) p = Some u → ∃ U, ready k' u U) ∧
    ∀ v, blocked_at (other (op_side o)) p ≠ Some v → keeps k k' v.
Proof.
  intros Hr Hid Hring Hn Hm Hsl. destruct (pass_counts cap k p l o Hring ltac:(lia)) as (out & r' & E & Hout & Hr').
  exists out. rewrite E, (proj2 (Z.ltb_lt _ _) Hm). clear E.
  destruct (blocked_at (other (op_side o)) p) as [u|] eqn:Eb.
  - destruct (Hsl u eq_refl) as (U & HU & HUs).
    destruct (pass_wakes Q k t T u U Hr HU HUs) as (k1 & k2 & E1 & E2 & (a & A & Ha) & Hi & Hrdy & Hkeep).
    pose proof (thr_ok _ _ _ _ (run_kinv _ _ _ _ Hr) HU) as [Hp _].
    assert (wake_other (other (op_side o)) (Pworld (set_irq_enabled false k) (set_rb r' p)) =
      Ok (priority U, Pworld k1 (set_blocked (other (op_side o)) None (set_rb r' p)))) as EW.
    { unfold wake_other. pipe_pure. cbn [pipe]. rewrite blocked_set_rb, Eb. pipe_pure.
      pipe_step (get_thread_Ok (set_irq_enabled false k) u U (proj1 HU)). by pipe_step E1. }
    exists k2, (set_blocked (other (op_side o)) None (set_rb r' p)). split.
    { rewrite (pm_bind_Ok _ _ _ _ _ EW). pipe_pure. cbn [kernel pipe]. rewrite (proj2 (Z.leb_le _ _)) by lia.
      unfold when. cbn [kernel pipe]. by pipe_step E2. }
    split; [done|]. split; [by rewrite rb_set_blocked|]. rewrite !blocked_set, blocked_set_rb.
    rewrite decide_False, decide_True by (done || apply not_eq_sym, other_ne). split; [done|]. split; [done|]. split.
    { split; [|done]. exists (rq_push Q (priority U) u). split; [by exists a, A|by apply idle_push]. }
    split; [by intros ? [= <-]|]. intros v Hv. apply Hkeep. congruence.
  - exists k, (set_rb r' p). split.
    { erewrite pm_bind_Ok by (unfold wake_other; pipe_pure; cbn [pipe]; rewrite blocked_set_rb, Eb; reflexivity).
      pipe_pure. cbn [kernel pipe]. pipe_pure. by destruct k. }
    split; [done|]. split; [done|]. rewrite !blocked_set_rb. split; [done|]. split; [done|].
    split; [split; [exists Q; split; [by exists t, T|done]|done]|]. split; [done|]. intros v _. by apply keeps_env.
Qed.

(** Nothing moves, and the call does not wait. *)
Lemma pass_nothing k p l o :
  ring_seq cap (rb p) l → 0 < op_size o → stuck cap (op_side o) l →
  is_Some (blocked_at (op_side o) p) ∨ in_isr k = true →
  ∃ out r', op_resume o (Pworld k p) = Ok (Return (0, out), Pworld k (set_rb r' p)) ∧ ring_seq cap r' l.
Proof.
  intros Hring Hn Hst Hb. destruct (pass_counts cap k p l o Hring ltac:(lia)) as (out & r' & E & _ & Hr').
  destruct (moved_stuck cap (rb p) l o Hring Hn) as [[_ ?]|(Hm & _ & El)]; [done|].
  exists out, r'. split; [|by rewrite El in Hr']. rewrite E, Hm. change (0 <? Z.of_nat (length (@nil Z))) with false. cbv iota.
  pipe_pure. pipe_pure. cbn [kernel pipe in_isr set_irq_enabled]. rewrite blocked_set_rb.
  assert ((bool_decide (is_Some (blocked_at (op_side o) p)) || in_isr k)%bool = true) as ->.
  { destruct Hb as [Hb|Hb]; [by rewrite bool_decide_eq_true_2|rewrite Hb; apply orb_true_r]. }
  pipe_pure. by destruct k.
Qed.

(** Nothing moves: the thread goes to sleep. *)
Lemma pass_waits Q k t T p l o :
  running Q k t T → idle ∈ Q (RUNQUEUE THREAD_PRIORITY_IDLE) → t ≠ idle → ring_seq cap (rb p) l → 0 < op_size o →
  stuck cap (op_side o) l → blocked_at (op_side o) p = None → in_isr k = false →
  ∃ k' r', op_resume o (Pworld k p) = Ok (Wait, Pworld k' (set_blocked (op_side o) (Some t) (set_rb r' p))) ∧
    ring_seq cap r' l ∧ kernel_ok k k' ∧ sleeping k' t ∧ ∀ v, v ≠ t → keeps k k' v.
Proof.
  intros Hr Hid Hne Hring Hn Hst Hb Hi.
  destruct (pass_counts cap k p l o Hring ltac:(lia)) as (out & r' & E & _ & Hr').
  destruct (moved_stuck cap (rb p) l o Hring Hn) as [[_ ?]|(Hm & _ & El)]; [done|].
  destruct (pass_sleeps Q k t T Hr Hi) as (k1 & k2 & E1 & E2 & (a & A & Ha) & Hi2 & Hsl & Hkeep);
    [by eapply idle_other|].
  exists k2, r'. split.
  { rewrite E, Hm. change (0 <? Z.of_nat (length (@nil Z))) with false. cbv iota. pipe_pure. pipe_pure.
    cbn [kernel pipe in_isr set_irq_enabled]. rewrite blocked_set_rb, Hb, Hi, bool_decide_eq_false_2 by (by intros []).
    cbn [orb]. pipe_pure. cbn [kernel pipe sched_active_thread set_irq_enabled]. rewrite (run_active _ _ _ _ Hr).
    pipe_pure. pipe_pure. cbn [kernel pipe]. pipe_step E1. pipe_pure. cbn [kernel pipe]. by pipe_step E2. }
  split; [by rewrite El in Hr'|]. split; [|done]. split; [|by rewrite Hi2, Hi].
  exists (rq_pop Q (priority T)). split; [by exists a, A|]. eapply idle_pop; [apply Hr|done|done].
Qed.
End Pass.

(** ** The invariant holds *)

Section Inv.
Variables (idle cap : Z).

Lemma inv_kernel Q Q' l s st' :
  pipe_inv idle cap Q l s → sys_inv idle Q' st' →
  (∀ t, is_Some (pending s !! t) → keeps (kernel (world s)) st' t) →
  pipe_inv idle cap Q' l (Psys (Pworld st' (pipe (world s))) (pending s) (sent s) (got s)).
Proof.
  intros [Hsys Hring Hfifo Hb Hp] Hsys' Hk. split; try done; cbn [world kernel pipe pending].
  - intros sd t Ht. destruct (Hb sd t Ht) as (Hst & Hsl & o & Ho & Hsd). split; [done|]. split; [|by exists o].
    by eapply sleeping_keeps, Hk.
  - intros t o Ho. destruct (Hp t o Ho) as (Hne & Hn & Hd). split; [done|]. split; [done|].
    destruct Hd as [(T & HT)|]; [left|by right]. by eapply ready_keeps, Hk.
Qed.

(** The running thread is not one of the sleeping ones. *)
Lemma running_not_blocked Q l s t T sd :
  pipe_inv idle cap Q l s → running Q (kernel (world s)) t T → blocked_at sd (pipe (world s)) ≠ Some t.
Proof.
  intros Hinv Hr Hb. destruct (pi_blocked _ _ _ _ _ Hinv sd t Hb) as (_ & (U & HU & Hs) & _).
  pose proof (run_ready _ _ _ _ Hr) as [HT Hrs]. rewrite (thr_fun _ _ _ _ HT HU), Hs in Hrs. by vm_compute in Hrs.
Qed.

(** A pass that returns; the caller's entry, if it has one, goes away. *)
Lemma pass_return_inv Q l s t T o calls :
  pipe_inv idle cap Q l s → running Q (kernel (world s)) t T → 0 < op_size o →
  calls ⊆ pending s → (∀ sd u, blocked_at sd (pipe (world s)) = Some u → calls !! u = pending s !! u) →
  ¬ stuck cap (op_side o) l ∨ is_Some (blocked_at (op_side o) (pipe (world s))) ∨ in_isr (kernel (world s)) = true →
  ∃ r w', op_resume o (world s) = Ok (Return r, w') ∧ in_isr (kernel w') = in_isr (kernel (world s)) ∧
    pass_result cap l o (in_isr (kernel (world s))) (pipe (world s)) (Return r) ∧
    ∃ Q', pipe_inv idle cap Q' (left_over cap l o) (finish o r w' calls s).
Proof.
  intros Hinv Hr Hn Hsub Hkeepb Hdone. pose proof Hinv as [[Hset Hid] Hring Hfifo Hb Hp].
  destruct (world s) as [k p] eqn:Ew. cbn [kernel pipe] in *.
  assert (∀ bytes, bytes = moved cap l o →
    match o with Read _ => sent s = (got s ++ bytes) ++ left_over cap l o
    | Write _ => sent s ++ bytes = got s ++ left_over cap l o end) as Hff.
  { intros ? ->. pose proof (moved_fifo cap l o) as Hm. destruct o.
    - by rewrite <- app_assoc, <- Hm.
    - by rewrite Hm, Hfifo, app_assoc. }
  destruct (moved_stuck cap (rb p) l o Hring Hn) as [[Hm Hns]|(Hm & Hst & El)].
  - destruct (pass_moves idle cap Q k t T p l o Hr Hid Hring Hn Hm) as
      (out & k' & p' & E & Hout & Hring' & Hbs & Hbo & [(Q' & Hsys') Hi] & Hwoken & Hkeep).
    { intros u Hu. by apply Hb in Hu as (_ & ? & _). }
    exists (Z.of_nat (length (moved cap l o)), out), (Pworld k' p'). split; [done|]. split; [done|].
    split; [split; cbn [fst snd]; [by rewrite Nat2Z.id|split; [done|intros Hm0; by rewrite Hm0 in Hm]]|]. exists Q'.
    assert (∀ sd u, blocked_at sd p' = Some u → False) as Hnone.
    { intros sd u Hu. destruct (side_cases (op_side o) sd) as [->| ->]; [|congruence].
      rewrite Hbs in Hu. by apply Hb in Hu as (? & _). }
    assert (∀ v c, pending s !! v = Some c → ∃ V, ready k' v V) as Hrdy.
    { intros v c Hv. destruct (Hp v c Hv) as (_ & _ & [(V & HV)|Hv']).
      - destruct (decide (blocked_at (other (op_side o)) p = Some v)) as [Hbv|Hbv]; [by apply Hwoken|].
        by eapply ready_keeps, Hkeep.
      - destruct (side_cases (op_side o) (op_side c)) as [Es|Es]; rewrite Es in Hv'; [|by apply Hwoken].
        by apply Hb in Hv' as (? & _). }
    unfold finish. cbn [fst snd]. rewrite Nat2Z.id, Hout. specialize (Hff _ eq_refl).
    destruct o; (split; cbn [world kernel pipe pending sent got]; [done|done|done|by intros sd u ?%Hnone|]);
      (intros v c Hv; eapply lookup_weaken in Hv; [|exact Hsub]; destruct (Hp v c Hv) as (? & ? & _);
       split; [done|]; split; [done|]; left; by eapply Hrdy).
  - destruct Hdone as [?|Hdone]; [done|].
    destruct (pass_nothing cap k p l o Hring Hn Hst Hdone) as (out & r' & E & Hr').
    exists (0, out), (Pworld k (set_rb r' p)). split; [done|]. split; [done|]. rewrite El.
    split; [unfold pass_result; rewrite Hm; cbn [fst snd]; repeat split; intros _; right; tauto|]. exists Q. unfold finish. cbn [fst snd]. rewrite take_0. rewrite app_nil_r in *.
    specialize (Hff [] (eq_sym Hm)). rewrite El in Hff.
    destruct o; (split; cbn [world kernel pipe pending sent got]; [done|done|done| |]).
    all: try (intros sd u Hu; rewrite blocked_set_rb in Hu; rewrite (Hkeepb sd u Hu); by apply Hb).
    all: intros v c Hv; rewrite blocked_set_rb; eapply lookup_weaken in Hv; [|exact Hsub]; by apply Hp.
Qed.

(** A pass of a thread's call. *)
Lemma pass_thread_inv Q l s t T o :
  pipe_inv idle cap Q l s → running Q (kernel (world s)) t T → in_isr (kernel (world s)) = false →
  t ≠ idle → 0 < op_size o →
  ∃ r w', op_resume o (world s) = Ok (r, w') ∧ in_isr (kernel w') = false ∧
    pass_result cap l o false (pipe (world s)) r ∧ ∃ Q' l', pipe_inv idle cap Q' l' (pass_done t o r w' s).
Proof.
  intros Hinv Hr Hi Hne Hn. pose proof Hinv as [[Hset Hid] Hring Hfifo Hb Hp].
  assert (∀ sd, blocked_at sd (pipe (world s)) ≠ Some t) as Hnt by (intros; by eapply running_not_blocked).
  assert (stuck cap (op_side o) l ∧ blocked_at (op_side o) (pipe (world s)) = None ∨
    ¬ stuck cap (op_side o) l ∨ is_Some (blocked_at (op_side o) (pipe (world s)))) as [[Hst Hbn]|Hdone].
  { destruct (moved_stuck cap _ l o Hring Hn) as [[_ ?]|(_ & Hst & _)]; [by right; left|].
    destruct (blocked_at (op_side o) (pipe (world s))) as [u|]; [right; right; by exists u|by left]. }
  - destruct (world s) as [k p] eqn:Ew. cbn [kernel pipe] in *.
    destruct (pass_waits idle cap Q k t T p l o) as (k' & r' & E & Hr' & [(Q' & Hsys') Hi'] & Hsl & Hkeep); [done..|].
    exists Wait, (Pworld k' (set_blocked (op_side o) (Some t) (set_rb r' p))). split; [done|].
    split; [by rewrite <- Hi|]. split; [done|]. exists Q', l. split; cbn [world kernel pipe pending sent got pass_done]; [done| |done| |].
    + by rewrite rb_set_blocked.
    + intros sd u. rewrite blocked_set, blocked_set_rb. case_decide as Es.
      * intros [= <-]. subst sd. split; [done|]. split; [done|]. exists o. by rewrite lookup_insert_eq.
      * intros Hu. assert (u ≠ t) as Hut by (intros ->; by apply Hnt in Hu).
        destruct (Hb sd u Hu) as (? & Hsu & c & Hc & ?). split; [done|]. split; [by eapply sleeping_keeps, Hkeep|].
        exists c. by rewrite lookup_insert_ne.
    + intros u c Hc. rewrite blocked_set, blocked_set_rb. destruct (decide (t = u)) as [<-|Hut].
      * rewrite lookup_insert_eq in Hc. injection Hc as <-. rewrite decide_True by done. auto.
      * rewrite lookup_insert_ne in Hc by done. destruct (Hp u c Hc) as (? & ? & Hd). split; [done|]. split; [done|].
        destruct Hd as [(U & HU)|Hu]; [left; by eapply ready_keeps, Hkeep|right]. rewrite decide_False; [done|].
        intros Es. rewrite Es in Hu. congruence.
  - destruct (pass_return_inv Q l s t T o (delete t (pending s)) Hinv Hr Hn) as (r & w' & E & Hi' & Hres & Q' & Hinv').
    + apply delete_subseteq.
    + intros sd u Hu. apply lookup_delete_ne. intros ->. by apply Hnt in Hu.
    + destruct Hdone; auto.
    + exists (Return r), w'. split; [done|]. split; [by rewrite Hi'|]. rewrite Hi in Hres. split; [done|].
      by exists Q', (left_over cap l o).
Qed.

Lemma finish_nothing o out w calls s : finish o (0, out) w calls s = Psys w calls (sent s) (got s).
Proof. unfold finish. cbn [fst snd]. rewrite take_0, !app_nil_r. by destruct o. Qed.

Lemma zero_result Q l s o isr :
  pipe_inv idle cap Q l s → op_size o = 0 → pass_result cap l o isr (pipe (world s)) (Return (0, op_array o)).
Proof.
  intros Hinv E. unfold pass_result. cbn [fst snd]. rewrite (moved_nothing cap _ l o (pi_ring _ _ _ _ _ Hinv) E). auto.
Qed.

(** A call from an interrupt handler. *)
Lemma handler_inv Q l s o :
  pipe_inv idle cap Q l s → in_isr (kernel (world s)) = false → 0 <= op_size o →
  ∃ r w', op_handler o (world s) = Ok (Return r, w') ∧ in_isr (kernel w') = false ∧
    pass_result cap l o true (pipe (world s)) (Return r) ∧ ∃ Q' l', pipe_inv idle cap Q' l' (finish o r w' (pending s) s).
Proof.
  intros Hinv Hi Hn. pose proof (pi_sys _ _ _ _ _ Hinv) as [(t & T & Hr) Hid].
  destruct (irq_enter_Ok Q _ t T Hr Hi) as (k1 & E1 & Hr1 & Hi1 & _).
  set (s1 := Psys (Pworld k1 (pipe (world s))) (pending s) (sent s) (got s)).
  assert (pipe_inv idle cap Q l s1) as Hinv1.
  { apply inv_kernel with Q; [done|split; [by exists t, T|done]|]. intros u _. apply keeps_env; by injection E1 as <-. }
  assert (∃ r w2, op_call o (world s1) = Ok (Return r, w2) ∧ in_isr (kernel w2) = true ∧
    pass_result cap l o true (pipe (world s)) (Return r) ∧
    ∃ Q2 l2, pipe_inv idle cap Q2 l2 (finish o r w2 (pending s) s)) as (r & w2 & E2 & Hi2 & Hres & Q2 & l2 & Hinv2).
  { rewrite op_call_loop. destruct (Z.eqb_spec (op_size o) 0).
    - exists (0, op_array o), (world s1). split; [done|]. split; [done|]. split; [by apply (zero_result Q l s)|].
      exists Q, l. by rewrite finish_nothing.
    - destruct (pass_return_inv Q l s1 t T o (pending s1) Hinv1 Hr1) as (r & w2 & E & Hi2 & Hres & Q2 & Hinv2);
        [lia|done|done|by right; right|].
      exists r, w2. split; [done|]. split; [by rewrite Hi2|]. cbn [world kernel s1] in Hres. rewrite Hi1 in Hres.
      split; [done|]. exists Q2, (left_over cap l o). by destruct o. }
  pose proof (pi_sys _ _ _ _ _ Hinv2) as [(a & A & Ha) Hid2].
  assert (world (finish o r w2 (pending s) s) = w2) as Ew by (by destruct o). rewrite Ew in Ha.
  destruct (irq_exit_Ok Q2 _ a A Ha Hi2) as (k3 & E3 & Hset3 & Hi3 & _ & k3' & Hy & Ek3).
  exists r, (Pworld k3 (pipe w2)). split; [|split; [done|split; [done|]]].
  - unfold op_handler. destruct (world s) as [k p] eqn:Ews. cbn [kernel pipe] in *. subst s1. cbn [world] in E2.
    pipe_step E1. rewrite (pm_bind_Ok _ _ _ _ _ E2). destruct w2 as [k2 p2]. cbn [kernel pipe] in *. by pipe_step E3.
  - exists Q2, l2. destruct (inv_kernel Q2 Q2 l2 _ k3 Hinv2) as [H1 H2 H3 H4 H5]; [split; [|done]; exact Hset3| |].
    + intros u _. rewrite Ew. apply keeps_both with (set_in_isr false (kernel w2)); [by apply keeps_env|].
      apply keeps_both with k3'; [by apply keeps_yielded|]. subst k3. by apply keeps_env.
    + rewrite Ew in *. destruct o; by split.
Qed.

(** A call of a thread, from its beginning. *)
Lemma call_inv Q l s t T o :
  pipe_inv idle cap Q l s → running Q (kernel (world s)) t T → in_isr (kernel (world s)) = false →
  t ≠ idle → 0 <= op_size o → pending s !! t = None →
  ∃ r w', op_call o (world s) = Ok (r, w') ∧ in_isr (kernel w') = false ∧
    pass_result cap l o false (pipe (world s)) r ∧ ∃ Q' l', pipe_inv idle cap Q' l' (pass_done t o r w' s).
Proof.
  intros Hinv Hr Hi Hne Hn Hp. rewrite op_call_loop. destruct (Z.eqb_spec (op_size o) 0).
  - exists (Return (0, op_array o)), (world s). split; [done|]. split; [done|].
    split; [by apply (zero_result Q l s)|]. exists Q, l. unfold pass_done. rewrite finish_nothing, delete_id by done. by destruct s.
  - eapply pass_thread_inv; [done..|lia].
Qed.

Definition pipe_ok (s : psys) : Prop := in_isr (kernel (world s)) = false ∧ ∃ Q l, pipe_inv idle cap Q l s.

Lemma active_running Q l s t :
  pipe_inv idle cap Q l s → active s = Some t → ∃ T, running Q (kernel (world s)) t T.
Proof.
  intros Hinv Ha. destruct (pi_sys _ _ _ _ _ Hinv) as [(a & A & Hr) _]. exists A.
  pose proof (run_active _ _ _ _ Hr). unfold active in Ha. by simplify_eq.
Qed.

Lemma step_ok s s' : pipe_ok s → pipe_step idle s s' → pipe_ok s'.
Proof.
  intros [Hi (Q & l & Hinv)] [t o r w' Ha Hne Hp Hn E|t o r w' Ha Hp E|o r w' Hn E|Q' st' Hsys Hi' Hk].
  - destruct (active_running Q l s t Hinv Ha) as (T & Hr).
    destruct (call_inv Q l s t T o Hinv Hr Hi Hne Hn Hp) as (r1 & w1 & E1 & Hi1 & _ & Hok). rewrite E in E1. injection E1 as <- <-.
    split; [|done]. by destruct r, o.
  - destruct (active_running Q l s t Hinv Ha) as (T & Hr).
    destruct (pi_pending _ _ _ _ _ Hinv t o Hp) as (Hne & Hn & _).
    destruct (pass_thread_inv Q l s t T o Hinv Hr Hi Hne Hn) as (r1 & w1 & E1 & Hi1 & _ & Hok). rewrite E in E1. injection E1 as <- <-.
    split; [|done]. by destruct r, o.
  - destruct (handler_inv Q l s o Hinv Hi Hn) as (r1 & w1 & E1 & Hi1 & _ & Hok). rewrite E in E1. injection E1 as <- <-.
    split; [|done]. by destruct o.
  - split; [done|]. exists Q', l. by eapply inv_kernel.
Qed.

Lemma steps_ok s s' : rtc (pipe_step idle) s s' → pipe_ok s → pipe_ok s'.
Proof. induction 1 as [|s1 s2 s3 Hst _ IH]; [done|]. intros Hok. by eapply IH, step_ok. Qed.

Lemma init_ok Q st buffer f :
  0 < cap → cap < 2 ^ 31 → Z.of_nat (length buffer) = cap → sys_inv idle Q st → in_isr st = false →
  pipe_ok (Psys (Pworld st (pipe_init (ringbuffer_init buffer cap) f)) ∅ [] []).
Proof.
  intros Hc Hc2 Hb Hsys Hi. split; [done|]. exists Q, []. split; try done.
  - by apply ringbuffer_init_rep.
  - by intros [].
Qed.
End Inv.

(** ** Properties *)

(** The calls that are possible in [s] do not fault; they move what the buffer
    has, or has room for. *)
Definition calls_correct (idle cap : Z) (l : list Z) (s : psys) : Prop :=
  (∀ t o, active s = Some t → t ≠ idle → pending s !! t = None → 0 <= op_size o →
     ∃ r w', op_call o (world s) = Ok (r, w') ∧ pass_result cap l o false (pipe (world s)) r) ∧
  (∀ t o, active s = Some t → pending s !! t = Some o →
     ∃ r w', op_resume o (world s) = Ok (r, w') ∧ pass_result cap l o false (pipe (world s)) r) ∧
  (∀ o, 0 <= op_size o →
     ∃ r w', op_handler o (world s) = Ok (Return r, w') ∧ pass_result cap l o true (pipe (world s)) (Return r)).

(** C8: a pipe is a reliable first-in first-out channel without lost
    wakeups, as long as only the pipe wakes the threads that sleep in it. After
    any sequence of reads and writes by threads and interrupt handlers, of threads
    going on with their loops, and of other activity of the kernel that keeps the
    status of every thread with an unfinished call (which neither wakes nor stops
    it; see [stale_reader_loses_mutex] for a reader that something else wakes),
    the bytes that
    writes have accepted are the bytes that reads have returned followed by those
    in the ring buffer; a thread with an unfinished call is ready to run, or it
    sleeps, is registered in the pipe, and the buffer is empty (reader) or full
    (writer); a reader and a writer never sleep at the same time; and every call
    that is possible moves as many bytes as the buffer has, or has room for: it
    returns nothing only to a handler or if another thread waits at the same
    side, and it waits only in a thread with nothing to move. *)
Theorem pipe_reliable idle Q st buffer size f s :
  0 < size → size < 2 ^ 31 → Z.of_nat (length buffer) = size → sys_inv idle Q st → in_isr st = false →
  rtc (pipe_step idle) (Psys (Pworld st (pipe_init (ringbuffer_init buffer size) f)) ∅ [] []) s →
  ∃ l, sent s = got s ++ l ∧ ring_seq size (rb (pipe (world s))) l ∧
    (∀ t o, pending s !! t = Some o →
       (∃ T, ready (kernel (world s)) t T) ∨
       sleeping (kernel (world s)) t ∧ blocked_at (op_side o) (pipe (world s)) = Some t ∧ stuck size (op_side o) l) ∧
    (read_blocked (pipe (world s)) = None ∨ write_blocked (pipe (world s)) = None) ∧
    calls_correct idle size l s.
Proof.
  intros Hs Hs2 Hb Hsys Hi Hst.
  destruct (steps_ok idle size _ _ Hst (init_ok idle size Q st buffer f Hs Hs2 Hb Hsys Hi)) as [Hi' (Q' & l & Hinv)].
  exists l. pose proof Hinv as [_ Hring Hfifo Hbl Hp]. split; [done|]. split; [done|]. split; [|split].
  - intros t o Ho. destruct (Hp t o Ho) as (_ & _ & [?|Ht]); [by left|right].
    by destruct (Hbl _ t Ht) as (? & ? & _).
  - destruct (read_blocked (pipe (world s))) as [t|] eqn:Er; [right|by left].
    destruct (write_blocked (pipe (world s))) as [u|] eqn:Ew; [|done].
    destruct (Hbl READ_BLOCKED t Er) as (Hl & _), (Hbl WRITE_BLOCKED u Ew) as (Hf & _). unfold stuck in *.
    rewrite Hl in Hf. simpl in Hf. lia.
  - split; [|split].
    + intros t o Ha Hne Hn Ho. destruct (active_running idle size Q' l s t Hinv Ha) as (T & Hr).
      destruct (call_inv idle size Q' l s t T o Hinv Hr Hi' Hne Ho Hn) as (r & w & E & _ & ? & _). by exists r, w.
    + intros t o Ha Ho. destruct (active_running idle size Q' l s t Hinv Ha) as (T & Hr).
      destruct (Hp t o Ho) as (Hne & Hn & _).
      destruct (pass_thread_inv idle size Q' l s t T o Hinv Hr Hi' Hne Hn) as (r & w & E & _ & ? & _). by exists r, w.
    + intros o Ho. destruct (handler_inv idle size Q' l s o Hinv Hi' Ho) as (r & w & E & _ & ? & _). by exists r, w.
Qed.

(** Running the steps. *)
Definition do_call (t : Z) (o : pipe_op) (s : psys) : psys :=
  match op_call o (world s) with Ok (r, w) => pass_done t o r w s | Fault _ => s end.
Definition do_resume (t : Z) (o : pipe_op) (s : psys) : psys :=
  match op_resume o (world s) with Ok (r, w) => pass_done t o r w s | Fault _ => s end.
Definition do_handler (o : pipe_op) (s : psys) : psys :=
  match op_handler o (world s) with Ok (Return r, w) => finish o r w (pending s) s | _ => s end.

Definition returns {A} (r : result (outcome A * pworld)) : bool := match r with Ok (Return _, _) => true | _ => false end.
Definition no_fault {A} (r : result A) : bool := match r with Ok _ => true | Fault _ => false end.

Lemma do_call_step idle t o s :
  active s = Some t → t ≠ idle → pending s !! t = None → 0 <= op_size o → no_fault (op_call o (world s)) = true →
  pipe_step idle s (do_call t o s).
Proof.
  intros Ha Hne Hp Hn Hok. unfold do_call. destruct (op_call o (world s)) as [[r w]|] eqn:E; [|done].
  by apply step_call.
Qed.

Lemma do_resume_step idle t o s :
  active s = Some t → pending s !! t = Some o → no_fault (op_resume o (world s)) = true →
  pipe_step idle s (do_resume t o s).
Proof.
  intros Ha Hp Hok. unfold do_resume. destruct (op_resume o (world s)) as [[r w]|] eqn:E; [|done].
  by apply step_resume.
Qed.

Lemma do_handler_step idle o s :
  0 <= op_size o → returns (op_handler o (world s)) = true → pipe_step idle s (do_handler o s).
Proof.
  intros Hn Hok. unfold do_handler. destruct (op_handler o (world s)) as [[[r|] w]|] eqn:E; try done.
  by apply step_handler.
Qed.

(** The urgent thread reads from an empty pipe and sleeps; the main thread writes
    more than fits; the reader preempts it and goes on; a handler writes a byte. *)
Definition demo_pipe : psys :=
  Psys (Pworld demo_two (pipe_init (ringbuffer_init [0; 0; 0; 0] 4) None)) ∅ [] [].
Definition demo_read : psys := do_call 3360 (Read 3) demo_pipe.
Definition demo_written : psys := do_call 2360 (Write [1; 2; 3; 4; 5]) demo_read.
Definition demo_resumed : psys := do_resume 3360 (Read 3) demo_written.
Definition demo_handled : psys := do_handler (Write [6]) demo_resumed.

Lemma demo_two_sys : sys_inv 1360 demo_Q2 demo_two.
Proof. split; [exists 3360, (demo_high STATUS_RUNNING); apply demo_two_running|]. by vm_compute; left. Qed.

Lemma demo_pipe_steps : rtc (pipe_step 1360) demo_pipe demo_handled.
Proof.
  apply (rtc_l _ _ demo_read); [unfold demo_read; apply do_call_step; by vm_compute|].
  apply (rtc_l _ _ demo_written); [unfold demo_written; apply do_call_step; by vm_compute|].
  apply (rtc_l _ _ demo_resumed); [unfold demo_resumed; apply do_resume_step; by vm_compute|].
  apply rtc_once. unfold demo_handled. apply do_handler_step; by vm_compute.
Qed.

Lemma pipe_reliable_witness :
  pending demo_read !! 3360 = Some (Read 3) ∧ sent demo_handled = [1; 2; 3; 4; 6] ∧ got demo_handled = [1; 2; 3] ∧
  ∃ l, sent demo_handled = got demo_handled ++ l ∧ ring_seq 4 (rb (pipe (world demo_handled))) l.
Proof.
  split; [by vm_compute|]. split; [by vm_compute|]. split; [by vm_compute|].
  destruct (pipe_reliable 1360 demo_Q2 demo_two [0; 0; 0; 0] 4 None demo_handled) as (l & Hf & Hr & _);
    [lia|lia|done|apply demo_two_sys|by vm_compute|apply demo_pipe_steps|]. exists l. exact (conj Hf Hr).
Defined.

(** A pipe on the heap starts out empty. *)
Lemma pipe_malloc_empty malloc sizeof_m offset_buffer FREE size m :
  0 < size < 2 ^ 31 → 0 <= offset_buffer → malloc (u32 (sizeof_m + size)) = Some m →
  offset_buffer + size <= Z.of_nat (length m) →
  ∃ p, pipe_malloc malloc sizeof_m offset_buffer FREE size = Some p ∧ ring_seq size (rb p) [] ∧
    read_blocked p = None ∧ write_blocked p = None ∧ pipe_free (Some p) = Some FREE.
Proof.
  intros Hs Ho Hm Hl. unfold pipe_malloc. rewrite Hm. eexists. split; [done|]. split; [|done].
  apply ringbuffer_init_rep; [lia..|]. rewrite length_take, length_drop. lia.
Qed.

(** A reader that something else than the pipe wakes returns nothing, although it
    is a thread and the only reader, and stays registered. When it then waits for
    a mutex, the next writer makes it ready while it is in the mutex's queue: it
    runs behind [mutex_lock] without the mutex, and is in two queues at once. *)
Definition demo_stale : psys :=
  let k := after (thread_wakeup 3) (kernel (world demo_read)) in
  do_resume 3360 (Read 3) (Psys (Pworld k (pipe (world demo_read))) (pending demo_read) [] []).
Definition demo_mutex_wait : kstate :=
  let k := after thread_sleep (after (mutex_init 90) (kernel (world demo_stale))) in
  after (mutex_lock 90) (after (thread_wakeup 3) (after (mutex_lock 90) k)).
Definition demo_two_queues : psys :=
  do_call 2360 (Write [7]) (Psys (Pworld demo_mutex_wait (pipe (world demo_stale))) ∅ [] []).

Example stale_reader_loses_mutex :
  (pending demo_stale !! 3360 = None ∧ got demo_stale = [] ∧ read_blocked (pipe (world demo_stale)) = Some 3360) ∧
  (status <$> tcbs demo_mutex_wait !! 3360) = Some STATUS_MUTEX_BLOCKED ∧
  sched_active_thread (kernel (world demo_two_queues)) = Some 3360 ∧
  heap (kernel (world demo_two_queues)) !! MUTEX_QUEUE 90 = Some (RQ_ENTRY 3360) ∧
  heap (kernel (world demo_two_queues)) !! RUNQUEUE 5 = Some (RQ_ENTRY 3360).
Proof. by vm_compute. Qed.
